(* ===== verification/_CoqProject ===== *)
-Q . S2P
Prelude.v
FlowFrame.v
Reassembly.v
Classify.v
Replay.v
Packet.v
Obfs.v
Routes.v
Downlink.v
Stun.v
Turn.v
StreamControl.v
TurnStream.v
Text.v
Getconf.v
Sink.v
Slab.v
Engine.v
EngineInv.v
EngineProps.v
Accounts.v
Control.v
ControlInv.v
ControlProps.v
Panel.v
PanelProps.v
Channel.v
Dispatch.v
DispatchProps.v
Dataplane.v
DataplaneProps.v
Socks.v
Admission.v
Proxy.v
Worker.v
Endpoint.v
Writer.v
Session.v
