(* ===== verification/Prelude.v ===== *)
(** * CSQTT: a verification library

    CSQTT tunnels a client's IP traffic through TURN relays.  The client
    ([rust-client]) reads packets from a TUN device, spreads them over up to 126
    parallel streams, dresses each as an RTP packet and sends it through a relay
    it keeps allocated with TURN; the server ([rust-server]) undresses them, puts
    TCP flows back in order, and sends replies back over the same streams.  Code
    both ends use is in [shared].  ([windows-client/Core] repeats [rust-client]
    and [shared] file by file.)

    ** The files, and what they model

    - [Prelude]: machine integers, byte strings, results with panics, the
      tactics and lemmas every other file uses.  Standard-library operations
      (slicing, indexing, [copy_from_slice], [saturating_sub], big-endian
      conversion) are defined here the way Rust defines them; an index or slice
      out of bounds is the value [Panic], so that "does not panic" is a theorem.
    - [FlowFrame] and [Reassembly]: [shared/flow_frame.rs].  The 24-byte frame
      header, the hash that names a TCP flow, the sender's [FlowSequencer], the
      receiver's [FlowReassembler] ([push_at], gap timers, limits).
    - [Classify]: [shared/striped_scheduler.rs] and [shared/selective_fec.rs].
      The class of a packet (small, medium, bulk), which packets are sent twice,
      and the token bucket that limits the copies.
    - [Replay]: the replay windows of [rust-server/protocol.rs] ([ReplayState])
      and [rust-client/session.rs] ([ReplayWindow]).
    - [Packet]: the packet buffers and pools of [rust-client/packet.rs] and
      [rust-server/packet.rs]; the pools both as functions and as interleaved
      atomic steps of any number of threads.
    - [Obfs]: [rust-client/obfs.rs], [authenticate_inbound] of
      [rust-client/session.rs] and the RTP codec of [rust-server/protocol.rs].
    - [Routes]: [rust-server/tun_device.rs], the streams that lead to each
      tunnel address and the striping of packets over them.
    - [Downlink]: [rust-server/downlink_queue.rs], the per-client, per-class
      queues and the rings that share the downlink.
    - [Stun]: [rust-client/stun_codec.rs] and the codec half of
      [rust-client/turn_core.rs].
    - [Turn]: the state machine of [rust-client/turn_core.rs], every handler.
    - [TurnStream]: ChannelData and the dispatch of received packets in
      [rust-client/turn.rs], and the framing of the byte stream in
      [rust-client/turn_stream.rs].
    - [StreamControl]: the stream inventory, the repair rounds and
      [reconcile_streams] of [rust-server/protocol.rs], and the client's answer in
      [rust-client/protocol.rs] and [rust-client/repair.rs].
    - [Text] and [Getconf]: the text of the session requests ([GETCONF],
      [DISCONNECT]) as [rust-client/protocol.rs] writes it and
      [rust-server/protocol.rs] reads it, over the string functions of the
      standard library ([trim], [splitn], [parse], UTF-8 validity).
    - [Sink]: where the engine puts its packets.  The class [PacketOutput] is the
      trait of [rust-server/tokio_io.rs]; it is implemented by the transmit rings
      of that file ([TokioTx], with the flush loops) and by the channel of a
      shard ([RemotePacketSink] of [rust-server/dataplane.rs]).
    - [Slab]: the container of the sessions (a third-party crate), as an
      interface with laws.
    - [Engine], [EngineInv], [EngineProps]: [ProtocolEngine] of
      [rust-server/protocol.rs], one shard of the server: its state and every
      handler; the invariant with a specification lemma per handler; the
      theorems.
    - [Accounts]: [rust-server/model.rs], the passwords and devices, their rows
      in SQLite, the import of older files, and the thread that saves.
    - [Control], [ControlInv], [ControlProps]: the tasks of
      [rust-server/protocol.rs] that run beside the engine and share one
      application state: GETCONF and DISCONNECT, traffic accounting, credential
      refresh, the janitors.  [ControlInv] has the invariant of the accounts and
      the calculus that proves it handler by handler.
    - [Panel], [PanelProps]: [rust-server/web_panel.rs], logins and every
      handler that changes something, over the same state.
    - [Channel]: the epoch-tagged packet queues of [rust-client/dispatcher.rs],
      as functions and as interleaved atomic steps.
    - [Dispatch], [DispatchProps]: the rest of that file, from the device to the
      workers' queues and from the return queues to the device.
    - [Dataplane], [DataplaneProps]: [rust-server/dataplane.rs], the threads of
      the server.  The router and the shards, joined by channels, as interleaved
      steps; the loop of a server with one shard; the supervisor.  They are
      written against the class [DataplaneLogic], the trait of that file, whose
      promise [LogicLaws] the protocol engine is shown to keep for both sinks.
    - [Socks]: the SOCKS dialogue of [rust-server/proxy_route.rs] and the raw
      replies, control messages and addresses of [rust-server/tproxy.rs].
    - [Admission]: the capacity of the proxy ([rust-server/tproxy.rs]): limits,
      quotas, leases and their destructors, eviction, buffer pools.
    - [Proxy]: the loop of the UDP proxy in the same file, every arm of it.
    - [Worker]: [rust-client/worker.rs], from the groups of workers and their
      shared credentials to what a worker does after a session.
    - [Endpoint]: [rust-client/turn_endpoint.rs], the addresses of relays, and
      how a session picks one.
    - [Writer]: the writing half of [rust-client/session.rs], over the sending
      half of [rust-client/turn.rs] and [rust-client/udp_batch.rs].
    - [Session]: the rest of that file: what a session registers and gives back,
      the one request to disconnect, the reader, the request for the
      configuration.  Sessions and threads are one world that moves by atomic
      steps.

    State is passed explicitly; a method that mutates [self] returns the new
    value beside its result.  Structs are records and enums inductive types with
    the source's names; a method [T::m] is [T_m], or [m] where that is not
    ambiguous.  Clocks, random draws and transaction identifiers are arguments.

    ** What the theorems show

    - Round trips: what one end writes, the other reads.  Frame headers
      ([frame_roundtrip]), obfuscated packets in both directions and both modes
      ([client_to_server], [server_to_client]), STUN requests and addresses
      ([stun_request_roundtrip], [xor_address_roundtrip]), tunnel packets over a
      channel ([channel_data_roundtrip]), session requests
      ([getconf_roundtrip]), repair commands from the server's sessions to the
      client's workers ([stream_repair_end_to_end]).
    - The server: with the router and any number of shards taking turns in any
      order, or with the one loop of the default configuration, whatever arrives
      and whatever the kernel answers, no thread panics, packets are routed to
      shards that exist and every engine's tables stay exact
      ([sharded_server_never_panics], [unsharded_server_never_panics]; the first
      for sessions handed to shards that have room for them); a session
      that moves to another shard is there before its packets
      ([migration_precedes_its_packets]).
    - The engine: no sequence of datagrams, device packets, commands and ticks
      makes it panic or lets a table disagree with the sessions
      ([engine_never_panics]); sessions come only from authenticated requests
      ([sessions_come_from_getconf]) and end exactly when they should
      ([command_retires_exactly], [tick_ends_overdue_sessions]); packets go
      from the device to the queue of the client they are bound for and from
      there to sessions that hold its address ([downlink_reaches_its_client],
      [drain_is_bounded]); a session changes shards whole
      ([migration_hands_over]) or slots unnoticed ([compaction_is_transparent]).
    - Order and delivery: consecutive numbers on the sending side, in-order
      delivery inside the window and increasing order always on the receiving
      side ([sequencer_consecutive], [reassembler_in_order],
      [reassembler_order]); a byte stream cut back into its frames
      ([stream_frames_in_order]); first-in-first-out queues and fair turns
      ([downlink_enqueue_fifo], [downlink_dequeue_oldest],
      [downlink_fair_round]); round-robin striping ([striping_round_robin]).
    - The accounts: whatever the control task and the panel do, in whatever
      order, devices keep distinct addresses and what a restart would load is
      what the program holds ([accounts_stay_sound],
      [panel_keeps_accounts_sound]), as long as what happens meanwhile is
      harmless, which these tasks and a writer whose writes succeed are shown
      to be; such a writer coalesces without losing
      ([persistence_coalesces]) and rows read back as written
      ([database_roundtrip]).  GETCONF is answered once and grants exactly what
      the password allows ([getconf_answers_once], [getconf_grants]); only the owner
      of a session ends it ([disconnect_by_owner_only]).
    - The panel: access follows the specification of logins that expire
      ([panel_obeys_sessions]), guesses are limited ([login_guesses_bounded]),
      and a deleted client is gone everywhere ([deleted_client_is_cut_off]).
    - The client's dispatcher: the registry is a map from ids to workers, listed
      in the order of service ([registry_refines_map]); packets are striped chunk
      by chunk and full queues keep the newest ([dispatch_stripes_chunks]);
      framing and reordering are inverse ([framing_roundtrip]); batching changes
      nothing but the grouping ([udp_batches_are_the_stream]).  Its queues never
      hand out a packet of an earlier epoch ([stale_packets_never_delivered]) and
      lose no wake-up ([no_lost_wakeup]), under every interleaving.
    - The client's sessions: under every interleaving the shared tables are those
      of the live sessions and nothing is left when they end
      ([sessions_leave_nothing]), a disconnect is asked for once, of at most two
      streams ([disconnect_requested_once]), and a session that was told to stop
      ends after few operations of its own ([disconnecting_ends]).  The reader sorts what comes in
      ([reader_sorts_packets]); the first authentic answer configures
      ([request_configuration_verdict]); the writer serves the most urgent class
      first and loses, repeats and reorders nothing within it
      ([writer_turn_serves]).
    - The workers: what one fetch of credentials brought serves no more
      allocations than a relay admits ([cohort_bounded]), their rotation and delays ([quota_rotates_once],
      [after_session_waits]), the spread over hashes ([run_groups_pairs],
      [parse_hashes_clean]), and the relays they may use
      ([turn_uri_roundtrip], [select_turn_address_first]).
    - The proxy: its counters are its live leases under any order of destructors
      ([registry_invariant], [buffer_pool_bounded]), the UDP loop keeps flows,
      openings and pools within their limits and returns everything
      ([udp_loop_invariant], [udp_admission], [drain_returns_all]); the SOCKS
      dialogue conforms to its standards and survives any peer
      ([socks_command_conforms], [socks_command_outcome],
      [socks_udp_response_exact], [send_reply_received]).
    - Refinement: both replay windows implement the specification that remembers
      everything ([replay_filter_once]).
    - Invariants under every sequence of calls: the reassembler, the route
      table, the downlink queues, the TURN client; and under every interleaving
      of threads: the packet pools and the restarts of workers
      ([repair_restarts_once]).
    - Safety on hostile input: no byte string makes the decoders read out of
      bounds, and nothing is accepted or gained without a valid tag or signature
      ([server_unwrap_safe], [client_inbound_safe], [stun_decode_safe],
      [classification_total], [turn_input_authentic]).
    - Limits: duplicates, retransmissions and repair messages are rate-limited
      ([budget_rate_limit], [turn_retransmission], [repair_schedule]).
    - Some theorems exhibit faults: runs in which the reassembler loses a frame
      that arrived in time or exceeds its own limit ([full_window_loses_frame],
      [per_flow_limit_exceeded]), an adopted session that loses its endpoint
      ([adoption_over_a_held_endpoint]), a wait that confirms a snapshot never
      written ([wait_confirms_a_lost_snapshot]), an import that fails half way
      and hides the files it read ([failed_import_hides_legacy]), traffic of a
      closed session that is never counted ([closed_session_not_credited]), a
      refused client that is created all the same
      ([refused_creation_half_happens]), guesses that nobody counts
      ([full_table_guesses_uncounted]), a supervisor that never restarts what
      it supervises ([first_failure_is_final]), a connection refused although a
      session was evicted for it ([leftover_permit_refuses]), credentials fetched twice and given
      out twice ([same_credentials_again]), a restart that passes its session by,
      in the one window where it can ([repair_wakeup_can_be_lost]), and two sessions that
      ask for the configuration at once ([two_configuration_flights]).

    ** Parameters, bounds and fuel

    The cryptographic primitives are the classes [Obfs.Crypto] and
    [Stun.StunHash]; the facts the code relies on (lengths, and that opening
    inverts sealing) are [CryptoLaws] and [StunHashLaws], which the [demo]
    instances satisfy.  The slab's choice of free slots and its compaction are
    [Slab.SlabAlloc] with [SlabLaws], the random sources of the engine
    [Engine.Entropy] with [EntropyLaws]; the engine's theorems hold for every
    sink that meets [PacketOutputLaws] and [RouterOutputLaws], which both sinks
    of the server are shown to do.  Keys and passwords are made by
    [Accounts.KeyTools] and digests by [Panel.PanelTools], about which nothing is
    assumed.  The lock-free queue and the notification of the client's channels
    are [Channel.ArrayQueue] and [Channel.Notify], with their documented behaviour
    as laws.  Calls that can fail for reasons outside the program (SQLite, files,
    locks taken with a time limit) take their outcome from a list of answers, and
    a task takes what the others do at each of its pauses from a list of
    functions; the theorems hold for every such list, those about the accounts for
    lists of [ControlProps.harmless] functions and for writes that succeed.  The capacity that a buffer
    really has and the order in which a hash map is walked are arguments of
    [Proxy]; time-outs, and the moments at which sessions are told to stop or are
    aborted, are choices of a step in [Session].  Loops that are not structural take fuel equal to a length
    they cannot exceed: the attribute walks of STUN and the record walk of [Obfs]
    advance by at least one byte per round, the retransmission loop of [Turn] by
    one request, the drain loop of [FlowFrame] removes one frame; the theorems
    about them state the result itself, not the result if there is one.
    Hypotheses that a clock or counter stays below [2^64] are explicit; so is, in
    the runs of the server, that a session is adopted by a shard that does not
    hold its endpoint, without which the tables can disagree
    ([adoption_over_a_held_endpoint]).

    ** What is not modelled

    The TCP relay of the proxy and the tasks that copy its responses, the routing
    rules and the child process of [proxy_route.rs], the driver tasks of
    [rust-client/turn.rs], opening sockets and the batched system calls
    themselves, the queue gauge of [DataplaneHandle], the acquisition of relay
    credentials, the user interfaces, the Windows copies of the client's files,
    and whatever only formats, logs or measures. *)

From stdpp Require Export base tactics list gmap strings.
From Stdlib Require Export ZArith Lia.

#[global] Open Scope Z_scope.
#[global] Unset Lia Cache.

(** ** Machine integers

    An unsigned integer of width [w] is a [Z] in [0, 2^w); the wrapping,
    saturating and checked operations of the standard library are written
    out.  [usize] is the 64-bit one. *)

Definition u8_of (z : Z) : Z := z mod 2 ^ 8.
Definition u16_of (z : Z) : Z := z mod 2 ^ 16.
Definition u32_of (z : Z) : Z := z mod 2 ^ 32.
Definition u64_of (z : Z) : Z := z mod 2 ^ 64.

Definition U16_MAX : Z := 2 ^ 16 - 1.
Definition U32_MAX : Z := 2 ^ 32 - 1.
Definition U64_MAX : Z := 2 ^ 64 - 1.
Definition USIZE_MAX : Z := 2 ^ 64 - 1.
(** No slice is longer. *)
Definition ISIZE_MAX : Z := 2 ^ 63 - 1.

Definition is_u8 (z : Z) : Prop := 0 <= z < 2 ^ 8.
Definition is_u16 (z : Z) : Prop := 0 <= z < 2 ^ 16.
Definition is_u32 (z : Z) : Prop := 0 <= z < 2 ^ 32.
Definition is_u64 (z : Z) : Prop := 0 <= z < 2 ^ 64.

#[global] Instance is_u8_dec z : Decision (is_u8 z).
Proof. unfold is_u8; apply _. Defined.
#[global] Instance is_u16_dec z : Decision (is_u16 z).
Proof. unfold is_u16; apply _. Defined.
#[global] Instance is_u32_dec z : Decision (is_u32 z).
Proof. unfold is_u32; apply _. Defined.
#[global] Instance is_u64_dec z : Decision (is_u64 z).
Proof. unfold is_u64; apply _. Defined.

(** [a.saturating_sub(b)] on any unsigned width. *)
Definition sat_sub (a b : Z) : Z := Z.max 0 (a - b).
(** [a.saturating_add(b)] on [u64] and [usize]. *)
Definition sat_add (a b : Z) : Z := Z.min USIZE_MAX (a + b).
Definition sat_mul (a b : Z) : Z := Z.min USIZE_MAX (a * b).
(** [a.checked_add(b)] and [a.checked_mul(b)] on [usize]. *)
Definition checked_add (a b : Z) : option Z :=
  if a + b <=? USIZE_MAX then Some (a + b) else None.
Definition checked_mul (a b : Z) : option Z :=
  if a * b <=? USIZE_MAX then Some (a * b) else None.

(** ** Fallible code

    [Ok]/[Err] are [Result]; a function that returns an [Option] is
    [result unit].  [Panic] is an index, slice or [copy_from_slice] outside
    its bounds, so that the absence of panics is a theorem and not an
    assumption of the model. *)

Inductive result (E A : Type) : Type :=
| Ok (a : A)
| Err (e : E)
| Panic.
Arguments Ok {E A} a.
Arguments Err {E A} e.
Arguments Panic {E A}.

Abbreviation opt := (result unit).
Abbreviation none := (Err tt).

#[global] Instance result_ret (E : Type) : MRet (result E) := fun _ a => Ok a.
#[global] Instance result_bind (E : Type) : MBind (result E) := fun _ _ f m =>
  match m with Ok a => f a | Err e => Err e | Panic => Panic end.
#[global] Instance result_fmap (E : Type) : FMap (result E) := fun _ _ f m =>
  match m with Ok a => Ok (f a) | Err e => Err e | Panic => Panic end.

(** [o?] and [o.ok_or(e)?] *)
Definition try_ {E A : Type} (e : E) (o : option A) : result E A :=
  match o with Some a => Ok a | None => Err e end.
(** [r.ok()] *)
Definition ok {E A : Type} (r : result E A) : option A :=
  match r with Ok a => Some a | _ => None end.

Definition safe {E A : Type} (r : result E A) : Prop := r <> Panic.

Lemma bind_ok {E A B : Type} (f : A -> result E B) (m : result E A) (b : B) :
  (m ≫= f) = Ok b -> exists a, m = Ok a /\ f a = Ok b.
Proof. destruct m; cbn; try discriminate; eauto. Qed.

Lemma safe_bind {E A B : Type} (f : A -> result E B) (m : result E A) :
  safe m -> (forall a, m = Ok a -> safe (f a)) -> safe (m ≫= f).
Proof. unfold safe; destruct m; cbn; auto; discriminate. Qed.

(** The computation returns, and its value satisfies [P]. *)
Definition yields {E A : Type} (r : result E A) (P : A -> Prop) : Prop := exists a, r = Ok a /\ P a.
Lemma yields_ret {E A : Type} (a : A) (P : A -> Prop) : P a -> yields (E := E) (Ok a) P.
Proof. by exists a. Qed.
Lemma yields_bind {E A B : Type} (r : result E A) (f : A -> result E B) (P : A -> Prop) (Q : B -> Prop) :
  yields r P -> (forall a, P a -> yields (f a) Q) -> yields (r ≫= f) Q.
Proof. intros (a & -> & Ha) Hf. exact (Hf a Ha). Qed.
Lemma yields_impl {E A : Type} (r : result E A) (P Q : A -> Prop) : yields r P -> (forall a, P a -> Q a) -> yields r Q.
Proof. intros (a & Ha & HP) HPQ. exists a. auto. Qed.
Lemma yields_safe {E A : Type} (r : result E A) (P : A -> Prop) : yields r P -> safe r.
Proof. by intros (a & -> & _). Qed.

Lemma safe_try {E A : Type} (e : E) (o : option A) : safe (try_ e o).
Proof. destruct o; discriminate. Qed.

(** A computation with a state of type [S] that may fail, and keeps what it did
    to the state when it does. *)
Definition effect (S E A : Type) : Type := S -> result E A * S.
#[global] Instance effect_ret (S E : Type) : MRet (effect S E) := fun _ a s => (Ok a, s).
#[global] Instance effect_bind (S E : Type) : MBind (effect S E) := fun _ _ f m s =>
  match m s with
  | (Ok a, s) => f a s
  | (Err e, s) => (Err e, s)
  | (Panic, s) => (Panic, s)
  end.
Lemma effect_step {S E A B : Type} (m : effect S E A) (f : A -> effect S E B) s a s' : m s = (Ok a, s') -> (m ≫= f) s = f a s'.
Proof. unfold mbind, effect_bind. by intros ->. Qed.
Lemma effect_stop {S E A B : Type} (m : effect S E A) (f : A -> effect S E B) s e s' : m s = (Err e, s') -> (m ≫= f) s = (Err e, s').
Proof. unfold mbind, effect_bind. by intros ->. Qed.

(** ** Byte strings *)

Abbreviation bytes := (list Z).

Definition wf_bytes (l : bytes) : Prop := Forall is_u8 l.

Definition len {A : Type} (l : list A) : Z := Z.of_nat (length l).

Definition zeroed (n : Z) : bytes := replicate (Z.to_nat n) 0.

(** The bytes [l[i..j]], with no bounds check. *)
Definition sub {A : Type} (l : list A) (i j : Z) : list A :=
  take (Z.to_nat (j - i)) (drop (Z.to_nat i) l).

(** [l[i]] *)
Definition at_ {E A : Type} (l : list A) (i : Z) : result E A :=
  if 0 <=? i then match l !! Z.to_nat i with Some b => Ok b | None => Panic end
  else Panic.

(** [&l[i..j]] and [&l[i..]] *)
Definition slice {E A : Type} (l : list A) (i j : Z) : result E (list A) :=
  if (0 <=? i) && (i <=? j) && (j <=? len l) then Ok (sub l i j) else Panic.
Definition slice_from {E A : Type} (l : list A) (i : Z) : result E (list A) :=
  slice l i (len l).

(** [l.get(i..j)] *)
Definition get_range {A : Type} (l : list A) (i j : Z) : option (list A) :=
  if (0 <=? i) && (i <=? j) && (j <=? len l) then Some (sub l i j) else None.

(** [dst[off..off+src.len()].copy_from_slice(src)], with no bounds check. *)
Definition splice {A : Type} (dst : list A) (off : Z) (src : list A) : list A :=
  take (Z.to_nat off) dst ++ src ++ drop (Z.to_nat (off + len src)) dst.

(** [dst[i..j].copy_from_slice(src)] *)
Definition copy_into {E A : Type} (dst : list A) (i j : Z) (src : list A) : result E (list A) :=
  if (0 <=? i) && (i <=? j) && (j <=? len dst) && (len src =? j - i)
  then Ok (splice dst i src) else Panic.

(** [l.starts_with(p)], [l.strip_prefix(p)] *)
Fixpoint strip_prefix (p l : bytes) : option bytes :=
  match p, l with
  | [], _ => Some l
  | x :: p', y :: l' => if x =? y then strip_prefix p' l' else None
  | _ :: _, [] => None
  end.
Definition starts_with (l p : bytes) : bool :=
  match strip_prefix p l with Some _ => true | None => false end.

Definition bytes_eqb (l k : bytes) : bool := bool_decide (l = k).
(** [str::cmp]: byte by byte. *)
Fixpoint bytes_leb (a b : bytes) : bool :=
  match a, b with
  | [], _ => true
  | _ :: _, [] => false
  | x :: a, y :: b => (x <? y) || ((x =? y) && bytes_leb a b)
  end.
Lemma bytes_leb_refl a : bytes_leb a a = true.
Proof. induction a as [|x a IH]; cbn; [done|]. by rewrite Z.eqb_refl, IH, orb_true_r. Qed.
Lemma bytes_leb_total a b : bytes_leb a b = true \/ bytes_leb b a = true.
Proof.
  revert b. induction a as [|x a IH]; intros [|y b]; cbn; auto. destruct (IH b) as [H|H]; rewrite H; destruct (Z.lt_trichotomy x y) as [?|[->|?]];
    rewrite ?Z.eqb_refl, ?orb_true_r; auto; [left|right|left|right]; apply orb_true_iff; left; by apply Z.ltb_lt.
Qed.
Lemma bytes_leb_antisymm a b : bytes_leb a b = true -> bytes_leb b a = true -> a = b.
Proof.
  revert b. induction a as [|x a IH]; intros [|y b]; cbn; try done. rewrite !orb_true_iff, !andb_true_iff, !Z.ltb_lt, !Z.eqb_eq.
  intros [?|[-> ?]] [?|[? ?]]; try lia. f_equal. auto.
Qed.
Lemma bytes_leb_trans a b c : bytes_leb a b = true -> bytes_leb b c = true -> bytes_leb a c = true.
Proof.
  revert b c. induction a as [|x a IH]; intros [|y b] [|z c]; cbn; try done. rewrite !orb_true_iff, !andb_true_iff, !Z.ltb_lt, !Z.eqb_eq.
  intros [?|[-> ?]] [?|[-> ?]]; try (left; lia). right. eauto.
Qed.

(** A byte-string literal [b"..."]. *)
Definition b_ (s : string) : bytes := (fun c => Z.of_N (Ascii.N_of_ascii c)) <$> String.list_ascii_of_string s.

(** Big-endian encoding: [x.to_be_bytes()] and [from_be_bytes]. *)
Fixpoint be_bytes (n : nat) (z : Z) : bytes :=
  match n with
  | O => []
  | S m => (z / 256 ^ Z.of_nat m) mod 256 :: be_bytes m z
  end.
Definition be_val (l : bytes) : Z := foldl (fun acc b => acc * 256 + b) 0 l.

(** [u16::from_be_bytes([a, b])] *)
Definition be16 (a b : Z) : Z := be_val [a; b].

(** ** Tactics and hint databases *)

Create HintDb csqtt.

(** Turns the boolean tests of the code into propositions. *)
Ltac bool_prop :=
  repeat match goal with
  | H : (_ && _) = true |- _ => apply andb_true_iff in H; destruct H
  | H : (_ && _) = false |- _ => apply andb_false_iff in H
  | H : (_ || _) = true |- _ => apply orb_true_iff in H
  | H : (_ || _) = false |- _ => apply orb_false_iff in H; destruct H
  | H : negb _ = true |- _ => apply negb_true_iff in H
  | H : negb _ = false |- _ => apply negb_false_iff in H
  | H : (_ <=? _) = true |- _ => apply Z.leb_le in H
  | H : (_ <=? _) = false |- _ => apply Z.leb_gt in H
  | H : (_ <? _) = true |- _ => apply Z.ltb_lt in H
  | H : (_ <? _) = false |- _ => apply Z.ltb_ge in H
  | H : (_ =? _) = true |- _ => apply Z.eqb_eq in H
  | H : (_ =? _) = false |- _ => apply Z.eqb_neq in H
  | H : bool_decide _ = true |- _ => apply bool_decide_eq_true in H
  | H : bool_decide _ = false |- _ => apply bool_decide_eq_false in H
  end.

(** Splits the first [if] or [match] of the goal, keeping the equation. *)
Ltac split_case :=
  match goal with
  | |- context [if ?b then _ else _] => destruct b eqn:?
  | |- context [match ?x with _ => _ end] => destruct x eqn:?
  end.

Ltac split_case_in H :=
  match type of H with
  | context [if ?b then _ else _] => destruct b eqn:?
  | context [match ?x with _ => _ end] => destruct x eqn:?
  end.

(** Decomposes [m ≫= f = Ok b] hypotheses. *)
Ltac inv_bind :=
  repeat match goal with
  | H : (_ ≫= _) = Ok _ |- _ =>
      let a := fresh "a" in let H1 := fresh "Hb" in
      apply bind_ok in H; destruct H as (a & H1 & H)
  end.

(** ** Lemmas on machine integers *)

Lemma u32_of_range z : is_u32 (u32_of z).
Proof. apply Z.mod_pos_bound; lia. Qed.
Lemma u16_of_range z : is_u16 (u16_of z).
Proof. apply Z.mod_pos_bound; lia. Qed.
Lemma u64_of_range z : is_u64 (u64_of z).
Proof. apply Z.mod_pos_bound; lia. Qed.
Lemma u8_of_range z : is_u8 (u8_of z).
Proof. apply Z.mod_pos_bound; lia. Qed.
Lemma u32_of_small z : is_u32 z -> u32_of z = z.
Proof. intros; apply Z.mod_small; assumption. Qed.
Lemma u16_of_small z : is_u16 z -> u16_of z = z.
Proof. intros; apply Z.mod_small; assumption. Qed.

#[export] Hint Resolve u8_of_range u16_of_range u32_of_range u64_of_range : csqtt.

(** ** Lemmas on byte strings *)

Lemma len_nonneg {A} (l : list A) : 0 <= len l.
Proof. unfold len; lia. Qed.
Lemma len_nil {A} : len (@nil A) = 0.
Proof. reflexivity. Qed.
Lemma len_cons {A} (x : A) l : len (x :: l) = 1 + len l.
Proof. unfold len; cbn [length]; lia. Qed.
Lemma len_app {A} (l k : list A) : len (l ++ k) = len l + len k.
Proof. unfold len; rewrite length_app; lia. Qed.
Lemma len_zeroed n : 0 <= n -> len (zeroed n) = n.
Proof. intros; unfold len, zeroed; rewrite length_replicate; lia. Qed.
Lemma len_sub {A} (l : list A) i j :
  0 <= i -> i <= j -> j <= len l -> len (sub l i j) = j - i.
Proof.
  intros; unfold len, sub in *. rewrite length_take, length_drop. lia.
Qed.
Lemma len_splice {A} (d s : list A) i :
  0 <= i -> i + len s <= len d -> len (splice d i s) = len d.
Proof.
  intros; unfold splice, len in *.
  rewrite !length_app, length_take, length_drop. lia.
Qed.

Lemma sub_app_l {A} (l k : list A) i j :
  0 <= i -> i <= j -> j <= len l -> sub (l ++ k) i j = sub l i j.
Proof.
  intros; unfold sub, len in *.
  rewrite drop_app_le by lia. rewrite take_app_le; [done|rewrite length_drop; lia].
Qed.
Lemma sub_app_r {A} (l k : list A) i j :
  len l <= i -> i <= j -> sub (l ++ k) i j = sub k (i - len l) (j - len l).
Proof.
  intros; unfold sub, len in *.
  rewrite drop_app_ge by lia. f_equal; [lia|f_equal; lia].
Qed.
Lemma sub_all {A} (l : list A) : sub l 0 (len l) = l.
Proof.
  unfold sub, len. change (Z.to_nat 0) with 0%nat. rewrite drop_0, take_ge; [done|lia].
Qed.
Lemma sub_app_mid {A} (a b c : list A) i j :
  i = len a -> j = len a + len b -> sub (a ++ b ++ c) i j = b.
Proof.
  intros -> ->. pose proof (len_nonneg b).
  rewrite sub_app_r by lia. rewrite Z.sub_diag, Z.add_simpl_l.
  rewrite sub_app_l by lia. apply sub_all.
Qed.
Lemma sub_app_end {A} (a b : list A) i j :
  i = len a -> j = len a + len b -> sub (a ++ b) i j = b.
Proof.
  intros. replace (a ++ b) with (a ++ b ++ []) by (by rewrite app_nil_r).
  now apply sub_app_mid.
Qed.
Lemma sub_app_begin {A} (a b : list A) j :
  j = len a -> sub (a ++ b) 0 j = a.
Proof. intros. change (a ++ b) with ([] ++ a ++ b). now apply sub_app_mid. Qed.

Lemma splice_app {A} (a b c s : list A) i :
  i = len a -> len s = len b -> splice (a ++ b ++ c) i s = a ++ s ++ c.
Proof.
  intros -> Hs. unfold splice, len in *.
  rewrite Nat2Z.id, take_app_length. f_equal; f_equal.
  replace (Z.to_nat (Z.of_nat (length a) + Z.of_nat (length s)))
    with (length a + length b)%nat by lia.
  rewrite drop_app_add, drop_app_length. done.
Qed.

Lemma splice_app_0 {A} (b c s : list A) : len s = len b -> splice (b ++ c) 0 s = s ++ c.
Proof. intros. by apply (splice_app []). Qed.

Lemma sub_decompose {A} (l : list A) i j :
  0 <= i -> i <= j -> j <= len l -> l = sub l 0 i ++ sub l i j ++ sub l j (len l).
Proof.
  intros Hi Hij Hj. unfold sub, len in *. change (Z.to_nat 0) with 0%nat.
  rewrite drop_0, Z.sub_0_r.
  rewrite <- (take_drop (Z.to_nat i) l) at 1. f_equal.
  rewrite <- (take_drop (Z.to_nat (j - i)) (drop (Z.to_nat i) l)) at 1. f_equal.
  rewrite drop_drop. rewrite (take_ge (drop (Z.to_nat j) l)) by (rewrite length_drop; lia).
  f_equal; lia.
Qed.

Lemma wf_sub l i j : wf_bytes l -> wf_bytes (sub l i j).
Proof. intros; unfold sub, wf_bytes. by apply Forall_take, Forall_drop. Qed.
Lemma wf_app l k : wf_bytes (l ++ k) <-> wf_bytes l /\ wf_bytes k.
Proof. apply Forall_app. Qed.
Lemma wf_zeroed n : wf_bytes (zeroed n).
Proof. apply Forall_replicate; unfold is_u8; lia. Qed.

Lemma at_ok {E A} (l : list A) i :
  0 <= i < len l -> exists b, @at_ E A l i = Ok b /\ l !! Z.to_nat i = Some b.
Proof.
  intros [H1 H2]. unfold at_, len in *. replace (0 <=? i) with true by lia.
  destruct (lookup_lt_is_Some_2 l (Z.to_nat i)) as [b Hb]; [lia|].
  rewrite Hb; eauto.
Qed.
Lemma at_inv {E A} (l : list A) i b :
  @at_ E A l i = Ok b -> 0 <= i < len l /\ l !! Z.to_nat i = Some b.
Proof.
  unfold at_, len. split_case; [|discriminate]. split_case; [|discriminate].
  intros [= ->]. bool_prop. apply lookup_lt_Some in Heqo as ?. split; [lia|done].
Qed.
Lemma at_safe {E A} (l : list A) i : 0 <= i < len l -> safe (@at_ E A l i).
Proof. intros H. destruct (@at_ok E A l i H) as (b & -> & _). discriminate. Qed.
Lemma at_byte {E} l i b : wf_bytes l -> @at_ E Z l i = Ok b -> is_u8 b.
Proof.
  intros Hwf H. apply at_inv in H as [_ H].
  eapply Forall_lookup_1 in Hwf; eauto.
Qed.
Lemma at_app_l {E A} (l k : list A) i : i < len l -> @at_ E A (l ++ k) i = at_ l i.
Proof.
  intros; unfold at_, len in *. split_case; [|done]. bool_prop.
  rewrite lookup_app_l by lia. done.
Qed.
Lemma at_app_r {E A} (l k : list A) i :
  len l <= i -> @at_ E A (l ++ k) i = at_ k (i - len l).
Proof.
  intros; unfold at_, len in *.
  replace (0 <=? i) with true by lia. replace (0 <=? i - _) with true by lia.
  rewrite lookup_app_r by lia. by replace (Z.to_nat i - length l)%nat
    with (Z.to_nat (i - Z.of_nat (length l))) by lia.
Qed.

Lemma slice_ok {E A} (l : list A) i j :
  0 <= i -> i <= j -> j <= len l -> @slice E A l i j = Ok (sub l i j).
Proof.
  intros; unfold slice.
  replace (_ && _ && _) with true; [done|symmetry; rewrite !andb_true_iff; lia].
Qed.
Lemma slice_inv {E A} (l k : list A) i j :
  @slice E A l i j = Ok k -> 0 <= i /\ i <= j /\ j <= len l /\ k = sub l i j.
Proof. unfold slice; split_case; [|discriminate]; intros [= <-]; bool_prop; auto. Qed.
Lemma slice_safe {E A} (l : list A) i j :
  0 <= i -> i <= j -> j <= len l -> safe (@slice E A l i j).
Proof. intros; rewrite slice_ok by done; discriminate. Qed.
Lemma slice_from_ok {E A} (l : list A) i :
  0 <= i -> i <= len l -> @slice_from E A l i = Ok (sub l i (len l)).
Proof. intros; apply slice_ok; lia. Qed.
Lemma get_range_Some {A} (l k : list A) i j :
  get_range l i j = Some k -> 0 <= i /\ i <= j /\ j <= len l /\ k = sub l i j.
Proof. unfold get_range; split_case; [|discriminate]; intros [= <-]; bool_prop; auto. Qed.
Lemma copy_into_ok {E A} (d s : list A) i j :
  0 <= i -> i <= j -> j <= len d -> len s = j - i -> @copy_into E A d i j s = Ok (splice d i s).
Proof.
  intros; unfold copy_into.
  replace (_ && _ && _ && _) with true; [done|symmetry; rewrite !andb_true_iff; lia].
Qed.

#[export] Hint Resolve at_safe slice_safe safe_try : csqtt.

Lemma strip_prefix_app p l : strip_prefix p (p ++ l) = Some l.
Proof. induction p; cbn; [done|]. by rewrite Z.eqb_refl. Qed.
Lemma strip_prefix_Some p l k : strip_prefix p l = Some k -> l = p ++ k.
Proof.
  revert l; induction p as [|x p IH]; intros [|y l]; cbn; try congruence.
  split_case; [|discriminate]. bool_prop; subst. intros H; f_equal; auto.
Qed.
Lemma starts_with_app p l : starts_with (p ++ l) p = true.
Proof. unfold starts_with. by rewrite strip_prefix_app. Qed.

(** ** Big-endian round trips *)

Lemma length_be_bytes n z : length (be_bytes n z) = n.
Proof. induction n; cbn; auto. Qed.
Lemma len_be_bytes n z : len (be_bytes n z) = Z.of_nat n.
Proof. unfold len. by rewrite length_be_bytes. Qed.
Lemma wf_be_bytes n z : wf_bytes (be_bytes n z).
Proof.
  induction n; constructor; auto. apply Z.mod_pos_bound; lia.
Qed.

Lemma foldl_be_bytes n a z :
  foldl (fun acc b => acc * 256 + b) a (be_bytes n z) = a * 256 ^ Z.of_nat n + z mod 256 ^ Z.of_nat n.
Proof.
  revert a; induction n as [|n IH]; intros a; cbn [be_bytes foldl].
  - rewrite Z.mod_1_r. lia.
  - rewrite IH. rewrite Nat2Z.inj_succ, Z.pow_succ_r by lia.
    set (p := 256 ^ Z.of_nat n). assert (0 < p) by (apply Z.pow_pos_nonneg; lia).
    rewrite (Z.mul_comm 256 p), Z.rem_mul_r by lia. lia.
Qed.

Lemma be_val_be_bytes n z : be_val (be_bytes n z) = z mod 256 ^ Z.of_nat n.
Proof. unfold be_val. rewrite foldl_be_bytes. lia. Qed.

Lemma be_val_be_bytes_id n z : 0 <= z < 256 ^ Z.of_nat n -> be_val (be_bytes n z) = z.
Proof. intros; rewrite be_val_be_bytes. by apply Z.mod_small. Qed.

Lemma be_val_snoc l b : be_val (l ++ [b]) = be_val l * 256 + b.
Proof. unfold be_val. by rewrite foldl_app. Qed.

Lemma be_bytes_snoc n z : be_bytes (S n) z = be_bytes n (z / 256) ++ [z mod 256].
Proof.
  induction n as [|n IH]; cbn [be_bytes app] in *.
  - cbn. by rewrite Z.div_1_r.
  - rewrite IH. f_equal. rewrite Zdiv.Zdiv_Zdiv by (try apply Z.pow_nonneg; lia).
    by rewrite Nat2Z.inj_succ, Z.pow_succ_r by lia.
Qed.

Lemma be_bytes_be_val l : wf_bytes l -> be_bytes (length l) (be_val l) = l.
Proof.
  induction l as [|b l IH] using rev_ind; [done|].
  intros [Hl Hb]%wf_app. rewrite length_app, Nat.add_comm. cbn [length Nat.add].
  rewrite be_bytes_snoc, be_val_snoc. inversion Hb as [|? ? Hb' _]; subst. unfold is_u8 in Hb'.
  rewrite Z.div_add_l, (Z.div_small b), Z.add_0_r, IH by (done || lia).
  f_equal; f_equal. rewrite Z.add_comm, Z.mod_add by lia. apply Z.mod_small; lia.
Qed.

Lemma be_val_bound l : wf_bytes l -> 0 <= be_val l < 256 ^ len l.
Proof.
  intros H. rewrite <- (be_bytes_be_val l H) at 1 2. rewrite be_val_be_bytes.
  unfold len. apply Z.mod_pos_bound, Z.pow_pos_nonneg; lia.
Qed.

Lemma be16_bound a b : is_u8 a -> is_u8 b -> is_u16 (be16 a b).
Proof. unfold is_u8, is_u16, be16, be_val; cbn [foldl]; lia. Qed.

(** ** Taking a byte string apart *)

Lemma split_at {A} (l : list A) n :
  0 <= n <= len l -> exists a b, l = a ++ b /\ len a = n /\ b = sub l n (len l).
Proof.
  intros [H1 H2]. exists (sub l 0 n), (sub l n (len l)). repeat split.
  - rewrite (sub_decompose l 0 n) at 1 by lia. reflexivity.
  - rewrite len_sub; lia.
Qed.

Lemma sub_app_tail {A} (a b : list A) n : n = len a -> sub (a ++ b) n (len (a ++ b)) = b.
Proof. intros ->. apply sub_app_end; [done|]. by rewrite len_app. Qed.

(** Computes the length of a concatenation of known pieces. *)
Ltac len_simpl :=
  repeat first [rewrite len_app | rewrite len_cons | rewrite len_be_bytes | rewrite len_nil].

Lemma lxor_bound n a b :
  0 <= n -> 0 <= a < 2 ^ n -> 0 <= b < 2 ^ n -> 0 <= Z.lxor a b < 2 ^ n.
Proof.
  intros Hn [Ha1 Ha2] [Hb1 Hb2]. assert (0 <= Z.lxor a b) by (apply Z.lxor_nonneg; lia).
  split; [done|]. apply Z.bounded_iff_bits_nonneg; [lia..|]. intros l Hl.
  rewrite Z.lxor_spec, (proj1 (Z.bounded_iff_bits_nonneg n a Hn Ha1) Ha2 l Hl),
    (proj1 (Z.bounded_iff_bits_nonneg n b Hn Hb1) Hb2 l Hl). done.
Qed.

Lemma shiftr_bound n k a : 0 <= k -> 0 <= a < 2 ^ n -> 0 <= Z.shiftr a k < 2 ^ n.
Proof.
  intros Hk [H1 H2]. split; [by apply Z.shiftr_nonneg|].
  rewrite Z.shiftr_div_pow2 by done.
  apply Z.le_lt_trans with a; [|done]. apply Z.div_le_upper_bound; [apply Z.pow_pos_nonneg; lia|].
  assert (0 < 2 ^ k) by (apply Z.pow_pos_nonneg; lia). nia.
Qed.

(** ** Reading and writing pieces of a concatenation *)

Lemma copy_into_eq {E A} (l pre mid post src : list A) i j :
  l = pre ++ mid ++ post -> i = len pre -> j = len pre + len mid -> len src = len mid ->
  @copy_into E A l i j src = Ok (pre ++ src ++ post).
Proof.
  intros -> -> -> Hs. pose proof (len_nonneg pre). pose proof (len_nonneg mid). pose proof (len_nonneg post).
  rewrite copy_into_ok by (rewrite ?len_app; lia). by rewrite splice_app.
Qed.
Lemma slice_eq {E A} (l pre mid post : list A) i j :
  l = pre ++ mid ++ post -> i = len pre -> j = len pre + len mid -> @slice E A l i j = Ok mid.
Proof.
  intros -> -> ->. pose proof (len_nonneg pre). pose proof (len_nonneg mid). pose proof (len_nonneg post).
  rewrite slice_ok by (rewrite ?len_app; lia). by rewrite sub_app_mid.
Qed.
Lemma at_eq {E A} (l pre post : list A) x i :
  l = pre ++ [x] ++ post -> i = len pre -> @at_ E A l i = Ok x.
Proof. intros -> ->. rewrite at_app_r, Z.sub_diag by lia. done. Qed.

Ltac pieces := rewrite <- ?app_assoc, ?app_nil_r; cbn [app]; reflexivity.
Ltac lens := len_simpl; cbn [len length]; try lia.

(** ** Counting threads

    What the threads of a concurrent component hold together. *)

Fixpoint weight {A : Type} (f : A -> Z) (ts : list A) : Z :=
  match ts with [] => 0 | t :: ts => f t + weight f ts end.

Lemma weight_insert {A : Type} (f : A -> Z) ts i t t' :
  ts !! i = Some t -> weight f (<[i := t']> ts) = weight f ts - f t + f t'.
Proof.
  revert i; induction ts as [|u ts IH]; intros [|i] H; try done; [cbn in *; simplify_eq; lia|].
  specialize (IH i H). change (<[S i := t']> (u :: ts)) with (u :: <[i := t']> ts).
  cbn [weight]. lia.
Qed.
Lemma weight_nonneg {A : Type} (f : A -> Z) ts : (forall t, 0 <= f t) -> 0 <= weight f ts.
Proof. intros Hf. induction ts as [|u ts IH]; cbn; [lia|]. specialize (Hf u). lia. Qed.
Lemma weight_lookup {A : Type} (f : A -> Z) ts i t : (forall t, 0 <= f t) -> ts !! i = Some t -> f t <= weight f ts.
Proof.
  intros Hf. revert i; induction ts as [|u ts IH]; intros [|i] H; cbn in *; simplify_eq.
  - pose proof (weight_nonneg f ts Hf). lia.
  - specialize (IH i H). specialize (Hf u). lia.
Qed.
Lemma weight_le {A : Type} (f g : A -> Z) ts : (forall t, f t <= g t) -> weight f ts <= weight g ts.
Proof. intros H. induction ts as [|u ts IH]; cbn; [lia|]. specialize (H u). lia. Qed.

Lemma split_len {A} (l : list A) n : 0 <= n <= len l -> exists a b, l = a ++ b /\ len a = n /\ len b = len l - n.
Proof.
  intros Hn. destruct (split_at l n Hn) as (a & b & Hl & Ha & _). exists a, b. split_and!; try done.
  rewrite Hl, len_app. lia.
Qed.
Lemma len_1 {A} (l : list A) : len l = 1 -> exists x, l = [x].
Proof. destruct l as [|x [|y l]]; rewrite ?len_cons, ?len_nil; [done|eauto|]. pose proof (len_nonneg l). lia. Qed.
