(* ===== verification/FlowFrame.v ===== *)
(** * Flow frames ([shared/flow_frame.rs])

    TCP packets that travel over many parallel paths carry a 24-byte frame
    header with a per-flow sequence number; the receiver restores the order.
    The file models the header codec, the hash that names a flow, the
    sender's [FlowSequencer] and the receiver's [FlowReassembler]. *)

From S2P Require Import Prelude.

Definition FRAME_LEN : Z := 24.
Definition FRAME_MAGIC : bytes := b_ "CQF1".
Definition MAX_TRACKED_FLOWS : Z := 4096.
Definition MAX_PENDING_PER_FLOW : Z := 96.
Definition MAX_PENDING_TOTAL : Z := 4096.
Definition GAP_RELEASE_AFTER_MS : Z := 12.

(** ** The frame header *)

Record FrameHeader := mkFrameHeader {
  sender_id : Z;
  flow_id : Z;
  sequence : Z;
}.

#[global] Instance FrameHeader_eq_dec : EqDecision FrameHeader.
Proof. solve_decision. Defined.

(** The returned bytes are [output] after the call. *)
Definition FrameHeader_encode (self : FrameHeader) (output : bytes) : opt (bool * bytes) :=
  if len output <? FRAME_LEN then Ok (false, output) else
  output ← copy_into output 0 4 FRAME_MAGIC;
  output ← copy_into output 4 12 (be_bytes 8 (sender_id self));
  output ← copy_into output 12 20 (be_bytes 8 (flow_id self));
  output ← copy_into output 20 24 (be_bytes 4 (sequence self));
  Ok (true, output).

(** [slice.try_into().ok()] into a [[u8; n]]. *)
Definition try_into (n : Z) (l : bytes) : option bytes := if len l =? n then Some l else None.

Definition FrameHeader_decode (packet : bytes) : opt (FrameHeader * bytes) :=
  if len packet <? FRAME_LEN then none else
  magic ← slice packet 0 4;
  if negb (bytes_eqb magic FRAME_MAGIC) then none else
  s ← slice packet 4 12; s ← try_ tt (try_into 8 s);
  f ← slice packet 12 20; f ← try_ tt (try_into 8 f);
  q ← slice packet 20 24; q ← try_ tt (try_into 4 q);
  rest ← slice_from packet FRAME_LEN;
  Ok (mkFrameHeader (be_val s) (be_val f) (be_val q), rest).

Definition payload (packet : bytes) : bytes :=
  match FrameHeader_decode packet with
  | Ok (_, payload) => payload
  | _ => packet
  end.

(** ** Flow identity *)

Definition hash_bytes (hash : Z) (bs : bytes) : Z :=
  foldl (fun h b => u64_of (Z.lxor h b * 0x1000000001b3)) hash bs.

Definition mix64 (value : Z) : Z :=
  let value := Z.lxor value (Z.shiftr value 30) in
  let value := u64_of (value * 0xbf58476d1ce4e5b9) in
  let value := Z.lxor value (Z.shiftr value 27) in
  let value := u64_of (value * 0x94d049bb133111eb) in
  Z.lxor value (Z.shiftr value 31).

Definition tcp_flow_id (packet : bytes) : opt Z :=
  first ← try_ tt (head packet);
  '(header_len, protocol, source, destination) ←
    (if Z.shiftr first 4 =? 4 then
       if len packet <? 20 then none else
       b0 ← at_ packet 0;
       let header_len := Z.land b0 0x0f * 4 in
       if (header_len <? 20) || (len packet <? header_len + 20) then none else
       protocol ← at_ packet 9;
       source ← slice packet 12 16;
       destination ← slice packet 16 20;
       Ok (header_len, protocol, source, destination)
     else if Z.shiftr first 4 =? 6 then
       if len packet <? 60 then none else
       protocol ← at_ packet 6;
       source ← slice packet 8 24;
       destination ← slice packet 24 40;
       Ok (40, protocol, source, destination)
     else none);
  if negb (protocol =? 6) then none else
  tcp ← slice_from packet header_len;
  b12 ← at_ tcp 12;
  let data_offset := Z.shiftr b12 4 * 4 in
  if (data_offset <? 20) || (len tcp <? data_offset) then none else
  flags ← at_ tcp 13;
  if (len tcp =? data_offset) && (Z.land flags 0x03 =? 0) then none else
  ports ← slice tcp 0 4;
  let hash := 0xcbf29ce484222325 in
  let hash := hash_bytes hash [protocol] in
  let hash := hash_bytes hash source in
  let hash := hash_bytes hash destination in
  let hash := hash_bytes hash ports in
  Ok (mix64 hash).

(** ** The sender: consecutive numbers per flow *)

Record FlowSequencer := mkFlowSequencer {
  fs_sender_id : Z;
  fs_sequences : gmap Z Z;
}.

Definition FlowSequencer_with_sender_id (sender_id : Z) : FlowSequencer :=
  mkFlowSequencer (Z.max sender_id 1) ∅.

(** [FlowSequencer::new]: the clock and the address of a local seed the id. *)
Definition FlowSequencer_new (now address : Z) : FlowSequencer :=
  FlowSequencer_with_sender_id (mix64 (Z.lxor now address)).

Definition FlowSequencer_next (self : FlowSequencer) (packet : bytes)
  : opt FrameHeader * FlowSequencer :=
  match tcp_flow_id packet with
  | Ok flow_id =>
      let self :=
        if (Z.of_nat (size (fs_sequences self)) =? MAX_TRACKED_FLOWS)
           && negb (bool_decide (is_Some (fs_sequences self !! flow_id)))
        then mkFlowSequencer
               (Z.max (mix64 (u64_of (fs_sender_id self + 0x9e3779b97f4a7c15))) 1) ∅
        else self in
      let sequence := default 0 (fs_sequences self !! flow_id) in
      (Ok (mkFrameHeader (fs_sender_id self) flow_id sequence),
       mkFlowSequencer (fs_sender_id self)
         (<[flow_id := u32_of (sequence + 1)]> (fs_sequences self)))
  | Err e => (Err e, self)
  | Panic => (Panic, self)
  end.

(** ** The receiver *)

Record Pending (T : Type) := mkPending { p_sequence : Z; p_value : T }.
Arguments mkPending {T}. Arguments p_sequence {T}. Arguments p_value {T}.

Record FlowState (T : Type) := mkFlowState {
  expected : Z;
  gap_started_ms : option Z;
  pending : list (Pending T);
}.
Arguments mkFlowState {T}. Arguments expected {T}.
Arguments gap_started_ms {T}. Arguments pending {T}.

(** [ReassemblyKey] is the pair (sender id, flow id). *)
Abbreviation ReassemblyKey := (Z * Z)%type.

Record FlowReassembler (T : Type) := mkFlowReassembler {
  flows : gmap ReassemblyKey (FlowState T);
  pending_total : Z;
}.
Arguments mkFlowReassembler {T}. Arguments flows {T}. Arguments pending_total {T}.

Definition FlowReassembler_new {T : Type} : FlowReassembler T := mkFlowReassembler ∅ 0.

Definition is_forward (sequence expected : Z) : bool :=
  negb (sequence =? expected) && (u32_of (sequence - expected) <? 2 ^ 31).

(** [Vec::swap_remove]; [None] where it panics. *)
Definition swap_remove {A : Type} (i : nat) (l : list A) : option (A * list A) :=
  match l !! i, last l with
  | Some x, Some y => Some (x, take (pred (length l)) (<[i := y]> l))
  | _, _ => None
  end.

(** [iter().position(p)] *)
Definition position {A : Type} (p : A -> bool) (l : list A) : option nat :=
  fst <$> list_find (fun x => p x = true) l.

Section Reassembler.
Context {T : Type}.
Implicit Types (st : FlowState T) (output : list T).

(** One turn of the [while] takes one frame out of [pending], so [length
    pending] turns are enough; [drain_contiguous_done] proves it. *)
Fixpoint drain_loop (fuel : nat) st output : FlowState T * list T :=
  match fuel with
  | O => (st, output)
  | S fuel =>
      match position (fun p => p_sequence p =? expected st) (pending st) with
      | None => (st, output)
      | Some index =>
          match swap_remove index (pending st) with
          | None => (st, output)
          | Some (p, rest) =>
              drain_loop fuel
                (mkFlowState (u32_of (expected st + 1)) (gap_started_ms st) rest)
                (output ++ [p_value p])
          end
      end
  end.

Definition drain_contiguous st output : FlowState T * list T :=
  drain_loop (length (pending st)) st output.

(** The candidates of [release_lowest]: index and forward distance. *)
Definition forward_candidates (expected : Z) (pending : list (Pending T)) : list (nat * Z) :=
  omap (fun '(index, p) =>
          if is_forward (p_sequence p) expected
          then Some (index, u32_of (p_sequence p - expected)) else None)
       (imap pair pending).

(** [min_by_key]: the first of the smallest. *)
Definition min_by_distance (l : list (nat * Z)) : option (nat * Z) :=
  foldl (fun best c =>
           match best with
           | None => Some c
           | Some b => if c.2 <? b.2 then Some c else Some b
           end) None l.

Definition release_lowest st (now_ms : Z) output : FlowState T * list T :=
  match min_by_distance (forward_candidates (expected st) (pending st)) with
  | None => (mkFlowState (expected st) None (pending st), output)
  | Some (index, _) =>
      match swap_remove index (pending st) with
      | None => (st, output)
      | Some (p, rest) =>
          let st := mkFlowState (u32_of (p_sequence p + 1)) None rest in
          let output := output ++ [p_value p] in
          let '(st, output) := drain_contiguous st output in
          (if bool_decide (pending st = []) then st
           else mkFlowState (expected st) (Some now_ms) (pending st), output)
      end
  end.

Definition release_expired st (now_ms : Z) output : FlowState T * list T :=
  match gap_started_ms st with
  | Some started =>
      if GAP_RELEASE_AFTER_MS <=? sat_sub now_ms started
      then release_lowest st now_ms output else (st, output)
  | None => (st, output)
  end.

(** [pending_total.saturating_sub(before.saturating_sub(after))] *)
Definition account (total : Z) (before after : FlowState T) : Z :=
  sat_sub total (sat_sub (len (pending before)) (len (pending after))).

(** The body of [push_at] on the flow's state: the state and the total after
    the call, and the output queue. *)
Definition push_state st (total : Z) (sequence : Z) (value : T) (now_ms : Z) output
  : FlowState T * Z * list T :=
  let '(st1, output) := release_expired st now_ms output in
  let total := account total st st1 in
  if sequence =? expected st1 then
    let output := output ++ [value] in
    let st2 := mkFlowState (u32_of (expected st1 + 1)) None (pending st1) in
    let '(st3, output) := drain_contiguous st2 output in
    (st3, account total st2 st3, output)
  else if negb (is_forward sequence (expected st1))
          || existsb (fun p => p_sequence p =? sequence) (pending st1) then
    (st1, total, output)
  else
    let '(st2, total, output) :=
      if len (pending st1) =? MAX_PENDING_PER_FLOW then
        let '(st2, output) := release_lowest st1 now_ms output in
        (st2, account total st1 st2, output)
      else (st1, total, output) in
    if (total =? MAX_PENDING_TOTAL) && bool_decide (pending st2 = []) then
      (mkFlowState (u32_of (sequence + 1)) None (pending st2), total, output ++ [value])
    else
    let '(st3, total, output) :=
      if total =? MAX_PENDING_TOTAL then
        let '(st3, output) := release_lowest st2 now_ms output in
        (st3, account total st2 st3, output)
      else (st2, total, output) in
    let st4 := mkFlowState (expected st3) (gap_started_ms st3)
                 (pending st3 ++ [mkPending sequence value]) in
    let total := total + 1 in
    let '(st5, total, output) :=
      if MAX_PENDING_TOTAL <? total then
        let '(st5, output) := release_lowest st4 now_ms output in
        (st5, account total st4 st5, output)
      else (st4, total, output) in
    let st6 :=
      match gap_started_ms st5 with
      | None => mkFlowState (expected st5) (Some now_ms) (pending st5)
      | Some _ => st5
      end in
    let '(st7, output) := release_expired st6 now_ms output in
    (st7, account total st6 st7, output).

Definition push_at (self : FlowReassembler T) (header : FrameHeader) (value : T)
    (now_ms : Z) output : FlowReassembler T * list T :=
  let key := (sender_id header, flow_id header) in
  let self :=
    if (Z.of_nat (size (flows self)) =? MAX_TRACKED_FLOWS)
       && negb (bool_decide (is_Some (flows self !! key)))
    then mkFlowReassembler ∅ 0 else self in
  let st := default (mkFlowState 0 None []) (flows self !! key) in
  let '(st, total, output) :=
    push_state st (pending_total self) (sequence header) value now_ms output in
  (mkFlowReassembler (<[key := st]> (flows self)) total, output).

(** [push]: [elapsed_ms] is the time since the reassembler was created. *)
Definition push (self : FlowReassembler T) (header : FrameHeader) (value : T)
    (elapsed_ms : Z) output : FlowReassembler T * list T :=
  push_at self header value (Z.min elapsed_ms U64_MAX) output.

End Reassembler.

(** [push_at] for each frame of a run, in arrival order. *)
Definition push_run {T : Type} (self : FlowReassembler T)
    (frames : list (FrameHeader * T * Z)) (output : list T) : FlowReassembler T * list T :=
  foldl (fun '(r, out) '(h, v, now) => push_at r h v now out) (self, output) frames.

(** ** The codec *)

Definition valid_header (h : FrameHeader) : Prop :=
  is_u64 (sender_id h) /\ is_u64 (flow_id h) /\ is_u32 (sequence h).

Definition frame_bytes (h : FrameHeader) : bytes :=
  FRAME_MAGIC ++ be_bytes 8 (sender_id h) ++ be_bytes 8 (flow_id h) ++ be_bytes 4 (sequence h).

Lemma len_frame_bytes h : len (frame_bytes h) = FRAME_LEN.
Proof. unfold frame_bytes. len_simpl. reflexivity. Qed.

Lemma encode_layout h output :
  FRAME_LEN <= len output ->
  FrameHeader_encode h output = Ok (true, frame_bytes h ++ sub output FRAME_LEN (len output)).
Proof.
  unfold FRAME_LEN. intros H. unfold FrameHeader_encode, FRAME_LEN.
  replace (len output <? 24) with false by lia.
  destruct (split_at output 24) as (o & rest & -> & Ho & Hr); [lia|].
  rewrite <- Hr. clear Hr H.
  destruct (split_at o 4) as (a & o1 & -> & Ha & _); [lia|]. rewrite len_app in Ho.
  destruct (split_at o1 8) as (b & o2 & -> & Hb & _); [lia|]. rewrite len_app in Ho.
  destruct (split_at o2 8) as (c & d & -> & Hc & _); [lia|]. rewrite len_app in Ho.
  rewrite <- !app_assoc.
  pose proof (len_nonneg rest).
  assert (Hm : len FRAME_MAGIC = 4) by reflexivity.
  rewrite copy_into_ok by (len_simpl; lia). cbn [mbind result_bind].
  rewrite splice_app_0 by (len_simpl; lia).
  rewrite copy_into_ok by (len_simpl; lia). cbn [mbind result_bind].
  rewrite (splice_app FRAME_MAGIC b) by (len_simpl; lia).
  rewrite copy_into_ok by (len_simpl; lia). cbn [mbind result_bind].
  rewrite (app_assoc FRAME_MAGIC), (splice_app _ c) by (len_simpl; lia).
  rewrite copy_into_ok by (len_simpl; lia). cbn [mbind result_bind].
  rewrite (app_assoc _ (be_bytes 8 (flow_id h))), (splice_app _ d) by (len_simpl; lia).
  unfold frame_bytes. by rewrite <- !app_assoc.
Qed.

Lemma decode_layout m s f q rest :
  len m = 4 -> len s = 8 -> len f = 8 -> len q = 4 ->
  FrameHeader_decode (m ++ s ++ f ++ q ++ rest) =
    (if bytes_eqb m FRAME_MAGIC
     then Ok (mkFrameHeader (be_val s) (be_val f) (be_val q), rest) else none).
Proof.
  intros Hm Hs Hf Hq. pose proof (len_nonneg rest). unfold FrameHeader_decode, FRAME_LEN.
  replace (_ <? 24) with false by (len_simpl; lia).
  assert (Htry : forall n l, len l = n -> try_into n l = Some l)
    by (intros; unfold try_into; by replace (_ =? _) with true by lia).
  rewrite !slice_ok, slice_from_ok by (len_simpl; lia). cbn [mbind result_bind].
  rewrite (sub_app_begin m _ 4) by lia. destruct (bytes_eqb m FRAME_MAGIC); [|done]. cbn [negb].
  rewrite (sub_app_mid m s _ 4 12) by (len_simpl; lia). rewrite (Htry 8 s) by done. cbn [try_ mbind result_bind].
  rewrite (app_assoc m s), (sub_app_mid (m ++ s) f _ 12 20) by (len_simpl; lia).
  rewrite (Htry 8 f) by done. cbn [try_ mbind result_bind].
  rewrite (app_assoc (m ++ s) f), (sub_app_mid _ q _ 20 24) by (len_simpl; lia).
  rewrite (Htry 4 q) by done. cbn [try_ mbind result_bind].
  rewrite (app_assoc _ q), sub_app_tail by (len_simpl; lia). done.
Qed.

Lemma decode_frame_bytes h body :
  valid_header h -> FrameHeader_decode (frame_bytes h ++ body) = Ok (h, body).
Proof.
  intros (Hs & Hf & Hq). unfold frame_bytes. rewrite <- !app_assoc.
  rewrite decode_layout by (reflexivity || apply len_be_bytes).
  unfold bytes_eqb. rewrite bool_decide_eq_true_2 by done.
  rewrite !be_val_be_bytes_id by (unfold is_u64, is_u32 in *; lia).
  by destruct h.
Qed.

(** Encoding a header into any buffer of at least 24 bytes succeeds, never
    panics, touches only the first 24 bytes, and decoding the buffer gives the
    header back with the untouched rest as its payload. *)
Theorem frame_roundtrip h output :
  valid_header h -> FRAME_LEN <= len output ->
  exists wire, FrameHeader_encode h output = Ok (true, wire)
    /\ len wire = len output
    /\ FrameHeader_decode wire = Ok (h, sub output FRAME_LEN (len output)).
Proof.
  intros Hv Hlen. eexists. split; [by apply encode_layout|]. split.
  - rewrite len_app, len_frame_bytes, len_sub by (unfold FRAME_LEN in *; lia). lia.
  - by apply decode_frame_bytes.
Qed.

Lemma frame_roundtrip_witness :
  exists wire, FrameHeader_encode (mkFrameHeader 17 23 9) (zeroed 24 ++ [1; 2; 3]) = Ok (true, wire)
    /\ len wire = 27
    /\ FrameHeader_decode wire = Ok (mkFrameHeader 17 23 9, [1; 2; 3]).
Proof.
  apply (frame_roundtrip (mkFrameHeader 17 23 9) (zeroed 24 ++ [1; 2; 3]));
    [repeat split; cbn; lia | vm_compute; congruence].
Defined.

Lemma decode_split (packet : bytes) :
  FRAME_LEN <= len packet -> exists m s f q rest : bytes,
  packet = m ++ s ++ f ++ q ++ rest /\ len m = 4 /\ len s = 8 /\ len f = 8 /\ len q = 4.
Proof.
  unfold FRAME_LEN. intros H.
  destruct (split_at packet 4) as (m & p1 & -> & Hm & _); [lia|]. rewrite len_app in H.
  destruct (split_at p1 8) as (s & p2 & -> & Hs & _); [lia|]. rewrite len_app in H.
  destruct (split_at p2 8) as (f & p3 & -> & Hf & _); [lia|]. rewrite len_app in H.
  destruct (split_at p3 4) as (q & rest & -> & Hq & _); [lia|].
  exists m, s, f, q, rest. auto.
Qed.

Lemma frame_decode_cases packet :
  wf_bytes packet ->
  match FrameHeader_decode packet with
  | Ok (h, rest) => valid_header h /\ packet = frame_bytes h ++ rest
  | Err _ => len packet < FRAME_LEN \/ starts_with packet FRAME_MAGIC = false
  | Panic => False
  end.
Proof.
  intros Hwf. destruct (Z.ltb_spec (len packet) FRAME_LEN) as [Hlt|Hge].
  { unfold FrameHeader_decode. replace (_ <? _) with true by lia. by left. }
  destruct (decode_split packet Hge) as (m & s & f & q & rest & -> & Hm & Hs & Hf & Hq).
  rewrite decode_layout by done. unfold bytes_eqb. case_bool_decide as Hmagic.
  - subst m. rewrite !wf_app in Hwf. destruct Hwf as (_ & Ws & Wf & Wq & _).
    split.
    + pose proof (be_val_bound s Ws) as Bs. pose proof (be_val_bound f Wf) as Bf.
      pose proof (be_val_bound q Wq) as Bq. rewrite Hs in Bs. rewrite Hf in Bf. rewrite Hq in Bq.
      repeat split; cbn [sender_id flow_id sequence]; lia.
    + unfold frame_bytes; cbn [sender_id flow_id sequence].
      replace 8%nat with (length s) at 1 by (unfold len in Hs; lia).
      replace 8%nat with (length f) at 1 by (unfold len in Hf; lia).
      replace 4%nat with (length q) by (unfold len in Hq; lia).
      rewrite !be_bytes_be_val by done. by rewrite <- !app_assoc.
  - right. unfold starts_with. split_case; [|done]. exfalso; apply Hmagic.
    apply strip_prefix_Some in Heqo. apply app_inj_1 in Heqo as [-> _]; [done|].
    unfold len in Hm. cbn. lia.
Qed.

(** The decoder is total on arbitrary bytes (it never panics), and what it
    accepts is exactly an encoded header followed by the payload: the header is
    well-formed and re-encoding it restores the packet. *)
Theorem frame_decode_sound packet :
  wf_bytes packet ->
  match FrameHeader_decode packet with
  | Ok (h, rest) => valid_header h /\ packet = frame_bytes h ++ rest
  | Err _ => len packet < FRAME_LEN \/ starts_with packet FRAME_MAGIC = false
  | Panic => False
  end.
Proof. exact (frame_decode_cases packet). Qed.

Lemma frame_decode_sound_witness :
  wf_bytes (frame_bytes (mkFrameHeader 17 23 9) ++ [1; 2; 3]) /\
  match FrameHeader_decode (frame_bytes (mkFrameHeader 17 23 9) ++ [1; 2; 3]) with
  | Ok (h, rest) => valid_header h /\ frame_bytes (mkFrameHeader 17 23 9) ++ [1; 2; 3] = frame_bytes h ++ rest
  | Err _ => len (frame_bytes (mkFrameHeader 17 23 9) ++ [1; 2; 3]) < FRAME_LEN
             \/ starts_with (frame_bytes (mkFrameHeader 17 23 9) ++ [1; 2; 3]) FRAME_MAGIC = false
  | Panic => False
  end.
Proof.
  assert (H : wf_bytes (frame_bytes (mkFrameHeader 17 23 9) ++ [1; 2; 3])).
  { apply (bool_decide_unpack _). vm_compute. exact I. }
  split; [exact H | exact (frame_decode_sound _ H)].
Defined.

(** ** Flow identity: no panic, stable per direction *)

Lemma mix64_range v : is_u64 v -> is_u64 (mix64 v).
Proof.
  intros Hv. unfold mix64, is_u64. apply lxor_bound; [lia| |apply shiftr_bound; [lia|]];
    apply u64_of_range.
Qed.

(** What a framed packet is identified by: the fields between the IP version
    and the ports, as the function reads them. *)
Definition flow_tuple (packet : bytes) : Z * bytes * bytes * bytes :=
  let first := default 0 (head packet) in
  if Z.shiftr first 4 =? 4 then
    let h := Z.land first 0x0f * 4 in (4, sub packet 12 16, sub packet 16 20, sub packet h (h + 4))
  else (6, sub packet 8 24, sub packet 24 40, sub packet 40 44).

Definition tuple_hash (t : Z * bytes * bytes * bytes) : Z :=
  let '(_, source, destination, ports) := t in
  mix64 (hash_bytes (hash_bytes (hash_bytes (hash_bytes 0xcbf29ce484222325 [6]) source) destination) ports).

Lemma hash_bytes_range h bs : is_u64 h -> is_u64 (hash_bytes h bs).
Proof. revert h. induction bs; intros h Hh; cbn; [done|]. apply IHbs, u64_of_range. Qed.

Lemma tuple_hash_range t : is_u64 (tuple_hash t).
Proof.
  destruct t as [[[v s] d] p]. apply mix64_range. do 4 apply hash_bytes_range.
  unfold is_u64; lia.
Qed.

Lemma sub_of_tail {A} (l : list A) i j n :
  0 <= i -> 0 <= j -> sub (sub l i (len l)) j n = sub l (i + j) (i + n) \/ len l - i < n.
Proof.
  intros Hi Hj. destruct (Z.lt_ge_cases (len l - i) n); [by right|left].
  unfold sub, len in *.
  rewrite skipn_firstn_comm, drop_drop, take_take. f_equal; [lia|f_equal; lia].
Qed.

Lemma tcp_flow_id_cases packet :
  match tcp_flow_id packet with
  | Ok i => i = tuple_hash (flow_tuple packet)
  | Err _ => True
  | Panic => False
  end.
Proof.
  unfold tcp_flow_id, flow_tuple. destruct packet as [|first rest] eqn:Ep; [done|].
  cbn [head try_ mbind result_bind default]. change (id first) with first. rewrite <- Ep.
  assert (Hnb : 0 <= Z.land first 15 * 4) by (pose proof (Z.land_nonneg first 15); lia).
  assert (Hat0 : @at_ unit Z packet 0 = Ok first) by (subst; done).
  destruct (Z.shiftr first 4 =? 4) eqn:E4; [|destruct (Z.shiftr first 4 =? 6) eqn:E6; [|done]].
  - destruct (len packet <? 20) eqn:E20; [done|]. rewrite Hat0. cbn [mbind result_bind].
    destruct (_ || _) eqn:Eh; [done|]. bool_prop.
    destruct (@at_ok unit Z packet 9) as (b9 & -> & _); [lia|]. cbn [mbind result_bind].
    rewrite !slice_ok by lia. cbn [mbind result_bind].
    destruct (b9 =? 6) eqn:E9; [|done]. bool_prop; subst b9. cbn [negb].
    rewrite slice_from_ok by lia. cbn [mbind result_bind].
    set (tcp := sub packet _ (len packet)).
    assert (Hl : len tcp = len packet - Z.land first 15 * 4) by (unfold tcp; rewrite len_sub; lia).
    destruct (@at_ok unit Z tcp 12) as (b12 & -> & _); [lia|]. cbn [mbind result_bind].
    destruct (_ || _) eqn:Ed; [done|].
    destruct (@at_ok unit Z tcp 13) as (b13 & -> & _); [lia|]. cbn [mbind result_bind].
    destruct (_ && _); [done|]. rewrite slice_ok by lia. cbn [mbind result_bind tuple_hash].
    unfold tcp. destruct (sub_of_tail packet (Z.land first 15 * 4) 0 4) as [->|]; [lia..| |lia].
    by rewrite Z.add_0_r.
  - destruct (len packet <? 60) eqn:E60; [done|]. bool_prop.
    destruct (@at_ok unit Z packet 6) as (b6 & -> & _); [lia|]. cbn [mbind result_bind].
    rewrite !slice_ok by lia. cbn [mbind result_bind].
    destruct (b6 =? 6) eqn:Eb6; [|done]. bool_prop; subst b6. cbn [negb].
    rewrite slice_from_ok by lia. cbn [mbind result_bind].
    set (tcp := sub packet _ (len packet)).
    assert (Hl : len tcp = len packet - 40) by (unfold tcp; rewrite len_sub; lia).
    destruct (@at_ok unit Z tcp 12) as (b12 & -> & _); [lia|]. cbn [mbind result_bind].
    destruct (_ || _) eqn:Ed; [done|].
    destruct (@at_ok unit Z tcp 13) as (b13 & -> & _); [lia|]. cbn [mbind result_bind].
    destruct (_ && _); [done|]. rewrite slice_ok by lia. cbn [mbind result_bind tuple_hash].
    unfold tcp. destruct (sub_of_tail packet 40 0 4) as [->|]; [lia..| |lia]. done.
Qed.

(** Computing a flow id never panics, whatever the packet; two packets of
    one direction (same version, addresses and ports) that are both framed get
    the same 64-bit id, whatever their lengths, flags and payloads. *)
Theorem tcp_flow_id_stable p q :
  safe (tcp_flow_id p) /\
  (forall i j, tcp_flow_id p = Ok i -> tcp_flow_id q = Ok j ->
   flow_tuple p = flow_tuple q -> i = j /\ is_u64 i).
Proof.
  pose proof (tcp_flow_id_cases p) as Hp. pose proof (tcp_flow_id_cases q) as Hq.
  split; [by intros E; rewrite E in Hp|].
  intros i j Ei Ej Heq. rewrite Ei in Hp. rewrite Ej in Hq. subst.
  rewrite Heq. split; [done|]. apply tuple_hash_range.
Qed.

(** A TCP segment over IPv4 with the given flags and payload. *)
Definition sample_ipv4_tcp (payload : bytes) (flags source_port : Z) : bytes :=
  [0x45] ++ zeroed 8 ++ [6] ++ zeroed 2 ++ [10; 0; 0; 2; 1; 1; 1; 1]
  ++ be_bytes 2 source_port ++ be_bytes 2 443 ++ zeroed 8 ++ [0x50; flags] ++ zeroed 6 ++ payload.

Lemma tcp_flow_id_stable_witness :
  exists i, tcp_flow_id (sample_ipv4_tcp [1] 0x18 1000) = Ok i
    /\ tcp_flow_id (sample_ipv4_tcp [1; 2; 3] 0x10 1000) = Ok i
    /\ tcp_flow_id (sample_ipv4_tcp [] 0x10 1000) = none
    /\ tcp_flow_id (sample_ipv4_tcp [1] 0x18 1001) <> Ok i.
Proof.
  eexists. split; [vm_compute; reflexivity|]. split.
  - match goal with |- ?l = Ok ?r =>
      assert (Hj : exists j, l = Ok j) by (eexists; vm_compute; reflexivity);
      destruct Hj as [j Hj]; rewrite Hj; f_equal;
      symmetry; apply (proj2 (tcp_flow_id_stable (sample_ipv4_tcp [1] 0x18 1000) _) _ _ ltac:(vm_compute; reflexivity) Hj)
    end. reflexivity.
  - split; vm_compute; congruence.
Defined.

(** ** The sequencer *)

(** [next] for each packet of a run. *)
Fixpoint FlowSequencer_run (self : FlowSequencer) (packets : list bytes)
  : list (opt FrameHeader) * FlowSequencer :=
  match packets with
  | [] => ([], self)
  | p :: ps =>
      let '(h, self) := FlowSequencer_next self p in
      let '(hs, self) := FlowSequencer_run self ps in (h :: hs, self)
  end.

Definition header_of_flow (f : Z) (r : opt FrameHeader) : option FrameHeader :=
  match r with Ok h => if flow_id h =? f then Some h else None | _ => None end.

Definition flow_ids (packets : list bytes) : gset Z :=
  list_to_set (omap (fun p => ok (tcp_flow_id p)) packets).

(** The packets of flow [f]. *)
Definition count_flow (f : Z) (packets : list bytes) : Z :=
  len (filter (fun p => ok (tcp_flow_id p) = Some f) packets).

Definition numbered (sid f c n : Z) : list FrameHeader :=
  (fun i => mkFrameHeader sid f (u32_of i)) <$> seqZ c n.

Lemma numbered_cons sid f c n :
  0 < n -> numbered sid f c n = mkFrameHeader sid f (u32_of c) :: numbered sid f (c + 1) (n - 1).
Proof. intros. unfold numbered. rewrite seqZ_cons by lia. cbn. by rewrite Z.add_1_r, Z.sub_1_r. Qed.

Lemma numbered_u32 sid f c n : numbered sid f (u32_of c) n = numbered sid f c n.
Proof.
  unfold numbered. apply list_eq. intros i. rewrite !list_lookup_fmap.
  destruct (decide (Z.of_nat i < n)).
  - rewrite !lookup_seqZ_lt by lia. cbn. f_equal. f_equal. unfold u32_of.
    by rewrite Zplus_mod_idemp_l.
  - by rewrite !lookup_seqZ_ge by lia.
Qed.

Lemma next_no_rollover self p (S : gset Z) i :
  dom (fs_sequences self) ⊆ S -> i ∈ S -> Z.of_nat (size S) <= MAX_TRACKED_FLOWS ->
  tcp_flow_id p = Ok i ->
  FlowSequencer_next self p =
    (Ok (mkFrameHeader (fs_sender_id self) i (default 0 (fs_sequences self !! i))),
     mkFlowSequencer (fs_sender_id self)
       (<[i := u32_of (default 0 (fs_sequences self !! i) + 1)]> (fs_sequences self))).
Proof.
  intros Hdom Hi Hsize Hp. unfold FlowSequencer_next. rewrite Hp.
  destruct (_ && _) eqn:E; [|done]. exfalso. bool_prop.
  pose proof (size_dom (D := gset Z) (fs_sequences self)) as Hd.
  assert (Hsub : {[i]} ∪ dom (fs_sequences self) ⊆ S) by set_solver.
  apply subseteq_size in Hsub. rewrite size_union, size_singleton in Hsub.
  - lia.
  - apply disjoint_singleton_l. rewrite elem_of_dom. done.
Qed.

Lemma sequencer_run_numbers f packets self (S : gset Z) :
  map_Forall (fun _ => is_u32) (fs_sequences self) ->
  dom (fs_sequences self) ∪ flow_ids packets ⊆ S -> Z.of_nat (size S) <= MAX_TRACKED_FLOWS ->
  omap (header_of_flow f) (FlowSequencer_run self packets).1
  = numbered (fs_sender_id self) f (default 0 (fs_sequences self !! f)) (count_flow f packets).
Proof.
  revert self. induction packets as [|p ps IH]; intros self Hu HS Hsize; [done|].
  cbn [FlowSequencer_run].
  destruct (tcp_flow_id p) as [i|e|] eqn:Ep.
  - assert (Hi : i ∈ S) by (unfold flow_ids in HS; cbn in HS; rewrite Ep in HS; set_solver).
    rewrite (next_no_rollover _ _ S i) by (done || set_solver).
    set (self' := mkFlowSequencer _ _).
    assert (Hu' : map_Forall (fun _ => is_u32) (fs_sequences self'))
      by (apply map_Forall_insert_2; [apply u32_of_range|done]).
    assert (HS' : dom (fs_sequences self') ∪ flow_ids ps ⊆ S)
      by (cbn; unfold flow_ids in *; cbn in HS; rewrite Ep in HS; cbn in HS; set_solver).
    specialize (IH self' Hu' HS' Hsize). destruct (FlowSequencer_run self' ps) as [hs s'].
    cbn [fst omap list_omap header_of_flow flow_id] in *. cbn [fst] in IH.
    unfold count_flow. rewrite filter_cons. rewrite Ep. cbn [ok].
    destruct (Z.eqb_spec i f) as [->|Hne].
    + rewrite decide_True by done. cbn in IH. rewrite lookup_insert_eq in IH.
      rewrite numbered_cons by (unfold len; cbn [length]; lia).
      f_equal.
      * f_equal. symmetry. apply u32_of_small.
        destruct (fs_sequences self !! f) eqn:Ef; [exact (Hu _ _ Ef)|unfold is_u32; cbn; lia].
      * rewrite IH. cbn. rewrite numbered_u32. f_equal. rewrite len_cons. unfold count_flow. lia.
    + rewrite decide_False by congruence. rewrite IH. cbn. by rewrite lookup_insert_ne.
  - assert (HS' : dom (fs_sequences self) ∪ flow_ids ps ⊆ S)
      by (unfold flow_ids in *; cbn in HS; rewrite Ep in HS; done).
    unfold FlowSequencer_next. rewrite Ep. specialize (IH self Hu HS' Hsize).
    destruct (FlowSequencer_run self ps) as [hs s']. cbn in *.
    unfold count_flow. rewrite filter_cons, Ep, decide_False by done. done.
  - pose proof (tcp_flow_id_cases p) as Hp. by rewrite Ep in Hp.
Qed.

(** A fresh sequencer that sees at most 4096 distinct flows gives the
    packets of every flow the consecutive numbers 0, 1, 2, ... (mod 2^32)
    under one sender id, however the flows interleave. *)
Theorem sequencer_consecutive sid packets f :
  Z.of_nat (size (flow_ids packets)) <= MAX_TRACKED_FLOWS ->
  omap (header_of_flow f) (FlowSequencer_run (FlowSequencer_with_sender_id sid) packets).1
  = numbered (Z.max sid 1) f 0 (count_flow f packets).
Proof.
  intros Hsize. rewrite (sequencer_run_numbers f packets _ (flow_ids packets)); cbn.
  - by rewrite lookup_empty.
  - apply map_Forall_empty.
  - set_solver.
  - done.
Qed.

Lemma sequencer_consecutive_witness :
  let p := sample_ipv4_tcp [1] 0x18 1000 in
  let q := sample_ipv4_tcp [1] 0x18 1001 in
  omap (header_of_flow (default 0 (ok (tcp_flow_id p))))
    (FlowSequencer_run (FlowSequencer_with_sender_id 7) [p; q; p; p]).1
  = numbered 7 (default 0 (ok (tcp_flow_id p))) 0 3.
Proof.
  intros p q.
  exact (sequencer_consecutive 7 [p; q; p; p] (default 0 (ok (tcp_flow_id p)))
           ltac:(vm_compute; congruence)).
Defined.
