(* ===== verification/Reassembly.v ===== *)
(** * The reassembler is sound ([shared/flow_frame.rs], [FlowReassembler])

    Order, conservation and bounds of [push_at] for every input, in-order
    delivery of any arrival order inside the window, and the runs in which a
    frame that did arrive is lost. *)

From S2P Require Import Prelude FlowFrame.

(** ** Vectors *)

Lemma swap_remove_perm {A} i (l l' : list A) x :
  swap_remove i l = Some (x, l') -> l !! i = Some x /\ l ≡ₚ x :: l'.
Proof.
  unfold swap_remove. destruct (l !! i) as [x'|] eqn:Ei; [|done].
  destruct (last l) as [y|] eqn:Ey; [|done]. intros [= -> <-]. split; [done|].
  apply last_Some in Ey as [l0 ->]. rewrite length_app, Nat.add_comm. cbn [length Nat.add pred].
  apply lookup_lt_Some in Ei as Hlt. rewrite length_app in Hlt. cbn in Hlt.
  destruct (decide (i = length l0)) as [->|Hne].
  - rewrite list_lookup_middle in Ei by done. injection Ei as ->.
    rewrite insert_app_r_alt, Nat.sub_diag by lia. cbn.
    rewrite take_app_length. by rewrite Permutation_app_comm.
  - rewrite lookup_app_l in Ei by lia. rewrite insert_app_l by lia.
    rewrite take_app_le, take_ge by (rewrite length_insert; lia).
    rewrite <- (take_drop_middle l0 i x Ei) at 1.
    rewrite insert_take_drop by lia.
    transitivity (x :: y :: take i l0 ++ drop (S i) l0).
    + rewrite (Permutation_app_comm _ [y]), <- Permutation_middle. cbn. apply perm_swap.
    + by rewrite <- Permutation_middle.
Qed.

Lemma swap_remove_total {A} i (l : list A) :
  (i < length l)%nat -> exists x l', swap_remove i l = Some (x, l').
Proof.
  intros H. unfold swap_remove. destruct (lookup_lt_is_Some_2 _ _ H) as [x ->].
  destruct (last l) eqn:E; [eauto|]. apply last_None in E as ->. cbn in H; lia.
Qed.

Lemma position_Some {A} p (l : list A) i :
  position p l = Some i -> exists x, l !! i = Some x /\ p x = true.
Proof.
  unfold position. destruct (list_find _ l) as [[j x]|] eqn:E; [|done].
  intros [= <-]. apply list_find_Some in E as (? & ? & _). eauto.
Qed.
Lemma position_None {A} p (l : list A) :
  position p l = None -> Forall (fun x => p x = false) l.
Proof.
  unfold position. destruct (list_find _ l) eqn:E; [done|]. intros _.
  apply list_find_None in E. eapply Forall_impl; [exact E|]. cbn.
  intros x Hx. by apply not_true_iff_false.
Qed.

(** ** What a step releases *)

Section Release.
Context {T : Type}.
Implicit Types (st : FlowState T) (out : list T) (p : Pending T) (ps : list (Pending T)).

(** The frames [ps] leave in this order: each lies in the half window in
    front of the number expected when it leaves, which moves behind it. *)
Inductive released : Z -> list (Pending T) -> Z -> Prop :=
| released_nil e : released e [] e
| released_cons e p ps e' :
    u32_of (p_sequence p - e) < 2 ^ 31 ->
    released (u32_of (p_sequence p + 1)) ps e' ->
    released e (p :: ps) e'.

Lemma released_app e ps e' qs e'' :
  released e ps e' -> released e' qs e'' -> released e (ps ++ qs) e''.
Proof. induction 1; cbn; [done|]. constructor; auto. Qed.

(** From [st] to [st'] the frames [ps] went from [pending] to the output. *)
Record emits st out ps st' out' : Prop := {
  em_out : out' = out ++ (p_value <$> ps);
  em_rel : released (expected st) ps (expected st');
  em_perm : pending st ≡ₚ ps ++ pending st';
}.

Lemma emits_refl st out : emits st out [] st out.
Proof. split; [by rewrite app_nil_r|constructor|done]. Qed.

Lemma emits_gap st out g : emits st out [] (mkFlowState (expected st) g (pending st)) out.
Proof. split; [by rewrite app_nil_r|constructor|done]. Qed.

Lemma emits_trans st out ps st' out' qs st'' out'' :
  emits st out ps st' out' -> emits st' out' qs st'' out'' -> emits st out (ps ++ qs) st'' out''.
Proof.
  intros [-> H1 H2] [-> H3 H4]. split.
  - by rewrite fmap_app, app_assoc.
  - by eapply released_app.
  - by rewrite H2, H4, app_assoc.
Qed.

Lemma emits_len st out ps st' out' :
  emits st out ps st' out' -> len (pending st) = len ps + len (pending st').
Proof. intros [_ _ H]. rewrite <- len_app. unfold len. by rewrite H. Qed.

Lemma emits_account st out ps st' out' total :
  emits st out ps st' out' -> len (pending st) <= total -> account total st st' = total - len ps.
Proof.
  intros H Ht. apply emits_len in H. pose proof (len_nonneg ps). pose proof (len_nonneg (pending st')).
  unfold account, sat_sub. lia.
Qed.

Lemma drain_loop_emits fuel st out st' out' :
  drain_loop fuel st out = (st', out') ->
  exists ps, emits st out ps st' out' /\ gap_started_ms st' = gap_started_ms st.
Proof.
  revert st out. induction fuel as [|fuel IH]; intros st out; cbn [drain_loop].
  { intros [= <- <-]. eauto using emits_refl. }
  destruct (position _ _) as [i|] eqn:Ep; [|intros [= <- <-]; eauto using emits_refl].
  destruct (swap_remove i _) as [[p rest]|] eqn:Es; [|intros [= <- <-]; eauto using emits_refl].
  intros H. apply IH in H as (ps & [H1 H2 H3] & Hgap). cbn in *.
  apply position_Some in Ep as (p' & Hp' & Hseq). apply swap_remove_perm in Es as [Hp Hperm].
  assert (p' = p) as -> by congruence. bool_prop.
  exists (p :: ps). split; [|done]. split; cbn.
  - by rewrite H1, <- app_assoc.
  - constructor; [rewrite Hseq, Z.sub_diag; done|]. by rewrite Hseq.
  - by rewrite Hperm, H3.
Qed.

Lemma drain_loop_done fuel st out st' out' :
  (length (pending st) <= fuel)%nat ->
  drain_loop fuel st out = (st', out') ->
  Forall (fun p => p_sequence p <> expected st') (pending st').
Proof.
  revert st out. induction fuel as [|fuel IH]; intros st out Hf; cbn [drain_loop].
  { intros [= <- <-]. destruct (pending st); [done|cbn in Hf; lia]. }
  destruct (position _ _) as [i|] eqn:Ep.
  - apply position_Some in Ep as (p' & Hp' & Hseq).
    destruct (swap_remove_total i (pending st)) as (p & rest & Es).
    { by eapply lookup_lt_Some. }
    rewrite Es. apply IH. cbn. apply swap_remove_perm in Es as [_ Hperm].
    apply Permutation_length in Hperm. cbn in Hperm. lia.
  - intros [= <- <-]. apply position_None in Ep. eapply Forall_impl; [exact Ep|].
    cbn. intros p Hp. bool_prop. done.
Qed.

(** The loop bound of [drain_contiguous] is enough: it stops only when no
    pending frame is the expected one. *)
Lemma drain_contiguous_done st out st' out' :
  drain_contiguous st out = (st', out') ->
  Forall (fun p => p_sequence p <> expected st') (pending st').
Proof. by apply drain_loop_done. Qed.

Lemma min_by_distance_aux (l : list (nat * Z)) best :
  match foldl (fun best c => match best with
                             | None => Some c
                             | Some b => if c.2 <? b.2 then Some c else Some b
                             end) best l with
  | None => best = None /\ l = []
  | Some c => (best = Some c \/ c ∈ l)
      /\ (forall b, best = Some b -> c.2 <= b.2) /\ (forall c', c' ∈ l -> c.2 <= c'.2)
  end.
Proof.
  revert best. induction l as [|c l IH]; intros best; cbn [foldl].
  { destruct best as [b|]; [|done]. split; [by left|]. split; [intros ? [= <-]; lia|set_solver]. }
  match goal with |- context [foldl _ ?b l] => specialize (IH b) end.
  destruct (foldl _ _ l) as [m|].
  - destruct IH as (H1 & H2 & H3). destruct best as [b|].
    + destruct (c.2 <? b.2) eqn:E; bool_prop; split_and!.
      * destruct H1 as [[= <-]|]; set_solver.
      * intros ? [= <-]. specialize (H2 _ eq_refl). lia.
      * intros c' [->|]%elem_of_cons; [apply H2; done|auto].
      * destruct H1 as [[= <-]|]; [by left|set_solver].
      * intros ? [= <-]. auto.
      * intros c' [->|]%elem_of_cons; [specialize (H2 _ eq_refl); lia|auto].
    + split_and!; [destruct H1 as [[= <-]|]; set_solver|done|].
      intros c' [->|]%elem_of_cons; [apply H2; done|auto].
  - destruct IH as [IH _]. destruct best as [b|]; [destruct (c.2 <? b.2)|]; done.
Qed.

Lemma elem_of_candidates e (l : list (Pending T)) i d :
  (i, d) ∈ forward_candidates e l <->
  exists p, l !! i = Some p /\ is_forward (p_sequence p) e = true /\ d = u32_of (p_sequence p - e).
Proof.
  unfold forward_candidates. rewrite list_elem_of_omap. split.
  - intros ([j p] & Hin & Hf). apply elem_of_lookup_imap in Hin as (k & q & [= -> ->] & Hk).
    destruct (is_forward _ _) eqn:E; [|done]. injection Hf as -> <-. eauto.
  - intros (p & Hi & Hf & ->). exists (i, p). rewrite Hf. split; [|done].
    apply elem_of_lookup_imap. eauto.
Qed.

(** Either nothing is in front of the window and only the timer is cleared,
    or the nearest frame leaves, with all that follow it without a gap. *)
Lemma release_lowest_spec st now out st' out' :
  release_lowest st now out = (st', out') ->
  (Forall (fun p => is_forward (p_sequence p) (expected st) = false) (pending st)
   /\ st' = mkFlowState (expected st) None (pending st) /\ out' = out)
  \/ (exists p ps, emits st out (p :: ps) st' out'
       /\ p ∈ pending st /\ is_forward (p_sequence p) (expected st) = true
       /\ (forall q, q ∈ pending st -> is_forward (p_sequence q) (expected st) = true ->
           u32_of (p_sequence p - expected st) <= u32_of (p_sequence q - expected st))
       /\ Forall (fun q => p_sequence q <> expected st') (pending st')).
Proof.
  unfold release_lowest, min_by_distance.
  pose proof (min_by_distance_aux (forward_candidates (expected st) (pending st)) None) as Hmin.
  destruct (foldl _ _ _) as [[i d]|].
  - destruct Hmin as ([?|Hin] & _ & Hle); [done|].
    apply elem_of_candidates in Hin as (p & Hi & Hf & ->).
    destruct (swap_remove_total i (pending st)) as (p' & rest & Es); [by eapply lookup_lt_Some|].
    rewrite Es. apply swap_remove_perm in Es as [Hi' Hperm]. assert (p' = p) as -> by congruence.
    destruct (drain_contiguous _ _) as [st2 out2] eqn:Ed. intros [= <- <-].
    pose proof Ed as Hdone. apply drain_contiguous_done in Hdone.
    apply drain_loop_emits in Ed as (ps & [H1 H2 H3] & _). cbn in H1, H2, H3.
    right. exists p, ps. split_and!.
    + split; cbn.
      * rewrite H1, <- app_assoc. done.
      * constructor; [unfold is_forward in Hf; bool_prop; lia|]. case_bool_decide; done.
      * rewrite Hperm, H3. case_bool_decide; done.
    + apply list_elem_of_lookup. eauto.
    + done.
    + intros q [j Hq]%list_elem_of_lookup Hfq. apply (Hle (j, _)). apply elem_of_candidates. eauto.
    + case_bool_decide; done.
  - destruct Hmin as [_ Hnil]. intros [= <- <-]. left. split; [|done].
    apply Forall_forall. intros p [i Hi]%list_elem_of_lookup.
    destruct (is_forward _ _) eqn:Hf; [|done]. exfalso.
    assert (Hc : (i, u32_of (p_sequence p - expected st)) ∈ forward_candidates (expected st) (pending st))
      by (apply elem_of_candidates; eauto).
    rewrite Hnil in Hc. set_solver.
Qed.

Lemma release_lowest_emits st now out st' out' :
  release_lowest st now out = (st', out') -> exists ps, emits st out ps st' out'.
Proof.
  intros [(_ & -> & ->)|(p & ps & H & _)]%release_lowest_spec; eauto using emits_gap.
Qed.

Lemma release_expired_emits st now out st' out' :
  release_expired st now out = (st', out') -> exists ps, emits st out ps st' out'.
Proof.
  unfold release_expired. repeat split_case; [|intros [= <- <-]; eauto using emits_refl..].
  apply release_lowest_emits.
Qed.

End Release.

(** ** [push_at]: order, conservation, bounds *)

Section Push.
Context {T : Type}.
Implicit Types (st : FlowState T) (out : list T) (p : Pending T) (ps : list (Pending T)).

Definition wf_state st : Prop :=
  is_u32 (expected st) /\ NoDup (p_sequence <$> pending st)
  /\ Forall (fun p => is_u32 (p_sequence p)) (pending st).

Lemma released_u32 e ps e' : released (T := T) e ps e' -> is_u32 e -> is_u32 e'.
Proof. induction 1; auto using u32_of_range. Qed.

Lemma released_nil_inv e e' : released (T := T) e [] e' -> e' = e.
Proof. by inversion 1. Qed.

Lemma emits_wf st out ps st' out' : emits st out ps st' out' -> wf_state st -> wf_state st'.
Proof.
  intros [_ Hr Hp] (H1 & H2 & H3). split; [|split].
  - by eapply released_u32.
  - rewrite Hp, fmap_app in H2. by apply NoDup_app in H2 as (_ & _ & ?).
  - rewrite Hp in H3. by apply Forall_app in H3 as [_ ?].
Qed.

Lemma emits_not_in st out ps st' out' s :
  emits st out ps st' out' -> s ∉ (p_sequence <$> pending st) -> s ∉ (p_sequence <$> pending st').
Proof. intros [_ _ Hp]. rewrite Hp, fmap_app. set_solver. Qed.

Definition snoc_pending st (q : Pending T) : FlowState T :=
  mkFlowState (expected st) (gap_started_ms st) (pending st ++ [q]).

Lemma emits_snoc st out ps st' out' q :
  emits st out ps st' out' -> emits (snoc_pending st q) out ps (snoc_pending st' q) out'.
Proof. intros [H1 H2 H3]. split; cbn; [done..|]. by rewrite H3, app_assoc. Qed.

Lemma wf_snoc st q :
  wf_state st -> is_u32 (p_sequence q) -> p_sequence q ∉ (p_sequence <$> pending st) ->
  wf_state (snoc_pending st q).
Proof.
  intros (H1 & H2 & H3) Hq Hn. split; [done|]. split; cbn.
  - rewrite fmap_app. apply NoDup_app. split_and!; [done|set_solver|apply NoDup_singleton].
  - apply Forall_app. auto.
Qed.

(** What a call of [push_state] amounts to: the frames [ps] leave in order,
    and the new frame is among them, pending, or was refused. *)
Record pushed st total (q : Pending T) out st' total' out' ps : Prop := {
  pu_out : out' = out ++ (p_value <$> ps);
  pu_rel : released (expected st) ps (expected st');
  pu_perm : pending st ++ [q] ≡ₚ ps ++ pending st' \/ pending st ≡ₚ ps ++ pending st';
  pu_total : total' - len (pending st') = total - len (pending st);
  pu_max : total' <= MAX_PENDING_TOTAL;
  pu_wf : wf_state st';
}.

(** The release that follows an insertion over the limit: the new frame is in
    front, so at least one frame leaves. *)
Lemma release_over_limit st q now out st' out' :
  is_forward (p_sequence q) (expected st) = true ->
  release_lowest (snoc_pending st q) now out = (st', out') ->
  exists ps, emits (snoc_pending st q) out ps st' out' /\ 1 <= len ps.
Proof.
  intros Hq [(Hn & _)|(p & ps & H & _)]%release_lowest_spec.
  - cbn in Hn. apply Forall_app in Hn as [_ Hn]. inversion Hn. congruence.
  - exists (p :: ps). split; [done|]. rewrite len_cons. pose proof (len_nonneg ps). lia.
Qed.

(** A guarded release: [cond] is one of the two limit tests. *)
Lemma release_if_emits (cond : bool) st total now out st' total' out' :
  len (pending st) <= total ->
  (if cond then let '(s, o) := release_lowest st now out in (s, account total st s, o)
   else (st, total, out)) = (st', total', out') ->
  exists ps, emits st out ps st' out' /\ total' = total - len ps.
Proof.
  intros Ht. destruct cond.
  - destruct (release_lowest _ _ _) as [s o] eqn:E. intros [= <- <- <-].
    apply release_lowest_emits in E as [ps E]. eauto using emits_account.
  - intros [= <- <- <-]. exists []. split; [apply emits_refl|rewrite len_nil; lia].
Qed.

(** From the insertion of the new frame to the end of the call. *)
Lemma push_tail st total q now out st' total' out' :
  wf_state st -> is_u32 (p_sequence q) -> p_sequence q ∉ (p_sequence <$> pending st) ->
  len (pending st) <= total <= MAX_PENDING_TOTAL ->
  (total = MAX_PENDING_TOTAL -> is_forward (p_sequence q) (expected st) = true) ->
  (let st4 := snoc_pending st q in
   let '(st5, total, out) :=
     if MAX_PENDING_TOTAL <? total + 1 then
       let '(st5, out) := release_lowest st4 now out in (st5, account (total + 1) st4 st5, out)
     else (st4, total + 1, out) in
   let st6 := match gap_started_ms st5 with
              | None => mkFlowState (expected st5) (Some now) (pending st5)
              | Some _ => st5 end in
   let '(st7, out) := release_expired st6 now out in
   (st7, account total st6 st7, out)) = (st', total', out') ->
  exists ps, emits (snoc_pending st q) out ps st' out'
    /\ total' = total + 1 - len ps /\ total' <= MAX_PENDING_TOTAL /\ wf_state st'.
Proof.
  intros Hwf Hq Hn Ht Hfw. cbv zeta. set (st4 := snoc_pending st q).
  assert (Hl4 : len (pending st4) = len (pending st) + 1) by (cbn; len_simpl; lia).
  destruct (if _ <? _ then _ else _) as [[st5 t5] o5] eqn:E5.
  assert (exists ps, emits st4 out ps st5 o5 /\ t5 = total + 1 - len ps /\ t5 <= MAX_PENDING_TOTAL)
    as (ps & He & -> & Hm).
  { destruct (MAX_PENDING_TOTAL <? total + 1) eqn:Em; bool_prop.
    - destruct (release_lowest _ _ _) as [s o] eqn:E. injection E5 as <- <- <-.
      apply release_over_limit in E as (ps & He & Hlen); [|apply Hfw; lia].
      exists ps. split; [done|]. erewrite emits_account by (eauto; lia). lia.
    - injection E5 as <- <- <-. exists []. split; [apply emits_refl|]. rewrite len_nil. lia. }
  destruct (release_expired _ _ _) as [st7 o7] eqn:E7. intros [= <- <- <-].
  apply release_expired_emits in E7 as [qs E7].
  assert (He6 : emits st4 out (ps ++ []) (match gap_started_ms st5 with
              | None => mkFlowState (expected st5) (Some now) (pending st5)
              | Some _ => st5 end) o5).
  { eapply emits_trans; [exact He|]. destruct (gap_started_ms st5); [apply emits_refl|apply emits_gap]. }
  rewrite app_nil_r in He6. exists (ps ++ qs).
  pose proof (emits_trans _ _ _ _ _ _ _ _ He6 E7) as Hall. split; [exact Hall|].
  apply emits_len in He6 as Hl6. pose proof (len_nonneg qs).
  erewrite emits_account by (eauto; lia). rewrite len_app. split_and!; [lia..|].
  eapply emits_wf; [exact Hall|]. by apply wf_snoc.
Qed.

(** Between the duplicate test and the insertion: both limit tests, and the
    direct delivery when the whole table is full and this flow holds nothing. *)
Lemma push_forward st total q now out st' total' out' :
  wf_state st -> is_u32 (p_sequence q) -> p_sequence q ∉ (p_sequence <$> pending st) ->
  is_forward (p_sequence q) (expected st) = true ->
  len (pending st) <= total <= MAX_PENDING_TOTAL ->
  (let '(st2, total, out) :=
     if len (pending st) =? MAX_PENDING_PER_FLOW then
       let '(st2, out) := release_lowest st now out in (st2, account total st st2, out)
     else (st, total, out) in
   if (total =? MAX_PENDING_TOTAL) && bool_decide (pending st2 = []) then
     (mkFlowState (u32_of (p_sequence q + 1)) None (pending st2), total, out ++ [p_value q])
   else
   let '(st3, total, out) :=
     if total =? MAX_PENDING_TOTAL then
       let '(st3, out) := release_lowest st2 now out in (st3, account total st2 st3, out)
     else (st2, total, out) in
   let st4 := snoc_pending st3 q in
   let '(st5, total, out) :=
     if MAX_PENDING_TOTAL <? total + 1 then
       let '(st5, out) := release_lowest st4 now out in (st5, account (total + 1) st4 st5, out)
     else (st4, total + 1, out) in
   let st6 := match gap_started_ms st5 with
              | None => mkFlowState (expected st5) (Some now) (pending st5)
              | Some _ => st5 end in
   let '(st7, out) := release_expired st6 now out in
   (st7, account total st6 st7, out)) = (st', total', out') ->
  exists ps, pushed st total q out st' total' out' ps.
Proof.
  intros Hwf Hq Hn Hf Ht. destruct (if len _ =? _ then _ else _) as [[st2 t2] o2] eqn:E2.
  apply release_if_emits in E2 as (ps2 & E2 & ->); [|lia].
  pose proof (emits_len _ _ _ _ _ E2) as Hl2. pose proof (len_nonneg ps2).
  destruct ((_ =? _) && _) eqn:Efull.
  - apply andb_true_iff in Efull as [Efull Hnil]. bool_prop. intros [= <- <- <-].
    assert (ps2 = []) as -> by (destruct ps2; [done|rewrite len_cons in *; pose proof (len_nonneg ps2); lia]).
    exists [q]. destruct E2 as [-> Hr2 Hp2]. apply released_nil_inv in Hr2. rewrite len_nil in *.
    split; cbn.
    + by rewrite app_nil_r.
    + constructor; [unfold is_forward in Hf; bool_prop; lia|constructor].
    + left. cbn in Hp2. rewrite Hp2, Hnil. done.
    + lia.
    + lia.
    + split; [apply u32_of_range|]. cbn. rewrite Hnil. split; constructor.
  - clear Efull. destruct (if (total - len ps2) =? _ then _ else _) as [[st3 t3] o3] eqn:E3.
    apply release_if_emits in E3 as (ps3 & E3 & ->); [|lia].
    pose proof (emits_len _ _ _ _ _ E3) as Hl3. pose proof (len_nonneg ps3).
    pose proof (emits_trans _ _ _ _ _ _ _ _ E2 E3) as E23.
    intros H'. apply push_tail in H' as (ps & Hem & -> & Hmax & Hwf').
    + pose proof (emits_trans _ _ _ _ _ _ _ _ (emits_snoc _ _ _ _ _ q E23) Hem) as Hall.
      exists ((ps2 ++ ps3) ++ ps). pose proof (emits_len _ _ _ _ _ Hall) as Hla. destruct Hall as [H1 H2 H3].
      cbn in H2, H3, Hla. rewrite !len_app in Hla. cbn in Hla. rewrite len_cons, len_nil in Hla.
      split; [done|done|by left| lia | lia | done].
    + by eapply emits_wf.
    + done.
    + by eapply emits_not_in.
    + lia.
    + intros Hmax. assert (ps2 ++ ps3 = []) as Hnil.
      { destruct (ps2 ++ ps3) eqn:E; [done|]. assert (len (ps2 ++ ps3) = 1 + len l) by (by rewrite E, len_cons).
        rewrite len_app in *. pose proof (len_nonneg l). lia. }
      rewrite Hnil in E23. destruct E23 as [_ Hr _]. by rewrite (released_nil_inv _ _ Hr).
Qed.

Lemma existsb_false_not_in s (l : list (Pending T)) :
  existsb (fun p => p_sequence p =? s) l = false -> s ∉ (p_sequence <$> l).
Proof.
  intros H Hin. apply list_elem_of_fmap in Hin as (p & -> & Hp).
  apply not_true_iff_false in H. apply H. apply existsb_exists. exists p.
  split; [by apply list_elem_of_In|lia].
Qed.

Lemma push_state_spec st total s v now out st' total' out' :
  wf_state st -> is_u32 s -> len (pending st) <= total <= MAX_PENDING_TOTAL ->
  push_state st total s v now out = (st', total', out') ->
  exists ps, pushed st total (mkPending s v) out st' total' out' ps.
Proof.
  intros Hwf Hs Ht. unfold push_state.
  destruct (release_expired _ _ _) as [st1 o1] eqn:E1.
  apply release_expired_emits in E1 as [ps1 E1].
  pose proof (emits_len _ _ _ _ _ E1) as Hl1. pose proof (len_nonneg ps1).
  rewrite (emits_account _ _ _ _ _ total E1) by lia.
  pose proof (emits_wf _ _ _ _ _ E1 Hwf) as Hwf1.
  destruct (s =? expected st1) eqn:Es.
  - bool_prop. destruct (drain_contiguous _ _) as [st3 o3] eqn:E3. intros [= <- <- <-].
    apply drain_loop_emits in E3 as (ps3 & E3 & _).
    rewrite (emits_account _ _ _ _ _ _ E3) by (cbn; lia).
    pose proof (emits_len _ _ _ _ _ E3) as Hl3. cbn in Hl3. pose proof (len_nonneg ps3).
    assert (Hwf2 : wf_state (mkFlowState (u32_of (expected st1 + 1)) None (pending st1)))
      by (destruct Hwf1 as (_ & ? & ?); split; [apply u32_of_range|done]).
    destruct (E1) as [-> R1 P1]. destruct (E3) as [-> R3 P3]. cbn in R3, P3.
    exists (ps1 ++ mkPending s v :: ps3). split.
    + rewrite fmap_app, !fmap_cons, <- !app_assoc. done.
    + eapply released_app; [exact R1|]. constructor; cbn [p_sequence].
      * rewrite Es, Z.sub_diag. done.
      * by rewrite Es.
    + left. rewrite P1, P3. rewrite <- !app_assoc. cbn.
      by rewrite (app_assoc ps3), <- Permutation_cons_append.
    + rewrite len_cons in * || idtac. lia.
    + lia.
    + by eapply emits_wf.
  - destruct (negb _ || _) eqn:Edrop.
    + intros [= <- <- <-]. destruct E1 as [-> R1 P1]. exists ps1.
      split; [done|done|by right|lia|lia|done].
    + bool_prop. intros H'.
      apply (push_forward st1 _ (mkPending s v)) in H' as [ps Hp]; cbn;
        [|done|done|by apply existsb_false_not_in|done|lia].
      destruct Hp as [-> R P Hto Hmax Hwf']. destruct E1 as [-> R1 P1].
      exists (ps1 ++ ps). split; [by rewrite fmap_app, app_assoc|by eapply released_app| |lia|done|done].
      rewrite P1, <- !app_assoc. destruct P as [P|P]; [left|right]; by rewrite P.
Qed.

End Push.

(** ** The whole reassembler *)

Section Table.
Context {T : Type}.
Implicit Types (r : FlowReassembler T) (out : list T).

Definition total_pending (m : gmap ReassemblyKey (FlowState T)) : Z :=
  map_fold (fun _ st acc => len (pending st) + acc) 0 m.

Lemma total_pending_insert_new m k st :
  m !! k = None -> total_pending (<[k := st]> m) = len (pending st) + total_pending m.
Proof. intros. unfold total_pending. rewrite map_fold_insert_L; [done|intros; lia|done]. Qed.

Lemma total_pending_insert m k st :
  total_pending (<[k := st]> m)
  = total_pending m - len (pending (default (mkFlowState 0 None []) (m !! k))) + len (pending st).
Proof.
  destruct (m !! k) as [st0|] eqn:E; cbn.
  - rewrite <- (insert_delete_id m k st0 E) at 2. rewrite <- (insert_delete_eq m).
    rewrite !total_pending_insert_new by apply lookup_delete_eq. lia.
  - rewrite total_pending_insert_new by done. rewrite len_nil. lia.
Qed.

Lemma total_pending_nonneg m : 0 <= total_pending m.
Proof.
  unfold total_pending. apply (map_fold_weak_ind (fun x _ => 0 <= x)); [lia|].
  intros i st m' x _ Hx. pose proof (len_nonneg (pending st)). lia.
Qed.

Lemma total_pending_lookup m k :
  len (pending (default (mkFlowState 0 None []) (m !! k))) <= total_pending m.
Proof.
  pose proof (total_pending_insert m k (mkFlowState 0 None [])) as H.
  pose proof (total_pending_nonneg (<[k := mkFlowState 0 None []]> m)).
  change (len (pending (mkFlowState 0 None (@nil (Pending T))))) with 0 in H. lia.
Qed.

(** The accounting of the table: at most 4096 flows, [pending_total] counts
    exactly the frames held, of which there are at most 4096, and no flow holds
    one sequence number twice. *)
Record wf_reassembler r : Prop := {
  wr_flows : Z.of_nat (size (flows r)) <= MAX_TRACKED_FLOWS;
  wr_total : pending_total r = total_pending (flows r);
  wr_max : pending_total r <= MAX_PENDING_TOTAL;
  wr_states : map_Forall (fun _ => wf_state) (flows r);
}.

Lemma wf_new : wf_reassembler FlowReassembler_new.
Proof. split; cbn; [rewrite map_size_empty; done|done|done|apply map_Forall_empty]. Qed.

Definition key_of (h : FrameHeader) : ReassemblyKey := (sender_id h, flow_id h).
Definition flow_of r (k : ReassemblyKey) : FlowState T :=
  default (mkFlowState 0 None []) (flows r !! k).

Lemma wf_flow_of r k : wf_reassembler r -> wf_state (flow_of r k).
Proof.
  intros [_ _ _ H]. unfold flow_of. destruct (flows r !! k) eqn:E; cbn; [by eapply H|].
  split; [unfold is_u32; cbn; lia|split; constructor].
Qed.

Lemma push_at_spec r h v now out r' out' :
  wf_reassembler r -> is_u32 (sequence h) -> push_at r h v now out = (r', out') ->
  wf_reassembler r' /\
  exists ps, out' = out ++ (p_value <$> ps)
    /\ released (expected (flow_of r (key_of h))) ps (expected (flow_of r' (key_of h)))
    /\ (let before := pending (flow_of r (key_of h)) in
        let after := ps ++ pending (flow_of r' (key_of h)) in
        before ++ [mkPending (sequence h) v] ≡ₚ after \/ before ≡ₚ after).
Proof.
  intros Hwf Hs. unfold push_at. fold (key_of h).
  set (r1 := if _ && _ then _ else r).
  assert (Hwf1 : wf_reassembler r1) by (unfold r1; destruct (_ && _); [apply wf_new|done]).
  assert (Hroom : flows r1 !! key_of h = None -> Z.of_nat (size (flows r1)) < MAX_TRACKED_FLOWS).
  { unfold r1. destruct (_ && _) eqn:E; [done|].
    intros Hn. apply andb_false_iff in E. pose proof (wr_flows _ Hwf).
    destruct E as [E|E]; bool_prop; [lia|]. rewrite Hn in E. by destruct E. }
  assert (Hflow : flow_of r1 (key_of h) = flow_of r (key_of h)).
  { unfold r1. destruct (_ && _) eqn:E; [|done]. apply andb_true_iff in E as [_ E]. bool_prop.
    unfold flow_of. cbn [flows]. rewrite lookup_empty. destruct (flows r !! key_of h); [|done].
    exfalso; apply E; eauto. }
  fold (flow_of r1 (key_of h)).
  destruct (push_state _ _ _ _ _ _) as [[st' t'] o'] eqn:Ep. intros [= <- <-].
  assert (Hl : len (pending (flow_of r1 (key_of h))) <= pending_total r1 <= MAX_PENDING_TOTAL).
  { pose proof (total_pending_lookup (flows r1) (key_of h)). destruct Hwf1. unfold flow_of. lia. }
  apply push_state_spec in Ep as [ps Hp]; [|by apply wf_flow_of|done|done].
  destruct Hp as [H1 H2 H3 H4 H5 H6]. split.
  - split; cbn.
    + destruct (flows r1 !! key_of h) eqn:E.
      * rewrite map_size_insert_Some by eauto. apply Hwf1.
      * rewrite map_size_insert_None by done. specialize (Hroom eq_refl). lia.
    + rewrite total_pending_insert. fold (flow_of r1 (key_of h)). rewrite <- (wr_total _ Hwf1). lia.
    + done.
    + apply map_Forall_insert_2; [done|apply Hwf1].
  - exists ps. rewrite Hflow in *. cbv zeta. unfold flow_of at 2 4 6. cbn [flows].
    rewrite lookup_insert_eq. done.
Qed.

(** The accounting of the reassembler is an invariant: it holds initially
    and every [push_at] keeps it, so at most 4096 flows and 4096 frames are ever
    held and the counter never drifts from the frames that are held. *)
Theorem reassembler_invariant r h v now out :
  wf_reassembler (@FlowReassembler_new T) /\
  (wf_reassembler r -> valid_header h -> wf_reassembler (push_at r h v now out).1).
Proof.
  split; [apply wf_new|]. intros Hwf (_ & _ & Hs).
  destruct (push_at r h v now out) as [r' out'] eqn:E. by apply push_at_spec in E as [? _].
Qed.

(** For a run of frames of one flow, whatever their numbers, order and
    times: the frames delivered leave in window order (each in the half window
    ahead of all delivered before it), and nothing is invented or delivered
    twice: what was delivered and what is still held is a sub-multiset of what
    was held before and what arrived. *)
Theorem reassembler_order r frames out k :
  wf_reassembler r ->
  Forall (fun '(h, _, _) => valid_header h /\ key_of h = k) frames ->
  exists ps rest,
    (push_run r frames out).2 = out ++ (p_value <$> ps)
    /\ released (expected (flow_of r k)) ps (expected (flow_of (push_run r frames out).1 k))
    /\ pending (flow_of r k) ++ ((fun '(h, v, _) => mkPending (sequence h) v) <$> frames)
       ≡ₚ ps ++ pending (flow_of (push_run r frames out).1 k) ++ rest.
Proof.
  unfold push_run. revert r out. induction frames as [|[[h v] now] frames IH]; intros r out Hwf Hf.
  { exists [], []. cbn. rewrite !app_nil_r. split_and!; [done|constructor|done]. }
  apply Forall_cons in Hf as [[(Hs1 & Hs2 & Hs) <-] Hf]. cbn [foldl].
  destruct (push_at r h v now out) as [r1 out1] eqn:E.
  apply push_at_spec in E as (Hwf1 & ps & -> & Hr & Hp); [|done|done].
  destruct (IH r1 (out ++ (p_value <$> ps)) Hwf1 Hf) as (qs & rest & -> & Hr' & Hp'). cbv zeta in Hp.
  set (new := mkPending (sequence h) v) in *.
  assert (exists drop1, pending (flow_of r (key_of h)) ++ [new]
            ≡ₚ ps ++ pending (flow_of r1 (key_of h)) ++ drop1) as [drop1 Hp1].
  { destruct Hp as [Hp|Hp]; [exists []; by rewrite app_nil_r|exists [new]; by rewrite Hp, app_assoc]. }
  exists (ps ++ qs), (rest ++ drop1). split_and!.
  - by rewrite fmap_app, app_assoc.
  - by eapply released_app.
  - rewrite fmap_cons. fold new. rewrite cons_middle, app_assoc, Hp1.
    rewrite <- !app_assoc. f_equiv. rewrite (Permutation_app_comm drop1), app_assoc, Hp'.
    by rewrite <- !app_assoc.
Qed.

End Table.

(** ** Any arrival order inside the window is delivered in order *)

Section InOrder.
Context {T : Type}.
Implicit Types (st : FlowState T) (out : list T).

(** [drain_contiguous] hands out consecutive numbers. *)
Lemma drain_loop_consecutive fuel st out st' out' :
  is_u32 (expected st) -> drain_loop fuel st out = (st', out') ->
  exists ps, emits st out ps st' out'
    /\ p_sequence <$> ps = u32_of <$> seqZ (expected st) (len ps)
    /\ expected st' = u32_of (expected st + len ps)
    /\ gap_started_ms st' = gap_started_ms st.
Proof.
  revert st out. induction fuel as [|fuel IH]; intros st out He; cbn [drain_loop].
  { intros [= <- <-]. exists []. split_and!; [apply emits_refl|done| |done].
    rewrite len_nil, Z.add_0_r. by rewrite u32_of_small. }
  destruct (position _ _) as [i|] eqn:Ep;
    [destruct (swap_remove i _) as [[p rest]|] eqn:Es|].
  2, 3: intros [= <- <-]; exists []; split_and!; [apply emits_refl|done| |done];
    rewrite len_nil, Z.add_0_r; by rewrite u32_of_small.
  intros H. apply IH in H as (ps & [H1 H2 H3] & Hc & Hexp & Hg); [|apply u32_of_range]. cbn in *.
  apply position_Some in Ep as (p' & Hp' & Hseq). apply swap_remove_perm in Es as [Hp Hperm].
  assert (p' = p) as -> by congruence. bool_prop. pose proof (len_nonneg ps).
  exists (p :: ps). split_and!.
  - split; cbn; [by rewrite H1, <- app_assoc| |by rewrite Hperm, H3].
    constructor; [rewrite Hseq, Z.sub_diag; done|]. by rewrite Hseq.
  - rewrite len_cons, fmap_cons, seqZ_cons by lia. cbn. f_equal.
    + rewrite Hseq. by rewrite u32_of_small.
    + rewrite Hc. apply list_eq. intros j. rewrite !list_lookup_fmap.
      replace (Z.pred (1 + len ps)) with (len ps) by lia.
      destruct (decide (Z.of_nat j < len ps)).
      * rewrite !lookup_seqZ_lt by lia. cbn. f_equal. unfold u32_of.
        rewrite Zplus_mod_idemp_l. f_equal; lia.
      * by rewrite !lookup_seqZ_ge by lia.
  - rewrite len_cons, Hexp. unfold u32_of. rewrite Zplus_mod_idemp_l. f_equal; lia.
  - done.
Qed.

Lemma u32_seqZ_small c n : 0 <= c -> c + n <= 2 ^ 32 -> u32_of <$> seqZ c n = seqZ c n.
Proof.
  intros. apply list_eq. intros j. rewrite list_lookup_fmap.
  destruct (decide (Z.of_nat j < n)).
  - rewrite !lookup_seqZ_lt by lia. cbn. f_equal. apply u32_of_small. unfold is_u32; lia.
  - by rewrite !lookup_seqZ_ge by lia.
Qed.

Variable f : Z -> T.
Variables (n t0 total0 : Z) (out0 : list T).
Hypothesis n_window : n <= MAX_PENDING_PER_FLOW.
Hypothesis n_room : total0 + n <= MAX_PENDING_TOTAL.
Hypothesis total0_nonneg : 0 <= total0.

(** After the numbers [S] have arrived: [m] is the first one missing. *)
Record in_window (S : list Z) st (total : Z) out (m : Z) : Prop := {
  iw_exp : expected st = m;
  iw_m : 0 <= m <= n;
  iw_below : forall s, 0 <= s < m -> s ∈ S;
  iw_missing : m ∉ S;
  iw_pending : p_sequence <$> pending st ≡ₚ filter (fun s => m < s) S;
  iw_values : Forall (fun p => p_value p = f (p_sequence p)) (pending st);
  iw_gap : forall g, gap_started_ms st = Some g -> t0 <= g;
  iw_total : total = total0 + len (pending st);
  iw_out : out = out0 ++ (f <$> seqZ 0 m);
}.

Lemma filter_len_bound (S : list Z) m :
  NoDup S -> (forall s, s ∈ S -> 0 <= s < n) -> 0 <= m < n -> m ∉ S ->
  len (filter (fun s => m < s) S) + m + 1 <= n.
Proof.
  intros Hnd Hb Hm Hn.
  assert (Hsub : filter (fun s => m < s) S ⊆+ seqZ (m + 1) (n - m - 1)).
  { apply NoDup_submseteq; [by apply NoDup_filter|]. intros s Hs.
    apply list_elem_of_filter in Hs as [Hs1 Hs2]. apply elem_of_seqZ. specialize (Hb s Hs2). lia. }
  apply submseteq_length in Hsub. rewrite length_seqZ in Hsub. unfold len. lia.
Qed.

Lemma release_expired_fresh st now out :
  (forall g, gap_started_ms st = Some g -> t0 <= g) -> now <= t0 + 11 ->
  release_expired st now out = (st, out).
Proof.
  intros Hg Hn. unfold release_expired. destruct (gap_started_ms st) as [g|]; [|done].
  specialize (Hg g eq_refl). unfold sat_sub, GAP_RELEASE_AFTER_MS.
  replace (12 <=? _) with false by lia. done.
Qed.

Lemma account_same total st : len (pending st) <= total -> account total st st = total.
Proof. intros. unfold account, sat_sub. pose proof (len_nonneg (pending st)). lia. Qed.

Lemma f_values ps : Forall (fun p : Pending T => p_value p = f (p_sequence p)) ps ->
  p_value <$> ps = f <$> (p_sequence <$> ps).
Proof. induction 1; cbn; congruence. Qed.

Lemma push_in_window_next S st total out m now :
  NoDup S -> (forall s, s ∈ S -> 0 <= s < n) -> m < n -> t0 <= now <= t0 + 11 ->
  in_window S st total out m ->
  exists st' total' out' m', push_state st total m (f m) now out = (st', total', out')
    /\ in_window (m :: S) st' total' out' m'.
Proof.
  intros Hnd Hb Hmn Hnow [He Hm Hbelow Hmiss Hpend Hval Hgap Htot Hout].
  unfold push_state. rewrite (release_expired_fresh st now out) by (done || lia).
  pose proof (len_nonneg (pending st)).
  rewrite account_same by lia. rewrite He, Z.eqb_refl.
  destruct (drain_contiguous _ _) as [st3 o3] eqn:E3.
  assert (Hnw : n <= 96) by exact n_window.
  assert (Hpl : len (pending st) <= n).
  { assert (Hl : len (p_sequence <$> pending st) = len (pending st)) by (unfold len; by rewrite length_fmap).
    rewrite <- Hl. unfold len. rewrite Hpend. fold (len (filter (fun s => m < s) S)).
    pose proof (filter_len_bound S m Hnd Hb ltac:(lia) Hmiss). lia. }
  pose proof E3 as Hdone. apply drain_contiguous_done in Hdone.
  apply drain_loop_consecutive in E3 as (ps & Hem & Hseq & Hexp & Hg3); [|apply u32_of_range].
  pose proof (emits_len _ _ _ _ _ Hem) as Hl. rewrite (emits_account _ _ _ _ _ _ Hem) by (cbn; lia).
  cbn in Hseq, Hexp, Hl. pose proof (len_nonneg ps). pose proof (len_nonneg (pending st3)).
  rewrite (u32_of_small (m + 1)) in * by (unfold is_u32; lia).
  rewrite u32_of_small in Hexp by (unfold is_u32; lia).
  rewrite u32_seqZ_small in Hseq by lia.
  destruct Hem as [Ho3 _ Hp3]. cbn in Hp3. assert (Hp3' := Hp3).
  apply (fmap_Permutation p_sequence) in Hp3'. rewrite Hpend, fmap_app, Hseq in Hp3'.
  rewrite Hp3 in Hval. apply Forall_app in Hval as [Hval1 Hval2].
  assert (Hin : forall s, s ∈ seqZ (m + 1) (len ps) \/ s ∈ (p_sequence <$> pending st3) <-> m < s /\ s ∈ S).
  { intros s. rewrite <- list_elem_of_filter, <- elem_of_app. by rewrite Hp3'. }
  assert (Hnodup : NoDup (seqZ (m + 1) (len ps) ++ (p_sequence <$> pending st3)))
    by (rewrite <- Hp3'; by apply NoDup_filter).
  apply NoDup_app in Hnodup as (_ & Hdisj & Hnd3).
  assert (Hm' : m + 1 + len ps ∉ S).
  { intros Hs. destruct (Hin (m + 1 + len ps)) as [_ [Hi|Hi]]; [split; [lia|done]| |].
    - apply elem_of_seqZ in Hi. lia.
    - apply list_elem_of_fmap in Hi as (q & Hq & Hqin).
      rewrite Forall_forall in Hdone. apply (Hdone q Hqin). lia. }
  do 3 eexists. exists (m + 1 + len ps). split; [reflexivity|]. split.
  - lia.
  - split; [lia|]. destruct (decide (len ps = 0)); [lia|].
    assert (m + len ps ∈ S) as Hs by (apply (Hin (m + len ps)); left; apply elem_of_seqZ; lia).
    specialize (Hb _ Hs). lia.
  - intros s Hs. destruct (decide (s < m)); [right; apply Hbelow; lia|].
    destruct (decide (s = m)) as [->|]; [left|]. right. apply (Hin s). left. apply elem_of_seqZ. lia.
  - intros [|]%elem_of_cons; [lia|done].
  - rewrite filter_cons_False by lia. apply NoDup_Permutation; [done|by apply NoDup_filter|].
    intros s. rewrite list_elem_of_filter. split.
    + intros Hs. destruct (proj1 (Hin s) (or_intror Hs)) as [? HsS]. split; [|done].
      assert (s ∉ seqZ (m + 1) (len ps)) as Hni by (intros ?; by eapply Hdisj).
      rewrite elem_of_seqZ in Hni. assert (s <> m + 1 + len ps) by congruence. lia.
    + intros [Hs1 Hs2]. destruct (proj2 (Hin s)) as [Hi|Hi]; [split; [lia|done]| |done].
      apply elem_of_seqZ in Hi. lia.
  - done.
  - intros g Hg. rewrite Hg3 in Hg. done.
  - lia.
  - rewrite Ho3, Hout, (f_values ps Hval1), Hseq, <- !app_assoc. f_equal.
    replace (m + 1 + len ps) with (m + (1 + len ps)) by lia.
    rewrite seqZ_app by lia. rewrite fmap_app, Z.add_0_l, (seqZ_cons m) by lia. cbn.
    f_equal. f_equal. f_equal. f_equal; lia.
Qed.

Lemma push_in_window_ahead S st total out m s now :
  NoDup S -> (forall s, s ∈ S -> 0 <= s < n) -> s ∉ S -> m < s < n -> t0 <= now <= t0 + 11 ->
  in_window S st total out m ->
  exists st' total' out', push_state st total s (f s) now out = (st', total', out')
    /\ in_window (s :: S) st' total' out' m.
Proof.
  intros Hnd Hb HsS Hs Hnow [He Hm Hbelow Hmiss Hpend Hval Hgap Htot Hout].
  unfold push_state. rewrite (release_expired_fresh st now out) by (done || lia).
  pose proof (len_nonneg (pending st)). rewrite account_same by lia.
  assert (Hnw : n <= 96) by exact n_window. assert (Hnr : total0 + n <= 4096) by exact n_room.
  assert (Hseqs : len (p_sequence <$> pending st) = len (pending st)) by (unfold len; by rewrite length_fmap).
  assert (Hpl : len (pending st) + 2 <= n).
  { assert (Hf : len (filter (fun x => m < x) (s :: S)) + m + 1 <= n).
    { apply filter_len_bound; [by constructor| |lia|set_solver]. intros x [->|]%elem_of_cons; [lia|auto]. }
    rewrite filter_cons_True, len_cons in Hf by lia. rewrite <- Hseqs. unfold len at 1. rewrite Hpend.
    unfold len in Hf. lia. }
  rewrite He. replace (s =? m) with false by lia.
  assert (Hfw : is_forward s m = true).
  { unfold is_forward. rewrite (u32_of_small (s - m)) by (unfold is_u32; lia).
    apply andb_true_iff. split; [|lia]. apply negb_true_iff; lia. }
  rewrite Hfw. cbn [negb orb].
  assert (Hdup : existsb (fun p => p_sequence p =? s) (pending st) = false).
  { apply not_true_iff_false. intros (p & Hp & Hps)%existsb_exists. bool_prop.
    assert (s ∈ (p_sequence <$> pending st)) as Hx.
    { apply list_elem_of_fmap. exists p. split; [done|by apply list_elem_of_In]. }
    rewrite Hpend in Hx. apply list_elem_of_filter in Hx as [_ ?]. done. }
  rewrite Hdup. unfold MAX_PENDING_PER_FLOW, MAX_PENDING_TOTAL in *.
  replace (len (pending st) =? 96) with false by lia.
  replace (total =? 4096) with false by lia. cbn [andb].
  replace (4096 <? total + 1) with false by lia. cbn [gap_started_ms].
  set (st6 := match gap_started_ms st with Some _ => _ | None => _ end).
  assert (Hgap6 : forall g, gap_started_ms st6 = Some g -> t0 <= g).
  { unfold st6. destruct (gap_started_ms st) eqn:E; cbn; intros g [= <-]; [by apply Hgap|lia]. }
  assert (Hp6 : pending st6 = pending st ++ [mkPending s (f s)]) by (unfold st6; by destruct (gap_started_ms st)).
  rewrite (release_expired_fresh st6 now out) by (done || lia).
  rewrite account_same by (rewrite Hp6; len_simpl; lia).
  do 3 eexists. split; [reflexivity|]. split.
  - unfold st6; by destruct (gap_started_ms st).
  - done.
  - intros x Hx. right. by apply Hbelow.
  - intros [|]%elem_of_cons; [lia|done].
  - rewrite Hp6, fmap_app, Hpend, filter_cons_True by lia. cbn. by rewrite <- Permutation_cons_append.
  - rewrite Hp6. apply Forall_app. auto.
  - done.
  - rewrite Hp6. len_simpl. lia.
  - done.
Qed.

Lemma push_in_window S st total out m s now :
  NoDup S -> (forall s, s ∈ S -> 0 <= s < n) -> s ∉ S -> 0 <= s < n -> t0 <= now <= t0 + 11 ->
  in_window S st total out m ->
  exists st' total' out' m', push_state st total s (f s) now out = (st', total', out')
    /\ in_window (s :: S) st' total' out' m'.
Proof.
  intros Hnd Hb HsS Hs Hnow Hw. destruct (decide (s = m)) as [->|Hne].
  - apply push_in_window_next; (done || lia).
  - assert (m < s). { destruct (decide (s < m)); [|lia]. exfalso. apply HsS. eapply iw_below; [done|lia]. }
    destruct (push_in_window_ahead S st total out m s now) as (st' & t' & o' & Hres); [done..|lia|done|done|].
    exists st', t', o', m. exact Hres.
Qed.

(** The frames of one flow: number [s] carries [f s]. *)
Definition flow_frame (k : ReassemblyKey) (sn : Z * Z) : FrameHeader * T * Z :=
  (mkFrameHeader k.1 k.2 sn.1, f sn.1, sn.2).

Lemma push_run_in_window k r arrivals S out m :
  NoDup (S ++ arrivals.*1) -> (forall s, s ∈ S ++ arrivals.*1 -> 0 <= s < n) ->
  Forall (fun sn => t0 <= sn.2 <= t0 + 11) arrivals ->
  (is_Some (flows r !! k) \/ Z.of_nat (size (flows r)) < MAX_TRACKED_FLOWS) ->
  in_window S (flow_of r k) (pending_total r) out m ->
  exists m', in_window (reverse arrivals.*1 ++ S) (flow_of (push_run r (flow_frame k <$> arrivals) out).1 k)
               (pending_total (push_run r (flow_frame k <$> arrivals) out).1)
               (push_run r (flow_frame k <$> arrivals) out).2 m'.
Proof.
  revert r S out m. induction arrivals as [|[s now] arr IH]; intros r S out m Hnd Hb Ht Hroom Hw.
  { exists m. done. }
  apply Forall_cons in Ht as [Hnow Ht]. cbn in Hnd, Hb, Hnow.
  apply NoDup_app in Hnd as Hnd'. destruct Hnd' as (HndS & Hdisj & Hnda).
  destruct (push_in_window S (flow_of r k) (pending_total r) out m s now)
    as (st' & t' & o' & m' & Hpush & Hw'); [done|set_solver| |apply Hb; set_solver|done|done|].
  { intros HsS. apply (Hdisj s HsS). set_solver. }
  unfold push_run. cbn [fmap list_fmap foldl flow_frame fst snd].
  assert (Hp : push_at r (mkFrameHeader k.1 k.2 s) (f s) now out
               = (mkFlowReassembler (<[k := st']> (flows r)) t', o')).
  { unfold push_at. cbn [sender_id flow_id sequence]. rewrite <- surjective_pairing.
    replace (_ && _) with false.
    - fold (flow_of r k). rewrite Hpush. done.
    - symmetry. apply andb_false_iff. destruct Hroom as [Hsome|Hlt]; [right|left; lia].
      apply negb_false_iff. by apply bool_decide_eq_true. }
  rewrite Hp. cbn [reverse fmap list_fmap]. rewrite reverse_cons, <- app_assoc. cbn.
  apply IH with (m := m').
  - cbn [app]. by rewrite Permutation_middle.
  - set_solver.
  - done.
  - left. cbn. rewrite lookup_insert_eq. eauto.
  - unfold flow_of. cbn. rewrite lookup_insert_eq. exact Hw'.
Qed.

End InOrder.

(** C31. Frames 0 .. n-1 of a flow ([n] at most 96) that arrive in any order
    within the 12 ms gap deadline, at a reassembler that has room for them, are
    delivered exactly once each and in the order 0 .. n-1, and none stays
    behind. *)
Theorem reassembler_in_order {T : Type} (f : Z -> T) n t0 (r : FlowReassembler T) k arrivals out :
  wf_reassembler r -> flows r !! k = None ->
  Z.of_nat (size (flows r)) < MAX_TRACKED_FLOWS ->
  n <= MAX_PENDING_PER_FLOW -> pending_total r + n <= MAX_PENDING_TOTAL ->
  arrivals.*1 ≡ₚ seqZ 0 n ->
  Forall (fun sn => t0 <= sn.2 < t0 + GAP_RELEASE_AFTER_MS) arrivals ->
  (push_run r (flow_frame f k <$> arrivals) out).2 = out ++ (f <$> seqZ 0 n)
  /\ pending (flow_of (push_run r (flow_frame f k <$> arrivals) out).1 k) = [].
Proof.
  intros Hwf Hk Hsize Hn Hroom Hperm Ht.
  assert (Hn0 : n <= 0 \/ 0 < n) by lia.
  destruct (push_run_in_window f (Z.max 0 n) t0 (pending_total r) out ltac:(unfold MAX_PENDING_PER_FLOW in *; lia)
              ltac:(unfold MAX_PENDING_TOTAL in *; pose proof (wr_max r Hwf); unfold MAX_PENDING_TOTAL in *; lia)
              ltac:(rewrite (wr_total r Hwf); apply total_pending_nonneg) k r arrivals [] out 0) as [m Hm].
  - cbn. rewrite Hperm. apply NoDup_seqZ.
  - cbn. intros s. rewrite Hperm, elem_of_seqZ. lia.
  - eapply Forall_impl; [exact Ht|]. cbn. unfold GAP_RELEASE_AFTER_MS. lia.
  - by right.
  - unfold flow_of. rewrite Hk. split; cbn;
      [done|lia|intros; lia|set_solver|done|constructor|done|rewrite len_nil; lia|by rewrite app_nil_r].
  - rewrite app_nil_r in Hm. destruct Hm as [_ Hm1 Hb Hmiss Hp _ _ _ Ho].
    assert (HinS : forall s, s ∈ reverse arrivals.*1 <-> 0 <= s < n).
    { intros s. rewrite elem_of_reverse, Hperm, elem_of_seqZ. lia. }
    assert (m = Z.max 0 n).
    { destruct (decide (m < Z.max 0 n)); [|lia]. exfalso. apply Hmiss. apply HinS. lia. }
    subst m. split.
    + rewrite Ho. destruct Hn0; [|by rewrite Z.max_r by lia].
      rewrite Z.max_l by lia. by rewrite !seqZ_nil by lia.
    + assert (filter (fun s => Z.max 0 n < s) (reverse arrivals.*1) = []) as Hnil.
      { destruct (filter _ _) as [|x l] eqn:E; [done|]. exfalso.
        assert (x ∈ filter (fun s => Z.max 0 n < s) (reverse arrivals.*1)) as Hx by (rewrite E; left).
        apply list_elem_of_filter in Hx as [Hx1 Hx2]. apply HinS in Hx2. lia. }
      rewrite Hnil in Hp. apply Permutation_nil_r in Hp. by apply fmap_nil_inv in Hp.
Qed.

Lemma reassembler_in_order_witness :
  (push_run FlowReassembler_new (flow_frame (fun s => 10 * s) (17, 23) <$> [(3, 0); (1, 4); (0, 11); (2, 2)]) []).2
  = [0; 10; 20; 30].
Proof.
  refine (proj1 (reassembler_in_order (fun s => 10 * s) 4 0 FlowReassembler_new (17, 23)
           [(3, 0); (1, 4); (0, 11); (2, 2)] [] wf_new _ _ _ _ _ _)).
  - reflexivity.
  - reflexivity.
  - vm_compute; congruence.
  - vm_compute; congruence.
  - apply (bool_decide_unpack _). vm_compute. exact I.
  - repeat constructor; vm_compute; congruence.
Defined.

(** ** Witnesses *)

Lemma reassembler_invariant_witness :
  wf_reassembler (push_at FlowReassembler_new (mkFrameHeader 1 2 5) 50 0 []).1
  /\ pending_total (push_at FlowReassembler_new (mkFrameHeader 1 2 5) 50 0 []).1 = 1.
Proof.
  split; [|reflexivity].
  apply (proj2 (reassembler_invariant FlowReassembler_new (mkFrameHeader 1 2 5) 50 0 []) wf_new).
  repeat split; cbn; lia.
Defined.

Lemma reassembler_order_witness :
  let frames := flow_frame (fun s => s) (1, 2) <$> [(2, 0); (3, 0); (7, 20); (0, 20); (2, 21)] in
  (push_run FlowReassembler_new frames []).2 = [2; 3] /\
  exists ps rest,
    (push_run FlowReassembler_new frames []).2 = [] ++ (p_value <$> ps)
    /\ released 0 ps (expected (flow_of (push_run FlowReassembler_new frames []).1 (1, 2)))
    /\ pending (flow_of FlowReassembler_new (1, 2)) ++ ((fun '(h, v, _) => mkPending (sequence h) v) <$> frames)
       ≡ₚ ps ++ pending (flow_of (push_run FlowReassembler_new frames []).1 (1, 2)) ++ rest.
Proof.
  intros frames. split; [vm_compute; reflexivity|].
  refine (reassembler_order FlowReassembler_new frames [] (1, 2) wf_new _).
  repeat (apply Forall_cons; split; [repeat split; cbn; lia|]). constructor.
Defined.

(** ** Frames that arrive and are lost

    When a flow holds 96 frames, [push_at] releases the lowest ones and then
    queues the new frame without comparing it again with the expected number,
    which has moved.  A frame behind it, or equal to it, is never delivered. *)

Definition at_time (t : Z) (seqs : list Z) : list (Z * Z) := (fun s => (s, t)) <$> seqs.

(** Frames 1..49 and 51..97 wait for frame 0 when frame 50 arrives, all
    within the deadline: frames 1..49 are released and 50, although it is now
    the expected one, is queued; the next release jumps over it.  Frame 50 is
    never delivered and keeps its slot. *)
Theorem full_window_loses_frame :
  let run := push_run FlowReassembler_new
    (flow_frame (fun s => s) (1, 2) <$> at_time 0 (seqZ 1 49 ++ seqZ 51 47 ++ [50]) ++ at_time 100 [98]) [] in
  run.2 = seqZ 1 49 ++ seqZ 51 48
  /\ p_sequence <$> pending (flow_of run.1 (1, 2)) = [50]
  /\ expected (flow_of run.1 (1, 2)) = 99.
Proof. vm_compute. auto. Qed.

(** One round that leaves a frame behind: with [k] such frames held, the
    flow is filled from [e + 2] on and then frame [e + 1] arrives. *)
Definition stale_round (e k : Z) : list (Z * Z) :=
  at_time 0 (seqZ (e + 2) (MAX_PENDING_PER_FLOW - k) ++ [e + 1]).

Fixpoint stale_rounds (rounds : nat) (e k : Z) : list (Z * Z) :=
  match rounds with
  | O => at_time 0 [e + 2]
  | S rounds => stale_round e k ++ stale_rounds rounds (e + 2 + (MAX_PENDING_PER_FLOW - k)) (k + 1)
  end.

(** Such frames accumulate and are never in front again, so the limit of
    96 frames per flow does not hold: after 96 rounds one flow holds 97. *)
Theorem per_flow_limit_exceeded :
  let run := push_run FlowReassembler_new
    (flow_frame (fun s => s) (1, 2) <$> stale_rounds 96 0 0) [] in
  len (pending (flow_of run.1 (1, 2))) = MAX_PENDING_PER_FLOW + 1.
Proof. vm_compute. reflexivity. Qed.

(** ** What the reassembler holds *)

Section Holds.
Context {T : Type} (P : T -> Prop).

(** Every frame that waits satisfies [P]. *)
Definition frames_hold (r : FlowReassembler T) : Prop :=
  map_Forall (fun _ st => Forall (fun p => P (p_value p)) (pending st)) (flows r).

Lemma frames_hold_new : frames_hold FlowReassembler_new.
Proof. apply map_Forall_empty. Qed.

Lemma push_at_holds r h v now out r' out' :
  wf_reassembler r -> is_u32 (sequence h) -> frames_hold r -> P v -> Forall P out -> push_at r h v now out = (r', out') ->
  wf_reassembler r' /\ frames_hold r' /\ Forall P out'.
Proof.
  intros Hwf Hs Hr Hv Hout Hp. pose proof Hp as Hspec.
  apply push_at_spec in Hspec as (Hwf' & ps & -> & _ & Hperm); [|done|done]. cbv zeta in Hperm.
  assert (Hall : Forall (fun p => P (p_value p)) (ps ++ pending (flow_of r' (key_of h)))).
  { assert (Hb : Forall (fun p => P (p_value p)) (pending (flow_of r (key_of h)))).
    { unfold flow_of. destruct (flows r !! _) as [st|] eqn:E; cbn; [by apply (Hr _ _ E)|constructor]. }
    destruct Hperm as [<-|<-]; [|done]. apply Forall_app_2; [done|]. by constructor. }
  apply Forall_app in Hall as [H1 H2]. split; [done|]. split.
  - unfold push_at in Hp. fold (key_of h) in Hp. set (r1 := if _ && _ then _ else r) in *.
    assert (Hr1 : frames_hold r1) by (unfold r1; destruct (_ && _); [apply map_Forall_empty|done]).
    destruct (push_state _ _ _ _ _ _) as [[st' t'] o']. injection Hp as <- _.
    unfold flow_of in H2. cbn [flows] in *. rewrite lookup_insert_eq in H2. by apply map_Forall_insert_2.
  - apply Forall_app_2; [done|]. by apply Forall_fmap.
Qed.
End Holds.
