(* ===== verification/Classify.v ===== *)
(** * Packet classes and selective duplication
    ([shared/striped_scheduler.rs], [shared/selective_fec.rs])

    Which of the three queues a packet belongs to, which packets are sent
    twice, and the token bucket that limits the duplicates. *)

From S2P Require Import Prelude FlowFrame.

(** ** [striped_scheduler.rs] *)

Definition SMALL_PACKET_MAX : Z := 164.
Definition MEDIUM_PACKET_MAX : Z := 999.
Definition SMALL_STREAM_STRIPE_PACKET_CHUNK : Z := 4.
Definition MEDIUM_STREAM_STRIPE_PACKET_CHUNK : Z := 16.
Definition BULK_STREAM_STRIPE_PACKET_CHUNK : Z := 32.
Definition SMALL_DATAGRAM_BATCH : Z := 16.
Definition MEDIUM_DATAGRAM_BATCH : Z := 64.
Definition BULK_DATAGRAM_BATCH : Z := 128.

Inductive PacketClass := Small | Medium | Bulk.

#[global] Instance PacketClass_eq_dec : EqDecision PacketClass.
Proof. solve_decision. Defined.

Definition PacketClass_index (self : PacketClass) : Z :=
  match self with Small => 0 | Medium => 1 | Bulk => 2 end.

Definition stream_chunk (self : PacketClass) : Z :=
  match self with
  | Small => SMALL_STREAM_STRIPE_PACKET_CHUNK
  | Medium => MEDIUM_STREAM_STRIPE_PACKET_CHUNK
  | Bulk => BULK_STREAM_STRIPE_PACKET_CHUNK
  end.

Definition datagram_batch (self : PacketClass) : Z :=
  match self with
  | Small => SMALL_DATAGRAM_BATCH
  | Medium => MEDIUM_DATAGRAM_BATCH
  | Bulk => BULK_DATAGRAM_BATCH
  end.

Definition size_class (length : Z) : PacketClass :=
  if length <=? SMALL_PACKET_MAX then Small
  else if length <=? MEDIUM_PACKET_MAX then Medium else Bulk.

(** The extension headers the two IPv6 parsers walk over: the next protocol and
    the offset behind the header at [offset]; [Ok None] is any other protocol. *)
Definition ipv6_extension (packet : bytes) (protocol offset : Z) : opt (option (Z * Z)) :=
  if (protocol =? 0) || (protocol =? 43) || (protocol =? 60) then
    e ← try_ tt (checked_add offset 2);
    header ← try_ tt (get_range packet offset e);
    h0 ← at_ header 0; h1 ← at_ header 1;
    n ← try_ tt (checked_mul (h1 + 1) 8);
    offset ← try_ tt (checked_add offset n);
    Ok (Some (h0, offset))
  else if protocol =? 44 then
    e ← try_ tt (checked_add offset 8);
    header ← try_ tt (get_range packet offset e);
    h2 ← at_ header 2; h3 ← at_ header 3;
    if negb (Z.land (be16 h2 h3) 0xfff8 =? 0) then none else
    h0 ← at_ header 0;
    offset ← try_ tt (checked_add offset 8);
    Ok (Some (h0, offset))
  else if protocol =? 51 then
    e ← try_ tt (checked_add offset 2);
    header ← try_ tt (get_range packet offset e);
    h0 ← at_ header 0; h1 ← at_ header 1;
    n ← try_ tt (checked_mul (h1 + 2) 4);
    offset ← try_ tt (checked_add offset n);
    Ok (Some (h0, offset))
  else Ok None.

(** [for _ in 0..turns] *)
Fixpoint ipv6_walk (turns : nat) (packet : bytes) (protocol offset : Z) : opt (Z * Z) :=
  match turns with
  | O => Ok (protocol, offset)
  | S turns =>
      next ← ipv6_extension packet protocol offset;
      match next with
      | None => Ok (protocol, offset)
      | Some (protocol, offset) =>
          if len packet <? offset then none else ipv6_walk turns packet protocol offset
      end
  end.

Definition ipv6_transport (packet : bytes) : opt (Z * Z) :=
  protocol ← at_ packet 6;
  ipv6_walk 8 packet protocol 40.

Definition internet_transport (packet : bytes) : opt (Z * Z) :=
  match head packet with
  | None => none
  | Some first =>
      if Z.shiftr first 4 =? 4 then
        header_len ← try_ tt (checked_mul (Z.land first 0x0f) 4);
        if (20 <=? header_len) && (header_len <=? len packet) then
          protocol ← at_ packet 9; Ok (protocol, header_len)
        else none
      else if (Z.shiftr first 4 =? 6) && (40 <=? len packet) then ipv6_transport packet
      else none
  end.

Definition is_dns (packet : bytes) (transport offset : Z) : opt bool :=
  if negb ((transport =? 6) || (transport =? 17)) then Ok false else
  match get_range packet offset (sat_add offset 4) with
  | None => Ok false
  | Some ports =>
      p0 ← at_ ports 0; p1 ← at_ ports 1; p2 ← at_ ports 2; p3 ← at_ ports 3;
      Ok ((be16 p0 p1 =? 53) || (be16 p2 p3 =? 53))
  end.

Definition is_tcp_control (packet : bytes) (offset : Z) : opt bool :=
  match get_range packet offset (sat_add offset 14) with
  | None => Ok false
  | Some header =>
      flags ← at_ header 13;
      if negb (Z.land flags (Z.lor 0x02 (Z.lor 0x01 0x04)) =? 0) then Ok true
      else if Z.land flags 0x10 =? 0 then Ok false
      else
        h12 ← at_ header 12;
        let header_len := sat_mul (Z.shiftr h12 4) 4 in
        Ok ((20 <=? header_len) && (len packet <=? sat_add offset header_len))
  end.

Definition packet_class (packet : bytes) : opt PacketClass :=
  let packet := payload packet in
  match internet_transport packet with
  | Ok (transport, offset) =>
      dns ← (if (transport =? 1) || (transport =? 58) then Ok true else is_dns packet transport offset);
      if dns : bool then Ok Small else
      control ← (if transport =? 6 then is_tcp_control packet offset else Ok false);
      if control : bool then Ok Small else Ok (size_class (len packet))
  | Err _ => Ok (size_class (len packet))
  | Panic => Panic
  end.

(** ** [selective_fec.rs] *)

Definition MAX_SMALL_UDP_PAYLOAD : Z := 256.
Definition DUPLICATES_PER_SECOND : Z := 50.
Definition DUPLICATE_BURST : Z := 10.
(** Nanoseconds. *)
Definition REFILL_INTERVAL : Z := (1000 / DUPLICATES_PER_SECOND) * 1000000.

(** [updated] is the reading of the monotonic clock, in nanoseconds. *)
Record Budget := mkBudget { tokens : Z; updated : Z }.

Definition Budget_new (now : Z) : Budget := mkBudget DUPLICATE_BURST now.

Definition Budget_allow (self : Budget) (now : Z) : bool * Budget :=
  let elapsed := sat_sub now (updated self) in
  let refill := elapsed / REFILL_INTERVAL in
  let self :=
    if negb (refill =? 0) then
      let refill := Z.min refill U32_MAX in
      mkBudget (Z.min (Z.min U32_MAX (tokens self + refill)) DUPLICATE_BURST)
               (updated self + REFILL_INTERVAL * refill)
    else self in
  if tokens self =? 0 then (false, self)
  else (true, mkBudget (tokens self - 1) (updated self)).

Definition is_control (packet : bytes) : bool :=
  starts_with packet (b_ "GETCONF:")
  || starts_with packet (b_ "TUNCONF:")
  || bytes_eqb packet (b_ "READY")
  || bytes_eqb packet (b_ "READY_OK")
  || starts_with packet (b_ "DENIED:")
  || starts_with packet (b_ "DISCONNECT:").

Record Transport := mkTransport { t_protocol : Z; t_bytes : bytes }.

Definition classify_transport (transport : Transport) : opt bool :=
  let b := t_bytes transport in
  if (t_protocol transport =? 6) && (14 <=? len b) then
    b0 ← at_ b 0; b1 ← at_ b 1; b2 ← at_ b 2; b3 ← at_ b 3; b13 ← at_ b 13;
    Ok ((be16 b0 b1 =? 53) || (be16 b2 b3 =? 53) || negb (Z.land b13 0x02 =? 0))
  else if (t_protocol transport =? 17) && (8 <=? len b) then
    b0 ← at_ b 0; b1 ← at_ b 1; b2 ← at_ b 2; b3 ← at_ b 3;
    Ok ((be16 b0 b1 =? 53) || (be16 b2 b3 =? 53) || (sat_sub (len b) 8 <=? MAX_SMALL_UDP_PAYLOAD))
  else Ok false.

Definition fec_ipv4_transport (packet : bytes) : opt Transport :=
  if len packet <? 20 then none else
  b0 ← at_ packet 0;
  if negb (Z.shiftr b0 4 =? 4) then none else
  header_len ← try_ tt (checked_mul (Z.land b0 0x0f) 4);
  if (header_len <? 20) || (len packet <? header_len) then none else
  b6 ← at_ packet 6; b7 ← at_ packet 7;
  if negb (Z.land (be16 b6 b7) 0x1fff =? 0) then none else
  protocol ← at_ packet 9;
  rest ← slice_from packet header_len;
  Ok (mkTransport protocol rest).

Definition fec_ipv6_transport (packet : bytes) : opt Transport :=
  if len packet <? 40 then none else
  b0 ← at_ packet 0;
  if negb (Z.shiftr b0 4 =? 6) then none else
  protocol ← at_ packet 6;
  '(protocol, offset) ← ipv6_walk 8 packet protocol 40;
  rest ← try_ tt (get_range packet offset (len packet));
  Ok (mkTransport protocol rest).

(** [option.is_some_and(classify_transport)] *)
Definition is_some_and (o : opt Transport) : opt bool :=
  match o with
  | Ok t => classify_transport t
  | Err _ => Ok false
  | Panic => Panic
  end.

Definition should_duplicate (packet : bytes) : opt bool :=
  let packet := payload packet in
  if is_control packet then Ok true else
  match head packet with
  | Some byte =>
      if Z.shiftr byte 4 =? 4 then is_some_and (fec_ipv4_transport packet)
      else if Z.shiftr byte 4 =? 6 then is_some_and (fec_ipv6_transport packet)
      else Ok false
  | None => Ok false
  end.

(** ** No panic on any packet *)

Lemma wf_payload packet : wf_bytes packet -> wf_bytes (payload packet).
Proof.
  intros H. pose proof (frame_decode_cases packet H) as Hd. unfold payload.
  destruct (FrameHeader_decode packet) as [[h rest]| |]; [|done..].
  destruct Hd as [_ ->]. apply wf_app in H. tauto.
Qed.

Lemma at_is_ok {E A} (l : list A) i : 0 <= i < len l -> exists b, @at_ E A l i = Ok b.
Proof. intros H. destruct (@at_ok E A l i H) as (b & -> & _). eauto. Qed.

(** Rewrites every in-bounds read of the goal to its value. *)
Ltac read_ok :=
  repeat match goal with
  | |- context [@at_ ?E Z ?l ?i] =>
      let b := fresh "b" in let Hb := fresh "Hat" in
      destruct (@at_is_ok E Z l i) as [b Hb]; [lia|rewrite Hb; cbn [mbind result_bind]]
  end.

Lemma ipv6_extension_cases packet protocol offset :
  wf_bytes packet -> 0 <= offset ->
  match ipv6_extension packet protocol offset with
  | Ok (Some (p, o)) => is_u8 p /\ offset <= o
  | Ok None | Err _ => True
  | Panic => False
  end.
Proof.
  intros Hwf Ho. unfold ipv6_extension.
  assert (Hget : forall n e header, checked_add offset n = Some e -> get_range packet offset e = Some header ->
            len header = n /\ wf_bytes header).
  { intros n e header He (? & ? & ? & ->)%get_range_Some. unfold checked_add in He.
    split_case_in He; [|done]. injection He as <-. split; [rewrite len_sub by lia; lia|by apply wf_sub]. }
  assert (Hbyte : forall header i b, wf_bytes header -> @at_ unit Z header i = Ok b -> is_u8 b)
    by (intros; eapply at_byte; eauto).
  assert (Hadd : forall n o, 0 <= n -> checked_add offset n = Some o -> offset <= o)
    by (unfold checked_add; intros n o ? H; split_case_in H; [injection H as <-; lia|done]).
  assert (Hmul : forall a k n, 0 <= a -> 0 <= k -> checked_mul a k = Some n -> 0 <= n)
    by (unfold checked_mul; intros a k n ? ? H; split_case_in H; [injection H as <-; lia|done]).
  destruct (_ || _ || _).
  { destruct (checked_add offset 2) as [e|] eqn:He; [|done]. cbn [try_ mbind result_bind].
    destruct (get_range packet offset e) as [header|] eqn:Hg; [|done]. cbn [try_ mbind result_bind].
    destruct (Hget _ _ _ He Hg) as [Hl Hw]. read_ok.
    pose proof (Hbyte _ _ _ Hw Hat). pose proof (Hbyte _ _ _ Hw Hat0). unfold is_u8 in *.
    destruct (checked_mul _ 8) as [n|] eqn:Hn; [|done]. apply Hmul in Hn as ?; [|lia..].
    cbn [try_ mbind result_bind].
    destruct (checked_add offset n) as [o|] eqn:Hoff; [|done]. cbn [try_ mbind result_bind]. eauto. }
  destruct (protocol =? 44).
  { destruct (checked_add offset 8) as [e|] eqn:He; [|done]. cbn [try_ mbind result_bind].
    destruct (get_range packet offset e) as [header|] eqn:Hg; [|done]. cbn [try_ mbind result_bind].
    destruct (Hget _ _ _ He Hg) as [Hl Hw]. read_ok. destruct (negb _); [done|].
    cbn [try_ mbind result_bind]. apply Hadd in He; [|lia]. split; [by eapply Hbyte|done]. }
  destruct (protocol =? 51); [|done].
  destruct (checked_add offset 2) as [e|] eqn:He; [|done]. cbn [try_ mbind result_bind].
  destruct (get_range packet offset e) as [header|] eqn:Hg; [|done]. cbn [try_ mbind result_bind].
  destruct (Hget _ _ _ He Hg) as [Hl Hw]. read_ok.
  pose proof (Hbyte _ _ _ Hw Hat). pose proof (Hbyte _ _ _ Hw Hat0). unfold is_u8 in *.
  destruct (checked_mul _ 4) as [n|] eqn:Hn; [|done]. apply Hmul in Hn as ?; [|lia..].
  cbn [try_ mbind result_bind].
  destruct (checked_add offset n) as [o|] eqn:Hoff; [|done]. cbn [try_ mbind result_bind]. eauto.
Qed.

Lemma ipv6_walk_cases turns packet protocol offset :
  wf_bytes packet -> 0 <= offset -> offset <= len packet ->
  match ipv6_walk turns packet protocol offset with
  | Ok (_, o) => offset <= o <= len packet
  | Err _ => True
  | Panic => False
  end.
Proof.
  intros Hwf. revert protocol offset. induction turns as [|turns IH]; intros protocol offset H0 H1; [cbn; lia|].
  cbn [ipv6_walk]. pose proof (ipv6_extension_cases packet protocol offset Hwf H0) as Hx.
  destruct (ipv6_extension _ _ _) as [[[p o]|]|e|]; cbn [mbind result_bind]; [|lia|done|done].
  destruct Hx as [_ Ho]. destruct (len packet <? o) eqn:El; [done|]. bool_prop.
  specialize (IH p o ltac:(lia) El). destruct (ipv6_walk _ _ _ _) as [[p' o']| |]; [lia|done..].
Qed.

Lemma internet_transport_cases packet :
  wf_bytes packet ->
  match internet_transport packet with
  | Ok (_, o) => 20 <= o <= len packet
  | Err _ => True
  | Panic => False
  end.
Proof.
  intros Hwf. unfold internet_transport. destruct (head packet) as [first|]; [|done].
  destruct (Z.shiftr first 4 =? 4).
  - destruct (checked_mul _ _) as [h|]; [|done]. cbn [try_ mbind result_bind].
    destruct (_ && _) eqn:E; [|done]. bool_prop. read_ok. lia.
  - destruct (_ && _) eqn:E; [|done]. bool_prop. unfold ipv6_transport. read_ok.
    pose proof (ipv6_walk_cases 8 packet b 40 Hwf ltac:(lia) ltac:(lia)) as Hw.
    destruct (ipv6_walk _ _ _ _) as [[p o]| |]; [lia|done..].
Qed.

Lemma get_range_len {A} (l k : list A) i j : get_range l i j = Some k -> len k = j - i.
Proof. intros (? & ? & ? & ->)%get_range_Some. apply len_sub; lia. Qed.

Lemma is_dns_ok packet t o :
  0 <= o <= len packet -> len packet <= ISIZE_MAX -> exists b, is_dns packet t o = Ok b.
Proof.
  unfold ISIZE_MAX. intros Ho Hl. unfold is_dns. destruct (negb _); [eauto|].
  destruct (get_range _ _ _) as [ports|] eqn:E; [|eauto]. apply get_range_len in E.
  unfold sat_add, USIZE_MAX in E. read_ok. eauto.
Qed.

Lemma is_tcp_control_ok packet o :
  0 <= o <= len packet -> len packet <= ISIZE_MAX -> exists b, is_tcp_control packet o = Ok b.
Proof.
  unfold ISIZE_MAX. intros Ho Hl. unfold is_tcp_control.
  destruct (get_range _ _ _) as [header|] eqn:E; [|eauto]. apply get_range_len in E.
  unfold sat_add, USIZE_MAX in E. read_ok. destruct (negb _); [eauto|]. destruct (Z.land _ 16 =? 0); eauto.
Qed.

Lemma classify_transport_ok t : exists b, classify_transport t = Ok b.
Proof.
  unfold classify_transport. destruct (_ && _) eqn:E; bool_prop; [read_ok; eauto|]. clear E.
  destruct (_ && _) eqn:E; bool_prop; [read_ok; eauto|]. eauto.
Qed.

Lemma fec_ipv4_transport_safe packet : safe (fec_ipv4_transport packet).
Proof.
  unfold fec_ipv4_transport. destruct (_ <? _) eqn:E; [done|]. bool_prop.
  destruct (@at_is_ok unit Z packet 0) as [b0 H0]; [lia|]. rewrite H0. cbn [mbind result_bind].
  destruct (negb _); [done|]. destruct (checked_mul _ _) as [h|] eqn:Eh; [|done].
  cbn [try_ mbind result_bind]. destruct (_ || _) eqn:E2; [done|]. bool_prop.
  assert (0 <= h) by lia. read_ok. destruct (negb _); [done|].
  cbn [mbind result_bind]. by rewrite slice_from_ok by lia.
Qed.

Lemma fec_ipv6_transport_safe packet : wf_bytes packet -> safe (fec_ipv6_transport packet).
Proof.
  intros Hwf. unfold fec_ipv6_transport. destruct (_ <? _) eqn:E; [done|]. bool_prop.
  destruct (@at_is_ok unit Z packet 0) as [b0 H0]; [lia|]. rewrite H0. cbn [mbind result_bind].
  destruct (negb _); [done|]. read_ok.
  pose proof (ipv6_walk_cases 8 packet b 40 Hwf ltac:(lia) ltac:(lia)) as Hw.
  destruct (ipv6_walk _ _ _ _) as [[p o]| |]; cbn; [|done|done]. by destruct (get_range _ _ _).
Qed.

(** Both classifiers are total: on every byte string they return a class
    and a decision; no parsed length or offset makes them read outside the
    packet. *)
Theorem classification_total packet :
  wf_bytes packet -> len packet <= ISIZE_MAX ->
  (exists c, packet_class packet = Ok c) /\ (exists d, should_duplicate packet = Ok d).
Proof.
  intros Hwf0 Hlen0. pose proof (wf_payload _ Hwf0) as Hwf.
  assert (Hlen : len (payload packet) <= ISIZE_MAX).
  { unfold payload. pose proof (frame_decode_cases packet Hwf0) as Hd.
    destruct (FrameHeader_decode packet) as [[h rest]| |]; [|done..]. destruct Hd as [_ Hd].
    apply (f_equal len) in Hd. rewrite len_app, len_frame_bytes in Hd. unfold FRAME_LEN in Hd. lia. }
  split.
  - unfold packet_class. pose proof (internet_transport_cases _ Hwf) as Ht.
    destruct (internet_transport _) as [[t o]|e|]; [|eauto|done].
    destruct (is_dns_ok (payload packet) t o) as [dns Hd]; [lia|done|].
    destruct (is_tcp_control_ok (payload packet) o) as [ctl Hc]; [lia|done|].
    rewrite Hd, Hc. destruct (_ || _); cbn; [eauto|]. destruct dns; cbn; [eauto|].
    destruct (t =? 6); cbn; [destruct ctl|]; eauto.
  - unfold should_duplicate. destruct (is_control _); [eauto|].
    pose proof (fec_ipv4_transport_safe (payload packet)) as H4.
    pose proof (fec_ipv6_transport_safe (payload packet) Hwf) as H6. unfold safe in *.
    destruct (head _) as [b|]; [|eauto]. unfold is_some_and.
    destruct (_ =? 4); [|destruct (_ =? 6); [|eauto]].
    + destruct (fec_ipv4_transport _); [apply classify_transport_ok|eauto|done].
    + destruct (fec_ipv6_transport _); [apply classify_transport_ok|eauto|done].
Qed.

Lemma classification_total_witness :
  (exists c, packet_class (sample_ipv4_tcp [1] 0x18 1000) = Ok c)
  /\ (exists d, should_duplicate (sample_ipv4_tcp [1] 0x18 1000) = Ok d).
Proof.
  apply (classification_total (sample_ipv4_tcp [1] 0x18 1000)).
  - apply (bool_decide_unpack _). vm_compute. exact I.
  - vm_compute; congruence.
Defined.

(** Framing a packet changes neither its class nor whether it is sent
    twice: both decisions look through the frame header. *)
Theorem classification_ignores_frame h packet :
  valid_header h -> (forall r, FrameHeader_decode packet <> Ok r) ->
  packet_class (frame_bytes h ++ packet) = packet_class packet
  /\ should_duplicate (frame_bytes h ++ packet) = should_duplicate packet.
Proof.
  intros Hv Hn. assert (Hp : payload (frame_bytes h ++ packet) = payload packet).
  { unfold payload. rewrite decode_frame_bytes by done.
    destruct (FrameHeader_decode packet) as [r| |] eqn:E; [by destruct (Hn r)|done..]. }
  unfold packet_class, should_duplicate. by rewrite Hp.
Qed.

Lemma classification_ignores_frame_witness :
  packet_class (frame_bytes (mkFrameHeader 1 2 3) ++ sample_ipv4_tcp [1] 0x18 1000)
  = packet_class (sample_ipv4_tcp [1] 0x18 1000)
  /\ should_duplicate (frame_bytes (mkFrameHeader 1 2 3) ++ sample_ipv4_tcp [1] 0x18 1000)
  = should_duplicate (sample_ipv4_tcp [1] 0x18 1000).
Proof.
  apply (classification_ignores_frame (mkFrameHeader 1 2 3) (sample_ipv4_tcp [1] 0x18 1000)).
  - repeat split; cbn; lia.
  - intros r. vm_compute. congruence.
Defined.

(** ** Duplicated packets are never bulk *)

Lemma not_framed_payload packet : (forall r, FrameHeader_decode packet <> Ok r) -> payload packet = packet.
Proof.
  intros Hn. unfold payload. destruct (FrameHeader_decode packet) as [r| |] eqn:E; [by destruct (Hn r)|done..].
Qed.

Lemma at_sub {E} (l : bytes) i j n :
  0 <= i -> 0 <= n -> n < j - i -> j <= len l -> @at_ E Z (sub l i j) n = at_ l (i + n).
Proof.
  intros. unfold at_, sub. replace (0 <=? n) with true by lia. replace (0 <=? i + n) with true by lia.
  rewrite lookup_take_lt by lia. rewrite lookup_drop. by replace (Z.to_nat i + Z.to_nat n)%nat with (Z.to_nat (i + n)) by lia.
Qed.

Lemma fec_ipv4_inv packet t :
  fec_ipv4_transport packet = Ok t ->
  exists b0 h, head packet = Some b0 /\ Z.shiftr b0 4 = 4 /\ h = Z.land b0 0x0f * 4
    /\ 20 <= h <= len packet /\ @at_ unit Z packet 9 = Ok (t_protocol t)
    /\ t_bytes t = sub packet h (len packet)
    /\ internet_transport packet = Ok (t_protocol t, h).
Proof.
  unfold fec_ipv4_transport. destruct (_ <? _) eqn:E; [done|]. bool_prop.
  intros H. inv_bind. rename a into b0. destruct packet as [|x l]; [rewrite len_nil in E; lia|].
  change (@at_ unit Z (x :: l) 0) with (@Ok unit Z x) in Hb. injection Hb as ->.
  split_case_in H; [done|]. bool_prop. inv_bind. rename a into h. destruct (checked_mul _ _) as [h'|] eqn:Eh; [|done].
  injection Hb as ->. split_case_in H; [done|]. bool_prop. inv_bind.
  split_case_in H; [done|]. inv_bind. apply slice_inv in Hb2 as (? & ? & _ & ->). injection H as <-.
  assert (h = Z.land b0 15 * 4) as Hh by (unfold checked_mul in Eh; split_case_in Eh; [by injection Eh|done]).
  exists b0, h. cbn [head t_protocol t_bytes]. split_and!; try done; try lia.
  unfold internet_transport. cbn [head]. rewrite Heqb. cbn [Z.eqb Pos.eqb]. rewrite Eh.
  cbn [try_ mbind result_bind]. replace (_ && _) with true by (symmetry; apply andb_true_iff; lia).
  rewrite Hb1. done.
Qed.

Lemma get_range_ok {A} (l : list A) i j : 0 <= i -> i <= j -> j <= len l -> get_range l i j = Some (sub l i j).
Proof. intros. unfold get_range. by replace (_ && _ && _) with true by (symmetry; rewrite !andb_true_iff; lia). Qed.

Lemma tcp_duplicate_small packet h :
  0 <= h <= len packet -> len packet <= ISIZE_MAX -> 
  classify_transport (mkTransport 6 (sub packet h (len packet))) = Ok true ->
  is_dns packet 6 h = Ok true \/ is_tcp_control packet h = Ok true.
Proof.
  unfold ISIZE_MAX. intros Hh Hl. unfold classify_transport. cbn [t_protocol t_bytes].
  change (6 =? 6) with true. cbn [andb]. rewrite len_sub by lia.
  destruct (14 <=? _) eqn:E; bool_prop; [|done]. rewrite !at_sub by lia.
  intros H. inv_bind. injection H as H. apply orb_true_iff in H.
  assert (Hs : forall k, 0 <= k <= 14 -> sat_add h k = h + k) by (unfold sat_add, USIZE_MAX; lia).
  destruct H as [H|H]; [left|right].
  - unfold is_dns. cbn [negb orb Z.eqb Pos.eqb]. rewrite Hs, get_range_ok by lia. rewrite !at_sub by lia.
    rewrite Hb, Hb0, Hb1, Hb2. cbn [mbind result_bind]. by rewrite H.
  - unfold is_tcp_control. rewrite Hs, get_range_ok by lia. rewrite !at_sub by lia. rewrite Hb3. cbn [mbind result_bind].
    replace (Z.lor 2 (Z.lor 1 4)) with 7 by reflexivity.
    destruct (Z.eqb_spec (Z.land a3 7) 0) as [Hz|]; [|done]. exfalso. bool_prop. apply H.
    change 2 with (Z.land 7 2). rewrite Z.land_assoc, Hz. done.
Qed.

(** An IPv4 packet that is sent twice is a control message of the tunnel
    or goes to the latency or the priority queue, never to the bulk queue: a
    duplicated TCP segment is always small class, a duplicated UDP datagram is
    DNS or at most 324 bytes long. *)
Theorem duplicates_are_not_bulk packet b :
  wf_bytes packet -> len packet <= ISIZE_MAX ->
  (forall r, FrameHeader_decode packet <> Ok r) ->
  head packet = Some b -> Z.shiftr b 4 = 4 -> is_control packet = false ->
  should_duplicate packet = Ok true ->
  packet_class packet = Ok Small \/ packet_class packet = Ok Medium.
Proof.
  intros Hwf Hl Hn Hhead H4 Hc. unfold should_duplicate, packet_class.
  rewrite (not_framed_payload _ Hn), Hc, Hhead, H4. cbn [Z.eqb Pos.eqb]. unfold is_some_and.
  destruct (fec_ipv4_transport packet) as [t| |] eqn:Et; [|done..]. intros Hcl.
  apply fec_ipv4_inv in Et as (b0 & h & Hb0 & _ & -> & Hh & _ & Hbytes & ->).
  assert (b0 = b) as -> by congruence. set (h := Z.land b 15 * 4) in *.
  destruct (is_dns_ok packet (t_protocol t) h) as [dns Hd]; [lia|done|].
  destruct (is_tcp_control_ok packet h) as [ctl Hctl]; [lia|done|].
  destruct t as [proto tb]. cbn [t_protocol t_bytes] in *. subst tb.
  destruct (Z.eqb_spec proto 6) as [->|Hne].
  - cbn [Z.eqb Pos.eqb orb]. rewrite Hd, Hctl.
    apply tcp_duplicate_small in Hcl as [Hx|Hx]; [rewrite Hd in Hx; injection Hx as ->; by left| |lia|done].
    rewrite Hctl in Hx. injection Hx as ->. destruct dns; by left.
  - rewrite Hd. destruct (_ || _); [by left|]. cbn [mbind result_bind].
    destruct dns; [by left|].
    unfold classify_transport in Hcl. cbn [t_protocol t_bytes] in Hcl.
    replace (proto =? 6) with false in Hcl by lia. cbn [andb] in Hcl.
    destruct (_ && _) eqn:E17; [|done]. bool_prop. subst proto.
    rewrite len_sub in * by lia. rewrite !at_sub in Hcl by lia. inv_bind. injection Hcl as Hcl.
    unfold is_dns in Hd. cbn [negb orb Z.eqb Pos.eqb] in Hd. unfold ISIZE_MAX in Hl.
    assert (Hs : sat_add h 4 = h + 4) by (unfold sat_add, USIZE_MAX; lia).
    rewrite Hs, get_range_ok in Hd by lia. rewrite !at_sub in Hd by lia.
    rewrite Hb, Hb1, Hb2, Hb3 in Hd. cbn [mbind result_bind] in Hd. injection Hd as Hd.
    rewrite Hd in Hcl. cbn [orb] in Hcl. bool_prop. unfold sat_sub, MAX_SMALL_UDP_PAYLOAD in Hcl.
    assert (h <= 60).
    { unfold h. change 15 with (Z.ones 4). rewrite Z.land_ones by lia.
      pose proof (Z.mod_pos_bound b (2 ^ 4)). lia. }
    cbn [Z.eqb Pos.eqb mbind result_bind]. unfold size_class, SMALL_PACKET_MAX, MEDIUM_PACKET_MAX.
    destruct (len packet <=? 164); [by left|]. replace (len packet <=? 999) with true by lia. by right.
Qed.

(** A UDP datagram over IPv4. *)
Definition sample_ipv4_udp (source destination payload_len : Z) : bytes :=
  [0x45] ++ zeroed 8 ++ [17] ++ zeroed 10 ++ be_bytes 2 source ++ be_bytes 2 destination
  ++ zeroed 4 ++ zeroed payload_len.

Lemma duplicates_are_not_bulk_witness :
  should_duplicate (sample_ipv4_udp 40000 443 256) = Ok true
  /\ should_duplicate (sample_ipv4_udp 40000 443 257) = Ok false
  /\ (packet_class (sample_ipv4_udp 40000 443 256) = Ok Small
      \/ packet_class (sample_ipv4_udp 40000 443 256) = Ok Medium).
Proof.
  split; [vm_compute; reflexivity|]. split; [vm_compute; reflexivity|].
  apply (duplicates_are_not_bulk (sample_ipv4_udp 40000 443 256) 0x45).
  - apply (bool_decide_unpack _). vm_compute. exact I.
  - vm_compute; congruence.
  - intros r. vm_compute. congruence.
  - reflexivity.
  - reflexivity.
  - vm_compute; reflexivity.
  - vm_compute; reflexivity.
Defined.

(** ** The token bucket *)

(** [allow] at each time of a run: the number of grants. *)
Fixpoint Budget_run (self : Budget) (times : list Z) : Z * Budget :=
  match times with
  | [] => (0, self)
  | now :: times =>
      let '(granted, self) := Budget_allow self now in
      let '(n, self) := Budget_run self times in ((if granted then 1 else 0) + n, self)
  end.

Definition wf_budget (b : Budget) : Prop := 0 <= tokens b <= DUPLICATE_BURST.

(** One call: [k] whole intervals are credited. *)
Lemma Budget_allow_step b now :
  wf_budget b ->
  exists k, 0 <= k /\ (k = 0 \/ updated b + REFILL_INTERVAL * k <= now)
    /\ updated (Budget_allow b now).2 = updated b + REFILL_INTERVAL * k
    /\ tokens (Budget_allow b now).2 + (if (Budget_allow b now).1 then 1 else 0) <= tokens b + k
    /\ wf_budget (Budget_allow b now).2
    /\ (updated b + REFILL_INTERVAL <= now \/ 0 < tokens b -> (Budget_allow b now).1 = true).
Proof.
  unfold wf_budget, DUPLICATE_BURST. intros Hb. unfold Budget_allow, sat_sub.
  change REFILL_INTERVAL with 20000000. unfold DUPLICATE_BURST, U32_MAX.
  set (refill := Z.max 0 (now - updated b) / 20000000).
  assert (Hr : 0 <= refill) by (apply Z.div_pos; lia).
  assert (Hmul : 20000000 * refill <= Z.max 0 (now - updated b)) by (apply Z.mul_div_le; lia).
  assert (Hpos : updated b + 20000000 <= now -> 1 <= refill) by (intros; apply Z.div_le_lower_bound; lia).
  destruct (Z.eqb_spec refill 0) as [Hz|Hnz]; cbn [negb].
  - exists 0. destruct (Z.eqb_spec (tokens b) 0); cbn [fst snd tokens updated]; split_and!; try lia.
  - exists (Z.min refill (2 ^ 32 - 1)). cbn [tokens updated].
    set (t := Z.min (Z.min _ _) 10).
    assert (0 < t <= 10 /\ t <= tokens b + Z.min refill (2 ^ 32 - 1)) as [? ?] by (unfold t; lia).
    replace (t =? 0) with false by lia. cbn [fst snd tokens updated]. split_and!; try lia; done.
Qed.

Lemma Budget_run_bound b times last :
  wf_budget b -> updated b <= last -> Forall (fun t => t <= last) times ->
  REFILL_INTERVAL * (Budget_run b times).1 <= REFILL_INTERVAL * tokens b + (last - updated b).
Proof.
  revert b. induction times as [|now times IH]; intros b Hb Hu Ht; cbn [Budget_run].
  { cbn [fst]. unfold wf_budget in Hb. change REFILL_INTERVAL with 20000000. lia. }
  apply Forall_cons in Ht as [Hnow Ht].
  destruct (Budget_allow_step b now Hb) as (k & Hk & Hk' & Hup & Htok & Hwf & _).
  destruct (Budget_allow b now) as [granted b']. cbn [fst snd] in *.
  specialize (IH b' Hwf). change REFILL_INTERVAL with 20000000 in *.
  specialize (IH ltac:(lia) Ht). destruct (Budget_run b' times) as [n b'']. cbn [fst] in *.
  destruct granted; lia.
Qed.

(** The duplicate budget is a rate limit: however the calls are timed, the
    calls made up to time [last] are granted at most a burst of 10 plus one per
    20 ms since the budget was created; and a call is granted whenever a token
    is left or 20 ms have passed since the last credit. *)
Theorem budget_rate_limit start times last b now :
  (start <= last -> Forall (fun t => t <= last) times ->
   (Budget_run (Budget_new start) times).1 <= DUPLICATE_BURST + (last - start) / REFILL_INTERVAL)
  /\ (wf_budget b -> updated b + REFILL_INTERVAL <= now \/ 0 < tokens b ->
      (Budget_allow b now).1 = true /\ wf_budget (Budget_allow b now).2).
Proof.
  split.
  - intros Hs Ht. pose proof (Budget_run_bound (Budget_new start) times last) as Hb.
    cbn [tokens updated Budget_new] in Hb. change REFILL_INTERVAL with 20000000 in *.
    specialize (Hb ltac:(split; vm_compute; congruence) Hs Ht).
    unfold DUPLICATE_BURST in *. assert ((Budget_run (Budget_new start) times).1 - 10 <= (last - start) / 20000000).
    { apply Z.div_le_lower_bound; lia. }
    lia.
  - intros Hb Hor. destruct (Budget_allow_step b now Hb) as (k & _ & _ & _ & _ & Hwf & Hg). auto.
Qed.

Lemma budget_rate_limit_witness :
  (Budget_run (Budget_new 0) (replicate 30 40000000)).1 = 10
  /\ (Budget_run (Budget_new 0) (replicate 30 40000000)).1 <= 12
  /\ (Budget_allow (mkBudget 0 0) 20000000).1 = true.
Proof.
  split; [vm_compute; reflexivity|]. split.
  - exact (proj1 (budget_rate_limit 0 (replicate 30 40000000) 40000000 (Budget_new 0) 0)
             ltac:(lia) ltac:(apply Forall_replicate; lia)).
  - exact (proj1 (proj2 (budget_rate_limit 0 [] 0 (mkBudget 0 0) 20000000)
             ltac:(split; vm_compute; congruence) ltac:(left; vm_compute; congruence))).
Defined.
