(* ===== verification/Replay.v ===== *)
(** * Replay windows
    ([rust-server/protocol.rs] [ReplayState], [rust-client/session.rs] [ReplayWindow])

    Both ends keep a bitmap of the last 16384 sequence numbers.  The two
    implementations refine one specification, in which the window remembers
    everything it ever accepted. *)

From S2P Require Import Prelude.

(** ** The bitmap: 256 words of 64 bits *)

Abbreviation bitmap := (list Z).

Definition WINDOW : Z := 16384.

Definition words_zero : bitmap := replicate 256 0.
Definition words_index (counter : Z) : Z := counter mod 16384.
Definition words_set (w : bitmap) (counter : Z) : bitmap :=
  let index := words_index counter in
  alter (fun x => Z.lor x (Z.shiftl 1 (index mod 64))) (Z.to_nat (index / 64)) w.
Definition words_clear (w : bitmap) (counter : Z) : bitmap :=
  let index := words_index counter in
  alter (fun x => Z.land x (Z.lxor U64_MAX (Z.shiftl 1 (index mod 64)))) (Z.to_nat (index / 64)) w.
Definition words_test (w : bitmap) (counter : Z) : bool :=
  let index := words_index counter in
  negb (Z.land (default 0 (w !! Z.to_nat (index / 64))) (Z.shiftl 1 (index mod 64)) =? 0).

(** ** The server's window *)

Record ReplayState := mkReplayState {
  rs_initialized : bool;
  rs_highest : Z;
  rs_bitmap : option bitmap;
}.

Definition ReplayState_new : ReplayState := mkReplayState false 0 None.

Definition set_srtp_bit (self : ReplayState) (counter : Z) : ReplayState :=
  mkReplayState (rs_initialized self) (rs_highest self)
    (match rs_bitmap self with Some w => Some (words_set w counter) | None => None end).
Definition clear_srtp_bit (self : ReplayState) (counter : Z) : ReplayState :=
  mkReplayState (rs_initialized self) (rs_highest self)
    (match rs_bitmap self with Some w => Some (words_clear w counter) | None => None end).
Definition test_srtp_bit (self : ReplayState) (counter : Z) : bool :=
  match rs_bitmap self with Some w => words_test w counter | None => false end.

Definition ReplayState_accept (self : ReplayState) (seq : Z) : bool * ReplayState :=
  let self := mkReplayState (rs_initialized self) (rs_highest self)
                (Some (default words_zero (rs_bitmap self))) in
  if negb (rs_initialized self) then
    (true, set_srtp_bit (mkReplayState true seq (rs_bitmap self)) seq)
  else
  let forward := u16_of (seq - rs_highest self) in
  if negb (forward =? 0) && (forward <? 32768) then
    let self :=
      if 16384 <=? forward then
        mkReplayState (rs_initialized self) (rs_highest self)
          (match rs_bitmap self with Some _ => Some words_zero | None => None end)
      else foldl (fun s offset => clear_srtp_bit s (u16_of (rs_highest s + offset)))
             self (seqZ 1 forward) in
    (true, set_srtp_bit (mkReplayState (rs_initialized self) seq (rs_bitmap self)) seq)
  else
  let behind := u16_of (rs_highest self - seq) in
  if (16384 <=? behind) || test_srtp_bit self seq then (false, self)
  else (true, set_srtp_bit self seq).

(** ** The client's window *)

Record ReplayWindow := mkReplayWindow {
  rw_highest : option Z;
  rw_seen : bitmap;
}.

Definition ReplayWindow_default : ReplayWindow := mkReplayWindow None words_zero.

Definition rw_set_bit (self : ReplayWindow) (counter : Z) : ReplayWindow :=
  mkReplayWindow (rw_highest self) (words_set (rw_seen self) counter).
Definition rw_clear_bit (self : ReplayWindow) (counter : Z) : ReplayWindow :=
  mkReplayWindow (rw_highest self) (words_clear (rw_seen self) counter).
Definition rw_test_bit (self : ReplayWindow) (counter : Z) : bool :=
  words_test (rw_seen self) counter.

Definition ReplayWindow_accept (self : ReplayWindow) (counter : Z) : bool * ReplayWindow :=
  match rw_highest self with
  | None => (true, rw_set_bit (mkReplayWindow (Some counter) (rw_seen self)) counter)
  | Some highest =>
      if highest <? counter then
        let shift := counter - highest in
        let self :=
          if 16384 <=? shift then mkReplayWindow (rw_highest self) words_zero
          else foldl (fun s i => rw_clear_bit s (highest + i)) self (seqZ 1 shift) in
        (true, rw_set_bit (mkReplayWindow (Some counter) (rw_seen self)) counter)
      else
      let age := highest - counter in
      if 16384 <=? age then (false, self)
      else if rw_test_bit self counter then (false, self)
      else (true, rw_set_bit self counter)
  end.

(** The 64-bit counter a 16-bit sequence number stands for. *)
Definition extend_rtp (highest sequence : Z) : Z :=
  let base := Z.land highest (Z.lxor U64_MAX U16_MAX) in
  let extended := Z.lor base sequence in
  if sat_add extended (2 ^ 15) <? highest then sat_add extended (2 ^ 16)
  else if (sat_add highest (2 ^ 15) <? extended) && (2 ^ 16 <=? extended) then extended - 2 ^ 16
  else extended.

Definition ReplayWindow_accept_rtp (self : ReplayWindow) (sequence : Z) : bool * ReplayWindow :=
  match rw_highest self with
  | None => ReplayWindow_accept self sequence
  | Some highest => ReplayWindow_accept self (extend_rtp highest sequence)
  end.

(** ** Specification: remember everything *)

(** The newest counter and all counters ever accepted. *)
Abbreviation Spec := (option (Z * gset Z)).

Definition spec_accept (w : Spec) (c : Z) : bool * Spec :=
  match w with
  | None => (true, Some (c, {[c]}))
  | Some (top, seen) =>
      if top <? c then (true, Some (c, {[c]} ∪ seen))
      else if (WINDOW <=? top - c) || bool_decide (c ∈ seen) then (false, w)
      else (true, Some (top, {[c]} ∪ seen))
  end.

(** ** Bit lemmas *)

Lemma words_index_range c : 0 <= words_index c < 16384.
Proof. apply Z.mod_pos_bound. lia. Qed.

Lemma index_split c : 0 <= words_index c / 64 < 256 /\ 0 <= words_index c mod 64 < 64.
Proof.
  pose proof (words_index_range c). split; [|apply Z.mod_pos_bound; lia].
  split; [apply Z.div_pos; lia|apply Z.div_lt_upper_bound; lia].
Qed.

Lemma index_inj c d :
  words_index c / 64 = words_index d / 64 -> words_index c mod 64 = words_index d mod 64 ->
  words_index c = words_index d.
Proof. intros H1 H2. rewrite (Z.div_mod (words_index c) 64), (Z.div_mod (words_index d) 64), H1, H2 by lia. done. Qed.

Lemma land_pow2_testbit x k : 0 <= k -> negb (Z.land x (Z.shiftl 1 k) =? 0) = Z.testbit x k.
Proof.
  intros Hk. rewrite Z.shiftl_1_l. destruct (Z.testbit x k) eqn:E.
  - apply negb_true_iff, Z.eqb_neq. intros Hz. apply (f_equal (fun z => Z.testbit z k)) in Hz.
    rewrite Z.land_spec, E, Z.pow2_bits_true, Z.bits_0 in Hz by done. done.
  - apply negb_false_iff, Z.eqb_eq. apply Z.bits_inj. intros j.
    rewrite Z.land_spec, Z.pow2_bits_eqb, Z.bits_0 by done.
    destruct (Z.eqb_spec k j); [subst; by rewrite E|apply andb_false_r].
Qed.

Lemma words_test_bit w c :
  words_test w c = Z.testbit (default 0 (w !! Z.to_nat (words_index c / 64))) (words_index c mod 64).
Proof. unfold words_test. apply land_pow2_testbit. pose proof (index_split c). lia. Qed.

Lemma words_test_set w c d :
  length w = 256%nat -> words_test (words_set w c) d = bool_decide (words_index c = words_index d) || words_test w d.
Proof.
  intros Hw. rewrite !words_test_bit. unfold words_set.
  pose proof (index_split c). pose proof (index_split d).
  destruct (decide (words_index c / 64 = words_index d / 64)) as [E|E].
  - rewrite E, list_lookup_alter_eq.
    destruct (lookup_lt_is_Some_2 w (Z.to_nat (words_index d / 64))) as [x Hx]; [lia|]. rewrite Hx. cbn.
    rewrite Z.lor_spec, Z.shiftl_1_l, Z.pow2_bits_eqb by lia. rewrite orb_comm. f_equal.
    case_bool_decide as Hi; [rewrite Hi; apply Z.eqb_refl|]. apply Z.eqb_neq. intros ?. by apply Hi, index_inj.
  - rewrite list_lookup_alter_ne by lia. rewrite bool_decide_eq_false_2 by congruence. done.
Qed.

Lemma words_test_clear w c d :
  length w = 256%nat ->
  words_test (words_clear w c) d = negb (bool_decide (words_index c = words_index d)) && words_test w d.
Proof.
  intros Hw. rewrite !words_test_bit. unfold words_clear.
  pose proof (index_split c). pose proof (index_split d).
  destruct (decide (words_index c / 64 = words_index d / 64)) as [E|E].
  - rewrite E, list_lookup_alter_eq.
    destruct (lookup_lt_is_Some_2 w (Z.to_nat (words_index d / 64))) as [x Hx]; [lia|]. rewrite Hx. cbn.
    rewrite Z.land_spec, Z.lxor_spec, Z.shiftl_1_l, Z.pow2_bits_eqb by lia.
    change U64_MAX with (Z.ones 64). rewrite Z.ones_spec_low by lia. rewrite andb_comm. f_equal.
    case_bool_decide as Hi; [rewrite Hi, Z.eqb_refl; done|].
    replace (_ =? _) with false; [done|]. symmetry. apply Z.eqb_neq. intros ?. by apply Hi, index_inj.
  - rewrite list_lookup_alter_ne by lia. rewrite bool_decide_eq_false_2 by congruence. done.
Qed.

Lemma words_test_zero c : words_test words_zero c = false.
Proof.
  rewrite words_test_bit. unfold words_zero. pose proof (index_split c).
  rewrite lookup_replicate_2 by lia. apply Z.bits_0.
Qed.

Lemma length_words_set w c : length (words_set w c) = length w.
Proof. apply length_alter. Qed.
Lemma length_words_clear w c : length (words_clear w c) = length w.
Proof. apply length_alter. Qed.

(** Clearing the numbers [h+1 .. h+n] one by one. *)
Definition clear_range (w : bitmap) (h n : Z) : bitmap :=
  foldl (fun w o => words_clear w (h + o)) w (seqZ 1 n).

Lemma clear_range_test w h n d :
  length w = 256%nat ->
  length (clear_range w h n) = 256%nat
  /\ words_test (clear_range w h n) d
     = negb (existsb (fun o => bool_decide (words_index (h + o) = words_index d)) (seqZ 1 n)) && words_test w d.
Proof.
  unfold clear_range. generalize (seqZ 1 n). intros l. revert w.
  induction l as [|o l IH]; intros w Hw; cbn [foldl existsb]; [done|].
  destruct (IH (words_clear w (h + o))) as [H1 H2]; [by rewrite length_words_clear|].
  split; [done|]. rewrite H2, words_test_clear by done. rewrite negb_orb.
  rewrite !andb_assoc. f_equal. apply andb_comm.
Qed.

(** ** The window invariant: inside the window a bit says what was accepted *)

Definition agrees (w : bitmap) (top : Z) (seen : gset Z) : Prop :=
  length w = 256%nat
  /\ (forall c, top - WINDOW < c <= top -> words_test w c = bool_decide (c ∈ seen))
  /\ (forall c, c ∈ seen -> c <= top).

Lemma index_window_inj top c d :
  top - WINDOW < c <= top -> top - WINDOW < d <= top -> words_index c = words_index d -> c = d.
Proof.
  unfold WINDOW, words_index. intros Hc Hd H.
  assert (Hz : (c - d) mod 16384 = 0) by (rewrite Zminus_mod, H, Z.sub_diag; done).
  apply Z.mod_divide in Hz as [k Hk]; [|lia]. nia.
Qed.

Lemma agrees_first c : agrees (words_set words_zero c) c {[c]}.
Proof.
  split; [by rewrite length_words_set|]. split; [|set_solver by lia].
  intros d Hd. rewrite words_test_set, words_test_zero, orb_false_r by done.
  apply bool_decide_ext. rewrite elem_of_singleton. split; [|by intros ->].
  intros E. symmetry. eapply (index_window_inj c); [unfold WINDOW; lia|done|done].
Qed.

Lemma agrees_inside w top seen c :
  agrees w top seen -> top - WINDOW < c <= top -> agrees (words_set w c) top ({[c]} ∪ seen).
Proof.
  intros (H1 & H2 & H3) Hc. split; [by rewrite length_words_set|]. split.
  - intros d Hd. rewrite words_test_set, H2 by done.
    rewrite <- bool_decide_or. apply bool_decide_ext. rewrite elem_of_union, elem_of_singleton.
    split; (intros [E|E]; [left|by right]); [symmetry; by eapply index_window_inj|by subst].
  - intros d [->%elem_of_singleton|]%elem_of_union; [lia|auto].
Qed.

Lemma agrees_forward w top seen c :
  agrees w top seen -> top < c ->
  agrees (words_set (if WINDOW <=? c - top then words_zero else clear_range w top (c - top)) c) c ({[c]} ∪ seen).
Proof.
  intros (H1 & H2 & H3) Hc.
  assert (Hlen : length (if WINDOW <=? c - top then words_zero else clear_range w top (c - top)) = 256%nat).
  { destruct (_ <=? _); [done|]. apply clear_range_test; [exact 0|done]. }
  split; [by rewrite length_words_set|]. split.
  2: { intros d [->%elem_of_singleton|Hd]%elem_of_union; [lia|specialize (H3 d Hd); lia]. }
  intros d Hd. rewrite words_test_set by done.
  assert (Hin : bool_decide (d ∈ {[c]} ∪ seen) = bool_decide (words_index c = words_index d) || bool_decide (d ∈ seen)).
  { rewrite <- bool_decide_or. apply bool_decide_ext. rewrite elem_of_union, elem_of_singleton.
    split; (intros [E|E]; [left|by right]); [by subst|].
    symmetry. eapply (index_window_inj c); [unfold WINDOW; lia|done|done]. }
  rewrite Hin. f_equal. destruct (WINDOW <=? c - top) eqn:Ew; bool_prop; unfold WINDOW in *.
  - rewrite words_test_zero. symmetry. apply bool_decide_eq_false. intros Hs. specialize (H3 d Hs). lia.
  - rewrite (proj2 (clear_range_test w top (c - top) d H1)).
    destruct (decide (d <= top)) as [Hle|Hgt].
    + rewrite <- H2 by lia. replace (existsb _ _) with false; [done|]. symmetry.
      apply not_true_iff_false. intros (o & Ho & Heq)%existsb_exists. bool_prop.
      apply list_elem_of_In, elem_of_seqZ in Ho.
      assert (top + o = d) by (eapply (index_window_inj c); unfold WINDOW; [lia|lia|done]). lia.
    + replace (existsb _ _) with true.
      * symmetry. apply bool_decide_eq_false. intros Hs. specialize (H3 d Hs). lia.
      * symmetry. apply existsb_exists. exists (d - top). split.
        -- apply list_elem_of_In, elem_of_seqZ. lia.
        -- replace (top + (d - top)) with d by lia. by apply bool_decide_eq_true.
Qed.

(** ** The server refines the specification *)

Lemma words_index_u16 z : words_index (u16_of z) = words_index z.
Proof.
  unfold words_index, u16_of. change (2 ^ 16) with (16384 * 4). rewrite Z.rem_mul_r by lia.
  rewrite Z.mul_comm, Z.mod_add by lia. apply Z.mod_mod. lia.
Qed.

Lemma words_set_index w c d : words_index c = words_index d -> words_set w c = words_set w d.
Proof. unfold words_set. by intros ->. Qed.
Lemma words_clear_index w c d : words_index c = words_index d -> words_clear w c = words_clear w d.
Proof. unfold words_clear. by intros ->. Qed.
Lemma words_test_index w c d : words_index c = words_index d -> words_test w c = words_test w d.
Proof. unfold words_test. by intros ->. Qed.

(** The counter a sequence number stands for, relative to the newest one. *)
Definition server_counter (s : Spec) (seq : Z) : Z :=
  match s with
  | None => seq
  | Some (top, _) =>
      let forward := u16_of (seq - top) in
      if negb (forward =? 0) && (forward <? 32768) then top + forward
      else top - u16_of (top - seq)
  end.

Definition server_refines (st : ReplayState) (s : Spec) : Prop :=
  match s with
  | None => rs_initialized st = false /\ default words_zero (rs_bitmap st) = words_zero
  | Some (top, seen) =>
      rs_initialized st = true /\ rs_highest st = u16_of top
      /\ exists w, rs_bitmap st = Some w /\ agrees w top seen
  end.

Lemma server_clear_range i h w n :
  foldl (fun s offset => clear_srtp_bit s (u16_of (rs_highest s + offset))) (mkReplayState i (u16_of h) (Some w)) (seqZ 1 n)
  = mkReplayState i (u16_of h) (Some (clear_range w h n)).
Proof.
  unfold clear_range. generalize (seqZ 1 n). intros l. revert w.
  induction l as [|o l IH]; intros w; cbn [foldl]; [done|].
  unfold clear_srtp_bit at 2. cbn [rs_initialized rs_highest rs_bitmap]. rewrite IH. do 3 f_equal.
  apply words_clear_index. rewrite words_index_u16. unfold words_index, u16_of.
  rewrite (Z.add_mod (h mod 2 ^ 16)), (Z.add_mod h o) by lia. do 2 f_equal.
  apply (words_index_u16 h).
Qed.

Lemma server_step st s seq :
  server_refines st s -> is_u16 seq ->
  (ReplayState_accept st seq).1 = (spec_accept s (server_counter s seq)).1
  /\ server_refines (ReplayState_accept st seq).2 (spec_accept s (server_counter s seq)).2.
Proof.
  intros Hr Hseq. unfold ReplayState_accept. destruct s as [[top seen]|].
  - destruct Hr as (Hi & Hh & w & Hw & Hag). cbn [rs_initialized rs_highest rs_bitmap].
    rewrite Hi, Hh, Hw. cbn [negb default]. change (id w) with w.
    assert (Hf : u16_of (seq - u16_of top) = u16_of (seq - top)) by (unfold u16_of; by rewrite Zminus_mod_idemp_r).
    assert (Hb : u16_of (u16_of top - seq) = u16_of (top - seq)) by (unfold u16_of; by rewrite Zminus_mod_idemp_l).
    rewrite Hf, Hb. unfold server_counter, spec_accept.
    assert (Hseq' : u16_of seq = seq) by (by apply u16_of_small).
    assert (Hcong : forall c, (c - seq) mod 2 ^ 16 = 0 -> u16_of c = seq).
    { intros c Hc. unfold u16_of in *. rewrite <- Hseq'. replace c with ((c - seq) + seq) by lia.
      rewrite Z.add_mod, Hc, Z.add_0_l, Z.mod_mod by lia. done. }
    destruct (negb _ && _) eqn:Efw.
    + bool_prop. pose proof (u16_of_range (seq - top)) as Hr. unfold is_u16 in Hr.
      set (c := top + u16_of (seq - top)) in *.
      assert (Hc : u16_of c = seq).
      { apply Hcong. pose proof (Z.div_mod (seq - top) (2 ^ 16) ltac:(lia)). unfold c, u16_of.
        replace (_ - seq) with ((- ((seq - top) / 2 ^ 16)) * 2 ^ 16) by lia. by apply Z.mod_mul. }
      replace (top <? c) with true by lia. cbn [fst snd]. split; [done|].
      replace (u16_of (seq - top)) with (c - top) by (unfold c; lia).
      rewrite server_clear_range. split_and!; cbn.
      * by destruct (16384 <=? _).
      * done.
      * exists (words_set (if WINDOW <=? c - top then words_zero else clear_range w top (c - top)) c).
        split; [|by apply agrees_forward; [|lia]]. unfold WINDOW.
        destruct (16384 <=? _); cbn; f_equal; apply words_set_index; rewrite <- Hc; apply words_index_u16.
    + set (c := top - u16_of (top - seq)). pose proof (u16_of_range (top - seq)) as Hr. unfold is_u16 in Hr.
      assert (Hc : u16_of c = seq).
      { apply Hcong. pose proof (Z.div_mod (top - seq) (2 ^ 16) ltac:(lia)). unfold c, u16_of.
        replace (_ - seq) with (((top - seq) / 2 ^ 16) * 2 ^ 16) by lia. by apply Z.mod_mul. }
      replace (top <? c) with false by lia. replace (top - c) with (u16_of (top - seq)) by lia.
      unfold test_srtp_bit. cbn [rs_bitmap].
      rewrite (words_test_index w seq c) by (rewrite <- Hc; apply words_index_u16).
      unfold WINDOW. destruct (16384 <=? u16_of (top - seq)) eqn:Eb; bool_prop.
      * cbn. split; [done|]. eauto.
      * destruct Hag as (A1 & A2 & A3). rewrite A2 by (unfold WINDOW, c; lia). cbn [orb].
        case_bool_decide; cbn; (split; [done|]); split_and!; try done.
        -- eexists. split; [done|]. done.
        -- eexists. split; [done|]. rewrite (words_set_index w seq c) by (rewrite <- Hc; apply words_index_u16).
           apply agrees_inside; [done|unfold WINDOW, c; lia].
  - destruct Hr as (Hi & Hz). cbn [rs_initialized rs_highest rs_bitmap]. rewrite Hi, Hz. cbn.
    split; [done|]. split_and!; [done|by rewrite u16_of_small|]. eexists. split; [done|]. apply agrees_first.
Qed.

(** ** The client refines the specification *)

Definition client_refines (st : ReplayWindow) (s : Spec) : Prop :=
  match s with
  | None => rw_highest st = None /\ rw_seen st = words_zero
  | Some (top, seen) => rw_highest st = Some top /\ agrees (rw_seen st) top seen
  end.

Lemma client_clear_range hi w h n :
  foldl (fun s i => rw_clear_bit s (h + i)) (mkReplayWindow hi w) (seqZ 1 n)
  = mkReplayWindow hi (clear_range w h n).
Proof.
  unfold clear_range. generalize (seqZ 1 n). intros l. revert w.
  induction l as [|o l IH]; intros w; cbn [foldl]; [done|]. unfold rw_clear_bit at 2. cbn. by rewrite IH.
Qed.

Lemma client_step st s c :
  client_refines st s ->
  (ReplayWindow_accept st c).1 = (spec_accept s c).1
  /\ client_refines (ReplayWindow_accept st c).2 (spec_accept s c).2.
Proof.
  intros Hr. unfold ReplayWindow_accept. destruct s as [[top seen]|].
  - destruct Hr as [Hh Hag]. destruct st as [hi w]. cbn in Hh, Hag. subst hi.
    cbn [rw_highest rw_seen]. unfold spec_accept. destruct (top <? c) eqn:E; bool_prop.
    + rewrite client_clear_range. cbn [fst snd]. split; [done|]. split; [done|]. cbn.
      replace (rw_seen _) with (if WINDOW <=? c - top then words_zero else clear_range w top (c - top))
        by (unfold WINDOW; by destruct (16384 <=? _)).
      by apply agrees_forward; [|lia].
    + unfold WINDOW. destruct (16384 <=? top - c) eqn:Ea; bool_prop; cbn [orb].
      * cbn. auto.
      * unfold rw_test_bit. cbn [rw_seen]. destruct Hag as (A1 & A2 & A3).
        rewrite A2 by (unfold WINDOW; lia).
        case_bool_decide; cbn; (split; [done|]); (split; [done|]); [done|].
        apply agrees_inside; [done|unfold WINDOW; lia].
  - destruct Hr as [Hh Hz]. destruct st as [hi w]. cbn in Hh, Hz. subst. cbn.
    split; [done|]. split; [done|]. apply agrees_first.
Qed.

(** ** The contract of a replay filter *)

(** A filter over 16-bit sequence numbers that implements the specification:
    the sequence number stands for one counter of its residue class, chosen by
    the newest counter, and the decision is the specification's on it. *)
Class ReplayFilter (St : Type) := {
  rf_init : St;
  rf_accept : St -> Z -> bool * St;
  rf_refines : St -> Spec -> Prop;
  rf_counter : Spec -> Z -> Z;
  rf_init_ok : rf_refines rf_init None;
  rf_step st s seq :
    rf_refines st s -> is_u16 seq ->
    (rf_accept st seq).1 = (spec_accept s (rf_counter s seq)).1
    /\ rf_refines (rf_accept st seq).2 (spec_accept s (rf_counter s seq)).2;
}.

Lemma server_init_ok : server_refines ReplayState_new None.
Proof. by split. Qed.
Lemma client_init_ok : client_refines ReplayWindow_default None.
Proof. by split. Qed.

#[export] Instance server_filter : ReplayFilter ReplayState := {
  rf_init := ReplayState_new;
  rf_accept := ReplayState_accept;
  rf_refines := server_refines;
  rf_counter := server_counter;
  rf_init_ok := server_init_ok;
  rf_step := server_step;
}.

Definition client_counter (s : Spec) (seq : Z) : Z :=
  match s with None => seq | Some (top, _) => extend_rtp top seq end.

Lemma client_rtp_step st s seq :
  client_refines st s -> is_u16 seq ->
  (ReplayWindow_accept_rtp st seq).1 = (spec_accept s (client_counter s seq)).1
  /\ client_refines (ReplayWindow_accept_rtp st seq).2 (spec_accept s (client_counter s seq)).2.
Proof.
  intros Hr _. pose proof (client_step st s (client_counter s seq) Hr) as Hs.
  unfold ReplayWindow_accept_rtp. destruct s as [[top seen]|]; destruct Hr as [Hh _]; by rewrite Hh.
Qed.

#[export] Instance client_filter : ReplayFilter ReplayWindow := {
  rf_init := ReplayWindow_default;
  rf_accept := ReplayWindow_accept_rtp;
  rf_refines := client_refines;
  rf_counter := client_counter;
  rf_init_ok := client_init_ok;
  rf_step := client_rtp_step;
}.

Section Run.
Context {St : Type} `{ReplayFilter St}.

Fixpoint filter_run (st : St) (seqs : list Z) : list bool :=
  match seqs with
  | [] => []
  | seq :: seqs => (rf_accept st seq).1 :: filter_run (rf_accept st seq).2 seqs
  end.

(** The specification's run: the counter each number stood for, and the decision. *)
Fixpoint spec_run (s : Spec) (seqs : list Z) : list (Z * bool) :=
  match seqs with
  | [] => []
  | seq :: seqs =>
      let c := rf_counter s seq in (c, (spec_accept s c).1) :: spec_run (spec_accept s c).2 seqs
  end.

Definition accepted (run : list (Z * bool)) : list Z := (filter (fun cb => cb.2 = true) run).*1.

Lemma filter_run_refines st s seqs :
  rf_refines st s -> Forall is_u16 seqs -> filter_run st seqs = (spec_run s seqs).*2.
Proof.
  revert st s. induction seqs as [|seq seqs IH]; intros st s Hr Hu; [done|].
  apply Forall_cons in Hu as [Hq Hu]. cbn. destruct (rf_step st s seq Hr Hq) as [-> Hr'].
  f_equal. by apply IH.
Qed.

Definition spec_wf (s : Spec) : Prop :=
  match s with None => True | Some (top, seen) => forall c, c ∈ seen -> c <= top end.
Definition spec_seen (s : Spec) : gset Z := match s with None => ∅ | Some (_, seen) => seen end.

Lemma spec_accept_fresh s c :
  spec_wf s -> spec_wf (spec_accept s c).2 /\
  (if (spec_accept s c).1 then c ∉ spec_seen s /\ spec_seen (spec_accept s c).2 = {[c]} ∪ spec_seen s
   else (spec_accept s c).2 = s).
Proof.
  intros Hw. destruct s as [[top seen]|]; cbn in *; [|split; set_solver by lia].
  destruct (top <? c) eqn:E; bool_prop; cbn.
  - split; [intros d [->%elem_of_singleton|Hd]%elem_of_union; [lia|specialize (Hw d Hd); lia]|].
    split; [intros Hc; specialize (Hw c Hc); lia|done].
  - destruct (_ || _) eqn:E2; cbn; [done|]. bool_prop.
    split; [intros d [->%elem_of_singleton|Hd]%elem_of_union; [lia|auto]|done].
Qed.

Lemma spec_run_accepted s seqs :
  spec_wf s -> NoDup (accepted (spec_run s seqs))
    /\ Forall (fun c => c ∉ spec_seen s) (accepted (spec_run s seqs)).
Proof.
  revert s. induction seqs as [|seq seqs IH]; intros s Hw; [split; constructor|].
  unfold accepted. cbn [spec_run]. set (c := rf_counter s seq).
  destruct (spec_accept_fresh s c Hw) as [Hw' Hf]. destruct (IH _ Hw') as [H1 H2].
  rewrite filter_cons. cbn [snd]. destruct (spec_accept s c) as [b s']. cbn [fst snd] in *.
  destruct b; [rewrite decide_True by done|rewrite decide_False by done].
  - destruct Hf as [Hc Hs']. cbn [fmap list_fmap fst]. fold (accepted (spec_run s' seqs)).
    rewrite Hs' in H2. rewrite Forall_forall in H2. split.
    + constructor; [|done]. intros Hin. apply (H2 c Hin). set_solver.
    + constructor; [done|]. apply Forall_forall. intros d Hd. specialize (H2 d Hd). set_solver.
  - subst s'. done.
Qed.

End Run.

Lemma filter_run_once {St : Type} `{ReplayFilter St} seqs :
  Forall is_u16 seqs ->
  filter_run rf_init seqs = (spec_run None seqs).*2 /\ NoDup (accepted (spec_run None seqs)).
Proof.
  intros Hu. split; [apply filter_run_refines; [apply rf_init_ok|done]|].
  by apply (spec_run_accepted None).
Qed.

(** C35. On any sequence of 16-bit numbers the server's window and the client's
    window, each starting empty, decide exactly as the specification that
    remembers every counter ever accepted, and neither accepts a counter twice. *)
Theorem replay_filter_once seqs :
  Forall is_u16 seqs ->
  (filter_run ReplayState_new seqs = (spec_run (St := ReplayState) None seqs).*2
   /\ NoDup (accepted (spec_run (St := ReplayState) None seqs)))
  /\ (filter_run ReplayWindow_default seqs = (spec_run (St := ReplayWindow) None seqs).*2
   /\ NoDup (accepted (spec_run (St := ReplayWindow) None seqs))).
Proof.
  intros Hu. split; [exact (filter_run_once (St := ReplayState) seqs Hu)|exact (filter_run_once (St := ReplayWindow) seqs Hu)].
Qed.

Lemma replay_filter_once_witness :
  filter_run ReplayState_new [65534; 65535; 0; 65535; 3; 1; 0] = [true; true; true; false; true; true; false]
  /\ filter_run ReplayState_new [65534; 65535; 0; 65535; 3; 1; 0]
     = (spec_run (St := ReplayState) None [65534; 65535; 0; 65535; 3; 1; 0]).*2.
Proof.
  split; [vm_compute; reflexivity|].
  apply (replay_filter_once [65534; 65535; 0; 65535; 3; 1; 0]).
  apply (bool_decide_unpack _); vm_compute; exact I.
Defined.

(** ** Which counter a number stands for *)

Lemma land_high top : 0 <= top < 2 ^ 64 -> Z.land top (Z.lxor U64_MAX U16_MAX) = top - top mod 2 ^ 16.
Proof.
  intros Ht. replace (Z.lxor U64_MAX U16_MAX) with (Z.shiftl (Z.ones 48) 16) by reflexivity.
  assert (Hd : top - top mod 2 ^ 16 = Z.shiftl (Z.shiftr top 16) 16).
  { rewrite Z.shiftr_div_pow2, Z.shiftl_mul_pow2 by lia. pose proof (Z.div_mod top (2 ^ 16) ltac:(lia)). lia. }
  rewrite Hd. apply Z.bits_inj'. intros k Hk. rewrite Z.land_spec, !Z.shiftl_spec by lia.
  destruct (decide (k < 16)).
  - rewrite !(Z.testbit_neg_r _ (k - 16)) by lia. apply andb_false_r.
  - rewrite Z.shiftr_spec by lia. replace (k - 16 + 16) with k by lia.
    destruct (decide (k < 64)).
    + rewrite Z.ones_spec_low by lia. apply andb_true_r.
    + rewrite Z.ones_spec_high by lia. rewrite andb_false_r. symmetry.
      apply (proj1 (Z.bounded_iff_bits_nonneg 64 top ltac:(lia) ltac:(lia)) ltac:(lia)). lia.
Qed.

Lemma extend_rtp_lor top seq :
  0 <= top < 2 ^ 64 -> is_u16 seq -> Z.lor (Z.land top (Z.lxor U64_MAX U16_MAX)) seq = top - top mod 2 ^ 16 + seq.
Proof.
  unfold is_u16. intros Ht Hs. rewrite land_high by done.
  rewrite <- Z.add_lor_land. rewrite Z.add_comm with (m := Z.land _ _). 
  replace (Z.land (top - top mod 2 ^ 16) seq) with 0; [lia|].
  symmetry. apply Z.bits_inj'. intros k Hk. rewrite Z.land_spec, Z.bits_0.
  replace (top - top mod 2 ^ 16) with (Z.shiftl (Z.shiftr top 16) 16)
    by (rewrite Z.shiftr_div_pow2, Z.shiftl_mul_pow2 by lia; pose proof (Z.div_mod top (2 ^ 16) ltac:(lia)); lia).
  destruct (decide (k < 16)).
  - rewrite Z.shiftl_spec_low by lia. done.
  - rewrite (proj1 (Z.bounded_iff_bits_nonneg 16 seq ltac:(lia) ltac:(lia)) ltac:(lia) k) by lia. apply andb_false_r.
Qed.

(** The client reads a 16-bit number as a counter of its residue class
    next to the newest one: within half the number space of it, except at the
    very beginning, where there is no earlier counter to fall back to; and the
    server's choice obeys the same rule. *)
Theorem rtp_extension_nearest top seen seq :
  0 <= top < 2 ^ 63 -> is_u16 seq ->
  let c := client_counter (Some (top, seen)) seq in
  let d := server_counter (Some (top, seen)) seq in
  c mod 2 ^ 16 = seq /\ d mod 2 ^ 16 = seq /\ 0 <= c
  /\ (Z.abs (c - top) <= 2 ^ 15 \/ c = seq) /\ Z.abs (d - top) <= 2 ^ 15.
Proof.
  intros Ht Hs. cbv zeta. unfold client_counter, server_counter, extend_rtp.
  rewrite extend_rtp_lor by (done || lia). unfold is_u16 in Hs.
  pose proof (Z.mod_pos_bound top (2 ^ 16) ltac:(lia)). pose proof (Z.div_mod top (2 ^ 16) ltac:(lia)) as Hdm.
  pose proof (Z.div_pos top (2 ^ 16) ltac:(lia) ltac:(lia)).
  set (r := top mod 2 ^ 16) in *. set (q := top / 2 ^ 16) in *.
  assert (Hmod : forall k, (seq + k * 2 ^ 16) mod 2 ^ 16 = seq) by (intros; rewrite Z.mod_add by lia; apply Z.mod_small; lia).
  unfold sat_add, USIZE_MAX.
  assert (Hfw : u16_of (seq - top) = (seq - r) mod 2 ^ 16) by (unfold u16_of, r; by rewrite Zminus_mod_idemp_r).
  assert (Hbw : u16_of (top - seq) = (r - seq) mod 2 ^ 16) by (unfold u16_of, r; by rewrite Zminus_mod_idemp_l).
  rewrite Hfw, Hbw.
  assert (Hf : (seq - r) mod 2 ^ 16 = if r <=? seq then seq - r else seq - r + 2 ^ 16).
  { destruct (r <=? seq) eqn:E; bool_prop; [apply Z.mod_small; lia|].
    rewrite <- (Z.mod_add _ 1) by lia. apply Z.mod_small; lia. }
  assert (Hb : (r - seq) mod 2 ^ 16 = if seq <=? r then r - seq else r - seq + 2 ^ 16).
  { destruct (seq <=? r) eqn:E; bool_prop; [apply Z.mod_small; lia|].
    rewrite <- (Z.mod_add _ 1) by lia. apply Z.mod_small; lia. }
  rewrite Hf, Hb. split_and!.
  - replace (top - r + seq) with (seq + q * 2 ^ 16) by lia.
    destruct (_ <? _); [|destruct (_ && _)]; [|
      replace (seq + q * 2 ^ 16 - 2 ^ 16) with (seq + (q - 1) * 2 ^ 16) by lia; apply Hmod|apply Hmod].
    replace (Z.min _ _) with (seq + (q + 1) * 2 ^ 16) by lia. apply Hmod.
  - destruct (negb _ && _) eqn:E.
    + replace (top + _) with (seq + (if r <=? seq then q else q + 1) * 2 ^ 16) by (destruct (r <=? seq); lia). apply Hmod.
    + replace (top - _) with (seq + (if seq <=? r then q else q - 1) * 2 ^ 16) by (destruct (seq <=? r); lia). apply Hmod.
  - destruct (_ <? _) eqn:E1; [lia|]. destruct (_ && _) eqn:E2; bool_prop; lia.
  - destruct (_ <? _) eqn:E1; bool_prop; [left; lia|].
    destruct (_ && _) eqn:E2; [bool_prop; left; lia|]. apply andb_false_iff in E2 as [E2|E2]; bool_prop; [left; lia|].
    destruct (decide (q = 0)) as [->|]; [right; lia|exfalso; nia].
  - destruct (r <=? seq) eqn:E1, (seq <=? r) eqn:E2; destruct (negb _ && _) eqn:E; bool_prop; lia.
Qed.

Lemma rtp_extension_nearest_witness :
  client_counter (Some (65540, ∅)) 65535 = 65535 /\ client_counter (Some (65530, ∅)) 3 = 65539 /\
  (client_counter (Some (65540, ∅)) 65535) mod 2 ^ 16 = 65535.
Proof.
  split; [reflexivity|]. split; [reflexivity|].
  exact (proj1 (rtp_extension_nearest 65540 ∅ 65535 ltac:(lia) ltac:(unfold is_u16; lia))).
Defined.
