(* ===== verification/Packet.v ===== *)
(** * Packet buffers and their pools
    ([rust-client/packet.rs], [rust-server/packet.rs])

    A packet buffer is a fixed block of storage with a window; the pools
    recycle the blocks under a hard bound.  The buffers' range operations and
    the pools are total functions here; the pools are also modelled at the
    granularity of their atomic operations, with any number of threads. *)

From S2P Require Import Prelude.

(** ** The client's buffer *)

Definition PACKET_HEADROOM : Z := 64.
Definition CLIENT_PACKET_CAPACITY : Z := 2304.
Definition PACKET_POOL_PER_WORKER : Z := 256.
Definition PACKET_POOL_SHARED : Z := 512.
Definition CLIENT_POOL_RETAINED_MAX : Z := 2048.

Definition client_packet_pool_size (workers : Z) : Z :=
  sat_add (sat_mul workers PACKET_POOL_PER_WORKER) PACKET_POOL_SHARED.

(** The reason of an [anyhow] error. *)
Inductive packet_error :=
| ReadLengthExceedsCapacity
| PrependExceedsHeadroom
| TailLengthOverflow
| TailExceedsCapacity
| TrimExceedsLength
| TruncateExceedsLength
| RangeInvalid.

Record ClientBuf := mkClientBuf { cb_storage : bytes; cb_start : Z; cb_end : Z }.

(** [Range::len], [Range::is_empty] *)
Definition ClientBuf_len (p : ClientBuf) : Z := if cb_start p <? cb_end p then cb_end p - cb_start p else 0.
Definition ClientBuf_is_empty (p : ClientBuf) : bool := negb (cb_start p <? cb_end p).
Definition ClientBuf_as_slice {E} (p : ClientBuf) : result E bytes := slice (cb_storage p) (cb_start p) (cb_end p).
(** [read_area()[..data.len()].copy_from_slice(data)] *)
Definition ClientBuf_fill_read_area {E} (p : ClientBuf) (data : bytes) : result E ClientBuf :=
  area ← slice (cb_storage p) PACKET_HEADROOM CLIENT_PACKET_CAPACITY;
  area ← copy_into area 0 (len data) data;
  storage ← copy_into (cb_storage p) PACKET_HEADROOM CLIENT_PACKET_CAPACITY area;
  mret (mkClientBuf storage (cb_start p) (cb_end p)).

Definition ClientBuf_set_read_len (p : ClientBuf) (n : Z) : result packet_error ClientBuf :=
  if CLIENT_PACKET_CAPACITY - PACKET_HEADROOM <? n then Err ReadLengthExceedsCapacity
  else Ok (mkClientBuf (cb_storage p) PACKET_HEADROOM (PACKET_HEADROOM + n)).

(** The slice [prepend] returns is [storage[start..start+n]] of the result. *)
Definition ClientBuf_prepend (p : ClientBuf) (n : Z) : result packet_error ClientBuf :=
  if cb_start p <? n then Err PrependExceedsHeadroom
  else
    let p := mkClientBuf (cb_storage p) (cb_start p - n) (cb_end p) in
    _ ← slice (cb_storage p) (cb_start p) (cb_start p + n);
    mret p.

Definition ClientBuf_extend_tail (p : ClientBuf) (n : Z) : result packet_error ClientBuf :=
  match checked_add (cb_end p) n with
  | None => Err TailLengthOverflow
  | Some e =>
      if CLIENT_PACKET_CAPACITY <? e then Err TailExceedsCapacity
      else
        _ ← slice (cb_storage p) (cb_end p) e;
        mret (mkClientBuf (cb_storage p) (cb_start p) e)
  end.

Definition ClientBuf_trim_front (p : ClientBuf) (n : Z) : result packet_error ClientBuf :=
  if ClientBuf_len p <? n then Err TrimExceedsLength
  else Ok (mkClientBuf (cb_storage p) (cb_start p + n) (cb_end p)).

Definition ClientBuf_truncate (p : ClientBuf) (n : Z) : result packet_error ClientBuf :=
  if ClientBuf_len p <? n then Err TruncateExceedsLength
  else Ok (mkClientBuf (cb_storage p) (cb_start p) (cb_start p + n)).

Definition ClientBuf_set_range (p : ClientBuf) (s e : Z) : result packet_error ClientBuf :=
  if (e <? s) || (CLIENT_PACKET_CAPACITY <? e) then Err RangeInvalid
  else Ok (mkClientBuf (cb_storage p) s e).

(** ** The server's buffers *)

Definition PACKET_CAPACITY : Z := 1600.
Definition UDP_TX_SLOTS : Z := 4096.
Definition TUN_TX_SLOTS : Z := 1024.
Definition PACKET_POOL_RETAINED_MAX : Z := 256.
Definition packet_pool_size : Z := UDP_TX_SLOTS + TUN_TX_SLOTS.

(** [PacketBuf] and [PacketBuffer] have the same fields and operations. *)
Record ServerBuf := mkServerBuf { sb_storage : bytes; sb_len : Z }.

Definition PacketBuffer_new : ServerBuf := mkServerBuf (zeroed PACKET_CAPACITY) 0.
Definition ServerBuf_as_slice {E} (p : ServerBuf) : result E bytes := slice (sb_storage p) 0 (sb_len p).
Definition ServerBuf_set_len (p : ServerBuf) (n : Z) : bool * ServerBuf :=
  if PACKET_CAPACITY <? n then (false, p) else (true, mkServerBuf (sb_storage p) n).
Definition ServerBuf_copy_from {E} (p : ServerBuf) (data : bytes) : result E (bool * ServerBuf) :=
  if PACKET_CAPACITY <? len data then Ok (false, p)
  else
    storage ← copy_into (sb_storage p) 0 (len data) data;
    mret (true, mkServerBuf storage (len data)).

Definition extract_dst_ipv4 {E} (packet : bytes) : result E (option bytes) :=
  if len packet <? 20 then Ok None else
  b0 ← at_ packet 0;
  if negb (Z.shiftr b0 4 =? 4) then Ok None else
  a ← at_ packet 16; b ← at_ packet 17; c ← at_ packet 18; d ← at_ packet 19;
  mret (Some [a; b; c; d]).

(** ** The pools, one call at a time *)

(** An [ArrayQueue] is a FIFO with a capacity; [push] hands the value back
    when it is full. *)
Record ServerPool := mkServerPool {
  sp_queue : list bytes;
  sp_capacity : Z;
  sp_allocated : Z;
  sp_retained : Z;
  sp_retained_limit : Z;
}.

Definition ServerPool_new (buffers : Z) : ServerPool :=
  let capacity := Z.max buffers 1 in
  mkServerPool [] capacity 0 0 (Z.min capacity PACKET_POOL_RETAINED_MAX).

Definition sp_with (p : ServerPool) (queue : list bytes) (allocated retained : Z) : ServerPool :=
  mkServerPool queue (sp_capacity p) allocated retained (sp_retained_limit p).

Definition ServerPool_try_acquire (p : ServerPool) : option ServerBuf * ServerPool :=
  match sp_queue p with
  | storage :: q => (Some (mkServerBuf storage 0), sp_with p q (sp_allocated p) (sp_retained p - 1))
  | [] =>
      if sp_allocated p <? sp_capacity p
      then (Some (mkServerBuf (zeroed PACKET_CAPACITY) 0), sp_with p [] (sp_allocated p + 1) (sp_retained p))
      else (None, p)
  end.

Definition ServerPool_release (p : ServerPool) (storage : bytes) : ServerPool :=
  if negb (len storage =? PACKET_CAPACITY) then sp_with p (sp_queue p) (sp_allocated p - 1) (sp_retained p)
  else if negb (sp_retained p <? sp_retained_limit p) then sp_with p (sp_queue p) (sp_allocated p - 1) (sp_retained p)
  else if len (sp_queue p) <? sp_capacity p
       then sp_with p (sp_queue p ++ [storage]) (sp_allocated p) (sp_retained p + 1)
       else sp_with p (sp_queue p) (sp_allocated p - 1) (sp_retained p).

Record ClientPool := mkClientPool {
  cp_queue : list bytes;
  cp_retained_limit : Z;
  cp_allocated : Z;
  cp_allocation_limit : Z;
}.

Definition ClientPool_new (buffers : Z) : ClientPool :=
  let capacity := Z.max buffers 1 in
  mkClientPool [] (Z.min capacity CLIENT_POOL_RETAINED_MAX) 0 capacity.

Definition cp_with (p : ClientPool) (queue : list bytes) (allocated : Z) : ClientPool :=
  mkClientPool queue (cp_retained_limit p) allocated (cp_allocation_limit p).

Definition ClientPool_try_acquire (p : ClientPool) : option ClientBuf * ClientPool :=
  match cp_queue p with
  | storage :: q => (Some (mkClientBuf storage PACKET_HEADROOM PACKET_HEADROOM), cp_with p q (cp_allocated p))
  | [] =>
      if cp_allocated p <? cp_allocation_limit p
      then (Some (mkClientBuf (zeroed CLIENT_PACKET_CAPACITY) PACKET_HEADROOM PACKET_HEADROOM),
            cp_with p [] (cp_allocated p + 1))
      else (None, p)
  end.

Definition ClientPool_release (p : ClientPool) (storage : bytes) : ClientPool :=
  if negb (len storage =? CLIENT_PACKET_CAPACITY) then cp_with p (cp_queue p) (cp_allocated p - 1)
  else if len (cp_queue p) <? cp_retained_limit p then cp_with p (cp_queue p ++ [storage]) (cp_allocated p)
  else cp_with p (cp_queue p) (cp_allocated p - 1).

(** ** The window operations *)

(** The storage has its full size and the window lies inside it. *)
Definition client_buf_wf (p : ClientBuf) : Prop :=
  len (cb_storage p) = CLIENT_PACKET_CAPACITY /\ 0 <= cb_start p <= cb_end p /\ cb_end p <= CLIENT_PACKET_CAPACITY.
Definition window (p : ClientBuf) : bytes := sub (cb_storage p) (cb_start p) (cb_end p).

Definition server_buf_wf (p : ServerBuf) : Prop :=
  len (sb_storage p) = PACKET_CAPACITY /\ 0 <= sb_len p <= PACKET_CAPACITY.

Lemma sub_split {A} (l : list A) i j k :
  0 <= i -> i <= j -> j <= k -> k <= len l -> sub l i k = sub l i j ++ sub l j k.
Proof.
  intros. unfold sub, len in *.
  replace (Z.to_nat (k - i)) with (Z.to_nat (j - i) + Z.to_nat (k - j))%nat by lia.
  rewrite <- take_take_drop. f_equal. f_equal.
  rewrite drop_drop. f_equal. lia.
Qed.

Lemma client_window_slice {E} p : client_buf_wf p -> @ClientBuf_as_slice E p = Ok (window p).
Proof. intros (Hl & Hs & He). apply slice_ok; unfold CLIENT_PACKET_CAPACITY in *; lia. Qed.

Lemma client_window_len p : client_buf_wf p -> ClientBuf_len p = len (window p).
Proof.
  intros (Hl & Hs & He). unfold ClientBuf_len, window. rewrite len_sub by lia. split_case; bool_prop; lia.
Qed.

(** The operations on the window, as the client calls them. *)
Inductive buf_op := OpSetReadLen (n : Z) | OpPrepend (n : Z) | OpExtendTail (n : Z)
  | OpTrimFront (n : Z) | OpTruncate (n : Z) | OpSetRange (s e : Z).

Definition buf_op_arg (o : buf_op) : Prop :=
  match o with
  | OpSetReadLen n | OpPrepend n | OpExtendTail n | OpTrimFront n | OpTruncate n => is_u64 n
  | OpSetRange s e => is_u64 s /\ is_u64 e
  end.

Definition buf_apply (p : ClientBuf) (o : buf_op) : result packet_error ClientBuf :=
  match o with
  | OpSetReadLen n => ClientBuf_set_read_len p n
  | OpPrepend n => ClientBuf_prepend p n
  | OpExtendTail n => ClientBuf_extend_tail p n
  | OpTrimFront n => ClientBuf_trim_front p n
  | OpTruncate n => ClientBuf_truncate p n
  | OpSetRange s e => ClientBuf_set_range p s e
  end.

(** What each operation does to the window, and when it refuses. *)
Definition buf_spec (p : ClientBuf) (o : buf_op) (r : result packet_error ClientBuf) : Prop :=
  match r with
  | Panic => False
  | Err _ =>
      match o with
      | OpSetReadLen n => CLIENT_PACKET_CAPACITY - PACKET_HEADROOM < n
      | OpPrepend n => cb_start p < n
      | OpExtendTail n => CLIENT_PACKET_CAPACITY < cb_end p + n
      | OpTrimFront n | OpTruncate n => len (window p) < n
      | OpSetRange s e => e < s \/ CLIENT_PACKET_CAPACITY < e
      end
  | Ok q =>
      client_buf_wf q /\ cb_storage q = cb_storage p /\
      match o with
      | OpSetReadLen n => window q = sub (cb_storage p) PACKET_HEADROOM (PACKET_HEADROOM + n)
      | OpPrepend n => exists front, len front = n /\ window q = front ++ window p
      | OpExtendTail n => exists tail, len tail = n /\ window q = window p ++ tail
      | OpTrimFront n => window q = sub (window p) n (len (window p))
      | OpTruncate n => window q = sub (window p) 0 n
      | OpSetRange s e => window q = sub (cb_storage p) s e
      end
  end.

Lemma sub_sub {A} (l : list A) i j a b :
  0 <= i -> i <= j -> j <= len l -> 0 <= a -> a <= b -> b <= j - i -> sub (sub l i j) a b = sub l (i + a) (i + b).
Proof.
  intros. pose proof (sub_split l i (i + a) j ltac:(lia) ltac:(lia) ltac:(lia) ltac:(lia)) as E1.
  pose proof (sub_split l (i + a) (i + b) j ltac:(lia) ltac:(lia) ltac:(lia) ltac:(lia)) as E2.
  rewrite E1, E2. apply sub_app_mid; rewrite ?len_sub by lia; lia.
Qed.

Lemma extend_tail_ok A l n e :
  0 <= n -> len l = CLIENT_PACKET_CAPACITY -> 0 <= e -> e + n <= CLIENT_PACKET_CAPACITY ->
  ClientBuf_extend_tail (mkClientBuf l A e) n = Ok (mkClientBuf l A (e + n)).
Proof.
  unfold ClientBuf_extend_tail, checked_add, USIZE_MAX, CLIENT_PACKET_CAPACITY. intros. cbn [cb_storage cb_start cb_end].
  replace (e + n <=? 2 ^ 64 - 1) with true by lia. replace (2304 <? e + n) with false by lia.
  by rewrite slice_ok by lia.
Qed.

(** On a well-formed buffer every window operation, with any machine-size
    argument, either refuses exactly when the storage has no room or moves the
    window as it says, keeps the buffer well-formed and never panics. *)
Theorem client_buf_window p o :
  client_buf_wf p -> buf_op_arg o -> buf_spec p o (buf_apply p o).
Proof.
  intros Hwf Ha. pose proof (client_window_len p Hwf) as Hwl. destruct Hwf as (Hl & Hs & He).
  assert (Hwe : len (window p) = cb_end p - cb_start p) by (unfold window; rewrite len_sub; lia).
  unfold CLIENT_PACKET_CAPACITY in *.
  destruct o as [n|n|n|n|n|s e]; cbn [buf_op_arg buf_apply] in *; unfold is_u64 in Ha.
  - unfold ClientBuf_set_read_len, CLIENT_PACKET_CAPACITY, PACKET_HEADROOM. split_case; bool_prop; cbn; [done|].
    split; [|done]. unfold client_buf_wf; cbn; unfold CLIENT_PACKET_CAPACITY; lia.
  - unfold ClientBuf_prepend. split_case; bool_prop; [done|]. cbn [cb_storage cb_start cb_end].
    rewrite slice_ok by lia. cbn. split; [unfold client_buf_wf; cbn; unfold CLIENT_PACKET_CAPACITY; lia|].
    split; [done|]. exists (sub (cb_storage p) (cb_start p - n) (cb_start p)).
    split; [rewrite len_sub; lia|]. unfold window; cbn. apply sub_split; lia.
  - unfold ClientBuf_extend_tail, checked_add, USIZE_MAX, CLIENT_PACKET_CAPACITY.
    destruct (cb_end p + n <=? _) eqn:E1; bool_prop; [|cbn; unfold CLIENT_PACKET_CAPACITY; lia].
    destruct (2304 <? _) eqn:E2; bool_prop; [cbn; unfold CLIENT_PACKET_CAPACITY; lia|].
    rewrite slice_ok by lia. cbn. split; [unfold client_buf_wf; cbn; unfold CLIENT_PACKET_CAPACITY; lia|].
    split; [done|]. exists (sub (cb_storage p) (cb_end p) (cb_end p + n)).
    split; [rewrite len_sub; lia|]. unfold window; cbn. apply sub_split; lia.
  - unfold ClientBuf_trim_front. split_case; bool_prop; [cbn; lia|]. cbn.
    split; [unfold client_buf_wf; cbn; unfold CLIENT_PACKET_CAPACITY; lia|]. split; [done|].
    unfold window in *; cbn. rewrite Hwe, sub_sub by lia. f_equal; lia.
  - unfold ClientBuf_truncate. split_case; bool_prop; [cbn; lia|]. cbn.
    split; [unfold client_buf_wf; cbn; unfold CLIENT_PACKET_CAPACITY; lia|]. split; [done|].
    unfold window in *; cbn. rewrite sub_sub by lia. f_equal; lia.
  - unfold ClientBuf_set_range, CLIENT_PACKET_CAPACITY. split_case; bool_prop; cbn.
    + unfold CLIENT_PACKET_CAPACITY. destruct Heqb; bool_prop; lia.
    + split; [unfold client_buf_wf; cbn; unfold CLIENT_PACKET_CAPACITY; lia|done].
Qed.

Definition fresh_client_buf : ClientBuf :=
  mkClientBuf (zeroed CLIENT_PACKET_CAPACITY) PACKET_HEADROOM PACKET_HEADROOM.

Lemma fresh_client_buf_wf : client_buf_wf fresh_client_buf.
Proof. vm_compute. repeat split; discriminate. Qed.

Lemma client_buf_window_witness :
  exists q, buf_apply fresh_client_buf (OpPrepend 24) = Ok q /\ cb_start q = 40
    /\ buf_spec fresh_client_buf (OpPrepend 24) (Ok q)
    /\ buf_apply fresh_client_buf (OpPrepend 65) = Err PrependExceedsHeadroom.
Proof.
  exists (mkClientBuf (zeroed CLIENT_PACKET_CAPACITY) 40 64).
  split; [vm_compute; reflexivity|]. split; [reflexivity|]. split; [|reflexivity].
  exact (client_buf_window fresh_client_buf (OpPrepend 24) fresh_client_buf_wf ltac:(split; [lia|reflexivity])).
Defined.

(** ** The pools under concurrency

    A thread of the pool runs [try_acquire] and, when it drops its buffer,
    [release]; its state is the point between two atomic operations it has
    reached.  A [fetch_update] that fails its compare-and-swap retries, so it
    is one atomic step. *)

Inductive thread :=
| TIdle
| TPopped (s : bytes)    (* popped a block, [retained] not yet decremented *)
| TEmpty                 (* found the queue empty *)
| THolding (s : bytes)   (* owns a [PacketBuf] *)
| TReserved (s : bytes)  (* incremented [retained], block not yet pushed *)
| TUnreserve             (* the queue was full *)
| TDiscard.              (* [allocated] not yet decremented *)

Inductive server_tstep : ServerPool -> thread -> ServerPool -> thread -> Prop :=
| ss_pop p s q : sp_queue p = s :: q ->
    server_tstep p TIdle (sp_with p q (sp_allocated p) (sp_retained p)) (TPopped s)
| ss_pop_empty p : sp_queue p = [] -> server_tstep p TIdle p TEmpty
| ss_sub_retained p s :
    server_tstep p (TPopped s) (sp_with p (sp_queue p) (sp_allocated p) (sp_retained p - 1)) (THolding s)
| ss_allocate p : sp_allocated p < sp_capacity p ->
    server_tstep p TEmpty (sp_with p (sp_queue p) (sp_allocated p + 1) (sp_retained p))
      (THolding (zeroed PACKET_CAPACITY))
| ss_exhausted p : sp_capacity p <= sp_allocated p -> server_tstep p TEmpty p TIdle
| ss_write p s s' : len s' = len s -> server_tstep p (THolding s) p (THolding s')
| ss_odd p s : len s <> PACKET_CAPACITY ->
    server_tstep p (THolding s) (sp_with p (sp_queue p) (sp_allocated p - 1) (sp_retained p)) TIdle
| ss_reserve p s : len s = PACKET_CAPACITY -> sp_retained p < sp_retained_limit p ->
    server_tstep p (THolding s) (sp_with p (sp_queue p) (sp_allocated p) (sp_retained p + 1)) (TReserved s)
| ss_no_room p s : len s = PACKET_CAPACITY -> sp_retained_limit p <= sp_retained p ->
    server_tstep p (THolding s) p TDiscard
| ss_push p s : len (sp_queue p) < sp_capacity p ->
    server_tstep p (TReserved s) (sp_with p (sp_queue p ++ [s]) (sp_allocated p) (sp_retained p)) TIdle
| ss_push_full p s : sp_capacity p <= len (sp_queue p) -> server_tstep p (TReserved s) p TUnreserve
| ss_unreserve p :
    server_tstep p TUnreserve (sp_with p (sp_queue p) (sp_allocated p) (sp_retained p - 1)) TDiscard
| ss_discard p :
    server_tstep p TDiscard (sp_with p (sp_queue p) (sp_allocated p - 1) (sp_retained p)) TIdle.

Inductive client_tstep : ClientPool -> thread -> ClientPool -> thread -> Prop :=
| cs_pop p s q : cp_queue p = s :: q ->
    client_tstep p TIdle (cp_with p q (cp_allocated p)) (THolding s)
| cs_pop_empty p : cp_queue p = [] -> client_tstep p TIdle p TEmpty
| cs_allocate p : cp_allocated p < cp_allocation_limit p ->
    client_tstep p TEmpty (cp_with p (cp_queue p) (cp_allocated p + 1)) (THolding (zeroed CLIENT_PACKET_CAPACITY))
| cs_exhausted p : cp_allocation_limit p <= cp_allocated p -> client_tstep p TEmpty p TIdle
| cs_write p s s' : len s' = len s -> client_tstep p (THolding s) p (THolding s')
| cs_odd p s : len s <> CLIENT_PACKET_CAPACITY ->
    client_tstep p (THolding s) (cp_with p (cp_queue p) (cp_allocated p - 1)) TIdle
| cs_push p s : len s = CLIENT_PACKET_CAPACITY -> len (cp_queue p) < cp_retained_limit p ->
    client_tstep p (THolding s) (cp_with p (cp_queue p ++ [s]) (cp_allocated p)) TIdle
| cs_push_full p s : len s = CLIENT_PACKET_CAPACITY -> cp_retained_limit p <= len (cp_queue p) ->
    client_tstep p (THolding s) p TDiscard
| cs_discard p : client_tstep p TDiscard (cp_with p (cp_queue p) (cp_allocated p - 1)) TIdle.

(** Any thread takes a step. *)
Inductive pool_step {P : Type} (tstep : P -> thread -> P -> thread -> Prop) :
  P * list thread -> P * list thread -> Prop :=
| pool_step_thread p p' ts i t t' :
    ts !! i = Some t -> tstep p t p' t' -> pool_step tstep (p, ts) (p', <[i := t']> ts).

(** *** Running one thread alone is the sequential function *)

(** One step of the only thread. *)
Ltac solo c := eapply rtc_l; [eapply (pool_step_thread _ _ _ _ 0); [reflexivity|eapply c; eassumption || reflexivity || idtac]|cbn].

Lemma server_acquire_steps p :
  match ServerPool_try_acquire p with
  | (Some b, p') => rtc (pool_step server_tstep) (p, [TIdle]) (p', [THolding (sb_storage b)])
  | (None, p') => rtc (pool_step server_tstep) (p, [TIdle]) (p', [TIdle])
  end.
Proof.
  unfold ServerPool_try_acquire. destruct p as [[|s q] c a r l]; cbn.
  - destruct (a <? c) eqn:E; bool_prop; solo ss_pop_empty.
    + solo ss_allocate. apply rtc_refl.
    + solo ss_exhausted. apply rtc_refl.
  - solo ss_pop. solo ss_sub_retained. apply rtc_refl.
Qed.

Lemma server_release_steps p s :
  rtc (pool_step server_tstep) (p, [THolding s]) (ServerPool_release p s, [TIdle]).
Proof.
  unfold ServerPool_release. destruct p as [q c a r l]. cbn [sp_queue sp_capacity sp_allocated sp_retained sp_retained_limit].
  destruct (len s =? PACKET_CAPACITY) eqn:E1; [destruct (r <? l) eqn:E2; [destruct (len q <? c) eqn:E3|]|]; bool_prop; cbn [negb].
  - solo ss_reserve. solo ss_push. apply rtc_refl.
  - solo ss_reserve. solo ss_push_full. solo ss_unreserve. solo ss_discard.
    unfold sp_with; cbn. rewrite Z.add_simpl_r. apply rtc_refl.
  - solo ss_no_room. solo ss_discard. apply rtc_refl.
  - solo ss_odd. apply rtc_refl.
Qed.

(** *** Counting threads *)

Lemma weight_idle f n : f TIdle = 0 -> weight f (replicate n TIdle) = 0.
Proof. intros H. induction n; cbn; lia. Qed.

Lemma weight_all_idle f ts : Forall (fun t => t = TIdle) ts -> f TIdle = 0 -> weight f ts = 0.
Proof. intros Ht Hf. induction Ht as [|t ts -> _ IH]; cbn; lia. Qed.

(** A thread that accounts for one of [allocated], and one of [retained]. *)
Definition w_allocated (t : thread) : Z :=
  match t with TIdle | TEmpty => 0 | _ => 1 end.
Definition w_retained (t : thread) : Z :=
  match t with TPopped _ | TReserved _ | TUnreserve => 1 | _ => 0 end.
(** Threads that own a block of storage. *)
Definition w_live (t : thread) : Z :=
  match t with TPopped _ | THolding _ | TReserved _ => 1 | _ => 0 end.

Lemma w_allocated_nonneg t : 0 <= w_allocated t.
Proof. destruct t; cbn; lia. Qed.
Lemma w_retained_nonneg t : 0 <= w_retained t.
Proof. destruct t; cbn; lia. Qed.
Lemma w_live_nonneg t : 0 <= w_live t.
Proof. destruct t; cbn; lia. Qed.
Lemma w_live_allocated ts : weight w_live ts <= weight w_allocated ts.
Proof. apply weight_le. intros []; cbn; lia. Qed.

Record server_pool_inv (x : ServerPool * list thread) : Prop := {
  spi_allocated : sp_allocated x.1 = len (sp_queue x.1) + weight w_allocated x.2;
  spi_retained : sp_retained x.1 = len (sp_queue x.1) + weight w_retained x.2;
  spi_bound : sp_allocated x.1 <= sp_capacity x.1;
  spi_retained_bound : sp_retained x.1 <= sp_retained_limit x.1;
  spi_limit : sp_retained_limit x.1 <= sp_capacity x.1;
  spi_no_unreserve : TUnreserve ∉ x.2;
}.

Lemma not_elem_insert {A} (ts : list A) i (t u : A) : u ∉ ts -> u <> t -> u ∉ <[i := t]> ts.
Proof.
  intros H1 H2 Hin. apply list_elem_of_lookup in Hin as [j Hj]. destruct (decide (i = j)) as [->|Hne].
  - destruct (decide (j < length ts)%nat) as [Hlt|Hlt].
    + rewrite list_lookup_insert_eq in Hj by done. congruence.
    + apply lookup_lt_Some in Hj as Hl. rewrite length_insert in Hl. lia.
  - rewrite list_lookup_insert_ne in Hj by done. apply H1. eapply list_elem_of_lookup_2; eauto.
Qed.

Lemma server_pool_step_inv x y :
  server_pool_inv x -> pool_step server_tstep x y -> server_pool_inv y.
Proof.
  intros [Ha Hr Hb Hrb Hl Hu] Hstep. destruct Hstep as [p p' ts i t t' Hi Hstep]. cbn [fst snd] in *.
  pose proof (weight_lookup w_allocated ts i t w_allocated_nonneg Hi) as Hwa.
  pose proof (weight_lookup w_retained ts i t w_retained_nonneg Hi) as Hwr.
  assert (Ht : t <> TUnreserve) by (intros ->; apply Hu; eapply list_elem_of_lookup_2; eauto).
  destruct Hstep; try done;
    (split; cbn [fst snd sp_with sp_queue sp_allocated sp_retained sp_capacity sp_retained_limit];
     rewrite ?(weight_insert _ _ _ _ _ Hi), ?len_app, ?len_cons, ?len_nil; cbn [w_allocated w_retained] in *;
     try (apply not_elem_insert; done);
     repeat match goal with H : sp_queue _ = _ |- _ => rewrite H in * end;
     rewrite ?len_cons, ?len_nil in *; try lia).
Qed.

Lemma server_pool_start_inv buffers n :
  server_pool_inv (ServerPool_new buffers, replicate n TIdle).
Proof.
  split; cbn [fst snd ServerPool_new sp_queue sp_allocated sp_retained sp_capacity sp_retained_limit];
    rewrite ?weight_idle, ?len_nil by done; unfold PACKET_POOL_RETAINED_MAX; try (done || lia).
  intros Hin%elem_of_replicate. by destruct Hin.
Qed.

(** However many threads share the server's pool and however their atomic
    operations interleave, the buffers in use and the buffers kept never exceed
    the pool's capacity, the counters never underflow and are exact once every
    thread is done, and the push of a released block never finds the queue
    full. *)
Theorem server_pool_bounded buffers n p ts :
  rtc (pool_step server_tstep) (ServerPool_new buffers, replicate n TIdle) (p, ts) ->
  len (sp_queue p) + weight w_live ts <= Z.max buffers 1
  /\ 0 <= sp_allocated p <= Z.max buffers 1
  /\ 0 <= sp_retained p <= PACKET_POOL_RETAINED_MAX
  /\ TUnreserve ∉ ts
  /\ (Forall (fun t => t = TIdle) ts -> sp_allocated p = len (sp_queue p) /\ sp_retained p = len (sp_queue p)).
Proof.
  intros Hrun.
  assert (Hcap : sp_capacity p = Z.max buffers 1 /\ sp_retained_limit p <= PACKET_POOL_RETAINED_MAX).
  { change p with ((p, ts).1). revert Hrun. generalize (p, ts). intros y Hrun.
    eapply (rtc_ind_r (fun y : ServerPool * list thread => sp_capacity y.1 = Z.max buffers 1
      /\ sp_retained_limit y.1 <= PACKET_POOL_RETAINED_MAX)); [| |exact Hrun]; [cbn; unfold PACKET_POOL_RETAINED_MAX; lia|].
    intros y' z _ Hs IH. destruct Hs as [q q' us i t t' _ Hs]. destruct Hs; done. }
  assert (Hinv : server_pool_inv (p, ts)).
  { eapply (rtc_ind_r (fun y => server_pool_inv y)); [apply (server_pool_start_inv buffers n)| |exact Hrun].
    intros y z _ Hs Hy. by eapply server_pool_step_inv. }
  destruct Hinv as [Ha Hr Hb Hrb Hl Hu]. cbn [fst snd] in *.
  pose proof (w_live_allocated ts). pose proof (weight_nonneg w_retained ts w_retained_nonneg).
  pose proof (weight_nonneg w_live ts w_live_nonneg). pose proof (len_nonneg (sp_queue p)).
  split_and!; try lia; [done|].
  intros Hidle. rewrite !weight_all_idle in * by done. lia.
Qed.

Lemma server_pool_bounded_witness :
  exists p, rtc (pool_step server_tstep) (ServerPool_new 2, replicate 1 TIdle) (p, [TIdle])
    /\ sp_queue p = [zeroed PACKET_CAPACITY] /\ sp_retained p = 1
    /\ len (sp_queue p) + weight w_live [TIdle] <= Z.max 2 1.
Proof.
  assert (H : rtc (pool_step server_tstep) (ServerPool_new 2, replicate 1 TIdle)
    (ServerPool_release (ServerPool_try_acquire (ServerPool_new 2)).2 (zeroed PACKET_CAPACITY), [TIdle])).
  { etrans; [exact (server_acquire_steps (ServerPool_new 2))|].
    exact (server_release_steps (ServerPool_try_acquire (ServerPool_new 2)).2 (zeroed PACKET_CAPACITY)). }
  exists (ServerPool_release (ServerPool_try_acquire (ServerPool_new 2)).2 (zeroed PACKET_CAPACITY)).
  split; [exact H|]. split; [vm_compute; reflexivity|]. split; [vm_compute; reflexivity|].
  exact (proj1 (server_pool_bounded 2 1 _ _ H)).
Defined.

(** *** The client's pool *)

Lemma client_acquire_steps p :
  match ClientPool_try_acquire p with
  | (Some b, p') => rtc (pool_step client_tstep) (p, [TIdle]) (p', [THolding (cb_storage b)])
  | (None, p') => rtc (pool_step client_tstep) (p, [TIdle]) (p', [TIdle])
  end.
Proof.
  unfold ClientPool_try_acquire. destruct p as [[|s q] l a c]; cbn.
  - destruct (a <? c) eqn:E; bool_prop; solo cs_pop_empty.
    + solo cs_allocate. apply rtc_refl.
    + solo cs_exhausted. apply rtc_refl.
  - solo cs_pop. apply rtc_refl.
Qed.

Lemma client_release_steps p s :
  rtc (pool_step client_tstep) (p, [THolding s]) (ClientPool_release p s, [TIdle]).
Proof.
  unfold ClientPool_release. destruct p as [q l a c]. cbn [cp_queue cp_allocated cp_allocation_limit cp_retained_limit].
  destruct (len s =? CLIENT_PACKET_CAPACITY) eqn:E1; [destruct (len q <? l) eqn:E3|]; bool_prop; cbn [negb].
  - solo cs_push. apply rtc_refl.
  - solo cs_push_full. solo cs_discard. apply rtc_refl.
  - solo cs_odd. apply rtc_refl.
Qed.

Record client_pool_inv (limit : Z) (x : ClientPool * list thread) : Prop := {
  cpi_allocated : cp_allocated x.1 = len (cp_queue x.1) + weight w_allocated x.2;
  cpi_bound : cp_allocated x.1 <= limit;
  cpi_limit : cp_allocation_limit x.1 = limit;
  cpi_queue : len (cp_queue x.1) <= cp_retained_limit x.1;
  cpi_retained : cp_retained_limit x.1 <= CLIENT_POOL_RETAINED_MAX;
  cpi_storage : Forall (fun s => len s = CLIENT_PACKET_CAPACITY) (cp_queue x.1);
}.

Lemma client_pool_step_inv limit x y :
  client_pool_inv limit x -> pool_step client_tstep x y -> client_pool_inv limit y.
Proof.
  intros [Ha Hb Hl Hq Hr Hs] Hstep. destruct Hstep as [p p' ts i t t' Hi Hstep]. cbn [fst snd] in *.
  pose proof (weight_lookup w_allocated ts i t w_allocated_nonneg Hi) as Hwa.
  destruct Hstep;
    (split; cbn [fst snd cp_with cp_queue cp_allocated cp_retained_limit cp_allocation_limit];
     rewrite ?(weight_insert _ _ _ _ _ Hi), ?len_app, ?len_cons, ?len_nil; cbn [w_allocated] in *;
     repeat match goal with H : cp_queue _ = _ |- _ => rewrite H in * end;
     rewrite ?Forall_app, ?Forall_cons, ?len_cons, ?len_nil in *; auto; try lia; naive_solver).
Qed.

(** The same of the client's pool: live and kept buffers stay within the
    allocation limit, kept ones within the retained limit, every block handed
    out again has the full capacity, and the count is exact at rest. *)
Theorem client_pool_bounded buffers n p ts :
  rtc (pool_step client_tstep) (ClientPool_new buffers, replicate n TIdle) (p, ts) ->
  len (cp_queue p) + weight w_live ts <= Z.max buffers 1
  /\ len (cp_queue p) <= CLIENT_POOL_RETAINED_MAX
  /\ Forall (fun s => len s = CLIENT_PACKET_CAPACITY) (cp_queue p)
  /\ (Forall (fun t => t = TIdle) ts -> cp_allocated p = len (cp_queue p)).
Proof.
  intros Hrun.
  assert (Hinv : client_pool_inv (Z.max buffers 1) (p, ts)).
  { eapply (rtc_ind_r (fun y => client_pool_inv (Z.max buffers 1) y)); [| |exact Hrun].
    - split; cbn [fst snd ClientPool_new cp_queue cp_allocated cp_retained_limit cp_allocation_limit];
        rewrite ?weight_idle, ?len_nil by done; unfold CLIENT_POOL_RETAINED_MAX; try (done || lia); constructor.
    - intros y z _ Hs Hy. by eapply client_pool_step_inv. }
  destruct Hinv as [Ha Hb Hl Hq Hr Hs]. cbn [fst snd] in *.
  pose proof (w_live_allocated ts). split_and!; try lia; [done|].
  intros Hidle. rewrite !weight_all_idle in * by done. lia.
Qed.

Lemma client_pool_bounded_witness :
  exists p, rtc (pool_step client_tstep) (ClientPool_new 0, replicate 1 TIdle) (p, [TIdle])
    /\ cp_queue p = [zeroed CLIENT_PACKET_CAPACITY]
    /\ len (cp_queue p) + weight w_live [TIdle] <= Z.max 0 1.
Proof.
  assert (H : rtc (pool_step client_tstep) (ClientPool_new 0, replicate 1 TIdle)
    (ClientPool_release (ClientPool_try_acquire (ClientPool_new 0)).2 (zeroed CLIENT_PACKET_CAPACITY), [TIdle])).
  { etrans; [exact (client_acquire_steps (ClientPool_new 0))|].
    exact (client_release_steps (ClientPool_try_acquire (ClientPool_new 0)).2 (zeroed CLIENT_PACKET_CAPACITY)). }
  eexists. split; [exact H|]. split; [vm_compute; reflexivity|].
  exact (proj1 (client_pool_bounded 0 1 _ _ H)).
Defined.
