(* ===== verification/Obfs.v ===== *)
(** * Packet obfuscation
    ([rust-client/obfs.rs], and the RTP part of [rust-server/protocol.rs])

    A tunnelled packet travels as an RTP packet: a 24-byte header with an
    extension, then either AES-CTR ciphertext with a truncated HMAC (video,
    "SRTP") or ChaCha20-Poly1305 ciphertext and tag (audio), and random
    padding.  The primitives are parameters; the documented facts the code
    relies on are [CryptoLaws]. *)

From S2P Require Import Prelude Replay Packet.

(** ** The primitives *)

Class Crypto := {
  (* key, initial block, length *)
  aes_ctr : bytes -> bytes -> Z -> bytes;
  hmac_sha1 : bytes -> bytes -> bytes;
  (* key, nonce, additional data, plaintext -> ciphertext and tag *)
  chacha_seal : bytes -> bytes -> bytes -> bytes -> option (bytes * bytes);
  (* key, nonce, additional data, tag, ciphertext *)
  chacha_open : bytes -> bytes -> bytes -> bytes -> bytes -> option bytes;
}.

Class CryptoLaws (C : Crypto) : Prop := {
  aes_ctr_len key iv n : 0 <= n -> len (aes_ctr key iv n) = n;
  aes_ctr_wf key iv n : wf_bytes (aes_ctr key iv n);
  hmac_sha1_len key msg : len (hmac_sha1 key msg) = 20;
  chacha_seal_total key n aad p : len p <= 65536 -> is_Some (chacha_seal key n aad p);
  chacha_seal_len key n aad p c t : chacha_seal key n aad p = Some (c, t) -> len c = len p /\ len t = 16;
  chacha_open_seal key n aad p c t : chacha_seal key n aad p = Some (c, t) -> chacha_open key n aad t c = Some p;
  chacha_open_len key n aad t c p : chacha_open key n aad t c = Some p -> len p = len c;
  chacha_open_wf key n aad t c p : chacha_open key n aad t c = Some p -> wf_bytes c -> wf_bytes p;
}.

Definition xor_bytes (l k : bytes) : bytes := zip_with Z.lxor l k.

(** The keys derived from a session's 32 bytes. *)
Definition make_aes_key (key : bytes) : bytes := sub key 0 16.
Definition make_hmac_key (key : bytes) : bytes := sub key 16 (len key).

(** ** What the two ends share *)

Definition nonce (ssrc seq timestamp : Z) : bytes :=
  be_bytes 4 ssrc ++ be_bytes 2 seq ++ [0; 0] ++ be_bytes 4 timestamp.
Definition build_srtp_iv (ssrc seq timestamp : Z) : bytes :=
  be_bytes 4 ssrc ++ be_bytes 2 seq ++ [0; 0] ++ be_bytes 4 timestamp ++ [0; 0; 0; 0].

Definition rtp_clock_rate (payload_type : Z) : Z := if payload_type =? 96 then 90000 else 48000.

(** Durations are in nanoseconds. *)
Definition duration_ticks (elapsed clock_rate : Z) : Z :=
  u32_of (u64_of (u64_of (elapsed / 10 ^ 9 * clock_rate) + u64_of (elapsed mod 10 ^ 9 * clock_rate) / 10 ^ 9)).

Definition supported_payload_type (payload_type : Z) : bool :=
  (payload_type =? 111) || (payload_type =? 96) || (payload_type =? 6).

(** [l[i] = v] *)
Definition set_at {E A : Type} (l : list A) (i : Z) (v : A) : result E (list A) := copy_into l i (i + 1) [v].

(** [cipher.apply_keystream(&mut storage[i..j])] *)
Definition apply_keystream {E} `{Crypto} (key iv storage : bytes) (i j : Z) : result E bytes :=
  part ← slice storage i j;
  copy_into storage i j (xor_bytes part (aes_ctr key iv (len part))).

(** The random choices of one packet: the amount of padding, the draw for the
    marker bit and the padding bytes. *)
Record Draws := mkDraws { dr_padding : Z; dr_marker : Z; dr_fill : bytes }.

(** ** The client *)

Inductive ObfsMode := Audio | Video.
#[global] Instance ObfsMode_eq_dec : EqDecision ObfsMode.
Proof. solve_decision. Defined.

Definition ObfsMode_parse (value : string) : result string ObfsMode :=
  if String.eqb value "audio" then Ok Audio
  else if String.eqb value "video" then Ok Video
  else Err "unsupported obfuscation mode"%string.

Record ObfsConfig := mkObfsConfig { oc_padding_max : Z; oc_ssrc : Z; oc_payload_type : Z; oc_mode : ObfsMode }.

(** The random source identifier is an argument. *)
Definition ObfsConfig_new (mode : ObfsMode) (ssrc : Z) : ObfsConfig :=
  match mode with
  | Audio => mkObfsConfig 24 ssrc 111 mode
  | Video => mkObfsConfig 60 ssrc 96 mode
  end.

Record ObfsState := mkObfsState {
  os_count : Z;
  os_initial_timestamp : Z;
  os_initial_abs_send_time : Z;
  os_initial_sequence : Z;
  os_transport_sequence : Z;
  os_started : Z;
}.

(** The clocks and the three random words are arguments; [wall_ms * 262144]
    overflows only for wall clocks past the year 500000. *)
Definition ObfsState_new (r1 r2 r3 wall_ms now : Z) : ObfsState :=
  mkObfsState 0 (u32_of r1) (Z.land (u32_of (wall_ms * 262144 / 1000)) 0xffffff) (u16_of r2) (u16_of r3) now.

Definition ObfsState_next (s : ObfsState) : (Z * Z) * ObfsState :=
  ((os_count s, os_transport_sequence s),
   mkObfsState (u64_of (os_count s + 1)) (os_initial_timestamp s) (os_initial_abs_send_time s)
     (os_initial_sequence s) (u16_of (os_transport_sequence s + 1)) (os_started s)).

Definition initial_sequence (s : ObfsState) (count : Z) : Z := u16_of (os_initial_sequence s + u16_of count).

(** The header both ends write, field by field. *)
Definition rtp_header (b0 payload_type marker seq timestamp ssrc abs_send_time transport_seq : Z) : bytes :=
  let b1 := Z.land payload_type 0x7f in
  let b1 := if (payload_type =? 96) && (marker =? 0) then Z.lor b1 0x80 else b1 in
  [b0; b1] ++ be_bytes 2 seq ++ be_bytes 4 timestamp ++ be_bytes 4 ssrc ++ [0xbe; 0xde] ++ be_bytes 2 2
  ++ [0x32] ++ be_bytes 3 abs_send_time ++ [0x51] ++ be_bytes 2 transport_seq ++ [0].

Definition anyhow {A} (r : result packet_error A) : result string A :=
  match r with Ok a => Ok a | Err _ => Err "packet range"%string | Panic => Panic end.

Section Ciphers.
Context `{Crypto}.

Definition ObfsCipher_wrap_video (key : bytes) (packet : ClientBuf) (config : ObfsConfig)
    (payload_start payload_end sequence timestamp padding_random : Z) (d : Draws) : result string ClientBuf :=
  let padding_total := padding_random + 1 in
  packet ← anyhow (ClientBuf_extend_tail packet (padding_total + 10));
  let storage := cb_storage packet in
  let iv := build_srtp_iv (oc_ssrc config) sequence timestamp in
  storage ← apply_keystream (make_aes_key key) iv storage payload_start payload_end;
  storage ← (if 0 <? padding_random
             then copy_into storage payload_end (payload_end + padding_random) (dr_fill d) else mret storage);
  storage ← set_at storage (payload_end + padding_total - 1) (u8_of padding_total);
  let tag_start := payload_end + padding_total in
  message ← slice storage (cb_start packet) tag_start;
  tag ← slice (hmac_sha1 (make_hmac_key key) message) 0 10;
  storage ← copy_into storage tag_start (tag_start + 10) tag;
  mret (mkClientBuf storage (cb_start packet) (cb_end packet)).

Definition ObfsCipher_wrap_audio (key : bytes) (packet : ClientBuf) (config : ObfsConfig)
    (payload_start payload_end sequence timestamp padding_random : Z) (d : Draws) : result string ClientBuf :=
  let padding_total := padding_random + 1 in
  packet ← anyhow (ClientBuf_extend_tail packet (16 + padding_total));
  let storage := cb_storage packet in
  aad ← slice storage (cb_start packet) payload_start;
  plain ← slice storage payload_start payload_end;
  sealed ← try_ "obfs: chacha encrypt"%string
             (chacha_seal key (nonce (oc_ssrc config) sequence timestamp) aad plain);
  storage ← copy_into storage payload_start payload_end sealed.1;
  storage ← copy_into storage payload_end (payload_end + 16) sealed.2;
  let padding_start := payload_end + 16 in
  storage ← (if 0 <? padding_random
             then copy_into storage padding_start (padding_start + padding_random) (dr_fill d) else mret storage);
  storage ← set_at storage (padding_start + padding_total - 1) (u8_of padding_total);
  mret (mkClientBuf storage (cb_start packet) (cb_end packet)).

Definition ObfsCipher_wrap (key : bytes) (packet : ClientBuf) (config : ObfsConfig) (state : ObfsState)
    (now : Z) (d : Draws) : result string ClientBuf * ObfsState :=
  if ClientBuf_is_empty packet then (Err "obfs: empty payload"%string, state) else
  let payload_len := ClientBuf_len packet in
  let '((count, transport_sequence), state) := ObfsState_next state in
  let sequence := initial_sequence state count in
  let elapsed := sat_sub now (os_started state) in
  let payload_type := oc_payload_type config in
  let timestamp := u32_of (os_initial_timestamp state + duration_ticks elapsed (rtp_clock_rate payload_type)) in
  let padding_random := if oc_padding_max config =? 0 then 0 else dr_padding d in
  let padding_total := padding_random + 1 in
  let tail := if decide (oc_mode config = Video) then padding_total + 10 else padding_total + 16 in
  if (cb_start packet <? 24)
     || (match checked_add (cb_end packet) tail with None => true | Some e => CLIENT_PACKET_CAPACITY <? e end)
  then (Err "obfs: packet exceeds buffer capacity"%string, state) else
  let absolute_send_time :=
    Z.land (u32_of (os_initial_abs_send_time state + duration_ticks elapsed 262144)) 0xffffff in
  (packet ← anyhow (ClientBuf_prepend packet 24);
   storage ← copy_into (cb_storage packet) (cb_start packet) (cb_start packet + 24)
     (rtp_header (Z.lor 0xb0 0x20) payload_type (dr_marker d) sequence timestamp (oc_ssrc config)
        absolute_send_time transport_sequence);
   let packet := mkClientBuf storage (cb_start packet) (cb_end packet) in
   let payload_start := cb_start packet + 24 in
   let payload_end := payload_start + payload_len in
   if decide (oc_mode config = Video)
   then ObfsCipher_wrap_video key packet config payload_start payload_end sequence timestamp padding_random d
   else ObfsCipher_wrap_audio key packet config payload_start payload_end sequence timestamp padding_random d,
   state).

Definition ObfsCipher_unwrap_video (key : bytes) (packet : ClientBuf) (b0 header_len ssrc sequence timestamp : Z)
    : result string (Z * ClientBuf) :=
  let storage := cb_storage packet in
  let start := cb_start packet in
  let end_ := cb_end packet in
  if ClientBuf_len packet <? header_len + 10 then Err "obfs srtp: missing authentication tag"%string else
  let tag_start := end_ - 10 in
  message ← slice storage start tag_start;
  tag ← slice storage tag_start end_;
  expected ← slice (hmac_sha1 (make_hmac_key key) message) 0 10;
  if negb (bytes_eqb expected tag) then Err "obfs srtp: authentication failed"%string else
  payload_end ← (if negb (Z.land b0 0x20 =? 0)
    then padding ← at_ storage (tag_start - 1);
         if (padding =? 0) || (tag_start - start - header_len <? padding)
         then Err "obfs srtp: invalid padding length"%string else mret (tag_start - padding)
    else mret tag_start);
  let payload_start := start + header_len in
  let iv := build_srtp_iv ssrc sequence timestamp in
  storage ← apply_keystream (make_aes_key key) iv storage payload_start payload_end;
  packet ← anyhow (ClientBuf_set_range (mkClientBuf storage start end_) payload_start payload_end);
  mret (sequence, packet).

Definition ObfsCipher_unwrap_audio (key : bytes) (packet : ClientBuf)
    (b0 payload_type header_len ssrc sequence timestamp : Z) : result string (Z * ClientBuf) :=
  let storage := cb_storage packet in
  let start := cb_start packet in
  let end_ := cb_end packet in
  if negb (payload_type =? 111) then Err "obfs audio: expected payload type 111"%string else
  payload_end ← (if negb (Z.land b0 0x20 =? 0)
    then padding ← at_ storage (end_ - 1);
         if (padding =? 0) || (end_ - start - header_len <? padding)
         then Err "obfs: invalid padding length"%string else mret (end_ - padding)
    else mret end_);
  let payload_start := start + header_len in
  if payload_end <=? payload_start + 16 then Err "obfs: empty encrypted payload or missing tag"%string else
  let tag_start := payload_end - 16 in
  tag ← slice storage tag_start payload_end;
  aad ← slice storage start payload_start;
  cipher ← slice storage payload_start tag_start;
  plain ← try_ "obfs: auth (ChaCha20-Poly1305)"%string
            (chacha_open key (nonce ssrc sequence timestamp) aad tag cipher);
  storage ← copy_into storage payload_start tag_start plain;
  packet ← anyhow (ClientBuf_set_range (mkClientBuf storage start end_) payload_start tag_start);
  mret (sequence, packet).

Definition ObfsCipher_unwrap (key : bytes) (packet : ClientBuf) (mode : ObfsMode) : result string (Z * ClientBuf) :=
  wire ← ClientBuf_as_slice packet;
  if len wire <? 13 then Err "obfs: not RTP v2"%string else
  b0 ← at_ wire 0;
  if negb (Z.shiftr b0 6 =? 2) then Err "obfs: not RTP v2"%string else
  b1 ← at_ wire 1;
  let payload_type := Z.land b1 0x7f in
  if negb (supported_payload_type payload_type) then Err "obfs: unsupported payload type"%string else
  seq_b ← slice wire 2 4;
  ts_b ← slice wire 4 8;
  ssrc_b ← slice wire 8 12;
  let sequence := be_val seq_b in
  let timestamp := be_val ts_b in
  let ssrc := be_val ssrc_b in
  header_len ← (if negb (Z.land b0 0x10 =? 0)
    then if len wire <? 16 then Err "obfs: packet too short for extension header"%string
         else words ← slice wire 14 16; mret (12 + (4 + be_val words * 4))
    else mret 12);
  if len wire <? header_len then Err "obfs: packet too short for calculated RTP header"%string else
  if decide (mode = Video)
  then ObfsCipher_unwrap_video key packet b0 header_len ssrc sequence timestamp
  else ObfsCipher_unwrap_audio key packet b0 payload_type header_len ssrc sequence timestamp.

Definition is_rtp_packet {E} (wire : bytes) : result E bool :=
  if len wire <? 13 then mret false else
  b0 ← at_ wire 0;
  if negb (Z.shiftr b0 6 =? 2) then mret false else
  b1 ← at_ wire 1;
  mret (supported_payload_type (Z.land b1 0x7f)).

(** The packet and the window are updated even when the number is refused. *)
Definition authenticate_inbound (key : bytes) (mode : ObfsMode) (replay : ReplayWindow) (packet : ClientBuf)
    : result string (bool * ReplayWindow * ClientBuf) :=
  wire ← ClientBuf_as_slice packet;
  rtp ← is_rtp_packet wire;
  if negb rtp then mret (false, replay, packet) else
  match ObfsCipher_unwrap key packet mode with
  | Panic => Panic
  | Err _ => mret (false, replay, packet)
  | Ok (sequence, packet) =>
      let '(fresh, replay) := ReplayWindow_accept_rtp replay sequence in mret (fresh, replay, packet)
  end.

(** ** The server *)

Record OutState := mkOutState {
  out_ssrc : Z;
  out_initial_seq : Z;
  out_initial_ts : Z;
  out_initial_abs_send_time : Z;
  out_started : Z;
  out_count : Z;
  out_payload_type : Z;
  out_transport_seq : Z;
}.

(** The twelve random bytes and the clocks are arguments. *)
Definition OutState_new (payload_type : Z) (random : bytes) (wall_ms now : Z) : OutState :=
  mkOutState (be_val (sub random 0 4)) (be_val (sub random 4 6)) (be_val (sub random 6 10))
    (Z.land (u32_of (wall_ms * 262144 / 1000)) 0xffffff) now 0 payload_type (be_val (sub random 10 12)).

Definition OutState_clocks (o : OutState) (now : Z) : Z * Z :=
  let elapsed := sat_sub now (out_started o) in
  (u32_of (out_initial_ts o + duration_ticks elapsed (rtp_clock_rate (out_payload_type o))),
   Z.land (u32_of (out_initial_abs_send_time o + duration_ticks elapsed 262144)) 0xffffff).

Definition rtp_header_len (wire : bytes) : result string Z :=
  if len wire <? 13 then Err "invalid RTP packet"%string else
  b0 ← at_ wire 0;
  if negb (Z.shiftr b0 6 =? 2) then Err "invalid RTP packet"%string else
  header_len ← (if negb (Z.land b0 0x10 =? 0)
    then if len wire <? 16 then Err "packet too short for extension header"%string
         else words ← slice wire 14 16;
              try_ "RTP header length overflow"%string (checked_add 12 (4 + be_val words * 4))
    else mret 12);
  if len wire <? header_len then Err "packet too short for calculated RTP header"%string
  else mret header_len.

Record DecodedPacket := mkDecodedPacket {
  dp_start : Z; dp_end : Z; dp_seq : Z; dp_payload_type : Z; dp_is_srtp : bool;
}.

Definition in_20_23 (b : Z) : bool := (20 <=? b) && (b <=? 23).

(** The [while offset + 13 <= end] loop over DTLS records. *)
Fixpoint dtls_records (fuel : nat) (wire : bytes) (offset end_ : Z) : result string Z :=
  match fuel with
  | O => mret offset
  | S fuel =>
      if negb (offset + 13 <=? end_) then mret offset else
      b0 ← at_ wire offset;
      if negb (in_20_23 b0) then mret offset else
      b1 ← at_ wire (offset + 1);
      if negb (b1 =? 0xfe) then mret offset else
      hi ← at_ wire (offset + 11);
      lo ← at_ wire (offset + 12);
      let record_len := 13 + Z.lor (Z.shiftl hi 8) lo in
      if end_ <? offset + record_len then mret offset
      else dtls_records fuel wire (offset + record_len) end_
  end.

Definition unwrap_srtp (key wire : bytes) (header_len b0 seq timestamp ssrc payload_type : Z)
    : result string (bytes * DecodedPacket) :=
  let message_len := len wire - 10 in
  end_ ← (if negb (Z.land b0 0x20 =? 0)
    then padding ← at_ wire (message_len - 1);
         if (padding =? 0) || (sat_sub message_len header_len <? padding)
         then Err "invalid RTP padding in SRTP mode"%string else mret (message_len - padding)
    else mret message_len);
  if end_ <? header_len then Err "invalid SRTP payload bounds"%string else
  wire ← apply_keystream (make_aes_key key) (build_srtp_iv ssrc seq timestamp) wire header_len end_;
  dtls ← (if 13 <=? sat_sub end_ header_len then b ← at_ wire header_len; mret (in_20_23 b) else mret false);
  end_ ← (if (dtls : bool)
    then offset ← dtls_records (Z.to_nat (end_ - header_len)) wire header_len end_;
         mret (if header_len <? offset then offset else end_)
    else mret end_);
  mret (wire, mkDecodedPacket header_len end_ seq payload_type true).

Definition unwrap_aead (key wire : bytes) (header_len b0 seq timestamp ssrc payload_type : Z)
    : result string (bytes * DecodedPacket) :=
  end_ ← (if negb (Z.land b0 0x20 =? 0)
    then padding ← at_ wire (len wire - 1);
         if (padding =? 0) || (sat_sub (len wire) header_len <? padding)
         then Err "invalid RTP padding"%string else mret (len wire - padding)
    else mret (len wire));
  if end_ <=? header_len + 16 then Err "empty encrypted payload"%string else
  if negb (payload_type =? 111) then Err "expected audio (PT=111) for non-SRTP packet"%string else
  let tag_offset := end_ - 16 in
  tag ← slice wire tag_offset end_;
  aad ← slice wire 0 header_len;
  cipher ← slice wire header_len tag_offset;
  plain ← try_ "authentication failed (ChaCha20-Poly1305)"%string
            (chacha_open key (nonce ssrc seq timestamp) aad tag cipher);
  wire ← copy_into wire header_len tag_offset plain;
  mret (wire, mkDecodedPacket header_len tag_offset seq payload_type false).

Definition unwrap_legacy_in_place (key wire : bytes) (expected_srtp : option bool)
    : result string (bytes * DecodedPacket) :=
  header_len ← rtp_header_len wire;
  b1 ← at_ wire 1;
  let payload_type := Z.land b1 0x7f in
  if negb (supported_payload_type payload_type) then Err "unsupported RTP payload type"%string else
  seq_b ← slice wire 2 4;
  ts_b ← slice wire 4 8;
  ssrc_b ← slice wire 8 12;
  let seq := be_val seq_b in
  let timestamp := be_val ts_b in
  let ssrc := be_val ssrc_b in
  b0 ← at_ wire 0;
  if negb (bool_decide (expected_srtp = Some false)) && (header_len + 10 <=? len wire) then
    let message_len := len wire - 10 in
    message ← slice wire 0 message_len;
    expected ← slice (hmac_sha1 (make_hmac_key key) message) 0 10;
    tag ← slice_from wire message_len;
    if bytes_eqb expected tag
    then unwrap_srtp key wire header_len b0 seq timestamp ssrc payload_type
    else if bool_decide (expected_srtp = Some true) then Err "SRTP authentication failed"%string
    else unwrap_aead key wire header_len b0 seq timestamp ssrc payload_type
  else if bool_decide (expected_srtp = Some true) then Err "SRTP packet is too short"%string
  else unwrap_aead key wire header_len b0 seq timestamp ssrc payload_type.

Definition wrap_srtp (key plain header storage : bytes) (ssrc seq timestamp random_padding : Z) (d : Draws)
    : result string (bytes * Z) :=
  let padding := random_padding + 1 in
  ciphertext_len ← try_ "SRTP length overflow"%string (checked_add (len plain) padding);
  total ← try_ "SRTP length overflow"%string
    (match checked_add 24 ciphertext_len with Some v => checked_add v 10 | None => None end);
  if len storage <? total then Err "SRTP output exceeds packet capacity"%string else
  storage ← copy_into storage 0 24 header;
  storage ← copy_into storage 24 (24 + len plain) plain;
  storage ← apply_keystream (make_aes_key key) (build_srtp_iv ssrc seq timestamp) storage 24 (24 + len plain);
  storage ← (if negb (random_padding =? 0)
    then copy_into storage (24 + len plain) (24 + len plain + random_padding) (dr_fill d) else mret storage);
  storage ← set_at storage (24 + ciphertext_len - 1) (u8_of padding);
  message ← slice storage 0 (24 + ciphertext_len);
  tag ← slice (hmac_sha1 (make_hmac_key key) message) 0 10;
  storage ← copy_into storage (24 + ciphertext_len) total tag;
  mret (storage, total).

Definition wrap_aead (key plain header storage : bytes) (ssrc seq timestamp random_padding : Z) (d : Draws)
    : result string (bytes * Z) :=
  let padding := random_padding + 1 in
  total ← try_ "RTP AEAD length overflow"%string
    (match checked_add 24 (len plain) with
     | Some v => match checked_add v 16 with Some v => checked_add v padding | None => None end
     | None => None end);
  if len storage <? total then Err "RTP AEAD output exceeds packet capacity"%string else
  storage ← copy_into storage 0 24 header;
  storage ← copy_into storage 24 (24 + len plain) plain;
  part ← slice storage 24 (24 + len plain);
  sealed ← try_ "encryption failed (ChaCha20-Poly1305)"%string
             (chacha_seal key (nonce ssrc seq timestamp) header part);
  storage ← copy_into storage 24 (24 + len plain) sealed.1;
  let tag_start := 24 + len plain in
  storage ← copy_into storage tag_start (tag_start + 16) sealed.2;
  let padding_start := tag_start + 16 in
  storage ← (if negb (random_padding =? 0)
    then copy_into storage padding_start (padding_start + random_padding) (dr_fill d) else mret storage);
  storage ← set_at storage (total - 1) (u8_of padding);
  mret (storage, total).

(** The session's key, mode and output state; the counters advance whether or
    not the packet fits. *)
Definition wrap_legacy_into (key : bytes) (is_srtp : bool) (o : OutState) (plain : bytes) (output : ServerBuf)
    (batch_now : Z) (d : Draws) : result string (ServerBuf * Z) * OutState :=
  let seq := u16_of (out_initial_seq o + u16_of (out_count o)) in
  let '(timestamp, abs_send_time) := OutState_clocks o batch_now in
  let transport_seq := out_transport_seq o in
  let payload_type := out_payload_type o in
  let header := rtp_header 0xb0 payload_type (dr_marker d) seq timestamp (out_ssrc o) abs_send_time transport_seq in
  (wrapped ← (if is_srtp
     then wrap_srtp key plain header (sb_storage output) (out_ssrc o) seq timestamp (dr_padding d) d
     else wrap_aead key plain header (sb_storage output) (out_ssrc o) seq timestamp (dr_padding d) d);
   let '(storage, total) := wrapped in
   match ServerBuf_set_len (mkServerBuf storage (sb_len output)) total with
   | (true, output) => mret (output, total)
   | (false, _) => Err "output length rejected"%string
   end,
   mkOutState (out_ssrc o) (out_initial_seq o) (out_initial_ts o) (out_initial_abs_send_time o) (out_started o)
     (u64_of (out_count o + 1)) payload_type (u16_of (transport_seq + 1))).

End Ciphers.

(** ** Keystreams *)

Lemma len_xor_bytes l k : len k = len l -> len (xor_bytes l k) = len l.
Proof. unfold len, xor_bytes. intros. rewrite length_zip_with. lia. Qed.

Lemma xor_bytes_twice l k : len k = len l -> xor_bytes (xor_bytes l k) k = l.
Proof.
  unfold len, xor_bytes. revert k; induction l as [|x l IH]; intros [|y k] Hl; cbn in *; try lia; [done|].
  rewrite Z.lxor_assoc, Z.lxor_nilpotent, Z.lxor_0_r. f_equal. apply IH. lia.
Qed.

Lemma wf_xor_bytes l k : wf_bytes l -> wf_bytes k -> wf_bytes (xor_bytes l k).
Proof.
  intros Hl Hk. revert k Hk. induction Hl as [|x l Hx Hl IH]; intros [|y k] Hk; constructor.
  - inversion Hk; subst. by apply (lxor_bound 8).
  - apply IH. by inversion Hk.
Qed.

(** ** The wire format *)

Section Wire.
Context `{C : Crypto} `{!CryptoLaws C}.

Definition srtp_body (key header iv plain fill : bytes) : bytes :=
  header ++ xor_bytes plain (aes_ctr (make_aes_key key) iv (len plain)) ++ fill ++ [u8_of (len fill + 1)].
Definition srtp_tag (key body : bytes) : bytes := sub (hmac_sha1 (make_hmac_key key) body) 0 10.
Definition srtp_wire (key header iv plain fill : bytes) : bytes :=
  let body := srtp_body key header iv plain fill in body ++ srtp_tag key body.
Definition aead_wire (header cipher tag fill : bytes) : bytes :=
  header ++ cipher ++ tag ++ fill ++ [u8_of (len fill + 1)].

Lemma len_aes_ctr_self key iv (l : bytes) : len (aes_ctr key iv (len l)) = len l.
Proof. apply aes_ctr_len, len_nonneg. Qed.
Lemma len_srtp_tag key body : len (srtp_tag key body) = 10.
Proof. unfold srtp_tag. rewrite len_sub; rewrite ?hmac_sha1_len; lia. Qed.
Lemma hmac_slice {E} key body : @slice E _ (hmac_sha1 (make_hmac_key key) body) 0 10 = Ok (srtp_tag key body).
Proof. apply slice_ok; rewrite ?hmac_sha1_len; lia. Qed.

Lemma len_rtp_header b0 pt mk seq ts ssrc ab tr : len (rtp_header b0 pt mk seq ts ssrc ab tr) = 24.
Proof. unfold rtp_header. lens. Qed.

Lemma keystream_eq {E} key iv (l pre mid post : bytes) i j :
  l = pre ++ mid ++ post -> i = len pre -> j = len pre + len mid ->
  @apply_keystream E C key iv l i j = Ok (pre ++ xor_bytes mid (aes_ctr key iv (len mid)) ++ post).
Proof.
  intros Hl Hi Hj. unfold apply_keystream. rewrite (slice_eq l pre mid post) by done. cbn.
  by rewrite (copy_into_eq l pre mid post) by (rewrite ?len_xor_bytes by apply len_aes_ctr_self; done).
Qed.

(** The padding of one packet: its fill and its last byte. *)
Definition draws_ok (padding_max : Z) (d : Draws) : Prop :=
  0 <= dr_padding d < padding_max /\ len (dr_fill d) = dr_padding d /\ padding_max <= 60.

(** The writes both senders make into the tail of the storage. *)
Lemma write_fill {E} (l pre mid post : bytes) d i j :
  l = pre ++ mid ++ post -> len mid = dr_padding d -> len (dr_fill d) = dr_padding d ->
  i = len pre -> j = len pre + dr_padding d ->
  (if negb (dr_padding d =? 0) then @copy_into E _ l i j (dr_fill d) else mret l)
    = Ok (pre ++ dr_fill d ++ post).
Proof.
  intros Hl Hm Hf Hi Hj. destruct (dr_padding d =? 0) eqn:E0; cbn [negb]; bool_prop.
  - assert (mid = []) as -> by (destruct mid; [done|rewrite len_cons in Hm; pose proof (len_nonneg mid); lia]).
    assert (dr_fill d = []) as -> by (destruct (dr_fill d) as [|x l']; [done|rewrite len_cons in Hf; pose proof (len_nonneg l'); lia]).
    by rewrite Hl.
  - apply (copy_into_eq l pre mid post); lia || done.
Qed.

Lemma wrap_srtp_wire key plain header storage ssrc seq ts d pm :
  draws_ok pm d -> len header = 24 -> len storage = PACKET_CAPACITY -> 24 + len plain + (dr_padding d + 1) + 10 <= PACKET_CAPACITY ->
  exists post total, wrap_srtp key plain header storage ssrc seq ts (dr_padding d) d
    = Ok (srtp_wire key header (build_srtp_iv ssrc seq ts) plain (dr_fill d) ++ post, total)
    /\ total = len (srtp_wire key header (build_srtp_iv ssrc seq ts) plain (dr_fill d))
    /\ total + len post = PACKET_CAPACITY.
Proof.
  intros (Hp & Hf & Hpm) Hh Hs Hfit. unfold PACKET_CAPACITY in *. pose proof (len_nonneg plain).
  destruct (split_len storage 24 ltac:(lia)) as (G & s1 & -> & HG & Hs1).
  destruct (split_len s1 (len plain) ltac:(lia)) as (P & s2 & -> & HP & Hs2).
  destruct (split_len s2 (dr_padding d) ltac:(lia)) as (F & s3 & -> & HF & Hs3).
  destruct (split_len s3 1 ltac:(lia)) as (X & s4 & -> & HX & Hs4).
  destruct (split_len s4 10 ltac:(lia)) as (T & B & -> & HT & HB).
  unfold wrap_srtp, checked_add, USIZE_MAX.
  replace (len plain + (dr_padding d + 1) <=? 2 ^ 64 - 1) with true by lia. cbn [try_ mbind result_bind].
  replace (24 + (len plain + (dr_padding d + 1)) <=? 2 ^ 64 - 1) with true by lia.
  replace (24 + (len plain + (dr_padding d + 1)) + 10 <=? 2 ^ 64 - 1) with true by lia. cbn [try_ mbind result_bind].
  replace (len (G ++ _) <? _) with false by (lens; lia).
  rewrite (copy_into_eq _ [] G (P ++ F ++ X ++ T ++ B)) by (pieces || lens). cbn [mbind result_bind].
  rewrite (copy_into_eq _ header P (F ++ X ++ T ++ B)) by (pieces || lens). cbn [mbind result_bind].
  rewrite (keystream_eq _ _ _ header plain (F ++ X ++ T ++ B)) by (pieces || lens). cbn [mbind result_bind].
  set (ct := xor_bytes _ _).
  assert (Hct : len ct = len plain) by (apply len_xor_bytes, len_aes_ctr_self).
  rewrite (write_fill _ (header ++ ct) F (X ++ T ++ B)) by (pieces || lens). cbn [mbind result_bind].
  unfold set_at. rewrite (copy_into_eq _ (header ++ ct ++ dr_fill d) X (T ++ B)) by (pieces || lens). cbn [mbind result_bind].
  rewrite (slice_eq _ [] (header ++ ct ++ dr_fill d ++ [u8_of (dr_padding d + 1)]) (T ++ B)) by (pieces || lens).
  cbn [mbind result_bind]. rewrite hmac_slice. cbn [mbind result_bind].
  rewrite (copy_into_eq _ (header ++ ct ++ dr_fill d ++ [u8_of (dr_padding d + 1)]) T B)
    by (pieces || (rewrite ?len_srtp_tag; lens)).
  cbn [mbind result_bind mret result_ret]. exists B, (24 + (len plain + (dr_padding d + 1)) + 10).
  unfold srtp_wire, srtp_body. fold ct. rewrite Hf. split_and!; [by rewrite <- !app_assoc| |lia].
  rewrite !len_app, len_srtp_tag. lens.
Qed.

Lemma wrap_aead_wire key plain header storage ssrc seq ts d pm :
  draws_ok pm d -> len header = 24 -> len storage = PACKET_CAPACITY -> 24 + len plain + 16 + (dr_padding d + 1) <= PACKET_CAPACITY ->
  exists cipher tag post total, chacha_seal key (nonce ssrc seq ts) header plain = Some (cipher, tag)
    /\ wrap_aead key plain header storage ssrc seq ts (dr_padding d) d
       = Ok (aead_wire header cipher tag (dr_fill d) ++ post, total)
    /\ total = len (aead_wire header cipher tag (dr_fill d)) /\ total + len post = PACKET_CAPACITY.
Proof.
  intros (Hp & Hf & Hpm) Hh Hs Hfit. unfold PACKET_CAPACITY in *. pose proof (len_nonneg plain).
  destruct (chacha_seal_total key (nonce ssrc seq ts) header plain ltac:(lia)) as [[ct tag] Hseal].
  destruct (chacha_seal_len _ _ _ _ _ _ Hseal) as [Hct Htag].
  destruct (split_len storage 24 ltac:(lia)) as (G & s1 & -> & HG & Hs1).
  destruct (split_len s1 (len plain) ltac:(lia)) as (P & s2 & -> & HP & Hs2).
  destruct (split_len s2 16 ltac:(lia)) as (T & s3 & -> & HT & Hs3).
  destruct (split_len s3 (dr_padding d) ltac:(lia)) as (F & s4 & -> & HF & Hs4).
  destruct (split_len s4 1 ltac:(lia)) as (X & B & -> & HX & HB).
  exists ct, tag, B, (24 + len plain + 16 + (dr_padding d + 1)). split; [done|].
  unfold wrap_aead, checked_add, USIZE_MAX.
  replace (24 + len plain <=? 2 ^ 64 - 1) with true by lia.
  replace (24 + len plain + 16 <=? 2 ^ 64 - 1) with true by lia.
  replace (24 + len plain + 16 + (dr_padding d + 1) <=? 2 ^ 64 - 1) with true by lia. cbn [try_ mbind result_bind].
  replace (len (G ++ _) <? _) with false by (lens; lia).
  rewrite (copy_into_eq _ [] G (P ++ T ++ F ++ X ++ B)) by (pieces || lens). cbn [mbind result_bind].
  rewrite (copy_into_eq _ header P (T ++ F ++ X ++ B)) by (pieces || lens). cbn [mbind result_bind].
  rewrite (slice_eq _ header plain (T ++ F ++ X ++ B)) by (pieces || lens). cbn [mbind result_bind].
  rewrite Hseal. cbn [try_ mbind result_bind fst snd].
  rewrite (copy_into_eq _ header plain (T ++ F ++ X ++ B)) by (pieces || lens). cbn [mbind result_bind].
  rewrite (copy_into_eq _ (header ++ ct) T (F ++ X ++ B)) by (pieces || lens). cbn [mbind result_bind].
  rewrite (write_fill _ (header ++ ct ++ tag) F (X ++ B)) by (pieces || lens). cbn [mbind result_bind].
  unfold set_at. rewrite (copy_into_eq _ (header ++ ct ++ tag ++ dr_fill d) X B) by (pieces || lens).
  cbn [mbind result_bind mret result_ret]. unfold aead_wire. rewrite Hf.
  split_and!; [by rewrite <- !app_assoc|lens|lia].
Qed.

(** ** Reading the header back *)

Definition rtp_type (pt : Z) : Prop := pt = 111 \/ pt = 96 \/ pt = 6.

Lemma rtp_type_supported pt : rtp_type pt -> supported_payload_type pt = true /\ is_u8 pt.
Proof. intros [->|[->| ->]]; split; done. Qed.

Lemma header_type_byte pt mk :
  rtp_type pt ->
  Z.land (if (pt =? 96) && (mk =? 0) then Z.lor (Z.land pt 0x7f) 0x80 else Z.land pt 0x7f) 0x7f = pt.
Proof. intros [->|[->| ->]]; cbn [Z.eqb]; destruct (mk =? 0); reflexivity. Qed.

(** The fields of a packet that starts with a header the two ends write. *)
Record header_fields {E} (wire : bytes) (pt seq ts ssrc : Z) : Prop := {
  hf_len : 24 <= len wire;
  hf_b0 : @at_ E _ wire 0 = Ok 0xb0;
  hf_b1 : exists b1, @at_ E _ wire 1 = Ok b1 /\ Z.land b1 0x7f = pt;
  hf_seq : @slice E _ wire 2 4 = Ok (be_bytes 2 seq);
  hf_ts : @slice E _ wire 4 8 = Ok (be_bytes 4 ts);
  hf_ssrc : @slice E _ wire 8 12 = Ok (be_bytes 4 ssrc);
  hf_words : @slice E _ wire 14 16 = Ok (be_bytes 2 2);
}.

Lemma rtp_header_fields {E} pt mk seq ts ssrc ab tr rest :
  rtp_type pt -> @header_fields E (rtp_header 0xb0 pt mk seq ts ssrc ab tr ++ rest) pt seq ts ssrc.
Proof.
  intros Hpt. pose proof (len_nonneg rest) as Hr. unfold rtp_header. cbv zeta.
  set (b1 := if _ && _ then _ else _).
  split.
  - lens.
  - reflexivity.
  - exists b1. split; [reflexivity|]. by apply header_type_byte.
  - apply (slice_eq _ [0xb0; b1] _ (be_bytes 4 ts ++ be_bytes 4 ssrc ++ [0xbe; 0xde] ++ be_bytes 2 2
      ++ [0x32] ++ be_bytes 3 ab ++ [0x51] ++ be_bytes 2 tr ++ [0] ++ rest)); [pieces|lens..].
  - apply (slice_eq _ ([0xb0; b1] ++ be_bytes 2 seq) _ (be_bytes 4 ssrc ++ [0xbe; 0xde] ++ be_bytes 2 2
      ++ [0x32] ++ be_bytes 3 ab ++ [0x51] ++ be_bytes 2 tr ++ [0] ++ rest)); [pieces|lens..].
  - apply (slice_eq _ ([0xb0; b1] ++ be_bytes 2 seq ++ be_bytes 4 ts) _ ([0xbe; 0xde] ++ be_bytes 2 2
      ++ [0x32] ++ be_bytes 3 ab ++ [0x51] ++ be_bytes 2 tr ++ [0] ++ rest)); [pieces|lens..].
  - apply (slice_eq _ ([0xb0; b1] ++ be_bytes 2 seq ++ be_bytes 4 ts ++ be_bytes 4 ssrc ++ [0xbe; 0xde]) _
      ([0x32] ++ be_bytes 3 ab ++ [0x51] ++ be_bytes 2 tr ++ [0] ++ rest)); [pieces|lens..].
Qed.

Lemma rtp_header_len_24 wire pt seq ts ssrc : @header_fields string wire pt seq ts ssrc -> rtp_header_len wire = Ok 24.
Proof.
  intros [Hl H0 _ _ _ _ Hw]. unfold rtp_header_len. replace (len wire <? 13) with false by lia.
  rewrite H0. cbn [mbind result_bind]. change (Z.shiftr 0xb0 6 =? 2) with true. cbn [negb].
  change (Z.land 0xb0 0x10 =? 0) with false. cbn [negb].
  replace (len wire <? 16) with false by lia. rewrite Hw. cbn [mbind result_bind try_].
  change (checked_add 12 (4 + be_val (be_bytes 2 2) * 4)) with (Some 24). cbn [try_ mbind result_bind].
  by replace (len wire <? 24) with false by lia.
Qed.

Lemma padding_byte n : 0 <= n < 60 -> u8_of (n + 1) = n + 1.
Proof. intros. apply Z.mod_small. lia. Qed.

(** No DTLS record at the front: the payload is not cut. *)
Definition not_dtls (plain : bytes) : Prop :=
  len plain < 13 \/ exists b rest, plain = b :: rest /\ in_20_23 b = false.

Lemma unwrap_srtp_wire key header plain fill pt seq ts ssrc :
  len header = 24 -> len fill < 60 -> not_dtls plain ->
  exists wire', unwrap_srtp key (srtp_wire key header (build_srtp_iv ssrc seq ts) plain fill) 24 0xb0 seq ts ssrc pt
    = Ok (wire', mkDecodedPacket 24 (24 + len plain) seq pt true)
    /\ sub wire' 24 (24 + len plain) = plain.
Proof.
  intros Hh Hf Hd. unfold unwrap_srtp, srtp_wire, srtp_body.
  set (ks := aes_ctr (make_aes_key key) (build_srtp_iv ssrc seq ts) (len plain)). set (ct := xor_bytes plain ks).
  assert (Hks : len ks = len plain) by apply len_aes_ctr_self.
  assert (Hct : len ct = len plain) by (by apply len_xor_bytes).
  set (tag := srtp_tag key _). assert (Htag : len tag = 10) by apply len_srtp_tag.
  pose proof (len_nonneg plain). pose proof (len_nonneg fill). rewrite !padding_byte by lia.
  set (w := (header ++ ct ++ fill ++ [len fill + 1]) ++ tag).
  assert (Hw : len w = 24 + len plain + len fill + 1 + 10) by (unfold w; lens).
  change (negb (Z.land 0xb0 0x20 =? 0)) with true. cbv iota.
  rewrite (at_eq w (header ++ ct ++ fill) tag (len fill + 1)) by (unfold w; (pieces || lens)).
  cbn [mbind result_bind]. unfold sat_sub.
  replace ((len fill + 1 =? 0) || (Z.max 0 (len w - 10 - 24) <? len fill + 1)) with false by lia.
  cbn [mbind result_bind mret result_ret].
  replace (len w - 10 - (len fill + 1)) with (24 + len plain) by lia.
  replace (24 + len plain <? 24) with false by lia.
  rewrite (keystream_eq _ _ w header ct (fill ++ [len fill + 1] ++ tag)) by (unfold w; (pieces || lens)).
  cbn [mbind result_bind]. rewrite Hct. fold ks. unfold ct. rewrite xor_bytes_twice by done.
  set (w' := header ++ plain ++ fill ++ [len fill + 1] ++ tag).
  replace (Z.max 0 (24 + len plain - 24)) with (len plain) by lia.
  assert (Hdt : (if 13 <=? len plain then b ← @at_ string _ w' 24; mret (in_20_23 b) else mret false) = Ok false).
  { destruct Hd as [Hd|(b & rest & -> & Hb)]; [by replace (13 <=? len plain) with false by lia|].
    destruct (13 <=? _); [|done]. rewrite (at_eq w' header (rest ++ fill ++ [len fill + 1] ++ tag) b) by (unfold w'; (pieces || lens)).
    cbn. by rewrite Hb. }
  rewrite Hdt. cbn [mbind result_bind mret result_ret]. exists w'. split; [done|].
  unfold w'. apply sub_app_mid; lens.
Qed.

Lemma unwrap_aead_wire key header plain cipher tag fill seq ts ssrc :
  len header = 24 -> len fill < 60 -> plain <> [] ->
  chacha_seal key (nonce ssrc seq ts) header plain = Some (cipher, tag) ->
  exists wire', unwrap_aead key (aead_wire header cipher tag fill) 24 0xb0 seq ts ssrc 111
    = Ok (wire', mkDecodedPacket 24 (24 + len plain) seq 111 false)
    /\ sub wire' 24 (24 + len plain) = plain.
Proof.
  intros Hh Hf Hne Hseal. destruct (chacha_seal_len _ _ _ _ _ _ Hseal) as [Hct Htag].
  unfold unwrap_aead, aead_wire. pose proof (len_nonneg fill). rewrite !padding_byte by lia.
  assert (0 < len plain) by (destruct plain; [done|rewrite len_cons; pose proof (len_nonneg plain); lia]).
  set (w := header ++ cipher ++ tag ++ fill ++ [len fill + 1]).
  assert (Hw : len w = 24 + len plain + 16 + len fill + 1) by (unfold w; lens).
  change (negb (Z.land 0xb0 0x20 =? 0)) with true. cbv iota.
  rewrite (at_eq w (header ++ cipher ++ tag ++ fill) [] (len fill + 1)) by (unfold w; (pieces || lens)).
  cbn [mbind result_bind]. unfold sat_sub.
  replace ((len fill + 1 =? 0) || (Z.max 0 (len w - 24) <? len fill + 1)) with false by lia.
  cbn [mbind result_bind mret result_ret].
  replace (len w - (len fill + 1)) with (24 + len plain + 16) by lia.
  replace (24 + len plain + 16 <=? 24 + 16) with false by lia. cbn [Z.eqb]. cbn [negb].
  change (negb (111 =? 111)) with false. cbv iota.
  replace (24 + len plain + 16 - 16) with (24 + len plain) by lia.
  rewrite (slice_eq w (header ++ cipher) tag (fill ++ [len fill + 1]) (24 + len plain) (24 + len plain + 16)) by (unfold w; (pieces || lens)). cbn [mbind result_bind].
  rewrite (slice_eq w [] header (cipher ++ tag ++ fill ++ [len fill + 1]) 0 24) by (unfold w; (pieces || lens)). cbn [mbind result_bind].
  rewrite (slice_eq w header cipher (tag ++ fill ++ [len fill + 1])) by (unfold w; (pieces || lens)). cbn [mbind result_bind].
  rewrite (chacha_open_seal _ _ _ _ _ _ Hseal). cbn [try_ mbind result_bind].
  rewrite (copy_into_eq w header cipher (tag ++ fill ++ [len fill + 1])) by (unfold w; (pieces || lens)). cbn [mbind result_bind].
  eexists. split; [reflexivity|]. apply sub_app_mid; lens.
Qed.

(** *** The server reads both formats *)

(** [expected_srtp] as the server calls it for a packet of this kind: unknown,
    or the kind of the session. *)
Definition mode_known (e : option bool) (srtp : bool) : Prop := e = None \/ e = Some srtp.

Lemma be_fields pt seq ts ssrc :
  is_u16 seq -> is_u32 ts -> is_u32 ssrc -> rtp_type pt ->
  be_val (be_bytes 2 seq) = seq /\ be_val (be_bytes 4 ts) = ts /\ be_val (be_bytes 4 ssrc) = ssrc
  /\ supported_payload_type pt = true.
Proof.
  intros. split_and!; try (apply be_val_be_bytes_id; assumption). by apply rtp_type_supported.
Qed.

Lemma server_reads_srtp key e pt mk seq ts ssrc ab tr plain fill :
  rtp_type pt -> is_u16 seq -> is_u32 ts -> is_u32 ssrc -> len fill < 60 -> not_dtls plain ->
  mode_known e true ->
  exists wire', unwrap_legacy_in_place key
      (srtp_wire key (rtp_header 0xb0 pt mk seq ts ssrc ab tr) (build_srtp_iv ssrc seq ts) plain fill) e
    = Ok (wire', mkDecodedPacket 24 (24 + len plain) seq pt true)
    /\ sub wire' 24 (24 + len plain) = plain.
Proof.
  intros Hpt Hs Ht Hr Hf Hd He. set (h := rtp_header _ _ _ _ _ _ _ _).
  assert (Hh : len h = 24) by apply len_rtp_header.
  destruct (unwrap_srtp_wire key h plain fill pt seq ts ssrc Hh Hf Hd) as (w' & Hu & Hsub).
  exists w'. split; [|exact Hsub]. rewrite <- Hu. clear Hu Hsub w'.
  set (w := srtp_wire _ _ _ _ _).
  assert (Hfields : @header_fields string w pt seq ts ssrc)
    by (unfold w, srtp_wire, srtp_body; rewrite <- !app_assoc; by apply rtp_header_fields).
  assert (Hw : 34 <= len w).
  { unfold w, srtp_wire, srtp_body. rewrite !len_app, len_srtp_tag, Hh.
    pose proof (len_nonneg (xor_bytes plain (aes_ctr (make_aes_key key) (build_srtp_iv ssrc seq ts) (len plain)))).
    pose proof (len_nonneg fill). lens. }
  unfold unwrap_legacy_in_place. rewrite (rtp_header_len_24 w pt seq ts ssrc Hfields). cbn [mbind result_bind].
  destruct Hfields as [_ H0 (b1 & H1 & Hb1) H2 H4 H8 _]. rewrite H1. cbn [mbind result_bind]. rewrite Hb1.
  destruct (be_fields pt seq ts ssrc Hs Ht Hr Hpt) as (E1 & E2 & E3 & E4). rewrite E4. cbn [negb].
  rewrite H2, H4, H8, H0. cbn [mbind result_bind]. rewrite E1, E2, E3.
  replace (negb (bool_decide (e = Some false))) with true by (destruct He as [->| ->]; done).
  replace (24 + 10 <=? len w) with true by lia. cbn [andb].
  set (body := srtp_body key h (build_srtp_iv ssrc seq ts) plain fill).
  assert (Hwb : w = body ++ srtp_tag key body) by done.
  assert (Hlb : len w - 10 = len body) by (rewrite Hwb, len_app, len_srtp_tag; lia).
  rewrite Hlb. rewrite (slice_eq w [] body (srtp_tag key body) 0 (len body)) by (done || lens). cbn [mbind result_bind].
  rewrite hmac_slice. cbn [mbind result_bind]. unfold slice_from.
  rewrite (slice_eq w body (srtp_tag key body) [] (len body) (len w))
    by (rewrite ?app_nil_r, ?len_srtp_tag; done || lia).
  cbn [mbind result_bind]. unfold bytes_eqb. by rewrite bool_decide_eq_true_2 by done.
Qed.

(** The truncated HMAC check of a packet, which a sealed packet passes only by
    accident. *)
Definition srtp_tag_matches (key wire : bytes) : bool :=
  bytes_eqb (srtp_tag key (sub wire 0 (len wire - 10))) (sub wire (len wire - 10) (len wire)).

Lemma server_reads_aead key e mk seq ts ssrc ab tr plain fill cipher tag :
  let h := rtp_header 0xb0 111 mk seq ts ssrc ab tr in
  is_u16 seq -> is_u32 ts -> is_u32 ssrc -> len fill < 60 -> plain <> [] ->
  chacha_seal key (nonce ssrc seq ts) h plain = Some (cipher, tag) ->
  mode_known e false -> (e = None -> srtp_tag_matches key (aead_wire h cipher tag fill) = false) ->
  exists wire', unwrap_legacy_in_place key (aead_wire h cipher tag fill) e
    = Ok (wire', mkDecodedPacket 24 (24 + len plain) seq 111 false)
    /\ sub wire' 24 (24 + len plain) = plain.
Proof.
  intros h Hs Ht Hr Hf Hne Hseal He Hnm.
  assert (Hh : len h = 24) by apply len_rtp_header.
  destruct (unwrap_aead_wire key h plain cipher tag fill seq ts ssrc Hh Hf Hne Hseal) as (w' & Hu & Hsub).
  exists w'. split; [|exact Hsub]. rewrite <- Hu. clear Hu Hsub w'. set (w := aead_wire _ _ _ _) in *.
  assert (Hpt : rtp_type 111) by (by left).
  assert (Hfields : @header_fields string w 111 seq ts ssrc) by (by apply rtp_header_fields).
  destruct (chacha_seal_len _ _ _ _ _ _ Hseal) as [Hct Htag].
  assert (Hw : 41 <= len w).
  { unfold w, aead_wire. rewrite !len_app, Hh, Hct, Htag. pose proof (len_nonneg fill). pose proof (len_nonneg plain). lens. }
  unfold unwrap_legacy_in_place. rewrite (rtp_header_len_24 w 111 seq ts ssrc Hfields). cbn [mbind result_bind].
  destruct Hfields as [_ H0 (b1 & H1 & Hb1) H2 H4 H8 _]. rewrite H1. cbn [mbind result_bind]. rewrite Hb1.
  destruct (be_fields 111 seq ts ssrc Hs Ht Hr Hpt) as (E1 & E2 & E3 & E4). rewrite E4. cbn [negb].
  rewrite H2, H4, H8, H0. cbn [mbind result_bind]. rewrite E1, E2, E3.
  destruct He as [->| ->].
  - rewrite bool_decide_eq_false_2 by done. replace (24 + 10 <=? len w) with true by lia. cbn [negb andb].
    rewrite slice_ok by lia. cbn [mbind result_bind]. rewrite hmac_slice. cbn [mbind result_bind].
    unfold slice_from. rewrite slice_ok by lia. cbn [mbind result_bind].
    specialize (Hnm eq_refl). unfold srtp_tag_matches in Hnm. rewrite Hnm. by rewrite bool_decide_eq_false_2 by done.
  - rewrite bool_decide_eq_true_2 by done. cbn [negb andb]. by rewrite bool_decide_eq_false_2 by done.
Qed.

(** *** The client reads both formats *)

(** A well-formed buffer in the middle of its storage. *)
Definition buf_around (A w B : bytes) : ClientBuf := mkClientBuf (A ++ w ++ B) (len A) (len A + len w).

Lemma client_unwrap_header key A w B mode pt seq ts ssrc :
  @header_fields string w pt seq ts ssrc -> rtp_type pt -> is_u16 seq -> is_u32 ts -> is_u32 ssrc ->
  ObfsCipher_unwrap key (buf_around A w B) mode =
    if decide (mode = Video) then ObfsCipher_unwrap_video key (buf_around A w B) 0xb0 24 ssrc seq ts
    else ObfsCipher_unwrap_audio key (buf_around A w B) 0xb0 pt 24 ssrc seq ts.
Proof.
  intros [Hl F0 (b1 & F1 & Hb1) F2 F4 F8 F14] Hpt Hs Ht Hr.
  unfold ObfsCipher_unwrap, ClientBuf_as_slice. cbn [buf_around cb_storage cb_start cb_end].
  rewrite (slice_eq (A ++ w ++ B) A w B (len A) (len A + len w)) by done. cbn [mbind result_bind].
  replace (len w <? 13) with false by lia. rewrite F0, F1. cbn [mbind result_bind]. rewrite Hb1.
  change (negb (Z.shiftr 0xb0 6 =? 2)) with false. cbv iota.
  destruct (be_fields pt seq ts ssrc Hs Ht Hr Hpt) as (E1 & E2 & E3 & E4). rewrite E4. cbn [negb].
  rewrite F2, F4, F8. cbn [mbind result_bind]. rewrite E1, E2, E3.
  change (Z.land 0xb0 0x10 =? 0) with false. cbn [negb].
  replace (len w <? 16) with false by lia. rewrite F14. cbn [mbind result_bind].
  change (12 + (4 + be_val (be_bytes 2 2) * 4)) with 24.
  cbn [mbind result_bind mret result_ret]. by replace (len w <? 24) with false by lia.
Qed.

Lemma client_reads_srtp key A B pt mk seq ts ssrc ab tr plain fill :
  let w := srtp_wire key (rtp_header 0xb0 pt mk seq ts ssrc ab tr) (build_srtp_iv ssrc seq ts) plain fill in
  rtp_type pt -> is_u16 seq -> is_u32 ts -> is_u32 ssrc -> len fill < 60 ->
  len A + len w + len B = CLIENT_PACKET_CAPACITY ->
  exists q, ObfsCipher_unwrap key (buf_around A w B) Video = Ok (seq, q) /\ client_buf_wf q /\ window q = plain.
Proof.
  intros w Hpt Hs Ht Hr Hf Hcap. set (h := rtp_header _ _ _ _ _ _ _ _) in w.
  assert (Hh : len h = 24) by apply len_rtp_header. unfold CLIENT_PACKET_CAPACITY in Hcap.
  pose proof (len_nonneg A). pose proof (len_nonneg B). pose proof (len_nonneg plain). pose proof (len_nonneg fill).
  set (ks := aes_ctr (make_aes_key key) (build_srtp_iv ssrc seq ts) (len plain)).
  set (ct := xor_bytes plain ks).
  assert (Hct : len ct = len plain) by (apply len_xor_bytes, len_aes_ctr_self).
  set (body := srtp_body key h (build_srtp_iv ssrc seq ts) plain fill).
  assert (Hbody : body = h ++ ct ++ fill ++ [len fill + 1]) by (unfold body, srtp_body; rewrite padding_byte by lia; done).
  assert (Hlb : len body = 24 + len plain + len fill + 1) by (rewrite Hbody; lens).
  assert (Hwb : w = body ++ srtp_tag key body) by done.
  assert (Hlw : len w = len body + 10) by (rewrite Hwb, len_app, len_srtp_tag; lia).
  rewrite (client_unwrap_header key A w B Video pt seq ts ssrc)
    by (try done; unfold w, srtp_wire, srtp_body; rewrite <- !app_assoc; by apply rtp_header_fields).
  rewrite decide_True by done. unfold ObfsCipher_unwrap_video, ClientBuf_len. cbn [buf_around cb_storage cb_start cb_end].
  replace (len A <? len A + len w) with true by lia. replace (len A + len w - len A <? 24 + 10) with false by lia.
  replace (len A + len w - 10) with (len A + len body) by lia.
  rewrite (slice_eq (A ++ w ++ B) A body (srtp_tag key body ++ B) (len A) (len A + len body))
    by (rewrite ?Hwb, <- ?app_assoc; done). cbn [mbind result_bind].
  rewrite (slice_eq (A ++ w ++ B) (A ++ body) (srtp_tag key body) B (len A + len body) (len A + len w))
    by (rewrite ?Hwb, <- ?app_assoc, ?len_app, ?len_srtp_tag; done || lia). cbn [mbind result_bind].
  rewrite hmac_slice. cbn [mbind result_bind]. unfold bytes_eqb. rewrite bool_decide_eq_true_2 by done. cbn [negb].
  change (negb (Z.land 0xb0 0x20 =? 0)) with true. cbv iota.
  rewrite (at_eq (A ++ w ++ B) (A ++ h ++ ct ++ fill) (srtp_tag key body ++ B) (len fill + 1))
    by (rewrite ?Hwb, ?Hbody; (pieces || lens)). cbn [mbind result_bind].
  replace ((len fill + 1 =? 0) || (len A + len body - len A - 24 <? len fill + 1)) with false by lia.
  cbn [mbind result_bind mret result_ret].
  replace (len A + len body - (len fill + 1)) with (len A + 24 + len plain) by lia.
  rewrite (keystream_eq _ _ (A ++ w ++ B) (A ++ h) ct (fill ++ [len fill + 1] ++ srtp_tag key body ++ B))
    by (rewrite ?Hwb, ?Hbody; (pieces || lens)).
  cbn [mbind result_bind]. rewrite Hct. fold ks. unfold ct. rewrite xor_bytes_twice by apply len_aes_ctr_self.
  unfold ClientBuf_set_range, CLIENT_PACKET_CAPACITY.
  replace ((len A + 24 + len plain <? len A + 24) || (2304 <? len A + 24 + len plain)) with false by lia.
  cbn [anyhow mbind result_bind mret result_ret cb_storage]. eexists. split; [reflexivity|]. split.
  - unfold client_buf_wf. cbn [cb_storage cb_start cb_end]. unfold CLIENT_PACKET_CAPACITY.
    rewrite !len_app, len_srtp_tag, Hh. lens.
  - unfold window. cbn [cb_storage cb_start cb_end]. apply sub_app_mid; lens.
Qed.

Lemma client_reads_aead key A B mk seq ts ssrc ab tr plain fill cipher tag :
  let h := rtp_header 0xb0 111 mk seq ts ssrc ab tr in
  let w := aead_wire h cipher tag fill in
  is_u16 seq -> is_u32 ts -> is_u32 ssrc -> len fill < 60 -> plain <> [] ->
  chacha_seal key (nonce ssrc seq ts) h plain = Some (cipher, tag) ->
  len A + len w + len B = CLIENT_PACKET_CAPACITY ->
  exists q, ObfsCipher_unwrap key (buf_around A w B) Audio = Ok (seq, q) /\ client_buf_wf q /\ window q = plain.
Proof.
  intros h w Hs Ht Hr Hf Hne Hseal Hcap.
  assert (Hh : len h = 24) by apply len_rtp_header. unfold CLIENT_PACKET_CAPACITY in Hcap.
  destruct (chacha_seal_len _ _ _ _ _ _ Hseal) as [Hct Htag].
  assert (0 < len plain) by (destruct plain; [done|rewrite len_cons; pose proof (len_nonneg plain); lia]).
  pose proof (len_nonneg A). pose proof (len_nonneg B). pose proof (len_nonneg fill).
  assert (Hw : w = h ++ cipher ++ tag ++ fill ++ [len fill + 1]) by (unfold w, aead_wire; by rewrite padding_byte by lia).
  assert (Hlw : len w = 24 + len plain + 16 + len fill + 1) by (rewrite Hw; lens).
  rewrite (client_unwrap_header key A w B Audio 111 seq ts ssrc) by (try done; by (apply rtp_header_fields; left) || by left).
  rewrite decide_False by done. unfold ObfsCipher_unwrap_audio. cbn [buf_around cb_storage cb_start cb_end].
  change (negb (111 =? 111)) with false. change (negb (Z.land 0xb0 0x20 =? 0)) with true. cbv iota.
  rewrite (at_eq (A ++ w ++ B) (A ++ h ++ cipher ++ tag ++ fill) B (len fill + 1)) by (rewrite ?Hw; (pieces || lens)).
  cbn [mbind result_bind].
  replace ((len fill + 1 =? 0) || (len A + len w - len A - 24 <? len fill + 1)) with false by lia.
  cbn [mbind result_bind mret result_ret].
  replace (len A + len w - (len fill + 1)) with (len A + 24 + len plain + 16) by lia.
  replace (len A + 24 + len plain + 16 <=? len A + 24 + 16) with false by lia.
  replace (len A + 24 + len plain + 16 - 16) with (len A + 24 + len plain) by lia.
  rewrite (slice_eq (A ++ w ++ B) (A ++ h ++ cipher) tag (fill ++ [len fill + 1] ++ B) (len A + 24 + len plain)
    (len A + 24 + len plain + 16)) by (rewrite ?Hw; (pieces || lens)). cbn [mbind result_bind].
  rewrite (slice_eq (A ++ w ++ B) A h (cipher ++ tag ++ fill ++ [len fill + 1] ++ B) (len A) (len A + 24))
    by (rewrite ?Hw; (pieces || lens)). cbn [mbind result_bind].
  rewrite (slice_eq (A ++ w ++ B) (A ++ h) cipher (tag ++ fill ++ [len fill + 1] ++ B) (len A + 24) (len A + 24 + len plain))
    by (rewrite ?Hw; (pieces || lens)). cbn [mbind result_bind].
  rewrite (chacha_open_seal _ _ _ _ _ _ Hseal). cbn [try_ mbind result_bind].
  rewrite (copy_into_eq (A ++ w ++ B) (A ++ h) cipher (tag ++ fill ++ [len fill + 1] ++ B)) by (rewrite ?Hw; (pieces || lens)).
  cbn [mbind result_bind]. unfold ClientBuf_set_range, CLIENT_PACKET_CAPACITY.
  replace ((len A + 24 + len plain <? len A + 24) || (2304 <? len A + 24 + len plain)) with false by lia.
  cbn [anyhow mbind result_bind mret result_ret cb_storage]. eexists. split; [reflexivity|]. split.
  - unfold client_buf_wf. cbn [cb_storage cb_start cb_end]. unfold CLIENT_PACKET_CAPACITY. lens.
  - unfold window. cbn [cb_storage cb_start cb_end]. apply sub_app_mid; lens.
Qed.

(** *** What the client sends *)

Definition mode_type (mode : ObfsMode) : Z := match mode with Audio => 111 | Video => 96 end.
Definition mode_padding (mode : ObfsMode) : Z := match mode with Audio => 24 | Video => 60 end.

Lemma config_fields mode ssrc :
  ObfsConfig_new mode ssrc = mkObfsConfig (mode_padding mode) ssrc (mode_type mode) mode.
Proof. by destruct mode. Qed.

(** The numbers of the next packet. *)
Definition wrap_seq (s : ObfsState) : Z := u16_of (os_initial_sequence s + u16_of (os_count s)).
Definition wrap_ts (s : ObfsState) (pt now : Z) : Z :=
  u32_of (os_initial_timestamp s + duration_ticks (sat_sub now (os_started s)) (rtp_clock_rate pt)).
Definition wrap_abs (s : ObfsState) (now : Z) : Z :=
  Z.land (u32_of (os_initial_abs_send_time s + duration_ticks (sat_sub now (os_started s)) 262144)) 0xffffff.
Definition wrap_header (mode : ObfsMode) (ssrc : Z) (s : ObfsState) (now : Z) (d : Draws) : bytes :=
  rtp_header 0xb0 (mode_type mode) (dr_marker d) (wrap_seq s) (wrap_ts s (mode_type mode) now) ssrc (wrap_abs s now)
    (os_transport_sequence s).

(** The wire packets of a payload in each mode. *)
Definition is_wire (key : bytes) (mode : ObfsMode) (h : bytes) (ssrc seq ts : Z) (plain fill w : bytes) : Prop :=
  match mode with
  | Video => w = srtp_wire key h (build_srtp_iv ssrc seq ts) plain fill
  | Audio => exists cipher tag, chacha_seal key (nonce ssrc seq ts) h plain = Some (cipher, tag)
                                /\ w = aead_wire h cipher tag fill
  end.

(** The writers agree on an empty fill. *)
Lemma client_fill {E} (l : bytes) i j d :
  0 <= dr_padding d ->
  (if 0 <? dr_padding d then @copy_into E _ l i j (dr_fill d) else mret l)
  = (if negb (dr_padding d =? 0) then copy_into l i j (dr_fill d) else mret l).
Proof. intros. by replace (negb (dr_padding d =? 0)) with (0 <? dr_padding d) by lia. Qed.

Lemma wrap_video_wire key A h P T B d ssrc seq ts :
  let q := dr_padding d in
  len h = 24 -> len (dr_fill d) = q -> 0 <= q -> len T = q + 1 + 10 ->
  len A + 24 + len P + len T + len B = CLIENT_PACKET_CAPACITY ->
  ObfsCipher_wrap_video key (mkClientBuf (A ++ h ++ P ++ T ++ B) (len A) (len A + 24 + len P))
    (ObfsConfig_new Video ssrc) (len A + 24) (len A + 24 + len P) seq ts q d
  = Ok (buf_around A (srtp_wire key h (build_srtp_iv ssrc seq ts) P (dr_fill d)) B).
Proof.
  intros q Hh Hf Hq HT Hcap. unfold q in *. clear q.
  pose proof (len_nonneg A). pose proof (len_nonneg P). pose proof (len_nonneg B).
  destruct (split_len T (dr_padding d) ltac:(lia)) as (F & s1 & -> & HF & Hs1).
  destruct (split_len s1 1 ltac:(lia)) as (X & G & -> & HX & HG).
  assert (HlT : len F + (len X + len G) = dr_padding d + 1 + 10) by lia.
  rewrite !len_app in Hcap. unfold ObfsCipher_wrap_video.
  rewrite extend_tail_ok by (rewrite ?len_app; lia). cbn [anyhow mbind result_bind cb_storage cb_start cb_end ObfsConfig_new oc_ssrc].
  rewrite (keystream_eq _ _ _ (A ++ h) P (F ++ X ++ G ++ B)) by (pieces || lens). cbn [mbind result_bind].
  set (ct := xor_bytes _ _). assert (Hct : len ct = len P) by (apply len_xor_bytes, len_aes_ctr_self).
  rewrite client_fill by done.
  rewrite (write_fill _ (A ++ h ++ ct) F (X ++ G ++ B)) by (pieces || lens). cbn [mbind result_bind].
  unfold set_at. rewrite (copy_into_eq _ (A ++ h ++ ct ++ dr_fill d) X (G ++ B)) by (pieces || lens). cbn [mbind result_bind].
  rewrite (slice_eq _ A (h ++ ct ++ dr_fill d ++ [u8_of (dr_padding d + 1)]) (G ++ B) (len A)
    (len A + 24 + len P + (dr_padding d + 1))) by (pieces || lens). cbn [mbind result_bind].
  rewrite hmac_slice. cbn [mbind result_bind].
  rewrite (copy_into_eq _ (A ++ h ++ ct ++ dr_fill d ++ [u8_of (dr_padding d + 1)]) G B)
    by (pieces || (rewrite ?len_srtp_tag; lens)). cbn [mbind result_bind mret result_ret].
  unfold buf_around, srtp_wire, srtp_body. fold ct. rewrite Hf. rewrite !len_app, len_srtp_tag, Hh, Hf, Hct, len_cons, len_nil.
  f_equal; f_equal; [by rewrite <- !app_assoc|lia].
Qed.

Lemma wrap_audio_wire key A h P T B d ssrc seq ts :
  let q := dr_padding d in
  len h = 24 -> len (dr_fill d) = q -> 0 <= q -> len T = q + 1 + 16 ->
  len A + 24 + len P + len T + len B = CLIENT_PACKET_CAPACITY ->
  exists cipher tag, chacha_seal key (nonce ssrc seq ts) h P = Some (cipher, tag) /\
  ObfsCipher_wrap_audio key (mkClientBuf (A ++ h ++ P ++ T ++ B) (len A) (len A + 24 + len P))
    (ObfsConfig_new Audio ssrc) (len A + 24) (len A + 24 + len P) seq ts q d
  = Ok (buf_around A (aead_wire h cipher tag (dr_fill d)) B).
Proof.
  intros q Hh Hf Hq HT Hcap. unfold q in *. clear q.
  pose proof (len_nonneg A). pose proof (len_nonneg P). pose proof (len_nonneg B).
  destruct (chacha_seal_total key (nonce ssrc seq ts) h P) as [[ct tag] Hseal]; [unfold CLIENT_PACKET_CAPACITY in *; lia|].
  destruct (chacha_seal_len _ _ _ _ _ _ Hseal) as [Hct Htag]. exists ct, tag. split; [done|].
  destruct (split_len T 16 ltac:(lia)) as (G & s1 & -> & HG & Hs1).
  destruct (split_len s1 (dr_padding d) ltac:(lia)) as (F & X & -> & HF & HX).
  assert (HlT : len G + (len F + len X) = dr_padding d + 1 + 16) by lia.
  rewrite !len_app in Hcap. unfold ObfsCipher_wrap_audio.
  rewrite extend_tail_ok by (rewrite ?len_app; lia). cbn [anyhow mbind result_bind cb_storage cb_start cb_end ObfsConfig_new oc_ssrc].
  rewrite (slice_eq _ A h (P ++ (G ++ F ++ X) ++ B) (len A) (len A + 24)) by (pieces || lens). cbn [mbind result_bind].
  rewrite (slice_eq _ (A ++ h) P ((G ++ F ++ X) ++ B) (len A + 24) (len A + 24 + len P)) by (pieces || lens). cbn [mbind result_bind].
  rewrite Hseal. cbn [try_ mbind result_bind fst snd].
  rewrite (copy_into_eq _ (A ++ h) P (G ++ F ++ X ++ B)) by (pieces || lens). cbn [mbind result_bind].
  rewrite (copy_into_eq _ (A ++ h ++ ct) G (F ++ X ++ B)) by (pieces || lens). cbn [mbind result_bind].
  rewrite client_fill by done.
  rewrite (write_fill _ (A ++ h ++ ct ++ tag) F (X ++ B)) by (pieces || lens). cbn [mbind result_bind].
  unfold set_at. rewrite (copy_into_eq _ (A ++ h ++ ct ++ tag ++ dr_fill d) X B) by (pieces || lens).
  cbn [mbind result_bind mret result_ret].
  unfold buf_around, aead_wire. rewrite Hf. rewrite !len_app, Hh, Hf, Hct, Htag, len_cons, len_nil.
  f_equal; f_equal; [by rewrite <- !app_assoc|lia].
Qed.

(** The payload fits with the header in front and the largest tail behind. *)
Definition fits_client (p : ClientBuf) : Prop :=
  client_buf_wf p /\ cb_start p < cb_end p /\ 24 <= cb_start p /\ cb_end p + 76 <= CLIENT_PACKET_CAPACITY.

Lemma client_wrap_wire key mode ssrc p st now d :
  fits_client p -> draws_ok (mode_padding mode) d ->
  exists A w B, ObfsCipher_wrap key p (ObfsConfig_new mode ssrc) st now d = (Ok (buf_around A w B), (ObfsState_next st).2)
    /\ len A + len w + len B = CLIENT_PACKET_CAPACITY
    /\ is_wire key mode (wrap_header mode ssrc st now d) ssrc (wrap_seq st) (wrap_ts st (mode_type mode) now)
         (window p) (dr_fill d) w.
Proof.
  intros ((Hl & Hse & He) & Hne & Hs & Hfit) (Hp & Hf & Hpm). unfold CLIENT_PACKET_CAPACITY in *.
  set (tl := dr_padding d + 1 + (if decide (mode = Video) then 10 else 16)).
  assert (Htl : 0 <= tl <= 76) by (unfold tl; case_decide; lia).
  set (h := wrap_header mode ssrc st now d). assert (Hh : len h = 24) by apply len_rtp_header.
  destruct (split_len (cb_storage p) (cb_start p - 24) ltac:(lia)) as (A & s1 & Es & HA & Hs1).
  destruct (split_len s1 24 ltac:(lia)) as (G & s2 & -> & HG & Hs2).
  destruct (split_len s2 (cb_end p - cb_start p) ltac:(lia)) as (P & s3 & -> & HP & Hs3).
  destruct (split_len s3 tl ltac:(lia)) as (T & B & -> & HT & HB).
  assert (Hwin : window p = P).
  { unfold window. rewrite Es, app_assoc. apply sub_app_mid; rewrite ?len_app; lia. }
  assert (Htail : (if decide (mode = Video) then dr_padding d + 1 + 10 else dr_padding d + 1 + 16) = tl)
    by (unfold tl; case_decide; lia).
  unfold ObfsCipher_wrap. unfold ClientBuf_is_empty, ClientBuf_len. replace (cb_start p <? cb_end p) with true by lia.
  rewrite config_fields. cbn [negb ObfsState_next fst snd oc_padding_max oc_ssrc oc_payload_type oc_mode]. cbv zeta.
  replace (mode_padding mode =? 0) with false by (by destruct mode).
  rewrite Htail. unfold checked_add, USIZE_MAX. replace (cb_end p + tl <=? 2 ^ 64 - 1) with true by lia.
  replace ((cb_start p <? 24) || (CLIENT_PACKET_CAPACITY <? cb_end p + tl)) with false by (unfold CLIENT_PACKET_CAPACITY; lia).
  unfold ClientBuf_prepend. replace (cb_start p <? 24) with false by lia. cbn [cb_storage cb_start cb_end].
  rewrite slice_ok by lia. cbn [anyhow mbind result_bind mret result_ret cb_storage cb_start cb_end].
  rewrite Es. rewrite (copy_into_eq _ A G (P ++ T ++ B)) by (pieces || (rewrite ?len_rtp_header; lia)).
  cbn [mbind result_bind cb_storage cb_start cb_end].
  match goal with |- context [A ++ ?x ++ P ++ T ++ B] => change x with h end.
  replace (cb_start p - 24 + 24 + (cb_end p - cb_start p)) with (len A + 24 + len P) by lia.
  replace (cb_start p - 24 + 24) with (len A + 24) by lia. replace (cb_start p - 24) with (len A) by lia.
  replace (cb_end p) with (len A + 24 + len P) by lia. rewrite Hwin. clearbody h. unfold tl in HT.
  destruct mode.
  - rewrite !decide_False in * by done.
    destruct (wrap_audio_wire key A h P T B d ssrc (wrap_seq st) (wrap_ts st 111 now)) as (ct & tag & Hseal & Hw);
      [done|done|lia|lia|unfold CLIENT_PACKET_CAPACITY; lia|].
    exists A, (aead_wire h ct tag (dr_fill d)), B. split; [|split; [|by exists ct, tag]].
    + f_equal. exact Hw.
    + unfold aead_wire. destruct (chacha_seal_len _ _ _ _ _ _ Hseal). lens.
  - rewrite !decide_True in * by done.
    exists A, (srtp_wire key h (build_srtp_iv ssrc (wrap_seq st) (wrap_ts st 96 now)) P (dr_fill d)), B.
    split; [|split; [|done]].
    + f_equal. apply wrap_video_wire; try done; [lia|unfold CLIENT_PACKET_CAPACITY; lia].
    + unfold srtp_wire, srtp_body. rewrite !len_app, len_srtp_tag, len_xor_bytes by apply len_aes_ctr_self. lens.
Qed.

Lemma is_wire_bounds key mode h ssrc seq ts plain fill w :
  len h = 24 -> is_wire key mode h ssrc seq ts plain fill w -> 24 + len plain + len fill < len w.
Proof.
  intros Hh. pose proof (len_nonneg fill). destruct mode; cbn.
  - intros (c & t & Hseal & ->). destruct (chacha_seal_len _ _ _ _ _ _ Hseal) as [Hc Ht].
    unfold aead_wire. rewrite !len_app, Hh, Hc, Ht. lens.
  - intros ->. unfold srtp_wire, srtp_body.
    rewrite !len_app, len_srtp_tag, len_xor_bytes by apply len_aes_ctr_self. lens.
Qed.

Lemma window_buf_around A w B : window (buf_around A w B) = w.
Proof. unfold window, buf_around. cbn. by apply sub_app_mid. Qed.

(** C15. What the client wraps, the server unwraps to the same bytes and the
    packet's sequence number, in both modes and whether or not the session's
    mode is already known, for a packet whose buffer has room for the headers:
    provided that a video payload does not look like a DTLS record, which the
    server would cut it to, and that an audio packet of unknown mode does not
    carry a valid SRTP tag by accident. *)
Theorem client_to_server key mode ssrc p st now d e :
  fits_client p -> draws_ok (mode_padding mode) d -> is_u32 ssrc ->
  mode_known e (bool_decide (mode = Video)) -> (mode = Video -> not_dtls (window p)) ->
  (mode = Audio -> e = None -> forall q, (ObfsCipher_wrap key p (ObfsConfig_new mode ssrc) st now d).1 = Ok q ->
     srtp_tag_matches key (window q) = false) ->
  exists q wire' dec,
    ObfsCipher_wrap key p (ObfsConfig_new mode ssrc) st now d = (Ok q, (ObfsState_next st).2)
    /\ unwrap_legacy_in_place key (window q) e = Ok (wire', dec)
    /\ sub wire' (dp_start dec) (dp_end dec) = window p
    /\ dp_seq dec = wrap_seq st /\ dp_payload_type dec = mode_type mode
    /\ dp_is_srtp dec = bool_decide (mode = Video).
Proof.
  intros Hfit Hd Hssrc He Hdt Hnm.
  destruct (client_wrap_wire key mode ssrc p st now d Hfit Hd) as (A & w & B & Hwrap & Hcap & Hw).
  exists (buf_around A w B). rewrite window_buf_around.
  destruct Hd as (Hp & Hf & Hpm). assert (Hfl : len (dr_fill d) < 60) by lia.
  destruct mode; cbn [is_wire mode_type] in Hw.
  - destruct Hw as (ct & tag & Hseal & ->).
    destruct (server_reads_aead key e (dr_marker d) (wrap_seq st) (wrap_ts st 111 now) ssrc (wrap_abs st now)
      (os_transport_sequence st) (window p) (dr_fill d) ct tag) as (w' & Hu & Hsub);
      [apply u16_of_range|apply u32_of_range|done|done| |exact Hseal|exact He| |].
    + destruct Hfit as (Hwf & Hne & _). intros Hnil. apply (f_equal len) in Hnil.
      rewrite <- client_window_len, len_nil in Hnil by done. unfold ClientBuf_len in Hnil. split_case_in Hnil; bool_prop; lia.
    + intros Hnone. pose proof (Hnm eq_refl Hnone _ (f_equal fst Hwrap)) as Hx.
      rewrite window_buf_around in Hx. exact Hx.
    + exists w', (mkDecodedPacket 24 (24 + len (window p)) (wrap_seq st) 111 false). by split_and!.
  - subst w.
    destruct (server_reads_srtp key e 96 (dr_marker d) (wrap_seq st) (wrap_ts st 96 now) ssrc (wrap_abs st now)
      (os_transport_sequence st) (window p) (dr_fill d)) as (w' & Hu & Hsub);
      [right; by left|apply u16_of_range|apply u32_of_range|done|done|by apply Hdt|exact He|].
    exists w', (mkDecodedPacket 24 (24 + len (window p)) (wrap_seq st) 96 true). by split_and!.
Qed.

(** The server's numbers for the next packet. *)
Definition out_seq (o : OutState) : Z := u16_of (out_initial_seq o + u16_of (out_count o)).
Definition out_padding (is_srtp : bool) (pt : Z) : Z :=
  if is_srtp then (if pt =? 96 then 60 else 24) else (if pt =? 111 then 24 else 60).

(** C16. What the server wraps, the client unwraps to the same bytes and the
    packet's sequence number, in whatever part of its buffer the packet was
    received, and the packet fits the server's buffer. *)
Theorem server_to_client key is_srtp o plain out now d :
  len (sb_storage out) = PACKET_CAPACITY -> 24 + len plain + 76 <= PACKET_CAPACITY -> plain <> [] ->
  rtp_type (out_payload_type o) -> (is_srtp = false -> out_payload_type o = 111) -> is_u32 (out_ssrc o) ->
  draws_ok (out_padding is_srtp (out_payload_type o)) d ->
  exists out' total wire,
    (wrap_legacy_into key is_srtp o plain out now d).1 = Ok (out', total)
    /\ @ServerBuf_as_slice string out' = Ok wire /\ len wire = total /\ server_buf_wf out'
    /\ forall A B, len A + len wire + len B = CLIENT_PACKET_CAPACITY ->
       exists q, ObfsCipher_unwrap key (buf_around A wire B) (if is_srtp then Video else Audio) = Ok (out_seq o, q)
         /\ client_buf_wf q /\ window q = plain.
Proof.
  intros Hs Hfit Hne Hpt Haudio Hssrc Hd. unfold wrap_legacy_into.
  destruct (OutState_clocks o now) as [ts ab] eqn:Hclk.
  assert (Hts : is_u32 ts) by (unfold OutState_clocks in Hclk; injection Hclk as <- _; apply u32_of_range).
  cbn [fst]. fold (out_seq o). set (h := rtp_header 0xb0 _ _ _ _ _ _ _). assert (Hh : len h = 24) by apply len_rtp_header.
  pose proof (len_nonneg plain) as Hpl.
  pose proof Hd as (Hp & Hf & Hpm). assert (Hfl : len (dr_fill d) < 60) by lia.
  destruct is_srtp.
  - destruct (wrap_srtp_wire key plain h (sb_storage out) (out_ssrc o) (out_seq o) ts d _ Hd Hh Hs ltac:(lia))
      as (post & total & Hw & Htot & Hcap).
    set (w := srtp_wire _ _ _ _ _) in *. rewrite Hw. cbn [mbind result_bind]. unfold ServerBuf_set_len.
    pose proof (len_nonneg post). replace (PACKET_CAPACITY <? total) with false by lia.
    exists (mkServerBuf (w ++ post) total), total, w. cbn [sb_storage sb_len]. split_and!; try done.
    + unfold ServerBuf_as_slice; cbn. by rewrite (slice_eq (w ++ post) [] w post 0 total).
    + unfold server_buf_wf. cbn [sb_storage sb_len]. pose proof (len_nonneg w). rewrite len_app. lia.
    + intros A B HAB. apply client_reads_srtp; try done. apply u16_of_range.
  - destruct (wrap_aead_wire key plain h (sb_storage out) (out_ssrc o) (out_seq o) ts d _ Hd Hh Hs ltac:(lia))
      as (ct & tag & post & total & Hseal & Hw & Htot & Hcap).
    set (w := aead_wire _ _ _ _) in *. rewrite Hw. cbn [mbind result_bind]. unfold ServerBuf_set_len.
    pose proof (len_nonneg post). replace (PACKET_CAPACITY <? total) with false by lia.
    exists (mkServerBuf (w ++ post) total), total, w. cbn [sb_storage sb_len]. split_and!; try done.
    + unfold ServerBuf_as_slice; cbn. by rewrite (slice_eq (w ++ post) [] w post 0 total).
    + unfold server_buf_wf. cbn [sb_storage sb_len]. pose proof (len_nonneg w). rewrite len_app. lia.
    + intros A B HAB. unfold w, h in *. rewrite (Haudio eq_refl) in *.
      apply (client_reads_aead key A B _ _ _ _ _ _ plain (dr_fill d) ct tag); try done. apply u16_of_range.
Qed.

(** ** Hostile input *)

Lemma copy_into_len {E A} (l src k : list A) i j : @copy_into E A l i j src = Ok k -> len k = len l.
Proof.
  unfold copy_into. split_case; [|discriminate]. intros [= <-]. bool_prop. apply len_splice; lia.
Qed.

Lemma keystream_safe {E} key iv l i j :
  0 <= i -> i <= j -> j <= len l -> exists k, @apply_keystream E C key iv l i j = Ok k /\ len k = len l
    /\ (wf_bytes l -> wf_bytes k).
Proof.
  intros Hi Hij Hj. unfold apply_keystream. rewrite slice_ok by done. cbn.
  assert (Hl : len (sub l i j) = j - i) by (by apply len_sub).
  rewrite copy_into_ok by (try done; rewrite len_xor_bytes by apply len_aes_ctr_self; lia).
  eexists. split; [reflexivity|]. split.
  - apply len_splice; [done|]. rewrite len_xor_bytes by apply len_aes_ctr_self. lia.
  - intros Hwf. unfold splice. apply Forall_app_2; [by apply Forall_take|].
    apply Forall_app_2; [|by apply Forall_drop]. apply wf_xor_bytes; [by apply wf_sub|apply aes_ctr_wf].
Qed.

Lemma dtls_records_ok fuel wire offset end_ :
  wf_bytes wire -> 0 <= offset <= end_ -> end_ <= len wire ->
  exists o, dtls_records fuel wire offset end_ = Ok o /\ offset <= o <= end_.
Proof.
  intros Hwf. revert offset. induction fuel as [|fuel IH]; intros offset Ho He; cbn [dtls_records]; [eexists; split; [done|lia]|].
  destruct (offset + 13 <=? end_) eqn:E1; cbn [negb]; [|eexists; split; [done|lia]]. bool_prop.
  destruct (@at_ok string _ wire offset ltac:(lia)) as (b0 & -> & _). cbn [mbind result_bind].
  destruct (in_20_23 b0); cbn [negb]; [|eexists; split; [done|lia]].
  destruct (@at_ok string _ wire (offset + 1) ltac:(lia)) as (b1 & -> & _). cbn [mbind result_bind].
  destruct (b1 =? 254); cbn [negb]; [|eexists; split; [done|lia]].
  destruct (@at_ok string _ wire (offset + 11) ltac:(lia)) as (hi & H1 & L1).
  destruct (@at_ok string _ wire (offset + 12) ltac:(lia)) as (lo & H2 & L2). rewrite H1, H2. cbn [mbind result_bind].
  assert (0 <= Z.lor (Z.shiftl hi 8) lo).
  { pose proof (at_byte _ _ _ Hwf H1). pose proof (at_byte _ _ _ Hwf H2). unfold is_u8 in *.
    apply Z.lor_nonneg. split; [apply Z.shiftl_nonneg|]; lia. }
  destruct (end_ <? _) eqn:E2; [eexists; split; [done|lia]|]. bool_prop.
  destruct (IH (offset + (13 + Z.lor (Z.shiftl hi 8) lo))) as (o & Ho' & Hb); [lia|done|].
  exists o. split; [done|lia].
Qed.

Lemma rtp_header_len_safe wire : wf_bytes wire -> safe (rtp_header_len wire) /\
  forall n, rtp_header_len wire = Ok n -> 12 <= n <= len wire /\ 13 <= len wire.
Proof.
  intros Hwf. unfold rtp_header_len. destruct (len wire <? 13) eqn:E1; [done|]. bool_prop.
  destruct (@at_ok string _ wire 0 ltac:(lia)) as (b0 & H0 & _). rewrite H0. cbn [mbind result_bind].
  destruct (negb _); [done|]. destruct (negb _).
  - destruct (len wire <? 16) eqn:E2; [done|]. bool_prop. rewrite slice_ok by lia. cbn [mbind result_bind].
    unfold checked_add. destruct (_ <=? USIZE_MAX) eqn:E3; cbn [try_ mbind result_bind]; [|done].
    destruct (len wire <? _) eqn:E4; [done|]. bool_prop. split; [done|]. intros n [= <-].
    pose proof (be_val_bound _ (wf_sub wire 14 16 Hwf)). lia.
  - cbn [mbind result_bind mret result_ret]. destruct (len wire <? 12) eqn:E4; [done|]. split; [done|].
    intros n [= <-]. lia.
Qed.

Lemma unwrap_srtp_safe key wire header_len b0 seq ts ssrc pt :
  wf_bytes wire -> 12 <= header_len -> header_len + 10 <= len wire ->
  safe (unwrap_srtp key wire header_len b0 seq ts ssrc pt).
Proof.
  intros Hwf Hh Hl. unfold unwrap_srtp. apply safe_bind.
  { destruct (negb _); [|done]. apply safe_bind; [apply at_safe; lia|]. intros a _. by destruct (_ || _). }
  intros end_ He.
  assert (Hend : end_ <= len wire - 10).
  { destruct (negb _); [|injection He as <-; lia]. apply bind_ok in He as (padding & Hat & He).
    pose proof (at_byte _ _ _ Hwf Hat). unfold is_u8 in *. destruct (_ || _); [done|]. injection He as <-. lia. }
  destruct (end_ <? header_len) eqn:E1; [done|]. bool_prop.
  destruct (@keystream_safe string (make_aes_key key) (build_srtp_iv ssrc seq ts) wire header_len end_)
    as (w' & -> & Hlw & Hwf'); [lia..|]. specialize (Hwf' Hwf). cbn [mbind result_bind].
  apply safe_bind.
  { destruct (13 <=? _) eqn:E2; [|done]. unfold sat_sub in E2. bool_prop.
    apply safe_bind; [apply at_safe; lia|intros; discriminate]. }
  intros dtls _. apply safe_bind; [|intros; discriminate]. destruct dtls; [|discriminate].
  destruct (dtls_records_ok (Z.to_nat (end_ - header_len)) w' header_len end_ Hwf' ltac:(lia) ltac:(lia)) as (o & -> & _). done.
Qed.

Lemma unwrap_aead_safe key wire header_len b0 seq ts ssrc pt :
  wf_bytes wire -> 12 <= header_len <= len wire -> safe (unwrap_aead key wire header_len b0 seq ts ssrc pt).
Proof.
  intros Hwf Hh. unfold unwrap_aead. apply safe_bind.
  { destruct (negb _); [|done]. apply safe_bind; [apply at_safe; lia|]. intros a _. by destruct (_ || _). }
  intros end_ He.
  assert (Hend : end_ <= len wire).
  { destruct (negb _); [|injection He as <-; lia]. apply bind_ok in He as (padding & Hat & He).
    pose proof (at_byte _ _ _ Hwf Hat). unfold is_u8 in *. destruct (_ || _); [done|]. injection He as <-. lia. }
  destruct (end_ <=? _) eqn:E1; [discriminate|]. destruct (pt =? 111); cbn [negb]; [|discriminate]. bool_prop.
  rewrite !slice_ok by lia. cbn [mbind result_bind]. destruct (chacha_open _ _ _ _ _) as [plain|] eqn:Ho; [|done].
  cbn [try_ mbind result_bind]. apply chacha_open_len in Ho. rewrite len_sub in Ho by lia.
  by rewrite copy_into_ok by lia.
Qed.

(** The server's unwrap returns on every byte string: whatever arrives on
    the UDP port, no index or slice is out of bounds, and a packet it accepts
    carries either a valid SRTP tag or a ChaCha20-Poly1305 tag that opens. *)
Theorem server_unwrap_safe key wire e :
  wf_bytes wire ->
  safe (unwrap_legacy_in_place key wire e)
  /\ forall wire' dec, unwrap_legacy_in_place key wire e = Ok (wire', dec) ->
     (dp_is_srtp dec = true -> srtp_tag_matches key wire = true /\ e <> Some false)
     /\ (dp_is_srtp dec = false -> e <> Some true /\ dp_payload_type dec = 111 /\ exists ssrc ts tag aad cipher plain,
           chacha_open key (nonce ssrc (dp_seq dec) ts) aad tag cipher = Some plain
           /\ aad ++ cipher ++ tag `prefix_of` wire /\ sub wire' (dp_start dec) (dp_end dec) = plain).
Proof.
  intros Hwf. unfold unwrap_legacy_in_place. destruct (rtp_header_len_safe wire Hwf) as [Hs Hr].
  destruct (rtp_header_len wire) as [hl| |] eqn:Eh; [|done|done]. destruct (Hr hl eq_refl) as [Hhl H13]. cbn [mbind result_bind].
  destruct (@at_ok string _ wire 1 ltac:(lia)) as (b1 & -> & _). cbn [mbind result_bind].
  destruct (negb (supported_payload_type _)); [done|].
  rewrite !slice_ok by lia. cbn [mbind result_bind].
  destruct (@at_ok string _ wire 0 ltac:(lia)) as (b0 & -> & _). cbn [mbind result_bind].
  set (seq := be_val _). set (ts := be_val (sub wire 4 8)). set (ssrc := be_val (sub wire 8 12)). set (pt := Z.land b1 127).
  assert (Haead : forall e', e' <> Some true -> e = e' ->
    safe (unwrap_aead key wire hl b0 seq ts ssrc pt) /\ forall wire' dec,
      unwrap_aead key wire hl b0 seq ts ssrc pt = Ok (wire', dec) ->
     (dp_is_srtp dec = true -> srtp_tag_matches key wire = true /\ e <> Some false)
     /\ (dp_is_srtp dec = false -> e <> Some true /\ dp_payload_type dec = 111 /\ exists ssrc ts tag aad cipher plain,
           chacha_open key (nonce ssrc (dp_seq dec) ts) aad tag cipher = Some plain
           /\ aad ++ cipher ++ tag `prefix_of` wire /\ sub wire' (dp_start dec) (dp_end dec) = plain)).
  { intros e' He' ->. split; [by apply unwrap_aead_safe|]. intros wire' dec Hu.
    unfold unwrap_aead in Hu. apply bind_ok in Hu as (end_ & _ & Hu).
    destruct (end_ <=? _) eqn:E1; [done|]. destruct (pt =? 111) eqn:E2; [|done]. cbn [negb] in Hu. inv_bind. bool_prop.
    apply slice_inv in Hb as (? & ? & ? & ->). apply slice_inv in Hb0 as (? & ? & ? & ->). apply slice_inv in Hb1 as (? & ? & ? & ->).
    destruct (chacha_open _ _ _ _ _) as [plain|] eqn:Ho; [|done]. injection Hb2 as <-.
    pose proof Ho as Hlen. apply chacha_open_len in Hlen. rewrite len_sub in Hlen by lia.
    rewrite copy_into_ok in Hb3 by lia. injection Hb3 as <-. injection Hu as <- <-. cbn. split; [done|]. intros _.
    split_and!; [done|done|]. exists ssrc, ts, (sub wire (end_ - 16) end_), (sub wire 0 hl), (sub wire hl (end_ - 16)), plain.
    split_and!; [done| |].
    - rewrite <- sub_split by lia. rewrite <- sub_split by lia.
      exists (sub wire end_ (len wire)). rewrite <- sub_split by lia. by rewrite sub_all.
    - rewrite (sub_decompose wire hl (end_ - 16)) by lia.
      rewrite splice_app by (rewrite ?len_sub by lia; lia). apply sub_app_mid; rewrite ?len_sub by lia; lia. }
  destruct (negb _ && _) eqn:E1.
  - bool_prop. unfold slice_from. rewrite !slice_ok by (rewrite ?hmac_sha1_len; lia). cbn [mbind result_bind].
    destruct (bytes_eqb _ _) eqn:Etag.
    + split; [apply unwrap_srtp_safe; done || lia|]. intros wire' dec Hu. unfold unwrap_srtp in Hu.
      apply bind_ok in Hu as (end_ & _ & Hu). destruct (end_ <? hl); [done|]. inv_bind. injection Hu as <- <-. cbn.
      split; [|done]. by intros _.
    + destruct (bool_decide (e = Some true)) eqn:E2; [done|]. bool_prop. by apply (Haead e).
  - destruct (bool_decide (e = Some true)) eqn:E2; [done|]. bool_prop. by apply (Haead e).
Qed.

Lemma set_range_ok l a b s e :
  s <= e -> e <= CLIENT_PACKET_CAPACITY -> ClientBuf_set_range (mkClientBuf l a b) s e = Ok (mkClientBuf l s e).
Proof. intros. unfold ClientBuf_set_range. by replace ((e <? s) || _) with false by lia. Qed.

Lemma client_unwrap_video_safe key p b0 hl ssrc seq ts :
  client_buf_wf p -> wf_bytes (cb_storage p) -> 12 <= hl <= ClientBuf_len p ->
  let r := ObfsCipher_unwrap_video key p b0 hl ssrc seq ts in
  safe r /\ forall s q, r = Ok (s, q) -> client_buf_wf q.
Proof.
  intros (Hl & Hse & He) Hwf Hhl r.
  assert (Hlen : ClientBuf_len p = cb_end p - cb_start p) by (unfold ClientBuf_len; split_case; bool_prop; lia).
  subst r. unfold ObfsCipher_unwrap_video. destruct (_ <? hl + 10) eqn:E1; [done|]. bool_prop.
  rewrite !slice_ok by (rewrite ?hmac_sha1_len; lia). cbn [mbind result_bind].
  rewrite slice_ok by (rewrite ?hmac_sha1_len; lia). cbn [mbind result_bind].
  destruct (negb (bytes_eqb _ _)); [done|].
  destruct (negb (Z.land b0 32 =? 0)).
  - destruct (@at_ok string _ (cb_storage p) (cb_end p - 10 - 1) ltac:(lia)) as (pad & Hat & _). rewrite Hat. cbn [mbind result_bind].
    pose proof (at_byte _ _ _ Hwf Hat) as Hpad. unfold is_u8 in Hpad.
    destruct (_ || _) eqn:E2; [done|]. bool_prop. cbn [mbind result_bind mret result_ret].
    destruct (@keystream_safe string (make_aes_key key) (build_srtp_iv ssrc seq ts) (cb_storage p) (cb_start p + hl) (cb_end p - 10 - pad))
      as (w' & -> & Hlw & _); [lia..|]. cbn [mbind result_bind]. rewrite set_range_ok by lia. cbn.
    split; [done|]. intros s q [= <- <-]. unfold client_buf_wf; cbn. lia.
  - cbn [mbind result_bind mret result_ret].
    destruct (@keystream_safe string (make_aes_key key) (build_srtp_iv ssrc seq ts) (cb_storage p) (cb_start p + hl) (cb_end p - 10))
      as (w' & -> & Hlw & _); [lia..|]. cbn [mbind result_bind]. rewrite set_range_ok by lia. cbn.
    split; [done|]. intros s q [= <- <-]. unfold client_buf_wf; cbn. lia.
Qed.

Lemma client_unwrap_audio_safe key p b0 pt hl ssrc seq ts :
  client_buf_wf p -> wf_bytes (cb_storage p) -> 12 <= hl <= ClientBuf_len p ->
  let r := ObfsCipher_unwrap_audio key p b0 pt hl ssrc seq ts in
  safe r /\ forall s q, r = Ok (s, q) -> client_buf_wf q.
Proof.
  intros (Hl & Hse & He) Hwf Hhl r.
  assert (Hlen : ClientBuf_len p = cb_end p - cb_start p) by (unfold ClientBuf_len; split_case; bool_prop; lia).
  subst r. unfold ObfsCipher_unwrap_audio. destruct (negb (pt =? 111)); [done|].
  set (r := if negb (Z.land b0 32 =? 0) then _ else _).
  assert (Hr : safe r /\ forall e, r = Ok e -> cb_start p + hl <= e <= cb_end p).
  { subst r. destruct (negb (Z.land b0 32 =? 0)); [|split; [done|intros e [= <-]; lia]].
    destruct (@at_ok string _ (cb_storage p) (cb_end p - 1) ltac:(lia)) as (pad & Hat & _). rewrite Hat. cbn [mbind result_bind].
    pose proof (at_byte _ _ _ Hwf Hat) as Hpad. unfold is_u8 in Hpad.
    destruct (_ || _) eqn:E2; [done|]. bool_prop. split; [done|]. intros e [= <-]. lia. }
  destruct Hr as [Hsafe Hr]. clearbody r. destruct r as [pe| |]; [|done|done]. specialize (Hr pe eq_refl). cbn [mbind result_bind].
  destruct (pe <=? _) eqn:E1; [done|]. bool_prop. rewrite !slice_ok by lia. cbn [mbind result_bind].
  destruct (chacha_open _ _ _ _ _) as [plain|] eqn:Ho; [|done]. cbn [try_ mbind result_bind].
  apply chacha_open_len in Ho. rewrite len_sub in Ho by lia.
  destruct (copy_into (cb_storage p) (cb_start p + hl) (pe - 16) plain) as [w'| |] eqn:Ec;
    [|by rewrite copy_into_ok in Ec by lia|by rewrite copy_into_ok in Ec by lia].
  apply copy_into_len in Ec. cbn [mbind result_bind]. rewrite set_range_ok by lia. cbn.
  split; [done|]. intros s q [= <- <-]. unfold client_buf_wf; cbn. lia.
Qed.

(** The client's check of an incoming datagram (RTP test, unwrap, replay
    window) returns on every buffer, whatever bytes the relay delivered, leaves
    the buffer well-formed, and accepts only what the unwrap authenticated and
    the replay window had not seen. *)
Theorem client_inbound_safe key mode replay p :
  client_buf_wf p -> wf_bytes (cb_storage p) ->
  exists accepted replay' q, authenticate_inbound key mode replay p = Ok (accepted, replay', q) /\ client_buf_wf q
    /\ (accepted = true -> exists seq, ObfsCipher_unwrap key p mode = Ok (seq, q)
          /\ ReplayWindow_accept_rtp replay seq = (true, replay'))
    /\ (accepted = false -> replay' = replay \/ exists seq, ObfsCipher_unwrap key p mode = Ok (seq, q)
          /\ (ReplayWindow_accept_rtp replay seq).1 = false).
Proof.
  intros Hwf Hb. pose proof (@client_window_slice string p Hwf) as Hs. pose proof (client_window_len p Hwf) as Hwl.
  assert (Hwin : wf_bytes (window p)) by (by apply wf_sub).
  assert (Hun : safe (ObfsCipher_unwrap key p mode) /\ forall s q, ObfsCipher_unwrap key p mode = Ok (s, q) -> client_buf_wf q).
  { unfold ObfsCipher_unwrap. rewrite Hs. cbn [mbind result_bind]. set (w := window p) in *.
    destruct (len w <? 13) eqn:E1; [done|]. bool_prop.
    destruct (@at_ok string _ w 0 ltac:(lia)) as (b0 & -> & _). cbn [mbind result_bind]. destruct (negb _); [done|].
    destruct (@at_ok string _ w 1 ltac:(lia)) as (b1 & -> & _). cbn [mbind result_bind]. destruct (negb (supported_payload_type _)); [done|].
    rewrite (slice_ok w 2 4), (slice_ok w 4 8), (slice_ok w 8 12) by lia. cbn [mbind result_bind].
    set (r := if negb (Z.land b0 16 =? 0) then _ else _).
    assert (Hr : safe r /\ forall n, r = Ok n -> 12 <= n).
    { subst r. destruct (negb _); [|split; [done|intros n [= <-]; lia]]. destruct (len w <? 16) eqn:E2; [done|]. bool_prop.
      rewrite slice_ok by lia. split; [done|]. intros n [= <-]. pose proof (be_val_bound _ (wf_sub w 14 16 Hwin)). lia. }
    destruct Hr as [Hr1 Hr2]. clearbody r. destruct r as [hl| |]; [|done|done]. specialize (Hr2 hl eq_refl). cbn [mbind result_bind].
    destruct (len w <? hl) eqn:E3; [done|]. bool_prop.
    case_decide; [apply client_unwrap_video_safe|apply client_unwrap_audio_safe]; try done; lia. }
  unfold authenticate_inbound. rewrite Hs. cbn [mbind result_bind].
  assert (Hrtp : exists b, @is_rtp_packet string (window p) = Ok b).
  { unfold is_rtp_packet. destruct (len (window p) <? 13) eqn:E1; [by eexists|]. bool_prop.
    destruct (@at_ok string _ (window p) 0 ltac:(lia)) as (b0 & -> & _). cbn [mbind result_bind]. destruct (negb _); [by eexists|].
    destruct (@at_ok string _ (window p) 1 ltac:(lia)) as (b1 & -> & _). by eexists. }
  destruct Hrtp as [rtp ->]. cbn [mbind result_bind]. destruct rtp; cbn [negb]; [|exists false, replay, p; split_and!; try done; by left].
  destruct Hun as [Hsafe Hun]. destruct (ObfsCipher_unwrap key p mode) as [[s q]| |]; [|exists false, replay, p; split_and!; try done; by left|done].
  destruct (ReplayWindow_accept_rtp replay s) as [fresh replay'] eqn:Er. exists fresh, replay', q.
  split; [done|]. split; [by apply (Hun s)|]. split.
  - intros ->. by exists s.
  - intros ->. right. exists s. by rewrite Er.
Qed.

End Wire.

(** ** No two packets in a row share a nonce *)

(** The state after [n] more packets. *)
Definition state_after (st : ObfsState) (n : nat) : ObfsState := Nat.iter n (fun s => (ObfsState_next s).2) st.

Lemma state_after_fields st n :
  is_u64 (os_count st) ->
  os_count (state_after st n) = u64_of (os_count st + Z.of_nat n)
  /\ os_initial_sequence (state_after st n) = os_initial_sequence st.
Proof.
  intros Hc. induction n as [|n [IH1 IH2]].
  - cbn [state_after Nat.iter]. rewrite Z.add_0_r. unfold u64_of. rewrite Z.mod_small by exact Hc. done.
  - cbn [state_after Nat.iter nat_rect]. change (nat_rect _ _ _ n) with (state_after st n).
    cbn [ObfsState_next snd os_count os_initial_sequence]. rewrite IH1, IH2. split; [|done].
    unfold u64_of. rewrite Zplus_mod_idemp_l. f_equal. lia.
Qed.

(** Any two packets of a client less than 65536 apart are sealed under
    different nonces, whatever the clock did in between. *)
Theorem nonces_distinct st ssrc i j ts ts' :
  is_u64 (os_count st) -> (i < j)%nat -> Z.of_nat j - Z.of_nat i < 65536 ->
  nonce ssrc (wrap_seq (state_after st i)) ts <> nonce ssrc (wrap_seq (state_after st j)) ts'.
Proof.
  intros Hc Hij Hd Heq. unfold nonce in Heq. apply app_inj_1 in Heq as [_ Heq]; [|by rewrite !length_be_bytes].
  apply app_inj_1 in Heq as [Heq _]; [|by rewrite !length_be_bytes].
  apply (f_equal be_val) in Heq. rewrite !be_val_be_bytes_id in Heq by apply u16_of_range.
  unfold wrap_seq in Heq. destruct (state_after_fields st i Hc) as [E1 E2]. destruct (state_after_fields st j Hc) as [E3 E4].
  rewrite E1, E2, E3, E4 in Heq.
  unfold u16_of, u64_of in Heq.
  assert (Hm : forall x, (x mod 2 ^ 64) mod 2 ^ 16 = x mod 2 ^ 16) by (intros; apply Z.mod_mod_divide; by exists (2 ^ 48)).
  rewrite !Hm, !Zplus_mod_idemp_r in Heq.
  assert (Hz : (Z.of_nat j - Z.of_nat i) mod 2 ^ 16 = 0).
  { replace (Z.of_nat j - Z.of_nat i) with ((os_initial_sequence st + (os_count st + Z.of_nat j))
      - (os_initial_sequence st + (os_count st + Z.of_nat i))) by lia.
    rewrite Zminus_mod, Heq, Z.sub_diag. done. }
  rewrite Z.mod_small in Hz by lia. lia.
Qed.

Lemma nonces_distinct_witness :
  nonce 7 (wrap_seq (state_after (ObfsState_new 1 65535 3 4 5) 0)) 10
  <> nonce 7 (wrap_seq (state_after (ObfsState_new 1 65535 3 4 5) 2)) 10.
Proof. apply (nonces_distinct (ObfsState_new 1 65535 3 4 5) 7 0 2); [done|lia|lia]. Defined.

(** ** A concrete instance of the primitives *)

(** A keystream, a checksum and a seal that satisfy the laws; they are no
    ciphers and serve to run the definitions. *)
#[export] Instance demo_crypto : Crypto := {
  aes_ctr key iv n := replicate (Z.to_nat n) 90;
  hmac_sha1 key msg := replicate 20 (u8_of (foldr Z.add (len msg) msg));
  chacha_seal key n aad p := Some (xor_bytes p (replicate (length p) 165), replicate 16 (u8_of (len aad)));
  chacha_open key n aad tag c :=
    if bytes_eqb tag (replicate 16 (u8_of (len aad))) then Some (xor_bytes c (replicate (length c) 165)) else None;
}.

Lemma len_replicate {A} n (x : A) : len (replicate n x) = Z.of_nat n.
Proof. unfold len. by rewrite length_replicate. Qed.

#[export] Instance demo_crypto_laws : CryptoLaws demo_crypto.
Proof.
  split; cbn [aes_ctr hmac_sha1 chacha_seal chacha_open demo_crypto].
  - intros. rewrite len_replicate. lia.
  - intros. apply Forall_replicate. split; lia.
  - intros. apply len_replicate.
  - intros. by eexists.
  - intros key n aad p c t [= <- <-]. split; [apply len_xor_bytes; by rewrite len_replicate|done].
  - intros key n aad p c t [= <- <-]. unfold bytes_eqb. rewrite bool_decide_eq_true_2 by done. f_equal.
    assert (Hl : length (xor_bytes p (replicate (length p) 165)) = length p)
      by (unfold xor_bytes; rewrite length_zip_with, length_replicate; lia).
    rewrite Hl. apply xor_bytes_twice. by rewrite len_replicate.
  - intros key n aad t c p. case_match; [|discriminate]. intros [= <-]. apply len_xor_bytes. by rewrite len_replicate.
  - intros key n aad t c p. case_match; [|discriminate]. intros [= <-] Hc. apply wf_xor_bytes; [done|].
    apply Forall_replicate. split; lia.
Qed.

Definition demo_key : bytes := replicate 32 7.
Definition demo_packet : ClientBuf :=
  mkClientBuf (replicate 64 0 ++ b_ "GETCONF:" ++ replicate 2232 0) 64 72.
Definition demo_draws : Draws := mkDraws 2 0 [9; 9].
Definition demo_state : ObfsState := ObfsState_new 1 65535 3 4 5.

Lemma demo_packet_fits : fits_client demo_packet.
Proof.
  unfold fits_client, client_buf_wf. split_and!; vm_compute; reflexivity || discriminate.
Qed.
Lemma demo_draws_ok pm : 2 < pm <= 60 -> draws_ok pm demo_draws.
Proof. intros. unfold draws_ok. cbn [demo_draws dr_padding dr_fill]. change (len [9; 9]) with 2. lia. Qed.

Lemma client_to_server_witness :
  exists q wire' dec,
    ObfsCipher_wrap demo_key demo_packet (ObfsConfig_new Audio 77) demo_state 99 demo_draws = (Ok q, (ObfsState_next demo_state).2)
    /\ unwrap_legacy_in_place demo_key (window q) None = Ok (wire', dec)
    /\ sub wire' (dp_start dec) (dp_end dec) = window demo_packet
    /\ dp_seq dec = wrap_seq demo_state /\ dp_payload_type dec = 111 /\ dp_is_srtp dec = false.
Proof.
  apply (client_to_server demo_key Audio 77 demo_packet demo_state 99 demo_draws None).
  - exact demo_packet_fits.
  - apply demo_draws_ok. cbn. lia.
  - done.
  - by left.
  - discriminate.
  - intros _ _ q Hq.
    assert (Hm : match (ObfsCipher_wrap demo_key demo_packet (ObfsConfig_new Audio 77) demo_state 99 demo_draws).1 with
                 | Ok q => srtp_tag_matches demo_key (window q) | _ => true end = false) by (vm_compute; reflexivity).
    rewrite Hq in Hm. exact Hm.
Defined.

Definition demo_out : OutState := mkOutState 77 65535 3 4 5 6 96 7.

Lemma server_to_client_witness :
  exists out' total wire,
    (wrap_legacy_into demo_key true demo_out (b_ "READY_OK") PacketBuffer_new 9 demo_draws).1 = Ok (out', total)
    /\ @ServerBuf_as_slice string out' = Ok wire /\ len wire = total /\ server_buf_wf out'
    /\ forall A B, len A + len wire + len B = CLIENT_PACKET_CAPACITY ->
       exists q, ObfsCipher_unwrap demo_key (buf_around A wire B) Video = Ok (out_seq demo_out, q)
         /\ client_buf_wf q /\ window q = b_ "READY_OK".
Proof.
  apply (server_to_client demo_key true demo_out (b_ "READY_OK") PacketBuffer_new 9 demo_draws).
  - vm_compute. reflexivity.
  - vm_compute. discriminate.
  - discriminate.
  - right. by left.
  - discriminate.
  - done.
  - apply demo_draws_ok. cbn. lia.
Defined.

Lemma server_unwrap_safe_witness :
  unwrap_legacy_in_place demo_key [176; 111; 1] None = Err "invalid RTP packet"%string
  /\ safe (unwrap_legacy_in_place demo_key (replicate 40 176) None).
Proof.
  split; [reflexivity|]. apply (server_unwrap_safe demo_key (replicate 40 176) None).
  apply (bool_decide_unpack _); vm_compute; exact I.
Defined.

Lemma client_inbound_safe_witness :
  exists accepted replay' q,
    authenticate_inbound demo_key Video ReplayWindow_default demo_packet = Ok (accepted, replay', q) /\ client_buf_wf q.
Proof.
  destruct (client_inbound_safe demo_key Video ReplayWindow_default demo_packet) as (a & r & q & H1 & H2 & _).
  - exact (proj1 demo_packet_fits).
  - apply (bool_decide_unpack _); vm_compute; exact I.
  - exists a, r, q. split; [exact H1|exact H2].
Defined.

(** ** What an opened packet is *)

Section Opened.
Context `{C : Crypto} `{!CryptoLaws C}.

(** The plaintext the server reads: bytes, inside the packet. *)
Definition opened_ok (wire : bytes) (r : bytes * DecodedPacket) : Prop :=
  wf_bytes r.1 /\ len r.1 = len wire /\ 0 <= dp_start r.2 /\ dp_start r.2 <= dp_end r.2 /\ dp_end r.2 <= len r.1.

Lemma splice_wf (l src : bytes) i : wf_bytes l -> wf_bytes src -> wf_bytes (splice l i src).
Proof. intros. unfold splice. apply Forall_app_2; [by apply Forall_take|]. apply Forall_app_2; [done|by apply Forall_drop]. Qed.

Lemma unwrap_srtp_opened key wire hl b0 seq ts ssrc pt r :
  wf_bytes wire -> 12 <= hl -> hl + 10 <= len wire ->
  unwrap_srtp key wire hl b0 seq ts ssrc pt = Ok r -> opened_ok wire r.
Proof.
  intros Hwf Hh Hl. unfold unwrap_srtp. intros Hu. apply bind_ok in Hu as (end_ & He & Hu).
  assert (Hend : end_ <= len wire - 10).
  { destruct (negb _); [|injection He as <-; lia]. apply bind_ok in He as (padding & Hat & He).
    pose proof (at_byte _ _ _ Hwf Hat). unfold is_u8 in *. destruct (_ || _); [done|]. injection He as <-. lia. }
  destruct (end_ <? hl) eqn:E1; [done|]. bool_prop.
  destruct (@keystream_safe C _ string (make_aes_key key) (build_srtp_iv ssrc seq ts) wire hl end_)
    as (w' & Hk & Hlw & Hwf'); [lia..|]. specialize (Hwf' Hwf). rewrite Hk in Hu. cbn [mbind result_bind] in Hu.
  apply bind_ok in Hu as (dtls & _ & Hu). apply bind_ok in Hu as (end2 & He2 & Hu). injection Hu as <-.
  assert (hl <= end2 <= end_).
  { destruct dtls; [|injection He2 as <-; lia]. apply bind_ok in He2 as (o & Ho & He2). injection He2 as <-.
    destruct (dtls_records_ok (Z.to_nat (end_ - hl)) w' hl end_ Hwf' ltac:(lia) ltac:(lia)) as (o' & Ho' & Hb).
    rewrite Ho' in Ho. injection Ho as <-. destruct (hl <? o'); lia. }
  unfold opened_ok. cbn. split_and!; try done; lia.
Qed.

Lemma unwrap_aead_opened key wire hl b0 seq ts ssrc pt r :
  wf_bytes wire -> 12 <= hl <= len wire ->
  unwrap_aead key wire hl b0 seq ts ssrc pt = Ok r -> opened_ok wire r.
Proof.
  intros Hwf Hh. unfold unwrap_aead. intros Hu. apply bind_ok in Hu as (end_ & He & Hu).
  assert (Hend : end_ <= len wire).
  { destruct (negb _); [|injection He as <-; lia]. apply bind_ok in He as (padding & Hat & He).
    pose proof (at_byte _ _ _ Hwf Hat). unfold is_u8 in *. destruct (_ || _); [done|]. injection He as <-. lia. }
  destruct (end_ <=? _) eqn:E1; [discriminate|]. destruct (pt =? 111); cbn [negb] in Hu; [|discriminate]. bool_prop.
  rewrite !slice_ok in Hu by lia. cbn [mbind result_bind] in Hu. destruct (chacha_open _ _ _ _ _) as [plain|] eqn:Ho; [|done].
  cbn [try_ mbind result_bind] in Hu. pose proof (chacha_open_len _ _ _ _ _ _ Ho) as Hlen. rewrite len_sub in Hlen by lia.
  apply chacha_open_wf in Ho; [|by apply wf_sub]. rewrite copy_into_ok in Hu by lia. injection Hu as <-. unfold opened_ok. cbn.
  rewrite len_splice by lia. split_and!; try lia. by apply splice_wf.
Qed.

Lemma unwrap_legacy_safe key wire e : wf_bytes wire ->
  safe (unwrap_legacy_in_place key wire e) /\ forall r, unwrap_legacy_in_place key wire e = Ok r -> opened_ok wire r.
Proof.
  intros Hwf. unfold unwrap_legacy_in_place. destruct (rtp_header_len_safe wire Hwf) as [Hs Hr].
  destruct (rtp_header_len wire) as [hl| |] eqn:Eh; [|done|done]. destruct (Hr hl eq_refl) as [Hhl H13]. cbn [mbind result_bind].
  destruct (@at_ok string _ wire 1 ltac:(lia)) as (b1 & -> & _). cbn [mbind result_bind].
  destruct (negb (supported_payload_type _)); [done|].
  rewrite !slice_ok by lia. cbn [mbind result_bind].
  destruct (@at_ok string _ wire 0 ltac:(lia)) as (b0 & -> & _). cbn [mbind result_bind].
  assert (Haead : forall seq ts ssrc pt, safe (unwrap_aead key wire hl b0 seq ts ssrc pt)
      /\ forall r, unwrap_aead key wire hl b0 seq ts ssrc pt = Ok r -> opened_ok wire r).
  { intros. split; [by apply unwrap_aead_safe|]. intros r. by apply unwrap_aead_opened. }
  destruct (negb _ && _) eqn:E1; [|destruct (bool_decide (e = Some true)); [done|apply Haead]].
  bool_prop. unfold slice_from. rewrite !slice_ok by (rewrite ?hmac_sha1_len; lia). cbn [mbind result_bind].
  destruct (bytes_eqb _ _); [|destruct (bool_decide (e = Some true)); [done|apply Haead]].
  split; [apply unwrap_srtp_safe; done || lia|]. intros r. apply unwrap_srtp_opened; done || lia.
Qed.

(** A wrap into a whole buffer leaves a whole buffer, or is refused. *)
Lemma wrap_legacy_safe key is_srtp o plain out now d pm :
  len (sb_storage out) = PACKET_CAPACITY -> draws_ok pm d ->
  let r := (wrap_legacy_into key is_srtp o plain out now d).1 in
  safe r /\ forall out' n, r = Ok (out', n) -> server_buf_wf out'.
Proof.
  intros Hs Hd. unfold wrap_legacy_into. destruct (OutState_clocks o now) as [ts ab]. cbn [fst].
  set (h := rtp_header 0xb0 _ _ _ _ _ _ _). assert (Hh : len h = 24) by apply len_rtp_header. clearbody h.
  set (seq := u16_of _). clearbody seq. pose proof (len_nonneg plain) as Hpl.
  assert (Hset : forall storage n, len storage = PACKET_CAPACITY -> 0 <= n <= PACKET_CAPACITY ->
    let r := match ServerBuf_set_len (mkServerBuf storage (sb_len out)) n with
             | (true, output) => mret (output, n) | (false, _) => Err "output length rejected"%string end in
    safe r /\ forall out' k, r = Ok (out', k) -> server_buf_wf out').
  { intros storage n Hl Hn. unfold ServerBuf_set_len. replace (PACKET_CAPACITY <? n) with false by lia. cbn.
    split; [done|]. intros out' k [= <- <-]. by unfold server_buf_wf. }
  destruct is_srtp.
  - destruct (decide (24 + len plain + (dr_padding d + 1) + 10 <= PACKET_CAPACITY)) as [Hfit|Hbig].
    + destruct (wrap_srtp_wire key plain h (sb_storage out) (out_ssrc o) seq ts d _ Hd Hh Hs Hfit) as (post & total & -> & Htot & Hcap).
      cbn [mbind result_bind]. pose proof (len_nonneg post). set (w := srtp_wire _ _ _ _ _) in *. pose proof (len_nonneg w).
      apply Hset; [rewrite len_app; lia|lia].
    + destruct Hd as (Hp & _). unfold wrap_srtp, checked_add. destruct (_ <=? USIZE_MAX); cbn [try_ mbind result_bind]; [|done].
      destruct (_ <=? USIZE_MAX); cbn [try_ mbind result_bind]; [|done]. destruct (_ <=? USIZE_MAX); cbn [try_ mbind result_bind]; [|done].
      by replace (len (sb_storage out) <? _) with true by lia.
  - destruct (decide (24 + len plain + 16 + (dr_padding d + 1) <= PACKET_CAPACITY)) as [Hfit|Hbig].
    + destruct (wrap_aead_wire key plain h (sb_storage out) (out_ssrc o) seq ts d _ Hd Hh Hs Hfit) as (ct & tag & post & total & _ & -> & Htot & Hcap).
      cbn [mbind result_bind]. pose proof (len_nonneg post). set (w := aead_wire _ _ _ _) in *. pose proof (len_nonneg w).
      apply Hset; [rewrite len_app; lia|lia].
    + destruct Hd as (Hp & _). unfold wrap_aead, checked_add. destruct (_ <=? USIZE_MAX); cbn [try_ mbind result_bind]; [|done].
      destruct (_ <=? USIZE_MAX); cbn [try_ mbind result_bind]; [|done]. destruct (_ <=? USIZE_MAX); cbn [try_ mbind result_bind]; [|done].
      by replace (len (sb_storage out) <? _) with true by lia.
Qed.
End Opened.
