(* ===== verification/Routes.v ===== *)
(** * Routes to the tunnel clients ([rust-server/tun_device.rs])

    The server keeps, per address of the tunnel subnet, the streams (workers)
    that lead to that client, ordered by worker number, and stripes packets
    over them in chunks that depend on the packet's class. *)

From stdpp Require Import sorting.
From S2P Require Import Prelude FlowFrame Classify Packet.

Definition SUBNET_PREFIX : bytes := [10; 66; 67].

Record RouteEndpoint := mkRouteEndpoint {
  re_session_id : Z;
  re_registration_id : Z;
  re_worker_id : Z;
  re_slot : Z;
}.
#[global] Instance RouteEndpoint_eq_dec : EqDecision RouteEndpoint.
Proof. solve_decision. Defined.

Record RouteSelection := mkRouteSelection { rsel_start : Z; rsel_len : Z }.

(** ** The striping cursor *)

Record LocalStripeCursor := mkCursor { lc_next : Z; lc_remaining : Z; lc_count : Z }.
Definition LocalStripeCursor_default : LocalStripeCursor := mkCursor 0 0 0.

(** The three cursors, indexed by the class. *)
Record LocalStripedScheduler := mkScheduler {
  ls_small : LocalStripeCursor; ls_medium : LocalStripeCursor; ls_bulk : LocalStripeCursor;
}.
Definition LocalStripedScheduler_default : LocalStripedScheduler :=
  mkScheduler LocalStripeCursor_default LocalStripeCursor_default LocalStripeCursor_default.
Definition cursor_of (s : LocalStripedScheduler) (class : PacketClass) : LocalStripeCursor :=
  match class with Small => ls_small s | Medium => ls_medium s | Bulk => ls_bulk s end.
Definition set_cursor (s : LocalStripedScheduler) (class : PacketClass) (c : LocalStripeCursor) : LocalStripedScheduler :=
  match class with
  | Small => mkScheduler c (ls_medium s) (ls_bulk s)
  | Medium => mkScheduler (ls_small s) c (ls_bulk s)
  | Bulk => mkScheduler (ls_small s) (ls_medium s) c
  end.

Definition LocalStripedScheduler_select (self : LocalStripedScheduler) (count : Z) (class : PacketClass)
    : option Z * LocalStripedScheduler :=
  if count =? 0 then (None, self) else
  let cursor := cursor_of self class in
  let cursor := if negb (lc_count cursor =? count) then mkCursor 0 0 count else cursor in
  let cursor := if lc_remaining cursor =? 0
                then mkCursor (lc_next cursor) (stream_chunk class) (lc_count cursor) else cursor in
  let selected := lc_next cursor in
  let remaining := lc_remaining cursor - 1 in
  let next := if remaining =? 0
              then if lc_next cursor + 1 =? count then 0 else lc_next cursor + 1
              else lc_next cursor in
  (Some selected, set_cursor self class (mkCursor next remaining (lc_count cursor))).

(** ** The streams of one client *)

Record RouteGroup := mkRouteGroup { rg_endpoints : list RouteEndpoint; rg_scheduler : LocalStripedScheduler }.
Definition RouteGroup_default : RouteGroup := mkRouteGroup [] LocalStripedScheduler_default.

(** [sort_unstable_by_key(|current| current.worker_id)]: the worker numbers are
    distinct, so there is one sorted order and insertion computes it. *)
Fixpoint insert_by_worker (e : RouteEndpoint) (l : list RouteEndpoint) : list RouteEndpoint :=
  match l with
  | [] => [e]
  | x :: l' => if re_worker_id e <=? re_worker_id x then e :: l else x :: insert_by_worker e l'
  end.
Definition sort_by_worker (l : list RouteEndpoint) : list RouteEndpoint := foldr insert_by_worker [] l.

Definition RouteGroup_register (g : RouteGroup) (endpoint : RouteEndpoint) : RouteGroup :=
  let kept := filter (fun current => negb (re_registration_id current =? re_registration_id endpoint)
                                     && negb (re_worker_id current =? re_worker_id endpoint) = true) (rg_endpoints g) in
  mkRouteGroup (sort_by_worker (kept ++ [endpoint])) (rg_scheduler g).

Definition RouteGroup_unregister (g : RouteGroup) (registration_id : Z) : bool * RouteGroup :=
  let kept := filter (fun e => re_registration_id e <> registration_id) (rg_endpoints g) in
  (negb (len kept =? len (rg_endpoints g)), mkRouteGroup kept (rg_scheduler g)).

Definition RouteGroup_select_window (g : RouteGroup) (class : PacketClass) : option RouteSelection * RouteGroup :=
  let n := len (rg_endpoints g) in
  match LocalStripedScheduler_select (rg_scheduler g) n class with
  | (Some start, s) => (Some (mkRouteSelection start n), mkRouteGroup (rg_endpoints g) s)
  | (None, s) => (None, mkRouteGroup (rg_endpoints g) s)
  end.

Definition RouteGroup_endpoint_at (g : RouteGroup) (sel : RouteSelection) (offset : Z) : option RouteEndpoint :=
  if (rsel_len sel <=? offset) || (rsel_len sel =? 0) then None else
  let index := rsel_start sel + offset in
  let index := if rsel_len sel <=? index then index - rsel_len sel else index in
  rg_endpoints g !! Z.to_nat index.

Definition RouteGroup_is_empty (g : RouteGroup) : bool := match rg_endpoints g with [] => true | _ => false end.

(** ** The table: 256 optional groups *)

Abbreviation RouteTable := (list (option RouteGroup)).
Definition RouteTable_new : RouteTable := replicate 256 None.

Definition route_index (ip : bytes) : option Z :=
  match ip with
  | [a; b; c; d] => if bytes_eqb [a; b; c] SUBNET_PREFIX then Some d else None
  | _ => None
  end.

(** [self.groups.get(key).and_then(as_ref)] *)
Definition group_at (t : RouteTable) (key : Z) : option RouteGroup := mjoin (t !! Z.to_nat key).

Definition RouteTable_register (t : RouteTable) (ip : bytes) (session_id registration_id worker_id slot : Z)
    : bool * RouteTable :=
  match route_index ip with
  | None => (false, t)
  | Some index =>
      let g := default RouteGroup_default (group_at t index) in
      (true, <[Z.to_nat index := Some (RouteGroup_register g
                (mkRouteEndpoint session_id registration_id worker_id slot))]> t)
  end.

(** [iter_mut().find(..)] then the assignment *)
Fixpoint set_slot_first (session_id registration_id slot : Z) (l : list RouteEndpoint) : list RouteEndpoint :=
  match l with
  | [] => []
  | e :: l =>
      if (re_session_id e =? session_id) && (re_registration_id e =? registration_id)
      then mkRouteEndpoint (re_session_id e) (re_registration_id e) (re_worker_id e) slot :: l
      else e :: set_slot_first session_id registration_id slot l
  end.

Definition RouteTable_update_slot (t : RouteTable) (ip : bytes) (session_id registration_id slot : Z) : RouteTable :=
  match route_index ip with
  | None => t
  | Some index =>
      match group_at t index with
      | None => t
      | Some g => <[Z.to_nat index := Some (mkRouteGroup
                    (set_slot_first session_id registration_id slot (rg_endpoints g)) (rg_scheduler g))]> t
      end
  end.

Definition RouteTable_unregister (t : RouteTable) (ip : bytes) (registration_id : Z) : bool * RouteTable :=
  match route_index ip with
  | None => (false, t)
  | Some index =>
      match group_at t index with
      | None => (false, t)
      | Some g =>
          let '(removed, g) := RouteGroup_unregister g registration_id in
          (removed, <[Z.to_nat index := if RouteGroup_is_empty g then None else Some g]> t)
      end
  end.

Definition packet_key {E} (packet : bytes) : result E (option Z) :=
  dst ← extract_dst_ipv4 packet;
  mret (match dst with Some ip => route_index ip | None => None end).
Definition tunnel_key (ip : bytes) : option Z := route_index ip.

Definition active_path_count (t : RouteTable) (key : Z) : Z :=
  match group_at t key with Some g => len (rg_endpoints g) | None => 0 end.

Definition select_key_window (t : RouteTable) (key : Z) (class : PacketClass) : option RouteSelection * RouteTable :=
  match group_at t key with
  | None => (None, t)
  | Some g =>
      let '(sel, g) := RouteGroup_select_window g class in (sel, <[Z.to_nat key := Some g]> t)
  end.

Definition RouteTable_endpoint_at (t : RouteTable) (key : Z) (sel : RouteSelection) (offset : Z) : option RouteEndpoint :=
  match group_at t key with Some g => RouteGroup_endpoint_at g sel offset | None => None end.

(** ** Sorted streams *)

Abbreviation worker_lt := (fun a b => re_worker_id a < re_worker_id b).

Definition streams_wf (l : list RouteEndpoint) : Prop :=
  StronglySorted worker_lt l /\ NoDup (re_registration_id <$> l).

Definition cursor_wf (c : LocalStripeCursor) (class : PacketClass) : Prop :=
  (lc_count c = 0 /\ lc_next c = 0 /\ lc_remaining c = 0)
  \/ (0 <= lc_next c < lc_count c /\ 0 <= lc_remaining c < stream_chunk class).
Definition scheduler_wf (s : LocalStripedScheduler) : Prop := forall class, cursor_wf (cursor_of s class) class.

Definition group_wf (g : RouteGroup) : Prop :=
  rg_endpoints g <> [] /\ streams_wf (rg_endpoints g) /\ scheduler_wf (rg_scheduler g).
Definition table_wf (t : RouteTable) : Prop :=
  length t = 256%nat /\ forall key g, group_at t key = Some g -> group_wf g.

Lemma stream_chunk_pos class : 0 < stream_chunk class.
Proof. by destruct class. Qed.

Lemma insert_by_worker_perm e l : insert_by_worker e l ≡ₚ e :: l.
Proof.
  induction l as [|x l IH]; cbn; [done|]. destruct (_ <=? _); [done|]. rewrite IH. constructor.
Qed.
Lemma sort_by_worker_perm l : sort_by_worker l ≡ₚ l.
Proof. induction l as [|x l IH]; cbn; [done|]. by rewrite insert_by_worker_perm, IH. Qed.

Lemma insert_by_worker_sorted e l :
  StronglySorted worker_lt l -> (forall x, x ∈ l -> re_worker_id x <> re_worker_id e) ->
  StronglySorted worker_lt (insert_by_worker e l).
Proof.
  induction l as [|x l IH]; intros Hs Hne; cbn; [repeat constructor|].
  apply StronglySorted_inv in Hs as [Hs Hx].
  destruct (_ <=? _) eqn:E; bool_prop.
  - assert (re_worker_id e < re_worker_id x) by (specialize (Hne x ltac:(set_solver)); lia).
    constructor; [by constructor|]. constructor; [done|].
    eapply Forall_impl; [exact Hx|]. cbn. intros; lia.
  - constructor; [apply IH; [done|]; intros; apply Hne; set_solver|].
    apply Forall_forall. intros y Hy. rewrite insert_by_worker_perm in Hy.
    apply elem_of_cons in Hy as [->|Hy]; [lia|]. rewrite Forall_forall in Hx. by apply Hx.
Qed.

Lemma strongly_sorted_workers l : StronglySorted worker_lt l -> NoDup (re_worker_id <$> l).
Proof.
  induction 1 as [|x l Hs IH Hx]; cbn; constructor; [|done].
  intros (y & Heq & Hy)%list_elem_of_fmap. rewrite Forall_forall in Hx. specialize (Hx y Hy). cbn in Hx. lia.
Qed.

Lemma sort_by_worker_sorted l : NoDup (re_worker_id <$> l) -> StronglySorted worker_lt (sort_by_worker l).
Proof.
  induction l as [|x l IH]; cbn; [constructor|]. intros [Hx Hl]%NoDup_cons.
  apply insert_by_worker_sorted; [by apply IH|]. intros y Hy Heq. apply Hx. rewrite sort_by_worker_perm in Hy.
  rewrite <- Heq. apply list_elem_of_fmap. by exists y.
Qed.

Lemma strongly_sorted_filter (P : RouteEndpoint -> Prop) `{!forall x, Decision (P x)} l :
  StronglySorted worker_lt l -> StronglySorted worker_lt (filter P l).
Proof.
  induction 1 as [|x l Hs IH Hx]; [constructor|]. rewrite filter_cons. case_decide; [|done].
  constructor; [done|]. apply Forall_forall. intros y [_ Hy]%list_elem_of_filter. rewrite Forall_forall in Hx. by apply Hx.
Qed.

(** The order the code sorts into is the only one. *)
Lemma sorted_unique l k : StronglySorted worker_lt l -> StronglySorted worker_lt k -> l ≡ₚ k -> l = k.
Proof.
  intros Hl. revert k. induction Hl as [|x l Hl IH Hx]; intros k Hk Hp.
  - by apply Permutation_nil in Hp as ->.
  - destruct Hk as [|y k Hk Hy]; [symmetry in Hp; by apply Permutation_nil in Hp|].
    assert (x = y) as ->.
    { assert (H1 : x ∈ y :: k) by (rewrite <- Hp; set_solver). assert (H2 : y ∈ x :: l) by (rewrite Hp; set_solver).
      rewrite Forall_forall in Hx, Hy. apply elem_of_cons in H1 as [->|H1]; [done|]. apply elem_of_cons in H2 as [->|H2]; [done|].
      specialize (Hx y H2). specialize (Hy x H1). cbn in *. lia. }
    f_equal. apply IH; [done|]. by apply Permutation_cons_inv in Hp.
Qed.

Lemma NoDup_fmap_filter {A B} (f : A -> B) (P : A -> Prop) `{!forall x, Decision (P x)} l :
  NoDup (f <$> l) -> NoDup (f <$> filter P l).
Proof.
  induction l as [|x l IH]; [done|]. rewrite fmap_cons. intros [Hx Hl]%NoDup_cons. rewrite filter_cons. case_decide; [|auto].
  cbn. constructor; [|auto]. intros (y & Heq & Hy)%list_elem_of_fmap. apply list_elem_of_filter in Hy as [_ Hy].
  apply Hx. rewrite Heq. apply list_elem_of_fmap. by exists y.
Qed.

Definition conflicts (a b : RouteEndpoint) : Prop :=
  re_registration_id a = re_registration_id b \/ re_worker_id a = re_worker_id b.

Lemma register_streams g e :
  streams_wf (rg_endpoints g) ->
  streams_wf (rg_endpoints (RouteGroup_register g e))
  /\ forall x, x ∈ rg_endpoints (RouteGroup_register g e) <-> x = e \/ (x ∈ rg_endpoints g /\ ~ conflicts x e).
Proof.
  intros [Hs Hn]. unfold RouteGroup_register. cbn [rg_endpoints].
  set (kept := filter _ _).
  assert (Hk : forall x, x ∈ kept <-> x ∈ rg_endpoints g /\ ~ conflicts x e).
  { intros x. unfold kept. rewrite list_elem_of_filter. unfold conflicts.
    rewrite andb_true_iff, !negb_true_iff, !Z.eqb_neq. tauto. }
  split; [split|].
  - apply sort_by_worker_sorted. rewrite fmap_app. apply NoDup_app. split_and!.
    + apply NoDup_fmap_filter. by apply strongly_sorted_workers.
    + intros w (x & -> & Hx)%list_elem_of_fmap. cbn. rewrite list_elem_of_singleton. intros Heq.
      apply Hk in Hx as [_ Hx]. apply Hx. by right.
    + apply NoDup_singleton.
  - rewrite sort_by_worker_perm, fmap_app. apply NoDup_app. split_and!.
    + by apply NoDup_fmap_filter.
    + intros w (x & -> & Hx)%list_elem_of_fmap. cbn. rewrite list_elem_of_singleton. intros Heq.
      apply Hk in Hx as [_ Hx]. apply Hx. by left.
    + apply NoDup_singleton.
  - intros x. rewrite sort_by_worker_perm, elem_of_app, list_elem_of_singleton, Hk. tauto.
Qed.

Lemma set_slot_first_fields sid rid slot l :
  re_worker_id <$> set_slot_first sid rid slot l = re_worker_id <$> l
  /\ re_registration_id <$> set_slot_first sid rid slot l = re_registration_id <$> l.
Proof.
  induction l as [|e l [IH1 IH2]]; [done|]. cbn. destruct (_ && _); cbn; [done|]. by rewrite IH1, IH2.
Qed.

Lemma sorted_of_workers l k :
  re_worker_id <$> l = re_worker_id <$> k -> StronglySorted worker_lt k -> StronglySorted worker_lt l.
Proof.
  revert k. induction l as [|x l IH]; intros [|y k] Heq Hk; try discriminate; [constructor|].
  cbn in Heq. injection Heq as Hxy Heq. apply StronglySorted_inv in Hk as [Hk Hy]. constructor; [by eapply IH|].
  apply Forall_forall. intros z Hz. assert (Hin : re_worker_id z ∈ re_worker_id <$> k)
    by (rewrite <- Heq; apply list_elem_of_fmap; eauto).
  apply list_elem_of_fmap in Hin as (w & Hw & Hin). rewrite Forall_forall in Hy. specialize (Hy w Hin). cbn in Hy. cbn. lia.
Qed.

Lemma select_wf s count class :
  scheduler_wf s -> 0 <= count ->
  let '(r, s') := LocalStripedScheduler_select s count class in
  scheduler_wf s' /\ match r with Some i => 0 <= i < count | None => count = 0 end.
Proof.
  intros Hwf Hc. unfold LocalStripedScheduler_select. destruct (count =? 0) eqn:E; bool_prop; [done|].
  pose proof (Hwf class) as Hcur. pose proof (stream_chunk_pos class) as Hch. destruct (cursor_of s class) as [nx rm ct] eqn:Ecur.
  cbn [lc_count lc_next lc_remaining].
  set (c1 := if negb (ct =? count) then _ else _).
  assert (H1 : 0 <= lc_next c1 < count /\ 0 <= lc_remaining c1 < stream_chunk class /\ lc_count c1 = count).
  { unfold c1, cursor_wf in *. cbn in Hcur. destruct (ct =? count) eqn:E1; bool_prop; cbn; lia. }
  clearbody c1. destruct H1 as (Hn & Hr & Hct).
  set (c2 := if lc_remaining c1 =? 0 then _ else _).
  assert (H2 : lc_next c2 = lc_next c1 /\ lc_count c2 = count /\ 0 < lc_remaining c2 <= stream_chunk class).
  { unfold c2. destruct (lc_remaining c1 =? 0) eqn:E2; bool_prop; cbn; lia. }
  clearbody c2. destruct H2 as (Hn2 & Hct2 & Hr2). split; [|lia].
  intros k. destruct (decide (k = class)) as [->|Hk].
  - assert (cursor_of (set_cursor s class (mkCursor (if lc_remaining c2 - 1 =? 0 then
       if lc_next c2 + 1 =? count then 0 else lc_next c2 + 1 else lc_next c2) (lc_remaining c2 - 1) (lc_count c2))) class
       = mkCursor (if lc_remaining c2 - 1 =? 0 then
       if lc_next c2 + 1 =? count then 0 else lc_next c2 + 1 else lc_next c2) (lc_remaining c2 - 1) (lc_count c2)) as -> by (by destruct class).
    right. cbn. destruct (_ - 1 =? 0) eqn:E3; [destruct (_ + 1 =? count) eqn:E4|]; bool_prop; lia.
  - specialize (Hwf k). destruct class, k; done.
Qed.

Lemma group_at_insert t i og key :
  (i < length t)%nat -> group_at (<[i := og]> t) key = if decide (Z.to_nat key = i) then og else group_at t key.
Proof.
  intros Hi. unfold group_at. case_decide; subst; [by rewrite list_lookup_insert_eq|by rewrite list_lookup_insert_ne].
Qed.

Lemma route_index_byte ip i : wf_bytes ip -> route_index ip = Some i -> 0 <= i < 256.
Proof.
  intros Hwf. destruct ip as [|a [|b [|c [|d [|]]]]]; try discriminate. cbn. destruct (bytes_eqb _ _); [|discriminate].
  intros [= <-]. unfold wf_bytes in Hwf. rewrite !Forall_cons in Hwf. unfold is_u8 in Hwf. lia.
Qed.

Lemma table_insert_wf t i og :
  table_wf t -> (i < 256)%nat -> (forall g, og = Some g -> group_wf g) -> table_wf (<[i := og]> t).
Proof.
  intros [Hl Hg] Hi Hog. split; [by rewrite length_insert|]. intros key g.
  rewrite group_at_insert by lia. case_decide; [apply Hog|apply Hg].
Qed.

Lemma default_scheduler_wf : scheduler_wf LocalStripedScheduler_default.
Proof. intros []; by left. Qed.

Lemma group_streams t key : table_wf t ->
  let g := default RouteGroup_default (group_at t key) in
  streams_wf (rg_endpoints g) /\ scheduler_wf (rg_scheduler g).
Proof.
  intros [_ Hg]. destruct (group_at t key) as [g|] eqn:E; cbn.
  - destruct (Hg key g E) as (_ & Hs & Hsch). by split.
  - split; [split; constructor|apply default_scheduler_wf].
Qed.

(** The operations of the table. *)
Inductive table_op :=
| TRegister (ip : bytes) (session_id registration_id worker_id slot : Z)
| TUpdateSlot (ip : bytes) (session_id registration_id slot : Z)
| TUnregister (ip : bytes) (registration_id : Z)
| TSelect (key : Z) (class : PacketClass).

Definition table_op_ok (o : table_op) : Prop :=
  match o with
  | TRegister ip _ _ _ _ | TUpdateSlot ip _ _ _ | TUnregister ip _ => wf_bytes ip
  | TSelect key _ => 0 <= key < 256
  end.

Definition table_apply (t : RouteTable) (o : table_op) : RouteTable :=
  match o with
  | TRegister ip sid rid wid slot => (RouteTable_register t ip sid rid wid slot).2
  | TUpdateSlot ip sid rid slot => RouteTable_update_slot t ip sid rid slot
  | TUnregister ip rid => (RouteTable_unregister t ip rid).2
  | TSelect key class => (select_key_window t key class).2
  end.

Lemma table_apply_wf t o : table_wf t -> table_op_ok o -> table_wf (table_apply t o).
Proof.
  intros Hwf Hok. pose proof Hwf as [Hl Hg]. destruct o as [ip sid rid wid slot|ip sid rid slot|ip rid|key class]; cbn [table_apply table_op_ok] in *.
  - unfold RouteTable_register. destruct (route_index ip) as [i|] eqn:Ei; [|done]. pose proof (route_index_byte ip i Hok Ei).
    cbn [snd]. apply table_insert_wf; [done|lia|]. intros g [= <-]. destruct (group_streams t i Hwf) as [Hs Hsch].
    destruct (register_streams (default RouteGroup_default (group_at t i)) (mkRouteEndpoint sid rid wid slot) Hs) as [Hs' Hin].
    split_and!; [|done|done]. intros Hnil. specialize (Hin (mkRouteEndpoint sid rid wid slot)). rewrite Hnil in Hin. set_solver.
  - unfold RouteTable_update_slot. destruct (route_index ip) as [i|] eqn:Ei; [|done]. pose proof (route_index_byte ip i Hok Ei).
    destruct (group_at t i) as [g|] eqn:Eg; [|done]. apply table_insert_wf; [done|lia|]. intros g' [= <-].
    destruct (Hg i g Eg) as (Hne & [Hs Hn] & Hsch). destruct (set_slot_first_fields sid rid slot (rg_endpoints g)) as [F1 F2].
    split_and!; [|split|done]; cbn.
    + intros Hnil. rewrite Hnil in F1. destruct (rg_endpoints g); done.
    + by eapply sorted_of_workers.
    + by rewrite F2.
  - unfold RouteTable_unregister. destruct (route_index ip) as [i|] eqn:Ei; [|done]. pose proof (route_index_byte ip i Hok Ei).
    destruct (group_at t i) as [g|] eqn:Eg; [|done]. cbn. apply table_insert_wf; [done|lia|].
    destruct (Hg i g Eg) as (Hne & [Hs Hn] & Hsch). unfold RouteGroup_is_empty; cbn.
    destruct (filter _ _) as [|e l] eqn:Ef; [done|]. intros g' [= <-]. rewrite <- Ef. split_and!; cbn; [by rewrite Ef|split|done].
    + by apply strongly_sorted_filter.
    + by apply NoDup_fmap_filter.
  - unfold select_key_window. destruct (group_at t key) as [g|] eqn:Eg; [|done].
    destruct (Hg key g Eg) as (Hne & Hs & Hsch). unfold RouteGroup_select_window.
    pose proof (select_wf (rg_scheduler g) (len (rg_endpoints g)) class Hsch (len_nonneg _)) as Hw.
    destruct (LocalStripedScheduler_select _ _ _) as [[st|] s']; destruct Hw as [Hw _]; cbn;
      (apply table_insert_wf; [done|lia|]; intros g' [= <-]; by split_and!).
Qed.

Lemma table_new_wf : table_wf RouteTable_new.
Proof.
  split; [apply length_replicate|]. intros key g. unfold group_at, RouteTable_new.
  destruct (_ !! _) as [og|] eqn:E; [|done]. by apply lookup_replicate in E as [-> _].
Qed.

(** After any sequence of registrations, removals, slot updates and
    selections, every client's streams are ordered by worker number with no
    worker and no registration twice, and no cursor points outside. *)
Theorem route_table_invariant ops :
  Forall table_op_ok ops -> table_wf (foldl table_apply RouteTable_new ops).
Proof.
  intros Hops. assert (Hgen : forall t, table_wf t -> table_wf (foldl table_apply t ops)).
  { induction Hops as [|o ops Ho _ IH]; intros t Ht; [done|]. cbn. apply IH. by apply table_apply_wf. }
  apply Hgen, table_new_wf.
Qed.

Definition demo_ops : list table_op :=
  [TRegister [10; 66; 67; 7] 100 10 4 1; TRegister [10; 66; 67; 7] 300 30 2 3;
   TRegister [10; 66; 67; 7] 200 20 4 2; TUnregister [10; 66; 67; 7] 10].

Lemma route_table_invariant_witness :
  (rg_endpoints <$> group_at (foldl table_apply RouteTable_new demo_ops) 7)
    = Some [mkRouteEndpoint 300 30 2 3; mkRouteEndpoint 200 20 4 2]
  /\ table_wf (foldl table_apply RouteTable_new demo_ops).
Proof.
  split; [vm_compute; reflexivity|]. apply (route_table_invariant demo_ops).
  unfold demo_ops. rewrite !Forall_cons. cbn [table_op_ok].
  split_and!; try (apply (bool_decide_unpack _); vm_compute; exact I). constructor.
Defined.

Lemma filter_length_le {A} (P : A -> Prop) `{!forall x, Decision (P x)} l : (length (filter P l) <= length l)%nat.
Proof. induction l as [|x l IH]; [done|]. rewrite filter_cons. case_decide; cbn [length]; lia. Qed.

Lemma filter_length_all {A} (P : A -> Prop) `{!forall x, Decision (P x)} l :
  length (filter P l) = length l <-> Forall P l.
Proof.
  induction l as [|x l IH]; [by split|]. rewrite filter_cons, Forall_cons. pose proof (filter_length_le P l).
  case_decide; cbn [length]; [rewrite <- IH|]; split; try tauto; try lia.
  intros Heq; split; [done|lia].
Qed.

(** Registering a stream for a tunnel address makes it one of that
    address's streams, replaces exactly the streams with its registration or
    its worker number, and leaves every other address alone; removing a
    registration removes exactly that one, reports whether it was there, and
    frees the group when it was the last. *)
Theorem route_register_unregister t ip key sid rid wid slot rid' :
  table_wf t -> wf_bytes ip -> route_index ip = Some key ->
  let e := mkRouteEndpoint sid rid wid slot in
  let streams u := match group_at u key with Some g => rg_endpoints g | None => [] end in
  let t1 := (RouteTable_register t ip sid rid wid slot).2 in
  let '(removed, t2) := RouteTable_unregister t ip rid' in
  (RouteTable_register t ip sid rid wid slot).1 = true
  /\ (forall x, x ∈ streams t1 <-> x = e \/ (x ∈ streams t /\ ~ conflicts x e))
  /\ (forall k, 0 <= k -> k <> key -> group_at t1 k = group_at t k /\ group_at t2 k = group_at t k)
  /\ (forall x, x ∈ streams t2 <-> x ∈ streams t /\ re_registration_id x <> rid')
  /\ (removed = true <-> exists x, x ∈ streams t /\ re_registration_id x = rid')
  /\ (streams t2 = [] <-> group_at t2 key = None).
Proof.
  intros Hwf Hip Hkey. cbv zeta. pose proof (route_index_byte ip key Hip Hkey) as Hb. pose proof Hwf as [Hl Hg].
  assert (Hlen : (Z.to_nat key < length t)%nat) by lia.
  unfold RouteTable_register, RouteTable_unregister. rewrite Hkey. cbn [fst snd].
  destruct (group_streams t key Hwf) as [Hs _].
  destruct (register_streams (default RouteGroup_default (group_at t key)) (mkRouteEndpoint sid rid wid slot) Hs) as [_ Hin].
  assert (Hself : forall og, group_at (<[Z.to_nat key := og]> t) key = og) by (intros; rewrite group_at_insert by done; by rewrite decide_True).
  assert (Hoth : forall og k, 0 <= k -> k <> key -> group_at (<[Z.to_nat key := og]> t) k = group_at t k)
    by (intros; rewrite group_at_insert by done; rewrite decide_False; [done|lia]).
  destruct (group_at t key) as [g|] eqn:Eg; cbn [default] in Hin.
  - change (id g) with g in *. cbn [RouteGroup_unregister]. rewrite !Hself. split; [done|]. split; [exact Hin|].
    split; [intros k Hk1 Hk2; by rewrite !Hoth|]. set (kept := filter _ _).
    assert (Hkept : forall x, x ∈ kept <-> x ∈ rg_endpoints g /\ re_registration_id x <> rid')
      by (intros x; unfold kept; rewrite list_elem_of_filter; tauto).
    unfold RouteGroup_is_empty; cbn [rg_endpoints]. split_and!.
    + intros x. rewrite <- Hkept. destruct kept; done.
    + rewrite negb_true_iff, Z.eqb_neq. unfold len, kept. rewrite Nat2Z.inj_iff, filter_length_all.
      rewrite Forall_forall. split.
      * intros Hne. destruct (decide (Exists (fun x => re_registration_id x = rid') (rg_endpoints g))) as [Hex|Hno].
        -- apply Exists_exists in Hex as (x & Hx & Hr). by exists x.
        -- exfalso. apply Hne. intros x Hx Hr. apply Hno, Exists_exists. by exists x.
      * intros (x & Hx & Hr) Hall. by apply (Hall x).
    + destruct kept; done.
  - rewrite Hself, Eg. split_and!; try done; [intros k Hk1 Hk2; by rewrite Hoth|set_solver|].
    split; [done|]. intros (x & Hx & _). set_solver.
Qed.

Definition demo_table : RouteTable := foldl table_apply RouteTable_new demo_ops.

Lemma demo_table_wf : table_wf demo_table.
Proof.
  unfold demo_table, demo_ops. cbn [foldl].
  repeat (apply table_apply_wf; [|apply (bool_decide_unpack _); vm_compute; exact I]). apply table_new_wf.
Qed.

Lemma route_register_unregister_witness :
  let t1 := (RouteTable_register demo_table [10; 66; 67; 7] 500 50 4 9).2 in
  (RouteTable_register demo_table [10; 66; 67; 7] 500 50 4 9).1 = true
  /\ (rg_endpoints <$> group_at t1 7) = Some [mkRouteEndpoint 300 30 2 3; mkRouteEndpoint 500 50 4 9].
Proof.
  split; [|vm_compute; reflexivity].
  pose proof (route_register_unregister demo_table [10; 66; 67; 7] 7 500 50 4 9 30 demo_table_wf
    ltac:(apply (bool_decide_unpack _); vm_compute; exact I) eq_refl) as H. cbv zeta in H.
  destruct (RouteTable_unregister demo_table [10; 66; 67; 7] 30) as [r t2]. exact (proj1 H).
Defined.

(** ** Selection *)

(** A selection for a client with streams succeeds, and its candidates, read
    off at offsets 0, 1, ..., are all of the client's streams exactly once, in
    order from the chosen one; past them there is nothing. *)
Theorem route_selection_covers t key g class :
  table_wf t -> 0 <= key < 256 -> group_at t key = Some g ->
  exists sel t', select_key_window t key class = (Some sel, t')
    /\ 0 <= rsel_start sel < len (rg_endpoints g) /\ rsel_len sel = len (rg_endpoints g)
    /\ (RouteTable_endpoint_at t' key sel <$> seqZ 0 (rsel_len sel))
       = Some <$> rotate (Z.to_nat (rsel_start sel)) (rg_endpoints g)
    /\ (forall offset, rsel_len sel <= offset -> RouteTable_endpoint_at t' key sel offset = None).
Proof.
  intros [Hl Hg] Hk Hgr. destruct (Hg key g Hgr) as (Hne & Hs & Hsch). set (l := rg_endpoints g) in *.
  assert (Hpos : 0 < len l) by (destruct l; [done|rewrite len_cons; pose proof (len_nonneg l); lia]).
  unfold select_key_window. rewrite Hgr. unfold RouteGroup_select_window. fold l.
  pose proof (select_wf (rg_scheduler g) (len l) class Hsch (len_nonneg _)) as Hw.
  destruct (LocalStripedScheduler_select _ _ _) as [[st|] s']; destruct Hw as [_ Hst]; [|lia].
  eexists _, _. split; [reflexivity|]. cbn [rsel_start rsel_len]. split; [done|]. split; [done|].
  assert (Hat : forall off, RouteTable_endpoint_at (<[Z.to_nat key := Some (mkRouteGroup l s')]> t) key
      (mkRouteSelection st (len l)) off = RouteGroup_endpoint_at (mkRouteGroup l s') (mkRouteSelection st (len l)) off).
  { intros off. unfold RouteTable_endpoint_at. rewrite group_at_insert by lia. by rewrite decide_True. }
  unfold RouteGroup_endpoint_at in Hat. cbn [rsel_start rsel_len rg_endpoints] in Hat. split.
  - apply list_eq. intros i. rewrite !list_lookup_fmap. destruct (decide (i < length l)%nat) as [Hi|Hi].
    + rewrite lookup_seqZ_lt by (unfold len; lia). cbn [fmap option_fmap option_map]. rewrite Hat. unfold len in *.
      replace (Z.of_nat (length l) <=? 0 + Z.of_nat i) with false by lia.
      replace (Z.of_nat (length l) =? 0) with false by lia. cbn [orb].
      rewrite lookup_rotate_r by done.
      rewrite rotate_nat_add_add_mod. unfold rotate_nat_add.
      replace (if _ <=? _ then _ else _) with ((st + Z.of_nat i) mod Z.of_nat (length l)); [|].
      2: { destruct (_ <=? _) eqn:E; bool_prop; [|apply Z.mod_small; lia].
           replace (st + (0 + Z.of_nat i) - Z.of_nat (length l)) with ((st + Z.of_nat i) - 1 * Z.of_nat (length l)) by lia.
           rewrite <- (Z.mod_small (st + Z.of_nat i - 1 * Z.of_nat (length l)) (Z.of_nat (length l))) by lia.
           rewrite Zminus_mod, Z.mod_mul, Z.sub_0_r, Z.mod_mod by lia. done. }
      rewrite (Nat.mod_small (Z.to_nat st)) by lia.
      replace (Z.of_nat (Z.to_nat st)) with st by lia.
      destruct (lookup_lt_is_Some_2 l (Z.to_nat ((st + Z.of_nat i) mod Z.of_nat (length l)))) as [x Hx].
      { pose proof (Z.mod_pos_bound (st + Z.of_nat i) (Z.of_nat (length l)) ltac:(lia)). lia. }
      by rewrite Hx.
    + rewrite lookup_seqZ_ge by (unfold len; lia). rewrite lookup_ge_None_2; [done|]. rewrite length_rotate. lia.
  - intros off Hoff. rewrite Hat. by replace (len l <=? off) with true by lia.
Qed.

Lemma route_selection_covers_witness :
  exists sel t', select_key_window demo_table 7 Bulk = (Some sel, t')
    /\ (RouteTable_endpoint_at t' 7 sel <$> [0; 1; 2])
       = [Some (mkRouteEndpoint 300 30 2 3); Some (mkRouteEndpoint 200 20 4 2); None]
    /\ 0 <= rsel_start sel.
Proof.
  destruct (group_at demo_table 7) as [g|] eqn:E; [|vm_compute in E; discriminate].
  destruct (route_selection_covers demo_table 7 g Bulk demo_table_wf ltac:(lia) E) as (sel & t' & H1 & H2 & _).
  exists sel, t'. split; [exact H1|]. split; [|lia].
  vm_compute in H1. injection H1 as <- <-. vm_compute. reflexivity.
Defined.

(** ** Striping *)

Fixpoint stripe_run (s : LocalStripedScheduler) (count : Z) (class : PacketClass) (k : nat)
    : list (option Z) * LocalStripedScheduler :=
  match k with
  | O => ([], s)
  | S k =>
      let '(l, s) := stripe_run s count class k in
      let '(r, s) := LocalStripedScheduler_select s count class in (l ++ [r], s)
  end.

(** The cursor after [k] packets over [n] streams. *)
Definition stripe_state (n : Z) (class : PacketClass) (k : Z) (c : LocalStripeCursor) : Prop :=
  let chunk := stream_chunk class in
  lc_count c = n /\ lc_next c = (k / chunk) mod n
  /\ lc_remaining c = (if k mod chunk =? 0 then 0 else chunk - k mod chunk).

Lemma stripe_step s n class k :
  0 < n -> 0 <= k ->
  (stripe_state n class k (cursor_of s class) \/ (k = 0 /\ lc_count (cursor_of s class) <> n)) ->
  let '(r, s') := LocalStripedScheduler_select s n class in
  r = Some ((k / stream_chunk class) mod n) /\ stripe_state n class (k + 1) (cursor_of s' class)
  /\ forall other, other <> class -> cursor_of s' other = cursor_of s other.
Proof.
  intros Hn Hk Hst. pose proof (stream_chunk_pos class) as Hch. set (ch := stream_chunk class) in *.
  unfold LocalStripedScheduler_select. replace (n =? 0) with false by lia. fold ch.
  set (c1 := if negb (lc_count (cursor_of s class) =? n) then _ else _).
  assert (H1 : stripe_state n class k c1).
  { unfold c1. destruct Hst as [Hst|[-> Hne]].
    - pose proof Hst as (-> & _ & _). rewrite Z.eqb_refl. done.
    - replace (lc_count _ =? n) with false by lia. unfold stripe_state. cbn [negb lc_count lc_next lc_remaining]. fold ch.
      rewrite Z.div_0_l, !Z.mod_0_l by lia. done. }
  clearbody c1. destruct H1 as (Hc & Hnx & Hrm). fold ch in Hnx, Hrm.
  pose proof (Z.mod_pos_bound k ch Hch) as Hmb. pose proof (Z.div_mod k ch ltac:(lia)) as Hdm.
  set (c2 := if lc_remaining c1 =? 0 then _ else _).
  assert (H2 : lc_count c2 = n /\ lc_next c2 = (k / ch) mod n /\ lc_remaining c2 = ch - k mod ch).
  { unfold c2. rewrite Hrm. destruct (k mod ch =? 0) eqn:E; bool_prop.
    - cbn. rewrite Hc, Hnx. lia.
    - replace (ch - k mod ch =? 0) with false by lia. rewrite Hc, Hnx, Hrm. done. }
  clearbody c2. destruct H2 as (Hc2 & Hn2 & Hr2). rewrite Hn2. split; [done|]. split.
  - assert (Hget : forall c, cursor_of (set_cursor s class c) class = c) by (by destruct class). rewrite Hget.
    unfold stripe_state. cbn [lc_count lc_next lc_remaining]. fold ch. rewrite Hr2.
    pose proof (Z.mod_pos_bound (k / ch) n Hn) as Hqb.
    destruct (decide (k mod ch = ch - 1)) as [Hlast|Hlast].
    + assert (Hk1 : k + 1 = (k / ch + 1) * ch) by nia.
      rewrite Hk1, Z.div_mul, Z.mod_mul by lia. replace (ch - k mod ch - 1 =? 0) with true by lia.
      split; [done|]. split; [|cbn; lia].
      rewrite <- Z.add_mod_idemp_l by lia. destruct (_ + 1 =? n) eqn:E; bool_prop.
      * by rewrite E, Z.mod_same by lia.
      * by rewrite (Z.mod_small ((k / ch) mod n + 1) n) by lia.
    + assert (Hd : (k + 1) / ch = k / ch) by (symmetry; apply (Z.div_unique _ _ _ (k mod ch + 1)); lia).
      assert (Hm : (k + 1) mod ch = k mod ch + 1) by (symmetry; apply (Z.mod_unique _ _ (k / ch)); lia).
      rewrite Hd, Hm.
      replace (ch - k mod ch - 1 =? 0) with false by lia. replace (k mod ch + 1 =? 0) with false by lia.
      split; [done|]. split; [done|lia].
  - intros other Ho. destruct class, other; done.
Qed.

(** Over a fixed number [n] of streams, the [i]-th packet of a class goes to
    stream [(i / chunk) mod n] with the class's chunk: the streams are used in
    turn, a chunk of packets each, and the other classes' turns are not
    disturbed. *)
Theorem striping_round_robin s n class k :
  0 < n -> lc_count (cursor_of s class) <> n ->
  (stripe_run s n class k).1 = (fun i => Some ((i / stream_chunk class) mod n)) <$> seqZ 0 (Z.of_nat k)
  /\ forall other, other <> class -> cursor_of (stripe_run s n class k).2 other = cursor_of s other.
Proof.
  intros Hn Hne.
  assert (H : (stripe_run s n class k).1 = (fun i => Some ((i / stream_chunk class) mod n)) <$> seqZ 0 (Z.of_nat k)
    /\ (stripe_state n class (Z.of_nat k) (cursor_of (stripe_run s n class k).2 class)
        \/ (k = 0%nat /\ lc_count (cursor_of (stripe_run s n class k).2 class) <> n))
    /\ forall other, other <> class -> cursor_of (stripe_run s n class k).2 other = cursor_of s other).
  { induction k as [|k (IH1 & IH2 & IH3)]; [cbn; split_and!; auto|].
    cbn [stripe_run]. destruct (stripe_run s n class k) as [l s1]. cbn [fst snd] in *.
    pose proof (stripe_step s1 n class (Z.of_nat k) Hn ltac:(lia)) as Hstep.
    destruct (LocalStripedScheduler_select s1 n class) as [r s2]. cbn [fst snd].
    destruct Hstep as (-> & Hst & Hoth); [destruct IH2 as [?|[-> ?]]; [by left|right; by split]|].
    split_and!.
    - rewrite IH1, Nat2Z.inj_succ, <- Z.add_1_r, seqZ_app, fmap_app by lia. cbn. by rewrite Z.add_0_l.
    - left. by rewrite Nat2Z.inj_succ, <- Z.add_1_r.
    - intros other Ho. rewrite Hoth by done. by apply IH3. }
  destruct H as (H1 & _ & H3). by split.
Qed.

Lemma striping_round_robin_witness :
  (stripe_run LocalStripedScheduler_default 3 Bulk 4).1
  = (fun i => Some ((i / stream_chunk Bulk) mod 3)) <$> seqZ 0 4.
Proof. exact (proj1 (striping_round_robin LocalStripedScheduler_default 3 Bulk 4 ltac:(lia) ltac:(done))). Defined.

(** ** The streams of a client, operation by operation *)

Definition streams_at (t : RouteTable) (key : Z) : list RouteEndpoint :=
  match group_at t key with Some g => rg_endpoints g | None => [] end.

Lemma streams_at_insert t i og key : (i < length t)%nat ->
  streams_at (<[i := og]> t) key
  = if decide (Z.to_nat key = i) then match og with Some g => rg_endpoints g | None => [] end else streams_at t key.
Proof. intros Hi. unfold streams_at. rewrite group_at_insert by done. by case_decide. Qed.

Lemma streams_register t ip key sid rid wid slot k x :
  table_wf t -> wf_bytes ip -> route_index ip = Some key -> 0 <= k ->
  let e := mkRouteEndpoint sid rid wid slot in
  x ∈ streams_at (RouteTable_register t ip sid rid wid slot).2 k
  <-> if decide (k = key) then x = e \/ (x ∈ streams_at t key /\ ~ conflicts x e) else x ∈ streams_at t k.
Proof.
  intros Hwf Hip Hkey Hk e. pose proof (route_index_byte ip key Hip Hkey) as Hb. pose proof Hwf as [Hl _].
  unfold RouteTable_register. rewrite Hkey. cbn [snd]. rewrite streams_at_insert by lia.
  destruct (decide (k = key)) as [->|Hne]; [rewrite decide_True by done|rewrite decide_False by lia; done].
  destruct (group_streams t key Hwf) as [Hs _]. pose proof (proj2 (register_streams _ e Hs) x) as Hr.
  unfold streams_at. destruct (group_at t key); exact Hr.
Qed.

Lemma streams_unregister t ip key rid k x :
  table_wf t -> wf_bytes ip -> route_index ip = Some key -> 0 <= k ->
  x ∈ streams_at (RouteTable_unregister t ip rid).2 k
  <-> x ∈ streams_at t k /\ (k = key -> re_registration_id x <> rid).
Proof.
  intros Hwf Hip Hkey Hk. pose proof (route_index_byte ip key Hip Hkey) as Hb. pose proof Hwf as [Hl _].
  unfold RouteTable_unregister. rewrite Hkey. destruct (group_at t key) as [g|] eqn:Eg.
  - cbn. rewrite streams_at_insert by lia. destruct (decide (k = key)) as [->|Hne]; [rewrite decide_True by done|rewrite decide_False by lia; tauto].
    set (kept := filter _ _). replace (match (if RouteGroup_is_empty _ then _ else _) with Some g => _ | None => _ end) with kept
      by (unfold RouteGroup_is_empty; cbn; by destruct kept).
    unfold kept, streams_at. rewrite list_elem_of_filter, Eg. tauto.
  - cbn. split; [|tauto]. intros Hx. split; [done|]. intros ->. unfold streams_at in Hx. rewrite Eg in Hx. set_solver.
Qed.

Lemma streams_select t key class k : table_wf t -> 0 <= key < 256 ->
  streams_at (select_key_window t key class).2 k = streams_at t k.
Proof.
  intros [Hl _] Hk. unfold select_key_window. destruct (group_at t key) as [g|] eqn:Eg; [|done].
  unfold RouteGroup_select_window. destruct (LocalStripedScheduler_select _ _ _) as [[st|] s']; cbn;
    (rewrite streams_at_insert by lia; case_decide as E; [|done]; unfold streams_at, group_at in *; by rewrite E, Eg).
Qed.

Lemma set_slot_first_spec sid rid slot l x :
  NoDup (re_registration_id <$> l) ->
  x ∈ set_slot_first sid rid slot l ->
  (x ∈ l /\ ~ (re_session_id x = sid /\ re_registration_id x = rid))
  \/ (re_session_id x = sid /\ re_registration_id x = rid /\ re_slot x = slot).
Proof.
  induction l as [|e l IH]; [set_solver|]. cbn. intros [Hn Hl]%NoDup_cons.
  destruct (_ && _) eqn:E; bool_prop; intros [->|Hx]%elem_of_cons.
  - right. cbn. done.
  - left. split; [set_solver|]. intros [_ Hr]. apply Hn. apply list_elem_of_fmap. exists x. split; [congruence|done].
  - left. split; [set_solver|]. intros [H1 H2]. destruct E; lia.
  - destruct (IH Hl Hx) as [[H1 H2]|H1]; [left; split; [set_solver|done]|by right].
Qed.

Lemma streams_update_slot t ip key sid rid slot k x :
  table_wf t -> wf_bytes ip -> route_index ip = Some key -> 0 <= k ->
  x ∈ streams_at (RouteTable_update_slot t ip sid rid slot) k ->
  (x ∈ streams_at t k /\ ~ (k = key /\ re_session_id x = sid /\ re_registration_id x = rid))
  \/ (k = key /\ re_session_id x = sid /\ re_registration_id x = rid /\ re_slot x = slot).
Proof.
  intros Hwf Hip Hkey Hk. pose proof (route_index_byte ip key Hip Hkey) as Hb. pose proof Hwf as [Hl Hg].
  unfold RouteTable_update_slot. rewrite Hkey. destruct (group_at t key) as [g|] eqn:Eg.
  - rewrite streams_at_insert by lia. destruct (decide (k = key)) as [->|Hne]; [rewrite decide_True by done|rewrite decide_False by lia; tauto].
    cbn. destruct (Hg key g Eg) as (_ & [_ Hn] & _). intros [[H1 H2]|H1]%set_slot_first_spec; [|right; tauto|done].
    left. split; [unfold streams_at; by rewrite Eg|tauto].
  - intros Hx. left. split; [done|]. intros [-> _]. unfold streams_at in Hx. rewrite Eg in Hx. set_solver.
Qed.
