(* ===== verification/Downlink.v ===== *)
(** * The server's downlink queues ([rust-server/downlink_queue.rs])

    Packets read from the TUN device wait, per client and class, in a fixed
    number of buffer slots; three rings over the clients with streams decide
    whose packet is sent next. *)

From S2P Require Import Prelude FlowFrame Classify Packet.

Definition LATENCY_SLOTS : Z := 16.
Definition PRIORITY_MIN_SLOTS : Z := 32.
Definition PRIORITY_MAX_SLOTS : Z := 252.
Definition PRIORITY_SLOTS_PER_PATH : Z := 2.
Definition BULK_MIN_SLOTS : Z := 72.
Definition BULK_MAX_SLOTS : Z := 1008.
Definition BULK_SLOTS_PER_PATH : Z := 8.

Record ClientQueueProfile := mkProfile { latency_slots : Z; priority_slots : Z; bulk_slots : Z }.

Definition clamp (x lo hi : Z) : Z := Z.min (Z.max x lo) hi.
Definition limit_paths (active_paths : Z) : Z := Z.min active_paths (PRIORITY_MAX_SLOTS / PRIORITY_SLOTS_PER_PATH).

Definition profile_for_active_paths (active_paths : Z) : ClientQueueProfile :=
  let active_paths := limit_paths active_paths in
  if active_paths =? 0 then mkProfile 0 0 0
  else mkProfile LATENCY_SLOTS
         (clamp (sat_mul active_paths PRIORITY_SLOTS_PER_PATH) PRIORITY_MIN_SLOTS PRIORITY_MAX_SLOTS)
         (clamp (sat_mul active_paths BULK_SLOTS_PER_PATH) BULK_MIN_SLOTS BULK_MAX_SLOTS).

(** ** The slots of one class: [free] is a stack with its top at the head. *)

Record PacketSlots := mkSlots { ps_free : list ServerBuf; ps_pending : list ServerBuf }.
Definition PacketSlots_default : PacketSlots := mkSlots [] [].

Definition slots_total (s : PacketSlots) : Z := len (ps_free s) + len (ps_pending s).

(** The two loops of [resize], one iteration at a time. *)
Fixpoint grow (fuel : nat) (s : PacketSlots) (capacity : Z) : PacketSlots :=
  match fuel with
  | O => s
  | S fuel => if slots_total s <? capacity
              then grow fuel (mkSlots (PacketBuffer_new :: ps_free s) (ps_pending s)) capacity else s
  end.
Fixpoint shrink (fuel : nat) (s : PacketSlots) (capacity : Z) : PacketSlots :=
  match fuel with
  | O => s
  | S fuel => if capacity <? slots_total s
              then shrink fuel (match ps_free s with
                                | _ :: free => mkSlots free (ps_pending s)
                                | [] => mkSlots [] (removelast (ps_pending s))
                                end) capacity
              else s
  end.

Definition PacketSlots_resize (s : PacketSlots) (capacity : Z) : PacketSlots :=
  let s := grow (Z.to_nat capacity) s capacity in
  let s := shrink (Z.to_nat (slots_total s)) s capacity in
  if capacity =? 0 then mkSlots [] [] else s.

Definition PacketSlots_enqueue (s : PacketSlots) (packet : bytes) : opt (bool * PacketSlots) :=
  match ps_free s with
  | [] => Ok (false, s)
  | slot :: free =>
      r ← ServerBuf_copy_from slot packet;
      match r with
      | (false, slot) => Ok (false, mkSlots (slot :: free) (ps_pending s))
      | (true, slot) => Ok (true, mkSlots free (ps_pending s ++ [slot]))
      end
  end.

Definition PacketSlots_enqueue_framed (s : PacketSlots) (header : FrameHeader) (packet : bytes) : opt (bool * PacketSlots) :=
  match ps_free s with
  | [] => Ok (false, s)
  | slot :: free =>
      let total := sat_add (len packet) FRAME_LEN in
      if PACKET_CAPACITY <? total then Ok (false, s) else
      let '(fits, slot) := ServerBuf_set_len slot total in
      if negb fits then Ok (false, mkSlots (slot :: free) (ps_pending s)) else
      output ← ServerBuf_as_slice slot;
      head ← slice output 0 FRAME_LEN;
      encoded ← FrameHeader_encode header head;
      let '(done_, head) := encoded in
      if negb done_ then Ok (false, mkSlots (slot :: free) (ps_pending s)) else
      output ← copy_into output 0 FRAME_LEN head;
      output ← copy_into output FRAME_LEN (len output) packet;
      storage ← copy_into (sb_storage slot) 0 (sb_len slot) output;
      Ok (true, mkSlots free (ps_pending s ++ [mkServerBuf storage (sb_len slot)]))
  end.

Definition PacketSlots_dequeue (s : PacketSlots) : option ServerBuf * PacketSlots :=
  match ps_pending s with
  | [] => (None, s)
  | p :: pending => (Some p, mkSlots (ps_free s) pending)
  end.
Definition PacketSlots_requeue_front (s : PacketSlots) (packet : ServerBuf) : PacketSlots :=
  mkSlots (ps_free s) (packet :: ps_pending s).
Definition PacketSlots_recycle (s : PacketSlots) (packet : ServerBuf) : PacketSlots :=
  mkSlots (packet :: ps_free s) (ps_pending s).
Definition PacketSlots_clear_pending (s : PacketSlots) : PacketSlots :=
  mkSlots (rev (ps_pending s) ++ ps_free s) [].

(** ** The lane of one client *)

Record ClientEgressLane := mkLane {
  la_active_paths : Z; la_latency : PacketSlots; la_priority : PacketSlots; la_bulk : PacketSlots;
}.
Definition ClientEgressLane_default : ClientEgressLane :=
  mkLane 0 PacketSlots_default PacketSlots_default PacketSlots_default.

Definition ClientEgressLane_configure (l : ClientEgressLane) (active_paths : Z) : ClientEgressLane :=
  let active_paths := limit_paths active_paths in
  let profile := profile_for_active_paths active_paths in
  mkLane active_paths (PacketSlots_resize (la_latency l) (latency_slots profile))
    (PacketSlots_resize (la_priority l) (priority_slots profile)) (PacketSlots_resize (la_bulk l) (bulk_slots profile)).

(** [queue_mut(class)]: the place it borrows. *)
Definition lane_queue (l : ClientEgressLane) (class : PacketClass) : PacketSlots :=
  match class with Small => la_latency l | Medium => la_priority l | Bulk => la_bulk l end.
Definition lane_set (l : ClientEgressLane) (class : PacketClass) (s : PacketSlots) : ClientEgressLane :=
  match class with
  | Small => mkLane (la_active_paths l) s (la_priority l) (la_bulk l)
  | Medium => mkLane (la_active_paths l) (la_latency l) s (la_bulk l)
  | Bulk => mkLane (la_active_paths l) (la_latency l) (la_priority l) s
  end.
Definition ClientEgressLane_clear_pending (l : ClientEgressLane) : ClientEgressLane :=
  mkLane (la_active_paths l) (PacketSlots_clear_pending (la_latency l))
    (PacketSlots_clear_pending (la_priority l)) (PacketSlots_clear_pending (la_bulk l)).

(** ** The queue *)

Record DownlinkQueue := mkDownlink {
  dq_lanes : list ClientEgressLane;
  dq_latency_ring : list Z; dq_priority_ring : list Z; dq_bulk_ring : list Z;
  dq_latency_cursor : Z; dq_priority_cursor : Z; dq_bulk_cursor : Z;
}.
Definition DownlinkQueue_default : DownlinkQueue :=
  mkDownlink (replicate 256 ClientEgressLane_default) [] [] [] 0 0 0.

Definition with_lane (q : DownlinkQueue) (key : Z) (l : ClientEgressLane) : DownlinkQueue :=
  mkDownlink (<[Z.to_nat key := l]> (dq_lanes q)) (dq_latency_ring q) (dq_priority_ring q) (dq_bulk_ring q)
    (dq_latency_cursor q) (dq_priority_cursor q) (dq_bulk_cursor q).

(** The keys the loop over [lanes.iter().enumerate()] pushes, each as often as
    [weight] says. *)
Definition ring_keys (weight : ClientEgressLane -> Z) (lanes : list ClientEgressLane) : list Z :=
  mjoin (imap (fun key lane => if la_active_paths lane =? 0 then []
                                else replicate (Z.to_nat (weight lane)) (Z.of_nat key)) lanes).

Definition rebuild_rings (q : DownlinkQueue) : DownlinkQueue :=
  let latency := ring_keys (fun _ => 1) (dq_lanes q) in
  let priority := ring_keys (fun _ => 1) (dq_lanes q) in
  let bulk := ring_keys la_active_paths (dq_lanes q) in
  mkDownlink (dq_lanes q) latency priority bulk
    (dq_latency_cursor q mod Z.max (len latency) 1) (dq_priority_cursor q mod Z.max (len priority) 1)
    (dq_bulk_cursor q mod Z.max (len bulk) 1).

Definition DownlinkQueue_configure (q : DownlinkQueue) (key active_paths : Z) : DownlinkQueue :=
  match dq_lanes q !! Z.to_nat key with
  | None => q
  | Some lane =>
      if la_active_paths lane =? limit_paths active_paths then q
      else rebuild_rings (with_lane q key (ClientEgressLane_configure lane active_paths))
  end.

(** [self.lanes.get_mut(key).is_some_and(|lane| lane.active_paths != 0 && f(..))] *)
Definition on_lane (q : DownlinkQueue) (key : Z) (class : PacketClass)
    (f : PacketSlots -> opt (bool * PacketSlots)) : opt (bool * DownlinkQueue) :=
  match dq_lanes q !! Z.to_nat key with
  | None => Ok (false, q)
  | Some lane =>
      if la_active_paths lane =? 0 then Ok (false, q)
      else r ← f (lane_queue lane class); mret (r.1, with_lane q key (lane_set lane class r.2))
  end.

Definition DownlinkQueue_enqueue (q : DownlinkQueue) (key : Z) (class : PacketClass) (packet : bytes) :=
  on_lane q key class (fun s => PacketSlots_enqueue s packet).
Definition DownlinkQueue_enqueue_framed (q : DownlinkQueue) (key : Z) (class : PacketClass) (header : FrameHeader)
    (packet : bytes) :=
  on_lane q key class (fun s => PacketSlots_enqueue_framed s header packet).

Definition ring_of (q : DownlinkQueue) (class : PacketClass) : list Z :=
  match class with Small => dq_latency_ring q | Medium => dq_priority_ring q | Bulk => dq_bulk_ring q end.
Definition ring_len (q : DownlinkQueue) (class : PacketClass) : Z := len (ring_of q class).
Definition ring_cursor (q : DownlinkQueue) (class : PacketClass) : Z :=
  match class with Small => dq_latency_cursor q | Medium => dq_priority_cursor q | Bulk => dq_bulk_cursor q end.
Definition with_cursor (q : DownlinkQueue) (class : PacketClass) (c : Z) : DownlinkQueue :=
  match class with
  | Small => mkDownlink (dq_lanes q) (dq_latency_ring q) (dq_priority_ring q) (dq_bulk_ring q) c (dq_priority_cursor q) (dq_bulk_cursor q)
  | Medium => mkDownlink (dq_lanes q) (dq_latency_ring q) (dq_priority_ring q) (dq_bulk_ring q) (dq_latency_cursor q) c (dq_bulk_cursor q)
  | Bulk => mkDownlink (dq_lanes q) (dq_latency_ring q) (dq_priority_ring q) (dq_bulk_ring q) (dq_latency_cursor q) (dq_priority_cursor q) c
  end.

Definition next_key (q : DownlinkQueue) (class : PacketClass) : option (Z * DownlinkQueue) :=
  let ring := ring_of q class in
  let cursor := ring_cursor q class in
  match ring !! Z.to_nat cursor with
  | None => None
  | Some key => Some (key, with_cursor q class (if cursor + 1 =? len ring then 0 else cursor + 1))
  end.

(** The [for _ in 0..attempts] loop; [&mut self.lanes[key]] can panic. *)
Fixpoint dequeue_loop (attempts : nat) (q : DownlinkQueue) (class : PacketClass)
    : opt (option (Z * ServerBuf) * DownlinkQueue) :=
  match attempts with
  | O => Ok (None, q)
  | S attempts =>
      match next_key q class with
      | None => Ok (None, q)
      | Some (key, q) =>
          lane ← at_ (dq_lanes q) key;
          match PacketSlots_dequeue (lane_queue lane class) with
          | (Some packet, s) => Ok (Some (key, packet), with_lane q key (lane_set lane class s))
          | (None, _) => dequeue_loop attempts q class
          end
      end
  end.
Definition DownlinkQueue_dequeue (q : DownlinkQueue) (class : PacketClass) : opt (option (Z * ServerBuf) * DownlinkQueue) :=
  dequeue_loop (Z.to_nat (ring_len q class)) q class.

Definition DownlinkQueue_requeue_front (q : DownlinkQueue) (key : Z) (class : PacketClass) (packet : ServerBuf) : DownlinkQueue :=
  match dq_lanes q !! Z.to_nat key with
  | None => q
  | Some lane => with_lane q key (lane_set lane class (PacketSlots_requeue_front (lane_queue lane class) packet))
  end.
Definition DownlinkQueue_recycle (q : DownlinkQueue) (key : Z) (class : PacketClass) (packet : ServerBuf) : DownlinkQueue :=
  match dq_lanes q !! Z.to_nat key with
  | None => q
  | Some lane => with_lane q key (lane_set lane class (PacketSlots_recycle (lane_queue lane class) packet))
  end.
Definition DownlinkQueue_clear (q : DownlinkQueue) (key : Z) : DownlinkQueue :=
  match dq_lanes q !! Z.to_nat key with
  | None => q
  | Some lane => with_lane q key (ClientEgressLane_clear_pending lane)
  end.

(** ** Slots are conserved *)

Definition slots_wf (s : PacketSlots) (capacity : Z) : Prop :=
  Forall server_buf_wf (ps_free s) /\ Forall server_buf_wf (ps_pending s) /\ slots_total s = capacity.

Lemma new_buf_wf : server_buf_wf PacketBuffer_new.
Proof. split; [vm_compute; reflexivity|]. vm_compute. split; discriminate. Qed.

Lemma grow_spec fuel s capacity :
  capacity - slots_total s <= Z.of_nat fuel -> Forall server_buf_wf (ps_free s) ->
  ps_pending (grow fuel s capacity) = ps_pending s
  /\ slots_total (grow fuel s capacity) = Z.max (slots_total s) capacity
  /\ Forall server_buf_wf (ps_free (grow fuel s capacity)).
Proof.
  revert s. induction fuel as [|fuel IH]; intros s Hf Hw; cbn [grow]; [split_and!; [done|lia|done]|].
  destruct (_ <? _) eqn:E; bool_prop; [|split_and!; [done|lia|done]].
  assert (Ht : slots_total (mkSlots (PacketBuffer_new :: ps_free s) (ps_pending s)) = slots_total s + 1)
    by (unfold slots_total; cbn [ps_free ps_pending]; rewrite len_cons; lia).
  destruct (IH (mkSlots (PacketBuffer_new :: ps_free s) (ps_pending s))) as (H1 & H2 & H3).
  - rewrite Ht. lia.
  - constructor; [apply new_buf_wf|done].
  - rewrite H1, H2, Ht. split_and!; [done|lia|done].
Qed.

Lemma removelast_take {A} (l : list A) : removelast l = take (length l - 1) l.
Proof.
  induction l as [|x [|y l] IH]; [done|done|]. cbn [removelast] in *. rewrite IH. cbn [length].
  replace (S (length l) - 1)%nat with (length l) by lia. done.
Qed.

Lemma shrink_spec fuel s capacity :
  slots_total s - capacity <= Z.of_nat fuel -> 0 <= capacity ->
  Forall server_buf_wf (ps_free s) -> Forall server_buf_wf (ps_pending s) ->
  ps_pending (shrink fuel s capacity) `prefix_of` ps_pending s
  /\ slots_total (shrink fuel s capacity) = Z.min (slots_total s) capacity
  /\ Forall server_buf_wf (ps_free (shrink fuel s capacity)).
Proof.
  revert s. induction fuel as [|fuel IH]; intros s Hf Hc Hw Hp; cbn [shrink]; [split_and!; [done|lia|done]|].
  destruct (_ <? _) eqn:E; bool_prop; [|split_and!; [done|lia|done]].
  set (s' := match ps_free s with _ :: free => _ | [] => _ end).
  assert (Hs' : slots_total s' = slots_total s - 1 /\ ps_pending s' `prefix_of` ps_pending s
    /\ Forall server_buf_wf (ps_free s') /\ Forall server_buf_wf (ps_pending s')).
  { unfold s', slots_total in *. destruct (ps_free s) as [|b free] eqn:Ef; cbn [ps_free ps_pending].
    - rewrite len_nil in *. rewrite removelast_take. split_and!.
      + unfold len in *. rewrite length_take. lia.
      + apply prefix_take.
      + constructor.
      + by apply Forall_take.
    - rewrite len_cons. apply Forall_cons in Hw as [_ Hw]. split_and!; [lia|done|done|done]. }
  destruct Hs' as (Ht & Hpre & Hw' & Hp'). destruct (IH s') as (H1 & H2 & H3); [lia|done|done|done|].
  split_and!; [by etrans|lia|done].
Qed.

Lemma resize_spec s capacity n :
  0 <= capacity -> slots_wf s n -> slots_wf (PacketSlots_resize s capacity) capacity
    /\ ps_pending (PacketSlots_resize s capacity) `prefix_of` ps_pending s.
Proof.
  intros Hc (Hf & Hp & Ht). unfold PacketSlots_resize.
  assert (Hnn : 0 <= slots_total s) by (unfold slots_total; pose proof (len_nonneg (ps_free s)); pose proof (len_nonneg (ps_pending s)); lia).
  destruct (grow_spec (Z.to_nat capacity) s capacity ltac:(lia) Hf) as (G1 & G2 & G3).
  set (s1 := grow _ s capacity) in *.
  destruct (shrink_spec (Z.to_nat (slots_total s1)) s1 capacity ltac:(lia) Hc G3) as (S1 & S2 & S3); [by rewrite G1|].
  rewrite G1 in S1. destruct (capacity =? 0) eqn:E; bool_prop; cbn.
  - subst. split; [split_and!; try constructor; done|apply prefix_nil].
  - split; [|done]. split_and!; [done| |lia]. destruct S1 as [k Hk]. rewrite Hk in Hp. by apply Forall_app in Hp as [Hp _].
Qed.

Lemma frame_len_24 : FRAME_LEN = 24.
Proof. reflexivity. Qed.

Lemma enqueue_spec s n packet :
  slots_wf s n ->
  exists b s', PacketSlots_enqueue s packet = Ok (b, s') /\ slots_wf s' n
    /\ (if b then exists slot, ps_pending s' = ps_pending s ++ [slot] /\ @ServerBuf_as_slice unit slot = Ok packet
        else ps_pending s' = ps_pending s /\ (ps_free s = [] \/ PACKET_CAPACITY < len packet)).
Proof.
  intros (Hf & Hp & Ht). unfold PacketSlots_enqueue. destruct (ps_free s) as [|slot free] eqn:Ef.
  - exists false, s. split; [done|]. split; [by split_and!; [rewrite Ef|..]|]. split; [done|by left].
  - apply Forall_cons in Hf as [[Hsl Hsn] Hf]. unfold ServerBuf_copy_from. unfold slots_total in Ht. rewrite Ef, len_cons in Ht.
    destruct (PACKET_CAPACITY <? len packet) eqn:E; bool_prop; cbn [mbind result_bind].
    + exists false, (mkSlots (slot :: free) (ps_pending s)). split; [done|]. split.
      * split_and!; [by constructor|done|]. unfold slots_total; cbn [ps_free ps_pending]. rewrite len_cons. lia.
      * split; [done|by right].
    + pose proof (len_nonneg packet).
      destruct (split_at (sb_storage slot) (len packet) ltac:(lia)) as (a & b & Hst & Ha & _).
      rewrite (copy_into_ok _ packet 0 (len packet)) by lia. cbn [mbind result_bind].
      rewrite Hst, splice_app_0 by done. eexists true, _. split; [reflexivity|]. split.
      * split_and!; [done| |].
        -- cbn [ps_pending]. apply Forall_app_2; [done|]. constructor; [|constructor]. unfold server_buf_wf; cbn [sb_storage sb_len].
           rewrite Hst, len_app in Hsl. rewrite len_app. unfold PACKET_CAPACITY in *. lia.
        -- unfold slots_total; cbn [ps_free ps_pending]. rewrite len_app, len_cons, len_nil. lia.
      * eexists. split; [reflexivity|]. unfold ServerBuf_as_slice. cbn [sb_storage sb_len].
        rewrite slice_ok by (rewrite ?len_app; pose proof (len_nonneg b); lia). by rewrite sub_app_begin.
Qed.

Lemma enqueue_framed_spec s n header packet :
  slots_wf s n ->
  exists b s', PacketSlots_enqueue_framed s header packet = Ok (b, s') /\ slots_wf s' n
    /\ (if b then exists slot, ps_pending s' = ps_pending s ++ [slot]
          /\ @ServerBuf_as_slice unit slot = Ok (frame_bytes header ++ packet)
        else ps_pending s' = ps_pending s /\ (ps_free s = [] \/ PACKET_CAPACITY < len packet + FRAME_LEN)).
Proof.
  intros (Hf & Hp & Ht). unfold PacketSlots_enqueue_framed. destruct (ps_free s) as [|slot free] eqn:Ef.
  - exists false, s. split; [done|]. split; [by split_and!; [rewrite Ef|..]|]. split; [done|by left].
  - apply Forall_cons in Hf as [[Hsl Hsn] Hf]. pose proof (len_nonneg packet). unfold sat_add, USIZE_MAX. rewrite frame_len_24.
    assert (Hts : slots_total s = 1 + len free + len (ps_pending s)) by (unfold slots_total; rewrite Ef, len_cons; lia).
    destruct (PACKET_CAPACITY <? _) eqn:E; bool_prop; unfold PACKET_CAPACITY in *.
    + exists false, s. split; [done|]. split; [by split_and!; [rewrite Ef; constructor|..]|]. split; [done|]. right. lia.
    + unfold ServerBuf_set_len, PACKET_CAPACITY. replace (Z.min _ _) with (len packet + 24) by lia.
      replace (1600 <? len packet + 24) with false by lia. cbn [negb]. unfold ServerBuf_as_slice. cbn [sb_storage sb_len].
      destruct (split_at (sb_storage slot) 24 ltac:(lia)) as (a & s1 & Hst & Ha & _).
      destruct (split_at s1 (len packet) ltac:(rewrite Hst, len_app in Hsl; lia)) as (p & b & -> & Hpl & _).
      assert (Hb : len b = 1600 - 24 - len packet) by (rewrite Hst, !len_app in Hsl; lia).
      rewrite slice_ok by lia. cbn [mbind result_bind]. rewrite Hst.
      replace (sub (a ++ p ++ b) 0 (len packet + 24)) with (a ++ p)
        by (symmetry; rewrite app_assoc; apply sub_app_begin; rewrite len_app; lia).
      rewrite slice_ok by (rewrite ?len_app; lia). cbn [mbind result_bind]. rewrite sub_app_begin by lia.
      rewrite encode_layout by (rewrite frame_len_24; lia). cbn [mbind result_bind negb]. rewrite frame_len_24, Ha.
      replace (sub a 24 24) with (@nil Z) by (unfold sub; by rewrite Z.sub_diag). rewrite app_nil_r.
      rewrite (copy_into_ok (a ++ p) (frame_bytes header)) by (rewrite ?len_app, ?len_frame_bytes, ?frame_len_24; lia). cbn [mbind result_bind].
      rewrite splice_app_0 by (rewrite len_frame_bytes, ?frame_len_24; lia).
      rewrite (copy_into_ok (frame_bytes header ++ p) packet) by (rewrite ?len_app, ?len_frame_bytes, ?frame_len_24; lia). cbn [mbind result_bind].
      replace (splice (frame_bytes header ++ p) 24 packet) with (frame_bytes header ++ packet)
        by (pose proof (splice_app (frame_bytes header) p [] packet 24) as Hx; rewrite !app_nil_r in Hx;
            symmetry; apply Hx; rewrite ?len_frame_bytes, ?frame_len_24; lia).
      rewrite copy_into_ok by (rewrite ?len_app, ?len_frame_bytes, ?frame_len_24; lia). cbn [mbind result_bind].
      rewrite (app_assoc a p b), splice_app_0 by (rewrite !len_app, len_frame_bytes, ?frame_len_24; lia).
      eexists true, _. split; [reflexivity|]. split.
      * split_and!; [done| |].
        -- cbn [ps_pending]. apply Forall_app_2; [done|]. constructor; [|constructor]. unfold server_buf_wf; cbn [sb_storage sb_len].
           rewrite !len_app, len_frame_bytes, ?frame_len_24. unfold PACKET_CAPACITY. lia.
        -- unfold slots_total in *; cbn [ps_free ps_pending]. rewrite len_app, len_cons, len_nil. lia.
      * eexists. split; [reflexivity|]. cbn [sb_storage sb_len].
        rewrite slice_ok by (rewrite ?len_app, ?len_frame_bytes, ?frame_len_24; lia).
        by rewrite sub_app_begin by (rewrite len_app, len_frame_bytes, ?frame_len_24; lia).
Qed.

(** ** Well-formed queues *)

Definition slot_count (active_paths : Z) (class : PacketClass) : Z :=
  let p := profile_for_active_paths active_paths in
  match class with Small => latency_slots p | Medium => priority_slots p | Bulk => bulk_slots p end.

(** Turns of a client with that many paths on the ring of a class. *)
Definition ring_weight (class : PacketClass) (active_paths : Z) : Z :=
  match class with Bulk => active_paths | _ => 1 end.

Record lane_wf (l : ClientEgressLane) : Prop := {
  lw_paths : 0 <= la_active_paths l <= 126;
  lw_slots : forall class, slots_wf (lane_queue l class) (slot_count (la_active_paths l) class);
}.

Record queue_wf (q : DownlinkQueue) : Prop := {
  qw_length : length (dq_lanes q) = 256%nat;
  qw_lanes : forall k l, dq_lanes q !! k = Some l -> lane_wf l;
  qw_ring : forall class, ring_of q class = ring_keys (fun l => ring_weight class (la_active_paths l)) (dq_lanes q);
  qw_cursor : forall class, 0 <= ring_cursor q class < Z.max (ring_len q class) 1;
}.

Lemma slot_count_zero class : slot_count 0 class = 0.
Proof. by destruct class. Qed.
Lemma slot_count_nonneg a class : 0 <= a -> 0 <= slot_count a class.
Proof.
  intros Ha. unfold slot_count, profile_for_active_paths, limit_paths, clamp, LATENCY_SLOTS, PRIORITY_MIN_SLOTS,
    PRIORITY_MAX_SLOTS, BULK_MIN_SLOTS, BULK_MAX_SLOTS, PRIORITY_SLOTS_PER_PATH in *.
  destruct (_ =? 0); destruct class; cbn; lia.
Qed.
Lemma limit_paths_idem a : limit_paths (limit_paths a) = limit_paths a.
Proof. unfold limit_paths. lia. Qed.
Lemma limit_paths_range a : 0 <= a -> 0 <= limit_paths a <= 126.
Proof. unfold limit_paths, PRIORITY_MAX_SLOTS, PRIORITY_SLOTS_PER_PATH. change (252 / 2) with 126. lia. Qed.

Lemma lane_queue_set l class s class' :
  lane_queue (lane_set l class s) class' = if decide (class = class') then s else lane_queue l class'.
Proof. by destruct class, class'. Qed.
Lemma lane_set_paths l class s : la_active_paths (lane_set l class s) = la_active_paths l.
Proof. by destruct class. Qed.

Lemma lane_set_wf l class s :
  lane_wf l -> slots_wf s (slot_count (la_active_paths l) class) -> lane_wf (lane_set l class s).
Proof.
  intros [Hp Hs] Hw. split; rewrite lane_set_paths; [done|]. intros class'. rewrite lane_queue_set.
  case_decide; [by subst|apply Hs].
Qed.

Lemma lane_configure_wf l a : 0 <= a -> lane_wf l -> lane_wf (ClientEgressLane_configure l a).
Proof.
  intros Ha [Hp Hs]. split; cbn [ClientEgressLane_configure la_active_paths]; [by apply limit_paths_range|].
  pose proof (limit_paths_range a Ha). intros class.
  pose proof (slot_count_nonneg (limit_paths a) class ltac:(lia)) as Hn. specialize (Hs class).
  destruct class; by apply (resize_spec _ _ _ Hn Hs).
Qed.

Lemma slots_clear_wf s n : slots_wf s n -> slots_wf (PacketSlots_clear_pending s) n.
Proof.
  intros (Hf & Hp & Ht). unfold slots_wf, slots_total, PacketSlots_clear_pending in *. cbn [ps_free ps_pending].
  split_and!.
  - apply Forall_app_2; [by apply Forall_rev|done].
  - constructor.
  - rewrite len_app, len_nil. unfold len in *. rewrite length_rev. lia.
Qed.
Lemma lane_clear_wf l : lane_wf l -> lane_wf (ClientEgressLane_clear_pending l).
Proof. intros [Hp Hs]. split; [done|]. intros class. specialize (Hs class). destruct class; by apply slots_clear_wf. Qed.

Lemma ring_keys_paths v lanes :
  ring_keys (fun l => v (la_active_paths l)) lanes
  = mjoin (imap (fun key a => if a =? 0 then [] else replicate (Z.to_nat (v a)) (Z.of_nat key)) (la_active_paths <$> lanes)).
Proof. unfold ring_keys. by rewrite imap_fmap. Qed.

Lemma with_lane_wf q k l l' :
  queue_wf q -> dq_lanes q !! Z.to_nat k = Some l -> lane_wf l' -> la_active_paths l' = la_active_paths l ->
  queue_wf (with_lane q k l').
Proof.
  intros [Hlen Hl Hr Hc] Hk Hw Hp. split; cbn [with_lane dq_lanes].
  - by rewrite length_insert.
  - intros j l2 Hj. destruct (decide (j = Z.to_nat k)) as [->|Hne].
    + rewrite list_lookup_insert_eq in Hj by (by apply lookup_lt_Some in Hk). by injection Hj as <-.
    + rewrite list_lookup_insert_ne in Hj by done. by apply (Hl j).
  - intros class. replace (ring_of _ class) with (ring_of q class) by (by destruct class).
    rewrite Hr, !ring_keys_paths, list_fmap_insert. f_equal. f_equal. rewrite Hp.
    symmetry. apply list_insert_id. by rewrite list_lookup_fmap, Hk.
  - intros class. specialize (Hc class). unfold ring_len in *. by destruct class.
Qed.

Lemma with_cursor_wf q class c :
  queue_wf q -> 0 <= c < Z.max (ring_len q class) 1 -> queue_wf (with_cursor q class c).
Proof.
  intros [Hlen Hl Hr Hc] Hcc. split.
  - by destruct class.
  - by destruct class.
  - intros class'. specialize (Hr class'). by destruct class, class'.
  - intros class'. specialize (Hc class'). unfold ring_len in *. by destruct class, class'.
Qed.

Lemma rebuild_wf q :
  length (dq_lanes q) = 256%nat -> (forall k l, dq_lanes q !! k = Some l -> lane_wf l) -> queue_wf (rebuild_rings q).
Proof.
  intros Hlen Hl. split; [done|done|by intros []|].
  intros class. unfold ring_len. destruct class; cbn; apply Z.mod_pos_bound; lia.
Qed.

Lemma configure_wf q k a : 0 <= a -> queue_wf q -> queue_wf (DownlinkQueue_configure q k a).
Proof.
  intros Ha Hq. pose proof Hq as [Hlen Hl Hr Hc]. unfold DownlinkQueue_configure.
  destruct (dq_lanes q !! Z.to_nat k) as [l|] eqn:E; [|done]. destruct (_ =? _); [done|].
  apply rebuild_wf; cbn; [by rewrite length_insert|]. intros j l2 Hj. destruct (decide (j = Z.to_nat k)) as [->|Hne].
  - rewrite list_lookup_insert_eq in Hj by (by apply lookup_lt_Some in E). injection Hj as <-.
    apply lane_configure_wf; [done|by apply (Hl _ _ E)].
  - rewrite list_lookup_insert_ne in Hj by done. by apply (Hl j).
Qed.

(** ** Rings *)

Lemma elem_of_ring_keys w lanes key :
  key ∈ ring_keys w lanes <->
  exists l, 0 <= key /\ lanes !! Z.to_nat key = Some l /\ la_active_paths l <> 0 /\ 0 < w l.
Proof.
  unfold ring_keys. rewrite list_elem_of_join. split.
  - intros (ks & Hkey & Hks). apply list_elem_of_lookup in Hks as [i Hi].
    rewrite list_lookup_imap in Hi. destruct (lanes !! i) as [l|] eqn:El; [|done]. cbn in Hi. injection Hi as <-.
    destruct (la_active_paths l =? 0) eqn:E; [by apply not_elem_of_nil in Hkey|]. bool_prop.
    apply elem_of_replicate in Hkey as [-> Hn]. exists l. rewrite Nat2Z.id. split_and!; [lia|done|done|lia].
  - intros (l & H0 & Hl & Hp & Hw). eexists. split; [|apply list_elem_of_lookup; exists (Z.to_nat key);
      rewrite list_lookup_imap, Hl; reflexivity]. cbn. replace (la_active_paths l =? 0) with false by lia.
    apply elem_of_replicate. split; lia.
Qed.

Lemma ring_weight_pos class l : lane_wf l -> la_active_paths l <> 0 -> 0 < ring_weight class (la_active_paths l).
Proof. intros [Hp _] Hne. destruct class; cbn; lia. Qed.

Lemma next_key_spec q class :
  queue_wf q -> 0 < ring_len q class ->
  exists key l, next_key q class = Some (key, with_cursor q class ((ring_cursor q class + 1) mod ring_len q class))
    /\ ring_of q class !! Z.to_nat (ring_cursor q class) = Some key
    /\ 0 <= key /\ dq_lanes q !! Z.to_nat key = Some l /\ la_active_paths l <> 0.
Proof.
  intros [Hlen Hl Hr Hc] HL. specialize (Hc class). unfold next_key, ring_len in *.
  destruct (lookup_lt_is_Some_2 (ring_of q class) (Z.to_nat (ring_cursor q class))) as [key Hkey]; [unfold len in *; lia|].
  assert (Hin : key ∈ ring_of q class) by (eapply list_elem_of_lookup_2; eauto). rewrite Hr in Hin.
  apply elem_of_ring_keys in Hin as (l & H0 & Hlk & Hp & _). exists key, l. rewrite Hkey. split_and!; try done. repeat f_equal.
  destruct (_ =? _) eqn:E; bool_prop; [by rewrite E, Z.mod_same by lia|by rewrite Z.mod_small by lia].
Qed.

Definition pending_at (q : DownlinkQueue) (key : Z) (class : PacketClass) : list ServerBuf :=
  match dq_lanes q !! Z.to_nat key with Some l => ps_pending (lane_queue l class) | None => [] end.

Lemma cursor_fields q class c :
  ring_of (with_cursor q class c) class = ring_of q class /\ ring_cursor (with_cursor q class c) class = c
  /\ dq_lanes (with_cursor q class c) = dq_lanes q.
Proof. by destruct class. Qed.
Lemma with_cursor_twice q class a b : with_cursor (with_cursor q class a) class b = with_cursor q class b.
Proof. by destruct class. Qed.
Lemma with_cursor_same q class : with_cursor q class (ring_cursor q class) = q.
Proof. by destruct class, q. Qed.

(** The key [i] turns after the cursor. *)
Definition ring_turn (q : DownlinkQueue) (class : PacketClass) (i : Z) : option Z :=
  ring_of q class !! Z.to_nat ((ring_cursor q class + i) mod ring_len q class).

Lemma dequeue_loop_spec n q class :
  queue_wf q -> 0 < ring_len q class ->
  exists r q', dequeue_loop n q class = Ok (r, q') /\
  match r with
  | Some (key, p) => exists l rest i, 0 <= i < Z.of_nat n /\ ring_turn q class i = Some key /\ 0 <= key
      /\ dq_lanes q !! Z.to_nat key = Some l /\ ps_pending (lane_queue l class) = p :: rest
      /\ (forall j k, 0 <= j < i -> ring_turn q class j = Some k -> pending_at q k class = [])
      /\ q' = with_lane (with_cursor q class ((ring_cursor q class + i + 1) mod ring_len q class)) key
                (lane_set l class (mkSlots (ps_free (lane_queue l class)) rest))
  | None => q' = with_cursor q class ((ring_cursor q class + Z.of_nat n) mod ring_len q class)
      /\ forall i key, 0 <= i < Z.of_nat n -> ring_turn q class i = Some key -> pending_at q key class = []
  end.
Proof.
  revert q. induction n as [|n IH]; intros q Hq HL.
  - exists None, q. split; [done|]. split; [|lia]. rewrite Z.add_0_r, Z.mod_small; [by rewrite with_cursor_same|].
    pose proof (qw_cursor q Hq class). lia.
  - cbn [dequeue_loop]. destruct (next_key_spec q class Hq HL) as (key & l & -> & Hring & H0 & Hlk & Hp).
    pose proof (qw_cursor q Hq class) as Hc. set (c := ring_cursor q class) in *. set (L := ring_len q class) in *.
    set (q1 := with_cursor q class ((c + 1) mod L)).
    destruct (cursor_fields q class ((c + 1) mod L)) as (F1 & F2 & F3). fold q1 in F1, F2, F3.
    assert (Ht0 : ring_turn q class 0 = Some key).
    { unfold ring_turn. fold c L. rewrite Z.add_0_r, Z.mod_small by lia. done. }
    assert (Hat : @at_ unit _ (dq_lanes q1) key = Ok l).
    { unfold at_. replace (0 <=? key) with true by lia. by rewrite F3, Hlk. }
    rewrite Hat. cbn [mbind result_bind]. unfold PacketSlots_dequeue.
    destruct (ps_pending (lane_queue l class)) as [|p rest] eqn:Epend.
    + assert (HL1 : ring_len q1 class = L) by (unfold ring_len; by rewrite F1).
      assert (Hq1 : queue_wf q1) by (apply with_cursor_wf; [done|]; fold L; pose proof (Z.mod_pos_bound (c + 1) L HL); lia).
      assert (Hturn : forall i, ring_turn q1 class i = ring_turn q class (i + 1)).
      { intros i. unfold ring_turn. rewrite HL1, F1, F2. fold c L. rewrite Z.add_mod_idemp_l by lia.
        by replace (c + 1 + i) with (c + (i + 1)) by lia. }
      assert (Hpend : forall k, pending_at q1 k class = pending_at q k class) by (intros; unfold pending_at; by rewrite F3).
      assert (Hcur : forall i, (ring_cursor q1 class + i) mod ring_len q1 class = (c + (i + 1)) mod L).
      { intros i. rewrite HL1, F2, Z.add_mod_idemp_l by lia. f_equal. lia. }
      assert (Hempty : pending_at q key class = []) by (unfold pending_at; by rewrite Hlk).
      destruct (IH q1 Hq1 ltac:(lia)) as (r & q' & -> & Hr). exists r, q'. split; [done|].
      destruct r as [[k p]|].
      * destruct Hr as (l2 & rest & i & Hi & Hti & Hk0 & Hlk2 & Hpe & Hbefore & ->). exists l2, rest, (i + 1).
        rewrite Hturn in Hti. rewrite F3 in Hlk2. split_and!; [lia|lia|done|done|done|done| |].
        -- intros j k' Hj Hk'. destruct (decide (j = 0)) as [->|]; [congruence|].
           rewrite <- Hpend. apply (Hbefore (j - 1)); [lia|]. rewrite Hturn. by replace (j - 1 + 1) with j by lia.
        -- unfold q1 at 1. rewrite with_cursor_twice. f_equal. f_equal. rewrite <- Z.add_assoc, Hcur. f_equal. lia.
      * destruct Hr as (-> & Hall). split.
        -- unfold q1 at 1. rewrite with_cursor_twice. f_equal. rewrite Hcur. f_equal. lia.
        -- intros i k Hi Hk. destruct (decide (i = 0)) as [->|]; [congruence|].
           rewrite <- Hpend. apply (Hall (i - 1)); [lia|]. rewrite Hturn. by replace (i - 1 + 1) with i by lia.
    + eexists _, _. split; [reflexivity|]. cbn. exists l, rest, 0. rewrite Z.add_0_r.
      split_and!; try done; lia.
Qed.

(** ** The queue as the engine drives it *)

(** The engine takes a packet out and, before anything else, either recycles
    the buffer (sent, or no stream left) or puts it back at the front
    (backpressure). *)
Inductive queue_op :=
| QConfigure (key active_paths : Z)
| QEnqueue (key : Z) (class : PacketClass) (packet : bytes)
| QEnqueueFramed (key : Z) (class : PacketClass) (header : FrameHeader) (packet : bytes)
| QClear (key : Z)
| QSend (class : PacketClass)
| QBlocked (class : PacketClass).

Definition queue_op_ok (o : queue_op) : Prop := match o with QConfigure _ a => 0 <= a | _ => True end.

Definition queue_apply (q : DownlinkQueue) (o : queue_op) : opt DownlinkQueue :=
  match o with
  | QConfigure key a => Ok (DownlinkQueue_configure q key a)
  | QEnqueue key class packet => r ← DownlinkQueue_enqueue q key class packet; mret r.2
  | QEnqueueFramed key class header packet => r ← DownlinkQueue_enqueue_framed q key class header packet; mret r.2
  | QClear key => Ok (DownlinkQueue_clear q key)
  | QSend class =>
      r ← DownlinkQueue_dequeue q class;
      mret (match r.1 with Some (key, p) => DownlinkQueue_recycle r.2 key class p | None => r.2 end)
  | QBlocked class =>
      r ← DownlinkQueue_dequeue q class;
      mret (match r.1 with Some (key, p) => DownlinkQueue_requeue_front r.2 key class p | None => r.2 end)
  end.

Fixpoint queue_run (q : DownlinkQueue) (ops : list queue_op) : opt DownlinkQueue :=
  match ops with [] => Ok q | o :: ops => q ← queue_apply q o; queue_run q ops end.

Lemma on_lane_wf q key class f :
  queue_wf q ->
  (forall s n, slots_wf s n -> exists b s', f s = Ok (b, s') /\ slots_wf s' n) ->
  exists b q', on_lane q key class f = Ok (b, q') /\ queue_wf q'.
Proof.
  intros Hq Hf. unfold on_lane. destruct (dq_lanes q !! Z.to_nat key) as [l|] eqn:El; [|by exists false, q].
  destruct (_ =? 0); [by exists false, q|]. pose proof (qw_lanes q Hq _ _ El) as Hl.
  destruct (Hf _ _ (lw_slots l Hl class)) as (b & s' & -> & Hs'). cbn. eexists _, _. split; [reflexivity|].
  eapply with_lane_wf; [done|done| |apply lane_set_paths]. by apply lane_set_wf.
Qed.

Lemma slots_put_back free rest p n (front : bool) :
  slots_wf (mkSlots free (p :: rest)) n ->
  slots_wf (if front then mkSlots free (p :: rest) else mkSlots (p :: free) rest) n.
Proof.
  intros Hw. destruct front; [done|]. destruct Hw as (Hf & Hp & Ht). cbn in *. apply Forall_cons in Hp as [Hp1 Hp2].
  split_and!; cbn; [by constructor|done|]. unfold slots_total in *. cbn [ps_free ps_pending] in *. rewrite len_cons in *. lia.
Qed.

Lemma lane_set_set l class a b : lane_set (lane_set l class a) class b = lane_set l class b.
Proof. by destruct class. Qed.
Lemma lane_queue_set_eq l class s : lane_queue (lane_set l class s) class = s.
Proof. by destruct class. Qed.
Lemma lane_set_queue l class : lane_set l class (lane_queue l class) = l.
Proof. by destruct class, l. Qed.

(** Taking a packet out and putting its buffer back. *)
Lemma dequeue_put_back q class (front : bool) :
  queue_wf q ->
  exists r q1, DownlinkQueue_dequeue q class = Ok (r, q1)
    /\ queue_wf (match r with
                 | Some (key, p) => if front then DownlinkQueue_requeue_front q1 key class p
                                    else DownlinkQueue_recycle q1 key class p
                 | None => q1 end).
Proof.
  intros Hq. unfold DownlinkQueue_dequeue. pose proof (len_nonneg (ring_of q class)) as HL0. fold (ring_len q class) in HL0.
  destruct (decide (ring_len q class = 0)) as [HL|HL]; [rewrite HL; by exists None, q|].
  destruct (dequeue_loop_spec (Z.to_nat (ring_len q class)) q class Hq ltac:(lia)) as (r & q1 & Hd & Hr).
  exists r, q1. split; [done|]. destruct r as [[key p]|].
  - destruct Hr as (l & rest & i & Hi & Ht & H0 & Hlk & Hpe & _ & ->).
    set (c := (ring_cursor q class + i + 1) mod ring_len q class).
    pose proof (qw_lanes q Hq _ _ Hlk) as Hlw. pose proof (lw_slots l Hlw class) as Hsl.
    assert (Hsl' : slots_wf (mkSlots (ps_free (lane_queue l class)) (p :: rest)) (slot_count (la_active_paths l) class))
      by (rewrite <- Hpe; by destruct (lane_queue l class)).
    destruct (cursor_fields q class c) as (_ & _ & F3).
    assert (Hc : 0 <= c < Z.max (ring_len q class) 1)
      by (pose proof (Z.mod_pos_bound (ring_cursor q class + i + 1) (ring_len q class) ltac:(lia)); unfold c; lia).
    pose proof (with_cursor_wf q class c Hq Hc) as Hq1.
    assert (Hlt : (Z.to_nat key < length (dq_lanes (with_cursor q class c)))%nat) by (rewrite F3; by apply lookup_lt_Some in Hlk).
    assert (Hput : forall s, slots_wf s (slot_count (la_active_paths l) class) ->
      queue_wf (with_lane (with_lane (with_cursor q class c) key
        (lane_set l class (mkSlots (ps_free (lane_queue l class)) rest))) key (lane_set l class s))).
    { intros s Hs. unfold with_lane at 1. cbn [dq_lanes with_lane]. rewrite list_insert_insert_eq.
      apply (with_lane_wf (with_cursor q class c) key l); [done|by rewrite F3|by apply lane_set_wf|apply lane_set_paths]. }
    destruct front; [unfold DownlinkQueue_requeue_front|unfold DownlinkQueue_recycle];
      cbn [with_lane dq_lanes]; rewrite list_lookup_insert_eq by done; rewrite lane_queue_set_eq, lane_set_set; apply Hput; cbn.
    + exact Hsl'.
    + by apply (slots_put_back _ _ _ _ false).
  - destruct Hr as [-> _]. apply with_cursor_wf; [done|].
    pose proof (Z.mod_pos_bound (ring_cursor q class + Z.of_nat (Z.to_nat (ring_len q class))) (ring_len q class) ltac:(lia)). lia.
Qed.

Lemma queue_apply_wf q o : queue_wf q -> queue_op_ok o -> exists q', queue_apply q o = Ok q' /\ queue_wf q'.
Proof.
  intros Hq Hok. destruct o as [key a|key class packet|key class header packet|key|class|class]; cbn [queue_apply queue_op_ok] in *.
  - eexists. split; [reflexivity|]. by apply configure_wf.
  - destruct (on_lane_wf q key class (fun s => PacketSlots_enqueue s packet) Hq) as (b & q' & Ho & Hw).
    { intros s n Hs. destruct (enqueue_spec s n packet Hs) as (b & s' & He & Hw & _). by exists b, s'. }
    unfold DownlinkQueue_enqueue. rewrite Ho. by exists q'.
  - destruct (on_lane_wf q key class (fun s => PacketSlots_enqueue_framed s header packet) Hq) as (b & q' & Ho & Hw).
    { intros s n Hs. destruct (enqueue_framed_spec s n header packet Hs) as (b & s' & He & Hw & _). by exists b, s'. }
    unfold DownlinkQueue_enqueue_framed. rewrite Ho. by exists q'.
  - eexists. split; [reflexivity|]. unfold DownlinkQueue_clear. destruct (dq_lanes q !! Z.to_nat key) as [l|] eqn:El; [|done].
    eapply with_lane_wf; [done|done|apply lane_clear_wf; by apply (qw_lanes q Hq _ _ El)|done].
  - destruct (dequeue_put_back q class false Hq) as (r & q1 & -> & Hw). by eexists.
  - destruct (dequeue_put_back q class true Hq) as (r & q1 & -> & Hw). by eexists.
Qed.

Lemma queue_default_wf : queue_wf DownlinkQueue_default.
Proof.
  split; cbn [DownlinkQueue_default dq_lanes].
  - apply length_replicate.
  - intros k l [-> _]%lookup_replicate. split; [cbn; lia|]. intros []; split_and!; done || constructor.
  - intros []; vm_compute; reflexivity.
  - intros []; cbn; lia.
Qed.

Lemma queue_run_wf q ops : queue_wf q -> Forall queue_op_ok ops -> exists q', queue_run q ops = Ok q' /\ queue_wf q'.
Proof.
  intros Hq Hops. revert q Hq. induction Hops as [|o ops Ho _ IH]; intros q Hq; [by exists q|]. cbn.
  destruct (queue_apply_wf q o Hq Ho) as (q1 & -> & Hq1). cbn. by apply IH.
Qed.
(** Whatever packets arrive and however clients come and go, the queues
    never panic, and at every point each client owns exactly the number of
    buffers its number of streams entitles it to, the rings list exactly the
    clients with streams, and the cursors are inside the rings. *)
Theorem downlink_invariant ops :
  Forall queue_op_ok ops -> exists q, queue_run DownlinkQueue_default ops = Ok q /\ queue_wf q.
Proof.
  intros Hops. by apply queue_run_wf; [apply queue_default_wf|].
Qed.

Definition demo_queue_ops : list queue_op :=
  [QConfigure 7 2; QEnqueue 7 Bulk [1; 2; 3]; QEnqueue 7 Bulk [4]; QBlocked Bulk; QSend Bulk; QConfigure 7 1].

Lemma downlink_invariant_witness :
  exists q, queue_run DownlinkQueue_default demo_queue_ops = Ok q /\ queue_wf q.
Proof.
  apply (downlink_invariant demo_queue_ops). repeat constructor; cbn; lia.
Defined.

(** ** Order *)

Definition buf_bytes (b : ServerBuf) : bytes := sub (sb_storage b) 0 (sb_len b).
Definition contents (q : DownlinkQueue) (key : Z) (class : PacketClass) : list bytes := buf_bytes <$> pending_at q key class.

Lemma as_slice_bytes b bs : @ServerBuf_as_slice unit b = Ok bs -> buf_bytes b = bs.
Proof. intros H. by apply slice_inv in H as (_ & _ & _ & ->). Qed.

Lemma pending_with_lane q k l key class :
  (Z.to_nat k < length (dq_lanes q))%nat ->
  pending_at (with_lane q k l) key class
  = if decide (Z.to_nat key = Z.to_nat k) then ps_pending (lane_queue l class) else pending_at q key class.
Proof.
  intros Hk. unfold pending_at. cbn [with_lane dq_lanes]. case_decide as E.
  - rewrite E. by rewrite list_lookup_insert_eq.
  - by rewrite list_lookup_insert_ne.
Qed.

Lemma on_lane_contents q key class f packet :
  queue_wf q -> 0 <= key ->
  (forall s n, slots_wf s n -> exists (b : bool) s', f s = Ok (b, s') /\ slots_wf s' n /\
    (if b then exists slot, ps_pending s' = ps_pending s ++ [slot] /\ @ServerBuf_as_slice unit slot = Ok packet
     else ps_pending s' = ps_pending s /\ (ps_free s = [] \/ PACKET_CAPACITY < len packet))) ->
  exists (b : bool) q', on_lane q key class f = Ok (b, q') /\
    (forall k c, 0 <= k -> contents q' k c = contents q k c ++ (if b && bool_decide (k = key /\ c = class) then [packet] else []))
    /\ (b = false -> forall l, dq_lanes q !! Z.to_nat key = Some l ->
          la_active_paths l = 0 \/ ps_free (lane_queue l class) = [] \/ PACKET_CAPACITY < len packet).
Proof.
  intros Hq H0 Hf. unfold on_lane. destruct (dq_lanes q !! Z.to_nat key) as [l|] eqn:El.
  2: { exists false, q. split; [done|]. split; [intros; by rewrite app_nil_r|done]. }
  destruct (la_active_paths l =? 0) eqn:E; bool_prop.
  { exists false, q. split; [done|]. split; [intros; by rewrite app_nil_r|]. intros _ l' [= <-]. by left. }
  destruct (Hf _ _ (lw_slots l (qw_lanes q Hq _ _ El) class)) as (b & s' & -> & Hs' & Hb). cbn.
  eexists b, _. split; [reflexivity|]. split.
  - intros k c Hk. unfold contents. rewrite pending_with_lane by (by apply lookup_lt_Some in El).
    assert (Hpl : pending_at q key c = ps_pending (lane_queue l c)) by (unfold pending_at; by rewrite El).
    destruct (decide (Z.to_nat k = Z.to_nat key)) as [Ek|Ek].
    + assert (k = key) as -> by lia. rewrite Hpl, lane_queue_set. case_decide as Ec.
      * subst c. destruct b; cbn [andb].
        -- rewrite bool_decide_eq_true_2 by done. destruct Hb as (slot & -> & Hsl). rewrite fmap_app. cbn.
           by rewrite (as_slice_bytes _ _ Hsl).
        -- destruct Hb as [-> _]. by rewrite app_nil_r.
      * rewrite bool_decide_eq_false_2 by (intros [_ ?]; congruence). by rewrite andb_false_r, app_nil_r.
    + rewrite bool_decide_eq_false_2 by (intros [? _]; subst; done). by rewrite andb_false_r, app_nil_r.
  - intros -> l' [= <-]. destruct Hb as [_ [Hb|Hb]]; [right; by left|by right; right].
Qed.

(** A packet that is accepted joins the end of its client's queue of its
    class, with the frame header in front when it has one, and no other queue
    changes; a refused packet changes no queue, and is refused only when the
    client has no streams, no free buffer is left or it does not fit. *)
Theorem downlink_enqueue_fifo q key class header packet (framed : bool) :
  queue_wf q -> 0 <= key ->
  let wire := if framed then frame_bytes header ++ packet else packet in
  exists (b : bool) q',
    (if framed then DownlinkQueue_enqueue_framed q key class header packet else DownlinkQueue_enqueue q key class packet) = Ok (b, q')
    /\ (forall k c, 0 <= k -> contents q' k c = contents q k c ++ (if b && bool_decide (k = key /\ c = class) then [wire] else []))
    /\ (b = false -> forall l, dq_lanes q !! Z.to_nat key = Some l ->
          la_active_paths l = 0 \/ ps_free (lane_queue l class) = [] \/ PACKET_CAPACITY < len wire).
Proof.
  intros Hq H0. destruct framed; cbv zeta.
  - apply on_lane_contents; [done|done|]. intros s n Hs.
    destruct (enqueue_framed_spec s n header packet Hs) as (b & s' & He & Hw & Hb). exists b, s'. split_and!; try done.
    destruct b; [done|]. destruct Hb as [Hb1 Hb2]. split; [done|]. destruct Hb2; [by left|right].
    rewrite len_app, len_frame_bytes. lia.
  - apply on_lane_contents; [done|done|]. intros s n Hs. by apply enqueue_spec.
Qed.

Definition demo_queue : DownlinkQueue := DownlinkQueue_configure DownlinkQueue_default 7 2.
Lemma demo_queue_wf : queue_wf demo_queue.
Proof. apply configure_wf; [lia|apply queue_default_wf]. Qed.

Lemma downlink_enqueue_fifo_witness :
  exists b q', DownlinkQueue_enqueue demo_queue 7 Bulk [1; 2; 3] = Ok (b, q') /\ b = true
    /\ contents q' 7 Bulk = contents demo_queue 7 Bulk ++ [[1; 2; 3]].
Proof.
  destruct (downlink_enqueue_fifo demo_queue 7 Bulk (mkFrameHeader 0 0 0) [1; 2; 3] false demo_queue_wf ltac:(lia))
    as (b & q' & H1 & H2 & _).
  exists b, q'. split; [exact H1|].
  assert (Hb : match DownlinkQueue_enqueue demo_queue 7 Bulk [1; 2; 3] with Ok (b, _) => b | _ => false end = true)
    by (vm_compute; reflexivity).
  rewrite H1 in Hb. split; [exact Hb|]. rewrite (H2 7 Bulk ltac:(lia)), Hb. reflexivity.
Defined.

(** Dequeueing never panics; it returns nothing only when no client has a
    packet of the class, otherwise the oldest packet of the first client in
    turn that has one, and putting that packet back at the front restores
    every queue. *)
Theorem downlink_dequeue_oldest q class :
  queue_wf q ->
  exists r q', DownlinkQueue_dequeue q class = Ok (r, q') /\
  match r with
  | None => forall k, 0 <= k -> contents q k class = []
  | Some (key, p) =>
      contents q key class = buf_bytes p :: contents q' key class
      /\ (forall k c, 0 <= k -> (k <> key \/ c <> class) -> contents q' k c = contents q k c)
      /\ (exists i, 0 <= i < ring_len q class /\ ring_turn q class i = Some key /\
            forall j k, 0 <= j < i -> ring_turn q class j = Some k -> contents q k class = [])
      /\ (forall k c, 0 <= k -> contents (DownlinkQueue_requeue_front q' key class p) k c = contents q k c)
  end.
Proof.
  intros Hq. unfold DownlinkQueue_dequeue. pose proof (len_nonneg (ring_of q class)) as HL0. fold (ring_len q class) in HL0.
  assert (Hnone : (forall key, key ∈ ring_of q class -> pending_at q key class = []) -> forall k, 0 <= k -> contents q k class = []).
  { intros Hall k Hk. unfold contents. destruct (dq_lanes q !! Z.to_nat k) as [l|] eqn:El; [|unfold pending_at; by rewrite El].
    pose proof (qw_lanes q Hq _ _ El) as Hl. destruct (decide (la_active_paths l = 0)) as [Hz|Hz].
    - destruct (lw_slots l Hl class) as (_ & _ & Ht). rewrite Hz, slot_count_zero in Ht. unfold slots_total in Ht.
      unfold pending_at. rewrite El. destruct (ps_pending (lane_queue l class)) as [|b bs]; [done|].
      rewrite len_cons in Ht. pose proof (len_nonneg bs). pose proof (len_nonneg (ps_free (lane_queue l class))). lia.
    - rewrite Hall; [done|]. rewrite (qw_ring q Hq). apply elem_of_ring_keys. exists l.
      split_and!; try done. by apply ring_weight_pos. }
  destruct (decide (ring_len q class = 0)) as [HL|HL].
  { rewrite HL. exists None, q. split; [done|]. apply Hnone. intros key Hkey. unfold ring_len, len in HL.
    destruct (ring_of q class); [by apply not_elem_of_nil in Hkey|done]. }
  destruct (dequeue_loop_spec (Z.to_nat (ring_len q class)) q class Hq ltac:(lia)) as (r & q1 & Hd & Hr).
  exists r, q1. split; [done|]. destruct r as [[key p]|].
  - destruct Hr as (l & rest & i & Hi & Ht & H0 & Hlk & Hpe & Hbefore & ->).
    set (c := (ring_cursor q class + i + 1) mod ring_len q class). destruct (cursor_fields q class c) as (_ & _ & F3).
    assert (Hlt : (Z.to_nat key < length (dq_lanes (with_cursor q class c)))%nat) by (rewrite F3; by apply lookup_lt_Some in Hlk).
    assert (Hcur : forall k cl, pending_at (with_cursor q class c) k cl = pending_at q k cl) by (intros; unfold pending_at; by rewrite F3).
    assert (Hpk : pending_at q key class = p :: rest) by (unfold pending_at; by rewrite Hlk). unfold contents. split_and!.
    + rewrite pending_with_lane, decide_True, lane_queue_set_eq by done. by rewrite Hpk.
    + intros k cl Hk Hne. rewrite pending_with_lane by done. case_decide as E; [|by rewrite Hcur].
      assert (k = key) as -> by lia. destruct Hne as [|Hne]; [done|]. rewrite lane_queue_set, decide_False by done.
      unfold pending_at. by rewrite Hlk.
    + exists i. split_and!; [lia|lia|done|]. intros j k Hj Hk. by rewrite (Hbefore j k Hj Hk).
    + intros k cl Hk. unfold DownlinkQueue_requeue_front. cbn [with_lane dq_lanes]. rewrite list_lookup_insert_eq by done.
      rewrite pending_with_lane by (cbn; by rewrite length_insert). rewrite lane_set_set, lane_queue_set_eq.
      case_decide as E.
      * assert (k = key) as -> by lia. rewrite lane_queue_set. case_decide as Ec; [subst cl; cbn; by rewrite Hpk|].
        unfold pending_at. by rewrite Hlk.
      * rewrite pending_with_lane, decide_False by done. by rewrite Hcur.
  - destruct Hr as [_ Hall]. apply Hnone. intros key Hkey. apply list_elem_of_lookup in Hkey as [n Hn].
    apply lookup_lt_Some in Hn as Hlt. set (L := ring_len q class) in *. set (c := ring_cursor q class) in *.
    assert (HnL : Z.of_nat n < L) by (unfold L, ring_len, len; lia).
    apply (Hall ((Z.of_nat n - c) mod L)).
    + pose proof (Z.mod_pos_bound (Z.of_nat n - c) L ltac:(lia)). lia.
    + unfold ring_turn. fold L c. rewrite Z.add_mod_idemp_r by lia. replace (c + (Z.of_nat n - c)) with (Z.of_nat n) by lia.
      rewrite Z.mod_small, Nat2Z.id by lia. done.
Qed.

Lemma downlink_dequeue_oldest_witness :
  exists q (r : option (Z * ServerBuf)) q', queue_run DownlinkQueue_default [QConfigure 7 2; QEnqueue 7 Bulk [1; 2; 3]; QEnqueue 7 Bulk [4]] = Ok q
    /\ DownlinkQueue_dequeue q Bulk = Ok (r, q') /\ (fun kp : Z * ServerBuf => (kp.1, buf_bytes kp.2)) <$> r = Some (7, [1; 2; 3])
    /\ contents q' 7 Bulk = [[4]].
Proof.
  assert (Hok : Forall queue_op_ok [QConfigure 7 2; QEnqueue 7 Bulk [1; 2; 3]; QEnqueue 7 Bulk [4]]) by (repeat constructor; cbn; lia).
  assert (Hrun : exists q, queue_run DownlinkQueue_default [QConfigure 7 2; QEnqueue 7 Bulk [1; 2; 3]; QEnqueue 7 Bulk [4]] = Ok q
    /\ queue_wf q).
  { destruct (queue_apply_wf DownlinkQueue_default (QConfigure 7 2) queue_default_wf ltac:(cbn; lia)) as (q1 & E1 & W1).
    destruct (queue_apply_wf q1 (QEnqueue 7 Bulk [1; 2; 3]) W1 I) as (q2 & E2 & W2).
    destruct (queue_apply_wf q2 (QEnqueue 7 Bulk [4]) W2 I) as (q3 & E3 & W3).
    exists q3. split; [|exact W3]. cbn [queue_run]. rewrite E1. cbn [mbind result_bind]. rewrite E2. cbn [mbind result_bind].
    rewrite E3. reflexivity. }
  destruct Hrun as (q & Hrun & Hw). destruct (downlink_dequeue_oldest q Bulk Hw) as (r & q' & Hd & Hr).
  exists q, r, q'. split; [exact Hrun|]. split; [exact Hd|].
  assert (Hval : match queue_run DownlinkQueue_default [QConfigure 7 2; QEnqueue 7 Bulk [1; 2; 3]; QEnqueue 7 Bulk [4]] with
    | Ok q => match DownlinkQueue_dequeue q Bulk with
              | Ok (Some (k, p), q') => (k, buf_bytes p, contents q' 7 Bulk) | _ => (0, [], []) end
    | _ => (0, [], []) end = (7, [1; 2; 3], [[4]])) by (vm_compute; reflexivity).
  rewrite Hrun, Hd in Hval. destruct r as [[k p]|]; [|discriminate]. injection Hval as E1 E2 E3.
  split; [|exact E3]. cbn. rewrite E1, E2. reflexivity.
Defined.

(** ** Fairness *)

(** The keys of the next [n] turns. *)
Fixpoint next_keys (n : nat) (q : DownlinkQueue) (class : PacketClass) : list Z * DownlinkQueue :=
  match n with
  | O => ([], q)
  | S n => match next_key q class with
           | None => ([], q)
           | Some (key, q) => let '(ks, q) := next_keys n q class in (key :: ks, q)
           end
  end.

Lemma turn_after q class i :
  queue_wf q -> 0 < ring_len q class ->
  let q1 := with_cursor q class ((ring_cursor q class + 1) mod ring_len q class) in
  ring_turn q1 class i = ring_turn q class (i + 1).
Proof.
  intros Hq HL. cbv zeta. set (c := ring_cursor q class). set (L := ring_len q class) in *.
  destruct (cursor_fields q class ((c + 1) mod L)) as (F1 & F2 & F3).
  unfold ring_turn, ring_len. rewrite F1, F2. fold (ring_len q class) c L. rewrite Z.add_mod_idemp_l by lia.
  by replace (c + 1 + i) with (c + (i + 1)) by lia.
Qed.

Lemma omap_shift {A} (f g : Z -> option A) n a :
  (forall i, f i = g (i + 1)) -> omap f (seqZ a (Z.of_nat n)) = omap g (seqZ (a + 1) (Z.of_nat n)).
Proof.
  intros Hfg. revert a. induction n as [|n IHn]; intros a; [done|].
  rewrite !(seqZ_cons _ (Z.of_nat (S n))) by lia. cbn [omap list_omap]. rewrite Hfg.
  replace (Z.pred (Z.of_nat (S n))) with (Z.of_nat n) by lia. replace (Z.succ (a + 1)) with (Z.succ a + 1) by lia.
  change (list_omap _ _ ?f ?l) with (omap f l). by rewrite IHn.
Qed.

Lemma next_keys_turns n q class :
  queue_wf q -> 0 < ring_len q class ->
  next_keys n q class = (omap (ring_turn q class) (seqZ 0 (Z.of_nat n)),
                         with_cursor q class ((ring_cursor q class + Z.of_nat n) mod ring_len q class)).
Proof.
  revert q. induction n as [|n IH]; intros q Hq HL.
  - cbn. f_equal. rewrite Z.add_0_r, Z.mod_small; [by rewrite with_cursor_same|].
    pose proof (qw_cursor q Hq class). lia.
  - cbn [next_keys]. destruct (next_key_spec q class Hq HL) as (key & l & -> & Hring & _).
    pose proof (fun i => turn_after q class i Hq HL) as Hturn. cbv zeta in Hturn.
    pose proof (qw_cursor q Hq class) as Hc. set (c := ring_cursor q class) in *. set (L := ring_len q class) in *.
    destruct (cursor_fields q class ((c + 1) mod L)) as (F1 & F2 & F3). set (q1 := with_cursor q class ((c + 1) mod L)) in *.
    assert (HL1 : ring_len q1 class = L) by (unfold ring_len; by rewrite F1).
    assert (Hq1 : queue_wf q1) by (apply with_cursor_wf; [done|]; fold L; pose proof (Z.mod_pos_bound (c + 1) L HL); lia).
    assert (Ht0 : ring_turn q class 0 = Some key) by (unfold ring_turn; fold c L; by rewrite Z.add_0_r, Z.mod_small by lia).
    rewrite (IH q1 Hq1 ltac:(lia)). rewrite (omap_shift _ _ n 0 Hturn).
    rewrite (seqZ_cons _ (Z.of_nat (S n))) by lia. cbn [omap list_omap]. rewrite Ht0.
    replace (Z.pred (Z.of_nat (S n))) with (Z.of_nat n) by lia. f_equal.
    unfold q1 at 1. rewrite with_cursor_twice. f_equal. rewrite F2, HL1, Z.add_mod_idemp_l by lia. f_equal. lia.
Qed.

(** The turns of one round are the ring, from the cursor on. *)
Lemma turns_rotate q class :
  queue_wf q -> 0 < ring_len q class ->
  omap (ring_turn q class) (seqZ 0 (ring_len q class)) = rotate (Z.to_nat (ring_cursor q class)) (ring_of q class).
Proof.
  intros Hq HL. pose proof (qw_cursor q Hq class) as Hc. set (L := ring_len q class) in *. set (c := ring_cursor q class) in *.
  assert (HLn : Z.of_nat (length (ring_of q class)) = L) by done.
  assert (Hall : Forall (fun i => is_Some (ring_turn q class i)) (seqZ 0 L)).
  { apply Forall_forall. intros i _. unfold ring_turn. fold L c. apply lookup_lt_is_Some_2.
    pose proof (Z.mod_pos_bound (c + i) L ltac:(lia)). lia. }
  assert (Hsome : Some <$> omap (ring_turn q class) (seqZ 0 L) = ring_turn q class <$> seqZ 0 L).
  { induction Hall as [|i ks [x Hx] _ IH]; [done|]. cbn. rewrite Hx. cbn. f_equal. exact IH. }
  apply (inj (fmap Some)). rewrite Hsome.
  apply list_eq. intros i. rewrite !list_lookup_fmap. destruct (decide (Z.of_nat i < L)) as [Hi|Hi].
  - rewrite lookup_seqZ_lt by lia. cbn [fmap option_fmap option_map]. rewrite lookup_rotate_r by lia.
    rewrite rotate_nat_add_add_mod. unfold rotate_nat_add, ring_turn. fold L c.
    rewrite (Nat.mod_small (Z.to_nat c)) by lia. rewrite HLn.
    replace (Z.of_nat (Z.to_nat c)) with c by lia. rewrite Z.add_0_l.
    destruct (lookup_lt_is_Some_2 (ring_of q class) (Z.to_nat ((c + Z.of_nat i) mod L))) as [x Hx];
      [pose proof (Z.mod_pos_bound (c + Z.of_nat i) L ltac:(lia)); lia|]. by rewrite Hx.
  - rewrite lookup_seqZ_ge by lia. rewrite lookup_ge_None_2; [done|]. rewrite length_rotate. lia.
Qed.

(** [n] packets of a class taken, one after the other, their buffers given back: the clients they were for. *)
Fixpoint serve (n : nat) (q : DownlinkQueue) (class : PacketClass) : opt (list Z * DownlinkQueue) :=
  match n with
  | O => Ok ([], q)
  | S n =>
      '(got, q) ← DownlinkQueue_dequeue q class;
      match got with
      | None => Ok ([], q)
      | Some (key, packet) => '(keys, q) ← serve n (DownlinkQueue_recycle q key class packet) class; Ok (key :: keys, q)
      end
  end.
Definition turns_of (key : Z) (keys : list Z) : nat := length (filter (fun k => k = key) keys).
(** What a client is to have of a round: a packet for each of its streams of bulk traffic, one of the others. *)
Definition owed (q : DownlinkQueue) (class : PacketClass) (key : Z) : nat :=
  match dq_lanes q !! Z.to_nat key with
  | Some l => match class with Bulk => Z.to_nat (la_active_paths l) | _ => if decide (la_active_paths l = 0) then 0%nat else 1%nat end
  | None => 0%nat
  end.

Lemma turns_of_replicate key n k : turns_of key (replicate n k) = if decide (k = key) then n else 0%nat.
Proof. unfold turns_of. induction n as [|n IH]; cbn [replicate]; [by case_decide|]. rewrite filter_cons. destruct (decide (k = key)); cbn [length]; [by rewrite IH|done]. Qed.
Lemma turns_of_app key l k : turns_of key (l ++ k) = (turns_of key l + turns_of key k)%nat.
Proof. unfold turns_of. by rewrite filter_app, length_app. Qed.
Lemma turns_of_lanes (w : ClientEgressLane -> Z) lanes n key : 0 <= key ->
  turns_of key (mjoin (imap (fun i lane => if la_active_paths lane =? 0 then [] else replicate (Z.to_nat (w lane)) (Z.of_nat (n + i))) lanes))
  = if decide (n <= Z.to_nat key)%nat then
      match lanes !! (Z.to_nat key - n)%nat with Some l => if decide (la_active_paths l = 0) then 0%nat else Z.to_nat (w l) | None => 0%nat end
    else 0%nat.
Proof.
  intros Hk. revert n. induction lanes as [|l lanes IH]; intros n; [by case_decide|]. cbn [imap mjoin list_join]. rewrite turns_of_app.
  rewrite (imap_ext _ (fun i lane => if la_active_paths lane =? 0 then [] else replicate (Z.to_nat (w lane)) (Z.of_nat (S n + i)))).
  2: { intros i x _. cbn. by replace (n + S i)%nat with (S (n + i)) by lia. }
  rewrite IH, Nat.add_0_r. replace (turns_of key (if la_active_paths l =? 0 then [] else replicate (Z.to_nat (w l)) (Z.of_nat n)))
    with (if decide (Z.of_nat n = key) then (if decide (la_active_paths l = 0) then 0%nat else Z.to_nat (w l)) else 0%nat).
  2: { destruct (Z.eqb_spec (la_active_paths l) 0) as [E|E]; [|rewrite turns_of_replicate]; repeat case_decide; done. }
  destruct (decide (Z.of_nat n = key)) as [<-|Hne].
  - rewrite (decide_True (P := (n <= Z.to_nat (Z.of_nat n))%nat)) by lia. rewrite (decide_False (P := (S n <= _)%nat)) by lia.
    replace (Z.to_nat (Z.of_nat n) - n)%nat with 0%nat by lia. cbn [lookup list_lookup]. lia.
  - destruct (decide (n <= Z.to_nat key)%nat).
    + rewrite decide_True by lia. by replace (Z.to_nat key - n)%nat with (S (Z.to_nat key - S n)) by lia.
    + by rewrite decide_False by lia.
Qed.
Lemma turns_of_ring q class key : queue_wf q -> 0 <= key -> turns_of key (ring_of q class) = owed q class key.
Proof.
  intros Hq Hk. rewrite (qw_ring q Hq class). unfold ring_keys, owed. pose proof (turns_of_lanes (fun l => ring_weight class (la_active_paths l)) (dq_lanes q) 0 key Hk) as H.
  cbn [Nat.add] in H. rewrite H. rewrite decide_True by lia. rewrite Nat.sub_0_r. destruct (dq_lanes q !! Z.to_nat key) as [l|]; [|done].
  destruct class; cbn [ring_weight]; repeat case_decide; try done; lia.
Qed.

Lemma next_keys_ext n q q' class : ring_of q class = ring_of q' class -> ring_cursor q class = ring_cursor q' class ->
  (next_keys n q class).1 = (next_keys n q' class).1.
Proof.
  revert q q'. induction n as [|n IH]; intros q q' Hr Hc; [done|]. cbn [next_keys]. unfold next_key. rewrite Hr, Hc.
  destruct (ring_of q' class !! _) as [key|]; [|done].
  specialize (IH (with_cursor q class (if ring_cursor q' class + 1 =? len (ring_of q' class) then 0 else ring_cursor q' class + 1))
    (with_cursor q' class (if ring_cursor q' class + 1 =? len (ring_of q' class) then 0 else ring_cursor q' class + 1))).
  destruct (next_keys n (with_cursor q _ _) class), (next_keys n (with_cursor q' _ _) class). cbn [fst] in *. f_equal. apply IH; by destruct class.
Qed.
(** A client whose turn it is and that has packets is served. *)
Lemma dequeue_in_turn q class key : queue_wf q -> 0 < ring_len q class -> ring_turn q class 0 = Some key -> pending_at q key class <> [] ->
  exists p q', DownlinkQueue_dequeue q class = Ok (Some (key, p), q') /\
    let q2 := DownlinkQueue_recycle q' key class p in
    queue_wf q2 /\ ring_of q2 class = ring_of q class /\ ring_cursor q2 class = (ring_cursor q class + 1) mod ring_len q class
    /\ forall k c, 0 <= k -> contents q2 k c = if decide (k = key /\ c = class) then tail (contents q k c) else contents q k c.
Proof.
  intros Hq HL Ht Hne. destruct (dequeue_put_back q class false Hq) as (r & q1 & Hd & Hw1).
  destruct (downlink_dequeue_oldest q class Hq) as (r' & q1' & Hd' & Hold). rewrite Hd in Hd'. injection Hd' as <- <-.
  destruct (dequeue_loop_spec (Z.to_nat (ring_len q class)) q class Hq HL) as (r2 & q2 & Hl & Hr). unfold DownlinkQueue_dequeue in Hd. rewrite Hd in Hl. injection Hl as <- <-.
  destruct r as [[key' p]|]; [|destruct Hr as [_ Hr]; by destruct Hne; apply (Hr 0); [lia|]].
  destruct Hr as (l & rest & i & Hi & Hti & H0 & Hlk & Hpe & Hbefore & ->).
  assert (i = 0) as -> by (destruct (decide (i = 0)); [done|]; exfalso; apply Hne; apply (Hbefore 0); [lia|done]).
  rewrite Ht in Hti. injection Hti as <-. rewrite Z.add_0_r in *. exists p. eexists. split; [exact Hd|]. cbv zeta. destruct Hold as (Hc1 & Hc2 & _).
  set (q1 := with_lane _ _ _) in *. split; [exact Hw1|]. split_and!.
  - unfold DownlinkQueue_recycle. destruct (dq_lanes q1 !! _); by destruct class.
  - unfold DownlinkQueue_recycle. destruct (dq_lanes q1 !! _); by destruct class.
  - intros k c Hk. assert (Hrec : contents (DownlinkQueue_recycle q1 key class p) k c = contents q1 k c).
    { unfold DownlinkQueue_recycle. destruct (dq_lanes q1 !! Z.to_nat key) as [l'|] eqn:El; [|done]. unfold contents.
      rewrite pending_with_lane by (by apply lookup_lt_Some in El). case_decide as E; [|done]. unfold pending_at. rewrite E, El, lane_queue_set.
      by case_decide as Ec; [subst c|]. }
    rewrite Hrec. case_decide as E; [destruct E as [-> ->]; by rewrite Hc1|]. apply Hc2; [done|].
    destruct (decide (k = key)) as [->|]; [right; intros ->; by apply E|by left].
Qed.
Lemma serve_turns n q class : queue_wf q -> 0 < ring_len q class ->
  (forall key, 0 <= key -> (turns_of key (next_keys n q class).1 <= length (contents q key class))%nat) ->
  exists q', serve n q class = Ok ((next_keys n q class).1, q') /\ queue_wf q' /\ ring_of q' class = ring_of q class
    /\ ring_cursor q' class = (ring_cursor q class + Z.of_nat n) mod ring_len q class
    /\ forall key c, 0 <= key -> contents q' key c = if decide (c = class) then drop (turns_of key (next_keys n q class).1) (contents q key c) else contents q key c.
Proof.
  revert q. induction n as [|n IH]; intros q Hq HL Hc.
  { exists q. split; [done|]. split_and!; [done|done| |by intros key c _; case_decide]. rewrite Z.add_0_r, Z.mod_small; [done|]. pose proof (qw_cursor q Hq class). lia. }
  destruct (next_key_spec q class Hq HL) as (key & l & Hn & Hring & H0 & _).
  assert (Hturn : ring_turn q class 0 = Some key) by (unfold ring_turn; rewrite Z.add_0_r, Z.mod_small; [done|]; pose proof (qw_cursor q Hq class); lia).
  cbn [next_keys] in *. rewrite Hn in *. set (q1 := with_cursor q class _) in *. destruct (next_keys n q1 class) as [ks qe] eqn:Eks. cbn [fst] in *.
  assert (Hone : forall k, turns_of k (key :: ks) = ((if decide (key = k) then 1 else 0) + turns_of k ks)%nat) by (intros k; unfold turns_of; rewrite filter_cons; by case_decide).
  assert (Hne : pending_at q key class <> []).
  { intros E. specialize (Hc key H0). rewrite Hone, decide_True in Hc by done. unfold contents in Hc. rewrite E in Hc. cbn in Hc. lia. }
  destruct (dequeue_in_turn q class key Hq HL Hturn Hne) as (p & q' & Hd & Hw & Hr & Hcur & Hcont). cbn [serve]. rewrite Hd. cbn [mbind result_bind].
  set (q2 := DownlinkQueue_recycle q' key class p) in *. destruct (cursor_fields q class ((ring_cursor q class + 1) mod ring_len q class)) as (F1 & F2 & _). fold q1 in F1, F2.
  assert (Hks : (next_keys n q2 class).1 = ks) by (change ks with (ks, qe).1; rewrite <- Eks; apply next_keys_ext; congruence).
  assert (HL2 : ring_len q2 class = ring_len q class) by (unfold ring_len; by rewrite Hr).
  destruct (IH q2 Hw ltac:(lia)) as (q3 & E3 & Hw3 & Hr3 & Hc3 & Hcont3).
  { intros k Hk. rewrite Hks, Hcont by done. specialize (Hc k Hk). rewrite Hone in Hc. destruct (decide (key = k)) as [->|].
    - rewrite decide_True by done. destruct (contents q k class); cbn in *; lia.
    - rewrite decide_False by (by intros [-> _]). lia. }
  rewrite E3, Hks. cbn [mbind result_bind]. exists q3. split; [done|]. split_and!; [done|congruence| |].
  - rewrite Hc3, Hcur, HL2, Z.add_mod_idemp_l by lia. f_equal. lia.
  - intros k c Hk. rewrite Hcont3, Hks, Hcont by done. rewrite Hone. destruct (decide (c = class)) as [->|]; [|by rewrite decide_False by (by intros [_ ->])].
    destruct (decide (key = k)) as [->|]; [rewrite decide_True by done; destruct (contents q k class); cbn [tail Nat.add drop]; by rewrite ?drop_nil|by rewrite decide_False by (by intros [-> _])].
Qed.

(** C39. While every client with streams has enough packets of a class waiting, one round of the ring of that class serves each of
    them its due and no more, oldest packets first: of bulk traffic as many packets as it has streams, of the others one; a
    client without streams gets nothing, no other queue changes, and the next round begins where this one did. *)
Theorem downlink_fair_round q class :
  queue_wf q -> (forall key, 0 <= key -> (owed q class key <= length (contents q key class))%nat) ->
  exists keys q', serve (Z.to_nat (ring_len q class)) q class = Ok (keys, q') /\ queue_wf q'
    /\ (forall key, 0 <= key -> turns_of key keys = owed q class key /\ contents q' key class = drop (owed q class key) (contents q key class))
    /\ (forall key c, 0 <= key -> c <> class -> contents q' key c = contents q key c)
    /\ ring_of q' class = ring_of q class /\ ring_cursor q' class = ring_cursor q class.
Proof.
  intros Hq Howed. pose proof (len_nonneg (ring_of q class)) as HL0. fold (ring_len q class) in HL0. pose proof (fun key => turns_of_ring q class key Hq) as Hring.
  destruct (decide (ring_len q class = 0)) as [HL|HL].
  { rewrite HL. exists [], q. split; [done|]. split; [done|]. assert (ring_of q class = []) as E by (unfold ring_len, len in HL; by destruct (ring_of q class)).
    split_and!; try done. intros key Hk. rewrite <- Hring, E by done. split; [done|]. by rewrite drop_0. }
  assert (Hcount : forall key, 0 <= key -> turns_of key (next_keys (Z.to_nat (ring_len q class)) q class).1 = owed q class key).
  { intros key Hk. rewrite <- Hring by done. rewrite next_keys_turns by (done || lia). cbn [fst]. rewrite Z2Nat.id, turns_rotate by (done || lia).
    unfold rotate, turns_of. by rewrite Permutation_app_comm, take_drop. }
  destruct (serve_turns (Z.to_nat (ring_len q class)) q class Hq ltac:(lia)) as (q' & E & Hw & Hr & Hc & Hcont); [intros key Hk; rewrite Hcount by done; by apply Howed|].
  eexists _, q'. split; [exact E|]. split; [done|]. split_and!; [| |done|].
  - intros key Hk. split; [by apply Hcount|]. by rewrite Hcont, decide_True, Hcount by done.
  - intros key c Hk Hne. by rewrite Hcont, decide_False by done.
  - rewrite Hc, Z2Nat.id by lia. replace (ring_cursor q class + ring_len q class) with (ring_cursor q class + 1 * ring_len q class) by lia.
    pose proof (qw_cursor q Hq class). rewrite Z.mod_add, Z.mod_small by lia. done.
Qed.

(** Two clients, of two streams and of one. *)
Definition demo_round : list queue_op := [QConfigure 7 2; QConfigure 9 1; QEnqueue 7 Bulk [1]; QEnqueue 7 Bulk [2]; QEnqueue 7 Bulk [3]; QEnqueue 9 Bulk [4]; QEnqueue 9 Bulk [5]].
(** Every client (there are 256 lanes) has its due waiting. *)
Definition saturated (q : DownlinkQueue) (class : PacketClass) : bool :=
  forallb (fun k => (owed q class (Z.of_nat k) <=? length (contents q (Z.of_nat k) class))%nat) (seq 0 256).
Lemma saturated_owed q class : queue_wf q -> saturated q class = true -> forall key, 0 <= key -> (owed q class key <= length (contents q key class))%nat.
Proof.
  intros Hq H key Hk. destruct (decide (key < 256)) as [Hlt|Hge].
  - unfold saturated in H. rewrite forallb_forall in H. specialize (H (Z.to_nat key) ltac:(apply in_seq; lia)). apply Nat.leb_le in H. by rewrite Z2Nat.id in H by lia.
  - unfold owed. rewrite (lookup_ge_None_2 (dq_lanes q)) by (rewrite (qw_length q Hq); lia). lia.
Qed.
Lemma downlink_fair_round_witness : exists q keys q', queue_run DownlinkQueue_default demo_round = Ok q /\ serve 3 q Bulk = Ok (keys, q')
  /\ turns_of 7 keys = 2%nat /\ turns_of 9 keys = 1%nat /\ contents q' 7 Bulk = [[3]] /\ contents q' 9 Bulk = [[5]].
Proof.
  destruct (queue_run_wf DownlinkQueue_default demo_round queue_default_wf) as (q & E & Hq); [by repeat constructor|].
  assert (Hv : match queue_run DownlinkQueue_default demo_round with
    | Ok q => (ring_len q Bulk, owed q Bulk 7, owed q Bulk 9, contents q 7 Bulk, contents q 9 Bulk, saturated q Bulk)
    | _ => (0, 0%nat, 0%nat, [], [], false) end = (3, 2%nat, 1%nat, [[1]; [2]; [3]], [[4]; [5]], true)) by (vm_compute; reflexivity).
  rewrite E in Hv. revert Hv. generalize (saturated_owed q Bulk Hq). generalize (saturated q Bulk). intros sat Hsat Hv. injection Hv as HL Hd7 Hd9 H7 H9 ->.
  destruct (downlink_fair_round q Bulk Hq (Hsat eq_refl)) as (keys & q' & Hs & _ & Hk & _).
  exists q, keys, q'. rewrite HL in Hs. destruct (Hk 7 ltac:(lia)) as [K1 K2], (Hk 9 ltac:(lia)) as [K3 K4]. rewrite Hd7 in K1, K2. rewrite Hd9 in K3, K4. rewrite H7 in K2. rewrite H9 in K4.
  exact (conj E (conj Hs (conj K1 (conj K3 (conj K2 K4))))).
Defined.

(** ** What the queues hold *)

(** Every packet that waits for a client satisfies [P] of that client. *)
Definition queue_holds (P : Z -> bytes -> Prop) (q : DownlinkQueue) : Prop :=
  forall key class, 0 <= key -> Forall (P key) (contents q key class).

Lemma queue_default_holds P : queue_holds P DownlinkQueue_default.
Proof.
  intros key class _. unfold contents, pending_at. cbn [DownlinkQueue_default dq_lanes].
  destruct (_ !! _) as [l|] eqn:E; [|constructor]. apply lookup_replicate in E as [-> _]. destruct class; constructor.
Qed.

Lemma configure_holds P q key a : queue_wf q -> 0 <= a -> queue_holds P q -> queue_holds P (DownlinkQueue_configure q key a).
Proof.
  intros Hq Ha HP. unfold DownlinkQueue_configure. destruct (dq_lanes q !! Z.to_nat key) as [l|] eqn:El; [|done].
  destruct (_ =? _); [done|]. intros k class Hk. specialize (HP k class Hk). unfold contents in *.
  change (pending_at (rebuild_rings ?x) k class) with (pending_at x k class).
  rewrite pending_with_lane by (by apply lookup_lt_Some in El). case_decide as E; [|done].
  assert (Hpre : ps_pending (lane_queue (ClientEgressLane_configure l a) class) `prefix_of` ps_pending (lane_queue l class)).
  { pose proof (lw_slots l (qw_lanes q Hq _ _ El)) as Hs. pose proof (limit_paths_range a Ha) as Hr.
    pose proof (slot_count_nonneg (limit_paths a)) as Hn. unfold slot_count in Hn.
    destruct class; cbn; eapply resize_spec; try apply (Hs Small); try apply (Hs Medium); try apply (Hs Bulk);
      [apply (Hn Small)|apply (Hn Medium)|apply (Hn Bulk)]; lia. }
  unfold pending_at in HP. rewrite E, El in HP. destruct Hpre as [rest Hpre]. rewrite Hpre, fmap_app in HP.
  by apply Forall_app in HP as [HP _].
Qed.

Lemma clear_holds P q key : queue_holds P q -> queue_holds P (DownlinkQueue_clear q key).
Proof.
  intros HP. unfold DownlinkQueue_clear. destruct (dq_lanes q !! Z.to_nat key) as [l|] eqn:El; [|done].
  intros k class Hk. unfold contents. rewrite pending_with_lane by (by apply lookup_lt_Some in El).
  case_decide; [destruct class; constructor|by apply HP].
Qed.

(** A packet that arrives for [key], with or without its frame header. *)
Definition enqueue_wire (header : option FrameHeader) (packet : bytes) : bytes :=
  match header with Some h => frame_bytes h ++ packet | None => packet end.
Definition enqueue_any (q : DownlinkQueue) (key : Z) (class : PacketClass) (header : option FrameHeader) (packet : bytes) :=
  match header with
  | Some h => DownlinkQueue_enqueue_framed q key class h packet
  | None => DownlinkQueue_enqueue q key class packet
  end.
Lemma enqueue_holds P q key class header packet :
  queue_wf q -> queue_holds P q -> 0 <= key -> P key (enqueue_wire header packet) ->
  exists b q', enqueue_any q key class header packet = Ok (b, q') /\ queue_wf q' /\ queue_holds P q'.
Proof.
  intros Hq HP Hk Hp.
  assert (Hadd : forall b q', (forall k c, 0 <= k -> contents q' k c = contents q k c ++
      (if b && bool_decide (k = key /\ c = class) then [enqueue_wire header packet] else [])) -> queue_holds P q').
  { intros b q' Hc k c Hk'. rewrite (Hc k c Hk'). apply Forall_app_2; [by apply HP|].
    destruct b; cbn [andb]; [|constructor]. case_bool_decide as Eb; [|constructor]. destruct Eb as [-> _]. by constructor. }
  destruct header as [h|]; cbn [enqueue_any enqueue_wire] in *.
  - destruct (downlink_enqueue_fifo q key class h packet true Hq Hk) as (b & q' & He & Hc & _).
    destruct (queue_apply_wf q (QEnqueueFramed key class h packet) Hq I) as (q2 & Ha & Hw). cbn in Ha, He.
    rewrite He in *. injection Ha as <-. exists b, q'. split_and!; [done|done|]. by apply (Hadd b).
  - destruct (downlink_enqueue_fifo q key class (mkFrameHeader 0 0 0) packet false Hq Hk) as (b & q' & He & Hc & _).
    destruct (queue_apply_wf q (QEnqueue key class packet) Hq I) as (q2 & Ha & Hw). cbn in Ha, He.
    rewrite He in *. injection Ha as <-. exists b, q'. split_and!; [done|done|]. by apply (Hadd b).
Qed.

(** The packet taken out, and the queues once its buffer is back. *)
Lemma dequeue_holds P q class :
  queue_wf q -> queue_holds P q ->
  exists r q', DownlinkQueue_dequeue q class = Ok (r, q') /\
  match r with
  | None => queue_wf q' /\ queue_holds P q'
  | Some (key, p) => 0 <= key < 256 /\ server_buf_wf p /\ P key (buf_bytes p)
      /\ queue_wf (DownlinkQueue_recycle q' key class p) /\ queue_holds P (DownlinkQueue_recycle q' key class p)
      /\ queue_wf (DownlinkQueue_requeue_front q' key class p) /\ queue_holds P (DownlinkQueue_requeue_front q' key class p)
  end.
Proof.
  intros Hq HP. destruct (dequeue_put_back q class false Hq) as (r & q1 & Hd & Hw1).
  destruct (dequeue_put_back q class true Hq) as (r2 & q2 & Hd2 & Hw2). rewrite Hd in Hd2. injection Hd2 as <- <-.
  exists r, q1. split; [done|]. unfold DownlinkQueue_dequeue in Hd. pose proof (len_nonneg (ring_of q class)) as HL0.
  fold (ring_len q class) in HL0. destruct (decide (ring_len q class = 0)) as [HL|HL]; [rewrite HL in Hd; by injection Hd as <- <-|].
  destruct (dequeue_loop_spec (Z.to_nat (ring_len q class)) q class Hq ltac:(lia)) as (r' & q' & Hd' & Hr).
  rewrite Hd in Hd'. injection Hd' as <- <-. destruct r as [[key p]|].
  2: { destruct Hr as [-> _]. split; [done|]. intros k c Hk. specialize (HP k c Hk). unfold contents, pending_at in *.
       by rewrite (proj2 (proj2 (cursor_fields q class _))). }
  destruct Hr as (l & rest & i & Hi & Ht & H0 & Hlk & Hpe & _ & ->).
  set (cu := (ring_cursor q class + i + 1) mod ring_len q class) in *. destruct (cursor_fields q class cu) as (_ & _ & F3).
  pose proof (lookup_lt_Some _ _ _ Hlk) as Hlt. rewrite (qw_length q Hq) in Hlt.
  assert (Hlt' : (Z.to_nat key < length (dq_lanes (with_cursor q class cu)))%nat) by (rewrite F3, (qw_length q Hq); done).
  pose proof (HP key class H0) as HPk. unfold contents, pending_at in HPk. rewrite Hlk, Hpe in HPk. cbn in HPk.
  apply Forall_cons in HPk as [HPp HPr].
  destruct (lw_slots l (qw_lanes q Hq _ _ Hlk) class) as (_ & Hbw & _). rewrite Hpe in Hbw. apply Forall_cons in Hbw as [Hbw _].
  assert (Hput : forall s, Forall (P key) (buf_bytes <$> ps_pending s) -> queue_holds P (with_lane (with_lane (with_cursor q class cu) key
      (lane_set l class (mkSlots (ps_free (lane_queue l class)) rest))) key (lane_set l class s))).
  { intros s Hs k c Hk. unfold contents. rewrite pending_with_lane by (cbn; by rewrite length_insert).
    specialize (HP k c Hk). unfold contents, pending_at in HP. case_decide as E.
    - assert (k = key) as -> by lia. rewrite lane_queue_set. rewrite Hlk in HP. case_decide; [done|exact HP].
    - rewrite pending_with_lane by done. rewrite decide_False by done. unfold pending_at. by rewrite F3. }
  split; [lia|]. split; [done|]. split; [done|]. unfold DownlinkQueue_recycle, DownlinkQueue_requeue_front in *. cbn [with_lane dq_lanes] in *.
  rewrite list_lookup_insert_eq in * by done. rewrite !lane_set_set, !lane_queue_set_eq in *. split_and!; try done; apply Hput; [exact HPr|by constructor].
Qed.
