(* ===== verification/Stun.v ===== *)
(** * STUN messages ([rust-client/stun_codec.rs] and the codec part of
    [rust-client/turn_core.rs])

    Reading: header checks, the attribute walk, class and method, fingerprint
    and integrity.  Writing: the message builder and the XOR address codec.
    The hash functions are parameters. *)

From S2P Require Import Prelude.

Definition HEADER_SIZE : Z := 20.
Definition MAGIC_COOKIE : Z := 0x2112a442.
Definition FINGERPRINT_XOR : Z := 0x5354554e.

Definition ATTR_USERNAME : Z := 0x0006.
Definition ATTR_MESSAGE_INTEGRITY : Z := 0x0008.
Definition ATTR_ERROR_CODE : Z := 0x0009.
Definition ATTR_CHANNEL_NUMBER : Z := 0x000c.
Definition ATTR_LIFETIME : Z := 0x000d.
Definition ATTR_XOR_PEER_ADDRESS : Z := 0x0012.
Definition ATTR_REALM : Z := 0x0014.
Definition ATTR_NONCE : Z := 0x0015.
Definition ATTR_XOR_RELAYED_ADDRESS : Z := 0x0016.
Definition ATTR_REQUESTED_ADDRESS_FAMILY : Z := 0x0017.
Definition ATTR_REQUESTED_TRANSPORT : Z := 0x0019.
Definition ATTR_FINGERPRINT : Z := 0x8028.

(** CRC-32, HMAC-SHA1 and MD5. *)
Class StunHash := {
  crc32 : bytes -> Z;
  stun_hmac : bytes -> bytes -> bytes;
  md5 : bytes -> bytes;
}.
Class StunHashLaws (H : StunHash) : Prop := {
  crc32_range l : is_u32 (crc32 l);
  stun_hmac_len k l : len (stun_hmac k l) = 20;
  stun_hmac_wf k l : wf_bytes (stun_hmac k l);
}.

(** ** Reading *)

Inductive Class_ := Request | Indication | Success | Error.
#[global] Instance Class_eq_dec : EqDecision Class_.
Proof. solve_decision. Defined.

Record Attribute := mkAttribute { at_kind : Z; at_value : bytes; at_header_start : Z }.
Record Message := mkMessage { ms_raw : bytes; ms_kind : Z; ms_transaction : bytes; ms_end : Z }.

Definition u16_at {E} (raw : bytes) (i : Z) : result E Z := a ← at_ raw i; b ← at_ raw (i + 1); mret (be16 a b).

(** [(length + 3) & !3] *)
Definition pad4 (length : Z) : Z := Z.ldiff (length + 3) 3.

(** The [while position < end] loop of [decode]. *)
Fixpoint check_attributes (fuel : nat) (raw : bytes) (position end_ : Z) : result string unit :=
  match fuel with
  | O => mret tt
  | S fuel =>
      if negb (position <? end_) then mret tt else
      if end_ - position <? 4 then Err "STUN attribute header truncated"%string else
      length ← u16_at raw (position + 2);
      let value_start := position + 4 in
      padded ← try_ "STUN attribute length overflow"%string
                 (match checked_add length 3 with Some v => Some (Z.ldiff v 3) | None => None end);
      next ← try_ "STUN attribute offset overflow"%string (checked_add value_start padded);
      if (end_ <? next) || (end_ <? value_start + length) then Err "STUN attribute value truncated"%string
      else check_attributes fuel raw next end_
  end.

Definition Message_decode (raw : bytes) : result string Message :=
  if len raw <? HEADER_SIZE then Err "STUN header truncated"%string else
  kind ← u16_at raw 0;
  if negb (Z.land kind 0xc000 =? 0) then Err "STUN type has non-zero leading bits"%string else
  if kind =? 0 then Err "STUN type zero is reserved"%string else
  cookie ← slice raw 4 8;
  if negb (bytes_eqb cookie (be_bytes 4 MAGIC_COOKIE)) then Err "STUN magic cookie mismatch"%string else
  declared ← u16_at raw 2;
  if negb (declared mod 4 =? 0) then Err "STUN message length is not aligned"%string else
  end_ ← try_ "STUN message length overflow"%string (checked_add HEADER_SIZE declared);
  if negb (len raw =? end_) then Err "STUN datagram length mismatch"%string else
  _ ← check_attributes (length raw) raw HEADER_SIZE end_;
  transaction ← slice raw 8 20;
  mret (mkMessage raw kind transaction end_).

Definition Message_class (m : Message) : Class_ :=
  let bits := Z.lor (Z.land (Z.shiftr (ms_kind m) 4) 1) (Z.land (Z.shiftr (ms_kind m) 7) 2) in
  if bits =? 0 then Request else if bits =? 1 then Indication else if bits =? 2 then Success else Error.

Definition Message_method (m : Message) : Z :=
  let k := ms_kind m in
  Z.lor (Z.lor (Z.land k 0x000f) (Z.land (Z.shiftr k 1) 0x0070)) (Z.land (Z.shiftr k 2) 0x0f80).

(** [Attributes::next]: the attribute and the next position. *)
Definition Attributes_next {E} (raw : bytes) (position end_ : Z) : result E (option (Attribute * Z)) :=
  if end_ <=? position then mret None else
  kind ← u16_at raw position;
  length ← u16_at raw (position + 2);
  let value_start := position + 4 in
  let value_end := value_start + length in
  value ← slice raw value_start value_end;
  mret (Some (mkAttribute (if kind =? 0x8020 then 0x0020 else kind) value position, value_start + pad4 length)).

Fixpoint find_attribute {E} (fuel : nat) (raw : bytes) (position end_ target : Z) : result E (option Attribute) :=
  match fuel with
  | O => mret None
  | S fuel =>
      r ← Attributes_next raw position end_;
      match r with
      | None => mret None
      | Some (a, next) => if at_kind a =? target then mret (Some a) else find_attribute fuel raw next end_ target
      end
  end.

Definition Message_attribute {E} (m : Message) (target : Z) : result E (option Attribute) :=
  find_attribute (length (ms_raw m)) (ms_raw m) HEADER_SIZE (ms_end m) target.

Section Hashed.
Context `{StunHash}.

Definition fingerprint_valid {E} (m : Message) : result E (option bool) :=
  a ← Message_attribute m ATTR_FINGERPRINT;
  match a with
  | None => mret None
  | Some a =>
      if negb (len (at_value a) =? 4) || negb (at_header_start a + 8 =? ms_end m) then mret (Some false) else
      prefix ← slice (ms_raw m) 0 (at_header_start a);
      mret (Some (be_val (at_value a) =? Z.lxor (crc32 prefix) FINGERPRINT_XOR))
  end.

Definition verify_integrity {E} (packet : bytes) (m : Message) (key : option bytes) : result E bool :=
  a ← Message_attribute m ATTR_MESSAGE_INTEGRITY;
  match key, a with
  | Some key, Some integrity =>
      if negb (len (at_value integrity) =? 20) || (at_header_start integrity <? 20) then mret false else
      signed ← slice packet 0 (at_header_start integrity);
      let signed_length := at_header_start integrity + 24 - 20 in
      if U16_MAX <? signed_length then mret false else
      signed ← copy_into signed 2 4 (be_bytes 2 signed_length);
      mret (bytes_eqb (stun_hmac key signed) (at_value integrity))
  | _, _ => mret false
  end.
End Hashed.

Definition error_code {E} (m : Message) : result E (option Z) :=
  a ← Message_attribute m ATTR_ERROR_CODE;
  match a with
  | None => mret None
  | Some a =>
      let value := at_value a in
      if len value <? 4 then mret None else
      class ← at_ value 2;
      number ← at_ value 3;
      if (6 <? class) || (99 <? number) then mret None else mret (Some (class * 100 + number))
  end.

Definition response_requires_integrity {E} (m : Message) : result E bool :=
  match Message_class m with
  | Success => mret true
  | Error =>
      code ← error_code m;
      mret (negb (match code with
                  | Some c => (c =? 400) || (c =? 401) || (c =? 420) || (c =? 438)
                  | None => false end))
  | _ => mret false
  end.

Definition attribute_u32 {E} (m : Message) (kind : Z) : result E (option Z) :=
  a ← Message_attribute m kind;
  mret (match a with
        | Some a => if len (at_value a) =? 4 then Some (be_val (at_value a)) else None
        | None => None end).

(** ** Writing *)

Record MessageBuilder := mkBuilder { mb_bytes : bytes; mb_transaction : bytes }.

(** [bytes.len() - 20 + trailing]; the subtraction does not underflow, the
    header is always there. *)
Definition set_message_length (bytes_ : bytes) (trailing : Z) : result string bytes :=
  let length := len bytes_ - 20 + trailing in
  if U16_MAX <? length then Err "STUN message too large for u16 length"%string
  else copy_into bytes_ 2 4 (be_bytes 2 length).

Definition with_transaction (kind : Z) (transaction : bytes) : MessageBuilder :=
  mkBuilder (be_bytes 2 kind ++ be_bytes 2 0 ++ be_bytes 4 MAGIC_COOKIE ++ transaction) transaction.

(** The [while !len.is_multiple_of(4)] loop pushes at most three zeros. *)
Fixpoint push_zeros (fuel : nat) (b : bytes) : bytes :=
  match fuel with
  | O => b
  | S fuel => if len b mod 4 =? 0 then b else push_zeros fuel (b ++ [0])
  end.

Definition mb_attribute (b : MessageBuilder) (kind : Z) (value : bytes) : MessageBuilder :=
  mkBuilder (push_zeros 3 (mb_bytes b ++ be_bytes 2 kind ++ be_bytes 2 (u16_of (len value)) ++ value)) (mb_transaction b).

Inductive IpAddr := V4 (octets : bytes) | V6 (octets : bytes).
Record SocketAddr := mkSocketAddr { sa_ip : IpAddr; sa_port : Z }.
#[global] Instance IpAddr_eq_dec : EqDecision IpAddr.
Proof. solve_decision. Defined.
#[global] Instance SocketAddr_eq_dec : EqDecision SocketAddr.
Proof. solve_decision. Defined.
Definition is_ipv4 (a : SocketAddr) : bool := match sa_ip a with V4 _ => true | V6 _ => false end.
Definition wf_addr (a : SocketAddr) : Prop :=
  is_u16 (sa_port a) /\ match sa_ip a with V4 o => wf_bytes o /\ len o = 4 | V6 o => wf_bytes o /\ len o = 16 end.

Definition xor_mask (transaction : bytes) : bytes := be_bytes 4 MAGIC_COOKIE ++ transaction.

Definition encode_xor_address (address : SocketAddr) (transaction : bytes) : bytes :=
  [0; if is_ipv4 address then 1 else 2]
  ++ be_bytes 2 (Z.lxor (sa_port address) (u16_of (Z.shiftr MAGIC_COOKIE 16)))
  ++ match sa_ip address with
     | V4 ip => be_bytes 4 (Z.lxor (be_val ip) MAGIC_COOKIE)
     | V6 ip => zip_with Z.lxor ip (xor_mask transaction)
     end.

Definition decode_xor_address (value transaction : bytes) : result string SocketAddr :=
  if len value <? 4 then Err "TURN XOR address is malformed"%string else
  zero ← at_ value 0;
  if negb (zero =? 0) then Err "TURN XOR address is malformed"%string else
  encoded_port ← u16_at value 2;
  let port := Z.lxor encoded_port (u16_of (Z.shiftr MAGIC_COOKIE 16)) in
  family ← at_ value 1;
  if (family =? 1) && (len value =? 8) then
    encoded ← slice value 4 8;
    mret (mkSocketAddr (V4 (be_bytes 4 (Z.lxor (be_val encoded) MAGIC_COOKIE))) port)
  else if (family =? 2) && (len value =? 20) then
    encoded ← slice value 4 20;
    mret (mkSocketAddr (V6 (zip_with Z.lxor encoded (xor_mask transaction))) port)
  else Err "TURN XOR address family is invalid"%string.

Definition mb_xor_address (b : MessageBuilder) (kind : Z) (address : SocketAddr) : MessageBuilder :=
  mb_attribute b kind (encode_xor_address address (mb_transaction b)).

Section Finish.
Context `{StunHash}.

Definition mb_finish (b : MessageBuilder) : result string bytes :=
  bytes_ ← set_message_length (mb_bytes b) 8;
  let fingerprint := Z.lxor (crc32 bytes_) FINGERPRINT_XOR in
  mret (mb_bytes (mb_attribute (mkBuilder bytes_ (mb_transaction b)) ATTR_FINGERPRINT (be_bytes 4 fingerprint))).

Definition mb_finish_authenticated (b : MessageBuilder) (key : bytes) : result string bytes :=
  bytes_ ← set_message_length (mb_bytes b) 24;
  let integrity := stun_hmac key bytes_ in
  mb_finish (mb_attribute (mkBuilder bytes_ (mb_transaction b)) ATTR_MESSAGE_INTEGRITY integrity).
End Finish.

(** ** The attribute walk *)

Lemma pad4_spec n : 0 <= n -> pad4 n = (n + 3) / 4 * 4.
Proof.
  intros. unfold pad4. change 3 with (Z.ones 2) at 2. rewrite Z.ldiff_ones_r by lia.
  rewrite Z.shiftr_div_pow2, Z.shiftl_mul_pow2 by lia. done.
Qed.
Lemma pad4_bounds n : 0 <= n -> n <= pad4 n <= n + 3 /\ pad4 n mod 4 = 0.
Proof.
  intros. rewrite pad4_spec by done. pose proof (Z.div_mod (n + 3) 4 ltac:(lia)). pose proof (Z.mod_pos_bound (n + 3) 4 ltac:(lia)).
  split; [lia|]. apply Z.mod_mul. lia.
Qed.

Lemma u16_at_ok {E} raw i : wf_bytes raw -> 0 <= i -> i + 2 <= len raw -> exists v, @u16_at E raw i = Ok v /\ is_u16 v.
Proof.
  intros Hw Hi Hl. destruct (@at_ok E _ raw i ltac:(lia)) as (a & Ha & _). destruct (@at_ok E _ raw (i + 1) ltac:(lia)) as (b & Hb & _).
  unfold u16_at. rewrite Ha, Hb. cbn. eexists. split; [reflexivity|]. apply be16_bound; by eapply at_byte.
Qed.

Lemma u16_at_any {E F} raw i v : @u16_at E raw i = Ok v -> @u16_at F raw i = Ok v.
Proof.
  unfold u16_at. intros H. inv_bind. apply at_inv in Hb as [H1 L1]. apply at_inv in Hb0 as [H2 L2]. injection H as <-.
  unfold at_. replace (0 <=? i) with true by lia. replace (0 <=? i + 1) with true by lia. by rewrite L1, L2.
Qed.

(** The attributes from [position] on lie inside the message. *)
Inductive walk (raw : bytes) (end_ : Z) : Z -> Prop :=
| walk_end : walk raw end_ end_
| walk_step position v : @u16_at string raw (position + 2) = Ok v -> is_u16 v -> 0 <= position -> position + 4 + pad4 v <= end_ ->
    walk raw end_ (position + 4 + pad4 v) -> walk raw end_ position.

Lemma check_attributes_walk fuel raw position end_ :
  wf_bytes raw -> 0 <= position <= end_ -> end_ <= len raw ->
  safe (check_attributes fuel raw position end_)
  /\ (end_ - position <= Z.of_nat fuel -> check_attributes fuel raw position end_ = Ok tt -> walk raw end_ position).
Proof.
  intros Hw. revert position. induction fuel as [|fuel IH]; intros position Hp He; cbn [check_attributes].
  { split; [done|]. intros Hf _. replace position with end_ by lia. constructor. }
  destruct (position <? end_) eqn:E1; bool_prop; cbn [negb].
  2: { split; [done|]. intros _ _. replace position with end_ by lia. constructor. }
  destruct (end_ - position <? 4) eqn:E2; bool_prop; [done|].
  destruct (@u16_at_ok string raw (position + 2) Hw ltac:(lia) ltac:(lia)) as (v & Hv & Hv16). rewrite Hv. cbn [mbind result_bind].
  pose proof Hv16 as Hr. unfold is_u16 in Hr. 
  replace (checked_add v 3) with (Some (v + 3)) by (unfold checked_add, USIZE_MAX; by replace (_ <=? _) with true by lia).
  cbn [try_ mbind result_bind].
  change (Z.ldiff (v + 3) 3) with (pad4 v). pose proof (pad4_bounds v ltac:(lia)) as [Hpad _].
  destruct (checked_add (position + 4) (pad4 v)) as [next|] eqn:E4; cbn [try_ mbind result_bind]; [|done].
  assert (next = position + 4 + pad4 v) as -> by (unfold checked_add in E4; split_case_in E4; congruence).
  destruct (_ || _) eqn:E5; [done|]. bool_prop. destruct (IH (position + 4 + pad4 v) ltac:(lia) He) as [IH1 IH2].
  split; [done|]. intros Hf Hok. apply (walk_step raw end_ position v); try done; try lia. apply IH2; [lia|done].
Qed.

Lemma find_attribute_total {E} fuel raw position end_ target :
  wf_bytes raw -> end_ <= len raw -> 0 <= position -> walk raw end_ position ->
  exists o, @find_attribute E fuel raw position end_ target = Ok o
  /\ forall a, o = Some a ->
     position <= at_header_start a /\ at_header_start a + 4 + len (at_value a) <= end_ /\ at_kind a = target.
Proof.
  intros Hw He. revert position. induction fuel as [|fuel IH]; intros position Hp Hwalk; cbn [find_attribute]; [by exists None|].
  unfold Attributes_next. destruct (end_ <=? position) eqn:E1; bool_prop; [by exists None|].
  inversion Hwalk as [|? v Hv Hv16 _ Hle Hwalk']; subst; [lia|]. unfold is_u16 in Hv16.
  pose proof (pad4_bounds v ltac:(lia)) as [Hpad _].
  destruct (@u16_at_ok E raw position Hw ltac:(lia) ltac:(lia)) as (k & -> & _). cbn [mbind result_bind].
  pose proof (@u16_at_any string E raw (position + 2) v Hv) as HvE.
  rewrite HvE. cbn [mbind result_bind]. rewrite slice_ok by lia. cbn [mbind result_bind mret result_ret at_kind].
  destruct (_ =? target) eqn:E2; bool_prop.
  - eexists. split; [done|]. intros a [= <-]. cbn. rewrite len_sub by lia. split_and!; lia.
  - destruct (IH (position + 4 + pad4 v) ltac:(lia) Hwalk') as (o & -> & IH2). exists o. split; [done|]. intros a Ha.
    destruct (IH2 a Ha) as (? & ? & ?). split_and!; try done; lia.
Qed.

(** What an accepted message is: the whole datagram, cut into attributes. *)
Lemma Message_decode_inv raw :
  wf_bytes raw ->
  safe (Message_decode raw)
  /\ forall m, Message_decode raw = Ok m ->
     ms_raw m = raw /\ ms_end m = len raw /\ len (ms_transaction m) = 12 /\ HEADER_SIZE <= len raw /\ walk raw (len raw) HEADER_SIZE.
Proof.
  intros Hw. unfold Message_decode, HEADER_SIZE. destruct (len raw <? 20) eqn:E1; bool_prop; [done|].
  destruct (@u16_at_ok string raw 0 Hw ltac:(lia) ltac:(lia)) as (kind & -> & _). cbn [mbind result_bind].
  destruct (negb (Z.land kind _ =? 0)); [done|]. destruct (kind =? 0); [done|].
  rewrite (slice_ok raw 4 8) by lia. cbn [mbind result_bind]. destruct (negb (bytes_eqb _ _)); [done|].
  destruct (@u16_at_ok string raw 2 Hw ltac:(lia) ltac:(lia)) as (d & -> & Hd). cbn [mbind result_bind]. unfold is_u16 in Hd.
  destruct (negb (d mod 4 =? 0)); [done|]. unfold checked_add. destruct (20 + d <=? USIZE_MAX) eqn:E2; cbn [try_ mbind result_bind]; [|done].
  destruct (len raw =? 20 + d) eqn:E3; cbn [negb]; [|done]. bool_prop.
  destruct (check_attributes_walk (length raw) raw 20 (20 + d) Hw ltac:(lia) ltac:(lia)) as [Hs Hwalk].
  destruct (check_attributes _ _ _ _) as [[]| |] eqn:Ec; [|done|done]. specialize (Hwalk ltac:(unfold len in *; lia) eq_refl).
  cbn [mbind result_bind]. rewrite (slice_ok raw 8 20) by lia. cbn [mbind result_bind mret result_ret].
  split; [done|]. intros m [= <-]. cbn [ms_raw ms_end ms_transaction].
  rewrite len_sub by lia. split_and!; (done || lia || by rewrite E3).
Qed.

Section Reads.
Context {E : Type} {raw : bytes} {m : Message} (Hraw : wf_bytes raw) (Hm : Message_decode raw = Ok m).

Lemma attribute_total target :
  exists o, @Message_attribute E m target = Ok o
  /\ forall a, o = Some a -> 20 <= at_header_start a /\ at_header_start a + 4 + len (at_value a) <= len raw.
Proof using Hraw Hm.
  destruct (proj2 (Message_decode_inv raw Hraw) m Hm) as (H1 & H2 & _ & H3 & Hwalk). unfold HEADER_SIZE in H3.
  unfold Message_attribute. rewrite H1, H2.
  destruct (@find_attribute_total E (length raw) raw HEADER_SIZE (len raw) target Hraw ltac:(lia) ltac:(unfold HEADER_SIZE; lia) Hwalk)
    as (o & Ho & Hb). exists o. split; [exact Ho|]. intros a Ha. destruct (Hb a Ha) as (H4 & H5 & _). unfold HEADER_SIZE in H4. lia.
Qed.

Lemma fingerprint_total `{StunHash} : exists o, @fingerprint_valid _ E m = Ok o.
Proof using Hraw Hm.
  destruct (proj2 (Message_decode_inv raw Hraw) m Hm) as (H1 & _).
  unfold fingerprint_valid. destruct (attribute_total ATTR_FINGERPRINT) as ([a|] & -> & Ha); cbn [mbind result_bind]; [|eauto].
  destruct (_ || _); [eexists; done|]. destruct (Ha a eq_refl) as [H2 H3]. pose proof (len_nonneg (at_value a)).
  rewrite H1, slice_ok by lia. eexists; done.
Qed.

Lemma verify_integrity_total `{StunHash} key : exists b, @verify_integrity _ E raw m key = Ok b.
Proof using Hraw Hm.
  unfold verify_integrity. destruct (attribute_total ATTR_MESSAGE_INTEGRITY) as ([a|] & -> & Ha); cbn [mbind result_bind].
  2: { destruct key; eexists; done. }
  destruct key; [|eexists; done]. destruct (_ || _); [eexists; done|].
  destruct (Ha a eq_refl) as [H2 H3]. pose proof (len_nonneg (at_value a)). rewrite slice_ok by lia. cbn [mbind result_bind].
  destruct (U16_MAX <? _); [eexists; done|].
  rewrite copy_into_ok by (rewrite ?len_sub, ?len_be_bytes by lia; lia). eexists; done.
Qed.

Lemma error_code_total : exists o, @error_code E m = Ok o.
Proof using Hraw Hm.
  unfold error_code. destruct (attribute_total ATTR_ERROR_CODE) as ([a|] & -> & Ha); cbn [mbind result_bind]; [|eexists; done].
  destruct (len (at_value a) <? 4) eqn:E4; bool_prop; [eexists; done|].
  destruct (@at_ok E _ (at_value a) 2 ltac:(lia)) as (x & -> & _). destruct (@at_ok E _ (at_value a) 3 ltac:(lia)) as (y & -> & _).
  cbn. destruct (_ || _); eexists; done.
Qed.

Lemma requires_integrity_total : exists b, @response_requires_integrity E m = Ok b.
Proof using Hraw Hm.
  unfold response_requires_integrity. destruct (Message_class m); try (eexists; done).
  destruct error_code_total as (o & ->). eexists; done.
Qed.

Lemma attribute_u32_total target : exists o, @attribute_u32 E m target = Ok o.
Proof using Hraw Hm. unfold attribute_u32. destruct (attribute_total target) as (o & -> & _). eexists; done. Qed.
End Reads.

Lemma decode_xor_address_safe value tx : safe (decode_xor_address value tx).
Proof.
  unfold decode_xor_address. destruct (len value <? 4) eqn:E; bool_prop; [done|].
  destruct (@at_ok string _ value 0 ltac:(lia)) as (z & -> & _). cbn [mbind result_bind]. destruct (negb _); [done|].
  unfold u16_at. destruct (@at_ok string _ value 2 ltac:(lia)) as (a & -> & _).
  destruct (@at_ok string _ value (2 + 1) ltac:(lia)) as (b & -> & _).
  destruct (@at_ok string _ value 1 ltac:(lia)) as (f & -> & _). cbn [mbind result_bind mret result_ret].
  destruct ((f =? 1) && (len value =? 8)) eqn:E1; bool_prop.
  - by rewrite slice_ok by lia.
  - destruct ((f =? 2) && (len value =? 20)) eqn:E2; bool_prop; [|done]. by rewrite slice_ok by lia.
Qed.

(** Decoding a datagram as STUN never reads outside it, whatever it holds,
    and on a message that was accepted every attribute lookup, the fingerprint
    check, the integrity check and the error code are read inside it too. *)
Theorem stun_decode_safe `{H : StunHash, !StunHashLaws H} raw :
  wf_bytes raw ->
  safe (Message_decode raw)
  /\ forall m, Message_decode raw = Ok m -> ms_raw m = raw /\ ms_end m = len raw /\ len (ms_transaction m) = 12
     /\ (forall target, safe (@Message_attribute unit m target))
     /\ safe (@fingerprint_valid H unit m) /\ (forall key, safe (@verify_integrity H unit raw m key))
     /\ safe (@error_code unit m).
Proof.
  intros Hw. destruct (Message_decode_inv raw Hw) as [Hs Hinv]. split; [done|]. intros m Hm.
  destruct (Hinv m Hm) as (-> & -> & -> & _). split_and!; try done; intros.
  - by destruct (@attribute_total unit _ _ Hw Hm target) as (? & -> & _).
  - by destruct (@fingerprint_total unit _ _ Hw Hm H) as (? & ->).
  - by destruct (@verify_integrity_total unit _ _ Hw Hm H key) as (? & ->).
  - by destruct (@error_code_total unit _ _ Hw Hm) as (? & ->).
Qed.

(** A concrete instance of the hashes, to run the definitions. *)
#[export] Instance demo_hash : StunHash := {
  crc32 l := u32_of (foldr Z.add 17 l);
  stun_hmac k l := replicate 20 (u8_of (foldr Z.add (len k) l));
  md5 l := replicate 16 (u8_of (foldr Z.add 3 l));
}.
#[export] Instance demo_hash_laws : StunHashLaws demo_hash.
Proof.
  split; intros.
  - apply u32_of_range.
  - done.
  - apply Forall_replicate, u8_of_range.
Qed.

Lemma stun_decode_safe_witness :
  Message_decode [0; 1; 0; 4; 33; 18; 164; 66; 1; 2; 3; 4; 5; 6; 7; 8; 9; 10; 11; 12; 0; 9; 0; 5]
    = Err "STUN attribute value truncated"%string
  /\ safe (Message_decode (replicate 30 33)).
Proof.
  split; [vm_compute; reflexivity|]. apply (stun_decode_safe (replicate 30 33)).
  apply (bool_decide_unpack _); vm_compute; exact I.
Defined.

(** ** Built messages *)

Definition attr_ok (kv : Z * bytes) : Prop := is_u16 kv.1 /\ kv.1 <> 0x8020 /\ len kv.2 <= U16_MAX.
Definition attr_bytes (kv : Z * bytes) : bytes :=
  be_bytes 2 kv.1 ++ be_bytes 2 (len kv.2) ++ kv.2 ++ zeroed (pad4 (len kv.2) - len kv.2).
Definition attrs_bytes (l : list (Z * bytes)) : bytes := mjoin (attr_bytes <$> l).

Lemma len_attr_bytes kv : len (attr_bytes kv) = 4 + pad4 (len kv.2).
Proof.
  pose proof (pad4_bounds (len kv.2) (len_nonneg _)) as [Hp _]. unfold attr_bytes. rewrite !len_app, !len_be_bytes, len_zeroed by lia. lia.
Qed.
Lemma attr_bytes_aligned kv : len (attr_bytes kv) mod 4 = 0.
Proof.
  rewrite len_attr_bytes. pose proof (pad4_bounds (len kv.2) (len_nonneg _)) as [_ Hp].
  rewrite Z.add_mod, Hp by lia. reflexivity.
Qed.
Lemma attrs_bytes_app l k : attrs_bytes (l ++ k) = attrs_bytes l ++ attrs_bytes k.
Proof. unfold attrs_bytes. by rewrite fmap_app, join_app. Qed.
Lemma attrs_bytes_cons kv l : attrs_bytes (kv :: l) = attr_bytes kv ++ attrs_bytes l.
Proof. done. Qed.
Lemma attrs_bytes_aligned l : len (attrs_bytes l) mod 4 = 0.
Proof.
  induction l as [|kv l IH]; [done|]. rewrite attrs_bytes_cons, len_app, Z.add_mod, IH, attr_bytes_aligned by lia. done.
Qed.

Lemma push_zeros_spec n fuel (b : bytes) :
  0 <= n <= Z.of_nat fuel -> n < 4 -> (len b + n) mod 4 = 0 -> push_zeros fuel b = b ++ zeroed n.
Proof.
  revert b n. induction fuel as [|fuel IH]; intros b n Hn Hn4 Hm; cbn [push_zeros].
  - replace n with 0 by lia. cbn. by rewrite app_nil_r.
  - destruct (len b mod 4 =? 0) eqn:E; bool_prop.
    + assert (n = 0) as ->.
      { rewrite Z.add_mod, E, Z.add_0_l, Z.mod_mod in Hm by lia. rewrite Z.mod_small in Hm; lia. }
      cbn. by rewrite app_nil_r.
    + assert (n <> 0) by (intros ->; rewrite Z.add_0_r in Hm; done).
      rewrite (IH (b ++ [0]) (n - 1)); [|lia|lia|].
      * unfold zeroed. rewrite <- app_assoc. f_equal. replace (Z.to_nat n) with (S (Z.to_nat (n - 1))) by lia. done.
      * rewrite len_app, len_cons, len_nil. replace (len b + (1 + 0) + (n - 1)) with (len b + n) by lia. done.
Qed.

Lemma mb_attribute_spec b k v :
  len (mb_bytes b) mod 4 = 0 -> len v <= U16_MAX ->
  mb_attribute b k v = mkBuilder (mb_bytes b ++ attr_bytes (k, v)) (mb_transaction b).
Proof.
  intros Hb Hv. pose proof (len_nonneg v). pose proof (pad4_bounds (len v) (len_nonneg _)) as [Hp Hm].
  unfold mb_attribute. f_equal. unfold u16_of. rewrite Z.mod_small by (unfold U16_MAX in Hv; lia).
  rewrite (push_zeros_spec (pad4 (len v) - len v)) by (try lia;
    rewrite !len_app, !len_be_bytes; replace (len (mb_bytes b) + (Z.of_nat 2 + (Z.of_nat 2 + len v)) + (pad4 (len v) - len v))
      with (len (mb_bytes b) + (4 + pad4 (len v))) by lia; rewrite Z.add_mod, Hb, Z.add_0_l, Z.mod_mod by lia;
    rewrite Z.add_mod, Hm by lia; done).
  unfold attr_bytes. cbn [fst snd]. by rewrite <- !app_assoc.
Qed.

Lemma u16_at_app {E} pre v post i :
  i = len pre -> is_u16 v -> @u16_at E (pre ++ be_bytes 2 v ++ post) i = Ok v.
Proof.
  intros -> Hv. unfold u16_at. rewrite (at_app_r pre _ (len pre)), (at_app_r pre _ (len pre + 1)) by lia.
  rewrite Z.sub_diag. replace (len pre + 1 - len pre) with 1 by lia.
  transitivity (@Ok E Z (be_val (be_bytes 2 v))); [reflexivity|]. f_equal. apply be_val_be_bytes_id. exact Hv.
Qed.

(** Where and what the first attribute of a kind is. *)
Fixpoint first_attribute (l : list (Z * bytes)) (base target : Z) : option Attribute :=
  match l with
  | [] => None
  | kv :: l => if kv.1 =? target then Some (mkAttribute kv.1 kv.2 base)
               else first_attribute l (base + len (attr_bytes kv)) target
  end.

Lemma attribute_at {E} pre kv post raw :
  attr_ok kv -> raw = pre ++ attr_bytes kv ++ post ->
  @Attributes_next E raw (len pre) (len raw) = Ok (Some (mkAttribute kv.1 kv.2 (len pre), len pre + len (attr_bytes kv)))
  /\ @u16_at E raw (len pre + 2) = Ok (len kv.2).
Proof.
  intros (Hk & Hne & Hl) ->. pose proof (len_nonneg kv.2) as H0. pose proof (pad4_bounds (len kv.2) H0) as [Hp _].
  pose proof (len_attr_bytes kv) as Hla. pose proof (len_nonneg post). unfold U16_MAX in Hl.
  assert (Hlen : is_u16 (len kv.2)) by (unfold is_u16; lia).
  set (Z0 := zeroed (pad4 (len kv.2) - len kv.2)).
  assert (Hraw : pre ++ attr_bytes kv ++ post = (pre ++ be_bytes 2 kv.1) ++ be_bytes 2 (len kv.2) ++ kv.2 ++ Z0 ++ post)
    by (unfold attr_bytes; by rewrite <- !app_assoc).
  assert (H2 : @u16_at E (pre ++ attr_bytes kv ++ post) (len pre + 2) = Ok (len kv.2)).
  { rewrite Hraw. apply u16_at_app; [rewrite len_app, len_be_bytes; lia|done]. }
  split; [|exact H2]. unfold Attributes_next. rewrite (len_app pre), (len_app _ post).
  replace (_ <=? len pre) with false by lia. rewrite H2.
  assert (Hk' : @u16_at E (pre ++ attr_bytes kv ++ post) (len pre) = Ok kv.1).
  { unfold attr_bytes. rewrite <- !app_assoc. by apply u16_at_app. }
  rewrite Hk'. cbn [mbind result_bind]. replace (kv.1 =? 0x8020) with false by lia. rewrite Hraw.
  replace ((pre ++ be_bytes 2 kv.1) ++ be_bytes 2 (len kv.2) ++ kv.2 ++ Z0 ++ post)
    with ((pre ++ be_bytes 2 kv.1 ++ be_bytes 2 (len kv.2)) ++ kv.2 ++ Z0 ++ post) by (by rewrite <- !app_assoc).
  rewrite slice_ok; [|rewrite ?len_app, ?len_be_bytes; pose proof (len_nonneg pre); pose proof (len_nonneg Z0); lia..].
  rewrite sub_app_mid by (rewrite !len_app, !len_be_bytes; lia). cbn [mbind result_bind mret result_ret].
  rewrite Hla. by replace (len pre + 4 + pad4 (len kv.2)) with (len pre + (4 + pad4 (len kv.2))) by lia.
Qed.

Lemma find_attribute_built {E} fuel pre l raw target :
  Forall attr_ok l -> raw = pre ++ attrs_bytes l -> (length l < fuel)%nat ->
  @find_attribute E fuel raw (len pre) (len raw) target = Ok (first_attribute l (len pre) target).
Proof.
  intros Hl. revert fuel pre. induction Hl as [|kv l Hkv Hl IH]; intros [|fuel] pre Hraw Hf; cbn [length] in *; try lia.
  - cbn [find_attribute]. unfold Attributes_next. rewrite Hraw. cbn. rewrite app_nil_r.
    by replace (len pre <=? len pre) with true by lia.
  - cbn [find_attribute first_attribute]. destruct (@attribute_at E pre kv (attrs_bytes l) raw Hkv Hraw) as [-> _].
    cbn [mbind result_bind at_kind]. destruct (kv.1 =? target); [done|]. rewrite <- len_app. apply IH; [|lia].
    rewrite Hraw, attrs_bytes_cons. by rewrite <- app_assoc.
Qed.

Lemma check_attributes_built fuel pre l raw :
  Forall attr_ok l -> raw = pre ++ attrs_bytes l -> (length l < fuel)%nat -> len raw <= ISIZE_MAX ->
  check_attributes fuel raw (len pre) (len raw) = Ok tt.
Proof.
  intros Hl. revert fuel pre. induction Hl as [|kv l Hkv Hl IH]; intros [|fuel] pre Hraw Hf Hsz; cbn [length] in *; try lia.
  - cbn [check_attributes]. rewrite Hraw. cbn. rewrite app_nil_r. by replace (len pre <? len pre) with false by lia.
  - cbn [check_attributes]. destruct (@attribute_at string pre kv (attrs_bytes l) raw Hkv Hraw) as [_ Hu].
    pose proof (len_nonneg kv.2) as H0. pose proof (pad4_bounds (len kv.2) H0) as [Hp _].
    pose proof (len_attr_bytes kv) as Hla. pose proof (len_nonneg (attrs_bytes l)). pose proof (len_nonneg pre).
    assert (Hlr : len raw = len pre + (4 + pad4 (len kv.2)) + len (attrs_bytes l)) by (rewrite Hraw, attrs_bytes_cons, !len_app; lia).
    destruct Hkv as (_ & _ & Hv). unfold U16_MAX, ISIZE_MAX in *.
    replace (len pre <? len raw) with true by lia. cbn [negb]. replace (len raw - len pre <? 4) with false by lia.
    rewrite Hu. cbn [mbind result_bind].
    replace (checked_add (len kv.2) 3) with (Some (len kv.2 + 3)) by (unfold checked_add, USIZE_MAX; by replace (_ <=? _) with true by lia).
    cbn [try_ mbind result_bind]. change (Z.ldiff (len kv.2 + 3) 3) with (pad4 (len kv.2)).
    replace (checked_add (len pre + 4) (pad4 (len kv.2))) with (Some (len pre + 4 + pad4 (len kv.2)))
      by (unfold checked_add, USIZE_MAX; by replace (_ <=? _) with true by lia).
    cbn [try_ mbind result_bind]. replace (_ || _) with false by lia.
    replace (len pre + 4 + pad4 (len kv.2)) with (len (pre ++ attr_bytes kv)) by (rewrite len_app; lia).
    apply IH; [|lia|lia]. rewrite Hraw, attrs_bytes_cons. by rewrite <- app_assoc.
Qed.

Lemma attrs_bytes_snoc l kv : attrs_bytes (l ++ [kv]) = attrs_bytes l ++ attr_bytes kv.
Proof. rewrite attrs_bytes_app. f_equal. unfold attrs_bytes. cbn [fmap list_fmap mjoin list_join]. by rewrite app_nil_r. Qed.

Definition stun_header (kind length : Z) (tx : bytes) : bytes :=
  be_bytes 2 kind ++ be_bytes 2 length ++ be_bytes 4 MAGIC_COOKIE ++ tx.

Lemma len_stun_header kind l tx : len tx = 12 -> len (stun_header kind l tx) = 20.
Proof. intros H. unfold stun_header. rewrite !len_app, !len_be_bytes, H. reflexivity. Qed.

Lemma set_length_spec kind l tx body t :
  len tx = 12 -> 0 <= t -> len body + t <= U16_MAX ->
  set_message_length (stun_header kind l tx ++ body) t = Ok (stun_header kind (len body + t) tx ++ body).
Proof.
  intros Htx Ht Hl. unfold set_message_length. pose proof (len_nonneg body).
  rewrite len_app, len_stun_header by done. replace (20 + len body - 20 + t) with (len body + t) by lia.
  replace (U16_MAX <? len body + t) with false by lia. unfold stun_header. rewrite <- !app_assoc.
  rewrite copy_into_ok by (rewrite ?len_app, ?len_be_bytes, ?Htx; lia).
  by rewrite splice_app by (rewrite ?len_be_bytes; lia).
Qed.

Lemma first_attribute_app l k base target :
  first_attribute (l ++ k) base target =
  match first_attribute l base target with
  | Some a => Some a
  | None => first_attribute k (base + len (attrs_bytes l)) target
  end.
Proof.
  revert base. induction l as [|kv l IH]; intros base; cbn [first_attribute app].
  - unfold attrs_bytes. cbn. by rewrite Z.add_0_r.
  - destruct (kv.1 =? target); [done|]. rewrite IH. destruct (first_attribute l _ _); [done|].
    rewrite attrs_bytes_cons, len_app. f_equal. lia.
Qed.
Lemma first_attribute_none l base target : Forall (fun kv => kv.1 <> target) l -> first_attribute l base target = None.
Proof.
  intros Hl. revert base. induction Hl as [|kv l Hkv Hl IH]; intros base; cbn; [done|].
  replace (kv.1 =? target) with false by lia. apply IH.
Qed.
(** The value a receiver reads is the one the sender put in. *)
Lemma first_attribute_value l base target :
  at_value <$> first_attribute l base target = snd <$> list_find (fun kv : Z * bytes => kv.1 = target) l ≫= fun x => Some x.2.
Proof.
  revert base. induction l as [|kv l IH]; intros base; cbn; [done|].
  destruct (decide (kv.1 = target)) as [E|E].
  - by replace (kv.1 =? target) with true by lia.
  - replace (kv.1 =? target) with false by lia. rewrite IH. by destruct (list_find _ l) as [[? ?]|].
Qed.

Lemma length_attrs_le l : (length l <= length (attrs_bytes l))%nat.
Proof.
  induction l as [|kv l IH]; [done|]. rewrite attrs_bytes_cons, length_app. cbn [length].
  pose proof (len_attr_bytes kv) as Hl. pose proof (pad4_bounds (len kv.2) (len_nonneg _)). pose proof (len_nonneg kv.2). unfold len in *. lia.
Qed.

Lemma decode_built kind tx l :
  0 < kind < 0x4000 -> len tx = 12 -> Forall attr_ok l -> len (attrs_bytes l) <= U16_MAX ->
  let raw := stun_header kind (len (attrs_bytes l)) tx ++ attrs_bytes l in
  Message_decode raw = Ok (mkMessage raw kind tx (len raw)) /\ len raw = 20 + len (attrs_bytes l)
  /\ forall E target, @Message_attribute E (mkMessage raw kind tx (len raw)) target = Ok (first_attribute l 20 target).
Proof.
  intros Hk Htx Hl Hb raw. pose proof (len_nonneg (attrs_bytes l)) as H0. unfold U16_MAX in Hb.
  assert (Hh : len (stun_header kind (len (attrs_bytes l)) tx) = 20) by (by apply len_stun_header).
  assert (Hr : len raw = 20 + len (attrs_bytes l)) by (unfold raw; rewrite len_app; lia).
  assert (Hfuel : (length l < length raw)%nat).
  { pose proof (length_attrs_le l). unfold raw. rewrite length_app.
    assert (length (stun_header kind (len (attrs_bytes l)) tx) = 20%nat) by (apply Nat2Z.inj; exact Hh). lia. }
  assert (E1 : @u16_at string raw 0 = Ok kind).
  { unfold raw, stun_header. rewrite <- !app_assoc. apply (u16_at_app []); [done|unfold is_u16; lia]. }
  assert (E2 : @u16_at string raw 2 = Ok (len (attrs_bytes l))).
  { unfold raw, stun_header. rewrite <- !app_assoc. apply u16_at_app; [by rewrite len_be_bytes|unfold is_u16; lia]. }
  assert (E3 : @slice string _ raw 4 8 = Ok (be_bytes 4 MAGIC_COOKIE)).
  { rewrite slice_ok by lia. reflexivity. }
  assert (E4 : @slice string _ raw 8 20 = Ok tx).
  { rewrite slice_ok by lia. f_equal. unfold raw, stun_header.
    replace ((be_bytes 2 kind ++ be_bytes 2 (len (attrs_bytes l)) ++ be_bytes 4 MAGIC_COOKIE ++ tx) ++ attrs_bytes l)
      with ((be_bytes 2 kind ++ be_bytes 2 (len (attrs_bytes l)) ++ be_bytes 4 MAGIC_COOKIE) ++ tx ++ attrs_bytes l)
      by (by rewrite <- !app_assoc). apply sub_app_mid; rewrite ?len_app, ?len_be_bytes, ?Htx; reflexivity. }
  split_and!; [|done|].
  - unfold Message_decode, HEADER_SIZE. replace (len raw <? 20) with false by lia. rewrite E1. cbn [mbind result_bind].
    replace (Z.land kind 0xc000) with 0.
    2: { symmetry. apply Z.bits_inj'. intros i Hi. rewrite Z.land_spec, Z.bits_0. destruct (decide (i < 14)).
         - change 0xc000 with (Z.shiftl 3 14). rewrite Z.shiftl_spec_low by lia. apply andb_false_r.
         - rewrite (proj1 (Z.bounded_iff_bits_nonneg 14 kind ltac:(lia) ltac:(lia)) ltac:(lia) i ltac:(lia)). done. }
    cbn [Z.eqb negb]. replace (kind =? 0) with false by lia. rewrite E3. cbn [mbind result_bind].
    unfold bytes_eqb. rewrite bool_decide_eq_true_2 by done. cbn [negb]. rewrite E2. cbn [mbind result_bind].
    rewrite attrs_bytes_aligned. cbn [Z.eqb negb].
    replace (checked_add 20 (len (attrs_bytes l))) with (Some (len raw))
      by (unfold checked_add, USIZE_MAX; rewrite Hr; by replace (_ <=? _) with true by lia).
    cbn [try_ mbind result_bind]. rewrite Z.eqb_refl. cbn [negb].
    pose proof (check_attributes_built (length raw) (stun_header kind (len (attrs_bytes l)) tx) l raw Hl eq_refl Hfuel
      ltac:(unfold ISIZE_MAX; lia)) as Hc. rewrite Hh in Hc. rewrite Hc. cbn [mbind result_bind]. by rewrite E4.
  - intros E target. unfold Message_attribute, HEADER_SIZE. cbn [ms_raw ms_end].
    pose proof (@find_attribute_built E (length raw) (stun_header kind (len (attrs_bytes l)) tx) l raw target Hl eq_refl Hfuel) as Hf.
    by rewrite Hh in Hf.
Qed.

Section Built.
Context `{H : StunHash} `{!StunHashLaws H}.

Definition build (kind : Z) (tx : bytes) (attrs : list (Z * bytes)) : MessageBuilder :=
  foldl (fun b kv => mb_attribute b kv.1 kv.2) (with_transaction kind tx) attrs.

Lemma build_spec kind tx attrs :
  len tx = 12 -> Forall attr_ok attrs ->
  build kind tx attrs = mkBuilder (stun_header kind 0 tx ++ attrs_bytes attrs) tx.
Proof.
  intros Htx. unfold build. induction attrs as [|kv attrs IH] using rev_ind; intros Ha.
  - cbn. unfold attrs_bytes. cbn. by rewrite app_nil_r.
  - apply Forall_app in Ha as [Ha Hkv]. apply Forall_cons in Hkv as [(_ & _ & Hv) _]. rewrite foldl_app. cbn [foldl].
    rewrite IH by done. rewrite mb_attribute_spec; cbn [mb_bytes mb_transaction]; [|rewrite len_app, len_stun_header, Z.add_mod, attrs_bytes_aligned by (done || lia); done|done].
    rewrite attrs_bytes_snoc. destruct kv. by rewrite <- app_assoc.
Qed.

(** The two attributes [finish_authenticated] adds. *)
Definition integrity_of (key : bytes) (kind : Z) (tx : bytes) (attrs : list (Z * bytes)) : Z * bytes :=
  (ATTR_MESSAGE_INTEGRITY, stun_hmac key (stun_header kind (len (attrs_bytes attrs) + 24) tx ++ attrs_bytes attrs)).
Definition fingerprint_of (kind : Z) (tx : bytes) (attrs : list (Z * bytes)) : Z * bytes :=
  (ATTR_FINGERPRINT, be_bytes 4 (Z.lxor (crc32 (stun_header kind (len (attrs_bytes attrs) + 8) tx ++ attrs_bytes attrs)) FINGERPRINT_XOR)).

Lemma finish_spec kind tx attrs l0 :
  len tx = 12 -> len (attrs_bytes attrs) + 8 <= U16_MAX ->
  mb_finish (mkBuilder (stun_header kind l0 tx ++ attrs_bytes attrs) tx)
  = Ok (stun_header kind (len (attrs_bytes attrs) + 8) tx ++ attrs_bytes (attrs ++ [fingerprint_of kind tx attrs])).
Proof.
  intros Htx Hl. unfold mb_finish. cbn [mb_bytes mb_transaction]. rewrite set_length_spec by (done || lia). cbn [mbind result_bind].
  rewrite mb_attribute_spec; cbn [mb_bytes mb_transaction].
  - unfold mret, result_ret. f_equal. rewrite attrs_bytes_snoc. unfold fingerprint_of. by rewrite <- app_assoc.
  - rewrite len_app, len_stun_header, Z.add_mod, attrs_bytes_aligned by (done || lia). done.
  - rewrite len_be_bytes. unfold U16_MAX. lia.
Qed.

Lemma len_integrity key kind tx attrs : len (attr_bytes (integrity_of key kind tx attrs)) = 24.
Proof. rewrite len_attr_bytes. cbn [snd integrity_of]. rewrite stun_hmac_len. reflexivity. Qed.
Lemma len_fingerprint kind tx attrs : len (attr_bytes (fingerprint_of kind tx attrs)) = 8.
Proof. rewrite len_attr_bytes. cbn [snd fingerprint_of]. rewrite len_be_bytes. reflexivity. Qed.

(** All the attributes of a finished request. *)
Definition finished (key : bytes) (kind : Z) (tx : bytes) (attrs : list (Z * bytes)) : list (Z * bytes) :=
  let signed := attrs ++ [integrity_of key kind tx attrs] in signed ++ [fingerprint_of kind tx signed].

Lemma len_finished key kind tx attrs :
  len (attrs_bytes (attrs ++ [integrity_of key kind tx attrs])) = len (attrs_bytes attrs) + 24
  /\ len (attrs_bytes (finished key kind tx attrs)) = len (attrs_bytes attrs) + 32.
Proof. unfold finished. rewrite !attrs_bytes_snoc, !len_app, len_integrity, len_fingerprint. lia. Qed.

Lemma finished_ok key kind tx attrs : Forall attr_ok attrs -> Forall attr_ok (finished key kind tx attrs).
Proof.
  intros Ha. unfold finished. rewrite !Forall_app, !Forall_singleton. split_and!; [done| |].
  - unfold attr_ok. cbn [integrity_of fst snd]. rewrite stun_hmac_len. done.
  - unfold attr_ok. cbn [fingerprint_of fst snd]. rewrite len_be_bytes. done.
Qed.

Lemma finish_authenticated_spec key kind tx attrs :
  len tx = 12 -> len (attrs_bytes attrs) + 32 <= U16_MAX ->
  mb_finish_authenticated (mkBuilder (stun_header kind 0 tx ++ attrs_bytes attrs) tx) key
  = Ok (stun_header kind (len (attrs_bytes (finished key kind tx attrs))) tx ++ attrs_bytes (finished key kind tx attrs)).
Proof.
  intros Htx Hl. pose proof (len_finished key kind tx attrs) as [H1 H2]. unfold mb_finish_authenticated. cbn [mb_bytes mb_transaction].
  rewrite set_length_spec by (done || lia). cbn [mbind result_bind].
  rewrite mb_attribute_spec; cbn [mb_bytes mb_transaction];
    [|rewrite len_app, len_stun_header, Z.add_mod, attrs_bytes_aligned by (done || lia); done
     |rewrite stun_hmac_len; unfold U16_MAX; lia].
  replace ((stun_header kind (len (attrs_bytes attrs) + 24) tx ++ attrs_bytes attrs) ++
       attr_bytes (ATTR_MESSAGE_INTEGRITY, stun_hmac key (stun_header kind (len (attrs_bytes attrs) + 24) tx ++ attrs_bytes attrs)))
    with (stun_header kind (len (attrs_bytes attrs) + 24) tx ++ attrs_bytes (attrs ++ [integrity_of key kind tx attrs]))
    by (by rewrite attrs_bytes_snoc, <- app_assoc).
  rewrite finish_spec by (done || lia). rewrite H1, H2. unfold finished. do 3 f_equal. lia.
Qed.

(** The lookups of a receiver. *)
Lemma finished_attribute key kind tx attrs target :
  Forall (fun kv : Z * bytes => kv.1 <> ATTR_MESSAGE_INTEGRITY /\ kv.1 <> ATTR_FINGERPRINT) attrs ->
  first_attribute (finished key kind tx attrs) 20 target =
  if target =? ATTR_MESSAGE_INTEGRITY
  then Some (mkAttribute ATTR_MESSAGE_INTEGRITY (integrity_of key kind tx attrs).2 (20 + len (attrs_bytes attrs)))
  else if target =? ATTR_FINGERPRINT
  then Some (mkAttribute ATTR_FINGERPRINT (fingerprint_of kind tx (attrs ++ [integrity_of key kind tx attrs])).2
               (20 + (len (attrs_bytes attrs) + 24)))
  else first_attribute attrs 20 target.
Proof.
  intros Hno. pose proof (len_finished key kind tx attrs) as [H1 _]. unfold finished. rewrite !first_attribute_app, H1.
  cbn [first_attribute integrity_of fingerprint_of fst snd].
  destruct (target =? ATTR_MESSAGE_INTEGRITY) eqn:E1; bool_prop.
  { subst. rewrite first_attribute_none by (eapply Forall_impl; [exact Hno|]; cbn; tauto). by rewrite Z.eqb_refl. }
  destruct (target =? ATTR_FINGERPRINT) eqn:E2; bool_prop.
  { subst. rewrite first_attribute_none by (eapply Forall_impl; [exact Hno|]; cbn; tauto). by rewrite Z.eqb_refl. }
  destruct (first_attribute attrs 20 target); [done|].
  replace (ATTR_MESSAGE_INTEGRITY =? target) with false by lia. by replace (ATTR_FINGERPRINT =? target) with false by lia.
Qed.

(** The bytes the integrity and the fingerprint cover. *)
Lemma finished_prefix key kind tx attrs l0 :
  len tx = 12 ->
  let packet := stun_header kind l0 tx ++ attrs_bytes (finished key kind tx attrs) in
  sub packet 0 (20 + len (attrs_bytes attrs)) = stun_header kind l0 tx ++ attrs_bytes attrs
  /\ sub packet 0 (20 + (len (attrs_bytes attrs) + 24))
     = stun_header kind l0 tx ++ attrs_bytes (attrs ++ [integrity_of key kind tx attrs]).
Proof.
  intros Htx. cbv zeta. pose proof (len_finished key kind tx attrs) as [H1 _]. unfold finished.
  rewrite (attrs_bytes_snoc (attrs ++ _)). split.
  - rewrite attrs_bytes_snoc, <- app_assoc, app_assoc. apply sub_app_begin. rewrite len_app, len_stun_header by done. lia.
  - rewrite app_assoc. apply sub_app_begin. rewrite len_app, len_stun_header by done. lia.
Qed.

(** A request built from a list of attributes and finished with a key
    decodes to its type, its transaction and those attributes, and passes its
    own fingerprint and integrity checks. *)
Theorem stun_request_roundtrip kind tx attrs key :
  0 < kind < 0x4000 -> len tx = 12 -> Forall attr_ok attrs ->
  Forall (fun kv => kv.1 <> ATTR_MESSAGE_INTEGRITY /\ kv.1 <> ATTR_FINGERPRINT) attrs ->
  len (attrs_bytes attrs) + 32 <= U16_MAX ->
  exists packet m,
    mb_finish_authenticated (build kind tx attrs) key = Ok packet /\ Message_decode packet = Ok m
    /\ ms_kind m = kind /\ ms_transaction m = tx
    /\ (forall target, target <> ATTR_MESSAGE_INTEGRITY -> target <> ATTR_FINGERPRINT ->
          @Message_attribute unit m target = Ok (first_attribute attrs 20 target))
    /\ @fingerprint_valid H unit m = Ok (Some true)
    /\ @verify_integrity H unit packet m (Some key) = Ok true.
Proof.
  intros Hk Htx Ha Hno Hl. unfold U16_MAX in Hl. rewrite (build_spec kind tx attrs Htx Ha).
  rewrite finish_authenticated_spec by (done || (unfold U16_MAX; lia)).
  pose proof (len_finished key kind tx attrs) as [H1 H2]. pose proof (len_nonneg (attrs_bytes attrs)) as H0.
  destruct (decode_built kind tx (finished key kind tx attrs) Hk Htx (finished_ok key kind tx attrs Ha) ltac:(unfold U16_MAX; lia))
    as (Hdec & Hlen & Hattr).
  destruct (finished_prefix key kind tx attrs (len (attrs_bytes (finished key kind tx attrs))) Htx) as [Hp1 Hp2]. cbv zeta in Hp1, Hp2.
  set (packet := stun_header kind (len (attrs_bytes (finished key kind tx attrs))) tx ++ attrs_bytes (finished key kind tx attrs)) in *.
  exists packet, (mkMessage packet kind tx (len packet)). split_and!; [done|exact Hdec|done|done| | |].
  - intros target Ht1 Ht2. rewrite Hattr, finished_attribute by done. f_equal.
    replace (target =? ATTR_MESSAGE_INTEGRITY) with false by lia. by replace (target =? ATTR_FINGERPRINT) with false by lia.
  - unfold fingerprint_valid. rewrite Hattr, finished_attribute by done. change (ATTR_FINGERPRINT =? ATTR_MESSAGE_INTEGRITY) with false.
    rewrite Z.eqb_refl. cbn [mbind result_bind at_value at_header_start ms_end ms_raw fingerprint_of snd]. rewrite len_be_bytes.
    change (Z.of_nat 4 =? 4) with true. replace (_ =? len packet) with true by lia. cbn [negb orb]. rewrite slice_ok by lia. cbn [mbind result_bind mret result_ret]. rewrite Hp2.
    f_equal. f_equal. replace (len (attrs_bytes (finished key kind tx attrs))) with (len (attrs_bytes (attrs ++ [integrity_of key kind tx attrs])) + 8) by lia.
    rewrite be_val_be_bytes_id; [apply Z.eqb_refl|]. apply (lxor_bound 32); [lia|apply crc32_range|unfold FINGERPRINT_XOR; lia].
  - unfold verify_integrity. rewrite Hattr, finished_attribute by done. rewrite Z.eqb_refl.
    cbn [mbind result_bind at_value at_header_start ms_end ms_raw integrity_of snd]. rewrite stun_hmac_len.
    change (20 =? 20) with true. replace (20 + len (attrs_bytes attrs) <? 20) with false by lia. cbn [negb orb]. rewrite slice_ok by lia. cbn [mbind result_bind].
    replace (U16_MAX <? _) with false by (unfold U16_MAX; lia). rewrite Hp1. unfold stun_header. rewrite <- !app_assoc.
    rewrite copy_into_ok by (rewrite ?len_app, ?len_be_bytes, ?Htx; lia). cbn [mbind result_bind mret result_ret].
    rewrite splice_app by (rewrite ?len_be_bytes; lia).
    replace (20 + len (attrs_bytes attrs) + 24 - 20) with (len (attrs_bytes attrs) + 24) by lia.
    unfold bytes_eqb. by rewrite bool_decide_eq_true_2.
Qed.
End Built.

Lemma stun_request_roundtrip_witness :
  exists packet m,
    mb_finish_authenticated (build 3 (replicate 12 9) [(ATTR_USERNAME, b_ "user"); (ATTR_REALM, b_ "r")]) (replicate 16 1) = Ok packet
    /\ Message_decode packet = Ok m /\ (fun r => option_map at_value <$> r) (@Message_attribute unit m ATTR_REALM) = Ok (Some (b_ "r"))
    /\ @verify_integrity demo_hash unit packet m (Some (replicate 16 1)) = Ok true.
Proof.
  destruct (stun_request_roundtrip 3 (replicate 12 9) [(ATTR_USERNAME, b_ "user"); (ATTR_REALM, b_ "r")] (replicate 16 1))
    as (packet & m & H1 & H2 & _ & _ & H3 & _ & H4).
  - lia.
  - reflexivity.
  - repeat constructor; (vm_compute; discriminate).
  - repeat constructor; cbn; discriminate.
  - vm_compute. discriminate.
  - exists packet, m. split; [exact H1|]. split; [exact H2|]. split; [|exact H4].
    rewrite H3 by discriminate. reflexivity.
Defined.

(** ** Addresses *)

Lemma lxor_twice a b : Z.lxor (Z.lxor a b) b = a.
Proof. by rewrite Z.lxor_assoc, Z.lxor_nilpotent, Z.lxor_0_r. Qed.

Lemma zip_lxor_twice (o k : bytes) : length o = length k -> zip_with Z.lxor (zip_with Z.lxor o k) k = o.
Proof. revert k. induction o as [|x o IH]; intros [|y k] Hl; cbn in *; try done. rewrite lxor_twice. f_equal. apply IH. lia. Qed.

(** A socket address survives the XOR encoding of TURN, for both address
    families, and decoding arbitrary bytes never panics. *)
Theorem xor_address_roundtrip a tx value :
  wf_addr a -> len tx = 12 ->
  decode_xor_address (encode_xor_address a tx) tx = Ok a /\ safe (decode_xor_address value tx).
Proof.
  intros [Hp Hip] Htx. split.
  - destruct a as [ip port]. cbn [sa_ip sa_port] in *. unfold is_u16 in Hp.
    set (e := u16_of (Z.shiftr MAGIC_COOKIE 16)). assert (He : 0 <= e < 2 ^ 16) by (unfold e; vm_compute; split; [discriminate|reflexivity]).
    pose proof (lxor_bound 16 port e ltac:(lia) Hp He) as Hx.
    destruct ip as [o|o]; destruct Hip as [Hw Ho].
    + set (body := be_bytes 4 (Z.lxor (be_val o) MAGIC_COOKIE)).
      change (encode_xor_address (mkSocketAddr (V4 o) port) tx) with ([0; 1] ++ be_bytes 2 (Z.lxor port e) ++ body).
      unfold decode_xor_address. fold e.
      assert (Hl : len ([0; 1] ++ be_bytes 2 (Z.lxor port e) ++ body) = 8) by (rewrite !len_app, !len_be_bytes; reflexivity).
      rewrite Hl. cbn [Z.ltb Z.compare]. change (8 <? 4) with false.
      change (at_ ([0; 1] ++ be_bytes 2 (Z.lxor port e) ++ body) 0) with (@Ok string Z 0). cbn [mbind result_bind Z.eqb negb].
      rewrite (u16_at_app [0; 1]) by (done || (unfold is_u16; lia)). cbn [mbind result_bind].
      change (at_ ([0; 1] ++ be_bytes 2 (Z.lxor port e) ++ body) 1) with (@Ok string Z 1). cbn [mbind result_bind].
      change ((1 =? 1) && (8 =? 8)) with true. rewrite slice_ok by lia. cbn [mbind result_bind].
      replace (sub ([0; 1] ++ be_bytes 2 (Z.lxor port e) ++ body) 4 8) with body.
      2: { symmetry. rewrite (app_assoc [0; 1]). apply sub_app_end; rewrite !len_app, !len_be_bytes; reflexivity. }
      unfold body. pose proof (be_val_bound o Hw) as Hb. rewrite Ho in Hb. change (256 ^ 4) with (2 ^ 32) in Hb.
      rewrite be_val_be_bytes_id by (apply (lxor_bound 32); [lia|exact Hb|unfold MAGIC_COOKIE; lia]).
      rewrite !lxor_twice. replace 4%nat with (length o) by (unfold len in Ho; lia). by rewrite be_bytes_be_val.
    + set (body := zip_with Z.lxor o (xor_mask tx)).
      change (encode_xor_address (mkSocketAddr (V6 o) port) tx) with ([0; 2] ++ be_bytes 2 (Z.lxor port e) ++ body).
      unfold decode_xor_address. fold e.
      assert (Hm : length (xor_mask tx) = 16%nat) by (unfold xor_mask; rewrite length_app, length_be_bytes; unfold len in Htx; lia).
      assert (Hlb : len body = 16) by (unfold body, len; rewrite length_zip_with, Hm; unfold len in Ho; lia).
      assert (Hl : len ([0; 2] ++ be_bytes 2 (Z.lxor port e) ++ body) = 20) by (rewrite !len_app, !len_be_bytes, Hlb; reflexivity).
      rewrite Hl. change (20 <? 4) with false.
      change (at_ ([0; 2] ++ be_bytes 2 (Z.lxor port e) ++ body) 0) with (@Ok string Z 0). cbn [mbind result_bind Z.eqb negb].
      rewrite (u16_at_app [0; 2]) by (done || (unfold is_u16; lia)). cbn [mbind result_bind].
      change (at_ ([0; 2] ++ be_bytes 2 (Z.lxor port e) ++ body) 1) with (@Ok string Z 2). cbn [mbind result_bind].
      cbn [Z.eqb Pos.eqb andb].
      rewrite slice_ok by lia. cbn [mbind result_bind].
      replace (sub ([0; 2] ++ be_bytes 2 (Z.lxor port e) ++ body) 4 20) with body.
      2: { symmetry. rewrite (app_assoc [0; 2]). apply sub_app_end; rewrite !len_app, !len_be_bytes, ?Hlb; reflexivity. }
      unfold body. rewrite lxor_twice, zip_lxor_twice by (unfold len in Ho; lia). done.
  - unfold decode_xor_address. destruct (len value <? 4) eqn:E; [done|]. bool_prop.
    destruct (@at_ok string _ value 0 ltac:(lia)) as (z & -> & _). cbn [mbind result_bind]. destruct (negb _); [done|].
    unfold u16_at. destruct (@at_ok string _ value 2 ltac:(lia)) as (x & -> & _). destruct (@at_ok string _ value (2 + 1) ltac:(lia)) as (y & -> & _).
    cbn [mbind result_bind mret result_ret]. destruct (@at_ok string _ value 1 ltac:(lia)) as (f & -> & _). cbn [mbind result_bind].
    destruct (_ && _) eqn:E1; [bool_prop; rewrite slice_ok by lia; done|].
    destruct (_ && (len value =? 20)) eqn:E2; [bool_prop; rewrite slice_ok by lia; done|done].
Qed.

Lemma xor_address_roundtrip_witness :
  decode_xor_address (encode_xor_address (mkSocketAddr (V4 [10; 66; 67; 1]) 3478) (replicate 12 5)) (replicate 12 5)
    = Ok (mkSocketAddr (V4 [10; 66; 67; 1]) 3478).
Proof.
  apply (xor_address_roundtrip (mkSocketAddr (V4 [10; 66; 67; 1]) 3478) (replicate 12 5) []).
  - split; [split; [discriminate|reflexivity]|]. split; [|reflexivity]. apply (bool_decide_unpack _); vm_compute; exact I.
  - reflexivity.
Defined.
