(* ===== verification/Turn.v ===== *)
(** * The TURN client ([rust-client/turn_core.rs])

    A sans-I/O state machine: the caller feeds it datagrams and the clock and
    drains the packets and events it produces.  It allocates a relay, keeps the
    allocation, the permission and the channel alive, and gives the allocation
    back.  Every handler is modelled; transaction identifiers and the clock are
    arguments, the hashes are those of [Stun]. *)

From S2P Require Import Prelude Stun.

Definition RESULT_BUFFER_TOO_SMALL : Z := -2.
Definition RESULT_INVALID_ARGUMENT : Z := -3.
Definition RESULT_CLOSED : Z := -4.
Definition RESULT_NOT_CONTROL : Z := -5.
Definition RESULT_TIMEOUT : Z := -6.
Definition RESULT_AUTHENTICATION : Z := -7.
Definition RESULT_PROTOCOL : Z := -8.

(** [EVENT_STATE] to [EVENT_CHANNEL_REBIND_EXHAUSTED]. *)
Inductive EventKind := EventState | EventRequestComplete | EventChannelBound | EventRelayAddress | EventControlOverflow
  | EventDataRejected | EventForcedDestroy | EventEventOverflow | EventStunResponseError | EventChannelRebindExhausted.

(** [STATE_NULL] to [STATE_DESTROYING]. *)
Inductive State := StNull | StAllocating | StReady | StDeallocating | StDeallocated | StDestroying.
#[global] Instance State_eq_dec : EqDecision State.
Proof. solve_decision. Defined.

Definition millis (n : Z) : Z := n * 10 ^ 6.
Definition seconds (n : Z) : Z := n * 10 ^ 9.

Definition CONTROL_CAPACITY : Z := 16.
Definition EVENT_CAPACITY : Z := 64.
Definition INITIAL_RTO : Z := millis 200.
Definition MAX_RTO : Z := millis 1600.
Definition MAX_TRANSMISSIONS : Z := 7.
Definition STREAM_TRANSACTION_TIMEOUT : Z := seconds 12.
Definition REQUESTED_ALLOCATION_LIFETIME_SECS : Z := 600.
Definition ALLOCATION_REFRESH : Z := seconds 300.
Definition MAINTENANCE_REFRESH : Z := seconds 175.
Definition KEEPALIVE_INTERVAL : Z := seconds 10.
Definition MAINTENANCE_RETRY_BASE : Z := seconds 1.
Definition MAINTENANCE_RETRY_MAX : Z := seconds 30.
Definition MAX_CHANNEL_MAINTENANCE_FAILURES : Z := 4.
Definition MAX_NONCE_RETRIES : Z := 3.
Definition CHANNEL_NUMBER : Z := 0x4000.

Inductive TurnControlTransport := Datagram | Stream.
#[global] Instance TurnControlTransport_eq_dec : EqDecision TurnControlTransport.
Proof. solve_decision. Defined.

Record CsqttTurnProfile := mkTurnProfile {
  allocation_refresh : Z; maintenance_refresh : Z; keepalive_interval : Z; max_nonce_retries : Z;
}.
Definition PJNATH_COMPAT : CsqttTurnProfile :=
  mkTurnProfile ALLOCATION_REFRESH MAINTENANCE_REFRESH KEEPALIVE_INTERVAL MAX_NONCE_RETRIES.

(** [NativeEvent]; an absent address is the all-zero one, an absent state 0. *)
Record NativeEvent := mkEvent {
  ev_kind : EventKind; ev_method : Z; ev_status : Z; ev_stun_code : Z; ev_state : option State;
  ev_previous_state : option State; ev_dropped : Z; ev_channel : Z; ev_address : option SocketAddr;
}.
Definition event_default (kind : EventKind) : NativeEvent := mkEvent kind 0 0 0 None None 0 0 None.

Inductive Operation := Allocate | Refresh | Deallocate | Permission | Channel.
#[global] Instance Operation_eq_dec : EqDecision Operation.
Proof. solve_decision. Defined.

Definition Operation_method (o : Operation) : Z :=
  match o with Allocate => 3 | Refresh | Deallocate => 4 | Permission => 8 | Channel => 9 end.

Record Pending := mkPending {
  pe_operation : Operation; pe_transaction : bytes; pe_packet : bytes; pe_next_attempt : Z; pe_rto : Z;
  pe_transmissions : Z; pe_nonce_retries : Z; pe_authenticated : bool;
}.
Record Control := mkControl { co_packet : bytes; co_destination : SocketAddr }.

(** The fields of [Inner] that never change after [create]. *)
Record Setup := mkSetup {
  su_server : SocketAddr; su_peer : SocketAddr; su_username : bytes; su_password : bytes;
  su_profile : CsqttTurnProfile; su_transport : TurnControlTransport;
}.

Record Auth := mkAuth { realm : option bytes; auth_nonce : option bytes; key : option bytes }.
Record Timers := mkTimers {
  t_allocation_refresh : option Z; t_allocation_expires_at : option Z; t_maintenance_refresh : option Z;
  t_permission_retry : option Z; t_channel_retry : option Z; t_keepalive : option Z;
}.
Record Failures := mkFailures { refresh_failures : Z; permission_failures : Z; channel_failures : Z }.

(** The fields that do, grouped. *)
Record Inner := mkInner {
  i_auth : Auth; i_state : State; i_relay : option SocketAddr; i_channel : option Z;
  i_controls : list Control; i_events : list NativeEvent; i_pending : list Pending;
  i_timers : Timers; i_failures : Failures; i_shutting_down : bool; i_destroyed : bool;
}.

Definition set_i_auth i x := mkInner x (i_state i) (i_relay i) (i_channel i) (i_controls i) (i_events i) (i_pending i) (i_timers i) (i_failures i) (i_shutting_down i) (i_destroyed i).
Definition set_i_state i x := mkInner (i_auth i) x (i_relay i) (i_channel i) (i_controls i) (i_events i) (i_pending i) (i_timers i) (i_failures i) (i_shutting_down i) (i_destroyed i).
Definition set_i_relay i x := mkInner (i_auth i) (i_state i) x (i_channel i) (i_controls i) (i_events i) (i_pending i) (i_timers i) (i_failures i) (i_shutting_down i) (i_destroyed i).
Definition set_i_channel i x := mkInner (i_auth i) (i_state i) (i_relay i) x (i_controls i) (i_events i) (i_pending i) (i_timers i) (i_failures i) (i_shutting_down i) (i_destroyed i).
Definition set_i_controls i x := mkInner (i_auth i) (i_state i) (i_relay i) (i_channel i) x (i_events i) (i_pending i) (i_timers i) (i_failures i) (i_shutting_down i) (i_destroyed i).
Definition set_i_events i x := mkInner (i_auth i) (i_state i) (i_relay i) (i_channel i) (i_controls i) x (i_pending i) (i_timers i) (i_failures i) (i_shutting_down i) (i_destroyed i).
Definition set_i_pending i x := mkInner (i_auth i) (i_state i) (i_relay i) (i_channel i) (i_controls i) (i_events i) x (i_timers i) (i_failures i) (i_shutting_down i) (i_destroyed i).
Definition set_i_timers i x := mkInner (i_auth i) (i_state i) (i_relay i) (i_channel i) (i_controls i) (i_events i) (i_pending i) x (i_failures i) (i_shutting_down i) (i_destroyed i).
Definition set_i_failures i x := mkInner (i_auth i) (i_state i) (i_relay i) (i_channel i) (i_controls i) (i_events i) (i_pending i) (i_timers i) x (i_shutting_down i) (i_destroyed i).
Definition set_i_shutting_down i x := mkInner (i_auth i) (i_state i) (i_relay i) (i_channel i) (i_controls i) (i_events i) (i_pending i) (i_timers i) (i_failures i) x (i_destroyed i).
Definition set_i_destroyed i x := mkInner (i_auth i) (i_state i) (i_relay i) (i_channel i) (i_controls i) (i_events i) (i_pending i) (i_timers i) (i_failures i) (i_shutting_down i) x.

Definition NativeCore_create (server peer : SocketAddr) (username password : bytes) (profile : CsqttTurnProfile)
    (transport : TurnControlTransport) : result string (Setup * Inner) :=
  if (sa_port server =? 0) || (sa_port peer =? 0) then Err "invalid argument"%string else
  if (len username =? 0) || (512 <? len username) || (len password =? 0) || (512 <? len password)
  then Err "invalid argument"%string else
  Ok (mkSetup server peer username password profile transport,
      mkInner (mkAuth None None None) StNull None None [] [] [] (mkTimers None None None None None None)
        (mkFailures 0 0 0) false false).

(** ** Queues and state *)

Definition push_event (i : Inner) (e : NativeEvent) : Inner :=
  if len (i_events i) =? EVENT_CAPACITY
  then set_i_events i (tail (i_events i)
         ++ [mkEvent EventEventOverflow 0 RESULT_BUFFER_TOO_SMALL 0 None None 1 0 None])
  else set_i_events i (i_events i ++ [e]).

Definition queue_packet (c : Setup) (i : Inner) (packet : bytes) : Inner :=
  let i := if len (i_controls i) =? CONTROL_CAPACITY
           then push_event (set_i_controls i (tail (i_controls i)))
                  (mkEvent EventControlOverflow 0 RESULT_BUFFER_TOO_SMALL 0 None None 1 0 None)
           else i in
  set_i_controls i (i_controls i ++ [mkControl packet (su_server c)]).

Definition queue_keepalive (c : Setup) (i : Inner) : Inner :=
  match i_channel i with
  | None => i
  | Some channel => queue_packet c i (be_bytes 2 channel ++ be_bytes 2 1 ++ [0xff; 0; 0; 0])
  end.

Definition set_state (i : Inner) (state : State) : Inner :=
  if decide (i_state i = state) then i
  else push_event (set_i_state i state)
         (mkEvent EventState 0 0 0 (Some state) (Some (i_state i)) 0 0 None).

Definition require_open (i : Inner) : result string unit :=
  if i_destroyed i || i_shutting_down i then Err "closed"%string else Ok tt.
Definition require_ready (i : Inner) : result string unit :=
  _ ← require_open i; if decide (i_state i = StReady) then Ok tt else Err "invalid argument"%string.

Definition has_operation (i : Inner) (operation : Operation) : bool :=
  existsb (fun p => bool_decide (pe_operation p = operation)) (i_pending i).

Definition transaction_timeout (c : Setup) : Z :=
  match su_transport c with Datagram => INITIAL_RTO | Stream => STREAM_TRANSACTION_TIMEOUT end.

Definition remove_queued_transaction (i : Inner) (transaction : bytes) : Inner :=
  set_i_controls i (filter (fun control => get_range (co_packet control) 8 20 <> Some transaction) (i_controls i)).

Section Core.
Context `{StunHash}.

Definition set_auth (c : Setup) (i : Inner) (realm_ nonce_ : bytes) : Inner :=
  set_i_auth i (mkAuth (Some realm_) (Some nonce_)
    (Some (md5 (su_username c ++ b_ ":" ++ realm_ ++ b_ ":" ++ su_password c)))).

Definition build_request (c : Setup) (i : Inner) (operation : Operation) (transaction : bytes) (authenticated : bool)
    : result string bytes :=
  let builder := with_transaction (Operation_method operation) transaction in
  let builder :=
    match operation with
    | Allocate =>
        let builder := mb_attribute builder ATTR_REQUESTED_TRANSPORT [17; 0; 0; 0] in
        let family := if is_ipv4 (su_peer c) then 1 else 2 in
        let builder := mb_attribute builder ATTR_REQUESTED_ADDRESS_FAMILY [family; 0; 0; 0] in
        mb_attribute builder ATTR_LIFETIME (be_bytes 4 REQUESTED_ALLOCATION_LIFETIME_SECS)
    | Refresh => mb_attribute builder ATTR_LIFETIME (be_bytes 4 REQUESTED_ALLOCATION_LIFETIME_SECS)
    | Deallocate => mb_attribute builder ATTR_LIFETIME (be_bytes 4 0)
    | Permission => mb_xor_address builder ATTR_XOR_PEER_ADDRESS (su_peer c)
    | Channel =>
        mb_xor_address (mb_attribute builder ATTR_CHANNEL_NUMBER [0x40; 0; 0; 0]) ATTR_XOR_PEER_ADDRESS (su_peer c)
    end in
  if authenticated then
    let builder := mb_attribute builder ATTR_USERNAME (su_username c) in
    let builder := mb_attribute builder ATTR_REALM (default [] (realm (i_auth i))) in
    let builder := mb_attribute builder ATTR_NONCE (default [] (auth_nonce (i_auth i))) in
    k ← try_ "TURN authentication key missing"%string (key (i_auth i));
    mb_finish_authenticated builder k
  else mb_finish builder.

(** On an error the state is unchanged.  The clock is read once per call of the
    owner. *)
Definition start_operation (c : Setup) (i : Inner) (operation : Operation) (authenticated : bool) (nonce_retries : Z)
    (transaction : bytes) (now : Z) : result string Inner :=
  if has_operation i operation then
    Ok (if decide (operation = Channel)
        then match list_find (fun p => pe_operation p = operation) (i_pending i) with
             | Some (_, pending) => queue_packet c i (pe_packet pending)
             | None => i
             end
        else i)
  else if authenticated && (bool_decide (realm (i_auth i) = None) || bool_decide (auth_nonce (i_auth i) = None)
                            || bool_decide (key (i_auth i) = None))
  then Err "TURN authentication state is incomplete"%string else
  packet ← build_request c i operation transaction authenticated;
  let i := queue_packet c i packet in
  mret (set_i_pending i (i_pending i ++
    [mkPending operation transaction packet (now + transaction_timeout c) INITIAL_RTO 1 nonce_retries authenticated])).
End Core.

(** ** Completion of requests *)

Definition complete (i : Inner) (operation : Operation) (status stun_code : Z) : Inner :=
  push_event i (mkEvent EventRequestComplete (Operation_method operation) status stun_code (Some (i_state i)) None 0
                  (default 0 (i_channel i)) (i_relay i)).

Definition destroy_allocation (i : Inner) (operation : Operation) (status stun_code : Z) : Inner :=
  let i := complete i operation status stun_code in
  let i := mkInner (i_auth i) (i_state i) None None [] (i_events i) [] (mkTimers None None None None None None)
             (i_failures i) (i_shutting_down i) (i_destroyed i) in
  if decide (operation = Deallocate) then set_state i StDeallocated else set_state i StDestroying.

Definition destroy_after_channel_rebind_exhausted (i : Inner) : Inner :=
  let t := i_timers i in
  let i := mkInner (i_auth i) (i_state i) (i_relay i) None [] (i_events i) []
             (mkTimers (t_allocation_refresh t) (t_allocation_expires_at t) None None None None)
             (i_failures i) (i_shutting_down i) (i_destroyed i) in
  let i := push_event i (mkEvent EventChannelRebindExhausted 0 RESULT_TIMEOUT 0 (Some StDestroying) None 0 0 None) in
  set_state i StDestroying.

(** [u8::saturating_add(1)] *)
Definition bump (n : Z) : Z := Z.min 255 (n + 1).

Definition schedule_maintenance_retry (i : Inner) (operation : Operation) (now : Z) : bool * Inner :=
  let f := i_failures i in
  let t := i_timers i in
  let delay failures :=
    Z.min (MAINTENANCE_RETRY_BASE * Z.shiftl 1 (Z.min (sat_sub failures 1) 5)) MAINTENANCE_RETRY_MAX in
  match operation with
  | Refresh =>
      let n := bump (refresh_failures f) in
      (true, set_i_timers (set_i_failures i (mkFailures n (permission_failures f) (channel_failures f)))
               (mkTimers (Some (now + delay n)) (t_allocation_expires_at t) (t_maintenance_refresh t)
                  (t_permission_retry t) (t_channel_retry t) (t_keepalive t)))
  | Permission =>
      let n := bump (permission_failures f) in
      (true, set_i_timers (set_i_failures i (mkFailures (refresh_failures f) n (channel_failures f)))
               (mkTimers (t_allocation_refresh t) (t_allocation_expires_at t) (t_maintenance_refresh t)
                  (Some (now + delay n)) (t_channel_retry t) (t_keepalive t)))
  | Channel =>
      let n := bump (channel_failures f) in
      let i := set_i_failures i (mkFailures (refresh_failures f) (permission_failures f) n) in
      if MAX_CHANNEL_MAINTENANCE_FAILURES <=? n then (false, i)
      else (true, set_i_timers i
               (mkTimers (t_allocation_refresh t) (t_allocation_expires_at t) (t_maintenance_refresh t)
                  (t_permission_retry t) (Some (now + delay n)) (t_keepalive t)))
  | Allocate | Deallocate => (true, i)
  end.

Definition is_maintenance (operation : Operation) : bool :=
  match operation with Refresh | Permission | Channel => true | _ => false end.

Definition complete_failure (i : Inner) (operation : Operation) (status stun_code now : Z) : Inner :=
  if is_maintenance operation && bool_decide (i_state i = StReady)
     && (match t_allocation_expires_at (i_timers i) with Some deadline => now <? deadline | None => false end)
  then
    let i := complete i operation status stun_code in
    match schedule_maintenance_retry i operation now with
    | (true, i) => i
    | (false, i) => destroy_after_channel_rebind_exhausted i
    end
  else destroy_allocation i operation status stun_code.

Definition allocation_refresh_deadline (now : Z) (lifetime : option Z) (interval : Z) : Z :=
  let lifetime := seconds (default REQUESTED_ALLOCATION_LIFETIME_SECS lifetime) in
  now + Z.max (Z.min interval (lifetime / 2)) (millis 500).

Section Handlers.
Context `{StunHash}.

(** The outer result is a panic or not, the inner one is the [Result] the code
    returns, beside the state it leaves behind. *)
Definition complete_success (c : Setup) (i : Inner) (operation : Operation) (m : Message) (now : Z) (transaction : bytes)
    : result string (result string unit * Inner) :=
  match operation with
  | Allocate =>
      relayed ← Message_attribute m ATTR_XOR_RELAYED_ADDRESS;
      match relayed with
      | None => mret (Err "TURN Allocate response has no relayed address"%string, i)
      | Some attribute =>
          match decode_xor_address (at_value attribute) (ms_transaction m) with
          | Panic => Panic
          | Err e => mret (Err e, i)
          | Ok relay =>
              if negb (Bool.eqb (is_ipv4 relay) (is_ipv4 (su_peer c))) || (sa_port relay =? 0)
              then mret (Err "TURN Allocate response has invalid relayed address"%string, i) else
              returned_lifetime ← attribute_u32 m ATTR_LIFETIME;
              let lifetime := default REQUESTED_ALLOCATION_LIFETIME_SECS returned_lifetime in
              if lifetime =? 0 then mret (Err "TURN Allocate response lifetime is zero"%string, i) else
              let t := i_timers i in
              let f := i_failures i in
              let i := set_i_relay i (Some relay) in
              let i := set_i_timers i (mkTimers
                (Some (allocation_refresh_deadline now returned_lifetime (allocation_refresh (su_profile c))))
                (Some (now + seconds lifetime)) (Some (now + maintenance_refresh (su_profile c)))
                (t_permission_retry t) (t_channel_retry t) (Some (now + keepalive_interval (su_profile c)))) in
              let i := set_i_failures i (mkFailures 0 (permission_failures f) (channel_failures f)) in
              let i := push_event i (mkEvent EventRelayAddress 0 0 0 None None 0 0 (Some relay)) in
              if i_shutting_down i then
                let i := set_state i StDeallocating in
                match start_operation c i Deallocate true 0 transaction now with
                | Panic => Panic
                | Err e => mret (Err e, i)
                | Ok i => mret (Ok tt, i)
                end
              else
                let i := set_state i StReady in
                mret (Ok tt, complete i operation 0 0)
          end
      end
  | Refresh =>
      returned_lifetime ← attribute_u32 m ATTR_LIFETIME;
      let lifetime := default REQUESTED_ALLOCATION_LIFETIME_SECS returned_lifetime in
      if lifetime =? 0 then mret (Err "TURN Refresh response lifetime is zero"%string, i) else
      let t := i_timers i in
      let f := i_failures i in
      let i := set_i_timers i (mkTimers
        (Some (allocation_refresh_deadline now returned_lifetime (allocation_refresh (su_profile c))))
        (Some (now + seconds lifetime)) (t_maintenance_refresh t) (t_permission_retry t) (t_channel_retry t) (t_keepalive t)) in
      let i := set_i_failures i (mkFailures 0 (permission_failures f) (channel_failures f)) in
      mret (Ok tt, complete i operation 0 0)
  | Deallocate =>
      lifetime ← attribute_u32 m ATTR_LIFETIME;
      if negb (default 0 lifetime =? 0) then mret (Err "TURN deallocation response lifetime is not zero"%string, i) else
      let t := i_timers i in
      let i := set_i_relay i None in
      let i := set_i_timers i (mkTimers None None (t_maintenance_refresh t) (t_permission_retry t) (t_channel_retry t) (t_keepalive t)) in
      let i := complete i operation 0 0 in
      mret (Ok tt, set_state i StDeallocated)
  | Permission =>
      let f := i_failures i in
      let i := set_i_failures i (mkFailures (refresh_failures f) 0 (channel_failures f)) in
      mret (Ok tt, complete i operation 0 0)
  | Channel =>
      let f := i_failures i in
      let i := set_i_channel i (Some CHANNEL_NUMBER) in
      let i := set_i_failures i (mkFailures (refresh_failures f) (permission_failures f) 0) in
      let i := push_event i (mkEvent EventChannelBound 0 0 0 None None 0 CHANNEL_NUMBER (Some (su_peer c))) in
      mret (Ok tt, complete i operation 0 0)
  end.

(** The [while index < pending.len()] loop: each round either moves on or
    removes a request. *)
Fixpoint expire_loop (fuel : nat) (c : Setup) (i : Inner) (index : nat) (now : Z) : Inner :=
  match fuel with
  | O => i
  | S fuel =>
      match i_pending i !! index with
      | None => i
      | Some p =>
          if now <? pe_next_attempt p then expire_loop fuel c i (S index) now else
          let drop_it :=
            let i := set_i_pending i (delete index (i_pending i)) in
            let i := remove_queued_transaction i (pe_transaction p) in
            complete_failure i (pe_operation p) RESULT_TIMEOUT 0 now in
          if MAX_TRANSMISSIONS <=? pe_transmissions p then expire_loop fuel c drop_it index now
          else if decide (su_transport c = Stream) then expire_loop fuel c drop_it index now
          else
            let i := queue_packet c i (pe_packet p) in
            let rto := Z.min (pe_rto p * 2) MAX_RTO in
            let p := mkPending (pe_operation p) (pe_transaction p) (pe_packet p) (now + rto) rto
                       (pe_transmissions p + 1) (pe_nonce_retries p) (pe_authenticated p) in
            expire_loop fuel c (set_i_pending i (<[index := p]> (i_pending i))) (S index) now
      end
  end.
Definition expire_transactions (c : Setup) (i : Inner) (now : Z) : Inner :=
  expire_loop (length (i_pending i)) c i 0 now.

Definition is_fingerprinted_allocation_mismatch {E} (m : Message) : result E bool :=
  if decide (Message_class m = Error) then
    code ← error_code m;
    if bool_decide (code = Some 437) then fp ← fingerprint_valid m; mret (bool_decide (fp = Some true)) else mret false
  else mret false.

Definition requires_allocation_recreate (operation : Operation) (code : Z) : bool :=
  (code =? 437) || (bool_decide (operation = Channel) && (code =? 400)).

Definition response_error (i : Inner) (method status code : Z) : Inner :=
  push_event i (mkEvent EventStunResponseError method status code (Some (i_state i)) None 0 0 None).

(** What [input_stun] does with an error response to a request it has taken
    off the list. *)
Definition input_error (c : Setup) (i : Inner) (p : Pending) (m : Message) (method now : Z) (transaction : bytes)
    : result string (Z * Inner) :=
  found ← error_code m;
  let code := default 0 found in
  if code =? 0 then
    let i := response_error i method RESULT_PROTOCOL 0 in
    mret (0, complete_failure i (pe_operation p) RESULT_PROTOCOL 0 now)
  else if requires_allocation_recreate (pe_operation p) code then
    let i := response_error i method 0 code in
    mret (0, destroy_allocation i (pe_operation p) RESULT_PROTOCOL code)
  else
  realm_attr ← Message_attribute m ATTR_REALM;
  nonce_attr ← Message_attribute m ATTR_NONCE;
  let realm_ := match realm_attr with
                | Some a => Some (at_value a)
                | None => if code =? 438 then realm (i_auth i) else None
                end in
  let nonce_ := at_value <$> nonce_attr in
  let fail i :=
    let e := mkEvent EventStunResponseError method 0 code (Some (i_state i)) None 0 0 None in
    mret (0, complete_failure (push_event i e) (pe_operation p) RESULT_PROTOCOL code now) in
  if ((code =? 401) || (code =? 438)) && (pe_nonce_retries p <? max_nonce_retries (su_profile c)) then
    match realm_, nonce_ with
    | Some realm_, Some nonce_ =>
        let i := set_auth c i realm_ nonce_ in
        match start_operation c i (pe_operation p) true (pe_nonce_retries p + 1) transaction now with
        | Ok i => mret (0, i)
        | Err _ => fail i
        | Panic => Panic
        end
    | _, _ => fail i
    end
  else fail i.

(** The guard on an authenticated request: a response that has to be signed and
    is not, unless it says with a valid fingerprint that the allocation is gone. *)
Definition response_rejected {E} (packet : bytes) (m : Message) (authenticated : bool) (key : option bytes) : result E bool :=
  if authenticated then
    required ← response_requires_integrity m;
    if (required : bool) then
      valid ← verify_integrity packet m key;
      if (valid : bool) then mret false
      else mismatch ← is_fingerprinted_allocation_mismatch m; mret (negb mismatch)
    else mret false
  else mret false.

Definition input_stun (c : Setup) (i : Inner) (packet : bytes) (now : Z) (transaction : bytes) : result string (Z * Inner) :=
  match Message_decode packet with
  | Panic => Panic
  | Err _ => mret (RESULT_INVALID_ARGUMENT, i)
  | Ok m =>
      if negb (bool_decide (Message_class m = Success) || bool_decide (Message_class m = Error))
      then mret (RESULT_NOT_CONTROL, i) else
      fp ← fingerprint_valid m;
      if bool_decide (fp = Some false) then mret (RESULT_INVALID_ARGUMENT, i) else
      let method := Message_method m in
      match list_find (fun p => pe_transaction p = ms_transaction m /\ Operation_method (pe_operation p) = method) (i_pending i) with
      | None => mret (RESULT_NOT_CONTROL, i)
      | Some (index, p) =>
          let authenticated := pe_authenticated p in
          rejected ← response_rejected packet m authenticated (key (i_auth i));
          if (rejected : bool) then
            code ← (if decide (Message_class m = Error) then error_code m else mret None);
            mret (RESULT_AUTHENTICATION,
                  match code with Some code => response_error i method RESULT_AUTHENTICATION code | None => i end)
          else
          let i := set_i_pending i (delete index (i_pending i)) in
          let i := remove_queued_transaction i (ms_transaction m) in
          if bool_decide (Message_class m = Success) && negb authenticated then
            mret (RESULT_AUTHENTICATION, complete_failure i (pe_operation p) RESULT_AUTHENTICATION 0 now)
          else if decide (Message_class m = Error) then input_error c i p m method now transaction
          else
            done_ ← complete_success c i (pe_operation p) m now transaction;
            match done_ with
            | (Ok _, i) => mret (0, i)
            | (_, i) => mret (RESULT_PROTOCOL, complete_failure i (pe_operation p) RESULT_PROTOCOL 0 now)
            end
      end
  end.

(** ** Calls of the owner *)

Definition start_allocation (c : Setup) (i : Inner) (transaction : bytes) (now : Z) : result string unit * Inner :=
  match require_open i with
  | Ok _ =>
      if decide (i_state i = StNull) then
        let i := set_state i StAllocating in
        match start_operation c i Allocate false 0 transaction now with
        | Ok i => (Ok tt, i) | Err e => (Err e, i) | Panic => (Panic, i)
        end
      else (Err "invalid argument"%string, i)
  | Err e => (Err e, i)
  | Panic => (Panic, i)
  end.

Definition start_ready (operation : Operation) (c : Setup) (i : Inner) (transaction : bytes) (now : Z)
    : result string unit * Inner :=
  match require_ready i with
  | Ok _ =>
      match start_operation c i operation true 0 transaction now with
      | Ok i => (Ok tt, i) | Err e => (Err e, i) | Panic => (Panic, i)
      end
  | Err e => (Err e, i)
  | Panic => (Panic, i)
  end.
Definition start_channel := start_ready Channel.
Definition start_permission := start_ready Permission.

Definition due (now : Z) (t : option Z) : bool := match t with Some d => d <=? now | None => false end.

(** A [start_operation(..)?] of [poll]. *)
Definition poll_start (c : Setup) (i : Inner) (operation : Operation) (transaction : bytes) (now : Z)
    : result string unit * Inner :=
  match start_operation c i operation true 0 transaction now with
  | Ok i => (Ok tt, i) | Err e => (Err e, i) | Panic => (Panic, i)
  end.

Definition next_deadline (i : Inner) : option Z :=
  let t := i_timers i in
  let opt_min (a : option Z) (b : option Z) :=
    match a, b with Some x, Some y => Some (Z.min x y) | Some x, None => Some x | None, b => b end in
  foldl opt_min None ((Some <$> (pe_next_attempt <$> i_pending i))
    ++ [t_allocation_refresh t; t_maintenance_refresh t; t_permission_retry t; t_channel_retry t; t_keepalive t]).

Definition poll_maintenance (c : Setup) (i : Inner) (now : Z) (tx1 tx2 tx3 : bytes) : result string unit * Inner :=
  let t := i_timers i in
  let maintenance_due := due now (t_maintenance_refresh t) in
  let permission_retry_due := due now (t_permission_retry t) in
  let channel_retry_due := due now (t_channel_retry t) in
  let start_refresh := due now (t_allocation_refresh t) && negb (has_operation i Refresh) in
  let '(r1, i) :=
    if start_refresh
    then poll_start c (set_i_timers i (mkTimers None (t_allocation_expires_at t) (t_maintenance_refresh t)
           (t_permission_retry t) (t_channel_retry t) (t_keepalive t))) Refresh tx1 now
    else (Ok tt, i) in
  match r1 with
  | Ok _ =>
      let t := i_timers i in
      let i := if maintenance_due
               then set_i_timers i (mkTimers (t_allocation_refresh t) (t_allocation_expires_at t)
                      (Some (now + maintenance_refresh (su_profile c))) (t_permission_retry t) (t_channel_retry t) (t_keepalive t))
               else i in
      let start_perm := (maintenance_due || permission_retry_due) && negb (has_operation i Permission) in
      let t := i_timers i in
      let '(r2, i) :=
        if start_perm
        then poll_start c (set_i_timers i (mkTimers (t_allocation_refresh t) (t_allocation_expires_at t)
               (t_maintenance_refresh t) None (t_channel_retry t) (t_keepalive t))) Permission tx2 now
        else (Ok tt, i) in
      match r2 with
      | Ok _ =>
          let start_chan := (maintenance_due || channel_retry_due) && negb (has_operation i Channel) in
          let t := i_timers i in
          let '(r3, i) :=
            if start_chan
            then poll_start c (set_i_timers i (mkTimers (t_allocation_refresh t) (t_allocation_expires_at t)
                   (t_maintenance_refresh t) (t_permission_retry t) None (t_keepalive t))) Channel tx3 now
            else (Ok tt, i) in
          match r3 with
          | Ok _ =>
              let t := i_timers i in
              if due now (t_keepalive t) then
                let i := set_i_timers i (mkTimers (t_allocation_refresh t) (t_allocation_expires_at t)
                           (t_maintenance_refresh t) (t_permission_retry t) (t_channel_retry t)
                           (Some (now + keepalive_interval (su_profile c)))) in
                (Ok tt, if start_refresh || start_perm || start_chan then i else queue_keepalive c i)
              else (Ok tt, i)
          | r => (r, i)
          end
      | r => (r, i)
      end
  | r => (r, i)
  end.

Definition poll (c : Setup) (i : Inner) (now : Z) (tx1 tx2 tx3 : bytes) : result string (option Z) * Inner :=
  if i_destroyed i then (Ok None, i) else
  let i := expire_transactions c i now in
  let i := if negb (i_shutting_down i) && bool_decide (i_state i = StReady) && due now (t_allocation_expires_at (i_timers i))
           then destroy_allocation i Refresh RESULT_TIMEOUT 0 else i in
  let '(r, i) := if negb (i_shutting_down i) && bool_decide (i_state i = StReady)
                 then poll_maintenance c i now tx1 tx2 tx3 else (Ok tt, i) in
  match r with
  | Ok _ => (Ok ((fun deadline => Z.max (sat_sub deadline now) (millis 1)) <$> next_deadline i), i)
  | Err e => (Err e, i)
  | Panic => (Panic, i)
  end.

Definition pull_control (i : Inner) : result string (option (bytes * SocketAddr)) * Inner :=
  match i_controls i with
  | [] => (Ok None, i)
  | control :: controls =>
      let i := set_i_controls i controls in
      if 1024 <? len (co_packet control) then (Err "buffer too small"%string, i)
      else (Ok (Some (co_packet control, co_destination control)), i)
  end.

Definition pull_event (i : Inner) : option NativeEvent * Inner :=
  match i_events i with [] => (None, i) | e :: events => (Some e, set_i_events i events) end.

Definition relay_address (i : Inner) : result string SocketAddr := try_ "unavailable"%string (i_relay i).

Definition graceful_shutdown (c : Setup) (i : Inner) (transaction : bytes) (now : Z) : result string unit * Inner :=
  if i_destroyed i || i_shutting_down i then (Ok tt, i) else
  let t := i_timers i in
  let i := mkInner (i_auth i) (i_state i) (i_relay i) None [] (i_events i) (i_pending i)
             (mkTimers (t_allocation_refresh t) (t_allocation_expires_at t) None None None None)
             (i_failures i) true (i_destroyed i) in
  if bool_decide (i_state i = StReady)
     || (bool_decide (i_state i = StDestroying) && negb (bool_decide (t_allocation_expires_at t = None))) then
    let i := set_i_pending i [] in
    let i := set_state i StDeallocating in
    match start_operation c i Deallocate true 0 transaction now with
    | Ok i => (Ok tt, i) | Err e => (Err e, i) | Panic => (Panic, i)
    end
  else if negb (bool_decide (i_state i = StAllocating)) then (Ok tt, set_i_pending i [])
  else (Ok tt, i).

Definition force_destroy (i : Inner) (status : Z) : Inner :=
  if i_destroyed i then i else
  let i := set_i_destroyed i true in
  let i := set_i_pending (set_i_controls i []) [] in
  let i := set_state i StDestroying in
  push_event i (mkEvent EventForcedDestroy 0 status 0 (Some StDestroying) None 0 0 None).
End Handlers.

(** ** Building a request never panics *)

Lemma push_zeros_grows fuel b : len b <= len (push_zeros fuel b).
Proof.
  revert b. induction fuel as [|fuel IH]; intros b; cbn [push_zeros]; [lia|]. destruct (_ =? 0); [lia|].
  specialize (IH (b ++ [0])). rewrite len_app in IH. change (len [0]) with 1 in IH. lia.
Qed.

Lemma mb_attribute_grows b k v n : n <= len (mb_bytes b) -> n <= len (mb_bytes (mb_attribute b k v)).
Proof.
  intros Hn. cbn [mb_attribute mb_bytes]. etrans; [|apply push_zeros_grows]. rewrite len_app. pose proof (len_nonneg (be_bytes 2 k ++ be_bytes 2 (u16_of (len v)) ++ v)). lia.
Qed.

Lemma set_message_length_len b t : 4 <= len b ->
  safe (set_message_length b t) /\ forall b', set_message_length b t = Ok b' -> len b' = len b.
Proof.
  intros Hb. unfold set_message_length. destruct (U16_MAX <? _); [done|].
  rewrite copy_into_ok by (rewrite ?len_be_bytes; lia). split; [done|]. intros b' [= <-].
  apply (len_splice b (be_bytes 2 (len b - 20 + t)) 2); [lia|]. rewrite len_be_bytes. lia.
Qed.

Section Building.
Context `{StunHash}.

Lemma mb_finish_safe b : 4 <= len (mb_bytes b) -> safe (mb_finish b).
Proof. intros Hb. unfold mb_finish. apply safe_bind; [by apply set_message_length_len|]. done. Qed.

Lemma mb_finish_authenticated_safe b k : 4 <= len (mb_bytes b) -> safe (mb_finish_authenticated b k).
Proof.
  intros Hb. unfold mb_finish_authenticated. destruct (set_message_length_len (mb_bytes b) 24 Hb) as [Hs Hl].
  apply safe_bind; [done|]. intros b' Hb'. apply mb_finish_safe, mb_attribute_grows. cbn. by rewrite (Hl b' Hb').
Qed.

Lemma build_request_safe c i operation tx authenticated : safe (build_request c i operation tx authenticated).
Proof.
  assert (H0 : forall k, 4 <= len (mb_bytes (with_transaction k tx))).
  { intros k. cbn [with_transaction mb_bytes]. rewrite !len_app, !len_be_bytes. pose proof (len_nonneg tx). lia. }
  clear -H0. unfold build_request, mb_xor_address. destruct authenticated.
  - apply safe_bind; [by destruct (key _)|]. intros k _.
    apply mb_finish_authenticated_safe. destruct operation; repeat apply mb_attribute_grows; apply H0.
  - apply mb_finish_safe. destruct operation; repeat apply mb_attribute_grows; apply H0.
Qed.

Lemma start_operation_safe c i operation authenticated retries tx now :
  safe (start_operation c i operation authenticated retries tx now).
Proof.
  unfold start_operation. destruct (has_operation i operation); [done|]. destruct (_ && _); [done|].
  apply safe_bind; [apply build_request_safe|done].
Qed.
End Building.

(** ** What the queues leave alone *)

(** [frame i j]: [j] differs from [i] in its queues of packets and events only. *)
Definition frame (i j : Inner) : Prop :=
  i_auth j = i_auth i /\ i_state j = i_state i /\ i_relay j = i_relay i /\ i_channel j = i_channel i
  /\ i_pending j = i_pending i /\ i_timers j = i_timers i /\ i_failures j = i_failures i
  /\ i_shutting_down j = i_shutting_down i /\ i_destroyed j = i_destroyed i.

Lemma push_event_frame i e : frame i (push_event i e) /\ i_controls (push_event i e) = i_controls i.
Proof. unfold push_event. by destruct (_ =? _). Qed.

Lemma queue_packet_frame c i p : frame i (queue_packet c i p).
Proof.
  unfold queue_packet. destruct (_ =? _); [|done]. apply (push_event_frame (set_i_controls i (tail (i_controls i)))).
Qed.

(** The fields of a framed state, all at once. *)
Ltac unframe H := destruct H as (?fr & ?fr & ?fr & ?fr & ?fr & ?fr & ?fr & ?fr & ?fr).

(** ** The invariant *)

Definition auth_complete (a : Auth) : Prop := is_Some (realm a) /\ is_Some (auth_nonce a) /\ is_Some (key a).

(** Which requests can be outstanding in which state. *)
Definition op_allowed (s : State) (o : Operation) : bool :=
  match s, o with
  | StAllocating, Allocate => true
  | StReady, (Refresh | Permission | Channel) => true
  | StDeallocating, Deallocate => true
  | _, _ => false
  end.

Record pending_ok (a : Auth) (s : State) (p : Pending) : Prop := {
  po_allowed : op_allowed s (pe_operation p) = true;
  po_signed : pe_operation p <> Allocate -> pe_authenticated p = true;
  po_auth : pe_authenticated p = true -> auth_complete a;
  po_transmissions : 1 <= pe_transmissions p <= MAX_TRANSMISSIONS;
  po_rto : INITIAL_RTO <= pe_rto p <= MAX_RTO;
}.

Record turn_ok (i : Inner) : Prop := {
  ok_controls : len (i_controls i) <= CONTROL_CAPACITY;
  ok_events : len (i_events i) <= EVENT_CAPACITY;
  ok_nodup : NoDup (pe_operation <$> i_pending i);
  ok_pending : Forall (pending_ok (i_auth i) (i_state i)) (i_pending i);
  ok_allocated : is_Some (t_allocation_expires_at (i_timers i)) -> auth_complete (i_auth i) /\ is_Some (i_relay i);
  ok_ready : i_state i = StReady -> is_Some (t_allocation_expires_at (i_timers i));
  ok_channel : is_Some (i_channel i) -> i_state i = StReady \/ i_destroyed i = true;
  ok_destroyed : i_destroyed i = true -> i_pending i = [] /\ i_controls i = [] /\ i_state i = StDestroying;
}.

(** The moves of the state. *)
Definition state_edge (s s' : State) : Prop :=
  match s, s' with
  | StNull, (StAllocating | StDestroying)
  | StAllocating, (StReady | StDeallocating | StDestroying)
  | StReady, (StDeallocating | StDestroying)
  | StDeallocating, (StDeallocated | StDestroying)
  | StDeallocated, StDestroying
  | StDestroying, StDeallocating => True
  | _, _ => False
  end.

(** A handler keeps the invariant and moves the state along the edges. *)
Record turn_step (i j : Inner) : Prop := {
  ts_ok : turn_ok j;
  ts_state : rtc state_edge (i_state i) (i_state j);
  ts_destroyed : i_destroyed j = i_destroyed i;
}.

Lemma turn_step_refl i : turn_ok i -> turn_step i i.
Proof. intros Hi. by split. Qed.
Lemma turn_step_trans i j k : turn_step i j -> turn_step j k -> turn_step i k.
Proof. intros [H1 H2 H3] [H4 H5 H6]. split; [done|by etrans|congruence]. Qed.

Lemma push_event_events i e : len (i_events i) <= EVENT_CAPACITY -> len (i_events (push_event i e)) <= EVENT_CAPACITY.
Proof.
  intros He. unfold push_event, EVENT_CAPACITY in *. destruct (_ =? _) eqn:E; bool_prop; cbn; rewrite len_app; cbn [len length];
    change (len [_]) with 1; [|lia]. unfold len in *. destruct (i_events i); cbn in *; lia.
Qed.

Lemma push_event_ok i e : turn_ok i -> turn_ok (push_event i e).
Proof.
  intros Hi. destruct (push_event_frame i e) as [Hf Hc]. unframe Hf.
  destruct Hi. split; rewrite ?Hc, ?fr, ?fr0, ?fr1, ?fr2, ?fr3, ?fr4, ?fr7; try done. by apply push_event_events.
Qed.

Lemma push_event_step i e : turn_ok i -> turn_step i (push_event i e).
Proof.
  intros Hi. destruct (push_event_frame i e) as [Hf _]. unframe Hf. split; [by apply push_event_ok|by rewrite fr0|done].
Qed.

Lemma queue_packet_queues c i p :
  len (i_controls i) <= CONTROL_CAPACITY -> len (i_events i) <= EVENT_CAPACITY ->
  len (i_controls (queue_packet c i p)) <= CONTROL_CAPACITY /\ len (i_events (queue_packet c i p)) <= EVENT_CAPACITY.
Proof.
  intros Hc He. unfold queue_packet. destruct (_ =? CONTROL_CAPACITY) eqn:E; bool_prop; cbn [set_i_controls i_controls i_events].
  - rewrite (proj2 (push_event_frame _ _)). cbn [set_i_controls i_controls]. split; [|by apply push_event_events].
    rewrite len_app. change (len [_]) with 1. unfold len, CONTROL_CAPACITY in *. destruct (i_controls i); cbn in *; lia.
  - rewrite len_app. change (len [_]) with 1. lia.
Qed.

Lemma queue_packet_step c i p : turn_ok i -> i_destroyed i = false -> turn_step i (queue_packet c i p).
Proof.
  intros Hi Hd. pose proof (queue_packet_frame c i p) as Hf. unframe Hf. destruct Hi.
  destruct (queue_packet_queues c i p ok_controls0 ok_events0) as [Hq1 Hq2].
  split; [|by rewrite fr0|done]. split; rewrite ?fr, ?fr0, ?fr1, ?fr2, ?fr3, ?fr4, ?fr7; try done. by rewrite Hd.
Qed.

Lemma set_state_frame i s :
  let j := set_state i s in
  i_auth j = i_auth i /\ i_state j = s /\ i_relay j = i_relay i /\ i_channel j = i_channel i
  /\ i_pending j = i_pending i /\ i_timers j = i_timers i /\ i_failures j = i_failures i
  /\ i_shutting_down j = i_shutting_down i /\ i_destroyed j = i_destroyed i.
Proof.
  cbn zeta. unfold set_state. destruct (decide _); [by subst|].
  destruct (push_event_frame (set_i_state i s) (mkEvent EventState 0 0 0 (Some s) (Some (i_state i)) 0 0 None)) as [Hf _]. exact Hf.
Qed.

Lemma set_state_queues i s :
  len (i_events i) <= EVENT_CAPACITY ->
  i_controls (set_state i s) = i_controls i /\ len (i_events (set_state i s)) <= EVENT_CAPACITY.
Proof.
  intros He. unfold set_state. destruct (decide _); [done|]. split; [exact (proj2 (push_event_frame (set_i_state i s) _))|by apply push_event_events].
Qed.

(** Moving to a state in which nothing is outstanding. *)
Lemma set_state_step i s :
  turn_ok i -> i_pending i = [] -> i_channel i = None -> rtc state_edge (i_state i) s ->
  (s = StReady -> is_Some (t_allocation_expires_at (i_timers i))) -> (i_destroyed i = true -> s = StDestroying) ->
  turn_step i (set_state i s).
Proof.
  intros Hi Hp Hc He Hr Hd. destruct Hi. destruct (set_state_queues i s ok_events0) as [Hq1 Hq2].
  pose proof (set_state_frame i s) as Hf. cbn zeta in Hf. unframe Hf.
  split; [|by rewrite fr0|done]. split; rewrite ?Hq1, ?fr, ?fr0, ?fr1, ?fr2, ?fr3, ?fr4, ?fr7; try done.
  - rewrite Hp. constructor.
  - rewrite Hc. by intros [? ?].
  - intros Hx. destruct (ok_destroyed0 Hx) as (? & ? & _). by rewrite (Hd Hx).
Qed.

Lemma complete_step i o s z : turn_ok i -> turn_step i (complete i o s z).
Proof. apply push_event_step. Qed.

(** What both ways of giving up the allocation have in common: everything is
    cleared, then the state moves. *)
Lemma teardown i r t s :
  turn_ok i -> i_destroyed i = false -> s <> StReady -> rtc state_edge (i_state i) s ->
  (is_Some (t_allocation_expires_at t) -> auth_complete (i_auth i) /\ is_Some r) ->
  forall e,
  let j := mkInner (i_auth i) (i_state i) r None [] (i_events i) [] t (i_failures i) (i_shutting_down i) (i_destroyed i) in
  turn_step i (set_state j s) /\ turn_step i (set_state (push_event j e) s).
Proof.
  intros Hi Hd Hs He Ht e j.
  assert (Hgen : forall k, frame j k -> i_controls k = [] -> len (i_events k) <= EVENT_CAPACITY -> turn_step i (set_state k s)).
  { intros k Hf Hk1 Hk2. unframe Hf. destruct (set_state_queues k s Hk2) as [Hq1 Hq2].
    pose proof (set_state_frame k s) as Hg. cbn zeta in Hg. destruct Hg as (g1 & g2 & g3 & g4 & g5 & g6 & g7 & g8 & g9).
    split; [|by rewrite g2|rewrite g9, fr7; done].
    split; rewrite ?Hq1, ?Hk1, ?g1, ?g2, ?g3, ?g4, ?g5, ?g6, ?g9, ?fr, ?fr1, ?fr2, ?fr3, ?fr4, ?fr7; cbn [i_auth i_state i_relay i_channel i_pending i_timers i_destroyed j]; try done.
    - apply NoDup_nil_2.
    - by rewrite Hd. }
  split; apply Hgen; try done.
  - apply Hi.
  - apply push_event_frame.
  - apply push_event_frame.
  - apply push_event_events, Hi.
Qed.

(** Where giving up on request [o] ends. *)
Definition settles (o : Operation) : State := if decide (o = Deallocate) then StDeallocated else StDestroying.

Lemma destroy_allocation_step i o s z :
  turn_ok i -> i_destroyed i = false -> rtc state_edge (i_state i) (settles o) ->
  turn_step i (destroy_allocation i o s z).
Proof.
  intros Hi Hd He. pose proof (complete_step i o s z Hi) as Hc. unfold destroy_allocation.
  assert (Hst : i_state (complete i o s z) = i_state i) by apply push_event_frame.
  eapply turn_step_trans; [exact Hc|]. destruct Hc as [Hc1 _ Hc3]. unfold settles in He. cbn zeta.
  destruct (decide (o = Deallocate)); apply teardown with (e := event_default EventState); rewrite ?Hst, ?Hc3; try done; by intros [? ?].
Qed.

Lemma rebind_exhausted_step i :
  turn_ok i -> i_destroyed i = false -> rtc state_edge (i_state i) StDestroying ->
  turn_step i (destroy_after_channel_rebind_exhausted i).
Proof.
  intros Hi Hd He. unfold destroy_after_channel_rebind_exhausted. cbn zeta. apply teardown; try done. apply Hi.
Qed.

Lemma turn_ok_timers i t f :
  turn_ok i -> t_allocation_expires_at t = t_allocation_expires_at (i_timers i) -> turn_ok (set_i_timers (set_i_failures i f) t).
Proof. intros [] Ht. split; cbn; rewrite ?Ht; done. Qed.

Lemma schedule_step i o now :
  turn_ok i -> turn_step i (schedule_maintenance_retry i o now).2.
Proof.
  intros Hi. assert (Hf : forall f, turn_ok (set_i_failures i f)).
  { intros f. by apply (turn_ok_timers i (i_timers i) f). }
  unfold schedule_maintenance_retry. destruct o; cbn [snd]; try (by apply turn_step_refl).
  - split; [by apply turn_ok_timers|done|done].
  - split; [by apply turn_ok_timers|done|done].
  - destruct (_ <=? _); cbn [snd]; split; try done. by apply turn_ok_timers.
Qed.

Lemma op_allowed_settles s o : op_allowed s o = true -> rtc state_edge s (settles o).
Proof. destruct s, o; cbn; intros; try done; apply rtc_once; exact I. Qed.

Lemma complete_failure_step i o s z now :
  turn_ok i -> i_destroyed i = false -> rtc state_edge (i_state i) (settles o) -> turn_step i (complete_failure i o s z now).
Proof.
  intros Hi Hd He. unfold complete_failure. destruct (_ && _ && _) eqn:E; [|by apply destroy_allocation_step].
  rewrite !andb_true_iff, bool_decide_eq_true in E. destruct E as [[_ Hs] _].
  pose proof (complete_step i o s z Hi) as Hc. pose proof (schedule_step (complete i o s z) o now (ts_ok _ _ Hc)) as Hr.
  assert (Hrt : i_state (schedule_maintenance_retry (complete i o s z) o now).2 = StReady).
  { transitivity (i_state (complete i o s z)); [|unfold complete; by rewrite (proj1 (proj2 (proj1 (push_event_frame i _))))].
    unfold schedule_maintenance_retry. destruct o; try done. by destruct (_ <=? _). }
  destruct (schedule_maintenance_retry _ _ _) as [[] j]; cbn [snd] in *; [by eapply turn_step_trans|].
  eapply turn_step_trans; [by eapply turn_step_trans|]. apply rebind_exhausted_step.
  - apply Hr.
  - rewrite (ts_destroyed _ _ Hr), (ts_destroyed _ _ Hc). done.
  - rewrite Hrt. by apply rtc_once.
Qed.

(** Taking a request off the list. *)
Lemma take_pending_step i k tx :
  turn_ok i -> turn_step i (remove_queued_transaction (set_i_pending i (delete k (i_pending i))) tx).
Proof.
  intros []. split; [|done|done]. split; cbn; try done.
  - etrans; [|exact ok_controls0]. unfold len. pose proof (length_filter (fun control => get_range (co_packet control) 8 20 <> Some tx) (i_controls i)). lia.
  - rewrite list_fmap_delete. eapply sublist_NoDup; [exact ok_nodup0|apply sublist_delete].
  - by apply Forall_delete.
  - intros Hd. destruct (ok_destroyed0 Hd) as (-> & -> & ->). split_and!; done.
Qed.

Lemma has_operation_false i o : has_operation i o = false -> o ∉ pe_operation <$> i_pending i.
Proof.
  unfold has_operation. intros Hh Hin. apply list_elem_of_fmap in Hin as (p & -> & Hp).
  apply not_true_iff_false in Hh. apply Hh, existsb_exists. exists p. split; [by apply list_elem_of_In|by apply bool_decide_eq_true].
Qed.

Lemma ok_inj {E A} (a b : A) : @Ok E A a = Ok b -> a = b.
Proof. by intros [= ->]. Qed.

Section Steps.
Context `{StunHash}.

Lemma start_operation_step c i o authenticated retries tx now j :
  turn_ok i -> i_destroyed i = false -> op_allowed (i_state i) o = true -> (o <> Allocate -> authenticated = true) ->
  start_operation c i o authenticated retries tx now = Ok j -> turn_step i j.
Proof.
  intros Hi Hd Ho Ha. unfold start_operation. destruct (has_operation i o) eqn:Hh.
  { intros [= <-]. destruct (decide _); [|by apply turn_step_refl].
    destruct (list_find _ _) as [[? ?]|]; [by apply queue_packet_step|by apply turn_step_refl]. }
  destruct (authenticated && _) eqn:Hauth; [done|]. intros Hb. apply bind_ok in Hb as (packet & _ & Hj).
  apply ok_inj in Hj. subst j. pose proof (queue_packet_step c i packet Hi Hd) as [Hq Hq2 Hq3].
  pose proof (queue_packet_frame c i packet) as Hf. unframe Hf.
  split; [|done|done]. revert Hq Hq2 Hq3 fr fr0 fr1 fr2 fr3 fr4 fr5 fr6 fr7. generalize (queue_packet c i packet) as q. intros.
  assert (Hcomplete : authenticated = true -> auth_complete (i_auth i)).
  { intros ->. cbn in Hauth. rewrite !orb_false_iff, !bool_decide_eq_false in Hauth. unfold auth_complete.
    rewrite <- !not_eq_None_Some. tauto. }
  destruct Hq. split; cbn [set_i_pending i_controls i_events i_auth i_state i_relay i_channel i_pending i_timers i_destroyed]; try done.
  - rewrite fmap_app, fr3. cbn. rewrite fr3 in ok_nodup0. apply NoDup_app. split_and!; [done| |apply NoDup_singleton].
    intros x Hx Hx'. apply list_elem_of_singleton in Hx' as ->. by apply has_operation_false in Hh.
  - apply Forall_app. split; [done|]. apply Forall_singleton. rewrite fr, fr0. split; cbn; try done; unfold MAX_TRANSMISSIONS, INITIAL_RTO, MAX_RTO, millis; lia.
  - rewrite fr7, Hd. done.
Qed.

Lemma set_auth_step c i r n : turn_ok i -> turn_step i (set_auth c i r n).
Proof.
  intros []. assert (Hc : auth_complete (i_auth (set_auth c i r n))) by (split_and!; eexists; done).
  split; [|done|done]. split; cbn [set_auth set_i_auth i_controls i_events i_auth i_state i_relay i_channel i_pending i_timers i_destroyed]; try done.
  - eapply Forall_impl; [exact ok_pending0|]. intros p []. by split.
  - intros Hx. split; [done|by apply ok_allocated0].
Qed.
End Steps.

(** ** Success *)

(** Replacing the relay, the channel, the timers and the counters. *)
Lemma refit_step i r ch t f :
  turn_ok i -> auth_complete (i_auth i) ->
  (is_Some (t_allocation_expires_at t) -> is_Some r) -> (i_state i = StReady -> is_Some (t_allocation_expires_at t)) ->
  (is_Some ch -> i_state i = StReady) ->
  turn_step i (mkInner (i_auth i) (i_state i) r ch (i_controls i) (i_events i) (i_pending i) t f (i_shutting_down i) (i_destroyed i)).
Proof. intros [] Ha Hr Ht Hc. split; [|done|done]. split; cbn; try done; [by intros Hx; split; auto|by intros Hx; left; auto]. Qed.

(** Every state can move to [STATE_DESTROYING]. *)
Lemma to_destroying s : rtc state_edge s StDestroying.
Proof. destruct s; (apply rtc_once; exact I) || apply rtc_refl. Qed.

(** In a state with one kind of request, taking it off leaves none. *)
Lemma sole_request i o :
  turn_ok i -> op_allowed (i_state i) o = true -> o ∉ pe_operation <$> i_pending i -> is_maintenance o = false -> i_pending i = [].
Proof.
  intros [] Ho Hn Hm. destruct (i_pending i) as [|p l] eqn:E; [done|]. exfalso.
  apply Forall_cons in ok_pending0 as [[Hp _ _ _ _] _]. apply Hn. cbn. apply elem_of_cons. left.
  destruct (i_state i), o, (pe_operation p); done.
Qed.

Section Success_.
Context `{StunHash}.

Lemma complete_push_step i e o s z :
  turn_ok i -> turn_step i (complete (push_event i e) o s z)
  /\ i_state (complete (push_event i e) o s z) = i_state i.
Proof.
  intros Hi. pose proof (push_event_step i e Hi) as H1. split.
  - eapply turn_step_trans; [exact H1|]. apply complete_step, H1.
  - unfold complete. rewrite (proj1 (proj2 (proj1 (push_event_frame _ _)))). apply push_event_frame.
Qed.

(** What follows an accepted Allocate response. *)
Lemma allocated_step c i tx now :
  turn_ok i -> i_destroyed i = false -> i_state i = StAllocating -> i_pending i = [] -> i_channel i = None ->
  is_Some (t_allocation_expires_at (i_timers i)) ->
  exists x j,
    (if i_shutting_down i then
       match start_operation c (set_state i StDeallocating) Deallocate true 0 tx now with
       | Panic => Panic | Err e => mret (Err e, set_state i StDeallocating) | Ok i => mret (Ok tt, i)
       end
     else mret (Ok tt, complete (set_state i StReady) Allocate 0 0)) = @Ok string _ (x, j) /\ turn_step i j.
Proof.
  intros Hi Hd Hs Hp Hc Ht. destruct (i_shutting_down i).
  - assert (H1 : turn_step i (set_state i StDeallocating)).
    { apply set_state_step; rewrite ?Hs, ?Hd; try done. by apply rtc_once. }
    pose proof (set_state_frame i StDeallocating) as Hf. cbn zeta in Hf. unframe Hf.
    pose proof (start_operation_safe c (set_state i StDeallocating) Deallocate true 0 tx now) as Hsafe.
    destruct (start_operation _ _ _ _ _ _ _) as [j|e|] eqn:E; [| |done]; eexists _, _; (split; [done|]); [|done].
    eapply turn_step_trans; [exact H1|].
    eapply start_operation_step; [apply H1|by rewrite fr7| |done|exact E]. by rewrite fr0.
  - eexists _, _. split; [done|]. eapply turn_step_trans; [|apply complete_step]; apply set_state_step || apply ts_ok with i;
      try apply set_state_step; rewrite ?Hs, ?Hd; try done; by apply rtc_once.
Qed.

(** [r] is a value and its state comes from [i] by legal moves; giving up on
    [o] afterwards is legal too. *)
Definition succeeds (i : Inner) (o : Operation) (r : result string (result string unit * Inner)) : Prop :=
  exists x j, r = Ok (x, j) /\ turn_step i j /\ rtc state_edge (i_state j) (settles o).

Section Response.
Context {raw : bytes} {m : Message} (Hw : wf_bytes raw) (Hm : Message_decode raw = Ok m).
Context (c : Setup) (i : Inner) (Hi : turn_ok i) (Hd : i_destroyed i = false) (Ha : auth_complete (i_auth i)).

Lemma unchanged_succeeds o x : op_allowed (i_state i) o = true -> succeeds i o (Ok (x, i)).
Proof using Hi.
  intros Ho. eexists _, _. split; [done|]. split; [by apply turn_step_refl|by apply op_allowed_settles].
Qed.

Lemma allocate_success tx now :
  op_allowed (i_state i) Allocate = true -> Allocate ∉ pe_operation <$> i_pending i ->
  succeeds i Allocate (complete_success c i Allocate m now tx).
Proof using Hw Hm Hi Hd Ha.
  intros Ho Hn. pose proof (fun x => unchanged_succeeds _ x Ho) as Hfail.
  assert (Hst : i_state i = StAllocating) by (destruct (i_state i); done).
  assert (Hch : i_channel i = None).
  { apply eq_None_not_Some. intros Hx. destruct (ok_channel i Hi Hx); congruence. }
  unfold complete_success.
  destruct (@attribute_total string raw m Hw Hm ATTR_XOR_RELAYED_ADDRESS) as ([a|] & -> & _); cbn [mbind result_bind]; [|apply Hfail].
  pose proof (decode_xor_address_safe (at_value a) (ms_transaction m)) as Hx.
  destruct (decode_xor_address _ _) as [relay|e|]; [|apply Hfail|done]. destruct (_ || _); [apply Hfail|].
  destruct (@attribute_u32_total string raw m Hw Hm ATTR_LIFETIME) as (life & ->). cbn [mbind result_bind]. destruct (_ =? 0); [apply Hfail|].
  cbn zeta. match goal with |- context [push_event ?x ?e] => set (k := push_event x e); set (j := x) in k end.
  assert (Hj : turn_step i j).
  { apply (refit_step i (Some relay) (i_channel i)); try done; intros Hx'; try (by eexists).
    rewrite Hch in Hx'. by destruct Hx'. }
  destruct (push_event_frame j (mkEvent EventRelayAddress 0 0 0 None None 0 0 (Some relay))) as [Hf _]. fold k in Hf. unframe Hf.
  pose proof (push_event_step j (mkEvent EventRelayAddress 0 0 0 None None 0 0 (Some relay)) (ts_ok _ _ Hj)) as Hk. fold k in Hk.
  destruct (allocated_step c k tx now) as (x & j' & -> & Hj'); [apply Hk|by rewrite fr7|by rewrite fr0| | |by rewrite fr4; eexists|].
  - rewrite fr3. by apply (sole_request i Allocate).
  - by rewrite fr2.
  - eexists _, _. split; [done|]. split; [|apply to_destroying]. eapply turn_step_trans; [exact Hj|]. by eapply turn_step_trans.
Qed.

Lemma refresh_success tx now :
  op_allowed (i_state i) Refresh = true -> succeeds i Refresh (complete_success c i Refresh m now tx).
Proof using Hw Hm Hi Hd Ha.
  intros Ho. assert (Hst : i_state i = StReady) by (destruct (i_state i); done). unfold complete_success.
  destruct (@attribute_u32_total string raw m Hw Hm ATTR_LIFETIME) as (life & ->). cbn [mbind result_bind].
  destruct (_ =? 0); [by apply unchanged_succeeds|]. cbn zeta. eexists _, _. split; [done|]. split; [|apply to_destroying].
  eapply turn_step_trans; [|apply complete_step, ts_ok with i]; apply (refit_step i (i_relay i) (i_channel i)); try done;
    intros _; by apply Hi, Hi.
Qed.

Lemma deallocate_success tx now :
  op_allowed (i_state i) Deallocate = true -> Deallocate ∉ pe_operation <$> i_pending i ->
  succeeds i Deallocate (complete_success c i Deallocate m now tx).
Proof using Hw Hm Hi Hd Ha.
  intros Ho Hn. assert (Hst : i_state i = StDeallocating) by (destruct (i_state i); done).
  assert (Hch : i_channel i = None).
  { apply eq_None_not_Some. intros Hx. destruct (ok_channel i Hi Hx); congruence. }
  unfold complete_success. destruct (@attribute_u32_total string raw m Hw Hm ATTR_LIFETIME) as (life & ->). cbn [mbind result_bind].
  destruct (negb _); [by apply unchanged_succeeds|]. cbn zeta.
  match goal with |- context [complete ?x ?o ?s ?z] => set (k := complete x o s z); set (j := x) in k end.
  assert (Hj : turn_step i j).
  { apply (refit_step i None (i_channel i)); try done; [by intros [? ?]|by rewrite Hst|by rewrite Hch; intros [? ?]]. }
  pose proof (complete_step j Deallocate 0 0 (ts_ok _ _ Hj)) as Hk. fold k in Hk.
  assert (Hf : frame j k) by apply push_event_frame. unframe Hf.
  eexists _, _. split; [done|]. split; [|by rewrite (proj1 (proj2 (set_state_frame k StDeallocated)))].
  eapply turn_step_trans; [exact Hj|]. eapply turn_step_trans; [exact Hk|]. apply set_state_step; try done.
  - apply Hk.
  - rewrite fr3. by apply (sole_request i Deallocate).
  - by rewrite fr2.
  - rewrite fr0. cbn [j set_i_relay set_i_timers i_state]. rewrite Hst. by apply rtc_once.
  - rewrite fr7. cbn [j set_i_relay set_i_timers i_destroyed]. by rewrite Hd.
Qed.

Lemma maintenance_success o tx now :
  op_allowed (i_state i) o = true -> o = Permission \/ o = Channel -> succeeds i o (complete_success c i o m now tx).
Proof using Hi Ha.
  intros Ho [-> | ->]; assert (Hst : i_state i = StReady) by (destruct (i_state i); done); unfold complete_success; cbn zeta;
    eexists _, _; (split; [done|]); (split; [|apply to_destroying]).
  - eapply turn_step_trans; [|apply complete_step, ts_ok with i]; apply (refit_step i (i_relay i) (i_channel i)); try done;
      intros; by apply Hi.
  - eapply turn_step_trans; [|apply complete_push_step, ts_ok with i]; apply (refit_step i (i_relay i) (Some CHANNEL_NUMBER)); try done;
      intros; by apply Hi.
Qed.

Lemma complete_success_step o tx now :
  op_allowed (i_state i) o = true -> o ∉ pe_operation <$> i_pending i -> succeeds i o (complete_success c i o m now tx).
Proof using Hw Hm Hi Hd Ha.
  intros Ho Hn. destruct o; auto using allocate_success, refresh_success, deallocate_success, maintenance_success.
Qed.
End Response.
End Success_.

(** ** Responses *)

Section Responses.
Context `{StunHash}.

Lemma mismatch_total {E raw m} : wf_bytes raw -> Message_decode raw = Ok m ->
  exists b, @is_fingerprinted_allocation_mismatch _ E m = Ok b.
Proof.
  intros Hw Hm. unfold is_fingerprinted_allocation_mismatch. destruct (decide _); [|by eexists].
  destruct (@error_code_total E raw m Hw Hm) as (o & ->). cbn [mbind result_bind]. destruct (bool_decide _); [|by eexists].
  destruct (@fingerprint_total E raw m Hw Hm _) as (f & ->). by eexists.
Qed.

Lemma fail_response_step i e o s z now :
  turn_ok i -> i_destroyed i = false -> op_allowed (i_state i) o = true ->
  turn_step i (complete_failure (push_event i e) o s z now).
Proof.
  intros Hi Hd Ho. pose proof (push_event_step i e Hi) as H1. destruct (push_event_frame i e) as [Hf _]. unframe Hf.
  eapply turn_step_trans; [exact H1|]. apply complete_failure_step; [apply H1|by rewrite fr7|rewrite fr0; by apply op_allowed_settles].
Qed.

Lemma input_error_step c i p m raw method now tx :
  wf_bytes raw -> Message_decode raw = Ok m ->
  turn_ok i -> i_destroyed i = false -> op_allowed (i_state i) (pe_operation p) = true ->
  exists s j, input_error c i p m method now tx = Ok (s, j) /\ turn_step i j.
Proof.
  intros Hw Hm Hi Hd Ho. unfold input_error. destruct (@error_code_total string raw m Hw Hm) as (found & ->). cbn [mbind result_bind].
  destruct (_ =? 0).
  { eexists _, _. split; [done|]. by apply fail_response_step. }
  destruct (requires_allocation_recreate _ _).
  { eexists _, _. split; [done|]. unfold response_error.
    match goal with |- context [push_event i ?x] => set (e := x) end. pose proof (push_event_step i e Hi) as H1. destruct (push_event_frame i e) as [Hf _]. unframe Hf.
    eapply turn_step_trans; [exact H1|]. apply destroy_allocation_step; [apply H1|by rewrite fr7|rewrite fr0; by apply op_allowed_settles]. }
  destruct (@attribute_total string raw m Hw Hm ATTR_REALM) as (ra & -> & _).
  destruct (@attribute_total string raw m Hw Hm ATTR_NONCE) as (na & -> & _). cbn [mbind result_bind]. cbn zeta.
  assert (Hfail : forall i', turn_step i i' -> i_state i' = i_state i -> forall e z, exists s j,
    @mret (result string) _ (Z * Inner) (0, complete_failure (push_event i' e) (pe_operation p) RESULT_PROTOCOL z now) = Ok (s, j) /\ turn_step i j).
  { intros i' H1 H2 e z. eexists _, _. split; [done|]. eapply turn_step_trans; [exact H1|]. apply fail_response_step; [apply H1| |by rewrite H2].
    by rewrite (ts_destroyed _ _ H1). }
  destruct (_ && _); [|by apply Hfail; [apply turn_step_refl|]].
  destruct (match ra with Some _ => _ | None => _ end) as [r|]; [|by apply Hfail; [apply turn_step_refl|]].
  destruct (at_value <$> na) as [n|]; [|by apply Hfail; [apply turn_step_refl|]].
  pose proof (set_auth_step c i r n Hi) as H1.
  pose proof (start_operation_safe c (set_auth c i r n) (pe_operation p) true (pe_nonce_retries p + 1) tx now) as Hs.
  destruct (start_operation _ _ _ _ _ _ _) as [j|e|] eqn:E; [|by apply Hfail|done].
  eexists _, _. split; [done|]. eapply turn_step_trans; [exact H1|].
  eapply start_operation_step; [apply H1|by rewrite (ts_destroyed _ _ H1)|exact Ho|done|exact E].
Qed.

Lemma response_rejected_total {E raw m} authenticated k : wf_bytes raw -> Message_decode raw = Ok m ->
  exists b, @response_rejected _ E raw m authenticated k = Ok b.
Proof.
  intros Hw Hm. unfold response_rejected. destruct authenticated; [|by eexists].
  destruct (@requires_integrity_total E _ _ Hw Hm) as ([] & ->); [|by eexists].
  cbn [mbind result_bind]. destruct (@verify_integrity_total E _ _ Hw Hm _ k) as ([] & ->); [by eexists|].
  destruct (@mismatch_total E _ _ Hw Hm) as (b & ->). by eexists.
Qed.

(** A success response that is not rejected is signed with the current key. *)
Lemma not_rejected_signed {E} raw m k : Message_class m = Success ->
  @response_rejected _ E raw m true k = Ok false -> @verify_integrity _ E raw m k = Ok true.
Proof.
  intros Hc. unfold response_rejected, response_requires_integrity. rewrite Hc. cbn [mbind result_bind mret result_ret].
  destruct (verify_integrity raw m k) as [[]|e|]; try done. cbn [mbind result_bind].
  unfold is_fingerprinted_allocation_mismatch. rewrite Hc. by destruct (decide _).
Qed.

Lemma taken_fresh i k p : turn_ok i -> i_pending i !! k = Some p -> pe_operation p ∉ pe_operation <$> delete k (i_pending i).
Proof.
  intros Hi Hp. pose proof (ok_nodup i Hi) as Hn. rewrite delete_take_drop. rewrite <- (take_drop_middle _ _ _ Hp) in Hn.
  rewrite fmap_app in *. rewrite fmap_cons in Hn. rewrite <- Permutation_middle in Hn. by apply NoDup_cons in Hn as [Hn _].
Qed.

Lemma input_success_step c i p index m raw now tx :
  wf_bytes raw -> Message_decode raw = Ok m -> turn_ok i -> i_pending i !! index = Some p -> i_destroyed i = false ->
  pe_authenticated p = true ->
  let i1 := remove_queued_transaction (set_i_pending i (delete index (i_pending i))) (ms_transaction m) in
  exists x j, complete_success c i1 (pe_operation p) m now tx = Ok (x, j) /\ turn_step i j
    /\ forall s z, turn_step i (complete_failure j (pe_operation p) s z now).
Proof.
  intros Hw Hm Hi Hp Hd Ha i1. pose proof (take_pending_step i index (ms_transaction m) Hi) as Ht. fold i1 in Ht.
  pose proof (Forall_lookup_1 _ _ _ _ (ok_pending i Hi) Hp) as [Ho _ Hauth _ _].
  destruct (complete_success_step Hw Hm c i1 (ts_ok _ _ Ht) Hd (Hauth Ha) (pe_operation p) tx now Ho (taken_fresh i index p Hi Hp))
    as (x & j & -> & Hj & Hrt).
  assert (Hij : turn_step i j) by (by eapply turn_step_trans). eexists _, _. split; [done|]. split; [done|]. intros s z.
  eapply turn_step_trans; [exact Hij|]. apply complete_failure_step; [apply Hij| |done]. by rewrite (ts_destroyed _ _ Hij).
Qed.

Lemma pending_open i index p : turn_ok i -> i_pending i !! index = Some p -> i_destroyed i = false.
Proof.
  intros Hi Hp. apply not_true_iff_false. intros Hx. destruct (ok_destroyed i Hi Hx) as (He & _). by rewrite He in Hp.
Qed.

Lemma input_stun_step c i packet now tx :
  wf_bytes packet -> turn_ok i -> exists s j, input_stun c i packet now tx = Ok (s, j) /\ turn_step i j.
Proof.
  intros Hw Hi.
  assert (Hsame : forall s, exists s' j, @mret (result string) _ (Z * Inner) (s, i) = Ok (s', j) /\ turn_step i j).
  { intros s. eexists _, _. split; [done|]. by apply turn_step_refl. }
  unfold input_stun. destruct (Message_decode_inv packet Hw) as [Hsafe _].
  destruct (Message_decode packet) as [m|e|] eqn:Hm; [|apply Hsame|done]. clear Hsafe. destruct (negb _) eqn:Hclass; [apply Hsame|].
  destruct (@fingerprint_total string _ _ Hw Hm _) as (fp & ->). cbn [mbind result_bind]. destruct (bool_decide (fp = _)); [apply Hsame|].
  destruct (list_find _ _) as [[index p]|] eqn:Hfind; [|apply Hsame].
  apply list_find_Some in Hfind as (Hp & _ & _). pose proof (pending_open i index p Hi Hp) as Hd.
  pose proof (Forall_lookup_1 _ _ _ _ (ok_pending i Hi) Hp) as Hpok. cbn zeta.
  destruct (@response_rejected_total string _ _ (pe_authenticated p) (key (i_auth i)) Hw Hm) as (rejected & ->).
  cbn [mbind result_bind]. destruct rejected.
  { destruct (decide _); [|apply Hsame]. destruct (@error_code_total string _ _ Hw Hm) as (code & ->). eexists _, _. split; [done|].
    destruct code; [by apply push_event_step|by apply turn_step_refl]. }
  pose proof (take_pending_step i index (ms_transaction m) Hi) as Ht.
  destruct (bool_decide _ && _) eqn:Hunauth.
  { eexists _, _. split; [done|]. eapply turn_step_trans; [exact Ht|]. apply complete_failure_step; [apply Ht|done|].
    by apply op_allowed_settles, Hpok. }
  destruct (decide (Message_class m = Error)) as [|Hne].
  { destruct (input_error_step c _ p m packet (Message_method m) now tx Hw Hm (ts_ok _ _ Ht) Hd (po_allowed _ _ _ Hpok)) as (s & j & -> & Hj).
    eexists _, _. split; [done|]. by eapply turn_step_trans. }
  assert (Ha : pe_authenticated p = true).
  { rewrite bool_decide_eq_false_2 with (P := Message_class m = Error) in Hclass by done.
    rewrite orb_false_r, negb_false_iff in Hclass. rewrite Hclass in Hunauth. by destruct (pe_authenticated p). }
  destruct (input_success_step c i p index m packet now tx Hw Hm Hi Hp Hd Ha) as (x & j & -> & Hj & Hfail). cbn [mbind result_bind].
  destruct x; (eexists _, _; split; [done|]); auto.
Qed.
End Responses.

(** ** Retransmission *)

Lemma destroy_allocation_pending i o s z : i_pending (destroy_allocation i o s z) = [].
Proof. unfold destroy_allocation. cbn zeta. destruct (decide _); apply set_state_frame. Qed.

Lemma complete_failure_pending i o s z now :
  i_pending (complete_failure i o s z now) = i_pending i \/ i_pending (complete_failure i o s z now) = [].
Proof.
  unfold complete_failure. destruct (_ && _ && _); [|right; apply destroy_allocation_pending].
  assert (Hp : i_pending (complete i o s z) = i_pending i) by apply push_event_frame.
  destruct (schedule_maintenance_retry _ _ _) as [[] j] eqn:E.
  - left. rewrite <- Hp. unfold schedule_maintenance_retry in E. destruct o; [by simplify_eq..|].
    destruct (_ <=? _) in E; by simplify_eq.
  - right. unfold destroy_after_channel_rebind_exhausted. cbn zeta.
    match goal with |- context [push_event ?x ?e] => etrans; [apply (set_state_frame (push_event x e))|]; apply (push_event_frame x e) end.
Qed.

Definition later (now : Z) (p : Pending) : Prop := now < pe_next_attempt p.

(** Dropping a request that has run out of attempts. *)
Definition drop_request (i : Inner) (index : nat) (p : Pending) (now : Z) : Inner :=
  complete_failure (remove_queued_transaction (set_i_pending i (delete index (i_pending i))) (pe_transaction p))
    (pe_operation p) RESULT_TIMEOUT 0 now.

Lemma drop_request_step i index p now :
  turn_ok i -> i_pending i !! index = Some p -> turn_step i (drop_request i index p now).
Proof.
  intros Hi Hp. pose proof (Forall_lookup_1 _ _ _ _ (ok_pending i Hi) Hp) as Hpok.
  pose proof (take_pending_step i index (pe_transaction p) Hi) as Ht.
  eapply turn_step_trans; [exact Ht|]. apply complete_failure_step; [apply Ht|by apply (pending_open i index p)|].
  by apply op_allowed_settles, Hpok.
Qed.

(** One more transmission. *)
Definition resend_request (c : Setup) (i : Inner) (index : nat) (p : Pending) (now : Z) : Inner :=
  let rto := Z.min (pe_rto p * 2) MAX_RTO in
  set_i_pending (queue_packet c i (pe_packet p))
    (<[index := mkPending (pe_operation p) (pe_transaction p) (pe_packet p) (now + rto) rto
                  (pe_transmissions p + 1) (pe_nonce_retries p) (pe_authenticated p)]> (i_pending (queue_packet c i (pe_packet p)))).

Lemma resend_request_step c i index p now :
  turn_ok i -> i_pending i !! index = Some p -> pe_transmissions p < MAX_TRANSMISSIONS ->
  turn_step i (resend_request c i index p now).
Proof.
  intros Hi Hp Hm. pose proof (Forall_lookup_1 _ _ _ _ (ok_pending i Hi) Hp) as [Ho Hs Ha Ht Hr].
  pose proof (pending_open i index p Hi Hp) as Hd. pose proof (queue_packet_step c i (pe_packet p) Hi Hd) as [Hq Hq2 Hq3].
  pose proof (queue_packet_frame c i (pe_packet p)) as Hf. unframe Hf. split; [|done|done]. unfold resend_request.
  revert Hq Hq2 Hq3 fr fr0 fr1 fr2 fr3 fr4 fr5 fr6 fr7. generalize (queue_packet c i (pe_packet p)) as q. intros. destruct Hq.
  split; cbn [set_i_pending i_controls i_events i_auth i_state i_relay i_channel i_pending i_timers i_destroyed]; try done.
  - rewrite list_fmap_insert. cbn [pe_operation]. rewrite fr3 in *. rewrite list_insert_id; [done|]. by rewrite list_lookup_fmap, Hp.
  - apply Forall_insert; [done|]. rewrite fr, fr0. split; cbn; try done; unfold INITIAL_RTO, MAX_RTO, millis in *; lia.
  - rewrite fr7, Hd. done.
Qed.

Lemma expire_loop_step fuel c i index now :
  turn_ok i -> turn_step i (expire_loop fuel c i index now).
Proof.
  revert i index. induction fuel as [|fuel IH]; intros i index Hi; [by apply turn_step_refl|]. cbn [expire_loop].
  destruct (i_pending i !! index) as [p|] eqn:Hp; [|by apply turn_step_refl]. destruct (now <? _); [by apply IH|].
  pose proof (drop_request_step i index p now Hi Hp) as Hdrop.
  destruct (MAX_TRANSMISSIONS <=? _) eqn:E; bool_prop; [eapply turn_step_trans; [exact Hdrop|]; apply IH, Hdrop|].
  destruct (decide _); [eapply turn_step_trans; [exact Hdrop|]; apply IH, Hdrop|].
  pose proof (resend_request_step c i index p now Hi Hp E) as Hre. eapply turn_step_trans; [exact Hre|]. apply IH, Hre.
Qed.

Lemma expire_loop_later fuel c i index now :
  turn_ok i -> (length (i_pending i) <= index + fuel)%nat -> Forall (later now) (take index (i_pending i)) ->
  Forall (later now) (i_pending (expire_loop fuel c i index now)).
Proof.
  revert i index. induction fuel as [|fuel IH]; intros i index Hi Hl Hf; cbn [expire_loop].
  { rewrite take_ge in Hf by lia. done. }
  destruct (i_pending i !! index) as [p|] eqn:Hp.
  2: { apply lookup_ge_None in Hp. by rewrite take_ge in Hf by lia. }
  destruct (now <? _) eqn:E0; bool_prop.
  { apply IH; [done|lia|]. rewrite (take_S_r _ _ p Hp). apply Forall_app. split; [done|]. by apply Forall_singleton. }
  pose proof (drop_request_step i index p now Hi Hp) as Hdrop.
  assert (Hd : Forall (later now) (i_pending (expire_loop fuel c (drop_request i index p now) index now))).
  { pose proof (lookup_lt_Some _ _ _ Hp). apply IH; [apply Hdrop| |];
      destruct (complete_failure_pending (remove_queued_transaction (set_i_pending i (delete index (i_pending i))) (pe_transaction p))
                  (pe_operation p) RESULT_TIMEOUT 0 now) as [H1|H1]; unfold drop_request; rewrite H1; cbn; try (by rewrite ?take_nil; (lia || constructor)).
    - rewrite length_delete by done. lia.
    - rewrite delete_take_drop, take_app_le by (rewrite length_take; lia). by rewrite take_take, Nat.min_id. }
  destruct (MAX_TRANSMISSIONS <=? _) eqn:E; bool_prop; [exact Hd|]. destruct (decide _); [exact Hd|].
  pose proof (resend_request_step c i index p now Hi Hp E) as Hre. apply (IH (resend_request c i index p now)); [apply Hre| |].
  - unfold resend_request. cbn [set_i_pending i_pending]. rewrite length_insert. pose proof (queue_packet_frame c i (pe_packet p)) as Hfr.
    unframe Hfr. rewrite fr3. lia.
  - pose proof (queue_packet_frame c i (pe_packet p)) as Hfr. unframe Hfr. unfold resend_request. cbn zeta. cbn [set_i_pending i_pending]. rewrite fr3.
    pose proof (lookup_lt_Some _ _ _ Hp).
    erewrite take_S_r by (apply list_lookup_insert_eq; lia). rewrite take_insert_ge by lia. apply Forall_app. split; [done|].
    apply Forall_singleton. unfold later. cbn. pose proof (Forall_lookup_1 _ _ _ _ (ok_pending i Hi) Hp) as [_ _ _ _ Hr].
    unfold INITIAL_RTO, MAX_RTO, millis in *. lia.
Qed.

(** ** Every call *)

Section Calls.
Context `{StunHash}.

(** A call returns without a panic and keeps the invariant. *)
Definition call_ok {A} (i : Inner) (r : result string A * Inner) : Prop := safe r.1 /\ turn_step i r.2.

Lemma call_same {A} i (r : result string A) : turn_ok i -> safe r -> call_ok i (r, i).
Proof. intros Hi Hr. split; [done|by apply turn_step_refl]. Qed.

(** Ending a call by starting a request. *)
Lemma started_ok c i i0 o authenticated tx now :
  turn_step i0 i -> i_destroyed i = false -> op_allowed (i_state i) o = true -> (o <> Allocate -> authenticated = true) ->
  call_ok i0 (match start_operation c i o authenticated 0 tx now with
              | Ok i => (Ok tt, i) | Err e => (Err e, i) | Panic => (Panic, i) end).
Proof.
  intros Hi Hd Ho Ha. pose proof (start_operation_safe c i o authenticated 0 tx now) as Hs.
  destruct (start_operation _ _ _ _ _ _ _) as [j|e|] eqn:E; [| |done]; (split; [done|]); cbn; [|done].
  eapply turn_step_trans; [exact Hi|]. by eapply start_operation_step; [apply Hi|..].
Qed.

Lemma start_allocation_ok c i tx now : turn_ok i -> call_ok i (start_allocation c i tx now).
Proof.
  intros Hi. unfold start_allocation, require_open. destruct (_ || _) eqn:Ho; [by apply call_same|]. apply orb_false_iff in Ho as [Hd _].
  destruct (decide _) as [Hs|]; [|by apply call_same].
  assert (Hp : i_pending i = []).
  { pose proof (ok_pending i Hi) as Hf. rewrite Hs in Hf. destruct (i_pending i) as [|p l]; [done|]. by apply Forall_cons in Hf as [[] _]. }
  pose proof (set_state_frame i StAllocating) as Hf. cbn zeta in Hf. unframe Hf.
  apply started_ok; [|by rewrite fr7|by rewrite fr0|done]. apply set_state_step; try done.
  - apply eq_None_not_Some. intros Hx. destruct (ok_channel i Hi Hx); congruence.
  - rewrite Hs. by apply rtc_once.
  - by rewrite Hd.
Qed.

Lemma start_ready_ok o c i tx now : op_allowed StReady o = true -> turn_ok i -> call_ok i (start_ready o c i tx now).
Proof.
  intros Hop Hi. unfold start_ready, require_ready, require_open. destruct (_ || _) eqn:Ho; [by apply call_same|].
  apply orb_false_iff in Ho as [Hd _]. cbn [mbind result_bind]. destruct (decide _) as [Hs|]; [|by apply call_same].
  apply started_ok; [by apply turn_step_refl|done|by rewrite Hs|done].
Qed.

Lemma start_operation_state c i o authenticated retries tx now j :
  start_operation c i o authenticated retries tx now = Ok j -> i_state j = i_state i.
Proof.
  unfold start_operation. destruct (has_operation i o).
  { intros Hj. apply ok_inj in Hj. subst j. destruct (decide _); [|done]. destruct (list_find _ _) as [[? ?]|]; [|done]. apply queue_packet_frame. }
  destruct (_ && _); [done|]. intros Hb. apply bind_ok in Hb as (packet & _ & Hj). apply ok_inj in Hj. subst j.
  apply (queue_packet_frame c i packet).
Qed.

(** A maintenance request of [poll] that may or may not be started. *)
Lemma poll_start_ok (b : bool) c i i0 o t tx now :
  turn_step i0 i -> i_destroyed i = false -> i_state i = StReady -> op_allowed StReady o = true ->
  t_allocation_expires_at t = t_allocation_expires_at (i_timers i) ->
  exists r j, (if b then poll_start c (set_i_timers i t) o tx now else (Ok tt, i)) = (r, j) /\ safe r /\ turn_step i0 j
    /\ i_destroyed j = false /\ i_state j = StReady.
Proof.
  intros Hi Hd Hs Ho Ht. destruct b; [|by exists (Ok tt), i].
  assert (Hk : turn_step i0 (set_i_timers i t)).
  { eapply turn_step_trans; [exact Hi|]. split; [by apply (turn_ok_timers i t (i_failures i)), Ht; apply Hi|done|done]. }
  pose proof (started_ok c (set_i_timers i t) i0 o true tx now Hk Hd) as Hst. cbn [set_i_timers i_state] in Hst. rewrite Hs in Hst.
  specialize (Hst Ho (fun _ => eq_refl)). unfold poll_start.
  assert (Hj : i_state (match start_operation c (set_i_timers i t) o true 0 tx now with
    | Ok i => (@Ok string _ tt, i) | Err e => (Err e, set_i_timers i t) | Panic => (Panic, set_i_timers i t) end).2 = StReady).
  { destruct (start_operation _ _ _ _ _ _ _) eqn:E; cbn [snd]; [|done|done]. by rewrite (start_operation_state _ _ _ _ _ _ _ _ E). }
  destruct (match start_operation _ _ _ _ _ _ _ with Ok _ => _ | Err _ => _ | Panic => _ end) as [r j]. destruct Hst as [Hr Hj'].
  exists r, j. split_and!; try done. cbn in Hj'. rewrite (ts_destroyed _ _ Hj'). rewrite <- (ts_destroyed _ _ Hi). done.
Qed.

Lemma retime_step i0 i t :
  turn_step i0 i -> t_allocation_expires_at t = t_allocation_expires_at (i_timers i) -> turn_step i0 (set_i_timers i t).
Proof. intros Hi Ht. eapply turn_step_trans; [exact Hi|]. split; [by apply (turn_ok_timers i t (i_failures i)), Ht; apply Hi|done|done]. Qed.

Lemma queue_keepalive_step c i : turn_ok i -> i_destroyed i = false -> turn_step i (queue_keepalive c i).
Proof. intros Hi Hd. unfold queue_keepalive. destruct (i_channel i); [by apply queue_packet_step|by apply turn_step_refl]. Qed.

Lemma poll_maintenance_ok c i now tx1 tx2 tx3 :
  turn_ok i -> i_destroyed i = false -> i_state i = StReady -> call_ok i (poll_maintenance c i now tx1 tx2 tx3).
Proof.
  intros Hi Hd Hs. unfold poll_maintenance. cbn zeta.
  edestruct poll_start_ok with (i := i) (i0 := i) as (r1 & i1 & -> & Hr1 & H1 & Hd1 & Hs1); [by apply turn_step_refl|done|done|done|done|].
  destruct r1; [|by split|done].
  match goal with |- context [has_operation ?x Permission] => set (i2 := x) end.
  assert (H2 : turn_step i i2 /\ i_destroyed i2 = false /\ i_state i2 = StReady).
  { unfold i2. destruct (due now _); [|done]. split; [by apply retime_step|done]. }
  destruct H2 as (H2 & Hd2 & Hs2).
  edestruct poll_start_ok with (i := i2) (i0 := i) as (r3 & i3 & -> & Hr3 & H3 & Hd3 & Hs3); [done|done|done|done| |]; [done|].
  destruct r3; [|by split|done].
  edestruct poll_start_ok with (i := i3) (i0 := i) as (r4 & i4 & -> & Hr4 & H4 & Hd4 & Hs4); [done|done|done|done| |]; [done|].
  destruct r4; [|by split|done]. destruct (due now (t_keepalive _)); [|by split]. split; [done|]. cbn [snd].
  match goal with |- context [set_i_timers i4 ?t] => assert (H5 : turn_step i (set_i_timers i4 t)) by by apply retime_step end.
  destruct (_ || _); [done|]. eapply turn_step_trans; [exact H5|]. apply queue_keepalive_step; [apply H5|done].
Qed.

Lemma poll_ok c i now tx1 tx2 tx3 : turn_ok i -> call_ok i (poll c i now tx1 tx2 tx3).
Proof.
  intros Hi. unfold poll. destruct (i_destroyed i) eqn:Hd; [by apply call_same|]. cbn zeta.
  pose proof (expire_loop_step (length (i_pending i)) c i 0 now Hi) as H1. fold (expire_transactions c i now) in H1.
  set (i1 := expire_transactions c i now) in *.
  match goal with |- context [if ?b then destroy_allocation i1 Refresh _ _ else i1] =>
    assert (H2 : turn_step i (if b then destroy_allocation i1 Refresh RESULT_TIMEOUT 0 else i1)) end.
  { destruct (_ && _); [|done]. eapply turn_step_trans; [exact H1|]. apply destroy_allocation_step; [apply H1| |apply to_destroying].
    by rewrite (ts_destroyed _ _ H1). }
  match goal with |- context [if ?b then destroy_allocation i1 Refresh _ _ else i1] =>
    set (i2 := if b then destroy_allocation i1 Refresh RESULT_TIMEOUT 0 else i1) in * end.
  assert (H3 : call_ok i (if negb (i_shutting_down i2) && bool_decide (i_state i2 = StReady)
    then poll_maintenance c i2 now tx1 tx2 tx3 else (Ok tt, i2))).
  { destruct (negb (i_shutting_down i2) && _) eqn:E; [|split; [discriminate|exact H2]]. apply andb_true_iff in E as [_ E]. rewrite bool_decide_eq_true in E.
    destruct (poll_maintenance_ok c i2 now tx1 tx2 tx3) as [H3 H4]; [apply H2|by rewrite (ts_destroyed _ _ H2)|done|].
    split; [done|]. by eapply turn_step_trans. }
  destruct (if negb (i_shutting_down i2) && _ then _ else _) as [r j]. destruct H3 as [H3 H4]. destruct r; [by split|by split|done].
Qed.

Lemma pull_control_ok i : turn_ok i -> call_ok i (pull_control i).
Proof.
  intros Hi. unfold pull_control. destruct (i_controls i) as [|k l] eqn:E; [by apply call_same|].
  assert (Hs : turn_step i (set_i_controls i l)).
  { destruct Hi. split; [|done|done]. split; cbn; try done.
    - rewrite E in ok_controls0. unfold len in *. cbn in ok_controls0. lia.
    - intros Hd. destruct (ok_destroyed0 Hd) as (_ & ? & _). congruence. }
  by destruct (_ <? _); split.
Qed.

Lemma pull_event_step i : turn_ok i -> turn_step i (pull_event i).2.
Proof.
  intros Hi. unfold pull_event. destruct (i_events i) as [|e l] eqn:E; [by apply turn_step_refl|].
  destruct Hi. split; [|done|done]. split; cbn; try done. rewrite E in ok_events0. unfold len in *. cbn in ok_events0. lia.
Qed.

Lemma graceful_shutdown_ok c i tx now : turn_ok i -> call_ok i (graceful_shutdown c i tx now).
Proof.
  intros Hi. unfold graceful_shutdown. destruct (_ || _) eqn:Ho; [by apply call_same|]. apply orb_false_iff in Ho as [Hd _]. cbn zeta.
  match goal with |- context [set_i_pending ?x []] => set (i1 := x) end.
  assert (H1 : turn_step i i1).
  { destruct Hi. split; [|done|done]. split; cbn; try done; by rewrite Hd. }
  assert (H2 : turn_step i (set_i_pending i1 [])).
  { eapply turn_step_trans; [exact H1|]. destruct H1 as [[] _ _]. split; [|done|done]. split; cbn; try done; [apply NoDup_nil_2|by rewrite Hd]. }
  destruct (bool_decide (i_state i1 = StReady) || _) eqn:E; [|destruct (negb (bool_decide (i_state i1 = StAllocating))); (split; [discriminate|assumption])].
  pose proof (set_state_frame (set_i_pending i1 []) StDeallocating) as Hf. cbn zeta in Hf. unframe Hf.
  apply started_ok; [|by rewrite fr7|by rewrite fr0|done]. eapply turn_step_trans; [exact H2|].
  apply set_state_step; try done; [apply H2| |cbn; by rewrite Hd]. cbn [set_i_pending i_state].
  apply orb_true_iff in E as [E|E]; [|apply andb_true_iff in E as [E _]]; rewrite bool_decide_eq_true in E; rewrite E; by apply rtc_once.
Qed.

Lemma force_destroy_ok i s :
  turn_ok i -> turn_ok (force_destroy i s) /\ rtc state_edge (i_state i) (i_state (force_destroy i s)).
Proof.
  intros Hi. unfold force_destroy. destruct (i_destroyed i) eqn:Hd; [done|]. cbn zeta.
  set (i1 := set_i_pending _ _). set (e := mkEvent EventForcedDestroy _ _ _ _ _ _ _ _).
  pose proof (set_state_frame i1 StDestroying) as Hf. cbn zeta in Hf. unframe Hf.
  destruct (set_state_queues i1 StDestroying (ok_events i Hi)) as [Hq1 Hq2].
  split; [|by rewrite (proj1 (proj2 (proj1 (push_event_frame _ e)))), fr0; apply to_destroying].
  apply push_event_ok. destruct Hi. split; rewrite ?Hq1, ?fr, ?fr0, ?fr1, ?fr2, ?fr3, ?fr4, ?fr7; cbn; try done; [apply NoDup_nil_2|by right].
Qed.

(** The calls an owner makes, with the clock and the random identifiers. *)
Inductive Call :=
| CallAllocate (tx : bytes) (now : Z) | CallChannel (tx : bytes) (now : Z) | CallPermission (tx : bytes) (now : Z)
| CallInput (packet tx : bytes) (now : Z) | CallPoll (now : Z) (tx1 tx2 tx3 : bytes)
| CallPullControl | CallPullEvent | CallShutdown (tx : bytes) (now : Z) | CallForce (status : Z).

(** The state a call leaves, [None] for a panic. *)
Definition after {A} (r : result string A * Inner) : option Inner := match r with (Panic, _) => None | (_, i) => Some i end.

Definition run_call (c : Setup) (i : Inner) (call : Call) : option Inner :=
  match call with
  | CallAllocate tx now => after (start_allocation c i tx now)
  | CallChannel tx now => after (start_channel c i tx now)
  | CallPermission tx now => after (start_permission c i tx now)
  | CallInput packet tx now => match input_stun c i packet now tx with Ok (_, i) => Some i | Err _ => Some i | Panic => None end
  | CallPoll now tx1 tx2 tx3 => after (poll c i now tx1 tx2 tx3)
  | CallPullControl => after (pull_control i)
  | CallPullEvent => Some (pull_event i).2
  | CallShutdown tx now => after (graceful_shutdown c i tx now)
  | CallForce status => Some (force_destroy i status)
  end.
Definition run_calls (c : Setup) (i : Inner) (calls : list Call) : option Inner := foldl (fun o call => o ≫= fun i => run_call c i call) (Some i) calls.

Definition wf_call (call : Call) : Prop := match call with CallInput packet _ _ => wf_bytes packet | _ => True end.

Lemma after_ok {A} i (r : result string A * Inner) :
  call_ok i r -> exists j, after r = Some j /\ turn_ok j /\ rtc state_edge (i_state i) (i_state j).
Proof. destruct r as [[] j]; intros [H1 [H2 H3 _]]; cbn in *; [by exists j|by exists j|done]. Qed.

Lemma run_call_ok c i call : wf_call call -> turn_ok i ->
  exists j, run_call c i call = Some j /\ turn_ok j /\ rtc state_edge (i_state i) (i_state j).
Proof.
  intros Hw Hi. destruct call; cbn [run_call].
  - by apply after_ok, start_allocation_ok.
  - by apply after_ok, start_ready_ok.
  - by apply after_ok, start_ready_ok.
  - destruct (input_stun_step c i packet now tx Hw Hi) as (s & j & -> & [H1 H2 _]). by exists j.
  - by apply after_ok, poll_ok.
  - by apply after_ok, pull_control_ok.
  - pose proof (pull_event_step i Hi) as [H1 H2 _]. by eexists.
  - by apply after_ok, graceful_shutdown_ok.
  - eexists. split; [done|]. by apply force_destroy_ok.
Qed.

Lemma run_calls_ok c i calls : Forall wf_call calls -> turn_ok i ->
  exists j, run_calls c i calls = Some j /\ turn_ok j /\ rtc state_edge (i_state i) (i_state j).
Proof.
  revert i. induction calls as [|call calls IH]; intros i Hw Hi; [by exists i|]. apply Forall_cons in Hw as [Hw Hws].
  destruct (run_call_ok c i call Hw Hi) as (j & Hj & Hjok & Hrt). destruct (IH j Hws Hjok) as (k & Hk & Hkok & Hrt').
  exists k. unfold run_calls in *. cbn [foldl mbind option_bind]. rewrite Hj. split_and!; [done|done|by etrans].
Qed.

(** How far a client is: new, allocating, ready, giving up. *)
Definition stage (s : State) : Z := match s with StNull => 0 | StAllocating => 1 | StReady => 2 | StDeallocating | StDeallocated | StDestroying => 3 end.
Lemma edges_stage s s' : rtc state_edge s s' -> stage s <= stage s'.
Proof. induction 1 as [|x y z Hxy _ IH]; [done|]. etransitivity; [|exact IH]. destruct x, y; cbn in *; done || lia. Qed.

Lemma create_ok server peer user pass profile transport c i :
  NativeCore_create server peer user pass profile transport = Ok (c, i) -> turn_ok i /\ i_state i = StNull.
Proof.
  unfold NativeCore_create. destruct (_ || _); [done|]. destruct (_ || _); [done|]. intros [= <- <-]. split; [|done].
  split; cbn; try done; [apply NoDup_nil_2|..]; by intros [? ?].
Qed.

(** C36. From creation on, whatever calls the owner makes and whatever datagrams
    arrive, no call panics and the client keeps its invariant: at most sixteen
    packets and sixty-four events wait; at most one request of each kind is
    outstanding and only those the state allows (Allocate while allocating;
    Refresh, CreatePermission and ChannelBind while ready; the final Refresh
    while deallocating), each sent at most seven times and, once signed, with
    credentials at hand; a ready client has a relay, an expiry time and
    credentials; a channel is bound in the ready state only; a destroyed client
    has nothing outstanding or queued.  Each call moves the state, from what it
    was, along the edges of the protocol: a client becomes ready at most once,
    never goes back from ready to new or allocating, and one that has begun to
    give up its allocation never becomes ready again. *)
Theorem turn_client_invariant server peer user pass profile transport c i0 calls :
  NativeCore_create server peer user pass profile transport = Ok (c, i0) -> Forall wf_call calls ->
  exists i, run_calls c i0 calls = Some i /\ turn_ok i
    /\ forall call, wf_call call -> exists i', run_call c i call = Some i' /\ turn_ok i'
       /\ rtc state_edge (i_state i) (i_state i') /\ stage (i_state i) <= stage (i_state i').
Proof.
  intros Hc Hw. apply create_ok in Hc as [H0 Hs]. destruct (run_calls_ok c i0 calls Hw H0) as (i & Hi & Hok & _).
  exists i. split_and!; try done. intros call Hw'. destruct (run_call_ok c i call Hw' Hok) as (i' & Hi' & Hok' & Hrt).
  exists i'. split_and!; try done. by apply edges_stage.
Qed.

(** ** Nothing is gained without a signature *)

(** The relay, the channel and the expiry time are as before or gone, and the
    client did not become ready. *)
Record no_gain (i j : Inner) : Prop := {
  ng_relay : i_relay j = i_relay i \/ i_relay j = None;
  ng_channel : i_channel j = i_channel i \/ i_channel j = None;
  ng_expires : t_allocation_expires_at (i_timers j) = t_allocation_expires_at (i_timers i)
               \/ t_allocation_expires_at (i_timers j) = None;
  ng_state : i_state j = StReady -> i_state i = StReady;
}.

#[global] Instance no_gain_preorder : PreOrder no_gain.
Proof.
  split; [intros i; split; auto|]. intros i j k [] []. split; intuition congruence.
Qed.

Lemma frame_no_gain i j : frame i j -> no_gain i j.
Proof. intros Hf. unframe Hf. split; rewrite ?fr0, ?fr1, ?fr2, ?fr4; auto. Qed.

Lemma set_state_no_gain i s : s <> StReady -> no_gain i (set_state i s).
Proof.
  intros Hs. pose proof (set_state_frame i s) as Hf. cbn zeta in Hf. unframe Hf. split; rewrite ?fr0, ?fr1, ?fr2, ?fr4; auto. done.
Qed.

Lemma destroy_allocation_no_gain i o s z : no_gain i (destroy_allocation i o s z).
Proof.
  etrans; [apply frame_no_gain, (push_event_frame i)|]. unfold destroy_allocation, complete. cbn zeta.
  destruct (decide _); (etrans; [|by apply set_state_no_gain]); by split; auto.
Qed.

Lemma complete_failure_no_gain i o s z now : no_gain i (complete_failure i o s z now).
Proof.
  unfold complete_failure. destruct (_ && _ && _); [|apply destroy_allocation_no_gain].
  assert (Hk : no_gain i (complete i o s z)) by apply frame_no_gain, push_event_frame.
  revert Hk. generalize (complete i o s z) as k. intros k Hk. etrans; [exact Hk|].
  destruct (schedule_maintenance_retry k o now) as [b j] eqn:E.
  assert (Hj : no_gain k j).
  { unfold schedule_maintenance_retry in E. destruct o; simplify_eq; try done; [by split; auto..|]. destruct (_ <=? _) in E; simplify_eq; by split; auto. }
  destruct b; [done|]. etrans; [exact Hj|]. unfold destroy_after_channel_rebind_exhausted. cbn zeta.
  etrans; [|by apply set_state_no_gain]. etrans; [|apply frame_no_gain, push_event_frame]. by split; auto.
Qed.

Lemma start_operation_no_gain c i o authenticated retries tx now j :
  start_operation c i o authenticated retries tx now = Ok j -> no_gain i j.
Proof.
  unfold start_operation. destruct (has_operation i o).
  { intros Hj. apply ok_inj in Hj. subst j. destruct (decide _); [|done]. destruct (list_find _ _) as [[? ?]|]; [|done].
    apply frame_no_gain, queue_packet_frame. }
  destruct (_ && _); [done|]. intros Hb. apply bind_ok in Hb as (packet & _ & Hj). apply ok_inj in Hj. subst j.
  destruct (frame_no_gain _ _ (queue_packet_frame c i packet)). by split.
Qed.

Lemma input_error_no_gain c i p m method now tx s j : input_error c i p m method now tx = Ok (s, j) -> no_gain i j.
Proof.
  assert (Hfail : forall i' e o s z, no_gain i i' -> no_gain i (complete_failure (push_event i' e) o s z now)).
  { intros i' e o s' z Hi. etrans; [exact Hi|]. etrans; [|apply complete_failure_no_gain]. apply frame_no_gain, push_event_frame. }
  intros Hin. unfold input_error in Hin. apply bind_ok in Hin as (found & _ & Hin). destruct (_ =? 0) in Hin.
  { apply ok_inj in Hin. injection Hin as _ <-. by apply Hfail. }
  destruct (requires_allocation_recreate _ _).
  { apply ok_inj in Hin. injection Hin as _ <-. etrans; [|apply destroy_allocation_no_gain]. apply frame_no_gain, push_event_frame. }
  apply bind_ok in Hin as (ra & _ & Hin). apply bind_ok in Hin as (na & _ & Hin). cbn zeta in Hin.
  destruct (_ && _) in Hin; [|apply ok_inj in Hin; injection Hin as _ <-; by apply Hfail].
  destruct (match ra with Some _ => _ | None => _ end) as [r|]; [|apply ok_inj in Hin; injection Hin as _ <-; by apply Hfail].
  destruct (at_value <$> na) as [n|]; [|apply ok_inj in Hin; injection Hin as _ <-; by apply Hfail].
  assert (Ha : no_gain i (set_auth c i r n)) by (split; auto).
  destruct (start_operation _ _ _ _ _ _ _) as [j'|e|] eqn:E in Hin; [| |done]; apply ok_inj in Hin; injection Hin as _ <-.
  - etrans; [exact Ha|]. by eapply start_operation_no_gain.
  - by apply Hfail.
Qed.

(** The packet is a signed success response to one of the outstanding requests. *)
Definition signed_success (i : Inner) (packet : bytes) : Prop :=
  exists m p, Message_decode packet = Ok m /\ Message_class m = Success /\ p ∈ i_pending i
    /\ pe_transaction p = ms_transaction m /\ Operation_method (pe_operation p) = Message_method m
    /\ pe_authenticated p = true /\ @verify_integrity _ string packet m (key (i_auth i)) = Ok true.

(** C37. A datagram gives the client a relay, a bound channel, a later expiry
    time or the ready state only if it is a success response to an outstanding
    request whose message integrity verifies under the client's current key;
    whatever else arrives leaves them as they are or takes them away. *)
Theorem turn_input_authentic c i packet now tx s j :
  input_stun c i packet now tx = Ok (s, j) -> signed_success i packet \/ no_gain i j.
Proof.
  unfold input_stun. destruct (Message_decode packet) as [m|e|] eqn:Hm; [| |done].
  2: { intros Hin. apply ok_inj in Hin. injection Hin as _ <-. by right. }
  destruct (negb _) eqn:Hclass. { intros Hin. apply ok_inj in Hin. injection Hin as _ <-. by right. }
  intros Hin. apply bind_ok in Hin as (fp & _ & Hin). destruct (bool_decide (fp = _)).
  { apply ok_inj in Hin. injection Hin as _ <-. by right. }
  destruct (list_find _ _) as [[index p]|] eqn:Hfind.
  2: { apply ok_inj in Hin. injection Hin as _ <-. by right. }
  apply list_find_Some in Hfind as (Hp & [Htx Hmeth] & _). cbn zeta in Hin. apply bind_ok in Hin as (rejected & Hrej & Hin).
  destruct rejected.
  { apply bind_ok in Hin as (code & _ & Hin). apply ok_inj in Hin. injection Hin as _ <-. right.
    destruct code; [|done]. apply frame_no_gain, push_event_frame. }
  set (i1 := remove_queued_transaction _ _) in Hin. assert (Hi1 : no_gain i i1) by (by split; auto).
  destruct (bool_decide _ && _) eqn:Hunauth.
  { apply ok_inj in Hin. injection Hin as _ <-. right. etrans; [exact Hi1|]. apply complete_failure_no_gain. }
  destruct (decide (Message_class m = Error)) as [|Hne].
  { right. etrans; [exact Hi1|]. by eapply input_error_no_gain. }
  left. rewrite (bool_decide_eq_false_2 (Message_class m = Error)) in Hclass by done.
  rewrite orb_false_r, negb_false_iff in Hclass. rewrite Hclass in Hunauth. rewrite bool_decide_eq_true in Hclass.
  assert (Ha : pe_authenticated p = true) by (by destruct (pe_authenticated p)). rewrite Ha in Hrej.
  exists m, p. split_and!; try done; [by eapply list_elem_of_lookup_2|by apply not_rejected_signed].
Qed.

(** ** The retransmission schedule *)

(** A request after one more transmission. *)
Definition resent (now : Z) (p : Pending) : Pending :=
  let rto := Z.min (pe_rto p * 2) MAX_RTO in
  mkPending (pe_operation p) (pe_transaction p) (pe_packet p) (now + rto) rto (pe_transmissions p + 1) (pe_nonce_retries p) (pe_authenticated p).

(** What [q] can be once the requests [l] have been looked at. *)
Definition expired_from (c : Setup) (l : list Pending) (now : Z) (q : Pending) : Prop :=
  q ∈ l \/ exists p, p ∈ l /\ su_transport c = Datagram /\ pe_next_attempt p <= now /\ pe_transmissions p < MAX_TRANSMISSIONS /\ q = resent now p.

Lemma expire_loop_from fuel c i index now l :
  Forall (expired_from c l now) (take index (i_pending i)) -> Forall (fun q => q ∈ l) (drop index (i_pending i)) ->
  Forall (expired_from c l now) (i_pending (expire_loop fuel c i index now)).
Proof.
  assert (Hall : forall i index, Forall (expired_from c l now) (take index (i_pending i)) -> Forall (fun q => q ∈ l) (drop index (i_pending i)) ->
    Forall (expired_from c l now) (i_pending i)).
  { intros i' k H1 H2. rewrite <- (take_drop k (i_pending i')). apply Forall_app. split; [done|].
    eapply Forall_impl; [exact H2|]. intros q Hq. by left. }
  revert i index. induction fuel as [|fuel IH]; intros i index H1 H2; cbn [expire_loop]; [by eapply Hall|].
  destruct (i_pending i !! index) as [p|] eqn:Hp; [|by eapply Hall].
  rewrite (drop_S _ _ _ Hp) in H2. apply Forall_cons in H2 as [Hpl H2]. pose proof (lookup_lt_Some _ _ _ Hp) as Hlt.
  destruct (now <? _) eqn:E0; bool_prop.
  { apply IH; [|done]. rewrite (take_S_r _ _ p Hp). apply Forall_app. split; [done|]. apply Forall_singleton. by left. }
  assert (Hd : Forall (expired_from c l now) (i_pending (expire_loop fuel c (drop_request i index p now) index now))).
  { apply IH;
      destruct (complete_failure_pending (remove_queued_transaction (set_i_pending i (delete index (i_pending i))) (pe_transaction p))
                  (pe_operation p) RESULT_TIMEOUT 0 now) as [E|E]; unfold drop_request; rewrite E; cbn [remove_queued_transaction set_i_controls set_i_pending i_pending];
      rewrite ?take_nil, ?drop_nil; try constructor; rewrite delete_take_drop.
    - rewrite take_app_le by (rewrite length_take; lia). by rewrite take_take, Nat.min_id.
    - rewrite drop_app_ge by (rewrite length_take; lia). rewrite length_take, Nat.min_l by lia. by rewrite Nat.sub_diag. }
  destruct (MAX_TRANSMISSIONS <=? _) eqn:E; bool_prop; [exact Hd|]. destruct (decide _) as [|Hst]; [exact Hd|].
  pose proof (queue_packet_frame c i (pe_packet p)) as Hfr. unframe Hfr.
  apply (IH (resend_request c i index p now)); unfold resend_request; cbn zeta; cbn [set_i_pending i_pending]; rewrite fr3.
  - erewrite take_S_r by (apply list_lookup_insert_eq; lia). rewrite take_insert_ge by lia. apply Forall_app. split; [done|].
    apply Forall_singleton. right. exists p. split_and!; try done. by destruct (su_transport c).
  - by rewrite drop_insert_lt by lia.
Qed.

(** Whatever the client has been through, looking at its outstanding
    requests ends with none of them due: over a datagram transport a due request
    is sent again with its waiting time doubled up to 1.6 seconds, at most six
    times, over a stream never, and every other due request is given up; a
    request that is not due is left alone. *)
Theorem turn_retransmission server peer user pass profile transport c i0 calls i now :
  NativeCore_create server peer user pass profile transport = Ok (c, i0) -> Forall wf_call calls -> run_calls c i0 calls = Some i ->
  Forall (later now) (i_pending (expire_transactions c i now))
  /\ Forall (expired_from c (i_pending i) now) (i_pending (expire_transactions c i now))
  /\ Forall (fun q => pe_transmissions q <= MAX_TRANSMISSIONS /\ pe_rto q <= MAX_RTO) (i_pending (expire_transactions c i now)).
Proof.
  intros Hc Hw Hrun. apply create_ok in Hc as [H0 _]. destruct (run_calls_ok c i0 calls Hw H0) as (i' & Hi & Hok & _).
  assert (i' = i) as -> by congruence. unfold expire_transactions. split_and!.
  - apply expire_loop_later; [done|lia|]. by rewrite take_0.
  - apply expire_loop_from; [by rewrite take_0|]. rewrite drop_0. by apply Forall_forall.
  - pose proof (expire_loop_step (length (i_pending i)) c i 0 now Hok) as [Hj _ _].
    eapply Forall_impl; [exact (ok_pending _ Hj)|]. intros q [_ _ _ Ht Hr]. lia.
Qed.
End Calls.

(** ** A run of the client *)

Module Demo.
Definition server : SocketAddr := mkSocketAddr (V4 [10; 0; 0; 1]) 3478.
Definition peer : SocketAddr := mkSocketAddr (V4 [10; 0; 0; 2]) 443.
Definition tx (n : Z) : bytes := replicate 12 n.
Definition start : option (Setup * Inner) := ok (NativeCore_create server peer (b_ "u") (b_ "p") PJNATH_COMPAT Datagram).
Definition setup : Setup := match start with Some (c, _) => c | None => mkSetup server peer [] [] PJNATH_COMPAT Datagram end.
Definition initial : Inner := match start with Some (_, i) => i | None => mkInner (mkAuth None None None) StNull None None [] [] [] (mkTimers None None None None None None) (mkFailures 0 0 0) false true end.

(** The server refuses the first Allocate with a realm and a nonce, and grants
    the second. *)
Definition challenge : bytes :=
  default [] (ok (mb_finish (mb_attribute (mb_attribute (mb_attribute (with_transaction 0x0113 (tx 1)) ATTR_ERROR_CODE [0; 0; 4; 1])
    ATTR_REALM (b_ "r")) ATTR_NONCE (b_ "n")))).
Definition session_key : bytes := md5 (b_ "u:r:p").
Definition grant : bytes :=
  default [] (ok (mb_finish_authenticated (mb_attribute (mb_xor_address (with_transaction 0x0103 (tx 2)) ATTR_XOR_RELAYED_ADDRESS
    (mkSocketAddr (V4 [10; 0; 0; 3]) 50000)) ATTR_LIFETIME (be_bytes 4 600)) session_key)).
Definition allocate : list Call := [CallAllocate (tx 1) 0; CallInput challenge (tx 2) 1; CallInput grant (tx 3) 2].

Lemma allocate_wf : Forall wf_call allocate.
Proof. repeat constructor; apply (bool_decide_unpack _); vm_compute; exact I. Qed.
End Demo.

Lemma turn_client_invariant_witness :
  exists i, run_calls Demo.setup Demo.initial Demo.allocate = Some i /\ turn_ok i /\ i_state i = StReady
    /\ i_relay i = Some (mkSocketAddr (V4 [10; 0; 0; 3]) 50000).
Proof.
  destruct (turn_client_invariant Demo.server Demo.peer (b_ "u") (b_ "p") PJNATH_COMPAT Datagram Demo.setup Demo.initial Demo.allocate
    eq_refl Demo.allocate_wf) as (i & Hi & Hok & _). exists i. split_and!; [exact Hi|exact Hok| |].
  - assert (Hs : i_state <$> run_calls Demo.setup Demo.initial Demo.allocate = Some StReady) by (vm_compute; reflexivity).
    rewrite Hi in Hs. cbn in Hs. congruence.
  - assert (Hs : i_relay <$> run_calls Demo.setup Demo.initial Demo.allocate = Some (Some (mkSocketAddr (V4 [10; 0; 0; 3]) 50000)))
      by (vm_compute; reflexivity).
    rewrite Hi in Hs. cbn in Hs. congruence.
Defined.

Lemma turn_input_authentic_witness :
  let waiting := default Demo.initial (run_calls Demo.setup Demo.initial (take 2 Demo.allocate)) in
  let granted := match input_stun Demo.setup waiting Demo.grant 2 (Demo.tx 3) with Ok (_, j) => j | _ => waiting end in
  i_state waiting = StAllocating /\ i_state granted = StReady /\ signed_success waiting Demo.grant.
Proof.
  intros waiting granted.
  assert (H1 : i_state waiting = StAllocating) by (vm_compute; reflexivity).
  assert (H2 : i_state granted = StReady) by (vm_compute; reflexivity). split_and!; [exact H1|exact H2|].
  assert (H3 : input_stun Demo.setup waiting Demo.grant 2 (Demo.tx 3) = Ok (0, granted)) by (vm_compute; reflexivity).
  destruct (turn_input_authentic Demo.setup waiting Demo.grant 2 (Demo.tx 3) 0 granted H3) as [H4|[_ _ _ H4]]; [exact H4|].
  specialize (H4 H2). congruence.
Defined.

Lemma turn_retransmission_witness :
  let calls := [CallAllocate (Demo.tx 1) 0] in
  let waiting := default Demo.initial (run_calls Demo.setup Demo.initial calls) in
  Forall (later (millis 200)) (i_pending (expire_transactions Demo.setup waiting (millis 200)))
  /\ (pe_transmissions <$> i_pending (expire_transactions Demo.setup waiting (millis 200))) = [2]
  /\ (pe_next_attempt <$> i_pending (expire_transactions Demo.setup waiting (millis 200))) = [millis 600].
Proof.
  intros calls waiting. split; [|split; vm_compute; reflexivity].
  apply (turn_retransmission Demo.server Demo.peer (b_ "u") (b_ "p") PJNATH_COMPAT Datagram Demo.setup Demo.initial calls waiting (millis 200)).
  - reflexivity.
  - repeat constructor.
  - vm_compute; reflexivity.
Defined.
