(* ===== verification/StreamControl.v ===== *)
(** * Stream repair

    A client keeps up to 126 parallel streams.  The server counts the streams it
    sees ([rust-server/protocol.rs], [StreamInventory] and
    [StreamRepairRound]), asks for the missing ones over the others, and
    confirms their return; the client reads the commands
    ([rust-client/protocol.rs]) and restarts each named worker once
    ([rust-client/repair.rs]). *)

From Stdlib Require Import Sorted.
From S2P Require Import Prelude.

Definition MAX_STREAM_WORKERS : Z := 126.
Definition STREAM_REPAIR_GRACE_MS : Z := 30000.
Definition STREAM_REPAIR_ESCALATE_MS : Z := 60000.
Definition STREAM_ALIVE_INTERVAL_MS : Z := 10000.
Definition STREAM_ALIVE_REPEAT : Z := 2.
Definition STREAM_CONTROL_CARRIERS : Z := 3.
Definition STREAM_ROUND_ORPHAN_TTL_MS : Z := 60000.
Definition STREAM_RECONCILE_INTERVAL_MS : Z := 3000.
Definition STREAM_INVENTORY_RESYNC_MS : Z := 60000.

Definition STREAM_REPAIR_PREFIX : bytes := 0xff :: b_ "CSQTT_STREAM_REPAIR_V1".
Definition STREAM_ALIVE_PREFIX : bytes := 0xff :: b_ "CSQTT_STREAM_ALIVE_V1".
Definition PANEL_RESTART_NOTICE : bytes := 0xff :: b_ "CSQTT_PANEL_RESTART_V1" ++ [0x00; 0x91; 0x7d; 0x03; 0xa8].

(** ** What the server sees *)

(** The fields of [HotSession] the inventory reads; the worker number is
    [session.public.worker_id]. *)
Record StreamSession := mkStreamSession {
  ss_id : Z; ss_desired_stream_count : Z; ss_registered : bool; ss_worker_id : Z;
  ss_device_id : bytes; ss_generation_id : Z; ss_session_salt : bytes;
}.
(** [StreamIdentity] *)
Definition StreamIdentity : Type := bytes * Z * bytes.
#[global] Instance StreamIdentity_eq_dec : EqDecision StreamIdentity.
Proof. unfold StreamIdentity. apply _. Defined.
#[global] Instance StreamIdentity_countable : Countable StreamIdentity.
Proof. unfold StreamIdentity. apply _. Defined.

Record StreamInventory := mkInventory {
  desired_count : Z; desired_session_id : Z; present : list bool; carriers : list Z; seen : bool;
}.
Definition StreamInventory_new : StreamInventory :=
  mkInventory 0 0 (replicate (Z.to_nat (MAX_STREAM_WORKERS + 1)) false) [] false.
Definition StreamInventory_reset (s : StreamInventory) : StreamInventory :=
  mkInventory 0 0 ((fun _ => false) <$> present s) [] false.

Definition StreamInventory_observe {E : Type} (s : StreamInventory) (slot : Z) (session : StreamSession) (worker_id : Z)
    : result E StreamInventory :=
  let s := if desired_session_id s <=? ss_id session
           then mkInventory (ss_desired_stream_count session) (ss_id session) (present s) (carriers s) (seen s) else s in
  _ ← at_ (present s) worker_id;
  mret (mkInventory (desired_count s) (desired_session_id s) (<[Z.to_nat worker_id := true]> (present s))
          (if len (carriers s) <? STREAM_CONTROL_CARRIERS then carriers s ++ [slot] else carriers s) true).

(** The loop over [1..=desired], pushing the absent workers. *)
Fixpoint missing_from {E : Type} (fuel : nat) (present : list bool) (worker : Z) : result E (list Z) :=
  match fuel with
  | O => mret []
  | S fuel =>
      here ← at_ present worker;
      rest ← missing_from fuel present (worker + 1);
      mret (if (here : bool) then rest else worker :: rest)
  end.
Definition fill_missing {E : Type} (s : StreamInventory) : result E (list Z) :=
  missing_from (Z.to_nat (Z.min (desired_count s) MAX_STREAM_WORKERS)) (present s) 1.

(** ** The rounds *)

Definition stream_control_payload (prefix : bytes) (sequence desired_count : Z) (worker_ids : list Z) : bytes :=
  let count := Z.min (len worker_ids) 255 in
  prefix ++ be_bytes 8 sequence ++ be_bytes 2 desired_count ++ [u8_of count]
  ++ mjoin (be_bytes 2 <$> take (Z.to_nat count) worker_ids).

Record StreamRepairRound := mkRound {
  sequence : Z; last_missing : list Z; first_missing_ms : Z; last_sent_ms : Z;
  alive_ids : list Z; alive_desired_count : Z; alive_sent_ms : Z; alive_sent : Z; last_seen_ms : Z;
}.
Definition StreamRepairRound_default : StreamRepairRound := mkRound 0 [] 0 0 [] 0 0 0 0.

(** [self.sequence.wrapping_add(1).max(1)] *)
Definition next_sequence (s : Z) : Z := Z.max (u64_of (s + 1)) 1.

Definition repair_payload (r : StreamRepairRound) (missing : list Z) (desired_count now_ms : Z)
    : option bytes * StreamRepairRound :=
  let r := if decide (missing = last_missing r) then r
           else mkRound (next_sequence (sequence r)) missing now_ms 0 [] (alive_desired_count r) (alive_sent_ms r) 0 (last_seen_ms r) in
  if sat_sub now_ms (first_missing_ms r) <? STREAM_REPAIR_GRACE_MS then (None, r) else
  if negb (last_sent_ms r =? 0) && (sat_sub now_ms (last_sent_ms r) <? STREAM_REPAIR_ESCALATE_MS) then (None, r) else
  let sequence_ := if negb (last_sent_ms r =? 0) then next_sequence (sequence r) else sequence r in
  let r := mkRound sequence_ (last_missing r) (first_missing_ms r) now_ms (alive_ids r) (alive_desired_count r)
             (alive_sent_ms r) (alive_sent r) (last_seen_ms r) in
  (Some (stream_control_payload STREAM_REPAIR_PREFIX (sequence r) desired_count (last_missing r)), r).

Definition recovered (r : StreamRepairRound) (desired_count now_ms : Z) : StreamRepairRound :=
  if decide (last_missing r = []) then r
  else mkRound (sequence r) [] now_ms 0 (last_missing r) desired_count 0 0 (last_seen_ms r).

Definition alive_payload (r : StreamRepairRound) (now_ms : Z) : option bytes * StreamRepairRound :=
  if bool_decide (alive_ids r = []) || (STREAM_ALIVE_REPEAT <=? alive_sent r)
     || (negb (alive_sent_ms r =? 0) && (sat_sub now_ms (alive_sent_ms r) <? STREAM_ALIVE_INTERVAL_MS))
  then (None, r) else
  let r := mkRound (sequence r) (last_missing r) (first_missing_ms r) (last_sent_ms r) (alive_ids r) (alive_desired_count r)
             now_ms (Z.min 255 (alive_sent r + 1)) (last_seen_ms r) in
  (Some (stream_control_payload STREAM_ALIVE_PREFIX (sequence r) (alive_desired_count r) (alive_ids r)), r).

Definition active (r : StreamRepairRound) : bool :=
  negb (bool_decide (last_missing r = [])) || (negb (bool_decide (alive_ids r = [])) && (alive_sent r <? STREAM_ALIVE_REPEAT)).

Definition seen_at (r : StreamRepairRound) (now_ms : Z) : StreamRepairRound :=
  mkRound (sequence r) (last_missing r) (first_missing_ms r) (last_sent_ms r) (alive_ids r) (alive_desired_count r)
    (alive_sent_ms r) (alive_sent r) now_ms.

(** ** Reconciliation *)

(** [StreamControlAction], with the sequence number of [StreamRepairLog]. *)
Record StreamControlAction := mkAction { sa_carriers : list Z; sa_payload : bytes; sa_repair : option (Z * list Z) }.

(** The sessions that count, with the worker number they stand for. *)
Definition counted_worker (session : StreamSession) : option Z :=
  let desired := ss_desired_stream_count session in
  if (desired =? 0) || (MAX_STREAM_WORKERS <? desired) || negb (ss_registered session) then None else
  let worker_id := ss_worker_id session in
  if (worker_id =? 0) || (desired <? worker_id) || (MAX_STREAM_WORKERS <? worker_id) then None else Some worker_id.

Definition stream_identity (session : StreamSession) : StreamIdentity :=
  (ss_device_id session, ss_generation_id session, ss_session_salt session).

Definition rebuild_step {E : Type} (inventory : gmap StreamIdentity StreamInventory) (entry : Z * StreamSession)
    : result E (gmap StreamIdentity StreamInventory) :=
  let '(slot, session) := entry in
  match counted_worker session with
  | None => mret inventory
  | Some worker_id =>
      let identity := stream_identity session in
      s ← StreamInventory_observe (default StreamInventory_new (inventory !! identity)) slot session worker_id;
      mret (<[identity := s]> inventory)
  end.
Fixpoint rebuild_loop {E : Type} (inventory : gmap StreamIdentity StreamInventory) (sessions : list (Z * StreamSession))
    : result E (gmap StreamIdentity StreamInventory) :=
  match sessions with
  | [] => mret inventory
  | entry :: sessions => inventory ← rebuild_step inventory entry; rebuild_loop inventory sessions
  end.
Definition rebuild_inventory {E : Type} (inventory : gmap StreamIdentity StreamInventory) (sessions : list (Z * StreamSession))
    : result E (gmap StreamIdentity StreamInventory) :=
  inventory ← rebuild_loop (StreamInventory_reset <$> inventory) sessions;
  mret (filter (fun kv => seen kv.2 = true) inventory).

(** The body of the loop over the inventory, for one client. *)
Definition reconcile_round {E : Type} (round : StreamRepairRound) (streams : StreamInventory) (now_ms : Z)
    : result E (option StreamControlAction * StreamRepairRound) :=
  let round := seen_at round now_ms in
  missing ← fill_missing streams;
  if bool_decide (missing = []) then
    let round := recovered round (desired_count streams) now_ms in
    let '(payload, round) := alive_payload round now_ms in
    mret ((fun payload => mkAction (carriers streams) payload None) <$> payload, round)
  else
    let '(payload, round) := repair_payload round missing (desired_count streams) now_ms in
    mret ((fun payload => mkAction (carriers streams) payload (Some (sequence round, missing))) <$> payload, round).

(** The fields of the engine that [reconcile_streams] uses. *)
Record Reconciler := mkReconciler {
  monotonic_ms : Z; last_stream_reconcile_ms : Z; stream_inventory_dirty : bool; last_stream_inventory_resync_ms : Z;
  stream_inventory : gmap StreamIdentity StreamInventory; stream_repairs : gmap StreamIdentity StreamRepairRound;
}.

Fixpoint reconcile_rounds {E : Type} (inventory : list (StreamIdentity * StreamInventory)) (repairs : gmap StreamIdentity StreamRepairRound)
    (now_ms : Z) : result E (list StreamControlAction * gmap StreamIdentity StreamRepairRound) :=
  match inventory with
  | [] => mret ([], repairs)
  | (identity, streams) :: inventory =>
      done_ ← reconcile_round (default StreamRepairRound_default (repairs !! identity)) streams now_ms;
      rest ← reconcile_rounds inventory (<[identity := done_.2]> repairs) now_ms;
      mret (option_list done_.1 ++ rest.1, rest.2)
  end.

(** [reconcile_streams]; the actions are sent over their carriers and logged by
    the caller. *)
Definition reconcile_streams {E : Type} (e : Reconciler) (sessions : list (Z * StreamSession))
    : result E (list StreamControlAction * Reconciler) :=
  let now_ms := monotonic_ms e in
  if sat_sub now_ms (last_stream_reconcile_ms e) <? STREAM_RECONCILE_INTERVAL_MS then mret ([], e) else
  let rebuild := stream_inventory_dirty e || (STREAM_INVENTORY_RESYNC_MS <=? sat_sub now_ms (last_stream_inventory_resync_ms e)) in
  inventory ← (if rebuild then rebuild_inventory (stream_inventory e) sessions else mret (stream_inventory e));
  done_ ← reconcile_rounds (map_to_list inventory) (stream_repairs e) now_ms;
  let repairs := filter (fun kv : StreamIdentity * StreamRepairRound =>
      is_Some (inventory !! kv.1) \/ active kv.2 = false \/ sat_sub now_ms (last_seen_ms kv.2) < STREAM_ROUND_ORPHAN_TTL_MS) done_.2 in
  mret (done_.1, mkReconciler now_ms now_ms (if rebuild then false else stream_inventory_dirty e)
          (if rebuild then now_ms else last_stream_inventory_resync_ms e) inventory repairs).

(** ** The client reads commands *)

Record StreamRepairCommand := mkCommand { cmd_sequence : Z; cmd_desired_count : Z; cmd_worker_ids : list Z }.

(** The loop over [ids.chunks_exact(2)]. *)
Fixpoint parse_worker_ids (ids : bytes) (desired_count : Z) : option (list Z) :=
  match ids with
  | a :: b :: ids =>
      let worker_id := be16 a b in
      if (worker_id =? 0) || (desired_count <? worker_id) then None
      else cons worker_id <$> parse_worker_ids ids desired_count
  | _ => Some []
  end.

Definition parse_stream_command (payload prefix : bytes) : opt StreamRepairCommand :=
  rest ← try_ tt (strip_prefix prefix payload);
  if len rest <? 11 then none else
  seq ← slice rest 0 8;
  let sequence := be_val seq in
  dc ← slice rest 8 10;
  let desired_count := be_val dc in
  count ← at_ rest 10;
  ids ← slice_from rest 11;
  if (sequence =? 0) || (desired_count =? 0) || (MAX_STREAM_WORKERS <? desired_count) || negb (len ids =? sat_mul count 2)
  then none else
  worker_ids ← try_ tt (parse_worker_ids ids desired_count);
  if bool_decide (worker_ids = []) then none else mret (mkCommand sequence desired_count worker_ids).
Definition parse_stream_repair (payload : bytes) : opt StreamRepairCommand := parse_stream_command payload STREAM_REPAIR_PREFIX.
Definition parse_stream_alive (payload : bytes) : opt StreamRepairCommand := parse_stream_command payload STREAM_ALIVE_PREFIX.

Definition is_panel_restart_notice (response : bytes) : bool := bytes_eqb response PANEL_RESTART_NOTICE.
Definition is_config_response (response : bytes) : bool :=
  existsb (starts_with response) [b_ "TUNCONF:"; b_ "NOCONF"; b_ "DENIED:"].
Definition is_control_response (response : bytes) : bool :=
  if is_panel_restart_notice response then true else
  existsb (starts_with response)
    [b_ "TUNCONF:"; b_ "NOCONF"; b_ "DENIED:"; b_ "READY_OK"; b_ "OK:disconnected"; STREAM_REPAIR_PREFIX; STREAM_ALIVE_PREFIX].

(** ** The client restarts workers *)

Record RepairSlot := mkSlot {
  restart_generation : Z; credential_generation : Z; last_sequence : Z; ready_sequence : Z;
}.
Definition RepairSlot_new : RepairSlot := mkSlot 0 0 0 0.
Abbreviation RepairState := (list RepairSlot).
Definition RepairState_new (desired_count : Z) : RepairState := replicate (Z.to_nat (desired_count + 1)) RepairSlot_new.

Definition slot_index (s : RepairState) (worker_id : Z) : option nat :=
  if worker_id =? 0 then None else match s !! Z.to_nat worker_id with Some _ => Some (Z.to_nat worker_id) | None => None end.

(** [mark_ready] *)
Definition mark_ready (s : RepairState) (worker_id : Z) : RepairState :=
  match slot_index s worker_id with
  | None => s
  | Some k => alter (fun slot => mkSlot (restart_generation slot) (credential_generation slot) (last_sequence slot) (last_sequence slot)) k s
  end.

(** [apply_alive]: the state and how many workers were named. *)
Fixpoint apply_alive (s : RepairState) (sequence : Z) (worker_ids : list Z) (applied : Z) : Z * RepairState :=
  match worker_ids with
  | [] => (applied, s)
  | worker_id :: worker_ids =>
      match slot_index s worker_id with
      | None => apply_alive s sequence worker_ids applied
      | Some k =>
          apply_alive (alter (fun slot => mkSlot (restart_generation slot) (credential_generation slot) (last_sequence slot)
                                            (Z.max (ready_sequence slot) sequence)) k s) sequence worker_ids (applied + 1)
      end
  end.

(** A task inside [apply_repair], between two atomic operations.  [todo] is the
    rest of the worker list. *)
Inductive RepairTask :=
| TNext (sequence : Z) (todo : list Z)                                   (** at the head of the [for] loop *)
| TLoop (sequence : Z) (k : nat) (current : Z) (todo : list Z)           (** at the head of [loop] *)
| TExchanged (sequence : Z) (k : nat) (previous : Z) (todo : list Z)     (** the exchange succeeded *)
| TReset (sequence : Z) (k : nat) (todo : list Z)                        (** credentials are to be reset *)
| TRestart (sequence : Z) (k : nat) (todo : list Z)                      (** the restart is to be counted *)
| TDone (sequence : Z).

(** The result a task accumulates. *)
Record RepairApplyResult := mkApplied { restarts : Z; credential_resets : Z }.

Definition on_slot (k : nat) (f : RepairSlot -> RepairSlot) (s : RepairState) : RepairState := alter f k s.

(** One atomic operation of a task. *)
Definition repair_tstep (s : RepairState) (t : RepairTask) (r : RepairApplyResult) : RepairState * RepairTask * RepairApplyResult :=
  match t with
  | TNext seq [] => (s, TDone seq, r)
  | TNext seq (worker_id :: todo) =>
      match slot_index s worker_id with
      | None => (s, TNext seq todo, r)
      | Some k => (s, TLoop seq k (default 0 (last_sequence <$> s !! k)) todo, r)
      end
  | TLoop seq k current todo =>
      if seq <=? current then (s, TNext seq todo, r) else
      let actual := default 0 (last_sequence <$> s !! k) in
      if actual =? current
      then (on_slot k (fun slot => mkSlot (restart_generation slot) (credential_generation slot) seq (ready_sequence slot)) s,
            TExchanged seq k actual todo, r)
      else (s, TLoop seq k actual todo, r)
  | TExchanged seq k previous todo =>
      if negb (previous =? 0) && (default 0 (ready_sequence <$> s !! k) <? previous)
      then (s, TReset seq k todo, r) else (s, TRestart seq k todo, r)
  | TReset seq k todo =>
      (on_slot k (fun slot => mkSlot (restart_generation slot) (u64_of (credential_generation slot + 1)) (last_sequence slot) (ready_sequence slot)) s,
       TRestart seq k todo, mkApplied (restarts r) (credential_resets r + 1))
  | TRestart seq k todo =>
      (on_slot k (fun slot => mkSlot (u64_of (restart_generation slot + 1)) (credential_generation slot) (last_sequence slot) (ready_sequence slot)) s,
       TNext seq todo, mkApplied (restarts r + 1) (credential_resets r))
  | TDone seq => (s, TDone seq, r)
  end.

(** [apply_repair] of a task that runs alone. *)
Fixpoint apply_repair (s : RepairState) (sequence : Z) (worker_ids : list Z) (r : RepairApplyResult) : RepairState * RepairApplyResult :=
  match worker_ids with
  | [] => (s, r)
  | worker_id :: worker_ids =>
      match slot_index s worker_id with
      | None => apply_repair s sequence worker_ids r
      | Some k =>
          let slot := default RepairSlot_new (s !! k) in
          if sequence <=? last_sequence slot then apply_repair s sequence worker_ids r else
          let previous := last_sequence slot in
          let reset := negb (previous =? 0) && (ready_sequence slot <? previous) in
          let slot := mkSlot (u64_of (restart_generation slot + 1))
                        (if reset then u64_of (credential_generation slot + 1) else credential_generation slot)
                        sequence (ready_sequence slot) in
          apply_repair (<[k := slot]> s) sequence worker_ids
            (mkApplied (restarts r + 1) (if reset then credential_resets r + 1 else credential_resets r))
      end
  end.

(** *** Tasks side by side *)

Record RepairWorld := mkWorld { w_slots : RepairState; w_tasks : list (RepairTask * RepairApplyResult) }.

(** Any task may move; [mark_ready] and [apply_alive] of other tasks may store
    any value in [ready_sequence] at any time. *)
Inductive repair_step : RepairWorld -> RepairWorld -> Prop :=
| rs_task w n t r s' t' r' :
    w_tasks w !! n = Some (t, r) -> repair_tstep (w_slots w) t r = (s', t', r') ->
    repair_step w (mkWorld s' (<[n := (t', r')]> (w_tasks w)))
| rs_ready w k v :
    repair_step w (mkWorld (on_slot k (fun slot => mkSlot (restart_generation slot) (credential_generation slot) (last_sequence slot) v)
                              (w_slots w)) (w_tasks w)).

Definition start_task (command : StreamRepairCommand) : RepairTask * RepairApplyResult :=
  (TNext (cmd_sequence command) (cmd_worker_ids command), mkApplied 0 0).
Definition repair_start (desired_count : Z) (commands : list StreamRepairCommand) : RepairWorld :=
  mkWorld (RepairState_new desired_count) (start_task <$> commands).

Definition task_sequence (t : RepairTask) : Z :=
  match t with TNext s _ | TLoop s _ _ _ | TExchanged s _ _ _ | TReset s _ _ | TRestart s _ _ | TDone s => s end.
(** The restarts of worker [k] decided and not yet counted. *)
Definition in_flight (k : nat) (t : RepairTask * RepairApplyResult) : Z :=
  match t.1 with
  | TExchanged _ j _ _ | TReset _ j _ | TRestart _ j _ => if decide (j = k) then 1 else 0
  | _ => 0
  end.
(** The workers the task has still to look at. *)
Definition task_todo (t : RepairTask) : list Z :=
  match t with
  | TNext _ l | TExchanged _ _ _ l | TReset _ _ l | TRestart _ _ l => l
  | TLoop _ k _ l => Z.of_nat k :: l
  | TDone _ => []
  end.

(** [h] lists the sequence numbers accepted for a worker, newest first. *)
Record slot_ok (slot : RepairSlot) (h : list Z) (flight : Z) : Prop := {
  so_sorted : StronglySorted Z.gt h;
  so_last : last_sequence slot = hd 0 h;
  so_count : restart_generation slot + flight = len h;
  so_nonneg : 0 <= restart_generation slot;
}.

Definition names (k : nat) (command : StreamRepairCommand) : Prop := Z.of_nat k ∈ cmd_worker_ids command.
Definition wf_command (command : StreamRepairCommand) : Prop :=
  0 < cmd_sequence command /\ Forall is_u16 (cmd_worker_ids command).

(** A task of [command] has dealt with the workers it has passed. *)
Record task_ok (s : RepairState) (command : StreamRepairCommand) (t : RepairTask) : Prop := {
  to_sequence : task_sequence t = cmd_sequence command;
  to_todo : task_todo t ⊆ cmd_worker_ids command;
  to_slot : match t with
            | TLoop _ k current _ => k <> O /\ forall slot, s !! k = Some slot -> current <= last_sequence slot
            | _ => True end;
  to_passed : forall k slot, names k command -> Z.of_nat k ∉ task_todo t -> k <> O -> s !! k = Some slot ->
      cmd_sequence command <= last_sequence slot;
}.

Record repair_inv (commands : list StreamRepairCommand) (w : RepairWorld) (h : nat -> list Z) : Prop := {
  ri_slots : forall k slot, w_slots w !! k = Some slot -> slot_ok slot (h k) (weight (in_flight k) (w_tasks w));
  ri_history : forall k x, x ∈ h k -> exists c, c ∈ commands /\ names k c /\ cmd_sequence c = x;
  ri_tasks : Forall2 (fun c t => task_ok (w_slots w) c t.1) commands (w_tasks w);
}.

Lemma slot_index_inv s worker_id k :
  0 <= worker_id -> slot_index s worker_id = Some k -> worker_id = Z.of_nat k /\ k <> O /\ is_Some (s !! k).
Proof.
  intros Hw. unfold slot_index. destruct (_ =? 0) eqn:E; bool_prop; [done|].
  destruct (s !! Z.to_nat worker_id) eqn:El; [|done]. intros [= <-]. split_and!; [lia|lia|by eexists].
Qed.

Lemma slot_index_none s k : k <> O -> slot_index s (Z.of_nat k) = None -> s !! k = None.
Proof.
  intros Hk. unfold slot_index. destruct (_ =? 0) eqn:E; bool_prop; [lia|]. rewrite Nat2Z.id. by destruct (s !! k).
Qed.

Lemma on_slot_lookup k j f s slot :
  on_slot k f s !! j = Some slot -> exists slot', s !! j = Some slot' /\ slot = if decide (j = k) then f slot' else slot'.
Proof.
  unfold on_slot. destruct (decide (j = k)) as [->|Hne].
  - rewrite list_lookup_alter_eq. destruct (s !! k); [|done]. intros [= <-]. by eexists.
  - rewrite list_lookup_alter_ne by done. intros H. by exists slot.
Qed.

(** Sequence numbers only grow, so what was passed stays passed. *)
Lemma task_ok_mono s s' c t :
  (forall k slot, s' !! k = Some slot -> exists slot', s !! k = Some slot' /\ last_sequence slot' <= last_sequence slot) ->
  task_ok s c t -> task_ok s' c t.
Proof.
  intros Hm []. split; try done.
  { destruct t; try done. destruct to_slot0 as [Hk Hc]. split; [done|]. intros slot Hs. destruct (Hm k slot Hs) as (slot' & Hs' & Hle).
    specialize (Hc slot' Hs'). lia. }
  intros k slot Hn Ht Hk Hs. destruct (Hm k slot Hs) as (slot' & Hs' & Hle).
  specialize (to_passed0 k slot' Hn Ht Hk Hs'). lia.
Qed.

(** The frame of a step: the slots grow, one task moves, the history may gain
    an entry. *)
Lemma repair_inv_update commands w h n c t r s' t' r' h' :
  repair_inv commands w h -> commands !! n = Some c -> w_tasks w !! n = Some (t, r) ->
  (forall k slot', s' !! k = Some slot' -> exists slot, w_slots w !! k = Some slot /\ last_sequence slot <= last_sequence slot'
     /\ (slot_ok slot (h k) (weight (in_flight k) (w_tasks w)) ->
         slot_ok slot' (h' k) (weight (in_flight k) (w_tasks w) - in_flight k (t, r) + in_flight k (t', r')))) ->
  (forall k x, x ∈ h' k -> x ∈ h k \/ names k c /\ cmd_sequence c = x) ->
  task_ok s' c t' ->
  repair_inv commands (mkWorld s' (<[n := (t', r')]> (w_tasks w))) h'.
Proof.
  intros [Hsl Hhi Hta] Hc Ht Hs Hh Hok. split; cbn [w_slots w_tasks].
  - intros k slot' Hs'. destruct (Hs k slot' Hs') as (slot & Hslot & _ & Himp). rewrite (weight_insert _ _ _ _ _ Ht). by apply Himp, Hsl.
  - intros k x Hx. destruct (Hh k x Hx) as [Hx'|[Hn Hq]]; [by apply Hhi|]. exists c. split_and!; try done. by eapply list_elem_of_lookup_2.
  - rewrite <- (list_insert_id _ _ _ Hc). apply Forall2_insert; [|done].
    eapply Forall2_impl; [exact Hta|]. intros c' t0 Ht0. eapply task_ok_mono; [|exact Ht0].
    intros k slot Hk. destruct (Hs k slot Hk) as (slot' & ? & ? & _). by exists slot'.
Qed.

(** A step that touches neither the slots nor the restarts in flight. *)
Lemma repair_inv_quiet commands w h n c t r t' r' :
  repair_inv commands w h -> commands !! n = Some c -> w_tasks w !! n = Some (t, r) ->
  (forall k, in_flight k (t', r') = in_flight k (t, r)) -> task_ok (w_slots w) c t' ->
  repair_inv commands (mkWorld (w_slots w) (<[n := (t', r')]> (w_tasks w))) h.
Proof.
  intros Hinv Hc Ht Hf Hok. eapply repair_inv_update; try done; [|auto]. intros k slot Hs. exists slot. split_and!; [done|lia|].
  rewrite Hf. intros Hso. by rewrite Z.sub_add.
Qed.

(** No worker restarts more often than there are commands. *)
Lemma history_short commands w h k :
  repair_inv commands w h -> StronglySorted Z.gt (h k) -> len (h k) <= len commands.
Proof.
  intros [_ Hh _] Hs. assert (Hnd : NoDup (h k)).
  { clear Hh. induction Hs as [|x l _ IH Hx]; [apply NoDup_nil_2|]. apply NoDup_cons. split; [|done].
    intros Hin. rewrite Forall_forall in Hx. specialize (Hx x Hin). lia. }
  assert (Hsub : h k ⊆ cmd_sequence <$> commands).
  { intros x Hx. destruct (Hh k x Hx) as (c & Hc & _ & <-). apply list_elem_of_fmap. by exists c. }
  unfold len.
  pose proof (NoDup_submseteq _ _ Hnd Hsub) as Hsm. apply submseteq_length in Hsm. rewrite length_fmap in Hsm. lia.
Qed.

Lemma in_flight_nonneg k t : 0 <= in_flight k t.
Proof. unfold in_flight. destruct t.1; try done; by destruct (decide _). Qed.

Section Step.
Context (commands : list StreamRepairCommand) (Hwf : Forall wf_command commands) (Hfew : len commands < 2 ^ 64).
Context (w : RepairWorld) (h : nat -> list Z) (Hinv : repair_inv commands w h).
Context (n : nat) (c : StreamRepairCommand) (Hc : commands !! n = Some c) (r : RepairApplyResult).

(** What the next state of the task has to satisfy. *)
Definition moves_to (x : RepairState * RepairTask * RepairApplyResult) : Prop :=
  exists h', repair_inv commands (mkWorld x.1.1 (<[n := (x.1.2, x.2)]> (w_tasks w))) h'.

Lemma next_step seq l :
  w_tasks w !! n = Some (TNext seq l, r) -> task_ok (w_slots w) c (TNext seq l) -> moves_to (repair_tstep (w_slots w) (TNext seq l) r).
Proof using Hwf Hinv Hc.
  intros Ht [Hseq Htodo _ Hpass]. pose proof (Forall_lookup_1 _ _ _ _ Hwf Hc) as [_ Hids].
  destruct l as [|w0 todo]; cbn [repair_tstep task_todo] in *.
  { exists h. by eapply repair_inv_quiet. }
  assert (Hw0 : 0 <= w0).
  { rewrite Forall_forall in Hids. specialize (Hids w0 (Htodo w0 ltac:(by apply elem_of_cons; left))). unfold is_u16 in Hids. lia. }
  destruct (slot_index (w_slots w) w0) as [k|] eqn:Hk; exists h; cbn [fst snd].
  - apply slot_index_inv in Hk as (-> & Hk0 & [slot Hslot]); [|done]. eapply repair_inv_quiet; [done|done|exact Ht|done|].
    split; [done|done| |done]. split; [done|]. intros slot' Hs'. rewrite Hs'. cbn. lia.
  - eapply repair_inv_quiet; [done|done|exact Ht|done|]. split; cbn [task_todo]; [done| |done|].
    { intros x Hx. apply Htodo. by apply elem_of_cons; right. }
    intros k slot Hn Hnot Hk0 Hs. apply (Hpass k slot); try done. intros Hin. apply elem_of_cons in Hin as [<-|Hin]; [|done].
    apply slot_index_none in Hk; [congruence|done].
Qed.

Lemma loop_step seq k current todo :
  w_tasks w !! n = Some (TLoop seq k current todo, r) -> task_ok (w_slots w) c (TLoop seq k current todo) ->
  moves_to (repair_tstep (w_slots w) (TLoop seq k current todo) r).
Proof using Hwf Hinv Hc.
  intros Ht [Hseq Htodo [Hk0 Hcur] Hpass]. cbn [repair_tstep task_todo task_sequence] in *. subst seq.
  pose proof (Forall_lookup_1 _ _ _ _ Hwf Hc) as [Hpos _].
  assert (Hsub : todo ⊆ cmd_worker_ids c) by (intros x Hx; apply Htodo; by apply elem_of_cons; right).
  assert (Hpass' : forall (s' : RepairState) j slot, (forall slot, s' !! k = Some slot -> cmd_sequence c <= last_sequence slot) ->
    (j <> k -> s' !! j = w_slots w !! j) -> names j c -> Z.of_nat j ∉ todo -> j <> O -> s' !! j = Some slot -> cmd_sequence c <= last_sequence slot).
  { intros s' j slot Hk Hj Hn Hnot Hj0 Hs. destruct (decide (j = k)) as [->|Hne]; [by apply Hk|].
    apply (Hpass j slot); try done; [|by rewrite <- Hj]. intros Hin. apply elem_of_cons in Hin as [Hin|Hin]; [lia|done]. }
  destruct (cmd_sequence c <=? current) eqn:E; bool_prop.
  { exists h. eapply repair_inv_quiet; [done|done|exact Ht|done|]. split; cbn [task_todo]; try done.
    intros j slot. apply Hpass'; [|done]. intros slot' Hs'. specialize (Hcur slot' Hs'). lia. }
  destruct (_ =? current) eqn:E2; bool_prop; cbn [fst snd].
  - exists (fun j => if decide (j = k) then cmd_sequence c :: h k else h j).
    eapply repair_inv_update; [done|done|exact Ht| | |]; cbn [fst snd].
    + intros j slot' Hs'. apply on_slot_lookup in Hs' as (slot & Hs & ->). exists slot. unfold in_flight. cbn [fst].
      destruct (decide (j = k)) as [->|Hne]; cbn [last_sequence].
      * rewrite Hs in E2. cbn in E2. rewrite decide_True by done. split_and!; [done|lia|]. intros [Hso Hla Hco Hnn].
        split; cbn [last_sequence restart_generation hd]; [|done| |done].
        -- constructor; [done|]. destruct (h k) as [|y l]; [constructor|]. cbn in Hla. apply StronglySorted_inv in Hso as [_ Hy].
           constructor; [lia|]. eapply Forall_impl; [exact Hy|]. intros z. lia.
        -- rewrite len_cons. lia.
      * rewrite decide_False by done. split_and!; [done|lia|]. by rewrite Z.sub_0_r, Z.add_0_r.
    + intros j x. destruct (decide (j = k)) as [->|]; [|by left]. intros Hx. apply elem_of_cons in Hx as [->|Hx]; [right|by left].
      split; [|done]. apply Htodo. by apply elem_of_cons; left.
    + split; cbn [task_todo]; try done. intros j slot. apply Hpass'.
      * intros slot' Hs'. apply on_slot_lookup in Hs' as (slot0 & _ & ->). rewrite decide_True by done. cbn. lia.
      * intros Hne. unfold on_slot. by rewrite list_lookup_alter_ne.
  - exists h. eapply repair_inv_quiet; [done|done|exact Ht|done|]. split; try done. split; [done|].
    intros slot Hs. rewrite Hs. cbn. lia.
Qed.

Lemma settle_step t :
  w_tasks w !! n = Some (t, r) -> task_ok (w_slots w) c t ->
  match t with TExchanged _ _ _ _ | TReset _ _ _ | TRestart _ _ _ | TDone _ => True | _ => False end ->
  moves_to (repair_tstep (w_slots w) t r).
Proof using Hfew Hinv Hc.
  intros Ht [Hseq Htodo _ Hpass] Hkind. destruct t as [| |seq k previous todo|seq k todo|seq k todo|seq]; try done; cbn [repair_tstep].
  - destruct (_ && _); exists h; cbn [fst snd]; (eapply repair_inv_quiet; [done|done|exact Ht|done|]); by split.
  - exists h. eapply repair_inv_update; [done|done|exact Ht| |auto|]; cbn [fst snd].
    + intros j slot' Hs'. apply on_slot_lookup in Hs' as (slot & Hs & ->). exists slot. destruct (decide (j = k)); cbn [last_sequence];
        (split_and!; [done|lia|]); change (in_flight j (TReset seq k todo, r)) with (in_flight j (TRestart seq k todo, r));
        unfold in_flight; cbn [fst]; rewrite Z.sub_add; intros []; by split.
    + split; try done. intros j slot' Hn Hnot Hj Hs'. apply on_slot_lookup in Hs' as (slot & Hs & ->).
      specialize (Hpass j slot Hn Hnot Hj Hs). by destruct (decide _).
  - exists h. eapply repair_inv_update; [done|done|exact Ht| |auto|]; cbn [fst snd].
    + intros j slot' Hs'. apply on_slot_lookup in Hs' as (slot & Hs & ->). exists slot.
      change (in_flight j (TNext seq todo, mkApplied (restarts r + 1) (credential_resets r))) with 0.
      change (in_flight j (TRestart seq k todo, r)) with (if decide (k = j) then 1 else 0).
      destruct (decide (j = k)) as [->|Hne]; cbn [last_sequence]; (split_and!; [done|lia|]).
      * rewrite decide_True by done. intros [Hso Hla Hco Hnn]. pose proof (history_short _ _ _ k Hinv Hso) as Hlen.
        assert (Hfl : 1 <= weight (in_flight k) (w_tasks w)).
        { etrans; [|apply (weight_lookup (in_flight k) _ _ _ (in_flight_nonneg k) Ht)]. unfold in_flight. cbn. by rewrite decide_True. }
        assert (Hu : u64_of (restart_generation slot + 1) = restart_generation slot + 1) by (apply Z.mod_small; lia).
        split; cbn [last_sequence restart_generation]; try done; rewrite Hu; lia.
      * rewrite decide_False by done. by rewrite Z.sub_0_r, Z.add_0_r.
    + split; try done. intros j slot' Hn Hnot Hj Hs'. apply on_slot_lookup in Hs' as (slot & Hs & ->).
      specialize (Hpass j slot Hn Hnot Hj Hs). by destruct (decide _).
  - exists h. by eapply repair_inv_quiet.
Qed.
End Step.

Lemma repair_step_inv commands w w' h :
  Forall wf_command commands -> len commands < 2 ^ 64 -> repair_inv commands w h -> repair_step w w' -> exists h', repair_inv commands w' h'.
Proof.
  intros Hwf Hfew Hinv Hstep. destruct Hstep as [w n t r s' t' r' Ht Hstep|w k v].
  - destruct (Forall2_lookup_r _ _ _ _ _ (ri_tasks _ _ _ Hinv) Ht) as (c & Hc & Hok). cbn [fst] in Hok.
    assert (Hm : moves_to commands w n (repair_tstep (w_slots w) t r)).
    { destruct t; [by eapply next_step|by eapply loop_step|by eapply settle_step..]. }
    rewrite Hstep in Hm. exact Hm.
  - exists h. destruct Hinv as [Hs Hh Ht]. split; cbn [w_slots w_tasks]; [|done|].
    + intros j slot' Hj. apply on_slot_lookup in Hj as (slot & Hj & ->). destruct (Hs j slot Hj). by destruct (decide _).
    + eapply Forall2_impl; [exact Ht|]. intros c t Hok. eapply task_ok_mono; [|exact Hok]. intros j slot' Hj.
      apply on_slot_lookup in Hj as (slot & Hj & ->). exists slot. split; [done|]. by destruct (decide _).
Qed.

Lemma repair_start_inv desired commands : repair_inv commands (repair_start desired commands) (fun _ => []).
Proof.
  assert (Hnew : forall k slot, RepairState_new desired !! k = Some slot -> slot = RepairSlot_new).
  { intros k slot Hk. unfold RepairState_new in Hk. by apply lookup_replicate in Hk as [-> _]. }
  split; cbn [repair_start w_slots w_tasks].
  - intros k slot Hk. rewrite (Hnew k slot Hk). assert (Hw : weight (in_flight k) (start_task <$> commands) = 0).
    { induction commands as [|x l IH]; [done|]. cbn [fmap list_fmap weight]. change (weight (in_flight k) (start_task <$> l) = 0). exact IH. }
    rewrite Hw. split; [constructor|done|done|done].
  - intros k x Hx. by apply elem_of_nil in Hx.
  - apply Forall2_fmap_r, Forall_Forall2_diag, Forall_forall. intros c _. split; cbn; try done.
Qed.

Lemma repair_reaches desired commands w :
  Forall wf_command commands -> len commands < 2 ^ 64 -> rtc repair_step (repair_start desired commands) w ->
  exists h, repair_inv commands w h.
Proof.
  intros Hwf Hfew Hrun. remember (repair_start desired commands) as w0 eqn:E.
  assert (H0 : exists h, repair_inv commands w0 h) by (subst; eexists; apply repair_start_inv). clear E.
  induction Hrun as [|x y z Hxy _ IH]; [done|]. apply IH. destruct H0 as [h Hh]. by eapply repair_step_inv.
Qed.

Definition all_done (w : RepairWorld) : Prop := Forall (fun t => match t.1 with TDone _ => True | _ => False end) (w_tasks w).

Lemma in_flight_done w k : all_done w -> weight (in_flight k) (w_tasks w) = 0.
Proof.
  unfold all_done. generalize (w_tasks w) as l. intros l Hl. induction Hl as [|t l Ht _ IH]; [done|]. cbn [weight]. rewrite IH.
  unfold in_flight. by destruct t.1.
Qed.

(** C38. However the tasks that received repair commands interleave, and however
    often worker numbers and commands are repeated, each worker is restarted at
    most once per sequence number: the restarts counted and still in flight are
    as many as the distinct, increasing sequence numbers accepted for it, all
    taken from commands that name it.  Once every task is done, no command that
    names the worker is newer than the last accepted one; when all of them carry
    the same number, as when one command arrives over several carriers, the
    worker has restarted exactly once. *)
Theorem repair_restarts_once desired commands w k slot :
  Forall wf_command commands -> len commands < 2 ^ 64 -> rtc repair_step (repair_start desired commands) w ->
  k <> O -> w_slots w !! k = Some slot ->
  (exists accepted, StronglySorted Z.gt accepted /\ last_sequence slot = hd 0 accepted
     /\ restart_generation slot + weight (in_flight k) (w_tasks w) = len accepted
     /\ Forall (fun x => exists c, c ∈ commands /\ names k c /\ cmd_sequence c = x) accepted)
  /\ (all_done w -> forall c, c ∈ commands -> names k c ->
      cmd_sequence c <= last_sequence slot
      /\ ((forall c', c' ∈ commands -> names k c' -> cmd_sequence c' = cmd_sequence c) -> restart_generation slot = 1)).
Proof.
  intros Hwf Hfew Hrun Hk Hslot. destruct (repair_reaches _ _ _ Hwf Hfew Hrun) as (h & [Hsl Hh Hta]).
  destruct (Hsl k slot Hslot) as [Hso Hla Hco Hnn]. split.
  { exists (h k). split_and!; try done. apply Forall_forall. apply Hh. }
  intros Hdone c Hc Hn.
  assert (Hle : cmd_sequence c <= last_sequence slot).
  { apply list_elem_of_lookup in Hc as [n Hc]. destruct (Forall2_lookup_l _ _ _ _ _ Hta Hc) as (t & Ht & [_ _ _ Hp]).
    pose proof (Forall_lookup_1 _ _ _ _ Hdone Ht) as Hd. cbn beta in Hd. apply (Hp k slot); try done. destruct t.1; try done. apply not_elem_of_nil. }
  split; [done|]. intros Hsame. rewrite (in_flight_done w k Hdone) in Hco.
  assert (Hpos : 0 < cmd_sequence c) by (rewrite Forall_forall in Hwf; apply (Hwf c Hc)).
  destruct (h k) as [|x [|y l]] eqn:E; rewrite ?len_cons, ?len_nil in Hco; cbn [hd] in Hla; [lia|change (len []) with 0 in Hco; lia|].
  apply StronglySorted_inv in Hso as [_ Hx]. apply Forall_cons in Hx as [Hx _].
  assert (Hin : forall z, z ∈ h k -> z = cmd_sequence c). { intros z Hz. destruct (Hh k z Hz) as (c' & H1 & H2 & <-). auto. }
  rewrite E in Hin. rewrite (Hin x), (Hin y) in Hx by (set_solver). lia.
Qed.

Lemma on_slot_insert k f s slot : s !! k = Some slot -> on_slot k f s = <[k := f slot]> s.
Proof.
  intros Hs. apply list_eq. intros j. unfold on_slot. destruct (decide (k = j)) as [<-|Hne].
  - rewrite list_lookup_alter_eq, Hs, list_lookup_insert_eq by (by eapply lookup_lt_Some). done.
  - by rewrite list_lookup_alter_ne, list_lookup_insert_ne.
Qed.

Lemma on_slot_inserted k f s slot : (k < length s)%nat -> on_slot k f (<[k := slot]> s) = <[k := f slot]> s.
Proof. intros Hk. by rewrite (on_slot_insert k f _ slot), list_insert_insert_eq by (by apply list_lookup_insert_eq). Qed.

Lemma solo_step s t r s' t' r' w :
  repair_tstep s t r = (s', t', r') -> rtc repair_step (mkWorld s' [(t', r')]) w -> rtc repair_step (mkWorld s [(t, r)]) w.
Proof. intros Hs Hw. eapply rtc_l; [by apply (rs_task (mkWorld s [(t, r)]) O t r s' t' r')|exact Hw]. Qed.

(** A task that runs alone does what [apply_repair] says. *)
Lemma apply_repair_steps seq ids s r :
  rtc repair_step (mkWorld s [(TNext seq ids, r)])
    (mkWorld (apply_repair s seq ids r).1 [(TDone seq, (apply_repair s seq ids r).2)]).
Proof.
  revert s r. induction ids as [|w ids IH]; intros s r; cbn [apply_repair].
  { eapply solo_step; [reflexivity|]. apply rtc_refl. }
  destruct (slot_index s w) as [k|] eqn:Hk; (eapply solo_step; [cbn [repair_tstep]; rewrite Hk; reflexivity|]); [|apply IH].
  assert (exists slot, s !! k = Some slot) as [slot Hs].
  { unfold slot_index in Hk. destruct (w =? 0); [done|]. destruct (s !! Z.to_nat w) eqn:E; [|done]. injection Hk as <-. by eexists. }
  rewrite Hs. cbn [default from_option option_fmap option_map fmap]. change (id slot) with slot. change (id (last_sequence slot)) with (last_sequence slot).
  destruct (seq <=? last_sequence slot) eqn:E1; (eapply solo_step; [cbn [repair_tstep]; rewrite E1, ?Hs; cbn; rewrite ?Z.eqb_refl; reflexivity|]); [apply IH|].
  erewrite on_slot_insert by exact Hs. pose proof (lookup_lt_Some _ _ _ Hs) as Hlt.
  destruct (negb (last_sequence slot =? 0) && (ready_sequence slot <? last_sequence slot)) eqn:E2;
    (eapply solo_step; [cbn [repair_tstep]; rewrite list_lookup_insert_eq by done; cbn; rewrite E2; reflexivity|]).
  - eapply solo_step; [reflexivity|]. eapply solo_step; [reflexivity|].
    rewrite !on_slot_inserted by done. apply IH.
  - eapply solo_step; [reflexivity|]. rewrite on_slot_inserted by done. apply IH.
Qed.

Lemma repair_restarts_once_witness :
  let command := mkCommand 7 4 [2; 3; 2] in
  let s := (apply_repair (RepairState_new 4) 7 [2; 3; 2] (mkApplied 0 0)).1 in
  (restart_generation <$> s) = [0; 0; 1; 1; 0]
  /\ exists slot, s !! 2%nat = Some slot /\ restart_generation slot = 1 /\ cmd_sequence command <= last_sequence slot.
Proof.
  intros command s. split; [vm_compute; reflexivity|]. exists (mkSlot 1 0 7 0). split; [vm_compute; reflexivity|].
  pose proof (apply_repair_steps 7 [2; 3; 2] (RepairState_new 4) (mkApplied 0 0)) as Hrun.
  destruct (repair_restarts_once 4 [command] _ 2 (mkSlot 1 0 7 0)
    ltac:(apply Forall_singleton; split; [cbn; lia|apply (bool_decide_unpack _); vm_compute; exact I]) ltac:(vm_compute; reflexivity) Hrun ltac:(lia) ltac:(vm_compute; reflexivity)) as [_ Hdone].
  destruct (Hdone ltac:(repeat constructor) command ltac:(apply elem_of_cons; by left)
    ltac:(apply elem_of_cons; by left)) as [Hle Hone]. split; [|exact Hle].
  apply Hone. intros c' Hc' _. apply elem_of_cons in Hc' as [->|Hc']; [done|by apply elem_of_nil in Hc'].
Defined.

(** ** The inventory is exact *)

(** [P identity worker]: a session stands for that worker. *)
Record inventory_ok (P : StreamIdentity -> Z -> Prop) (inventory : gmap StreamIdentity StreamInventory) : Prop := {
  io_present : forall identity s, inventory !! identity = Some s ->
    length (present s) = 127%nat /\ 0 <= desired_session_id s
    /\ (forall worker, 0 <= worker -> present s !! Z.to_nat worker = Some true <-> P identity worker)
    /\ (if seen s then 1 <= desired_count s <= MAX_STREAM_WORKERS else desired_session_id s = 0 /\ forall worker, ~ P identity worker);
  io_absent : forall identity worker, inventory !! identity = None -> ~ P identity worker;
}.

Definition counts_for (sessions : list (Z * StreamSession)) (identity : StreamIdentity) (worker : Z) : Prop :=
  exists slot session, (slot, session) ∈ sessions /\ counted_worker session = Some worker /\ stream_identity session = identity.
Definition wf_session (entry : Z * StreamSession) : Prop := is_u64 (ss_id entry.2) /\ is_u16 (ss_desired_stream_count entry.2) /\ 0 <= ss_worker_id entry.2.

Lemma counted_worker_inv session worker :
  counted_worker session = Some worker -> is_u16 (ss_desired_stream_count session) -> 0 <= ss_worker_id session ->
  1 <= worker <= ss_desired_stream_count session /\ 1 <= ss_desired_stream_count session <= MAX_STREAM_WORKERS.
Proof.
  unfold counted_worker, is_u16. destruct (_ || _ || _) eqn:E1; [done|]. destruct ((ss_worker_id session =? 0) || _ || _) eqn:E2; [done|]. bool_prop.
  intros Hw. apply (inj Some) in Hw. lia.
Qed.

Lemma observe_ok {E : Type} (P : StreamIdentity -> Z -> Prop) identity s slot session worker :
  length (present s) = 127%nat -> 0 <= desired_session_id s -> is_u64 (ss_id session) ->
  (forall v, 0 <= v -> present s !! Z.to_nat v = Some true <-> P identity v) ->
  (if seen s then 1 <= desired_count s <= MAX_STREAM_WORKERS else desired_session_id s = 0 /\ forall v, ~ P identity v) ->
  1 <= worker <= ss_desired_stream_count session -> 1 <= ss_desired_stream_count session <= MAX_STREAM_WORKERS ->
  exists s', @StreamInventory_observe E s slot session worker = Ok s' /\ length (present s') = 127%nat /\ 0 <= desired_session_id s'
    /\ (forall v, 0 <= v -> present s' !! Z.to_nat v = Some true <-> P identity v \/ v = worker)
    /\ seen s' = true /\ 1 <= desired_count s' <= MAX_STREAM_WORKERS.
Proof.
  intros Hl Hd Hid Hp Hs Hw Hdc. unfold StreamInventory_observe, is_u64 in *. cbn zeta.
  set (s1 := if desired_session_id s <=? ss_id session then _ else s).
  assert (H1 : present s1 = present s /\ 0 <= desired_session_id s1 /\ 1 <= desired_count s1 <= MAX_STREAM_WORKERS).
  { unfold s1. destruct (_ <=? _) eqn:E0; bool_prop; cbn; [split_and!; try done; lia|]. split_and!; try done.
    destruct (seen s); [lia|]. destruct Hs as [Hs _]. lia. destruct (seen s); [lia|]. destruct Hs as [Hs _]. lia. }
  destruct H1 as (H1 & H2 & H3). rewrite H1.
  destruct (@at_ok E _ (present s) worker) as (b & -> & Hb); [unfold len, MAX_STREAM_WORKERS in *; lia|].
  cbn [mbind result_bind]. eexists. split; [done|]. cbn [present desired_session_id seen desired_count].
  split_and!; try done; try lia; [by rewrite length_insert|]. intros v Hv. rewrite <- Hp by done.
  destruct (decide (v = worker)) as [->|Hne].
  - rewrite list_lookup_insert_eq by (unfold MAX_STREAM_WORKERS in *; lia). tauto.
  - rewrite list_lookup_insert_ne by lia. tauto.
Qed.

Lemma rebuild_step_ok {E : Type} (P : StreamIdentity -> Z -> Prop) inventory entry :
  inventory_ok P inventory -> wf_session entry ->
  exists inventory', @rebuild_step E inventory entry = Ok inventory'
    /\ inventory_ok (fun identity worker => P identity worker \/ counts_for [entry] identity worker) inventory'.
Proof.
  intros Hio. destruct entry as [slot session]. intros (Hid & Hdc & Hwid). cbn [snd] in *. unfold rebuild_step.
  assert (Hcf : forall identity worker, counts_for [(slot, session)] identity worker <-> counted_worker session = Some worker /\ stream_identity session = identity).
  { intros identity worker. unfold counts_for. split.
    - intros (sl & se & Hin & H1 & H2). apply list_elem_of_singleton in Hin as [= -> ->]. done.
    - intros [H1 H2]. exists slot, session. split_and!; try done. by apply list_elem_of_singleton. }
  destruct (counted_worker session) as [worker|] eqn:Hcw.
  2: { eexists. split; [done|]. destruct Hio as [H1 H2]. split.
    - intros identity s Hs. destruct (H1 identity s Hs) as (Ha & Hb & Hc & Hd). split_and!; try done.
      + intros w Hw. rewrite Hc by done. rewrite Hcf. naive_solver.
      + destruct (seen s); [done|]. destruct Hd as [Hd1 Hd2]. split; [done|]. intros w. rewrite Hcf. naive_solver.
    - intros identity w Hn. rewrite Hcf. specialize (H2 identity w Hn). naive_solver. }
  destruct (counted_worker_inv session worker Hcw Hdc Hwid) as [Hw Hd].
  set (id0 := stream_identity session) in *.
  assert (Hs0 : exists s', @StreamInventory_observe E (default StreamInventory_new (inventory !! id0)) slot session worker = Ok s'
    /\ length (present s') = 127%nat /\ 0 <= desired_session_id s'
    /\ (forall v, 0 <= v -> present s' !! Z.to_nat v = Some true <-> P id0 v \/ v = worker) /\ seen s' = true /\ 1 <= desired_count s' <= MAX_STREAM_WORKERS).
  { destruct Hio as [H1 H2]. destruct (inventory !! id0) as [s|] eqn:Es.
    - destruct (H1 id0 s Es) as (Ha & Hb & Hc & He). by apply observe_ok.
    - apply observe_ok; try done.
      + intros v Hv. split; [|intros Hp; by apply (H2 id0 v Es) in Hp]. intros Hl. by apply lookup_replicate in Hl as [? _].
      + split; [done|]. intros v. by apply H2. }
  destruct Hs0 as (s' & -> & Ha & Hb & Hc & He & Hf). cbn [mbind result_bind]. eexists. split; [done|].
  destruct Hio as [H1 H2]. split.
  - intros identity s Hs. destruct (decide (id0 = identity)) as [<-|Hne].
    + rewrite lookup_insert_eq in Hs. injection Hs as <-. rewrite He. split_and!; try done; [|lia|lia]. intros v Hv. rewrite Hc by done. rewrite Hcf. naive_solver.
    + rewrite lookup_insert_ne in Hs by done. destruct (H1 identity s Hs) as (Ha' & Hb' & Hc' & Hd'). split_and!; try done.
      * intros v Hv. rewrite Hc' by done. rewrite Hcf. naive_solver.
      * destruct (seen s); [done|]. destruct Hd' as [Hd1 Hd2]. split; [done|]. intros v. rewrite Hcf. naive_solver.
  - intros identity v Hn. apply lookup_insert_None in Hn as [Hn Hne]. rewrite Hcf. specialize (H2 identity v Hn). naive_solver.
Qed.

#[global] Instance inventory_ok_proper : Proper (pointwise_relation _ (pointwise_relation _ iff) ==> eq ==> iff) inventory_ok.
Proof.
  assert (Himp : forall P Q i, (forall identity worker, P identity worker <-> Q identity worker) -> inventory_ok P i -> inventory_ok Q i).
  { intros P Q i HPQ [H1 H2]. split.
    - intros identity s Hs. destruct (H1 identity s Hs) as (Ha & Hb & Hc & Hd). split_and!; try done.
      + intros v Hv. rewrite <- HPQ. by apply Hc.
      + destruct (seen s); [done|]. destruct Hd as [Hd1 Hd2]. split; [done|]. intros v. rewrite <- HPQ. apply Hd2.
    - intros identity worker Hn. rewrite <- HPQ. by apply H2. }
  intros P Q HPQ i ? <-. split; apply Himp; intros identity worker; [apply HPQ|symmetry; apply HPQ].
Qed.

Lemma counts_for_cons entry sessions identity worker :
  counts_for (entry :: sessions) identity worker <-> counts_for [entry] identity worker \/ counts_for sessions identity worker.
Proof.
  unfold counts_for. setoid_rewrite elem_of_cons. setoid_rewrite elem_of_nil. naive_solver.
Qed.

Lemma rebuild_loop_ok {E : Type} sessions (P : StreamIdentity -> Z -> Prop) inventory :
  inventory_ok P inventory -> Forall wf_session sessions ->
  exists inventory', @rebuild_loop E inventory sessions = Ok inventory'
    /\ inventory_ok (fun identity worker => P identity worker \/ counts_for sessions identity worker) inventory'.
Proof.
  revert P inventory. induction sessions as [|entry sessions IH]; intros P inventory Hio Hw; cbn [rebuild_loop].
  - eexists. split; [done|]. eapply inventory_ok_proper; [|done|exact Hio].
    intros identity worker. unfold counts_for. setoid_rewrite elem_of_nil. naive_solver.
  - apply Forall_cons in Hw as [Hw Hws]. destruct (@rebuild_step_ok E P inventory entry Hio Hw) as (i1 & -> & H1). cbn [mbind result_bind].
    destruct (IH _ i1 H1 Hws) as (i2 & -> & H2). eexists. split; [done|].
    eapply inventory_ok_proper; [|done|exact H2]. intros identity worker. rewrite counts_for_cons. tauto.
Qed.

Lemma rebuild_inventory_ok {E : Type} old sessions :
  (forall identity s, old !! identity = Some s -> length (present s) = 127%nat) -> Forall wf_session sessions ->
  exists inventory, @rebuild_inventory E old sessions = Ok inventory
    /\ forall identity s, inventory !! identity = Some s ->
       length (present s) = 127%nat /\ 1 <= desired_count s <= MAX_STREAM_WORKERS
       /\ forall worker, 0 <= worker -> present s !! Z.to_nat worker = Some true <-> counts_for sessions identity worker.
Proof.
  intros Hold Hw. assert (H0 : inventory_ok (fun _ _ => False) (StreamInventory_reset <$> old)).
  { split; [|tauto]. intros identity s Hs. rewrite lookup_fmap in Hs. destruct (old !! identity) as [s0|] eqn:E0; [|done].
    injection Hs as <-. cbn. split_and!; try done; [by rewrite length_fmap, (Hold identity s0)| |tauto].
    intros worker Hv. split; [|done]. rewrite list_lookup_fmap. by destruct (present s0 !! _). }
  unfold rebuild_inventory. destruct (@rebuild_loop_ok E sessions _ _ H0 Hw) as (i & -> & [H1 _]). cbn [mbind result_bind].
  eexists. split; [done|]. intros identity s Hs. apply map_lookup_filter_Some in Hs as [Hs Hseen]. cbn [snd] in Hseen.
  destruct (H1 identity s Hs) as (Ha & _ & Hc & Hd). rewrite Hseen in Hd. split_and!; try lia. intros worker Hv. rewrite Hc by done. tauto.
Qed.

(** ** From the inventory to the client *)

Lemma missing_from_spec {E : Type} fuel present worker :
  length present = 127%nat -> 0 <= worker -> worker + Z.of_nat fuel <= 127 ->
  exists l, @missing_from E fuel present worker = Ok l /\ StronglySorted Z.lt l
    /\ forall w, w ∈ l <-> worker <= w < worker + Z.of_nat fuel /\ present !! Z.to_nat w <> Some true.
Proof.
  intros Hl. revert worker. induction fuel as [|fuel IH]; intros worker Hw Hle; cbn [missing_from].
  { eexists. split; [done|]. split; [constructor|]. intros w. rewrite elem_of_nil. lia. }
  destruct (@at_ok E _ present worker) as (b & -> & Hb); [unfold len; lia|].
  destruct (IH (worker + 1) ltac:(lia) ltac:(lia)) as (l & -> & Hs & Hm). cbn [mbind result_bind mret result_ret].
  eexists. split; [done|]. destruct b.
  - split; [done|]. intros w. rewrite Hm. split; intros [H1 H2]; (split; [|done]); [lia|].
    destruct (decide (w = worker)) as [->|]; [congruence|lia].
  - split.
    + constructor; [done|]. apply Forall_forall. intros w Hw'. apply Hm in Hw'. lia.
    + intros w. rewrite elem_of_cons, Hm. split; [intros [->|[H1 H2]]; (split; [lia|]); congruence|].
      intros [H1 H2]. destruct (decide (w = worker)) as [->|]; [by left|right]. split; [lia|done].
Qed.

Lemma fill_missing_spec {E : Type} s :
  length (present s) = 127%nat -> 1 <= desired_count s <= MAX_STREAM_WORKERS ->
  exists l, @fill_missing E s = Ok l /\ StronglySorted Z.lt l
    /\ forall w, w ∈ l <-> 1 <= w <= desired_count s /\ present s !! Z.to_nat w <> Some true.
Proof.
  intros Hl Hd. unfold fill_missing, MAX_STREAM_WORKERS in *. rewrite Z.min_l by lia.
  destruct (@missing_from_spec E (Z.to_nat (desired_count s)) (present s) 1 Hl ltac:(lia) ltac:(lia)) as (l & -> & Hs & Hm).
  exists l. split_and!; try done. intros w. rewrite Hm. split; intros [H1 H2]; (split; [lia|done]).
Qed.

Lemma sorted_short l lo hi : StronglySorted Z.lt l -> Forall (fun w => lo <= w <= hi) l -> lo <= hi + 1 -> len l <= hi - lo + 1.
Proof.
  intros Hs. revert lo. induction Hs as [|x l Hs IH Hx]; intros lo Hf Hlo; [unfold len; cbn; lia|].
  apply Forall_cons in Hf as [Hxl Hf]. rewrite len_cons. enough (len l <= hi - (x + 1) + 1) by lia. apply IH; [|lia].
  apply Forall_forall. intros w Hw. rewrite Forall_forall in Hx, Hf. specialize (Hx w Hw). specialize (Hf w Hw). cbn in Hf. lia.
Qed.

Lemma parse_ids_built desired l :
  desired <= MAX_STREAM_WORKERS -> Forall (fun w => 1 <= w <= desired) l ->
  parse_worker_ids (mjoin (be_bytes 2 <$> l)) desired = Some l /\ len (mjoin (be_bytes 2 <$> l)) = 2 * len l.
Proof.
  intros Hd Hf. induction Hf as [|w l Hw _ [IH1 IH2]]; [done|]. unfold MAX_STREAM_WORKERS in Hd.
  assert (Hj : mjoin (be_bytes 2 <$> w :: l) = be_bytes 2 w ++ mjoin (be_bytes 2 <$> l)) by done.
  rewrite Hj. split; [|rewrite len_app, len_be_bytes, len_cons, IH2; lia].
  change (be_bytes 2 w ++ mjoin (be_bytes 2 <$> l)) with ((w / 256 ^ 1) mod 256 :: (w / 256 ^ 0) mod 256 :: mjoin (be_bytes 2 <$> l)).
  cbn [parse_worker_ids]. assert (Hv : be16 ((w / 256 ^ 1) mod 256) ((w / 256 ^ 0) mod 256) = w).
  { change (be_val (be_bytes 2 w) = w). apply be_val_be_bytes_id. lia. }
  rewrite Hv. destruct ((w =? 0) || (desired <? w)) eqn:E; [apply orb_true_iff in E as [E|E]; bool_prop; lia|]. by rewrite IH1.
Qed.

Lemma command_built prefix seq desired l :
  0 < seq < 2 ^ 64 -> 1 <= desired <= MAX_STREAM_WORKERS -> l <> [] -> Forall (fun w => 1 <= w <= desired) l -> len l <= MAX_STREAM_WORKERS ->
  parse_stream_command (stream_control_payload prefix seq desired l) prefix = Ok (mkCommand seq desired l).
Proof.
  intros Hseq Hd Hne Hf Hlen. destruct (parse_ids_built desired l ltac:(lia) Hf) as [Hids Hidl]. pose proof (len_nonneg l) as Hnn.
  unfold parse_stream_command, stream_control_payload. unfold MAX_STREAM_WORKERS in *. rewrite Z.min_l by lia.
  rewrite strip_prefix_app. cbn [try_ mbind result_bind]. rewrite (take_ge l) by (unfold len; lia).
  set (ids := mjoin (be_bytes 2 <$> l)) in *. set (rest := be_bytes 8 seq ++ be_bytes 2 desired ++ [u8_of (len l)] ++ ids).
  assert (Hrl : len rest = 11 + len ids).
  { unfold rest. rewrite !len_app, !len_be_bytes. change (len [_]) with 1. lia. }
  replace (len rest <? 11) with false by lia. rewrite (slice_ok rest 0 8) by lia. cbn [mbind result_bind].
  rewrite (slice_ok rest 8 10) by lia. cbn [mbind result_bind].
  assert (H1 : sub rest 0 8 = be_bytes 8 seq) by (apply sub_app_begin; by rewrite len_be_bytes).
  assert (H2 : sub rest 8 10 = be_bytes 2 desired) by (apply sub_app_mid; rewrite ?len_be_bytes; done).
  assert (H3 : @at_ unit _ rest 10 = Ok (len l)).
  { unfold rest. rewrite !app_assoc, <- app_assoc. rewrite at_app_r by (rewrite len_app, !len_be_bytes; lia).
    rewrite len_app, !len_be_bytes. cbn. unfold u8_of. by rewrite Z.mod_small by lia. }
  assert (H4 : @slice_from unit _ rest 11 = Ok ids).
  { unfold slice_from. rewrite slice_ok by lia. f_equal. unfold rest. rewrite !app_assoc. apply sub_app_tail.
    rewrite !len_app, !len_be_bytes. done. }
  rewrite H1, H2, H3. cbn [mbind result_bind]. rewrite H4. cbn [mbind result_bind].
  rewrite !be_val_be_bytes_id by (cbn; lia). unfold sat_mul, USIZE_MAX.
  replace (_ || _ || _ || _) with false by (symmetry; rewrite !orb_false_iff, negb_false_iff; lia).
  rewrite Hids. cbn [try_ mbind result_bind]. by rewrite bool_decide_eq_false_2.
Qed.

(** A round counts from one as soon as something is missing. *)
Definition round_ok (r : StreamRepairRound) : Prop := 0 <= sequence r < 2 ^ 64 /\ (last_missing r <> [] -> 1 <= sequence r).

Lemma next_sequence_range s : 1 <= next_sequence s < 2 ^ 64.
Proof. unfold next_sequence. pose proof (u64_of_range (s + 1)) as Hr. unfold is_u64 in Hr. lia. Qed.

Lemma repair_payload_some r missing desired now payload r' :
  round_ok r -> missing <> [] -> repair_payload r missing desired now = (Some payload, r') ->
  payload = stream_control_payload STREAM_REPAIR_PREFIX (sequence r') desired missing /\ 0 < sequence r' < 2 ^ 64 /\ last_missing r' = missing.
Proof.
  intros [Hr1 Hr2] Hne. unfold repair_payload. cbn zeta. set (r1 := if decide _ then r else _).
  assert (H1 : last_missing r1 = missing /\ 1 <= sequence r1 < 2 ^ 64).
  { unfold r1. destruct (decide _) as [->|]; [specialize (Hr2 Hne); split; [done|lia]|]; cbn [last_missing sequence]. split; [done|]. apply next_sequence_range. }
  destruct H1 as [H1 H2]. destruct (_ <? _); [done|]. destruct (_ && _); [done|]. intros [= <- <-]. cbn [sequence last_missing]. rewrite H1.
  split_and!; try done; destruct (negb _); pose proof (next_sequence_range (sequence r1)); lia.
Qed.

Lemma repair_payload_round r missing desired now :
  round_ok r -> missing <> [] -> round_ok (repair_payload r missing desired now).2.
Proof.
  intros [Hr1 Hr2] Hne. unfold repair_payload. cbn zeta. set (r1 := if decide _ then r else _).
  assert (H1 : round_ok r1).
  { unfold r1. destruct (decide _); [done|]. pose proof (next_sequence_range (sequence r)). split; cbn [sequence]; [lia|intros; lia]. }
  destruct (_ <? _); [done|]. destruct (_ && _); [done|]. destruct H1 as [Ha Hb]. pose proof (next_sequence_range (sequence r1)).
  split; cbn [snd sequence last_missing]; destruct (negb _); intros; (lia || specialize (Hb ltac:(done)); lia).
Qed.

Lemma recovered_alive_round r desired now : round_ok r -> round_ok (alive_payload (recovered r desired now) now).2.
Proof.
  intros [Hr1 Hr2]. assert (H1 : round_ok (recovered r desired now)).
  { unfold recovered. destruct (decide _); [done|]. split; cbn; [lia|done]. }
  unfold alive_payload. destruct (_ || _ || _); [done|]. exact H1.
Qed.

(** When the server rebuilds its inventory from the sessions it has, it
    counts without a panic, and whatever repair it then decides on for a client,
    the message is read by that client as exactly the workers between 1 and the
    desired count for which no registered session of this client exists, in
    increasing order, with the sequence number of the round; the message is a
    control message to the client and not an "alive" one. *)
Theorem stream_repair_end_to_end old sessions :
  (forall identity s, old !! identity = Some s -> length (present s) = 127%nat) -> Forall wf_session sessions ->
  exists inventory, @rebuild_inventory unit old sessions = Ok inventory
  /\ forall identity streams round now, inventory !! identity = Some streams -> round_ok round ->
     exists action round', @reconcile_round unit round streams now = Ok (action, round') /\ round_ok round'
     /\ forall a seq missing, action = Some a -> sa_repair a = Some (seq, missing) ->
        parse_stream_repair (sa_payload a) = Ok (mkCommand seq (desired_count streams) missing)
        /\ parse_stream_alive (sa_payload a) = none /\ is_control_response (sa_payload a) = true
        /\ StronglySorted Z.lt missing
        /\ forall w, w ∈ missing <-> 1 <= w <= desired_count streams /\ ~ counts_for sessions identity w.
Proof.
  intros Hold Hw. destruct (@rebuild_inventory_ok unit old sessions Hold Hw) as (inventory & -> & Hinv). exists inventory. split; [done|].
  intros identity streams round now Hs Hround. destruct (Hinv identity streams Hs) as (Hl & Hd & Hp).
  destruct (@fill_missing_spec unit streams Hl Hd) as (missing & Hm & Hsorted & Hin). unfold reconcile_round. rewrite Hm. cbn [mbind result_bind].
  assert (Hr0 : round_ok (seen_at round now)) by exact Hround.
  destruct (bool_decide (missing = [])) eqn:E; bool_prop.
  - pose proof (recovered_alive_round _ (desired_count streams) now Hr0) as Hr.
    destruct (alive_payload _ _) as [p r']. eexists _, _. split; [done|]. split; [exact Hr|]. intros a seq ms. by destruct p; intros [= <-].
  - pose proof (repair_payload_round _ missing (desired_count streams) now Hr0 E) as Hr.
    destruct (repair_payload _ _ _ _) as [p r'] eqn:Ep. eexists _, _. split; [done|]. split; [exact Hr|]. intros a seq ms Ha Hrep.
    destruct p as [payload|]; [|done]. apply (inj Some) in Ha. subst a. cbn in Hrep. injection Hrep as <- <-. cbn [sa_payload].
    apply repair_payload_some in Ep as (-> & Hseq & _); [|done|done].
    assert (Hf : Forall (fun w => 1 <= w <= desired_count streams) missing).
    { apply Forall_forall. intros w Hw'. by apply Hin in Hw' as [? _]. }
    unfold MAX_STREAM_WORKERS in Hd.
    split_and!; [|done|done|done|].
    + apply command_built; try done. etrans; [by apply (sorted_short missing 1 (desired_count streams)); [| |lia]|]. unfold MAX_STREAM_WORKERS. lia.
    + intros w. rewrite Hin. split; intros [H1 H2]; (split; [done|]); intros H3; apply H2; by apply (Hp w ltac:(lia)).
Qed.

Lemma stream_repair_end_to_end_witness :
  let session worker := mkStreamSession 5 4 true worker (b_ "phone") 1 (b_ "salt") in
  let sessions := [(0, session 1); (1, session 3)] in
  let identity : StreamIdentity := (b_ "phone", 1, b_ "salt") in
  exists inventory streams round' payload,
    @rebuild_inventory unit ∅ sessions = Ok inventory /\ inventory !! identity = Some streams
    /\ @reconcile_round unit (mkRound 1 [2; 4] 0 0 [] 0 0 0 0) streams 30000
       = Ok (Some (mkAction [0; 1] payload (Some (1, [2; 4]))), round')
    /\ parse_stream_repair payload = Ok (mkCommand 1 4 [2; 4]).
Proof.
  intros session sessions identity.
  destruct (stream_repair_end_to_end ∅ sessions) as (inventory & Hinv & Hall).
  { intros identity' s Hs. by rewrite lookup_empty in Hs. }
  { repeat (apply Forall_cons; split; [unfold wf_session, is_u64, is_u16; cbn; lia|]). constructor. }
  assert (Hs : @rebuild_inventory unit ∅ sessions ≫= (fun i => try_ tt (i !! identity))
    = Ok (mkInventory 4 5 (<[3%nat := true]> (<[1%nat := true]> (replicate 127 false))) [0; 1] true)) by (vm_compute; reflexivity).
  rewrite Hinv in Hs. cbn [mbind result_bind] in Hs. destruct (inventory !! identity) as [streams|] eqn:El; [|discriminate].
  cbn [try_] in Hs. injection Hs as ->.
  destruct (Hall identity _ (mkRound 1 [2; 4] 0 0 [] 0 0 0 0) 30000 El ltac:(split; cbn; [lia|intros; lia])) as (action & round' & Hr & _ & Hcmd).
  pose proof Hr as Hr'. vm_compute in Hr'. injection Hr' as <- <-.
  destruct (Hcmd _ 1 [2; 4] eq_refl eq_refl) as (Hparse & _).
  eexists _, _, _, _. split_and!; [exact Hinv|exact El|exact Hr|exact Hparse].
Defined.

(** ** When messages are sent *)

(** What one client has been sent: time and sequence number of each repair and
    of each confirmation. *)
Record SentLog := mkLog { log_repairs : list (Z * Z); log_alives : list (Z * Z) }.

Definition log_action (log : SentLog) (action : option StreamControlAction) (now seq : Z) : SentLog :=
  match action with
  | None => log
  | Some a => match sa_repair a with
              | Some _ => mkLog (log_repairs log ++ [(now, seq)]) (log_alives log)
              | None => mkLog (log_repairs log) (log_alives log ++ [(now, seq)])
              end
  end.

Fixpoint round_run (round : StreamRepairRound) (log : SentLog) (ticks : list (StreamInventory * Z)) : opt (StreamRepairRound * SentLog) :=
  match ticks with
  | [] => mret (round, log)
  | (streams, now) :: ticks =>
      done_ ← reconcile_round round streams now;
      round_run done_.2 (log_action log done_.1 now (sequence done_.2)) ticks
  end.

Definition repair_gap (x y : Z * Z) : Prop := x.1 + STREAM_REPAIR_GRACE_MS <= y.1 /\ x.2 < y.2.
Definition alive_gap (x y : Z * Z) : Prop := x.2 <= y.2 /\ (x.2 = y.2 -> x.1 + STREAM_ALIVE_INTERVAL_MS <= y.1).
Definition with_sequence (q : Z) (l : list (Z * Z)) : list (Z * Z) := filter (fun x => x.2 = q) l.

Record log_ok (log : SentLog) : Prop := {
  lo_repairs : StronglySorted repair_gap (log_repairs log);
  lo_alives : StronglySorted alive_gap (log_alives log);
  lo_count : forall q, len (with_sequence q (log_alives log)) <= STREAM_ALIVE_REPEAT;
}.

(** The state of the round and the log agree at time [t], after [n] ticks. *)
Record schedule_ok (r : StreamRepairRound) (log : SentLog) (t n : Z) : Prop := {
  sk_log : log_ok log;
  sk_sequence : 0 <= sequence r <= n;
  sk_past : Forall (fun x => x.1 <= t) (log_repairs log) /\ Forall (fun x => x.1 <= t) (log_alives log);
  sk_repairs : if decide (last_missing r = []) then Forall (fun x => x.2 <= sequence r) (log_repairs log)
               else if decide (last_sent_ms r = 0)
                    then Forall (fun x => x.1 <= first_missing_ms r /\ x.2 < sequence r) (log_repairs log)
                    else Forall (fun x => x.1 <= last_sent_ms r /\ x.2 <= sequence r) (log_repairs log);
  sk_alives : if decide (last_missing r = [])
              then Forall (fun x => x.2 <= sequence r /\ (x.2 = sequence r -> x.1 <= alive_sent_ms r)) (log_alives log)
                   /\ len (with_sequence (sequence r) (log_alives log)) = alive_sent r
                   /\ (alive_sent_ms r = 0 -> alive_sent r = 0)
              else Forall (fun x => x.2 < sequence r) (log_alives log);
}.

Lemma strongly_sorted_snoc {A} (R : A -> A -> Prop) l y : StronglySorted R l -> Forall (fun x => R x y) l -> StronglySorted R (l ++ [y]).
Proof.
  intros Hs Hf. induction Hs as [|x l Hs IH Hx]; cbn; [by repeat constructor|]. apply Forall_cons in Hf as [Hxy Hf].
  constructor; [by apply IH|]. apply Forall_app. split; [done|]. by apply Forall_singleton.
Qed.

Lemma with_sequence_snoc q l x : with_sequence q (l ++ [x]) = with_sequence q l ++ (if decide (x.2 = q) then [x] else []).
Proof. unfold with_sequence. rewrite filter_app. by cbn. Qed.

Lemma with_sequence_none q l : Forall (fun x => x.2 < q) l -> with_sequence q l = [].
Proof.
  intros Hf. unfold with_sequence. induction Hf as [|x l Hx _ IH]; [done|]. rewrite filter_cons. by rewrite decide_False by lia.
Qed.

Lemma next_sequence_small s : 0 <= s < 2 ^ 64 - 1 -> next_sequence s = s + 1.
Proof. intros Hs. unfold next_sequence, u64_of. rewrite Z.mod_small by lia. lia. Qed.

(** Settling what is missing: the round starts anew if the set changed. *)
Definition note_missing (r : StreamRepairRound) (missing : list Z) (now : Z) : StreamRepairRound :=
  if decide (missing = last_missing r) then r
  else mkRound (next_sequence (sequence r)) missing now 0 [] (alive_desired_count r) (alive_sent_ms r) 0 (last_seen_ms r).

Lemma note_missing_ok r log t n missing now :
  schedule_ok r log t n -> n < 2 ^ 64 - 1 -> t <= now -> missing <> [] ->
  schedule_ok (note_missing r missing now) log now (n + 1) /\ last_missing (note_missing r missing now) = missing
  /\ (missing <> last_missing r -> first_missing_ms (note_missing r missing now) = now)
  /\ (last_missing r = missing -> sequence (note_missing r missing now) <= n).
Proof.
  intros [Hlog Hseq [Hp1 Hp2] Hrep Hal] Hn Ht Hne. unfold note_missing. destruct (decide (missing = last_missing r)) as [->|Hch].
  - split_and!; [|done|done|lia]. split; try done; [lia|]. split; (eapply Forall_impl; [eassumption|]); intros [? ?]; cbn; intuition lia.
  - cbn [last_missing first_missing_ms sequence]. rewrite next_sequence_small by lia. split_and!; [|done|done|congruence].
    assert (Hp1' : Forall (fun x => x.1 <= now) (log_repairs log)) by (eapply Forall_impl; [eassumption|]; intros [? ?]; cbn; intuition lia).
    split; cbn [sequence last_missing last_sent_ms first_missing_ms]; try done; [lia| | |].
    + split; [done|]. eapply Forall_impl; [eassumption|]; intros [? ?]; cbn; intuition lia.
    + rewrite decide_False, decide_True by done. apply Forall_and. split; [done|].
      destruct (decide (last_missing r = [])); [|destruct (decide (last_sent_ms r = 0))]; (eapply Forall_impl; [exact Hrep|]); intros [? ?]; cbn; intuition lia.
    + rewrite decide_False by done. destruct (decide (last_missing r = [])); [destruct Hal as [Hal _]|]; (eapply Forall_impl; [exact Hal|]); intros [? ?]; cbn; intuition lia.
Qed.

Lemma repair_payload_schedule r log t n missing desired now p r' :
  schedule_ok r log t n -> n < 2 ^ 64 - 1 -> t <= now -> 0 < now -> missing <> [] -> repair_payload r missing desired now = (p, r') ->
  schedule_ok r' (match p with Some _ => mkLog (log_repairs log ++ [(now, sequence r')]) (log_alives log) | None => log end) now (n + 1).
Proof.
  intros Hsk Hn Ht Hnow Hne. destruct (note_missing_ok r log t n missing now Hsk Hn Ht Hne) as (Hok & Hlm & Hfm & Hsq).
  unfold repair_payload. fold (note_missing r missing now). revert Hok Hlm Hfm Hsq. generalize (note_missing r missing now) as r1.
  intros r1 Hok Hlm Hfm Hsq. cbn zeta.
  destruct (_ <? STREAM_REPAIR_GRACE_MS) eqn:E1; [by intros [= <- <-]|].
  destruct (negb _ && _) eqn:E2; [by intros [= <- <-]|]. intros [= <- <-]. cbn [sequence].
  unfold sat_sub, STREAM_REPAIR_GRACE_MS, STREAM_REPAIR_ESCALATE_MS in *. bool_prop.
  assert (Hsame : last_missing r = missing).
  { destruct (decide (missing = last_missing r)) as [|Hch]; [done|]. specialize (Hfm Hch). lia. }
  specialize (Hsq Hsame). destruct Hok as [[Hlr Hla Hlc] Hseq [Hp1 Hp2] Hrep Hal].
  rewrite decide_False in Hrep, Hal by congruence.
  set (seq' := if negb (last_sent_ms r1 =? 0) then next_sequence (sequence r1) else sequence r1).
  assert (Hkey : sequence r1 <= seq' <= n + 1 /\ Forall (fun x => repair_gap x (now, seq')) (log_repairs log)).
  { unfold seq', repair_gap, STREAM_REPAIR_GRACE_MS. destruct (decide (last_sent_ms r1 = 0)) as [E|E].
    - rewrite E. cbn. split; [lia|]. eapply Forall_impl; [exact Hrep|]. intros [? ?]. cbn. lia.
    - rewrite (proj2 (Z.eqb_neq _ _) E) in *. cbn [negb] in *. rewrite next_sequence_small by lia. split; [lia|].
      destruct E2 as [E2|E2]; [done|]. bool_prop. eapply Forall_impl; [exact Hrep|]. intros [? ?]. cbn. lia. }
  destruct Hkey as [Hk1 Hk2]. split; cbn [log_repairs log_alives sequence last_missing last_sent_ms]; [|lia| | |].
  - split; cbn [log_repairs log_alives]; [|done|done]. by apply strongly_sorted_snoc.
  - split; [|done]. apply Forall_app. split; [done|]. apply Forall_singleton. cbn. lia.
  - rewrite Hlm, decide_False by done. rewrite decide_False by lia. apply Forall_app. split; [|apply Forall_singleton; cbn; lia].
    eapply Forall_impl; [exact Hk2|]. intros [? ?] [H1 H2]. unfold STREAM_REPAIR_GRACE_MS in H1. cbn in *. lia.
  - rewrite Hlm, decide_False by done. eapply Forall_impl; [exact Hal|]. intros [? ?]. cbn. lia.
Qed.

Lemma recovered_schedule r log t n desired now :
  schedule_ok r log t n -> t <= now -> schedule_ok (recovered r desired now) log now (n + 1) /\ last_missing (recovered r desired now) = [].
Proof.
  intros [Hlog Hseq [Hp1 Hp2] Hrep Hal] Ht.
  assert (Hp : Forall (fun x => x.1 <= now) (log_repairs log) /\ Forall (fun x => x.1 <= now) (log_alives log)).
  { split; (eapply Forall_impl; [eassumption|]); intros [? ?]; cbn; lia. }
  unfold recovered. destruct (decide (last_missing r = [])) as [E|E].
  - split; [|done]. split; try done; [lia|by rewrite decide_True|by rewrite decide_True].
  - split; [|done]. split; cbn [sequence last_missing alive_sent_ms alive_sent]; try done; [lia| |].
    + rewrite decide_True by done. destruct (decide (last_sent_ms r = 0)); (eapply Forall_impl; [exact Hrep|]); intros [? ?]; cbn; lia.
    + rewrite decide_True by done. split_and!; [|by rewrite with_sequence_none|done].
      eapply Forall_impl; [exact Hal|]. intros [? ?]. cbn. lia.
Qed.

Lemma alive_payload_schedule r log n now p r' :
  schedule_ok r log now n -> last_missing r = [] -> 0 < now -> alive_payload r now = (p, r') ->
  schedule_ok r' (match p with Some _ => mkLog (log_repairs log) (log_alives log ++ [(now, sequence r')]) | None => log end) now n.
Proof.
  intros Hsk Hlm Hnow. unfold alive_payload. destruct (_ || _ || _) eqn:E; [by intros [= <- <-]|]. intros [= <- <-].
  apply orb_false_iff in E as [E E3]. apply orb_false_iff in E as [_ E2]. unfold STREAM_ALIVE_REPEAT, sat_sub, STREAM_ALIVE_INTERVAL_MS in *.
  bool_prop. destruct Hsk as [[Hlr Hla Hlc] Hseq [Hp1 Hp2] Hrep Hal]. rewrite decide_True in Hrep, Hal by done.
  destruct Hal as (Hal & Hcnt & Hzero). pose proof (len_nonneg (with_sequence (sequence r) (log_alives log))) as Hnn.
  assert (Hgap : Forall (fun x => alive_gap x (now, sequence r)) (log_alives log)).
  { apply Forall_forall. intros x Hx. rewrite Forall_forall in Hal. destruct (Hal x Hx) as [H1 H2]. split; cbn; [done|]. intros Hq. specialize (H2 Hq).
    destruct (decide (alive_sent_ms r = 0)) as [E0|E0].
    - specialize (Hzero E0). assert (Hin : x ∈ with_sequence (sequence r) (log_alives log)) by (by apply list_elem_of_filter).
      destruct (with_sequence _ _); [by apply elem_of_nil in Hin|]. rewrite len_cons in Hcnt. pose proof (len_nonneg l). lia.
    - unfold STREAM_ALIVE_INTERVAL_MS. destruct E3 as [E3|E3]; bool_prop; lia. }
  split; cbn [log_repairs log_alives sequence last_missing alive_sent_ms alive_sent]; [|done| | |].
  - split; cbn [log_repairs log_alives]; [done|by apply strongly_sorted_snoc|]. intros q. rewrite with_sequence_snoc, len_app. specialize (Hlc q).
    unfold STREAM_ALIVE_REPEAT in *. cbn [snd]. destruct (decide (sequence r = q)) as [<-|]; change (len [_]) with 1 || change (len []) with 0; lia.
  - split; [done|]. apply Forall_app. split; [done|]. apply Forall_singleton. cbn. lia.
  - by rewrite Hlm, decide_True.
  - rewrite Hlm, decide_True by done. split_and!; [| |lia].
    + apply Forall_app. split; [|apply Forall_singleton; cbn; lia]. apply Forall_forall. intros x Hx. rewrite Forall_forall in Hal, Hp2.
      destruct (Hal x Hx) as [H1 _]. split; [done|]. intros _. by apply Hp2.
    + rewrite with_sequence_snoc, len_app. cbn [snd]. rewrite decide_True by done. change (len [_]) with 1. lia.
Qed.

Lemma reconcile_round_schedule r log t n streams now action r' :
  schedule_ok r log t n -> n < 2 ^ 64 - 1 -> t <= now -> 0 < now -> reconcile_round (E := unit) r streams now = Ok (action, r') ->
  schedule_ok r' (log_action log action now (sequence r')) now (n + 1).
Proof.
  intros Hsk Hn Ht Hnow Hr. assert (Hseen : schedule_ok (seen_at r now) log t n) by (destruct Hsk; by split).
  unfold reconcile_round in Hr. apply bind_ok in Hr as (missing & _ & Hr). destruct (bool_decide (missing = [])) eqn:E; bool_prop.
  - destruct (recovered_schedule _ log t n (desired_count streams) now Hseen Ht) as [Hrec Hlm].
    destruct (alive_payload _ now) as [p r1] eqn:Ep. apply (alive_payload_schedule _ log (n + 1) now p r1 Hrec Hlm Hnow) in Ep.
    cbn in Hr. injection Hr as <- <-. by destruct p.
  - destruct (repair_payload _ missing _ now) as [p r1] eqn:Ep.
    apply (repair_payload_schedule _ log t n missing _ now p r1 Hseen Hn Ht Hnow E) in Ep. cbn in Hr. injection Hr as <- <-. by destruct p.
Qed.

Lemma round_run_schedule ticks r log t n r' log' :
  schedule_ok r log t n -> n + len ticks < 2 ^ 64 -> StronglySorted Z.le (t :: (snd <$> ticks)) -> Forall (fun x => 0 < x.2) ticks ->
  round_run r log ticks = Ok (r', log') -> log_ok log'.
Proof.
  revert r log t n. induction ticks as [|[streams now] ticks IH]; intros r log t n Hsk Hn Hs Hpos Hr.
  { injection Hr as <- <-. apply Hsk. }
  rewrite len_cons in Hn. pose proof (len_nonneg ticks). apply Forall_cons in Hpos as [Hnow Hpos]. cbn in Hnow.
  cbn [round_run] in Hr. apply bind_ok in Hr as ([action r1] & Hr1 & Hr). cbn [fst snd] in Hr.
  apply StronglySorted_inv in Hs as [Hs Ht]. cbn [fmap list_fmap snd] in Hs, Ht. apply Forall_cons in Ht as [Ht _].
  eapply (IH r1 _ now (n + 1)); [|lia|exact Hs|done|exact Hr]. eapply reconcile_round_schedule; [exact Hsk|lia|done|done|exact Hr1].
Qed.

(** Over the whole life of a round, whatever the inventory shows at each
    tick of a clock that never goes back, the messages of one client keep their
    distance: two repairs are at least thirty seconds apart and the later one
    has the greater sequence number, so that the client never takes it for a
    repetition; each recovery is confirmed at most twice, at least ten seconds
    apart. *)
Theorem repair_schedule ticks r log :
  StronglySorted Z.le (snd <$> ticks) -> Forall (fun x => 0 < x.2) ticks -> len ticks < 2 ^ 64 ->
  round_run StreamRepairRound_default (mkLog [] []) ticks = Ok (r, log) ->
  StronglySorted repair_gap (log_repairs log) /\ StronglySorted alive_gap (log_alives log)
  /\ forall q, len (with_sequence q (log_alives log)) <= STREAM_ALIVE_REPEAT.
Proof.
  intros Hs Hpos Hlen Hr.
  assert (H0 : schedule_ok StreamRepairRound_default (mkLog [] []) 0 0).
  { split; cbn; try done; [|by repeat constructor]. split; cbn; try constructor. intros q. change (0 <= 2). lia. }
  destruct (round_run_schedule ticks _ _ 0 0 r log H0 ltac:(lia)) as [H1 H2 H3]; try done.
  constructor; [done|]. apply Forall_fmap. eapply Forall_impl; [exact Hpos|]. intros [? ?]. cbn. lia.
Qed.

Lemma repair_schedule_witness :
  let streams missing := mkInventory 2 5 (<[(if missing : bool then 3%nat else 2%nat) := true]> (<[1%nat := true]> (replicate 127 false))) [0] true in
  let ticks := [(streams true, 3000); (streams true, 33000); (streams true, 63000); (streams true, 93000); (streams false, 96000);
                (streams false, 99000); (streams false, 106000); (streams false, 200000)] in
  exists r log, round_run StreamRepairRound_default (mkLog [] []) ticks = Ok (r, log)
    /\ log_repairs log = [(33000, 1); (93000, 2)] /\ log_alives log = [(96000, 2); (106000, 2)]
    /\ StronglySorted repair_gap (log_repairs log).
Proof.
  intros streams ticks.
  destruct (round_run StreamRepairRound_default (mkLog [] []) ticks) as [[r log]| |] eqn:E; [|vm_compute in E; discriminate..].
  exists r, log. split; [reflexivity|]. pose proof E as E'. vm_compute in E'. injection E' as <- <-.
  split; [reflexivity|]. split; [reflexivity|]. refine (proj1 (repair_schedule ticks _ _ _ _ _ E)).
  - cbn. repeat constructor; lia.
  - cbn. repeat constructor; cbn; lia.
  - vm_compute; reflexivity.
Defined.

(** ** Reconciliation always returns *)

Definition inventory_wf (inventory : gmap StreamIdentity StreamInventory) : Prop :=
  map_Forall (fun _ s => length (present s) = 127%nat /\ 1 <= desired_count s <= MAX_STREAM_WORKERS) inventory.

(** What goes over the carriers is short. *)
Definition control_payload_ok (p : bytes) : Prop := wf_bytes p /\ len p <= 1024.

Lemma wf_control_payload prefix sequence desired ids :
  wf_bytes prefix -> len prefix <= 256 -> control_payload_ok (stream_control_payload prefix sequence desired ids).
Proof.
  intros Hp Hl. split.
  2: { unfold stream_control_payload. lens. pose proof (len_nonneg ids).
       assert (Hj : forall l : list Z, len (mjoin (be_bytes 2 <$> l)) = 2 * len l).
       { induction l as [|x l IH]; [done|]. change (mjoin (be_bytes 2 <$> x :: l)) with (be_bytes 2 x ++ mjoin (be_bytes 2 <$> l)).
         rewrite len_app, len_be_bytes, len_cons, IH. lia. }
       rewrite Hj. unfold len at 2. rewrite length_take. lia. }
  unfold stream_control_payload. unfold wf_bytes in *. rewrite !Forall_app. split_and!; [done|apply wf_be_bytes|apply wf_be_bytes| |].
  - constructor; [apply u8_of_range|constructor].
  - induction (take _ ids) as [|x l IH]; [constructor|]. rewrite fmap_cons. cbn [mjoin list_join]. apply Forall_app_2; [apply wf_be_bytes|done].
Qed.

Lemma reconcile_round_total {E : Type} round s now :
  length (present s) = 127%nat -> 1 <= desired_count s <= MAX_STREAM_WORKERS ->
  exists a round', @reconcile_round E round s now = Ok (a, round') /\ (forall x, a = Some x -> control_payload_ok (sa_payload x)).
Proof.
  intros Hl Hd. unfold reconcile_round. destruct (@fill_missing_spec E s Hl Hd) as (missing & -> & _). cbn [mbind result_bind].
  assert (Hpre : wf_bytes STREAM_REPAIR_PREFIX /\ wf_bytes STREAM_ALIVE_PREFIX) by (split; apply (bool_decide_unpack _); vm_compute; exact I).
  destruct Hpre as [Hr Ha]. destruct (bool_decide (missing = [])).
  - unfold alive_payload. destruct (_ || _); eexists _, _; (split; [reflexivity|]); intros x; [done|].
    intros [= <-]. by apply wf_control_payload.
  - unfold repair_payload. destruct (_ <? STREAM_REPAIR_GRACE_MS); [by eexists _, _|]. destruct (_ && _); [by eexists _, _|].
    eexists _, _. split; [reflexivity|]. intros x [= <-]. by apply wf_control_payload.
Qed.

Lemma reconcile_rounds_total {E : Type} inventory repairs now :
  Forall (fun x : StreamIdentity * StreamInventory => length (present x.2) = 127%nat /\ 1 <= desired_count x.2 <= MAX_STREAM_WORKERS) inventory ->
  exists actions repairs', @reconcile_rounds E inventory repairs now = Ok (actions, repairs')
    /\ Forall (fun a => control_payload_ok (sa_payload a)) actions.
Proof.
  intros Hall. revert repairs. induction Hall as [|[identity s] inventory [Hl Hd] _ IH]; intros repairs; cbn [reconcile_rounds].
  { by eexists _, _. }
  destruct (@reconcile_round_total E (default StreamRepairRound_default (repairs !! identity)) s now Hl Hd) as (a & round' & -> & Ha).
  cbn [mbind result_bind fst snd]. destruct (IH (<[identity := round']> repairs)) as (actions & repairs' & -> & Hact).
  cbn. eexists _, _. split; [reflexivity|]. apply Forall_app_2; [|done]. destruct a as [x|]; [|constructor].
  constructor; [by apply Ha|constructor].
Qed.

Lemma reconcile_streams_total {E : Type} r sessions :
  inventory_wf (stream_inventory r) -> Forall wf_session sessions ->
  exists actions r', @reconcile_streams E r sessions = Ok (actions, r') /\ inventory_wf (stream_inventory r')
    /\ monotonic_ms r' = monotonic_ms r /\ Forall (fun a => control_payload_ok (sa_payload a)) actions.
Proof.
  intros Hi Hs. unfold reconcile_streams. destruct (_ <? STREAM_RECONCILE_INTERVAL_MS); [by eexists _, _|]. cbv zeta.
  set (rebuild := _ || _).
  assert (Hinv : exists inventory, (if rebuild then @rebuild_inventory E (stream_inventory r) sessions else mret (stream_inventory r)) = Ok inventory
    /\ inventory_wf inventory).
  { destruct rebuild; [|by eexists].
    destruct (@rebuild_inventory_ok E (stream_inventory r) sessions) as (inventory & -> & Hok); [|done|].
    - intros identity s E0. by apply (Hi _ _ E0).
    - exists inventory. split; [done|]. intros identity s E0. destruct (Hok identity s E0) as (H1 & H2 & _). done. }
  destruct Hinv as (inventory & -> & Hw). cbn [mbind result_bind].
  destruct (@reconcile_rounds_total E (map_to_list inventory) (stream_repairs r) (monotonic_ms r)) as (actions & repairs & -> & Ha).
  { apply Forall_forall. intros [k s] Hin%elem_of_map_to_list. by apply (Hw k s). }
  cbn. by eexists _, _.
Qed.
