(* ===== verification/TurnStream.v ===== *)
(** * Channel data and the TURN byte stream
    ([rust-client/turn_stream.rs], the packet half of [rust-client/turn.rs])

    Tunnel packets travel through the relay as ChannelData: a four-byte header
    in front, padding to a multiple of four behind.  Over TCP and TLS they share
    one byte stream with the STUN messages, and the reader cuts the stream back
    into frames whatever pieces it arrives in. *)

From S2P Require Import Prelude Packet Stun Turn.

Definition MAX_CONTROL_FRAME_BYTES : Z := 4096.
Definition MAX_DATA_FRAME_BYTES : Z := CLIENT_PACKET_CAPACITY - PACKET_HEADROOM.
Definition STREAM_READ_BUFFER_BYTES : Z := MAX_CONTROL_FRAME_BYTES.
Definition COOKIE : bytes := [0x21; 0x12; 0xa4; 0x42].

(** [(4 - n % 4) % 4] *)
Definition padding_of (n : Z) : Z := (4 - n mod 4) mod 4.

(** ** ChannelData *)

Definition channel_data_header {E : Type} (wire : bytes) : result E (option (Z * Z)) :=
  if len wire <? 4 then mret None else
  w0 ← at_ wire 0;
  if negb (Z.land w0 0xc0 =? 0x40) then mret None else
  w1 ← at_ wire 1;
  let channel := be16 w0 w1 in
  if negb ((0x4000 <=? channel) && (channel <=? 0x7fff)) then mret None else
  w2 ← at_ wire 2;
  w3 ← at_ wire 3;
  let payload_length := be16 w2 w3 in
  if len wire - 4 <? payload_length then mret None else
  if 3 <? len wire - 4 - payload_length then mret None else
  mret (Some (channel, payload_length)).

Definition is_stun {E : Type} (wire : bytes) : result E bool :=
  if len wire <? 20 then mret false else
  w0 ← at_ wire 0;
  if negb (Z.land w0 0xc0 =? 0) then mret false else
  cookie ← slice wire 4 8;
  mret (bytes_eqb cookie COOKIE).

Definition channel_data_padding (packet : ClientBuf) (channel : Z) : result string Z :=
  if negb ((0x4000 <=? channel) && (channel <=? 0x7fff)) then Err "TURN channel is invalid"%string else
  let payload_length := ClientBuf_len packet in
  if U16_MAX <? payload_length then Err "TURN payload too large"%string else
  let padding := padding_of payload_length in
  if (cb_start packet <? 4)
     || match checked_add (cb_end packet) padding with Some e => CLIENT_PACKET_CAPACITY <? e | None => true end
  then Err "TURN ChannelData exceeds packet buffer"%string else mret padding.

Definition range_error {A : Type} (r : result packet_error A) : result string A :=
  match r with Ok a => Ok a | Err _ => Err "packet range"%string | Panic => Panic end.

Definition encode_channel_data (packet : ClientBuf) (channel : Z) : result string ClientBuf :=
  padding ← channel_data_padding packet channel;
  let payload_length := ClientBuf_len packet in
  let tail_start := cb_end packet in
  packet ← range_error (ClientBuf_extend_tail packet padding);
  storage ← copy_into (cb_storage packet) tail_start (tail_start + padding) (zeroed padding);
  packet ← range_error (ClientBuf_prepend (mkClientBuf storage (cb_start packet) (cb_end packet)) 4);
  let start := cb_start packet in
  storage ← copy_into (cb_storage packet) start (start + 2) (be_bytes 2 channel);
  storage ← copy_into storage (start + 2) (start + 4) (be_bytes 2 (u16_of payload_length));
  mret (mkClientBuf storage (cb_start packet) (cb_end packet)).

(** ** Dispatch of a received packet *)

Inductive PacketAction := Wait | Pump | OwnerClosed.
(** What [incoming.try_send] answers. *)
Inductive TrySend := Sent | Full | Closed.

(** [process_packet_measured]: the action, the packet handed to the owner if
    any, the queue-full drops and the state of the core. *)
Definition process_packet_measured `{StunHash} (c : Setup) (i : Inner) (channel drops : Z) (answer : TrySend) (packet : ClientBuf)
    (now : Z) (transaction : bytes) : result string (PacketAction * option ClientBuf * Z * Inner) :=
  wire ← ClientBuf_as_slice packet;
  header ← channel_data_header wire;
  match header with
  | Some (ch, payload_length) =>
      if negb (ch =? channel) then mret (Wait, None, drops, i) else
      match ClientBuf_trim_front packet 4 with
      | Panic => Panic
      | Err _ => mret (Wait, None, drops, i)
      | Ok packet =>
          match ClientBuf_truncate packet payload_length with
          | Panic => Panic
          | Err _ => mret (Wait, None, drops, i)
          | Ok packet =>
              match answer with
              | Sent => mret (Wait, Some packet, drops, i)
              | Full => mret (Wait, None, drops + 1, i)
              | Closed => mret (OwnerClosed, None, drops, i)
              end
          end
      end
  | None =>
      stun ← is_stun wire;
      if (stun : bool) then done_ ← input_stun c i wire now transaction; mret (Pump, None, drops, done_.2)
      else mret (Wait, None, drops, i)
  end.

(** [process_deficit_packet_measured], when the pool is empty. *)
Definition process_deficit_packet_measured `{StunHash} (c : Setup) (i : Inner) (channel deficit_drops : Z) (wire : bytes)
    (now : Z) (transaction : bytes) : result string (PacketAction * Z * Inner) :=
  header ← channel_data_header wire;
  match header with
  | Some (ch, _) => mret (Wait, if ch =? channel then deficit_drops + 1 else deficit_drops, i)
  | None =>
      stun ← is_stun wire;
      if (stun : bool) then done_ ← input_stun c i wire now transaction; mret (Pump, deficit_drops, done_.2)
      else mret (Wait, deficit_drops, i)
  end.

(** ** Frames of the stream *)

Inductive TurnStreamFrame := Control_ (frame : bytes) | Data (packet : ClientBuf) | DataDropped.
Inductive FrameKind := FrameControl (frame_bytes : Z) | FrameChannelData (frame_bytes padding : Z).
Inductive StreamDecode := Frame (frame : TurnStreamFrame) | NeedMore.

Definition frame_start (bytes_ : bytes) : result string (option FrameKind) :=
  if len bytes_ <? 4 then mret None else
  b2 ← at_ bytes_ 2;
  b3 ← at_ bytes_ 3;
  let declared := be16 b2 b3 in
  b0 ← at_ bytes_ 0;
  if Z.land b0 0xc0 =? 0 then
    if negb (declared mod 4 =? 0) then Err "TURN stream control frame has an unaligned length"%string else
    frame_bytes ← try_ "TURN stream control frame length overflows"%string (checked_add 20 declared);
    if MAX_CONTROL_FRAME_BYTES <? frame_bytes then Err "TURN stream control frame exceeds the hard limit"%string else
    if len bytes_ <? 8 then mret None else
    cookie ← slice bytes_ 4 8;
    if negb (bytes_eqb cookie COOKIE) then Err "TURN stream control frame has an invalid magic cookie"%string else
    mret (Some (FrameControl frame_bytes))
  else if negb (Z.land b0 0xc0 =? 0x40) then Err "TURN stream received a frame in the reserved type range"%string else
  frame_bytes ← try_ "TURN stream ChannelData frame length overflows"%string (checked_add 4 declared);
  let padding := padding_of declared in
  if MAX_DATA_FRAME_BYTES <? frame_bytes + padding then Err "TURN stream ChannelData frame exceeds packet capacity"%string else
  mret (Some (FrameChannelData frame_bytes padding)).

Definition copy_channel_data (wire : bytes) (pool : ClientPool) : result string (TurnStreamFrame * ClientPool) :=
  let '(acquired, pool) := ClientPool_try_acquire pool in
  match acquired with
  | None => mret (DataDropped, pool)
  | Some packet =>
      packet ← range_error (ClientBuf_set_read_len packet (len wire));
      storage ← copy_into (cb_storage packet) (cb_start packet) (cb_end packet) wire;
      mret (Data (mkClientBuf storage (cb_start packet) (cb_end packet)), pool)
  end.

(** [decode_frame] and [take_frame]; [split_to] panics beyond the buffer. *)
Definition decode_frame (buffer : bytes) (pool : ClientPool) : result string (StreamDecode * bytes * ClientPool) :=
  kind ← frame_start buffer;
  match kind with
  | None => mret (NeedMore, buffer, pool)
  | Some (FrameControl frame_bytes) =>
      if len buffer <? frame_bytes then mret (NeedMore, buffer, pool) else
      frame ← slice buffer 0 frame_bytes;
      rest ← slice_from buffer frame_bytes;
      mret (Frame (Control_ frame), rest, pool)
  | Some (FrameChannelData frame_bytes padding) =>
      if len buffer <? frame_bytes + padding then mret (NeedMore, buffer, pool) else
      wire ← slice buffer 0 (frame_bytes + padding);
      rest ← slice_from buffer (frame_bytes + padding);
      copied ← copy_channel_data wire pool;
      mret (Frame copied.1, rest, copied.2)
  end.

(** [read_frame]: each round of the loop reads one piece of the stream, which
    the socket cuts as it likes; no piece left, or an empty one, is the end of
    the stream. *)
Fixpoint read_frame (chunks : list bytes) (buffer : bytes) (pool : ClientPool)
    : result string (TurnStreamFrame * bytes * list bytes * ClientPool) :=
  done_ ← decode_frame buffer pool;
  match done_ with
  | (Frame frame, buffer, pool) => mret (frame, buffer, chunks, pool)
  | (NeedMore, buffer, pool) =>
      if STREAM_READ_BUFFER_BYTES <=? len buffer then Err "TURN stream frame buffer reached its hard limit"%string else
      match chunks with
      | [] => Err "TURN stream closed by remote peer"%string
      | chunk :: chunks =>
          if len chunk =? 0 then Err "TURN stream closed by remote peer"%string
          else read_frame chunks (buffer ++ chunk) pool
      end
  end.

(** ** Well-formed frames *)

Definition frame_head (b0 b1 declared : Z) : bytes := [b0; b1] ++ be_bytes 2 declared.

(** A STUN message the reader takes, and a ChannelData message with its padding. *)
Inductive WireFrame : bytes -> bool -> Prop :=
| wf_control b0 b1 declared tail :
    Z.land b0 0xc0 = 0 -> 0 <= declared -> declared mod 4 = 0 -> 20 + declared <= MAX_CONTROL_FRAME_BYTES ->
    len (COOKIE ++ tail) = 16 + declared ->
    WireFrame (frame_head b0 b1 declared ++ COOKIE ++ tail) true
| wf_data b0 b1 declared tail :
    Z.land b0 0xc0 = 0x40 -> 0 <= declared -> 4 + declared + padding_of declared <= MAX_DATA_FRAME_BYTES ->
    len tail = declared + padding_of declared ->
    WireFrame (frame_head b0 b1 declared ++ tail) false.

Lemma len_frame_head b0 b1 d : len (frame_head b0 b1 d) = 4.
Proof. done. Qed.

Lemma padding_range n : 0 <= padding_of n <= 3 /\ (n + padding_of n) mod 4 = 0.
Proof. unfold padding_of. Z.to_euclidean_division_equations. lia. Qed.

Lemma head_bytes {E : Type} b0 b1 d x :
  0 <= d < 2 ^ 16 ->
  exists b2 b3, @at_ E _ (frame_head b0 b1 d ++ x) 2 = Ok b2 /\ @at_ E _ (frame_head b0 b1 d ++ x) 3 = Ok b3 /\ be16 b2 b3 = d
    /\ @at_ E _ (frame_head b0 b1 d ++ x) 0 = Ok b0 /\ @at_ E _ (frame_head b0 b1 d ++ x) 1 = Ok b1.
Proof.
  intros Hd. exists ((d / 256 ^ 1) mod 256), ((d / 256 ^ 0) mod 256). split_and!; try done.
  change (be_val (be_bytes 2 d) = d). apply be_val_be_bytes_id. lia.
Qed.

Lemma start_control b0 b1 d x :
  Z.land b0 0xc0 = 0 -> 0 <= d -> d mod 4 = 0 -> 20 + d <= MAX_CONTROL_FRAME_BYTES -> (4 <= len x -> exists y, x = COOKIE ++ y) ->
  frame_start (frame_head b0 b1 d ++ x) = Ok (if len x <? 4 then None else Some (FrameControl (20 + d))).
Proof.
  intros H0 Hd Hm Hmax Hx. unfold MAX_CONTROL_FRAME_BYTES in Hmax.
  unfold frame_start. rewrite len_app, len_frame_head. pose proof (len_nonneg x). replace (4 + len x <? 4) with false by lia.
  destruct (@head_bytes string b0 b1 d x ltac:(lia)) as (b2 & b3 & -> & -> & Hb & -> & _). cbn [mbind result_bind]. rewrite Hb, H0, Hm.
  cbn [Z.eqb negb]. unfold checked_add, USIZE_MAX, MAX_CONTROL_FRAME_BYTES. replace (20 + d <=? _) with true by lia.
  cbn [try_ mbind result_bind]. replace (4096 <? 20 + d) with false by lia. replace (4 + len x <? 8) with (len x <? 4) by lia.
  destruct (len x <? 4) eqn:E; bool_prop; [done|]. destruct (Hx E) as (y & ->).
  rewrite slice_ok by (rewrite ?len_app, ?len_frame_head; change (len COOKIE) with 4; pose proof (len_nonneg y); lia).
  rewrite (sub_app_mid (frame_head b0 b1 d) COOKIE y) by done. cbn [mbind result_bind]. done.
Qed.

Lemma start_data b0 b1 d x :
  Z.land b0 0xc0 = 0x40 -> 0 <= d -> 4 + d + padding_of d <= MAX_DATA_FRAME_BYTES ->
  frame_start (frame_head b0 b1 d ++ x) = Ok (Some (FrameChannelData (4 + d) (padding_of d))).
Proof.
  intros H0 Hd Hmax. pose proof (padding_range d) as [Hp _]. unfold MAX_DATA_FRAME_BYTES, CLIENT_PACKET_CAPACITY, PACKET_HEADROOM in *.
  unfold frame_start. rewrite len_app, len_frame_head. pose proof (len_nonneg x). replace (4 + len x <? 4) with false by lia.
  destruct (@head_bytes string b0 b1 d x ltac:(lia)) as (b2 & b3 & -> & -> & Hb & -> & _). cbn [mbind result_bind]. rewrite Hb, H0.
  cbn [Z.eqb Pos.eqb negb]. unfold checked_add, USIZE_MAX, MAX_DATA_FRAME_BYTES, CLIENT_PACKET_CAPACITY, PACKET_HEADROOM.
  replace (4 + d <=? _) with true by lia. cbn [try_ mbind result_bind]. by replace (_ <? 4 + d + padding_of d) with false by lia.
Qed.

(** A piece of [head ++ tail] of at least the head's length. *)
Lemma cut_head {A} (h tail b more : list A) : h ++ tail = b ++ more -> len h <= len b -> exists x, b = h ++ x /\ tail = x ++ more.
Proof.
  intros He Hl. apply app_eq_inv in He as [(k & -> & ->)|(k & -> & ->)]; [|by exists k].
  rewrite len_app in Hl. assert (len k = 0) as Hk by (pose proof (len_nonneg k); lia). destruct k; [|by rewrite len_cons in Hk; pose proof (len_nonneg k); lia].
  exists []. by rewrite !app_nil_r.
Qed.

(** What the pool makes of a ChannelData frame. *)
Definition delivered (control : bool) (f : bytes) (pool : ClientPool) (out : TurnStreamFrame) (pool' : ClientPool) : Prop :=
  if control then out = Control_ f /\ pool' = pool
  else match ClientPool_try_acquire pool with
       | (Some _, p) => pool' = p /\ exists packet, out = Data packet /\ window packet = f /\ client_buf_wf packet
       | (None, p) => pool' = p /\ out = DataDropped
       end.

Definition pool_full_blocks (pool : ClientPool) : Prop := Forall (fun s => len s = CLIENT_PACKET_CAPACITY) (cp_queue pool).

Lemma acquire_blocks pool packet pool' :
  pool_full_blocks pool -> ClientPool_try_acquire pool = (packet, pool') ->
  pool_full_blocks pool' /\ forall p, packet = Some p -> len (cb_storage p) = CLIENT_PACKET_CAPACITY.
Proof.
  intros Hp. unfold ClientPool_try_acquire, pool_full_blocks in *. destruct (cp_queue pool) as [|s q] eqn:E.
  - destruct (_ <? _); intros [= <- <-]; (split; [cbn; rewrite ?E; constructor|]); [|done]. intros p [= <-]. by apply len_zeroed.
  - apply Forall_cons in Hp as [Hs Hq]. intros [= <- <-]. split; [done|]. by intros p [= <-].
Qed.

Lemma copy_channel_data_ok f pool :
  pool_full_blocks pool -> len f <= MAX_DATA_FRAME_BYTES ->
  exists out pool', copy_channel_data f pool = Ok (out, pool') /\ delivered false f pool out pool' /\ pool_full_blocks pool'.
Proof.
  intros Hp Hl. unfold copy_channel_data, delivered. destruct (ClientPool_try_acquire pool) as [[packet|] pool'] eqn:E.
  - destruct (acquire_blocks _ _ _ Hp E) as [Hp' Hlen]. specialize (Hlen packet eq_refl).
    unfold ClientBuf_set_read_len, MAX_DATA_FRAME_BYTES, CLIENT_PACKET_CAPACITY, PACKET_HEADROOM in *. pose proof (len_nonneg f).
    replace (2304 - 64 <? len f) with false by lia. cbn [range_error mbind result_bind cb_storage cb_start cb_end].
    rewrite copy_into_ok by lia. cbn [mbind result_bind]. eexists _, _. split; [done|]. split; [|done]. split; [done|].
    eexists. split; [done|]. unfold window, client_buf_wf, CLIENT_PACKET_CAPACITY. cbn [cb_storage cb_start cb_end].
    rewrite len_splice by lia. split; [|lia]. unfold splice. apply sub_app_mid; rewrite len_sub || idtac; unfold len in *; rewrite ?length_take; lia.
  - destruct (acquire_blocks _ _ _ Hp E) as [Hp' _]. eexists _, _. split; [done|]. by split.
Qed.

Lemma wire_frame_len f control : WireFrame f control -> 4 <= len f <= MAX_CONTROL_FRAME_BYTES.
Proof.
  intros [b0 b1 d tail _ Hd _ Hmax Hl|b0 b1 d tail _ Hd Hmax Hl]; rewrite len_app, len_frame_head, Hl; [lia|].
  pose proof (padding_range d). unfold MAX_DATA_FRAME_BYTES, MAX_CONTROL_FRAME_BYTES, CLIENT_PACKET_CAPACITY, PACKET_HEADROOM in *. lia.
Qed.

Lemma split_first (f rest : bytes) n : n = len f ->
  @slice string _ (f ++ rest) 0 n = Ok f /\ @slice_from string _ (f ++ rest) n = Ok rest.
Proof.
  intros ->. pose proof (len_nonneg f). pose proof (len_nonneg rest). unfold slice_from. rewrite !slice_ok by (rewrite ?len_app; lia).
  by rewrite sub_app_begin, sub_app_tail.
Qed.

Lemma decode_complete f control rest pool :
  WireFrame f control -> pool_full_blocks pool ->
  exists out pool', decode_frame (f ++ rest) pool = Ok (Frame out, rest, pool') /\ delivered control f pool out pool' /\ pool_full_blocks pool'.
Proof.
  intros Hf Hp. pose proof (len_nonneg rest) as Hr. unfold decode_frame.
  destruct Hf as [b0 b1 d tail H0 Hd Hm Hmax Hl|b0 b1 d tail H0 Hd Hmax Hl].
  - set (f := frame_head b0 b1 d ++ COOKIE ++ tail). assert (Hfl : len f = 20 + d) by (unfold f; rewrite len_app, len_frame_head, Hl; lia).
    assert (Hst : frame_start (f ++ rest) = Ok (Some (FrameControl (20 + d)))).
    { unfold f. rewrite <- !app_assoc. rewrite start_control; try done; [|by eexists].
      rewrite len_app. change (len COOKIE) with 4. pose proof (len_nonneg (tail ++ rest)). by replace (_ <? 4) with false by lia. }
    rewrite Hst. cbn [mbind result_bind]. rewrite len_app, Hfl. replace (_ <? _) with false by lia.
    destruct (split_first f rest (20 + d) ltac:(lia)) as [-> ->]. eexists _, _. split; [done|]. by split.
  - set (f := frame_head b0 b1 d ++ tail). pose proof (padding_range d) as [Hpr _].
    assert (Hfl : len f = 4 + d + padding_of d) by (unfold f; rewrite len_app, len_frame_head, Hl; lia).
    assert (Hst : frame_start (f ++ rest) = Ok (Some (FrameChannelData (4 + d) (padding_of d)))).
    { unfold f. rewrite <- !app_assoc. by apply start_data. }
    rewrite Hst. cbn [mbind result_bind]. rewrite len_app, Hfl. replace (_ <? _) with false by lia.
    destruct (split_first f rest (4 + d + padding_of d) ltac:(lia)) as [-> ->]. cbn [mbind result_bind].
    destruct (copy_channel_data_ok f pool Hp ltac:(lia)) as (out & pool' & -> & Hdel & Hp'). eexists _, _. split; [done|]. by split.
Qed.

Lemma decode_partial f control b more pool :
  WireFrame f control -> f = b ++ more -> more <> [] -> decode_frame b pool = Ok (NeedMore, b, pool).
Proof.
  intros Hf He Hne. assert (Hmore : 0 < len more) by (destruct more; [done|]; rewrite len_cons; pose proof (len_nonneg more); lia).
  unfold decode_frame. destruct (Z.lt_ge_cases (len b) 4) as [Hs|Hs].
  { unfold frame_start. by replace (len b <? 4) with true by lia. }
  destruct Hf as [b0 b1 d tail H0 Hd Hm Hmax Hl|b0 b1 d tail H0 Hd Hmax Hl];
    (destruct (cut_head _ _ _ _ He) as (x & -> & Ht); [by rewrite len_frame_head|]).
  - rewrite Ht, len_app in Hl. rewrite start_control; try done.
    + destruct (len x <? 4) eqn:E; cbn [mbind result_bind]; [done|]. rewrite len_app, len_frame_head. by replace (_ <? _) with true by lia.
    + intros Hx. destruct (cut_head _ _ _ _ Ht Hx) as (y & -> & _). by exists y.
  - rewrite Ht, len_app in Hl. rewrite start_data by done. cbn [mbind result_bind]. rewrite len_app, len_frame_head.
    by replace (_ <? _) with true by lia.
Qed.

Lemma decode_never_blocks buffer pool :
  wf_bytes buffer -> pool_full_blocks pool ->
  safe (decode_frame buffer pool)
  /\ forall b p, decode_frame buffer pool = Ok (NeedMore, b, p) -> len buffer < STREAM_READ_BUFFER_BYTES.
Proof.
  intros Hw Hp. unfold STREAM_READ_BUFFER_BYTES, MAX_CONTROL_FRAME_BYTES, decode_frame, frame_start.
  destruct (len buffer <? 4) eqn:E0; bool_prop; [split; [done|lia]|].
  destruct (@at_ok string _ buffer 2 ltac:(lia)) as (b2 & -> & Hb2). destruct (@at_ok string _ buffer 3 ltac:(lia)) as (b3 & -> & Hb3).
  destruct (@at_ok string _ buffer 0 ltac:(lia)) as (b0 & -> & _). cbn [mbind result_bind]. set (d := be16 b2 b3).
  assert (Hd : 0 <= d < 2 ^ 16).
  { apply be16_bound; (eapply Forall_lookup_1; [exact Hw|]); eassumption. }
  unfold checked_add, USIZE_MAX. replace (20 + d <=? _) with true by lia. replace (4 + d <=? _) with true by lia. cbn [try_ mbind result_bind].
  destruct (Z.land b0 192 =? 0).
  - destruct (negb _); [done|]. unfold MAX_CONTROL_FRAME_BYTES. destruct (4096 <? 20 + d) eqn:E1; bool_prop; [done|].
    destruct (len buffer <? 8) eqn:E2; bool_prop; [split; [done|lia]|]. rewrite (slice_ok buffer 4 8) by lia. cbn [mbind result_bind].
    destruct (negb _); [done|]. cbn [mbind result_bind mret result_ret]. destruct (len buffer <? 20 + d) eqn:E3; bool_prop; [split; [done|lia]|].
    unfold slice_from. rewrite !slice_ok by lia. done.
  - destruct (negb _); [done|]. pose proof (padding_range d) as [Hpr _]. destruct (MAX_DATA_FRAME_BYTES <? _) eqn:E1; bool_prop; [done|].
    cbn [mbind result_bind mret result_ret]. assert (Hm : 4 + d + padding_of d <= 2240) by exact E1.
    destruct (len buffer <? _) eqn:E3; bool_prop; [split; [done|lia]|].
    unfold slice_from. rewrite !slice_ok by lia. cbn [mbind result_bind].
    destruct (copy_channel_data_ok (sub buffer 0 (4 + d + padding_of d)) pool Hp) as (out & pool' & -> & _); [rewrite len_sub by lia; lia|]. done.
Qed.

Lemma read_frame_unfold chunks buffer pool :
  read_frame chunks buffer pool =
  (done_ ← decode_frame buffer pool;
   match done_ with
   | (Frame frame, buffer, pool) => mret (frame, buffer, chunks, pool)
   | (NeedMore, buffer, pool) =>
       if STREAM_READ_BUFFER_BYTES <=? len buffer then Err "TURN stream frame buffer reached its hard limit"%string else
       match chunks with
       | [] => Err "TURN stream closed by remote peer"%string
       | chunk :: chunks =>
           if len chunk =? 0 then Err "TURN stream closed by remote peer"%string
           else read_frame chunks (buffer ++ chunk) pool
       end
   end).
Proof. by destruct chunks. Qed.

Definition stream_of (buffer : bytes) (chunks : list bytes) : bytes := buffer ++ mjoin chunks.

Lemma read_frame_ok chunks f control rest buffer pool :
  WireFrame f control -> pool_full_blocks pool -> Forall (fun k => k <> []) chunks -> stream_of buffer chunks = f ++ rest ->
  exists out buffer' chunks' pool', read_frame chunks buffer pool = Ok (out, buffer', chunks', pool')
    /\ delivered control f pool out pool' /\ pool_full_blocks pool' /\ Forall (fun k => k <> []) chunks' /\ stream_of buffer' chunks' = rest.
Proof.
  intros Hf Hp. revert buffer. induction chunks as [|k chunks IH]; intros buffer Hk Hs; rewrite read_frame_unfold;
    unfold stream_of in Hs; (destruct (Z.le_gt_cases (len f) (len buffer)) as [Hle|Hgt]).
  1, 3: symmetry in Hs; destruct (cut_head _ _ _ _ Hs Hle) as (x & -> & ->);
    destruct (decode_complete f control x pool Hf Hp) as (out & pool' & -> & Hd & Hp'); eexists _, _, _, _; split_and!; try done.
  all: destruct (cut_head _ _ _ _ Hs ltac:(lia)) as (more & Hfm & Hm);
    assert (Hne : more <> []) by (intros ->; rewrite app_nil_r in Hfm; subst; lia);
    rewrite (decode_partial f control buffer more pool Hf Hfm Hne); cbn [mbind result_bind];
    pose proof (wire_frame_len f control Hf) as Hfl;
    (replace (STREAM_READ_BUFFER_BYTES <=? len buffer) with false by (unfold STREAM_READ_BUFFER_BYTES; lia)).
  - destruct more; [done|]. discriminate Hm.
  - apply Forall_cons in Hk as [Hk Hks]. replace (len k =? 0) with false by (destruct k; [done|]; rewrite len_cons; pose proof (len_nonneg k); lia).
    apply IH; [done|]. unfold stream_of. rewrite <- app_assoc. exact Hs.
Qed.

(** Reading as many frames as the sender wrote. *)
Fixpoint read_frames (n : nat) (chunks : list bytes) (buffer : bytes) (pool : ClientPool)
    : result string (list TurnStreamFrame * bytes * list bytes * ClientPool) :=
  match n with
  | O => mret ([], buffer, chunks, pool)
  | S n =>
      one ← read_frame chunks buffer pool;
      let '(frame, buffer, chunks, pool) := one in
      rest ← read_frames n chunks buffer pool;
      let '(frames, buffer, chunks, pool) := rest in
      mret (frame :: frames, buffer, chunks, pool)
  end.

(** [outs] is what [frames] deliver, one after the other. *)
Inductive all_delivered : list (bytes * bool) -> ClientPool -> list TurnStreamFrame -> ClientPool -> Prop :=
| ad_nil pool : all_delivered [] pool [] pool
| ad_cons f control frames pool out pool1 outs pool2 :
    delivered control f pool out pool1 -> all_delivered frames pool1 outs pool2 ->
    all_delivered ((f, control) :: frames) pool (out :: outs) pool2.

Lemma read_frames_ok frames chunks buffer pool :
  Forall (fun x => WireFrame x.1 x.2) frames -> pool_full_blocks pool -> Forall (fun k => k <> []) chunks ->
  stream_of buffer chunks = mjoin (frames.*1) ->
  exists outs pool', read_frames (length frames) chunks buffer pool = Ok (outs, [], [], pool') /\ all_delivered frames pool outs pool'.
Proof.
  intros Hf. revert chunks buffer pool. induction Hf as [|[f control] frames Hf _ IH]; intros chunks buffer pool Hp Hk Hs.
  - cbn in Hs. unfold stream_of in Hs. apply app_eq_nil in Hs as [-> Hc]. destruct Hk as [|k chunks Hk _]; [by exists [], pool; split; [|constructor]|].
    apply app_eq_nil in Hc as [-> _]. done.
  - destruct (read_frame_ok chunks f control (mjoin frames.*1) buffer pool Hf Hp Hk Hs) as (out & b & ch & p & Hr & Hd & Hp' & Hk' & Hs').
    destruct (IH ch b p Hp' Hk' Hs') as (outs & p2 & Hrs & Hall). exists (out :: outs), p2. cbn [length read_frames]. rewrite Hr. cbn [mbind result_bind].
    rewrite Hrs. split; [done|]. by econstructor.
Qed.

(** However the network cuts a stream of STUN and ChannelData messages into
    pieces, the reader hands out the same messages in the same order, ChannelData
    in packet buffers as long as the pool has one (a message that finds none is
    dropped alone), and ends with an empty buffer.  On any bytes at all it never
    panics, and it never waits for more input with a full buffer, so the hard
    limit on the buffer is never the error that ends a stream. *)
Theorem stream_frames_in_order frames chunks pool :
  Forall (fun x => WireFrame x.1 x.2) frames -> pool_full_blocks pool -> Forall (fun k => k <> []) chunks ->
  mjoin chunks = mjoin (frames.*1) ->
  (exists outs pool', read_frames (length frames) chunks [] pool = Ok (outs, [], [], pool') /\ all_delivered frames pool outs pool')
  /\ forall buffer, wf_bytes buffer -> safe (decode_frame buffer pool)
     /\ forall b p, decode_frame buffer pool = Ok (NeedMore, b, p) -> len buffer < STREAM_READ_BUFFER_BYTES.
Proof.
  intros Hf Hp Hk Hs. split; [by apply read_frames_ok|]. intros buffer Hw. by apply decode_never_blocks.
Qed.

Lemma stream_frames_in_order_witness :
  let control : bytes := [1; 1; 0; 0; 0x21; 0x12; 0xa4; 0x42; 0; 0; 0; 0; 0; 0; 0; 0; 0; 0; 0; 0] in
  let data : bytes := [0x40; 0; 0; 3; 0xa1; 0xb2; 0xc3; 0] in
  let chunks := [take 3 data; drop 3 data ++ take 7 control; drop 7 control] in
  exists packet pool', read_frames 2 chunks [] (ClientPool_new 1) = Ok ([Data packet; Control_ control], [], [], pool')
    /\ window packet = data.
Proof.
  intros control data chunks.
  assert (Hd : WireFrame data false) by exact (wf_data 0x40 0 3 [0xa1; 0xb2; 0xc3; 0] eq_refl ltac:(lia) ltac:(vm_compute; discriminate) eq_refl).
  assert (Hc : WireFrame control true)
    by exact (wf_control 1 1 0 (replicate 12 0) eq_refl ltac:(lia) eq_refl ltac:(vm_compute; discriminate) eq_refl).
  destruct (stream_frames_in_order [(data, false); (control, true)] chunks (ClientPool_new 1)) as [(outs & pool' & Hr & Hall) _].
  - repeat constructor; assumption.
  - constructor.
  - repeat constructor; discriminate.
  - reflexivity.
  - inversion Hall as [|? ? ? ? ? ? ? ? Hd1 Hall1]; subst. inversion Hall1 as [|? ? ? ? ? ? ? ? Hd2 Hall2]; subst. inversion Hall2; subst.
    destruct Hd2 as [-> ->].
    unfold delivered in Hd1. cbn in Hd1. destruct Hd1 as (_ & packet & -> & Hw & _). exists packet. eexists. split; [exact Hr|exact Hw].
Defined.

(** ** A packet there and back *)

(** The buffer holds [payload] with four bytes in front and its padding behind. *)
Lemma encode_channel_data_ok A H payload T B channel :
  0x4000 <= channel <= 0x7fff -> len H = 4 -> len T = padding_of (len payload) -> len payload <= U16_MAX ->
  len (A ++ H ++ payload ++ T ++ B) = CLIENT_PACKET_CAPACITY ->
  encode_channel_data (mkClientBuf (A ++ H ++ payload ++ T ++ B) (len A + 4) (len A + 4 + len payload)) channel
  = Ok (mkClientBuf (A ++ (be_bytes 2 channel ++ be_bytes 2 (len payload)) ++ payload ++ zeroed (len T) ++ B) (len A) (len A + 4 + len payload + len T)).
Proof.
  intros Hc HH HT HP Hlen. pose proof Hlen as Hlen'. rewrite !len_app in Hlen'. pose proof (padding_range (len payload)) as [Hpr _].
  pose proof (len_nonneg A). pose proof (len_nonneg payload). pose proof (len_nonneg B). unfold CLIENT_PACKET_CAPACITY in *.
  assert (Hz : len (zeroed (len T)) = len T) by (apply len_zeroed; lia).
  unfold encode_channel_data, channel_data_padding. cbn [cb_start cb_end]. unfold ClientBuf_len. cbn [cb_start cb_end].
  replace (len A + 4 + len payload - (len A + 4)) with (len payload) by lia.
  replace (if len A + 4 <? len A + 4 + len payload then len payload else 0) with (len payload) by (destruct (_ <? _) eqn:?; bool_prop; lia).
  rewrite <- HT in *.
  replace (negb _) with false by lia. replace (U16_MAX <? len payload) with false by lia.
  unfold checked_add, USIZE_MAX. replace (len A + 4 + len payload + len T <=? 2 ^ 64 - 1) with true by lia.
  replace (len A + 4 <? 4) with false by lia. unfold CLIENT_PACKET_CAPACITY. replace (2304 <? len A + 4 + len payload + len T) with false by lia.
  cbn [orb mbind result_bind mret result_ret]. rewrite extend_tail_ok by (unfold CLIENT_PACKET_CAPACITY; lia).
  cbn [range_error mbind result_bind cb_start cb_end cb_storage].
  rewrite (copy_into_eq _ (A ++ H ++ payload) T B) by (pieces || (lens; lia)). cbn [mbind result_bind].
  unfold ClientBuf_prepend. cbn [cb_start cb_end cb_storage]. replace (len A + 4 <? 4) with false by lia.
  replace (len A + 4 - 4) with (len A) by lia.
  rewrite (slice_eq _ A H (payload ++ zeroed (len T) ++ B)) by (pieces || lens). cbn [mbind result_bind mret result_ret range_error cb_start cb_end cb_storage].
  destruct H as [|x0 [|x1 [|x2 [|x3 [|]]]]]; try (cbn in HH; lia || (unfold len in HH; cbn in HH; lia)).
  rewrite (copy_into_eq _ A [x0; x1] ([x2; x3] ++ payload ++ zeroed (len T) ++ B)) by (pieces || (rewrite ?len_be_bytes; lens)).
  cbn [mbind result_bind].
  rewrite (copy_into_eq _ (A ++ be_bytes 2 channel) [x2; x3] (payload ++ zeroed (len T) ++ B)) by (pieces || (rewrite ?len_be_bytes; lens)).
  cbn [mbind result_bind mret result_ret]. unfold U16_MAX in HP. rewrite u16_of_small by (unfold is_u16; lia).
  f_equal. f_equal. by rewrite <- !app_assoc.
Qed.

Lemma window_around (A M B : bytes) e : e = len A + len M -> window (mkClientBuf (A ++ M ++ B) (len A) e) = M.
Proof. intros ->. unfold window. cbn [cb_storage cb_start cb_end]. by rewrite sub_app_mid. Qed.

(** A buffer cut around its window, four bytes in front and [n] behind. *)
Lemma cut_buffer p n :
  client_buf_wf p -> 4 <= cb_start p -> 0 <= n -> cb_end p + n <= CLIENT_PACKET_CAPACITY ->
  exists A H T B, p = mkClientBuf (A ++ H ++ window p ++ T ++ B) (len A + 4) (len A + 4 + len (window p)) /\ len H = 4 /\ len T = n.
Proof.
  destruct p as [l s e]. unfold client_buf_wf, window. cbn [cb_storage cb_start cb_end]. intros (Hl & Hs & He) H4 Hn Hroom.
  exists (sub l 0 (s - 4)), (sub l (s - 4) s), (sub l e (e + n)), (sub l (e + n) (len l)).
  rewrite !len_sub by lia. split_and!; try lia. f_equal; [|lia|lia].
  rewrite <- (sub_split l e (e + n) (len l)), <- (sub_split l s e (len l)), <- (sub_split l (s - 4) s (len l)), <- (sub_split l 0 (s - 4) (len l)) by lia.
  by rewrite sub_all.
Qed.

Lemma channel_first_byte channel : 0x4000 <= channel <= 0x7fff -> Z.land ((channel / 256 ^ 1) mod 256) 0xc0 = 0x40.
Proof.
  intros Hc. assert (Hr : 64 <= (channel / 256 ^ 1) mod 256 <= 127) by (Z.to_euclidean_division_equations; lia).
  assert (Hall : forallb (fun k => Z.land k 0xc0 =? 0x40) (seqZ 64 64) = true) by (vm_compute; reflexivity).
  rewrite forallb_forall in Hall. apply Z.eqb_eq, Hall, list_elem_of_In, elem_of_seqZ. lia.
Qed.

Lemma header_of_encoded {E : Type} channel payload n :
  0x4000 <= channel <= 0x7fff -> len payload <= U16_MAX -> 0 <= n <= 3 ->
  @channel_data_header E ((be_bytes 2 channel ++ be_bytes 2 (len payload)) ++ payload ++ zeroed n) = Ok (Some (channel, len payload)).
Proof.
  intros Hc Hp Hn. pose proof (len_nonneg payload). unfold U16_MAX in Hp. set (c0 := (channel / 256 ^ 1) mod 256). set (c1 := (channel / 256 ^ 0) mod 256).
  assert (Hhead : be_bytes 2 channel ++ be_bytes 2 (len payload) = frame_head c0 c1 (len payload)) by done.
  rewrite Hhead. unfold channel_data_header.
  destruct (@head_bytes E c0 c1 (len payload) (payload ++ zeroed n) ltac:(lia)) as (b2 & b3 & -> & -> & Hb & -> & ->).
  rewrite !len_app, len_frame_head, len_zeroed by lia. cbn [mbind result_bind].
  assert (Hch : be16 c0 c1 = channel) by (change (be_val (be_bytes 2 channel) = channel); apply be_val_be_bytes_id; lia).
  assert (H0 : Z.land c0 0xc0 = 0x40) by by apply channel_first_byte.
  rewrite Hch, Hb, H0. replace (4 + (len payload + n) <? 4) with false by lia. cbn [Z.eqb Pos.eqb negb].
  replace ((16384 <=? channel) && (channel <=? 32767)) with true by lia. cbn [negb].
  replace (4 + (len payload + n) - 4 <? len payload) with false by lia. by replace (3 <? 4 + (len payload + n) - 4 - len payload) with false by lia.
Qed.

(** Taking the header and the padding off a received packet. *)
Lemma strip_channel_data r h payload z :
  client_buf_wf r -> window r = h ++ payload ++ z -> len h = 4 ->
  exists r1 r2, ClientBuf_trim_front r 4 = Ok r1 /\ ClientBuf_truncate r1 (len payload) = Ok r2 /\ window r2 = payload /\ client_buf_wf r2.
Proof.
  intros Hwf Hw Hh. pose proof (client_window_len r Hwf) as Hl. rewrite Hw, !len_app in Hl. pose proof (len_nonneg payload). pose proof (len_nonneg z).
  unfold ClientBuf_trim_front. replace (ClientBuf_len r <? 4) with false by lia.
  assert (Hse : ClientBuf_len r = cb_end r - cb_start r).
  { unfold ClientBuf_len. destruct Hwf as (_ & Hs & _). destruct (_ <? _) eqn:E; bool_prop; lia. }
  destruct Hwf as (Hst & Hs & He).
  assert (Hlen1 : ClientBuf_len (mkClientBuf (cb_storage r) (cb_start r + 4) (cb_end r)) = len payload + len z).
  { unfold ClientBuf_len. cbn [cb_start cb_end]. destruct (_ <? _) eqn:E; bool_prop; lia. }
  eexists _, _. split; [done|]. unfold ClientBuf_truncate. rewrite Hlen1. replace (_ <? _) with false by lia. split; [done|].
  unfold client_buf_wf, window in *. cbn [cb_storage cb_start cb_end]. split; [|split_and!; try done; lia].
  replace (cb_start r + 4 + len payload) with (cb_start r + (4 + len payload)) by lia.
  rewrite <- (sub_sub (cb_storage r) (cb_start r) (cb_end r)) by lia. rewrite Hw. apply sub_app_mid; lia.
Qed.

Lemma encode_refuses p channel :
  client_buf_wf p ->
  ~ (0x4000 <= channel <= 0x7fff /\ 4 <= cb_start p /\ cb_end p + padding_of (len (window p)) <= CLIENT_PACKET_CAPACITY) ->
  exists e, encode_channel_data p channel = Err e.
Proof.
  intros Hwf Hbad. pose proof (client_window_len p Hwf) as Hlen. unfold encode_channel_data, channel_data_padding. rewrite Hlen.
  pose proof (padding_range (len (window p))) as [Hpr _]. destruct Hwf as (Hst & Hs & He). unfold CLIENT_PACKET_CAPACITY in *.
  destruct ((16384 <=? channel) && (channel <=? 32767)) eqn:E1; cbn [negb]; [|by eexists]. bool_prop.
  destruct (U16_MAX <? len (window p)); [by eexists|].
  unfold checked_add, USIZE_MAX. replace (cb_end p + padding_of (len (window p)) <=? 2 ^ 64 - 1) with true by lia.
  destruct ((cb_start p <? 4) || (2304 <? cb_end p + padding_of (len (window p)))) eqn:E2; [by eexists|]. bool_prop. exfalso. apply Hbad. lia.
Qed.

(** What a receiver does with an encoded packet. *)
Lemma receive_channel_data `{StunHash} c i ch channel drops r now tx payload n :
  client_buf_wf r -> window r = (be_bytes 2 channel ++ be_bytes 2 (len payload)) ++ payload ++ zeroed n ->
  0x4000 <= channel <= 0x7fff -> len payload <= U16_MAX -> 0 <= n <= 3 ->
  if ch =? channel
  then exists r', process_packet_measured c i ch drops Sent r now tx = Ok (Wait, Some r', drops, i) /\ window r' = payload
  else process_packet_measured c i ch drops Sent r now tx = Ok (Wait, None, drops, i).
Proof.
  intros Hwf Hw Hc HU Hn. unfold process_packet_measured. rewrite client_window_slice by done. cbn [mbind result_bind].
  rewrite Hw, header_of_encoded by done. cbn [mbind result_bind]. rewrite (Z.eqb_sym channel ch).
  destruct (ch =? channel); cbn [negb]; [|done].
  destruct (strip_channel_data r _ _ _ Hwf Hw ltac:(by rewrite len_app, !len_be_bytes)) as (r1 & r2 & -> & -> & Hw2 & _). by exists r2.
Qed.

(** A tunnel packet sent over a channel comes back whole.  Encoding refuses
    exactly the channels outside the range and the buffers without room; else
    the buffer holds the header, the payload and zero padding, which is a frame
    of the stream when it fits one, and a receiver of these bytes, in whatever
    buffer, on the same channel hands its owner exactly the payload; on another
    channel it hands over nothing, and the TURN client is not touched. *)
Theorem channel_data_roundtrip `{StunHash} p channel :
  client_buf_wf p -> 0 <= channel ->
  let padding := padding_of (len (window p)) in
  match encode_channel_data p channel with
  | Panic => False
  | Err _ => channel < 0x4000 \/ 0x7fff < channel \/ cb_start p < 4 \/ CLIENT_PACKET_CAPACITY < cb_end p + padding
  | Ok q =>
      0x4000 <= channel <= 0x7fff /\ client_buf_wf q
      /\ window q = (be_bytes 2 channel ++ be_bytes 2 (len (window p))) ++ window p ++ zeroed padding
      /\ (len (window q) <= MAX_DATA_FRAME_BYTES -> WireFrame (window q) false)
      /\ forall c i ch drops r now tx, client_buf_wf r -> window r = window q ->
         if ch =? channel
         then exists r', process_packet_measured c i ch drops Sent r now tx = Ok (Wait, Some r', drops, i) /\ window r' = window p
         else process_packet_measured c i ch drops Sent r now tx = Ok (Wait, None, drops, i)
  end.
Proof.
  intros Hwf Hc0 padding. pose proof (client_window_len p Hwf) as Hlen. pose proof (padding_range (len (window p))) as [Hpr Hal].
  fold padding in Hpr, Hal. pose proof (len_nonneg (window p)) as Hnn.
  assert (Hse : len (window p) = cb_end p - cb_start p).
  { unfold window. destruct Hwf as (Hst & Hs & He). by rewrite len_sub by lia. }
  assert (HU : len (window p) <= U16_MAX) by (unfold U16_MAX; destruct Hwf as (Hst & Hs & He); unfold CLIENT_PACKET_CAPACITY in *; lia).
  destruct (decide (0x4000 <= channel <= 0x7fff /\ 4 <= cb_start p /\ cb_end p + padding <= CLIENT_PACKET_CAPACITY)) as [(Hc & H4 & Hroom)|Hbad].
  2: { destruct (encode_refuses p channel Hwf Hbad) as (e & ->). fold padding in Hbad. lia. }
  destruct (cut_buffer p padding Hwf H4 ltac:(lia) Hroom) as (A & H_ & T & B & Hp & HH & HT). destruct Hwf as (Hst & Hs & He).
  pose proof Hst as Hst'. rewrite Hp in Hst'. cbn [cb_storage] in Hst'.
  pose proof (encode_channel_data_ok A H_ (window p) T B channel Hc HH HT HU Hst') as Henc. rewrite <- Hp in Henc. rewrite Henc, HT.
  set (hd := be_bytes 2 channel ++ be_bytes 2 (len (window p))). assert (Hhd : len hd = 4) by (unfold hd; by rewrite len_app, !len_be_bytes).
  assert (Hz : len (zeroed padding) = padding) by (apply len_zeroed; lia).
  assert (Hlay : A ++ hd ++ window p ++ zeroed padding ++ B = A ++ (hd ++ window p ++ zeroed padding) ++ B) by (by rewrite <- !app_assoc).
  rewrite Hlay. assert (Hwin : window (mkClientBuf (A ++ (hd ++ window p ++ zeroed padding) ++ B) (len A) (len A + 4 + len (window p) + padding))
    = hd ++ window p ++ zeroed padding) by (apply window_around; rewrite !len_app, Hhd, Hz; lia).
  rewrite Hwin. split; [done|]. rewrite !len_app in Hst'. split.
  { unfold client_buf_wf. cbn [cb_storage cb_start cb_end]. rewrite !len_app, Hhd, Hz. pose proof (len_nonneg A). pose proof (len_nonneg B). lia. }
  split; [done|]. split.
  - rewrite !len_app, Hhd, Hz. intros Hmax.
    change hd with (frame_head ((channel / 256 ^ 1) mod 256) ((channel / 256 ^ 0) mod 256) (len (window p))).
    constructor; [by apply channel_first_byte|lia|fold padding; lia|rewrite len_app, Hz; done].
  - intros c i ch drops r now tx Hr Hrw. by apply (receive_channel_data _ _ _ _ _ _ _ _ _ padding).
Qed.

Lemma channel_data_roundtrip_witness :
  let p := mkClientBuf (zeroed CLIENT_PACKET_CAPACITY) 64 67 in
  exists q, encode_channel_data p 0x4000 = Ok q /\ window q = [0x40; 0; 0; 3; 0; 0; 0; 0] /\ WireFrame (window q) false.
Proof.
  intros p. assert (Hwf : client_buf_wf p) by (split; [reflexivity|split; [split|]; vm_compute; discriminate]).
  pose proof (channel_data_roundtrip p 0x4000 Hwf ltac:(lia)) as Hr. cbn zeta in Hr.
  destruct (encode_channel_data p 0x4000) as [q|e|] eqn:E; [|vm_compute in E; discriminate|vm_compute in E; discriminate].
  destruct Hr as (_ & _ & Hw & Hf & _). exists q. split; [reflexivity|].
  assert (Hw' : window q = [0x40; 0; 0; 3; 0; 0; 0; 0]) by (rewrite Hw; vm_compute; reflexivity).
  split; [exact Hw'|]. apply Hf. rewrite Hw'. vm_compute. discriminate.
Defined.
