(* ===== verification/Text.v ===== *)
(** * Text

    The operations of [str] the control messages are read and written with:
    UTF-8 validation, trimming, splitting, decimal numbers, IPv4 addresses.  A
    [str] is the list of its bytes. *)

From S2P Require Import Prelude.

(** ** UTF-8 ([std::str::from_utf8]) *)

Definition cont (b : Z) : bool := (0x80 <=? b) && (b <=? 0xbf).
Definition within (lo hi b : Z) : bool := (lo <=? b) && (b <=? hi).

(** The well-formed sequences of the Unicode standard: no overlong form, no
    surrogate, nothing above [0x10ffff]. *)
Definition utf8_second3 (b0 b1 : Z) : bool :=
  if b0 =? 0xe0 then within 0xa0 0xbf b1 else if b0 =? 0xed then within 0x80 0x9f b1 else cont b1.
Definition utf8_second4 (b0 b1 : Z) : bool :=
  if b0 =? 0xf0 then within 0x90 0xbf b1 else if b0 =? 0xf4 then within 0x80 0x8f b1 else cont b1.

Fixpoint utf8_valid (l : bytes) : bool :=
  match l with
  | [] => true
  | b0 :: l1 =>
      if within 0 0x7f b0 then utf8_valid l1 else
      match l1 with
      | [] => false
      | b1 :: l2 =>
          if within 0xc2 0xdf b0 then cont b1 && utf8_valid l2 else
          match l2 with
          | [] => false
          | b2 :: l3 =>
              if within 0xe0 0xef b0 then utf8_second3 b0 b1 && cont b2 && utf8_valid l3 else
              match l3 with
              | [] => false
              | b3 :: l4 => within 0xf0 0xf4 b0 && utf8_second4 b0 b1 && cont b2 && cont b3 && utf8_valid l4
              end
          end
      end
  end.

(** ** Trimming ([str::trim]) *)

(** The encodings of the characters with the property White_Space. *)
Definition whitespace : list bytes :=
  [[9]; [10]; [11]; [12]; [13]; [32]; [0xc2; 0x85]; [0xc2; 0xa0]; [0xe1; 0x9a; 0x80];
   [0xe2; 0x80; 0x80]; [0xe2; 0x80; 0x81]; [0xe2; 0x80; 0x82]; [0xe2; 0x80; 0x83]; [0xe2; 0x80; 0x84]; [0xe2; 0x80; 0x85];
   [0xe2; 0x80; 0x86]; [0xe2; 0x80; 0x87]; [0xe2; 0x80; 0x88]; [0xe2; 0x80; 0x89]; [0xe2; 0x80; 0x8a];
   [0xe2; 0x80; 0xa8]; [0xe2; 0x80; 0xa9]; [0xe2; 0x80; 0xaf]; [0xe2; 0x81; 0x9f]; [0xe3; 0x80; 0x80]].

(** The first of [ps] that is a prefix of [l], removed. *)
Fixpoint strip_any (ps : list bytes) (l : bytes) : option bytes :=
  match ps with
  | [] => None
  | p :: ps => match strip_prefix p l with Some rest => Some rest | None => strip_any ps l end
  end.

(** One character goes per turn, so the length is enough. *)
Fixpoint strip_all (ps : list bytes) (fuel : nat) (l : bytes) : bytes :=
  match fuel with
  | O => l
  | S fuel => match strip_any ps l with Some rest => strip_all ps fuel rest | None => l end
  end.
Definition trim_start (l : bytes) : bytes := strip_all whitespace (length l) l.
Definition trim_end (l : bytes) : bytes := reverse (strip_all (reverse <$> whitespace) (length l) (reverse l)).
Definition trim (l : bytes) : bytes := trim_end (trim_start l).

(** ** Splitting ([str::splitn] at a character below 128) *)

Fixpoint split_once (sep : Z) (l : bytes) : option (bytes * bytes) :=
  match l with
  | [] => None
  | b :: l => if b =? sep then Some ([], l) else
              match split_once sep l with Some (h, t) => Some (b :: h, t) | None => None end
  end.
Fixpoint splitn (n : nat) (sep : Z) (l : bytes) : list bytes :=
  match n with
  | O => []
  | S O => [l]
  | S n => match split_once sep l with Some (h, t) => h :: splitn n sep t | None => [l] end
  end.

(** ** Decimal numbers ([u64::from_str], [u16::from_str], [to_string]) *)

Definition is_digit (b : Z) : bool := within 48 57 b.

Fixpoint digits_val (max acc : Z) (l : bytes) : option Z :=
  match l with
  | [] => Some acc
  | b :: l => if is_digit b then
                let acc := acc * 10 + (b - 48) in if max <? acc then None else digits_val max acc l
              else None
  end.
(** A leading plus is allowed, an empty number is not; [checked_mul] and
    [checked_add] reject what exceeds the type. *)
Definition parse_uint (max : Z) (l : bytes) : option Z :=
  let l := match l with 43 :: ((_ :: _) as rest) => rest | _ => l end in
  match l with [] => None | _ => digits_val max 0 l end.
Definition parse_u16 (l : bytes) : option Z := parse_uint U16_MAX l.
Definition parse_u64 (l : bytes) : option Z := parse_uint U64_MAX l.

(** A number below [2^64] has at most twenty digits. *)
Fixpoint to_digits (fuel : nat) (n : Z) (acc : bytes) : bytes :=
  match fuel with
  | O => acc
  | S fuel => let acc := 48 + n mod 10 :: acc in if n <? 10 then acc else to_digits fuel (n / 10) acc
  end.
Definition to_string (n : Z) : bytes := to_digits 20 n [].

(** ** IPv4 addresses ([Ipv4Addr::from_str]) *)

(** One number of one to three digits, without a leading zero. *)
Definition read_octet (l : bytes) : option (Z * bytes) :=
  let digits := match l with
    | a :: b :: c :: rest => if is_digit a then if is_digit b then if is_digit c then Some ([a; b; c], rest) else Some ([a; b], c :: rest)
                             else Some ([a], b :: c :: rest) else None
    | [a; b] => if is_digit a then if is_digit b then Some ([a; b], []) else Some ([a], [b]) else None
    | [a] => if is_digit a then Some ([a], []) else None
    | [] => None
    end in
  '(ds, rest) ← digits;
  if match rest with d :: _ => is_digit d | [] => false end then None else
  v ← digits_val 255 0 ds;
  if (1 <? len ds) && bool_decide (head ds = Some 48) then None else Some (v, rest).
Definition read_dot (l : bytes) : option bytes := match l with 46 :: l => Some l | _ => None end.
Definition parse_ipv4 (l : bytes) : option bytes :=
  if 15 <? len l then None else
  '(a, l) ← read_octet l; l ← read_dot l;
  '(b, l) ← read_octet l; l ← read_dot l;
  '(c, l) ← read_octet l; l ← read_dot l;
  '(d, l) ← read_octet l;
  match l with [] => Some [a; b; c; d] | _ => None end.

(** ** Facts *)

Lemma within_spec lo hi b : within lo hi b = true <-> lo <= b <= hi.
Proof. unfold within. rewrite andb_true_iff, !Z.leb_le. done. Qed.

Lemma utf8_valid_cons b0 l1 : utf8_valid (b0 :: l1) =
  if within 0 0x7f b0 then utf8_valid l1 else
  match l1 with
  | [] => false
  | b1 :: l2 =>
      if within 0xc2 0xdf b0 then cont b1 && utf8_valid l2 else
      match l2 with
      | [] => false
      | b2 :: l3 =>
          if within 0xe0 0xef b0 then utf8_second3 b0 b1 && cont b2 && utf8_valid l3 else
          match l3 with
          | [] => false
          | b3 :: l4 => within 0xf0 0xf4 b0 && utf8_second4 b0 b1 && cont b2 && cont b3 && utf8_valid l4
          end
      end
  end.
Proof. reflexivity. Qed.

Lemma utf8_valid_app a b : utf8_valid a = true -> utf8_valid b = true -> utf8_valid (a ++ b) = true.
Proof.
  intros Ha Hb. remember (length a) as n eqn:Hn. revert a Hn Ha.
  induction n as [n IH] using lt_wf_ind. intros [|b0 l1] Hn; [done|].
  assert (Hrec : forall l, (length l < n)%nat -> utf8_valid l = true -> utf8_valid (l ++ b) = true) by (intros l Hl; by apply (IH (length l))).
  change ((b0 :: l1) ++ b) with (b0 :: (l1 ++ b)). rewrite !utf8_valid_cons. clear IH. cbn [length] in Hn.
  destruct (within 0 _ b0); [apply Hrec; lia|]. destruct l1 as [|b1 l2]; [done|]. cbn [app length] in *.
  destruct (within 0xc2 _ b0); [rewrite !andb_true_iff; intros [-> H]; split; [done|]; apply Hrec; [lia|done]|].
  destruct l2 as [|b2 l3]; [done|]. cbn [app length] in *.
  destruct (within 0xe0 _ b0); [rewrite !andb_true_iff; intros [[-> ->] H]; split; [done|]; apply Hrec; [lia|done]|].
  destruct l3 as [|b3 l4]; [done|]. cbn [app length] in *. rewrite !andb_true_iff. intros [[[[-> ->] ->] ->] H].
  split; [done|]. apply Hrec; [lia|done].
Qed.

Lemma utf8_ascii l : Forall (fun b => 0 <= b <= 127) l -> utf8_valid l = true.
Proof. induction 1 as [|b l Hb _ IH]; [done|]. cbn. by rewrite (proj2 (within_spec 0 127 b)) by lia. Qed.

(** *** Splitting *)

Definition lacks (sep : Z) (l : bytes) : Prop := sep ∉ l.
#[global] Instance lacks_dec sep l : Decision (lacks sep l).
Proof. unfold lacks. apply _. Defined.

Lemma split_once_app sep h t : lacks sep h -> split_once sep (h ++ sep :: t) = Some (h, t).
Proof.
  unfold lacks. induction h as [|b h IH]; cbn; intros H; [by rewrite Z.eqb_refl|].
  assert (b <> sep) by set_solver. rewrite (proj2 (Z.eqb_neq b sep)) by done. by rewrite IH by set_solver.
Qed.
Lemma splitn_app n sep h t : lacks sep h -> splitn (S (S n)) sep (h ++ sep :: t) = h :: splitn (S n) sep t.
Proof. intros H. change (splitn (S (S n)) sep (h ++ sep :: t)) with
  (match split_once sep (h ++ sep :: t) with Some (h, t) => h :: splitn (S n) sep t | None => [h ++ sep :: t] end).
  by rewrite split_once_app. Qed.

(** *** Trimming *)

(** No encoding of white space contains the separator, so white space does not
    reach across it. *)
Definition trimmed (l : bytes) : Prop :=
  strip_any whitespace l = None /\ strip_any (reverse <$> whitespace) (reverse l) = None.
#[global] Instance trimmed_dec l : Decision (trimmed l).
Proof. unfold trimmed. apply _. Defined.

Lemma strip_all_none ps n l : strip_any ps l = None -> strip_all ps n l = l.
Proof. destruct n; [done|]. cbn. by intros ->. Qed.

Lemma trim_trimmed l : trimmed l -> trim l = l.
Proof.
  intros [H1 H2]. unfold trim, trim_start, trim_end. rewrite (strip_all_none _ _ _ H1), (strip_all_none _ _ _ H2).
  by rewrite reverse_involutive.
Qed.

Lemma strip_prefix_across p sep a b :
  lacks sep p -> strip_prefix p (a ++ sep :: b) = (fun r => r ++ sep :: b) <$> strip_prefix p a.
Proof.
  unfold lacks. revert p. induction a as [|x a IH]; intros [|y p] Hp; cbn; try done.
  - assert (y <> sep) by set_solver. rewrite (proj2 (Z.eqb_neq y sep)) by done. done.
  - destruct (y =? x); [|done]. apply IH. set_solver.
Qed.

Lemma strip_any_across ps sep a b :
  Forall (lacks sep) ps -> strip_any ps a = None -> strip_any ps (a ++ sep :: b) = None.
Proof.
  induction 1 as [|p ps Hp _ IH]; cbn; [done|]. rewrite strip_prefix_across by done.
  destruct (strip_prefix p a); [done|]. cbn. apply IH.
Qed.

Lemma strip_any_head ps b l : Forall (fun p => match p with x :: _ => x <> b | [] => False end) ps -> strip_any ps (b :: l) = None.
Proof.
  induction 1 as [|[|x p] ps Hp _ IH]; cbn; [done|done|]. rewrite (proj2 (Z.eqb_neq x b)) by done. apply IH.
Qed.
Lemma strip_any_nil ps : Forall (fun p => p <> []) ps -> strip_any ps [] = None.
Proof. induction 1 as [|[|x p] ps Hp _ IH]; cbn; done. Qed.

Definition graphic (b : Z) : Prop := 33 <= b <= 126.
#[global] Instance graphic_dec b : Decision (graphic b).
Proof. unfold graphic. apply _. Defined.

Lemma whitespace_heads b : graphic b ->
  Forall (fun p => match p with x :: _ => x <> b | [] => False end) whitespace
  /\ Forall (fun p => match p with x :: _ => x <> b | [] => False end) (reverse <$> whitespace).
Proof. unfold graphic. intros H. split; repeat constructor; cbn; lia. Qed.

(** A text between two visible ASCII characters, or an empty one, is trimmed. *)
Lemma trimmed_ends a b l : graphic a -> graphic b -> trimmed (a :: l ++ [b]).
Proof.
  intros Ha Hb. split; [by apply strip_any_head, whitespace_heads|].
  replace (reverse (a :: l ++ [b])) with (b :: reverse (a :: l)) by (by rewrite app_comm_cons, reverse_app).
  by apply strip_any_head, whitespace_heads.
Qed.
Lemma graphic_trimmed l : Forall graphic l -> trimmed l.
Proof.
  intros H. destruct l as [|a l]; [by vm_compute|]. destruct l as [|b l' _] using rev_ind.
  - apply Forall_cons in H as [Ha _]. split; by apply strip_any_head, whitespace_heads.
  - apply Forall_cons in H as [Ha H]. apply Forall_app in H as [_ H]. apply Forall_cons in H as [Hb _]. by apply trimmed_ends.
Qed.

(** *** Numbers *)

Lemma digits_val_to_digits fuel max n acc :
  0 <= n < 10 ^ Z.of_nat (S fuel) -> n <= max ->
  digits_val max 0 (to_digits (S fuel) n acc) = digits_val max n acc.
Proof.
  revert n acc. induction fuel as [|fuel IH]; intros n acc Hn Hm.
  - change (10 ^ Z.of_nat 1) with 10 in Hn. cbn. rewrite (proj2 (Z.ltb_lt n 10)), Z.mod_small by lia. cbn [digits_val].
    replace (is_digit _) with true by (symmetry; apply within_spec; lia).
    replace (0 * 10 + (48 + n - 48)) with n by lia. by rewrite (proj2 (Z.ltb_ge max n)).
  - rewrite Nat2Z.inj_succ, Z.pow_succ_r in Hn by lia.
    change (to_digits (S (S fuel)) n acc) with
      (let acc := 48 + n mod 10 :: acc in if n <? 10 then acc else to_digits (S fuel) (n / 10) acc).
    cbv zeta. pose proof (Z.mod_pos_bound n 10). pose proof (Z.div_mod n 10).
    destruct (n <? 10) eqn:E; bool_prop; [|rewrite IH by (split; [apply Z.div_pos; lia|apply Z.div_lt_upper_bound; lia]||lia)];
      cbn [digits_val]; replace (is_digit _) with true by (symmetry; apply within_spec; lia).
    + rewrite Z.mod_small by lia. replace (0 * 10 + (48 + n - 48)) with n by lia. by rewrite (proj2 (Z.ltb_ge max n)).
    + replace (n / 10 * 10 + (48 + n mod 10 - 48)) with n by lia. by rewrite (proj2 (Z.ltb_ge max n)).
Qed.

Lemma to_digits_digits fuel n acc :
  0 <= n -> Forall (fun b => 48 <= b <= 57) acc -> Forall (fun b => 48 <= b <= 57) (to_digits fuel n acc).
Proof.
  revert n acc. induction fuel as [|fuel IH]; intros n acc Hn Ha; cbn; [done|].
  assert (Forall (fun b => 48 <= b <= 57) (48 + n mod 10 :: acc)).
  { constructor; [|done]. pose proof (Z.mod_pos_bound n 10). lia. }
  destruct (_ <? _); [done|]. apply IH; [apply Z.div_pos; lia|done].
Qed.
Lemma to_digits_nonempty fuel n acc : acc <> [] -> to_digits fuel n acc <> [].
Proof. revert n acc. induction fuel as [|fuel IH]; intros n acc Ha; cbn; [done|]. destruct (_ <? _); [done|by apply IH]. Qed.

Lemma to_string_digits n : 0 <= n -> Forall (fun b => 48 <= b <= 57) (to_string n) /\ to_string n <> [].
Proof.
  intros Hn. split; [apply to_digits_digits; [done|constructor]|]. 
  change (to_string n) with (let acc := [48 + n mod 10] in if n <? 10 then acc else to_digits 19 (n / 10) acc).
  cbv zeta. destruct (_ <? _); [done|]. by apply to_digits_nonempty.
Qed.

Lemma parse_to_string max n : 0 <= n <= max -> n < 10 ^ 20 -> parse_uint max (to_string n) = Some n.
Proof.
  intros Hn H20. destruct (to_string_digits n ltac:(lia)) as [Hd Hne].
  assert (Hv : digits_val max 0 (to_string n) = Some n) by (unfold to_string; rewrite digits_val_to_digits; [done|lia|lia]).
  unfold parse_uint. destruct (to_string n) as [|b l] eqn:E; [done|]. apply Forall_cons in Hd as [Hb Hl].
  assert (match b :: l with 43 :: (_ :: _) as rest => rest | _ => b :: l end = b :: l) as ->; [|done].
  destruct b as [|p|p]; [done| |done]. destruct (decide (Z.pos p = 43)) as [H43|H43]; [lia|].
  repeat (destruct p as [p|p|]; try done).
Qed.
Lemma to_string_graphic n : 0 <= n -> Forall graphic (to_string n).
Proof. intros Hn. eapply Forall_impl; [apply to_string_digits, Hn|]. unfold graphic. cbn. lia. Qed.

Lemma graphic_utf8 l : Forall graphic l -> utf8_valid l = true.
Proof. intros H. apply utf8_ascii. eapply Forall_impl; [exact H|]. unfold graphic. lia. Qed.
