(* ===== verification/Getconf.v ===== *)
(** * Control messages

    What the client asks ([rust-client/protocol.rs], [config_request],
    [disconnect_request]) and how the server reads it ([rust-server/protocol.rs],
    [parse_getconf_epoch], the first lines of [handle_getconf] and of
    [process_control_payload]); the answers the client distinguishes; the
    predicates that tell control messages from tunnel traffic. *)

From S2P Require Import Prelude StreamControl Text.

Definition WIRE_PROTOCOL_REVISION : bytes := b_ "CSQTT-WIRE-3".
Definition LEGACY_WIRE_PROTOCOL_REVISION : bytes := b_ "CSQTT-WIRE-2".
Definition SESSION_LEASE : bytes := 0xff :: b_ "CSQTT_LEASE".
Definition GETCONF : bytes := b_ "GETCONF:".
Definition DISCONNECT : bytes := b_ "DISCONNECT:".
(** The character [|]. *)
Definition BAR : Z := 124.

(** ** The client *)

Definition config_request (local_port device_id password : bytes) (generation_id : Z) (salt : bytes) (worker_id : Z)
    (desired_count : option Z) : bytes :=
  let desired_count := match desired_count with None => [] | Some value => to_string value end in
  GETCONF ++ local_port ++ [BAR] ++ device_id ++ [BAR] ++ password ++ [BAR] ++ to_string generation_id ++ [BAR] ++ salt
  ++ [BAR] ++ to_string worker_id ++ [BAR] ++ desired_count ++ [BAR] ++ WIRE_PROTOCOL_REVISION.

Definition disconnect_request (device_id salt : bytes) : bytes := DISCONNECT ++ device_id ++ [BAR] ++ salt.

Inductive ConfigResponse := Config (text : bytes) | NoConfig.
(** The errors of [parse_config_response]; the texts of [FATAL_AUTH] differ by
    the reason. *)
Inductive ConfigError := NotUtf8 | FatalAuth (reason : bytes) | FatalProtocol | Unexpected.

Definition parse_config_response (response : bytes) : result ConfigError ConfigResponse :=
  if negb (utf8_valid response) then Err NotUtf8 else
  if bytes_eqb response (b_ "NOCONF") then Ok NoConfig else
  match strip_prefix (b_ "DENIED:") response with
  | Some reason =>
      if bytes_eqb reason (b_ "protocol_mismatch") || bytes_eqb reason (b_ "invalid_worker_count")
      then Err FatalProtocol else Err (FatalAuth reason)
  | None => if starts_with response (b_ "TUNCONF:") then Ok (Config response) else Err Unexpected
  end.

(** ** The server *)

Definition parse_generation_id (value : bytes) : option Z :=
  if bool_decide (value = []) || negb (forallb is_digit value) then None else parse_u64 value.

Definition is_supported_wire_protocol (value : bytes) : bool :=
  bytes_eqb value WIRE_PROTOCOL_REVISION || bytes_eqb value LEGACY_WIRE_PROTOCOL_REVISION.
Definition supports_data_frames (value : bytes) : bool := bytes_eqb value WIRE_PROTOCOL_REVISION.

Definition parse_getconf_epoch (payload : bytes) : option (bytes * Z * bytes) :=
  if negb (utf8_valid payload) then None else
  content ← strip_prefix GETCONF payload;
  let parts := splitn 6 BAR (trim content) in
  _ ← parts !! 0%nat;
  device_id ← trim <$> parts !! 1%nat;
  _ ← parts !! 2%nat;
  generation_text ← parts !! 3%nat;
  generation_id ← parse_generation_id (trim generation_text);
  let session_salt := trim (default [] (parts !! 4%nat)) in
  if bool_decide (device_id = []) || (128 <? len device_id) || (128 <? len session_salt) then None
  else Some (device_id, generation_id, session_salt).

(** The eight fields [handle_getconf] reads, with its defaults. *)
Record GetconfText := mkGetconf {
  client_port : bytes; device_text : bytes; password_text : bytes; generation_text : bytes; salt_text : bytes;
  worker_text : bytes; desired_text : bytes; revision_text : bytes;
}.
Definition getconf_fields (text : bytes) : GetconfText :=
  let content := trim (default [] (strip_prefix GETCONF text)) in
  let parts := splitn 8 BAR content in
  let part i otherwise := trim (default otherwise (parts !! i)) in
  mkGetconf (part 0%nat (b_ "9000")) (part 1%nat (b_ "unknown")) (part 2%nat []) (part 3%nat []) (part 4%nat [])
    (part 5%nat []) (part 6%nat []) (part 7%nat []).

(** The two fields of a DISCONNECT. *)
Definition disconnect_fields (text : bytes) : bytes * bytes :=
  let content := trim (default [] (strip_prefix DISCONNECT text)) in
  let parts := splitn 2 BAR content in
  (trim (default [] (parts !! 0%nat)), trim (default [] (parts !! 1%nat))).

Definition is_control_payload (payload : bytes) : bool :=
  starts_with payload GETCONF || starts_with payload DISCONNECT || bytes_eqb payload (b_ "READY")
  || bool_decide (head payload = Some 0xff).

Definition is_idle_keepalive (payload : bytes) : bool :=
  (negb (bool_decide (payload = [])) && forallb (fun byte => byte =? 0xff) payload)
  || ((4 <=? len payload) && (len payload <=? 9) && bool_decide (head payload = Some 0xff)).

Definition should_flush_udp_immediately (payload : bytes) : bool :=
  starts_with payload GETCONF || starts_with payload (b_ "TUNCONF:") || starts_with payload (b_ "DENIED:")
  || starts_with payload DISCONNECT || starts_with payload STREAM_REPAIR_PREFIX || starts_with payload STREAM_ALIVE_PREFIX
  || bytes_eqb payload (b_ "READY") || bytes_eqb payload (b_ "READY_OK") || bytes_eqb payload PANEL_RESTART_NOTICE.

Definition is_dpi_control (plain : bytes) : bool :=
  starts_with plain GETCONF || starts_with plain (b_ "TUNCONF:") || bytes_eqb plain PANEL_RESTART_NOTICE
  || starts_with plain (b_ "DENIED:") || starts_with plain DISCONNECT
  || ((5 <=? len plain) && match plain with b :: _ => within 20 22 b | [] => false end).

Definition session_is_retired_by_epoch (device : bytes) (generation : Z) (salt : bytes)
    (authoritative_device : bytes) (authoritative_generation : Z) (authoritative_salt : bytes) : bool :=
  bytes_eqb device authoritative_device
  && (negb (generation =? authoritative_generation) || negb (bytes_eqb salt authoritative_salt)).

Definition session_is_disconnected_device (session_id : Z) (device : bytes) (requester_session_id : Z) (target : bytes) : bool :=
  (session_id =? requester_session_id) || bytes_eqb device target.

Inductive GetconfReconnectAction := Process | Replace.
Definition getconf_reconnect_action_hot (device : bytes) (generation : Z) (salt : bytes)
    (incoming_device : bytes) (incoming_generation : Z) (incoming_salt : bytes) : GetconfReconnectAction :=
  if bytes_eqb device incoming_device && (generation =? incoming_generation) && bytes_eqb salt incoming_salt
  then Process else Replace.

(** ** What the client writes, the server reads *)

(** A field of a request: no bar inside, no white space around. *)
Definition field (l : bytes) : Prop := utf8_valid l = true /\ lacks BAR l /\ trimmed l.
#[global] Instance field_dec l : Decision (field l).
Proof. unfold field. apply _. Defined.

Lemma graphic_field l : Forall graphic l -> lacks BAR l -> field l.
Proof. intros H1 H2. split_and!; [by apply graphic_utf8|done|by apply graphic_trimmed]. Qed.

Lemma to_string_field n : 0 <= n -> field (to_string n).
Proof.
  intros Hn. apply graphic_field; [by apply to_string_graphic|]. unfold lacks, BAR. intros H.
  destruct (to_string_digits n Hn) as [Hd _]. rewrite Forall_forall in Hd. specialize (Hd _ H). cbn in Hd. lia.
Qed.

Lemma field_trim l : field l -> trim l = l.
Proof. intros (_ & _ & H). by apply trim_trimmed. Qed.

Lemma whitespace_lacks_bar : Forall (lacks BAR) whitespace /\ Forall (lacks BAR) (reverse <$> whitespace).
Proof. split; apply (bool_decide_unpack _); vm_compute; exact I. Qed.

(** Fields around a bar form a trimmed text. *)
Lemma trimmed_bar a m b : trimmed a -> trimmed b -> trimmed (a ++ [BAR] ++ m ++ [BAR] ++ b).
Proof.
  intros [Ha _] [_ Hb]. split; [apply strip_any_across; [apply whitespace_lacks_bar|done]|].
  replace (a ++ [BAR] ++ m ++ [BAR] ++ b) with ((a ++ [BAR] ++ m) ++ BAR :: b) by (by rewrite <- !app_assoc).
  rewrite reverse_app, reverse_cons, <- app_assoc. apply strip_any_across; [apply whitespace_lacks_bar|done].
Qed.

Section Request.
Context (port device password : bytes) (generation : Z) (salt : bytes) (worker : Z) (desired : option Z).
Hypothesis Hport : field port.
Hypothesis Hdevice : field device.
Hypothesis Hpassword : field password.
Hypothesis Hsalt : field salt.
Hypothesis Hgeneration : 0 <= generation <= U64_MAX.
Hypothesis Hworker : 0 <= worker <= U16_MAX.
Hypothesis Hdesired : match desired with Some d => 0 <= d <= U16_MAX | None => True end.

Let desired_field : bytes := match desired with None => [] | Some value => to_string value end.
Let request : bytes := config_request port device password generation salt worker desired.

Lemma revision_field : field WIRE_PROTOCOL_REVISION.
Proof. apply (bool_decide_unpack _). vm_compute. exact I. Qed.
Lemma desired_is_field : field desired_field.
Proof. unfold desired_field. destruct desired; [apply to_string_field; lia|]. apply (bool_decide_unpack _). vm_compute. exact I. Qed.

Lemma request_utf8 : utf8_valid request = true.
Proof.
  unfold request, config_request. fold desired_field.
  assert (Hbar : utf8_valid [BAR] = true) by (vm_compute; reflexivity).
  pose proof (to_string_field generation ltac:(lia)) as [Hg _]. pose proof (to_string_field worker ltac:(lia)) as [Hw _].
  pose proof desired_is_field as [Hd _]. destruct Hport as [Hp _], Hdevice as [Hv _], Hpassword as [Hq _], Hsalt as [Hs _].
  repeat (apply utf8_valid_app; [first [done | vm_compute; reflexivity]|]). vm_compute. reflexivity.
Qed.

Let content : bytes := drop 8 request.
Lemma request_content : strip_prefix GETCONF request = Some content.
Proof. unfold content, request, config_request. change (drop 8 (GETCONF ++ ?l)) with l. rewrite strip_prefix_app. done. Qed.

Lemma request_trim : trim content = content.
Proof.
  apply trim_trimmed. unfold content, request, config_request. fold desired_field. rewrite (drop_app_length' GETCONF) by done.
  replace (port ++ _) with (port ++ [BAR] ++ (device ++ [BAR] ++ password ++ [BAR] ++ to_string generation ++ [BAR] ++ salt
     ++ [BAR] ++ to_string worker ++ [BAR] ++ desired_field) ++ [BAR] ++ WIRE_PROTOCOL_REVISION) by (rewrite <- !app_assoc; done).
  apply trimmed_bar; [apply Hport|apply revision_field].
Qed.

Lemma request_parts :
  splitn 8 BAR content = [port; device; password; to_string generation; salt; to_string worker; desired_field; WIRE_PROTOCOL_REVISION]
  /\ exists rest, splitn 6 BAR content = [port; device; password; to_string generation; salt; rest].
Proof.
  unfold content, request, config_request. fold desired_field. rewrite (drop_app_length' GETCONF) by done. cbn [app].
  pose proof (to_string_field generation ltac:(lia)) as (_ & Hg & _). pose proof (to_string_field worker ltac:(lia)) as (_ & Hw & _).
  pose proof desired_is_field as (_ & Hd & _). destruct Hport as (_ & Hp & _), Hdevice as (_ & Hv & _), Hpassword as (_ & Hq & _), Hsalt as (_ & Hs & _).
  rewrite !splitn_app by done. split; [done|]. eexists. done.
Qed.
End Request.

Lemma forallb_digits l : Forall (fun b => 48 <= b <= 57) l -> forallb is_digit l = true.
Proof. induction 1 as [|b l Hb _ IH]; [done|]. cbn. rewrite IH, andb_true_r. by apply within_spec. Qed.

Lemma parse_generation_to_string n : 0 <= n <= U64_MAX -> parse_generation_id (to_string n) = Some n.
Proof.
  intros Hn. destruct (to_string_digits n ltac:(lia)) as [Hd Hne]. unfold parse_generation_id.
  rewrite bool_decide_false by done. rewrite forallb_digits by done. cbn. apply parse_to_string; [done|]. unfold U64_MAX in Hn. lia.
Qed.

(** The request a client builds is valid UTF-8, both readers of the server
    find in it the device, the generation and the salt the client put there,
    the second also port, password, worker and stream count, and the revision
    is one the server supports with data frames. *)
Theorem getconf_roundtrip port device password generation salt worker desired :
  field port -> field device -> field password -> field salt ->
  1 <= len device <= 128 -> len salt <= 128 -> 0 <= generation <= U64_MAX -> 0 <= worker <= U16_MAX ->
  match desired with Some d => 0 <= d <= U16_MAX | None => True end ->
  let request := config_request port device password generation salt worker desired in
  let fields := getconf_fields request in
  parse_getconf_epoch request = Some (device, generation, salt)
  /\ client_port fields = port /\ device_text fields = device /\ password_text fields = password /\ salt_text fields = salt
  /\ parse_generation_id (generation_text fields) = Some generation /\ parse_u16 (worker_text fields) = Some worker
  /\ match desired with Some d => parse_u16 (desired_text fields) = Some d | None => desired_text fields = [] end
  /\ is_supported_wire_protocol (revision_text fields) = true /\ supports_data_frames (revision_text fields) = true
  /\ is_control_payload request = true.
Proof.
  intros Hp Hd Hq Hs Hlen Hslen Hg Hw Hn request fields. subst fields.
  pose proof (request_utf8 port device password generation salt worker desired Hp Hd Hq Hs Hg Hw Hn) as Hu.
  pose proof (request_content port device password generation salt worker desired) as Hc.
  pose proof (request_trim port device password generation salt worker desired Hp) as Ht.
  destruct (request_parts port device password generation salt worker desired Hp Hd Hq Hs Hg Hw Hn) as [H8 (rest & H6)].
  fold request in Hu, Hc, Ht, H8, H6.
  assert (Hfields : getconf_fields request = mkGetconf port device password (to_string generation) salt (to_string worker)
            (match desired with None => [] | Some value => to_string value end) WIRE_PROTOCOL_REVISION).
  { unfold getconf_fields. rewrite Hc. cbn [from_option id]. rewrite Ht, H8. cbn [lookup list_lookup from_option id].
    rewrite (field_trim port), (field_trim device), (field_trim password), (field_trim salt), (field_trim WIRE_PROTOCOL_REVISION),
      (field_trim (to_string generation)), (field_trim (to_string worker)), (field_trim (match desired with None => [] | Some value => to_string value end));
      try done; try (apply to_string_field; lia); [by apply desired_is_field|apply revision_field]. }
  rewrite Hfields. cbn [client_port device_text password_text salt_text generation_text worker_text desired_text revision_text].
  split_and!; try done.
  - unfold parse_getconf_epoch. rewrite Hu. cbn [negb]. rewrite Hc. cbn [mbind option_bind]. rewrite Ht, H6. cbn [lookup list_lookup fmap option_fmap option_map mbind option_bind from_option id].
    rewrite (field_trim (to_string generation)) by (apply to_string_field; lia). rewrite parse_generation_to_string by done. cbn [mbind option_bind].
    rewrite (field_trim device), (field_trim salt) by done. rewrite bool_decide_false by (intros ->; change (len []) with 0 in Hlen; lia).
    rewrite (proj2 (Z.ltb_ge 128 (len device))), (proj2 (Z.ltb_ge 128 (len salt))) by lia. done.
  - by apply parse_generation_to_string.
  - apply parse_to_string; [done|]. unfold U16_MAX in Hw. lia.
  - destruct desired as [d|]; [|done]. apply parse_to_string; [done|]. unfold U16_MAX in Hn. lia.
Qed.

Lemma getconf_roundtrip_witness :
  parse_getconf_epoch (config_request (b_ "9000") (b_ "device") (b_ "password") 7 (b_ "salt") 4 (Some 36))
  = Some (b_ "device", 7, b_ "salt").
Proof.
  apply (getconf_roundtrip (b_ "9000") (b_ "device") (b_ "password") 7 (b_ "salt") 4 (Some 36));
    first [apply (bool_decide_unpack _); vm_compute; exact I | vm_compute; split; discriminate | vm_compute; discriminate].
Defined.

(** A DISCONNECT names the device and the salt the client put in it. *)
Lemma disconnect_roundtrip device salt :
  field device -> field salt ->
  disconnect_fields (disconnect_request device salt) = (device, salt) /\ is_control_payload (disconnect_request device salt) = true.
Proof.
  intros Hd Hs. split; [|done]. unfold disconnect_fields, disconnect_request. rewrite strip_prefix_app. cbn [from_option id].
  assert (Ht : trim (device ++ [BAR] ++ salt) = device ++ [BAR] ++ salt).
  { apply trim_trimmed. destruct Hd as (_ & _ & Hd & _), Hs as (_ & _ & _ & Hs). split.
    - by apply strip_any_across; [apply whitespace_lacks_bar|].
    - cbn [app]. rewrite reverse_app, reverse_cons, <- app_assoc. by apply strip_any_across; [apply whitespace_lacks_bar|]. }
  rewrite Ht. cbn [app]. rewrite splitn_app by apply Hd. cbn [lookup list_lookup from_option id splitn]. by rewrite !field_trim.
Qed.
