(* ===== verification/Sink.v ===== *)
(** * Output of the server

    The trait [PacketOutput] the engine writes through, and its two
    implementations: [PacketSink] over the transmit slots of [TokioIo]
    ([rust-server/tokio_io.rs]), with the loops that hand the slots to the
    kernel, and [RemotePacketSink] over the channel of a shard
    ([rust-server/dataplane.rs]). *)

From S2P Require Import Prelude FlowFrame Classify Packet.

(** [std::net::IpAddr] and [std::net::SocketAddr] *)
Inductive IpAddr := IpV4 (octets : bytes) | IpV6 (octets : bytes).
Inductive SockAddr := SockV4 (ip : bytes) (port : Z) | SockV6 (ip : bytes) (port flowinfo scope : Z).
#[global] Instance IpAddr_eq_dec : EqDecision IpAddr.
Proof. solve_decision. Defined.
#[global] Instance SockAddr_eq_dec : EqDecision SockAddr.
Proof. solve_decision. Defined.
#[global] Instance IpAddr_countable : Countable IpAddr.
Proof.
  apply (inj_countable' (fun a => match a with IpV4 o => inl o | IpV6 o => inr o end)
           (fun x => match x with inl o => IpV4 o | inr o => IpV6 o end)); by intros [].
Defined.
#[global] Instance SockAddr_countable : Countable SockAddr.
Proof.
  apply (inj_countable' (fun a => match a with SockV4 i p => inl (i, p) | SockV6 i p f s => inr (i, p, f, s) end)
           (fun x => match x with inl (i, p) => SockV4 i p | inr (i, p, f, s) => SockV6 i p f s end)); by intros [].
Defined.

(** ** The trait *)

(** [build] is the closure that writes the packet; it may change the state
    [St] it captures. *)
Class PacketOutput (S : Type) := {
  has_udp_tx_slot : S -> bool;
  send_udp_with_duplicate_priority : forall {St : Type}, S -> SockAddr -> option IpAddr -> bool -> PacketClass ->
    (St -> ServerBuf -> opt (bool * ServerBuf * St)) -> St -> opt (bool * S * St);
  request_udp_flush : S -> S;
  write_tun_priority : S -> bytes -> PacketClass -> opt (bool * S);
}.

(** What the engine relies on: the closure runs at most once, on a whole
    buffer, and its packet is sent only if it says so; no call panics where the
    closure does not. *)
Class PacketOutputLaws (S : Type) `{PacketOutput S} := {
  sink_wf : S -> Prop;
  send_udp_law : forall (St : Type) (s : S) peer source duplicate class
      (build : St -> ServerBuf -> opt (bool * ServerBuf * St)) (st : St),
    sink_wf s ->
    (forall buf, server_buf_wf buf ->
       exists built buf' st', build st buf = Ok (built, buf', st') /\ server_buf_wf buf') ->
    exists sent s' st', send_udp_with_duplicate_priority s peer source duplicate class build st = Ok (sent, s', st')
      /\ sink_wf s'
      /\ ((sent = false /\ st' = st)
          \/ exists buf built buf', server_buf_wf buf
               /\ build st buf = Ok (built, buf', st') /\ (sent = true -> built = true));
  request_flush_law : forall s, sink_wf s -> sink_wf (request_udp_flush s);
  write_tun_law : forall s payload class, sink_wf s ->
    exists written s', write_tun_priority s payload class = Ok (written, s') /\ sink_wf s';
}.

(** ** Transmit slots *)

Definition FEC_TX_SLOT_RESERVE : Z := 32.

(** [udp_tx], [free_udp_tx] and the three [pending_udp_*_tx], or the same for
    the TUN device.  A slot holds a packet while it is pending. *)
Record TxRing (A : Type) := mkRing {
  slots : list (option A); free_tx : list nat;
  latency_tx : list nat; priority_tx : list nat; bulk_tx : list nat;
}.
Arguments mkRing {A}. Arguments slots {A}. Arguments free_tx {A}.
Arguments latency_tx {A}. Arguments priority_tx {A}. Arguments bulk_tx {A}.

Definition ring_new {A : Type} (n : nat) : TxRing A := mkRing (replicate n None) (seq 0 n) [] [] [].

Section Ring.
Context {A : Type}.
Implicit Types r : TxRing A.

Definition set_free r (l : list nat) : TxRing A := mkRing (slots r) l (latency_tx r) (priority_tx r) (bulk_tx r).
(** [self.udp_tx[slot_id].buffer = Some(..)]; [None] where it panics. *)
Definition fill_slot r (i : nat) (a : option A) : opt (TxRing A) :=
  match slots r !! i with
  | None => Panic
  | Some _ => Ok (mkRing (<[i := a]> (slots r)) (free_tx r) (latency_tx r) (priority_tx r) (bulk_tx r))
  end.
Definition enqueue r (i : nat) (class : PacketClass) : TxRing A :=
  match class with
  | Small => mkRing (slots r) (free_tx r) (latency_tx r ++ [i]) (priority_tx r) (bulk_tx r)
  | Medium => mkRing (slots r) (free_tx r) (latency_tx r) (priority_tx r ++ [i]) (bulk_tx r)
  | Bulk => mkRing (slots r) (free_tx r) (latency_tx r) (priority_tx r) (bulk_tx r ++ [i])
  end.
(** [pop_front().or_else(..).or_else(..)] *)
Definition pop_pending r : option (nat * TxRing A) :=
  match latency_tx r with
  | i :: l => Some (i, mkRing (slots r) (free_tx r) l (priority_tx r) (bulk_tx r))
  | [] => match priority_tx r with
          | i :: l => Some (i, mkRing (slots r) (free_tx r) [] l (bulk_tx r))
          | [] => match bulk_tx r with
                  | i :: l => Some (i, mkRing (slots r) (free_tx r) [] [] l)
                  | [] => None
                  end
          end
  end.
Definition pending_len r : Z :=
  sat_add (sat_add (len (latency_tx r)) (len (priority_tx r))) (len (bulk_tx r)).
(** The first queue that is not empty. *)
Definition front_queue r : list nat :=
  match latency_tx r with
  | [] => match priority_tx r with [] => bulk_tx r | l => l end
  | l => l
  end.
Definition slot_full r (i : nat) : opt bool :=
  match slots r !! i with None => Panic | Some b => Ok (match b with Some _ => true | None => false end) end.
(** [iter().take(limit).take_while(|slot| slot.buffer.is_some()).count()] *)
Fixpoint filled_prefix r (limit : nat) (l : list nat) : opt Z :=
  match limit, l with
  | S limit, i :: l => full ← slot_full r i; if (full : bool) then n ← filled_prefix r limit l; Ok (n + 1) else Ok 0
  | _, _ => Ok 0
  end.
(** [buffer.take()] and the slot is free again *)
Definition release_slot r (i : nat) : opt (TxRing A) :=
  r ← fill_slot r i None; Ok (set_free r (free_tx r ++ [i])).
End Ring.

Record TxCounters := mkCounters {
  udp_tx_packets : Z; udp_tx_bytes : Z; udp_tx_errors : Z; udp_tx_drops : Z; udp_tx_eagain : Z; udp_tx_enobufs : Z;
  udp_send_syscalls : Z; partial_sendmmsg : Z; udp_datagram_mode_switches : Z;
  tun_tx_packets : Z; tun_tx_bytes : Z; tun_tx_errors : Z; tun_tx_drops : Z;
}.
Definition counters_zero : TxCounters := mkCounters 0 0 0 0 0 0 0 0 0 0 0 0 0.
Inductive counter := CUdpDrops (n : Z) | CUdpPackets (bytes : Z) | CUdpErrorDrop | CUdpEagain | CUdpEnobufs | CUdpSyscall
  | CPartial | CSwitch | CTunPacket (bytes : Z) | CTunErrorDrop | CTunDrop.
(** The counters each event of the code adds to, saturating. *)
Definition count (c : TxCounters) (k : counter) : TxCounters :=
  let add x n := sat_add x n in
  match c with mkCounters a b d e f g h i j k1 l m n =>
    match k with
    | CUdpDrops q => mkCounters a b d (add e q) f g h i j k1 l m n
    | CUdpPackets q => mkCounters (add a 1) (add b q) d e f g h i j k1 l m n
    | CUdpErrorDrop => mkCounters a b (add d 1) (add e 1) f g h i j k1 l m n
    | CUdpEagain => mkCounters a b d e (add f 1) g h i j k1 l m n
    | CUdpEnobufs => mkCounters a b d e f (add g 1) h i j k1 l m n
    | CUdpSyscall => mkCounters a b d e f g (add h 1) i j k1 l m n
    | CPartial => mkCounters a b d e f g h (add i 1) j k1 l m n
    | CSwitch => mkCounters a b d e f g h i (add j 1) k1 l m n
    | CTunPacket q => mkCounters a b d e f g h i j (add k1 1) (add l q) m n
    | CTunErrorDrop => mkCounters a b d e f g h i j k1 l (add m 1) (add n 1)
    | CTunDrop => mkCounters a b d e f g h i j k1 l m (add n 1)
    end
  end.

(** What a UDP slot holds: the packet, the peer and the source address written
    into the control message ([prepare_current]). *)
Record Datagram := mkDatagram { dg_buffer : ServerBuf; dg_peer : SockAddr; dg_source : option bytes }.
Definition prepare_current (buffer : ServerBuf) (peer : SockAddr) (source_ip : option IpAddr) : Datagram :=
  mkDatagram buffer peer (match peer, source_ip with SockV4 _ _, Some (IpV4 ip) => Some ip | _, _ => None end).

Inductive UdpDatagramMode := Batch | Compat.

(** The answers of the kernel: [write] to the TUN device and [sendmmsg] or
    [sendmsg] to the socket, one per call. *)
Inductive TunAnswer := TunWritten | TunWouldBlock | TunError.
Inductive UdpAnswer := UdpSent (n : Z) | UdpWouldBlock | UdpNoBuffers | UdpUnavailable | UdpError.

Record TokioTx := mkTx {
  tx_udp : TxRing Datagram; tx_tun : TxRing ServerBuf; tx_pool : ServerPool;
  tx_counters : TxCounters; tx_mode : UdpDatagramMode; tun_fatal : bool; urgent_udp_flush : bool;
  tun_answers : list TunAnswer; tun_log : list bytes;
}.

(** Setters. *)
Definition with_udp (s : TokioTx) (r : TxRing Datagram) : TokioTx :=
  mkTx r (tx_tun s) (tx_pool s) (tx_counters s) (tx_mode s) (tun_fatal s) (urgent_udp_flush s) (tun_answers s) (tun_log s).
Definition with_tun (s : TokioTx) (r : TxRing ServerBuf) : TokioTx :=
  mkTx (tx_udp s) r (tx_pool s) (tx_counters s) (tx_mode s) (tun_fatal s) (urgent_udp_flush s) (tun_answers s) (tun_log s).
Definition with_pool (s : TokioTx) (p : ServerPool) : TokioTx :=
  mkTx (tx_udp s) (tx_tun s) p (tx_counters s) (tx_mode s) (tun_fatal s) (urgent_udp_flush s) (tun_answers s) (tun_log s).
Definition counted (s : TokioTx) (k : counter) : TokioTx :=
  mkTx (tx_udp s) (tx_tun s) (tx_pool s) (count (tx_counters s) k) (tx_mode s) (tun_fatal s) (urgent_udp_flush s) (tun_answers s) (tun_log s).
Definition set_fatal (s : TokioTx) : TokioTx :=
  mkTx (tx_udp s) (tx_tun s) (tx_pool s) (tx_counters s) (tx_mode s) true (urgent_udp_flush s) (tun_answers s) (tun_log s).
(** Dropping a [PacketBuf] gives its storage back to the pool. *)
Definition drop_buf (s : TokioTx) (b : ServerBuf) : TokioTx := with_pool s (ServerPool_release (tx_pool s) (sb_storage b)).

(** ** [PacketSink] *)

Definition PacketSink_has_udp_tx_slot (s : TokioTx) : bool := negb (bool_decide (free_tx (tx_udp s) = [])).

(** The second slot of a packet that is sent twice: a free slot beyond the
    reserve, a buffer and a copy. *)
Definition duplicate_slot (s : TokioTx) (source : ServerBuf) (peer : SockAddr) (source_ip : option IpAddr)
    : opt (option nat * TokioTx) :=
  if FEC_TX_SLOT_RESERVE <? len (free_tx (tx_udp s)) then
    match free_tx (tx_udp s) with
    | [] => Ok (None, s)
    | duplicate_id :: free =>
        match ServerPool_try_acquire (tx_pool s) with
        | (None, pool) => Ok (None, with_pool s pool)
        | (Some buffer, pool) =>
            let s := with_pool s pool in
            data ← ServerBuf_as_slice source;
            '(copied, buffer) ← ServerBuf_copy_from buffer data;
            if (copied : bool) then
              udp ← fill_slot (set_free (tx_udp s) free) duplicate_id (Some (prepare_current buffer peer source_ip));
              Ok (Some duplicate_id, with_udp s udp)
            else Ok (None, drop_buf s buffer)
        end
    end
  else Ok (None, s).

Definition PacketSink_send_udp {St : Type} (s : TokioTx) (peer : SockAddr) (source_ip : option IpAddr) (duplicate : bool)
    (class : PacketClass) (build : St -> ServerBuf -> opt (bool * ServerBuf * St)) (st : St) : opt (bool * TokioTx * St) :=
  match free_tx (tx_udp s) with
  | [] => Ok (false, counted s (CUdpDrops 1), st)
  | slot_id :: free =>
      match ServerPool_try_acquire (tx_pool s) with
      | (None, pool) => Ok (false, counted (with_pool s pool) (CUdpDrops 1), st)
      | (Some buffer, pool) =>
          let s := with_pool s pool in
          '(built, buffer, st) ← build st buffer;
          if negb built then Ok (false, counted (drop_buf s buffer) (CUdpDrops 1), st) else
          udp ← fill_slot (set_free (tx_udp s) free) slot_id (Some (prepare_current buffer peer source_ip));
          let s := with_udp s udp in
          '(duplicate_id, s) ← (if duplicate then duplicate_slot s buffer peer source_ip else Ok (None, s));
          let udp := enqueue (tx_udp s) slot_id class in
          let udp := match duplicate_id with Some d => enqueue udp d class | None => udp end in
          Ok (true, with_udp s udp, st)
      end
  end.

Definition PacketSink_request_udp_flush (s : TokioTx) : TokioTx :=
  mkTx (tx_udp s) (tx_tun s) (tx_pool s) (tx_counters s) (tx_mode s) (tun_fatal s) true (tun_answers s) (tun_log s).

(** One [write_tun_packet]; without an answer left the device would block. *)
Definition write_tun_packet (s : TokioTx) (payload : bytes) : TunAnswer * TokioTx :=
  match tun_answers s with
  | [] => (TunWouldBlock, s)
  | answer :: rest =>
      (answer, mkTx (tx_udp s) (tx_tun s) (tx_pool s) (tx_counters s) (tx_mode s) (tun_fatal s) (urgent_udp_flush s) rest
                 (match answer with TunWritten => tun_log s ++ [payload] | _ => tun_log s end))
  end.

(** The packet goes to a slot when the device is busy. *)
Definition queue_tun (s : TokioTx) (payload : bytes) (class : PacketClass) : opt (bool * TokioTx) :=
  match free_tx (tx_tun s) with
  | [] => Ok (false, counted s CTunDrop)
  | slot_id :: free =>
      match ServerPool_try_acquire (tx_pool s) with
      | (None, pool) => Ok (false, counted (with_pool s pool) CTunDrop)
      | (Some buffer, pool) =>
          let s := with_pool s pool in
          '(copied, buffer) ← ServerBuf_copy_from buffer payload;
          if negb copied then Ok (false, counted (drop_buf s buffer) CTunDrop) else
          tun ← fill_slot (set_free (tx_tun s) free) slot_id (Some buffer);
          Ok (true, with_tun s (enqueue tun slot_id class))
      end
  end.

Definition PacketSink_write_tun (s : TokioTx) (payload : bytes) (class : PacketClass) : opt (bool * TokioTx) :=
  if bool_decide (latency_tx (tx_tun s) = []) && bool_decide (priority_tx (tx_tun s) = []) && bool_decide (bulk_tx (tx_tun s) = [])
  then match write_tun_packet s payload with
       | (TunWritten, s) => Ok (true, counted s (CTunPacket (len payload)))
       | (TunWouldBlock, s) => queue_tun s payload class
       | (TunError, s) => Ok (false, set_fatal (counted s CTunErrorDrop))
       end
  else queue_tun s payload class.

#[global] Instance PacketSink_output : PacketOutput TokioTx := {
  has_udp_tx_slot := PacketSink_has_udp_tx_slot;
  send_udp_with_duplicate_priority := @PacketSink_send_udp;
  request_udp_flush := PacketSink_request_udp_flush;
  write_tun_priority := PacketSink_write_tun;
}.

(** A packet a shard has built already. *)
Definition send_prebuilt_udp (s : TokioTx) (peer : SockAddr) (source_ip : option IpAddr) (buffer : ServerBuf) (class : PacketClass)
    : opt (bool * TokioTx) :=
  match free_tx (tx_udp s) with
  | [] => Ok (false, drop_buf (counted s (CUdpDrops 1)) buffer)
  | slot_id :: free =>
      udp ← fill_slot (set_free (tx_udp s) free) slot_id (Some (prepare_current buffer peer source_ip));
      Ok (true, with_udp s (enqueue udp slot_id class))
  end.

Definition write_prebuilt_tun (s : TokioTx) (buffer : ServerBuf) (class : PacketClass) : opt (bool * TokioTx) :=
  let queue s :=
    match free_tx (tx_tun s) with
    | [] => Ok (false, drop_buf (counted s CTunDrop) buffer)
    | slot_id :: free =>
        tun ← fill_slot (set_free (tx_tun s) free) slot_id (Some buffer);
        Ok (true, with_tun s (enqueue tun slot_id class))
    end in
  if bool_decide (latency_tx (tx_tun s) = []) && bool_decide (priority_tx (tx_tun s) = []) && bool_decide (bulk_tx (tx_tun s) = [])
  then payload ← ServerBuf_as_slice buffer;
       match write_tun_packet s payload with
       | (TunWritten, s) => Ok (true, drop_buf (counted s (CTunPacket (sb_len buffer))) buffer)
       | (TunWouldBlock, s) => queue s
       | (TunError, s) => Ok (false, drop_buf (set_fatal (counted s CTunErrorDrop)) buffer)
       end
  else queue s.

(** ** Handing the slots to the kernel *)

(** [for index in 0..sent]: the oldest pending slots are counted and freed. *)
Fixpoint complete_sent (s : TokioTx) (sent : nat) (done : list Datagram) : opt (TokioTx * list Datagram) :=
  match sent with
  | O => Ok (s, done)
  | S sent =>
      match pop_pending (tx_udp s) with
      | None => Ok (s, done)
      | Some (slot_id, udp) =>
          match slots udp !! slot_id with
          | Some (Some d) =>
              let s := counted (with_udp s udp) (CUdpPackets (sb_len (dg_buffer d))) in
              udp ← release_slot (tx_udp s) slot_id;
              complete_sent (drop_buf (with_udp s udp) (dg_buffer d)) sent (done ++ [d])
          | _ => udp ← release_slot udp slot_id; complete_sent (with_udp s udp) sent done
          end
      end
  end.

Definition batch_limit (s : TokioTx) : nat :=
  match tx_mode s with
  | Compat => 1%nat
  | Batch => Z.to_nat (datagram_batch (if negb (bool_decide (latency_tx (tx_udp s) = [])) then Small
                         else if negb (bool_decide (priority_tx (tx_udp s) = [])) then Medium else Bulk))
  end.

(** The oldest pending packet is dropped. *)
Definition drop_front (s : TokioTx) : opt TokioTx :=
  let s := counted s CUdpErrorDrop in
  match pop_pending (tx_udp s) with
  | None => Ok s
  | Some (slot_id, udp) =>
      udp' ← release_slot udp slot_id;
      let s := with_udp s udp' in
      Ok (match mjoin (slots udp !! slot_id) with Some d => drop_buf s (dg_buffer d) | None => s end)
  end.

Definition switch_to_compat_udp_io (s : TokioTx) : TokioTx :=
  match tx_mode s with
  | Compat => s
  | Batch => counted (mkTx (tx_udp s) (tx_tun s) (tx_pool s) (tx_counters s) Compat (tun_fatal s)
                        (urgent_udp_flush s) (tun_answers s) (tun_log s)) CSwitch
  end.

(** What [flush_udp_tx] does with an answer: whether it goes on, and the
    packets the kernel took. *)
Definition udp_answered (s : TokioTx) (batch_len : Z) (answer : UdpAnswer) (done : list Datagram)
    : opt (bool * TokioTx * list Datagram) :=
  match answer with
  | UdpUnavailable =>
      match tx_mode s with
      | Batch => Ok (true, switch_to_compat_udp_io s, done)
      | Compat => s ← drop_front s; Ok (true, s, done)
      end
  | UdpWouldBlock => Ok (false, counted s CUdpEagain, done)
  | UdpNoBuffers => Ok (false, counted s CUdpEnobufs, done)
  | UdpError => s ← drop_front s; Ok (true, s, done)
  | UdpSent n =>
      let sent := Z.max 0 (Z.min n batch_len) in
      if sent =? 0 then Ok (false, counted s CUdpEagain, done) else
      let s := counted s CUdpSyscall in
      let s := if sent <? batch_len then counted s CPartial else s in
      '(s, done) ← complete_sent s (Z.to_nat sent) done;
      Ok (true, s, done)
  end.

(** The loop of [flush_udp_tx].  Running out of fuel is [none]. *)
Fixpoint flush_udp_loop (fuel : nat) (s : TokioTx) (answers : list UdpAnswer) (syscalls max_syscalls : Z) (done : list Datagram)
    : opt (TokioTx * list Datagram) :=
  match fuel with
  | O => none
  | S fuel =>
      if (pending_len (tx_udp s) =? 0) || negb (syscalls <? max_syscalls) then Ok (s, done) else
      batch_len ← filled_prefix (tx_udp s) (batch_limit s) (front_queue (tx_udp s));
      if batch_len =? 0 then
        match pop_pending (tx_udp s) with
        | None => flush_udp_loop fuel s answers syscalls max_syscalls done
        | Some (slot_id, udp) =>
            flush_udp_loop fuel (with_udp (counted s CUdpErrorDrop) (set_free udp (free_tx udp ++ [slot_id])))
              answers syscalls max_syscalls done
        end
      else
      '(go_on, s, done) ← udp_answered s batch_len (default UdpWouldBlock (head answers)) done;
      if (go_on : bool) then flush_udp_loop fuel s (tail answers) (syscalls + 1) max_syscalls done else Ok (s, done)
  end.
(** The packets handed to the kernel, in order. *)
Definition flush_udp_tx (s : TokioTx) (answers : list UdpAnswer) (max_syscalls : Z) : opt (TokioTx * list Datagram) :=
  flush_udp_loop (length (latency_tx (tx_udp s) ++ priority_tx (tx_udp s) ++ bulk_tx (tx_udp s)) + 2) s answers 0 max_syscalls [].

Definition front_pending_tun_tx (s : TokioTx) : option nat := head (front_queue (tx_tun s)).

Fixpoint flush_tun_loop (fuel : nat) (s : TokioTx) : opt TokioTx :=
  match fuel with
  | O => none
  | S fuel =>
      match front_pending_tun_tx s with
      | None => Ok s
      | Some slot_id =>
          full ← slot_full (tx_tun s) slot_id;
          if negb full then
            let tun := match pop_pending (tx_tun s) with Some (_, tun) => tun | None => tx_tun s end in
            flush_tun_loop fuel (with_tun (counted s CTunErrorDrop) (set_free tun (free_tx tun ++ [slot_id])))
          else
          match mjoin (slots (tx_tun s) !! slot_id) with
          | None => Panic
          | Some buffer =>
              payload ← ServerBuf_as_slice buffer;
              match write_tun_packet s payload with
              | (TunWouldBlock, s) => Ok s
              | (TunError, s) =>
                  let s := set_fatal (counted s CTunErrorDrop) in
                  match pop_pending (tx_tun s) with
                  | None => Ok s
                  | Some (slot_id, tun) => tun ← release_slot tun slot_id; Ok (drop_buf (with_tun s tun) buffer)
                  end
              | (TunWritten, s) =>
                  let s := counted s (CTunPacket (sb_len buffer)) in
                  let tun := match pop_pending (tx_tun s) with Some (_, tun) => tun | None => tx_tun s end in
                  tun ← release_slot tun slot_id;
                  flush_tun_loop fuel (drop_buf (with_tun s tun) buffer)
              end
          end
      end
  end.
Definition flush_tun_tx (s : TokioTx) : opt TokioTx :=
  flush_tun_loop (length (latency_tx (tx_tun s) ++ priority_tx (tx_tun s) ++ bulk_tx (tx_tun s)) + 1) s.

(** ** Slots are conserved *)

Section RingFacts.
Context {A : Type} (P : A -> Prop).
Implicit Types r : TxRing A.

(** The pending slots in the order [pop_pending] takes them, and their
    packets. *)
Definition pending_tx r : list nat := latency_tx r ++ priority_tx r ++ bulk_tx r.
Definition contents r : list A := omap (fun i => mjoin (slots r !! i)) (pending_tx r).

(** Every slot is free, pending, or in [out], the slots a call holds; a free
    slot is empty and the others hold a packet. *)
Record ring_inv (n : nat) (out : list nat) r : Prop := {
  ri_len : length (slots r) = n;
  ri_perm : free_tx r ++ out ++ pending_tx r ≡ₚ seq 0 n;
  ri_full : forall i, i ∈ out ++ pending_tx r -> exists a, slots r !! i = Some (Some a) /\ P a;
  ri_free : forall i, i ∈ free_tx r -> slots r !! i = Some None;
}.

Lemma ring_inv_nodup n out r : ring_inv n out r -> NoDup (free_tx r ++ out ++ pending_tx r).
Proof. intros H. rewrite (ri_perm _ _ _ H). apply NoDup_seq. Qed.

Lemma ring_new_inv n : ring_inv n [] (ring_new n).
Proof.
  constructor; cbn; [apply length_replicate|by rewrite app_nil_r|set_solver|].
  intros i Hi. apply elem_of_seq in Hi. apply lookup_replicate. split; [done|lia].
Qed.

Lemma fill_slot_inv n out r i l a :
  ring_inv n out r -> free_tx r = i :: l -> P a ->
  exists r', fill_slot (set_free r l) i (Some a) = Ok r' /\ ring_inv n (i :: out) r'
    /\ free_tx r' = l /\ pending_tx r' = pending_tx r /\ slots r' = <[i := Some a]> (slots r).
Proof.
  intros H Hf Ha. pose proof (ring_inv_nodup _ _ _ H) as Hnd. rewrite Hf in Hnd. cbn in Hnd. apply NoDup_cons in Hnd as [Hni Hnd].
  assert (Hsi : slots r !! i = Some None) by (apply (ri_free _ _ _ H); rewrite Hf; set_solver).
  eexists. unfold fill_slot. cbn [slots set_free]. rewrite Hsi. split; [done|]. cbn [slots free_tx pending_tx latency_tx priority_tx bulk_tx].
  split; [|done]. constructor; cbn [slots free_tx pending_tx latency_tx priority_tx bulk_tx set_free].
  - rewrite length_insert. apply H.
  - rewrite <- (ri_perm _ _ _ H), Hf. cbn. symmetry. apply Permutation_middle.
  - intros j Hj. cbn in Hj. apply elem_of_cons in Hj as [->|Hj].
    + exists a. rewrite list_lookup_insert_eq; [done|by apply lookup_lt_Some in Hsi].
    + rewrite list_lookup_insert_ne by (intros ->; apply Hni; set_solver). by apply (ri_full _ _ _ H).
  - intros j Hj. rewrite list_lookup_insert_ne by (intros ->; apply Hni; set_solver). apply (ri_free _ _ _ H). rewrite Hf. set_solver.
Qed.

Lemma pending_enqueue r i class : pending_tx (enqueue r i class) ≡ₚ i :: pending_tx r.
Proof.
  unfold pending_tx. destruct class; cbn; rewrite <- Permutation_cons_append; cbn; rewrite <- ?Permutation_middle; try done.
Qed.

Lemma enqueue_inv n out r i class : ring_inv n (i :: out) r -> ring_inv n out (enqueue r i class).
Proof.
  intros H. pose proof (pending_enqueue r i class) as Hp.
  assert (slots (enqueue r i class) = slots r /\ free_tx (enqueue r i class) = free_tx r) as [Hs Hf] by (by destruct class).
  constructor; rewrite ?Hs, ?Hf.
  - apply H.
  - rewrite Hp, <- (ri_perm _ _ _ H). cbn. by rewrite <- !Permutation_middle.
  - intros j Hj. apply (ri_full _ _ _ H). rewrite Hp in Hj. set_solver.
  - apply H.
Qed.

Lemma pop_pending_spec r :
  match pop_pending r with
  | Some (i, r') => pending_tx r = i :: pending_tx r' /\ slots r' = slots r /\ free_tx r' = free_tx r
  | None => pending_tx r = []
  end.
Proof.
  unfold pop_pending, pending_tx. destruct (latency_tx r) as [|i l] eqn:E1; [|by cbn].
  destruct (priority_tx r) as [|i l] eqn:E2; [|by cbn]. destruct (bulk_tx r) as [|i l] eqn:E3; by cbn.
Qed.

Lemma pop_inv n r i r' : ring_inv n [] r -> pop_pending r = Some (i, r') -> ring_inv n [i] r'.
Proof.
  intros H Hp. pose proof (pop_pending_spec r) as Hs. rewrite Hp in Hs. destruct Hs as (Hpend & Hs & Hf).
  constructor; rewrite ?Hs, ?Hf; [apply H| | |apply H].
  - rewrite <- (ri_perm _ _ _ H), Hpend. done.
  - intros j Hj. apply (ri_full _ _ _ H). rewrite Hpend. done.
Qed.

Lemma release_inv n out r i :
  ring_inv n (i :: out) r ->
  exists r', release_slot r i = Ok r' /\ ring_inv n out r' /\ free_tx r' = free_tx r ++ [i] /\ pending_tx r' = pending_tx r
    /\ slots r' = <[i := None]> (slots r).
Proof.
  intros H. destruct (ri_full _ _ _ H i ltac:(set_solver)) as (a & Hi & _).
  pose proof (ring_inv_nodup _ _ _ H) as Hnd. cbn [app] in Hnd. rewrite <- Permutation_middle in Hnd. apply NoDup_cons in Hnd as [Hni _].
  unfold release_slot, fill_slot. rewrite Hi. cbn. eexists. split; [done|].
  cbn [slots free_tx latency_tx priority_tx bulk_tx set_free pending_tx]. split; [|done].
  constructor; cbn [slots free_tx latency_tx priority_tx bulk_tx set_free pending_tx].
  - rewrite length_insert. apply H.
  - rewrite <- (ri_perm _ _ _ H), <- app_assoc. done.
  - intros j Hj. rewrite list_lookup_insert_ne by (intros ->; apply Hni; set_solver). apply (ri_full _ _ _ H). set_solver.
  - intros j Hj. apply elem_of_app in Hj as [Hj|Hj].
    + rewrite list_lookup_insert_ne by (intros ->; apply Hni; set_solver). by apply (ri_free _ _ _ H).
    + apply list_elem_of_singleton in Hj as ->. apply list_lookup_insert_eq. by apply lookup_lt_Some in Hi.
Qed.

Lemma contents_ext (f g : nat -> option A) (l : list nat) : (forall i, i ∈ l -> f i = g i) -> omap f l = omap g l.
Proof. induction l as [|i l IH]; intros H; [done|]. cbn. rewrite (H i), IH; [done|set_solver|set_solver]. Qed.

(** Taking the oldest packet. *)
Lemma pop_release n r i r' :
  ring_inv n [] r -> pop_pending r = Some (i, r') ->
  exists a r'', slots r !! i = Some (Some a) /\ P a /\ release_slot r' i = Ok r'' /\ ring_inv n [] r''
    /\ contents r = a :: contents r'' /\ length (pending_tx r) = S (length (pending_tx r'')).
Proof.
  intros H Hp. pose proof (pop_pending_spec r) as Hs. rewrite Hp in Hs. destruct Hs as (Hpend & Hs & Hf).
  destruct (ri_full _ _ _ H i ltac:(rewrite Hpend; set_solver)) as (a & Hi & Ha).
  destruct (release_inv n [] r' i (pop_inv _ _ _ _ H Hp)) as (r'' & Hr & Hinv & Hfr & Hpr & Hsr).
  exists a, r''. split_and!; try done; [|by rewrite Hpend, Hpr].
  unfold contents. rewrite Hpend, Hpr. cbn. rewrite Hi. cbn. f_equal. apply contents_ext. intros j Hj. rewrite Hsr, Hs.
  pose proof (ring_inv_nodup _ _ _ H) as Hnd. rewrite Hpend in Hnd. cbn in Hnd. apply NoDup_app in Hnd as (_ & _ & [Hni _]%NoDup_cons).
  rewrite list_lookup_insert_ne; [done|]. intros ->. done.
Qed.

Lemma filled_prefix_front n r limit :
  ring_inv n [] r -> filled_prefix r limit (front_queue r) = Ok (Z.of_nat (limit `min` length (front_queue r))).
Proof.
  intros H. assert (Hin : forall i, i ∈ front_queue r -> i ∈ pending_tx r).
  { intros i. unfold front_queue, pending_tx. destruct (latency_tx r); [destruct (priority_tx r)|]; set_solver. }
  revert limit. induction (front_queue r) as [|i l IH]; intros [|limit]; cbn; try done.
  destruct (ri_full _ _ _ H i) as (a & Hi & _); [cbn; apply Hin; set_solver|].
  unfold slot_full. rewrite Hi. cbn. rewrite IH by (intros j Hj; apply Hin; set_solver). cbn. f_equal. lia.
Qed.

Lemma front_queue_nonempty r : pending_tx r <> [] -> front_queue r <> [].
Proof. unfold pending_tx, front_queue. destruct (latency_tx r); [destruct (priority_tx r)|]; done. Qed.
Lemma front_queue_prefix r : exists l, pending_tx r = front_queue r ++ l.
Proof.
  unfold pending_tx, front_queue. destruct (latency_tx r); [destruct (priority_tx r)|]; cbn; [exists []; by rewrite app_nil_r|eauto|eauto].
Qed.
Lemma front_head r : head (front_queue r) = fst <$> pop_pending r.
Proof. unfold front_queue, pop_pending. destruct (latency_tx r); [destruct (priority_tx r); [destruct (bulk_tx r)|]|]; done. Qed.
End RingFacts.
Arguments pending_tx {A}. Arguments contents {A}.

Definition udp_ok (d : Datagram) : Prop := server_buf_wf (dg_buffer d).
Definition pool_wf (p : ServerPool) : Prop := Forall (fun storage => len storage = PACKET_CAPACITY) (sp_queue p).
Record tx_wf (n m : nat) (s : TokioTx) : Prop := {
  tw_udp : ring_inv udp_ok n [] (tx_udp s);
  tw_tun : ring_inv server_buf_wf m [] (tx_tun s);
  tw_pool : pool_wf (tx_pool s);
}.

Lemma acquire_wf p : pool_wf p ->
  match ServerPool_try_acquire p with
  | (Some b, p') => server_buf_wf b /\ pool_wf p'
  | (None, p') => pool_wf p'
  end.
Proof.
  unfold ServerPool_try_acquire, pool_wf. intros H. destruct (sp_queue p) as [|st q] eqn:E.
  - destruct (_ <? _); cbn; [|by rewrite E]. split; [|done]. split; cbn; [done|]. unfold PACKET_CAPACITY. lia.
  - apply Forall_cons in H as [Hst Hq]. cbn. split; [|done]. split; cbn; [done|]. unfold PACKET_CAPACITY. lia.
Qed.
Lemma release_wf p st : pool_wf p -> pool_wf (ServerPool_release p st).
Proof.
  unfold ServerPool_release, pool_wf. intros H. destruct (len st =? PACKET_CAPACITY) eqn:E; bool_prop; cbn; [|done].
  destruct (_ <? _); cbn; [|done]. destruct (_ <? _); cbn; [|done]. apply Forall_app. by repeat constructor.
Qed.

Lemma tx_wf_counted n m s k : tx_wf n m s -> tx_wf n m (counted s k).
Proof. by intros []. Qed.
Lemma tx_wf_pool n m s p : tx_wf n m s -> pool_wf p -> tx_wf n m (with_pool s p).
Proof. by intros []. Qed.
Lemma tx_wf_drop n m s b : tx_wf n m s -> tx_wf n m (drop_buf s b).
Proof. intros H. apply tx_wf_pool; [done|]. apply release_wf, H. Qed.
Lemma tx_wf_fatal n m s : tx_wf n m s -> tx_wf n m (set_fatal s).
Proof. by intros []. Qed.
#[local] Hint Resolve tx_wf_counted tx_wf_pool tx_wf_drop tx_wf_fatal : csqtt.

(** [copy_from] on a whole buffer. *)
Lemma copy_from_wf {E} b data : server_buf_wf b ->
  exists copied b', @ServerBuf_copy_from E b data = Ok (copied, b') /\ server_buf_wf b'.
Proof.
  intros [Hs Hl]. unfold ServerBuf_copy_from. destruct (PACKET_CAPACITY <? len data) eqn:E1; bool_prop; [by eexists _, b|].
  pose proof (len_nonneg data). destruct (split_len (sb_storage b) (len data)) as (x & y & Hxy & Hx & Hy); [lia|].
  rewrite (copy_into_eq (sb_storage b) [] x y) by (cbn; lia || done). cbn. eexists _, _. split; [done|]. split; cbn; [|lia].
  rewrite len_app. lia.
Qed.
Lemma as_slice_wf {E} b : server_buf_wf b -> exists data, @ServerBuf_as_slice E b = Ok data.
Proof.
  intros [Hs Hl]. unfold ServerBuf_as_slice. destruct (split_len (sb_storage b) (sb_len b)) as (x & y & Hxy & Hx & Hy); [lia|].
  rewrite (slice_eq (sb_storage b) [] x y) by (cbn; lia || done). eauto.
Qed.

Lemma duplicate_slot_wf n m s slot_id source peer source_ip :
  ring_inv udp_ok n [slot_id] (tx_udp s) -> ring_inv server_buf_wf m [] (tx_tun s) -> pool_wf (tx_pool s) -> server_buf_wf source ->
  exists d s', duplicate_slot s source peer source_ip = Ok (d, s')
    /\ ring_inv udp_ok n (option_list d ++ [slot_id]) (tx_udp s') /\ ring_inv server_buf_wf m [] (tx_tun s') /\ pool_wf (tx_pool s').
Proof.
  intros Hu Ht Hp Hsrc. unfold duplicate_slot. destruct (_ <? _); [|by eexists None, s].
  destruct (free_tx (tx_udp s)) as [|i l] eqn:Ef; [by eexists None, s|].
  pose proof (acquire_wf _ Hp) as Ha. destruct (ServerPool_try_acquire (tx_pool s)) as [[b|] p']; [|by eexists None, _].
  destruct Ha as [Hb Hp']. destruct (@as_slice_wf unit source Hsrc) as [data ->]. cbn [mbind result_bind].
  destruct (@copy_from_wf unit b data Hb) as (copied & b' & -> & Hb'). cbn [mbind result_bind]. destruct copied.
  - destruct (fill_slot_inv udp_ok n [slot_id] (tx_udp s) i l (prepare_current b' peer source_ip) Hu Ef Hb') as (r' & Hr & Hinv & _).
    cbn [tx_udp with_pool]. rewrite Hr. cbn [mbind result_bind]. by eexists (Some i), _.
  - eexists None, _. split_and!; try done. by apply release_wf.
Qed.

Lemma send_udp_wf n m {St : Type} s peer source duplicate class (build : St -> ServerBuf -> opt (bool * ServerBuf * St)) st :
  tx_wf n m s ->
  (forall buf, server_buf_wf buf -> exists built buf' st', build st buf = Ok (built, buf', st') /\ server_buf_wf buf') ->
  exists sent s' st', PacketSink_send_udp s peer source duplicate class build st = Ok (sent, s', st') /\ tx_wf n m s'
    /\ ((sent = false /\ st' = st)
        \/ exists buf built buf', server_buf_wf buf
             /\ build st buf = Ok (built, buf', st') /\ (sent = true -> built = true)).
Proof.
  intros Hwf Hbuild. unfold PacketSink_send_udp.
  destruct (free_tx (tx_udp s)) as [|i l] eqn:Ef; [eexists _, _, _; split_and!; [done|by apply tx_wf_counted|by left]|].
  pose proof (acquire_wf _ (tw_pool _ _ _ Hwf)) as Ha. destruct (ServerPool_try_acquire (tx_pool s)) as [[b|] p'].
  2: { eexists _, _, _; split_and!; [done|by apply tx_wf_counted, tx_wf_pool|by left]. }
  destruct Ha as [Hb Hp']. destruct (Hbuild b) as (built & b' & st' & Hbd & Hb'); [apply Hb|]. rewrite Hbd. cbn [mbind result_bind].
  destruct built; cbn [negb].
  2: { eexists _, _, _; split_and!; [done|by apply tx_wf_counted, tx_wf_drop, tx_wf_pool|]. right. exists b. eexists _, _. split_and!; [apply Hb|done|done]. }
  destruct (fill_slot_inv udp_ok n [] (tx_udp s) i l (prepare_current b' peer source) (tw_udp _ _ _ Hwf) Ef Hb') as (r' & Hr & Hinv & _).
  cbn [tx_udp with_pool]. rewrite Hr. cbn [mbind result_bind].
  set (s1 := with_udp (with_pool s p') r').
  assert (exists d s2, (if duplicate then duplicate_slot s1 b' peer source else Ok (None, s1)) = Ok (d, s2)
    /\ ring_inv udp_ok n (option_list d ++ [i]) (tx_udp s2) /\ ring_inv server_buf_wf m [] (tx_tun s2) /\ pool_wf (tx_pool s2)) as (d & s2 & -> & Hu & Ht & Hp).
  { destruct duplicate; [apply duplicate_slot_wf; try done; apply Hwf|]. eexists None, s1. split_and!; try done. apply Hwf. }
  cbn [mbind result_bind]. eexists _, _, _. split_and!; [done| |right; exists b; eexists _, _; split_and!; [apply Hb|done|done]].
  split; [|done|done]. cbn [tx_udp with_udp]. destruct d as [d|]; cbn in Hu; [|by apply enqueue_inv].
  apply enqueue_inv, enqueue_inv. destruct Hu as [H1 H2 H3 H4]. split; [done|rewrite <- H2; apply Permutation_app; [done|apply perm_swap]| |done].
  intros j Hj. apply H3. set_solver.
Qed.

Lemma queue_tun_wf n m s payload class :
  tx_wf n m s -> exists b s', queue_tun s payload class = Ok (b, s') /\ tx_wf n m s'.
Proof.
  intros Hwf. unfold queue_tun. destruct (free_tx (tx_tun s)) as [|i l] eqn:Ef; [eexists _, _; split; [done|by apply tx_wf_counted]|].
  pose proof (acquire_wf _ (tw_pool _ _ _ Hwf)) as Ha. destruct (ServerPool_try_acquire (tx_pool s)) as [[b|] p'].
  2: { eexists _, _; split; [done|by apply tx_wf_counted, tx_wf_pool]. }
  destruct Ha as [Hb Hp']. destruct (@copy_from_wf unit b payload Hb) as (copied & b' & -> & Hb'). cbn [mbind result_bind].
  destruct copied; cbn [negb]; [|eexists _, _; split; [done|by apply tx_wf_counted, tx_wf_drop, tx_wf_pool]].
  destruct (fill_slot_inv server_buf_wf m [] (tx_tun s) i l b' (tw_tun _ _ _ Hwf) Ef Hb') as (r' & Hr & Hinv & _).
  cbn [tx_tun with_pool]. rewrite Hr. cbn. eexists _, _. split; [done|]. split; [apply Hwf|by apply enqueue_inv|done].
Qed.

Lemma write_answer_wf n m s payload : tx_wf n m s -> tx_wf n m (write_tun_packet s payload).2.
Proof. unfold write_tun_packet. intros []. by destruct (tun_answers s). Qed.

Lemma write_tun_wf n m s payload class :
  tx_wf n m s -> exists b s', PacketSink_write_tun s payload class = Ok (b, s') /\ tx_wf n m s'.
Proof.
  intros Hwf. unfold PacketSink_write_tun. destruct (_ && _); [|by apply queue_tun_wf].
  pose proof (write_answer_wf n m s payload Hwf) as Hw. destruct (write_tun_packet s payload) as [[] s1]; cbn in Hw.
  - eexists _, _. split; [done|by apply tx_wf_counted].
  - by apply queue_tun_wf.
  - eexists _, _. split; [done|by apply tx_wf_fatal, tx_wf_counted].
Qed.

#[global] Instance PacketSink_laws : PacketOutputLaws TokioTx.
Proof.
  refine {| sink_wf := fun s => exists n m, tx_wf n m s |}.
  - intros St s peer source dup class build st (n & m & Hwf) Hb.
    destruct (send_udp_wf n m s peer source dup class build st Hwf Hb) as (sent & s' & st' & H1 & H2 & H3). eauto 10.
  - intros s (n & m & []). by exists n, m.
  - intros s payload class (n & m & Hwf). destruct (write_tun_wf n m s payload class Hwf) as (b & s' & H1 & H2). eauto 10.
Defined.

(** ** The order of transmission *)

Definition mode_credit (s : TokioTx) : nat := match tx_mode s with Batch => 1%nat | Compat => 0%nat end.
(** What became of the packets that left the slots: handed over, or dropped. *)
Definition handed (outcomes : list (bool * Datagram)) : list Datagram := (filter (fun o => o.1 = true) outcomes).*2.

Lemma handed_app a b : handed (a ++ b) = handed a ++ handed b.
Proof. unfold handed. by rewrite filter_app, fmap_app. Qed.
Lemma handed_sent l : handed (pair true <$> l) = l.
Proof. unfold handed. induction l as [|x l IH]; [done|]. rewrite fmap_cons, filter_cons_True, fmap_cons, IH by done. done. Qed.

(** Removing the oldest packet from the socket's slots. *)
Lemma pop_udp n m s i udp :
  tx_wf n m s -> pop_pending (tx_udp s) = Some (i, udp) ->
  exists d udp', slots udp !! i = Some (Some d) /\ release_slot udp i = Ok udp' /\ tx_wf n m (with_udp s udp')
    /\ contents (tx_udp s) = d :: contents udp' /\ length (pending_tx (tx_udp s)) = S (length (pending_tx udp')).
Proof.
  intros Hwf Hp. destruct (pop_release udp_ok n _ _ _ (tw_udp _ _ _ Hwf) Hp) as (d & udp' & Hs & Hd & Hr & Hinv & Hc & Hl).
  exists d, udp'. pose proof (pop_pending_spec (tx_udp s)) as Hspec. rewrite Hp in Hspec. destruct Hspec as (_ & Hsl & _).
  rewrite Hsl. split_and!; try done. destruct Hwf. by split.
Qed.

Lemma complete_sent_spec n m sent s done :
  tx_wf n m s -> (sent <= length (pending_tx (tx_udp s)))%nat ->
  exists s', complete_sent s sent done = Ok (s', done ++ take sent (contents (tx_udp s))) /\ tx_wf n m s'
    /\ contents (tx_udp s) = take sent (contents (tx_udp s)) ++ contents (tx_udp s')
    /\ length (pending_tx (tx_udp s)) = (sent + length (pending_tx (tx_udp s')))%nat /\ tx_mode s' = tx_mode s.
Proof.
  revert s done. induction sent as [|sent IH]; intros s done Hwf Hle.
  - exists s. cbn. by rewrite app_nil_r.
  - cbn. pose proof (pop_pending_spec (tx_udp s)) as Hspec. destruct (pop_pending (tx_udp s)) as [[i udp]|] eqn:Hp; [|rewrite Hspec in Hle; cbn in Hle; lia].
    destruct (pop_udp n m s i udp Hwf Hp) as (d & udp' & Hs & Hr & Hwf' & Hc & Hl).
    rewrite Hs. cbn [tx_udp counted with_udp]. rewrite Hr. cbn [mbind result_bind].
    destruct (IH (drop_buf (with_udp (counted (with_udp s udp) (CUdpPackets (sb_len (dg_buffer d)))) udp') (dg_buffer d)) (done ++ [d]))
      as (s' & H1 & H2 & H3 & H4 & H5); [apply tx_wf_drop; by destruct Hwf'|cbn; lia|].
    exists s'. rewrite H1, Hc. cbn [take tx_udp drop_buf with_pool with_udp] in *. rewrite <- app_assoc. cbn [app].
    split_and!; try done; [by rewrite <- H3|lia].
Qed.

Lemma drop_front_spec n m s :
  tx_wf n m s -> pending_tx (tx_udp s) <> [] ->
  exists s' d, drop_front s = Ok s' /\ tx_wf n m s' /\ contents (tx_udp s) = d :: contents (tx_udp s')
    /\ length (pending_tx (tx_udp s)) = S (length (pending_tx (tx_udp s'))) /\ tx_mode s' = tx_mode s.
Proof.
  intros Hwf Hne. unfold drop_front. cbn [tx_udp counted]. pose proof (pop_pending_spec (tx_udp s)) as Hspec.
  destruct (pop_pending (tx_udp s)) as [[i udp]|] eqn:Hp; [|done]. destruct (pop_udp n m s i udp Hwf Hp) as (d & udp' & Hs & Hr & Hwf' & Hc & Hl).
  rewrite Hr, Hs. cbn [mbind result_bind mjoin option_join]. eexists _, d. split; [done|].
  split; [apply tx_wf_drop; by destruct Hwf'|]. by split_and!.
Qed.

Lemma pending_len_zero {A} (r : TxRing A) : (pending_len r =? 0) = bool_decide (pending_tx r = []).
Proof.
  unfold pending_len, pending_tx, sat_add, USIZE_MAX.
  pose proof (len_nonneg (latency_tx r)). pose proof (len_nonneg (priority_tx r)). pose proof (len_nonneg (bulk_tx r)).
  destruct (latency_tx r) as [|x l]; [destruct (priority_tx r) as [|x l]; [destruct (bulk_tx r) as [|x l]|]|]; cbn; try done;
    rewrite ?len_cons, ?len_nil in *; apply Z.eqb_neq;
    repeat match goal with |- context [len ?x] => pose proof (len_nonneg x); generalize dependent (len x); intros end; lia.
Qed.

Lemma batch_limit_pos s : (0 < batch_limit s)%nat.
Proof.
  unfold batch_limit. destruct (tx_mode s); [|lia].
  destruct (negb _); [|destruct (negb _)]; apply (bool_decide_unpack _); vm_compute; exact I.
Qed.

Lemma udp_answered_spec n m s batch_len answer done :
  tx_wf n m s -> 0 < batch_len <= Z.of_nat (length (pending_tx (tx_udp s))) ->
  exists go_on s' outcomes, udp_answered s batch_len answer done = Ok (go_on, s', done ++ handed outcomes) /\ tx_wf n m s'
    /\ contents (tx_udp s) = outcomes.*2 ++ contents (tx_udp s')
    /\ (go_on = true -> length (pending_tx (tx_udp s')) + mode_credit s' < length (pending_tx (tx_udp s)) + mode_credit s)%nat.
Proof.
  intros Hwf Hb. assert (Hne : pending_tx (tx_udp s) <> []) by (intros E; rewrite E in Hb; cbn in Hb; lia).
  assert (Hdrop : exists go_on s' outcomes, (s ← drop_front s; Ok (true, s, done)) = (Ok (go_on, s', done ++ handed outcomes) : opt _) /\ tx_wf n m s'
    /\ contents (tx_udp s) = outcomes.*2 ++ contents (tx_udp s')
    /\ (go_on = true -> length (pending_tx (tx_udp s')) + mode_credit s' < length (pending_tx (tx_udp s)) + mode_credit s)%nat).
  { destruct (drop_front_spec n m s Hwf Hne) as (s' & d & -> & H2 & H3 & H4 & H5). eexists true, s', [(false, d)].
    cbn. rewrite app_nil_r. split_and!; [done|done|done|]. unfold mode_credit. rewrite H5. lia. }
  destruct answer as [k| | | |]; cbn [udp_answered].
  - destruct (_ =? 0) eqn:E; bool_prop; [eexists _, _, []; cbn; rewrite app_nil_r; split_and!; [done|by apply tx_wf_counted|done|done]|].
    set (s1 := if _ <? batch_len then _ else _).
    assert (tx_wf n m s1 /\ tx_udp s1 = tx_udp s /\ tx_mode s1 = tx_mode s) as (Hw1 & Hu1 & Hm1).
    { unfold s1. destruct (_ <? _); split_and!; try done; repeat apply tx_wf_counted; done. }
    destruct (complete_sent_spec n m (Z.to_nat (Z.max 0 (Z.min k batch_len))) s1 done Hw1) as (s' & H1 & H2 & H3 & H4 & H5); [rewrite Hu1; lia|].
    rewrite H1. cbn [mbind result_bind]. rewrite Hu1 in *. eexists true, s', (pair true <$> take _ (contents (tx_udp s))).
    rewrite handed_sent, <- list_fmap_compose. split_and!; [done|done| |unfold mode_credit; rewrite H5, Hm1; lia].
    rewrite (list_fmap_ext _ id) by done. by rewrite list_fmap_id.
  - eexists _, _, []. cbn. rewrite app_nil_r. split_and!; [done|by apply tx_wf_counted|done|done].
  - eexists _, _, []. cbn. rewrite app_nil_r. split_and!; [done|by apply tx_wf_counted|done|done].
  - unfold switch_to_compat_udp_io. destruct (tx_mode s) eqn:Em; [|done]. eexists true, _, []. cbn [handed filter fmap]. rewrite app_nil_r.
    split_and!; [done|by destruct Hwf|done|]. unfold mode_credit. cbn. rewrite Em. lia.
  - done.
Qed.

Lemma flush_udp_loop_spec n m fuel s answers syscalls max done :
  tx_wf n m s -> (length (pending_tx (tx_udp s)) + mode_credit s < fuel)%nat ->
  exists s' outcomes, flush_udp_loop fuel s answers syscalls max done = Ok (s', done ++ handed outcomes) /\ tx_wf n m s'
    /\ contents (tx_udp s) = outcomes.*2 ++ contents (tx_udp s').
Proof.
  revert s answers syscalls done. induction fuel as [|fuel IH]; intros s answers syscalls done Hwf Hfuel; [lia|].
  cbn [flush_udp_loop]. rewrite pending_len_zero. case_bool_decide as Hp; cbn [orb]; [exists s, []; by rewrite app_nil_r|].
  destruct (syscalls <? max); cbn [negb]; [|exists s, []; by rewrite app_nil_r].
  rewrite (filled_prefix_front udp_ok n _ _ (tw_udp _ _ _ Hwf)). cbn [mbind result_bind].
  pose proof (front_queue_nonempty _ Hp) as Hf. pose proof (batch_limit_pos s) as Hbl. destruct (front_queue_prefix (tx_udp s)) as [l Hl].
  assert (Hlen : (0 < length (front_queue (tx_udp s)) <= length (pending_tx (tx_udp s)))%nat).
  { rewrite Hl, length_app. destruct (front_queue (tx_udp s)); [done|]. cbn. lia. }
  destruct (_ =? 0) eqn:E0; bool_prop; [lia|].
  destruct (udp_answered_spec n m s (Z.of_nat (batch_limit s `min` length (front_queue (tx_udp s)))) (default UdpWouldBlock (head answers)) done Hwf)
    as (go_on & s1 & o1 & H1 & H2 & H3 & H4); [lia|].
  rewrite H1. cbn [mbind result_bind]. destruct go_on; [|by exists s1, o1].
  destruct (IH s1 (tail answers) (syscalls + 1) (done ++ handed o1) H2) as (s2 & o2 & H5 & H6 & H7); [specialize (H4 eq_refl); lia|].
  exists s2, (o1 ++ o2). rewrite H5, handed_app, app_assoc. split_and!; [done|done|].
  by rewrite fmap_app, <- app_assoc, <- H7.
Qed.

(** [flush_udp_tx] returns for every sequence of answers of the kernel, and
    keeps the slots conserved.  The packets leave in the order of the classes
    and, inside a class, in the order they were queued: those the kernel took,
    in that order, are the result, the others that left were dropped on an error,
    and what remains is the rest of the queue, unchanged. *)
Theorem flush_udp_order n m s answers max_syscalls :
  tx_wf n m s ->
  exists s' outcomes, flush_udp_tx s answers max_syscalls = Ok (s', handed outcomes) /\ tx_wf n m s'
    /\ contents (tx_udp s) = outcomes.*2 ++ contents (tx_udp s').
Proof.
  intros Hwf. unfold flush_udp_tx. fold (pending_tx (tx_udp s)).
  apply (flush_udp_loop_spec n m _ s answers 0 max_syscalls []); [done|]. unfold mode_credit. destruct (tx_mode s); lia.
Qed.

Definition demo_tx : TokioTx :=
  mkTx (ring_new 4) (ring_new 2) (ServerPool_new 6) counters_zero Batch false false [] [].
Lemma demo_tx_wf : tx_wf 4 2 demo_tx.
Proof. split; [apply ring_new_inv|apply ring_new_inv|constructor]. Qed.
Definition demo_peer : SockAddr := SockV4 [192; 0; 2; 1] 4500.

(** One packet of each class is queued; the kernel takes one and errs twice. *)
Definition demo_send (s : TokioTx) (class : PacketClass) (b : Z) : TokioTx :=
  match PacketSink_send_udp s demo_peer None false class
          (fun st buf => r ← ServerBuf_copy_from buf [b]; Ok (r.1, r.2, st)) tt with Ok (_, s, _) => s | _ => s end.
Lemma demo_send_wf n m s class b : tx_wf n m s -> tx_wf n m (demo_send s class b).
Proof.
  intros Hwf. unfold demo_send.
  destruct (send_udp_wf n m s demo_peer None false class (fun st buf => r ← ServerBuf_copy_from buf [b]; Ok (r.1, r.2, st)) tt Hwf)
    as (sent & s' & st' & -> & H & _); [|done].
  intros buf Hbuf. destruct (@copy_from_wf unit buf [b] Hbuf) as (c & b' & -> & H2). by eexists _, _, _.
Qed.

Definition demo_heads (r : opt (TokioTx * list Datagram)) : list bytes :=
  match r with Ok (_, l) => (fun d => take 1 (sb_storage (dg_buffer d))) <$> l | _ => [] end.
Lemma flush_udp_order_witness :
  exists s' outcomes,
    flush_udp_tx (demo_send (demo_send (demo_send demo_tx Bulk 1) Small 2) Medium 3) [UdpSent 1; UdpError] 9 = Ok (s', handed outcomes)
    /\ tx_wf 4 2 s' /\ (fun d => take 1 (sb_storage (dg_buffer d))) <$> handed outcomes = [[2]].
Proof.
  destruct (flush_udp_order 4 2 (demo_send (demo_send (demo_send demo_tx Bulk 1) Small 2) Medium 3) [UdpSent 1; UdpError] 9)
    as (s' & o & H1 & H2 & _); [apply demo_send_wf, demo_send_wf, demo_send_wf, demo_tx_wf|].
  exists s', o. split; [done|]. split; [done|].
  assert (Hv : demo_heads (flush_udp_tx (demo_send (demo_send (demo_send demo_tx Bulk 1) Small 2) Medium 3) [UdpSent 1; UdpError] 9) = [[2]])
    by (vm_compute; reflexivity).
  rewrite H1 in Hv. exact Hv.
Defined.

Definition payload_of (b : ServerBuf) : bytes := sub (sb_storage b) 0 (sb_len b).
Lemma as_slice_payload {E} b : server_buf_wf b -> @ServerBuf_as_slice E b = Ok (payload_of b).
Proof. intros [Hs Hl]. unfold ServerBuf_as_slice. apply slice_ok; lia. Qed.

Lemma flush_tun_loop_spec n m fuel s :
  tx_wf n m s -> (length (pending_tx (tx_tun s)) < fuel)%nat ->
  exists s' written gone, flush_tun_loop fuel s = Ok s' /\ tx_wf n m s'
    /\ contents (tx_tun s) = written ++ gone ++ contents (tx_tun s') /\ tun_log s' = tun_log s ++ (payload_of <$> written)
    /\ (gone = [] \/ (tun_fatal s' = true /\ length gone = 1%nat)).
Proof.
  revert s. induction fuel as [|fuel IH]; intros s Hwf Hfuel; [lia|]. cbn [flush_tun_loop]. unfold front_pending_tun_tx.
  rewrite front_head. pose proof (pop_pending_spec (tx_tun s)) as Hspec.
  destruct (pop_pending (tx_tun s)) as [[i tun]|] eqn:Hp; cbn [fmap option_fmap option_map fst].
  2: { exists s, [], []. rewrite app_nil_r. split_and!; auto. }
  destruct (pop_release server_buf_wf m _ _ _ (tw_tun _ _ _ Hwf) Hp) as (b & tun' & Hs & Hb & Hr & Hinv & Hc & Hl).
  unfold slot_full. rewrite Hs. cbn [mbind result_bind negb mjoin option_join]. rewrite as_slice_payload by done. cbn [mbind result_bind].
  unfold write_tun_packet. destruct (tun_answers s) as [|[] answers] eqn:Ea; cbn [tx_tun counted set_fatal].
  - exists s, [], []. rewrite app_nil_r. split_and!; auto.
  - rewrite Hp, Hr. cbn [mbind result_bind].
    match goal with |- context [flush_tun_loop fuel ?x] => set (s1 := x) end.
    destruct (IH s1) as (s' & w & g & H1 & H2 & H3 & H4 & H5).
    + destruct Hwf. split; [done|done|]. by apply release_wf.
    + cbn in *. lia.
    + exists s', (b :: w), g. rewrite H1, H4, Hc. cbn in H3 |- *. rewrite <- app_assoc. cbn. split_and!; [done|done|by rewrite H3|done|done].
  - eexists _, [], []. split_and!; [done|by destruct Hwf|done|by rewrite app_nil_r|by left].
  - rewrite Hp, Hr. cbn [mbind result_bind]. eexists _, [], [b]. split_and!; [done| |by rewrite Hc|by rewrite app_nil_r|by right].
    destruct Hwf. split; [done|done|]. by apply release_wf.
Qed.

(** The same for the TUN device: packets are written in order until the device
    would block; an error drops one packet and stops. *)
Lemma flush_tun_order n m s :
  tx_wf n m s ->
  exists s' written gone, flush_tun_tx s = Ok s' /\ tx_wf n m s'
    /\ contents (tx_tun s) = written ++ gone ++ contents (tx_tun s') /\ tun_log s' = tun_log s ++ (payload_of <$> written)
    /\ (gone = [] \/ (tun_fatal s' = true /\ length gone = 1%nat)).
Proof. intros Hwf. apply flush_tun_loop_spec; [done|]. unfold pending_tx. lia. Qed.

(** ** Channels and shards *)

(** [tokio::sync::mpsc]: a bounded queue; [try_send] fails when it is full or
    its receiver is gone. *)
Record Channel (A : Type) := mkChannel { ch_items : list A; ch_capacity : Z; ch_open : bool }.
Arguments mkChannel {A}. Arguments ch_items {A}. Arguments ch_capacity {A}. Arguments ch_open {A}.
Definition try_send {A : Type} (ch : Channel A) (a : A) : bool * Channel A :=
  if ch_open ch && (len (ch_items ch) <? ch_capacity ch)
  then (true, mkChannel (ch_items ch ++ [a]) (ch_capacity ch) (ch_open ch)) else (false, ch).
Definition try_recv {A : Type} (ch : Channel A) : option (A * Channel A) :=
  match ch_items ch with [] => None | a :: l => Some (a, mkChannel l (ch_capacity ch) (ch_open ch)) end.

Abbreviation EndpointRoute := (SockAddr * option IpAddr)%type.
Inductive RouterCommand (C : Type) :=
| Migrate (endpoint : EndpointRoute) (shard : Z) (command : C)
| BindEndpoint (endpoint : EndpointRoute) (shard : Z)
| BindTunnel (ip : bytes) (shard : Z).
Arguments Migrate {C}. Arguments BindEndpoint {C}. Arguments BindTunnel {C}.

Inductive WorkerOutput (C : Type) :=
| OutUdp (peer : SockAddr) (source_ip : option IpAddr) (class : PacketClass) (buffer : ServerBuf)
| OutTun (class : PacketClass) (buffer : ServerBuf)
| OutFlushUdp
| OutRouter (command : RouterCommand C).
Arguments OutUdp {C}. Arguments OutTun {C}. Arguments OutFlushUdp {C}. Arguments OutRouter {C}.

Record RemotePacketSink (C : Type) := mkRemote { rs_output : Channel (WorkerOutput C); rs_pool : ServerPool }.
Arguments mkRemote {C}. Arguments rs_output {C}. Arguments rs_pool {C}.

Section Remote.
Context {C : Type}.

Definition Remote_has_udp_tx_slot (s : RemotePacketSink C) : bool :=
  negb (sat_sub (ch_capacity (rs_output s)) (len (ch_items (rs_output s))) =? 0).

Definition Remote_send_udp {St : Type} (s : RemotePacketSink C) (peer : SockAddr) (source_ip : option IpAddr) (duplicate : bool)
    (class : PacketClass) (build : St -> ServerBuf -> opt (bool * ServerBuf * St)) (st : St) : opt (bool * RemotePacketSink C * St) :=
  match ServerPool_try_acquire (rs_pool s) with
  | (None, pool) => Ok (false, mkRemote (rs_output s) pool, st)
  | (Some buffer, pool) =>
      '(built, buffer, st) ← build st buffer;
      if negb built then Ok (false, mkRemote (rs_output s) (ServerPool_release pool (sb_storage buffer)), st) else
      '(duplicate_buffer, pool) ← (if duplicate then
          match ServerPool_try_acquire pool with
          | (None, pool) => Ok (None, pool)
          | (Some copy, pool) =>
              data ← ServerBuf_as_slice buffer;
              '(copied, copy) ← ServerBuf_copy_from copy data;
              Ok (if (copied : bool) then (Some copy, pool) else (None, ServerPool_release pool (sb_storage copy)))
          end else Ok (None, pool));
      match try_send (rs_output s) (OutUdp peer source_ip class buffer) with
      | (false, output) =>
          let pool := ServerPool_release pool (sb_storage buffer) in
          Ok (false, mkRemote output (match duplicate_buffer with Some b => ServerPool_release pool (sb_storage b) | None => pool end), st)
      | (true, output) =>
          match duplicate_buffer with
          | None => Ok (true, mkRemote output pool, st)
          | Some b =>
              let '(sent, output) := try_send output (OutUdp peer source_ip class b) in
              Ok (true, mkRemote output (if (sent : bool) then pool else ServerPool_release pool (sb_storage b)), st)
          end
      end
  end.

Definition Remote_request_udp_flush (s : RemotePacketSink C) : RemotePacketSink C :=
  mkRemote (try_send (rs_output s) OutFlushUdp).2 (rs_pool s).

Definition Remote_write_tun (s : RemotePacketSink C) (payload : bytes) (class : PacketClass) : opt (bool * RemotePacketSink C) :=
  match ServerPool_try_acquire (rs_pool s) with
  | (None, pool) => Ok (false, mkRemote (rs_output s) pool)
  | (Some buffer, pool) =>
      '(copied, buffer) ← ServerBuf_copy_from buffer payload;
      if negb copied then Ok (false, mkRemote (rs_output s) (ServerPool_release pool (sb_storage buffer))) else
      let '(sent, output) := try_send (rs_output s) (OutTun class buffer) in
      Ok (sent, mkRemote output (if (sent : bool) then pool else ServerPool_release pool (sb_storage buffer)))
  end.

#[global] Instance Remote_output : PacketOutput (RemotePacketSink C) := {
  has_udp_tx_slot := Remote_has_udp_tx_slot;
  send_udp_with_duplicate_priority := @Remote_send_udp;
  request_udp_flush := Remote_request_udp_flush;
  write_tun_priority := Remote_write_tun;
}.

(** The outputs of a shard whose router commands all satisfy [P]. *)
Definition output_ok (P : RouterCommand C -> Prop) (v : WorkerOutput C) : Prop :=
  match v with OutUdp _ _ _ buffer | OutTun _ buffer => server_buf_wf buffer | OutFlushUdp => True | OutRouter c => P c end.
Definition remote_wf (P : RouterCommand C -> Prop) (s : RemotePacketSink C) : Prop :=
  pool_wf (rs_pool s) /\ Forall (output_ok P) (ch_items (rs_output s)).
Lemma try_send_forall {A : Type} (Q : A -> Prop) (ch : Channel A) a : Forall Q (ch_items ch) -> Q a -> Forall Q (ch_items (try_send ch a).2).
Proof. intros Hc Ha. unfold try_send. destruct (_ && _); cbn; [|done]. apply Forall_app. by repeat constructor. Qed.

Lemma remote_send_wf (P : RouterCommand C -> Prop) (St : Type) s peer source duplicate class
    (build : St -> ServerBuf -> opt (bool * ServerBuf * St)) st :
  remote_wf P s ->
  (forall buf, server_buf_wf buf -> exists built buf' st', build st buf = Ok (built, buf', st') /\ server_buf_wf buf') ->
  exists sent s' st', Remote_send_udp s peer source duplicate class build st = Ok (sent, s', st') /\ remote_wf P s'
    /\ ((sent = false /\ st' = st)
        \/ exists buf built buf', server_buf_wf buf
             /\ build st buf = Ok (built, buf', st') /\ (sent = true -> built = true)).
Proof.
  intros [Hwf Hch] Hbuild. unfold Remote_send_udp. pose proof (acquire_wf _ Hwf) as Ha.
  destruct (ServerPool_try_acquire (rs_pool s)) as [[b|] p]; [|eexists _, _, _; split_and!; [done|by split|by left]].
  destruct Ha as [Hb Hp]. destruct (Hbuild b) as (built & b' & st' & Hbd & Hb'); [apply Hb|]. rewrite Hbd. cbn [mbind result_bind].
  destruct built; cbn [negb].
  2: { eexists _, _, _; split_and!; [done|split; [by apply release_wf|done]|]. right. exists b. eexists _, _. split_and!; [apply Hb|done|done]. }
  match goal with |- context [if duplicate then ?x else ?y] =>
    assert (exists d p', (if duplicate then x else y) = Ok (d, p') /\ pool_wf p' /\ from_option server_buf_wf True d) as (d & p' & -> & Hp' & Hd) end.
  { destruct duplicate; [|by eexists _, _]. pose proof (acquire_wf _ Hp) as Ha2. destruct (ServerPool_try_acquire p) as [[c|] p2]; [|by eexists _, _].
    destruct Ha2 as [Hc Hp2]. destruct (@as_slice_wf unit b' Hb') as [data ->]. cbn [mbind result_bind].
    destruct (@copy_from_wf unit c data Hc) as (copied & c' & -> & Hc'). cbn [mbind result_bind].
    destruct copied; eexists _, _; (split; [done|]); [done|]. split; [by apply release_wf|done]. }
  cbn [mbind result_bind].
  assert (Hright : forall sent, (sent = false /\ st' = st) \/ (exists buf built buf', server_buf_wf buf
     /\ build st buf = Ok (built, buf', st') /\ (sent = true -> built = true))).
  { intros sent. right. exists b. eexists _, _. split_and!; [apply Hb|done|done]. }
  pose proof (try_send_forall (output_ok P) (rs_output s) (OutUdp peer source class b') Hch Hb') as Hs1.
  destruct (try_send _ _) as [[|] out]; cbn [snd] in Hs1.
  - destruct d as [c|]; [|by eexists _, _, _]. pose proof (try_send_forall (output_ok P) out (OutUdp peer source class c) Hs1 Hd) as Hs2.
    destruct (try_send out _) as [[|] out2]; cbn [snd] in Hs2; eexists _, _, _; (split; [done|split; [|done]]); split; try done. by apply release_wf.
  - eexists _, _, _. split; [done|split; [|done]]. split; [|done]. destruct d; by repeat apply release_wf.
Qed.
Lemma remote_tun_wf (P : RouterCommand C -> Prop) s payload class : remote_wf P s ->
  exists written s', Remote_write_tun s payload class = Ok (written, s') /\ remote_wf P s'.
Proof.
  intros [Hwf Hch]. unfold Remote_write_tun. pose proof (acquire_wf _ Hwf) as Ha.
  destruct (ServerPool_try_acquire (rs_pool s)) as [[b|] p]; [|by eexists _, _].
  destruct Ha as [Hb Hp]. destruct (@copy_from_wf unit b payload Hb) as (copied & b' & -> & Hb'). cbn [mbind result_bind].
  destruct copied; cbn [negb]; [|eexists _, _; split; [done|split; [by apply release_wf|done]]].
  pose proof (try_send_forall (output_ok P) (rs_output s) (OutTun class b') Hch Hb') as Hs.
  destruct (try_send _ _) as [[|] out]; cbn [snd] in Hs; eexists _, _; (split; [done|]); split; try done. by apply release_wf.
Qed.
Lemma remote_flush_wf (P : RouterCommand C -> Prop) s : remote_wf P s -> remote_wf P (Remote_request_udp_flush s).
Proof. intros [Hwf Hch]. split; [done|]. by apply try_send_forall. Qed.
Definition remote_laws (P : RouterCommand C -> Prop) : PacketOutputLaws (RemotePacketSink C) :=
  Build_PacketOutputLaws _ _ (remote_wf P) (remote_send_wf P) (remote_flush_wf P) (remote_tun_wf P).
#[global] Instance Remote_laws : PacketOutputLaws (RemotePacketSink C) := remote_laws (fun _ => True).
End Remote.

(** ** Where a worker's router commands go

    [WorkerContext] holds the sender of the shard's output channel: with one
    shard a channel nobody reads, with several the channel [RemotePacketSink]
    also writes to. *)
Class RouterOutput (S C : Type) := { router_try_send : S -> RouterCommand C -> bool * S }.
Class RouterOutputLaws (S C : Type) `{PacketOutputLaws S} `{RouterOutput S C} := {
  routable : RouterCommand C -> Prop;    (** what the router takes *)
  router_send_law : forall s c, sink_wf s -> routable c -> sink_wf (router_try_send s c).2;
}.

#[global] Instance Remote_router {C : Type} : RouterOutput (RemotePacketSink C) C :=
  {| router_try_send s c := let '(sent, output) := try_send (rs_output s) (OutRouter c) in (sent, mkRemote output (rs_pool s)) |}.
Lemma remote_router_wf {C : Type} (P : RouterCommand C -> Prop) (s : RemotePacketSink C) c :
  remote_wf P s -> P c -> remote_wf P (router_try_send s c).2.
Proof.
  intros [Hwf Hch] Hc. cbn. pose proof (try_send_forall (output_ok P) (rs_output s) (OutRouter c) Hch Hc) as Hs.
  by destruct (try_send _ _).
Qed.
Definition remote_router_laws {C : Type} (P : RouterCommand C -> Prop) : @RouterOutputLaws (RemotePacketSink C) C _ (remote_laws P) _ :=
  @Build_RouterOutputLaws _ _ _ (remote_laws P) _ P (remote_router_wf P).
#[global] Instance Remote_router_laws {C : Type} : RouterOutputLaws (RemotePacketSink C) C := remote_router_laws (fun _ => True).

(** The one shard of an unsharded server. *)
Record LocalSink (C : Type) := mkLocal { lo_tx : TokioTx; lo_output : Channel (WorkerOutput C) }.
Arguments mkLocal {C}. Arguments lo_tx {C}. Arguments lo_output {C}.
#[global] Instance Local_output {C : Type} : PacketOutput (LocalSink C) := {
  has_udp_tx_slot s := has_udp_tx_slot (lo_tx s);
  send_udp_with_duplicate_priority St s peer source duplicate class build st :=
    '(sent, tx, st) ← send_udp_with_duplicate_priority (lo_tx s) peer source duplicate class build st;
    Ok (sent, mkLocal tx (lo_output s), st);
  request_udp_flush s := mkLocal (request_udp_flush (lo_tx s)) (lo_output s);
  write_tun_priority s payload class :=
    '(written, tx) ← write_tun_priority (lo_tx s) payload class; Ok (written, mkLocal tx (lo_output s));
}.
#[global] Instance Local_laws {C : Type} : PacketOutputLaws (LocalSink C).
Proof.
  refine {| sink_wf := fun s => sink_wf (lo_tx s) |}.
  - intros St s peer source dup class build st Hwf Hb.
    destruct (send_udp_law St (lo_tx s) peer source dup class build st Hwf Hb) as (sent & s' & st' & H1 & H2 & H3).
    exists sent, (mkLocal s' (lo_output s)), st'. split; [|done]. cbn in *. by rewrite H1.
  - intros s. apply request_flush_law.
  - intros s payload class Hwf. destruct (write_tun_law (lo_tx s) payload class Hwf) as (b & s' & H1 & H2).
    exists b, (mkLocal s' (lo_output s)). split; [|done]. cbn in *. by rewrite H1.
Defined.
#[global] Instance Local_router {C : Type} : RouterOutput (LocalSink C) C :=
  {| router_try_send s c := let '(sent, output) := try_send (lo_output s) (OutRouter c) in (sent, mkLocal (lo_tx s) output) |}.
#[global] Instance Local_router_laws {C : Type} : RouterOutputLaws (LocalSink C) C.
Proof. refine {| routable := fun _ => True |}. intros s c Hwf _. cbn. by destruct (try_send _ _). Defined.
