(* ===== verification/Slab.v ===== *)
(** * Slabs

    The engine keeps its sessions in a [slab::Slab].  The crate is not part of
    the repository: which vacant key [insert] hands out, which elements
    [compact] moves and how much is allocated are parameters; that a key handed
    out is vacant and that a move goes from an element to a vacant key are the
    documented facts the engine relies on. *)

From stdpp Require Import sorting.
From S2P Require Import Prelude.

Abbreviation keys := (gset Z).

(** A sequence of moves (old key, new key) that is possible from [d]. *)
Fixpoint moves_ok (d : keys) (moves : list (Z * Z)) : Prop :=
  match moves with
  | [] => True
  | (old, new) :: moves => old ∈ d /\ new ∉ d /\ moves_ok ({[new]} ∪ (d ∖ {[old]})) moves
  end.

Class SlabAlloc := {
  slab_free : Type;                             (** the crate's record of vacant keys *)
  slab_start : slab_free;
  vacant_key : keys -> slab_free -> Z;
  after_insert : Z -> slab_free -> slab_free;
  after_remove : Z -> slab_free -> slab_free;
  compact_moves : keys -> slab_free -> list (Z * Z);
  after_compact : keys -> slab_free -> slab_free;
  slab_capacity : keys -> slab_free -> Z;
}.
Class SlabLaws (A : SlabAlloc) : Prop := {
  vacant_key_law : forall d f, vacant_key d f ∉ d;
  compact_moves_law : forall d f, moves_ok d (compact_moves d f);
}.

Section Slab.
Context `{SlabAlloc} {A : Type}.

Record Slab := mkSlab { sl_map : gmap Z A; sl_free : slab_free }.
Definition Slab_new : Slab := mkSlab ∅ slab_start.
Definition Slab_get (s : Slab) (k : Z) : option A := sl_map s !! k.
Definition Slab_len (s : Slab) : Z := Z.of_nat (size (sl_map s)).
Definition Slab_insert (s : Slab) (a : A) : Z * Slab :=
  let k := vacant_key (dom (sl_map s)) (sl_free s) in
  (k, mkSlab (<[k := a]> (sl_map s)) (after_insert k (sl_free s))).
Definition Slab_remove (s : Slab) (k : Z) : Slab := mkSlab (delete k (sl_map s)) (after_remove k (sl_free s)).
(** An assignment through [get_mut]. *)
Definition Slab_set (s : Slab) (k : Z) (a : A) : Slab := mkSlab (<[k := a]> (sl_map s)) (sl_free s).
(** [iter]: in the order of the keys. *)
Definition key_le (a b : Z * A) : Prop := a.1 <= b.1.
#[global] Instance key_le_dec a b : Decision (key_le a b).
Proof. unfold key_le. apply _. Defined.
Definition Slab_iter (s : Slab) : list (Z * A) := merge_sort key_le (map_to_list (sl_map s)).
Definition Slab_capacity (s : Slab) : Z := slab_capacity (dom (sl_map s)) (sl_free s).

(** [compact]: the moves, in order, each seen by the closure [f] with the
    element and its new key. *)
Definition move_key (m : gmap Z A) (move : Z * Z) : gmap Z A :=
  match m !! move.1 with Some a => <[move.2 := a]> (delete move.1 m) | None => m end.
Fixpoint compact_loop {B : Type} (f : B -> A -> Z -> B) (m : gmap Z A) (moves : list (Z * Z)) (b : B) : gmap Z A * B :=
  match moves with
  | [] => (m, b)
  | move :: moves =>
      let b := match m !! move.1 with Some a => f b a move.2 | None => b end in
      compact_loop f (move_key m move) moves b
  end.
Definition Slab_compact {B : Type} (f : B -> A -> Z -> B) (s : Slab) (b : B) : Slab * B :=
  let d := dom (sl_map s) in
  let '(m, b) := compact_loop f (sl_map s) (compact_moves d (sl_free s)) b in
  (mkSlab m (after_compact d (sl_free s)), b).

Lemma Slab_iter_perm s : Slab_iter s ≡ₚ map_to_list (sl_map s).
Proof. apply merge_sort_Permutation. Qed.
Lemma elem_of_Slab_iter s k a : (k, a) ∈ Slab_iter s <-> sl_map s !! k = Some a.
Proof. rewrite Slab_iter_perm. apply elem_of_map_to_list. Qed.
Lemma Slab_iter_keys s : NoDup (Slab_iter s).*1.
Proof. rewrite Slab_iter_perm. apply NoDup_fst_map_to_list. Qed.

Lemma Slab_insert_vacant `{!SlabLaws _} s a : sl_map s !! (Slab_insert s a).1 = None.
Proof. apply not_elem_of_dom. apply vacant_key_law. Qed.

Lemma dom_move_key m move a : m !! move.1 = Some a -> dom (move_key m move) = {[move.2]} ∪ (dom m ∖ {[move.1]}).
Proof. intros E. unfold move_key. rewrite E, dom_insert_L, dom_delete_L. done. Qed.

(** An invariant of the map and the closure's state that every possible move
    keeps holds after [compact]. *)
Lemma compact_loop_ind {B : Type} (f : B -> A -> Z -> B) (R : gmap Z A -> B -> Prop) :
  (forall m b old new a, R m b -> m !! old = Some a -> m !! new = None -> R (<[new := a]> (delete old m)) (f b a new)) ->
  forall moves m b, moves_ok (dom m) moves -> R m b ->
  let '(m', b') := compact_loop f m moves b in R m' b'.
Proof.
  intros Hstep. induction moves as [|[old new] moves IH]; intros m b Hok HR; cbn; [done|].
  cbn in Hok. destruct Hok as (Ho & Hn & Hok). apply elem_of_dom in Ho as [a Ho]. apply not_elem_of_dom in Hn.
  assert (Hd : dom (move_key m (old, new)) = {[new]} ∪ (dom m ∖ {[old]})) by (by apply (dom_move_key m (old, new) a)).
  unfold move_key in *. cbn [fst snd] in *. rewrite Ho in *. apply IH; [by rewrite Hd|]. by apply Hstep.
Qed.
Lemma Slab_compact_ind `{!SlabLaws _} {B : Type} (f : B -> A -> Z -> B) (R : gmap Z A -> B -> Prop) s b :
  (forall m b old new a, R m b -> m !! old = Some a -> m !! new = None -> R (<[new := a]> (delete old m)) (f b a new)) ->
  R (sl_map s) b -> let '(s', b') := Slab_compact f s b in R (sl_map s') b'.
Proof.
  intros Hstep HR. unfold Slab_compact.
  pose proof (compact_loop_ind f R Hstep (compact_moves (dom (sl_map s)) (sl_free s)) (sl_map s) b) as Hloop.
  destruct (compact_loop _ _ _ _) as [m b']. cbn. apply Hloop; [apply compact_moves_law|done].
Qed.
End Slab.
Arguments Slab {_} A.

(** ** An allocator

    New keys above all others, compaction into the lowest vacant keys. *)
Definition demo_holes (d : keys) : list Z :=
  filter (fun k => k ∉ d) (Z.of_nat <$> seq 0 (size d)).
Definition demo_high (d : keys) : list Z := filter (fun k => Z.of_nat (size d) <= k) (elements d).
#[global] Instance demo_alloc : SlabAlloc := {|
  slab_free := unit; slab_start := tt;
  vacant_key d _ := set_fold Z.max (-1) d + 1;
  after_insert _ f := f; after_remove _ f := f;
  compact_moves d _ := zip (demo_high d) (demo_holes d);
  after_compact _ f := f;
  slab_capacity d _ := Z.max 128 (set_fold Z.max (-1) d + 1);
|}.

Lemma set_fold_max_ge (d : keys) k : k ∈ d -> k <= set_fold Z.max (-1) d.
Proof.
  revert k. apply (set_fold_ind_L (fun r d => forall k, k ∈ d -> k <= r)); [set_solver|].
  intros x X r Hx IH k [->%elem_of_singleton|Hk]%elem_of_union; [lia|]. specialize (IH k Hk). lia.
Qed.
Lemma moves_ok_zip (d : keys) olds news :
  NoDup olds -> NoDup news -> (forall o, o ∈ olds -> o ∈ d) -> (forall n, n ∈ news -> n ∉ d) -> moves_ok d (zip olds news).
Proof.
  revert d news. induction olds as [|o olds IH]; intros d [|n news] Ho Hn Hod Hnd; cbn; try done.
  apply NoDup_cons in Ho as [Ho1 Ho2]. apply NoDup_cons in Hn as [Hn1 Hn2]. split_and!; [set_solver|set_solver|].
  apply IH; try done; [set_solver|]. intros k Hk. assert (k <> n) by set_solver. specialize (Hnd k). set_solver.
Qed.
#[global] Instance demo_alloc_laws : SlabLaws demo_alloc.
Proof.
  split.
  - intros d f Hin. apply set_fold_max_ge in Hin. cbn in Hin. lia.
  - intros d f. apply moves_ok_zip.
    + apply NoDup_filter, NoDup_elements.
    + apply NoDup_filter, NoDup_fmap_2; [intros x y; lia|apply NoDup_seq].
    + intros o [_ Ho]%list_elem_of_filter. by apply elem_of_elements.
    + intros n [Hn _]%list_elem_of_filter. done.
Qed.
