(* ===== verification/Engine.v ===== *)
(** * The protocol engine of the server ([rust-server/protocol.rs])

    Every session the engine serves is a [HotSession] in a slab, found by the
    endpoint it speaks from and by its number; [Session] is the half of it the
    control plane shares (an [Arc], here an entry of [sh_public] under the
    session's number).  The handlers are those of [DataplaneLogic for
    ProtocolEngine]: a datagram, a packet of the TUN device, a command, a tick.

    Left out: the profiler, the gauges, the per-session debug counters and the
    records of [record_packet_dpi], none of which the engine reads. *)

From S2P Require Import Prelude FlowFrame Classify Replay Packet Obfs Routes Downlink StreamControl Text Getconf Sink Slab.

Definition MAX_ACTIVE_SESSIONS : Z := 3072.
Definition CONTROL_EVENT_CAPACITY : Z := 1024.
Definition SESSION_SETUP_IDLE_MS : Z := 15000.
Definition SESSION_AUTH_IDLE_MS : Z := 10 * 60 * 60 * 1000.
Definition EPOCH_SWEEP_INTERVAL_MS : Z := 5 * 60000.
Definition DOWNLINK_DRAIN_PACKET_LIMIT : Z := 128.
Definition EPOCH_IDLE_TTL_MS : Z := 60 * 60000.
Definition HOT_TABLE_RESERVE : Z := 128.
Definition MEMORY_COMPACT_INTERVAL_MS : Z := 5000.
Definition SESSION_MAINTENANCE_INTERVAL_MS : Z := 1000.
Definition SETUP_BUDGET_PER_TICK : Z := 1024.
Definition UNAUTHENTICATED_SETUP_LOG_INTERVAL_MS : Z := 10000.
Definition MIGRATING_ENDPOINT_TTL_MS : Z := 2000.
Definition MIGRATING_ENDPOINT_SWEEP_INTERVAL_MS : Z := 1000.

(** ** Randomness

    [rng_packet n bound] are the draws of the engine's [StdRng] for its [n]-th
    packet, with the padding drawn below [bound]; [os_random n] are the twelve
    bytes [OutState::new] takes from the system for session [n]. *)
Class Entropy := { rng_packet : Z -> Z -> Draws; os_random : Z -> bytes }.
Class EntropyLaws (R : Entropy) : Prop := {
  rng_packet_law : forall n bound, 0 < bound <= 60 -> draws_ok bound (rng_packet n bound);
  os_random_law : forall n, len (os_random n) = 12;
}.

(** ** Data *)

Inductive FecProfile := Safe | Off.
#[global] Instance FecProfile_eq_dec : EqDecision FecProfile.
Proof. solve_decision. Defined.

Abbreviation EndpointKey := (SockAddr * option IpAddr)%type.
(** The ciphers of a credential are functions of its key. *)
Record Credential := mkCredential { cr_password : bytes; cr_key : bytes }.
Definition contains_password (credentials : list Credential) (password : bytes) : bool :=
  existsb (fun c => bytes_eqb (cr_password c) password) credentials.

(** The half the control plane shares.  [worker_id] is [u64::MAX] until the
    client names its worker. *)
Record Session := mkSession {
  pub_address : SockAddr; pub_password : bytes; pub_device_id : bytes; pub_generation_id : Z;
  pub_session_salt : bytes; pub_worker_id : Z; pub_desired_stream_count : Z; pub_tunnel_ip : option bytes;
  pub_last_seen : Z; pub_up_bytes : Z; pub_down_bytes : Z; pub_created_at : Z; pub_is_srtp : bool;
  pub_has_tunnel : bool; pub_cancelled : bool;
}.
Definition set_pub_last_seen (p : Session) (v : Z) : Session :=
  mkSession (pub_address p) (pub_password p) (pub_device_id p) (pub_generation_id p) (pub_session_salt p)
    (pub_worker_id p) (pub_desired_stream_count p) (pub_tunnel_ip p) v (pub_up_bytes p) (pub_down_bytes p)
    (pub_created_at p) (pub_is_srtp p) (pub_has_tunnel p) (pub_cancelled p).
Definition set_pub_up_bytes (p : Session) (v : Z) : Session :=
  mkSession (pub_address p) (pub_password p) (pub_device_id p) (pub_generation_id p) (pub_session_salt p)
    (pub_worker_id p) (pub_desired_stream_count p) (pub_tunnel_ip p) (pub_last_seen p) v (pub_down_bytes p)
    (pub_created_at p) (pub_is_srtp p) (pub_has_tunnel p) (pub_cancelled p).
Definition set_pub_down_bytes (p : Session) (v : Z) : Session :=
  mkSession (pub_address p) (pub_password p) (pub_device_id p) (pub_generation_id p) (pub_session_salt p)
    (pub_worker_id p) (pub_desired_stream_count p) (pub_tunnel_ip p) (pub_last_seen p) (pub_up_bytes p) v
    (pub_created_at p) (pub_is_srtp p) (pub_has_tunnel p) (pub_cancelled p).
Definition set_pub_has_tunnel (p : Session) (v : bool) : Session :=
  mkSession (pub_address p) (pub_password p) (pub_device_id p) (pub_generation_id p) (pub_session_salt p)
    (pub_worker_id p) (pub_desired_stream_count p) (pub_tunnel_ip p) (pub_last_seen p) (pub_up_bytes p)
    (pub_down_bytes p) (pub_created_at p) (pub_is_srtp p) v (pub_cancelled p).
Definition set_pub_cancelled (p : Session) (v : bool) : Session :=
  mkSession (pub_address p) (pub_password p) (pub_device_id p) (pub_generation_id p) (pub_session_salt p)
    (pub_worker_id p) (pub_desired_stream_count p) (pub_tunnel_ip p) (pub_last_seen p) (pub_up_bytes p)
    (pub_down_bytes p) (pub_created_at p) (pub_is_srtp p) (pub_has_tunnel p) v.
Definition set_pub_tunnel_ip (p : Session) (v : option bytes) : Session :=
  mkSession (pub_address p) (pub_password p) (pub_device_id p) (pub_generation_id p) (pub_session_salt p)
    (pub_worker_id p) (pub_desired_stream_count p) v (pub_last_seen p) (pub_up_bytes p) (pub_down_bytes p)
    (pub_created_at p) (pub_is_srtp p) (pub_has_tunnel p) (pub_cancelled p).
Definition set_pub_worker_id (p : Session) (v : Z) : Session :=
  mkSession (pub_address p) (pub_password p) (pub_device_id p) (pub_generation_id p) (pub_session_salt p) v
    (pub_desired_stream_count p) (pub_tunnel_ip p) (pub_last_seen p) (pub_up_bytes p) (pub_down_bytes p)
    (pub_created_at p) (pub_is_srtp p) (pub_has_tunnel p) (pub_cancelled p).
Definition set_pub_desired_stream_count (p : Session) (v : Z) : Session :=
  mkSession (pub_address p) (pub_password p) (pub_device_id p) (pub_generation_id p) (pub_session_salt p)
    (pub_worker_id p) v (pub_tunnel_ip p) (pub_last_seen p) (pub_up_bytes p) (pub_down_bytes p) (pub_created_at p)
    (pub_is_srtp p) (pub_has_tunnel p) (pub_cancelled p).

Definition Session_new (address : SockAddr) (password device_id : bytes) (generation_id : Z) (session_salt : bytes)
    (is_srtp : bool) (wall_now : Z) : Session :=
  mkSession address password device_id generation_id session_salt U64_MAX 0 None wall_now 0 0 wall_now is_srtp false false.

Record HotSession := mkHotSession {
  hs_id : Z; hs_peer : SockAddr; hs_local_ip : option IpAddr; hs_password : bytes; hs_device_id : bytes;
  hs_generation_id : Z; hs_session_salt : bytes; hs_key : bytes; hs_output : OutState; hs_replay : ReplayState;
  hs_tunnel_ip : option bytes; hs_registration_id : option Z; hs_desired_stream_count : Z; hs_last_inbound_ms : Z;
  hs_up_total : Z; hs_down_total : Z; hs_reported_up : Z; hs_reported_down : Z; hs_is_srtp : bool;
  hs_pending_tunnel : bool; hs_data_frames : bool; hs_fec_profile : FecProfile; hs_fec_budget : Budget;
}.
Definition set_hs_local_ip (h : HotSession) (v : option IpAddr) : HotSession :=
  mkHotSession (hs_id h) (hs_peer h) v (hs_password h) (hs_device_id h) (hs_generation_id h) (hs_session_salt h)
    (hs_key h) (hs_output h) (hs_replay h) (hs_tunnel_ip h) (hs_registration_id h) (hs_desired_stream_count h)
    (hs_last_inbound_ms h) (hs_up_total h) (hs_down_total h) (hs_reported_up h) (hs_reported_down h) (hs_is_srtp h)
    (hs_pending_tunnel h) (hs_data_frames h) (hs_fec_profile h) (hs_fec_budget h).
Definition set_hs_output (h : HotSession) (v : OutState) : HotSession :=
  mkHotSession (hs_id h) (hs_peer h) (hs_local_ip h) (hs_password h) (hs_device_id h) (hs_generation_id h)
    (hs_session_salt h) (hs_key h) v (hs_replay h) (hs_tunnel_ip h) (hs_registration_id h) (hs_desired_stream_count h)
    (hs_last_inbound_ms h) (hs_up_total h) (hs_down_total h) (hs_reported_up h) (hs_reported_down h) (hs_is_srtp h)
    (hs_pending_tunnel h) (hs_data_frames h) (hs_fec_profile h) (hs_fec_budget h).
Definition set_hs_replay (h : HotSession) (v : ReplayState) : HotSession :=
  mkHotSession (hs_id h) (hs_peer h) (hs_local_ip h) (hs_password h) (hs_device_id h) (hs_generation_id h)
    (hs_session_salt h) (hs_key h) (hs_output h) v (hs_tunnel_ip h) (hs_registration_id h) (hs_desired_stream_count h)
    (hs_last_inbound_ms h) (hs_up_total h) (hs_down_total h) (hs_reported_up h) (hs_reported_down h) (hs_is_srtp h)
    (hs_pending_tunnel h) (hs_data_frames h) (hs_fec_profile h) (hs_fec_budget h).
Definition set_hs_last_inbound_ms (h : HotSession) (v : Z) : HotSession :=
  mkHotSession (hs_id h) (hs_peer h) (hs_local_ip h) (hs_password h) (hs_device_id h) (hs_generation_id h)
    (hs_session_salt h) (hs_key h) (hs_output h) (hs_replay h) (hs_tunnel_ip h) (hs_registration_id h)
    (hs_desired_stream_count h) v (hs_up_total h) (hs_down_total h) (hs_reported_up h) (hs_reported_down h)
    (hs_is_srtp h) (hs_pending_tunnel h) (hs_data_frames h) (hs_fec_profile h) (hs_fec_budget h).
Definition set_hs_up_total (h : HotSession) (v : Z) : HotSession :=
  mkHotSession (hs_id h) (hs_peer h) (hs_local_ip h) (hs_password h) (hs_device_id h) (hs_generation_id h)
    (hs_session_salt h) (hs_key h) (hs_output h) (hs_replay h) (hs_tunnel_ip h) (hs_registration_id h)
    (hs_desired_stream_count h) (hs_last_inbound_ms h) v (hs_down_total h) (hs_reported_up h) (hs_reported_down h)
    (hs_is_srtp h) (hs_pending_tunnel h) (hs_data_frames h) (hs_fec_profile h) (hs_fec_budget h).
Definition set_hs_down_total (h : HotSession) (v : Z) : HotSession :=
  mkHotSession (hs_id h) (hs_peer h) (hs_local_ip h) (hs_password h) (hs_device_id h) (hs_generation_id h)
    (hs_session_salt h) (hs_key h) (hs_output h) (hs_replay h) (hs_tunnel_ip h) (hs_registration_id h)
    (hs_desired_stream_count h) (hs_last_inbound_ms h) (hs_up_total h) v (hs_reported_up h) (hs_reported_down h)
    (hs_is_srtp h) (hs_pending_tunnel h) (hs_data_frames h) (hs_fec_profile h) (hs_fec_budget h).
Definition set_hs_reported_up (h : HotSession) (v : Z) : HotSession :=
  mkHotSession (hs_id h) (hs_peer h) (hs_local_ip h) (hs_password h) (hs_device_id h) (hs_generation_id h)
    (hs_session_salt h) (hs_key h) (hs_output h) (hs_replay h) (hs_tunnel_ip h) (hs_registration_id h)
    (hs_desired_stream_count h) (hs_last_inbound_ms h) (hs_up_total h) (hs_down_total h) v (hs_reported_down h)
    (hs_is_srtp h) (hs_pending_tunnel h) (hs_data_frames h) (hs_fec_profile h) (hs_fec_budget h).
Definition set_hs_reported_down (h : HotSession) (v : Z) : HotSession :=
  mkHotSession (hs_id h) (hs_peer h) (hs_local_ip h) (hs_password h) (hs_device_id h) (hs_generation_id h)
    (hs_session_salt h) (hs_key h) (hs_output h) (hs_replay h) (hs_tunnel_ip h) (hs_registration_id h)
    (hs_desired_stream_count h) (hs_last_inbound_ms h) (hs_up_total h) (hs_down_total h) (hs_reported_up h) v
    (hs_is_srtp h) (hs_pending_tunnel h) (hs_data_frames h) (hs_fec_profile h) (hs_fec_budget h).
Definition set_hs_pending_tunnel (h : HotSession) (v : bool) : HotSession :=
  mkHotSession (hs_id h) (hs_peer h) (hs_local_ip h) (hs_password h) (hs_device_id h) (hs_generation_id h)
    (hs_session_salt h) (hs_key h) (hs_output h) (hs_replay h) (hs_tunnel_ip h) (hs_registration_id h)
    (hs_desired_stream_count h) (hs_last_inbound_ms h) (hs_up_total h) (hs_down_total h) (hs_reported_up h)
    (hs_reported_down h) (hs_is_srtp h) v (hs_data_frames h) (hs_fec_profile h) (hs_fec_budget h).
Definition set_hs_data_frames (h : HotSession) (v : bool) : HotSession :=
  mkHotSession (hs_id h) (hs_peer h) (hs_local_ip h) (hs_password h) (hs_device_id h) (hs_generation_id h)
    (hs_session_salt h) (hs_key h) (hs_output h) (hs_replay h) (hs_tunnel_ip h) (hs_registration_id h)
    (hs_desired_stream_count h) (hs_last_inbound_ms h) (hs_up_total h) (hs_down_total h) (hs_reported_up h)
    (hs_reported_down h) (hs_is_srtp h) (hs_pending_tunnel h) v (hs_fec_profile h) (hs_fec_budget h).
Definition set_hs_fec_budget (h : HotSession) (v : Budget) : HotSession :=
  mkHotSession (hs_id h) (hs_peer h) (hs_local_ip h) (hs_password h) (hs_device_id h) (hs_generation_id h)
    (hs_session_salt h) (hs_key h) (hs_output h) (hs_replay h) (hs_tunnel_ip h) (hs_registration_id h)
    (hs_desired_stream_count h) (hs_last_inbound_ms h) (hs_up_total h) (hs_down_total h) (hs_reported_up h)
    (hs_reported_down h) (hs_is_srtp h) (hs_pending_tunnel h) (hs_data_frames h) (hs_fec_profile h) v.

Definition HotSession_legacy (id : Z) (peer : SockAddr) (local_ip : option IpAddr) (password key : bytes) (output : OutState)
    (is_srtp : bool) (device_id : bytes) (generation_id : Z) (session_salt : bytes) (fec_profile : FecProfile)
    (monotonic_ms now : Z) : HotSession :=
  mkHotSession id peer local_ip password device_id generation_id session_salt key output ReplayState_new None None 0
    monotonic_ms 0 0 0 0 is_srtp false false fec_profile (Budget_new now).

Record IngressPacket := mkIngress { ing_slot : Z; ing_packet : ServerBuf }.

(** The counters of [IoCounters] whose change is reported. *)
Record IoCounters := mkIoCounters {
  io_udp_rx_errors : Z; io_udp_tx_errors : Z; io_tun_rx_errors : Z; io_tun_tx_errors : Z; io_udp_tx_drops : Z; io_tun_tx_drops : Z;
  io_partial_sendmmsg : Z; io_udp_rx_enobufs : Z; io_udp_tx_enobufs : Z;
}.
Definition IoCounters_default : IoCounters := mkIoCounters 0 0 0 0 0 0 0 0 0.
#[global] Instance IoCounters_eq_dec : EqDecision IoCounters.
Proof. solve_decision. Defined.

Inductive ControlEvent :=
| SessionCreated (session_id : Z)
| SessionClosed (address : SockAddr) (session_id : Z) (reason : string)
| Payload (address : SockAddr) (session_id : Z) (payload : bytes)
| IngressBeforeTunnel (address : SockAddr) (session_id : Z) (payload : bytes)
| StreamRepair (sequence : Z) (missing : list Z) (selected_carriers sent_carriers : Z)
| IoCountersChanged (counters : IoCounters).

(** [CompactMemory] also carries the channel of its confirmation. *)
Inductive ProtocolCommand :=
| AdoptSession (session : HotSession) (initial_payload : bytes)
| SendPlain (session_id : Z) (payload : bytes)
| BroadcastPlain (payload : bytes)
| ActivateTunnel (session_id : Z) (ip : bytes) (registration_id worker_id desired_count : Z)
| InjectTun (session_id : Z) (payload : bytes)
| UpdateEpoch (session_id : Z) (device_id : bytes) (generation_id : Z) (session_salt : bytes)
| SetDataFrames (session_id : Z) (enabled : bool)
| SetAuthoritativeEpoch (device_id : bytes) (generation_id : Z) (session_salt : bytes)
| DisconnectDevice (device_id : bytes) (requester_session_id : Z)
| ReplaceCredentials (credentials : list Credential)
| DropSession (session_id : Z)
| DropPassword (password : bytes)
| CompactMemory.

(** What all shards and the control plane share: the public halves, the
    counters, the channel of control events, the copy of the epochs a restarted
    engine begins with. *)
Record Shared := mkShared {
  sh_public : gmap Z Session; sh_session_counter : Z; sh_global_up : Z; sh_global_down : Z;
  sh_control : Channel ControlEvent; sh_epochs : gmap bytes Z;
}.
Definition set_sh_public (x : Shared) (v : gmap Z Session) : Shared :=
  mkShared v (sh_session_counter x) (sh_global_up x) (sh_global_down x) (sh_control x) (sh_epochs x).
Definition set_sh_session_counter (x : Shared) (v : Z) : Shared :=
  mkShared (sh_public x) v (sh_global_up x) (sh_global_down x) (sh_control x) (sh_epochs x).
Definition set_sh_global_up (x : Shared) (v : Z) : Shared :=
  mkShared (sh_public x) (sh_session_counter x) v (sh_global_down x) (sh_control x) (sh_epochs x).
Definition set_sh_global_down (x : Shared) (v : Z) : Shared :=
  mkShared (sh_public x) (sh_session_counter x) (sh_global_up x) v (sh_control x) (sh_epochs x).
Definition set_sh_control (x : Shared) (v : Channel ControlEvent) : Shared :=
  mkShared (sh_public x) (sh_session_counter x) (sh_global_up x) (sh_global_down x) v (sh_epochs x).
Definition set_sh_epochs (x : Shared) (v : gmap bytes Z) : Shared :=
  mkShared (sh_public x) (sh_session_counter x) (sh_global_up x) (sh_global_down x) (sh_control x) v.

(** The fields that are read and written alone. *)
Record Misc := mkMisc {
  ms_fec_profile : FecProfile; ms_wall_now : Z; ms_dpi_enabled : bool; ms_dpi_sample_counter : Z;
  ms_dpi_last_sample_ms : Z; ms_setup_budget : Z; ms_unauthenticated_setup_logged : bool;
  ms_last_unauthenticated_setup_log_ms : Z; ms_memory_compact_pending : bool; ms_last_memory_compact_ms : Z;
  ms_last_session_maintenance_ms : Z; ms_last_migrating_endpoint_sweep_ms : Z; ms_last_epoch_sweep_ms : Z;
  ms_batch_now : Z; ms_rng : Z;
}.
Definition set_ms_wall_now (m : Misc) (v : Z) : Misc :=
  mkMisc (ms_fec_profile m) v (ms_dpi_enabled m) (ms_dpi_sample_counter m) (ms_dpi_last_sample_ms m)
    (ms_setup_budget m) (ms_unauthenticated_setup_logged m) (ms_last_unauthenticated_setup_log_ms m)
    (ms_memory_compact_pending m) (ms_last_memory_compact_ms m) (ms_last_session_maintenance_ms m)
    (ms_last_migrating_endpoint_sweep_ms m) (ms_last_epoch_sweep_ms m) (ms_batch_now m) (ms_rng m).
Definition set_ms_setup_budget (m : Misc) (v : Z) : Misc :=
  mkMisc (ms_fec_profile m) (ms_wall_now m) (ms_dpi_enabled m) (ms_dpi_sample_counter m) (ms_dpi_last_sample_ms m) v
    (ms_unauthenticated_setup_logged m) (ms_last_unauthenticated_setup_log_ms m) (ms_memory_compact_pending m)
    (ms_last_memory_compact_ms m) (ms_last_session_maintenance_ms m) (ms_last_migrating_endpoint_sweep_ms m)
    (ms_last_epoch_sweep_ms m) (ms_batch_now m) (ms_rng m).
Definition set_ms_unauthenticated_setup_logged (m : Misc) (v : bool) : Misc :=
  mkMisc (ms_fec_profile m) (ms_wall_now m) (ms_dpi_enabled m) (ms_dpi_sample_counter m) (ms_dpi_last_sample_ms m)
    (ms_setup_budget m) v (ms_last_unauthenticated_setup_log_ms m) (ms_memory_compact_pending m)
    (ms_last_memory_compact_ms m) (ms_last_session_maintenance_ms m) (ms_last_migrating_endpoint_sweep_ms m)
    (ms_last_epoch_sweep_ms m) (ms_batch_now m) (ms_rng m).
Definition set_ms_last_unauthenticated_setup_log_ms (m : Misc) (v : Z) : Misc :=
  mkMisc (ms_fec_profile m) (ms_wall_now m) (ms_dpi_enabled m) (ms_dpi_sample_counter m) (ms_dpi_last_sample_ms m)
    (ms_setup_budget m) (ms_unauthenticated_setup_logged m) v (ms_memory_compact_pending m)
    (ms_last_memory_compact_ms m) (ms_last_session_maintenance_ms m) (ms_last_migrating_endpoint_sweep_ms m)
    (ms_last_epoch_sweep_ms m) (ms_batch_now m) (ms_rng m).
Definition set_ms_memory_compact_pending (m : Misc) (v : bool) : Misc :=
  mkMisc (ms_fec_profile m) (ms_wall_now m) (ms_dpi_enabled m) (ms_dpi_sample_counter m) (ms_dpi_last_sample_ms m)
    (ms_setup_budget m) (ms_unauthenticated_setup_logged m) (ms_last_unauthenticated_setup_log_ms m) v
    (ms_last_memory_compact_ms m) (ms_last_session_maintenance_ms m) (ms_last_migrating_endpoint_sweep_ms m)
    (ms_last_epoch_sweep_ms m) (ms_batch_now m) (ms_rng m).
Definition set_ms_last_memory_compact_ms (m : Misc) (v : Z) : Misc :=
  mkMisc (ms_fec_profile m) (ms_wall_now m) (ms_dpi_enabled m) (ms_dpi_sample_counter m) (ms_dpi_last_sample_ms m)
    (ms_setup_budget m) (ms_unauthenticated_setup_logged m) (ms_last_unauthenticated_setup_log_ms m)
    (ms_memory_compact_pending m) v (ms_last_session_maintenance_ms m) (ms_last_migrating_endpoint_sweep_ms m)
    (ms_last_epoch_sweep_ms m) (ms_batch_now m) (ms_rng m).
Definition set_ms_last_session_maintenance_ms (m : Misc) (v : Z) : Misc :=
  mkMisc (ms_fec_profile m) (ms_wall_now m) (ms_dpi_enabled m) (ms_dpi_sample_counter m) (ms_dpi_last_sample_ms m)
    (ms_setup_budget m) (ms_unauthenticated_setup_logged m) (ms_last_unauthenticated_setup_log_ms m)
    (ms_memory_compact_pending m) (ms_last_memory_compact_ms m) v (ms_last_migrating_endpoint_sweep_ms m)
    (ms_last_epoch_sweep_ms m) (ms_batch_now m) (ms_rng m).
Definition set_ms_last_migrating_endpoint_sweep_ms (m : Misc) (v : Z) : Misc :=
  mkMisc (ms_fec_profile m) (ms_wall_now m) (ms_dpi_enabled m) (ms_dpi_sample_counter m) (ms_dpi_last_sample_ms m)
    (ms_setup_budget m) (ms_unauthenticated_setup_logged m) (ms_last_unauthenticated_setup_log_ms m)
    (ms_memory_compact_pending m) (ms_last_memory_compact_ms m) (ms_last_session_maintenance_ms m) v
    (ms_last_epoch_sweep_ms m) (ms_batch_now m) (ms_rng m).
Definition set_ms_last_epoch_sweep_ms (m : Misc) (v : Z) : Misc :=
  mkMisc (ms_fec_profile m) (ms_wall_now m) (ms_dpi_enabled m) (ms_dpi_sample_counter m) (ms_dpi_last_sample_ms m)
    (ms_setup_budget m) (ms_unauthenticated_setup_logged m) (ms_last_unauthenticated_setup_log_ms m)
    (ms_memory_compact_pending m) (ms_last_memory_compact_ms m) (ms_last_session_maintenance_ms m)
    (ms_last_migrating_endpoint_sweep_ms m) v (ms_batch_now m) (ms_rng m).
Definition set_ms_batch_now (m : Misc) (v : Z) : Misc :=
  mkMisc (ms_fec_profile m) (ms_wall_now m) (ms_dpi_enabled m) (ms_dpi_sample_counter m) (ms_dpi_last_sample_ms m)
    (ms_setup_budget m) (ms_unauthenticated_setup_logged m) (ms_last_unauthenticated_setup_log_ms m)
    (ms_memory_compact_pending m) (ms_last_memory_compact_ms m) (ms_last_session_maintenance_ms m)
    (ms_last_migrating_endpoint_sweep_ms m) (ms_last_epoch_sweep_ms m) v (ms_rng m).
Definition set_ms_rng (m : Misc) (v : Z) : Misc :=
  mkMisc (ms_fec_profile m) (ms_wall_now m) (ms_dpi_enabled m) (ms_dpi_sample_counter m) (ms_dpi_last_sample_ms m)
    (ms_setup_budget m) (ms_unauthenticated_setup_logged m) (ms_last_unauthenticated_setup_log_ms m)
    (ms_memory_compact_pending m) (ms_last_memory_compact_ms m) (ms_last_session_maintenance_ms m)
    (ms_last_migrating_endpoint_sweep_ms m) (ms_last_epoch_sweep_ms m) (ms_batch_now m) v.

Section Engine.
Context `{SlabAlloc} `{Crypto} `{Entropy}.
Context {Sk : Type} `{PacketOutput Sk} `{RouterOutput Sk ProtocolCommand}.

(** [ProtocolEngine].  [e_streams] holds [monotonic_ms] and the stream
    bookkeeping; [e_epochs] the time each device was last seen. *)
Record Engine := mkEngine {
  e_shard_index : Z; e_shard_count : Z; e_sessions : Slab HotSession; e_by_peer : gmap EndpointKey Z;
  e_by_id : gmap Z Z; e_migrating : gmap EndpointKey Z; e_routes : RouteTable; e_downlink : DownlinkQueue;
  e_sequences : FlowSequencer; e_reassembler : FlowReassembler IngressPacket; e_credentials : list Credential;
  e_epochs : gmap bytes Z; e_streams : Reconciler; e_misc : Misc; e_shared : Shared;
}.
Definition set_e_sessions (e : Engine) (v : Slab HotSession) : Engine :=
  mkEngine (e_shard_index e) (e_shard_count e) v (e_by_peer e) (e_by_id e) (e_migrating e) (e_routes e) (e_downlink e)
    (e_sequences e) (e_reassembler e) (e_credentials e) (e_epochs e) (e_streams e) (e_misc e) (e_shared e).
Definition set_e_by_peer (e : Engine) (v : gmap EndpointKey Z) : Engine :=
  mkEngine (e_shard_index e) (e_shard_count e) (e_sessions e) v (e_by_id e) (e_migrating e) (e_routes e)
    (e_downlink e) (e_sequences e) (e_reassembler e) (e_credentials e) (e_epochs e) (e_streams e) (e_misc e)
    (e_shared e).
Definition set_e_by_id (e : Engine) (v : gmap Z Z) : Engine :=
  mkEngine (e_shard_index e) (e_shard_count e) (e_sessions e) (e_by_peer e) v (e_migrating e) (e_routes e)
    (e_downlink e) (e_sequences e) (e_reassembler e) (e_credentials e) (e_epochs e) (e_streams e) (e_misc e)
    (e_shared e).
Definition set_e_migrating (e : Engine) (v : gmap EndpointKey Z) : Engine :=
  mkEngine (e_shard_index e) (e_shard_count e) (e_sessions e) (e_by_peer e) (e_by_id e) v (e_routes e) (e_downlink e)
    (e_sequences e) (e_reassembler e) (e_credentials e) (e_epochs e) (e_streams e) (e_misc e) (e_shared e).
Definition set_e_routes (e : Engine) (v : RouteTable) : Engine :=
  mkEngine (e_shard_index e) (e_shard_count e) (e_sessions e) (e_by_peer e) (e_by_id e) (e_migrating e) v
    (e_downlink e) (e_sequences e) (e_reassembler e) (e_credentials e) (e_epochs e) (e_streams e) (e_misc e)
    (e_shared e).
Definition set_e_downlink (e : Engine) (v : DownlinkQueue) : Engine :=
  mkEngine (e_shard_index e) (e_shard_count e) (e_sessions e) (e_by_peer e) (e_by_id e) (e_migrating e) (e_routes e) v
    (e_sequences e) (e_reassembler e) (e_credentials e) (e_epochs e) (e_streams e) (e_misc e) (e_shared e).
Definition set_e_sequences (e : Engine) (v : FlowSequencer) : Engine :=
  mkEngine (e_shard_index e) (e_shard_count e) (e_sessions e) (e_by_peer e) (e_by_id e) (e_migrating e) (e_routes e)
    (e_downlink e) v (e_reassembler e) (e_credentials e) (e_epochs e) (e_streams e) (e_misc e) (e_shared e).
Definition set_e_reassembler (e : Engine) (v : FlowReassembler IngressPacket) : Engine :=
  mkEngine (e_shard_index e) (e_shard_count e) (e_sessions e) (e_by_peer e) (e_by_id e) (e_migrating e) (e_routes e)
    (e_downlink e) (e_sequences e) v (e_credentials e) (e_epochs e) (e_streams e) (e_misc e) (e_shared e).
Definition set_e_credentials (e : Engine) (v : list Credential) : Engine :=
  mkEngine (e_shard_index e) (e_shard_count e) (e_sessions e) (e_by_peer e) (e_by_id e) (e_migrating e) (e_routes e)
    (e_downlink e) (e_sequences e) (e_reassembler e) v (e_epochs e) (e_streams e) (e_misc e) (e_shared e).
Definition set_e_epochs (e : Engine) (v : gmap bytes Z) : Engine :=
  mkEngine (e_shard_index e) (e_shard_count e) (e_sessions e) (e_by_peer e) (e_by_id e) (e_migrating e) (e_routes e)
    (e_downlink e) (e_sequences e) (e_reassembler e) (e_credentials e) v (e_streams e) (e_misc e) (e_shared e).
Definition set_e_streams (e : Engine) (v : Reconciler) : Engine :=
  mkEngine (e_shard_index e) (e_shard_count e) (e_sessions e) (e_by_peer e) (e_by_id e) (e_migrating e) (e_routes e)
    (e_downlink e) (e_sequences e) (e_reassembler e) (e_credentials e) (e_epochs e) v (e_misc e) (e_shared e).
Definition set_e_misc (e : Engine) (v : Misc) : Engine :=
  mkEngine (e_shard_index e) (e_shard_count e) (e_sessions e) (e_by_peer e) (e_by_id e) (e_migrating e) (e_routes e)
    (e_downlink e) (e_sequences e) (e_reassembler e) (e_credentials e) (e_epochs e) (e_streams e) v (e_shared e).
Definition set_e_shared (e : Engine) (v : Shared) : Engine :=
  mkEngine (e_shard_index e) (e_shard_count e) (e_sessions e) (e_by_peer e) (e_by_id e) (e_migrating e) (e_routes e)
    (e_downlink e) (e_sequences e) (e_reassembler e) (e_credentials e) (e_epochs e) (e_streams e) (e_misc e) v.


Definition now_ms (e : Engine) : Z := monotonic_ms (e_streams e).
(** [self.stream_inventory_dirty = true] *)
Definition set_dirty (e : Engine) : Engine :=
  let r := e_streams e in
  set_e_streams e (mkReconciler (monotonic_ms r) (last_stream_reconcile_ms r) true (last_stream_inventory_resync_ms r)
    (stream_inventory r) (stream_repairs r)).
(** Writes through the [Arc] of session [id]. *)
Definition on_public (e : Engine) (id : Z) (f : Session -> Session) : Engine :=
  set_e_shared e (set_sh_public (e_shared e) (alter f id (sh_public (e_shared e)))).
(** [session.public.worker_id.load()] *)
Definition worker_id_of (e : Engine) (id : Z) : Z :=
  match sh_public (e_shared e) !! id with Some p => pub_worker_id p | None => U64_MAX end.
(** [self.control_tx.try_send(event)] *)
Definition emit (e : Engine) (event : ControlEvent) : bool * Engine :=
  let '(sent, control) := try_send (sh_control (e_shared e)) event in (sent, set_e_shared e (set_sh_control (e_shared e) control)).
(** An assignment to a session in the slab. *)
Definition put_session (e : Engine) (slot : Z) (h : HotSession) : Engine := set_e_sessions e (Slab_set (e_sessions e) slot h).
(** [self.sessions[slot]] *)
Definition session_at (e : Engine) (slot : Z) : opt HotSession :=
  match Slab_get (e_sessions e) slot with Some h => Ok h | None => Panic end.

(** [should_record_dpi] *)
Definition should_record_dpi (e : Engine) (plain : bytes) : bool * Engine :=
  let m := e_misc e in
  let put counter last := set_e_misc e (mkMisc (ms_fec_profile m) (ms_wall_now m) (ms_dpi_enabled m) counter last
    (ms_setup_budget m) (ms_unauthenticated_setup_logged m) (ms_last_unauthenticated_setup_log_ms m)
    (ms_memory_compact_pending m) (ms_last_memory_compact_ms m) (ms_last_session_maintenance_ms m)
    (ms_last_migrating_endpoint_sweep_ms m) (ms_last_epoch_sweep_ms m) (ms_batch_now m) (ms_rng m)) in
  if negb (ms_dpi_enabled m) then (false, e) else
  let counter := if is_dpi_control plain then ms_dpi_sample_counter m else u64_of (ms_dpi_sample_counter m + 1) in
  if negb (is_dpi_control plain) && negb (Z.land counter 511 =? 0) then (false, put counter (ms_dpi_last_sample_ms m)) else
  if sat_sub (now_ms e) (ms_dpi_last_sample_ms m) <? 200 then (false, put counter (ms_dpi_last_sample_ms m))
  else (true, put counter (now_ms e)).

(** ** Counters *)

(** [publish_counters]: the bytes not reported yet go to the public half and to
    the global totals. *)
Definition publish_counters (e : Engine) (h : HotSession) : HotSession * Engine :=
  let up_delta := sat_sub (hs_up_total h) (hs_reported_up h) in
  let down_delta := sat_sub (hs_down_total h) (hs_reported_down h) in
  let '(h, e) :=
    if negb (up_delta =? 0)
    then (set_hs_reported_up h (hs_up_total h),
          let e := on_public e (hs_id h) (fun p => set_pub_up_bytes p (u64_of (pub_up_bytes p + up_delta))) in
          set_e_shared e (set_sh_global_up (e_shared e) (u64_of (sh_global_up (e_shared e) + up_delta))))
    else (h, e) in
  let '(h, e) :=
    if negb (down_delta =? 0)
    then (set_hs_reported_down h (hs_down_total h),
          let e := on_public e (hs_id h) (fun p => set_pub_down_bytes p (u64_of (pub_down_bytes p + down_delta))) in
          set_e_shared e (set_sh_global_down (e_shared e) (u64_of (sh_global_down (e_shared e) + down_delta))))
    else (h, e) in
  (h, on_public e (hs_id h) (fun p => set_pub_last_seen p (ms_wall_now (e_misc e)))).

(** ** Sessions *)

Definition sync_downlink_profile (e : Engine) (ip : bytes) : Engine :=
  match tunnel_key ip with
  | None => e
  | Some key => set_e_downlink e (DownlinkQueue_configure (e_downlink e) key (active_path_count (e_routes e) key))
  end.

(** The session that takes over a route: of those of the same stream, the
    newest. *)
Definition is_fallback (e : Engine) (h : HotSession) (ip : bytes) (worker_id : Z) (candidate : HotSession) : bool :=
  bool_decide (hs_tunnel_ip candidate = Some ip) && bool_decide (is_Some (hs_registration_id candidate))
  && bytes_eqb (hs_device_id candidate) (hs_device_id h) && (hs_generation_id candidate =? hs_generation_id h)
  && bytes_eqb (hs_session_salt candidate) (hs_session_salt h) && (worker_id_of e (hs_id candidate) =? worker_id).
(** [max_by_key(|(_, candidate)| candidate.id)]: the last of the greatest. *)
Definition max_by_id (l : list (Z * HotSession)) : option (Z * HotSession) :=
  foldl (fun best c => match best with
                       | None => Some c
                       | Some b => if hs_id b.2 <=? hs_id c.2 then Some c else Some b
                       end) None l.
Definition fallback (e : Engine) (h : HotSession) (ip : bytes) (worker_id : Z) : option (Z * HotSession) :=
  max_by_id (filter (fun kc => is_fallback e h ip worker_id kc.2 = true) (Slab_iter (e_sessions e))).

(** What becomes of the routes of a session that is gone. *)
Definition release_route (e : Engine) (h : HotSession) (ip : bytes) (registration_id : Z) : Engine :=
  let '(removed, routes) := RouteTable_unregister (e_routes e) ip registration_id in
  let e := set_e_routes e routes in
  let e := if removed then
      let worker_id := worker_id_of e (hs_id h) in
      match fallback e h ip worker_id with
      | Some (slot, c) =>
          if worker_id <=? U16_MAX then
            let e := set_e_routes e (RouteTable_register (e_routes e) ip (hs_id c) (default 0 (hs_registration_id c)) worker_id slot).2 in
            on_public e (hs_id c) (fun p => set_pub_has_tunnel p true)
          else e
      | None => e
      end else e in
  sync_downlink_profile e ip.

Definition remove_slot_with_reason (e : Engine) (slot : Z) (reason : string) : Engine :=
  match Slab_get (e_sessions e) slot with
  | None => e
  | Some session =>
      let e := set_e_sessions e (Slab_remove (e_sessions e) slot) in
      let e := set_dirty (set_e_misc e (set_ms_memory_compact_pending (e_misc e) true)) in
      let '(session, e) := publish_counters e session in
      let e := set_e_by_peer e (delete (hs_peer session, hs_local_ip session) (e_by_peer e)) in
      let e := set_e_by_id e (delete (hs_id session) (e_by_id e)) in
      let e := match hs_tunnel_ip session, hs_registration_id session with
               | Some ip, Some registration_id => release_route e session ip registration_id
               | _, _ => e
               end in
      let e := on_public e (hs_id session) (fun p => set_pub_cancelled (set_pub_has_tunnel p false) true) in
      (emit e (SessionClosed (hs_peer session) (hs_id session) reason)).2
  end.

(** The clocks a handler reads: [Instant::now()] and the wall clock in
    milliseconds. *)
Record Moment := mkMoment { mo_now : Z; mo_wall_ms : Z }.

Definition insert_session (e : Engine) (h : HotSession) : Z * Engine :=
  let '(slot, sessions) := Slab_insert (e_sessions e) h in
  let e := set_e_sessions e sessions in
  let e := set_e_by_peer e (<[(hs_peer h, hs_local_ip h) := slot]> (e_by_peer e)) in
  (slot, set_e_by_id e (<[hs_id h := slot]> (e_by_id e))).

Definition create_legacy_session (e : Engine) (t : Moment) (peer : SockAddr) (local_ip : option IpAddr) (password key : bytes)
    (payload_type : Z) (is_srtp : bool) (device_id : bytes) (generation_id : Z) (session_salt : bytes) (replay_seq : Z) : Z * Engine :=
  let e := match e_by_peer e !! (peer, local_ip) with
           | Some old_slot => remove_slot_with_reason e old_slot "peer-replaced"
           | None => e
           end in
  let id := sh_session_counter (e_shared e) in
  let e := set_e_shared e (set_sh_session_counter (e_shared e) (u64_of (id + 1))) in
  let output := OutState_new payload_type (os_random id) (mo_wall_ms t) (mo_now t) in
  let session := HotSession_legacy id peer local_ip password key output is_srtp device_id generation_id session_salt
                   (ms_fec_profile (e_misc e)) (now_ms e) (mo_now t) in
  let e := set_e_shared e (set_sh_public (e_shared e)
             (<[id := Session_new peer password device_id generation_id session_salt is_srtp (ms_wall_now (e_misc e))]>
                (sh_public (e_shared e)))) in
  let session := set_hs_replay session (ReplayState_accept (hs_replay session) replay_seq).2 in
  let '(slot, e) := insert_session e session in
  (slot, set_dirty e).

Definition publish_created_session (e : Engine) (h : HotSession) (payload : bytes) : Engine :=
  let e := (emit e (SessionCreated (hs_id h))).2 in
  (emit e (Payload (hs_peer h) (hs_id h) payload)).2.

(** FNV-1a. *)
Definition shard_for_device (device_id : bytes) (shard_count : Z) : Z :=
  foldl (fun value byte => u64_of (Z.lxor value byte * 0x100000001b3)) 0xcbf29ce484222325 device_id mod Z.max shard_count 1.

Definition bind_endpoint (e : Engine) (s : Sk) (endpoint : EndpointRoute) : Sk :=
  (router_try_send s (BindEndpoint endpoint (e_shard_index e))).2.

Definition place_new_session (e : Engine) (s : Sk) (slot : Z) (payload : bytes) : Engine * Sk :=
  match Slab_get (e_sessions e) slot with
  | None => (e, s)
  | Some session =>
      let endpoint := (hs_peer session, hs_local_ip session) in
      let target := shard_for_device (hs_device_id session) (e_shard_count e) in
      if target =? e_shard_index e then (publish_created_session e session payload, bind_endpoint e s endpoint) else
      let e := set_e_sessions e (Slab_remove (e_sessions e) slot) in
      let e := set_e_by_peer e (delete endpoint (e_by_peer e)) in
      let e := set_e_by_id e (delete (hs_id session) (e_by_id e)) in
      let e := set_e_migrating e (<[endpoint := now_ms e]> (e_migrating e)) in
      match router_try_send s (Migrate endpoint target (AdoptSession session payload)) with
      | (true, s) => (e, s)
      | (false, s) =>
          let e := set_e_migrating e (delete endpoint (e_migrating e)) in
          let '(_, e) := insert_session e session in
          (publish_created_session e session payload, bind_endpoint e s endpoint)
      end
  end.

Definition adopt_session (e : Engine) (s : Sk) (session : HotSession) (initial_payload : bytes) : Engine * Sk :=
  let '(_, e) := insert_session e session in
  let e := set_dirty e in
  (publish_created_session e session initial_payload, bind_endpoint e s (hs_peer session, hs_local_ip session)).

Definition endpoint_is_migrating (e : Engine) (peer : SockAddr) (local_ip : option IpAddr) : bool :=
  bool_decide (is_Some (e_migrating e !! (peer, local_ip)))
  || (bool_decide (is_Some local_ip) && bool_decide (is_Some (e_migrating e !! (peer, None)))).

(** ** Sending *)

(** [r.ok()] of a call that may panic. *)
Definition catch {E A : Type} (r : result E A) : opt (option A) :=
  match r with Ok a => Ok (Some a) | Err _ => Ok None | Panic => Panic end.

(** The closure of [send_legacy_plain]: the session's output state and the
    generator advance. *)
Definition wrap_build (h : HotSession) (plain : bytes) (batch_now : Z) (st : OutState * Z) (buf : ServerBuf)
    : opt (bool * ServerBuf * (OutState * Z)) :=
  let '(o, rng) := st in
  let d := rng_packet rng (out_padding (hs_is_srtp h) (out_payload_type o)) in
  match wrap_legacy_into (hs_key h) (hs_is_srtp h) o plain buf batch_now d with
  | (Ok (buf, _), o) => Ok (true, buf, (o, rng + 1))
  | (Err _, o) => Ok (false, buf, (o, rng + 1))
  | (Panic, _) => Panic
  end.

(** [send_legacy_plain], for the session in [slot]. *)
Definition send_legacy_plain (e : Engine) (s : Sk) (t : Moment) (slot : Z) (h : HotSession) (plain : bytes) (class : PacketClass)
    : opt (bool * Engine * Sk) :=
  '(duplicate, h) ← (if bool_decide (hs_fec_profile h = Safe) then
      twice ← should_duplicate plain;
      if (twice : bool) then let '(allowed, budget) := Budget_allow (hs_fec_budget h) (mo_now t) in Ok (allowed, set_hs_fec_budget h budget)
      else Ok (false, h)
    else Ok (false, h));
  '(sent, s, (output, rng)) ← send_udp_with_duplicate_priority s (hs_peer h) (hs_local_ip h) duplicate class
      (wrap_build h plain (ms_batch_now (e_misc e))) (hs_output h, ms_rng (e_misc e));
  let e := put_session e slot (set_hs_output h output) in
  let e := set_e_misc e (set_ms_rng (e_misc e) rng) in
  let s := if (sent : bool) && should_flush_udp_immediately plain then request_udp_flush s else s in
  Ok (sent, e, s).
Definition send_plain (e : Engine) (s : Sk) (t : Moment) (slot : Z) (h : HotSession) (plain : bytes) : opt (bool * Engine * Sk) :=
  send_legacy_plain e s t slot h plain Bulk.

(** ** Datagrams *)

(** The loop over the credentials: the first that opens the packet to a GETCONF.
    Each turn copies the packet into the scratch buffer. *)
Fixpoint find_credential (credentials : list Credential) (wire : bytes)
    : opt (option (Credential * DecodedPacket * (bytes * Z * bytes) * bytes)) :=
  match credentials with
  | [] => Ok None
  | c :: credentials =>
      decoded ← catch (unwrap_legacy_in_place (cr_key c) wire None);
      match decoded with
      | None => find_credential credentials wire
      | Some (opened, d) =>
          plain ← slice opened (dp_start d) (dp_end d);
          match parse_getconf_epoch plain with
          | None => find_credential credentials wire
          | Some epoch => Ok (Some (c, d, epoch, plain))
          end
      end
  end.

Definition report_unauthenticated_setup (e : Engine) : Engine :=
  let m := e_misc e in
  if ms_unauthenticated_setup_logged m
     && (sat_sub (now_ms e) (ms_last_unauthenticated_setup_log_ms m) <? UNAUTHENTICATED_SETUP_LOG_INTERVAL_MS)
  then e
  else set_e_misc e (set_ms_last_unauthenticated_setup_log_ms (set_ms_unauthenticated_setup_logged m true) (now_ms e)).

Definition handle_unknown_legacy (e : Engine) (s : Sk) (t : Moment) (peer : SockAddr) (local_ip : option IpAddr) (wire : bytes)
    : opt (Engine * Sk) :=
  if (MAX_ACTIVE_SESSIONS <=? Slab_len (e_sessions e)) || (PACKET_CAPACITY <? len wire) || (ms_setup_budget (e_misc e) =? 0)
  then Ok (e, s) else
  let e := set_e_misc e (set_ms_setup_budget (e_misc e) (ms_setup_budget (e_misc e) - 1)) in
  found ← find_credential (e_credentials e) wire;
  match found with
  | None => Ok (report_unauthenticated_setup e, s)
  | Some (c, d, (device_id, generation_id, session_salt), plain) =>
      let '(slot, e) := create_legacy_session e t peer local_ip (cr_password c) (cr_key c) (dp_payload_type d) (dp_is_srtp d)
                          device_id generation_id session_salt (dp_seq d) in
      let '(_, e) := should_record_dpi e plain in
      match Slab_get (e_sessions e) slot with
      | None => Ok (e, s)
      | Some _ => Ok (place_new_session e s slot plain)
      end
  end.

(** [write_ingress_packet] *)
Definition write_ingress_packet (e : Engine) (s : Sk) (slot : Z) (packet : bytes) : opt (Engine * Sk) :=
  class ← packet_class packet;
  '(written, s) ← write_tun_priority s packet class;
  match Slab_get (e_sessions e) slot with
  | Some h => if (written : bool) then Ok (put_session e slot (set_hs_up_total h (sat_add (hs_up_total h) (len packet))), s) else Ok (e, s)
  | None => Ok (e, s)
  end.

(** [flush_ingress_ready]: the queue is empty again when it returns. *)
Fixpoint flush_ingress_ready (e : Engine) (s : Sk) (ready : list IngressPacket) : opt (Engine * Sk) :=
  match ready with
  | [] => Ok (e, s)
  | ingress :: ready =>
      data ← ServerBuf_as_slice (ing_packet ingress);
      '(e, s) ← write_ingress_packet e s (ing_slot ingress) data;
      flush_ingress_ready e s ready
  end.

(** Traffic of a session that has a tunnel, or the first of one that has none. *)
Definition ingress_payload (e : Engine) (s : Sk) (t : Moment) (slot : Z) (h : HotSession) (plain : bytes) : opt (Engine * Sk) :=
  if bool_decide (is_Some (hs_tunnel_ip h)) && bool_decide (is_Some (hs_registration_id h)) then
    match FrameHeader_decode plain with
    | Ok (header, inner) =>
        '(copied, packet) ← ServerBuf_copy_from PacketBuffer_new inner;
        if negb copied then Ok (e, s) else
        let '(reassembler, ready) := push (e_reassembler e) header (mkIngress slot packet) (mo_now t / 1000000) [] in
        flush_ingress_ready (set_e_reassembler e reassembler) s ready
    | Err _ => write_ingress_packet e s slot (payload plain)
    | Panic => Panic
    end
  else if negb (hs_pending_tunnel h) then
    match emit e (IngressBeforeTunnel (hs_peer h) (hs_id h) (payload plain)) with
    | (true, e) => Ok (put_session e slot (set_hs_pending_tunnel h true), s)
    | (false, e) => Ok (e, s)
    end
  else Ok (e, s).

(** The packet is authentic and new: what it says. *)
Definition accepted_payload (e : Engine) (s : Sk) (t : Moment) (slot : Z) (plain : bytes) : opt (Engine * Sk) :=
  if bytes_eqb plain SESSION_LEASE then Ok (e, s) else
  let '(_, e) := should_record_dpi e (payload plain) in
  h ← session_at e slot;
  if bytes_eqb plain (b_ "READY") then
    '(_, e, s) ← send_plain e s t slot h (b_ "READY_OK"); Ok (e, s)
  else if is_idle_keepalive plain then Ok (e, s)
  else if is_control_payload plain then Ok ((emit e (Payload (hs_peer h) (hs_id h) plain)).2, s)
  else ingress_payload e s t slot h plain.

(** The address the packet arrived at becomes the session's own. *)
Definition follow_local_ip (e : Engine) (s : Sk) (slot : Z) (h : HotSession) (local_ip : option IpAddr) : Engine * Sk :=
  if bool_decide (is_Some local_ip) && negb (bool_decide (hs_local_ip h = local_ip)) then
    let e := put_session e slot (set_hs_local_ip h local_ip) in
    let e := set_e_by_peer e (<[(hs_peer h, local_ip) := slot]> (delete (hs_peer h, hs_local_ip h) (e_by_peer e))) in
    (e, bind_endpoint e s (hs_peer h, local_ip))
  else (put_session e slot h, s).

Definition process_existing (e : Engine) (s : Sk) (t : Moment) (slot : Z) (local_ip : option IpAddr) (d : DecodedPacket) (plain : bytes)
    : opt (Engine * Sk) :=
  h ← session_at e slot;
  let '(accepted, replay) := ReplayState_accept (hs_replay h) (dp_seq d) in
  let h := set_hs_replay h replay in
  if negb accepted then Ok (put_session e slot h, s) else
  let h := set_hs_last_inbound_ms h (now_ms e) in
  let '(e, s) := follow_local_ip e s slot h local_ip in
  accepted_payload e s t slot plain.

(** [epoch.last_seen_ms = self.monotonic_ms] where the device has an epoch *)
Definition touch_epoch (e : Engine) (device_id : bytes) : Engine :=
  match e_epochs e !! device_id with
  | Some _ => set_e_epochs e (<[device_id := now_ms e]> (e_epochs e))
  | None => e
  end.

Definition handle_existing (e : Engine) (s : Sk) (t : Moment) (slot : Z) (local_ip : option IpAddr) (packet : bytes) : opt (Engine * Sk) :=
  match Slab_get (e_sessions e) slot with
  | None => Ok (e, s)
  | Some session =>
      decoded ← catch (unwrap_legacy_in_place (hs_key session) packet (Some (hs_is_srtp session)));
      match decoded with
      | None => Ok (e, s)
      | Some (opened, d) =>
          plain ← slice opened (dp_start d) (dp_end d);
          if starts_with plain GETCONF then
            match parse_getconf_epoch plain with
            | None => Ok (e, s)
            | Some (device_id, generation_id, session_salt) =>
                let e := touch_epoch e device_id in
                match getconf_reconnect_action_hot (hs_device_id session) (hs_generation_id session) (hs_session_salt session)
                        device_id generation_id session_salt with
                | Replace =>
                    let e := remove_slot_with_reason e slot "epoch-replaced" in
                    let '(new_slot, e) := create_legacy_session e t (hs_peer session)
                        (match local_ip with Some _ => local_ip | None => hs_local_ip session end)
                        (hs_password session) (hs_key session) (dp_payload_type d) (dp_is_srtp d)
                        device_id generation_id session_salt (dp_seq d) in
                    Ok (place_new_session e s new_slot plain)
                | Process => process_existing e s t slot local_ip d plain
                end
            end
          else process_existing e s t slot local_ip d plain
      end
  end.

Definition on_udp (e : Engine) (s : Sk) (t : Moment) (peer : SockAddr) (local_ip : option IpAddr) (packet : bytes) : opt (Engine * Sk) :=
  match e_by_peer e !! (peer, local_ip) with
  | Some slot => handle_existing e s t slot local_ip packet
  | None =>
      match (if bool_decide (is_Some local_ip) then e_by_peer e !! (peer, None) else None) with
      | Some slot => handle_existing e s t slot local_ip packet
      | None => if endpoint_is_migrating e peer local_ip then Ok (e, s) else handle_unknown_legacy e s t peer local_ip packet
      end
  end.

(** ** Tunnels *)

Definition set_hs_tunnel (h : HotSession) (ip : bytes) (registration_id desired_count : Z) : HotSession :=
  mkHotSession (hs_id h) (hs_peer h) (hs_local_ip h) (hs_password h) (hs_device_id h) (hs_generation_id h)
    (hs_session_salt h) (hs_key h) (hs_output h) (hs_replay h) (Some ip) (Some registration_id) desired_count
    (hs_last_inbound_ms h) (hs_up_total h) (hs_down_total h) (hs_reported_up h) (hs_reported_down h) (hs_is_srtp h)
    false (hs_data_frames h) (hs_fec_profile h) (hs_fec_budget h).

(** The old route of the session is unregistered. *)
Definition leave_tunnel (e : Engine) (h : HotSession) : option bytes * Engine :=
  match hs_tunnel_ip h, hs_registration_id h with
  | Some previous_ip, Some old_registration =>
      (Some previous_ip, set_e_routes e (RouteTable_unregister (e_routes e) previous_ip old_registration).2)
  | _, _ => (None, e)
  end.
(** The new one is registered. *)
Definition enter_tunnel (e : Engine) (slot : Z) (h : HotSession) (session_id : Z) (ip : bytes) (registration_id worker_id desired_count : Z)
    : bool * Engine :=
  let '(registered, routes) := RouteTable_register (e_routes e) ip session_id registration_id worker_id slot in
  let e := set_e_routes e routes in
  if registered then
    let e := put_session e slot (set_hs_tunnel h ip registration_id desired_count) in
    (true, set_dirty (on_public e session_id (fun p =>
      set_pub_has_tunnel (set_pub_desired_stream_count (set_pub_tunnel_ip p (Some ip)) desired_count) true)))
  else (false, e).

Definition activate_tunnel (e : Engine) (s : Sk) (session_id : Z) (ip : bytes) (registration_id worker_id desired_count : Z)
    : opt (bool * Engine * Sk) :=
  match e_by_id e !! session_id with
  | None => Ok (false, e, s)
  | Some slot =>
      h ← session_at e slot;
      let '(old_ip, e) := leave_tunnel e h in
      let '(registered, e) := enter_tunnel e slot h session_id ip registration_id worker_id desired_count in
      let e := match old_ip with Some old_ip => sync_downlink_profile e old_ip | None => e end in
      if registered then Ok (true, sync_downlink_profile e ip, (router_try_send s (BindTunnel ip (e_shard_index e))).2)
      else Ok (false, e, s)
  end.

Definition set_hs_identity (h : HotSession) (device_id : bytes) (generation_id : Z) (session_salt : bytes) : HotSession :=
  mkHotSession (hs_id h) (hs_peer h) (hs_local_ip h) (hs_password h) device_id generation_id
    session_salt (hs_key h) (hs_output h) (hs_replay h) (hs_tunnel_ip h) (hs_registration_id h) (hs_desired_stream_count h)
    (hs_last_inbound_ms h) (hs_up_total h) (hs_down_total h) (hs_reported_up h) (hs_reported_down h) (hs_is_srtp h)
    (hs_pending_tunnel h) (hs_data_frames h) (hs_fec_profile h) (hs_fec_budget h).
Definition set_pub_identity (p : Session) (device_id : bytes) (generation_id : Z) (session_salt : bytes) : Session :=
  mkSession (pub_address p) (pub_password p) device_id generation_id session_salt
    (pub_worker_id p) (pub_desired_stream_count p) (pub_tunnel_ip p) (pub_last_seen p) (pub_up_bytes p) (pub_down_bytes p)
    (pub_created_at p) (pub_is_srtp p) (pub_has_tunnel p) (pub_cancelled p).

Definition update_epoch (e : Engine) (session_id : Z) (device_id : bytes) (generation_id : Z) (session_salt : bytes) : opt Engine :=
  match e_by_id e !! session_id with
  | None => Ok e
  | Some slot =>
      h ← session_at e slot;
      let identity_changed := negb (bytes_eqb (hs_device_id h) device_id) || negb (hs_generation_id h =? generation_id)
                              || negb (bytes_eqb (hs_session_salt h) session_salt) in
      let replaced_ip := if identity_changed then hs_tunnel_ip h else None in
      let e := put_session e slot (set_hs_identity h device_id generation_id session_salt) in
      let e := on_public e (hs_id h) (fun p => set_pub_identity p device_id generation_id session_salt) in
      let e := match replaced_ip with
               | Some ip => match tunnel_key ip with Some key => set_e_downlink e (DownlinkQueue_clear (e_downlink e) key) | None => e end
               | None => e
               end in
      Ok (set_dirty e)
  end.

(** ** The downlink *)

Inductive DownlinkSend := Sent | Stale | Backpressured.

Definition send_down_endpoint (e : Engine) (s : Sk) (t : Moment) (endpoint : RouteEndpoint) (packet : bytes) (class : PacketClass)
    : opt (DownlinkSend * Engine * Sk) :=
  match Slab_get (e_sessions e) (re_slot endpoint) with
  | None => Ok (Stale, e, s)
  | Some h =>
      if negb (hs_id h =? re_session_id endpoint) || negb (bool_decide (hs_registration_id h = Some (re_registration_id endpoint)))
      then Ok (Stale, e, s) else
      let inner := payload packet in
      let outgoing := if hs_data_frames h then packet else inner in
      let '(_, e) := should_record_dpi e inner in
      '(sent, e, s) ← send_legacy_plain e s t (re_slot endpoint) h outgoing class;
      if (sent : bool) then
        h ← session_at e (re_slot endpoint);
        Ok (Sent, put_session e (re_slot endpoint) (set_hs_down_total h (sat_add (hs_down_total h) (len inner))), s)
      else Ok (Backpressured, e, s)
  end.

(** The loop over the selected window of streams; [rest] offsets remain. *)
Fixpoint send_down_window (e : Engine) (s : Sk) (t : Moment) (key : Z) (selection : RouteSelection) (packet : bytes) (class : PacketClass)
    (offset : Z) (rest : nat) : opt (DownlinkSend * Engine * Sk) :=
  match rest with
  | O => Ok (Stale, e, s)
  | S rest =>
      match RouteTable_endpoint_at (e_routes e) key selection offset with
      | None => Ok (Stale, e, s)
      | Some endpoint =>
          '(result, e, s) ← send_down_endpoint e s t endpoint packet class;
          match result with
          | Stale => send_down_window e s t key selection packet class (offset + 1) rest
          | _ => Ok (result, e, s)
          end
      end
  end.
Definition send_down_key (e : Engine) (s : Sk) (t : Moment) (key : Z) (packet : bytes) (class : PacketClass)
    : opt (DownlinkSend * Engine * Sk) :=
  match select_key_window (e_routes e) key class with
  | (None, routes) => Ok (Stale, set_e_routes e routes, s)
  | (Some selection, routes) =>
      send_down_window (set_e_routes e routes) s t key selection packet class 0 (Z.to_nat (rsel_len selection))
  end.

(** The [while remaining != 0] loop of one class: whether [drain_downlink]
    returns, and how many packets remain allowed. *)
Fixpoint drain_class (remaining : nat) (e : Engine) (s : Sk) (t : Moment) (class : PacketClass) : opt (bool * nat * Engine * Sk) :=
  match remaining with
  | O => Ok (false, O, e, s)
  | S rest =>
      if negb (has_udp_tx_slot s) then Ok (true, remaining, e, s) else
      '(got, queue) ← DownlinkQueue_dequeue (e_downlink e) class;
      let e := set_e_downlink e queue in
      match got with
      | None => Ok (false, remaining, e, s)
      | Some (key, packet) =>
          data ← ServerBuf_as_slice packet;
          '(result, e, s) ← send_down_key e s t key data class;
          match result with
          | Backpressured => Ok (true, remaining, set_e_downlink e (DownlinkQueue_requeue_front (e_downlink e) key class packet), s)
          | _ => drain_class rest (set_e_downlink e (DownlinkQueue_recycle (e_downlink e) key class packet)) s t class
          end
      end
  end.
Fixpoint drain_classes (classes : list PacketClass) (remaining : nat) (e : Engine) (s : Sk) (t : Moment) : opt (Engine * Sk) :=
  match classes with
  | [] => Ok (e, s)
  | class :: classes =>
      '(return_, remaining, e, s) ← drain_class remaining e s t class;
      if (return_ : bool) then Ok (e, s) else drain_classes classes remaining e s t
  end.
Definition drain_downlink (e : Engine) (s : Sk) (t : Moment) : opt (Engine * Sk) :=
  drain_classes [Small; Medium; Bulk] (Z.to_nat DOWNLINK_DRAIN_PACKET_LIMIT) e s t.

Definition handle_tun_packet (e : Engine) (packet : bytes) : opt Engine :=
  key ← packet_key packet;
  match key with
  | None => Ok e
  | Some key =>
      class ← packet_class packet;
      match FlowSequencer_next (e_sequences e) packet with
      | (Ok header, sequences) =>
          '(_, queue) ← DownlinkQueue_enqueue_framed (e_downlink e) key class header packet;
          Ok (set_e_downlink (set_e_sequences e sequences) queue)
      | (Err _, sequences) =>
          '(_, queue) ← DownlinkQueue_enqueue (e_downlink e) key class packet;
          Ok (set_e_downlink (set_e_sequences e sequences) queue)
      | (Panic, _) => Panic
      end
  end.
Definition on_tun (e : Engine) (s : Sk) (packet : bytes) : opt (Engine * Sk) := e ← handle_tun_packet e packet; Ok (e, s).
Definition on_tun_batch_end (e : Engine) (s : Sk) (t : Moment) : opt (Engine * Sk) := drain_downlink e s t.
Definition begin_batch (e : Engine) (now : Z) : Engine := set_e_misc e (set_ms_batch_now (e_misc e) now).

(** ** Streams *)

Definition stream_session (e : Engine) (h : HotSession) : StreamSession :=
  mkStreamSession (hs_id h) (hs_desired_stream_count h) (bool_decide (is_Some (hs_registration_id h))) (worker_id_of e (hs_id h))
    (hs_device_id h) (hs_generation_id h) (hs_session_salt h).

Fixpoint send_stream_control (e : Engine) (s : Sk) (t : Moment) (carriers : list Z) (payload : bytes) (sent : Z)
    : opt (Z * Engine * Sk) :=
  match carriers with
  | [] => Ok (sent, e, s)
  | slot :: carriers =>
      if STREAM_CONTROL_CARRIERS <=? sent then Ok (sent, e, s) else
      match Slab_get (e_sessions e) slot with
      | None => send_stream_control e s t carriers payload sent
      | Some h =>
          '(ok, e, s) ← send_plain e s t slot h payload;
          send_stream_control e s t carriers payload (if (ok : bool) then sent + 1 else sent)
      end
  end.

(** [for action in actions.drain(..)] *)
Fixpoint perform_actions (e : Engine) (s : Sk) (t : Moment) (actions : list StreamControlAction) : opt (Engine * Sk) :=
  match actions with
  | [] => Ok (e, s)
  | action :: actions =>
      '(sent, e, s) ← send_stream_control e s t (sa_carriers action) (sa_payload action) 0;
      let e := match sa_repair action with
               | Some (sequence, missing) => (emit e (StreamRepair sequence missing (len (sa_carriers action)) sent)).2
               | None => e
               end in
      perform_actions e s t actions
  end.

Definition engine_reconcile (e : Engine) (s : Sk) (t : Moment) : opt (Engine * Sk) :=
  '(actions, streams) ← reconcile_streams (e_streams e) ((fun kh => (kh.1, stream_session e kh.2)) <$> Slab_iter (e_sessions e));
  perform_actions (set_e_streams e streams) s t actions.

(** ** Commands *)

(** [while let Some(slot) = self.stale_slots.pop()] *)
Definition remove_slots (e : Engine) (stale : list Z) (reason : string) : Engine :=
  foldl (fun e slot => remove_slot_with_reason e slot reason) e (reverse stale).
Definition stale_by (e : Engine) (p : HotSession -> bool) : list Z :=
  (filter (fun kh => p kh.2 = true) (Slab_iter (e_sessions e))).*1.

Definition compact_memory (e : Engine) (force : bool) : Engine :=
  let session_capacity := Slab_capacity (e_sessions e) in
  if negb force && ((session_capacity <=? HOT_TABLE_RESERVE) || (session_capacity <? sat_mul (Slab_len (e_sessions e)) 2))
  then set_e_misc e (set_ms_memory_compact_pending (e_misc e) false) else
  let e := set_dirty e in
  let '(sessions, (by_peer, by_id, routes)) :=
    Slab_compact (fun b session new_slot =>
      let '(by_peer, by_id, routes) := b in
      (<[(hs_peer session, hs_local_ip session) := new_slot]> by_peer, <[hs_id session := new_slot]> by_id,
       match hs_tunnel_ip session, hs_registration_id session with
       | Some ip, Some registration_id => RouteTable_update_slot routes ip (hs_id session) registration_id new_slot
       | _, _ => routes
       end)) (e_sessions e) (e_by_peer e, e_by_id e, e_routes e) in
  let e := set_e_routes (set_e_by_id (set_e_by_peer (set_e_sessions e sessions) by_peer) by_id) routes in
  set_e_misc e (set_ms_last_memory_compact_ms (set_ms_memory_compact_pending (e_misc e) false) (now_ms e)).

Definition publish_epoch_state (e : Engine) : Engine := set_e_shared e (set_sh_epochs (e_shared e) (e_epochs e)).

(** [send_plain] to a session that must be there, its result ignored. *)
Definition command_send (e : Engine) (s : Sk) (t : Moment) (session_id : Z) (payload : bytes) : opt (Engine * Sk) :=
  match e_by_id e !! session_id with
  | None => Ok (e, s)
  | Some slot =>
      let '(_, e) := should_record_dpi e payload in
      h ← session_at e slot;
      '(_, e, s) ← send_plain e s t slot h payload;
      Ok (e, s)
  end.

(** [for (_, session) in self.sessions.iter_mut()] *)
Fixpoint broadcast (e : Engine) (s : Sk) (t : Moment) (slots : list Z) (payload : bytes) : opt (Engine * Sk) :=
  match slots with
  | [] => Ok (e, s)
  | slot :: slots =>
      h ← session_at e slot;
      '(_, e, s) ← send_plain e s t slot h payload;
      broadcast e s t slots payload
  end.

Definition on_command (e : Engine) (s : Sk) (t : Moment) (c : ProtocolCommand) : opt (Engine * Sk) :=
  match c with
  | AdoptSession session initial_payload => Ok (adopt_session e s session initial_payload)
  | SendPlain session_id payload => command_send e s t session_id payload
  | BroadcastPlain payload =>
      let '(_, e) := should_record_dpi e payload in
      broadcast e s t (Slab_iter (e_sessions e)).*1 payload
  | ActivateTunnel session_id ip registration_id worker_id desired_count =>
      '(_, e, s) ← activate_tunnel e s session_id ip registration_id worker_id desired_count; Ok (e, s)
  | InjectTun session_id payload =>
      match e_by_id e !! session_id with
      | None => Ok (e, s)
      | Some slot =>
          class ← packet_class payload;
          '(written, s) ← write_tun_priority s payload class;
          if (written : bool) then
            h ← session_at e slot;
            Ok (put_session e slot (set_hs_up_total h (sat_add (hs_up_total h) (len payload))), s)
          else Ok (e, s)
      end
  | UpdateEpoch session_id device_id generation_id session_salt =>
      e ← update_epoch e session_id device_id generation_id session_salt; Ok (e, s)
  | SetDataFrames session_id enabled =>
      match e_by_id e !! session_id with
      | None => Ok (e, s)
      | Some slot => match Slab_get (e_sessions e) slot with
                     | Some h => Ok (put_session e slot (set_hs_data_frames h enabled), s)
                     | None => Ok (e, s)
                     end
      end
  | SetAuthoritativeEpoch device_id generation_id session_salt =>
      let e := remove_slots e (stale_by e (fun h => session_is_retired_by_epoch (hs_device_id h) (hs_generation_id h) (hs_session_salt h)
                                                     device_id generation_id session_salt)) "authoritative-epoch-replaced" in
      Ok (publish_epoch_state (set_e_epochs e (<[device_id := now_ms e]> (e_epochs e))), s)
  | DisconnectDevice device_id requester_session_id =>
      '(e, s) ← command_send e s t requester_session_id (b_ "OK:disconnected");
      Ok (remove_slots e (stale_by e (fun h => session_is_disconnected_device (hs_id h) (hs_device_id h) requester_session_id device_id))
            "device-disconnect", s)
  | ReplaceCredentials credentials =>
      let e := remove_slots e (stale_by e (fun h => negb (contains_password credentials (hs_password h)))) "credential-removed" in
      Ok (set_e_credentials e credentials, s)
  | DropSession session_id =>
      match e_by_id e !! session_id with
      | None => Ok (e, s)
      | Some slot => Ok (remove_slot_with_reason e slot "requested-session-drop", s)
      end
  | DropPassword password =>
      Ok (remove_slots e (stale_by e (fun h => bytes_eqb (hs_password h) password)) "credential-removed", s)
  | CompactMemory => Ok (compact_memory e true, s)
  end.

(** ** Ticks *)

Definition hot_session_idle_reason (is_authenticated : bool) : string :=
  if is_authenticated then "authenticated-idle-10h" else "setup-idle-15s".

Definition is_idle (e : Engine) (h : HotSession) : bool :=
  let idle_ms := sat_sub (now_ms e) (hs_last_inbound_ms h) in
  let registered := bool_decide (is_Some (hs_registration_id h)) in
  (negb registered && (SESSION_SETUP_IDLE_MS <=? idle_ms)) || (registered && (SESSION_AUTH_IDLE_MS <=? idle_ms)).

(** The loop over [self.sessions.iter_mut()]: counters are published. *)
Definition publish_all (e : Engine) : Engine :=
  foldl (fun e kh => let '(h, e) := publish_counters e kh.2 in put_session e kh.1 h) e (Slab_iter (e_sessions e)).

Definition remove_idle (e : Engine) (stale : list Z) : Engine :=
  foldl (fun e slot =>
    remove_slot_with_reason e slot
      (hot_session_idle_reason (match Slab_get (e_sessions e) slot with
                                | Some h => bool_decide (is_Some (hs_registration_id h))
                                | None => false end))) e (reverse stale).

Definition maintain_sessions (e : Engine) : Engine :=
  if SESSION_MAINTENANCE_INTERVAL_MS <=? sat_sub (now_ms e) (ms_last_session_maintenance_ms (e_misc e)) then
    let e := set_e_misc e (set_ms_last_session_maintenance_ms (e_misc e) (now_ms e)) in
    let stale := stale_by e (is_idle e) in
    remove_idle (publish_all e) stale
  else e.

Definition sweep_migrating (e : Engine) : Engine :=
  if MIGRATING_ENDPOINT_SWEEP_INTERVAL_MS <=? sat_sub (now_ms e) (ms_last_migrating_endpoint_sweep_ms (e_misc e)) then
    let e := set_e_misc e (set_ms_last_migrating_endpoint_sweep_ms (e_misc e) (now_ms e)) in
    set_e_migrating e (filter (fun kv : EndpointKey * Z => sat_sub (now_ms e) kv.2 < MIGRATING_ENDPOINT_TTL_MS) (e_migrating e))
  else e.

Definition sweep_idle_epochs (e : Engine) : Engine :=
  if sat_sub (now_ms e) (ms_last_epoch_sweep_ms (e_misc e)) <? EPOCH_SWEEP_INTERVAL_MS then e else
  let e := set_e_misc e (set_ms_last_epoch_sweep_ms (e_misc e) (now_ms e)) in
  let active := filter (fun d => d <> []) ((fun kh => hs_device_id kh.2) <$> Slab_iter (e_sessions e)) in
  let before := size (e_epochs e) in
  let e := set_e_epochs e (filter (fun kv : bytes * Z => kv.1 ∈ active \/ sat_sub (now_ms e) kv.2 < EPOCH_IDLE_TTL_MS) (e_epochs e)) in
  if negb (size (e_epochs e) =? before)%nat then publish_epoch_state e else e.

(** [elapsed_ms] is the time since the engine started, [dpi] whether a client
    listens to the packet records. *)
Definition begin_tick (e : Engine) (elapsed_ms wall_now : Z) (dpi : bool) : Engine :=
  let r := e_streams e in
  let e := set_e_streams e (mkReconciler (Z.min elapsed_ms U64_MAX + 1) (last_stream_reconcile_ms r) (stream_inventory_dirty r)
             (last_stream_inventory_resync_ms r) (stream_inventory r) (stream_repairs r)) in
  let m := e_misc e in
  set_e_misc e (mkMisc (ms_fec_profile m) wall_now dpi (ms_dpi_sample_counter m) (ms_dpi_last_sample_ms m)
    SETUP_BUDGET_PER_TICK (ms_unauthenticated_setup_logged m) (ms_last_unauthenticated_setup_log_ms m)
    (ms_memory_compact_pending m) (ms_last_memory_compact_ms m) (ms_last_session_maintenance_ms m)
    (ms_last_migrating_endpoint_sweep_ms m) (ms_last_epoch_sweep_ms m) (ms_batch_now m) (ms_rng m)).

Definition on_tick (e : Engine) (s : Sk) (t : Moment) (elapsed_ms wall_now : Z) (dpi : bool) : opt (Engine * Sk) :=
  let e := maintain_sessions (sweep_migrating (begin_tick e elapsed_ms wall_now dpi)) in
  '(e, s) ← engine_reconcile e s t;
  let e := sweep_idle_epochs e in
  if ms_memory_compact_pending (e_misc e)
     && (MEMORY_COMPACT_INTERVAL_MS <=? sat_sub (now_ms e) (ms_last_memory_compact_ms (e_misc e)))
  then Ok (compact_memory e false, s) else Ok (e, s).

(** [on_io_counters]; [last] is the field [last_io_counters]. *)
Definition on_io_counters (e : Engine) (last counters : IoCounters) : Engine * IoCounters :=
  (if bool_decide (counters = last) then e else (emit e (IoCountersChanged counters)).2, counters).

(** [ProtocolEngine::new] *)
Definition Engine_new (shard_index shard_count : Z) (credentials : list Credential) (epochs : gmap bytes Z) (fec_profile : FecProfile)
    (sender_seed wall_now now : Z) (shared : Shared) : Engine :=
  mkEngine shard_index shard_count Slab_new ∅ ∅ ∅ RouteTable_new DownlinkQueue_default (FlowSequencer_with_sender_id sender_seed)
    FlowReassembler_new credentials epochs (mkReconciler 1 0 true 0 ∅ ∅)
    (mkMisc fec_profile wall_now false 0 0 (SETUP_BUDGET_PER_TICK * 2) false 0 false 0 0 0 0 now 0) shared.

(** [fanout_command]: the commands the shards get, in order. *)
Definition fanout_command (c : ProtocolCommand) (shard_count : Z) : list ProtocolCommand :=
  match c with
  | AdoptSession _ _ | CompactMemory => [c]
  | _ => replicate (Z.to_nat (Z.max shard_count 1)) c
  end.
End Engine.
