(* ===== verification/EngineInv.v ===== *)
(** * The invariant of the protocol engine

    The tables of the engine ([e_by_peer], [e_by_id], the routes) always agree
    with the slab of sessions, the queues and the inventory are well formed and
    hold only packets bound for their clients, and no handler panics. *)

From S2P Require Import Prelude FlowFrame Reassembly Classify Replay Packet Obfs Routes Downlink StreamControl Text Getconf Sink Slab Engine.

(** ** The tables *)

Definition endpoint_of (h : HotSession) : EndpointKey := (hs_peer h, hs_local_ip h).

(** Both tables are exact inverses of the slab, and a route leads to the
    session that was registered for it, at its place. *)
Record index_ok (m : gmap Z HotSession) (by_peer : gmap EndpointKey Z) (by_id : gmap Z Z) (routes : RouteTable) : Prop := {
  ix_peer : forall k s, by_peer !! k = Some s <-> exists h, m !! s = Some h /\ endpoint_of h = k;
  ix_id : forall i s, by_id !! i = Some s <-> exists h, m !! s = Some h /\ hs_id h = i;
  ix_table : table_wf routes;
  ix_live : forall key ep, 0 <= key -> ep ∈ streams_at routes key ->
    exists h ip, m !! re_slot ep = Some h /\ hs_id h = re_session_id ep
      /\ hs_registration_id h = Some (re_registration_id ep) /\ hs_tunnel_ip h = Some ip /\ route_index ip = Some key;
}.

(** The fields the tables depend on. *)
Definition same_keys (h h' : HotSession) : Prop :=
  endpoint_of h' = endpoint_of h /\ hs_id h' = hs_id h /\ hs_registration_id h' = hs_registration_id h
  /\ hs_tunnel_ip h' = hs_tunnel_ip h.

Section Index.
Context (m : gmap Z HotSession) (by_peer : gmap EndpointKey Z) (by_id : gmap Z Z) (routes : RouteTable).
Hypothesis Hix : index_ok m by_peer by_id routes.

Lemma index_insert s h :
  m !! s = None -> by_peer !! endpoint_of h = None -> by_id !! hs_id h = None ->
  index_ok (<[s := h]> m) (<[endpoint_of h := s]> by_peer) (<[hs_id h := s]> by_id) routes.
Proof.
  intros Hs Hp Hi. destruct Hix as [H1 H2 H3 H4]. split; [| |done|].
  - intros k s'. destruct (decide (k = endpoint_of h)) as [->|Hk].
    + rewrite lookup_insert_eq. split; [intros [= <-]; exists h; by rewrite lookup_insert_eq|].
      intros (h' & Hm & He). destruct (decide (s' = s)) as [->|Hne]; [done|]. rewrite lookup_insert_ne in Hm by done.
      assert (by_peer !! endpoint_of h = Some s') by (apply H1; eauto). congruence.
    + rewrite lookup_insert_ne, H1 by done. destruct (decide (s' = s)) as [->|Hne].
      * rewrite lookup_insert_eq. split; [intros (h' & Hm & _); congruence|intros (h' & [= <-] & He); congruence].
      * by rewrite lookup_insert_ne by done.
  - intros k s'. destruct (decide (k = hs_id h)) as [->|Hk].
    + rewrite lookup_insert_eq. split; [intros [= <-]; exists h; by rewrite lookup_insert_eq|].
      intros (h' & Hm & He). destruct (decide (s' = s)) as [->|Hne]; [done|]. rewrite lookup_insert_ne in Hm by done.
      assert (by_id !! hs_id h = Some s') by (apply H2; eauto). congruence.
    + rewrite lookup_insert_ne, H2 by done. destruct (decide (s' = s)) as [->|Hne].
      * rewrite lookup_insert_eq. split; [intros (h' & Hm & _); congruence|intros (h' & [= <-] & He); congruence].
      * by rewrite lookup_insert_ne by done.
  - intros key ep Hk He. destruct (H4 key ep Hk He) as (h' & ip & Hm & Hr). exists h', ip. split; [|done].
    rewrite lookup_insert_ne; [done|]. congruence.
Qed.

Lemma index_update s h h' :
  m !! s = Some h -> same_keys h h' -> index_ok (<[s := h']> m) by_peer by_id routes.
Proof.
  intros Hs (He & Hi & Hr & Ht). destruct Hix as [H1 H2 H3 H4].
  assert (Hiff : forall (P : HotSession -> Prop) s', (P h <-> P h') ->
    (exists x, m !! s' = Some x /\ P x) <-> exists x, <[s := h']> m !! s' = Some x /\ P x).
  { intros P s' HP. destruct (decide (s' = s)) as [->|Hne]; [rewrite lookup_insert_eq|by rewrite lookup_insert_ne].
    split; [intros (x & Hx & Px); assert (x = h) as -> by congruence; exists h'|intros (x & [= <-] & Px); exists h]; tauto. }
  split; [| |done|].
  - intros k s'. rewrite H1. apply Hiff. by rewrite He.
  - intros k s'. rewrite H2. apply Hiff. by rewrite Hi.
  - intros key ep Hk Hep. destruct (H4 key ep Hk Hep) as (x & ip & Hm & E1 & E2 & E3 & E4).
    destruct (decide (re_slot ep = s)) as [Heq|Hne]; [rewrite Heq in *; rewrite lookup_insert_eq|rewrite lookup_insert_ne by done; by exists x, ip].
    assert (x = h) as -> by congruence. exists h', ip. split_and!; congruence.
Qed.

Lemma index_rebind s h h' :
  m !! s = Some h -> by_peer !! endpoint_of h' = None ->
  hs_id h' = hs_id h -> hs_registration_id h' = hs_registration_id h -> hs_tunnel_ip h' = hs_tunnel_ip h ->
  index_ok (<[s := h']> m) (<[endpoint_of h' := s]> (delete (endpoint_of h) by_peer)) by_id routes.
Proof.
  intros Hs Hfree Hi Hr Ht. destruct Hix as [H1 H2 H3 H4]. split; [| |done|].
  - intros k s'. destruct (decide (k = endpoint_of h')) as [->|Hk].
    + rewrite lookup_insert_eq. split; [intros [= <-]; exists h'; by rewrite lookup_insert_eq|].
      intros (x & Hm & He). destruct (decide (s' = s)) as [->|Hne]; [done|]. rewrite lookup_insert_ne in Hm by done.
      assert (by_peer !! endpoint_of h' = Some s') by (apply H1; eauto). congruence.
    + rewrite lookup_insert_ne by done. destruct (decide (k = endpoint_of h)) as [->|Hk2].
      * rewrite lookup_delete_eq. split; [done|]. intros (x & Hm & He). destruct (decide (s' = s)) as [->|Hne].
        -- rewrite lookup_insert_eq in Hm. congruence.
        -- rewrite lookup_insert_ne in Hm by done. assert (Ha : by_peer !! endpoint_of h = Some s') by (apply H1; eauto).
           assert (Hb : by_peer !! endpoint_of h = Some s) by (apply H1; eauto). congruence.
      * rewrite lookup_delete_ne, H1 by done. destruct (decide (s' = s)) as [->|Hne]; [rewrite lookup_insert_eq|by rewrite lookup_insert_ne].
        split; [intros (x & Hx & Hk'); assert (x = h) as -> by congruence; congruence|intros (x & [= <-] & Hk'); congruence].
  - intros k s'. rewrite H2. destruct (decide (s' = s)) as [->|Hne]; [rewrite lookup_insert_eq|by rewrite lookup_insert_ne].
    split; [intros (x & Hx & Hk'); assert (x = h) as -> by congruence; exists h'|intros (x & [= <-] & Hk'); exists h]; split; congruence.
  - intros key ep Hk Hep. destruct (H4 key ep Hk Hep) as (x & ip & Hm & E1 & E2 & E3 & E4).
    destruct (decide (re_slot ep = s)) as [Heq|Hne]; [rewrite Heq in *; rewrite lookup_insert_eq|rewrite lookup_insert_ne by done; by exists x, ip].
    assert (x = h) as -> by congruence. exists h', ip. split_and!; congruence.
Qed.

(** No route leads to [s]. *)
Definition unrouted (t : RouteTable) (s : Z) : Prop := forall key ep, 0 <= key -> ep ∈ streams_at t key -> re_slot ep <> s.

Lemma index_delete s h :
  m !! s = Some h -> unrouted routes s -> index_ok (delete s m) (delete (endpoint_of h) by_peer) (delete (hs_id h) by_id) routes.
Proof.
  intros Hs Hun. destruct Hix as [H1 H2 H3 H4].
  assert (Hdel : forall (A : Type) `{Countable A} (t : gmap A Z) (f : HotSession -> A),
    (forall k s', t !! k = Some s' <-> exists x, m !! s' = Some x /\ f x = k) ->
    forall k s', delete (f h) t !! k = Some s' <-> exists x, delete s m !! s' = Some x /\ f x = k).
  { intros A ? ? t f Ht k s'. rewrite lookup_delete_Some, Ht. split.
    - intros (Hk & x & Hx & He). exists x. split; [|done]. rewrite lookup_delete_ne; [done|]. congruence.
    - intros (x & [Hne Hx]%lookup_delete_Some & He). split; [|eauto]. intros Heq.
      assert (Ha : t !! k = Some s') by (apply Ht; eauto). assert (Hb : t !! k = Some s) by (apply Ht; eauto). congruence. }
  split; [by apply Hdel|by apply Hdel|done|].
  intros key ep Hk Hep. destruct (H4 key ep Hk Hep) as (x & ip & Hm & E). exists x, ip. split; [|done].
  rewrite lookup_delete_ne; [done|]. intros Heq. by apply (Hun key ep Hk Hep).
Qed.

(** A session without a route gets another address and registration. *)
Lemma index_retunnel s h h' :
  m !! s = Some h -> endpoint_of h' = endpoint_of h -> hs_id h' = hs_id h -> unrouted routes s ->
  index_ok (<[s := h']> m) by_peer by_id routes.
Proof.
  intros Hs He Hi Hun. destruct Hix as [H1 H2 H3 H4].
  assert (Hiff : forall (P : HotSession -> Prop) s', (P h <-> P h') ->
    (exists x, m !! s' = Some x /\ P x) <-> exists x, <[s := h']> m !! s' = Some x /\ P x).
  { intros P s' HP. destruct (decide (s' = s)) as [->|Hne]; [rewrite lookup_insert_eq|by rewrite lookup_insert_ne].
    split; [intros (x & Hx & Px); assert (x = h) as -> by congruence; exists h'|intros (x & [= <-] & Px); exists h]; tauto. }
  split; [intros k s'; rewrite H1; apply Hiff; by rewrite He|intros k s'; rewrite H2; apply Hiff; by rewrite Hi|done|].
  intros key ep Hk Hep. destruct (H4 key ep Hk Hep) as (x & ip & Hx & Hr). exists x, ip. split; [|done].
  rewrite lookup_insert_ne; [done|]. intros Heq. by apply (Hun key ep Hk Hep).
Qed.

(** A session that lacks an address or a registration has no route. *)
Lemma unrouted_without s h : m !! s = Some h -> hs_tunnel_ip h = None \/ hs_registration_id h = None -> unrouted routes s.
Proof.
  intros Hs Hn key ep Hk Hep Heq. destruct (ix_live _ _ _ _ Hix key ep Hk Hep) as (x & ip & Hm & _ & Hr & Ht & _).
  rewrite Heq in Hm. assert (x = h) as -> by congruence. destruct Hn; congruence.
Qed.
End Index.

Section IndexRoutes.
Context (m : gmap Z HotSession) (by_peer : gmap EndpointKey Z) (by_id : gmap Z Z) (routes : RouteTable).
Hypothesis Hix : index_ok m by_peer by_id routes.

(** A table with fewer routes. *)
Lemma index_fewer t : table_wf t -> (forall key ep, 0 <= key -> ep ∈ streams_at t key -> ep ∈ streams_at routes key) -> index_ok m by_peer by_id t.
Proof. intros Ht Hsub. destruct Hix as [H1 H2 H3 H4]. split; eauto. Qed.

Lemma index_unregister ip rid : wf_bytes ip -> index_ok m by_peer by_id (RouteTable_unregister routes ip rid).2.
Proof.
  intros Hip. pose proof (ix_table _ _ _ _ Hix) as Hwf. apply index_fewer; [by apply (table_apply_wf routes (TUnregister ip rid))|].
  intros key ep Hk Hep. destruct (route_index ip) as [i|] eqn:Ei; [apply (streams_unregister routes ip i rid key ep) in Hep; tauto|].
  unfold RouteTable_unregister in Hep. by rewrite Ei in Hep.
Qed.
Lemma unrouted_unregister s h ip rid :
  m !! s = Some h -> hs_tunnel_ip h = Some ip -> hs_registration_id h = Some rid -> wf_bytes ip ->
  unrouted (RouteTable_unregister routes ip rid).2 s.
Proof.
  intros Hs Ht Hr Hip key ep Hk Hep Heq. pose proof (ix_table _ _ _ _ Hix) as Hwf.
  assert (Hin : ep ∈ streams_at routes key /\ (forall i, route_index ip = Some i -> key = i -> re_registration_id ep <> rid)).
  { destruct (route_index ip) as [i|] eqn:Ei.
    - apply (streams_unregister routes ip i rid key ep) in Hep as [H1 H2]; try done. split; [done|]. by intros i' [= <-].
    - unfold RouteTable_unregister in Hep. rewrite Ei in Hep. by split. }
  destruct Hin as [Hin Hne]. destruct (ix_live _ _ _ _ Hix key ep Hk Hin) as (x & ip' & Hm & _ & Hr' & Ht' & Hi').
  rewrite Heq in Hm. assert (x = h) as -> by congruence. assert (ip' = ip) as -> by congruence.
  apply (Hne key Hi' eq_refl). congruence.
Qed.

Lemma index_register s h ip rid wid :
  m !! s = Some h -> hs_tunnel_ip h = Some ip -> hs_registration_id h = Some rid -> wf_bytes ip ->
  index_ok m by_peer by_id (RouteTable_register routes ip (hs_id h) rid wid s).2.
Proof.
  intros Hs Ht Hr Hip. pose proof Hix as [H1 H2 Hwf H4]. split; [done|done|by apply (table_apply_wf routes (TRegister ip (hs_id h) rid wid s))|].
  intros key ep Hk Hep. destruct (route_index ip) as [i|] eqn:Ei.
  - apply (streams_register routes ip i (hs_id h) rid wid s key ep) in Hep; try done. case_decide as E; [|by apply H4].
    subst i. destruct Hep as [->|[Hep _]]; [|by apply H4]. by exists h, ip.
  - unfold RouteTable_register in Hep. rewrite Ei in Hep. by apply H4.
Qed.

Lemma index_select key class : 0 <= key < 256 -> index_ok m by_peer by_id (select_key_window routes key class).2.
Proof.
  intros Hk. pose proof (ix_table _ _ _ _ Hix) as Hwf. apply index_fewer; [by apply (table_apply_wf routes (TSelect key class))|].
  intros k ep Hk' Hep. by rewrite streams_select in Hep.
Qed.

(** The closure of [compact_memory]: a session moves to another key. *)
Lemma index_move old new h :
  m !! old = Some h -> m !! new = None -> (forall ip, hs_tunnel_ip h = Some ip -> wf_bytes ip) ->
  index_ok (<[new := h]> (delete old m)) (<[endpoint_of h := new]> by_peer) (<[hs_id h := new]> by_id)
    (match hs_tunnel_ip h, hs_registration_id h with
     | Some ip, Some rid => RouteTable_update_slot routes ip (hs_id h) rid new
     | _, _ => routes end).
Proof.
  intros Ho Hn Hip. pose proof Hix as [H1 H2 Hwf H4]. assert (Hne : old <> new) by congruence.
  assert (Hins : forall (A : Type) `{Countable A} (t : gmap A Z) (f : HotSession -> A),
    (forall k s', t !! k = Some s' <-> exists x, m !! s' = Some x /\ f x = k) ->
    forall k s', <[f h := new]> t !! k = Some s' <-> exists x, <[new := h]> (delete old m) !! s' = Some x /\ f x = k).
  { intros A ? ? t f Ht k s'. assert (Hu : forall s', t !! f h = Some s' -> s' = old).
    { intros s1 Hs1. assert (t !! f h = Some old) by (apply Ht; eauto). congruence. }
    rewrite lookup_insert_Some. split.
    - intros [[<- <-]|[Hk Hs]]; [exists h; by rewrite lookup_insert_eq|]. apply Ht in Hs as (x & Hx & He). exists x. split; [|done].
      rewrite lookup_insert_ne by congruence. rewrite lookup_delete_ne; [done|]. congruence.
    - intros (x & [[<- <-]|[Hne' [Hod Hx]%lookup_delete_Some]]%lookup_insert_Some & <-); [by left|].
      right. split; [|apply Ht; eauto]. intros Heq. apply Hod. symmetry. apply Hu. rewrite Heq. apply Ht. eauto. }
  split; [by apply Hins|by apply Hins| |].
  - destruct (hs_tunnel_ip h) as [ip|] eqn:Et; [|done]. destruct (hs_registration_id h) as [rid|]; [|done].
    apply (table_apply_wf routes (TUpdateSlot ip (hs_id h) rid new)); [done|]. by apply Hip.
  - assert (Hmove : forall key ep, 0 <= key -> ep ∈ streams_at routes key -> re_slot ep <> old ->
      exists x ip, <[new := h]> (delete old m) !! re_slot ep = Some x /\ hs_id x = re_session_id ep
        /\ hs_registration_id x = Some (re_registration_id ep) /\ hs_tunnel_ip x = Some ip /\ route_index ip = Some key).
    { intros key ep Hk Hep Hso. destruct (H4 key ep Hk Hep) as (x & ip & Hm & E). exists x, ip. split; [|done].
      rewrite lookup_insert_ne by congruence. by rewrite lookup_delete_ne. }
    intros key ep Hk Hep. destruct (hs_tunnel_ip h) as [ip|] eqn:Et; [destruct (hs_registration_id h) as [rid|] eqn:Er|].
    + destruct (route_index ip) as [i|] eqn:Ei.
      * apply (streams_update_slot routes ip i (hs_id h) rid new key ep) in Hep; try done; [|by apply Hip].
        destruct Hep as [[Hep Hno]|(-> & E1 & E2 & ->)].
        -- apply Hmove; try done. intros Heq. apply Hno. destruct (H4 key ep Hk Hep) as (x & ip' & Hm & E1 & E2 & E3 & E4).
           rewrite Heq in Hm. assert (x = h) as -> by congruence. split_and!; congruence.
        -- exists h, ip. rewrite lookup_insert_eq. split_and!; congruence.
      * unfold RouteTable_update_slot in Hep. rewrite Ei in Hep. apply Hmove; try done. intros Heq.
        destruct (H4 key ep Hk Hep) as (x & ip' & Hm & _ & _ & E3 & E4). rewrite Heq in Hm. congruence.
    + apply Hmove; try done. by apply (unrouted_without m by_peer by_id routes Hix old h Ho (or_intror Er) key ep).
    + apply Hmove; try done. by apply (unrouted_without m by_peer by_id routes Hix old h Ho (or_introl Et) key ep).
Qed.
End IndexRoutes.

(** ** The engine *)

(** A packet the classifiers can read. *)
Definition packet_ok (p : bytes) : Prop := wf_bytes p /\ len p <= ISIZE_MAX.
Definition ingress_ok (i : IngressPacket) : Prop := server_buf_wf (ing_packet i) /\ packet_ok (buf_bytes (ing_packet i)).
Definition session_ok (h : HotSession) : Prop :=
  is_u64 (hs_id h) /\ is_u16 (hs_desired_stream_count h) /\ (forall ip, hs_tunnel_ip h = Some ip -> wf_bytes ip).

Record shared_ok (x : Shared) : Prop := {
  so_counter : is_u64 (sh_session_counter x);
  so_workers : map_Forall (fun _ p => 0 <= pub_worker_id p) (sh_public x);
}.
(** The sessions of an engine, all created before now. *)
Definition sessions_ok (counter : Z) (m : gmap Z HotSession) : Prop :=
  map_Forall (fun _ h => session_ok h /\ hs_id h < counter) m.
(** Where a packet of IPv4 is bound for. *)
Definition destination (packet : bytes) : option bytes :=
  match packet with
  | b0 :: _ => if (20 <=? len packet) && (b0 / 16 =? 4) then Some (sub packet 16 20) else None
  | [] => None
  end.
(** The packet as it waits, with a frame header in front or without. *)
Definition carries (wire packet : bytes) : Prop := wire = packet \/ exists header, wire = frame_bytes header ++ packet.
(** What waits for the client of [key] is a packet for its address. *)
Definition waits_for (key : Z) (wire : bytes) : Prop :=
  packet_ok wire /\ exists packet, carries wire packet /\ destination packet = Some [10; 66; 67; key].
(** The rest of an engine. *)
Record buffers_ok (q : DownlinkQueue) (r : FlowReassembler IngressPacket) (s : Reconciler) : Prop := {
  bo_queue : queue_wf q;
  bo_held : queue_holds waits_for q;
  bo_reassembler : wf_reassembler r;
  bo_frames : frames_hold ingress_ok r;
  bo_inventory : inventory_wf (stream_inventory s);
}.

Section EngineInv.
Context {SA : SlabAlloc} {CR : Crypto} {EN : Entropy}.
Context {Sk : Type} {PO : PacketOutput Sk} {RO : RouterOutput Sk ProtocolCommand}.
Context `{!SlabLaws _} `{!CryptoLaws _} `{!EntropyLaws _} `{!PacketOutputLaws Sk} `{!RouterOutputLaws Sk ProtocolCommand}.

(** The shards an engine names are the router's. *)
Record shards_ok (index count : Z) : Prop := {
  so_endpoint : forall endpoint, routable (BindEndpoint endpoint index);
  so_tunnel : forall ip, routable (BindTunnel ip index);
  so_migrate : forall endpoint device h payload, routable (Migrate endpoint (shard_for_device device count) (AdoptSession h payload));
}.
Record engine_ok (e : Engine) : Prop := {
  eo_index : index_ok (sl_map (e_sessions e)) (e_by_peer e) (e_by_id e) (e_routes e);
  eo_sessions : sessions_ok (sh_session_counter (e_shared e)) (sl_map (e_sessions e));
  eo_buffers : buffers_ok (e_downlink e) (e_reassembler e) (e_streams e);
  eo_shared : shared_ok (e_shared e);
  eo_shards : shards_ok (e_shard_index e) (e_shard_count e);
}.

(** Every handler keeps the invariant and never sets the counter back. *)
Definition engine_step (e e' : Engine) : Prop :=
  engine_ok e' /\ sh_session_counter (e_shared e) <= sh_session_counter (e_shared e').
Lemma step_refl e : engine_ok e -> engine_step e e.
Proof. intros. split; [done|lia]. Qed.
Lemma step_trans e e' e'' : engine_step e e' -> engine_step e' e'' -> engine_step e e''.
Proof. intros [_ H1] [Hok H2]. split; [done|lia]. Qed.

Lemma buffers_streams q r s s' : stream_inventory s' = stream_inventory s -> buffers_ok q r s -> buffers_ok q r s'.
Proof. intros Heq [? ? ? ? ?]. split; try done. by rewrite Heq. Qed.
Lemma shared_public x f i : shared_ok x -> (forall p, 0 <= pub_worker_id p -> 0 <= pub_worker_id (f p)) ->
  shared_ok (set_sh_public x (alter f i (sh_public x))).
Proof.
  intros [Hc Hw] Hf. split; [done|]. cbn. intros k p Hp. destruct (decide (k = i)) as [->|Hne].
  - rewrite lookup_alter_eq in Hp. destruct (sh_public x !! i) as [p0|] eqn:E0; [|done]. injection Hp as <-. by apply Hf, (Hw i).
  - rewrite lookup_alter_ne in Hp by done. by apply (Hw k).
Qed.

(** Changes that leave the four parts alone. *)
Lemma ok_dirty e : engine_ok e -> engine_ok (set_dirty e).
Proof. intros [? ? ? ? ?]. split; try done. eapply buffers_streams; [|eassumption]. done. Qed.
Lemma ok_misc e m : engine_ok e -> engine_ok (set_e_misc e m).
Proof. intros [? ? ? ? ?]. by split. Qed.
Lemma ok_migrating e m : engine_ok e -> engine_ok (set_e_migrating e m).
Proof. intros [? ? ? ? ?]. by split. Qed.
Lemma ok_epochs e m : engine_ok e -> engine_ok (set_e_epochs e m).
Proof. intros [? ? ? ? ?]. by split. Qed.
Lemma ok_credentials e m : engine_ok e -> engine_ok (set_e_credentials e m).
Proof. intros [? ? ? ? ?]. by split. Qed.
Lemma ok_sequences e m : engine_ok e -> engine_ok (set_e_sequences e m).
Proof. intros [? ? ? ? ?]. by split. Qed.
Lemma ok_publish_epochs e : engine_ok e -> engine_ok (publish_epoch_state e).
Proof. intros [? ? ? [? ?] ?]. by split. Qed.
Lemma ok_on_public e i f : engine_ok e -> (forall p, 0 <= pub_worker_id p -> 0 <= pub_worker_id (f p)) -> engine_ok (on_public e i f).
Proof. intros [? ? ? ? ?] Hf. split; try done. by apply shared_public. Qed.
Lemma ok_emit e ev : engine_ok e -> engine_ok (emit e ev).2.
Proof. intros [? ? ? [? ?] ?]. unfold emit. destruct (try_send _ _). by split. Qed.
Lemma ok_dpi e plain : engine_ok e -> engine_ok (should_record_dpi e plain).2.
Proof.
  intros He. unfold should_record_dpi. destruct (negb (ms_dpi_enabled _)); [done|]. cbv zeta.
  destruct (negb (is_dpi_control plain) && _); [by apply ok_misc|]. destruct (_ <? 200); by apply ok_misc.
Qed.
Lemma ok_put e slot h h' :
  engine_ok e -> sl_map (e_sessions e) !! slot = Some h -> same_keys h h' -> is_u16 (hs_desired_stream_count h') ->
  engine_ok (put_session e slot h').
Proof.
  intros [Hi Hs ? ?] Hh Hk Hd. split; cbn; try done; [by eapply index_update|].
  intros k x Hx. apply lookup_insert_Some in Hx as [[<- <-]|[_ Hx]]; [|by apply (Hs k)].
  destruct (Hs _ _ Hh) as [(H1 & H2 & H3) H4]. destruct Hk as (_ & E2 & _ & E4). unfold session_ok. rewrite E2, E4. done.
Qed.
Lemma shared_id e : e = set_e_shared e (e_shared e).
Proof. by destruct e. Qed.
(** [publish_counters] writes to the shared state only. *)
Lemma counters_spec e h : exists h' x',
  publish_counters e h = (h', set_e_shared e x') /\ same_keys h h' /\ hs_desired_stream_count h' = hs_desired_stream_count h
  /\ (shared_ok (e_shared e) -> shared_ok x') /\ sh_session_counter x' = sh_session_counter (e_shared e).
Proof.
  unfold publish_counters.
  set (p1 := if negb (sat_sub (hs_up_total h) _ =? 0) then _ else (h, e)).
  assert (H1 : exists h' x', p1 = (h', set_e_shared e x') /\ same_keys h h' /\ hs_desired_stream_count h' = hs_desired_stream_count h
    /\ (shared_ok (e_shared e) -> shared_ok x') /\ sh_session_counter x' = sh_session_counter (e_shared e)).
  { unfold p1. destruct (negb _); [|exists h, (e_shared e); split_and!; try done; f_equal; apply shared_id].
    eexists _, _. split; [reflexivity|]. split_and!; try done. intros Hx.
    match goal with |- shared_ok (set_sh_global_up ?y _) => assert (Hy : shared_ok y) by (by apply shared_public) end.
    by destruct Hy. }
  destruct H1 as (h1 & x1 & -> & K1 & D1 & S1 & C1).
  set (p2 := if negb (sat_sub (hs_down_total h) _ =? 0) then _ else (h1, set_e_shared e x1)).
  assert (H2 : exists h' x', p2 = (h', set_e_shared e x') /\ same_keys h h' /\ hs_desired_stream_count h' = hs_desired_stream_count h
    /\ (shared_ok (e_shared e) -> shared_ok x') /\ sh_session_counter x' = sh_session_counter (e_shared e)).
  { unfold p2. destruct (negb _); [|exists h1, x1; by split_and!].
    eexists _, _. split; [reflexivity|]. split_and!; try done. intros Hx%S1.
    match goal with |- shared_ok (set_sh_global_down ?y _) => assert (Hy : shared_ok y) by (by apply shared_public) end.
    by destruct Hy. }
  destruct H2 as (h2 & x2 & -> & K2 & D2 & S2 & C2). eexists _, _. split; [reflexivity|]. split_and!; try done.
  intros Hx%S2. by apply shared_public.
Qed.

(** ** Routes and removal *)

Lemma ok_downlink e q : engine_ok e -> queue_wf q -> queue_holds waits_for q -> engine_ok (set_e_downlink e q).
Proof. intros [? ? [? ? ? ? ?] ?] Hq Hh. split; try done; by split. Qed.
Lemma ok_sync e ip : engine_ok e -> engine_ok (sync_downlink_profile e ip).
Proof.
  intros He. unfold sync_downlink_profile. destruct (tunnel_key ip) as [key|]; [|done].
  pose proof (eo_buffers e He) as [Hq Hh _ _ _].
  assert (Hn : 0 <= active_path_count (e_routes e) key) by (unfold active_path_count; destruct (group_at _ _); [apply len_nonneg|lia]).
  apply ok_downlink; [done|by apply configure_wf|by apply configure_holds].
Qed.
Lemma sync_fields e ip : e_sessions (sync_downlink_profile e ip) = e_sessions e /\ e_shared (sync_downlink_profile e ip) = e_shared e
  /\ e_by_id (sync_downlink_profile e ip) = e_by_id e /\ e_by_peer (sync_downlink_profile e ip) = e_by_peer e.
Proof. unfold sync_downlink_profile. by destruct (tunnel_key ip). Qed.

Lemma max_by_id_in l x : max_by_id l = Some x -> x ∈ l.
Proof.
  unfold max_by_id. set (f := fun best c => _).
  assert (Hg : forall best, foldl f best l = Some x -> best = Some x \/ x ∈ l).
  { induction l as [|c l IH]; intros best; cbn; [by left|]. intros [Hb|Hin]%IH; [|right; set_solver].
    unfold f in Hb. destruct best as [b|]; [destruct (_ <=? _)|]; injection Hb as <-; first [by left|right; set_solver]. }
  intros Hf. by destruct (Hg None Hf).
Qed.

Lemma fallback_spec e h ip wid slot c : fallback e h ip wid = Some (slot, c) ->
  sl_map (e_sessions e) !! slot = Some c /\ hs_tunnel_ip c = Some ip /\ exists rid, hs_registration_id c = Some rid.
Proof.
  unfold fallback. intros Hm%max_by_id_in. apply list_elem_of_filter in Hm as [Hf Hin]. apply elem_of_Slab_iter in Hin.
  cbn in Hf. unfold is_fallback in Hf. bool_prop. split_and!; try done.
Qed.

Lemma ok_release e h ip rid : wf_bytes ip ->
  engine_ok (set_e_routes e (RouteTable_unregister (e_routes e) ip rid).2) -> engine_ok (release_route e h ip rid).
Proof.
  intros Hip. unfold release_route. destruct (RouteTable_unregister (e_routes e) ip rid) as [removed routes]. cbn [snd]. intros He.
  set (e1 := set_e_routes e routes) in *. apply ok_sync. destruct removed; [|done].
  destruct (fallback e1 h ip _) as [[slot c]|] eqn:Ef; [|done]. destruct (_ <=? U16_MAX); [|done].
  apply fallback_spec in Ef as (Hs & Ht & r & Hr). rewrite Hr. cbn [default from_option id].
  apply ok_on_public; [|done]. destruct He as [Hix ? ? ? ?]. split; try done. cbn.
  by apply (index_register _ _ _ _ Hix slot c ip r).
Qed.
Lemma release_fields e h ip rid : e_sessions (release_route e h ip rid) = e_sessions e
  /\ sh_session_counter (e_shared (release_route e h ip rid)) = sh_session_counter (e_shared e).
Proof.
  unfold release_route. destruct (RouteTable_unregister _ _ _) as [removed routes].
  match goal with |- context [sync_downlink_profile ?x ip] => destruct (sync_fields x ip) as (-> & -> & _) end.
  destruct removed; [|done]. destruct (fallback _ _ _ _) as [[slot c]|]; [|done]. by destruct (_ <=? U16_MAX).
Qed.

Lemma ok_remove e slot reason : engine_ok e ->
  engine_ok (remove_slot_with_reason e slot reason)
  /\ sl_map (e_sessions (remove_slot_with_reason e slot reason)) = delete slot (sl_map (e_sessions e))
  /\ sh_session_counter (e_shared (remove_slot_with_reason e slot reason)) = sh_session_counter (e_shared e).
Proof.
  intros He. unfold remove_slot_with_reason, Slab_get. destruct (sl_map (e_sessions e) !! slot) as [h|] eqn:Eh.
  2: { split; [done|]. split; [|done]. by rewrite delete_id. }
  set (e1 := set_dirty _). destruct (counters_spec e1 h) as (h' & x' & -> & (Ke & Ki & Kr & Kt) & _ & Sx & Cx).
  fold (endpoint_of h'). set (e2 := set_e_by_id _ _).
  assert (Hs2 : sl_map (e_sessions e2) = delete slot (sl_map (e_sessions e))) by done.
  assert (Hc2 : sh_session_counter (e_shared e2) = sh_session_counter (e_shared e)) by done.
  pose proof He as [Hix Hse Hb Hsh Hshard]. pose proof (Hse _ _ Eh) as [(_ & _ & Hip) _].
  assert (Hgo : forall t, index_ok (sl_map (e_sessions e)) (e_by_peer e) (e_by_id e) t -> unrouted t slot -> engine_ok (set_e_routes e2 t)).
  { intros t Ht Hun. split; cbn.
    - rewrite Ke, Ki. by apply index_delete.
    - rewrite Cx. intros k y [_ Hy]%lookup_delete_Some. by apply (Hse k).
    - eapply buffers_streams; [|exact Hb]. done.
    - by apply Sx.
    - done. }
  match goal with |- context [on_public ?x _ _] => set (e3 := x) end.
  assert (H3 : engine_ok e3 /\ e_sessions e3 = e_sessions e2 /\ sh_session_counter (e_shared e3) = sh_session_counter (e_shared e2)).
  { unfold e3. rewrite Kt, Kr. destruct (hs_tunnel_ip h) as [ip|] eqn:Et; [destruct (hs_registration_id h) as [rid|] eqn:Er|].
    - split; [|apply release_fields]. apply ok_release; [by apply Hip|]. apply Hgo; [apply index_unregister; [done|by apply Hip]|].
      eapply unrouted_unregister; [exact Hix|done|done|done|by apply Hip].
    - split; [|done]. assert (He2 : e2 = set_e_routes e2 (e_routes e)) by done. rewrite He2. apply Hgo; [done|].
      eapply unrouted_without; [exact Hix|done|by right].
    - split; [|done]. assert (He2 : e2 = set_e_routes e2 (e_routes e)) by done. rewrite He2. apply Hgo; [done|].
      eapply unrouted_without; [exact Hix|done|by left]. }
  destruct H3 as (Hok3 & Hs3 & Hc3). unfold emit. destruct (try_send _ _) as [sent control]. cbn [snd].
  split_and!.
  - pose proof (ok_on_public e3 (hs_id h') (fun p => set_pub_cancelled (set_pub_has_tunnel p false) true) Hok3 ltac:(done)) as [? ? ? [? ?] ?].
    by split.
  - cbn. by rewrite Hs3.
  - cbn. lia.
Qed.

(** ** New sessions *)

Lemma ok_insert e h :
  engine_ok e -> session_ok h -> hs_id h < sh_session_counter (e_shared e) ->
  e_by_peer e !! endpoint_of h = None -> e_by_id e !! hs_id h = None ->
  engine_ok (insert_session e h).2
  /\ sl_map (e_sessions (insert_session e h).2) = <[(insert_session e h).1 := h]> (sl_map (e_sessions e))
  /\ e_shared (insert_session e h).2 = e_shared e.
Proof.
  intros [Hix Hse Hb Hsh Hshard] Hh Hlt Hp Hi. pose proof (Slab_insert_vacant (e_sessions e) h) as Hv.
  unfold insert_session. destruct (Slab_insert (e_sessions e) h) as [slot sl] eqn:Es.
  unfold Slab_insert in Es. injection Es as Hslot <-. cbn [fst snd] in *. subst slot. split; [|done]. split; cbn; [| |done|done|done].
  - by apply index_insert.
  - by apply map_Forall_insert_2.
Qed.

Lemma free_after_delete m by_peer by_id routes s h : index_ok m by_peer by_id routes -> m !! s = Some h ->
  forall by_peer' by_id' routes', index_ok (delete s m) by_peer' by_id' routes' ->
  by_peer' !! endpoint_of h = None /\ by_id' !! hs_id h = None.
Proof.
  intros [H1 H2 _ _] Hs bp' bi' rt' [H1' H2' _ _]. split; apply eq_None_not_Some; intros [s' Hs'].
  - apply H1' in Hs' as (x & [Hne Hx]%lookup_delete_Some & He).
    assert (by_peer !! endpoint_of h = Some s') by (apply H1; eauto). assert (by_peer !! endpoint_of h = Some s) by (apply H1; eauto). congruence.
  - apply H2' in Hs' as (x & [Hne Hx]%lookup_delete_Some & He).
    assert (by_id !! hs_id h = Some s') by (apply H2; eauto). assert (by_id !! hs_id h = Some s) by (apply H2; eauto). congruence.
Qed.

(** A session no one else has: no tunnel yet. *)
Definition fresh_session (h : HotSession) : Prop := hs_tunnel_ip h = None /\ hs_registration_id h = None.

Lemma evict_spec e peer local_ip : engine_ok e ->
  let e' := match e_by_peer e !! (peer, local_ip) with
            | Some old_slot => remove_slot_with_reason e old_slot "peer-replaced" | None => e end in
  engine_ok e' /\ e_by_peer e' !! (peer, local_ip) = None /\ sh_session_counter (e_shared e') = sh_session_counter (e_shared e)
  /\ sl_map (e_sessions e') ⊆ sl_map (e_sessions e).
Proof.
  intros He. cbv zeta. destruct (e_by_peer e !! (peer, local_ip)) as [old|] eqn:Eo; [|done].
  destruct (ok_remove e old "peer-replaced" He) as (Hok & Hs & Hc). split; [done|]. split; [|split; [done|rewrite Hs; apply delete_subseteq]].
  pose proof (eo_index _ Hok) as Hix'. rewrite Hs in Hix'. pose proof Eo as Eo'. apply (ix_peer _ _ _ _ (eo_index e He)) in Eo' as (h & Hm & <-).
  by apply (free_after_delete _ _ _ _ old h (eo_index e He) Hm _ _ _ Hix').
Qed.

Lemma create_spec e t peer local_ip password key pt is_srtp device generation salt seq :
  engine_ok e -> sh_session_counter (e_shared e) < U64_MAX ->
  let '(slot, e') := create_legacy_session e t peer local_ip password key pt is_srtp device generation salt seq in
  engine_step e e' /\ exists h, sl_map (e_sessions e') !! slot = Some h /\ fresh_session h /\ endpoint_of h = (peer, local_ip)
    /\ hs_id h = sh_session_counter (e_shared e) /\ hs_password h = password
    /\ hs_device_id h = device /\ hs_generation_id h = generation /\ hs_session_salt h = salt
    /\ forall k x, k <> slot -> sl_map (e_sessions e') !! k = Some x -> sl_map (e_sessions e) !! k = Some x.
Proof.
  intros He Hc. unfold create_legacy_session. destruct (evict_spec e peer local_ip He) as (Hok1 & Hfree & Hc1 & Hsub). cbv zeta in *.
  set (e1 := match e_by_peer e !! _ with Some _ => _ | None => _ end) in *. set (id := sh_session_counter (e_shared e1)) in *.
  set (session := set_hs_replay _ _). set (e2 := set_e_shared (set_e_shared e1 _) _).
  pose proof Hok1 as [Hix Hse Hb [Hcw Hw] Hshard]. assert (Hu : u64_of (id + 1) = id + 1) by (apply Z.mod_small; unfold is_u64, U64_MAX in *; lia).
  assert (Hok2 : engine_ok e2).
  { split; try done; cbn.
    - intros k h Hh. destruct (Hse k h Hh) as [Hs Hlt]. split; [done|]. rewrite Hu. fold id in Hlt. lia.
    - split; cbn; [unfold is_u64, U64_MAX in *; rewrite Hu; lia|]. apply map_Forall_insert_2; [|done]. cbn. unfold U64_MAX. lia. }
  assert (Hid : e_by_id e2 !! hs_id session = None).
  { apply eq_None_not_Some. intros [s Hs]. apply (ix_id _ _ _ _ Hix) in Hs as (h & Hm & Heq). destruct (Hse s h Hm) as [_ Hlt].
    change (hs_id session) with id in Heq. lia. }
  destruct (ok_insert e2 session Hok2) as (Hok3 & Hm3 & Hsh3); [|cbn; rewrite Hu; fold id; lia|exact Hfree|exact Hid|].
  { unfold session_ok. cbn. split_and!; [done|unfold is_u16; lia|done]. }
  destruct (insert_session e2 session) as [slot e3]. cbn [fst snd] in *. split.
  - split; [by apply ok_dirty|]. change (e_shared (set_dirty e3)) with (e_shared e3). rewrite Hsh3. cbn. rewrite Hu. fold id. lia.
  - exists session. change (e_sessions (set_dirty e3)) with (e_sessions e3). rewrite Hm3, lookup_insert_eq. split_and!; try done.
    intros k x Hne Hx. rewrite lookup_insert_ne in Hx by done. by apply (lookup_weaken _ _ _ _ Hx).
Qed.

Lemma ok_publish_created e h payload : engine_ok e -> engine_ok (publish_created_session e h payload).
Proof. intros He. unfold publish_created_session. by apply ok_emit, ok_emit. Qed.
Lemma publish_created_fields e h payload :
  sl_map (e_sessions (publish_created_session e h payload)) = sl_map (e_sessions e)
  /\ sh_session_counter (e_shared (publish_created_session e h payload)) = sh_session_counter (e_shared e).
Proof. unfold publish_created_session, emit. destruct (try_send _ _), (try_send _ _). done. Qed.
Lemma bind_endpoint_wf e s endpoint : engine_ok e -> sink_wf s -> sink_wf (bind_endpoint e s endpoint).
Proof. intros He Hs. apply router_send_law; [done|]. apply He. Qed.

Lemma place_spec e s slot h payload :
  engine_ok e -> sink_wf s -> sl_map (e_sessions e) !! slot = Some h -> fresh_session h ->
  let '(e', s') := place_new_session e s slot payload in engine_step e e' /\ sink_wf s'.
Proof.
  intros He Hs Hh [Hft Hfr]. unfold place_new_session, Slab_get. rewrite Hh. fold (endpoint_of h).
  destruct (_ =? e_shard_index e).
  { split; [|by apply bind_endpoint_wf]. split; [by apply ok_publish_created|]. rewrite (proj2 (publish_created_fields _ _ _)). lia. }
  set (e1 := set_e_by_id _ _). pose proof He as [Hix Hse Hb Hsh Hshard].
  assert (Hun : unrouted (e_routes e) slot) by (by eapply unrouted_without; [exact Hix|done|left]).
  assert (Hok1 : engine_ok e1).
  { split; cbn; [by apply index_delete| |done|done|done]. intros k y [_ Hy]%lookup_delete_Some. by apply (Hse k). }
  destruct (free_after_delete _ _ _ _ slot h Hix Hh _ _ _ (eo_index _ Hok1)) as [Hf1 Hf2].
  pose proof (router_send_law s (Migrate (endpoint_of h) (shard_for_device (hs_device_id h) (e_shard_count e)) (AdoptSession h payload)) Hs (so_migrate _ _ (eo_shards e He) _ _ _ _)) as Hs'.
  destruct (router_try_send _ _) as [[|] s1]; cbn [snd] in Hs'.
  { split; [|done]. split; [by apply ok_migrating|]. cbn. lia. }
  set (e2 := set_e_migrating (set_e_migrating e1 _) _). destruct (Hse _ _ Hh) as [Hso Hlt].
  destruct (ok_insert e2 h) as (Hok3 & Hm3 & Hsh3); [by apply ok_migrating, ok_migrating|done|done|done|done|].
  destruct (insert_session e2 h) as [slot' e3]. cbn [fst snd] in *. split; [|by apply bind_endpoint_wf].
  split; [by apply ok_publish_created|]. rewrite (proj2 (publish_created_fields _ _ _)), Hsh3. cbn. lia.
Qed.

(** What a migrating session needs of the shard that adopts it. *)
Definition adoptable (e : Engine) (h : HotSession) : Prop :=
  session_ok h /\ hs_id h < sh_session_counter (e_shared e) /\ e_by_peer e !! endpoint_of h = None /\ e_by_id e !! hs_id h = None.
Lemma adopt_spec e s h payload :
  engine_ok e -> sink_wf s -> adoptable e h ->
  let '(e', s') := adopt_session e s h payload in
  engine_step e e' /\ sink_wf s' /\ exists slot, sl_map (e_sessions e') = <[slot := h]> (sl_map (e_sessions e)).
Proof.
  intros He Hs (Hso & Hlt & Hp & Hi). unfold adopt_session.
  destruct (ok_insert e h He Hso Hlt Hp Hi) as (Hok & Hm & Hsh). destruct (insert_session e h) as [slot e1]. cbn [fst snd] in *.
  destruct (publish_created_fields (set_dirty e1) h payload) as [F1 F2].
  split_and!; [split; [by apply ok_publish_created, ok_dirty|rewrite F2; cbn; rewrite Hsh; lia]|apply bind_endpoint_wf; [by apply ok_dirty|done]|].
  exists slot. rewrite F1. done.
Qed.

(** ** Sending *)

(** Who a session is, and the route it was given. *)
Definition who (h : HotSession) :=
  (hs_id h, hs_password h, hs_device_id h, hs_generation_id h, hs_session_salt h, hs_tunnel_ip h, hs_registration_id h).
(** The sessions are the same, and so is what waits for them. *)
Record keeps (e e' : Engine) : Prop := {
  ke_ok : engine_ok e';
  ke_who : who <$> sl_map (e_sessions e') = who <$> sl_map (e_sessions e);
  ke_downlink : e_downlink e' = e_downlink e;
  ke_counter : sh_session_counter (e_shared e') = sh_session_counter (e_shared e);
}.
Lemma keeps_refl e : engine_ok e -> keeps e e.
Proof. by split. Qed.
Lemma keeps_trans e e' e'' : keeps e e' -> keeps e' e'' -> keeps e e''.
Proof. intros [? ? ? ?] [? ? ? ?]. split; congruence. Qed.
Lemma keeps_step e e' : keeps e e' -> engine_step e e'.
Proof. intros [? ? ? ?]. split; [done|lia]. Qed.
Lemma keeps_slot e e' slot h : keeps e e' -> sl_map (e_sessions e) !! slot = Some h ->
  exists h', sl_map (e_sessions e') !! slot = Some h' /\ who h' = who h.
Proof.
  intros [_ Hw _ _] Hh. apply (f_equal (.!! slot)) in Hw. rewrite !lookup_fmap, Hh in Hw.
  destruct (sl_map (e_sessions e') !! slot) as [h'|]; [|done]. exists h'. split; [done|]. by apply (inj Some).
Qed.
Lemma keeps_put e slot h h' : engine_ok e -> sl_map (e_sessions e) !! slot = Some h -> endpoint_of h' = endpoint_of h -> who h' = who h ->
  hs_desired_stream_count h' = hs_desired_stream_count h -> keeps e (put_session e slot h').
Proof.
  intros He Hh Hep Hw Hd. split; try done.
  - eapply ok_put; [done|done| |].
    + unfold who in Hw. unfold same_keys. split_and!; congruence.
    + rewrite Hd. by destruct (eo_sessions e He _ _ Hh) as [(_ & ? & _) _].
  - cbn. rewrite fmap_insert, Hw. apply insert_id. by rewrite lookup_fmap, Hh.
Qed.
Lemma keeps_misc e m : engine_ok e -> keeps e (set_e_misc e m).
Proof. intros. split; try done. by apply ok_misc. Qed.
Lemma keeps_dpi e plain : engine_ok e -> keeps e (should_record_dpi e plain).2.
Proof.
  intros He. pose proof (ok_dpi e plain He) as Hok. revert Hok. unfold should_record_dpi. destruct (negb (ms_dpi_enabled _)); [done|]. cbv zeta.
  destruct (negb (is_dpi_control plain) && _); [by split|]. destruct (_ <? 200); by split.
Qed.
Lemma keeps_emit e ev : engine_ok e -> keeps e (emit e ev).2.
Proof. intros He. pose proof (ok_emit e ev He) as Hok. revert Hok. unfold emit. destruct (try_send _ _). by split. Qed.

Lemma out_padding_range b pt : 0 < out_padding b pt <= 60.
Proof. unfold out_padding. destruct b; [destruct (pt =? 96)|destruct (pt =? 111)]; lia. Qed.
Lemma wrap_build_total h plain now st buf : server_buf_wf buf ->
  exists built buf' st', wrap_build h plain now st buf = Ok (built, buf', st') /\ server_buf_wf buf'.
Proof.
  intros Hl. unfold wrap_build. destruct st as [o rng]. set (d := rng_packet _ _).
  pose proof (rng_packet_law rng (out_padding (hs_is_srtp h) (out_payload_type o)) (out_padding_range _ _)) as Hd.
  destruct (wrap_legacy_safe (hs_key h) (hs_is_srtp h) o plain buf now d _ (proj1 Hl) Hd) as [Hsafe Hwf].
  destruct (wrap_legacy_into _ _ _ _ _ _ _) as [[[b n]| |] o']; cbn [fst] in *; [| |by destruct Hsafe].
  - eexists _, _, _. split; [reflexivity|]. by apply (Hwf _ n).
  - by eexists _, _, _.
Qed.

Lemma send_spec e s t slot h plain class :
  engine_ok e -> sink_wf s -> sl_map (e_sessions e) !! slot = Some h -> packet_ok plain ->
  yields (send_legacy_plain e s t slot h plain class) (fun '(sent, e', s') => keeps e e' /\ sink_wf s').
Proof.
  intros He Hs Hh [Hwf Hlen]. unfold send_legacy_plain. destruct (classification_total plain Hwf Hlen) as [_ [twice Htw]].
  apply (yields_bind _ _ (fun '(duplicate, h') => endpoint_of h' = endpoint_of h /\ who h' = who h /\ hs_desired_stream_count h' = hs_desired_stream_count h)).
  { destruct (bool_decide _); [|by apply yields_ret]. rewrite Htw. cbn [mbind result_bind]. destruct twice; [|by apply yields_ret].
    destruct (Budget_allow _ _) as [allowed budget]. by apply yields_ret. }
  intros [duplicate h'] (Hep & Hw & Hd).
  destruct (send_udp_law (OutState * Z) s (hs_peer h') (hs_local_ip h') duplicate class (wrap_build h' plain (ms_batch_now (e_misc e)))
    (hs_output h', ms_rng (e_misc e)) Hs) as (sent & s' & [output rng] & Hsend & Hs' & _); [intros buf; apply wrap_build_total|].
  rewrite Hsend. cbn [mbind result_bind]. apply yields_ret. split; [|destruct (_ && _); [by apply request_flush_law|done]].
  assert (Hk : keeps e (put_session e slot (set_hs_output h' output))) by (by apply (keeps_put e slot h)).
  eapply keeps_trans; [exact Hk|]. apply keeps_misc, Hk.
Qed.

(** ** Datagrams *)

Lemma yields_keeps e e1 (r : opt (Engine * Sk)) : keeps e e1 ->
  yields r (fun '(e', s') => keeps e1 e' /\ sink_wf s') -> yields r (fun '(e', s') => keeps e e' /\ sink_wf s').
Proof. intros Hk Hr. eapply yields_impl; [exact Hr|]. intros [e2 s2] [Hk2 Hs2]. split; [by eapply keeps_trans|done]. Qed.
Lemma yields_same e s : engine_ok e -> sink_wf s -> yields (E := unit) (Ok (e, s)) (fun '(e', s') => keeps e e' /\ sink_wf s').
Proof. intros. apply yields_ret. split; [by apply keeps_refl|done]. Qed.

Lemma payload_ok p : packet_ok p -> packet_ok (payload p).
Proof.
  intros [Hwf Hl]. split; [by apply wf_payload|]. unfold payload. pose proof (frame_decode_cases p Hwf) as Hd.
  destruct (FrameHeader_decode p) as [[h rest]| |]; [|done..]. destruct Hd as [_ Hd].
  apply (f_equal len) in Hd. rewrite len_app, len_frame_bytes in Hd. unfold FRAME_LEN in Hd. lia.
Qed.
Lemma frame_inner_ok p h rest : packet_ok p -> FrameHeader_decode p = Ok (h, rest) -> packet_ok rest /\ is_u32 (FlowFrame.sequence h).
Proof.
  intros Hp Hd. pose proof (payload_ok p Hp) as Hr. unfold payload in Hr. rewrite Hd in Hr. split; [done|].
  pose proof (frame_decode_cases p (proj1 Hp)) as Hc. rewrite Hd in Hc. by destruct Hc as [(_ & _ & ?) _].
Qed.
Lemma copied_bytes (b : ServerBuf) data : server_buf_wf b ->
  exists copied b', @ServerBuf_copy_from unit b data = Ok (copied, b') /\ server_buf_wf b' /\ (copied = true -> buf_bytes b' = data).
Proof.
  intros Hb. destruct (@copy_from_wf unit b data Hb) as (c & b' & Hc & Hb'). exists c, b'. split_and!; try done. intros ->.
  unfold ServerBuf_copy_from in Hc. destruct (PACKET_CAPACITY <? len data) eqn:E; [done|]. bool_prop. pose proof (len_nonneg data).
  destruct Hb as [Hb _]. destruct (split_at (sb_storage b) (len data) ltac:(lia)) as (x & y & Hst & Hx & _).
  rewrite copy_into_ok in Hc by lia. cbn in Hc. injection Hc as <-. unfold buf_bytes. cbn [sb_storage sb_len].
  rewrite Hst, splice_app_0 by done. by rewrite sub_app_begin.
Qed.
Lemma as_slice_ok {E} b : server_buf_wf b -> @ServerBuf_as_slice E b = Ok (buf_bytes b).
Proof. intros [Hs Hl]. unfold ServerBuf_as_slice. apply slice_ok; lia. Qed.

Lemma write_ingress_spec e s slot packet :
  engine_ok e -> sink_wf s -> packet_ok packet ->
  yields (write_ingress_packet e s slot packet) (fun '(e', s') => keeps e e' /\ sink_wf s').
Proof.
  intros He Hs [Hwf Hl]. unfold write_ingress_packet. destruct (classification_total packet Hwf Hl) as [[class ->] _]. cbn [mbind result_bind].
  destruct (write_tun_law s packet class Hs) as (written & s' & -> & Hs'). cbn [mbind result_bind]. unfold Slab_get.
  destruct (sl_map (e_sessions e) !! slot) as [h|] eqn:Eh; [|by apply yields_same].
  destruct written; apply yields_ret; (split; [|done]); [by apply (keeps_put e slot h)|by apply keeps_refl].
Qed.

Lemma flush_ingress_spec e s ready :
  engine_ok e -> sink_wf s -> Forall ingress_ok ready ->
  yields (flush_ingress_ready e s ready) (fun '(e', s') => keeps e e' /\ sink_wf s').
Proof.
  intros He Hs Hr. revert e s He Hs. induction Hr as [|i ready [Hb Hp] _ IH]; intros e s He Hs; cbn [flush_ingress_ready].
  { apply yields_ret. split; [by apply keeps_refl|done]. }
  rewrite as_slice_ok by done. cbn [mbind result_bind].
  eapply yields_bind; [by apply write_ingress_spec|]. intros [e1 s1] [Hk Hs1].
  apply (yields_keeps _ _ _ Hk). apply IH; [apply Hk|done].
Qed.

Lemma ingress_spec e s t slot h plain :
  engine_ok e -> sink_wf s -> sl_map (e_sessions e) !! slot = Some h -> packet_ok plain ->
  yields (ingress_payload e s t slot h plain) (fun '(e', s') => keeps e e' /\ sink_wf s').
Proof.
  intros He Hs Hh Hp. unfold ingress_payload. destruct (bool_decide _ && _).
  - destruct (FrameHeader_decode plain) as [[header inner]|err|] eqn:Ed.
    + destruct (frame_inner_ok _ _ _ Hp Ed) as [Hin Hseq].
      destruct (copied_bytes PacketBuffer_new inner new_buf_wf) as (copied & packet & -> & Hpw & Hpb). cbn [mbind result_bind].
      destruct copied; cbn [negb]; [|by apply yields_same].
      pose proof (eo_buffers e He) as [? ? Hw Hf ?].
      destruct (push (e_reassembler e) header _ _ _) as [r ready] eqn:Epush. unfold push in Epush.
      assert (Hi : ingress_ok (mkIngress slot packet)) by (split; cbn [ing_packet]; [done|by rewrite Hpb]).
      destruct (push_at_holds ingress_ok _ _ _ _ _ _ _ Hw Hseq Hf Hi (Forall_nil_2 _) Epush) as (Hw' & Hf' & Hready).
      assert (Hk : keeps e (set_e_reassembler e r)) by (pose proof He as [? ? [? ? ? ? ?] ?]; split; try done; split; try done; by split).
      apply (yields_keeps _ _ _ Hk). by apply flush_ingress_spec; [apply Hk|..].
    + apply write_ingress_spec; [done|done|by apply payload_ok].
    + pose proof (frame_decode_cases plain (proj1 Hp)) as Hc. by rewrite Ed in Hc.
  - destruct (negb (hs_pending_tunnel h)); [|by apply yields_same].
    pose proof (keeps_emit e (IngressBeforeTunnel (hs_peer h) (hs_id h) (payload plain)) He) as Hk.
    destruct (emit e _) as [[|] e1] eqn:Ee; cbn [snd] in Hk; apply yields_ret; (split; [|done]); [|done].
    destruct (keeps_slot _ _ _ _ Hk Hh) as (h1 & Hh1 & _).
    assert (h1 = h) as ->. { unfold emit in Ee. destruct (try_send _ _). injection Ee as _ <-. cbn in Hh1. congruence. }
    eapply keeps_trans; [exact Hk|]. by apply (keeps_put e1 slot h); [apply Hk|..].
Qed.

Lemma accepted_spec e s t slot h plain :
  engine_ok e -> sink_wf s -> sl_map (e_sessions e) !! slot = Some h -> packet_ok plain ->
  yields (accepted_payload e s t slot plain) (fun '(e', s') => keeps e e' /\ sink_wf s').
Proof.
  intros He Hs Hh Hp. unfold accepted_payload. destruct (bytes_eqb plain SESSION_LEASE); [by apply yields_same|].
  pose proof (keeps_dpi e (payload plain) He) as Hk. destruct (should_record_dpi e (payload plain)) as [rec e1]. cbn [snd] in Hk.
  destruct (keeps_slot _ _ _ _ Hk Hh) as (h1 & Hh1 & _). unfold session_at, Slab_get. rewrite Hh1. cbn [mbind result_bind].
  apply (yields_keeps _ _ _ Hk). destruct (bytes_eqb plain (b_ "READY")).
  { eapply yields_bind; [apply (send_spec e1 s t slot h1 _ Bulk); [apply Hk|done|done|]|].
    - split; [apply (bool_decide_unpack _); vm_compute; exact I|vm_compute; congruence].
    - intros [[sent e2] s2] [Hk2 Hs2]. by apply yields_ret. }
  destruct (is_idle_keepalive plain); [apply yields_same; [apply Hk|done]|].
  destruct (is_control_payload plain); [apply yields_ret; split; [apply keeps_emit, Hk|done]|].
  apply ingress_spec; [apply Hk|done|done|done].
Qed.

(** Where a packet for the session in a slot may arrive: where it is known, or
    at an address of which no session is known. *)
Definition arrives (e : Engine) (h : HotSession) (local_ip : option IpAddr) : Prop :=
  hs_local_ip h = local_ip \/ e_by_peer e !! (hs_peer h, local_ip) = None.

Lemma follow_spec e s slot h h' local_ip :
  engine_ok e -> sink_wf s -> sl_map (e_sessions e) !! slot = Some h -> endpoint_of h' = endpoint_of h -> who h' = who h ->
  hs_desired_stream_count h' = hs_desired_stream_count h -> arrives e h local_ip ->
  let '(e', s') := follow_local_ip e s slot h' local_ip in
  keeps e e' /\ sink_wf s' /\ exists h'', sl_map (e_sessions e') !! slot = Some h''.
Proof.
  intros He Hs Hh Hep Hw Hd Ha. unfold follow_local_ip. assert (Hkp : keeps e (put_session e slot h')) by (by apply (keeps_put e slot h)).
  destruct (bool_decide _ && _) eqn:Em.
  2: { split; [done|]. split; [done|]. exists h'. cbn. apply lookup_insert_eq. }
  bool_prop. split; [|split; [exact (router_send_law _ _ Hs (so_endpoint _ _ (eo_shards e He) _))|eexists; cbn; apply lookup_insert_eq]].
  destruct Hkp as [[Hix Hse Hb Hsh Hshard] Hwho Hdl Hc]. pose proof Hep as [= Hp1 Hp2].
  destruct Ha as [Ha|Ha]; [rewrite <- Hp2 in Ha; congruence|].
  split; [split; try done| |done|done].
  - change (index_ok (<[slot := set_hs_local_ip h' local_ip]> (sl_map (e_sessions e)))
      (<[endpoint_of (set_hs_local_ip h' local_ip) := slot]> (delete (endpoint_of h') (e_by_peer e))) (e_by_id e) (e_routes e)).
    unfold who in Hw. rewrite Hep. apply (index_rebind _ _ _ _ (eo_index e He) slot h); try done; cbn; [|congruence..].
    unfold endpoint_of. cbn. by rewrite Hp1.
  - intros k x Hx. cbn in Hx. apply lookup_insert_Some in Hx as [[<- <-]|[Hne Hx]].
    + apply (Hse slot h'). cbn. apply lookup_insert_eq.
    + apply (Hse k x). cbn. by rewrite lookup_insert_ne.
  - cbn in *. rewrite fmap_insert in *. exact Hwho.
Qed.

Lemma process_spec e s t slot h local_ip d plain :
  engine_ok e -> sink_wf s -> sl_map (e_sessions e) !! slot = Some h -> packet_ok plain -> arrives e h local_ip ->
  yields (process_existing e s t slot local_ip d plain) (fun '(e', s') => keeps e e' /\ sink_wf s').
Proof.
  intros He Hs Hh Hp Ha. unfold process_existing, session_at, Slab_get. rewrite Hh. cbn [mbind result_bind].
  destruct (ReplayState_accept _ _) as [accepted replay]. destruct accepted; cbn [negb].
  - pose proof (follow_spec e s slot h (set_hs_last_inbound_ms (set_hs_replay h replay) (now_ms e)) local_ip He Hs Hh eq_refl eq_refl eq_refl Ha) as Hf.
    destruct (follow_local_ip _ _ _ _ _) as [e1 s1]. destruct Hf as (Hk & Hs1 & h1 & Hh1).
    apply (yields_keeps _ _ _ Hk). apply (accepted_spec e1 s1 t slot h1); [apply Hk|done|done|done].
  - apply yields_ret. split; [|done]. by apply (keeps_put e slot h).
Qed.

Lemma ok_touch e device : engine_ok e -> keeps e (touch_epoch e device).
Proof. intros He. unfold touch_epoch. destruct (_ !! _); [|by apply keeps_refl]. split; try done. by apply ok_epochs. Qed.
Lemma touch_by_peer e device : e_by_peer (touch_epoch e device) = e_by_peer e /\ sl_map (e_sessions (touch_epoch e device)) = sl_map (e_sessions e).
Proof. unfold touch_epoch. by destruct (_ !! _). Qed.

Lemma opened_slice {E} wire r : opened_ok wire r -> len wire <= ISIZE_MAX ->
  exists plain, @slice E _ r.1 (dp_start r.2) (dp_end r.2) = Ok plain /\ packet_ok plain.
Proof.
  intros (Hwf & Hl & H0 & H1 & H2) Hlen. rewrite slice_ok by lia. eexists. split; [done|]. split; [by apply wf_sub|].
  rewrite len_sub by lia. lia.
Qed.
Lemma yields_step e (r : opt (Engine * Sk)) :
  yields r (fun '(e', s') => keeps e e' /\ sink_wf s') -> yields r (fun '(e', s') => engine_step e e' /\ sink_wf s').
Proof. intros Hr. eapply yields_impl; [exact Hr|]. intros [e' s'] [Hk Hs]. split; [by apply keeps_step|done]. Qed.

(** The end of [handle_existing] and of [handle_unknown_legacy]. *)
Lemma create_and_place e s t peer local_ip password key pt is_srtp device generation salt seq payload :
  engine_ok e -> sink_wf s -> sh_session_counter (e_shared e) < U64_MAX ->
  let '(slot, e1) := create_legacy_session e t peer local_ip password key pt is_srtp device generation salt seq in
  let '(e2, s2) := place_new_session e1 s slot payload in engine_step e e2 /\ sink_wf s2.
Proof.
  intros He Hs Hc. pose proof (create_spec e t peer local_ip password key pt is_srtp device generation salt seq He Hc) as Hcr.
  destruct (create_legacy_session _ _ _ _ _ _ _ _ _ _ _ _) as [slot e1]. destruct Hcr as (Hst & h & Hh & Hf & _).
  pose proof (place_spec e1 s slot h payload (proj1 Hst) Hs Hh Hf) as Hp. destruct (place_new_session _ _ _ _) as [e2 s2].
  destruct Hp as [Hst2 Hs2]. split; [by eapply step_trans|done].
Qed.

Lemma existing_spec e s t slot h local_ip packet :
  engine_ok e -> sink_wf s -> sl_map (e_sessions e) !! slot = Some h -> packet_ok packet -> arrives e h local_ip ->
  sh_session_counter (e_shared e) < U64_MAX ->
  yields (handle_existing e s t slot local_ip packet) (fun '(e', s') => engine_step e e' /\ sink_wf s').
Proof.
  intros He Hs Hh [Hwf Hl] Ha Hc. unfold handle_existing, Slab_get. rewrite Hh.
  destruct (unwrap_legacy_safe (hs_key h) packet (Some (hs_is_srtp h)) Hwf) as [Hsafe Hop].
  destruct (unwrap_legacy_in_place _ _ _) as [[opened d]|err|]; cbn [catch mbind result_bind]; [|apply yields_ret; split; [by apply step_refl|done]|by destruct Hsafe].
  destruct (@opened_slice unit _ _ (Hop _ eq_refl) Hl) as (plain & Hsl & Hp). cbn [fst snd] in Hsl. rewrite Hsl. cbn [mbind result_bind].
  destruct (starts_with plain GETCONF); [|by apply yields_step, (process_spec e s t slot h)].
  destruct (parse_getconf_epoch plain) as [[[device generation] salt]|]; [|apply yields_ret; split; [by apply step_refl|done]].
  pose proof (ok_touch e device He) as Hk. destruct (touch_by_peer e device) as [Hbp Hsm].
  set (e1 := touch_epoch e device) in *. destruct (getconf_reconnect_action_hot _ _ _ _ _ _).
  - apply yields_step, (yields_keeps _ _ _ Hk). apply (process_spec e1 s t slot h); [apply Hk|done|by rewrite Hsm|done|].
    unfold arrives. by rewrite Hbp.
  - destruct (ok_remove e1 slot "epoch-replaced" (ke_ok _ _ Hk)) as (Hok2 & _ & Hc2). set (e2 := remove_slot_with_reason _ _ _) in *.
    match goal with |- context [create_legacy_session e2 t ?a ?b ?c ?k ?p ?i ?de ?g ?sa ?q] =>
      pose proof (create_and_place e2 s t a b c k p i de g sa q plain Hok2 Hs) as Hcp end.
    destruct (create_legacy_session _ _ _ _ _ _ _ _ _ _ _ _) as [slot' e3]. destruct (place_new_session _ _ _ _) as [e4 s4].
    pose proof (ke_counter _ _ Hk). destruct Hcp as [[Hok4 Hc4] Hs4]; [lia|]. apply yields_ret. split; [split; [done|lia]|done].
Qed.

Lemma find_credential_spec credentials wire : packet_ok wire ->
  yields (find_credential credentials wire) (fun r => match r with
    | None => True
    | Some (c, d, epoch, plain) => c ∈ credentials /\ packet_ok plain /\ parse_getconf_epoch plain = Some epoch
        /\ exists opened, unwrap_legacy_in_place (cr_key c) wire None = Ok (opened, d) /\ sub opened (dp_start d) (dp_end d) = plain
    end).
Proof.
  intros [Hwf Hl]. induction credentials as [|c credentials IH]; cbn [find_credential]; [by apply yields_ret|].
  assert (Hrec : yields (find_credential credentials wire) (fun r => match r with
    | None => True
    | Some (c', d, epoch, plain) => c' ∈ c :: credentials /\ packet_ok plain /\ parse_getconf_epoch plain = Some epoch
        /\ exists opened, unwrap_legacy_in_place (cr_key c') wire None = Ok (opened, d) /\ sub opened (dp_start d) (dp_end d) = plain
    end)).
  { eapply yields_impl; [exact IH|]. intros [[[[c' d] epoch] plain]|]; [|done]. intros [H1 H2]. split; [set_solver|done]. }
  destruct (unwrap_legacy_safe (cr_key c) wire None Hwf) as [Hsafe Hop].
  destruct (unwrap_legacy_in_place _ _ _) as [[opened d]|err|] eqn:Eu; cbn [catch mbind result_bind]; [|done|by destruct Hsafe].
  destruct (@opened_slice unit _ _ (Hop _ eq_refl) Hl) as (plain & Hsl & Hp). cbn [fst snd] in Hsl. rewrite Hsl. cbn [mbind result_bind].
  destruct (parse_getconf_epoch plain) as [epoch|] eqn:Ep; [|done]. apply yields_ret. split_and!; try done; [set_solver|].
  exists opened. split; [done|]. by apply slice_inv in Hsl as (_ & _ & _ & ->).
Qed.

Lemma step_keeps e e1 e2 : keeps e e1 -> engine_step e1 e2 -> engine_step e e2.
Proof. intros Hk [Hok Hc]. split; [done|]. pose proof (ke_counter _ _ Hk). lia. Qed.

Lemma unknown_spec e s t peer local_ip packet :
  engine_ok e -> sink_wf s -> packet_ok packet -> sh_session_counter (e_shared e) < U64_MAX ->
  yields (handle_unknown_legacy e s t peer local_ip packet) (fun '(e', s') => engine_step e e' /\ sink_wf s').
Proof.
  intros He Hs Hp Hc. unfold handle_unknown_legacy. destruct (_ || _); [apply yields_ret; split; [by apply step_refl|done]|].
  set (e1 := set_e_misc e _). assert (Hk : keeps e e1) by (by apply keeps_misc).
  eapply yields_bind; [by apply find_credential_spec|]. intros [[[[c d] [[device generation] salt]] plain]|].
  2: { intros _. apply yields_ret. split; [|done]. apply keeps_step. eapply keeps_trans; [exact Hk|]. unfold report_unauthenticated_setup.
       destruct (_ && _); [apply keeps_refl, Hk|apply keeps_misc, Hk]. }
  intros (_ & Hpl & _).
  pose proof (create_spec e1 t peer local_ip (cr_password c) (cr_key c) (dp_payload_type d) (dp_is_srtp d) device generation salt (dp_seq d) (ke_ok _ _ Hk) Hc) as Hcr.
  destruct (create_legacy_session _ _ _ _ _ _ _ _ _ _ _ _) as [slot e2]. destruct Hcr as (Hst & h & Hh & Hf & _).
  pose proof (keeps_dpi e2 plain (proj1 Hst)) as Hk2. assert (Hsm : e_sessions (should_record_dpi e2 plain).2 = e_sessions e2).
  { unfold should_record_dpi. destruct (negb (ms_dpi_enabled _)); [done|]. cbv zeta. destruct (negb (is_dpi_control plain) && _); [done|]. by destruct (_ <? 200). }
  destruct (should_record_dpi e2 plain) as [rec e3]. cbn [snd] in *. unfold Slab_get. rewrite Hsm, Hh.
  pose proof (place_spec e3 s slot h plain (ke_ok _ _ Hk2) Hs) as Hpl2. rewrite Hsm in Hpl2. specialize (Hpl2 Hh Hf).
  destruct (place_new_session e3 s slot plain) as [e4 s4]. destruct Hpl2 as [Hst4 Hs4]. apply yields_ret. split; [|done].
  eapply step_keeps; [exact Hk|]. eapply step_trans; [exact Hst|]. by eapply step_keeps.
Qed.

Lemma on_udp_spec e s t peer local_ip packet :
  engine_ok e -> sink_wf s -> packet_ok packet -> sh_session_counter (e_shared e) < U64_MAX ->
  yields (on_udp e s t peer local_ip packet) (fun '(e', s') => engine_step e e' /\ sink_wf s').
Proof.
  intros He Hs Hp Hc. unfold on_udp. pose proof (ix_peer _ _ _ _ (eo_index e He)) as Hix.
  destruct (e_by_peer e !! (peer, local_ip)) as [slot|] eqn:E1.
  { apply Hix in E1 as (h & Hh & [= Hpe Hlo]). apply (existing_spec e s t slot h); try done. by left. }
  destruct (bool_decide (is_Some local_ip)).
  2: { destruct (endpoint_is_migrating _ _ _); [apply yields_ret; split; [by apply step_refl|done]|by apply unknown_spec]. }
  destruct (e_by_peer e !! (peer, None)) as [slot|] eqn:E2.
  - apply Hix in E2 as (h & Hh & [= Hpe Hlo]). apply (existing_spec e s t slot h); try done. right. by rewrite Hpe.
  - destruct (endpoint_is_migrating _ _ _); [apply yields_ret; split; [by apply step_refl|done]|by apply unknown_spec].
Qed.

(** ** Tunnels *)

Lemma by_id_slot e i slot : engine_ok e -> e_by_id e !! i = Some slot -> exists h, sl_map (e_sessions e) !! slot = Some h /\ hs_id h = i.
Proof. intros He. apply (ix_id _ _ _ _ (eo_index e He)). Qed.

Lemma ok_routes e t : engine_ok e -> index_ok (sl_map (e_sessions e)) (e_by_peer e) (e_by_id e) t -> engine_ok (set_e_routes e t).
Proof. intros [? ? ? ? ?] Ht. by split. Qed.

Lemma leave_spec e slot h :
  engine_ok e -> sl_map (e_sessions e) !! slot = Some h ->
  let '(old_ip, e') := leave_tunnel e h in
  engine_ok e' /\ e_sessions e' = e_sessions e /\ e_shared e' = e_shared e /\ unrouted (e_routes e') slot.
Proof.
  intros He Hh. pose proof He as [Hix Hse _ _ _]. destruct (Hse _ _ Hh) as [(_ & _ & Hip) _]. unfold leave_tunnel.
  destruct (hs_tunnel_ip h) as [p|] eqn:Et; [destruct (hs_registration_id h) as [r|] eqn:Er|].
  - split_and!; try done; [by apply ok_routes; [|apply index_unregister; [|apply Hip]]|].
    eapply unrouted_unregister; [exact Hix|done|done|done|by apply Hip].
  - split_and!; try done. eapply unrouted_without; [exact Hix|done|by right].
  - split_and!; try done. eapply unrouted_without; [exact Hix|done|by left].
Qed.
Lemma enter_spec e slot h ip rid wid desired :
  engine_ok e -> sl_map (e_sessions e) !! slot = Some h -> unrouted (e_routes e) slot -> wf_bytes ip -> is_u16 desired ->
  let '(registered, e') := enter_tunnel e slot h (hs_id h) ip rid wid desired in
  engine_ok e' /\ sh_session_counter (e_shared e') = sh_session_counter (e_shared e).
Proof.
  intros He Hh Hun Hip Hd. pose proof He as [Hix Hse ? ? ?]. destruct (Hse _ _ Hh) as [(Hid & _ & _) Hlt]. unfold enter_tunnel.
  destruct (RouteTable_register _ _ _ _ _ _) as [registered routes] eqn:Er. destruct registered; (split; [|done]).
  - apply ok_dirty, ok_on_public; [|done]. split; cbn; try done.
    + pose proof (index_retunnel _ _ _ _ Hix slot h (set_hs_tunnel h ip rid desired) Hh eq_refl eq_refl Hun) as Hm.
      pose proof (index_register _ _ _ _ Hm slot (set_hs_tunnel h ip rid desired) ip rid wid (lookup_insert_eq _ _ _) eq_refl eq_refl Hip) as Hr.
      cbn [hs_id set_hs_tunnel] in Hr. by rewrite Er in Hr.
    + apply map_Forall_insert_2; [|done]. split; [|done]. split_and!; [done|done|]. by intros ? [= <-].
  - apply ok_routes; [done|]. unfold RouteTable_register in Er. destruct (route_index ip); [done|]. by injection Er as <-.
Qed.

Lemma activate_spec e s i ip rid wid desired :
  engine_ok e -> sink_wf s -> wf_bytes ip -> is_u16 desired ->
  yields (activate_tunnel e s i ip rid wid desired) (fun '(_, e', s') => engine_step e e' /\ sink_wf s').
Proof.
  intros He Hs Hip Hd. unfold activate_tunnel. destruct (e_by_id e !! i) as [slot|] eqn:Ei; [|apply yields_ret; split; [by apply step_refl|done]].
  destruct (by_id_slot e i slot He Ei) as (h & Hh & <-). unfold session_at, Slab_get. rewrite Hh. cbn [mbind result_bind].
  pose proof (leave_spec e slot h He Hh) as Hl. destruct (leave_tunnel e h) as [old_ip e1]. destruct Hl as (Hok1 & Hs1 & Hsh1 & Hun).
  rewrite <- Hs1 in Hh. pose proof (enter_spec e1 slot h ip rid wid desired Hok1 Hh Hun Hip Hd) as He2.
  destruct (enter_tunnel _ _ _ _ _ _ _ _) as [registered e2]. destruct He2 as [Hok2 Hc2].
  set (e3 := match old_ip with Some o => sync_downlink_profile e2 o | None => e2 end).
  assert (Hok3 : engine_ok e3 /\ sh_session_counter (e_shared e3) = sh_session_counter (e_shared e)).
  { rewrite <- Hsh1. unfold e3. destruct old_ip as [o|]; [|done]. split; [by apply ok_sync|]. destruct (sync_fields e2 o) as (_ & -> & _). done. }
  destruct Hok3 as [Hok3 Hc3]. destruct (sync_fields e3 ip) as (_ & Hsy & _).
  destruct registered; apply yields_ret; (split; [split|]); try done; [by apply ok_sync|rewrite Hsy; lia|apply router_send_law; [done|apply (eo_shards _ Hok3)]|lia].
Qed.

Lemma update_epoch_spec e i device generation salt :
  engine_ok e -> yields (update_epoch e i device generation salt) (fun e' => engine_step e e').
Proof.
  intros He. unfold update_epoch. destruct (e_by_id e !! i) as [slot|] eqn:Ei; [|apply yields_ret; by apply step_refl].
  destruct (by_id_slot e i slot He Ei) as (h & Hh & <-). unfold session_at, Slab_get. rewrite Hh. cbn [mbind result_bind].
  apply yields_ret. set (e1 := on_public _ _ _).
  assert (Hok1 : engine_ok e1).
  { apply ok_on_public; [|done]. eapply ok_put; [done|done|by split_and!|]. by destruct (eo_sessions e He _ _ Hh) as [(_ & ? & _) _]. }
  split; [apply ok_dirty|].
  - destruct (if _ || _ || _ then _ else None) as [ip|]; [|done]. destruct (tunnel_key ip) as [key|]; [|done].
    pose proof (eo_buffers _ Hok1) as [Hq Hh' _ _ _].
    destruct (queue_apply_wf _ (QClear key) Hq I) as (q' & [= <-] & Hq'). apply ok_downlink; [done|done|]. by apply clear_holds.
  - destruct (if _ || _ || _ then _ else None) as [ip|]; [destruct (tunnel_key ip)|]; cbn; lia.
Qed.

(** ** The downlink *)

Lemma send_down_endpoint_spec e s t ep packet class :
  engine_ok e -> sink_wf s -> packet_ok packet ->
  yields (send_down_endpoint e s t ep packet class) (fun '(_, e', s') => keeps e e' /\ sink_wf s').
Proof.
  intros He Hs Hp. unfold send_down_endpoint, Slab_get. destruct (sl_map (e_sessions e) !! re_slot ep) as [h|] eqn:Eh.
  2: { apply yields_ret. split; [by apply keeps_refl|done]. }
  destruct (_ || _); [apply yields_ret; split; [by apply keeps_refl|done]|].
  pose proof (keeps_dpi e (payload packet) He) as Hk. assert (Hsm : e_sessions (should_record_dpi e (payload packet)).2 = e_sessions e).
  { unfold should_record_dpi. destruct (negb (ms_dpi_enabled _)); [done|]. cbv zeta. destruct (negb (is_dpi_control _) && _); [done|]. by destruct (_ <? 200). }
  destruct (should_record_dpi e (payload packet)) as [rec e1]. cbn [snd] in *. rewrite <- Hsm in Eh.
  assert (Hout : packet_ok (if hs_data_frames h then packet else payload packet)) by (destruct (hs_data_frames h); [done|by apply payload_ok]).
  eapply yields_bind; [exact (send_spec e1 s t (re_slot ep) h _ class (ke_ok _ _ Hk) Hs Eh Hout)|].
  intros [[sent e2] s2] [Hk2 Hs2]. pose proof (keeps_trans _ _ _ Hk Hk2) as Hk02. destruct sent; [|by apply yields_ret].
  destruct (keeps_slot _ _ _ _ Hk2 Eh) as (h2 & Hh2 & _). unfold session_at, Slab_get. rewrite Hh2. cbn [mbind result_bind].
  apply yields_ret. split; [|done]. eapply keeps_trans; [exact Hk02|]. by apply (keeps_put e2 (re_slot ep) h2); [apply Hk2|..].
Qed.

Lemma send_down_window_spec e s t key sel packet class offset rest :
  engine_ok e -> sink_wf s -> packet_ok packet ->
  yields (send_down_window e s t key sel packet class offset rest) (fun '(_, e', s') => keeps e e' /\ sink_wf s').
Proof.
  intros He Hs Hp. revert e s offset He Hs. induction rest as [|rest IH]; intros e s offset He Hs; cbn [send_down_window].
  { apply yields_ret. split; [by apply keeps_refl|done]. }
  destruct (RouteTable_endpoint_at _ _ _ _) as [ep|]; [|apply yields_ret; split; [by apply keeps_refl|done]].
  eapply yields_bind; [by apply send_down_endpoint_spec|]. intros [[result e1] s1] [Hk Hs1]. destruct result; [by apply yields_ret| |by apply yields_ret].
  eapply yields_impl; [apply IH; [apply Hk|done]|]. intros [[r e2] s2] [Hk2 Hs2]. split; [by eapply keeps_trans|done].
Qed.

Lemma send_down_key_spec e s t key packet class :
  engine_ok e -> sink_wf s -> packet_ok packet -> 0 <= key < 256 ->
  yields (send_down_key e s t key packet class) (fun '(_, e', s') => keeps e e' /\ sink_wf s').
Proof.
  intros He Hs Hp Hk. unfold send_down_key. pose proof (index_select _ _ _ _ (eo_index e He) key class Hk) as Hix.
  destruct (select_key_window (e_routes e) key class) as [sel routes]. cbn [snd] in Hix.
  assert (Hk1 : keeps e (set_e_routes e routes)) by (split; try done; by apply ok_routes).
  destruct sel as [sel|]; [|by apply yields_ret].
  eapply yields_impl; [apply send_down_window_spec; [apply Hk1|done|done]|]. intros [[r e2] s2] [Hk2 Hs2]. split; [by eapply keeps_trans|done].
Qed.

(** What [drain_downlink] does to the engine: packets leave the queues. *)
Record drains (e e' : Engine) : Prop := {
  dr_ok : engine_ok e';
  dr_who : who <$> sl_map (e_sessions e') = who <$> sl_map (e_sessions e);
  dr_counter : sh_session_counter (e_shared e') = sh_session_counter (e_shared e);
}.
Lemma drains_refl e : engine_ok e -> drains e e.
Proof. by split. Qed.
Lemma drains_trans e e' e'' : drains e e' -> drains e' e'' -> drains e e''.
Proof. intros [? ? ?] [? ? ?]. split; congruence. Qed.
Lemma drains_step e e' : drains e e' -> engine_step e e'.
Proof. intros [? ? ?]. split; [done|lia]. Qed.

(** Sending neither reads nor writes the queue. *)
Definition on_queue {A : Type} (q : DownlinkQueue) (r : opt (A * Engine * Sk)) : opt (A * Engine * Sk) :=
  '(a, e, s) ← r; Ok (a, set_e_downlink e q, s).
Lemma on_queue_bind {A B : Type} q (r : opt (A * Engine * Sk)) (k : A * Engine * Sk -> opt (B * Engine * Sk)) :
  (forall a e s, k (a, set_e_downlink e q, s) = on_queue q (k (a, e, s))) -> (on_queue q r ≫= k) = on_queue q (r ≫= k).
Proof. intros Hk. destruct r as [[[a e] s]| |]; [apply Hk|done..]. Qed.
Lemma dpi_frame e q plain : should_record_dpi (set_e_downlink e q) plain
  = ((should_record_dpi e plain).1, set_e_downlink (should_record_dpi e plain).2 q).
Proof.
  unfold should_record_dpi. cbn [e_misc set_e_downlink]. change (now_ms (set_e_downlink e q)) with (now_ms e).
  destruct (negb (ms_dpi_enabled _)); [done|]. cbv zeta. destruct (negb (is_dpi_control plain) && _); [done|]. by destruct (_ <? 200).
Qed.
Lemma send_frame e q s t slot h plain class :
  send_legacy_plain (set_e_downlink e q) s t slot h plain class = on_queue q (send_legacy_plain e s t slot h plain class).
Proof.
  unfold send_legacy_plain. destruct (if bool_decide _ then _ else _) as [[duplicate h']| |]; [|done..]. cbn [mbind result_bind].
  change (e_misc (set_e_downlink e q)) with (e_misc e).
  destruct (send_udp_with_duplicate_priority _ _ _ _ _ _ _) as [[[sent s'] [output rng]]| |]; done.
Qed.
Lemma send_down_endpoint_frame e q s t ep packet class :
  send_down_endpoint (set_e_downlink e q) s t ep packet class = on_queue q (send_down_endpoint e s t ep packet class).
Proof.
  unfold send_down_endpoint. change (e_sessions (set_e_downlink e q)) with (e_sessions e). destruct (Slab_get _ _) as [h|]; [|done].
  destruct (_ || _); [done|]. rewrite dpi_frame. destruct (should_record_dpi e _) as [rec e1]. cbn [fst snd]. rewrite send_frame.
  apply on_queue_bind. intros [|] e2 s2; [|done]. unfold session_at. cbn [e_sessions set_e_downlink]. by destruct (Slab_get (e_sessions e2) _).
Qed.
Lemma send_down_window_frame e q s t key sel packet class offset rest :
  send_down_window (set_e_downlink e q) s t key sel packet class offset rest = on_queue q (send_down_window e s t key sel packet class offset rest).
Proof.
  revert e s offset. induction rest as [|rest IH]; intros e s offset; cbn [send_down_window]; [done|].
  change (e_routes (set_e_downlink e q)) with (e_routes e). destruct (RouteTable_endpoint_at _ _ _ _); [|done].
  rewrite send_down_endpoint_frame. apply on_queue_bind. intros [| |] e2 s2; [done|apply IH|done].
Qed.
Lemma send_down_key_frame e q s t key packet class :
  send_down_key (set_e_downlink e q) s t key packet class = on_queue q (send_down_key e s t key packet class).
Proof.
  unfold send_down_key. change (e_routes (set_e_downlink e q)) with (e_routes e). destruct (select_key_window _ _ _) as [[sel|] routes]; [|done].
  apply (send_down_window_frame (set_e_routes e routes) q).
Qed.
Lemma downlink_set_set e q q' : set_e_downlink (set_e_downlink e q) q' = set_e_downlink e q'.
Proof. done. Qed.

Lemma drain_class_spec remaining e s t class :
  engine_ok e -> sink_wf s ->
  yields (drain_class remaining e s t class) (fun '(_, _, e', s') => drains e e' /\ sink_wf s').
Proof.
  revert e s. induction remaining as [|rest IH]; intros e s He Hs; cbn [drain_class].
  { apply yields_ret. split; [by apply drains_refl|done]. }
  destruct (negb (has_udp_tx_slot s)); [apply yields_ret; split; [by apply drains_refl|done]|].
  pose proof (eo_buffers e He) as [Hq Hh _ _ _]. destruct (dequeue_holds waits_for (e_downlink e) class Hq Hh) as (got & q & -> & Hg). cbn [mbind result_bind].
  destruct got as [[key packet]|].
  2: { destruct Hg as [Hq' Hh']. apply yields_ret. split; [|done]. split; try done. by apply ok_downlink. }
  destruct Hg as (Hkey & Hbuf & [Hp _] & Hq1 & Hh1 & Hq2 & Hh2). rewrite as_slice_ok by done. cbn [mbind result_bind].
  rewrite send_down_key_frame. destruct (send_down_key_spec e s t key (buf_bytes packet) class He Hs Hp Hkey) as ([[result e1] s1] & -> & Hk & Hs1).
  cbn [on_queue mbind result_bind]. change (e_downlink (set_e_downlink e1 q)) with q. rewrite !downlink_set_set.
  assert (Hgo : forall q', queue_wf q' -> queue_holds waits_for q' -> drains e (set_e_downlink e1 q')).
  { intros q' Hq' Hh'. destruct Hk as [Hok Hw Hd Hc]. split; try done. by apply ok_downlink. }
  destruct result; [| |by apply yields_ret; split; [apply Hgo|]];
    (eapply yields_impl; [apply IH; [by apply Hgo|done]|]; intros [[[ret rem] e2] s2] [Hd2 Hs2]; split; [|done];
     eapply drains_trans; [|exact Hd2]; by apply Hgo).
Qed.

Lemma drain_spec e s t : engine_ok e -> sink_wf s -> yields (drain_downlink e s t) (fun '(e', s') => drains e e' /\ sink_wf s').
Proof.
  unfold drain_downlink. generalize [Small; Medium; Bulk] (Z.to_nat DOWNLINK_DRAIN_PACKET_LIMIT). intros classes.
  revert e s. induction classes as [|class classes IH]; intros e s n He Hs; cbn [drain_classes].
  { apply yields_ret. split; [by apply drains_refl|done]. }
  eapply yields_bind; [by apply drain_class_spec|]. intros [[[ret rem] e1] s1] [Hd Hs1]. destruct ret; [by apply yields_ret|].
  eapply yields_impl; [apply IH; [apply Hd|done]|]. intros [e2 s2] [Hd2 Hs2]. split; [by eapply drains_trans|done].
Qed.

Lemma packet_key_total {E} packet : wf_bytes packet -> exists k, @packet_key E packet = Ok k /\ forall key, k = Some key -> 0 <= key < 256.
Proof.
  intros Hwf. unfold packet_key, extract_dst_ipv4. destruct (len packet <? 20) eqn:El; bool_prop; [by eexists|].
  destruct (@at_ok E _ packet 0 ltac:(lia)) as (b0 & -> & _). cbn [mbind result_bind]. destruct (negb _); [by eexists|].
  destruct (@at_ok E _ packet 16 ltac:(lia)) as (b1 & H1 & _). destruct (@at_ok E _ packet 17 ltac:(lia)) as (b2 & H2 & _).
  destruct (@at_ok E _ packet 18 ltac:(lia)) as (b3 & H3 & _). destruct (@at_ok E _ packet 19 ltac:(lia)) as (b4 & H4 & _).
  rewrite H1, H2, H3, H4. cbn [mbind result_bind mret result_ret]. eexists. split; [done|]. intros key Hk.
  eapply route_index_byte; [|exact Hk]. repeat constructor; eapply at_byte; eauto.
Qed.

Lemma packet_key_destination {E} packet : wf_bytes packet ->
  @packet_key E packet = Ok (match destination packet with Some ip => route_index ip | None => None end).
Proof.
  intros Hwf. unfold packet_key, extract_dst_ipv4, destination. destruct packet as [|b0 packet]; [done|]. set (p := b0 :: packet) in *.
  destruct (len p <? 20) eqn:El; bool_prop; [by replace (20 <=? len p) with false by lia|]. replace (20 <=? len p) with true by lia.
  assert (forall i, 0 <= i < 20 -> exists b, @at_ E _ p i = Ok b /\ p !! Z.to_nat i = Some b) as Hat by (intros i Hi; apply at_ok; lia).
  destruct (Hat 0 ltac:(lia)) as (x & -> & Hx). injection Hx as <-. cbn [mbind result_bind]. rewrite Z.shiftr_div_pow2 by lia. change (2 ^ 4) with 16.
  destruct (b0 / 16 =? 4); cbn [negb andb]; [|done].
  destruct (Hat 16 ltac:(lia)) as (b1 & -> & H1). destruct (Hat 17 ltac:(lia)) as (b2 & -> & H2).
  destruct (Hat 18 ltac:(lia)) as (b3 & -> & H3). destruct (Hat 19 ltac:(lia)) as (b4 & -> & H4). cbn [mbind result_bind mret result_ret].
  unfold sub. change (Z.to_nat (20 - 16)) with 4%nat. change (Z.to_nat 16) with 16%nat in *. change (Z.to_nat 17) with 17%nat in *. change (Z.to_nat 18) with 18%nat in *. change (Z.to_nat 19) with 19%nat in *.
  by rewrite (drop_S p b1 16 H1), (drop_S p b2 17 H2), (drop_S p b3 18 H3), (drop_S p b4 19 H4).
Qed.
Lemma route_index_address ip key : route_index ip = Some key -> ip = [10; 66; 67; key].
Proof.
  unfold route_index. destruct ip as [|a [|b [|c [|d [|]]]]]; try done. destruct (bytes_eqb _ _) eqn:E; [|done]. intros [= <-]. apply bool_decide_eq_true in E. by injection E as -> -> ->.
Qed.
(** A packet read from the TUN device joins the queue of the client it is bound for, or no queue. *)
Definition joins (q q' : DownlinkQueue) (packet : bytes) : Prop :=
  exists added : Z -> PacketClass -> list bytes, forall key class, 0 <= key ->
    Downlink.contents q' key class = Downlink.contents q key class ++ added key class
    /\ (added key class <> [] -> destination packet = Some [10; 66; 67; key] /\ exists wire, added key class = [wire] /\ carries wire packet).
Lemma joins_nothing q packet : joins q q packet.
Proof. exists (fun _ _ => []). intros key class _. by rewrite app_nil_r. Qed.
Lemma enqueue_joins q key class header packet : queue_wf q -> queue_holds waits_for q -> 0 <= key -> packet_ok (enqueue_wire header packet) -> destination packet = Some [10; 66; 67; key] ->
  exists b q', enqueue_any q key class header packet = Ok (b, q') /\ queue_wf q' /\ queue_holds waits_for q' /\ joins q q' packet.
Proof.
  intros Hq Hh Hk Hp Hd.
  assert (Hc : carries (enqueue_wire header packet) packet) by (destruct header as [h|]; [right; by exists h|by left]).
  destruct (enqueue_holds waits_for q key class header packet Hq Hh Hk) as (b & q' & He & Hq' & Hh'); [split; [done|by exists packet]|].
  exists b, q'. split_and!; [done|done|done|].
  assert (exists b' : bool, forall k c, 0 <= k -> Downlink.contents q' k c = Downlink.contents q k c ++ (if b' && bool_decide (k = key /\ c = class) then [enqueue_wire header packet] else [])) as (b' & Hcont).
  { destruct header as [h|]; cbn [enqueue_any enqueue_wire] in *.
    - destruct (downlink_enqueue_fifo q key class h packet true Hq Hk) as (b' & q2 & E & H & _). cbn in E. rewrite He in E. injection E as _ <-. by exists b'.
    - destruct (downlink_enqueue_fifo q key class (mkFrameHeader 0 0 0) packet false Hq Hk) as (b' & q2 & E & H & _). cbn in E. rewrite He in E. injection E as _ <-. by exists b'. }
  exists (fun k c => if b' && bool_decide (k = key /\ c = class) then [enqueue_wire header packet] else []). intros k c Hk0. split; [by apply Hcont|].
  destruct b'; cbn [andb]; [|done]. case_bool_decide as E; [|done]. destruct E as [-> _]. intros _. split; [done|]. by eexists.
Qed.
Lemma tun_joins e packet : engine_ok e -> packet_ok packet -> len packet <= 65535 ->
  yields (handle_tun_packet e packet) (fun e' => drains e e' /\ joins (e_downlink e) (e_downlink e') packet).
Proof.
  intros He Hp Hl. unfold handle_tun_packet. destruct (@packet_key_total unit packet (proj1 Hp)) as (k & Ek & Hk). rewrite Ek. cbn [mbind result_bind].
  destruct k as [key|]; [|apply yields_ret; split; [by apply drains_refl|apply joins_nothing]]. specialize (Hk key eq_refl).
  assert (Hd : destination packet = Some [10; 66; 67; key]).
  { rewrite packet_key_destination in Ek by apply Hp. destruct (destination packet) as [ip|]; [|done]. injection Ek as Ek. by rewrite (route_index_address _ _ Ek). }
  destruct (classification_total packet (proj1 Hp) (proj2 Hp)) as [[class ->] _]. cbn [mbind result_bind].
  pose proof (eo_buffers e He) as [Hq Hh _ _ _].
  assert (Hput : forall q sq, queue_wf q -> queue_holds waits_for q -> drains e (set_e_downlink (set_e_sequences e sq) q)).
  { intros q sq Hq' Hh'. split; try done. apply ok_downlink; [by apply ok_sequences|done|done]. }
  assert (Hf : forall h, packet_ok (frame_bytes h ++ packet)).
  { intros h. split; [apply Forall_app_2; [|apply Hp]|].
    - unfold frame_bytes. rewrite !Forall_app. split_and!; try apply wf_be_bytes. apply (bool_decide_unpack _); vm_compute; exact I.
    - rewrite len_app, len_frame_bytes. unfold FRAME_LEN, ISIZE_MAX. lia. }
  unfold FlowSequencer_next. pose proof (tcp_flow_id_cases packet) as Ht. destruct (tcp_flow_id packet) as [flow|err|]; [| |done].
  - match goal with |- context [DownlinkQueue_enqueue_framed _ _ _ ?h _] =>
      destruct (enqueue_joins (e_downlink e) key class (Some h) packet Hq Hh ltac:(lia) (Hf h) Hd) as (b & q & Heq & Hq' & Hh' & Hj) end.
    cbn [enqueue_any] in Heq. cbv zeta. rewrite Heq. cbn [mbind result_bind]. apply yields_ret. split; [by apply Hput|done].
  - destruct (enqueue_joins (e_downlink e) key class None packet Hq Hh ltac:(lia) Hp Hd) as (b & q & Heq & Hq' & Hh' & Hj).
    cbn [enqueue_any] in Heq. rewrite Heq. cbn [mbind result_bind]. apply yields_ret. split; [by apply Hput|done].
Qed.
Lemma tun_spec e packet : engine_ok e -> packet_ok packet -> len packet <= 65535 -> yields (handle_tun_packet e packet) (fun e' => drains e e').
Proof. intros He Hp Hl. eapply yields_impl; [by apply tun_joins|]. by intros e' [H _]. Qed.

(** ** Streams *)

Lemma stream_control_spec e s t carriers payload sent :
  engine_ok e -> sink_wf s -> packet_ok payload ->
  yields (send_stream_control e s t carriers payload sent) (fun '(_, e', s') => keeps e e' /\ sink_wf s').
Proof.
  intros He Hs Hp. revert e s sent He Hs. induction carriers as [|slot carriers IH]; intros e s sent He Hs; cbn [send_stream_control].
  { apply yields_ret. split; [by apply keeps_refl|done]. }
  destruct (_ <=? sent); [apply yields_ret; split; [by apply keeps_refl|done]|]. unfold Slab_get.
  destruct (sl_map (e_sessions e) !! slot) as [h|] eqn:Eh; [|by apply IH].
  eapply yields_bind; [exact (send_spec e s t slot h payload Bulk He Hs Eh Hp)|]. intros [[ok e1] s1] [Hk Hs1].
  eapply yields_impl; [apply IH; [apply Hk|done]|]. intros [[n e2] s2] [Hk2 Hs2]. split; [by eapply keeps_trans|done].
Qed.

Lemma perform_spec e s t actions :
  engine_ok e -> sink_wf s -> Forall (fun a => control_payload_ok (sa_payload a)) actions ->
  yields (perform_actions e s t actions) (fun '(e', s') => keeps e e' /\ sink_wf s').
Proof.
  intros He Hs Ha. revert e s He Hs. induction Ha as [|a actions [Hw Hl] _ IH]; intros e s He Hs; cbn [perform_actions]; [by apply yields_same|].
  eapply yields_bind; [apply stream_control_spec; [done|done|split; [done|unfold ISIZE_MAX; lia]]|]. intros [[n e1] s1] [Hk Hs1].
  assert (Hk2 : keeps e (match sa_repair a with Some (sq, missing) => (emit e1 (StreamRepair sq missing (len (sa_carriers a)) n)).2 | None => e1 end)).
  { destruct (sa_repair a) as [[sq missing]|]; [|done]. eapply keeps_trans; [exact Hk|]. apply keeps_emit, Hk. }
  apply (yields_keeps _ _ _ Hk2). apply IH; [apply Hk2|done].
Qed.

Lemma stream_sessions_wf e : engine_ok e -> Forall wf_session ((fun kh => (kh.1, stream_session e kh.2)) <$> Slab_iter (e_sessions e)).
Proof.
  intros He. apply Forall_fmap, Forall_forall. intros [slot h] Hin%elem_of_Slab_iter. destruct (eo_sessions e He _ _ Hin) as [(H1 & H2 & _) _].
  unfold wf_session. cbn. split_and!; try done. unfold worker_id_of. destruct (sh_public _ !! _) as [p|] eqn:Ep; [by apply (so_workers _ (eo_shared e He) _ _ Ep)|].
  unfold U64_MAX. lia.
Qed.

Lemma reconcile_spec e s t : engine_ok e -> sink_wf s -> yields (engine_reconcile e s t) (fun '(e', s') => keeps e e' /\ sink_wf s').
Proof.
  intros He Hs. unfold engine_reconcile. pose proof (eo_buffers e He) as [Hq Hh Hr Hf Hi].
  destruct (@reconcile_streams_total unit (e_streams e) _ Hi (stream_sessions_wf e He)) as (actions & r & -> & Hi' & _ & Ha). cbn [mbind result_bind].
  assert (Hk : keeps e (set_e_streams e r)) by (pose proof He as [? ? ? ? ?]; split; try done; split; try done; by split).
  apply (yields_keeps _ _ _ Hk). by apply perform_spec; [apply Hk|..].
Qed.

(** ** Removing many sessions *)

Lemma elem_of_stale_by e p k : k ∈ stale_by e p <-> exists h, sl_map (e_sessions e) !! k = Some h /\ p h = true.
Proof.
  unfold stale_by. rewrite list_elem_of_fmap. split.
  - intros ([k' h] & -> & [Hp Hin]%list_elem_of_filter). apply elem_of_Slab_iter in Hin. by exists h.
  - intros (h & Hh & Hp). exists (k, h). split; [done|]. apply list_elem_of_filter. split; [done|]. by apply elem_of_Slab_iter.
Qed.

(** [f] removes the slot it is given, for whatever reason. *)
Lemma removals_spec (f : Engine -> Z -> string) stale e :
  engine_ok e ->
  let e' := foldl (fun e slot => remove_slot_with_reason e slot (f e slot)) e stale in
  engine_ok e' /\ sh_session_counter (e_shared e') = sh_session_counter (e_shared e)
  /\ forall k, sl_map (e_sessions e') !! k = if decide (k ∈ stale) then None else sl_map (e_sessions e) !! k.
Proof.
  revert e. induction stale as [|slot stale IH]; intros e He; cbn [foldl].
  { by split_and!. }
  destruct (ok_remove e slot (f e slot) He) as (Hok & Hs & Hc). destruct (IH _ Hok) as (Hok2 & Hc2 & Hk2). split_and!; [done|lia|].
  intros k. rewrite Hk2, Hs. destruct (decide (k ∈ stale)) as [Hin|Hin].
  - by rewrite decide_True by set_solver.
  - destruct (decide (k = slot)) as [->|Hne].
    + rewrite lookup_delete_eq. by rewrite decide_True by set_solver.
    + rewrite lookup_delete_ne by done. by rewrite decide_False by set_solver.
Qed.
Lemma remove_slots_spec stale reason e :
  engine_ok e ->
  engine_ok (remove_slots e stale reason) /\ sh_session_counter (e_shared (remove_slots e stale reason)) = sh_session_counter (e_shared e)
  /\ forall k, sl_map (e_sessions (remove_slots e stale reason)) !! k = if decide (k ∈ stale) then None else sl_map (e_sessions e) !! k.
Proof.
  intros He. destruct (removals_spec (fun _ _ => reason) (reverse stale) e He) as (H1 & H2 & H3). split_and!; [done|done|].
  intros k. unfold remove_slots. rewrite H3. by rewrite (decide_ext _ _ _ _ (elem_of_reverse k stale)).
Qed.
(** What is left after a removal by a predicate: the sessions it spares. *)
Lemma remove_by_spec p reason e : engine_ok e ->
  let e' := remove_slots e (stale_by e p) reason in
  engine_ok e' /\ sh_session_counter (e_shared e') = sh_session_counter (e_shared e)
  /\ sl_map (e_sessions e') = filter (fun kh => p kh.2 = false) (sl_map (e_sessions e)).
Proof.
  intros He. destruct (remove_slots_spec (stale_by e p) reason e He) as (H1 & H2 & H3). split_and!; [done|done|].
  apply map_eq. intros k. rewrite H3, map_lookup_filter. destruct (sl_map (e_sessions e) !! k) as [h|] eqn:Eh; cbn.
  - destruct (decide (k ∈ stale_by e p)) as [Hin|Hin].
    + apply elem_of_stale_by in Hin as (h' & Hh' & Hp). assert (h' = h) as -> by congruence. rewrite Hp. by case_guard.
    + case_guard as Hg; [done|]. exfalso. apply Hin, elem_of_stale_by. exists h. split; [done|]. by destruct (p h).
  - by case_decide.
Qed.

(** ** Compaction *)

Lemma compact_spec e force : engine_ok e ->
  engine_step e (compact_memory e force)
  /\ (forall h, (exists s, sl_map (e_sessions (compact_memory e force)) !! s = Some h) <-> exists s, sl_map (e_sessions e) !! s = Some h)
  /\ e_downlink (compact_memory e force) = e_downlink e.
Proof.
  intros He. unfold compact_memory. destruct (negb force && _); [split; [split; [by apply ok_misc|cbn; lia]|done]|].
  pose proof (ok_dirty e He) as [Hix Hse Hb Hsh Hshard]. set (e0 := set_dirty e) in *.
  pose (R := fun (m : gmap Z HotSession) (b : gmap EndpointKey Z * gmap Z Z * RouteTable) =>
    index_ok m b.1.1 b.1.2 b.2 /\ sessions_ok (sh_session_counter (e_shared e)) m
    /\ forall h, (exists s, m !! s = Some h) <-> exists s, sl_map (e_sessions e) !! s = Some h).
  set (f := fun (b : gmap EndpointKey Z * gmap Z Z * RouteTable) session new_slot => _).
  pose proof (Slab_compact_ind f R (e_sessions e0) (e_by_peer e0, e_by_id e0, e_routes e0)) as Hind.
  destruct (Slab_compact f _ _) as [sl [[bp bi] rt]]. destruct Hind as (Hix' & Hse' & Hm).
  { intros m [[bp1 bi1] rt1] old new h (Hi & Hs & Hex) Ho Hn. destruct (Hs _ _ Ho) as [(_ & _ & Hip) _]. unfold R, f. cbn [fst snd] in *. split_and!.
    - by apply index_move.
    - apply map_Forall_insert_2; [by apply (Hs old)|]. intros k x [_ Hx]%lookup_delete_Some. by apply (Hs k).
    - intros x. rewrite <- Hex. split.
      + intros (s & [[<- <-]|[_ [_ Hx]%lookup_delete_Some]]%lookup_insert_Some); eauto.
      + intros (s & Hx). destruct (decide (s = old)) as [->|Hne].
        * exists new. rewrite lookup_insert_eq. congruence.
        * exists s. rewrite lookup_insert_ne by congruence. by rewrite lookup_delete_ne. }
  { unfold R. by split_and!. }
  cbn [fst snd] in *. split; [|done]. split; [|cbn; lia]. by split.
Qed.

(** ** Commands and ticks *)

(** What the control plane and the router put into a command. *)
Definition command_ok (e : Engine) (c : ProtocolCommand) : Prop :=
  match c with
  | AdoptSession session _ => adoptable e session
  | SendPlain _ payload | BroadcastPlain payload | InjectTun _ payload => packet_ok payload
  | ActivateTunnel _ ip _ _ desired => wf_bytes ip /\ is_u16 desired
  | _ => True
  end.

Lemma command_send_spec e s t i payload :
  engine_ok e -> sink_wf s -> packet_ok payload -> yields (command_send e s t i payload) (fun '(e', s') => keeps e e' /\ sink_wf s').
Proof.
  intros He Hs Hp. unfold command_send. destruct (e_by_id e !! i) as [slot|] eqn:Ei; [|by apply yields_same].
  destruct (by_id_slot e i slot He Ei) as (h & Hh & _). pose proof (keeps_dpi e payload He) as Hk.
  destruct (should_record_dpi e payload) as [rec e1]. cbn [snd] in Hk. destruct (keeps_slot _ _ _ _ Hk Hh) as (h1 & Hh1 & _).
  unfold session_at, Slab_get. rewrite Hh1. cbn [mbind result_bind]. apply (yields_keeps _ _ _ Hk).
  eapply yields_bind; [exact (send_spec e1 s t slot h1 payload Bulk (ke_ok _ _ Hk) Hs Hh1 Hp)|]. intros [[sent e2] s2] [Hk2 Hs2]. by apply yields_ret.
Qed.

Lemma broadcast_spec e s t slots payload :
  engine_ok e -> sink_wf s -> packet_ok payload -> (forall k, k ∈ slots -> is_Some (sl_map (e_sessions e) !! k)) ->
  yields (broadcast e s t slots payload) (fun '(e', s') => keeps e e' /\ sink_wf s').
Proof.
  intros He Hs Hp. revert e s He Hs. induction slots as [|slot slots IH]; intros e s He Hs Hin; cbn [broadcast]; [by apply yields_same|].
  destruct (Hin slot ltac:(set_solver)) as [h Hh]. unfold session_at, Slab_get. rewrite Hh. cbn [mbind result_bind].
  eapply yields_bind; [exact (send_spec e s t slot h payload Bulk He Hs Hh Hp)|]. intros [[sent e1] s1] [Hk Hs1].
  apply (yields_keeps _ _ _ Hk). apply IH; [apply Hk|done|]. intros k Hk'. destruct (Hin k ltac:(set_solver)) as [x Hx].
  destruct (keeps_slot _ _ _ _ Hk Hx) as (y & -> & _). by eexists.
Qed.

Lemma remove_by_step p reason e e0 : engine_step e0 e -> engine_step e0 (remove_slots e (stale_by e p) reason).
Proof. intros [He Hc]. destruct (remove_by_spec p reason e He) as (H1 & H2 & _). split; [done|lia]. Qed.

Lemma on_command_spec e s t c :
  engine_ok e -> sink_wf s -> command_ok e c -> yields (on_command e s t c) (fun '(e', s') => engine_step e e' /\ sink_wf s').
Proof.
  intros He Hs Hc. assert (Hid : yields (E := unit) (Ok (e, s)) (fun '(e', s') => engine_step e e' /\ sink_wf s'))
    by (apply yields_ret; split; [by apply step_refl|done]).
  destruct c as [session payload|i payload|payload|i ip rid wid desired|i payload|i device generation salt|i enabled
    |device generation salt|device requester|credentials|i|password|]; cbn [on_command command_ok] in *.
  - pose proof (adopt_spec e s session payload He Hs Hc) as Ha. destruct (adopt_session _ _ _ _) as [e' s']. destruct Ha as (H1 & H2 & _). by apply yields_ret.
  - by apply yields_step, command_send_spec.
  - pose proof (keeps_dpi e payload He) as Hk. destruct (should_record_dpi e payload) as [rec e1]. cbn [snd] in Hk.
    apply yields_step, (yields_keeps _ _ _ Hk), broadcast_spec; [apply Hk|done|done|].
    intros k (x & -> & Hx)%list_elem_of_fmap. destruct x as [k h]. apply elem_of_Slab_iter in Hx. by exists h.
  - eapply yields_bind; [apply activate_spec; [done|done|apply Hc|apply Hc]|]. intros [[b e1] s1] Hr. by apply yields_ret.
  - destruct (e_by_id e !! i) as [slot|] eqn:Ei; [|done]. destruct (by_id_slot e i slot He Ei) as (h & Hh & _).
    destruct (classification_total payload (proj1 Hc) (proj2 Hc)) as [[class ->] _]. cbn [mbind result_bind].
    destruct (write_tun_law s payload class Hs) as (written & s' & -> & Hs'). cbn [mbind result_bind].
    destruct written; [|apply yields_ret; split; [by apply step_refl|done]]. unfold session_at, Slab_get. rewrite Hh. cbn [mbind result_bind].
    apply yields_ret. split; [|done]. by apply keeps_step, (keeps_put e slot h).
  - eapply yields_bind; [by apply update_epoch_spec|]. intros e1 Hst. by apply yields_ret.
  - destruct (e_by_id e !! i) as [slot|] eqn:Ei; [|done]. destruct (by_id_slot e i slot He Ei) as (h & Hh & _). unfold Slab_get. rewrite Hh.
    apply yields_ret. split; [|done]. by apply keeps_step, (keeps_put e slot h).
  - apply yields_ret. split; [|done]. destruct (remove_by_step (fun h => session_is_retired_by_epoch (hs_device_id h) (hs_generation_id h)
      (hs_session_salt h) device generation salt) "authoritative-epoch-replaced" e e (step_refl e He)) as [H1 H2].
    split; [by apply ok_publish_epochs, ok_epochs|exact H2].
  - eapply yields_bind; [apply command_send_spec; [done|done|]|].
    { split; [apply (bool_decide_unpack _); vm_compute; exact I|vm_compute; congruence]. }
    intros [e1 s1] [Hk Hs1]. apply yields_ret. split; [|done]. apply remove_by_step. by apply keeps_step.
  - apply yields_ret. split; [|done]. destruct (remove_by_step (fun h => negb (contains_password credentials (hs_password h))) "credential-removed" e e
      (step_refl e He)) as [H1 H2]. split; [by apply ok_credentials|exact H2].
  - destruct (e_by_id e !! i) as [slot|]; [|done]. apply yields_ret. split; [|done].
    destruct (ok_remove e slot "requested-session-drop" He) as (H1 & _ & H2). split; [done|lia].
  - apply yields_ret. split; [|done]. by apply remove_by_step, step_refl.
  - apply yields_ret. split; [|done]. by apply compact_spec.
Qed.

Lemma publish_all_spec e : engine_ok e -> keeps e (publish_all e).
Proof.
  intros He. unfold publish_all. assert (Hin : forall k h, (k, h) ∈ Slab_iter (e_sessions e) -> sl_map (e_sessions e) !! k = Some h)
    by (intros k h; apply elem_of_Slab_iter). pose proof (Slab_iter_keys (e_sessions e)) as Hnd. revert Hin Hnd.
  generalize (Slab_iter (e_sessions e)) as l. intros l. revert e He. induction l as [|[k h] l IH]; intros e He Hin Hnd; cbn [foldl]; [by apply keeps_refl|].
  destruct (counters_spec e h) as (h' & x' & Hc & Hsk & Hd & Hsh & Hcc). cbn [fst snd]. rewrite Hc.
  specialize (Hin k h ltac:(set_solver)) as Hh. pose proof He as [Hix Hse Hb Hso Hshard].
  assert (Hw : who h' = who h). { unfold publish_counters in Hc. destruct (negb _), (negb _); by injection Hc as <- _. }
  assert (Hok1 : engine_ok (set_e_shared e x')) by (split; try done; [cbn; by rewrite Hcc|by apply Hsh]).
  assert (Hk1 : keeps e (put_session (set_e_shared e x') k h')).
  { destruct (keeps_put (set_e_shared e x') k h h' Hok1 Hh (proj1 Hsk) Hw Hd) as [? ? ? ?]. by split. }
  eapply keeps_trans; [exact Hk1|]. cbn in Hnd. apply NoDup_cons in Hnd as [Hnin Hnd]. apply IH; [apply Hk1| |done].
  intros k' h2 Hkh. cbn. rewrite lookup_insert_ne; [apply Hin; set_solver|]. intros <-. apply Hnin, list_elem_of_fmap. by exists (k, h2).
Qed.

Lemma maintain_spec e : engine_ok e -> engine_step e (maintain_sessions e).
Proof.
  intros He. unfold maintain_sessions. destruct (_ <=? _); [|by apply step_refl]. set (e1 := set_e_misc e _).
  assert (Hk1 : keeps e e1) by (by apply keeps_misc). pose proof (keeps_trans _ _ _ Hk1 (publish_all_spec e1 (ke_ok _ _ Hk1))) as Hk2.
  destruct (removals_spec (fun e slot => hot_session_idle_reason (match Slab_get (e_sessions e) slot with
    | Some h => bool_decide (is_Some (hs_registration_id h)) | None => false end)) (reverse (stale_by e1 (is_idle e1))) _ (ke_ok _ _ Hk2)) as (H1 & H2 & _).
  split; [exact H1|]. unfold remove_idle. pose proof (ke_counter _ _ Hk2). cbv zeta in H2. lia.
Qed.

Lemma on_tick_spec e s t elapsed wall dpi :
  engine_ok e -> sink_wf s -> yields (on_tick e s t elapsed wall dpi) (fun '(e', s') => engine_step e e' /\ sink_wf s').
Proof.
  intros He Hs. unfold on_tick. set (e1 := begin_tick e elapsed wall dpi).
  assert (H1 : engine_step e e1). { split; [|cbn; lia]. apply ok_misc. destruct He as [? ? ? ? ?]. split; try done. eapply buffers_streams; [|eassumption]. done. }
  assert (H2 : engine_step e (sweep_migrating e1)).
  { eapply step_trans; [exact H1|]. unfold sweep_migrating. destruct (_ <=? _); [|apply step_refl, H1]. split; [apply ok_migrating, ok_misc, H1|cbn; lia]. }
  pose proof (step_trans _ _ _ H2 (maintain_spec _ (proj1 H2))) as H3. eapply yields_bind; [apply reconcile_spec; [apply H3|done]|].
  intros [e4 s4] [Hk Hs4]. pose proof (step_trans _ _ _ H3 (keeps_step _ _ Hk)) as H4.
  assert (H5 : engine_step e (sweep_idle_epochs e4)).
  { eapply step_trans; [exact H4|]. unfold sweep_idle_epochs. destruct (_ <? EPOCH_SWEEP_INTERVAL_MS); [apply step_refl, H4|].
    cbv zeta. destruct (negb _); (split; [|cbn; lia]); [apply ok_publish_epochs|]; apply ok_epochs, ok_misc, H4. }
  destruct (_ && _); apply yields_ret; (split; [|done]); [|done]. eapply step_trans; [exact H5|]. apply compact_spec, H5.
Qed.

Lemma streams_at_new key : streams_at RouteTable_new key = [].
Proof.
  unfold streams_at, group_at, RouteTable_new. destruct (replicate 256 None !! Z.to_nat key) as [og|] eqn:E; [|done].
  by apply lookup_replicate in E as [-> _].
Qed.
Lemma index_empty : index_ok ∅ ∅ ∅ RouteTable_new.
Proof.
  split.
  - intros k s. rewrite lookup_empty. split; [done|]. intros (h & Hh & _). by rewrite lookup_empty in Hh.
  - intros k s. rewrite lookup_empty. split; [done|]. intros (h & Hh & _). by rewrite lookup_empty in Hh.
  - apply table_new_wf.
  - intros key ep _ Hep. rewrite streams_at_new in Hep. by apply not_elem_of_nil in Hep.
Qed.
Lemma engine_new_ok index count credentials epochs profile seed wall now shared :
  shared_ok shared -> shards_ok index count -> engine_ok (Engine_new index count credentials epochs profile seed wall now shared).
Proof.
  intros Hs Hn. split; [apply index_empty|apply map_Forall_empty| |done|done].
  split; [apply queue_default_wf|apply queue_default_holds|apply wf_new|apply frames_hold_new|apply map_Forall_empty].
Qed.
End EngineInv.
