(* ===== verification/EngineProps.v ===== *)
(** * What the protocol engine guarantees

    The theorems about the handlers of [Engine], on top of the invariant of
    [EngineInv]. *)

From stdpp Require Import sorting.
From S2P Require Import Prelude FlowFrame Reassembly Classify Replay Packet Obfs Routes Downlink StreamControl Text Getconf Sink Slab Engine EngineInv.

Section EngineProps.
Context {SA : SlabAlloc} {CR : Crypto} {EN : Entropy}.
Context {Sk : Type} {PO : PacketOutput Sk} {RO : RouterOutput Sk ProtocolCommand}.
Context `{!SlabLaws SA} `{!CryptoLaws CR} `{!EntropyLaws EN} `{!PacketOutputLaws Sk} `{!RouterOutputLaws Sk ProtocolCommand}.

(** ** Runs *)

(** What an engine meets: the calls of its worker, and what the other shards
    and the control plane do to the shared state meanwhile. *)
Inductive engine_event :=
| EvUdp (t : Moment) (peer : SockAddr) (local_ip : option IpAddr) (packet : bytes)
| EvTun (packet : bytes)
| EvTunBatchEnd (t : Moment)
| EvBeginBatch (now : Z)
| EvCommand (t : Moment) (c : ProtocolCommand)
| EvTick (t : Moment) (elapsed_ms wall_now : Z) (dpi : bool)
| EvShared (shared : Shared).

Definition engine_handle (e : Engine) (s : Sk) (ev : engine_event) : opt (Engine * Sk) :=
  match ev with
  | EvUdp t peer local_ip packet => on_udp e s t peer local_ip packet
  | EvTun packet => on_tun e s packet
  | EvTunBatchEnd t => on_tun_batch_end e s t
  | EvBeginBatch now => Ok (begin_batch e now, s)
  | EvCommand t c => on_command e s t c
  | EvTick t elapsed wall dpi => on_tick e s t elapsed wall dpi
  | EvShared shared => Ok (set_e_shared e shared, s)
  end.

(** Packets are bytes, commands are those the control plane and the router
    send, session numbers have not run out and are never reused. *)
Definition event_ok (e : Engine) (ev : engine_event) : Prop :=
  match ev with
  | EvUdp _ _ _ packet => packet_ok packet /\ sh_session_counter (e_shared e) < U64_MAX
  | EvTun packet => packet_ok packet /\ len packet <= 65535
  | EvCommand _ c => command_ok e c
  | EvShared shared => shared_ok shared /\ sh_session_counter (e_shared e) <= sh_session_counter shared
  | _ => True
  end.

Inductive engine_reach (e0 : Engine) (s0 : Sk) : Engine -> Sk -> Prop :=
| reach_start : engine_reach e0 s0 e0 s0
| reach_event e s ev e' s' :
    engine_reach e0 s0 e s -> event_ok e ev -> engine_handle e s ev = Ok (e', s') -> engine_reach e0 s0 e' s'.

Lemma handle_spec e s ev : engine_ok e -> sink_wf s -> event_ok e ev ->
  yields (engine_handle e s ev) (fun '(e', s') => engine_step e e' /\ sink_wf s').
Proof.
  intros He Hs Hev. destruct ev as [t peer local_ip packet|packet|t|now|t c|t elapsed wall dpi|shared]; cbn [engine_handle event_ok] in *.
  - destruct Hev. by apply on_udp_spec.
  - destruct Hev. unfold on_tun. eapply yields_bind; [by apply tun_spec|]. intros e1 Hd. apply yields_ret. split; [by apply drains_step|done].
  - eapply yields_impl; [by apply drain_spec|]. intros [e1 s1] [Hd Hs1]. split; [by apply drains_step|done].
  - apply yields_ret. split; [|done]. by apply keeps_step, keeps_misc.
  - by apply on_command_spec.
  - by apply on_tick_spec.
  - apply yields_ret. split; [|done]. destruct Hev as [Hsh Hc]. destruct He as [Hix Hse Hb _ Hshard]. split; [|cbn; lia]. split; try done.
    intros k h Hh. destruct (Hse k h Hh). split; [done|]. cbn. lia.
Qed.

Lemma reach_ok e0 s0 e s : engine_ok e0 -> sink_wf s0 -> engine_reach e0 s0 e s -> engine_ok e /\ sink_wf s.
Proof.
  intros He Hs. induction 1 as [|e s ev e' s' _ IH Hev Hh]; [done|]. destruct (IH) as [He1 Hs1].
  destruct (handle_spec e s ev He1 Hs1 Hev) as ([e2 s2] & Heq & [Hst Hs2]). rewrite Heq in Hh. injection Hh as <- <-. by split; [apply Hst|].
Qed.

(** Whatever datagrams, device packets, commands and ticks an engine meets,
    in whatever order, and whatever the rest of the server does to the shared
    state meanwhile: no handler panics, the tables by endpoint and by number
    are exact inverses of the slab of sessions, and every route leads to the
    session that was registered for it, in the slot where it is, with the
    tunnel address of that route. *)
Theorem engine_never_panics index count credentials epochs profile seed wall now shared s0 e s :
  shared_ok shared -> shards_ok index count -> sink_wf s0 ->
  engine_reach (Engine_new index count credentials epochs profile seed wall now shared) s0 e s ->
  index_ok (sl_map (e_sessions e)) (e_by_peer e) (e_by_id e) (e_routes e)
  /\ forall ev, event_ok e ev -> exists e' s', engine_handle e s ev = Ok (e', s').
Proof.
  intros Hsh Hn Hs Hr. apply reach_ok in Hr as [He Hs']; [|by apply engine_new_ok|done]. split; [apply He|].
  intros ev Hev. destruct (handle_spec e s ev He Hs' Hev) as ([e' s'] & Heq & _). by exists e', s'.
Qed.

(** ** Commands that retire sessions *)

Definition retiring (c : ProtocolCommand) : Prop :=
  match c with
  | SetAuthoritativeEpoch _ _ _ | DisconnectDevice _ _ | ReplaceCredentials _ | DropPassword _ | DropSession _ => True
  | _ => False
  end.
Definition must_go (c : ProtocolCommand) (h : HotSession) : Prop :=
  match c with
  | SetAuthoritativeEpoch device generation salt =>
      hs_device_id h = device /\ (hs_generation_id h, hs_session_salt h) <> (generation, salt)
  | DisconnectDevice device requester => hs_device_id h = device \/ hs_id h = requester
  | ReplaceCredentials credentials => forall c, c ∈ credentials -> cr_password c <> hs_password h
  | DropPassword password => hs_password h = password
  | DropSession i => hs_id h = i
  | _ => False
  end.

(** Nothing leads to the slot any more. *)
Definition gone (e : Engine) (slot : Z) : Prop :=
  sl_map (e_sessions e) !! slot = None /\ (forall k, e_by_peer e !! k <> Some slot) /\ (forall i, e_by_id e !! i <> Some slot)
  /\ unrouted (e_routes e) slot.
Lemma gone_empty e slot : engine_ok e -> sl_map (e_sessions e) !! slot = None -> gone e slot.
Proof.
  intros He Hn. pose proof (eo_index e He) as [H1 H2 _ H4]. split_and!; [done| | |].
  - intros k (h & Hh & _)%H1. congruence.
  - intros i (h & Hh & _)%H2. congruence.
  - intros key ep Hk Hep Heq. destruct (H4 key ep Hk Hep) as (h & ip & Hh & _). congruence.
Qed.

Definition retired_exactly (c : ProtocolCommand) (e e' : Engine) : Prop :=
  engine_ok e'
  /\ (forall slot h, sl_map (e_sessions e) !! slot = Some h ->
        (must_go c h -> gone e' slot)
        /\ (~ must_go c h -> exists h', sl_map (e_sessions e') !! slot = Some h' /\ who h' = who h))
  /\ (forall slot, sl_map (e_sessions e) !! slot = None -> sl_map (e_sessions e') !! slot = None).

(** A removal by [p], after sends that left the sessions as they were. *)
Lemma retired_by c p reason e e1 (f : Engine -> Engine) : keeps e e1 ->
  (forall x, engine_ok x -> engine_ok (f x) /\ e_sessions (f x) = e_sessions x) ->
  (forall h h', who h' = who h -> p h' = true <-> must_go c h) ->
  retired_exactly c e (f (remove_slots e1 (stale_by e1 p) reason)).
Proof.
  intros Hk Hf Hp. destruct (remove_by_spec p reason e1 (ke_ok _ _ Hk)) as (Hok & _ & Hm). set (e2 := remove_slots _ _ _) in *.
  destruct (Hf e2 Hok) as [Hok' Hs]. split; [done|]. rewrite Hs, Hm. split.
  - intros slot h Hh. destruct (keeps_slot _ _ _ _ Hk Hh) as (h1 & Hh1 & Hw). specialize (Hp h h1 Hw). split.
    + intros Hgo. apply gone_empty; [done|]. rewrite Hs, Hm. apply map_lookup_filter_None. right. intros x Hx. cbn.
      assert (x = h1) as -> by congruence. by rewrite (proj2 Hp Hgo).
    + intros Hno. exists h1. split; [|done]. apply map_lookup_filter_Some. split; [done|]. cbn. destruct (p h1); [|done].
      exfalso. by apply Hno, Hp.
  - intros slot Hn. apply map_lookup_filter_None. left. pose proof (ke_who _ _ Hk) as Hw. apply (f_equal (.!! slot)) in Hw.
    rewrite !lookup_fmap, Hn in Hw. by destruct (sl_map (e_sessions e1) !! slot).
Qed.

Lemma contains_password_spec credentials password :
  negb (contains_password credentials password) = true <-> forall c, c ∈ credentials -> cr_password c <> password.
Proof.
  unfold contains_password. induction credentials as [|c credentials IH]; cbn; [set_solver|]. rewrite negb_orb, andb_true_iff, IH.
  unfold bytes_eqb. rewrite negb_true_iff, bool_decide_eq_false. set_solver.
Qed.

(** A command that retires sessions (a newer client generation, a device
    that disconnects, credentials that change, a password or a session that is
    dropped) removes exactly the sessions it means: no slot, no endpoint, no
    number and no route leads to them afterwards, and every other session is
    still there, with its identity and its tunnel. *)
Theorem command_retires_exactly e s t c :
  engine_ok e -> sink_wf s -> retiring c ->
  yields (on_command e s t c) (fun '(e', s') => retired_exactly c e e' /\ sink_wf s').
Proof.
  intros He Hs Hr. assert (Hk : keeps e e) by (by apply keeps_refl).
  destruct c as [| | | | | | |device generation salt|device requester|credentials|i|password|]; try done; cbn [on_command].
  - apply yields_ret. split; [|done]. apply (retired_by (SetAuthoritativeEpoch device generation salt) _ _ e e (fun x =>
      publish_epoch_state (set_e_epochs x (<[device := now_ms x]> (e_epochs x)))) Hk).
    + intros x Hx. split; [by apply ok_publish_epochs, ok_epochs|done].
    + intros h h' Hw. injection Hw as E1 E2 E3 E4 E5 _ _. rewrite E3, E4, E5. cbn. unfold session_is_retired_by_epoch, bytes_eqb.
      rewrite andb_true_iff, orb_true_iff, !negb_true_iff, bool_decide_eq_true, Z.eqb_neq, bool_decide_eq_false. split; [naive_solver|].
      intros [H1 H2]. split; [congruence|]. destruct (decide (hs_generation_id h = generation)); [right|by left]. congruence.
  - eapply yields_bind; [apply command_send_spec; [done|done|]|].
    { split; [apply (bool_decide_unpack _); vm_compute; exact I|vm_compute; congruence]. }
    intros [e1 s1] [Hk1 Hs1]. apply yields_ret. split; [|done]. apply (retired_by (DisconnectDevice device requester) _ _ e e1 (fun x => x) Hk1); [done|].
    intros h h' Hw. injection Hw as E1 E2 E3 E4 E5 _ _. rewrite E1, E3. cbn. unfold session_is_disconnected_device, bytes_eqb.
    rewrite orb_true_iff, Z.eqb_eq, bool_decide_eq_true. naive_solver.
  - apply yields_ret. split; [|done]. apply (retired_by (ReplaceCredentials credentials) _ _ e e (fun x => set_e_credentials x credentials) Hk).
    + intros x Hx. split; [by apply ok_credentials|done].
    + intros h h' Hw. injection Hw as E1 E2 E3 E4 E5 _ _. rewrite E2. rewrite contains_password_spec. cbn. naive_solver.
  - pose proof (ix_id _ _ _ _ (eo_index e He)) as Hix. destruct (e_by_id e !! i) as [slot|] eqn:Ei; apply yields_ret; (split; [|done]).
    + destruct (ok_remove e slot "requested-session-drop" He) as (Hok & Hm & _). split; [done|]. split.
      * intros slot' h Hh. split.
        -- cbn. intros <-. assert (slot' = slot) as -> by (apply (inj Some); rewrite <- Ei; symmetry; apply Hix; eauto).
           apply gone_empty; [done|]. by rewrite Hm, lookup_delete_eq.
        -- cbn. intros Hne. exists h. split; [|done]. rewrite Hm, lookup_delete_ne; [done|]. intros <-.
           apply Hix in Ei as (h' & Hh' & Hi). congruence.
      * intros slot' Hn. rewrite Hm. apply lookup_delete_None. by right.
    + split; [done|]. split; [|done]. intros slot h Hh. split; [|eauto]. cbn. intros Hi.
      assert (e_by_id e !! i = Some slot) by (apply Hix; eauto). congruence.
  - apply yields_ret. split; [|done]. apply (retired_by (DropPassword password) _ _ e e (fun x => x) Hk); [done|].
    intros h h' Hw. injection Hw as E1 E2 E3 E4 E5 _ _. rewrite E2. cbn. unfold bytes_eqb. rewrite bool_decide_eq_true. naive_solver.
Qed.

(** ** Ticks *)

(** The engine serves the session [w], and says so by its number. *)
Definition serves (e : Engine) (P : HotSession -> Prop) : Prop := exists slot h, sl_map (e_sessions e) !! slot = Some h /\ P h.
Lemma serves_keeps e e' P : keeps e e' -> (forall h h', who h' = who h -> P h <-> P h') -> serves e' P <-> serves e P.
Proof.
  intros Hk HP. pose proof (ke_who _ _ Hk) as Hw. split.
  - intros (slot & h' & Hh & Hp). apply (f_equal (.!! slot)) in Hw. rewrite !lookup_fmap, Hh in Hw.
    destruct (sl_map (e_sessions e) !! slot) as [h|] eqn:E; [|done]. exists slot, h. split; [done|]. apply (HP h h'); [by apply (inj Some)|done].
  - intros (slot & h & Hh & Hp). destruct (keeps_slot _ _ _ _ Hk Hh) as (h' & Hh' & Hw'). exists slot, h'. split; [done|]. by apply (HP h h').
Qed.
Lemma serves_same e e' P : sl_map (e_sessions e') = sl_map (e_sessions e) -> serves e' P <-> serves e P.
Proof. unfold serves. by intros ->. Qed.
Lemma serves_compact e force P : engine_ok e -> serves (compact_memory e force) P <-> serves e P.
Proof.
  intros He. destruct (compact_spec e force He) as (_ & Hm & _). unfold serves. split; intros (slot & h & Hh & Hp).
  - destruct (proj1 (Hm h) (ex_intro _ slot Hh)) as [slot' Hh']. by exists slot', h.
  - destruct (proj2 (Hm h) (ex_intro _ slot Hh)) as [slot' Hh']. by exists slot', h.
Qed.

(** Silent for too long at time [now]: fifteen seconds without a tunnel, ten
    hours with one. *)
Definition overdue (now : Z) (h : HotSession) : Prop :=
  (if decide (hs_registration_id h = None) then 15000 else 36000000) <= now - hs_last_inbound_ms h.
#[global] Instance overdue_dec now h : Decision (overdue now h).
Proof. unfold overdue. apply _. Defined.
Lemma is_idle_spec e h : is_idle e h = true <-> overdue (now_ms e) h.
Proof.
  unfold is_idle, overdue, SESSION_SETUP_IDLE_MS, SESSION_AUTH_IDLE_MS, sat_sub.
  destruct (hs_registration_id h) as [r|] eqn:E; [rewrite decide_False by done|rewrite decide_True by done].
  - rewrite (bool_decide_eq_true_2 (is_Some (Some r))) by eauto. cbn. rewrite Z.leb_le. lia.
  - rewrite (bool_decide_eq_false_2 (is_Some None)) by (intros [? ?]; done). cbn. rewrite orb_false_r, Z.leb_le. lia.
Qed.

Lemma maintain_serves e w : engine_ok e -> 1000 <= now_ms e - ms_last_session_maintenance_ms (e_misc e) ->
  serves (maintain_sessions e) (fun h => who h = w) <-> serves e (fun h => who h = w /\ ~ overdue (now_ms e) h).
Proof.
  intros He Hdue. unfold maintain_sessions. replace (_ <=? _) with true by (unfold SESSION_MAINTENANCE_INTERVAL_MS, sat_sub; lia).
  set (e1 := set_e_misc e _). assert (Hk1 : keeps e e1) by (by apply keeps_misc).
  pose proof (publish_all_spec e1 (ke_ok _ _ Hk1)) as Hk2. set (stale := stale_by e1 (is_idle e1)).
  destruct (removals_spec (fun e slot => hot_session_idle_reason (match Slab_get (e_sessions e) slot with
    | Some h => bool_decide (is_Some (hs_registration_id h)) | None => false end)) (reverse stale) _ (ke_ok _ _ Hk2)) as (_ & _ & Hm).
  unfold remove_idle. cbv zeta in Hm. unfold serves. setoid_rewrite Hm.
  assert (Hst : forall slot, slot ∈ reverse stale <-> exists h, sl_map (e_sessions e) !! slot = Some h /\ overdue (now_ms e) h).
  { intros slot. rewrite elem_of_reverse. unfold stale. rewrite elem_of_stale_by. setoid_rewrite is_idle_spec. done. }
  split.
  - intros (slot & h & Hh & Hw). destruct (decide (slot ∈ reverse stale)) as [|Hn]; [done|].
    pose proof (ke_who _ _ Hk2) as Hwho. apply (f_equal (.!! slot)) in Hwho. rewrite !lookup_fmap, Hh in Hwho.
    destruct (sl_map (e_sessions e1) !! slot) as [h0|] eqn:E; [|done]. exists slot, h0. split; [exact E|]. split; [|].
    + apply (inj Some) in Hwho. congruence.
    + intros Ho. apply Hn, Hst. by exists h0.
  - intros (slot & h & Hh & Hw & Hno). destruct (keeps_slot _ _ slot h Hk2 Hh) as (h' & Hh' & Hw'). exists slot, h'. split; [|congruence].
    rewrite decide_False; [done|]. intros (x & Hx & Ho)%Hst. assert (x = h) as -> by congruence. done.
Qed.

Lemma sweep_fields e : sl_map (e_sessions (sweep_migrating e)) = sl_map (e_sessions e) /\ sl_map (e_sessions (sweep_idle_epochs e)) = sl_map (e_sessions e)
  /\ now_ms (sweep_migrating e) = now_ms e
  /\ ms_last_session_maintenance_ms (e_misc (sweep_migrating e)) = ms_last_session_maintenance_ms (e_misc e)
  /\ (engine_ok e -> engine_ok (sweep_migrating e)) /\ (engine_ok e -> engine_ok (sweep_idle_epochs e)).
Proof.
  unfold sweep_migrating, sweep_idle_epochs. split_and!.
  - by destruct (_ <=? _).
  - destruct (_ <? EPOCH_SWEEP_INTERVAL_MS); [done|]. cbv zeta. by destruct (negb _).
  - by destruct (_ <=? _).
  - by destruct (_ <=? _).
  - intros He. destruct (_ <=? _); [by apply ok_migrating, ok_misc|done].
  - intros He. destruct (_ <? EPOCH_SWEEP_INTERVAL_MS); [done|]. cbv zeta. destruct (negb _); [apply ok_publish_epochs|]; by apply ok_epochs, ok_misc.
Qed.

(** A tick at which the sessions are due for maintenance ends exactly the
    sessions that have been silent too long (15 seconds before they have a
    tunnel, ten hours after): they are not served any more, and every other
    session still is, although the tick may also send stream controls and
    move sessions to other slots. *)
Theorem tick_ends_overdue_sessions e s t elapsed wall dpi :
  engine_ok e -> sink_wf s ->
  let now := Z.min elapsed U64_MAX + 1 in
  1000 <= now - ms_last_session_maintenance_ms (e_misc e) ->
  yields (on_tick e s t elapsed wall dpi) (fun '(e', s') =>
    forall w, serves e' (fun h => who h = w) <-> serves e (fun h => who h = w /\ ~ overdue now h)).
Proof.
  intros He Hs now Hdue. unfold on_tick. set (e1 := begin_tick e elapsed wall dpi).
  assert (He1 : engine_ok e1). { apply ok_misc. destruct He as [? ? ? ? ?]. split; try done. eapply buffers_streams; [|eassumption]. done. }
  destruct (sweep_fields e1) as (Hm1 & _ & Hn1 & Hl1 & Hok1 & _). set (e2 := sweep_migrating e1) in *.
  assert (Hserve : forall w, serves (maintain_sessions e2) (fun h => who h = w) <-> serves e (fun h => who h = w /\ ~ overdue now h)).
  { intros w. rewrite (maintain_serves e2 w (Hok1 He1)) by (rewrite Hn1, Hl1; exact Hdue). rewrite Hn1. change (now_ms e1) with now.
    rewrite (serves_same e1 e2 _ Hm1). by apply serves_same. }
  pose proof (maintain_spec e2 (Hok1 He1)) as [Hok3 _]. set (e3 := maintain_sessions e2) in *.
  eapply yields_bind; [apply reconcile_spec; [done|done]|]. intros [e4 s4] [Hk Hs4]. destruct (sweep_fields e4) as (_ & Hm5 & _ & _ & _ & Hok5).
  assert (H5 : forall w, serves (sweep_idle_epochs e4) (fun h => who h = w) <-> serves e (fun h => who h = w /\ ~ overdue now h)).
  { intros w. rewrite (serves_same _ _ _ Hm5), <- Hserve. apply (serves_keeps e3 e4 _ Hk). intros h h' ->. done. }
  destruct (_ && _); apply yields_ret; [|done]. intros w. rewrite (serves_compact _ _ _ (Hok5 (ke_ok _ _ Hk))). apply H5.
Qed.

(** ** Compaction *)

(** The session at an endpoint, with a number, and the streams of a client:
    what the engine reads off its tables. *)
Definition at_endpoint (e : Engine) (k : EndpointKey) : option HotSession := s ← e_by_peer e !! k; sl_map (e_sessions e) !! s.
Definition with_number (e : Engine) (i : Z) : option HotSession := s ← e_by_id e !! i; sl_map (e_sessions e) !! s.
Definition stream_view (m : gmap Z HotSession) (ep : RouteEndpoint) :=
  (re_session_id ep, re_registration_id ep, re_worker_id ep, m !! re_slot ep).
Definition client_streams (e : Engine) (key : Z) := stream_view (sl_map (e_sessions e)) <$> streams_at (e_routes e) key.

Lemma at_endpoint_spec e k h : engine_ok e -> at_endpoint e k = Some h <-> serves e (fun x => x = h) /\ endpoint_of h = k.
Proof.
  intros He. pose proof (ix_peer _ _ _ _ (eo_index e He)) as Hix. unfold at_endpoint. split.
  - intros (s & Hs & Hh)%bind_Some. apply Hix in Hs as (x & Hx & Hk). assert (x = h) as -> by congruence. split; [by exists s, h|done].
  - intros ((s & x & Hx & ->) & Hk). apply bind_Some. exists s. split; [apply Hix; eauto|done].
Qed.
Lemma with_number_spec e i h : engine_ok e -> with_number e i = Some h <-> serves e (fun x => x = h) /\ hs_id h = i.
Proof.
  intros He. pose proof (ix_id _ _ _ _ (eo_index e He)) as Hix. unfold with_number. split.
  - intros (s & Hs & Hh)%bind_Some. apply Hix in Hs as (x & Hx & Hk). assert (x = h) as -> by congruence. split; [by exists s, h|done].
  - intros ((s & x & Hx & ->) & Hk). apply bind_Some. exists s. split; [apply Hix; eauto|done].
Qed.

Lemma view_set_slot_first (m : gmap Z HotSession) sid rid old new h l :
  NoDup (re_registration_id <$> l) -> m !! old = Some h -> m !! new = None ->
  (forall ep, ep ∈ l -> is_Some (m !! re_slot ep) /\ (re_slot ep = old <-> re_session_id ep = sid /\ re_registration_id ep = rid)) ->
  stream_view (<[new := h]> (delete old m)) <$> set_slot_first sid rid new l = stream_view m <$> l.
Proof.
  intros Hnd Ho Hn. assert (Hother : forall ep, is_Some (m !! re_slot ep) -> re_slot ep <> old -> stream_view (<[new := h]> (delete old m)) ep = stream_view m ep).
  { intros ep [x Hx] Hne. unfold stream_view. rewrite lookup_insert_ne by congruence. by rewrite lookup_delete_ne. }
  induction l as [|ep l IH]; intros Hall; [done|]. cbn in Hnd. apply NoDup_cons in Hnd as [Hnin Hnd]. destruct (Hall ep ltac:(set_solver)) as [Hs Hiff].
  cbn [set_slot_first]. destruct (_ && _) eqn:E; bool_prop; cbn; f_equal.
  - unfold stream_view. cbn. rewrite lookup_insert_eq. rewrite (proj2 Hiff) by done. by rewrite Ho.
  - apply list_fmap_ext. intros i x Hx%list_elem_of_lookup_2. destruct (Hall x ltac:(set_solver)) as [Hs' Hiff']. apply Hother; [done|].
    intros [_ Hr]%Hiff'. apply Hnin. apply list_elem_of_fmap. exists x. split; [congruence|done].
  - apply Hother; [done|]. intros [? ?]%Hiff. destruct E; lia.
  - apply IH; [done|]. intros x Hx. apply Hall. set_solver.
Qed.

(** One move of [compact_memory]. *)
Lemma move_views m bp bi rt old new h key :
  index_ok m bp bi rt -> m !! old = Some h -> m !! new = None -> (forall ip, hs_tunnel_ip h = Some ip -> wf_bytes ip) -> 0 <= key ->
  stream_view (<[new := h]> (delete old m)) <$> streams_at
    (match hs_tunnel_ip h, hs_registration_id h with Some ip, Some rid => RouteTable_update_slot rt ip (hs_id h) rid new | _, _ => rt end) key
  = stream_view m <$> streams_at rt key.
Proof.
  intros Hix Ho Hn Hip Hk. pose proof Hix as [H1 H2 [Hl Hg] H4].
  assert (Hlive : forall ep, ep ∈ streams_at rt key -> is_Some (m !! re_slot ep)) by (intros ep Hep; destruct (H4 key ep Hk Hep) as (x & ip & -> & _); by eexists).
  assert (Hsame : unrouted rt old \/ (forall ep, ep ∈ streams_at rt key -> re_slot ep <> old) ->
    stream_view (<[new := h]> (delete old m)) <$> streams_at rt key = stream_view m <$> streams_at rt key).
  { intros Hno. apply list_fmap_ext. intros i ep Hep%list_elem_of_lookup_2. destruct (Hlive ep Hep) as [x Hx]. unfold stream_view.
    assert (re_slot ep <> old) by (destruct Hno as [Hno|Hno]; [by apply (Hno key)|by apply Hno]).
    rewrite lookup_insert_ne by congruence. by rewrite lookup_delete_ne. }
  destruct (hs_tunnel_ip h) as [ip|] eqn:Et; [|apply Hsame; left; by eapply unrouted_without; [exact Hix|done|left]].
  destruct (hs_registration_id h) as [rid|] eqn:Er; [|apply Hsame; left; by eapply unrouted_without; [exact Hix|done|right]].
  unfold RouteTable_update_slot. destruct (route_index ip) as [i|] eqn:Ei.
  2: { apply Hsame. right. intros ep Hep Heq. destruct (H4 key ep Hk Hep) as (x & ip' & Hx & _ & _ & E3 & E4). rewrite Heq in Hx. congruence. }
  pose proof (route_index_byte ip i (Hip ip eq_refl) Ei) as Hb. destruct (group_at rt i) as [g|] eqn:Eg.
  2: { apply Hsame. right. intros ep Hep Heq. destruct (H4 key ep Hk Hep) as (x & ip' & Hx & _ & _ & E3 & E4). rewrite Heq in Hx.
       assert (i = key) as -> by congruence. unfold streams_at in Hep. rewrite Eg in Hep. by apply not_elem_of_nil in Hep. }
  rewrite streams_at_insert by lia. destruct (decide (Z.to_nat key = Z.to_nat i)) as [Ek|Ek].
  2: { apply Hsame. right. intros ep Hep Heq. destruct (H4 key ep Hk Hep) as (x & ip' & Hx & _ & _ & E3 & E4). rewrite Heq in Hx. apply Ek. congruence. }
  assert (key = i) as -> by lia. assert (Hgs : streams_at rt i = rg_endpoints g) by (unfold streams_at; by rewrite Eg). rewrite <- Hgs. cbn [rg_endpoints].
  apply view_set_slot_first; [destruct (Hg i g Eg) as (_ & [_ ?] & _); by rewrite Hgs|done|done|].
  intros ep Hep. split; [by apply Hlive|]. destruct (H4 i ep Hk Hep) as (x & ip' & Hx & E1 & E2 & E3 & E4). split.
  - intros Heq. rewrite Heq in Hx. assert (x = h) as -> by congruence. split; congruence.
  - intros [Hs1 Hs2]. assert (Ha : bi !! hs_id h = Some (re_slot ep)) by (apply H2; exists x; split; [done|congruence]).
    assert (Hb2 : bi !! hs_id h = Some old) by (apply H2; eauto). congruence.
Qed.

(** Compaction is invisible: after it, forced or not, every endpoint and
    every session number leads to the same session as before, and every client
    has the same streams, in the same order, to the same sessions. *)
Theorem compaction_is_transparent e force :
  engine_ok e ->
  (forall k, at_endpoint (compact_memory e force) k = at_endpoint e k)
  /\ (forall i, with_number (compact_memory e force) i = with_number e i)
  /\ (forall key, 0 <= key -> client_streams (compact_memory e force) key = client_streams e key).
Proof.
  intros He. destruct (compact_spec e force He) as ([He' _] & _ & _).
  assert (Hs : forall h, serves (compact_memory e force) (fun x => x = h) <-> serves e (fun x => x = h)) by (intros; by apply serves_compact). split_and!.
  - intros k. apply option_eq. intros h. rewrite (at_endpoint_spec _ _ _ He'), (at_endpoint_spec _ _ _ He). by rewrite Hs.
  - intros i. apply option_eq. intros h. rewrite (with_number_spec _ _ _ He'), (with_number_spec _ _ _ He). by rewrite Hs.
  - clear Hs He'. intros key Hk. unfold client_streams, compact_memory. destruct (negb force && _); [done|].
    pose (R := fun (m : gmap Z HotSession) (b : gmap EndpointKey Z * gmap Z Z * RouteTable) => index_ok m b.1.1 b.1.2 b.2
      /\ sessions_ok (sh_session_counter (e_shared e)) m
      /\ stream_view m <$> streams_at b.2 key = stream_view (sl_map (e_sessions e)) <$> streams_at (e_routes e) key).
    set (f := fun (b : gmap EndpointKey Z * gmap Z Z * RouteTable) session new_slot => _). set (e0 := set_dirty e).
    pose proof (Slab_compact_ind f R (e_sessions e0) (e_by_peer e0, e_by_id e0, e_routes e0)) as Hind.
    destruct (Slab_compact f _ _) as [sl [[bp bi] rt]]. destruct Hind as (_ & _ & Hv); [| |exact Hv].
    + intros m [[bp1 bi1] rt1] old new h (Hi & Hse & Hv) Ho Hn. destruct (Hse _ _ Ho) as [(_ & _ & Hip) _]. unfold R, f. cbn [fst snd] in *. split_and!.
      * by apply index_move.
      * apply map_Forall_insert_2; [by apply (Hse old)|]. intros k x [_ Hx]%lookup_delete_Some. by apply (Hse k).
      * rewrite <- Hv. by apply (move_views _ _ _ _ _ _ _ _ Hi).
    + destruct He as [Hix Hse _ _ _]. by unfold R.
Qed.

(** ** The downlink *)

(** The session of one of the client's streams. *)
Definition stream_of (e : Engine) (key slot : Z) (h : HotSession) : Prop :=
  sl_map (e_sessions e) !! slot = Some h /\ exists ip, hs_tunnel_ip h = Some ip /\ route_index ip = Some key.
Definition outgoing (h : HotSession) (packet : bytes) : bytes := if hs_data_frames h then packet else payload packet.

Lemma dpi_sessions e plain : e_sessions (should_record_dpi e plain).2 = e_sessions e.
Proof.
  unfold should_record_dpi. destruct (negb (ms_dpi_enabled _)); [done|]. cbv zeta. destruct (negb (is_dpi_control _) && _); [done|]. by destruct (_ <? 200).
Qed.

(** A send over a stream that is there: never stale. *)
Lemma endpoint_delivers e s t key ep packet class :
  engine_ok e -> sink_wf s -> packet_ok packet -> 0 <= key -> ep ∈ streams_at (e_routes e) key ->
  yields (send_down_endpoint e s t ep packet class) (fun '(r, e', s') =>
    exists h e1 e2 sent, stream_of e key (re_slot ep) h /\ send_legacy_plain e1 s t (re_slot ep) h (outgoing h packet) class = Ok (sent, e2, s')
      /\ r = if (sent : bool) then Sent else Backpressured).
Proof.
  intros He Hs Hp Hk Hep. destruct (ix_live _ _ _ _ (eo_index e He) key ep Hk Hep) as (h & ip & Hh & Hid & Hr & Ht & Hi).
  unfold send_down_endpoint, Slab_get. rewrite Hh, Hid, Z.eqb_refl. rewrite bool_decide_eq_true_2 by done. cbn [negb orb].
  pose proof (keeps_dpi e (payload packet) He) as Hkd. pose proof (dpi_sessions e (payload packet)) as Hsm.
  destruct (should_record_dpi e (payload packet)) as [rec e1]. cbn [snd] in *. rewrite <- Hsm in Hh.
  assert (Hout : packet_ok (outgoing h packet)) by (unfold outgoing; destruct (hs_data_frames h); [done|by apply payload_ok]).
  fold (outgoing h packet).
  destruct (send_spec e1 s t (re_slot ep) h _ class (ke_ok _ _ Hkd) Hs Hh Hout) as ([[sent e2] s2] & Hsend & Hk2 & Hs2). rewrite Hsend. cbn [mbind result_bind].
  assert (Hst : stream_of e key (re_slot ep) h) by (split; [by rewrite <- Hsm|by exists ip]).
  destruct sent; [|apply yields_ret; by exists h, e1, e2, false].
  destruct (keeps_slot _ _ _ _ Hk2 Hh) as (h2 & Hh2 & _). unfold session_at, Slab_get. rewrite Hh2. cbn [mbind result_bind]. apply yields_ret.
  by exists h, e1, e2, true.
Qed.

(** A packet for a client is sent over one of that client's own streams; it is
    given up as undeliverable only when the client has no stream at all. *)
Lemma key_delivers e s t key packet class :
  engine_ok e -> sink_wf s -> packet_ok packet -> 0 <= key < 256 ->
  yields (send_down_key e s t key packet class) (fun '(r, e', s') =>
    match r with
    | Stale => streams_at (e_routes e) key = [] /\ s' = s
    | _ => exists slot h e1 e2 sent, stream_of e key slot h
        /\ send_legacy_plain e1 s t slot h (outgoing h packet) class = Ok (sent, e2, s')
        /\ r = if (sent : bool) then Sent else Backpressured
    end).
Proof.
  intros He Hs Hp Hk. unfold send_down_key. pose proof (ix_table _ _ _ _ (eo_index e He)) as Ht.
  destruct (group_at (e_routes e) key) as [g|] eqn:Eg.
  2: { unfold select_key_window. rewrite Eg. apply yields_ret. unfold streams_at. by rewrite Eg. }
  destruct (route_selection_covers (e_routes e) key g class Ht Hk Eg) as (sel & t' & Hsel & Hst & Hlen & Hat & _). rewrite Hsel.
  pose proof (streams_select (e_routes e) key class key Ht Hk) as Hss. rewrite Hsel in Hss. cbn [snd] in Hss.
  pose proof (index_select _ _ _ _ (eo_index e He) key class Hk) as Hix. rewrite Hsel in Hix. cbn [snd] in Hix.
  destruct (Z.to_nat (rsel_len sel)) as [|n] eqn:En; [lia|]. cbn [send_down_window e_routes set_e_routes].
  assert (Hep : exists ep, RouteTable_endpoint_at t' key sel 0 = Some ep /\ ep ∈ rg_endpoints g).
  { apply (f_equal (.!! 0%nat)) in Hat. rewrite !list_lookup_fmap, lookup_seqZ_lt in Hat by lia. cbn in Hat.
    destruct (rotate _ _ !! 0%nat) as [ep|] eqn:Er; [|done]. exists ep. split; [by injection Hat|]. apply list_elem_of_lookup_2 in Er.
    unfold rotate in Er. rewrite elem_of_app in Er. rewrite <- (take_drop (Z.to_nat (rsel_start sel) `mod` length (rg_endpoints g)) (rg_endpoints g)), elem_of_app.
    tauto. }
  destruct Hep as (ep & -> & Hin). assert (Hin' : ep ∈ streams_at t' key) by (rewrite Hss; unfold streams_at; by rewrite Eg).
  eapply yields_bind; [apply (endpoint_delivers (set_e_routes e t') s t key ep packet class); [by apply ok_routes|done|done|lia|exact Hin']|].
  intros [[r e2] s2] (h & e1 & e3 & sent & Hso & Hsend & ->). destruct sent; apply yields_ret; exists (re_slot ep), h, e1, e3; eauto.
Qed.

(** How often [drain_downlink] took a packet from a queue. *)
Definition taken (pops : list (Z * PacketClass)) (key : Z) (class : PacketClass) : nat := length (filter (fun p => p = (key, class)) pops).
Definition drained (q q' : DownlinkQueue) (pops : list (Z * PacketClass)) : Prop :=
  forall key class, 0 <= key -> Downlink.contents q' key class = drop (taken pops key class) (Downlink.contents q key class).
Lemma drained_app q q1 q2 a b : drained q q1 a -> drained q1 q2 b -> drained q q2 (a ++ b).
Proof.
  intros H1 H2 key class Hk. rewrite H2, H1, drop_drop by done. f_equal. unfold taken. rewrite filter_app, length_app. lia.
Qed.

Lemma recycle_contents q key class p k c : Downlink.contents (DownlinkQueue_recycle q key class p) k c = Downlink.contents q k c.
Proof.
  unfold DownlinkQueue_recycle. destruct (dq_lanes q !! Z.to_nat key) as [l|] eqn:El; [|done]. unfold Downlink.contents.
  rewrite pending_with_lane by (by apply lookup_lt_Some in El). case_decide as E; [|done]. unfold pending_at. rewrite E, El, lane_queue_set.
  by case_decide as Ec; [subst c|].
Qed.

(** What a drain that starts in [e] hands to the sink: each time a packet that
    waits, to a session of [e] that has the address the packet is bound for,
    with its frame header if the session takes frames and without otherwise. *)
Inductive deliveries (e : Engine) (t : Moment) : Sk -> Sk -> Prop :=
| deliver_nothing s : deliveries e t s s
| deliver_one s s1 s2 key class wire packet slot h e1 e2 sent :
    0 <= key -> wire ∈ Downlink.contents (e_downlink e) key class -> carries wire packet ->
    serves e (fun x => who x = who h) -> is_Some (destination packet) -> hs_tunnel_ip h = destination packet ->
    send_legacy_plain e1 s t slot h (outgoing h wire) class = Ok (sent, e2, s1) -> deliveries e t s1 s2 -> deliveries e t s s2.
Lemma deliveries_trans e t s1 s2 s3 : deliveries e t s1 s2 -> deliveries e t s2 s3 -> deliveries e t s1 s3.
Proof. induction 1; [done|]. intros Hlast. eapply deliver_one; eauto. Qed.
(** Later in the drain there are the same sessions and no more packets. *)
Definition within (e e' : Engine) : Prop :=
  who <$> sl_map (e_sessions e') = who <$> sl_map (e_sessions e)
  /\ forall key class, 0 <= key -> Downlink.contents (e_downlink e') key class ⊆ Downlink.contents (e_downlink e) key class.
Lemma within_refl e : within e e.
Proof. by split. Qed.
Lemma within_trans e e' e'' : within e e' -> within e' e'' -> within e e''.
Proof. intros [H1 H2] [H3 H4]. split; [congruence|]. intros key class Hk. by etransitivity; [apply H4|apply H2]. Qed.
Lemma deliveries_within e e' t s s' : within e e' -> deliveries e' t s s' -> deliveries e t s s'.
Proof.
  intros [Hw Hc]. induction 1 as [s|s s1 s2 key class wire packet slot h e1 e2 sent Hk Hin Hca (k & x & Hx & Hwho) Hd Ht Hs _ IH]; [constructor|].
  eapply (deliver_one e t s s1 s2 key class); eauto; [by apply Hc|].
  apply (f_equal (.!! k)) in Hw. rewrite !lookup_fmap, Hx in Hw. destruct (sl_map (e_sessions e) !! k) as [y|] eqn:Ey; [|done]. apply (inj Some) in Hw. exists k, y. split; [done|]. by rewrite <- Hw.
Qed.
Lemma drained_within e e' pops : who <$> sl_map (e_sessions e') = who <$> sl_map (e_sessions e) -> drained (e_downlink e) (e_downlink e') pops -> within e e'.
Proof. intros Hw Hd. split; [done|]. intros key class Hk. rewrite Hd by done. intros x Hx. eapply sublist_subseteq; [apply sublist_drop|exact Hx]. Qed.
(** One turn of the drain. *)
Lemma turn_delivers e s t class key wire : engine_ok e -> sink_wf s -> 0 <= key < 256 -> waits_for key wire -> wire ∈ Downlink.contents (e_downlink e) key class ->
  yields (send_down_key e s t key wire class) (fun '(_, _, s') => deliveries e t s s').
Proof.
  intros He Hs Hk [Hp (packet & Hc & Hd)] Hin. eapply yields_impl; [by apply key_delivers|].
  intros [[r e'] s'] Hr. assert (Hone : r <> Stale -> deliveries e t s s').
  { destruct r; try done; intros _; destruct Hr as (slot & h & e1 & e2 & sent & (Hsl & ip & Hip & Hri) & Hsend & _);
      (eapply (deliver_one e t s s' s' key class wire packet slot h e1 e2 sent); [lia|done|done|by exists slot, h|by rewrite Hd| |exact Hsend|constructor]);
      by rewrite Hip, Hd, (route_index_address _ _ Hri). }
  destruct r; [by apply Hone| |by apply Hone]. destruct Hr as [_ ->]. constructor.
Qed.
Lemma drain_class_pops remaining e s t class : engine_ok e -> sink_wf s ->
  yields (drain_class remaining e s t class) (fun '(_, rem, e', s') => drains e e' /\ sink_wf s' /\
    (exists pops, drained (e_downlink e) (e_downlink e') pops /\ (length pops + rem <= remaining)%nat /\ Forall (fun p => p.2 = class) pops) /\ deliveries e t s s').
Proof.
  assert (Hnil : forall q : DownlinkQueue, drained q q []) by (intros q key c _; cbn; by rewrite drop_0).
  revert e s. induction remaining as [|rest IH]; intros e s He Hs; cbn [drain_class].
  { apply yields_ret. split_and!; [by apply drains_refl|done|exists []; split_and!; [done|cbn; lia|constructor]|constructor]. }
  destruct (negb (has_udp_tx_slot s)); [apply yields_ret; split_and!; [by apply drains_refl|done|exists []; split_and!; [done|cbn; lia|constructor]|constructor]|].
  pose proof (eo_buffers e He) as [Hq Hh _ _ _]. destruct (dequeue_holds waits_for (e_downlink e) class Hq Hh) as (got & q & Hdeq & Hg).
  destruct (downlink_dequeue_oldest (e_downlink e) class Hq) as (got' & q' & Hdeq' & Hold). rewrite Hdeq in Hdeq'. injection Hdeq' as <- <-.
  rewrite Hdeq. cbn [mbind result_bind]. destruct got as [[key packet]|].
  2: { destruct Hg as [Hq' Hh']. apply yields_ret. split_and!; [split; try done; by apply ok_downlink|done| |constructor]. exists []. split_and!; [|cbn; lia|constructor].
       intros k c Hk. cbn. rewrite drop_0. unfold DownlinkQueue_dequeue in Hdeq. destruct (decide (ring_len (e_downlink e) class = 0)) as [HL|HL].
       - rewrite HL in Hdeq. by injection Hdeq as <-.
       - destruct (dequeue_loop_spec (Z.to_nat (ring_len (e_downlink e) class)) (e_downlink e) class Hq) as (r & q2 & Hd2 & Hr).
         { pose proof (len_nonneg (ring_of (e_downlink e) class)). unfold ring_len in *. lia. }
         rewrite Hdeq in Hd2. injection Hd2 as <- <-. destruct Hr as [-> _]. unfold Downlink.contents, pending_at.
         by rewrite (proj2 (proj2 (cursor_fields _ _ _))). }
  destruct Hg as (Hkey & Hbuf & Hwait & Hq1 & Hh1 & Hq2 & Hh2). destruct Hold as (Hc1 & Hc2 & _ & Hc3). rewrite as_slice_ok by done. cbn [mbind result_bind].
  destruct (turn_delivers e s t class key (buf_bytes packet) He Hs Hkey Hwait ltac:(rewrite Hc1; by left)) as ([[result' e1'] s1'] & Heq & Hdel).
  rewrite send_down_key_frame. destruct (send_down_key_spec e s t key (buf_bytes packet) class He Hs (proj1 Hwait) Hkey) as ([[result e1] s1] & Heq' & Hk & Hs1).
  rewrite Heq in Heq'. injection Heq' as -> -> ->. rewrite Heq.
  cbn [on_queue mbind result_bind]. change (e_downlink (set_e_downlink e1 q)) with q. rewrite !downlink_set_set.
  assert (Hgo : forall q', queue_wf q' -> queue_holds waits_for q' -> drains e (set_e_downlink e1 q')).
  { intros q' Hq' Hh'. destruct Hk as [Hok Hw Hd Hc]. split; try done. by apply ok_downlink. }
  assert (Hpop : drained (e_downlink e) (DownlinkQueue_recycle q key class packet) [(key, class)]).
  { intros k c Hk'. rewrite recycle_contents. unfold taken. rewrite filter_cons. case_decide as E.
    - injection E as <- <-. cbn. by rewrite Hc1.
    - cbn. rewrite drop_0. apply Hc2; [done|]. destruct (decide (k = key)) as [->|]; [right; congruence|by left]. }
  assert (Hrec : yields (drain_class rest (set_e_downlink e1 (DownlinkQueue_recycle q key class packet)) s1 t class) (fun '(_, rem, e', s') => drains e e' /\ sink_wf s' /\
    (exists pops, drained (e_downlink e) (e_downlink e') pops /\ (length pops + rem <= S rest)%nat /\ Forall (fun p => p.2 = class) pops) /\ deliveries e t s s')).
  { eapply yields_impl; [apply IH; [by apply Hgo|done]|]. intros [[[ret rem] e2] s2] (Hd2 & Hs2 & (pops & Hp1 & Hp2 & Hp3) & Hdel2).
    split_and!; [eapply drains_trans; [|exact Hd2]; by apply Hgo|done| |eapply deliveries_trans; [exact Hdel|]; eapply deliveries_within; [|exact Hdel2]].
    2: { eapply drained_within; [apply (dr_who _ _ (Hgo _ Hq1 Hh1))|exact Hpop]. }
    exists ((key, class) :: pops). split_and!; [|cbn; lia|by constructor].
    by apply (drained_app _ _ _ [(key, class)] pops Hpop). }
  destruct result; [done|done|]. apply yields_ret. split_and!; [by apply Hgo|done| |exact Hdel]. exists []. split_and!; [|cbn; lia|constructor].
  intros k c Hk'. cbn. rewrite drop_0. by apply Hc3.
Qed.

(** Interactive packets first. *)
Definition class_rank (class : PacketClass) : Z := match class with Small => 0 | Medium => 1 | Bulk => 2 end.

Lemma drain_classes_pops classes remaining e s t : engine_ok e -> sink_wf s -> StronglySorted (fun a b => class_rank a <= class_rank b) classes ->
  yields (drain_classes classes remaining e s t) (fun '(e', s') => drains e e' /\ sink_wf s' /\
    exists pops, drained (e_downlink e) (e_downlink e') pops /\ (length pops <= remaining)%nat
      /\ StronglySorted (fun a b => class_rank a.2 <= class_rank b.2) pops /\ Forall (fun p => p.2 ∈ classes) pops /\ deliveries e t s s').
Proof.
  intros He Hs Hso. revert remaining e s He Hs. induction Hso as [|class classes Hso IH Hall]; intros remaining e s He Hs; cbn [drain_classes].
  { apply yields_ret. split_and!; [by apply drains_refl|done|]. exists []. split_and!; [intros k c _; cbn; by rewrite drop_0|cbn; lia|constructor|constructor|constructor]. }
  eapply yields_bind; [by apply drain_class_pops|]. intros [[[ret rem] e1] s1] (Hd & Hs1 & (pops & Hp1 & Hp2 & Hp3) & Hdel).
  assert (Hsame : StronglySorted (fun a b : Z * PacketClass => class_rank a.2 <= class_rank b.2) pops).
  { clear Hp1 Hp2. induction Hp3 as [|x pops Hx Hp3 IHp]; [constructor|]. constructor; [done|]. eapply Forall_impl; [exact Hp3|]. cbn. intros y ->. rewrite Hx. lia. }
  destruct ret.
  { apply yields_ret. split_and!; [done|done|]. exists pops. split_and!; [done|lia|done| |done]. eapply Forall_impl; [exact Hp3|]. cbn. intros y ->. set_solver. }
  eapply yields_impl; [apply IH; [apply Hd|done]|]. intros [e2 s2] (Hd2 & Hs2 & pops2 & Hq1 & Hq2 & Hq3 & Hq4 & Hdel2).
  split_and!; [by eapply drains_trans|done|]. exists (pops ++ pops2). split_and!.
  - by eapply drained_app.
  - rewrite length_app. lia.
  - clear - Hsame Hq3 Hq4 Hp3 Hall. induction Hp3 as [|x pops Hx Hp3 IHp]; [done|]. apply StronglySorted_inv in Hsame as [Hs1 Hs2]. cbn. constructor; [by apply IHp|].
    apply Forall_app_2; [done|]. eapply Forall_impl; [exact Hq4|]. cbn. intros y Hy. rewrite Hx. rewrite Forall_forall in Hall. by apply Hall.
  - apply Forall_app_2; [eapply Forall_impl; [exact Hp3|]; cbn; intros y ->; set_solver|]. eapply Forall_impl; [exact Hq4|]. cbn. set_solver.
  - eapply deliveries_trans; [exact Hdel|]. eapply deliveries_within; [|exact Hdel2]. by eapply drained_within; [apply (dr_who _ _ Hd)|].
Qed.

(** A drain of the downlink always returns, takes at most 128 packets,
    interactive before bulk, and loses nothing: every queue keeps its packets
    in order, less the oldest ones that were taken, and the sessions stay as
    they are.  A packet that meets backpressure counts as not taken. *)
Theorem drain_is_bounded e s t :
  engine_ok e -> sink_wf s ->
  yields (drain_downlink e s t) (fun '(e', s') => drains e e' /\ sink_wf s' /\
    exists pops, drained (e_downlink e) (e_downlink e') pops /\ (length pops <= 128)%nat
      /\ StronglySorted (fun a b => class_rank a.2 <= class_rank b.2) pops).
Proof.
  intros He Hs. eapply yields_impl; [apply drain_classes_pops; [done|done|]|].
  - repeat constructor; cbn; lia.
  - intros [e' s'] (Hd & Hs' & pops & H1 & H2 & H3 & _). split_and!; try done. by exists pops.
Qed.

(** C33. A packet read from the TUN device joins at most one queue, that of the
    client whose tunnel address it is bound for, and changes no other; and
    whatever the drain of the queues hands to the sink is a packet from them, for
    a session that holds the address the packet is bound for, with its frame
    header if the session takes frames.  A packet taken from the queue of a
    client is sent over one of that client's own streams, and given up as
    undeliverable only when the client has no stream at all. *)
Theorem downlink_reaches_its_client e s t :
  engine_ok e -> sink_wf s ->
  (forall packet, packet_ok packet -> len packet <= 65535 ->
    yields (on_tun e s packet) (fun '(e', s') => s' = s /\ engine_ok e' /\ joins (e_downlink e) (e_downlink e') packet))
  /\ yields (drain_downlink e s t) (fun '(e', s') => engine_ok e' /\ deliveries e t s s')
  /\ (forall key packet class, packet_ok packet -> 0 <= key < 256 ->
    yields (send_down_key e s t key packet class) (fun '(r, e', s') =>
      match r with
      | Stale => streams_at (e_routes e) key = [] /\ s' = s
      | _ => exists slot h e1 e2 sent, stream_of e key slot h
          /\ send_legacy_plain e1 s t slot h (outgoing h packet) class = Ok (sent, e2, s')
          /\ r = if (sent : bool) then Sent else Backpressured
      end)).
Proof.
  intros He Hs. split_and!.
  - intros packet Hp Hl. unfold on_tun. eapply yields_bind; [by apply tun_joins|]. intros e' [Hd Hj]. apply yields_ret. split_and!; [done|apply Hd|done].
  - eapply yields_impl; [apply drain_classes_pops; [done|done|]; repeat constructor; cbn; lia|].
    intros [e' s'] (Hd & _ & pops & _ & _ & _ & _ & Hdel). split; [apply Hd|done].
  - intros key packet class Hp Hk. by apply key_delivers.
Qed.

(** ** Where sessions come from *)

Lemma place_map e s slot payload : forall k x, sl_map (e_sessions (place_new_session e s slot payload).1) !! k = Some x ->
  exists k', sl_map (e_sessions e) !! k' = Some x.
Proof.
  intros k x. unfold place_new_session, Slab_get. destruct (sl_map (e_sessions e) !! slot) as [h|] eqn:Eh; [|by eauto].
  destruct (_ =? e_shard_index e).
  { cbn [fst]. rewrite (proj1 (publish_created_fields _ _ _)). eauto. }
  destruct (router_try_send _ _) as [[|] s1]; cbn [fst].
  { cbn. intros [_ Hx]%lookup_delete_Some. eauto. }
  match goal with |- context [insert_session ?y h] => set (e2 := y) end.
  destruct (insert_session e2 h) as [slot' e3] eqn:Ei. cbn [fst]. rewrite (proj1 (publish_created_fields _ _ _)).
  unfold insert_session in Ei. destruct (Slab_insert (e_sessions e2) h) as [sl0 sl] eqn:Es. injection Ei as _ <-. injection Es as _ <-. cbn.
  intros [[_ <-]|[_ [_ Hx]%lookup_delete_Some]]%lookup_insert_Some; eauto.
Qed.

(** The packet is a GETCONF of that client, sealed with [key]. *)
Definition getconf_under (key packet : bytes) (h : HotSession) : Prop :=
  exists expected opened d, unwrap_legacy_in_place key packet expected = Ok (opened, d)
    /\ parse_getconf_epoch (sub opened (dp_start d) (dp_end d)) = Some (hs_device_id h, hs_generation_id h, hs_session_salt h).
(** [old] was there and is not any more. *)
Definition replaced (e e' : Engine) (old : HotSession) : Prop :=
  serves e (fun h => h = old) /\ ~ serves e' (fun h => hs_id h = hs_id old).
(** The password and key of a credential, or of the client's session that is replaced. *)
Definition known_key (e e' : Engine) (peer : SockAddr) (password key : bytes) : Prop :=
  (exists c, c ∈ e_credentials e /\ cr_password c = password /\ cr_key c = key)
  \/ (exists old, replaced e e' old /\ hs_peer old = peer /\ hs_password old = password /\ hs_key old = key).
Definition comes_from (e e' : Engine) (peer : SockAddr) (packet : bytes) (h' : HotSession) : Prop :=
  serves e (fun h => who h = who h')
  \/ (hs_peer h' = peer /\ fresh_session h' /\ hs_id h' = sh_session_counter (e_shared e)
      /\ exists key, known_key e e' peer (hs_password h') key /\ getconf_under key packet h').

Lemma comes_keeps e e' e'' peer packet slot h' : keeps e e' -> sl_map (e_sessions e') !! slot = Some h' -> comes_from e e'' peer packet h'.
Proof.
  intros Hk Hh. left. pose proof (ke_who _ _ Hk) as Hw. apply (f_equal (.!! slot)) in Hw. rewrite !lookup_fmap, Hh in Hw.
  destruct (sl_map (e_sessions e) !! slot) as [h|] eqn:E; [|done]. exists slot, h. split; [done|]. symmetry. by apply (inj Some).
Qed.

(** A session made from [e0], whose sessions are those of [e]. *)
Lemma comes_created e e0 s t peer local_ip password key pt is_srtp device generation salt seq plain packet slot' h' :
  engine_ok e0 -> sh_session_counter (e_shared e0) = sh_session_counter (e_shared e) -> sh_session_counter (e_shared e) < U64_MAX ->
  (forall e' k x, sl_map (e_sessions e0) !! k = Some x -> comes_from e e' peer packet x) ->
  (exists expected opened d, unwrap_legacy_in_place key packet expected = Ok (opened, d)
     /\ parse_getconf_epoch (sub opened (dp_start d) (dp_end d)) = Some (device, generation, salt)) ->
  let '(slot, e1) := create_legacy_session e0 t peer local_ip password key pt is_srtp device generation salt seq in
  (forall e2, e_sessions e2 = e_sessions e1 -> known_key e (place_new_session e2 s slot plain).1 peer password key ->
     sl_map (e_sessions (place_new_session e2 s slot plain).1) !! slot' = Some h' -> comes_from e (place_new_session e2 s slot plain).1 peer packet h').
Proof.
  intros He0 Hcc Hc Hold Hget. pose proof (create_spec e0 t peer local_ip password key pt is_srtp device generation salt seq He0 ltac:(lia)) as Hcr.
  destruct (create_legacy_session _ _ _ _ _ _ _ _ _ _ _ _) as [slot e1]. destruct Hcr as (_ & h & Hh & Hf & Hep & Hid & Hpw & Hd & Hg & Hsa & Hrest).
  intros e2 Hs2 Hkey (k & Hk)%place_map. rewrite Hs2 in Hk. destruct (decide (k = slot)) as [->|Hne]; [|by apply (Hold _ k), Hrest].
  assert (h' = h) as -> by congruence. right. injection Hep as Hp _. split; [done|]. split; [done|]. split; [congruence|]. exists key. rewrite Hpw. split; [done|].
  destruct Hget as (ex & opened & d & Hu & Hpe). exists ex, opened, d. split; [done|]. by rewrite Hd, Hg, Hsa.
Qed.
(** What had gone before it was made stays gone. *)
Lemma created_gone e0 s t peer local_ip password key pt is_srtp device generation salt seq plain i :
  engine_ok e0 -> sh_session_counter (e_shared e0) < U64_MAX -> i < sh_session_counter (e_shared e0) -> ~ serves e0 (fun h => hs_id h = i) ->
  let '(slot, e1) := create_legacy_session e0 t peer local_ip password key pt is_srtp device generation salt seq in
  ~ serves (place_new_session e1 s slot plain).1 (fun h => hs_id h = i).
Proof.
  intros He0 Hc Hi Hno. pose proof (create_spec e0 t peer local_ip password key pt is_srtp device generation salt seq He0 Hc) as Hcr.
  destruct (create_legacy_session _ _ _ _ _ _ _ _ _ _ _ _) as [slot e1]. destruct Hcr as (_ & h & Hh & _ & _ & Hid & _ & _ & _ & _ & Hrest).
  intros (k' & x & (k & Hk)%place_map & Hx). destruct (decide (k = slot)) as [->|Hne]; [|by apply Hno; exists k, x; split; [apply Hrest|]].
  assert (x = h) as -> by congruence. lia.
Qed.

Lemma comes_self e e' peer packet k x : engine_ok e -> sl_map (e_sessions e) !! k = Some x -> comes_from e e' peer packet x.
Proof. intros He Hx. by apply (comes_keeps e e e' peer packet k); [apply keeps_refl|]. Qed.

Lemma unknown_comes e s t peer local_ip packet e' s' slot' h' :
  engine_ok e -> packet_ok packet -> sh_session_counter (e_shared e) < U64_MAX ->
  handle_unknown_legacy e s t peer local_ip packet = Ok (e', s') -> sl_map (e_sessions e') !! slot' = Some h' -> comes_from e e' peer packet h'.
Proof.
  intros He Hp Hc. pose proof (fun e'' k x => comes_self e e'' peer packet k x He) as Hself.
  unfold handle_unknown_legacy. destruct (_ || _); [intros [= <- <-]; apply Hself|]. set (e1 := set_e_misc e _).
  destruct (find_credential_spec (e_credentials e1) packet Hp) as (found & -> & Hf). cbn [mbind result_bind].
  destruct found as [[[[c d] [[device generation] salt]] plain]|].
  2: { intros [= <- <-]. unfold report_unauthenticated_setup. destruct (_ && _); apply Hself. }
  destruct Hf as (Hin & _ & Hpe & opened & Hu & Hsub).
  pose proof (comes_created e e1 s t peer local_ip (cr_password c) (cr_key c) (dp_payload_type d) (dp_is_srtp d) device generation salt (dp_seq d)
    plain packet slot' h' (ok_misc _ _ He) eq_refl Hc Hself) as Hcr. destruct (create_legacy_session _ _ _ _ _ _ _ _ _ _ _ _) as [slot e2].
  pose proof (dpi_sessions e2 plain) as Hsm. destruct (should_record_dpi e2 plain) as [rec e3]. cbn [snd] in Hsm.
  assert (Hgo : sl_map (e_sessions (place_new_session e3 s slot plain).1) !! slot' = Some h' -> comes_from e (place_new_session e3 s slot plain).1 peer packet h').
  { intros Hy. refine (Hcr _ e3 Hsm _ Hy); [|left; by exists c]. exists None, opened, d. by rewrite Hsub. }
  unfold Slab_get. destruct (sl_map (e_sessions e3) !! slot) as [h|] eqn:Eh; intros Hr Hy.
  - injection Hr as Hr. rewrite Hr in Hgo. by apply Hgo.
  - injection Hr as <- <-. unfold place_new_session, Slab_get in Hgo. rewrite Eh in Hgo. by apply Hgo.
Qed.

Lemma existing_comes e s t slot h local_ip packet e' s' slot' h' :
  engine_ok e -> sink_wf s -> packet_ok packet -> sh_session_counter (e_shared e) < U64_MAX ->
  sl_map (e_sessions e) !! slot = Some h -> arrives e h local_ip ->
  handle_existing e s t slot local_ip packet = Ok (e', s') -> sl_map (e_sessions e') !! slot' = Some h' -> comes_from e e' (hs_peer h) packet h'.
Proof.
  intros He Hs [Hwf Hl] Hc Hh Har. pose proof (fun e'' k x => comes_self e e'' (hs_peer h) packet k x He) as Hself. unfold handle_existing, Slab_get. rewrite Hh.
  destruct (unwrap_legacy_safe (hs_key h) packet (Some (hs_is_srtp h)) Hwf) as [Hsafe Hop].
  destruct (unwrap_legacy_in_place _ _ _) as [[opened d]|err|] eqn:Eu; cbn [catch mbind result_bind]; [|intros [= <- <-]; apply Hself|done].
  destruct (@opened_slice unit _ _ (Hop _ eq_refl) Hl) as (plain & Hsl & Hpl). cbn [fst snd] in Hsl. rewrite Hsl. cbn [mbind result_bind].
  assert (Hproc : forall e1, keeps e e1 -> sl_map (e_sessions e1) = sl_map (e_sessions e) -> e_by_peer e1 = e_by_peer e ->
    process_existing e1 s t slot local_ip d plain = Ok (e', s') -> sl_map (e_sessions e') !! slot' = Some h' -> comes_from e e' (hs_peer h) packet h').
  { intros e1 Hk Hsm Hbp Hr. assert (Hh1 : sl_map (e_sessions e1) !! slot = Some h) by (by rewrite Hsm).
    destruct (process_spec e1 s t slot h local_ip d plain (ke_ok _ _ Hk) Hs Hh1 Hpl) as ([e2 s2] & Hr2 & Hk2 & _); [unfold arrives; by rewrite Hbp|].
    rewrite Hr2 in Hr. injection Hr as <- <-. apply comes_keeps. by eapply keeps_trans. }
  destruct (starts_with plain GETCONF); [|by apply (Hproc e (keeps_refl e He))].
  destruct (parse_getconf_epoch plain) as [[[device generation] salt]|] eqn:Epe; [|intros [= <- <-]; apply Hself].
  pose proof (ok_touch e device He) as Hk. destruct (touch_by_peer e device) as [Hbp Hsm]. destruct (getconf_reconnect_action_hot _ _ _ _ _ _); [by apply (Hproc _ Hk Hsm Hbp)|].
  destruct (ok_remove (touch_epoch e device) slot "epoch-replaced" (ke_ok _ _ Hk)) as (Hok2 & Hm2 & Hc2).
  pose proof (comes_created e _ s t (hs_peer h) (match local_ip with Some _ => local_ip | None => hs_local_ip h end) (hs_password h) (hs_key h) (dp_payload_type d)
    (dp_is_srtp d) device generation salt (dp_seq d) plain packet slot' h' Hok2) as Hcr.
  assert (Hc2' : sh_session_counter (e_shared (remove_slot_with_reason (touch_epoch e device) slot "epoch-replaced")) = sh_session_counter (e_shared e))
    by (rewrite Hc2; apply (ke_counter _ _ Hk)).
  pose proof (created_gone _ s t (hs_peer h) (match local_ip with Some _ => local_ip | None => hs_local_ip h end) (hs_password h) (hs_key h) (dp_payload_type d)
    (dp_is_srtp d) device generation salt (dp_seq d) plain (hs_id h) Hok2) as Hgone.
  destruct (create_legacy_session _ _ _ _ _ _ _ _ _ _ _ _) as [slot2 e3]. intros Hr Hy. injection Hr as Hr. rewrite Hr in Hgone. specialize (Hcr Hc2' Hc).
  assert (Hold : forall e'' k x, sl_map (e_sessions (remove_slot_with_reason (touch_epoch e device) slot "epoch-replaced")) !! k = Some x -> comes_from e e'' (hs_peer h) packet x).
  { intros e'' k x. rewrite Hm2, Hsm. intros [_ Hx]%lookup_delete_Some. by apply (Hself e'' k). }
  assert (Hgc : exists expected opened d, unwrap_legacy_in_place (hs_key h) packet expected = Ok (opened, d) /\ parse_getconf_epoch (sub opened (dp_start d) (dp_end d)) = Some (device, generation, salt)).
  { exists (Some (hs_is_srtp h)), opened, d. split; [done|]. by apply slice_inv in Hsl as (_ & _ & _ & <-). }
  specialize (Hcr Hold Hgc e3 eq_refl). rewrite Hr in Hcr. apply Hcr; [|done]. right. exists h. split_and!; [|done..].
  split; [by exists slot, h|]. apply Hgone; [lia|rewrite Hc2'; by apply (eo_sessions e He slot h)|].
  intros (k & x & Hx & Hid). rewrite Hm2, Hsm in Hx. apply lookup_delete_Some in Hx as [Hne Hx]. pose proof (ix_id _ _ _ _ (eo_index e He) (hs_id h)) as Hix.
  assert (e_by_id e !! hs_id h = Some slot) as H1 by (apply Hix; by exists h). assert (e_by_id e !! hs_id h = Some k) as H2 by (apply Hix; by exists x). congruence.
Qed.

(** C30. A datagram makes a session only if it is a GETCONF that opens under the
    key of a credential of the shard, or under the key of a session of the same
    client which is replaced: after any datagram, every session either was there
    before, with the same identity, password and tunnel, or is new, belongs to
    the sender's endpoint, has no tunnel, and carries the device, generation and
    salt of that GETCONF and the password of that key; and in the second case
    the session whose key it was is gone.  (Whether that password is still a credential is not
    asked then; it is [DropPassword] that ends the sessions of a password.) *)
Theorem sessions_come_from_getconf e s t peer local_ip packet e' s' slot' h' :
  engine_ok e -> sink_wf s -> packet_ok packet -> sh_session_counter (e_shared e) < U64_MAX ->
  on_udp e s t peer local_ip packet = Ok (e', s') -> sl_map (e_sessions e') !! slot' = Some h' -> comes_from e e' peer packet h'.
Proof.
  intros He Hs Hp Hc. pose proof (ix_peer _ _ _ _ (eo_index e He)) as Hix. unfold on_udp.
  destruct (e_by_peer e !! (peer, local_ip)) as [slot|] eqn:E1.
  { apply Hix in E1 as (h & Hh & [= <- Hlo]). apply (existing_comes e s t slot h local_ip); try done. by left. }
  assert (Hrest : (if endpoint_is_migrating e peer local_ip then Ok (e, s) else handle_unknown_legacy e s t peer local_ip packet) = Ok (e', s') ->
    sl_map (e_sessions e') !! slot' = Some h' -> comes_from e e' peer packet h').
  { destruct (endpoint_is_migrating _ _ _); [intros [= <- <-]; by apply comes_self|by apply unknown_comes]. }
  destruct (bool_decide (is_Some local_ip)); [|exact Hrest]. destruct (e_by_peer e !! (peer, None)) as [slot|] eqn:E2; [|exact Hrest].
  apply Hix in E2 as (h & Hh & [= <- Hlo]). apply (existing_comes e s t slot h local_ip); try done. by right.
Qed.

(** ** Sessions that move to another shard *)

Lemma insert_found e h : engine_ok e -> session_ok h -> hs_id h < sh_session_counter (e_shared e) ->
  e_by_peer e !! endpoint_of h = None -> e_by_id e !! hs_id h = None ->
  at_endpoint (insert_session e h).2 (endpoint_of h) = Some h /\ with_number (insert_session e h).2 (hs_id h) = Some h.
Proof.
  intros He Hs Hlt Hp Hi. destruct (ok_insert e h He Hs Hlt Hp Hi) as (Hok & Hm & _).
  assert (Hsv : serves (insert_session e h).2 (fun x => x = h)) by (exists (insert_session e h).1, h; by rewrite Hm, lookup_insert_eq).
  split; [by apply at_endpoint_spec|by apply with_number_spec].
Qed.
Lemma published_same e h payload k : at_endpoint (publish_created_session e h payload) k = at_endpoint e k
  /\ forall i, with_number (publish_created_session e h payload) i = with_number e i.
Proof. unfold publish_created_session, emit. destruct (try_send _ _), (try_send _ _). done. Qed.

Definition target_of (e : Engine) (h : HotSession) : Z := shard_for_device (hs_device_id h) (e_shard_count e).
Definition migration (e : Engine) (h : HotSession) (payload : bytes) : RouterCommand ProtocolCommand :=
  Migrate (endpoint_of h) (target_of e h) (AdoptSession h payload).

(** A new session of a device that belongs to another shard is handed over
    exactly once.  If the router takes the command, this shard forgets the
    session and ignores its endpoint while it moves, and the shard that adopts
    it serves it at the same endpoint under the same number; if not, this
    shard goes on serving it.  No shard's tables are left wrong. *)
Theorem migration_hands_over e s slot h payload :
  engine_ok e -> sink_wf s -> sl_map (e_sessions e) !! slot = Some h -> fresh_session h -> target_of e h <> e_shard_index e ->
  let '(e', s') := place_new_session e s slot payload in
  engine_ok e' /\ sink_wf s'
  /\ if (router_try_send s (migration e h payload)).1 then
       at_endpoint e' (endpoint_of h) = None /\ with_number e' (hs_id h) = None
       /\ endpoint_is_migrating e' (hs_peer h) (hs_local_ip h) = true
       /\ forall (b : Engine) (sb : Sk), engine_ok b -> sink_wf sb -> adoptable b h ->
            let '(b', sb') := adopt_session b sb h payload in
            engine_ok b' /\ at_endpoint b' (endpoint_of h) = Some h /\ with_number b' (hs_id h) = Some h
     else at_endpoint e' (endpoint_of h) = Some h /\ with_number e' (hs_id h) = Some h.
Proof.
  intros He Hs Hh Hf Hne. pose proof (place_spec e s slot h payload He Hs Hh Hf) as Hpl. unfold migration. fold (target_of e h).
  unfold place_new_session, Slab_get in *. rewrite Hh in *. fold (endpoint_of h) (target_of e h) in *.
  replace (target_of e h =? e_shard_index e) with false in * by lia.
  assert (Hun : unrouted (e_routes e) slot) by (eapply unrouted_without; [apply (eo_index e He)|exact Hh|left; apply Hf]).
  destruct (router_try_send s _) as [[|] s1]; cbn [fst].
  - destruct Hpl as [[Hok _] Hs']. split; [done|]. split; [done|]. match goal with |- at_endpoint ?x _ = _ /\ _ => set (e' := x) in * end.
    destruct (free_after_delete _ _ _ _ slot h (eo_index e He) Hh _ _ _ (eo_index _ Hok)) as [H1 H2]. split_and!.
    + unfold at_endpoint. by rewrite H1.
    + unfold with_number. by rewrite H2.
    + unfold endpoint_is_migrating, e'. cbn. fold (endpoint_of h). rewrite lookup_insert_eq. by rewrite bool_decide_eq_true_2 by eauto.
    + intros b sb Hb Hsb Had. pose proof (adopt_spec b sb h payload Hb Hsb Had) as Ha. destruct Had as (A1 & A2 & A3 & A4).
      destruct (insert_found b h Hb A1 A2 A3 A4) as [F1 F2]. unfold adopt_session in *. destruct (insert_session b h) as [slot' b1]. cbn [snd] in F1, F2.
      destruct (published_same (set_dirty b1) h payload (endpoint_of h)) as [P1 P2]. destruct Ha as ([Hok' _] & _). split; [done|].
      rewrite P1, P2. done.
  - match goal with |- context [insert_session ?x h] => set (e1 := x) in * end.
    assert (He1 : engine_ok e1).
    { apply ok_migrating, ok_migrating. destruct He as [Hix Hse Hb Hsh Hshard]. split; cbn; [by apply index_delete| |done|done|done]. intros k y [_ Hy]%lookup_delete_Some. by apply (Hse k). }
    destruct (free_after_delete _ _ _ _ slot h (eo_index e He) Hh _ _ _ (eo_index _ He1)) as [H1 H2]. destruct (eo_sessions e He _ _ Hh) as [Hso Hlt].
    destruct (insert_found e1 h He1 Hso Hlt H1 H2) as [F1 F2]. destruct (insert_session e1 h) as [slot' e2]. cbn [snd] in F1, F2.
    destruct (published_same e2 h payload (endpoint_of h)) as [P1 P2]. destruct Hpl as [[Hok _] Hs']. split; [done|]. split; [done|]. rewrite P1, P2. done.
Qed.

(** An adopted session does not displace a session that already holds its
    endpoint (unlike a session made by a datagram).  Both stay in the slab and
    the endpoint leads to the new one only; when the old one ends, for
    instance because it has been silent for fifteen seconds, the endpoint of
    the new one is forgotten with it, and its traffic is not recognised any
    more although the session is still there. *)
Theorem adoption_over_a_held_endpoint e s slot old new payload reason :
  engine_ok e -> sl_map (e_sessions e) !! slot = Some old -> endpoint_of new = endpoint_of old ->
  let '(e1, _) := adopt_session e s new payload in
  let e2 := remove_slot_with_reason e1 slot reason in
  at_endpoint e1 (endpoint_of new) = Some new /\ sl_map (e_sessions e1) !! slot = Some old
  /\ at_endpoint e2 (endpoint_of new) = None /\ serves e2 (fun h => h = new).
Proof.
  intros He Hold Hep. unfold adopt_session. pose proof (Slab_insert_vacant (e_sessions e) new) as Hv.
  assert (Hins : forall e1, e1 = (insert_session e new).2 -> e_by_peer e1 !! endpoint_of new = Some (Slab_insert (e_sessions e) new).1
    /\ sl_map (e_sessions e1) = <[(Slab_insert (e_sessions e) new).1 := new]> (sl_map (e_sessions e))).
  { intros e1 ->. unfold insert_session. destruct (Slab_insert (e_sessions e) new) as [k sl] eqn:Es. injection Es as Hk <-. cbn [fst snd] in *. subst k.
    split; [cbn; fold (endpoint_of new); apply lookup_insert_eq|done]. }
  destruct (insert_session e new) as [k e1]. destruct (Hins e1 eq_refl) as [Hbp Hm]. set (n := (Slab_insert (e_sessions e) new).1) in *.
  destruct (published_same (set_dirty e1) new payload (endpoint_of new)) as [P1 _]. set (e3 := publish_created_session (set_dirty e1) new payload) in *.
  assert (Hm3 : sl_map (e_sessions e3) = sl_map (e_sessions e1)) by (unfold e3; by rewrite (proj1 (publish_created_fields _ _ _))).
  assert (Hne : slot <> n) by congruence.
  assert (Ho3 : sl_map (e_sessions e3) !! slot = Some old) by (rewrite Hm3, Hm; by rewrite lookup_insert_ne).
  split_and!; [rewrite P1; unfold at_endpoint; cbn; rewrite Hbp; cbn; by rewrite Hm, lookup_insert_eq|done| |].
  - (* the removal deletes the entry of the endpoint *)
    unfold remove_slot_with_reason, Slab_get. rewrite Ho3. set (e4 := set_dirty _). destruct (counters_spec e4 old) as (h' & x' & -> & (Ke & _ & _ & _) & _).
    fold (endpoint_of h'). rewrite Ke, Hep. unfold at_endpoint.
    match goal with |- context [on_public ?y _ _] => set (e5 := y) end.
    assert (Hbp5 : e_by_peer e5 !! endpoint_of old = None).
    { unfold e5. destruct (hs_tunnel_ip h') as [ip|]; [destruct (hs_registration_id h') as [rid|]|]; try (cbn; apply lookup_delete_eq).
      unfold release_route. destruct (RouteTable_unregister _ _ _) as [removed routes]. rewrite (proj2 (proj2 (proj2 (sync_fields _ _)))).
      destruct removed; [destruct (fallback _ _ _ _) as [[sl c]|]; [destruct (_ <=? U16_MAX)|]|]; cbn; apply lookup_delete_eq. }
    unfold emit. destruct (try_send _ _) as [sent control]. cbn. by rewrite Hbp5.
  - exists n, new. split; [|done]. unfold remove_slot_with_reason, Slab_get. rewrite Ho3. set (e4 := set_dirty _).
    destruct (counters_spec e4 old) as (h' & x' & -> & _). match goal with |- context [on_public ?y _ _] => set (e5 := y) end.
    assert (Hs5 : sl_map (e_sessions e5) = delete slot (sl_map (e_sessions e3))).
    { unfold e5. destruct (hs_tunnel_ip h') as [ip|]; [destruct (hs_registration_id h') as [rid|]|]; [by rewrite (proj1 (release_fields _ _ _ _))|done..]. }
    unfold emit. destruct (try_send _ _) as [sent control]. cbn. rewrite Hs5, lookup_delete_ne by done. by rewrite Hm3, Hm, lookup_insert_eq.
Qed.
End EngineProps.

(** ** A small server *)

#[export] Instance demo_entropy : Entropy := {| rng_packet _ _ := mkDraws 0 0 []; os_random _ := replicate 12 1 |}.
#[export] Instance demo_entropy_laws : EntropyLaws demo_entropy.
Proof. split; [intros n bound Hb; unfold draws_ok; cbn; split_and!; try lia; done|done]. Qed.

Abbreviation demo_out := (RemotePacketSink ProtocolCommand).
Definition demo_shared : Shared := mkShared ∅ 1 0 0 (mkChannel [] 1024 true) ∅.
Lemma demo_shared_ok : shared_ok demo_shared.
Proof. split; [cbn; unfold is_u64; lia|apply map_Forall_empty]. Qed.
Definition demo_credentials : list Credential := [mkCredential (b_ "password") demo_key].
Definition demo_engine (count : Z) : Engine := Engine_new 0 count demo_credentials ∅ Safe 1 1000 0 demo_shared.
Definition demo_sink : demo_out := mkRemote (mkChannel [] 64 true) (ServerPool_new 8).
Lemma demo_sink_wf : sink_wf demo_sink.
Proof. split; constructor. Qed.
Lemma demo_shards_ok index count : shards_ok (Sk := demo_out) index count.
Proof. by split. Qed.

(** What a client sends first. *)
Definition demo_request (device : bytes) : bytes := config_request (b_ "9000") device (b_ "password") 7 (b_ "salt") 4 (Some 36).
Definition demo_wrapped (plain : bytes) (st : ObfsState) : bytes :=
  match (ObfsCipher_wrap demo_key (mkClientBuf (replicate 64 0 ++ plain ++ replicate (2240 - length plain) 0) 64 (64 + len plain))
           (ObfsConfig_new Video 77) st 99 demo_draws).1 with Ok q => window q | _ => [] end.
Definition demo_datagram : engine_event := EvUdp (mkMoment 5 2000) demo_peer None (demo_wrapped (demo_request (b_ "device")) demo_state).
Definition demo_activate : engine_event := EvCommand (mkMoment 6 2000) (ActivateTunnel 1 [10; 66; 67; 9] 50 4 36).
Definition demo_step (x : Engine * demo_out) (ev : engine_event) : Engine * demo_out :=
  match engine_handle x.1 x.2 ev with Ok r => r | _ => x end.
Definition demo_first : Engine * demo_out := demo_step (demo_engine 1, demo_sink) demo_datagram.
Definition demo_second : Engine * demo_out := demo_step demo_first demo_activate.
Definition demo_sessions (x : Engine * demo_out) := who <$> sl_map (e_sessions x.1).

Lemma demo_packet_ok plain st : forallb (fun b => (0 <=? b) && (b <? 256)) (demo_wrapped plain st) = true ->
  (len (demo_wrapped plain st) <=? 2000) = true -> packet_ok (demo_wrapped plain st).
Proof.
  intros Hall Hl. split; [|unfold ISIZE_MAX; lia]. apply Forall_forall. intros b Hb. rewrite forallb_forall in Hall.
  specialize (Hall b). rewrite <- list_elem_of_In in Hall. specialize (Hall Hb). unfold is_u8. lia.
Qed.
Lemma demo_reach_first : engine_reach (demo_engine 1) demo_sink demo_first.1 demo_first.2.
Proof.
  eapply (reach_event _ _ _ _ demo_datagram); [apply reach_start| |].
  - split; [apply demo_packet_ok; vm_compute; reflexivity|vm_compute; reflexivity].
  - vm_compute. reflexivity.
Qed.
Lemma demo_first_ok : engine_ok (Sk := demo_out) demo_first.1 /\ sink_wf demo_first.2.
Proof. eapply reach_ok; [apply engine_new_ok; [apply demo_shared_ok|apply demo_shards_ok]|apply demo_sink_wf|apply demo_reach_first]. Qed.
Lemma demo_reach_second : engine_reach (demo_engine 1) demo_sink demo_second.1 demo_second.2.
Proof.
  eapply (reach_event _ _ _ _ demo_activate); [apply demo_reach_first| |vm_compute; reflexivity].
  split; [apply (bool_decide_unpack _); vm_compute; exact I|unfold is_u16; lia].
Qed.
Lemma demo_second_ok : engine_ok (Sk := demo_out) demo_second.1 /\ sink_wf demo_second.2.
Proof. eapply reach_ok; [apply engine_new_ok; [apply demo_shared_ok|apply demo_shards_ok]|apply demo_sink_wf|apply demo_reach_second]. Qed.
Definition demo_who : Z * bytes * bytes * Z * bytes * option bytes * option Z := (1, b_ "password", b_ "device", 7, b_ "salt", None, None).

Lemma engine_never_panics_witness :
  demo_sessions demo_first = {[0 := demo_who]}
  /\ exists e' s', engine_handle demo_first.1 demo_first.2 demo_activate = Ok (e', s').
Proof.
  split; [vm_compute; reflexivity|].
  apply (engine_never_panics 0 1 demo_credentials ∅ Safe 1 1000 0 demo_shared demo_sink demo_first.1 demo_first.2 demo_shared_ok (demo_shards_ok 0 1) demo_sink_wf demo_reach_first).
  split; [apply (bool_decide_unpack _); vm_compute; exact I|unfold is_u16; lia].
Defined.

Lemma demo_first_session : exists h, sl_map (e_sessions demo_first.1) !! 0 = Some h /\ who h = demo_who.
Proof. eexists. split; vm_compute; reflexivity. Qed.

Lemma command_retires_exactly_witness :
  exists e' s', on_command demo_first.1 demo_first.2 (mkMoment 7 2000) (DropPassword (b_ "password")) = Ok (e', s') /\ gone e' 0.
Proof.
  destruct (command_retires_exactly demo_first.1 demo_first.2 (mkMoment 7 2000) (DropPassword (b_ "password"))
    (proj1 demo_first_ok) (proj2 demo_first_ok) I) as ([e' s'] & Hc & (_ & Hgo & _) & _).
  exists e', s'. split; [exact Hc|]. destruct demo_first_session as (h & Hh & Hw). apply (Hgo 0 h Hh). cbn. injection Hw as _ -> _ _ _ _ _. reflexivity.
Defined.

Lemma tick_ends_overdue_sessions_witness :
  exists e' s', on_tick demo_first.1 demo_first.2 (mkMoment 7 2000) 20000 1020 false = Ok (e', s') /\ ~ serves e' (fun h => who h = demo_who).
Proof.
  destruct (tick_ends_overdue_sessions demo_first.1 demo_first.2 (mkMoment 7 2000) 20000 1020 false (proj1 demo_first_ok) (proj2 demo_first_ok))
    as ([e' s'] & Hc & Hs); [vm_compute; discriminate|].
  exists e', s'. split; [exact Hc|]. rewrite (Hs demo_who). intros (slot & h & Hh & Hw & Hno). apply Hno.
  assert (Hall : map_Forall (fun _ h => overdue (20000 `min` U64_MAX + 1) h) (sl_map (e_sessions demo_first.1)))
    by (apply (bool_decide_unpack _); vm_compute; exact I).
  exact (Hall slot h Hh).
Defined.

Lemma compaction_is_transparent_witness :
  client_streams (compact_memory demo_second.1 true) 9 = client_streams demo_second.1 9
  /\ length (client_streams demo_second.1 9) = 1%nat.
Proof.
  split; [|vm_compute; reflexivity]. destruct (compaction_is_transparent demo_second.1 true (proj1 demo_second_ok)) as (_ & _ & H). apply H. lia.
Defined.

(** A packet for 10.66.67.9, read and drained. *)
Definition demo_tun : bytes := [69; 0; 0; 24; 0; 0; 0; 0; 64; 17; 0; 0; 1; 1; 1; 1; 10; 66; 67; 9; 1; 2; 3; 4].
Lemma downlink_reaches_its_client_witness :
  exists e' s' e'' s'', on_tun demo_second.1 demo_second.2 demo_tun = Ok (e', s') /\ length (Downlink.contents (e_downlink e') 9 Small) = 1%nat
    /\ joins (e_downlink demo_second.1) (e_downlink e') demo_tun
    /\ drain_downlink e' s' (mkMoment 7 2000) = Ok (e'', s'') /\ Downlink.contents (e_downlink e'') 9 Small = [] /\ deliveries e' (mkMoment 7 2000) s' s''.
Proof.
  destruct (downlink_reaches_its_client demo_second.1 demo_second.2 (mkMoment 7 2000) (proj1 demo_second_ok) (proj2 demo_second_ok)) as (Htun & _ & _).
  destruct (Htun demo_tun) as ([e' s'] & E1 & -> & Hok & Hj); [split; [apply (bool_decide_unpack _); vm_compute; exact I|vm_compute; discriminate]|vm_compute; discriminate|].
  destruct (downlink_reaches_its_client e' demo_second.2 (mkMoment 7 2000) Hok (proj2 demo_second_ok)) as (_ & ([e'' s''] & E2 & _ & Hd) & _).
  exists e', demo_second.2, e'', s''. assert (Hl : match on_tun demo_second.1 demo_second.2 demo_tun with Ok (e', s') =>
    match drain_downlink e' s' (mkMoment 7 2000) with Ok (e'', _) => (length (Downlink.contents (e_downlink e') 9 Small), Downlink.contents (e_downlink e'') 9 Small) | _ => (0%nat, []) end | _ => (0%nat, []) end = (1%nat, []))
    by (vm_compute; reflexivity).
  rewrite E1, E2 in Hl. injection Hl as Hl1 Hl2. exact (conj E1 (conj Hl1 (conj Hj (conj E2 (conj Hl2 Hd))))).
Defined.

Lemma drain_is_bounded_witness :
  exists e' s' pops, drain_downlink demo_second.1 demo_second.2 (mkMoment 7 2000) = Ok (e', s') /\ (length pops <= 128)%nat
    /\ drained (e_downlink demo_second.1) (e_downlink e') pops.
Proof.
  destruct (drain_is_bounded demo_second.1 demo_second.2 (mkMoment 7 2000) (proj1 demo_second_ok) (proj2 demo_second_ok))
    as ([e' s'] & Hc & _ & _ & pops & H1 & H2 & _).
  exists e', s', pops. split; [exact Hc|]. split; [exact H2|exact H1].
Defined.

Lemma sessions_come_from_getconf_witness :
  exists h, sl_map (e_sessions demo_first.1) !! 0 = Some h /\ who h = demo_who
    /\ comes_from (demo_engine 1) demo_first.1 demo_peer (demo_wrapped (demo_request (b_ "device")) demo_state) h.
Proof.
  destruct demo_first_session as (h & Hh & Hw). exists h. split; [exact Hh|]. split; [exact Hw|].
  apply (sessions_come_from_getconf (demo_engine 1) demo_sink (mkMoment 5 2000) demo_peer None (demo_wrapped (demo_request (b_ "device")) demo_state)
    demo_first.1 demo_first.2 0 h (engine_new_ok (Sk := demo_out) _ _ _ _ _ _ _ _ _ demo_shared_ok (demo_shards_ok _ _)) demo_sink_wf); [|vm_compute; reflexivity|vm_compute; reflexivity|exact Hh].
  apply demo_packet_ok; vm_compute; reflexivity.
Defined.

(** A shard of four, with a session that belongs to another. *)
Definition demo_created := create_legacy_session (demo_engine 4) (mkMoment 5 2000) demo_peer None (b_ "password") demo_key 96 true (b_ "device") 7 (b_ "salt") 3.
Lemma demo_created_ok : engine_ok (Sk := demo_out) demo_created.2
  /\ exists h, sl_map (e_sessions demo_created.2) !! demo_created.1 = Some h /\ fresh_session h /\ target_of demo_created.2 h <> 0
       /\ endpoint_of h = (demo_peer, None).
Proof.
  pose proof (create_spec (demo_engine 4) (mkMoment 5 2000) demo_peer None (b_ "password") demo_key 96 true (b_ "device") 7 (b_ "salt") 3
    (engine_new_ok (Sk := demo_out) _ _ _ _ _ _ _ _ _ demo_shared_ok (demo_shards_ok _ _)) ltac:(vm_compute; reflexivity)) as Hc. fold demo_created in Hc.
  assert (Hb : (shard_for_device (b_ "device") (e_shard_count demo_created.2) =? 0) = false) by (vm_compute; reflexivity).
  destruct demo_created as [slot e]. destruct Hc as ([Hok _] & h & Hh & Hf & Hep & _ & _ & Hd & _). split; [done|]. exists h. split; [done|]. split; [done|]. split; [|done].
  unfold target_of. rewrite Hd. apply Z.eqb_neq. exact Hb.
Qed.

Lemma migration_hands_over_witness : exists h,
  sl_map (e_sessions demo_created.2) !! demo_created.1 = Some h
  /\ with_number (place_new_session demo_created.2 demo_sink demo_created.1 (b_ "GETCONF:")).1 (hs_id h) = None.
Proof.
  destruct demo_created_ok as (Hok & h & Hh & Hf & Ht & _). exists h. split; [exact Hh|].
  pose proof (migration_hands_over demo_created.2 demo_sink demo_created.1 h (b_ "GETCONF:") Hok demo_sink_wf Hh Hf Ht) as Hm.
  destruct (place_new_session _ _ _ _) as [e' s']. destruct Hm as (_ & _ & Hm).
  replace ((router_try_send demo_sink (migration demo_created.2 h (b_ "GETCONF:"))).1) with true in Hm by reflexivity. apply Hm.
Defined.

Definition demo_rival : HotSession :=
  HotSession_legacy 2 demo_peer None (b_ "password") demo_key (OutState_new 96 (replicate 12 1) 2000 5) true (b_ "device") 7 (b_ "salt") Safe 1 5.
Lemma adoption_over_a_held_endpoint_witness :
  let e := remove_slot_with_reason (adopt_session demo_created.2 demo_sink demo_rival []).1 demo_created.1 "setup-idle-15s" in
  at_endpoint e (demo_peer, None) = None /\ serves e (fun h => h = demo_rival).
Proof.
  destruct demo_created_ok as (Hok & h & Hh & _ & _ & Hep).
  pose proof (adoption_over_a_held_endpoint demo_created.2 demo_sink demo_created.1 h demo_rival [] "setup-idle-15s" Hok Hh (eq_sym Hep)) as Ha.
  destruct (adopt_session _ _ _ _) as [e1 s1]. exact (conj (proj1 (proj2 (proj2 Ha))) (proj2 (proj2 (proj2 Ha)))).
Defined.
