(* ===== verification/Accounts.v ===== *)
(** * Accounts

    [rust-server/model.rs]: the database of passwords and devices, the
    addresses it assigns, the rows it is stored as, the import of the older
    JSON files, and the queue between the program and the thread that writes
    the rows.

    A table of the SQLite file is a finite map from its primary key to its rows,
    and an SQL statement of the source is the operation on that map the
    statement denotes.  SQLite, the file system and the JSON parser are not part
    of the repository: every call into them succeeds or fails as a list of
    answers says, a transaction that fails leaves the tables as they were, and
    the parser is a parameter. *)

From stdpp Require Import sorting.
From S2P Require Import Prelude Text.

(** ** Data *)

Definition MAX_PASSWORDS : Z := 20.
Definition PASSWORD_LEN : Z := 16.
Definition PASS_CHARS : bytes := b_ "ABCDEFGHJKLMNPQRSTUVWXYZabcdefghjkmnpqrstuvwxyz23456789".
Definition DEFAULT_AUTO_RESTART_INTERVAL_HOURS : Z := 0.
Definition DEFAULT_LOCAL_PROXY_PORT : Z := 45000.

Record ClientDevice := mkDevice {
  cd_device_id : bytes; cd_ip : bytes; cd_priv_key : bytes; cd_pub_key : bytes; cd_up_bytes : Z; cd_down_bytes : Z;
}.
#[global] Instance ClientDevice_eq_dec : EqDecision ClientDevice.
Proof. solve_decision. Defined.
Definition set_device_traffic (d : ClientDevice) (up down : Z) : ClientDevice :=
  mkDevice (cd_device_id d) (cd_ip d) (cd_priv_key d) (cd_pub_key d) up down.

Record PasswordEntry := mkEntry {
  pe_device_id : bytes; pe_expires_at : Z; pe_down_bytes : Z; pe_up_bytes : Z; pe_vk_hash : bytes; pe_ports : bytes;
  pe_is_deactivated : bool; pe_name : bytes; pe_vk_hashes : bytes; pe_dtls_port : Z; pe_wg_port : Z; pe_local_port : Z;
}.
#[global] Instance PasswordEntry_eq_dec : EqDecision PasswordEntry.
Proof. solve_decision. Defined.
Definition set_entry_device (e : PasswordEntry) (device_id : bytes) : PasswordEntry :=
  mkEntry device_id (pe_expires_at e) (pe_down_bytes e) (pe_up_bytes e) (pe_vk_hash e) (pe_ports e) (pe_is_deactivated e)
    (pe_name e) (pe_vk_hashes e) (pe_dtls_port e) (pe_wg_port e) (pe_local_port e).
Definition set_entry_traffic (e : PasswordEntry) (up down : Z) : PasswordEntry :=
  mkEntry (pe_device_id e) (pe_expires_at e) down up (pe_vk_hash e) (pe_ports e) (pe_is_deactivated e)
    (pe_name e) (pe_vk_hashes e) (pe_dtls_port e) (pe_wg_port e) (pe_local_port e).

Record LocalProxyProfile := mkProfile { lp_id : bytes; lp_name : bytes; lp_port : Z; lp_username : bytes; lp_password : bytes }.
#[global] Instance LocalProxyProfile_eq_dec : EqDecision LocalProxyProfile.
Proof. solve_decision. Defined.
Record LocalProxyState := mkProxyState { lp_active_profile_id : bytes; lp_profiles : list LocalProxyProfile }.
#[global] Instance LocalProxyState_eq_dec : EqDecision LocalProxyState.
Proof. solve_decision. Defined.

(** [LocalProxyState] *)
Definition with_default_port (p : LocalProxyProfile) : LocalProxyProfile :=
  if lp_port p =? 0 then mkProfile (lp_id p) (lp_name p) DEFAULT_LOCAL_PROXY_PORT (lp_username p) (lp_password p) else p.
Definition has_profile (profiles : list LocalProxyProfile) (id : bytes) : bool := existsb (fun p => bytes_eqb (lp_id p) id) profiles.
Definition LocalProxyState_normalize (s : LocalProxyState) : LocalProxyState :=
  let profiles := with_default_port <$> lp_profiles s in
  let active := lp_active_profile_id s in
  mkProxyState (if negb (bytes_eqb active []) && negb (has_profile profiles active) then [] else active) profiles.
Definition find_profile (s : LocalProxyState) (id : bytes) : option LocalProxyProfile :=
  List.find (fun p => bytes_eqb (lp_id p) id) (lp_profiles s).
Definition active_profile (s : LocalProxyState) : option LocalProxyProfile :=
  if bytes_eqb (lp_active_profile_id s) [] then None else find_profile s (lp_active_profile_id s).
Definition remove_profile (s : LocalProxyState) (id : bytes) : bool * LocalProxyState :=
  let kept := filter (fun p => lp_id p <> id) (lp_profiles s) in
  (len kept <? len (lp_profiles s),
   mkProxyState (if bytes_eqb (lp_active_profile_id s) id then [] else lp_active_profile_id s) kept).

Record Database := mkDatabase {
  db_main_password : bytes;
  db_main_device_id : bytes;
  db_dns : bytes;
  db_auto_restart_interval_hours : option Z;
  db_main_up_bytes : Z;
  db_main_down_bytes : Z;
  db_admin_id : bytes;
  db_bot_token : bytes;
  db_passwords : gmap bytes PasswordEntry;
  db_devices : gmap bytes ClientDevice;
  db_web_sessions : gmap bytes Z;
  db_logging_active : option bool;
  db_local_proxy : LocalProxyState;
}.
Definition set_db_main_password (d : Database) (v : bytes) : Database :=
  mkDatabase v (db_main_device_id d) (db_dns d) (db_auto_restart_interval_hours d) (db_main_up_bytes d) (db_main_down_bytes d) (db_admin_id d) (db_bot_token d) (db_passwords d) (db_devices d) (db_web_sessions d) (db_logging_active d) (db_local_proxy d).
Definition set_db_main_device_id (d : Database) (v : bytes) : Database :=
  mkDatabase (db_main_password d) v (db_dns d) (db_auto_restart_interval_hours d) (db_main_up_bytes d) (db_main_down_bytes d) (db_admin_id d) (db_bot_token d) (db_passwords d) (db_devices d) (db_web_sessions d) (db_logging_active d) (db_local_proxy d).
Definition set_db_dns (d : Database) (v : bytes) : Database :=
  mkDatabase (db_main_password d) (db_main_device_id d) v (db_auto_restart_interval_hours d) (db_main_up_bytes d) (db_main_down_bytes d) (db_admin_id d) (db_bot_token d) (db_passwords d) (db_devices d) (db_web_sessions d) (db_logging_active d) (db_local_proxy d).
Definition set_db_auto_restart_interval_hours (d : Database) (v : option Z) : Database :=
  mkDatabase (db_main_password d) (db_main_device_id d) (db_dns d) v (db_main_up_bytes d) (db_main_down_bytes d) (db_admin_id d) (db_bot_token d) (db_passwords d) (db_devices d) (db_web_sessions d) (db_logging_active d) (db_local_proxy d).
Definition set_db_main_up_bytes (d : Database) (v : Z) : Database :=
  mkDatabase (db_main_password d) (db_main_device_id d) (db_dns d) (db_auto_restart_interval_hours d) v (db_main_down_bytes d) (db_admin_id d) (db_bot_token d) (db_passwords d) (db_devices d) (db_web_sessions d) (db_logging_active d) (db_local_proxy d).
Definition set_db_main_down_bytes (d : Database) (v : Z) : Database :=
  mkDatabase (db_main_password d) (db_main_device_id d) (db_dns d) (db_auto_restart_interval_hours d) (db_main_up_bytes d) v (db_admin_id d) (db_bot_token d) (db_passwords d) (db_devices d) (db_web_sessions d) (db_logging_active d) (db_local_proxy d).
Definition set_db_admin_id (d : Database) (v : bytes) : Database :=
  mkDatabase (db_main_password d) (db_main_device_id d) (db_dns d) (db_auto_restart_interval_hours d) (db_main_up_bytes d) (db_main_down_bytes d) v (db_bot_token d) (db_passwords d) (db_devices d) (db_web_sessions d) (db_logging_active d) (db_local_proxy d).
Definition set_db_bot_token (d : Database) (v : bytes) : Database :=
  mkDatabase (db_main_password d) (db_main_device_id d) (db_dns d) (db_auto_restart_interval_hours d) (db_main_up_bytes d) (db_main_down_bytes d) (db_admin_id d) v (db_passwords d) (db_devices d) (db_web_sessions d) (db_logging_active d) (db_local_proxy d).
Definition set_db_passwords (d : Database) (v : gmap bytes PasswordEntry) : Database :=
  mkDatabase (db_main_password d) (db_main_device_id d) (db_dns d) (db_auto_restart_interval_hours d) (db_main_up_bytes d) (db_main_down_bytes d) (db_admin_id d) (db_bot_token d) v (db_devices d) (db_web_sessions d) (db_logging_active d) (db_local_proxy d).
Definition set_db_devices (d : Database) (v : gmap bytes ClientDevice) : Database :=
  mkDatabase (db_main_password d) (db_main_device_id d) (db_dns d) (db_auto_restart_interval_hours d) (db_main_up_bytes d) (db_main_down_bytes d) (db_admin_id d) (db_bot_token d) (db_passwords d) v (db_web_sessions d) (db_logging_active d) (db_local_proxy d).
Definition set_db_web_sessions (d : Database) (v : gmap bytes Z) : Database :=
  mkDatabase (db_main_password d) (db_main_device_id d) (db_dns d) (db_auto_restart_interval_hours d) (db_main_up_bytes d) (db_main_down_bytes d) (db_admin_id d) (db_bot_token d) (db_passwords d) (db_devices d) v (db_logging_active d) (db_local_proxy d).
Definition set_db_logging_active (d : Database) (v : option bool) : Database :=
  mkDatabase (db_main_password d) (db_main_device_id d) (db_dns d) (db_auto_restart_interval_hours d) (db_main_up_bytes d) (db_main_down_bytes d) (db_admin_id d) (db_bot_token d) (db_passwords d) (db_devices d) (db_web_sessions d) v (db_local_proxy d).
Definition set_db_local_proxy (d : Database) (v : LocalProxyState) : Database :=
  mkDatabase (db_main_password d) (db_main_device_id d) (db_dns d) (db_auto_restart_interval_hours d) (db_main_up_bytes d) (db_main_down_bytes d) (db_admin_id d) (db_bot_token d) (db_passwords d) (db_devices d) (db_web_sessions d) (db_logging_active d) v.
Definition Database_default : Database :=
  mkDatabase [] [] [] None 0 0 [] [] ∅ ∅ ∅ None (mkProxyState [] []).
Definition Database_auto_restart_interval_hours (d : Database) : Z :=
  default DEFAULT_AUTO_RESTART_INTERVAL_HOURS (db_auto_restart_interval_hours d).
Definition set_auto_restart_interval_hours (d : Database) (hours : Z) : Database := set_db_auto_restart_interval_hours d (Some hours).

(** A binding to a device the database does not have. *)
Definition stale_binding (d : Database) (e : PasswordEntry) : bool :=
  negb (bytes_eqb (pe_device_id e) []) && bool_decide (db_devices d !! pe_device_id e = None).
Definition repair_stale_password_bindings (d : Database) : bool * Database :=
  let changed := negb (bool_decide (map_Forall (fun _ e => stale_binding d e = false) (db_passwords d))) in
  (changed, set_db_passwords d ((fun e => if stale_binding d e then set_entry_device e [] else e) <$> db_passwords d)).

(** ** Passwords, keys and addresses *)

Definition random_password (data : bytes) : opt bytes :=
  foldr (fun v rest => c ← at_ PASS_CHARS (v mod len PASS_CHARS); cs ← rest; mret (c :: cs)) (mret []) data.

(** HKDF with SHA-256, X25519 and Base64. *)
Class KeyTools := {
  hkdf_sha256 : bytes -> bytes -> bytes -> Z -> bytes;    (** salt, key material, info, length *)
  x25519_public : bytes -> bytes;
  base64 : bytes -> bytes;
}.

Definition WRAP_SALT : bytes := b_ "CSQTT-WRAP-v1".
Definition WRAP_INFO : bytes := b_ "rtp-obfs/chacha20poly1305".
(** The expansion to 32 bytes is below the limit of HKDF and cannot fail. *)
Definition derive_wrap_key `{KeyTools} (password : bytes) : opt bytes :=
  if bytes_eqb password [] then none else Ok (hkdf_sha256 WRAP_SALT password WRAP_INFO 32).

Definition clamp (data : bytes) : opt bytes :=
  b0 ← at_ data 0; b31 ← at_ data 31;
  data ← copy_into data 0 1 [Z.land b0 248];
  copy_into data 31 32 [Z.lor (Z.land b31 127) 64].
Definition generate_key_pair `{KeyTools} (data : bytes) : opt (bytes * bytes) :=
  private ← clamp data; mret (base64 private, base64 (x25519_public private)).

Definition is_expired (entry : PasswordEntry) (now : Z) : bool := negb (pe_expires_at entry =? 0) && (pe_expires_at entry <? now).

Definition tunnel_address (i : Z) : bytes := b_ "10.66.67." ++ to_string i.
Definition address_used (d : Database) (ip : bytes) : bool :=
  negb (bool_decide (map_Forall (fun _ device => cd_ip device <> ip) (db_devices d))).
Definition get_next_ip (d : Database) : option bytes :=
  List.find (fun ip => negb (address_used d ip)) (tunnel_address <$> seqZ 2 249).

Definition resolve_session_ip (d : Database) (session_password device_id : bytes) : option bytes :=
  let by_device := if bytes_eqb device_id [] then None else db_devices d !! device_id in
  match by_device with
  | Some device => Some (cd_ip device)
  | None =>
      if bytes_eqb session_password (db_main_password d) then None else
      match db_passwords d !! session_password with
      | Some entry => if bytes_eqb (pe_device_id entry) [] then None else cd_ip <$> db_devices d !! pe_device_id entry
      | None => None
      end
  end.

(** ** The rows *)

Record Tables := mkTables {
  t_meta : gmap bytes bytes;
  t_counters : option (Z * Z);
  t_passwords : gmap bytes PasswordEntry;
  t_devices : gmap bytes ClientDevice;
  t_profiles : gmap bytes (Z * LocalProxyProfile);
  t_active : option bytes;
}.
Definition set_t_meta (t : Tables) (v : gmap bytes bytes) : Tables :=
  mkTables v (t_counters t) (t_passwords t) (t_devices t) (t_profiles t) (t_active t).
Definition set_t_counters (t : Tables) (v : option (Z * Z)) : Tables :=
  mkTables (t_meta t) v (t_passwords t) (t_devices t) (t_profiles t) (t_active t).
Definition set_t_passwords (t : Tables) (v : gmap bytes PasswordEntry) : Tables :=
  mkTables (t_meta t) (t_counters t) v (t_devices t) (t_profiles t) (t_active t).
Definition set_t_devices (t : Tables) (v : gmap bytes ClientDevice) : Tables :=
  mkTables (t_meta t) (t_counters t) (t_passwords t) v (t_profiles t) (t_active t).
Definition set_t_profiles (t : Tables) (v : gmap bytes (Z * LocalProxyProfile)) : Tables :=
  mkTables (t_meta t) (t_counters t) (t_passwords t) (t_devices t) v (t_active t).
Definition set_t_active (t : Tables) (v : option bytes) : Tables :=
  mkTables (t_meta t) (t_counters t) (t_passwords t) (t_devices t) (t_profiles t) v.
Definition no_tables : Tables := mkTables ∅ None ∅ ∅ ∅ None.

(** Iteration over a [BTreeMap<String, _>]: by key, byte by byte. *)
Definition entry_le {A : Type} (a b : bytes * A) : Prop := bytes_leb a.1 b.1 = true.
#[global] Instance entry_le_dec {A : Type} (a b : bytes * A) : Decision (entry_le a b).
Proof. unfold entry_le. apply _. Defined.
Definition btree_iter {A : Type} (m : gmap bytes A) : list (bytes * A) := merge_sort entry_le (map_to_list m).

Definition bool_text (b : bool) : bytes := if b then b_ "1" else b_ "0".
Definition k_main_password : bytes := b_ "main_password".
Definition k_main_device_id : bytes := b_ "main_device_id".
Definition k_dns : bytes := b_ "dns".
Definition k_auto_restart : bytes := b_ "auto_restart_interval_hours".
Definition k_admin_id : bytes := b_ "admin_id".
Definition k_bot_token : bytes := b_ "bot_token".
Definition k_logging_active : bytes := b_ "logging_active".

(** [INSERT ... ON CONFLICT DO UPDATE] of a list of rows, in order. *)
Definition upserts {A : Type} (rows : list (bytes * A)) (m : gmap bytes A) : gmap bytes A :=
  foldl (fun m row => <[row.1 := row.2]> m) m rows.
(** [INSERT ... ON CONFLICT DO NOTHING] *)
Definition inserts {A : Type} (rows : list (bytes * A)) (m : gmap bytes A) : gmap bytes A :=
  foldl (fun m row => match m !! row.1 with Some _ => m | None => <[row.1 := row.2]> m end) m rows.

Definition device_rows (d : Database) : list (bytes * ClientDevice) :=
  (fun kd => (cd_device_id kd.2, kd.2)) <$> btree_iter (db_devices d).
Definition profile_rows (d : Database) : list (bytes * (Z * LocalProxyProfile)) :=
  imap (fun i p => (lp_id p, (Z.of_nat i, p))) (lp_profiles (db_local_proxy d)).

(** The statements of [write_database_snapshot] *)
Definition write_meta (d : Database) (meta : gmap bytes bytes) : gmap bytes bytes :=
  let meta := upserts [(k_main_password, db_main_password d); (k_main_device_id, db_main_device_id d); (k_dns, db_dns d);
                       (k_auto_restart, to_string (Database_auto_restart_interval_hours d));
                       (k_admin_id, db_admin_id d); (k_bot_token, db_bot_token d)] meta in
  match db_logging_active d with
  | Some active => <[k_logging_active := bool_text active]> meta
  | None => delete k_logging_active meta
  end.
Definition snapshot_rows (t : Tables) (d : Database) : Tables :=
  mkTables (write_meta d (t_meta t))
    (Some (db_main_up_bytes d, db_main_down_bytes d))
    (upserts (btree_iter (db_passwords d)) (filter (fun row => is_Some (db_passwords d !! row.1)) (t_passwords t)))
    (upserts (device_rows d) (filter (fun row => is_Some (db_devices d !! row.1)) (t_devices t)))
    (upserts (profile_rows d) (filter (fun row => has_profile (lp_profiles (db_local_proxy d)) row.1 = true) (t_profiles t)))
    (Some (lp_active_profile_id (db_local_proxy d))).

(** One row of [meta], and the whole of [read_database_snapshot]. *)
Definition read_meta (d : Database) (row : bytes * bytes) : Database :=
  let '(key, value) := row in
  if bytes_eqb key k_main_password then set_db_main_password d value
  else if bytes_eqb key k_main_device_id then set_db_main_device_id d value
  else if bytes_eqb key k_dns then set_db_dns d value
  else if bytes_eqb key k_auto_restart then
    match parse_uint 255 value with Some hours => set_db_auto_restart_interval_hours d (Some hours) | None => d end
  else if bytes_eqb key k_admin_id then set_db_admin_id d value
  else if bytes_eqb key k_bot_token then set_db_bot_token d value
  else if bytes_eqb key k_logging_active then set_db_logging_active d (Some (bytes_eqb value (b_ "1")))
  else d.
(** [ORDER BY sort_order] *)
Definition sort_order_le (a b : bytes * (Z * LocalProxyProfile)) : Prop := a.2.1 <= b.2.1.
#[global] Instance sort_order_le_dec a b : Decision (sort_order_le a b).
Proof. unfold sort_order_le. apply _. Defined.
Definition read_profiles (t : Tables) : list LocalProxyProfile :=
  (fun row => row.2.2) <$> merge_sort sort_order_le (map_to_list (t_profiles t)).
Definition rows_database (t : Tables) : Database :=
  let d := foldl read_meta Database_default (map_to_list (t_meta t)) in
  let d := match t_counters t with
           | Some (up, down) => set_db_main_down_bytes (set_db_main_up_bytes d up) down
           | None => d end in
  let d := set_db_passwords d (upserts (map_to_list (t_passwords t)) (db_passwords d)) in
  let d := set_db_devices d (upserts ((fun row => (cd_device_id row.2, row.2)) <$> map_to_list (t_devices t)) (db_devices d)) in
  let proxy := mkProxyState (default [] (t_active t)) (read_profiles t) in
  let d := set_db_local_proxy d (LocalProxyState_normalize proxy) in
  set_db_admin_id (set_db_bot_token d []) [].

(** The statements of [import_legacy_database_rows] *)
Definition merge_text (meta : gmap bytes bytes) (row : bytes * bytes) : gmap bytes bytes :=
  <[row.1 := match meta !! row.1 with Some (x :: old) => x :: old | _ => row.2 end]> meta.
Definition legacy_rows (t : Tables) (legacy : Database) : Tables :=
  let meta := foldl merge_text (t_meta t)
                [(k_main_password, db_main_password legacy); (k_main_device_id, db_main_device_id legacy); (k_dns, db_dns legacy)] in
  let meta := match db_logging_active legacy with
              | Some active => inserts [(k_logging_active, bool_text active)] meta
              | None => meta end in
  let counters := match t_counters t with
                  | Some (up, down) => (Z.max up (db_main_up_bytes legacy), Z.max down (db_main_down_bytes legacy))
                  | None => (db_main_up_bytes legacy, db_main_down_bytes legacy) end in
  let active := lp_active_profile_id (db_local_proxy legacy) in
  mkTables meta (Some counters)
    (inserts (btree_iter (db_passwords legacy)) (t_passwords t))
    (inserts (device_rows legacy) (t_devices t))
    (inserts (profile_rows legacy) (t_profiles t))
    (if bytes_eqb active [] then t_active t
     else match t_active t with Some (x :: old) => Some (x :: old) | _ => Some active end).

(** ** Traffic *)

Record TrafficCounters := mkTraffic { tc_up_bytes : Z; tc_down_bytes : Z }.
#[global] Instance TrafficCounters_eq_dec : EqDecision TrafficCounters.
Proof. solve_decision. Defined.
Record TrafficSnapshot := mkTrafficSnapshot {
  tr_main : option TrafficCounters; tr_passwords : gmap bytes TrafficCounters; tr_devices : gmap bytes TrafficCounters;
}.
Definition TrafficSnapshot_merge_from (t newer : TrafficSnapshot) : TrafficSnapshot :=
  mkTrafficSnapshot (match tr_main newer with Some main => Some main | None => tr_main t end)
    (tr_passwords newer ∪ tr_passwords t) (tr_devices newer ∪ tr_devices t).
Definition TrafficSnapshot_is_empty (t : TrafficSnapshot) : bool :=
  bool_decide (tr_main t = None) && bool_decide (tr_passwords t = ∅) && bool_decide (tr_devices t = ∅).

(** [UPDATE ... WHERE key = ?]: nothing happens to a row that is not there. *)
Definition updates {A B : Type} (f : A -> B -> A) (changes : gmap bytes B) (m : gmap bytes A) : gmap bytes A :=
  foldl (fun m change => alter (fun a => f a change.2) change.1 m) m (btree_iter changes).
Definition traffic_rows (t : Tables) (traffic : TrafficSnapshot) : Tables :=
  let t := match tr_main traffic with
           | Some main => set_t_counters t (Some (tc_up_bytes main, tc_down_bytes main))
           | None => t end in
  let t := set_t_passwords t (updates (fun e c => set_entry_traffic e (tc_up_bytes c) (tc_down_bytes c)) (tr_passwords traffic) (t_passwords t)) in
  set_t_devices t (updates (fun d c => set_device_traffic d (tc_up_bytes c) (tc_down_bytes c)) (tr_devices traffic) (t_devices t)).

(** ** The files

    The file of the tables (absent before its first use), the retired JSON
    files that exist, in the order they are tried, and the answers of the calls
    into SQLite and the file system: [false] is a failure, no answer left is
    success. *)
Record World := mkWorld { w_tables : option Tables; w_legacy : list bytes; w_answers : list bool }.
Definition set_w_tables (w : World) (t : option Tables) : World := mkWorld t (w_legacy w) (w_answers w).

Inductive DbError := Io | BadJson | ConflictMainPassword | ConflictMainDevice | MissingPassword | ConflictPassword | MissingDevice | ConflictDevice.
#[global] Instance DbError_eq_dec : EqDecision DbError.
Proof. solve_decision. Defined.

Abbreviation io := (effect World DbError).
Definition fail {A : Type} (e : DbError) : io A := fun w => (Err e, w).
(** One call into SQLite or the file system. *)
Definition ask : io unit := fun w =>
  match w_answers w with
  | [] => (Ok tt, w)
  | true :: answers => (Ok tt, mkWorld (w_tables w) (w_legacy w) answers)
  | false :: answers => (Err Io, mkWorld (w_tables w) (w_legacy w) answers)
  end.
Definition get_tables : io Tables := fun w => (Ok (default no_tables (w_tables w)), w).
Definition put_tables (t : Tables) : io unit := fun w => (Ok tt, set_w_tables w (Some t)).

Definition open_database_connection : io unit := _ ← ask; t ← get_tables; put_tables t.
(** A transaction: committed as a whole, or not at all. *)
Definition transaction (f : Tables -> Tables) : io unit := _ ← ask; t ← get_tables; put_tables (f t).
Definition write_database_snapshot (d : Database) : io unit := transaction (fun t => snapshot_rows t d).
Definition import_legacy_database_rows (legacy : Database) : io unit := transaction (fun t => legacy_rows t legacy).
Definition write_traffic (traffic : TrafficSnapshot) : io unit :=
  if TrafficSnapshot_is_empty traffic then mret tt else transaction (fun t => traffic_rows t traffic).
Definition read_database_snapshot : io Database :=
  _ ← open_database_connection; _ ← ask; t ← get_tables; mret (rows_database t).
Definition save_database (d : Database) : io unit := _ ← open_database_connection; write_database_snapshot d.
Definition repair_loaded_database (d : Database) : io Database :=
  match repair_stale_password_bindings d with
  | (false, d) => mret d
  | (true, d) => _ ← open_database_connection; _ ← write_database_snapshot d; mret d
  end.

(** [verify_legacy_database_rows] *)
Definition legacy_password_matches (sqlite legacy : PasswordEntry) : bool :=
  bytes_eqb (pe_device_id sqlite) (pe_device_id legacy) && (pe_expires_at sqlite =? pe_expires_at legacy)
  && bytes_eqb (pe_vk_hash sqlite) (pe_vk_hash legacy) && bytes_eqb (pe_ports sqlite) (pe_ports legacy)
  && Bool.eqb (pe_is_deactivated sqlite) (pe_is_deactivated legacy) && bytes_eqb (pe_name sqlite) (pe_name legacy)
  && bytes_eqb (pe_vk_hashes sqlite) (pe_vk_hashes legacy) && (pe_dtls_port sqlite =? pe_dtls_port legacy)
  && (pe_wg_port sqlite =? pe_wg_port legacy) && (pe_local_port sqlite =? pe_local_port legacy).
Definition legacy_device_matches (sqlite legacy : ClientDevice) : bool :=
  bytes_eqb (cd_device_id sqlite) (cd_device_id legacy) && bytes_eqb (cd_ip sqlite) (cd_ip legacy)
  && bytes_eqb (cd_priv_key sqlite) (cd_priv_key legacy) && bytes_eqb (cd_pub_key sqlite) (cd_pub_key legacy).
Fixpoint verify_rows {A : Type} (matches : A -> A -> bool) (missing conflict : DbError) (sqlite : gmap bytes A)
    (rows : list (bytes * A)) : result DbError unit :=
  match rows with
  | [] => Ok tt
  | (key, legacy) :: rows =>
      match sqlite !! key with
      | None => Err missing
      | Some row => if matches row legacy then verify_rows matches missing conflict sqlite rows else Err conflict
      end
  end.
Definition conflicting (sqlite legacy : bytes) : bool :=
  negb (bytes_eqb legacy []) && negb (bytes_eqb sqlite []) && negb (bytes_eqb sqlite legacy).
Definition verify_legacy_database_rows (sqlite legacy : Database) : result DbError unit :=
  if conflicting (db_main_password sqlite) (db_main_password legacy) then Err ConflictMainPassword else
  if conflicting (db_main_device_id sqlite) (db_main_device_id legacy) then Err ConflictMainDevice else
  _ ← verify_rows legacy_password_matches MissingPassword ConflictPassword (db_passwords sqlite) (btree_iter (db_passwords legacy));
  verify_rows legacy_device_matches MissingDevice ConflictDevice (db_devices sqlite) (btree_iter (db_devices legacy)).
Definition lift {A : Type} (r : result DbError A) : io A := fun w => (r, w).

Fixpoint for_each {A : Type} (f : A -> io unit) (l : list A) : io unit :=
  match l with [] => mret tt | a :: l => _ ← f a; for_each f l end.
(** [fs::remove_file] of the first JSON file left. *)
Definition forget_legacy_file : io unit := fun w => (Ok tt, mkWorld (w_tables w) (tail (w_legacy w)) (w_answers w)).
Definition remove_legacy_file : io unit := _ ← ask; forget_legacy_file.

Section Load.
(** [serde_json::from_slice] *)
Context (from_slice : bytes -> option Database).

Definition without_secrets (d : Database) : Database :=
  let d := set_db_web_sessions (set_db_admin_id (set_db_bot_token d []) []) ∅ in
  set_db_local_proxy d (LocalProxyState_normalize (db_local_proxy d)).
Fixpoint parse_legacy (files : list bytes) : io (list Database) :=
  match files with
  | [] => mret []
  | data :: files =>
      _ ← ask;
      match from_slice data with
      | None => fail BadJson
      | Some legacy => rest ← parse_legacy files; mret (without_secrets legacy :: rest)
      end
  end.

Definition load_database : io Database := fun w =>
  match w_tables w, w_legacy w with
  | Some _, _ => (d ← read_database_snapshot; repair_loaded_database d) w
  | None, [] => (Ok Database_default, w)
  | None, files =>
      (legacy_databases ← parse_legacy files;
       _ ← open_database_connection;
       _ ← for_each import_legacy_database_rows legacy_databases;
       d ← read_database_snapshot;
       _ ← for_each (fun legacy => lift (verify_legacy_database_rows d legacy)) legacy_databases;
       d ← repair_loaded_database d;
       _ ← for_each (fun _ => remove_legacy_file) files;
       mret d) w
  end.
End Load.

(** ** The persistence queue *)

Inductive PersistenceUpdate := Snapshot (d : Database) | Traffic (t : TrafficSnapshot).
Record PersistenceQueue := mkQueue {
  q_next_revision : Z; q_processed_revision : Z; q_successful_revision : Z;
  q_pending : list (Z * PersistenceUpdate); q_worker_running : bool;
}.
Definition PersistenceQueue_default : PersistenceQueue := mkQueue 0 0 0 [] false.
Definition queue_next_revision (q : PersistenceQueue) : Z := sat_add (q_next_revision q) 1.
Definition submit_snapshot (q : PersistenceQueue) (snapshot : Database) : Z * bool * PersistenceQueue :=
  let revision := queue_next_revision q in
  (revision, negb (q_worker_running q),
   mkQueue revision (q_processed_revision q) (q_successful_revision q) [(revision, Snapshot snapshot)] true).
(** [pending.back_mut()] that is a traffic update takes the new one in. *)
Fixpoint merge_back (pending : list (Z * PersistenceUpdate)) (revision : Z) (traffic : TrafficSnapshot)
    : list (Z * PersistenceUpdate) :=
  match pending with
  | [] => [(revision, Traffic traffic)]
  | [(_, Traffic t)] => [(revision, Traffic (TrafficSnapshot_merge_from t traffic))]
  | u :: pending => u :: merge_back pending revision traffic
  end.
Definition queue_submit_traffic (q : PersistenceQueue) (traffic : TrafficSnapshot) : Z * bool * PersistenceQueue :=
  let revision := queue_next_revision q in
  (revision, negb (q_worker_running q),
   mkQueue revision (q_processed_revision q) (q_successful_revision q) (merge_back (q_pending q) revision traffic) true).
Definition take_pending (q : PersistenceQueue) : option (Z * PersistenceUpdate) * PersistenceQueue :=
  (head (q_pending q),
   mkQueue (q_next_revision q) (q_processed_revision q) (q_successful_revision q) (tail (q_pending q)) (q_worker_running q)).
Definition complete (q : PersistenceQueue) (revision : Z) (successful : bool) : PersistenceQueue :=
  let processed := if q_processed_revision q <=? revision then revision else q_processed_revision q in
  let success := if successful && (q_successful_revision q <=? revision) then revision else q_successful_revision q in
  mkQueue (q_next_revision q) processed success (q_pending q) (q_worker_running q).

Definition persist_database_update (connected : bool) (u : PersistenceUpdate) : io unit :=
  _ ← (if connected then mret tt else open_database_connection);
  match u with
  | Snapshot d => write_database_snapshot d
  | Traffic t => write_traffic t
  end.

(** [DatabasePersistence] and its writer thread, which holds the lock neither
    while it writes nor between the write and [complete]. *)
Inductive Writer := Waiting | Writing (revision : Z) (u : PersistenceUpdate) | Written (revision : Z) (error : option DbError).
Record Persistence := mkPersistence {
  ps_queue : PersistenceQueue; ps_last_error : option DbError; ps_writer : Writer; ps_connected : bool; ps_world : World;
}.
Definition Persistence_new (w : World) : Persistence := mkPersistence PersistenceQueue_default None Waiting false w.

Definition Persistence_submit (p : Persistence) (snapshot : Database) : Z * Persistence :=
  let '(revision, _, q) := submit_snapshot (ps_queue p) snapshot in
  (revision, mkPersistence q (ps_last_error p) (ps_writer p) (ps_connected p) (ps_world p)).
Definition Persistence_submit_traffic (p : Persistence) (traffic : TrafficSnapshot) : Z * Persistence :=
  if TrafficSnapshot_is_empty traffic then (0, p) else
  let '(revision, _, q) := queue_submit_traffic (ps_queue p) traffic in
  (revision, mkPersistence q (ps_last_error p) (ps_writer p) (ps_connected p) (ps_world p)).
(** One turn of the loop of [wait]: an outcome, or another wait. *)
Definition wait (p : Persistence) (revision : Z) : option (option DbError) :=
  if revision <=? q_successful_revision (ps_queue p) then Some None
  else if revision <=? q_processed_revision (ps_queue p) then Some (Some (default Io (ps_last_error p)))
  else None.

(** One step of [database_persistence_worker]: takes the first update, writes
    it, reports.  [answers] are those of SQLite during the write. *)
Definition worker_step (p : Persistence) (answers : list bool) : Persistence :=
  match ps_writer p with
  | Waiting =>
      match take_pending (ps_queue p) with
      | (Some (revision, u), q) => mkPersistence q (ps_last_error p) (Writing revision u) (ps_connected p) (ps_world p)
      | (None, _) => p
      end
  | Writing revision u =>
      let '(r, w) := persist_database_update (ps_connected p) u (mkWorld (w_tables (ps_world p)) (w_legacy (ps_world p)) answers) in
      match r with
      | Ok _ => mkPersistence (ps_queue p) (ps_last_error p) (Written revision None) true w
      | Err e => mkPersistence (ps_queue p) (ps_last_error p) (Written revision (Some e)) false w
      | Panic => p
      end
  | Written revision error =>
      let q := complete (ps_queue p) revision (bool_decide (error = None)) in
      let last_error := match error with
                        | Some e => Some e
                        | None => if revision <=? q_successful_revision q then None else ps_last_error p
                        end in
      mkPersistence q last_error Waiting (ps_connected p) (ps_world p)
  end.

(** ** Rows as maps *)

Lemma btree_iter_perm {A : Type} (m : gmap bytes A) : btree_iter m ≡ₚ map_to_list m.
Proof. apply merge_sort_Permutation. Qed.
Lemma btree_iter_keys {A : Type} (m : gmap bytes A) : NoDup (btree_iter m).*1.
Proof. rewrite btree_iter_perm. apply NoDup_fst_map_to_list. Qed.
Lemma btree_iter_map {A : Type} (m : gmap bytes A) : (list_to_map (btree_iter m) : gmap bytes A) = m.
Proof. erewrite list_to_map_proper by (first [apply btree_iter_keys | apply btree_iter_perm]). apply list_to_map_to_list. Qed.

Lemma upserts_union {A : Type} (rows : list (bytes * A)) m : NoDup rows.*1 -> upserts rows m = list_to_map rows ∪ m.
Proof.
  unfold upserts. revert m. induction rows as [|[k a] rows IH]; intros m Hd; cbn.
  - by rewrite map_empty_union.
  - apply NoDup_cons in Hd as [Hk Hd]. rewrite IH by done. rewrite <- insert_union_l.
    by rewrite <- insert_union_r by (by apply not_elem_of_list_to_map_1).
Qed.
Lemma inserts_union {A : Type} (rows : list (bytes * A)) m : NoDup rows.*1 -> inserts rows m = m ∪ list_to_map rows.
Proof.
  unfold inserts. revert m. induction rows as [|[k a] rows IH]; intros m Hd; cbn; [by rewrite map_union_empty|].
  apply NoDup_cons in Hd as [Hk Hd]. rewrite IH by done. destruct (m !! k) as [b|] eqn:Hm.
  - apply map_eq. intros j. rewrite !lookup_union. destruct (decide (j = k)) as [->|]; [|by rewrite lookup_insert_ne].
    by rewrite Hm, lookup_insert_eq, (not_elem_of_list_to_map_1 (M := gmap bytes) rows k).
  - rewrite <- insert_union_l. by rewrite <- insert_union_r.
Qed.
(** Upserting every row that the filter keeps. *)
Lemma upserts_replace {A : Type} (m old : gmap bytes A) : upserts (btree_iter m) (filter (fun row => is_Some (m !! row.1)) old) = m.
Proof.
  rewrite upserts_union, btree_iter_map by apply btree_iter_keys. apply map_eq. intros k. rewrite lookup_union.
  destruct (m !! k) as [a|] eqn:Hm; [by destruct (filter _ old !! k)|].
  replace (filter _ old !! k) with (@None A); [done|]. symmetry. apply map_lookup_filter_None. right.
  intros b _ [c Hc]. cbn in Hc. congruence.
Qed.

Lemma foldl_alter {A B : Type} (f : A -> B -> A) (rows : list (bytes * B)) (m : gmap bytes A) k : NoDup rows.*1 ->
  foldl (fun m row => alter (fun a => f a row.2) row.1 m) m rows !! k
  = (fun a => match (list_to_map rows : gmap bytes B) !! k with Some b => f a b | None => a end) <$> m !! k.
Proof.
  revert m. induction rows as [|[j b] rows IH]; intros m Hd; cbn; [rewrite lookup_empty; by destruct (m !! k)|].
  apply NoDup_cons in Hd as [Hj Hd]. rewrite IH by done. destruct (decide (k = j)) as [->|].
  - rewrite lookup_alter_eq, lookup_insert_eq. rewrite (not_elem_of_list_to_map_1 (M := gmap bytes) rows j) by done.
    by destruct (m !! j).
  - by rewrite lookup_alter_ne, lookup_insert_ne.
Qed.
Lemma updates_lookup {A B : Type} (f : A -> B -> A) (changes : gmap bytes B) m k :
  updates f changes m !! k = (fun a => match changes !! k with Some b => f a b | None => a end) <$> m !! k.
Proof. unfold updates. rewrite foldl_alter, btree_iter_map by apply btree_iter_keys. done. Qed.
Lemma updates_none {A B : Type} (f : A -> B -> A) m : updates f ∅ m = m.
Proof. apply map_eq. intros k. rewrite updates_lookup, lookup_empty. by destruct (m !! k). Qed.
Lemma updates_merge {A B : Type} (f : A -> B -> A) (c1 c2 : gmap bytes B) m :
  (forall a x y, f (f a x) y = f a y) -> updates f (c2 ∪ c1) m = updates f c2 (updates f c1 m).
Proof.
  intros Hf. apply map_eq. intros k. rewrite !updates_lookup, lookup_union. destruct (m !! k) as [a|]; [cbn|done].
  destruct (c2 !! k), (c1 !! k); cbn; by rewrite ?Hf.
Qed.

(** ** What the rows hold *)

(** What the program keeps true of a database it saves. *)
Record db_wf (d : Database) : Prop := {
  wf_devices : map_Forall (fun id device => cd_device_id device = id) (db_devices d);
  wf_profiles : NoDup (lp_id <$> lp_profiles (db_local_proxy d));
  wf_hours : 0 <= Database_auto_restart_interval_hours d <= 255;
}.
#[global] Instance db_wf_dec d : Decision (db_wf d).
Proof.
  destruct (decide (map_Forall (fun id device => cd_device_id device = id) (db_devices d)
    /\ NoDup (lp_id <$> lp_profiles (db_local_proxy d)) /\ 0 <= Database_auto_restart_interval_hours d <= 255)) as [(? & ? & ?)|Hn];
    [left; by split | right; intros []; by apply Hn].
Defined.

Lemma device_rows_iter d : map_Forall (fun id device => cd_device_id device = id) (db_devices d) -> device_rows d = btree_iter (db_devices d).
Proof.
  intros Hk. unfold device_rows. assert (Hin : forall kd, kd ∈ btree_iter (db_devices d) -> cd_device_id kd.2 = kd.1).
  { intros [k x] Hin. rewrite btree_iter_perm in Hin. apply elem_of_map_to_list in Hin. exact (Hk _ _ Hin). }
  induction (btree_iter (db_devices d)) as [|[k x] l IH]; [done|]. cbn [fmap list_fmap fst snd].
  rewrite IH by (intros; apply Hin; by right). f_equal. f_equal. apply (Hin (k, x)). by left.
Qed.
Lemma profile_rows_keys d : (profile_rows d).*1 = lp_id <$> lp_profiles (db_local_proxy d).
Proof.
  unfold profile_rows. generalize (lp_profiles (db_local_proxy d)). intros l.
  rewrite fmap_imap. apply list_eq. intros i. rewrite list_lookup_imap, list_lookup_fmap. by destruct (l !! i).
Qed.
Lemma has_profile_spec l id : has_profile l id = true <-> id ∈ lp_id <$> l.
Proof.
  unfold has_profile. rewrite existsb_exists, list_elem_of_fmap. split.
  - intros (p & Hin & He). unfold bytes_eqb in He. bool_prop. exists p. by rewrite list_elem_of_In.
  - intros (p & -> & Hin). exists p. rewrite <- list_elem_of_In. split; [done|]. by apply bool_decide_eq_true.
Qed.

Lemma snapshot_rows_wf t d : db_wf d ->
  snapshot_rows t d = mkTables (write_meta d (t_meta t)) (Some (db_main_up_bytes d, db_main_down_bytes d))
    (db_passwords d) (db_devices d) (list_to_map (profile_rows d)) (Some (lp_active_profile_id (db_local_proxy d))).
Proof.
  intros [Hd Hp _]. unfold snapshot_rows. rewrite (device_rows_iter d Hd), !upserts_replace.
  f_equal. rewrite upserts_union by (by rewrite profile_rows_keys). apply map_eq. intros k. rewrite lookup_union.
  destruct (list_to_map (profile_rows d) !! k) as [r|] eqn:Hr; [by destruct (filter _ (t_profiles t) !! k)|].
  replace (filter _ (t_profiles t) !! k) with (@None (Z * LocalProxyProfile)); [done|]. symmetry.
  apply map_lookup_filter_None. right. intros r _. cbn. rewrite has_profile_spec, <- profile_rows_keys.
  by apply not_elem_of_list_to_map.
Qed.

Lemma strongly_sorted_lookup {A : Type} (R : A -> A -> Prop) l :
  (forall i j a b, (i < j)%nat -> l !! i = Some a -> l !! j = Some b -> R a b) -> StronglySorted R l.
Proof.
  induction l as [|x l IH]; intros Hl; [constructor|]. constructor.
  - apply IH. intros i j a b Hij Ha Hb. apply (Hl (S i) (S j) a b); [lia|done|done].
  - apply Forall_lookup. intros j b Hb. apply (Hl O (S j) x b); [lia|done|done].
Qed.
(** The profiles come back in their order. *)
Lemma read_profiles_rows d t : NoDup (lp_id <$> lp_profiles (db_local_proxy d)) -> t_profiles t = list_to_map (profile_rows d) ->
  read_profiles t = lp_profiles (db_local_proxy d).
Proof.
  intros Hn Ht. unfold read_profiles. rewrite Ht.
  assert (Hrows : merge_sort sort_order_le (map_to_list (list_to_map (profile_rows d) : gmap bytes _)) = profile_rows d).
  { assert (Htrans : Transitive sort_order_le) by (intros a b c ? ?; unfold sort_order_le in *; lia).
    assert (Htotal : Total sort_order_le) by (intros a b; unfold sort_order_le; lia).
    assert (Hi : forall r i, profile_rows d !! i = Some r -> r.2.1 = Z.of_nat i).
    { intros r i. unfold profile_rows. rewrite list_lookup_imap. destruct (_ !! i); [|done]. by intros [= <-]. }
    assert (Hperm : merge_sort sort_order_le (map_to_list (list_to_map (profile_rows d) : gmap bytes _)) ≡ₚ profile_rows d).
    { rewrite merge_sort_Permutation. apply map_to_list_to_map. by rewrite profile_rows_keys. }
    refine (StronglySorted_unique_strong sort_order_le _ _ _ _ _ Hperm).
    - intros a b Ha Hb Hab Hba. rewrite Hperm in Ha. apply list_elem_of_lookup in Ha as [i Ha], Hb as [j Hb].
      assert (i = j) as -> by (apply Hi in Ha, Hb; unfold sort_order_le in *; lia). congruence.
    - apply Sorted_StronglySorted; [done|]. apply (Sorted_merge_sort _).
    - apply strongly_sorted_lookup. intros i j a b Hij Ha Hb. apply Hi in Ha, Hb. unfold sort_order_le. lia. }
  rewrite Hrows. unfold profile_rows. generalize (lp_profiles (db_local_proxy d)). intros l.
  apply list_eq. intros i. rewrite list_lookup_fmap, list_lookup_imap. by destruct (l !! i).
Qed.

#[local] Arguments b_ : simpl never.
Ltac key_ne := first [done | let E := fresh in intros E; vm_compute in E; discriminate E].

(** [read_meta] of all rows, whatever their order. *)
Definition meta_view (meta : gmap bytes bytes) (d : Database) : Database :=
  mkDatabase (default (db_main_password d) (meta !! k_main_password)) (default (db_main_device_id d) (meta !! k_main_device_id))
    (default (db_dns d) (meta !! k_dns))
    (match meta !! k_auto_restart ≫= parse_uint 255 with Some hours => Some hours | None => db_auto_restart_interval_hours d end)
    (db_main_up_bytes d) (db_main_down_bytes d)
    (default (db_admin_id d) (meta !! k_admin_id)) (default (db_bot_token d) (meta !! k_bot_token))
    (db_passwords d) (db_devices d) (db_web_sessions d)
    (match meta !! k_logging_active with Some value => Some (bytes_eqb value (b_ "1")) | None => db_logging_active d end)
    (db_local_proxy d).
Lemma read_meta_view rows d : NoDup rows.*1 -> foldl read_meta d rows = meta_view (list_to_map rows) d.
Proof.
  revert d. induction rows as [|[key value] rows IH]; intros d Hd; [by destruct d|].
  apply NoDup_cons in Hd as [Hk Hd]. cbn [foldl]. rewrite IH by done. cbn [list_to_map foldr].
  apply (not_elem_of_list_to_map_1 (M := gmap bytes)) in Hk. cbn [fst snd uncurry] in *. unfold read_meta, bytes_eqb at 1 2 3 4 5 6 7.
  repeat (case_bool_decide; [subst key; unfold meta_view;
    rewrite lookup_insert_eq, Hk; repeat (rewrite lookup_insert_ne by key_ne);
    cbn; try (destruct (parse_uint 255 value)); cbn; done|]).
  unfold meta_view. by rewrite !lookup_insert_ne by done.
Qed.

Lemma write_meta_lookup d meta :
  write_meta d meta !! k_main_password = Some (db_main_password d) /\ write_meta d meta !! k_main_device_id = Some (db_main_device_id d)
  /\ write_meta d meta !! k_dns = Some (db_dns d)
  /\ write_meta d meta !! k_auto_restart = Some (to_string (Database_auto_restart_interval_hours d))
  /\ write_meta d meta !! k_logging_active = bool_text <$> db_logging_active d.
Proof.
  unfold write_meta, upserts. cbn [foldl fst snd].
  split_and!; destruct (db_logging_active d); cbn [fmap option_fmap option_map];
    repeat first [rewrite lookup_insert_eq | rewrite lookup_delete_eq
                 | rewrite lookup_insert_ne by key_ne | rewrite lookup_delete_ne by key_ne]; done.
Qed.
(** A second write leaves nothing of the first. *)
Lemma write_meta_absorb d d' meta : write_meta d (write_meta d' meta) = write_meta d meta.
Proof.
  apply map_eq. intros k. unfold write_meta, upserts. cbn [foldl fst snd].
  destruct (decide (k = k_main_password)) as [->|?]; [|destruct (decide (k = k_main_device_id)) as [->|?];
    [|destruct (decide (k = k_dns)) as [->|?]; [|destruct (decide (k = k_auto_restart)) as [->|?];
    [|destruct (decide (k = k_admin_id)) as [->|?]; [|destruct (decide (k = k_bot_token)) as [->|?];
    [|destruct (decide (k = k_logging_active)) as [->|?]]]]]]];
    destruct (db_logging_active d), (db_logging_active d');
    repeat first [rewrite lookup_insert_eq | rewrite lookup_delete_eq
                 | rewrite lookup_insert_ne by key_ne | rewrite lookup_delete_ne by key_ne]; done.
Qed.

(** What of a database survives a restart. *)
Definition persisted (d : Database) : Database :=
  mkDatabase (db_main_password d) (db_main_device_id d) (db_dns d) (Some (Database_auto_restart_interval_hours d))
    (db_main_up_bytes d) (db_main_down_bytes d) [] [] (db_passwords d) (db_devices d) ∅ (db_logging_active d)
    (LocalProxyState_normalize (db_local_proxy d)).

Lemma upserts_self {A : Type} (m : gmap bytes A) : upserts (map_to_list m) ∅ = m.
Proof. rewrite upserts_union by apply NoDup_fst_map_to_list. by rewrite list_to_map_to_list, map_union_empty. Qed.
Lemma keyed_rows {A : Type} (key : A -> bytes) (m : gmap bytes A) : map_Forall (fun k a => key a = k) m ->
  (fun row => (key row.2, row.2)) <$> map_to_list m = map_to_list m.
Proof.
  intros Hm. rewrite <- (list_fmap_id (map_to_list m)) at 2. apply list_fmap_ext. intros i [k a] Hi. cbn. f_equal.
  apply Hm, elem_of_map_to_list. by apply list_elem_of_lookup_2 in Hi.
Qed.

Lemma rows_database_eq t : map_Forall (fun id device => cd_device_id device = id) (t_devices t) ->
  rows_database t = mkDatabase (default [] (t_meta t !! k_main_password)) (default [] (t_meta t !! k_main_device_id))
    (default [] (t_meta t !! k_dns)) (t_meta t !! k_auto_restart ≫= parse_uint 255)
    (default 0 (fst <$> t_counters t)) (default 0 (snd <$> t_counters t)) [] [] (t_passwords t) (t_devices t) ∅
    ((fun value => bytes_eqb value (b_ "1")) <$> t_meta t !! k_logging_active)
    (LocalProxyState_normalize (mkProxyState (default [] (t_active t)) (read_profiles t))).
Proof.
  intros Hd. unfold rows_database. rewrite read_meta_view by apply NoDup_fst_map_to_list. rewrite list_to_map_to_list, (keyed_rows cd_device_id) by done.
  transitivity (mkDatabase (default [] (t_meta t !! k_main_password)) (default [] (t_meta t !! k_main_device_id))
    (default [] (t_meta t !! k_dns)) (t_meta t !! k_auto_restart ≫= parse_uint 255)
    (default 0 (fst <$> t_counters t)) (default 0 (snd <$> t_counters t)) [] []
    (upserts (map_to_list (t_passwords t)) ∅) (upserts (map_to_list (t_devices t)) ∅) ∅
    ((fun value => bytes_eqb value (b_ "1")) <$> t_meta t !! k_logging_active)
    (LocalProxyState_normalize (mkProxyState (default [] (t_active t)) (read_profiles t)))); [|by rewrite !upserts_self].
  unfold meta_view.
  destruct (t_counters t) as [[up down]|], (t_meta t !! k_auto_restart ≫= parse_uint 255), (t_meta t !! k_logging_active); reflexivity.
Qed.
Lemma rows_of_snapshot t d : db_wf d -> rows_database (snapshot_rows t d) = persisted d.
Proof.
  intros Hd. rewrite (snapshot_rows_wf t d Hd). destruct Hd as [Hdev Hprof Hh]. rewrite rows_database_eq by done.
  rewrite (read_profiles_rows d) by done. cbn [t_meta t_counters t_passwords t_devices t_active].
  destruct (write_meta_lookup d (t_meta t)) as (H1 & H2 & H3 & H4 & H5). rewrite H1, H2, H3, H4, H5.
  cbn [mbind option_bind]. rewrite parse_to_string by lia. unfold persisted. f_equal.
  by destruct (db_logging_active d) as [[]|].
Qed.

(** ** Loading what was saved *)

Lemma stale_cleared d e : stale_binding d (set_entry_device e []) = false.
Proof. done. Qed.
Lemma repair_settles d : repair_stale_password_bindings (repair_stale_password_bindings d).2 = (false, (repair_stale_password_bindings d).2).
Proof.
  unfold repair_stale_password_bindings at 2 3. cbn [snd].
  set (d' := set_db_passwords d _). assert (Hno : map_Forall (fun _ e => stale_binding d' e = false) (db_passwords d')).
  { unfold d'. cbn [db_passwords set_db_passwords]. intros k e. rewrite lookup_fmap. destruct (db_passwords d !! k) as [e0|]; [|done].
    cbn. intros [= <-]. change (stale_binding (set_db_passwords d ?m) ?x) with (stale_binding d x).
    destruct (stale_binding d e0) eqn:Hs; [apply stale_cleared|done]. }
  unfold repair_stale_password_bindings. rewrite bool_decide_eq_true_2 by done. cbn [negb]. f_equal.
  assert (Hsame : (fun e => if stale_binding d' e then set_entry_device e [] else e) <$> db_passwords d' = db_passwords d').
  { apply map_eq. intros k. rewrite lookup_fmap. destruct (db_passwords d' !! k) as [e|] eqn:He; [|done]. cbn. by rewrite (Hno _ _ He). }
  rewrite Hsame. by destruct d'.
Qed.
Lemma repair_unchanged d : (repair_stale_password_bindings d).1 = false -> (repair_stale_password_bindings d).2 = d.
Proof.
  unfold repair_stale_password_bindings. cbn [fst snd]. intros Hn. bool_prop.
  assert (Hsame : (fun e => if stale_binding d e then set_entry_device e [] else e) <$> db_passwords d = db_passwords d).
  { apply map_eq. intros k. rewrite lookup_fmap. destruct (db_passwords d !! k) as [e|] eqn:He; [|done]. cbn. by rewrite (Hn _ _ He). }
  rewrite Hsame. by destruct d.
Qed.
Lemma repair_wf d : db_wf d -> db_wf (repair_stale_password_bindings d).2.
Proof. intros [? ? ?]. by split. Qed.

Lemma default_port_ids (l : list LocalProxyProfile) : lp_id <$> (with_default_port <$> l) = lp_id <$> l.
Proof. rewrite <- list_fmap_compose. apply list_fmap_ext. intros i p _. cbn. unfold with_default_port. by destruct (_ =? _). Qed.
Lemma normalize_settles s : LocalProxyState_normalize (LocalProxyState_normalize s) = LocalProxyState_normalize s.
Proof.
  unfold LocalProxyState_normalize. cbn [lp_profiles lp_active_profile_id].
  assert (Hp : with_default_port <$> (with_default_port <$> lp_profiles s) = with_default_port <$> lp_profiles s).
  { rewrite <- list_fmap_compose. apply list_fmap_ext. intros i p _. cbn. unfold with_default_port.
    destruct (lp_port p =? 0) eqn:E; [done|by rewrite E]. }
  rewrite Hp. f_equal. set (active := lp_active_profile_id s). set (l := with_default_port <$> lp_profiles s).
  destruct (negb (bytes_eqb active []) && negb (has_profile l active)) eqn:E; [done|by rewrite E].
Qed.
Lemma persisted_wf d : db_wf d -> db_wf (persisted d).
Proof. intros [? ? ?]. split; [done| |done]. cbn. by rewrite default_port_ids. Qed.
Lemma persisted_settles d : persisted (repair_stale_password_bindings (persisted d)).2 = (repair_stale_password_bindings (persisted d)).2.
Proof. unfold persisted at 1. cbn. by rewrite normalize_settles. Qed.

(** The tables of a world in which nothing fails. *)
Definition healthy (w : World) : Prop := w_answers w = [].
Lemma load_existing from_slice t w : healthy w -> w_tables w = Some t ->
  exists t', load_database from_slice w = (Ok (repair_stale_password_bindings (rows_database t)).2, set_w_tables w (Some t'))
    /\ t' = (if (repair_stale_password_bindings (rows_database t)).1
             then snapshot_rows t (repair_stale_password_bindings (rows_database t)).2 else t).
Proof.
  unfold healthy. destruct w as [t0 legacy a]. cbn [w_answers w_tables]. intros -> ->.
  change (load_database from_slice (mkWorld (Some t) legacy [])) with (repair_loaded_database (rows_database t) (mkWorld (Some t) legacy [])).
  unfold repair_loaded_database. destruct (repair_stale_password_bindings (rows_database t)) as [[|] d]; eexists; split; reflexivity.
Qed.

(** C29. A database that is saved is loaded again as it was, but for what is not
    kept (web sessions, the administrator's token) and for bindings to devices
    that do not exist, which are removed; loading it once more gives the same.
    The save goes through when nothing fails, and when something fails it
    leaves every row as it was. *)
Theorem database_roundtrip from_slice d w :
  db_wf d ->
  let loaded := (repair_stale_password_bindings (persisted d)).2 in
  match save_database d w with
  | (Ok _, w1) => w_legacy w1 = w_legacy w /\ (healthy w1 -> exists w2 w3,
      load_database from_slice w1 = (Ok loaded, w2) /\ load_database from_slice w2 = (Ok loaded, w3))
  | (_, w1) => w_legacy w1 = w_legacy w /\ default no_tables (w_tables w1) = default no_tables (w_tables w) /\ ~ healthy w
  end.
Proof.
  intros Hd loaded. destruct (save_database d w) as [r w1] eqn:Hs.
  assert (Hr : match r with
    | Ok _ => w_legacy w1 = w_legacy w /\ exists t, w_tables w1 = Some (snapshot_rows t d)
    | _ => w_legacy w1 = w_legacy w /\ default no_tables (w_tables w1) = default no_tables (w_tables w) /\ ~ healthy w end).
  { destruct w as [t0 legacy a]. unfold save_database, open_database_connection, write_database_snapshot, transaction, healthy in *.
    destruct a as [|[] [|[] a]]; injection Hs as <- <-; cbn; eauto; by destruct t0. }
  destruct r; [|exact Hr..]. destruct Hr as [Hl [t Ht]]. split; [done|]. intros Hh.
  destruct (load_existing from_slice _ w1 Hh Ht) as (t1 & Hload & Ht1). rewrite rows_of_snapshot in Hload, Ht1 by done.
  exists (set_w_tables w1 (Some t1)).
  destruct (load_existing from_slice t1 (set_w_tables w1 (Some t1)) Hh eq_refl) as (t2 & Hload2 & _).
  exists (set_w_tables w1 (Some t2)). split; [exact Hload|]. rewrite Hload2. cbn [set_w_tables w_tables w_legacy w_answers]. f_equal. f_equal.
  assert (Hrows : rows_database t1 = loaded).
  { rewrite Ht1. destruct (repair_stale_password_bindings (persisted d)).1 eqn:Hc.
    - rewrite rows_of_snapshot by (by apply repair_wf, persisted_wf). apply persisted_settles.
    - rewrite rows_of_snapshot by done. symmetry. by apply repair_unchanged. }
  rewrite Hrows. unfold loaded. by rewrite repair_settles.
Qed.

(** ** The queue writes what was submitted

    The specification: every update is written when it is submitted. *)
Definition write_update (t : Tables) (u : PersistenceUpdate) : Tables :=
  match u with Snapshot d => snapshot_rows t d | Traffic traffic => traffic_rows t traffic end.
Definition write_all (t : Tables) (us : list PersistenceUpdate) : Tables := foldl write_update t us.
Definition update_wf (u : PersistenceUpdate) : Prop := match u with Snapshot d => db_wf d | Traffic _ => True end.
#[global] Instance update_wf_dec u : Decision (update_wf u).
Proof. destruct u; cbn; apply _. Defined.

Lemma write_all_app t us us' : write_all t (us ++ us') = write_all (write_all t us) us'.
Proof. apply foldl_app. Qed.
Lemma traffic_meta t traffic : t_meta (traffic_rows t traffic) = t_meta t.
Proof. unfold traffic_rows. by destruct (tr_main traffic). Qed.
(** A snapshot supersedes what was written before it. *)
Lemma snapshot_absorbs t us d : db_wf d -> Forall update_wf us -> snapshot_rows (write_all t us) d = snapshot_rows t d.
Proof.
  intros Hd. revert t. induction us as [|u us IH]; intros t Hus; [done|]. apply Forall_cons in Hus as [Hu Hus]. cbn [write_all foldl].
  change (foldl write_update ?a us) with (write_all a us).
  rewrite IH by done. rewrite !snapshot_rows_wf by done. f_equal. destruct u as [d'|traffic]; cbn [write_update].
  - rewrite snapshot_rows_wf by done. apply write_meta_absorb.
  - by rewrite traffic_meta.
Qed.
(** Merged traffic updates write what the two would. *)
Lemma traffic_merges t a b : traffic_rows t (TrafficSnapshot_merge_from a b) = traffic_rows (traffic_rows t a) b.
Proof.
  unfold traffic_rows, TrafficSnapshot_merge_from. cbn [tr_main tr_passwords tr_devices].
  destruct (tr_main a), (tr_main b); cbn; rewrite !updates_merge by done; done.
Qed.
Lemma traffic_empty t traffic : TrafficSnapshot_is_empty traffic = true -> traffic_rows t traffic = t.
Proof.
  unfold TrafficSnapshot_is_empty. intros H. bool_prop. destruct traffic as [a b c]; cbn in *; subst.
  unfold traffic_rows. cbn. rewrite !updates_none. by destruct t.
Qed.

Definition tables_of (w : World) : Tables := default no_tables (w_tables w).
(** A write either does what the update says or leaves the rows alone. *)
Lemma persist_spec connected u w :
  match persist_database_update connected u w with
  | (Ok _, w') => tables_of w' = write_update (tables_of w) u
  | (Err _, w') => tables_of w' = tables_of w /\ false ∈ w_answers w
  | (Panic, _) => False
  end.
Proof.
  destruct w as [t legacy a].
  assert (Hwrite : forall t0 legacy a f, match transaction f (mkWorld t0 legacy a) with
    | (Ok _, w') => tables_of w' = f (default no_tables t0)
    | (Err _, w') => tables_of w' = default no_tables t0 /\ false ∈ a
    | (Panic, _) => False end) by (intros t0 l0 [|[] a0] f; cbn; [done|done|split; [done|by left]]).
  set (write := match u with Snapshot d => write_database_snapshot d | Traffic x => write_traffic x end).
  assert (Hu : forall t0 legacy a, match write (mkWorld t0 legacy a) with
    | (Ok _, w') => tables_of w' = write_update (default no_tables t0) u
    | (Err _, w') => tables_of w' = default no_tables t0 /\ false ∈ a
    | (Panic, _) => False end).
  { intros t0 l0 a0. subst write. destruct u as [d|x]; [exact (Hwrite t0 l0 a0 (fun t => snapshot_rows t d))|].
    unfold write_traffic. destruct (TrafficSnapshot_is_empty x) eqn:Hx; [cbn; by rewrite traffic_empty|].
    exact (Hwrite t0 l0 a0 (fun t => traffic_rows t x)). }
  destruct connected; [exact (Hu t legacy a)|].
  destruct a as [|[] a]; [exact (Hu (Some (default no_tables t)) legacy [])| |cbn; split; [done|by left]].
  change (persist_database_update false u (mkWorld t legacy (true :: a))) with (write (mkWorld (Some (default no_tables t)) legacy a)).
  specialize (Hu (Some (default no_tables t)) legacy a).
  destruct (write _) as [[| |] w'] eqn:Hd; [exact Hu| |exact Hu]. destruct Hu as [? ?]. split; [done|by right].
Qed.

(** What happens to the queue: the program submits, the writer works. *)
Inductive persistence_event := Submit (d : Database) | SubmitTraffic (t : TrafficSnapshot) | Work (answers : list bool).
Definition persistence_step (p : Persistence) (ev : persistence_event) : Persistence :=
  match ev with
  | Submit d => (Persistence_submit p d).2
  | SubmitTraffic t => (Persistence_submit_traffic p t).2
  | Work answers => worker_step p answers
  end.
Definition persistence_run (p : Persistence) (evs : list persistence_event) : Persistence := foldl persistence_step p evs.
Definition submitted (evs : list persistence_event) : list PersistenceUpdate :=
  omap (fun ev => match ev with
    | Submit d => Some (Snapshot d)
    | SubmitTraffic t => if TrafficSnapshot_is_empty t then None else Some (Traffic t)
    | Work _ => None end) evs.
Definition works (ev : persistence_event) : Prop := match ev with Work answers => false ∉ answers | _ => True end.
#[global] Instance works_dec ev : Decision (works ev).
Proof. destruct ev; cbn; apply _. Defined.

(** The pending updates stand for the submissions from the [m]-th on. *)
Fixpoint covers (subs : list PersistenceUpdate) (m : nat) (pending : list (Z * PersistenceUpdate)) : Prop :=
  match pending with
  | [] => m = length subs
  | (revision, u) :: pending => exists m' : nat, revision = Z.of_nat m' /\ (m < m' <= length subs)%nat
      /\ (forall t, write_update t u = write_all t (drop m (take m' subs))) /\ covers subs m' pending
  end.
Lemma covers_le subs m pending : covers subs m pending -> (m <= length subs)%nat.
Proof. destruct pending as [|[r u] pending]; cbn; [lia|intros (m' & ? & ? & _); lia]. Qed.
Lemma take_more {A : Type} n (l k : list A) : (n <= length l)%nat -> take n (l ++ k) = take n l.
Proof. apply take_app_le. Qed.

Lemma covers_snapshot subs m d : db_wf d -> Forall update_wf subs -> (m <= length subs)%nat ->
  covers (subs ++ [Snapshot d]) m [(Z.of_nat (length subs) + 1, Snapshot d)].
Proof.
  intros Hd Hs Hm. exists (S (length subs)). rewrite length_app. cbn [length]. split_and!; [lia|lia|lia| |cbn; rewrite length_app; cbn; lia].
  intros t. rewrite take_ge by (rewrite length_app; cbn; lia). rewrite drop_app_le by done. rewrite write_all_app. cbn.
  symmetry. apply snapshot_absorbs; [done|]. by apply Forall_drop.
Qed.
Lemma covers_traffic subs m pending traffic : covers subs m pending ->
  covers (subs ++ [Traffic traffic]) m (merge_back pending (Z.of_nat (length subs) + 1) traffic).
Proof.
  revert m. induction pending as [|[r u] pending IH]; intros m Hc.
  - cbn in Hc. subst m. exists (S (length subs)). rewrite length_app. cbn [length]. split_and!; [lia|lia|lia| |cbn; rewrite length_app; cbn; lia].
    intros t. rewrite take_ge by (rewrite length_app; cbn; lia). by rewrite drop_app_length.
  - destruct Hc as (m' & -> & Hm & Hu & Hc).
    assert (Hcons : covers (subs ++ [Traffic traffic]) m ((Z.of_nat m', u) :: merge_back pending (Z.of_nat (length subs) + 1) traffic)).
    { exists m'. rewrite length_app. split_and!; [done|lia|lia| |by apply IH]. intros t. rewrite take_more by lia. apply Hu. }
    destruct u as [d|old]; [destruct pending; exact Hcons|]. destruct pending as [|x pending]; [|exact Hcons]. clear Hcons IH. cbn in Hc. subst m'.
    exists (S (length subs)). rewrite length_app. cbn [length]. split_and!; [lia|lia|lia| |cbn; rewrite length_app; cbn; lia].
    intros t. rewrite take_ge by (rewrite length_app; cbn; lia). rewrite drop_app_le by lia. rewrite write_all_app. cbn [write_update].
    rewrite traffic_merges. change (write_all ?x [Traffic traffic]) with (traffic_rows x traffic). f_equal.
    change (traffic_rows t old) with (write_update t (Traffic old)). rewrite (Hu t). by rewrite take_ge.
Qed.

(** Where the writer stands when nothing has failed: [n] submissions are in the
    rows, [m] have been taken. *)
Definition writer_ok (subs : list PersistenceUpdate) (n m : nat) (q : PersistenceQueue) (wr : Writer) : Prop :=
  match wr with
  | Waiting => m = n /\ q_successful_revision q = Z.of_nat n
  | Writing revision u => revision = Z.of_nat m /\ (n <= m)%nat /\ q_successful_revision q = Z.of_nat n
      /\ forall t, write_update t u = write_all t (drop n (take m subs))
  | Written revision error => error = None /\ revision = Z.of_nat m /\ n = m /\ q_successful_revision q <= revision
  end.
Record persistence_ok (t0 : Tables) (subs : list PersistenceUpdate) (p : Persistence) (n m : nat) : Prop := {
  po_covers : covers subs m (q_pending (ps_queue p));
  po_written : (n <= m)%nat;
  po_next : q_next_revision (ps_queue p) = Z.of_nat (length subs);
  po_processed : q_processed_revision (ps_queue p) = q_successful_revision (ps_queue p);
  po_tables : tables_of (ps_world p) = write_all t0 (take n subs);
  po_writer : writer_ok subs n m (ps_queue p) (ps_writer p);
}.

Lemma writer_more subs n m q q' wr u : (m <= length subs)%nat -> q_successful_revision q' = q_successful_revision q ->
  writer_ok subs n m q wr -> writer_ok (subs ++ [u]) n m q' wr.
Proof. intros Hm Hq. destruct wr; cbn; rewrite Hq; [done| |done]. intros (? & ? & ? & Hu). by rewrite take_more. Qed.

Lemma submit_ok t0 subs p n m q u : persistence_ok t0 subs p n m -> covers (subs ++ [u]) m (q_pending q) ->
  q_next_revision q = Z.of_nat (length subs) + 1 -> q_processed_revision q = q_processed_revision (ps_queue p) ->
  q_successful_revision q = q_successful_revision (ps_queue p) ->
  persistence_ok t0 (subs ++ [u]) (mkPersistence q (ps_last_error p) (ps_writer p) (ps_connected p) (ps_world p)) n m.
Proof.
  intros [Hc Hw Hn Hp Ht Hwr] Hc' Hn' Hp' Hs'. pose proof (covers_le _ _ _ Hc). split; cbn.
  - done.
  - done.
  - rewrite length_app. cbn. lia.
  - congruence.
  - rewrite Ht, take_more by lia. done.
  - by apply (writer_more _ _ _ (ps_queue p)).
Qed.

Lemma worker_ok t0 subs p n m answers : persistence_ok t0 subs p n m -> false ∉ answers ->
  exists n' m', persistence_ok t0 subs (worker_step p answers) n' m'.
Proof.
  intros [Hc Hw Hn Hp Ht Hwr] Ha. pose proof (covers_le _ _ _ Hc) as Hm. unfold worker_step. destruct (ps_writer p) as [|r u|r e] eqn:Ewr; cbn in Hwr.
  - destruct Hwr as [-> Hs]. unfold take_pending. destruct (q_pending (ps_queue p)) as [|[r u] pending] eqn:Ep; cbn [head].
    + exists n, n. split; [by rewrite Ep|done..|]. rewrite Ewr. by split.
    + destruct Hc as (m' & -> & Hm' & Hu & Hc'). exists n, m'. split; cbn; [exact Hc'|lia|done..|].
      split_and!; [done|lia|done|exact Hu].
  - destruct Hwr as (-> & Hnm & Hs & Hu).
    pose proof (persist_spec (ps_connected p) u (mkWorld (w_tables (ps_world p)) (w_legacy (ps_world p)) answers)) as Hd.
    destruct (persist_database_update _ _ _) as [[x|e|] w]; [|by destruct Hd as [_ Hd]|done].
    exists m, m. split; cbn; [done|done|done|done| |split_and!; [done|done|done|lia]].
    rewrite Hd. change (tables_of (mkWorld (w_tables (ps_world p)) _ answers)) with (tables_of (ps_world p)).
    rewrite Ht, (Hu (write_all _ _)), <- write_all_app. f_equal.
    rewrite <- (take_drop n (take m subs)) at 2. by rewrite take_take, Nat.min_l by lia.
  - destruct Hwr as (-> & -> & -> & Hs). exists m, m. unfold complete. rewrite bool_decide_eq_true_2 by done.
    rewrite (proj2 (Z.leb_le _ _)) by lia. rewrite (proj2 (Z.leb_le _ _)) by lia. by split.
Qed.

Lemma submitted_snoc evs ev : submitted (evs ++ [ev]) = submitted evs ++ submitted [ev].
Proof. apply omap_app. Qed.
Lemma persistence_step_ok t0 subs p n m ev : persistence_ok t0 subs p n m -> works ev -> Forall update_wf (subs ++ submitted [ev]) ->
  len subs + 1 <= U64_MAX -> exists n' m', persistence_ok t0 (subs ++ submitted [ev]) (persistence_step p ev) n' m'.
Proof.
  intros Hok Hw Hwf Hlen. pose proof (covers_le _ _ _ (po_covers _ _ _ _ _ Hok)) as Hm.
  assert (Hnext : queue_next_revision (ps_queue p) = Z.of_nat (length subs) + 1).
  { unfold queue_next_revision, sat_add. rewrite (po_next _ _ _ _ _ Hok). unfold len, U64_MAX, USIZE_MAX in *. lia. }
  destruct ev as [d|t|answers]; cbn [submitted omap list_omap persistence_step] in *.
  - apply Forall_app in Hwf as [Hs Hd]. apply Forall_cons in Hd as [Hd _]. exists n, m.
    eapply (submit_ok _ _ p); [exact Hok| |exact Hnext|done|done]. cbn. rewrite Hnext. by apply covers_snapshot.
  - unfold Persistence_submit_traffic. destruct (TrafficSnapshot_is_empty t); [rewrite app_nil_r; by exists n, m|]. exists n, m.
    eapply (submit_ok _ _ p); [exact Hok| |exact Hnext|done|done]. cbn. rewrite Hnext. apply covers_traffic, Hok.
  - rewrite app_nil_r. by apply (worker_ok _ _ _ n m).
Qed.
Lemma persistence_run_ok w evs : Forall works evs -> Forall update_wf (submitted evs) -> len (submitted evs) <= U64_MAX ->
  exists n m, persistence_ok (tables_of w) (submitted evs) (persistence_run (Persistence_new w) evs) n m.
Proof.
  induction evs as [|ev evs IH] using rev_ind; intros Hw Hs Hl.
  - exists O, O. split; [done|lia|done|done|done|done].
  - apply Forall_app in Hw as [Hw Hev]. apply Forall_cons in Hev as [Hev _]. rewrite submitted_snoc in *.
    unfold len in Hl. rewrite length_app in Hl.
    destruct IH as (n & m & Hok); [done|by apply Forall_app in Hs as [? _]|unfold len; lia|].
    unfold persistence_run in *. rewrite foldl_app. cbn [foldl]. destruct (decide (len (submitted evs) + 1 <= U64_MAX)) as [Hl'|Hl'].
    + by apply (persistence_step_ok _ _ _ n m).
    + assert (Hnil : submitted [ev] = []) by (destruct (submitted [ev]); [done|cbn in Hl; unfold len in *; lia]).
      rewrite Hnil, app_nil_r in *. destruct ev as [d|t|answers]; [discriminate Hnil| |by apply (worker_ok _ _ _ n m)].
      cbn in Hnil. unfold persistence_step, Persistence_submit_traffic. destruct (TrafficSnapshot_is_empty t); [by exists n, m|done].
Qed.

(** The steps the writer still has to take. *)
Definition backlog (p : Persistence) : nat :=
  (3 * length (q_pending (ps_queue p)) + match ps_writer p with Waiting => 0 | Written _ _ => 1 | Writing _ _ => 2 end)%nat.
Lemma worker_drains t0 subs k p n m : persistence_ok t0 subs p n m -> (backlog p <= k)%nat ->
  exists p', persistence_run p (replicate k (Work [])) = p' /\ persistence_ok t0 subs p' (length subs) (length subs) /\ ps_writer p' = Waiting.
Proof.
  revert p n m. induction k as [|k IH]; intros p n m Hok Hk.
  - exists p. unfold backlog in Hk. destruct Hok as [Hc Hw Hn Hp Ht Hwr]. destruct (ps_writer p) eqn:E; [|lia..].
    destruct (q_pending (ps_queue p)) eqn:Eq; [|cbn in Hk; lia]. cbn in Hc. subst m. destruct Hwr as [<- Hs].
    split_and!; [done| |done]. split; [by rewrite Eq|done..|]. rewrite E. by split.
  - cbn [replicate]. destruct (worker_ok _ _ _ _ _ [] Hok ltac:(apply not_elem_of_nil)) as (n' & m' & Hok').
    apply (IH _ n' m' Hok'). unfold backlog in *. unfold worker_step, take_pending. destruct Hok as [Hc Hw Hn Hp Ht Hwr].
    destruct (ps_writer p) as [|r u|r e] eqn:E; cbn in Hwr.
    + destruct (q_pending (ps_queue p)) as [|[r u] pending] eqn:Eq; cbn in *; rewrite ?Eq, ?E; cbn; lia.
    + pose proof (persist_spec (ps_connected p) u (mkWorld (w_tables (ps_world p)) (w_legacy (ps_world p)) [])) as Hd.
      destruct (persist_database_update _ _ _) as [[x|e|] w]; cbn; [lia|lia|done].
    + cbn. lia.
Qed.

(** C19. Coalescing loses nothing.  Whatever is submitted while the writer is
    waiting, writing or reporting, as long as the writes succeed: the rows are
    what writing the first submissions one by one would make them, a revision
    [wait] confirms is among those, no failure is reported, and when the writer
    has caught up the rows hold everything and every revision is confirmed. *)
Theorem persistence_coalesces w evs :
  Forall works evs -> Forall update_wf (submitted evs) -> len (submitted evs) <= U64_MAX ->
  let p := persistence_run (Persistence_new w) evs in
  (exists n, tables_of (ps_world p) = write_all (tables_of w) (take n (submitted evs))
     /\ forall r, wait p r = Some None -> r <= Z.of_nat n)
  /\ (forall r e, wait p r <> Some (Some e))
  /\ exists k, let p' := persistence_run p (replicate k (Work [])) in
     tables_of (ps_world p') = write_all (tables_of w) (submitted evs)
     /\ forall r, r <= len (submitted evs) -> wait p' r = Some None.
Proof.
  intros Hw Hs Hl p. destruct (persistence_run_ok w evs Hw Hs Hl) as (n & m & Hok). fold p in Hok. split_and!.
  - exists n. split; [apply Hok|]. intros r. unfold wait. destruct (Z.leb_spec r (q_successful_revision (ps_queue p))) as [Hr|Hr].
    + intros _. pose proof (po_writer _ _ _ _ _ Hok) as Hwr. pose proof (po_written _ _ _ _ _ Hok).
      destruct (ps_writer p); cbn in Hwr; destruct_and!; lia.
    + rewrite (po_processed _ _ _ _ _ Hok). rewrite (proj2 (Z.leb_gt _ _)) by lia. done.
  - intros r e. unfold wait. rewrite (po_processed _ _ _ _ _ Hok). by destruct (r <=? _).
  - exists (backlog p). destruct (worker_drains _ _ (backlog p) _ _ _ Hok (le_n _)) as (p' & -> & Hok' & Hwait).
    split; [rewrite (po_tables _ _ _ _ _ Hok'); by rewrite take_ge|]. intros r Hr.
    pose proof (po_writer _ _ _ _ _ Hok') as Hwr. rewrite Hwait in Hwr. destruct Hwr as [_ Hwr]. unfold wait.
    rewrite Hwr. by rewrite (proj2 (Z.leb_le _ _)) by exact Hr.
Qed.

(** [wait] can confirm a snapshot that was never written: when its write
    fails and a traffic update submitted after it is written before the waiter
    looks, the revision of the traffic update counts for the snapshot. *)
Theorem wait_confirms_a_lost_snapshot w d traffic :
  TrafficSnapshot_is_empty traffic = false ->
  let p := persistence_run (Persistence_new w)
             [Submit d; SubmitTraffic traffic; Work []; Work [false]; Work []; Work []; Work []; Work []] in
  wait p 1 = Some None /\ tables_of (ps_world p) = traffic_rows (tables_of w) traffic.
Proof.
  intros Ht. unfold persistence_run. cbn [foldl persistence_step]. unfold Persistence_submit_traffic. rewrite Ht.
  destruct w as [t legacy a].
  assert (Hfail : persist_database_update false (Snapshot d) (mkWorld t legacy [false]) = (Err Io, mkWorld t legacy [])) by done.
  assert (Hwrite : persist_database_update false (Traffic traffic) (mkWorld t legacy [])
    = (Ok tt, mkWorld (Some (traffic_rows (default no_tables t) traffic)) legacy [])).
  { unfold persist_database_update, write_traffic. by rewrite Ht. }
  cbn -[persist_database_update]. rewrite Hfail. cbn -[persist_database_update]. rewrite Hwrite. by split.
Qed.

(** ** The import of the older files *)

Definition imported (legacy : Database) : Database :=
  mkDatabase (db_main_password legacy) (db_main_device_id legacy) (db_dns legacy) None
    (db_main_up_bytes legacy) (db_main_down_bytes legacy) [] [] (db_passwords legacy) (db_devices legacy) ∅ (db_logging_active legacy)
    (LocalProxyState_normalize (db_local_proxy legacy)).
Lemma inserts_all {A : Type} (m : gmap bytes A) : inserts (btree_iter m) ∅ = m.
Proof. rewrite inserts_union by apply btree_iter_keys. by rewrite btree_iter_map, map_empty_union. Qed.
Lemma legacy_rows_new d : db_wf d ->
  legacy_rows no_tables d = mkTables (t_meta (legacy_rows no_tables d)) (Some (db_main_up_bytes d, db_main_down_bytes d))
    (db_passwords d) (db_devices d) (list_to_map (profile_rows d))
    (if bytes_eqb (lp_active_profile_id (db_local_proxy d)) [] then None else Some (lp_active_profile_id (db_local_proxy d))).
Proof.
  intros [Hd Hp _]. unfold legacy_rows. cbn [t_meta t_counters t_passwords t_devices t_profiles t_active no_tables].
  rewrite (device_rows_iter d Hd), !inserts_all, inserts_union by (by rewrite profile_rows_keys). by rewrite map_empty_union.
Qed.
Lemma legacy_meta_lookup d : let meta := t_meta (legacy_rows no_tables d) in
  meta !! k_main_password = Some (db_main_password d) /\ meta !! k_main_device_id = Some (db_main_device_id d)
  /\ meta !! k_dns = Some (db_dns d) /\ meta !! k_auto_restart = None /\ meta !! k_logging_active = bool_text <$> db_logging_active d.
Proof.
  unfold legacy_rows. cbn [t_meta no_tables foldl]. unfold merge_text, inserts. cbn [fst snd foldl].
  assert (Hne : forall k (m : gmap bytes bytes) v, <[k := v]> m !! k = Some v) by (intros; apply lookup_insert_eq).
  rewrite !lookup_empty. repeat (rewrite lookup_insert_ne by key_ne). rewrite !lookup_empty.
  destruct (db_logging_active d) as [b|]; cbn [fmap option_fmap option_map]; split_and!;
    repeat first [rewrite lookup_insert_eq | rewrite lookup_insert_ne by key_ne | rewrite lookup_empty]; done.
Qed.
Lemma rows_of_legacy d : db_wf d -> rows_database (legacy_rows no_tables d) = imported d.
Proof.
  intros Hd. destruct (legacy_meta_lookup d) as (H1 & H2 & H3 & H4 & H5). rewrite (legacy_rows_new d Hd).
  destruct Hd as [Hdev Hprof Hh]. set (meta := t_meta (legacy_rows no_tables d)) in *. rewrite rows_database_eq by done.
  rewrite (read_profiles_rows d) by done. cbn [t_meta t_counters t_passwords t_devices t_active].
  rewrite H1, H2, H3, H4, H5. unfold imported. f_equal.
  - by destruct (db_logging_active d) as [[]|].
  - f_equal. destruct (db_local_proxy d) as [active l]. cbn. unfold bytes_eqb. by case_bool_decide; subst.
Qed.

Lemma verify_rows_ok {A : Type} (matches : A -> A -> bool) (missing conflict : DbError) (m : gmap bytes A) (rows : list (bytes * A)) :
  (forall a, matches a a = true) -> (forall r, r ∈ rows -> m !! r.1 = Some r.2) -> verify_rows matches missing conflict m rows = Ok tt.
Proof.
  intros Hm. induction rows as [|[k a] rows IH]; intros Hr; [done|]. cbn. pose proof (Hr (k, a) ltac:(by left)) as Hk. cbn in Hk.
  rewrite Hk, Hm. apply IH. intros r ?. apply Hr. by right.
Qed.
Lemma bytes_eqb_refl (l : bytes) : bytes_eqb l l = true.
Proof. by apply bool_decide_eq_true. Qed.
Lemma verify_imported d : verify_legacy_database_rows (imported d) d = Ok tt.
Proof.
  unfold verify_legacy_database_rows, conflicting. cbn [imported db_main_password db_main_device_id db_passwords db_devices].
  rewrite !bytes_eqb_refl, !andb_false_r.
  assert (Hrows : forall (A : Type) (m : gmap bytes A) r, r ∈ btree_iter m -> m !! r.1 = Some r.2).
  { intros A m [k a] Hr. rewrite btree_iter_perm in Hr. by apply elem_of_map_to_list in Hr. }
  rewrite (verify_rows_ok legacy_password_matches); [|intros e; unfold legacy_password_matches; rewrite !bytes_eqb_refl, !Z.eqb_refl; by destruct (pe_is_deactivated e)|apply Hrows].
  unfold mbind, result_bind. apply verify_rows_ok; [intros e; unfold legacy_device_matches; by rewrite !bytes_eqb_refl|apply Hrows].
Qed.
Lemma imported_secrets legacy : imported (without_secrets legacy) = imported legacy.
Proof. unfold imported. cbn. by rewrite normalize_settles. Qed.

(** The first start after the JSON format was retired takes everything the
    file holds: passwords, devices, the main password, counters and proxy
    profiles are those of the file (but for bindings to devices that do not
    exist), the rows hold them, and the file is removed. *)
Theorem legacy_import_complete from_slice data legacy :
  from_slice data = Some legacy -> db_wf legacy ->
  exists t, load_database from_slice (mkWorld None [data] [])
            = (Ok (repair_stale_password_bindings (imported legacy)).2, mkWorld (Some t) [] [])
    /\ db_passwords (rows_database t) = db_passwords (repair_stale_password_bindings (imported legacy)).2
    /\ db_devices (rows_database t) = db_devices legacy.
Proof.
  intros Hj Hd. set (l := without_secrets legacy).
  assert (Hl : db_wf l) by (destruct Hd as [? ? ?]; split; [done|cbn; by rewrite default_port_ids|done]).
  assert (Hparse : parse_legacy from_slice [data] (mkWorld None [data] []) = (Ok [l], mkWorld None [data] [])) by (cbn; by rewrite Hj).
  set (t := legacy_rows no_tables l).
  assert (Hread : rows_database t = imported legacy) by (unfold t; rewrite (rows_of_legacy l Hl); apply imported_secrets).
  assert (Hverify : verify_legacy_database_rows (imported legacy) l = Ok tt) by (rewrite <- imported_secrets; apply verify_imported).
  unfold load_database. cbn [w_tables w_legacy]. rewrite (effect_step _ _ _ _ _ Hparse).
  rewrite (effect_step open_database_connection _ _ tt (mkWorld (Some no_tables) [data] [])) by done.
  rewrite (effect_step (for_each import_legacy_database_rows [l]) _ _ tt (mkWorld (Some t) [data] [])) by done.
  rewrite (effect_step read_database_snapshot _ _ (rows_database t) (mkWorld (Some t) [data] [])) by done. rewrite Hread.
  rewrite (effect_step (for_each _ [l]) _ _ tt (mkWorld (Some t) [data] []))
    by (cbn [for_each]; rewrite (effect_step _ _ _ tt (mkWorld (Some t) [data] [])); [done|unfold lift; by rewrite Hverify]).
  unfold repair_loaded_database. destruct (repair_stale_password_bindings (imported legacy)) as [c d] eqn:Hrep.
  assert (Hwf : db_wf (imported legacy)) by (destruct Hd as [? ? ?]; split; [done|cbn; by rewrite default_port_ids|by vm_compute]).
  pose proof (repair_wf _ Hwf) as Hdwf. rewrite Hrep in Hdwf. cbn [snd] in Hdwf.
  destruct c; eexists; (split; [reflexivity|]).
  - rewrite rows_of_snapshot by done. split; [done|]. by injection Hrep as _ <-.
  - rewrite Hread. pose proof (repair_unchanged (imported legacy)) as Hu. rewrite Hrep in Hu. cbn in Hu. by rewrite Hu.
Qed.

(** An import that fails is not tried again: the call that opens the new
    file creates it, so that after a failed commit the next start finds a
    database file, ignores the JSON file and begins with no accounts at all. *)
Theorem failed_import_hides_legacy from_slice data legacy :
  from_slice data = Some legacy ->
  exists w, load_database from_slice (mkWorld None [data] [true; true; false]) = (Err Io, w) /\ w_legacy w = [data]
    /\ load_database from_slice w = (Ok Database_default, w).
Proof.
  intros Hj. exists (mkWorld (Some no_tables) [data] []). split_and!; [|done|vm_compute; reflexivity].
  unfold load_database. cbn [w_tables w_legacy].
  rewrite (effect_step _ _ _ [without_secrets legacy] (mkWorld None [data] [true; false])) by (cbn; by rewrite Hj). reflexivity.
Qed.

(** ** Addresses *)

Lemma tunnel_addresses : forall i, 2 <= i <= 250 -> parse_ipv4 (tunnel_address i) = Some [10; 66; 67; i].
Proof.
  assert (Hall : Forall (fun i => parse_ipv4 (tunnel_address i) = Some [10; 66; 67; i]) (seqZ 2 249)) by (apply (bool_decide_unpack _); vm_compute; exact I).
  intros i Hi. rewrite Forall_forall in Hall. apply Hall, elem_of_seqZ. lia.
Qed.
Lemma address_used_spec d ip : address_used d ip = true <-> exists id device, db_devices d !! id = Some device /\ cd_ip device = ip.
Proof.
  unfold address_used. rewrite negb_true_iff, bool_decide_eq_false. split.
  - intros Hn. apply map_not_Forall in Hn as (id & device & Hd & Hip); [|apply _]. exists id, device. split; [done|]. by destruct (decide (cd_ip device = ip)).
  - intros (id & device & Hd & Hip) Hall. by apply (Hall _ _ Hd).
Qed.
Lemma find_first {A : Type} (f : A -> bool) l :
  match List.find f l with
  | Some x => exists i, l !! i = Some x /\ f x = true /\ forall j y, (j < i)%nat -> l !! j = Some y -> f y = false
  | None => forall y, y ∈ l -> f y = false
  end.
Proof.
  induction l as [|x l IH]; cbn; [by intros y ?%not_elem_of_nil|]. destruct (f x) eqn:Hx.
  - exists O. split_and!; [done|done|lia].
  - destruct (List.find f l) as [z|].
    + destruct IH as (i & Hi & Hz & Hj). exists (S i). split_and!; [done|done|]. intros [|j] y Hlt Hy; cbn in Hy; [by simplify_eq|]. apply (Hj j); [lia|done].
    + intros y [->|Hy]%elem_of_cons; [done|by apply IH].
Qed.

Lemma next_ip_none d : get_next_ip d = None -> (forall j, 2 <= j <= 250 -> address_used d (tunnel_address j) = true) /\ (249 <= size (db_devices d))%nat.
Proof.
  unfold get_next_ip. intros Hn. pose proof (find_first (fun ip => negb (address_used d ip)) (tunnel_address <$> seqZ 2 249)) as Hf. rewrite Hn in Hf.
  assert (Hused : forall j, 2 <= j <= 250 -> address_used d (tunnel_address j) = true).
  { intros j Hj. apply negb_false_iff, Hf, list_elem_of_fmap. exists j. split; [done|]. apply elem_of_seqZ. lia. }
  split; [done|]. assert (Hsub : (tunnel_address <$> seqZ 2 249) ⊆+ (cd_ip ∘ snd <$> map_to_list (db_devices d))).
  { apply NoDup_submseteq; [apply (bool_decide_unpack _); vm_compute; exact I|]. intros ip Hip.
    apply list_elem_of_fmap in Hip as (j & -> & Hj). apply elem_of_seqZ in Hj.
    destruct (proj1 (address_used_spec d _) (Hused j ltac:(lia))) as (id & device & Hd & Hip).
    apply list_elem_of_fmap. exists (id, device). split; [by cbn|]. by apply elem_of_map_to_list. }
  apply submseteq_length in Hsub. rewrite !length_fmap in Hsub. rewrite length_seqZ in Hsub.
  rewrite length_map_to_list in Hsub. lia.
Qed.

(** The address given to a new device is in 10.66.67.2 to 10.66.67.250, no
    device has it, and every lower one is taken; only with at least 249 devices
    is there none. *)
Theorem address_assignment d :
  match get_next_ip d with
  | Some ip => exists i, 2 <= i <= 250 /\ parse_ipv4 ip = Some [10; 66; 67; i] /\ address_used d ip = false
      /\ forall j, 2 <= j < i -> address_used d (tunnel_address j) = true
  | None => (249 <= size (db_devices d))%nat /\ forall j, 2 <= j <= 250 -> address_used d (tunnel_address j) = true
  end.
Proof.
  destruct (get_next_ip d) as [ip|] eqn:Hg; unfold get_next_ip in Hg.
  - pose proof (find_first (fun ip => negb (address_used d ip)) (tunnel_address <$> seqZ 2 249)) as Hf. rewrite Hg in Hf. destruct Hf as (i & Hi & Hu & Hj). rewrite list_lookup_fmap in Hi. destruct (seqZ 2 249 !! i) as [x|] eqn:Hx; [|done]. injection Hi as <-.
    apply lookup_seqZ in Hx as [-> Hlt]. exists (2 + Z.of_nat i). split_and!; [lia|lia|apply tunnel_addresses; lia|by apply negb_true_iff|].
    intros j Hj'. apply negb_false_iff, (Hj (Z.to_nat (j - 2))); [lia|]. rewrite list_lookup_fmap, (proj2 (lookup_seqZ 2 249 (Z.to_nat (j - 2)) j)) by lia. done.
  - by destruct (next_ip_none d Hg).
Qed.

(** ** A concrete database *)

Definition demo_device : ClientDevice := mkDevice (b_ "phone") (b_ "10.66.67.2") (b_ "priv") (b_ "pub") 10 20.
Definition demo_entry (device : string) : PasswordEntry := mkEntry (b_ device) 0 1 2 [] [] false (b_ "guest") [] 1 2 3.
Definition demo_database : Database :=
  mkDatabase (b_ "main") (b_ "phone") (b_ "9.9.9.9") (Some 12) 5 6 (b_ "admin") (b_ "token")
    (<[b_ "secret" := demo_entry "phone"]> (<[b_ "stray" := demo_entry "tablet"]> ∅)) (<[b_ "phone" := demo_device]> ∅)
    (<[b_ "cookie" := 1]> ∅) (Some true) (mkProxyState (b_ "p") [mkProfile (b_ "q") [] 0 [] []; mkProfile (b_ "p") [] 1080 [] []]).
Definition demo_traffic : TrafficSnapshot := mkTrafficSnapshot (Some (mkTraffic 7 8)) (<[b_ "secret" := mkTraffic 9 9]> ∅) ∅.
Definition demo_world : World := mkWorld None [] [].
Definition demo_parser (data : bytes) : option Database := match data with [] => None | _ => Some demo_database end.
Lemma demo_database_wf : db_wf demo_database.
Proof. apply (bool_decide_unpack _). vm_compute. exact I. Qed.
Lemma demo_events_ok : Forall works [Submit demo_database; Work []; SubmitTraffic demo_traffic; SubmitTraffic demo_traffic; Work []]
  /\ Forall update_wf (submitted [Submit demo_database; Work []; SubmitTraffic demo_traffic; SubmitTraffic demo_traffic; Work []]).
Proof. split; apply (bool_decide_unpack _); vm_compute; exact I. Qed.

Lemma database_roundtrip_witness : exists w1 w2,
  save_database demo_database demo_world = (Ok tt, w1)
  /\ load_database demo_parser w1 = (Ok (repair_stale_password_bindings (persisted demo_database)).2, w2).
Proof.
  exists (mkWorld (Some (snapshot_rows no_tables demo_database)) [] []).
  pose proof (database_roundtrip demo_parser demo_database demo_world demo_database_wf) as H.
  assert (Hs : save_database demo_database demo_world = (Ok tt, mkWorld (Some (snapshot_rows no_tables demo_database)) [] [])) by reflexivity.
  rewrite Hs in H. destruct H as [_ H]. destruct (H eq_refl) as (w2 & _ & H2 & _). exists w2. split; [exact Hs|exact H2].
Defined.
Lemma persistence_coalesces_witness : exists k,
  tables_of (ps_world (persistence_run (persistence_run (Persistence_new demo_world)
     [Submit demo_database; Work []; SubmitTraffic demo_traffic; SubmitTraffic demo_traffic; Work []]) (replicate k (Work []))))
  = write_all no_tables [Snapshot demo_database; Traffic demo_traffic; Traffic demo_traffic].
Proof.
  destruct (persistence_coalesces demo_world [Submit demo_database; Work []; SubmitTraffic demo_traffic; SubmitTraffic demo_traffic; Work []]
    (proj1 demo_events_ok) (proj2 demo_events_ok) ltac:(vm_compute; discriminate)) as (_ & _ & k & Hk & _).
  exists k. exact Hk.
Defined.
Lemma wait_confirms_a_lost_snapshot_witness :
  tables_of (ps_world (persistence_run (Persistence_new demo_world)
    [Submit demo_database; SubmitTraffic demo_traffic; Work []; Work [false]; Work []; Work []; Work []; Work []]))
  = traffic_rows no_tables demo_traffic.
Proof. exact (proj2 (wait_confirms_a_lost_snapshot demo_world demo_database demo_traffic eq_refl)). Defined.
Lemma legacy_import_complete_witness : exists t, load_database demo_parser (mkWorld None [[123; 125]] [])
  = (Ok (repair_stale_password_bindings (imported demo_database)).2, mkWorld (Some t) [] []).
Proof.
  destruct (legacy_import_complete demo_parser [123; 125] demo_database eq_refl demo_database_wf) as (t & Ht & _). exists t. exact Ht.
Defined.
Lemma failed_import_hides_legacy_witness : exists w, w_legacy w = [[123; 125]] /\ load_database demo_parser w = (Ok Database_default, w).
Proof.
  destruct (failed_import_hides_legacy demo_parser [123; 125] demo_database eq_refl) as (w & _ & Hl & Hw). exists w. exact (conj Hl Hw).
Defined.
