(* ===== verification/Control.v ===== *)
(** * The control task

    The half of [rust-server/protocol.rs] that runs beside the engine: answering
    GETCONF and DISCONNECT, giving a session its tunnel, dropping sessions,
    refreshing the credentials, moving traffic counters into the database, and
    the janitors.

    The handlers are asynchronous: wherever one awaits a lock, other tasks run.
    A computation therefore carries, beside the state of the application, what
    the others do at each of its pauses and whether each lock is obtained in
    time; both are arbitrary.  What lies between two pauses is one step: for the
    database that is what its lock guarantees; that no other thread touches the
    table of sessions within such a step is an idealisation.  Text that only
    goes to the log is left out. *)

From stdpp Require Import sorting.
From S2P Require Import Prelude StreamControl Text Getconf Sink Engine Accounts.

Definition PUBLIC_SETUP_GHOST_IDLE_SECS : Z := 30.
Definition PUBLIC_AUTH_GHOST_IDLE_SECS : Z := 2 * 60.
Definition PUBLIC_SESSION_LIMIT : Z := MAX_ACTIVE_SESSIONS + 256.
Definition DEVICE_EPOCH_IDLE_TTL_MS : Z := 60 * 60 * 1000.

(** ** Epochs of devices *)

Record DeviceEpochState := mkEpoch { ep_generation_id : Z; ep_session_salt : bytes }.
#[global] Instance DeviceEpochState_eq_dec : EqDecision DeviceEpochState.
Proof. solve_decision. Defined.
Inductive DeviceEpochDecision := Current | Replaced.
Definition DeviceEpochState_default : DeviceEpochState := mkEpoch 0 [].
Definition DeviceEpochState_admit (e : DeviceEpochState) (generation_id : Z) (session_salt : bytes) : DeviceEpochDecision * DeviceEpochState :=
  if negb (generation_id =? ep_generation_id e) || negb (bytes_eqb session_salt (ep_session_salt e))
  then (Replaced, mkEpoch generation_id session_salt) else (Current, e).
Definition DeviceEpochState_matches (e : DeviceEpochState) (generation_id : Z) (session_salt : bytes) : bool :=
  (ep_generation_id e =? generation_id) && bytes_eqb (ep_session_salt e) session_salt.
(** A slot is shared by reference: [es_ref] is which one it is. *)
Record DeviceEpochSlot := mkSlot { es_ref : Z; es_epoch : DeviceEpochState; es_last_used_ms : Z }.

(** ** What the application keeps for the panel

    Sessions of the panel by the hash of their token, failed logins by source
    (how many, and until when they count), the credentials of the panel, and the
    switches its handlers set for other tasks. *)
Record Web := mkWeb {
  wb_sessions : gmap bytes Z; wb_limits : gmap bytes (Z * Z); wb_user : bytes; wb_pass : bytes; wb_startup_main_password : bytes;
  wb_logging_active : bool; wb_logs : list bytes; wb_auto_restart_interval : Z; wb_restart_pending : bool;
  wb_proxy_notified : bool; wb_proxy_route : bool; wb_proxy_health_error : option bytes;
}.
Definition set_wb_sessions (w : Web) (v : gmap bytes Z) : Web :=
  mkWeb v (wb_limits w) (wb_user w) (wb_pass w) (wb_startup_main_password w) (wb_logging_active w) (wb_logs w) (wb_auto_restart_interval w) (wb_restart_pending w) (wb_proxy_notified w) (wb_proxy_route w) (wb_proxy_health_error w).
Definition set_wb_limits (w : Web) (v : gmap bytes (Z * Z)) : Web :=
  mkWeb (wb_sessions w) v (wb_user w) (wb_pass w) (wb_startup_main_password w) (wb_logging_active w) (wb_logs w) (wb_auto_restart_interval w) (wb_restart_pending w) (wb_proxy_notified w) (wb_proxy_route w) (wb_proxy_health_error w).
Definition set_wb_logging_active (w : Web) (v : bool) : Web :=
  mkWeb (wb_sessions w) (wb_limits w) (wb_user w) (wb_pass w) (wb_startup_main_password w) v (wb_logs w) (wb_auto_restart_interval w) (wb_restart_pending w) (wb_proxy_notified w) (wb_proxy_route w) (wb_proxy_health_error w).
Definition set_wb_logs (w : Web) (v : list bytes) : Web :=
  mkWeb (wb_sessions w) (wb_limits w) (wb_user w) (wb_pass w) (wb_startup_main_password w) (wb_logging_active w) v (wb_auto_restart_interval w) (wb_restart_pending w) (wb_proxy_notified w) (wb_proxy_route w) (wb_proxy_health_error w).
Definition set_wb_auto_restart_interval (w : Web) (v : Z) : Web :=
  mkWeb (wb_sessions w) (wb_limits w) (wb_user w) (wb_pass w) (wb_startup_main_password w) (wb_logging_active w) (wb_logs w) v (wb_restart_pending w) (wb_proxy_notified w) (wb_proxy_route w) (wb_proxy_health_error w).
Definition set_wb_restart_pending (w : Web) (v : bool) : Web :=
  mkWeb (wb_sessions w) (wb_limits w) (wb_user w) (wb_pass w) (wb_startup_main_password w) (wb_logging_active w) (wb_logs w) (wb_auto_restart_interval w) v (wb_proxy_notified w) (wb_proxy_route w) (wb_proxy_health_error w).
Definition set_wb_proxy_notified (w : Web) (v : bool) : Web :=
  mkWeb (wb_sessions w) (wb_limits w) (wb_user w) (wb_pass w) (wb_startup_main_password w) (wb_logging_active w) (wb_logs w) (wb_auto_restart_interval w) (wb_restart_pending w) v (wb_proxy_route w) (wb_proxy_health_error w).

(** ** The application

    [ap_public] holds every [Session] some task refers to; [ap_sessions] says
    which of them are in [app.sessions]. *)
Record App := mkApp {
  ap_db : Database;
  ap_public : gmap Z Session;
  ap_sessions : gset Z;
  ap_epochs : gmap bytes DeviceEpochSlot;
  ap_commands : Channel ProtocolCommand;
  ap_persistence : Persistence;
  ap_derived_keys : gmap bytes bytes;
  ap_credentials : list Credential;
  ap_dns : bytes;
  ap_registrations : Z;
  ap_connections : Z;
  ap_slots : Z;
  ap_now : Z;
  ap_now_ms : Z;
  ap_web : Web;
}.
Definition set_ap_db (a : App) (v : Database) : App :=
  mkApp v (ap_public a) (ap_sessions a) (ap_epochs a) (ap_commands a) (ap_persistence a) (ap_derived_keys a) (ap_credentials a) (ap_dns a) (ap_registrations a) (ap_connections a) (ap_slots a) (ap_now a) (ap_now_ms a) (ap_web a).
Definition set_ap_public (a : App) (v : gmap Z Session) : App :=
  mkApp (ap_db a) v (ap_sessions a) (ap_epochs a) (ap_commands a) (ap_persistence a) (ap_derived_keys a) (ap_credentials a) (ap_dns a) (ap_registrations a) (ap_connections a) (ap_slots a) (ap_now a) (ap_now_ms a) (ap_web a).
Definition set_ap_sessions (a : App) (v : gset Z) : App :=
  mkApp (ap_db a) (ap_public a) v (ap_epochs a) (ap_commands a) (ap_persistence a) (ap_derived_keys a) (ap_credentials a) (ap_dns a) (ap_registrations a) (ap_connections a) (ap_slots a) (ap_now a) (ap_now_ms a) (ap_web a).
Definition set_ap_epochs (a : App) (v : gmap bytes DeviceEpochSlot) : App :=
  mkApp (ap_db a) (ap_public a) (ap_sessions a) v (ap_commands a) (ap_persistence a) (ap_derived_keys a) (ap_credentials a) (ap_dns a) (ap_registrations a) (ap_connections a) (ap_slots a) (ap_now a) (ap_now_ms a) (ap_web a).
Definition set_ap_commands (a : App) (v : Channel ProtocolCommand) : App :=
  mkApp (ap_db a) (ap_public a) (ap_sessions a) (ap_epochs a) v (ap_persistence a) (ap_derived_keys a) (ap_credentials a) (ap_dns a) (ap_registrations a) (ap_connections a) (ap_slots a) (ap_now a) (ap_now_ms a) (ap_web a).
Definition set_ap_persistence (a : App) (v : Persistence) : App :=
  mkApp (ap_db a) (ap_public a) (ap_sessions a) (ap_epochs a) (ap_commands a) v (ap_derived_keys a) (ap_credentials a) (ap_dns a) (ap_registrations a) (ap_connections a) (ap_slots a) (ap_now a) (ap_now_ms a) (ap_web a).
Definition set_ap_derived_keys (a : App) (v : gmap bytes bytes) : App :=
  mkApp (ap_db a) (ap_public a) (ap_sessions a) (ap_epochs a) (ap_commands a) (ap_persistence a) v (ap_credentials a) (ap_dns a) (ap_registrations a) (ap_connections a) (ap_slots a) (ap_now a) (ap_now_ms a) (ap_web a).
Definition set_ap_credentials (a : App) (v : list Credential) : App :=
  mkApp (ap_db a) (ap_public a) (ap_sessions a) (ap_epochs a) (ap_commands a) (ap_persistence a) (ap_derived_keys a) v (ap_dns a) (ap_registrations a) (ap_connections a) (ap_slots a) (ap_now a) (ap_now_ms a) (ap_web a).
Definition set_ap_dns (a : App) (v : bytes) : App :=
  mkApp (ap_db a) (ap_public a) (ap_sessions a) (ap_epochs a) (ap_commands a) (ap_persistence a) (ap_derived_keys a) (ap_credentials a) v (ap_registrations a) (ap_connections a) (ap_slots a) (ap_now a) (ap_now_ms a) (ap_web a).
Definition set_ap_registrations (a : App) (v : Z) : App :=
  mkApp (ap_db a) (ap_public a) (ap_sessions a) (ap_epochs a) (ap_commands a) (ap_persistence a) (ap_derived_keys a) (ap_credentials a) (ap_dns a) v (ap_connections a) (ap_slots a) (ap_now a) (ap_now_ms a) (ap_web a).
Definition set_ap_connections (a : App) (v : Z) : App :=
  mkApp (ap_db a) (ap_public a) (ap_sessions a) (ap_epochs a) (ap_commands a) (ap_persistence a) (ap_derived_keys a) (ap_credentials a) (ap_dns a) (ap_registrations a) v (ap_slots a) (ap_now a) (ap_now_ms a) (ap_web a).
Definition set_ap_slots (a : App) (v : Z) : App :=
  mkApp (ap_db a) (ap_public a) (ap_sessions a) (ap_epochs a) (ap_commands a) (ap_persistence a) (ap_derived_keys a) (ap_credentials a) (ap_dns a) (ap_registrations a) (ap_connections a) v (ap_now a) (ap_now_ms a) (ap_web a).
Definition set_ap_now (a : App) (v : Z) : App :=
  mkApp (ap_db a) (ap_public a) (ap_sessions a) (ap_epochs a) (ap_commands a) (ap_persistence a) (ap_derived_keys a) (ap_credentials a) (ap_dns a) (ap_registrations a) (ap_connections a) (ap_slots a) v (ap_now_ms a) (ap_web a).
Definition set_ap_now_ms (a : App) (v : Z) : App :=
  mkApp (ap_db a) (ap_public a) (ap_sessions a) (ap_epochs a) (ap_commands a) (ap_persistence a) (ap_derived_keys a) (ap_credentials a) (ap_dns a) (ap_registrations a) (ap_connections a) (ap_slots a) (ap_now a) v (ap_web a).

Definition set_ap_web (a : App) (v : Web) : App :=
  mkApp (ap_db a) (ap_public a) (ap_sessions a) (ap_epochs a) (ap_commands a) (ap_persistence a) (ap_derived_keys a) (ap_credentials a) (ap_dns a) (ap_registrations a) (ap_connections a) (ap_slots a) (ap_now a) (ap_now_ms a) v.

Inductive CtlError := LockTimeout | QueueFull | NotText | NoAddress | BadAddress | NoWorker | NoKey | StillWaiting.
(** The application, what the other tasks do at each pause, and whether each
    lock of the database is obtained. *)
Record Task := mkTask { tk_app : App; tk_others : list (App -> App); tk_locks : list bool }.
Abbreviation ctl := (effect Task CtlError).
Definition gets {A : Type} (f : App -> A) : ctl A := fun t => (Ok (f (tk_app t)), t).
Definition modify (f : App -> App) : ctl unit := fun t => (Ok tt, mkTask (f (tk_app t)) (tk_others t) (tk_locks t)).
Definition fail_with {A : Type} (e : CtlError) : ctl A := fun t => (Err e, t).
Definition panic {A : Type} : ctl A := fun t => (Panic, t).
Definition pause : ctl unit := fun t =>
  match tk_others t with
  | [] => (Ok tt, t)
  | f :: others => (Ok tt, mkTask (f (tk_app t)) others (tk_locks t))
  end.
(** [db_read] and [db_write]; [false] is the time-out. *)
Definition db_lock_answer : ctl bool := fun t =>
  match tk_locks t with
  | [] => (Ok true, t)
  | obtained :: locks => (Ok obtained, mkTask (tk_app t) (tk_others t) locks)
  end.
Definition db_lock : ctl bool := _ ← pause; db_lock_answer.
Definition locked : ctl unit := obtained ← db_lock; if (obtained : bool) then mret tt else fail_with LockTimeout.

(** [command], and [let _ = command]. *)
Definition send_command (a : App) (c : ProtocolCommand) : bool * App :=
  let '(sent, ch) := try_send (ap_commands a) c in (sent, set_ap_commands a ch).
Definition command (c : ProtocolCommand) : ctl unit :=
  sent ← gets (fun a => (send_command a c).1);
  _ ← modify (fun a => (send_command a c).2);
  if (sent : bool) then mret tt else fail_with QueueFull.
Definition post (a : App) (c : ProtocolCommand) : App := (send_command a c).2.
Definition write (id : Z) (payload : bytes) : ctl unit := command (SendPlain id payload).

Definition on_session (a : App) (id : Z) (f : Session -> Session) : App := set_ap_public a (alter f id (ap_public a)).
(** [app.sessions.remove_if(id, ..)] and the cancellation that follows it. *)
Definition forget_session (a : App) (id : Z) : App :=
  if bool_decide (id ∈ ap_sessions a)
  then on_session (set_ap_sessions a (ap_sessions a ∖ {[id]})) id (fun p => set_pub_cancelled p true) else a.
(** The sessions of the table, in the order of its iterator. *)
Definition live_sessions (a : App) : list (Z * Session) :=
  omap (fun id => (fun p => (id, p)) <$> ap_public a !! id) (elements (ap_sessions a)).
Definition sessions_where (a : App) (p : Z -> Session -> bool) : list Z :=
  (filter (fun s => p s.1 s.2 = true) (live_sessions a)).*1.
Definition drop_sessions (a : App) (ids : list Z) : App :=
  foldl (fun a id => forget_session (post a (DropSession id)) id) a ids.

(** ** Who may do what *)

Definition denied (reason : string) : bytes := b_ "DENIED:" ++ b_ reason.
Inductive CredentialAccess := Main | Bound | Unbound.
#[global] Instance CredentialAccess_eq_dec : EqDecision CredentialAccess.
Proof. solve_decision. Defined.

Definition getconf_credential_access (d : Database) (now : Z) (password device_id : bytes) : bytes + CredentialAccess :=
  if negb (bytes_eqb (db_main_password d) []) && bytes_eqb password (db_main_password d) then
    if negb (bytes_eqb (db_main_device_id d) []) && negb (bytes_eqb (db_main_device_id d) device_id)
    then inl (denied "device_mismatch") else inr Main
  else
  match db_passwords d !! password with
  | None => inl (denied "expired")
  | Some entry =>
      if is_expired entry now then inl (denied "expired") else
      if pe_is_deactivated entry then inl (denied "deactivated") else
      if negb (bytes_eqb (pe_device_id entry) []) && negb (bytes_eqb (pe_device_id entry) device_id)
      then inl (denied "device_mismatch")
      else inr (if bytes_eqb (pe_device_id entry) [] then Unbound else Bound)
  end.

Definition device_control_authorized (d : Database) (now : Z) (password device_id : bytes) : bool :=
  if bytes_eqb device_id [] then false else
  let known := bool_decide (is_Some (db_devices d !! device_id)) in
  if negb (bytes_eqb (db_main_password d) []) && bytes_eqb password (db_main_password d) then
    if negb (bytes_eqb (db_main_device_id d) []) && negb (bytes_eqb (db_main_device_id d) device_id) then false else known
  else
  match db_passwords d !! password with
  | None => false
  | Some entry =>
      negb (is_expired entry now) && negb (pe_is_deactivated entry)
      && negb (bytes_eqb (pe_device_id entry) []) && bytes_eqb (pe_device_id entry) device_id && known
  end.

(** [rejected_session_is_request] *)
Definition rejected_session_is_request (p : Session) (device_id : bytes) (generation_id : Z) (session_salt : bytes) : bool :=
  bytes_eqb (pub_device_id p) []
  || (bytes_eqb (pub_device_id p) device_id && (pub_generation_id p =? generation_id) && bytes_eqb (pub_session_salt p) session_salt).

Definition drop_exact_session (a : App) (id : Z) : App := drop_sessions a [id].
Definition purge_stale_device_sessions (a : App) (device_id : bytes) (generation_id : Z) (session_salt : bytes) (current : Z) : App :=
  drop_sessions a (sessions_where a (fun id p =>
    negb (id =? current) && bytes_eqb (pub_device_id p) device_id
    && (negb (pub_generation_id p =? generation_id) || negb (bytes_eqb (pub_session_salt p) session_salt)))).
Definition purge_replaced_worker_sessions (a : App) (device_id : bytes) (generation_id : Z) (session_salt : bytes)
    (worker_id current : Z) : App :=
  drop_sessions a (sessions_where a (fun id p =>
    negb (id =? current) && (pub_worker_id p =? worker_id) && bytes_eqb (pub_device_id p) device_id
    && (pub_generation_id p =? generation_id) && bytes_eqb (pub_session_salt p) session_salt)).

(** [lock_device_epoch] and [lock_existing_device_epoch]: the slot of the
    device, made if need be, once its mutex is held.  The loop is for a slot
    that was replaced while the task waited for it: what it returns is the slot
    that is in the table then. *)
Definition fresh_device_epoch_slot (a : App) : DeviceEpochSlot := mkSlot (ap_slots a) DeviceEpochState_default (ap_now_ms a).
Definition touch_slot (a : App) (device_id : bytes) : App :=
  set_ap_epochs a (alter (fun s => mkSlot (es_ref s) (es_epoch s) (ap_now_ms a)) device_id (ap_epochs a)).
Definition lock_device_epoch (device_id : bytes) : ctl (DeviceEpochSlot * bool) :=
  _ ← pause;
  existing ← gets (fun a => ap_epochs a !! device_id);
  match existing with
  | Some slot => _ ← modify (fun a => touch_slot a device_id); mret (slot, false)
  | None =>
      fresh ← gets fresh_device_epoch_slot;
      _ ← modify (fun a => set_ap_slots (set_ap_epochs a (<[device_id := fresh]> (ap_epochs a))) (ap_slots a + 1));
      mret (fresh, true)
  end.
Definition lock_existing_device_epoch (device_id : bytes) : ctl (option DeviceEpochSlot) :=
  _ ← pause;
  existing ← gets (fun a => ap_epochs a !! device_id);
  _ ← modify (fun a => touch_slot a device_id);
  mret existing.
(** [app.device_epochs.remove_if(.., ptr_eq)] *)
Definition forget_slot (a : App) (device_id : bytes) (ref : Z) : App :=
  match ap_epochs a !! device_id with
  | Some slot => if es_ref slot =? ref then set_ap_epochs a (delete device_id (ap_epochs a)) else a
  | None => a
  end.

Section Control.
Context `{KeyTools}.

(** ** Credentials *)

Definition active_passwords (d : Database) (now : Z) : list bytes :=
  (if bytes_eqb (db_main_password d) [] then [] else [db_main_password d])
  ++ (filter (fun kv => negb (pe_is_deactivated kv.2) && negb (is_expired kv.2 now) = true) (btree_iter (db_passwords d))).*1.
(** The loop of [build_credentials], with the cache of derived keys. *)
Fixpoint derive_credentials (passwords : list bytes) (keys : gmap bytes bytes) : option (list Credential) * gmap bytes bytes :=
  match passwords with
  | [] => (Some [], keys)
  | password :: passwords =>
      match (match keys !! password with Some key => Some key | None => ok (derive_wrap_key password) end) with
      | None => (None, keys)
      | Some key =>
          let '(entries, keys) := derive_credentials passwords (<[password := key]> keys) in
          (cons (mkCredential password key) <$> entries, keys)
      end
  end.
Definition build_credentials : ctl (list Credential) :=
  _ ← locked;
  passwords ← gets (fun a => active_passwords (ap_db a) (ap_now a));
  _ ← modify (fun a => set_ap_derived_keys a (filter (fun kv => kv.1 ∈ passwords) (ap_derived_keys a)));
  entries ← gets (fun a => (derive_credentials passwords (ap_derived_keys a)).1);
  _ ← modify (fun a => set_ap_derived_keys a (derive_credentials passwords (ap_derived_keys a)).2);
  match entries with
  | None => fail_with NoKey
  | Some entries => mret entries
  end.
Definition refresh_credentials : ctl unit :=
  entries ← build_credentials;
  _ ← modify (fun a => set_ap_credentials a entries);
  command (ReplaceCredentials entries).
(** [match m.await { Ok(a) => f(a), Err(e) => g(e) }], and [let _ = m.await]. *)
Definition on_result {A B : Type} (m : ctl A) (f : A -> ctl B) (g : CtlError -> ctl B) : ctl B := fun t =>
  match m t with
  | (Ok a, t) => f a t
  | (Err e, t) => g e t
  | (Panic, t) => (Panic, t)
  end.
Definition ignore {A : Type} (m : ctl A) : ctl unit := on_result m (fun _ => mret tt) (fun _ => mret tt).

(** ** GETCONF *)

Record Request := mkRequest {
  rq_device_id : bytes; rq_password : bytes; rq_generation_id : Z; rq_session_salt : bytes;
  rq_worker_id : Z; rq_desired_count : Z; rq_client_port : bytes; rq_data_frames : bool;
}.
(** What [handle_getconf] checks before it looks at the database. *)
Definition getconf_request (f : GetconfText) (session_password : bytes) : bytes + Request :=
  match parse_generation_id (generation_text f) with
  | None => inl (denied "invalid_epoch")
  | Some generation_id =>
      if negb (is_supported_wire_protocol (revision_text f)) then inl (denied "protocol_mismatch") else
      if negb (bytes_eqb (password_text f) session_password) then inl (denied "wrong_password") else
      if bytes_eqb (device_text f) [] || (128 <? len (device_text f)) then inl (denied "invalid_device") else
      if bool_decide (parse_u16 (client_port f) = None) then inl (denied "invalid_port") else
      if 128 <? len (salt_text f) then inl (denied "invalid_epoch") else
      match parse_u16 (worker_text f) with
      | None => inl (denied "invalid_worker")
      | Some worker_id =>
          if negb ((1 <=? worker_id) && (worker_id <=? MAX_STREAM_WORKERS)) then inl (denied "invalid_worker") else
          let request desired_count :=
            mkRequest (device_text f) (password_text f) generation_id (salt_text f) worker_id desired_count (client_port f)
              (supports_data_frames (revision_text f)) in
          if bytes_eqb (desired_text f) [] then inr (request 0) else
          match parse_u16 (desired_text f) with
          | None => inl (denied "invalid_worker_count")
          | Some count =>
              if negb ((1 <=? count) && (count <=? MAX_STREAM_WORKERS)) || (count <? worker_id)
              then inl (denied "invalid_worker_count") else inr (request count)
          end
      end
  end.

(** [if rejected_session_is_request(..) { drop_exact_session(..) }] *)
Definition reject (id : Z) (rq : Request) : ctl unit :=
  modify (fun a => match ap_public a !! id with
    | Some p => if rejected_session_is_request p (rq_device_id rq) (rq_generation_id rq) (rq_session_salt rq) then drop_exact_session a id else a
    | None => a end).

(** What the database gains: the binding of the password or of the main
    password, and the device with its address. *)
Definition bind_device (d : Database) (access : CredentialAccess) (rq : Request) : bool * Database :=
  match access with
  | Unbound =>
      match db_passwords d !! rq_password rq with
      | Some entry => (true, set_db_passwords d (<[rq_password rq := set_entry_device entry (rq_device_id rq)]> (db_passwords d)))
      | None => (false, d)
      end
  | Main => if bytes_eqb (db_main_device_id d) [] then (true, set_db_main_device_id d (rq_device_id rq)) else (false, d)
  | Bound => (false, d)
  end.
Definition add_device (d : Database) (device_id : bytes) (keys : bytes * bytes) : bool * Database :=
  match db_devices d !! device_id with
  | Some _ => (false, d)
  | None =>
      match get_next_ip d with
      | Some ip => (true, set_db_devices d (<[device_id := mkDevice device_id ip keys.1 keys.2 0 0]> (db_devices d)))
      | None => (false, d)
      end
  end.
Definition stream_revision (data_frames : bool) : bytes := if data_frames then b_ "stream-v2" else b_ "stream-v1".
Definition tunnel_configuration (d : Database) (dns : bytes) (rq : Request) : bytes * option bytes :=
  match db_devices d !! rq_device_id rq with
  | Some device =>
      (b_ "TUNCONF:" ++ cd_ip device ++ b_ ":" ++ dns ++ b_ ":" ++ rq_client_port rq ++ b_ ":" ++ stream_revision (rq_data_frames rq),
       parse_ipv4 (cd_ip device))
  | None => (b_ "NOCONF", None)
  end.

Record Outcome := mkOutcome { oc_response : bytes; oc_rejected : bool; oc_tunnel_ip : option bytes; oc_changed : bool }.
(** The part under the write lock of the database. *)
Definition announce_session (a : App) (id : Z) (rq : Request) : App :=
  let a := set_ap_epochs a (alter (fun s => mkSlot (es_ref s) (DeviceEpochState_admit (es_epoch s) (rq_generation_id rq) (rq_session_salt rq)).2
                                              (es_last_used_ms s)) (rq_device_id rq) (ap_epochs a)) in
  let a := on_session a id (fun p => set_pub_identity p (rq_device_id rq) (rq_generation_id rq) (rq_session_salt rq)) in
  let a := on_session a id (fun p => set_pub_desired_stream_count (set_pub_worker_id p (rq_worker_id rq)) (rq_desired_count rq)) in
  let a := purge_stale_device_sessions a (rq_device_id rq) (rq_generation_id rq) (rq_session_salt rq) id in
  purge_replaced_worker_sessions a (rq_device_id rq) (rq_generation_id rq) (rq_session_salt rq) (rq_worker_id rq) id.
Definition enter_database (a : App) (access : CredentialAccess) (rq : Request) (keys : bytes * bytes) (dns : bytes) : Outcome * App :=
  let '(bound, d) := bind_device (ap_db a) access rq in
  let '(added, d) := add_device d (rq_device_id rq) keys in
  let '(response, ip) := tunnel_configuration d dns rq in
  let a := set_ap_db a d in
  (mkOutcome response false ip (bound || added),
   if bound || added then set_ap_persistence a (Persistence_submit (ap_persistence a) d).2 else a).
Definition getconf_commit (seed : bytes) (id : Z) (rq : Request) (dns : bytes) : ctl Outcome :=
  access ← gets (fun a => getconf_credential_access (ap_db a) (ap_now a) (rq_password rq) (rq_device_id rq));
  match access with
  | inl response => mret (mkOutcome response true None false)
  | inr access =>
      _ ← modify (fun a => announce_session a id rq);
      match generate_key_pair seed with
      | Ok keys =>
          outcome ← gets (fun a => (enter_database a access rq keys dns).1);
          _ ← modify (fun a => (enter_database a access rq keys dns).2);
          mret outcome
      | _ => panic
      end
  end.

(** The commands that follow. *)
Definition next_registration : ctl Z :=
  r ← gets ap_registrations; _ ← modify (fun a => set_ap_registrations a (u64_of (ap_registrations a + 1))); mret r.
Definition activate (id : Z) (rq : Request) (ip : bytes) : ctl unit :=
  _ ← modify (fun a => on_session a id (fun p => set_pub_tunnel_ip p (Some ip)));
  registration_id ← next_registration;
  _ ← modify (fun a => on_session a id (fun p => set_pub_has_tunnel p true));
  command (ActivateTunnel id ip registration_id (rq_worker_id rq) (rq_desired_count rq)).
Definition instruct_engine (id : Z) (rq : Request) : ctl unit :=
  _ ← command (UpdateEpoch id (rq_device_id rq) (rq_generation_id rq) (rq_session_salt rq));
  _ ← command (SetDataFrames id (rq_data_frames rq));
  command (SetAuthoritativeEpoch (rq_device_id rq) (rq_generation_id rq) (rq_session_salt rq)).

Definition getconf_admitted (seed : bytes) (id : Z) (rq : Request) : ctl unit :=
  '(slot, created) ← lock_device_epoch (rq_device_id rq);
  _ ← pause;
  dns ← gets ap_dns;
  _ ← locked;
  outcome ← getconf_commit seed id rq dns;
  _ ← pause;
  _ ← modify (fun a => if oc_rejected outcome && created then forget_slot a (rq_device_id rq) (es_ref slot) else a);
  _ ← (if oc_rejected outcome then mret tt else instruct_engine id rq);
  _ ← (match oc_tunnel_ip outcome with
       | Some ip => if oc_rejected outcome then mret tt else activate id rq ip
       | None => mret tt end);
  _ ← write id (oc_response outcome);
  _ ← (if oc_rejected outcome then reject id rq else mret tt);
  if oc_changed outcome then ignore refresh_credentials else mret tt.

Definition handle_getconf (seed : bytes) (id : Z) (text : bytes) : ctl unit :=
  session ← gets (fun a => ap_public a !! id);
  match session with
  | None => mret tt
  | Some p =>
      match getconf_request (getconf_fields text) (pub_password p) with
      | inl response => write id response
      | inr rq =>
          _ ← locked;
          preliminary ← gets (fun a => getconf_credential_access (ap_db a) (ap_now a) (rq_password rq) (rq_device_id rq));
          match preliminary with
          | inl response => _ ← write id response; reject id rq
          | inr _ => getconf_admitted seed id rq
          end
      end
  end.

(** ** The tunnel of a session that sends data first *)

Definition valid_worker (w : Z) : bool := (1 <=? w) && (w <=? MAX_STREAM_WORKERS).
Definition session_tunnel_ip (id : Z) : ctl bytes :=
  known ← gets (fun a => ap_public a !! id ≫= pub_tunnel_ip);
  match known with
  | Some ip => mret ip
  | None =>
      device_id ← gets (fun a => default [] (pub_device_id <$> ap_public a !! id));
      _ ← locked;
      resolved ← gets (fun a => resolve_session_ip (ap_db a) (default [] (pub_password <$> ap_public a !! id)) device_id);
      match resolved with
      | None => fail_with NoAddress
      | Some ip =>
          match parse_ipv4 ip with
          | None => fail_with BadAddress
          | Some parsed => _ ← modify (fun a => on_session a id (fun p => set_pub_tunnel_ip p (Some parsed))); mret parsed
          end
      end
  end.
Definition ensure_control_tunnel (id : Z) : ctl unit :=
  has_tunnel ← gets (fun a => default false (pub_has_tunnel <$> ap_public a !! id));
  if (has_tunnel : bool) then mret tt else
  ip ← session_tunnel_ip id;
  registration_id ← next_registration;
  worker_id ← gets (fun a => default U64_MAX (pub_worker_id <$> ap_public a !! id));
  if negb (valid_worker worker_id) then fail_with NoWorker else
  desired ← gets (fun a => default 0 (pub_desired_stream_count <$> ap_public a !! id));
  let desired_count := if valid_worker desired && (worker_id <=? desired) then desired else 0 in
  _ ← command (ActivateTunnel id ip registration_id worker_id desired_count);
  modify (fun a => on_session a id (fun p => set_pub_has_tunnel p true)).

(** ** DISCONNECT *)

Definition disconnect_request_authorized (d : Database) (now : Z) (password : bytes) (requester : Session) (device_id target_salt : bytes)
    (epoch : DeviceEpochState) : bool :=
  negb (bytes_eqb target_salt []) && bytes_eqb (pub_device_id requester) device_id && bytes_eqb (pub_session_salt requester) target_salt
  && DeviceEpochState_matches epoch (pub_generation_id requester) target_salt
  && device_control_authorized d now password device_id.
(** [remove_if] checks the device of the session again. *)
Definition disconnect_sessions (a : App) (requester : Z) (device_id : bytes) (ids : list Z) : Z * App :=
  foldl (fun '(removed, a) id =>
    match ap_public a !! id with
    | Some p => if bool_decide (id ∈ ap_sessions a) && ((id =? requester) || bytes_eqb (pub_device_id p) device_id)
                then (removed + 1, forget_session a id) else (removed, a)
    | None => (removed, a)
    end) (0, a) ids.
Definition handle_disconnect (id : Z) (device_id target_salt : bytes) : ctl (bytes + Z) :=
  if bytes_eqb device_id [] || (128 <? len device_id) then mret (inl (denied "invalid_device")) else
  if bytes_eqb target_salt [] || (128 <? len target_salt) then mret (inl (denied "invalid_epoch")) else
  preliminary ← gets (fun a => ap_public a !! id);
  obtained ← db_lock;
  authorized ← gets (fun a => match preliminary with
    | Some p => (obtained : bool) && device_control_authorized (ap_db a) (ap_now a) (pub_password p) device_id
                && bytes_eqb (pub_device_id p) device_id && bytes_eqb (pub_session_salt p) target_salt
    | None => false end);
  if negb authorized then mret (inl (denied "not_owner")) else
  slot ← lock_existing_device_epoch device_id;
  match slot with
  | None => mret (inl (denied "not_owner"))
  | Some slot =>
      obtained ← db_lock;
      if negb obtained then mret (inl (denied "server_busy")) else
      authorized ← gets (fun a => match ap_public a !! id with
        | Some p => disconnect_request_authorized (ap_db a) (ap_now a) (pub_password p) p device_id target_salt (es_epoch slot)
        | None => false end);
      if negb authorized then mret (inl (denied "not_owner")) else
      candidates ← gets (fun a => sessions_where a (fun i p => (i =? id) || bytes_eqb (pub_device_id p) device_id));
      sent ← gets (fun a => (send_command a (DisconnectDevice device_id id)).1);
      _ ← modify (fun a => post a (DisconnectDevice device_id id));
      if negb sent then mret (inl (denied "server_busy")) else
      removed ← gets (fun a => (disconnect_sessions a id device_id candidates).1);
      _ ← modify (fun a => (disconnect_sessions a id device_id candidates).2);
      mret (inr removed)
  end.

Definition process_control_payload (seed : bytes) (id : Z) (payload : bytes) : ctl unit :=
  if starts_with payload GETCONF then
    if utf8_valid payload then handle_getconf seed id payload else fail_with NotText
  else if starts_with payload DISCONNECT then
    if negb (utf8_valid payload) then fail_with NotText else
    let '(device_id, salt) := disconnect_fields payload in
    outcome ← handle_disconnect id device_id salt;
    match outcome with
    | inr _ => mret tt
    | inl response => write id response
    end
  else mret tt.

(** ** Traffic *)

Definition as_i64 (z : Z) : Z := if z <? 2 ^ 63 then z else z - 2 ^ 64.
Definition sat_i64 (z : Z) : Z := Z.max (- 2 ^ 63) (Z.min (2 ^ 63 - 1) z).
Definition traffic_default : TrafficSnapshot := mkTrafficSnapshot None ∅ ∅.
(** The device of a session gets the bytes too. *)
Definition credit_device (d : Database) (t : TrafficSnapshot) (device_id : bytes) (up down : Z) : Database * TrafficSnapshot :=
  match db_devices d !! device_id with
  | Some device =>
      let device := set_device_traffic device (sat_i64 (cd_up_bytes device + as_i64 up)) (sat_i64 (cd_down_bytes device + as_i64 down)) in
      (set_db_devices d (<[device_id := device]> (db_devices d)),
       mkTrafficSnapshot (tr_main t) (tr_passwords t) (<[device_id := mkTraffic (cd_up_bytes device) (cd_down_bytes device)]> (tr_devices t)))
  | None => (d, t)
  end.
Definition credit_session (d : Database) (t : TrafficSnapshot) (p : Session) : Database * TrafficSnapshot :=
  let up := pub_up_bytes p in
  let down := pub_down_bytes p in
  if (up =? 0) && (down =? 0) then (d, t) else
  match db_passwords d !! pub_password p with
  | Some entry =>
      let entry := set_entry_traffic entry (sat_i64 (pe_up_bytes entry + as_i64 up)) (sat_i64 (pe_down_bytes entry + as_i64 down)) in
      let d := set_db_passwords d (<[pub_password p := entry]> (db_passwords d)) in
      let t := mkTrafficSnapshot (tr_main t) (<[pub_password p := mkTraffic (pe_up_bytes entry) (pe_down_bytes entry)]> (tr_passwords t)) (tr_devices t) in
      credit_device d t (pe_device_id entry) up down
  | None =>
      if bytes_eqb (pub_password p) (db_main_password d) then
        let d := set_db_main_down_bytes (set_db_main_up_bytes d (sat_i64 (db_main_up_bytes d + as_i64 up)))
                   (sat_i64 (db_main_down_bytes d + as_i64 down)) in
        let t := mkTrafficSnapshot (Some (mkTraffic (db_main_up_bytes d) (db_main_down_bytes d))) (tr_passwords t) (tr_devices t) in
        if bytes_eqb (pub_device_id p) [] then (d, t) else credit_device d t (pub_device_id p) up down
      else (d, t)
  end.
(** The loop over [app.sessions], with the counters of each session taken. *)
Definition take_counters (a : App) (id : Z) : App := on_session a id (fun p => set_pub_down_bytes (set_pub_up_bytes p 0) 0).
Definition flush_sessions (a : App) (ids : list Z) (t : TrafficSnapshot) : App * TrafficSnapshot :=
  foldl (fun '(a, t) id =>
    match ap_public a !! id with
    | Some p => let '(d, t) := credit_session (ap_db a) t p in (set_ap_db (take_counters a id) d, t)
    | None => (a, t)
    end) (a, t) ids.
(** Nothing but this task changes the counters of the database, so that what
    others do between the release of the lock and the submission does not
    matter to it. *)
Definition flush_traffic : ctl unit :=
  obtained ← db_lock;
  if negb obtained then mret tt else
  traffic ← gets (fun a => (flush_sessions a (elements (ap_sessions a)) traffic_default).2);
  _ ← modify (fun a => (flush_sessions a (elements (ap_sessions a)) traffic_default).1);
  modify (fun a => set_ap_persistence a (Persistence_submit_traffic (ap_persistence a) traffic).2).

(** ** Dropping sessions *)

Definition broadcast_one (dns : bytes) (acc : Z * option CtlError * App) (s : Z * Session) : Z * option CtlError * App :=
  let '(delivered, error, a) := acc in
  match pub_tunnel_ip s.2 with
  | None => acc
  | Some [b0; b1; b2; b3] =>
      let ip := to_string b0 ++ b_ "." ++ to_string b1 ++ b_ "." ++ to_string b2 ++ b_ "." ++ to_string b3 in
      match send_command a (SendPlain s.1 (b_ "TUNCONF:" ++ ip ++ b_ ":" ++ dns ++ b_ ":0:stream-v2")) with
      | (true, a) => (sat_add delivered 1, error, a)
      | (false, a) => (delivered, match error with None => Some QueueFull | e => e end, a)
      end
  | Some _ => acc
  end.
Definition broadcast_tunnel_configuration : ctl Z :=
  _ ← pause;
  sent ← gets (fun a => (foldl (broadcast_one (ap_dns a)) (0, None, a) (live_sessions a)).1);
  _ ← modify (fun a => (foldl (broadcast_one (ap_dns a)) (0, None, a) (live_sessions a)).2);
  match sent.2 with
  | Some e => fail_with e
  | None => mret sent.1
  end.
Definition drop_password_sessions (a : App) (password : bytes) : App :=
  let a := post a (DropPassword password) in
  foldl forget_session a (sessions_where a (fun _ p => bytes_eqb (pub_password p) password)).
Definition drop_all_sessions (a : App) : App :=
  let ids := (live_sessions a).*1 in
  let a := foldl (fun a id => post a (DropSession id)) a ids in
  let a := foldl (fun a id => on_session a id (fun p => set_pub_cancelled p true)) a (elements (ap_sessions a)) in
  set_ap_sessions a ∅.

Definition public_session_is_stale (has_tunnel : bool) (last_seen current_wall : Z) : bool :=
  (if has_tunnel then PUBLIC_AUTH_GHOST_IDLE_SECS else PUBLIC_SETUP_GHOST_IDLE_SECS) <=? sat_sub current_wall last_seen.
(** [(last_seen, id)] in the order of [sort_unstable]. *)
Definition seen_le (a b : Z * Z) : Prop := a.1 < b.1 \/ (a.1 = b.1 /\ a.2 <= b.2).
#[global] Instance seen_le_dec a b : Decision (seen_le a b).
Proof. unfold seen_le. apply _. Defined.
Definition table_size (a : App) : Z := Z.of_nat (size (ap_sessions a)).
Definition prune_public_sessions (a : App) (current_wall : Z) : App :=
  let a := drop_sessions a (sessions_where a (fun _ p => public_session_is_stale (pub_has_tunnel p) (pub_last_seen p) current_wall)) in
  let overflow := sat_sub (table_size a) PUBLIC_SESSION_LIMIT in
  if overflow =? 0 then a else
  let inactive := (fun s => (pub_last_seen s.2, s.1)) <$> filter (fun s => pub_has_tunnel s.2 = false) (live_sessions a) in
  foldl forget_session a (take (Z.to_nat overflow) (merge_sort seen_le inactive)).*2.

(** ** Janitors *)

(** One expired password: [false] if the lock was not obtained or the password
    is not expired any more. *)
Definition retire_password (password : bytes) : ctl bool :=
  obtained ← db_lock;
  if negb obtained then mret false else
  expired ← gets (fun a => match db_passwords (ap_db a) !! password with Some e => is_expired e (ap_now a) | None => false end);
  if negb expired then mret false else
  _ ← modify (fun a => let d := set_db_passwords (ap_db a) (delete password (db_passwords (ap_db a))) in
                       set_ap_persistence (set_ap_db a d) (Persistence_submit (ap_persistence a) d).2);
  _ ← modify (fun a => set_ap_derived_keys a (delete password (ap_derived_keys a)));
  _ ← modify (fun a => drop_password_sessions a password);
  mret true.
Fixpoint retire_passwords (passwords : list bytes) : ctl bool :=
  match passwords with
  | [] => mret false
  | password :: passwords => here ← retire_password password; rest ← retire_passwords passwords; mret (here || rest)
  end.
Definition run_password_janitor_cycle : ctl unit :=
  obtained ← db_lock;
  if negb obtained then mret tt else
  expired ← gets (fun a => (filter (fun kv => is_expired kv.2 (ap_now a) = true) (btree_iter (db_passwords (ap_db a)))).*1);
  changed ← retire_passwords expired;
  if (changed : bool) then ignore refresh_credentials else mret tt.

(** One turn of [session_janitor]: [due] is whether the last flush was
    [TRAFFIC_FLUSH_INTERVAL] ago. *)
Definition session_janitor (due : bool) (current_wall : Z) : ctl unit :=
  _ ← (if due then flush_traffic else mret tt);
  modify (fun a => prune_public_sessions a current_wall).
Definition notify_panel_restart : ctl unit := command (BroadcastPlain PANEL_RESTART_NOTICE).

(** One turn of [device_epoch_sweeper] of [main.rs]. *)
Definition epoch_is_idle (a : App) (s : DeviceEpochSlot) : bool := DEVICE_EPOCH_IDLE_TTL_MS <=? sat_sub (ap_now_ms a) (es_last_used_ms s).
Definition sweep_device_epochs (a : App) : App :=
  set_ap_epochs a (filter (fun kv => epoch_is_idle a kv.2 = false
    \/ existsb (fun s => bytes_eqb (pub_device_id s.2) kv.1) (live_sessions a) = true) (ap_epochs a)).

(** ** The control loop: one event *)
Definition control_event (seed : bytes) (ev : ControlEvent) : ctl unit :=
  match ev with
  | SessionCreated id =>
      _ ← modify (fun a => prune_public_sessions a (Z.max 0 (ap_now a)));
      _ ← modify (fun a => forget_session a id);
      modify (fun a => if table_size a <? PUBLIC_SESSION_LIMIT
                       then set_ap_sessions (set_ap_connections a (u64_of (ap_connections a + 1))) ({[id]} ∪ ap_sessions a) else a)
  | SessionClosed _ id _ => modify (fun a => forget_session a id)
  | Payload _ id payload =>
      listed ← gets (fun a => bool_decide (id ∈ ap_sessions a));
      if (listed : bool) then ignore (process_control_payload seed id payload) else mret tt
  | IngressBeforeTunnel _ id payload =>
      listed ← gets (fun a => bool_decide (id ∈ ap_sessions a));
      if negb listed then mret tt else
      on_result (ensure_control_tunnel id) (fun _ => ignore (command (InjectTun id payload)))
        (fun _ => modify (fun a => drop_exact_session a id))
  | StreamRepair _ _ _ _ | IoCountersChanged _ => mret tt    (** log records *)
  end.

End Control.
