(* ===== verification/ControlInv.v ===== *)
(** * The control task: its invariant, and a calculus for its handlers

    [app_ok] is what holds of the accounts between any two steps; [stable] says
    that a computation keeps it whatever the other tasks do meanwhile, and
    [does] what a computation comes to when none of them interferes. *)

From stdpp Require Import sorting.
From S2P Require Import Prelude StreamControl Text Getconf Sink Engine Accounts Control.

Section ControlInv.
Context `{KT : KeyTools}.

(** ** The invariant *)

(** Devices are kept under their own name, each with an address of the tunnel
    that no other device has. *)
Record accounts_ok (d : Database) : Prop := {
  ac_wf : db_wf d;
  ac_address : map_Forall (fun _ device => exists i, 2 <= i <= 250 /\ cd_ip device = tunnel_address i) (db_devices d);
  ac_distinct : forall id id' device device', db_devices d !! id = Some device -> db_devices d !! id' = Some device' ->
                cd_ip device = cd_ip device' -> id = id';
}.
(** The cache holds what would be derived. *)
Definition keys_ok (keys : gmap bytes bytes) : Prop := map_Forall (fun password key => derive_wrap_key password = Ok key) keys.
(** The updates that are not in the rows yet, and the rows they will make. *)
Definition queued (p : Persistence) : list PersistenceUpdate :=
  (match ps_writer p with Writing _ u => [u] | _ => [] end) ++ (q_pending (ps_queue p)).*2.
Definition rows_ahead (p : Persistence) : Tables := write_all (tables_of (ps_world p)) (queued p).
(** Once the writer has caught up, a restart would load the database as it is. *)
Definition durable (d : Database) (p : Persistence) : Prop :=
  map_Forall (fun id device => cd_device_id device = id) (t_devices (rows_ahead p)) /\ rows_database (rows_ahead p) = persisted d.

Record app_ok (a : App) : Prop := {
  ok_accounts : accounts_ok (ap_db a);
  ok_keys : keys_ok (ap_derived_keys a);
  ok_durable : durable (ap_db a) (ap_persistence a);
}.
(** The other tasks keep it too. *)
Definition task_ok (t : Task) : Prop := app_ok (tk_app t) /\ Forall (fun f => forall a, app_ok a -> app_ok (f a)) (tk_others t).

(** A computation that keeps the invariant, whether it succeeds or fails, and
    does not panic. *)
Definition stable {A : Type} (m : ctl A) (Q : A -> Prop) : Prop :=
  forall t, task_ok t -> match m t with
    | (Ok a, t') => Q a /\ task_ok t'
    | (Err _, t') => task_ok t'
    | (Panic, _) => False
    end.
Abbreviation keeps_ok m := (stable m (fun _ => True)).

Lemma stable_ret {A : Type} (a : A) (Q : A -> Prop) : Q a -> stable (mret a) Q.
Proof. by intros ? t. Qed.
Lemma stable_fail {A : Type} (e : CtlError) (Q : A -> Prop) : stable (fail_with e) Q.
Proof. by intros t. Qed.
Lemma stable_bind {A B : Type} (m : ctl A) (f : A -> ctl B) (P : A -> Prop) (Q : B -> Prop) :
  stable m P -> (forall a, P a -> stable (f a) Q) -> stable (m ≫= f) Q.
Proof.
  intros Hm Hf t Ht. unfold mbind, effect_bind. specialize (Hm t Ht). destruct (m t) as [[a|e|] t']; [|done..].
  destruct Hm as [Ha Ht']. exact (Hf a Ha t' Ht').
Qed.
Lemma stable_then {A B : Type} (m : ctl A) (f : A -> ctl B) (Q : B -> Prop) :
  keeps_ok m -> (forall a, stable (f a) Q) -> stable (m ≫= f) Q.
Proof. intros Hm Hf. by apply (stable_bind m f (fun _ => True)). Qed.
Lemma stable_gets {A : Type} (f : App -> A) (Q : A -> Prop) : (forall a, app_ok a -> Q (f a)) -> stable (gets f) Q.
Proof. intros Hf t Ht. split; [apply Hf, Ht|done]. Qed.
Lemma stable_modify (f : App -> App) : (forall a, app_ok a -> app_ok (f a)) -> keeps_ok (modify f).
Proof. intros Hf t [Ha Ho]. split; [done|]. split; [by apply Hf|done]. Qed.
Lemma stable_pause : keeps_ok pause.
Proof.
  intros t [Ha Ho]. unfold pause. destruct (tk_others t) as [|f others] eqn:E; [by rewrite <- E in Ho|].
  apply Forall_cons in Ho as [Hf Ho]. split; [done|]. split; [by apply Hf|done].
Qed.
Lemma stable_db_lock : keeps_ok db_lock.
Proof. apply stable_then; [apply stable_pause|]. intros _ t [Ha Ho]. unfold db_lock_answer. by destruct (tk_locks t). Qed.
Lemma stable_locked : keeps_ok locked.
Proof. apply stable_then; [apply stable_db_lock|]. intros []; [by apply stable_ret|apply stable_fail]. Qed.
Lemma stable_on_result {A B : Type} (m : ctl A) (f : A -> ctl B) g (Q : B -> Prop) :
  keeps_ok m -> (forall a, stable (f a) Q) -> (forall e, stable (g e) Q) -> stable (on_result m f g) Q.
Proof.
  intros Hm Hf Hg t Ht. unfold on_result. specialize (Hm t Ht). destruct (m t) as [[a|e|] t']; [|by apply Hg|done]. by apply Hf, Hm.
Qed.
Lemma stable_ignore {A : Type} (m : ctl A) : keeps_ok m -> keeps_ok (ignore m).
Proof. intros Hm. apply stable_on_result; [done|intros; by apply stable_ret..]. Qed.

(** What does not touch the accounts. *)
Record same_accounts (a a' : App) : Prop := {
  sa_db : ap_db a' = ap_db a; sa_keys : ap_derived_keys a' = ap_derived_keys a; sa_persistence : ap_persistence a' = ap_persistence a;
}.
#[global] Instance same_accounts_refl : Reflexive same_accounts.
Proof. by split. Qed.
#[global] Instance same_accounts_trans : Transitive same_accounts.
Proof. intros a b c [? ? ?] [? ? ?]. split; congruence. Qed.
Lemma same_ok a a' : same_accounts a a' -> app_ok a -> app_ok a'.
Proof. intros [Hd Hk Hp] [? ? ?]. split; by rewrite ?Hd, ?Hk, ?Hp. Qed.
Lemma same_post a c : same_accounts a (post a c).
Proof. unfold post, send_command. by destruct (try_send _ _). Qed.
Lemma same_forget a id : same_accounts a (forget_session a id).
Proof. unfold forget_session. by case_bool_decide. Qed.
Lemma same_foldl {B : Type} (f : App -> B -> App) l a : (forall a b, same_accounts a (f a b)) -> same_accounts a (foldl f a l).
Proof. intros Hf. revert a. induction l as [|b l IH]; intros a; [done|]. cbn. etrans; [apply Hf|apply IH]. Qed.
Lemma same_drop a ids : same_accounts a (drop_sessions a ids).
Proof. apply same_foldl. intros b id. etrans; [apply same_post|apply same_forget]. Qed.
Lemma same_forget_all a ids : same_accounts a (foldl forget_session a ids).
Proof. apply same_foldl, same_forget. Qed.
Lemma same_drop_password a password : same_accounts a (drop_password_sessions a password).
Proof. unfold drop_password_sessions. etrans; [apply same_post|apply same_forget_all]. Qed.
Lemma same_prune a wall : same_accounts a (prune_public_sessions a wall).
Proof. unfold prune_public_sessions. case_match; [apply same_drop|]. etrans; [apply same_drop|apply same_forget_all]. Qed.
Lemma same_announce a id rq : same_accounts a (announce_session a id rq).
Proof. unfold announce_session, purge_replaced_worker_sessions. do 2 (etrans; [|apply same_drop]). by split. Qed.
Lemma same_forget_slot a device ref : same_accounts a (forget_slot a device ref).
Proof. unfold forget_slot. repeat case_match; by split. Qed.

Lemma stable_same (f : App -> App) : (forall a, same_accounts a (f a)) -> keeps_ok (modify f).
Proof. intros Hf. apply stable_modify. intros a. apply same_ok, Hf. Qed.
Lemma stable_command c : keeps_ok (command c).
Proof.
  unfold command. apply stable_then; [by apply stable_gets|]. intros sent. apply stable_then; [apply stable_same; intros a; apply same_post|].
  intros _. destruct sent; [by apply stable_ret|apply stable_fail].
Qed.

(** ** Changes of the accounts *)

Lemma durable_submit d p : db_wf d -> durable d (Persistence_submit p d).2.
Proof.
  intros Hd. unfold durable. assert (Hrows : exists t, rows_ahead (Persistence_submit p d).2 = snapshot_rows t d).
  { exists (write_all (tables_of (ps_world p)) (match ps_writer p with Writing _ u => [u] | _ => [] end)).
    unfold rows_ahead, queued. cbn [Persistence_submit submit_snapshot snd ps_writer ps_queue ps_world q_pending]. by rewrite write_all_app. }
  destruct Hrows as [t ->]. split; [|by apply rows_of_snapshot]. rewrite snapshot_rows_wf by done. apply Hd.
Qed.
Lemma rows_merge_back t pending revision traffic :
  write_all t (merge_back pending revision traffic).*2 = traffic_rows (write_all t pending.*2) traffic.
Proof.
  revert t. induction pending as [|[r u] pending IH]; intros t; [done|].
  destruct u as [d|old]; [destruct pending; exact (IH _)|]. destruct pending as [|x pending]; [|exact (IH _)]. apply traffic_merges.
Qed.
Lemma rows_ahead_traffic p traffic : TrafficSnapshot_is_empty traffic = false ->
  rows_ahead (Persistence_submit_traffic p traffic).2 = traffic_rows (rows_ahead p) traffic.
Proof.
  intros Ht. unfold Persistence_submit_traffic. rewrite Ht. unfold rows_ahead, queued.
  cbn [queue_submit_traffic snd ps_writer ps_queue ps_world q_pending]. rewrite !write_all_app. apply rows_merge_back.
Qed.

(** The database with the counters of a traffic update. *)
Definition entry_traffic (e : PasswordEntry) (c : TrafficCounters) : PasswordEntry := set_entry_traffic e (tc_up_bytes c) (tc_down_bytes c).
Definition device_traffic (d : ClientDevice) (c : TrafficCounters) : ClientDevice := set_device_traffic d (tc_up_bytes c) (tc_down_bytes c).
Definition credited (d : Database) (t : TrafficSnapshot) : Database :=
  let main := default (mkTraffic (db_main_up_bytes d) (db_main_down_bytes d)) (tr_main t) in
  set_db_devices (set_db_passwords (set_db_main_down_bytes (set_db_main_up_bytes d (tc_up_bytes main)) (tc_down_bytes main))
    (updates entry_traffic (tr_passwords t) (db_passwords d))) (updates device_traffic (tr_devices t) (db_devices d)).
Lemma updates_devices changes m : map_Forall (fun id device => cd_device_id device = id) m ->
  map_Forall (fun id device => cd_device_id device = id) (updates device_traffic changes m).
Proof.
  intros Hm id device. rewrite updates_lookup. destruct (m !! id) as [old|] eqn:Hold; [cbn|done].
  intros [= <-]. pose proof (Hm _ _ Hold). by destruct (changes !! id).
Qed.
Lemma rows_of_traffic t traffic d : map_Forall (fun id device => cd_device_id device = id) (t_devices t) ->
  rows_database t = persisted d ->
  map_Forall (fun id device => cd_device_id device = id) (t_devices (traffic_rows t traffic))
  /\ rows_database (traffic_rows t traffic) = persisted (credited d traffic).
Proof.
  intros Hk Hrows. rewrite (rows_database_eq t Hk) in Hrows. unfold persisted in Hrows.
  assert (H7 : t_passwords t = db_passwords d) by exact (f_equal db_passwords Hrows).
  assert (H8 : t_devices t = db_devices d) by exact (f_equal db_devices Hrows).
  assert (Hk' : map_Forall (fun id device => cd_device_id device = id) (t_devices (traffic_rows t traffic))).
  { unfold traffic_rows. destruct (tr_main traffic); by apply updates_devices. }
  split; [done|]. rewrite (rows_database_eq _ Hk'). unfold persisted, traffic_rows.
  destruct (tr_main traffic) as [c|] eqn:Hm; unfold credited; rewrite Hm; cbn [default from_option id]; f_equal;
    try first [exact (f_equal db_main_password Hrows) | exact (f_equal db_main_device_id Hrows) | exact (f_equal db_dns Hrows)
      | exact (f_equal db_auto_restart_interval_hours Hrows) | exact (f_equal db_main_up_bytes Hrows) | exact (f_equal db_main_down_bytes Hrows)
      | exact (f_equal db_logging_active Hrows) | exact (f_equal db_local_proxy Hrows)];
    cbn [t_passwords t_devices set_t_devices set_t_passwords set_t_counters]; by rewrite ?H7, ?H8.
Qed.

Lemma durable_traffic d p traffic : durable d p -> durable (credited d traffic) (Persistence_submit_traffic p traffic).2.
Proof.
  intros [Hk Hrows]. destruct (TrafficSnapshot_is_empty traffic) eqn:Ht.
  - assert (Hsame : credited d traffic = d).
    { unfold TrafficSnapshot_is_empty in Ht. bool_prop. destruct traffic as [m ps ds]; cbn in *; subst. unfold credited. cbn -[updates].
      rewrite !updates_none. by destruct d. }
    rewrite Hsame. unfold Persistence_submit_traffic. by rewrite Ht.
  - unfold durable. rewrite (rows_ahead_traffic p traffic Ht). by apply rows_of_traffic.
Qed.

Lemma updates_insert {A B : Type} (f : A -> B -> A) (changes : gmap bytes B) m k a b :
  (forall a x y, f (f a x) y = f a y) -> updates f changes m !! k = Some a ->
  <[k := f a b]> (updates f changes m) = updates f (<[k := b]> changes) m.
Proof.
  intros Hf Ha. apply map_eq. intros j. rewrite updates_lookup. destruct (decide (j = k)) as [->|Hne].
  - rewrite !lookup_insert_eq. rewrite updates_lookup in Ha. destruct (m !! k) as [a0|]; [cbn in *|done]. injection Ha as <-.
    by destruct (changes !! k); rewrite ?Hf.
  - by rewrite !lookup_insert_ne, updates_lookup by done.
Qed.
Lemma credit_device_credited d t device_id up down :
  exists t', credit_device (credited d t) t device_id up down = (credited d t', t').
Proof.
  unfold credit_device. destruct (db_devices (credited d t) !! device_id) as [device|] eqn:Hd; [|by exists t].
  eexists. f_equal. unfold credited. cbn [tr_main tr_passwords tr_devices set_db_devices db_devices].
  set (device' := set_device_traffic device _ _).
  change device' with (device_traffic device (mkTraffic (cd_up_bytes device') (cd_down_bytes device'))).
  rewrite <- (updates_insert device_traffic _ _ _ device) by done. done.
Qed.
Lemma credit_session_credited d t p : exists t', credit_session (credited d t) t p = (credited d t', t').
Proof.
  unfold credit_session. case_match; [by exists t|]. destruct (db_passwords (credited d t) !! pub_password p) as [entry|] eqn:He.
  - set (entry' := set_entry_traffic entry _ _). set (t1 := mkTrafficSnapshot (tr_main t) _ (tr_devices t)).
    assert (Hd : set_db_passwords (credited d t) (<[pub_password p := entry']> (db_passwords (credited d t))) = credited d t1).
    { unfold t1, credited. cbn [tr_main tr_passwords tr_devices set_db_devices set_db_passwords db_passwords].
      change entry' with (entry_traffic entry (mkTraffic (pe_up_bytes entry') (pe_down_bytes entry'))).
      rewrite <- (updates_insert entry_traffic _ _ _ entry) by done. done. }
    rewrite Hd. apply credit_device_credited.
  - case_match; [|by exists t]. set (t1 := mkTrafficSnapshot (Some _) (tr_passwords t) (tr_devices t)).
    match goal with |- context [credit_device ?x t1] => assert (Hd : x = credited d t1) by (by destruct t as [[]]) end.
    rewrite Hd. case_match; [by exists t1|]. apply credit_device_credited.
Qed.

Lemma credited_ok d t : accounts_ok d -> accounts_ok (credited d t).
Proof.
  intros [[Hk Hp Hh] Ha Hd].
  assert (Hip : forall id device, db_devices (credited d t) !! id = Some device ->
    exists device0, db_devices d !! id = Some device0 /\ cd_ip device = cd_ip device0).
  { intros id device. cbn -[updates]. rewrite updates_lookup. destruct (db_devices d !! id) as [old|]; [cbn|done].
    intros [= <-]. exists old. split; [done|]. by destruct (tr_devices t !! id). }
  split.
  - split; [by apply updates_devices|done|done].
  - intros id device Hin. destruct (Hip _ _ Hin) as (old & Hold & ->). exact (Ha _ _ Hold).
  - intros id id' device device' Hin Hin'. destruct (Hip _ _ Hin) as (old & Hold & ->), (Hip _ _ Hin') as (old' & Hold' & ->). by apply (Hd _ _ old old').
Qed.
Lemma accounts_same d d' : db_devices d' = db_devices d -> db_local_proxy d' = db_local_proxy d ->
  db_auto_restart_interval_hours d' = db_auto_restart_interval_hours d -> accounts_ok d -> accounts_ok d'.
Proof.
  intros Hd Hl Hh [[? ? Hhours] ? ?]. split; [split|..]; rewrite ?Hd, ?Hl; [done|done| |done|done].
  unfold Database_auto_restart_interval_hours in *. by rewrite Hh.
Qed.
Lemma bind_device_ok d access rq : accounts_ok d -> accounts_ok (bind_device d access rq).2.
Proof. intros Hd. destruct access; cbn; try case_match; [..|done]; by apply (accounts_same d). Qed.
Lemma add_device_ok d device_id keys : accounts_ok d -> accounts_ok (add_device d device_id keys).2.
Proof.
  intros [[Hk Hp Hh] Ha Hd]. unfold add_device. destruct (db_devices d !! device_id) eqn:Hnew; [by split|].
  destruct (get_next_ip d) as [ip|] eqn:Hg; [|by split]. cbn [snd].
  unfold get_next_ip in Hg. apply find_some in Hg as [Hfound Hfree]. apply negb_true_iff in Hfree.
  assert (Haddr : exists i, 2 <= i <= 250 /\ ip = tunnel_address i).
  { apply list_elem_of_In, list_elem_of_fmap in Hfound as (i & -> & Hi).
    apply elem_of_seqZ in Hi. exists i. split; [lia|done]. }
  assert (Hunused : forall id device, db_devices d !! id = Some device -> cd_ip device <> ip).
  { intros id device Hid Heq. assert (address_used d ip = true) by (apply address_used_spec; eauto). congruence. }
  split; [split; [|done|done]| |]; cbn [db_devices set_db_devices].
  - by apply map_Forall_insert_2.
  - by apply map_Forall_insert_2.
  - intros id id' device device'. rewrite !lookup_insert_Some. intros [[<- <-]|[Hne Hin]] [[<- <-]|[Hne' Hin']] Heq; cbn in Heq; [done| | |].
    + by destruct (Hunused _ _ Hin').
    + by destruct (Hunused _ _ Hin).
    + by apply (Hd _ _ device device').
Qed.
Lemma drop_entry_ok d password : accounts_ok d -> accounts_ok (set_db_passwords d (delete password (db_passwords d))).
Proof. by apply accounts_same. Qed.

Lemma enter_database_ok a access rq keys dns : app_ok a -> app_ok (enter_database a access rq keys dns).2.
Proof.
  intros [Ha Hk Hd]. unfold enter_database. pose proof (bind_device_ok (ap_db a) access rq Ha) as Hb.
  destruct (bind_device (ap_db a) access rq) as [bound d] eqn:Eb. cbn [snd] in Hb. pose proof (add_device_ok d (rq_device_id rq) keys Hb) as Hadd.
  destruct (add_device d (rq_device_id rq) keys) as [added d'] eqn:Ea. cbn [snd] in Hadd. destruct (tunnel_configuration d' dns rq) as [r ip]. cbn [snd].
  destruct (bound || added) eqn:E.
  - split; [done|done|]. apply durable_submit, Hadd.
  - apply orb_false_iff in E as [-> ->]. split; [done|done|]. cbn. replace d' with (ap_db a); [done|].
    assert (d = ap_db a) as -> by (unfold bind_device in Eb; destruct access; [case_match; by simplify_eq|by simplify_eq|case_match; by simplify_eq]).
    unfold add_device in Ea. repeat case_match; by simplify_eq.
Qed.

Lemma flush_sessions_credited ids a t d0 : ap_db a = credited d0 t ->
  exists t', (flush_sessions a ids t).2 = t' /\ ap_db (flush_sessions a ids t).1 = credited d0 t'
    /\ ap_derived_keys (flush_sessions a ids t).1 = ap_derived_keys a /\ ap_persistence (flush_sessions a ids t).1 = ap_persistence a.
Proof.
  unfold flush_sessions. revert a t. induction ids as [|id ids IH]; intros a t Ha; [by exists t|]. cbn [foldl].
  destruct (ap_public a !! id) as [p|]; [|by apply IH]. rewrite Ha. destruct (credit_session_credited d0 t p) as [t' ->].
  destruct (IH (set_ap_db (take_counters a id) (credited d0 t')) t' eq_refl) as (t'' & H1 & H2 & H3 & H4). by exists t''.
Qed.
Lemma credited_none d : credited d traffic_default = d.
Proof. unfold credited. cbn -[updates]. rewrite !updates_none. by destruct d. Qed.


Lemma stable_if {A : Type} (b : bool) (m m' : ctl A) (Q : A -> Prop) : stable m Q -> stable m' Q -> stable (if b then m else m') Q.
Proof. by destruct b. Qed.
Lemma stable_true {A : Type} (a : A) : keeps_ok (mret a).
Proof. by apply stable_ret. Qed.
Lemma stable_read {A : Type} (f : App -> A) : keeps_ok (gets f).
Proof. by apply stable_gets. Qed.
End ControlInv.
#[export] Hint Resolve same_post same_forget same_drop same_forget_all same_drop_password same_prune same_announce same_forget_slot : csqtt.
Abbreviation keeps_ok m := (stable m (fun _ => True)).
Ltac same_auto := intros; repeat case_match; unfold drop_exact_session; first [reflexivity | solve [eauto with csqtt] | by split].
Ltac stable_step :=
  match goal with
  | |- stable (mbind _ _) _ => apply stable_then; [|intros ?]
  | |- stable (mret _) _ => apply stable_true
  | |- stable (gets _) _ => apply stable_read
  | |- stable (fail_with _) _ => apply stable_fail
  | |- stable (command _) _ => apply stable_command
  | |- stable (write _ _) _ => apply stable_command
  | |- stable pause _ => apply stable_pause
  | |- stable db_lock _ => apply stable_db_lock
  | |- stable locked _ => apply stable_locked
  | |- stable (ignore _) _ => apply stable_ignore
  | |- stable (if _ then _ else _) _ => apply stable_if
  | |- stable (match ?x with _ => _ end) _ => destruct x
  | |- stable (modify _) _ => apply stable_same; same_auto
  | H : _ |- _ => solve [apply H]
  end.
Ltac stable_auto := repeat stable_step.

(** ** Every handler keeps the invariant *)

Section Handlers.
Context `{KT : KeyTools}.


Lemma derive_keys passwords keys : keys_ok keys ->
  keys_ok (derive_credentials passwords keys).2
  /\ forall l, (derive_credentials passwords keys).1 = Some l ->
     cr_password <$> l = passwords /\ Forall (fun c => derive_wrap_key (cr_password c) = Ok (cr_key c)) l.
Proof.
  revert keys. induction passwords as [|password passwords IH]; intros keys Hk; [split; [done|by intros l [= <-]]|]. cbn.
  destruct (match keys !! password with Some key => Some key | None => ok (derive_wrap_key password) end) as [key|] eqn:Hkey; [|done].
  assert (Hd : derive_wrap_key password = Ok key).
  { destruct (keys !! password) eqn:E; [injection Hkey as <-; by apply Hk|]. by destruct (derive_wrap_key password); simplify_eq/=. }
  destruct (IH (<[password := key]> keys)) as [Hk' Hl]; [by apply map_Forall_insert_2|].
  destruct (derive_credentials passwords (<[password := key]> keys)) as [[l|] keys']; cbn in *; [|done].
  split; [done|]. intros l' [= <-]. destruct (Hl l eq_refl) as [Hp Hf]. cbn. split; [by rewrite Hp|by constructor].
Qed.
Lemma keys_filter (P : bytes * bytes -> Prop) `{forall x, Decision (P x)} keys : keys_ok keys -> keys_ok (filter P keys).
Proof. intros Hk p k. rewrite map_lookup_filter_Some. intros [? _]. by apply Hk. Qed.
Lemma stable_build : keeps_ok build_credentials.
Proof.
  unfold build_credentials. stable_step; [stable_auto|]. stable_step; [stable_auto|]. stable_step.
  { apply stable_modify. intros b [? ? ?]. split; [done|by apply keys_filter|done]. }
  stable_step; [stable_auto|]. stable_step; [|stable_auto].
  apply stable_modify. intros b [? ? ?]. split; [done|by apply derive_keys|done].
Qed.
Lemma stable_refresh : keeps_ok refresh_credentials.
Proof. unfold refresh_credentials. stable_step; [apply stable_build|]. stable_auto. Qed.

Lemma key_pair_total seed : len seed = 32 -> exists keys, generate_key_pair seed = Ok keys.
Proof.
  intros Hs. assert (Hlen : length seed = 32%nat) by (unfold len in Hs; lia).
  do 32 (destruct seed as [|? seed]; [discriminate Hlen|]). destruct seed; [|discriminate Hlen]. by eexists.
Qed.
Lemma stable_commit seed id rq dns : len seed = 32 -> keeps_ok (getconf_commit seed id rq dns).
Proof.
  intros Hs. unfold getconf_commit. stable_step; [stable_auto|]. destruct a as [response|access]; [stable_auto|].
  stable_step; [stable_auto|]. destruct (key_pair_total seed Hs) as [keys ->]. stable_step; [stable_auto|]. stable_step; [|stable_auto].
  apply stable_modify. intros b. apply enter_database_ok.
Qed.
Lemma stable_reject id rq : keeps_ok (reject id rq).
Proof. apply stable_same. same_auto. Qed.
Lemma stable_lock_epoch device : keeps_ok (lock_device_epoch device).
Proof. unfold lock_device_epoch. stable_auto. Qed.
Lemma stable_activate id rq ip : keeps_ok (activate id rq ip).
Proof. unfold activate, next_registration. stable_auto. Qed.
Lemma stable_getconf seed id text : len seed = 32 -> keeps_ok (handle_getconf seed id text).
Proof.
  intros Hs. unfold handle_getconf, getconf_admitted, instruct_engine.
  pose proof (stable_lock_epoch). pose proof stable_reject. pose proof stable_activate. pose proof stable_refresh.
  pose proof (fun id rq dns => stable_commit seed id rq dns Hs). stable_auto.
Qed.

Lemma stable_tunnel id : keeps_ok (ensure_control_tunnel id).
Proof. unfold ensure_control_tunnel, session_tunnel_ip, next_registration. stable_auto. Qed.
Lemma same_disconnect a id device ids : same_accounts a (disconnect_sessions a id device ids).2.
Proof.
  unfold disconnect_sessions. generalize 0. revert a. induction ids as [|i ids IH]; intros a n; [done|]. cbn [foldl].
  destruct (ap_public a !! i); [|apply IH]. case_match; [|apply IH]. etrans; [apply same_forget|apply IH].
Qed.
#[local] Hint Resolve same_disconnect : csqtt.
Lemma stable_disconnect id device salt : keeps_ok (handle_disconnect id device salt).
Proof. unfold handle_disconnect, lock_existing_device_epoch. stable_auto. Qed.
Lemma stable_payload seed id payload : len seed = 32 -> keeps_ok (process_control_payload seed id payload).
Proof.
  intros Hs. unfold process_control_payload. pose proof (fun id text => stable_getconf seed id text Hs). pose proof stable_disconnect. stable_auto.
Qed.

Lemma stable_flush : keeps_ok flush_traffic.
Proof.
  unfold flush_traffic. stable_step; [stable_auto|]. apply stable_if; [stable_auto|].
  intros t [[Ha Hk Hd] Ho]. unfold mbind, effect_bind, gets, modify. cbn [tk_app tk_others].
  destruct (flush_sessions_credited (elements (ap_sessions (tk_app t))) (tk_app t) traffic_default (ap_db (tk_app t))) as (tr & Htr & Hdb & Hkeys & Hp);
    [by rewrite credited_none|]. rewrite Htr. split; [done|]. split; [|done]. split; cbn.
  - rewrite Hdb. by apply credited_ok.
  - by rewrite Hkeys.
  - rewrite Hdb, Hp. by apply durable_traffic.
Qed.
Lemma stable_retire password : keeps_ok (retire_password password).
Proof.
  unfold retire_password. stable_step; [stable_auto|]. apply stable_if; [stable_auto|]. stable_step; [stable_auto|]. apply stable_if; [stable_auto|].
  stable_step. { apply stable_modify. intros b [Ha Hk Hd]. pose proof (drop_entry_ok (ap_db b) password Ha). split; [done|done|]. by apply durable_submit, ac_wf. }
  stable_step. { apply stable_modify. intros b [Ha Hk Hd]. split; [done| |done]. intros p k. cbn. rewrite lookup_delete_Some. intros [_ ?]. by apply Hk. }
  stable_auto.
Qed.
Lemma stable_retire_all passwords : keeps_ok (retire_passwords passwords).
Proof. induction passwords as [|p l IH]; cbn; [stable_auto|]. stable_step; [apply stable_retire|]. stable_auto. Qed.
Lemma stable_janitor : keeps_ok run_password_janitor_cycle.
Proof. unfold run_password_janitor_cycle. pose proof stable_retire_all. pose proof stable_refresh. stable_auto. Qed.
Lemma stable_broadcast : keeps_ok broadcast_tunnel_configuration.
Proof.
  unfold broadcast_tunnel_configuration. stable_step; [stable_auto|]. stable_step; [stable_auto|]. stable_step; [|stable_auto].
  apply stable_same. intros b0. generalize (0, @None CtlError). generalize (live_sessions b0) (ap_dns b0). intros l dns. revert b0.
  induction l as [|s l IH]; intros b [n e]; [done|]. cbn [foldl].
  assert (Hone : exists n' e' b', broadcast_one dns (n, e, b) s = (n', e', b') /\ same_accounts b b').
  { unfold broadcast_one. destruct (pub_tunnel_ip s.2) as [ip|]; [|by exists n, e, b].
    destruct ip as [|b0 [|b1 [|b2 [|b3 [|]]]]]; try (by exists n, e, b).
    match goal with |- context [send_command b ?c] => pose proof (same_post b c) as Hs; unfold post in Hs; destruct (send_command b c) as [[] b'] end;
      (do 3 eexists; split; [reflexivity|exact Hs]). }
  destruct Hone as (n' & e' & b' & -> & Hb). etrans; [exact Hb|apply (IH b' (n', e'))].
Qed.
Lemma stable_event seed ev : len seed = 32 -> keeps_ok (control_event seed ev).
Proof.
  intros Hs. destruct ev; cbn [control_event]; pose proof (fun id payload => stable_payload seed id payload Hs); [stable_auto|stable_auto|stable_auto| |stable_auto|stable_auto].
  stable_step; [stable_auto|]. apply stable_if; [stable_auto|]. apply stable_on_result; [apply stable_tunnel|intros; stable_auto|intros; stable_auto].
Qed.
End Handlers.

(** ** Computations without interference *)

Definition alone (a : App) : Task := mkTask a [] [].
(** The computation succeeds, and has sent [l] to the engine. *)
Definition room (a : App) (n : Z) : Prop := ch_open (ap_commands a) = true /\ len (ch_items (ap_commands a)) + n <= ch_capacity (ap_commands a).
Definition sends (a a' : App) (l : list ProtocolCommand) : Prop :=
  ap_commands a' = mkChannel (ch_items (ap_commands a) ++ l) (ch_capacity (ap_commands a)) (ch_open (ap_commands a)).
Definition does {A : Type} (m : ctl A) (a : App) (r : A) (a' : App) : Prop := m (alone a) = (Ok r, alone a').

Lemma sends_none a a' : ap_commands a' = ap_commands a -> sends a a' [].
Proof. unfold sends. intros ->. rewrite app_nil_r. by destruct (ap_commands a). Qed.
Lemma sends_trans a b c l k : sends a b l -> sends b c k -> sends a c (l ++ k).
Proof. unfold sends. intros -> ->. cbn. by rewrite app_assoc. Qed.
Lemma sends_room a b l n : sends a b l -> room a (len l + n) -> room b n.
Proof. unfold sends, room. intros -> [Ho Hr]. cbn. rewrite len_app. split; [done|lia]. Qed.
Lemma post_sends a c : room a 1 -> sends a (post a c) [c] /\ (send_command a c).1 = true.
Proof.
  intros [Ho Hr]. unfold sends, post, send_command, try_send. rewrite Ho. rewrite (proj2 (Z.ltb_lt _ _)) by lia. by split.
Qed.
Lemma forget_commands a id : ap_commands (forget_session a id) = ap_commands a.
Proof. unfold forget_session. by case_bool_decide. Qed.
Lemma forget_sessions a id : ap_sessions (forget_session a id) ⊆ ap_sessions a.
Proof. unfold forget_session. case_bool_decide; cbn; set_solver. Qed.
Lemma post_sessions a c : ap_sessions (post a c) = ap_sessions a.
Proof. unfold post, send_command. by destruct (try_send _ _). Qed.
Lemma drop_sends a ids : room a (len ids) -> sends a (drop_sessions a ids) (DropSession <$> ids) /\ ap_sessions (drop_sessions a ids) ⊆ ap_sessions a.
Proof.
  unfold drop_sessions. revert a. induction ids as [|id ids IH]; intros a Hr; [split; [by apply sends_none|done]|]. rewrite len_cons in Hr. cbn [foldl fmap list_fmap].
  pose proof (len_nonneg ids). destruct (post_sends a (DropSession id)) as [Hs _]; [destruct Hr; split; [done|lia]|].
  assert (Hs' : sends a (forget_session (post a (DropSession id)) id) [DropSession id]) by (unfold sends in *; by rewrite forget_commands).
  destruct (IH (forget_session (post a (DropSession id)) id)) as [Hi Hsub].
  { apply (sends_room _ _ _ _ Hs'). by replace (len [DropSession id] + len ids) with (1 + len ids) by reflexivity. }
  split; [by apply (sends_trans _ _ _ _ _ Hs')|]. etrans; [exact Hsub|]. etrans; [apply forget_sessions|]. by rewrite post_sessions.
Qed.
Lemma sessions_where_len a p : len (sessions_where a p) <= Z.of_nat (size (ap_sessions a)).
Proof.
  unfold sessions_where, live_sessions, size, set_size. cbn. unfold len. rewrite length_fmap. apply Nat2Z.inj_le.
  etrans; [apply length_filter|]. generalize (elements (ap_sessions a)). intros l. induction l as [|x l IH]; cbn; [lia|].
  destruct (ap_public a !! x); cbn; lia.
Qed.

Lemma does_bind {A B : Type} (m : ctl A) (f : A -> ctl B) a r b s c : does m a r b -> does (f r) b s c -> does (m ≫= f) a s c.
Proof. intros Hm Hf. unfold does. rewrite (effect_step m f _ _ _ Hm). exact Hf. Qed.
Lemma does_ret {A : Type} (r : A) a : does (mret r) a r a.
Proof. done. Qed.
Lemma does_gets {A : Type} (f : App -> A) a : does (gets f) a (f a) a.
Proof. done. Qed.
Lemma does_modify (f : App -> App) a : does (modify f) a tt (f a).
Proof. done. Qed.
Lemma does_command c a : room a 1 -> does (command c) a tt (post a c).
Proof. intros Hr. destruct (post_sends a c Hr) as [_ Hs]. unfold command. eapply does_bind; [apply does_gets|]. rewrite Hs. by eapply does_bind. Qed.
Lemma does_pause a : does pause a tt a.
Proof. done. Qed.
Lemma does_locked a : does locked a tt a.
Proof. done. Qed.
Lemma does_db_lock a : does db_lock a true a.
Proof. done. Qed.
