(* ===== verification/ControlProps.v ===== *)
(** * Theorems about the control task

    The invariant of the accounts under every handler and every interference,
    and what GETCONF, DISCONNECT, the traffic flush and the janitors do. *)

From stdpp Require Import sorting.
From S2P Require Import Prelude StreamControl Text Getconf Sink Engine Accounts Control ControlInv.

Section ControlProps.
Context `{KT : KeyTools}.


(** What the control plane does on its own account. *)
Inductive control_work := OnEvent (seed : bytes) (ev : ControlEvent) | FlushTraffic | SessionJanitor (due : bool) (wall : Z) | PasswordJanitor | SweepEpochs | Refresh
  | BroadcastConfiguration | NotifyRestart.
Definition run_work (w : control_work) : ctl unit :=
  match w with
  | OnEvent seed ev => control_event seed ev
  | FlushTraffic => flush_traffic
  | SessionJanitor due wall => session_janitor due wall
  | PasswordJanitor => run_password_janitor_cycle
  | SweepEpochs => modify sweep_device_epochs
  | Refresh => refresh_credentials
  | BroadcastConfiguration => _ ← broadcast_tunnel_configuration; mret tt
  | NotifyRestart => notify_panel_restart
  end.
(** Any sequence of them, an error of one never stopping the next. *)
Fixpoint run_works (ws : list control_work) : ctl unit :=
  match ws with
  | [] => mret tt
  | w :: ws => _ ← ignore (run_work w); run_works ws
  end.
Definition work_ok (w : control_work) : Prop := match w with OnEvent seed _ => len seed = 32 | _ => True end.

Lemma work_stable w : work_ok w -> keeps_ok (run_work w).
Proof.
  intros Hw. pose proof stable_flush. pose proof stable_broadcast. unfold run_work, session_janitor, notify_panel_restart.
  destruct w; cbn in *; [by apply stable_event|stable_auto|stable_auto|apply stable_janitor|stable_auto|apply stable_refresh|stable_auto|stable_auto].
Qed.

Lemma run_works_ok ws t : task_ok t -> Forall work_ok ws -> exists t', run_works ws t = (Ok tt, t') /\ task_ok t'.
Proof.
  intros Ht Hw. revert t Ht.
  induction ws as [|w ws IH]; intros t Ht; [exists t; by split|]. apply Forall_cons in Hw as [Hw Hws].
  pose proof (stable_ignore _ (work_stable w Hw)) as Hone.
  specialize (Hone t Ht). cbn [run_works]. unfold mbind, effect_bind.
  destruct (ignore (run_work w) t) as [[[]|e|] t1] eqn:E; [apply IH; [done|apply Hone]| |done].
  unfold ignore, on_result in E. by destruct (run_work w t) as [[]].
Qed.
(** What may happen meanwhile. *)
Definition harmless (f : App -> App) : Prop := forall a, app_ok a -> app_ok (f a).
(** The writer has its write done, and takes or reports one. *)
Definition written (answers : list bool) (a : App) : App := set_ap_persistence a (worker_step (ap_persistence a) answers).
Lemma writer_rows p answers : false ∉ answers -> rows_ahead (worker_step p answers) = rows_ahead p.
Proof.
  intros Ha. unfold worker_step, rows_ahead, queued, take_pending. destruct (ps_writer p) as [|r u|r e] eqn:Ew.
  - destruct (q_pending (ps_queue p)) as [|[r u] pending] eqn:Eq; cbn; rewrite ?Ew, ?Eq; done.
  - pose proof (persist_spec (ps_connected p) u (mkWorld (w_tables (ps_world p)) (w_legacy (ps_world p)) answers)) as Hd.
    destruct (persist_database_update _ _ _) as [[x|e|] w]; [|by destruct Hd as [_ Hd]|done]. cbn. rewrite Hd. done.
  - unfold complete. by destruct (bool_decide _).
Qed.
Lemma written_harmless answers : false ∉ answers -> harmless (written answers).
Proof.
  intros Ha a [Hacc Hk Hd]. split; [done|done|]. unfold durable. cbn [written set_ap_persistence ap_persistence ap_db]. by rewrite (writer_rows _ _ Ha).
Qed.

(** C3. The accounts stay sound and nothing done to them is lost.  Through any sequence of control events, traffic flushes, janitor
    cycles, sweeps and refreshes, whatever time-outs and full queues they meet, and whatever [harmless] steps the other tasks take
    meanwhile: no handler panics, every device keeps a tunnel address no other device has, the cached keys are the derived ones, and as
    soon as the writer has caught up a restart would load the database exactly as it is in memory.  A step is harmless when it keeps
    that; what these same tasks do is, and so is the writer whose writes succeed.  A write that SQLite refuses and a client whose
    creation the panel takes back are not ([wait_confirms_a_lost_snapshot], [refused_creation_half_happens]). *)
Theorem accounts_stay_sound ws t :
  app_ok (tk_app t) -> Forall harmless (tk_others t) -> Forall work_ok ws ->
  (exists t', run_works ws t = (Ok tt, t') /\ app_ok (tk_app t')) /\
  (forall others locks, Forall work_ok others -> harmless (fun a => tk_app (run_works others (mkTask a [] locks)).2)) /\
  (forall answers, false ∉ answers -> harmless (written answers)).
Proof.
  intros Ha Ho Hw. split_and!; [| |apply written_harmless].
  - destruct (run_works_ok ws t (conj Ha Ho) Hw) as (t' & Ht & [Hok _]). by exists t'.
  - intros others locks Hw' a Hok. destruct (run_works_ok others (mkTask a [] locks)) as (t' & -> & [Ht _]); [by split|done|done].
Qed.

(** ** GETCONF *)

(** Whoever else asks with this password is refused. *)
Definition held_by (d : Database) (password device_id : bytes) : Prop :=
  forall other now, other <> device_id -> exists response, getconf_credential_access d now password other = inl response.

Lemma eqb_false (l k : bytes) : l <> k -> bytes_eqb l k = false.
Proof. intros. by apply bool_decide_eq_false. Qed.
Lemma eqb_true (l k : bytes) : l = k -> bytes_eqb l k = true.
Proof. intros. by apply bool_decide_eq_true. Qed.
Lemma bind_device_holds d access rq now : rq_device_id rq <> [] ->
  getconf_credential_access d now (rq_password rq) (rq_device_id rq) = inr access ->
  held_by (bind_device d access rq).2 (rq_password rq) (rq_device_id rq).
Proof.
  intros Hne Hacc other now' Hother. unfold getconf_credential_access in *.
  destruct (negb (bytes_eqb (db_main_password d) []) && bytes_eqb (rq_password rq) (db_main_password d)) eqn:Hmain.
  - destruct (negb (bytes_eqb (db_main_device_id d) []) && negb (bytes_eqb (db_main_device_id d) (rq_device_id rq))) eqn:Hdev; [done|].
    injection Hacc as <-. cbn [bind_device]. destruct (decide (db_main_device_id d = [])) as [Hnil|Hnil].
    + rewrite (eqb_true _ _ Hnil). cbn [snd set_db_main_device_id db_main_password db_main_device_id].
      rewrite Hmain, (eqb_false (rq_device_id rq) []), (eqb_false (rq_device_id rq) other) by done. cbn. eauto.
    + rewrite (eqb_false _ _ Hnil) in Hdev |- *. cbn in Hdev. apply negb_false_iff, bool_decide_eq_true in Hdev. cbn [snd].
      rewrite Hmain, Hdev, (eqb_false (rq_device_id rq) []), (eqb_false (rq_device_id rq) other) by done. cbn. eauto.
  - destruct (db_passwords d !! rq_password rq) as [entry|] eqn:He; [|done]. destruct (is_expired entry now); [done|].
    destruct (pe_is_deactivated entry) eqn:Hact; [done|].
    destruct (negb (bytes_eqb (pe_device_id entry) []) && negb (bytes_eqb (pe_device_id entry) (rq_device_id rq))) eqn:Hdev; [done|].
    destruct (decide (pe_device_id entry = [])) as [Hnil|Hnil].
    + rewrite (eqb_true _ _ Hnil) in Hacc. injection Hacc as <-. cbn [bind_device]. rewrite He. cbn [snd set_db_passwords db_main_password db_passwords].
      rewrite Hmain, lookup_insert_eq. case_match; [eauto|]. cbn [pe_is_deactivated pe_device_id set_entry_device].
      rewrite Hact, (eqb_false (rq_device_id rq) []), (eqb_false (rq_device_id rq) other) by done. cbn. eauto.
    + rewrite (eqb_false _ _ Hnil) in Hacc, Hdev. injection Hacc as <-. cbn in Hdev. apply negb_false_iff, bool_decide_eq_true in Hdev. cbn [bind_device snd].
      rewrite Hmain, He. case_match; [eauto|]. rewrite Hact, Hdev, (eqb_false (rq_device_id rq) []), (eqb_false (rq_device_id rq) other) by done. cbn. eauto.
Qed.
Lemma bind_device_frame d access rq :
  db_devices (bind_device d access rq).2 = db_devices d
  /\ (forall p, p <> rq_password rq -> db_passwords (bind_device d access rq).2 !! p = db_passwords d !! p)
  /\ ((bind_device d access rq).1 = false -> (bind_device d access rq).2 = d).
Proof. destruct access; cbn; try case_match; cbn; split_and!; try done. intros q Hq. by rewrite lookup_insert_ne. Qed.
Lemma add_device_frame d device_id keys :
  let d' := (add_device d device_id keys).2 in
  (forall id device, db_devices d !! id = Some device -> db_devices d' !! id = Some device)
  /\ db_passwords d' = db_passwords d /\ db_main_password d' = db_main_password d /\ db_main_device_id d' = db_main_device_id d
  /\ (db_devices d' !! device_id = None -> (249 <= size (db_devices d))%nat)
  /\ ((add_device d device_id keys).1 = false -> d' = d).
Proof.
  unfold add_device. destruct (db_devices d !! device_id) eqn:Hold; [cbn; by rewrite Hold|].
  destruct (get_next_ip d) as [ip|] eqn:Hip; cbn; split_and!; try done.
  - intros id device Hid. rewrite lookup_insert_ne by congruence. done.
  - by rewrite lookup_insert_eq.
  - intros _. by apply next_ip_none.
Qed.
Lemma held_same d d' password device : db_passwords d' = db_passwords d -> db_main_password d' = db_main_password d ->
  db_main_device_id d' = db_main_device_id d -> held_by d password device -> held_by d' password device.
Proof. intros Hp Hm Hd Hh other now Ho. destruct (Hh other now Ho) as [r Hr]. exists r. unfold getconf_credential_access in *. by rewrite Hp, Hm, Hd. Qed.

(** Who may have the configuration, in words of the accounts: who knows the main password or a password that is neither expired
    nor deactivated, unless it belongs to another device. *)
Definition may_ask (d : Database) (now : Z) (password device_id : bytes) : Prop :=
  let main := password = db_main_password d /\ password <> [] in
  (main /\ (db_main_device_id d = [] \/ db_main_device_id d = device_id))
  \/ (~ main /\ exists entry, db_passwords d !! password = Some entry /\ (pe_expires_at entry = 0 \/ now <= pe_expires_at entry)
        /\ pe_is_deactivated entry = false /\ (pe_device_id entry = [] \/ pe_device_id entry = device_id)).
Lemma negb_eqb (l k : bytes) : negb (bytes_eqb l k) = true <-> l <> k.
Proof. unfold bytes_eqb. by rewrite negb_true_iff, bool_decide_eq_false. Qed.
Lemma access_may_ask d now password device_id : (exists access, getconf_credential_access d now password device_id = inr access) <-> may_ask d now password device_id.
Proof.
  unfold getconf_credential_access, may_ask. destruct (negb (bytes_eqb (db_main_password d) []) && bytes_eqb password (db_main_password d)) eqn:Em.
  - apply andb_true_iff in Em as [Em1%negb_eqb Em2%bool_decide_eq_true]. subst password.
    destruct (negb (bytes_eqb (db_main_device_id d) []) && _) eqn:Ed.
    + apply andb_true_iff in Ed as [Ed1%negb_eqb Ed2%negb_eqb]. split; [by intros [? ?]|]. intros [[_ [?|?]]|[Hn _]]; [done|done|by destruct Hn].
    + split; [|by eexists]. intros _. left. split; [done|]. apply andb_false_iff in Ed as [H|H]; apply negb_false_iff, bool_decide_eq_true in H; auto.
  - assert (Hno : ~ (password = db_main_password d /\ password <> [])).
    { intros [-> Hp]. apply andb_false_iff in Em as [H|H]; [apply negb_false_iff, bool_decide_eq_true in H; done|by apply bool_decide_eq_false in H]. }
    destruct (db_passwords d !! password) as [entry|]; [|split; [by intros [? ?]|intros [[? _]|(_ & ? & ? & _)]; done]]. unfold is_expired.
    destruct (negb (pe_expires_at entry =? 0) && (pe_expires_at entry <? now)) eqn:Ee.
    { bool_prop. split; [by intros [? ?]|]. intros [[? _]|(_ & x & [= <-] & [?|?] & _)]; [done|lia|lia]. }
    destruct (pe_is_deactivated entry) eqn:Ea; [split; [by intros [? ?]|intros [[? _]|(_ & x & [= <-] & _ & ? & _)]; congruence]|].
    destruct (negb (bytes_eqb (pe_device_id entry) []) && _) eqn:Ed.
    + apply andb_true_iff in Ed as [Ed1%negb_eqb Ed2%negb_eqb]. split; [by intros [? ?]|]. intros [[? _]|(_ & x & [= <-] & _ & _ & [?|?])]; done.
    + split; [|by eexists]. intros _. right. split; [done|]. exists entry. split_and!; [done| |done|].
      * apply andb_false_iff in Ee as [H|H]; bool_prop; lia.
      * apply andb_false_iff in Ed as [H|H]; apply negb_false_iff, bool_decide_eq_true in H; auto.
Qed.
(** The text of the answer: address, name servers, port and how streams are carried. *)
Definition configuration_text (last_byte : Z) (dns client_port : bytes) (data_frames : bool) : bytes :=
  b_ "TUNCONF:10.66.67." ++ to_string last_byte ++ b_ ":" ++ dns ++ b_ ":" ++ client_port ++ (if data_frames then b_ ":stream-v2" else b_ ":stream-v1").


(** ** The answer, when no other task interferes *)


(** Two purges; the session that asks is in neither. *)
Lemma announce_sends a id rq : room a (2 * Z.of_nat (size (ap_sessions a))) ->
  exists purged, sends a (announce_session a id rq) (DropSession <$> purged) /\ id ∉ purged /\ len purged <= 2 * Z.of_nat (size (ap_sessions a)).
Proof.
  intros Hr. unfold announce_session, purge_replaced_worker_sessions, purge_stale_device_sessions.
  set (b := on_session (on_session _ id _) id _). assert (Hb : sends a b [] /\ ap_sessions b = ap_sessions a) by (split; [by apply sends_none|done]).
  destruct Hb as [Hb Hbs]. set (l1 := sessions_where b _).
  assert (Hl1 : len l1 <= Z.of_nat (size (ap_sessions a))) by (rewrite <- Hbs; apply sessions_where_len).
  assert (Hrb : room b (2 * Z.of_nat (size (ap_sessions a)))) by (apply (sends_room _ _ _ _ Hb); done).
  destruct (drop_sends b l1) as [Hd1 Hsub1]; [destruct Hrb; split; [done|lia]|]. set (c := drop_sessions b l1) in *. set (l2 := sessions_where c _).
  assert (Hl2 : len l2 <= Z.of_nat (size (ap_sessions a))).
  { etrans; [apply sessions_where_len|]. rewrite <- Hbs. apply Nat2Z.inj_le. by apply subseteq_size. }
  destruct (drop_sends c l2) as [Hd2 _].
  { apply (sends_room _ _ _ _ Hd1). unfold len at 1. rewrite length_fmap. destruct Hrb as [Ho Hrb]. split; [done|]. unfold len in Hl1, Hl2 |- *. unfold len in Hrb. lia. }
  exists (l1 ++ l2). rewrite fmap_app. split_and!; [by apply (sends_trans _ _ _ _ _ (sends_trans _ _ _ _ _ Hb Hd1))| |rewrite len_app; lia].
  assert (Hnot : forall x f, (forall p, f id p = false) -> id ∉ sessions_where x f).
  { intros x f Hf Hin. unfold sessions_where in Hin. apply list_elem_of_fmap in Hin as ([i p] & -> & Hin). apply list_elem_of_filter in Hin as [Hin _].
    cbn in Hin. by rewrite Hf in Hin. }
  rewrite elem_of_app. intros [Hin|Hin]; revert Hin; apply Hnot; intros p; by rewrite Z.eqb_refl.
Qed.

Lemma refresh_does a : room a 1 -> exists a' l, does (ignore refresh_credentials) a tt a' /\ sends a a' l /\ ap_db a' = ap_db a
  /\ (l = [] \/ exists entries, l = [ReplaceCredentials entries]).
Proof.
  intros Hr. set (passwords := active_passwords (ap_db a) (ap_now a)).
  set (b := set_ap_derived_keys a (filter (fun kv => kv.1 ∈ passwords) (ap_derived_keys a))).
  destruct (derive_credentials passwords (ap_derived_keys b)) as [[entries|] keys] eqn:Hd.
  - set (c := set_ap_credentials (set_ap_derived_keys b keys) entries).
    assert (Hc : does refresh_credentials a tt (post c (ReplaceCredentials entries))).
    { unfold refresh_credentials. eapply does_bind.
      - unfold build_credentials. eapply does_bind; [apply does_locked|]. eapply does_bind; [apply does_gets|]. eapply does_bind; [apply does_modify|].
        eapply does_bind; [apply does_gets|]. eapply does_bind; [apply does_modify|]. fold passwords b. rewrite Hd. apply does_ret.
      - eapply does_bind; [apply does_modify|]. by apply does_command. }
    exists (post c (ReplaceCredentials entries)), [ReplaceCredentials entries]. split_and!.
    + unfold does, ignore, on_result. by rewrite Hc.
    + exact (proj1 (post_sends c (ReplaceCredentials entries) Hr)).
    + by rewrite (sa_db _ _ (same_post _ _)).
    + eauto.
  - exists (set_ap_derived_keys b keys), []. split_and!; [|by apply sends_none|done|by left].
    unfold does, ignore, on_result, refresh_credentials, build_credentials.
    assert (Hfail : (entries ← build_credentials; _ ← modify (fun a => set_ap_credentials a entries); command (ReplaceCredentials entries)) (alone a)
      = (Err NoKey, alone (set_ap_derived_keys b keys))).
    { apply effect_stop. unfold build_credentials. rewrite (effect_step _ _ _ _ _ (does_locked a)), (effect_step _ _ _ _ _ (does_gets _ a)).
      rewrite (effect_step _ _ _ _ _ (does_modify _ a)). fold passwords b. rewrite (effect_step _ _ _ _ _ (does_gets _ b)), (effect_step _ _ _ _ _ (does_modify _ b)).
      by rewrite Hd. }
    unfold build_credentials in Hfail. by rewrite Hfail.
Qed.


(** What follows a grant: the three instructions, the activation if there is an
    address, the answer. *)
Definition grant_commands (id : Z) (rq : Request) (registration : Z) (outcome : Outcome) : list ProtocolCommand :=
  [UpdateEpoch id (rq_device_id rq) (rq_generation_id rq) (rq_session_salt rq); SetDataFrames id (rq_data_frames rq);
   SetAuthoritativeEpoch (rq_device_id rq) (rq_generation_id rq) (rq_session_salt rq)]
  ++ (match oc_tunnel_ip outcome with
      | Some ip => [ActivateTunnel id ip registration (rq_worker_id rq) (rq_desired_count rq)]
      | None => [] end)
  ++ [SendPlain id (oc_response outcome)].
Lemma post_room a c n : room a (1 + n) -> 0 <= n -> room (post a c) n /\ sends a (post a c) [c].
Proof.
  intros Hr Hn. assert (H1 : room a 1) by (destruct Hr; split; [done|lia]). destruct (post_sends a c H1) as [Hs _].
  split; [|done]. by apply (sends_room _ _ _ _ Hs).
Qed.
Lemma instruct_does a id rq n : room a (3 + n) -> 0 <= n ->
  exists b, does (instruct_engine id rq) a tt b /\ room b n /\ same_accounts a b /\ ap_registrations b = ap_registrations a
    /\ sends a b [UpdateEpoch id (rq_device_id rq) (rq_generation_id rq) (rq_session_salt rq); SetDataFrames id (rq_data_frames rq);
                  SetAuthoritativeEpoch (rq_device_id rq) (rq_generation_id rq) (rq_session_salt rq)].
Proof.
  intros Hr Hn. unfold instruct_engine. set (c1 := UpdateEpoch _ _ _ _). set (c2 := SetDataFrames _ _). set (c3 := SetAuthoritativeEpoch _ _ _).
  destruct (post_room a c1 (2 + n)) as [Hr1 Hs1]; [by replace (1 + (2 + n)) with (3 + n) by lia|lia|].
  destruct (post_room (post a c1) c2 (1 + n)) as [Hr2 Hs2]; [by replace (1 + (1 + n)) with (2 + n) by lia|lia|].
  destruct (post_room (post (post a c1) c2) c3 n) as [Hr3 Hs3]; [done|lia|].
  assert (Hone : forall x k, room x (1 + k) -> 0 <= k -> room x 1) by (intros x k [? ?] ?; split; [done|lia]).
  exists (post (post (post a c1) c2) c3). split_and!; [|done| | |exact (sends_trans _ _ _ _ _ Hs1 (sends_trans _ _ _ _ _ Hs2 Hs3))].
  - eapply does_bind; [apply does_command, (Hone _ (2 + n)); [by replace (1 + (2 + n)) with (3 + n) by lia|lia]|].
    eapply does_bind; [apply does_command, (Hone _ (1 + n)); [by replace (1 + (1 + n)) with (2 + n) by lia|lia]|].
    apply does_command, (Hone _ n); [done|lia].
  - etrans; [apply same_post|]. etrans; [apply same_post|apply same_post].
  - unfold post, send_command. by repeat destruct (try_send _ _).
Qed.

Lemma activate_does a id rq ip n : room a (1 + n) -> 0 <= n ->
  exists b, does (activate id rq ip) a tt b /\ room b n /\ ap_db b = ap_db a
    /\ sends a b [ActivateTunnel id ip (ap_registrations a) (rq_worker_id rq) (rq_desired_count rq)].
Proof.
  intros Hr Hn. set (a1 := on_session a id (fun p => set_pub_tunnel_ip p (Some ip))).
  set (a2 := set_ap_registrations a1 (u64_of (ap_registrations a1 + 1))). set (a3 := on_session a2 id (fun p => set_pub_has_tunnel p true)).
  set (c := ActivateTunnel _ _ _ _ _). destruct (post_room a3 c n Hr Hn) as [Hr' Hs].
  exists (post a3 c). split_and!; [|done|by rewrite (sa_db _ _ (same_post _ _))|exact Hs].
  unfold activate. eapply does_bind; [apply does_modify|]. eapply does_bind.
  - unfold next_registration. eapply does_bind; [apply does_gets|]. eapply does_bind; [apply does_modify|apply does_ret].
  - eapply does_bind; [apply does_modify|]. apply does_command. destruct Hr. split; [done|]. cbn in *. lia.
Qed.
Lemma grant_does a id rq outcome n : oc_rejected outcome = false -> room a (5 + n) -> 0 <= n ->
  exists b, does (_ ← instruct_engine id rq;
                  _ ← (match oc_tunnel_ip outcome with Some ip => if oc_rejected outcome then mret tt else activate id rq ip | None => mret tt end);
                  write id (oc_response outcome)) a tt b
    /\ room b n /\ ap_db b = ap_db a /\ sends a b (grant_commands id rq (ap_registrations a) outcome).
Proof.
  intros Hrej Hr Hn. destruct (instruct_does a id rq (2 + n)) as (b & Hb & Hrb & Hsame & Hreg & Hsb); [by replace (3 + (2 + n)) with (5 + n) by lia|lia|].
  rewrite Hrej. unfold grant_commands. rewrite <- Hreg.
  assert (Hmid : exists c, does (match oc_tunnel_ip outcome with Some ip => activate id rq ip | None => mret tt end) b tt c /\ room c (1 + n) /\ ap_db c = ap_db b
    /\ sends b c (match oc_tunnel_ip outcome with
        | Some ip => [ActivateTunnel id ip (ap_registrations b) (rq_worker_id rq) (rq_desired_count rq)] | None => [] end)).
  { destruct (oc_tunnel_ip outcome) as [ip|]; [apply activate_does; [by replace (1 + (1 + n)) with (2 + n) by lia|lia]|].
    exists b. split_and!; [apply does_ret|destruct Hrb; split; [done|lia]|done|by apply sends_none]. }
  destruct Hmid as (c & Hc & Hrc & Hdc & Hsc). destruct (post_room c (SendPlain id (oc_response outcome)) n Hrc Hn) as [Hrd Hsd].
  exists (post c (SendPlain id (oc_response outcome))). split_and!.
  - eapply does_bind; [exact Hb|]. eapply does_bind; [exact Hc|]. apply does_command. destruct Hrc; split; [done|lia].
  - done.
  - rewrite (sa_db _ _ (same_post _ _)), Hdc. apply (sa_db _ _ Hsame).
  - exact (sends_trans _ _ _ _ _ Hsb (sends_trans _ _ _ _ _ Hsc Hsd)).
Qed.

Lemma lock_epoch_does a device : exists r b, does (lock_device_epoch device) a r b /\ same_accounts a b /\ ap_commands b = ap_commands a
  /\ ap_sessions b = ap_sessions a /\ ap_registrations b = ap_registrations a /\ ap_dns b = ap_dns a /\ ap_now b = ap_now a.
Proof.
  destruct (ap_epochs a !! device) as [slot|] eqn:E; do 2 eexists;
    (split; [unfold lock_device_epoch; eapply does_bind; [apply does_pause|]; eapply does_bind; [apply does_gets|]; rewrite E|]).
  - eapply does_bind; [apply does_modify|apply does_ret].
  - by repeat split.
  - eapply does_bind; [apply does_gets|]. eapply does_bind; [apply does_modify|apply does_ret].
  - by repeat split.
Qed.
Lemma announce_frame a id rq : ap_registrations (announce_session a id rq) = ap_registrations a /\ ap_dns (announce_session a id rq) = ap_dns a.
Proof.
  assert (Hdrop : forall ids b, ap_registrations (drop_sessions b ids) = ap_registrations b /\ ap_dns (drop_sessions b ids) = ap_dns b).
  { unfold drop_sessions. induction ids as [|i ids IH]; intros b; [done|]. cbn [foldl]. destruct (IH (forget_session (post b (DropSession i)) i)) as [-> ->].
    unfold forget_session, post, send_command. case_bool_decide; by destruct (try_send _ _). }
  unfold announce_session, purge_replaced_worker_sessions, purge_stale_device_sessions. by rewrite !(proj1 (Hdrop _ _)), !(proj2 (Hdrop _ _)).
Qed.
Lemma commit_does seed id rq dns a access : len seed = 32 -> room a (2 * Z.of_nat (size (ap_sessions a))) ->
  getconf_credential_access (ap_db a) (ap_now a) (rq_password rq) (rq_device_id rq) = inr access ->
  exists outcome b purged, does (getconf_commit seed id rq dns) a outcome b /\ oc_rejected outcome = false
    /\ (id ∉ purged /\ len purged <= 2 * Z.of_nat (size (ap_sessions a)))
    /\ sends a b (DropSession <$> purged) /\ ap_registrations b = ap_registrations a
    /\ (oc_response outcome, oc_tunnel_ip outcome) = tunnel_configuration (ap_db b) dns rq.
Proof.
  intros Hseed Hr Hacc. destruct (announce_sends a id rq Hr) as (purged & Hs & Hpurged). destruct (announce_frame a id rq) as [Hreg Hdns].
  destruct (key_pair_total seed Hseed) as [keys Hkeys]. set (b := announce_session a id rq) in *.
  exists (enter_database b access rq keys dns).1, (enter_database b access rq keys dns).2, purged. split_and!; [| |apply Hpurged|apply Hpurged| | |].
  - unfold getconf_commit. eapply does_bind; [apply does_gets|]. rewrite Hacc. eapply does_bind; [apply does_modify|]. rewrite Hkeys.
    eapply does_bind; [apply does_gets|]. eapply does_bind; [apply does_modify|apply does_ret].
  - unfold enter_database. destruct (bind_device _ _ _), (add_device _ _ _), (tunnel_configuration _ _ _). done.
  - unfold sends in *. rewrite <- Hs. unfold enter_database.
    destruct (bind_device _ _ _), (add_device _ _ _), (tunnel_configuration _ _ _). cbn. by case_match.
  - rewrite <- Hreg. unfold enter_database. destruct (bind_device _ _ _), (add_device _ _ _), (tunnel_configuration _ _ _). cbn. by case_match.
  - unfold enter_database. destruct (bind_device _ _ _) as [bound d1], (add_device _ _ _) as [added d2]. destruct (tunnel_configuration d2 dns rq) eqn:E. cbn.
    case_match; cbn; by rewrite E.
Qed.

Lemma does_three {A : Type} (m1 m2 m3 : ctl unit) (k : ctl A) a b c r :
  does (_ ← m1; _ ← m2; m3) a tt b -> does k b r c -> does (_ ← m1; _ ← m2; _ ← m3; k) a r c.
Proof.
  unfold does, mbind, effect_bind. destruct (m1 (alone a)) as [[] t1]; [|done..]. destruct (m2 t1) as [[] t2]; [|done..]. by intros ->.
Qed.
Lemma admitted_does seed id rq a access : len seed = 32 -> room a (2 * Z.of_nat (size (ap_sessions a)) + 8) ->
  getconf_credential_access (ap_db a) (ap_now a) (rq_password rq) (rq_device_id rq) = inr access ->
  exists a' purged outcome credentials, does (getconf_admitted seed id rq) a tt a'
    /\ sends a a' ((DropSession <$> purged) ++ grant_commands id rq (ap_registrations a) outcome ++ credentials)
    /\ id ∉ purged /\ (oc_response outcome, oc_tunnel_ip outcome) = tunnel_configuration (ap_db a') (ap_dns a) rq
    /\ (credentials = [] \/ exists entries, credentials = [ReplaceCredentials entries]).
Proof.
  intros Hseed Hr Hacc. set (k := Z.of_nat (size (ap_sessions a))) in *. assert (Hk : 0 <= k) by lia.
  destruct (lock_epoch_does a (rq_device_id rq)) as ([slot created] & a1 & Hlock & Hsame & Hch & Hss & Hreg & Hdns & Hnow).
  assert (Hr1 : room a1 (2 * k + 8)) by (unfold room in *; by rewrite Hch).
  destruct (commit_does seed id rq (ap_dns a1) a1 access Hseed) as (outcome & a2 & purged & Hcommit & Hrej & [Hnot Hlen] & Hs2 & Hreg2 & Hconf).
  { rewrite Hss. fold k. destruct Hr1; split; [done|lia]. }
  { by rewrite (sa_db _ _ Hsame), Hnow. }
  rewrite Hss in Hlen. fold k in Hlen.
  destruct (grant_does a2 id rq outcome 1 Hrej) as (a3 & Hgrant & Hr3 & Hdb3 & Hs3); [|lia|].
  { apply (sends_room _ _ _ _ Hs2). unfold len at 1. rewrite length_fmap. unfold len in Hlen. destruct Hr1; split; [done|lia]. }
  assert (Hlast : exists a4 l, does (if oc_changed outcome then ignore refresh_credentials else mret tt) a3 tt a4 /\ sends a3 a4 l /\ ap_db a4 = ap_db a3
    /\ (l = [] \/ exists entries, l = [ReplaceCredentials entries])).
  { destruct (oc_changed outcome); [by apply refresh_does|]. exists a3, []. split_and!; [apply does_ret|by apply sends_none|done|by left]. }
  destruct Hlast as (a4 & l & Hlast & Hs4 & Hdb4 & Hl). exists a4, purged, outcome, l. split_and!; [| |done| |done].
  - unfold getconf_admitted. eapply does_bind; [exact Hlock|]. eapply does_bind; [apply does_pause|]. eapply does_bind; [apply does_gets|].
    eapply does_bind; [apply does_locked|]. eapply does_bind; [exact Hcommit|]. eapply does_bind; [apply does_pause|]. rewrite Hrej. eapply does_bind; [apply does_modify|].
    rewrite Hrej in Hgrant. cbn [andb]. exact (does_three _ _ _ _ _ _ _ _ Hgrant Hlast).
  - rewrite <- Hreg, <- Hreg2. assert (Hs1 : sends a a2 (DropSession <$> purged)) by (unfold sends in *; by rewrite <- Hch).
    exact (sends_trans _ _ _ _ _ Hs1 (sends_trans _ _ _ _ _ Hs3 Hs4)).
  - rewrite Hdb4, Hdb3, <- Hdns. exact Hconf.
Qed.

(** A GETCONF gets exactly one answer, whatever it asks.  A request that
    is not in order is answered with its refusal and nothing else happens; one
    that the accounts refuse is answered, and its session dropped if it is the
    session's own; one that is granted drops the sessions it replaces (never
    itself), instructs the engine with the new epoch, activates the tunnel if
    the device has an address, answers last with that very address, and
    publishes new credentials if a password was bound. *)
Theorem getconf_answers_once seed id text a p :
  ap_public a !! id = Some p -> len seed = 32 -> room a (2 * Z.of_nat (size (ap_sessions a)) + 8) ->
  exists a' sent, does (handle_getconf seed id text) a tt a' /\ sends a a' sent /\
  match getconf_request (getconf_fields text) (pub_password p) with
  | inl response => sent = [SendPlain id response]
  | inr rq =>
      match getconf_credential_access (ap_db a) (ap_now a) (rq_password rq) (rq_device_id rq) with
      | inl response => sent = SendPlain id response ::
          (if rejected_session_is_request p (rq_device_id rq) (rq_generation_id rq) (rq_session_salt rq) then [DropSession id] else [])
      | inr _ => exists purged outcome credentials,
          sent = (DropSession <$> purged) ++ grant_commands id rq (ap_registrations a) outcome ++ credentials
          /\ id ∉ purged /\ (oc_response outcome, oc_tunnel_ip outcome) = tunnel_configuration (ap_db a') (ap_dns a) rq
          /\ (credentials = [] \/ exists entries, credentials = [ReplaceCredentials entries])
      end
  end.
Proof.
  intros Hp Hseed Hr. unfold handle_getconf.
  assert (Hr1 : room a (1 + 1)) by (destruct Hr; split; [done|lia]). assert (Hr2 : room a 1) by (destruct Hr; split; [done|lia]).
  assert (Hfirst : forall B (f : option Session -> ctl B) r b, does (f (Some p)) a r b -> does (gets (fun a => ap_public a !! id) ≫= f) a r b).
  { intros B f r b Hf. eapply does_bind; [apply does_gets|]. by rewrite Hp. }
  destruct (getconf_request (getconf_fields text) (pub_password p)) as [response|rq] eqn:Hq.
  - exists (post a (SendPlain id response)), [SendPlain id response]. split_and!; [|by apply post_sends|done]. apply Hfirst. rewrite Hq. by apply does_command.
  - destruct (getconf_credential_access (ap_db a) (ap_now a) (rq_password rq) (rq_device_id rq)) as [response|access] eqn:Hacc.
    + destruct (post_room a (SendPlain id response) 1 Hr1 ltac:(lia)) as [Hr' Hs]. set (b := post a (SendPlain id response)) in *.
      assert (Hpb : ap_public b !! id = Some p) by (unfold b, post, send_command; destruct (try_send _ _); exact Hp).
      set (dropped := rejected_session_is_request p (rq_device_id rq) (rq_generation_id rq) (rq_session_salt rq)).
      exists (if dropped then drop_exact_session b id else b), (SendPlain id response :: (if dropped then [DropSession id] else [])). split_and!; [| |done].
      * apply Hfirst. rewrite Hq. eapply does_bind; [apply does_locked|]. eapply does_bind; [apply does_gets|]. rewrite Hacc.
        eapply does_bind; [by apply does_command|]. fold b. unfold reject, does, modify. cbn [alone tk_app tk_others tk_locks]. by rewrite Hpb.
      * destruct dropped; [|exact Hs]. apply (sends_trans _ _ _ _ _ Hs). by apply (drop_sends b [id]).
    + destruct (admitted_does seed id rq a access Hseed Hr Hacc) as (a' & purged & outcome & credentials & Hdo & Hs & Hrest).
      exists a'. eexists. split_and!; [|exact Hs|by exists purged, outcome, credentials].
      apply Hfirst. rewrite Hq. eapply does_bind; [apply does_locked|]. eapply does_bind; [apply does_gets|]. by rewrite Hacc.
Qed.


(** ** DISCONNECT *)

Lemma live_sessions_elem a i p : (i, p) ∈ live_sessions a <-> i ∈ ap_sessions a /\ ap_public a !! i = Some p.
Proof.
  unfold live_sessions. rewrite list_elem_of_omap. split.
  - intros (j & Hj & Heq). apply elem_of_elements in Hj. destruct (ap_public a !! j) eqn:E; [|done]. by simplify_eq/=.
  - intros [Hi Hp]. exists i. rewrite elem_of_elements. by rewrite Hp.
Qed.
Lemma live_sessions_NoDup a : NoDup (live_sessions a).*1.
Proof.
  assert (Hsub : (live_sessions a).*1 = filter (fun i => is_Some (ap_public a !! i)) (elements (ap_sessions a))).
  { unfold live_sessions. induction (elements (ap_sessions a)) as [|i l IH]; [done|]. cbn [omap list_omap]. rewrite filter_cons.
    destruct (ap_public a !! i) as [p|]; cbn; [by rewrite decide_True by eauto; f_equal|]. by rewrite decide_False by (by intros []). }
  rewrite Hsub. apply NoDup_filter, NoDup_elements.
Qed.
Lemma sessions_where_elem a f i : i ∈ sessions_where a f <-> i ∈ ap_sessions a /\ exists p, ap_public a !! i = Some p /\ f i p = true.
Proof.
  unfold sessions_where. rewrite list_elem_of_fmap. split.
  - intros ([j p] & -> & [Hf Hin]%list_elem_of_filter). apply live_sessions_elem in Hin as [? ?]. eauto.
  - intros (Hi & p & Hp & Hf). exists (i, p). split; [done|]. apply list_elem_of_filter. split; [done|]. by apply live_sessions_elem.
Qed.
Lemma sessions_where_NoDup a f : NoDup (sessions_where a f).
Proof. eapply sublist_NoDup; [apply live_sessions_NoDup|apply fmap_sublist, sublist_filter]. Qed.

Lemma forget_frame a i : i ∈ ap_sessions a ->
  ap_sessions (forget_session a i) = ap_sessions a ∖ {[i]} /\ (forall j, j <> i -> ap_public (forget_session a i) !! j = ap_public a !! j).
Proof. intros Hi. unfold forget_session. rewrite bool_decide_eq_true_2 by done. split; [done|]. intros j Hj. cbn. by rewrite lookup_alter_ne. Qed.
Lemma disconnect_removes a id device ids n : NoDup ids ->
  (forall i, i ∈ ids -> i ∈ ap_sessions a /\ exists p, ap_public a !! i = Some p /\ (i =? id) || bytes_eqb (pub_device_id p) device = true) ->
  exists b, foldl (fun '(removed, a) id0 =>
    match ap_public a !! id0 with
    | Some p => if bool_decide (id0 ∈ ap_sessions a) && ((id0 =? id) || bytes_eqb (pub_device_id p) device)
                then (removed + 1, forget_session a id0) else (removed, a)
    | None => (removed, a)
    end) (n, a) ids = (n + len ids, b)
  /\ ap_sessions b = ap_sessions a ∖ list_to_set ids /\ (forall j, j ∉ ids -> ap_public b !! j = ap_public a !! j) /\ ap_commands b = ap_commands a.
Proof.
  revert a n. induction ids as [|i ids IH]; intros a n Hnd Hall.
  - exists a. split_and!; [by rewrite len_nil, Z.add_0_r|cbn; set_solver|done|done].
  - apply NoDup_cons in Hnd as [Hni Hnd]. destruct (Hall i) as (Hi & p & Hp & Hf); [by left|]. cbn [foldl]. rewrite Hp, Hf, bool_decide_eq_true_2 by done. cbn [andb].
    destruct (forget_frame a i Hi) as [Hss Hpub]. destruct (IH (forget_session a i) (n + 1) Hnd) as (b & Hb & Hs & Hpb & Hc).
    { intros j Hj. assert (j <> i) by congruence. destruct (Hall j) as (? & q & ? & ?); [by right|]. rewrite Hss, Hpub by done. split; [set_solver|eauto]. }
    exists b. split_and!.
    + rewrite Hb, len_cons. f_equal. lia.
    + rewrite Hs, Hss. cbn. set_solver.
    + intros j Hj. rewrite Hpb, Hpub by set_solver. done.
    + by rewrite Hc, forget_commands.
Qed.

(** Who may disconnect: the device of the session that asks, in its present
    epoch, whose password still controls that device. *)
Definition disconnect_owner (a : App) (id : Z) (device salt : bytes) : Prop :=
  device <> [] /\ len device <= 128 /\ salt <> [] /\ len salt <= 128 /\ exists p slot,
  ap_public a !! id = Some p /\ pub_device_id p = device /\ pub_session_salt p = salt
  /\ ap_epochs a !! device = Some slot /\ es_epoch slot = mkEpoch (pub_generation_id p) salt
  /\ device_control_authorized (ap_db a) (ap_now a) (pub_password p) device = true.
(** The sessions it ends. *)
Definition session_of (a : App) (id : Z) (device : bytes) (i : Z) : Prop :=
  i ∈ ap_sessions a /\ exists p, ap_public a !! i = Some p /\ (i = id \/ pub_device_id p = device).

Lemma does_lock_existing a device : does (lock_existing_device_epoch device) a (ap_epochs a !! device) (touch_slot a device).
Proof. done. Qed.

(** Once it is authorised. *)
Definition disconnect_now (id : Z) (device : bytes) : ctl (bytes + Z) :=
  candidates ← gets (fun a => sessions_where a (fun i p => (i =? id) || bytes_eqb (pub_device_id p) device));
  sent ← gets (fun a => (send_command a (DisconnectDevice device id)).1);
  _ ← modify (fun a => post a (DisconnectDevice device id));
  if negb sent then mret (inl (denied "server_busy")) else
  removed ← gets (fun a => (disconnect_sessions a id device candidates).1);
  _ ← modify (fun a => (disconnect_sessions a id device candidates).2);
  mret (inr removed).
Lemma sessions_where_of a id device i :
  i ∈ sessions_where a (fun i p => (i =? id) || bytes_eqb (pub_device_id p) device) <-> session_of a id device i.
Proof.
  rewrite sessions_where_elem. unfold session_of. split; intros (Hi & p & Hp & H); (split; [done|exists p; split; [done|]]).
  - apply orb_true_iff in H as [H|H]; [left; lia|right; by apply bool_decide_eq_true in H].
  - apply orb_true_iff. destruct H; [left; lia|right; by apply bool_decide_eq_true].
Qed.
Lemma post_full a c : ~ room a 1 -> (send_command a c).1 = false /\ post a c = a.
Proof.
  intros Hr. unfold post, send_command, try_send. destruct (ch_open (ap_commands a) && _) eqn:E; [|by destruct a].
  bool_prop. destruct Hr. split; [done|lia].
Qed.
Lemma room_dec a n : Decision (room a n).
Proof. unfold room. apply _. Defined.
Lemma disconnect_now_does id device a :
  exists r a', does (disconnect_now id device) a r a' /\ same_accounts a a' /\
  match r with
  | inr n => sends a a' [DisconnectDevice device id]
      /\ (forall i, i ∈ ap_sessions a' <-> i ∈ ap_sessions a /\ ~ session_of a id device i)
      /\ n = Z.of_nat (size (ap_sessions a ∖ ap_sessions a'))
      /\ (forall i, ~ session_of a id device i -> ap_public a' !! i = ap_public a !! i)
  | inl _ => ~ room a 1 /\ a' = a
  end.
Proof.
  set (c := DisconnectDevice device id). destruct (room_dec a 1) as [Hr|Hr].
  - destruct (post_sends a c Hr) as [Hs Hsent]. set (ids := sessions_where a (fun i p => (i =? id) || bytes_eqb (pub_device_id p) device)).
    assert (Hpub : ap_public (post a c) = ap_public a) by (unfold post, send_command; by destruct (try_send _ _)).
    destruct (disconnect_removes (post a c) id device ids 0) as (b & Hb & Hss & Hpb & Hcb); [apply sessions_where_NoDup| |].
    { intros i Hi. rewrite post_sessions, Hpub. by apply sessions_where_elem in Hi. }
    fold (disconnect_sessions (post a c) id device ids) in Hb. rewrite post_sessions in Hss.
    exists (inr (len ids)), b. split_and!.
    + eapply does_bind; [apply does_gets|]. eapply does_bind; [apply does_gets|]. eapply does_bind; [apply does_modify|]. fold c ids. rewrite Hsent. cbn [negb].
      eapply does_bind; [apply does_gets|]. eapply does_bind; [apply does_modify|]. fold ids. rewrite Hb. apply does_ret.
    + etrans; [apply same_post|]. pose proof (same_disconnect (post a c) id device ids) as H. by rewrite Hb in H.
    + unfold sends in *. by rewrite Hcb.
    + intros i. rewrite Hss, elem_of_difference, elem_of_list_to_set. unfold ids. by rewrite sessions_where_of.
    + rewrite Hss. replace (ap_sessions a ∖ (ap_sessions a ∖ list_to_set ids)) with (list_to_set ids : gset Z).
      * rewrite size_list_to_set by apply sessions_where_NoDup. done.
      * apply set_eq. intros i. rewrite !elem_of_difference, elem_of_list_to_set. destruct (decide (i ∈ ids)) as [Hi|Hi]; [|naive_solver].
        pose proof Hi as [Hin _]%sessions_where_elem. naive_solver.
    + intros i Hi. rewrite Hpb, Hpub; [done|]. unfold ids. by rewrite sessions_where_of.
  - destruct (post_full a c Hr) as [Hsent Hpost]. exists (inl (denied "server_busy")), a. split_and!; [|done|done|done].
    eapply does_bind; [apply does_gets|]. eapply does_bind; [apply does_gets|]. eapply does_bind; [apply does_modify|]. fold c. rewrite Hsent, Hpost. apply does_ret.
Qed.

Ltac first_reads := do 3 (eapply does_bind; [first [apply does_gets|apply does_db_lock]|]).
(** Either the session that asks is the owner, and all checks are passed; or it
    is not, and the answer is a refusal. *)
Lemma disconnect_checks id device salt a :
  (~ disconnect_owner a id device salt /\ exists response a', does (handle_disconnect id device salt) a (inl response) a' /\ (a' = a \/ a' = touch_slot a device))
  \/ (disconnect_owner a id device salt /\ forall r a', does (disconnect_now id device) (touch_slot a device) r a' -> does (handle_disconnect id device salt) a r a').
Proof.
  unfold handle_disconnect. destruct (bytes_eqb device [] || (128 <? len device)) eqn:Hdev.
  { left; split; [|do 2 eexists; split; [apply does_ret|auto]]. intros (? & ? & _). apply orb_true_iff in Hdev as [?%bool_decide_eq_true|?]; [done|lia]. }
  destruct (bytes_eqb salt [] || (128 <? len salt)) eqn:Hsalt.
  { left; split; [|do 2 eexists; split; [apply does_ret|auto]]. intros (_ & _ & ? & ? & _). apply orb_true_iff in Hsalt as [?%bool_decide_eq_true|?]; [done|lia]. }
  apply orb_false_iff in Hdev as [Hd1%bool_decide_eq_false Hd2]. apply orb_false_iff in Hsalt as [Hs1%bool_decide_eq_false Hs2].
  destruct (ap_public a !! id) as [p|] eqn:Hp.
  2: { left; split; [|do 2 eexists; split; [first_reads; rewrite Hp; apply does_ret|auto]].
    intros (_ & _ & _ & _ & q & _ & Hq & _). congruence. }
  destruct (device_control_authorized (ap_db a) (ap_now a) (pub_password p) device && bytes_eqb (pub_device_id p) device && bytes_eqb (pub_session_salt p) salt) eqn:Hauth.
  2: { left; split; [|do 2 eexists; split; [first_reads; rewrite Hp; cbn [andb]; rewrite Hauth; apply does_ret|auto]].
    intros (_ & _ & _ & _ & q & slot & Hq & Hqd & Hqs & _ & _ & Hqa). assert (q = p) as -> by congruence.
    by rewrite Hqa, (eqb_true _ _ Hqd), (eqb_true _ _ Hqs) in Hauth. }
  apply andb_true_iff in Hauth as [[Hctl Hpd%bool_decide_eq_true]%andb_true_iff Hps%bool_decide_eq_true].
  destruct (ap_epochs a !! device) as [slot|] eqn:Hslot.
  2: { left; split; [|do 2 eexists; split; [first_reads; rewrite Hp; cbn [andb]; rewrite Hctl, (eqb_true _ _ Hpd), (eqb_true _ _ Hps);
      eapply does_bind; [apply does_lock_existing|]; rewrite Hslot; apply does_ret|auto]].
    intros (_ & _ & _ & _ & q & slot & _ & _ & _ & Hq & _). congruence. }
  destruct (DeviceEpochState_matches (es_epoch slot) (pub_generation_id p) salt) eqn:Hmatch.
  2: { left; split; [|do 2 eexists; split; [first_reads; rewrite Hp; cbn [andb]; rewrite Hctl, (eqb_true _ _ Hpd), (eqb_true _ _ Hps);
      eapply does_bind; [apply does_lock_existing|]; rewrite Hslot; eapply does_bind; [apply does_db_lock|]; eapply does_bind; [apply does_gets|];
      cbn [ap_public touch_slot set_ap_epochs]; rewrite Hp; unfold disconnect_request_authorized; rewrite Hmatch, andb_false_r; apply does_ret|auto]].
    intros (_ & _ & _ & _ & q & slot' & Hq & _ & _ & Hslot' & Hep & _). assert (q = p) as -> by congruence. assert (slot' = slot) as -> by congruence.
    unfold DeviceEpochState_matches in Hmatch. rewrite Hep in Hmatch. cbn in Hmatch. by rewrite Z.eqb_refl, (eqb_true _ _ eq_refl) in Hmatch. }
  right. split.
  - split_and!; [done|lia|done|lia|]. exists p, slot. split_and!; try done. apply andb_true_iff in Hmatch as [?%Z.eqb_eq ?%bool_decide_eq_true].
    destruct (es_epoch slot). by simplify_eq/=.
  - intros r b Hnow. first_reads. rewrite Hp. cbn [andb]. rewrite Hctl, (eqb_true _ _ Hpd), (eqb_true _ _ Hps).
    eapply does_bind; [apply does_lock_existing|]. rewrite Hslot. eapply does_bind; [apply does_db_lock|]. eapply does_bind; [apply does_gets|].
    cbn [ap_public touch_slot set_ap_epochs]. rewrite Hp. unfold disconnect_request_authorized. cbn [ap_db ap_now touch_slot set_ap_epochs].
    rewrite Hmatch, Hctl, (eqb_true _ _ Hpd), (eqb_true _ _ Hps), (eqb_false _ _ Hs1). exact Hnow.
Qed.

(** DISCONNECT obeys the owner of a device and nobody else.  If the asking
    session owns the device in its present epoch and the engine's queue has
    room, the engine is told once, exactly the sessions of the device and the
    asking one leave the table, their number is returned, and no other session
    changes.  In every other case the answer is a refusal and no session, no
    queue and no account changes. *)
Theorem disconnect_by_owner_only id device salt a :
  exists r a', does (handle_disconnect id device salt) a r a' /\ same_accounts a a' /\
  match r with
  | inr n => disconnect_owner a id device salt /\ sends a a' [DisconnectDevice device id]
      /\ (forall i, i ∈ ap_sessions a' <-> i ∈ ap_sessions a /\ ~ session_of a id device i)
      /\ n = Z.of_nat (size (ap_sessions a ∖ ap_sessions a'))
      /\ (forall i, ~ session_of a id device i -> ap_public a' !! i = ap_public a !! i)
  | inl _ => (disconnect_owner a id device salt -> ~ room a 1)
      /\ ap_sessions a' = ap_sessions a /\ ap_public a' = ap_public a /\ ap_commands a' = ap_commands a
  end.
Proof.
  destruct (disconnect_checks id device salt a) as [[Hno (response & a' & Hdo & Ha')]|[Hyes Hdo]].
  - exists (inl response), a'. split; [done|]. by destruct Ha' as [->| ->].
  - destruct (disconnect_now_does id device (touch_slot a device)) as ([response|n] & a' & Hnow & Hsame & Hr).
    + exists (inl response), a'. split; [by apply Hdo|]. destruct Hr as [Hfull ->]. by split_and!.
    + exists (inr n), a'. split; [by apply Hdo|]. split; [|by split]. etrans; [|exact Hsame]. done.
Qed.

(** ** The janitor *)

Lemma forget_all_frame ids a : ap_sessions (foldl forget_session a ids) = ap_sessions a ∖ list_to_set ids
  /\ (forall i, pub_password <$> ap_public (foldl forget_session a ids) !! i = pub_password <$> ap_public a !! i).
Proof.
  revert a. induction ids as [|i ids IH]; intros a; [split; [cbn; set_solver|done]|]. cbn [foldl]. destruct (IH (forget_session a i)) as [-> Hp].
  assert (Hone : ap_sessions (forget_session a i) = ap_sessions a ∖ {[i]} /\ forall j, pub_password <$> ap_public (forget_session a i) !! j = pub_password <$> ap_public a !! j).
  { unfold forget_session. case_bool_decide; [|set_solver]. split; [done|]. intros j. cbn. destruct (decide (j = i)) as [->|Hne]; [|by rewrite lookup_alter_ne].
    rewrite lookup_alter_eq. by destruct (ap_public a !! i). }
  destruct Hone as [-> Hone]. split; [cbn; set_solver|]. intros j. by rewrite Hp.
Qed.
Definition uses_password (a : App) (i : Z) (password : bytes) : Prop := pub_password <$> ap_public a !! i = Some password.
Lemma forget_all_rest ids a : ap_commands (foldl forget_session a ids) = ap_commands a /\ ap_now (foldl forget_session a ids) = ap_now a.
Proof.
  revert a. induction ids as [|i ids IH]; intros a; [done|]. cbn [foldl]. destruct (IH (forget_session a i)) as [-> ->].
  unfold forget_session. by case_bool_decide.
Qed.
(** What dropping the sessions of a password comes to. *)
Lemma drop_password_frame a password :
  let b := drop_password_sessions a password in
  ap_commands b = ap_commands (post a (DropPassword password)) /\ ap_now b = ap_now a
  /\ (forall i, i ∈ ap_sessions b <-> i ∈ ap_sessions a /\ ~ uses_password a i password)
  /\ (forall i q, uses_password b i q <-> uses_password a i q).
Proof.
  unfold drop_password_sessions. set (c := post a (DropPassword password)).
  assert (Hc : ap_sessions c = ap_sessions a /\ ap_public c = ap_public a /\ ap_now c = ap_now a) by (unfold c, post, send_command; by destruct (try_send _ _)).
  destruct Hc as (Hs & Hp & Hn). set (ids := sessions_where c _). destruct (forget_all_frame ids c) as [Hfs Hfp]. destruct (forget_all_rest ids c) as [Hfc Hfn].
  split_and!; [done|by rewrite Hfn| |].
  - intros i. rewrite Hfs, elem_of_difference, elem_of_list_to_set, Hs. unfold ids, uses_password. rewrite sessions_where_elem, Hs, Hp.
    split; intros [Hi Hno]; (split; [done|]).
    + intros Hu. apply Hno. split; [done|]. destruct (ap_public a !! i) as [p|]; [|done]. exists p. split; [done|]. apply eqb_true. by injection Hu.
    + intros (_ & p & Hpi & Heq%bool_decide_eq_true). apply Hno. by rewrite Hpi, <- Heq.
  - intros i q. unfold uses_password. by rewrite Hfp, Hp.
Qed.
(** What retiring one password comes to. *)
Definition without_password (d : Database) (password : bytes) : Database := set_db_passwords d (delete password (db_passwords d)).
Definition retired (a : App) (password : bytes) : App :=
  let d := without_password (ap_db a) password in
  let b := set_ap_persistence (set_ap_db a d) (Persistence_submit (ap_persistence a) d).2 in
  drop_password_sessions (set_ap_derived_keys b (delete password (ap_derived_keys b))) password.
Lemma retired_frame a password :
  ap_db (retired a password) = without_password (ap_db a) password /\ ap_now (retired a password) = ap_now a
  /\ (forall i, i ∈ ap_sessions (retired a password) <-> i ∈ ap_sessions a /\ ~ uses_password a i password)
  /\ (forall i q, uses_password (retired a password) i q <-> uses_password a i q)
  /\ (keys_ok (ap_derived_keys a) -> keys_ok (ap_derived_keys (retired a password))).
Proof.
  unfold retired. set (b := set_ap_derived_keys _ _). destruct (drop_password_frame b password) as (_ & Hn & Hs & Hu).
  pose proof (same_drop_password b password) as [Hdb Hkeys _]. split_and!; [by rewrite Hdb|done|exact Hs|exact Hu|].
  intros Hok. rewrite Hkeys. intros p k. cbn. rewrite lookup_delete_Some. intros [_ ?]. by apply Hok.
Qed.
Definition expired_at (now : Z) (d : Database) (password : bytes) : bool :=
  match db_passwords d !! password with Some e => is_expired e now | None => false end.
Lemma retire_does a password : expired_at (ap_now a) (ap_db a) password = true -> does (retire_password password) a true (retired a password).
Proof.
  intros He. unfold retire_password. eapply does_bind; [apply does_db_lock|]. cbn [negb]. eapply does_bind; [apply does_gets|].
  unfold expired_at in He. rewrite He. cbn [negb]. do 3 (eapply does_bind; [apply does_modify|]). apply does_ret.
Qed.
Lemma retire_all_does l a : NoDup l -> (forall p, p ∈ l -> expired_at (ap_now a) (ap_db a) p = true) ->
  exists b, does (retire_passwords l) a (negb (bool_decide (l = []))) b
  /\ ap_db b = foldl without_password (ap_db a) l /\ ap_now b = ap_now a
  /\ (forall i, i ∈ ap_sessions b <-> i ∈ ap_sessions a /\ ~ exists p, p ∈ l /\ uses_password a i p)
  /\ (keys_ok (ap_derived_keys a) -> keys_ok (ap_derived_keys b)) /\ (l = [] -> b = a).
Proof.
  revert a. induction l as [|q l IH]; intros a Hnd Hall.
  { exists a. split_and!; try done. intros i. split; [|naive_solver]. intros Hi. split; [done|]. intros (p & Hp & _). by apply elem_of_nil in Hp. }
  apply NoDup_cons in Hnd as [Hq Hnd]. destruct (retired_frame a q) as (Hdb & Hn & Hs & Hu & Hk).
  destruct (IH (retired a q) Hnd) as (b & Hdo & Hb & Hbn & Hbs & Hbk & _).
  { intros p Hp. unfold expired_at. rewrite Hn, Hdb. cbn [without_password db_passwords set_db_passwords]. rewrite lookup_delete_ne by congruence.
    apply Hall. by right. }
  exists b. split_and!.
  - cbn [retire_passwords]. eapply does_bind; [apply retire_does, Hall; by left|]. eapply does_bind; [exact Hdo|]. cbn. apply does_ret.
  - cbn [foldl]. by rewrite Hb, Hdb.
  - by rewrite Hbn.
  - intros i. rewrite Hbs, Hs. setoid_rewrite elem_of_cons. setoid_rewrite Hu. naive_solver.
  - auto.
  - done.
Qed.

Lemma derive_credentials_total passwords keys : Forall (fun p => p <> []) passwords -> keys_ok keys ->
  exists entries, (derive_credentials passwords keys).1 = Some entries.
Proof.
  intros Hne. revert keys. induction Hne as [|password passwords Hp _ IH]; intros keys Hk; [by exists []|]. cbn.
  assert (Hd : exists key, (match keys !! password with Some key => Some key | None => ok (derive_wrap_key password) end) = Some key /\ derive_wrap_key password = Ok key).
  { destruct (keys !! password) as [key|] eqn:E; [exists key; split; [done|by apply Hk]|]. unfold derive_wrap_key. rewrite (eqb_false _ _ Hp). by eexists. }
  destruct Hd as (key & -> & Hkey). destruct (IH (<[password := key]> keys)) as [entries He]; [by apply map_Forall_insert_2|].
  destruct (derive_credentials passwords _) as [o ks]. cbn in He. subst o. by eexists.
Qed.
(** The credentials of exactly the passwords that are good now. *)
Definition credentials_of (d : Database) (now : Z) (l : list Credential) : Prop :=
  cr_password <$> l = active_passwords d now /\ Forall (fun c => derive_wrap_key (cr_password c) = Ok (cr_key c)) l.
Lemma refresh_runs a : keys_ok (ap_derived_keys a) -> Forall (fun p => p <> []) (active_passwords (ap_db a) (ap_now a)) ->
  exists entries c, credentials_of (ap_db a) (ap_now a) entries /\ ap_credentials c = entries /\ ap_db c = ap_db a /\ ap_sessions c = ap_sessions a
  /\ ap_commands c = ap_commands a /\ refresh_credentials (alone a) = command (ReplaceCredentials entries) (alone c).
Proof.
  intros Hk Hne. set (passwords := active_passwords (ap_db a) (ap_now a)) in *.
  set (b := set_ap_derived_keys a (filter (fun kv => kv.1 ∈ passwords) (ap_derived_keys a))).
  assert (Hkb : keys_ok (ap_derived_keys b)) by (by apply keys_filter).
  destruct (derive_credentials_total passwords _ Hne Hkb) as [entries He]. destruct (derive_keys passwords _ Hkb) as [_ Hl]. specialize (Hl _ He).
  exists entries, (set_ap_credentials (set_ap_derived_keys b (derive_credentials passwords (ap_derived_keys b)).2) entries). split_and!; try done; try apply Hl.
  assert (Hbuild : does build_credentials a entries (set_ap_derived_keys b (derive_credentials passwords (ap_derived_keys b)).2)).
  { unfold build_credentials. eapply does_bind; [apply does_locked|]. eapply does_bind; [apply does_gets|]. eapply does_bind; [apply does_modify|].
    eapply does_bind; [apply does_gets|]. eapply does_bind; [apply does_modify|]. fold passwords b. rewrite He. apply does_ret. }
  unfold refresh_credentials. by rewrite (effect_step _ _ _ _ _ Hbuild), (effect_step _ _ _ _ _ (does_modify _ _)).
Qed.
Lemma refresh_publishes a : keys_ok (ap_derived_keys a) -> Forall (fun p => p <> []) (active_passwords (ap_db a) (ap_now a)) ->
  exists b, does (ignore refresh_credentials) a tt b /\ ap_db b = ap_db a /\ ap_sessions b = ap_sessions a
  /\ credentials_of (ap_db a) (ap_now a) (ap_credentials b).
Proof.
  intros Hk Hne. destruct (refresh_runs a Hk Hne) as (entries & c & Hcr & Hcc & Hdb & Hs & _ & Hrun). exists (post c (ReplaceCredentials entries)). split_and!.
  - unfold does, ignore, on_result. rewrite Hrun. unfold command, post, mbind, effect_bind, gets, modify, alone. cbn [tk_app tk_others tk_locks].
    by destruct (send_command c (ReplaceCredentials entries)) as [[] ?].
  - by rewrite (sa_db _ _ (same_post _ _)).
  - by rewrite post_sessions.
  - rewrite <- Hcc in Hcr. unfold post, send_command. by destruct (try_send _ _).
Qed.
Definition expired_passwords (now : Z) (d : Database) : list bytes := (filter (fun kv => is_expired kv.2 now = true) (btree_iter (db_passwords d))).*1.
Lemma expired_passwords_elem now d p : p ∈ expired_passwords now d <-> expired_at now d p = true.
Proof.
  unfold expired_passwords, expired_at. rewrite list_elem_of_fmap. split.
  - intros ([q e] & -> & [He Hin]%list_elem_of_filter). rewrite btree_iter_perm in Hin. apply elem_of_map_to_list in Hin. cbn in *. by rewrite Hin.
  - destruct (db_passwords d !! p) as [e|] eqn:E; [|done]. intros He. exists (p, e). split; [done|]. apply list_elem_of_filter. split; [done|].
    rewrite btree_iter_perm. by apply elem_of_map_to_list.
Qed.
Lemma expired_passwords_NoDup now d : NoDup (expired_passwords now d).
Proof. eapply sublist_NoDup; [apply (btree_iter_keys (db_passwords d))|]. apply fmap_sublist, sublist_filter. Qed.
Lemma without_passwords l d : exists m, foldl without_password d l = set_db_passwords d m
  /\ forall p, m !! p = if decide (p ∈ l) then None else db_passwords d !! p.
Proof.
  revert d. induction l as [|q l IH]; intros d.
  - exists (db_passwords d). split; [by destruct d|]. intros p. by rewrite decide_False by apply not_elem_of_nil.
  - cbn [foldl]. destruct (IH (without_password d q)) as (m & -> & Hm). exists m. split; [by destruct d|]. intros p. rewrite Hm. cbn [without_password db_passwords set_db_passwords].
    destruct (decide (p ∈ l)) as [Hp|Hp]; [by rewrite decide_True by (by right)|]. destruct (decide (p = q)) as [->|Hne].
    + rewrite lookup_delete_eq. by rewrite decide_True by (by left).
    + rewrite lookup_delete_ne by done. rewrite decide_False; [done|]. by intros [|]%elem_of_cons.
Qed.
Lemma without_expired now d :
  foldl without_password d (expired_passwords now d) = set_db_passwords d (filter (fun kv => is_expired kv.2 now = false) (db_passwords d)).
Proof.
  destruct (without_passwords (expired_passwords now d) d) as (m & -> & Hm). f_equal. apply map_eq. intros p. rewrite Hm.
  destruct (decide (p ∈ expired_passwords now d)) as [Hp|Hp]; rewrite expired_passwords_elem in Hp; unfold expired_at in Hp;
    destruct (db_passwords d !! p) as [e|] eqn:E; try done; symmetry.
  - apply map_lookup_filter_None. right. intros e' He'. cbn. rewrite E in He'. injection He' as <-. by rewrite Hp.
  - apply map_lookup_filter_Some. split; [done|]. cbn. by apply not_true_is_false.
  - apply map_lookup_filter_None. by left.
Qed.
Lemma active_nonempty d now : db_passwords d !! [] = None -> Forall (fun p => p <> []) (active_passwords d now).
Proof.
  intros Hn. unfold active_passwords. apply Forall_app. split.
  - destruct (bytes_eqb (db_main_password d) []) eqn:E; [done|]. apply bool_decide_eq_false in E. by constructor.
  - apply Forall_fmap, Forall_forall. intros [p e] [_ Hin]%list_elem_of_filter. rewrite btree_iter_perm in Hin. apply elem_of_map_to_list in Hin. cbn. congruence.
Qed.

(** One cycle of the password janitor removes exactly the expired
    passwords from the accounts, takes every session that uses one of them out
    of the table and no other, and, if there were any, publishes credentials
    for exactly the passwords that are still good, each with its derived key. *)
Theorem janitor_retires_expired a : keys_ok (ap_derived_keys a) -> db_passwords (ap_db a) !! [] = None ->
  exists a', does run_password_janitor_cycle a tt a'
  /\ ap_db a' = set_db_passwords (ap_db a) (filter (fun kv => is_expired kv.2 (ap_now a) = false) (db_passwords (ap_db a)))
  /\ (forall i, i ∈ ap_sessions a' <-> i ∈ ap_sessions a /\ ~ exists p, expired_at (ap_now a) (ap_db a) p = true /\ uses_password a i p)
  /\ ((exists p, expired_at (ap_now a) (ap_db a) p = true) -> credentials_of (ap_db a') (ap_now a) (ap_credentials a')).
Proof.
  intros Hk Hempty. set (l := expired_passwords (ap_now a) (ap_db a)).
  destruct (retire_all_does l a) as (b & Hdo & Hdb & Hn & Hs & Hkb & Hnone); [apply expired_passwords_NoDup|intros p; unfold l; by rewrite expired_passwords_elem|].
  unfold l in Hdb, Hs. rewrite without_expired in Hdb. setoid_rewrite expired_passwords_elem in Hs.
  assert (Hstart : forall r c, does (if negb (bool_decide (l = [])) then ignore refresh_credentials else mret tt) b r c -> does run_password_janitor_cycle a r c).
  { intros r c Hrest. unfold run_password_janitor_cycle. eapply does_bind; [apply does_db_lock|]. cbn [negb]. eapply does_bind; [apply does_gets|]. fold (expired_passwords (ap_now a) (ap_db a)). fold l.
    eapply does_bind; [exact Hdo|]. exact Hrest. }
  destruct (decide (l = [])) as [Hl|Hl].
  - exists b. split_and!; [|done|done|].
    + apply Hstart. rewrite bool_decide_eq_true_2 by done. apply does_ret.
    + intros [p Hp]. rewrite <- expired_passwords_elem in Hp. fold l in Hp. rewrite Hl in Hp. by apply elem_of_nil in Hp.
  - destruct (refresh_publishes b (Hkb Hk)) as (c & Hc & Hdbc & Hsc & Hcr).
    { apply active_nonempty. rewrite Hdb. cbn [db_passwords set_db_passwords]. apply map_lookup_filter_None. by left. }
    exists c. split_and!; [|by rewrite Hdbc|intros i; by rewrite Hsc|].
    + apply Hstart. rewrite bool_decide_eq_false_2 by done. exact Hc.
    + intros _. rewrite Hdbc, <- Hn. exact Hcr.
Qed.

(** ** Traffic *)

(** What a session carried since the last flush is lost when it closes.  A
    session leaves the table with its counters in it, and a flush only visits
    the table: closing the only session and flushing credits nothing to its
    password, whatever it had transferred. *)
Theorem closed_session_not_credited seed address id reason a : ap_sessions a = {[id]} ->
  exists a', does (_ ← control_event seed (SessionClosed address id reason); flush_traffic) a tt a' /\ ap_db a' = ap_db a
  /\ (forall i p, ap_public a !! i = Some p -> exists p', ap_public a' !! i = Some p' /\ pub_up_bytes p' = pub_up_bytes p /\ pub_down_bytes p' = pub_down_bytes p).
Proof.
  intros Hs. assert (Hin : id ∈ ap_sessions a) by (rewrite Hs; by apply elem_of_singleton). destruct (forget_frame a id Hin) as [Hss _]. set (b := forget_session a id) in *.
  assert (Hempty : elements (ap_sessions b) = []) by (rewrite Hss, Hs, difference_diag_L; apply elements_empty).
  assert (Hflush : flush_sessions b (elements (ap_sessions b)) traffic_default = (b, traffic_default)) by (by rewrite Hempty).
  exists (set_ap_persistence b (Persistence_submit_traffic (ap_persistence b) traffic_default).2). split; [|split].
  - eapply does_bind; [apply does_modify|]. fold b. unfold flush_traffic. eapply does_bind; [apply does_db_lock|]. cbn [negb].
    eapply does_bind; [apply does_gets|]. eapply does_bind; [apply does_modify|]. cbn beta. rewrite Hflush. apply does_modify.
  - apply (sa_db _ _ (same_forget a id)).
  - cbn [set_ap_persistence ap_public]. intros i p Hp. unfold b, forget_session. rewrite bool_decide_eq_true_2 by done. cbn.
    destruct (decide (i = id)) as [->|Hne]; [rewrite lookup_alter_eq, Hp; by eexists|rewrite lookup_alter_ne by done; eauto].
Qed.
End ControlProps.

(** ** A concrete application *)

Definition demo_tools : KeyTools := {| hkdf_sha256 := fun _ material _ _ => material; x25519_public := fun secret => secret; base64 := fun data => data |}.
#[local] Existing Instance demo_tools.
Definition demo_accounts : Database :=
  set_db_passwords demo_database (<[b_ "guest" := demo_entry ""]> (<[b_ "old" := mkEntry (b_ "phone") 1000 0 0 [] [] false [] [] 0 0 0]> (db_passwords demo_database))).
Definition demo_session (password device : string) : Session :=
  mkSession demo_peer (b_ password) (b_ device) 7 (b_ "salt") 1 0 None 2000 300 400 2000 false false false.
Definition demo_web : Web := mkWeb ∅ ∅ (b_ "admin") (b_ "open") (b_ "main") true [] 0 false false false None.
Definition demo_app : App :=
  mkApp demo_accounts (<[5 := demo_session "guest" ""]> (<[6 := demo_session "secret" "phone"]> (<[7 := demo_session "old" "phone"]> ∅))) {[5; 6; 7]}
    (<[b_ "phone" := mkSlot 1 (mkEpoch 7 (b_ "salt")) 0]> ∅) (mkChannel [] 64 true)
    (Persistence_submit (Persistence_new demo_world) demo_accounts).2 ∅ [] (b_ "9.9.9.9") 40 0 2 2000 2000 demo_web.
Definition demo_getconf : bytes := b_ "GETCONF:9000|tablet|guest|7|salt|1|1|CSQTT-WIRE-3".
Definition demo_rq : Request := mkRequest (b_ "tablet") (b_ "guest") 7 (b_ "salt") 1 1 (b_ "9000") true.
Lemma demo_accounts_ok : accounts_ok demo_accounts.
Proof.
  split; [apply (bool_decide_unpack _); vm_compute; exact I| |].
  - apply map_Forall_singleton. exists 2. split; [lia|done].
  - intros id id' device device' Hd Hd' _. change (db_devices demo_accounts) with ({[b_ "phone" := demo_device]} : gmap bytes ClientDevice) in Hd, Hd'.
    apply lookup_singleton_Some in Hd as [<- _], Hd' as [<- _]. done.
Qed.
Lemma demo_app_ok : app_ok demo_app.
Proof. split; [apply demo_accounts_ok|apply map_Forall_empty|apply (durable_submit demo_accounts), demo_accounts_ok]. Qed.
(** Meanwhile other tasks drop a session, the writer writes, and the passwords that have expired go. *)
Definition demo_others : list (App -> App) :=
  [fun a => forget_session a 6; fun a => post a (DropSession 6); written [];
   fun a => tk_app (run_works [PasswordJanitor] (mkTask a [] [])).2; written []].
Lemma demo_others_ok : Forall harmless demo_others.
Proof.
  pose proof (written_harmless [] ltac:(apply not_elem_of_nil)) as Hw. assert (Hj : harmless (fun a => tk_app (run_works [PasswordJanitor] (mkTask a [] [])).2)).
  { intros a Ha. destruct (run_works_ok [PasswordJanitor] (mkTask a [] [])) as (t' & -> & [Ht _]); [by split|by repeat constructor|done]. }
  apply Forall_cons; split; [intros a; apply same_ok, same_forget|]. apply Forall_cons; split; [intros a; apply same_ok, same_post|].
  by repeat (apply Forall_cons; split; [done|]).
Qed.

Definition demo_works : list control_work :=
  [OnEvent (replicate 32 9) (Payload demo_peer 5 demo_getconf); FlushTraffic; PasswordJanitor; OnEvent (replicate 32 9) (SessionClosed demo_peer 5 "gone"); BroadcastConfiguration].
Lemma accounts_stay_sound_witness : exists t', run_works demo_works (mkTask demo_app demo_others [true; false]) = (Ok tt, t') /\ app_ok (tk_app t').
Proof.
  apply (accounts_stay_sound demo_works (mkTask demo_app demo_others [true; false])); [apply demo_app_ok|apply demo_others_ok|].
  by repeat constructor.
Defined.
Lemma getconf_answers_once_witness : exists a' sent, does (handle_getconf (replicate 32 9) 5 demo_getconf) demo_app tt a' /\ sends demo_app a' sent.
Proof.
  destruct (getconf_answers_once (replicate 32 9) 5 demo_getconf demo_app (demo_session "guest" "")) as (a' & sent & Hdo & Hs & _);
    [reflexivity|reflexivity|split; [reflexivity|apply Z.leb_le; vm_compute; reflexivity]|]. exists a', sent. exact (conj Hdo Hs).
Defined.
Lemma janitor_retires_expired_witness : exists a', does run_password_janitor_cycle demo_app tt a' /\ db_passwords (ap_db a') !! b_ "old" = None
  /\ 7 ∉ ap_sessions a' /\ 5 ∈ ap_sessions a'.
Proof.
  destruct (janitor_retires_expired demo_app) as (a' & Hdo & Hdb & Hs & _); [apply map_Forall_empty|reflexivity|]. exists a'. split_and!; [exact Hdo| | |].
  - rewrite Hdb. vm_compute. reflexivity.
  - rewrite Hs. intros [_ Hno]. apply Hno. exists (b_ "old"). split; vm_compute; reflexivity.
  - apply Hs. split; [apply (bool_decide_unpack _); vm_compute; exact I|]. intros (p & He & Hu).
    change (Some (b_ "guest") = Some p) in Hu. injection Hu as <-. vm_compute in He. discriminate He.
Defined.
Definition demo_single : App := set_ap_sessions demo_app {[6]}.
Lemma closed_session_not_credited_witness : exists a',
  does (_ ← control_event (replicate 32 9) (SessionClosed demo_peer 6 "gone"); flush_traffic) demo_single tt a' /\ ap_db a' = demo_accounts.
Proof.
  destruct (closed_session_not_credited (replicate 32 9) demo_peer 6 "gone" demo_single) as (a' & Hdo & Hdb & _); [reflexivity|]. exists a'. exact (conj Hdo Hdb).
Defined.
(** The flush before the session closes would have credited it. *)
Example open_session_is_credited : (fun a => (pe_up_bytes <$> db_passwords (ap_db a) !! b_ "secret", pe_up_bytes <$> db_passwords demo_accounts !! b_ "secret"))
  (tk_app (flush_traffic (alone demo_single)).2) = (Some 302, Some 2).
Proof. vm_compute. reflexivity. Qed.
