(* ===== verification/Panel.v ===== *)
(** * The web panel

    [rust-server/web_panel.rs] and the DNS settings of [main.rs]: who may use the
    panel, and every handler that changes something.  A handler runs beside the
    control task, over the same application and in the same way ([Control]):
    wherever it awaits a lock or the writer of the database, other tasks run.

    Pages, statistics, the log file and the transport are not here; the routes
    of [run] are the constructors of [PanelCall]. *)

From S2P Require Import Prelude StreamControl Text Getconf Sink Engine Accounts Control.

(** SHA-256 in hexadecimal, and Base64 in its two alphabets. *)
Class PanelTools := {
  sha256_hex : bytes -> bytes;
  base64_decode : bytes -> option bytes;
  base64_url : bytes -> bytes;
}.

(** ** Text fields *)

(** [str::split] *)
Definition split (sep : Z) (l : bytes) : list bytes := splitn (S (length l)) sep l.
(** Some position of [l] starts with one of [ps]. *)
Fixpoint contains_any (ps : list bytes) (l : bytes) : bool :=
  match l with
  | [] => false
  | _ :: rest => match strip_any ps l with Some _ => true | None => contains_any ps rest end
  end.
(** The characters of [char::is_control], in UTF-8. *)
Definition control_chars : list bytes := ((fun b => [b]) <$> seqZ 0 32) ++ [[127]] ++ ((fun b => [0xc2; b]) <$> seqZ 0x80 32).
Definition COMMA : Z := 44.
Definition SEMICOLON : Z := 59.
Definition join (sep : Z) (parts : list bytes) : bytes :=
  match parts with [] => [] | p :: parts => p ++ concat ((fun q => sep :: q) <$> parts) end.

Definition MAX_LOGIN_FIELD_BYTES : Z := 256.
Definition MAX_CLIENT_NAME_BYTES : Z := 128.
Definition MAX_PROXY_PROFILE_NAME_BYTES : Z := 64.
Definition MAX_WEB_SESSIONS : Z := 256.
Definition MAX_LOGIN_LIMITS : Z := 4096.
Definition CAESAR_SHIFT : Z := 47.

Definition validate_text_field (value : bytes) (max_bytes : Z) (message : string) : option bytes :=
  if (max_bytes <? len value) || contains_any control_chars value then Some (b_ message) else None.
Definition validate_client_name (name : bytes) : option bytes := validate_text_field name MAX_CLIENT_NAME_BYTES "client name is too long or invalid".
Definition validate_proxy_profile_name (name : bytes) : option bytes :=
  validate_text_field name MAX_PROXY_PROFILE_NAME_BYTES "proxy profile name is too long or invalid".
Record LoginRequest := mkLogin { lg_user : bytes; lg_pass : bytes }.
Definition validate_login_request (r : LoginRequest) : option bytes :=
  match validate_text_field (lg_user r) MAX_LOGIN_FIELD_BYTES "login fields are too long or invalid" with
  | Some m => Some m
  | None => validate_text_field (lg_pass r) MAX_LOGIN_FIELD_BYTES "login fields are too long or invalid"
  end.
Definition normalize_client_vk_hashes (raw : bytes) : bytes + bytes :=
  let value := trim raw in
  if bytes_eqb value [] then inr [] else
  if 1024 <? len value then inl (b_ "VK hashes are too long") else
  if contains_any whitespace value then inl (b_ "VK hashes must be comma-separated without spaces") else
  let hashes := split COMMA value in
  if (6 <? len hashes) || existsb (fun hash => len hash <? 16) hashes then inl (b_ "provide 1 to 6 valid VK hashes")
  else inr (join COMMA hashes).
(** [proxy_route::validate_config] *)
Definition validate_config (p : LocalProxyProfile) : option bytes :=
  if lp_port p =? 0 then Some (b_ "SOCKS5 port must be in range 1-65535") else
  if (255 <? len (lp_username p)) || (255 <? len (lp_password p)) then Some (b_ "SOCKS5 username and password must not exceed 255 bytes") else
  if bytes_eqb (lp_username p) [] && negb (bytes_eqb (lp_password p) []) then Some (b_ "SOCKS5 username is required when a password is set") else
  if contains_any control_chars (lp_username p) || contains_any control_chars (lp_password p)
  then Some (b_ "SOCKS5 credentials must not contain control characters") else None.

(** The plain-HTTP redirect; [allowed] is [CSQTT_WEB_HOSTS]. *)
Definition is_alnum (b : Z) : bool := is_digit b || within 65 90 b || within 97 122 b.
Definition ascii_lower (b : Z) : Z := if within 65 90 b then b + 32 else b.
Definition eq_ignore_ascii_case (l k : bytes) : bool := bytes_eqb (ascii_lower <$> l) (ascii_lower <$> k).
Definition is_safe_redirect_host (allowed : option bytes) (host : bytes) : bool :=
  if bytes_eqb host [] || (255 <? len host) then false else
  if negb (forallb (fun b => is_alnum b || (b =? 46) || (b =? 45) || (b =? 58) || (b =? 91) || (b =? 93)) host) then false else
  match allowed with
  | Some allowed =>
      let allowed := trim allowed in
      if bytes_eqb allowed [] then true
      else existsb (fun entry => negb (bytes_eqb entry []) && eq_ignore_ascii_case entry host) (trim <$> split COMMA allowed)
  | None => true
  end.

(** ** DNS profiles *)

Record DnsProvider := mkProvider { dp_id : bytes; dp_primary : bytes; dp_secondary : bytes }.
Definition DNS_PROVIDERS : list DnsProvider :=
  [mkProvider (b_ "yandex") (b_ "77.88.8.8") (b_ "77.88.8.1");
   mkProvider (b_ "cloudflare") (b_ "1.1.1.1") (b_ "1.0.0.1");
   mkProvider (b_ "google") (b_ "8.8.8.8") (b_ "8.8.4.4");
   mkProvider (b_ "adguard") (b_ "94.140.14.14") (b_ "94.140.15.14");
   mkProvider (b_ "xbox") (b_ "111.88.96.50") (b_ "111.88.96.51");
   mkProvider (b_ "comms") (b_ "83.220.169.155") (b_ "212.109.195.93");
   mkProvider (b_ "geohide") (b_ "95.182.120.241") (b_ "37.230.192.51");
   mkProvider (b_ "quad9") (b_ "9.9.9.9") (b_ "149.112.112.112");
   mkProvider (b_ "opendns") (b_ "208.67.222.222") (b_ "208.67.220.220");
   mkProvider (b_ "rostelecom") (b_ "95.189.32.74") (b_ "195.208.5.1");
   mkProvider (b_ "nextdns") (b_ "45.90.28.181") (b_ "45.90.30.181");
   mkProvider (b_ "bizone") (b_ "195.208.6.1") (b_ "195.208.7.1");
   mkProvider (b_ "nsdi") (b_ "195.208.4.1") (b_ "195.208.5.1")].
Definition yandex : DnsProvider := mkProvider (b_ "yandex") (b_ "77.88.8.8") (b_ "77.88.8.1").
Definition provider_dns (p : DnsProvider) : bytes := dp_primary p ++ COMMA :: dp_secondary p.
Definition dns_provider_by_id (id : bytes) : option DnsProvider := List.find (fun p => bytes_eqb (dp_id p) id) DNS_PROVIDERS.
Definition dns_provider_id (dns : bytes) : option bytes := dp_id <$> List.find (fun p => bytes_eqb dns (provider_dns p)) DNS_PROVIDERS.
Definition dns_addresses (dns : bytes) : list bytes := filter (fun a => a <> []) (trim <$> split COMMA dns).
(** [(matches, usize::from(..), usize::from(..))] *)
Definition dns_score (addresses : list bytes) (p : DnsProvider) : Z * Z * Z :=
  (len (filter (fun a => a = dp_primary p \/ a = dp_secondary p) addresses),
   if bool_decide (head addresses = Some (dp_primary p)) then 1 else 0,
   if bool_decide (head addresses = Some (dp_secondary p)) then 1 else 0).
Definition score_le (a b : Z * Z * Z) : bool :=
  let '(a1, a2, a3) := a in let '(b1, b2, b3) := b in
  (a1 <? b1) || ((a1 =? b1) && ((a2 <? b2) || ((a2 =? b2) && (a3 <=? b3)))).
(** [max_by_key]: the last of the greatest. *)
Definition best_provider (addresses : list bytes) : option DnsProvider :=
  foldl (fun best p =>
    if (dns_score addresses p).1.1 =? 0 then best else
    match best with
    | Some b => if score_le (dns_score addresses b) (dns_score addresses p) then Some p else best
    | None => Some p
    end) None DNS_PROVIDERS.
Definition deploy_dns_profile_or_yandex (existing : bytes) : bytes := provider_dns (default yandex (best_provider (dns_addresses existing))).
(** [main::normalize_dns] *)
Definition normalize_dns (value : bytes) : option bytes :=
  let addresses := dns_addresses value in
  if (len addresses =? 0) || (2 <? len addresses) then None else
  if forallb (fun a => bool_decide (is_Some (parse_ipv4 a))) addresses then Some (join COMMA addresses) else None.

(** ** Responses *)

Inductive JsonValue := JText (t : bytes) | JInt (n : Z) | JFlag (f : bool) | JNull.
Inductive Body := NoBody | TextBody (t : bytes) | JsonBody (fields : list (bytes * JsonValue)).
Record Response := mkResponse { rs_status : Z; rs_cookie : option bytes; rs_warning : option bytes; rs_body : Body }.
#[global] Instance JsonValue_eq_dec : EqDecision JsonValue.
Proof. solve_decision. Defined.
#[global] Instance Body_eq_dec : EqDecision Body.
Proof. solve_decision. Defined.
#[global] Instance Response_eq_dec : EqDecision Response.
Proof. solve_decision. Defined.
Definition status (code : Z) : Response := mkResponse code None None NoBody.
Definition text (code : Z) (message : bytes) : Response := mkResponse code None None (TextBody message).
Definition json (fields : list (bytes * JsonValue)) : Response := mkResponse 200 None None (JsonBody fields).
Definition with_cookie (r : Response) (c : bytes) : Response := mkResponse (rs_status r) (Some c) (rs_warning r) (rs_body r).
Definition OK : Z := 200.
Definition ACCEPTED : Z := 202.
Definition BAD_REQUEST : Z := 400.
Definition UNAUTHORIZED : Z := 401.
Definition NOT_FOUND : Z := 404.
Definition TOO_MANY_REQUESTS : Z := 429.
Definition INTERNAL_SERVER_ERROR : Z := 500.
Definition BAD_GATEWAY : Z := 502.
Definition GATEWAY_TIMEOUT : Z := 504.
(** [(OK, [("x-csqtt-reload-error", warning)], "saved")] *)
Definition saved_with_warning (warning : bytes) : Response := mkResponse OK None (Some warning) (TextBody (b_ "saved")).

Section Panel.
Context `{KeyTools} `{PanelTools}.

Definition on_web (a : App) (f : Web -> Web) : App := set_ap_web a (f (ap_web a)).

(** ** Sessions of the panel *)

Definition caesar_decode (value : bytes) : bytes :=
  match strip_prefix (b_ "c1:") value ≫= base64_decode with
  | Some data => let decoded := (fun b => (b - CAESAR_SHIFT) mod 256) <$> data in if utf8_valid decoded then decoded else value
  | None => value
  end.
Definition hash_token (token : bytes) : bytes := sha256_hex token.
(** [HeaderValue::to_str]: visible characters only. *)
Definition header_text (value : bytes) : option bytes := if forallb (fun b => within 32 126 b || (b =? 9)) value then Some value else None.
Definition cookie_tokens (cookies : list bytes) : list bytes :=
  omap (strip_prefix (b_ "csqtt_session=")) (trim <$> concat (split SEMICOLON <$> omap header_text cookies)).
Definition session_valid (a : App) (token : bytes) : bool :=
  match wb_sessions (ap_web a) !! hash_token token with Some expiry => ap_now a <? expiry | None => false end.
Definition authorized (a : App) (cookies : list bytes) : bool := existsb (session_valid a) (cookie_tokens cookies).
Definition expired_session_cookie : bytes := b_ "csqtt_session=; Path=/; Max-Age=0; HttpOnly; SameSite=Strict; Secure".
Definition session_cookie (token : bytes) : bytes :=
  b_ "csqtt_session=" ++ token ++ b_ "; Path=/; Max-Age=86400; HttpOnly; SameSite=Strict; Secure".

Definition is_locked_out (limits : gmap bytes (Z * Z)) (source : bytes) (current : Z) : bool :=
  match limits !! source with Some (failures, expiry) => (current <? expiry) && (3 <=? failures) | None => false end.
Definition record_failed_login (limits : gmap bytes (Z * Z)) (source : bytes) (current : Z) : bool * gmap bytes (Z * Z) :=
  let limits := filter (fun kv => current < kv.2.2) limits in
  if bool_decide (limits !! source = None) && (MAX_LOGIN_LIMITS <=? Z.of_nat (size limits)) then (false, limits) else
  (true, <[source := match limits !! source with
                     | Some (failures, expiry) => if expiry <=? current then (1, current + 180) else (Z.min (failures + 1) U32_MAX, expiry)
                     | None => (1, current + 180)
                     end]> limits).
Definition web_session_insert (sessions : gmap bytes Z) (current : Z) (token : bytes) : bool * gmap bytes Z :=
  let sessions := filter (fun kv => current < kv.2) sessions in
  if MAX_WEB_SESSIONS <=? Z.of_nat (size sessions) then (false, sessions)
  else (true, <[hash_token token := current + 86400]> sessions).
Definition valid_login (w : Web) (r : LoginRequest) : bool :=
  bytes_eqb (caesar_decode (lg_user r)) (wb_user w) && bytes_eqb (caesar_decode (lg_pass r)) (wb_pass w).
(** What follows the check of the source; [token] is [random_token(32)]. *)
Definition login_failed (source : bytes) (current : Z) : ctl Response :=
  counted ← gets (fun a => (record_failed_login (wb_limits (ap_web a)) source current).1);
  _ ← modify (fun a => on_web a (fun w => set_wb_limits w (record_failed_login (wb_limits w) source current).2));
  mret (if (counted : bool) then text UNAUTHORIZED (b_ "invalid credentials") else text TOO_MANY_REQUESTS (b_ "too many login sources")).
Definition login_succeeded (source token : bytes) : ctl Response :=
  _ ← modify (fun a => on_web a (fun w => set_wb_limits w (delete source (wb_limits w))));
  _ ← pause;
  admitted ← gets (fun a => (web_session_insert (wb_sessions (ap_web a)) (ap_now a) token).1);
  _ ← modify (fun a => on_web a (fun w => set_wb_sessions w (web_session_insert (wb_sessions w) (ap_now a) token).2));
  mret (if (admitted : bool) then with_cookie (text OK (b_ "ok")) (session_cookie token)
        else text TOO_MANY_REQUESTS (b_ "too many active web sessions")).
Definition login (source : bytes) (r : LoginRequest) (seed : bytes) : ctl Response :=
  match validate_login_request r with
  | Some message => mret (text BAD_REQUEST message)
  | None =>
      current ← gets ap_now;
      locked_out ← gets (fun a => is_locked_out (wb_limits (ap_web a)) source current);
      if (locked_out : bool) then mret (text TOO_MANY_REQUESTS (b_ "too many attempts")) else
      _ ← pause;
      valid ← gets (fun a => valid_login (ap_web a) r);
      if (valid : bool) then login_succeeded source (base64_url seed) else login_failed source current
  end.
Definition logout (cookies : list bytes) : ctl Response :=
  _ ← modify (fun a => on_web a (fun w =>
        set_wb_sessions w (foldl (fun sessions token => delete (hash_token token) sessions) (wb_sessions w) (cookie_tokens cookies))));
  mret (with_cookie (text OK (b_ "ok")) expired_session_cookie).
Definition logout_all : ctl Response :=
  _ ← modify (fun a => on_web a (fun w => set_wb_sessions w ∅));
  mret (with_cookie (text OK (b_ "ok")) expired_session_cookie).
(** One turn of [web_session_janitor]. *)
Definition web_session_janitor (a : App) : App :=
  on_web a (fun w => set_wb_limits (set_wb_sessions w (filter (fun kv => ap_now a < kv.2) (wb_sessions w)))
                       (filter (fun kv => ap_now a < kv.2.2) (wb_limits w))).

(** ** Changes of the accounts *)

(** [app.db_persistence.submit(db.clone())], under the write lock. *)
Definition submit_database (d : Database) : ctl Z :=
  revision ← gets (fun a => (Persistence_submit (ap_persistence a) d).1);
  _ ← modify (fun a => set_ap_persistence (set_ap_db a d) (Persistence_submit (ap_persistence a) d).2);
  mret revision.
(** [db.write().await], a change, and its submission; [None] is an early return. *)
Definition change_database {A : Type} (f : App -> option (A * Database)) : ctl (option (A * Z)) :=
  _ ← pause;
  change ← gets f;
  match change with
  | None => mret None
  | Some (extra, d) => revision ← submit_database d; mret (Some (extra, revision))
  end.
(** The same where nothing can be refused. *)
Definition commit_database (f : App -> Database) : ctl Z := _ ← pause; d ← gets f; submit_database d.
Definition wait_for_persistence (revision : Z) : ctl (option Response) :=
  _ ← pause;
  outcome ← gets (fun a => wait (ap_persistence a) revision);
  mret match outcome with
       | Some None => None
       | Some (Some _) => Some (text INTERNAL_SERVER_ERROR (b_ "failed to persist change"))
       | None => Some (text GATEWAY_TIMEOUT (b_ "database persistence is taking too long; refresh before retrying"))
       end.
(** [refresh_credentials_report]: [true] if the reload succeeded. *)
Definition refresh_credentials_report : ctl bool := on_result refresh_credentials (fun _ => mret true) (fun _ => mret false).
Definition reloaded (r : Response) : ctl Response :=
  done ← refresh_credentials_report;
  mret (if (done : bool) then r else saved_with_warning (b_ "saved but reload failed")).
(** The wait, and what is done once the change is saved. *)
Definition once_saved (revision : Z) (rest : ctl Response) : ctl Response :=
  failed ← wait_for_persistence revision;
  match failed with Some response => mret response | None => rest end.

Record CreateClientRequest := mkCreate {
  cc_name : bytes; cc_days : Z; cc_hash : bytes; cc_dtls_port : option Z; cc_wg_port : option Z; cc_local_port : option Z;
}.
Definition client_dtls_port (r : CreateClientRequest) : Z := default 46000 (cc_dtls_port r).
Definition client_wg_port (r : CreateClientRequest) : Z := default 46001 (cc_wg_port r).
Definition client_local_port (r : CreateClientRequest) : Z := default 0 (cc_local_port r).
Definition client_ports (r : CreateClientRequest) : bytes :=
  to_string (client_dtls_port r) ++ COMMA :: to_string (client_wg_port r) ++ COMMA :: to_string (client_local_port r).
Definition client_expiry (now days : Z) : Z := if days =? 0 then 0 else sat_i64 (now + sat_i64 (days * 86400)).
(** The checks [clients_create] and [client_update] begin with. *)
Definition validate_client (r : CreateClientRequest) : bytes + bytes :=
  match validate_client_name (cc_name r) with
  | Some message => inl message
  | None => if (cc_days r <? 0) || (3650 <? cc_days r) then inl (b_ "days must be 0..3650") else normalize_client_vk_hashes (cc_hash r)
  end.
Definition without_expired_passwords (d : Database) (now : Z) : Database :=
  set_db_passwords d (filter (fun kv => is_expired kv.2 now = false) (db_passwords d)).
(** The first of the drawn passwords that is not in use. *)
Fixpoint free_password (d : Database) (draws : list bytes) : option bytes :=
  match draws with
  | [] => None
  | draw :: draws =>
      match random_password draw with
      | Ok candidate => if bool_decide (db_passwords d !! candidate = None) then Some candidate else free_password d draws
      | _ => None
      end
  end.
Definition new_entry (r : CreateClientRequest) (vk_hashes : bytes) (now : Z) : PasswordEntry :=
  mkEntry [] (client_expiry now (cc_days r)) 0 0 vk_hashes (client_ports r) false (cc_name r) vk_hashes
    (client_dtls_port r) (client_wg_port r) (client_local_port r).

Definition client_created (r : CreateClientRequest) (password vk_hashes : bytes) (entry : PasswordEntry) : ctl Response :=
  done ← refresh_credentials_report;
  mret (json [(b_ "password", JText password); (b_ "expires", JInt (pe_expires_at entry)); (b_ "dtls_port", JInt (client_dtls_port r));
              (b_ "wg_port", JInt (client_wg_port r)); (b_ "local_port", JInt (client_local_port r)); (b_ "vk_hashes", JText vk_hashes);
              (b_ "reload_error", if (done : bool) then JNull else JText (b_ "reload failed"))]).
(** [clients_create]: the expired passwords go before the limit is looked at.
    [draws] are the random bytes of the candidates. *)
Definition clients_create (r : CreateClientRequest) (draws : list bytes) : ctl Response :=
  match validate_client r with
  | inl message => mret (text BAD_REQUEST message)
  | inr vk_hashes =>
      _ ← pause;
      _ ← modify (fun a => set_ap_db a (without_expired_passwords (ap_db a) (ap_now a)));
      full ← gets (fun a => MAX_PASSWORDS <=? Z.of_nat (size (db_passwords (ap_db a))));
      if (full : bool) then mret (text BAD_REQUEST (b_ "limit reached")) else
      password ← gets (fun a => free_password (ap_db a) (take 64 draws));
      match password with
      | None => mret (status INTERNAL_SERVER_ERROR)
      | Some password =>
          entry ← gets (fun a => new_entry r vk_hashes (ap_now a));
          d ← gets (fun a => set_db_passwords (ap_db a) (<[password := entry]> (db_passwords (ap_db a))));
          revision ← submit_database d;
          once_saved revision (client_created r password vk_hashes entry)
      end
  end.
Definition updated_entry (e : PasswordEntry) (r : CreateClientRequest) (vk_hashes : bytes) (now : Z) : PasswordEntry :=
  mkEntry (pe_device_id e) (client_expiry now (cc_days r)) (pe_down_bytes e) (pe_up_bytes e) vk_hashes (client_ports r) (pe_is_deactivated e)
    (cc_name r) vk_hashes (client_dtls_port r) (client_wg_port r) (client_local_port r).
Definition set_entry_deactivated (e : PasswordEntry) (v : bool) : PasswordEntry :=
  mkEntry (pe_device_id e) (pe_expires_at e) (pe_down_bytes e) (pe_up_bytes e) (pe_vk_hash e) (pe_ports e) v
    (pe_name e) (pe_vk_hashes e) (pe_dtls_port e) (pe_wg_port e) (pe_local_port e).
(** [db.passwords.get_mut(&password)] and a change of the entry. *)
Definition change_entry (d : Database) (password : bytes) (f : PasswordEntry -> PasswordEntry) : option (unit * Database) :=
  match db_passwords d !! password with
  | Some e => Some (tt, set_db_passwords d (<[password := f e]> (db_passwords d)))
  | None => None
  end.
Definition client_update (password : bytes) (r : CreateClientRequest) : ctl Response :=
  match validate_client r with
  | inl message => mret (text BAD_REQUEST message)
  | inr vk_hashes =>
      change ← change_database (fun a => change_entry (ap_db a) password (fun e => updated_entry e r vk_hashes (ap_now a)));
      match change with
      | None => mret (status NOT_FOUND)
      | Some (_, revision) => once_saved revision (reloaded (status OK))
      end
  end.
Definition client_toggle (password : bytes) : ctl Response :=
  change ← change_database (fun a => change_entry (ap_db a) password (fun e => set_entry_deactivated e (negb (pe_is_deactivated e))));
  match change with
  | None => mret (status NOT_FOUND)
  | Some (_, revision) =>
      once_saved revision (_ ← modify (fun a => drop_password_sessions a password); reloaded (status OK))
  end.
Definition client_unbind (password : bytes) : ctl Response :=
  change ← change_database (fun a =>
    if bytes_eqb password (db_main_password (ap_db a)) then Some (tt, set_db_main_device_id (ap_db a) [])
    else change_entry (ap_db a) password (fun e => set_entry_device e []));
  match change with
  | None => mret (status NOT_FOUND)
  | Some (_, revision) => once_saved revision (_ ← modify (fun a => drop_password_sessions a password); mret (status OK))
  end.
Definition client_delete (password : bytes) : ctl Response :=
  _ ← pause;
  known ← gets (fun a => bool_decide (is_Some (db_passwords (ap_db a) !! password)));
  if negb known then mret (status NOT_FOUND) else
  _ ← modify (fun a => set_ap_derived_keys a (delete password (ap_derived_keys a)));
  d ← gets (fun a => set_db_passwords (ap_db a) (delete password (db_passwords (ap_db a))));
  revision ← submit_database d;
  once_saved revision (_ ← modify (fun a => drop_password_sessions a password); reloaded (status OK)).

(** ** Settings *)

Record SettingsRequest := mkSettings {
  st_main_password : option bytes; st_dns_provider : option bytes; st_dns_primary : option bytes; st_dns_secondary : option bytes;
  st_auto_restart_interval_hours : option Z;
}.
(** The DNS setting a request asks for, if any. *)
Definition requested_dns (r : SettingsRequest) : bytes + option bytes :=
  match st_dns_provider r with
  | Some id => match dns_provider_by_id id with Some p => inr (Some (provider_dns p)) | None => inl (b_ "unknown DNS provider") end
  | None =>
      match st_dns_primary r, st_dns_secondary r with
      | None, None => inr None
      | None, Some _ => inl (b_ "primary DNS is required")
      | Some primary, secondary =>
          let primary := trim primary in
          let secondary := trim (default [] secondary) in
          if bytes_eqb primary [] then inl (b_ "primary DNS is required") else
          if bool_decide (parse_ipv4 primary = None) || (negb (bytes_eqb secondary []) && bool_decide (parse_ipv4 secondary = None))
          then inl (b_ "DNS must be a valid IPv4 address")
          else inr (Some (if bytes_eqb secondary [] then primary else primary ++ COMMA :: secondary))
      end
  end.
Definition valid_main_password (p : option bytes) : bool :=
  match p with Some p => bytes_eqb p [] || ((4 <=? len p) && (len p <=? 128)) | None => true end.
Definition valid_interval (hours : option Z) : bool :=
  match hours with Some h => (h =? 0) || (h =? 12) || (h =? 24) || (h =? 48) || (h =? 72) | None => true end.
(** What the request changes: the retired main password, the new DNS setting,
    the database. *)
Definition replace_main_password (d : Database) (p : option bytes) : option bytes * Database :=
  match p with
  | Some p => if bytes_eqb (db_main_password d) p then (None, d) else (Some (db_main_password d), set_db_main_password d p)
  | None => (None, d)
  end.
Definition replace_dns (d : Database) (dns : option bytes) : option bytes * Database :=
  match dns with
  | Some v => if bytes_eqb (db_dns d) v then (None, d) else (Some v, set_db_dns d v)
  | None => (None, d)
  end.
Definition apply_settings (d : Database) (r : SettingsRequest) (dns : option bytes) : option bytes * option bytes * Database :=
  let '(retired, d) := replace_main_password d (st_main_password r) in
  let '(applied, d) := replace_dns d dns in
  (retired, applied, match st_auto_restart_interval_hours r with Some h => set_auto_restart_interval_hours d h | None => d end).
(** [wait] without a time-out. *)
Definition await_persistence (revision : Z) : ctl bool :=
  _ ← pause;
  outcome ← gets (fun a => wait (ap_persistence a) revision);
  match outcome with
  | Some None => mret true
  | Some (Some _) => mret false
  | None => fail_with StillWaiting
  end.
Definition apply_dns (dns : bytes) : ctl bool :=
  _ ← pause;
  _ ← modify (fun a => set_ap_dns a dns);
  on_result broadcast_tunnel_configuration (fun _ => mret true) (fun _ => mret false).
Definition settings_answer : ctl Response :=
  _ ← pause;
  changed ← gets (fun a => negb (bytes_eqb (db_main_password (ap_db a)) (wb_startup_main_password (ap_web a))));
  mret (json [(b_ "restart_required", JFlag changed)]).
Definition settings_saved (r : SettingsRequest) (retired applied : option bytes) : ctl Response :=
  _ ← modify (fun a => match st_auto_restart_interval_hours r with Some h => on_web a (fun w => set_wb_auto_restart_interval w h) | None => a end);
  _ ← modify (fun a => match retired with
                       | Some p => if bytes_eqb p [] then a else set_ap_derived_keys a (delete p (ap_derived_keys a))
                       | None => a end);
  reload ← (match retired with Some _ => refresh_credentials_report | None => mret true end);
  if negb reload then mret (saved_with_warning (b_ "saved but reload failed")) else
  match applied with
  | None => settings_answer
  | Some dns =>
      sent ← apply_dns dns;
      if (sent : bool) then settings_answer else mret (saved_with_warning (b_ "saved but DNS apply failed"))
  end.
Definition settings_post (r : SettingsRequest) : ctl Response :=
  if negb (valid_main_password (st_main_password r)) then mret (text BAD_REQUEST (b_ "password length must be 4..128 or empty")) else
  match requested_dns r with
  | inl message => mret (text BAD_REQUEST message)
  | inr dns =>
      if negb (valid_interval (st_auto_restart_interval_hours r))
      then mret (text BAD_REQUEST (b_ "auto restart interval must be 0, 12, 24, 48, or 72 hours")) else
      _ ← pause;
      '(retired, applied) ← gets (fun a => (apply_settings (ap_db a) r dns).1);
      d ← gets (fun a => (apply_settings (ap_db a) r dns).2);
      revision ← submit_database d;
      persisted ← await_persistence revision;
      if negb persisted then mret (text INTERNAL_SERVER_ERROR (b_ "failed to persist settings")) else
      settings_saved r retired applied
  end.
Record SettingsView := mkSettingsView {
  sv_main_password : bytes; sv_dns_provider : bytes; sv_dns_primary : bytes; sv_dns_secondary : bytes; sv_auto_restart_interval_hours : Z;
  sv_restart_required : bool;
}.
Definition settings_get (a : App) : SettingsView :=
  let d := ap_db a in
  let parts := splitn 2 COMMA (db_dns d) in
  mkSettingsView (db_main_password d) (default (b_ "custom") (dns_provider_id (db_dns d)))
    (trim (default (b_ "77.88.8.8") (parts !! 0%nat))) (trim (default (b_ "77.88.8.1") (parts !! 1%nat)))
    (Database_auto_restart_interval_hours d) (negb (bytes_eqb (db_main_password d) (wb_startup_main_password (ap_web a)))).

(** ** The list of clients *)

Record ClientInfo := mkClientInfo {
  ci_password : bytes; ci_down : Z; ci_up : Z; ci_expires : Z; ci_active : bool; ci_active_sessions : Z; ci_vk_hash : bytes; ci_ports : bytes;
  ci_device_id : bytes; ci_ip : bytes; ci_name : bytes; ci_vk_hashes : bytes; ci_dtls_port : Z; ci_wg_port : Z; ci_local_port : Z;
}.
Definition sessions_of_password (a : App) (password : bytes) : list Session :=
  filter (fun p => pub_password p = password) (live_sessions a).*2.
Definition device_ip (d : Database) (device_id otherwise : bytes) : bytes := default otherwise (cd_ip <$> db_devices d !! device_id).
(** The names the panel shows, in UTF-8. *)
Definition MAIN_NAME : bytes :=
  [0xd0; 0x93; 0xd0; 0xbb; 0xd0; 0xb0; 0xd0; 0xb2; 0xd0; 0xbd; 0xd1; 0x8b; 0xd0; 0xb9; 32; 0xd0; 0xbf; 0xd0; 0xb0; 0xd1; 0x80; 0xd0; 0xbe; 0xd0; 0xbb; 0xd1; 0x8c].
Definition SERVER_NAME : bytes := [0xd0; 0xa1; 0xd0; 0xb5; 0xd1; 0x80; 0xd0; 0xb2; 0xd0; 0xb5; 0xd1; 0x80].
Definition client_info (a : App) (kv : bytes * PasswordEntry) : ClientInfo :=
  let '(password, e) := kv in
  mkClientInfo password (pe_down_bytes e) (pe_up_bytes e) (pe_expires_at e) (negb (pe_is_deactivated e) && negb (is_expired e (ap_now a)))
    (len (sessions_of_password a password)) (pe_vk_hash e) (pe_ports e) (pe_device_id e) (device_ip (ap_db a) (pe_device_id e) [])
    (pe_name e) (pe_vk_hashes e) (pe_dtls_port e) (pe_wg_port e) (pe_local_port e).
(** The main password comes last, with the counters of one of its sessions. *)
Definition main_client (a : App) : list ClientInfo :=
  let d := ap_db a in
  if bytes_eqb (db_main_password d) [] then [] else
  let own := sessions_of_password a (db_main_password d) in
  let '(up, down) := match own with p :: _ => (as_i64 (pub_up_bytes p), as_i64 (pub_down_bytes p)) | [] => (0, 0) end in
  [mkClientInfo (db_main_password d) (as_i64 (u64_of (db_main_down_bytes d + down))) (as_i64 (u64_of (db_main_up_bytes d + up))) 0 true
     (len own) [] [] (db_main_device_id d) (device_ip d (db_main_device_id d) SERVER_NAME) MAIN_NAME [] 0 0 0].
Definition clients_get (a : App) : list ClientInfo := (client_info a <$> btree_iter (db_passwords (ap_db a))) ++ main_client a.

(** ** Logs and restart *)

Definition logs_toggle (active : bool) : ctl Response :=
  revision ← commit_database (fun a => set_db_logging_active (ap_db a) (Some active));
  once_saved revision (_ ← modify (fun a => on_web a (fun w => set_wb_logging_active w active)); mret (status OK)).
Definition logs_clear : ctl Response := _ ← modify (fun a => on_web a (fun w => set_wb_logs w [])); mret (status OK).
(** [failure] is what [request_managed_restart] reports. *)
Definition reboot (failure : option bytes) : ctl Response :=
  pending ← gets (fun a => wb_restart_pending (ap_web a));
  _ ← modify (fun a => on_web a (fun w => set_wb_restart_pending w true));
  if (pending : bool) then mret (status ACCEPTED) else
  match failure with
  | None => mret (status ACCEPTED)
  | Some error => _ ← modify (fun a => on_web a (fun w => set_wb_restart_pending w false)); mret (text INTERNAL_SERVER_ERROR (b_ "restart failed: " ++ error))
  end.

(** ** Profiles of the local proxy *)

Record ProfileRequest := mkProfileRequest { pr_name : bytes; pr_port : Z; pr_username : bytes; pr_password : bytes }.
Definition requested_port (r : ProfileRequest) : Z := if pr_port r =? 0 then DEFAULT_LOCAL_PROXY_PORT else pr_port r.
Definition set_profiles (d : Database) (profiles : list LocalProxyProfile) : Database :=
  set_db_local_proxy d (mkProxyState (lp_active_profile_id (db_local_proxy d)) profiles).
(** [notify_one]: the monitor will look at the settings. *)
Definition notify_proxy (a : App) : App := on_web a (fun w => set_wb_proxy_notified w true).
(** [id] is what [new_id()] draws: an oracle, which may know the profiles there
    are when the new one is added.  [listening] is what [port_is_listening]
    finds. *)
Definition new_profile (r : ProfileRequest) (id : bytes) : LocalProxyProfile :=
  let port := requested_port r in
  mkProfile id (if bytes_eqb (pr_name r) [] then b_ "SOCKS5 :" ++ to_string port else pr_name r) port (pr_username r) (pr_password r).
Definition local_proxy_create (r : ProfileRequest) (id : LocalProxyState -> bytes) (listening : bool) : ctl Response :=
  match validate_proxy_profile_name (pr_name r) with
  | Some message => mret (text BAD_REQUEST message)
  | None =>
      match validate_config (new_profile r []) with
      | Some message => mret (text BAD_REQUEST message)
      | None =>
          change ← change_database (fun a =>
            let s := db_local_proxy (ap_db a) in
            if 20 <=? len (lp_profiles s) then None
            else Some (id s, set_profiles (ap_db a) (lp_profiles s ++ [new_profile r (id s)])));
          match change with
          | None => mret (text BAD_REQUEST (b_ "Too many profiles (max 20)"))
          | Some (id, revision) => once_saved revision (mret (json [(b_ "id", JText id); (b_ "port_listening", JFlag listening)]))
          end
      end
  end.
Fixpoint update_profile (profiles : list LocalProxyProfile) (id : bytes) (f : LocalProxyProfile -> LocalProxyProfile) : list LocalProxyProfile :=
  match profiles with
  | [] => []
  | p :: profiles => if bytes_eqb (lp_id p) id then f p :: profiles else p :: update_profile profiles id f
  end.
Definition local_proxy_update (id : bytes) (r : ProfileRequest) (listening : bool) : ctl Response :=
  match validate_proxy_profile_name (pr_name r) with
  | Some message => mret (text BAD_REQUEST message)
  | None =>
      let port := requested_port r in
      match validate_config (mkProfile id (pr_name r) port (pr_username r) (pr_password r)) with
      | Some message => mret (text BAD_REQUEST message)
      | None =>
          change ← change_database (fun a =>
            let s := db_local_proxy (ap_db a) in
            match find_profile s id with
            | None => None
            | Some _ => Some (bytes_eqb (lp_active_profile_id s) id,
                set_profiles (ap_db a) (update_profile (lp_profiles s) id (fun p =>
                  mkProfile (lp_id p) (if bytes_eqb (pr_name r) [] then lp_name p else pr_name r) port (pr_username r) (pr_password r))))
            end);
          match change with
          | None => mret (text NOT_FOUND (b_ "Profile not found"))
          | Some (was_active, revision) =>
              once_saved revision (_ ← modify (fun a => if (was_active : bool) then notify_proxy a else a);
                mret (json [(b_ "updated", JFlag true); (b_ "port_listening", JFlag listening)]))
          end
      end
  end.
Definition local_proxy_delete (id : bytes) : ctl Response :=
  change ← change_database (fun a =>
    let s := db_local_proxy (ap_db a) in
    let '(removed, s') := remove_profile s id in
    if (removed : bool) then Some (bytes_eqb (lp_active_profile_id s) id, set_db_local_proxy (ap_db a) s') else None);
  match change with
  | None => mret (text NOT_FOUND (b_ "Profile not found"))
  | Some (was_active, revision) =>
      once_saved revision (_ ← modify (fun a => if (was_active : bool) then notify_proxy a else a); mret (json [(b_ "deleted", JFlag true)]))
  end.
(** The polls of [wait_proxy_route_applied] until its deadline. *)
Fixpoint wait_proxy_route_applied (rounds : nat) (want_active : bool) : ctl (option bytes) :=
  match rounds with
  | O => mret (Some (b_ "route is still applying; check status in a few seconds"))
  | S rounds =>
      _ ← pause;
      '(route, error) ← gets (fun a => (wb_proxy_route (ap_web a), wb_proxy_health_error (ap_web a)));
      if want_active then
        if (route : bool) && bool_decide (error = None) then mret None else
        match error with Some e => mret (Some e) | None => wait_proxy_route_applied rounds want_active end
      else if (route : bool) then wait_proxy_route_applied rounds want_active else mret None
  end.
Definition route_answer (rounds : nat) (want_active : bool) (field : string) : ctl Response :=
  _ ← modify notify_proxy;
  failed ← wait_proxy_route_applied rounds want_active;
  mret match failed with None => json [(b_ field, JFlag true)] | Some error => text BAD_GATEWAY error end.
Definition local_proxy_activate (id : bytes) (rounds : nat) : ctl Response :=
  change ← change_database (fun a =>
    let s := db_local_proxy (ap_db a) in
    match find_profile s id with
    | None => None
    | Some _ => Some (tt, set_db_local_proxy (ap_db a) (mkProxyState id (lp_profiles s)))
    end);
  match change with
  | None => mret (text NOT_FOUND (b_ "Profile not found"))
  | Some (_, revision) => once_saved revision (route_answer rounds true "activated")
  end.
Definition local_proxy_deactivate (rounds : nat) : ctl Response :=
  revision ← commit_database (fun a => set_db_local_proxy (ap_db a) (mkProxyState [] (lp_profiles (db_local_proxy (ap_db a)))));
  once_saved revision (route_answer rounds false "deactivated").

(** ** The routes *)

(** The protected routes that change something, with the answers of what is
    outside. *)
Inductive PanelCall :=
| SettingsPost (r : SettingsRequest)
| ClientsCreate (r : CreateClientRequest) (draws : list bytes)
| ClientUpdate (password : bytes) (r : CreateClientRequest)
| ClientDelete (password : bytes)
| ClientToggle (password : bytes)
| ClientUnbind (password : bytes)
| LogsToggle (active : bool)
| LogsClear
| LocalProxyCreate (r : ProfileRequest) (id : LocalProxyState -> bytes) (listening : bool)
| LocalProxyUpdate (id : bytes) (r : ProfileRequest) (listening : bool)
| LocalProxyDelete (id : bytes)
| LocalProxyActivate (id : bytes) (rounds : nat)
| LocalProxyDeactivate (rounds : nat)
| Logout
| LogoutAll
| Reboot (failure : option bytes).
Definition panel_call (cookies : list bytes) (c : PanelCall) : ctl Response :=
  match c with
  | SettingsPost r => settings_post r
  | ClientsCreate r draws => clients_create r draws
  | ClientUpdate password r => client_update password r
  | ClientDelete password => client_delete password
  | ClientToggle password => client_toggle password
  | ClientUnbind password => client_unbind password
  | LogsToggle active => logs_toggle active
  | LogsClear => logs_clear
  | LocalProxyCreate r id listening => local_proxy_create r id listening
  | LocalProxyUpdate id r listening => local_proxy_update id r listening
  | LocalProxyDelete id => local_proxy_delete id
  | LocalProxyActivate id rounds => local_proxy_activate id rounds
  | LocalProxyDeactivate rounds => local_proxy_deactivate rounds
  | Logout => logout cookies
  | LogoutAll => logout_all
  | Reboot failure => reboot failure
  end.
Definition auth_middleware (cookies : list bytes) (next : ctl Response) : ctl Response :=
  allowed ← gets (fun a => authorized a cookies);
  if (allowed : bool) then next
  else mret (match cookie_tokens cookies with [] => status UNAUTHORIZED | _ => with_cookie (status UNAUTHORIZED) expired_session_cookie end).
Inductive PanelRequest :=
| Login (source : bytes) (r : LoginRequest) (seed : bytes)
| Protected (c : PanelCall).
Definition panel_request (cookies : list bytes) (r : PanelRequest) : ctl Response :=
  match r with
  | Login source r seed => login source r seed
  | Protected c => auth_middleware cookies (panel_call cookies c)
  end.

End Panel.
