(* ===== verification/PanelProps.v ===== *)
(** * Theorems about the web panel

    Who gets in, how many guesses a source has, what the handlers do to the
    accounts, and that they keep the invariant of [ControlInv] together with
    the control task. *)

From S2P Require Import Prelude StreamControl Text Getconf Sink Engine Accounts Control ControlInv ControlProps Panel.

Section PanelProps.
Context `{KT : KeyTools} `{PT : PanelTools}.

(** ** The accounts *)

Lemma stable_commit_database f : (forall a, app_ok a -> accounts_ok (f a)) -> keeps_ok (commit_database f).
Proof.
  intros Hf. unfold commit_database. stable_step; [stable_auto|]. intros t [[Ha Hk Hp] Ho]. split; [done|]. split; [|done].
  pose proof (Hf (tk_app t) ltac:(by split)) as Hok. split; [done|done|]. apply durable_submit, Hok.
Qed.
Lemma stable_change_database {A : Type} (f : App -> option (A * Database)) :
  (forall a x d, app_ok a -> f a = Some (x, d) -> accounts_ok d) -> keeps_ok (change_database f).
Proof.
  intros Hf. unfold change_database. stable_step; [stable_auto|]. intros t [[Ha Hk Hp] Ho]. unfold mbind, effect_bind, gets at 1.
  destruct (f (tk_app t)) as [[x d]|] eqn:E; [|done]. pose proof (Hf (tk_app t) x d ltac:(by split) E) as Hok.
  split; [done|]. split; [|done]. split; [done|done|]. apply durable_submit, Hok.
Qed.
Lemma same_web a f : same_accounts a (on_web a f).
Proof. by split. Qed.
#[local] Hint Resolve same_web : csqtt.
Lemma stable_wait revision : keeps_ok (wait_for_persistence revision).
Proof. unfold wait_for_persistence. stable_auto. Qed.
Lemma stable_report : keeps_ok refresh_credentials_report.
Proof. apply stable_on_result; [apply stable_refresh|intros; stable_auto..]. Qed.
Lemma stable_reloaded r : keeps_ok (reloaded r).
Proof. unfold reloaded. pose proof stable_report. stable_auto. Qed.
Lemma stable_once_saved revision rest : keeps_ok rest -> keeps_ok (once_saved revision rest).
Proof. intros Hr. unfold once_saved. pose proof stable_wait. stable_auto. Qed.
Lemma stable_drop_keys password : keeps_ok (modify (fun a => set_ap_derived_keys a (delete password (ap_derived_keys a)))).
Proof. apply stable_modify. intros a [Ha Hk Hp]. split; [done| |done]. intros p k. cbn. rewrite lookup_delete_Some. intros [_ ?]. by apply Hk. Qed.

Lemma change_entry_ok d password f x d' : accounts_ok d -> change_entry d password f = Some (x, d') -> accounts_ok d'.
Proof. unfold change_entry. intros Hd. case_match; [|done]. intros [= _ <-]. by apply (accounts_same d). Qed.
Lemma stable_update password r : keeps_ok (client_update password r).
Proof.
  unfold client_update. destruct (validate_client r); [stable_auto|]. stable_step; [|destruct a as [[]|]; [apply stable_once_saved, stable_reloaded|stable_auto]].
  apply stable_change_database. intros a x d [Ha _ _]. by apply change_entry_ok.
Qed.
Lemma stable_toggle password : keeps_ok (client_toggle password).
Proof.
  unfold client_toggle. stable_step; [apply stable_change_database; intros a x d [Ha _ _]; by apply change_entry_ok|].
  destruct a as [[]|]; [|stable_auto]. apply stable_once_saved. stable_step; [stable_auto|apply stable_reloaded].
Qed.
Lemma stable_unbind password : keeps_ok (client_unbind password).
Proof.
  unfold client_unbind. stable_step; [|destruct a as [[]|]; [apply stable_once_saved; stable_auto|stable_auto]].
  apply stable_change_database. intros a x d [Ha _ _]. case_match; [intros [= _ <-]; by apply (accounts_same (ap_db a))|by apply change_entry_ok].
Qed.
(** [gets f ≫= submit_database], in one step. *)
Lemma stable_gets_submit {B : Type} (f : App -> Database) (k : Z -> ctl B) (Q : B -> Prop) : (forall a, app_ok a -> accounts_ok (f a)) ->
  (forall revision, stable (k revision) Q) -> stable (d ← gets f; revision ← submit_database d; k revision) Q.
Proof.
  intros Hf Hk t Ht. pose proof Ht as [[Ha Hkeys Hp] Ho]. pose proof (Hf (tk_app t) (proj1 Ht)) as Hok.
  unfold submit_database. unfold mbind, effect_bind, gets, modify, mret, effect_ret. cbn [tk_app tk_others tk_locks].
  apply Hk. split; [|done]. split; [done|done|]. apply durable_submit, Hok.
Qed.
Lemma stable_delete password : keeps_ok (client_delete password).
Proof.
  unfold client_delete. stable_step; [stable_auto|]. stable_step; [stable_auto|]. stable_step; [stable_auto|]. stable_step; [apply stable_drop_keys|].
  apply stable_gets_submit; [intros b [Ha _ _]; by apply drop_entry_ok|]. intros revision. apply stable_once_saved. stable_step; [stable_auto|apply stable_reloaded].
Qed.
Lemma apply_settings_ok d r dns : accounts_ok d -> valid_interval (st_auto_restart_interval_hours r) = true -> accounts_ok (apply_settings d r dns).2.
Proof.
  intros Hd Hv. unfold apply_settings. destruct (replace_main_password d _) as [retired d1] eqn:E1. destruct (replace_dns d1 dns) as [applied d2] eqn:E2.
  assert (H1 : accounts_ok d1) by (unfold replace_main_password in E1; repeat case_match; simplify_eq; [done|by apply (accounts_same d)|done]).
  assert (H2 : accounts_ok d2) by (unfold replace_dns in E2; repeat case_match; simplify_eq; [done|by apply (accounts_same d1)|done]).
  cbn [snd]. destruct (st_auto_restart_interval_hours r) as [h|]; [|done].
  destruct H2 as [[Hk Hprof _] ? ?]. split; [split; [done|done|]|done|done]. cbn in *. lia.
Qed.
Lemma stable_apply_dns dns : keeps_ok (apply_dns dns).
Proof.
  unfold apply_dns. stable_step; [stable_auto|]. stable_step; [stable_auto|]. apply stable_on_result; [apply stable_broadcast|intros; stable_auto..].
Qed.
Lemma stable_settings_saved r retired applied : keeps_ok (settings_saved r retired applied).
Proof.
  unfold settings_saved, settings_answer. pose proof stable_report. pose proof stable_apply_dns. stable_step; [stable_auto|]. stable_step; [|stable_auto].
  destruct retired as [p|]; [|stable_auto]. destruct (bytes_eqb p []); [stable_auto|apply stable_drop_keys].
Qed.
Lemma stable_settings r : keeps_ok (settings_post r).
Proof.
  unfold settings_post. case_match; [stable_auto|]. destruct (requested_dns r) as [|dns]; [stable_auto|].
  destruct (valid_interval _) eqn:Hv; cbn [negb]; [|stable_auto].
  stable_step; [stable_auto|]. stable_step; [stable_auto|]. destruct a0 as [retired applied].
  apply stable_gets_submit; [intros b [Hb _ _]; by apply apply_settings_ok|]. intros revision. unfold await_persistence.
  pose proof (stable_settings_saved r retired applied). stable_auto.
Qed.

Lemma accounts_profiles d s : accounts_ok d -> NoDup (lp_id <$> lp_profiles s) -> accounts_ok (set_db_local_proxy d s).
Proof. intros [[Hk Hp Hh] ? ?] Hs. split; [split; done|done|done]. Qed.
Lemma update_profile_ids profiles id f : (forall p, lp_id (f p) = lp_id p) -> lp_id <$> update_profile profiles id f = lp_id <$> profiles.
Proof. intros Hf. induction profiles as [|p l IH]; [done|]. cbn. case_match; cbn; [by rewrite Hf|by rewrite IH]. Qed.
Lemma stable_route rounds want field : keeps_ok (route_answer rounds want field).
Proof.
  assert (Hw : keeps_ok (wait_proxy_route_applied rounds want)).
  { induction rounds as [|n IH]; cbn [wait_proxy_route_applied]; [stable_auto|]. stable_auto. }
  unfold route_answer. stable_step; [apply stable_same; intros; apply same_web|]. stable_auto.
Qed.
Lemma stable_logs active : keeps_ok (logs_toggle active).
Proof.
  unfold logs_toggle. stable_step; [apply stable_commit_database; intros b [Hb _ _]; by apply (accounts_same (ap_db b))|].
  apply stable_once_saved. stable_auto.
Qed.
Lemma stable_reboot failure : keeps_ok (reboot failure).
Proof. unfold reboot. stable_auto. Qed.
(** The draw is none of the identifiers in use. *)
Definition draws_fresh (id : LocalProxyState -> bytes) : Prop := forall s, id s ∉ lp_id <$> lp_profiles s.
Lemma stable_profile_create r id listening : draws_fresh id -> keeps_ok (local_proxy_create r id listening).
Proof.
  intros Hid. unfold local_proxy_create. case_match; [stable_auto|]. case_match; [stable_auto|].
  stable_step; [|destruct a as [[]|]; [apply stable_once_saved; stable_auto|stable_auto]].
  apply stable_change_database. intros a x d [Ha _ _]. cbv zeta. case_match; [done|]. intros [= _ <-]. apply accounts_profiles; [done|].
  cbn [lp_profiles]. rewrite fmap_app. apply NoDup_app. split_and!; [apply Ha| |apply NoDup_singleton].
  intros i Hi Hn. apply list_elem_of_singleton in Hn. subst i. exact (Hid _ Hi).
Qed.
Lemma stable_profile_update id r listening : keeps_ok (local_proxy_update id r listening).
Proof.
  unfold local_proxy_update. case_match; [stable_auto|]. case_match; [stable_auto|].
  stable_step; [|destruct a as [[[] ]|]; [apply stable_once_saved; stable_auto|apply stable_once_saved; stable_auto|stable_auto]].
  apply stable_change_database. intros a x d [Ha _ _]. cbv zeta. case_match; [|done]. intros [= _ <-]. apply accounts_profiles; [done|].
  cbn [lp_profiles]. rewrite update_profile_ids by done. apply Ha.
Qed.
Lemma stable_profile_delete id : keeps_ok (local_proxy_delete id).
Proof.
  unfold local_proxy_delete. stable_step; [|destruct a as [[[] ]|]; [apply stable_once_saved; stable_auto|apply stable_once_saved; stable_auto|stable_auto]].
  apply stable_change_database. intros a x d [Ha _ _]. unfold remove_profile. cbv zeta. case_match; [|done]. intros [= _ <-]. apply accounts_profiles; [done|].
  cbn [lp_profiles]. eapply sublist_NoDup; [apply Ha|]. apply fmap_sublist, sublist_filter.
Qed.
Lemma stable_activate_profile id rounds : keeps_ok (local_proxy_activate id rounds).
Proof.
  unfold local_proxy_activate. stable_step; [|destruct a as [[]|]; [apply stable_once_saved, stable_route|stable_auto]].
  apply stable_change_database. intros a x d [Ha _ _]. cbv zeta. case_match; [|done]. intros [= _ <-]. apply accounts_profiles; [done|]. apply Ha.
Qed.
Lemma stable_deactivate rounds : keeps_ok (local_proxy_deactivate rounds).
Proof.
  unfold local_proxy_deactivate. stable_step; [|apply stable_once_saved, stable_route].
  apply stable_commit_database. intros a [Ha _ _]. apply accounts_profiles; [done|]. apply Ha.
Qed.
Lemma stable_login source r seed : keeps_ok (login source r seed).
Proof. unfold login, login_failed, login_succeeded. stable_auto. Qed.

(** The answers of [clients_create] that leave the accounts unsaved: the expired
    passwords are out of the table, and nothing was submitted. *)
Definition limit_reached : Response := text BAD_REQUEST (b_ "limit reached").
Definition unsaved_answers : list Response := [limit_reached; status INTERNAL_SERVER_ERROR].
Definition sound_if_saved (m : ctl Response) : Prop :=
  forall t, task_ok t -> match m t with
    | (Ok r, t') => r ∉ unsaved_answers -> task_ok t'
    | (Err _, t') => task_ok t'
    | (Panic, _) => False
    end.
Lemma stable_sound m : keeps_ok m -> sound_if_saved m.
Proof. intros Hm t Ht. specialize (Hm t Ht). destruct (m t) as [[]]; [by intros _; apply Hm|done|done]. Qed.
Lemma create_entry_ok d now password entry : accounts_ok d ->
  accounts_ok (set_db_passwords (without_expired_passwords d now) (<[password := entry]> (db_passwords (without_expired_passwords d now)))).
Proof. by apply accounts_same. Qed.
Lemma create_sound r draws : sound_if_saved (clients_create r draws).
Proof.
  unfold clients_create. destruct (validate_client r) as [message|vk]; [apply stable_sound; stable_auto|].
  intros t Ht. pose proof (stable_pause t Ht) as Hp. unfold mbind, effect_bind at 1. destruct (pause t) as [[[]|e|] t1]; [|done..]. destruct Hp as [_ Hp]. clear t Ht.
  unfold effect_bind at 1, modify at 1. unfold effect_bind at 1, gets at 1. cbn [tk_app tk_others tk_locks].
  match goal with |- context [MAX_PASSWORDS <=? ?n] => destruct (MAX_PASSWORDS <=? n) end; [intros Hno; destruct Hno; by left|]. unfold effect_bind at 1, gets at 1. cbn [tk_app tk_others tk_locks].
  destruct (free_password (ap_db (set_ap_db (tk_app t1) (without_expired_passwords (ap_db (tk_app t1)) (ap_now (tk_app t1))))) (take 64 draws)) as [password|];
    [|intros Hno; destruct Hno; by right; left].
  unfold effect_bind at 1, gets at 1. unfold effect_bind at 1, gets at 1. cbn [tk_app tk_others tk_locks].
  unfold submit_database, mbind. unfold effect_bind at 1 2 3, gets at 1, modify at 1, mret, effect_ret. cbn [tk_app tk_others tk_locks ap_db ap_persistence set_ap_db].
  apply stable_sound; [apply stable_once_saved; unfold client_created; pose proof stable_report; stable_auto|].
  destruct Hp as [[Ha Hk Hd] Ho]. split; [|done]. pose proof (create_entry_ok (ap_db (tk_app t1)) (ap_now (tk_app t1)) password (new_entry r vk (ap_now (tk_app t1))) Ha) as Hok.
  split; [exact Hok|done|]. apply durable_submit, Hok.
Qed.

Definition call_ok (c : PanelCall) : Prop := match c with LocalProxyCreate _ id _ => draws_fresh id | _ => True end.
Lemma call_sound cookies c : call_ok c -> sound_if_saved (panel_call cookies c).
Proof.
  destruct c; intros Hok; cbn [panel_call]; try (apply create_sound); apply stable_sound;
    first [ apply stable_settings | apply stable_update | apply stable_delete | apply stable_toggle | apply stable_unbind | apply stable_logs
          | by apply stable_profile_create | apply stable_profile_update | apply stable_profile_delete | apply stable_activate_profile
          | apply stable_deactivate | apply stable_reboot | unfold logs_clear, logout, logout_all; stable_auto ].
Qed.
Definition request_ok (r : PanelRequest) : Prop := match r with Protected c => call_ok c | Login _ _ _ => True end.
Lemma request_sound cookies r : request_ok r -> sound_if_saved (panel_request cookies r).
Proof.
  destruct r as [source lr seed|c]; intros Hok; cbn [panel_request]; [apply stable_sound, stable_login|].
  intros t Ht. unfold auth_middleware, mbind, effect_bind, gets. destruct (authorized (tk_app t) cookies); [by apply call_sound|]. by intros _.
Qed.

(** What runs on the server: the control task, its janitors, and the panel. *)
Inductive server_work := Controls (w : control_work) | Asks (cookies : list bytes) (r : PanelRequest) | PanelJanitor.
Definition server_step (w : server_work) : ctl (list Response) :=
  match w with
  | Controls w => _ ← run_work w; mret []
  | Asks cookies r => response ← panel_request cookies r; mret [response]
  | PanelJanitor => _ ← modify web_session_janitor; mret []
  end.
Definition server_ok (w : server_work) : Prop :=
  match w with Controls w => work_ok w | Asks _ r => request_ok r | PanelJanitor => True end.
Definition all_saved (rs : list Response) : bool := forallb (fun r => negb (bool_decide (r ∈ unsaved_answers))) rs.
(** Any sequence of them, up to the first answer that leaves something unsaved. *)
Fixpoint run_server (ws : list server_work) : ctl (list Response) :=
  match ws with
  | [] => mret []
  | w :: ws =>
      here ← on_result (server_step w) (fun rs => mret rs) (fun _ => mret []);
      if all_saved here then rest ← run_server ws; mret (here ++ rest) else mret here
  end.
Lemma step_sound w t : server_ok w -> task_ok t ->
  exists rs t', on_result (server_step w) (fun rs => mret rs) (fun _ => mret []) t = (Ok rs, t') /\ (all_saved rs = true -> task_ok t').
Proof.
  intros Hw Ht. unfold on_result. destruct w as [w|cookies r|]; cbn [server_step].
  - pose proof (work_stable w Hw t Ht) as Hs. unfold mbind, effect_bind. destruct (run_work w t) as [[[]|e|] t']; [| |done].
    + exists [], t'. split; [done|]. by intros _; apply Hs.
    + by exists [], t'.
  - pose proof (request_sound cookies r Hw t Ht) as Hs. unfold mbind, effect_bind. destruct (panel_request cookies r t) as [[resp|e|] t']; [| |done].
    + exists [resp], t'. split; [done|]. intros Hsaved. apply Hs. cbn in Hsaved. rewrite andb_true_r in Hsaved. by apply negb_true_iff, bool_decide_eq_false in Hsaved.
    + by exists [], t'.
  - exists [], (mkTask (web_session_janitor (tk_app t)) (tk_others t) (tk_locks t)). split; [done|]. intros _. destruct Ht as [Ha Ho]. split; [|done].
    by apply (same_ok (tk_app t)).
Qed.

Lemma run_server_ok ws t : task_ok t -> Forall server_ok ws ->
  exists rs t', run_server ws t = (Ok rs, t') /\ (all_saved rs = true -> app_ok (tk_app t')).
Proof.
  intros Ht Hw. revert t Ht.
  induction ws as [|w ws IH]; intros t Ht; [exists [], t; split; [done|]; intros _; apply Ht|]. apply Forall_cons in Hw as [Hw Hws].
  destruct (step_sound w t Hw Ht) as (here & t1 & Hstep & Hok). cbn [run_server]. rewrite (effect_step _ _ _ _ _ Hstep).
  destruct (all_saved here) eqn:Hs; [|exists here, t1; split; [done|congruence]].
  destruct (IH Hws t1 (Hok eq_refl)) as (rest & t2 & Hrest & Hfin). exists (here ++ rest), t2. rewrite (effect_step _ _ _ _ _ Hrest). split; [done|].
  unfold all_saved in *. rewrite forallb_app, Hs. exact Hfin.
Qed.
(** What the panel and the control task do to the application, seen from another task. *)
Definition served_meanwhile (ws : list server_work) (locks : list bool) (a : App) : App :=
  match run_server ws (mkTask a [] locks) with (Ok rs, t) => if all_saved rs then tk_app t else a | _ => a end.


(** ** A refused creation *)

Lemma janitor_idle a : (forall p, expired_at (ap_now a) (ap_db a) p = false) -> does run_password_janitor_cycle a tt a.
Proof.
  intros Hno. assert (Hnil : expired_passwords (ap_now a) (ap_db a) = []).
  { destruct (expired_passwords (ap_now a) (ap_db a)) as [|p l] eqn:E; [done|]. assert (Hin : p ∈ expired_passwords (ap_now a) (ap_db a)) by (rewrite E; by left).
    apply expired_passwords_elem in Hin. by rewrite Hno in Hin. }
  unfold run_password_janitor_cycle. eapply does_bind; [apply does_db_lock|]. cbn [negb]. eapply does_bind; [apply does_gets|].
  fold (expired_passwords (ap_now a) (ap_db a)). rewrite Hnil. apply does_ret.
Qed.
Lemma without_expired_lookup d now p :
  db_passwords (without_expired_passwords d now) !! p = match db_passwords d !! p with Some e => if is_expired e now then None else Some e | None => None end.
Proof.
  cbn [without_expired_passwords db_passwords set_db_passwords]. destruct (db_passwords d !! p) as [e|] eqn:E.
  - destruct (is_expired e now) eqn:He.
    + apply map_lookup_filter_None. right. intros e' He'. cbn. rewrite E in He'. injection He' as <-. by rewrite He.
    + by apply map_lookup_filter_Some.
  - apply map_lookup_filter_None. by left.
Qed.

(** A creation refused for the limit half-happens.  The expired passwords
    leave the accounts in memory and are not submitted, so that a restart brings
    them back; and since they are gone, the janitor finds nothing to do: their
    sessions stay in the table and the engine keeps their credentials. *)
Theorem refused_creation_half_happens r draws vk_hashes a password e :
  app_ok a -> validate_client r = inr vk_hashes -> db_passwords (ap_db a) !! password = Some e -> is_expired e (ap_now a) = true ->
  MAX_PASSWORDS <= Z.of_nat (size (db_passwords (without_expired_passwords (ap_db a) (ap_now a)))) ->
  exists a', does (clients_create r draws) a limit_reached a' /\ db_passwords (ap_db a') !! password = None
    /\ ap_persistence a' = ap_persistence a /\ ~ durable (ap_db a') (ap_persistence a')
    /\ does run_password_janitor_cycle a' tt a'
    /\ ap_sessions a' = ap_sessions a /\ ap_public a' = ap_public a /\ ap_commands a' = ap_commands a /\ ap_credentials a' = ap_credentials a.
Proof.
  intros [_ _ [_ Hrows]] Hr Hp He Hfull. set (d := without_expired_passwords (ap_db a) (ap_now a)) in *.
  assert (Hgone : db_passwords d !! password = None) by (unfold d; by rewrite without_expired_lookup, Hp, He).
  exists (set_ap_db a d). split_and!; [|done|done| | |done|done|done|done].
  - unfold clients_create. rewrite Hr. eapply does_bind; [apply does_pause|]. eapply does_bind; [apply does_modify|]. fold d.
    eapply does_bind; [apply does_gets|]. cbn [ap_db set_ap_db]. rewrite (proj2 (Z.leb_le _ _) Hfull). apply does_ret.
  - intros [_ Hd]. change (ap_persistence (set_ap_db a d)) with (ap_persistence a) in Hd. rewrite Hrows in Hd.
    apply (f_equal db_passwords) in Hd. change (db_passwords (ap_db a) = db_passwords d) in Hd. congruence.
  - apply janitor_idle. intros q. unfold expired_at. cbn [ap_db set_ap_db ap_now]. unfold d. rewrite without_expired_lookup.
    destruct (db_passwords (ap_db a) !! q) as [f|]; [|done]. by destruct (is_expired f (ap_now a)) eqn:Hf.
Qed.

(** ** Sessions of the panel *)

(** What happens to them, in order; time passes between. *)
Inductive session_event := Issue (token : bytes) | LogoutOf (cookies : list bytes) | LogoutEverybody | Sweep | Pass (seconds : Z).
Definition session_step (a : App) (ev : session_event) : App :=
  match ev with
  | Issue token => on_web a (fun w => set_wb_sessions w (web_session_insert (wb_sessions w) (ap_now a) token).2)
  | LogoutOf cookies => tk_app (logout cookies (alone a)).2
  | LogoutEverybody => tk_app (logout_all (alone a)).2
  | Sweep => web_session_janitor a
  | Pass seconds => set_ap_now a (ap_now a + seconds)
  end.
(** The specification: every token that was handed out and not taken back, and
    when; at most 256 at a time. *)
Record issued_spec := mkIssued { is_tokens : gmap bytes Z; is_now : Z }.
Definition current_tokens (s : issued_spec) : gmap bytes Z := filter (fun kv => is_now s < kv.2 + 86400) (is_tokens s).
Definition issued_step (s : issued_spec) (ev : session_event) : issued_spec :=
  match ev with
  | Issue token => if MAX_WEB_SESSIONS <=? Z.of_nat (size (current_tokens s)) then s else mkIssued (<[hash_token token := is_now s]> (is_tokens s)) (is_now s)
  | LogoutOf cookies => mkIssued (foldl (fun m token => delete (hash_token token) m) (is_tokens s) (cookie_tokens cookies)) (is_now s)
  | LogoutEverybody => mkIssued ∅ (is_now s)
  | Sweep => s
  | Pass seconds => mkIssued (is_tokens s) (is_now s + seconds)
  end.
Definition token_current (s : issued_spec) (token : bytes) : bool :=
  match is_tokens s !! hash_token token with Some at_ => is_now s <? at_ + 86400 | None => false end.

(** The table agrees with the specification on what has not run out. *)
Definition tokens_agree (s : issued_spec) (a : App) : Prop :=
  is_now s = ap_now a /\ forall h, (expiry ← wb_sessions (ap_web a) !! h; if ap_now a <? expiry then Some expiry else None)
    = (at_ ← is_tokens s !! h; if is_now s <? at_ + 86400 then Some (at_ + 86400) else None).
Lemma filter_bind (m : gmap bytes Z) (now : Z) h :
  filter (fun kv => now < kv.2) m !! h = (expiry ← m !! h; if now <? expiry then Some expiry else None).
Proof.
  destruct (m !! h) as [e|] eqn:E; cbn.
  - destruct (now <? e) eqn:Hl; [apply map_lookup_filter_Some; split; [done|cbn; lia]|]. apply map_lookup_filter_None. right. intros x Hx. cbn. simplify_eq. lia.
  - apply map_lookup_filter_None. by left.
Qed.
Lemma filter_bind_at (m : gmap bytes Z) (now : Z) h :
  filter (fun kv => now < kv.2 + 86400) m !! h = (at_ ← m !! h; if now <? at_ + 86400 then Some at_ else None).
Proof.
  destruct (m !! h) as [e|] eqn:E; cbn.
  - destruct (now <? e + 86400) eqn:Hl; [apply map_lookup_filter_Some; split; [done|cbn; lia]|]. apply map_lookup_filter_None. right. intros x Hx. cbn. simplify_eq. lia.
  - apply map_lookup_filter_None. by left.
Qed.
Lemma agree_live s a : tokens_agree s a -> filter (fun kv => ap_now a < kv.2) (wb_sessions (ap_web a)) = (fun at_ => at_ + 86400) <$> current_tokens s.
Proof.
  intros [Hn Ha]. apply map_eq. intros h. rewrite filter_bind, Ha, lookup_fmap. unfold current_tokens. rewrite filter_bind_at.
  destruct (is_tokens s !! h); [cbn|done]. by case_match.
Qed.
Lemma live_bind s now h : is_now s = now ->
  (expiry ← ((fun at_ => at_ + 86400) <$> current_tokens s) !! h; if now <? expiry then Some expiry else None)
  = (at_ ← is_tokens s !! h; if is_now s <? at_ + 86400 then Some (at_ + 86400) else None).
Proof.
  intros <-. rewrite lookup_fmap. unfold current_tokens. rewrite filter_bind_at. destruct (is_tokens s !! h) as [x|]; [cbn|done].
  destruct (is_now s <? x + 86400) eqn:E; cbn; by rewrite ?E.
Qed.
Lemma deletes_lookup {A : Type} (m : gmap bytes A) (l : list bytes) (f : bytes -> bytes) h :
  foldl (fun m token => delete (f token) m) m l !! h = if bool_decide (h ∈ f <$> l) then None else m !! h.
Proof.
  revert m. induction l as [|t l IH]; intros m; [by rewrite bool_decide_eq_false_2 by apply not_elem_of_nil|]. cbn [foldl fmap list_fmap]. rewrite IH.
  destruct (decide (h = f t)) as [->|Hne].
  - rewrite lookup_delete_eq, (bool_decide_eq_true_2 (f t ∈ _ :: _)) by (by left). by case_bool_decide.
  - rewrite lookup_delete_ne by done. destruct (decide (h ∈ f <$> l)) as [Hin|Hin].
    + rewrite !bool_decide_eq_true_2; [done|by right|done].
    + rewrite !bool_decide_eq_false_2; [done|by intros [|]%elem_of_cons|done].
Qed.
Definition goes_forward (ev : session_event) : Prop := match ev with Pass seconds => 0 <= seconds | _ => True end.
Lemma agree_step s a ev : goes_forward ev -> tokens_agree s a -> tokens_agree (issued_step s ev) (session_step a ev).
Proof.
  intros Hev Hag. pose proof (agree_live s a Hag) as Hlive. destruct Hag as [Hn Ha].
  destruct ev as [token|cookies| | |seconds]; cbn [issued_step session_step].
  - unfold on_web, web_session_insert. cbv beta zeta. rewrite Hlive, map_size_fmap. destruct (MAX_WEB_SESSIONS <=? _); cbn [on_web set_ap_web set_wb_sessions ap_web wb_sessions ap_now snd].
    + split; [done|]. intros h. by apply live_bind.
    + split; [done|]. intros h. cbn. destruct (decide (h = hash_token token)) as [->|Hne].
      * rewrite !lookup_insert_eq. cbn. rewrite Hn. by destruct (ap_now a <? ap_now a + 86400).
      * rewrite !lookup_insert_ne by done. by apply live_bind.
  - split; [done|]. intros h.
    change (wb_sessions (ap_web (tk_app (logout cookies (alone a)).2))) with (foldl (fun m token => delete (hash_token token) m) (wb_sessions (ap_web a)) (cookie_tokens cookies)).
    change (ap_now (tk_app (logout cookies (alone a)).2)) with (ap_now a). cbn [is_tokens is_now]. rewrite !deletes_lookup. destruct (bool_decide _); [done|]. exact (Ha h).
  - split; [done|]. intros h. cbn. by rewrite !lookup_empty.
  - split; [done|]. intros h. cbn. rewrite filter_bind, <- Ha. destruct (wb_sessions (ap_web a) !! h); cbn; [|done]. case_match; cbn; [by rewrite H|done].
  - split; [cbn; lia|]. intros h. specialize (Ha h). cbn in Hev |- *. destruct (wb_sessions (ap_web a) !! h) as [e|], (is_tokens s !! h) as [x|]; cbn in *.
    + destruct (ap_now a <? e) eqn:E1, (is_now s <? x + 86400) eqn:E2; simplify_eq; [by rewrite Hn|]. rewrite !(proj2 (Z.ltb_ge _ _)) by lia. done.
    + destruct (ap_now a <? e) eqn:E1; [done|]. by rewrite (proj2 (Z.ltb_ge _ _)) by lia.
    + destruct (is_now s <? x + 86400) eqn:E1; [done|]. by rewrite (proj2 (Z.ltb_ge _ _)) by lia.
    + done.
Qed.
Lemma filter_size {A : Type} (P : bytes * A -> Prop) `{forall x, Decision (P x)} (m : gmap bytes A) : (size (filter P m) <= size m)%nat.
Proof. apply map_subseteq_size, map_filter_subseteq. Qed.
Lemma deletes_subseteq {A : Type} (m : gmap bytes A) (l : list bytes) (f : bytes -> bytes) : foldl (fun m token => delete (f token) m) m l ⊆ m.
Proof. revert m. induction l as [|t l IH]; intros m; [done|]. cbn. etrans; [apply IH|]. apply delete_subseteq. Qed.
Definition table_small (a : App) : Prop := Z.of_nat (size (wb_sessions (ap_web a))) <= MAX_WEB_SESSIONS.
Lemma small_step a ev : table_small a -> table_small (session_step a ev).
Proof.
  unfold table_small. intros Ha. destruct ev as [token|cookies| | |seconds]; cbn [session_step].
  - unfold on_web, web_session_insert. cbv beta zeta. pose proof (filter_size (fun kv => ap_now a < kv.2) (wb_sessions (ap_web a))).
    destruct (MAX_WEB_SESSIONS <=? _) eqn:E; cbn [snd set_ap_web ap_web set_wb_sessions wb_sessions]; [lia|].
    rewrite map_size_insert. case_match; unfold id; lia.
  - etrans; [apply Nat2Z.inj_le|exact Ha]. apply map_subseteq_size. exact (deletes_subseteq (wb_sessions (ap_web a)) (cookie_tokens cookies) hash_token).
  - change (wb_sessions (ap_web (tk_app (logout_all (alone a)).2))) with (∅ : gmap bytes Z). rewrite map_size_empty. done.
  - unfold web_session_janitor, on_web. cbn [set_ap_web ap_web set_wb_limits set_wb_sessions wb_sessions].
    pose proof (filter_size (fun kv => ap_now a < kv.2) (wb_sessions (ap_web a))). lia.
  - done.
Qed.
Lemma agree_valid s a token : tokens_agree s a -> session_valid a token = token_current s token.
Proof.
  intros [Hn Ha]. specialize (Ha (hash_token token)). unfold session_valid, token_current.
  destruct (wb_sessions (ap_web a) !! hash_token token) as [e|], (is_tokens s !! hash_token token) as [x|]; cbn in *; try done.
  - destruct (ap_now a <? e), (is_now s <? x + 86400); by simplify_eq.
  - by destruct (ap_now a <? e).
  - by destruct (is_now s <? x + 86400).
Qed.

(** C5. The panel obeys holders of a session and nobody else.  After any history
    of logins, logouts, sweeps and passing time, a protected request is carried
    out exactly if one of its cookies is a token handed out less than 24 hours
    ago and not taken back since; otherwise the answer is 401 and nothing at all
    changes.  The table of sessions never holds more than 256. *)
Theorem panel_obeys_sessions evs a : wb_sessions (ap_web a) = ∅ -> Forall goes_forward evs ->
  let b := foldl session_step a evs in let s := foldl issued_step (mkIssued ∅ (ap_now a)) evs in
  Z.of_nat (size (wb_sessions (ap_web b))) <= 256 /\
  forall cookies c t, tk_app t = b ->
    if existsb (token_current s) (cookie_tokens cookies) then panel_request cookies (Protected c) t = panel_call cookies c t
    else exists r, panel_request cookies (Protected c) t = (Ok r, t) /\ rs_status r = UNAUTHORIZED.
Proof.
  intros Hempty Hev b s. assert (Hb : tokens_agree s b /\ table_small b).
  { unfold s, b. assert (H0 : tokens_agree (mkIssued ∅ (ap_now a)) a /\ table_small a).
    { split; [split; [done|]; intros h; cbn; by rewrite Hempty, !lookup_empty|]. unfold table_small. rewrite Hempty, map_size_empty. done. }
    clear s b Hempty. revert H0. generalize (mkIssued ∅ (ap_now a)) as s0. revert a. induction Hev as [|ev evs Hev _ IH]; intros a s0 [Hag Hsm]; [done|]. cbn [foldl].
    apply IH. split; [by apply agree_step|by apply small_step]. }
  destruct Hb as [Hag Hsm]. split; [exact Hsm|]. intros cookies c t Ht.
  assert (Hauth : authorized b cookies = existsb (token_current s) (cookie_tokens cookies)).
  { unfold authorized. induction (cookie_tokens cookies) as [|token l IH]; [done|]. cbn. by rewrite (agree_valid s b token Hag), IH. }
  rewrite <- Hauth. cbn [panel_request]. unfold auth_middleware, mbind, effect_bind, gets. rewrite Ht. destruct (authorized b cookies); [done|].
  eexists. split; [reflexivity|]. by destruct (cookie_tokens cookies).
Qed.

(** ** Logins *)

(** Logins of several connections: each looks at the table, then tries its
    guess, and others may come between.  [lo_flight] are those between the two,
    with the time they began. *)
Record logins := mkLogins { lo_limits : gmap bytes (Z * Z); lo_flight : list (bytes * Z) }.
Inductive login_event := Begin (source : bytes) (now : Z) | WrongGuess (i : nat) | RightGuess (i : nat) | SweepLimits (now : Z).
Definition login_step (s : logins) (ev : login_event) : logins :=
  match ev with
  | Begin source now => if is_locked_out (lo_limits s) source now then s else mkLogins (lo_limits s) ((source, now) :: lo_flight s)
  | WrongGuess i =>
      match lo_flight s !! i with
      | Some (source, current) => mkLogins (record_failed_login (lo_limits s) source current).2 (delete i (lo_flight s))
      | None => s
      end
  | RightGuess i =>
      match lo_flight s !! i with
      | Some (source, _) => mkLogins (delete source (lo_limits s)) (delete i (lo_flight s))
      | None => s
      end
  | SweepLimits now => mkLogins (filter (fun kv => now < kv.2.2) (lo_limits s)) (lo_flight s)
  end.
(** At most [k] connections are served at a time. *)
Inductive login_run (k : Z) : logins -> Prop :=
| login_start : login_run k (mkLogins ∅ [])
| login_next s ev : login_run k s -> len (lo_flight (login_step s ev)) <= k -> login_run k (login_step s ev).

(** The guesses under way that still count in a window that ends at [expiry]. *)
Definition under_way (s : logins) (source : bytes) (expiry : Z) : Z := len (filter (fun f => f.1 = source /\ f.2 < expiry) (lo_flight s)).
Record logins_ok (k : Z) (s : logins) : Prop := {
  lk_flight : len (lo_flight s) <= k;
  lk_size : Z.of_nat (size (lo_limits s)) <= MAX_LOGIN_LIMITS;
  lk_count : forall source n expiry, lo_limits s !! source = Some (n, expiry) -> 1 <= n /\ n + under_way s source expiry <= 2 + k;
}.
Lemma under_way_delete (l : list (bytes * Z)) i (source : bytes) expiry f : l !! i = Some f ->
  len (filter (fun f => f.1 = source /\ f.2 < expiry) l)
  = (if decide (f.1 = source /\ f.2 < expiry) then 1 else 0) + len (filter (fun f => f.1 = source /\ f.2 < expiry) (delete i l)).
Proof.
  intros Hi. rewrite <- (take_drop_middle l i f Hi) at 1. rewrite delete_take_drop, !filter_app, filter_cons. rewrite !len_app.
  destruct (decide _); rewrite ?len_cons; lia.
Qed.
Lemma under_way_le s source expiry : under_way s source expiry <= len (lo_flight s).
Proof. unfold under_way, len. apply Nat2Z.inj_le, length_filter. Qed.
Lemma under_way_shrinks s limits i source expiry : under_way (mkLogins limits (delete i (lo_flight s))) source expiry <= under_way s source expiry.
Proof.
  unfold under_way. cbn [lo_flight]. destruct (lo_flight s !! i) as [f|] eqn:E.
  - rewrite (under_way_delete (lo_flight s) i source expiry f E). destruct (decide _); lia.
  - rewrite delete_take_drop. apply lookup_ge_None in E. rewrite take_ge, drop_ge by lia. rewrite app_nil_r. lia.
Qed.
Lemma flight_delete (l : list (bytes * Z)) i f : l !! i = Some f -> len (delete i l) = len l - 1.
Proof. intros Hi. unfold len. rewrite length_delete by (rewrite Hi; eauto). apply lookup_lt_Some in Hi. lia. Qed.
Lemma logins_begin k s source now : logins_ok k s -> len (lo_flight s) + 1 <= k -> is_locked_out (lo_limits s) source now = false ->
  logins_ok k (mkLogins (lo_limits s) ((source, now) :: lo_flight s)).
Proof.
  intros [Hf Hs Hc] Hk Hopen. split; cbn [lo_limits lo_flight]; [rewrite len_cons; lia|done|]. intros source' n expiry Hin. destruct (Hc source' n expiry Hin) as [H1 Hn]. split; [done|].
  pose proof (under_way_le s source' expiry). unfold under_way in *. cbn [lo_flight]. rewrite filter_cons. destruct (decide _) as [[Heq Hlt]|]; [|exact Hn].
  cbn in Heq, Hlt. subst source'. unfold is_locked_out in Hopen. rewrite Hin in Hopen. rewrite len_cons. lia.
Qed.
Lemma logins_wrong k s i source current : logins_ok k s -> lo_flight s !! i = Some (source, current) ->
  logins_ok k (mkLogins (record_failed_login (lo_limits s) source current).2 (delete i (lo_flight s))).
Proof.
  intros [Hf Hs Hc] Hi. pose proof (flight_delete _ _ _ Hi) as Hlen. unfold record_failed_login. set (limits := filter _ (lo_limits s)).
  assert (Hsub : forall x v, limits !! x = Some v -> lo_limits s !! x = Some v /\ current < v.2) by (intros x v; unfold limits; by rewrite map_lookup_filter_Some).
  assert (Hsize : (size limits <= size (lo_limits s))%nat) by apply filter_size.
  assert (Hold : forall x n expiry, limits !! x = Some (n, expiry) -> 1 <= n /\ n + under_way (mkLogins limits (delete i (lo_flight s))) x expiry <= 2 + k).
  { intros x n expiry Hx. destruct (Hsub _ _ Hx) as [Hx' _]. destruct (Hc _ _ _ Hx') as [H1 Hn]. pose proof (under_way_shrinks s limits i x expiry). lia. }
  destruct (bool_decide (limits !! source = None) && _) eqn:Hfull; cbn [snd]; [split; cbn; [lia|lia|exact Hold]|].
  split; cbn [lo_limits lo_flight]; [lia| |].
  - rewrite map_size_insert. destruct (limits !! source) eqn:E; unfold id; [lia|]. rewrite bool_decide_eq_true_2 in Hfull by done. cbn in Hfull. lia.
  - intros x n expiry. rewrite lookup_insert_Some. intros [[<- Heq]|[_ Hx]]; [|exact (Hold _ _ _ Hx)].
    pose proof (under_way_le (mkLogins limits (delete i (lo_flight s))) source expiry) as Hle. cbn [lo_flight] in Hle.
    destruct (limits !! source) as [[m e]|] eqn:E; [|injection Heq as <- <-; unfold under_way in *; cbn [lo_flight] in *; lia].
    destruct (Hsub _ _ E) as [Hx' Hlt]. cbn in Hlt. rewrite (proj2 (Z.leb_gt _ _)) in Heq by lia. injection Heq as <- <-. destruct (Hc _ _ _ Hx') as [H1 Hn].
    unfold under_way in *. cbn [lo_flight] in *. rewrite (under_way_delete _ i source e _ Hi) in Hn. rewrite decide_True in Hn by (cbn; done). unfold U32_MAX in *. lia.
Qed.
Lemma logins_right k s i source current : logins_ok k s -> lo_flight s !! i = Some (source, current) ->
  logins_ok k (mkLogins (delete source (lo_limits s)) (delete i (lo_flight s))).
Proof.
  intros [Hf Hs Hc] Hi. pose proof (flight_delete _ _ _ Hi) as Hlen. split; cbn [lo_limits lo_flight]; [lia| |].
  - assert (size (delete source (lo_limits s)) <= size (lo_limits s))%nat by (apply map_subseteq_size, delete_subseteq). lia.
  - intros x n expiry [_ Hx]%lookup_delete_Some. destruct (Hc _ _ _ Hx) as [H1 Hn]. pose proof (under_way_shrinks s (delete source (lo_limits s)) i x expiry). lia.
Qed.

(** C18. Failed logins are limited.  However the logins of [k] connections
    overlap, a source is never charged with more than [k + 2] wrong guesses in
    one window of three minutes, one login at a time never with more than
    three; and the table never holds more than 4096 sources. *)
Theorem login_guesses_bounded k s source n expiry : login_run k s -> lo_limits s !! source = Some (n, expiry) ->
  1 <= n <= k + 2 /\ Z.of_nat (size (lo_limits s)) <= 4096.
Proof.
  intros Hrun. assert (Hok : logins_ok k s \/ k < 0).
  { destruct (decide (k < 0)) as [?|Hk]; [by right|left]. induction Hrun as [|s ev Hrun IH Hlen]; [split; [cbn [lo_flight]; rewrite len_nil; lia|done|]; intros x m e; cbn; by rewrite lookup_empty|].
    destruct ev as [src now|i|i|now]; cbn [login_step] in *.
    - destruct (is_locked_out (lo_limits s) src now) eqn:E; [done|]. cbn in Hlen. rewrite len_cons in Hlen. apply logins_begin; [done|lia|done].
    - destruct (lo_flight s !! i) as [[src current]|] eqn:E; [by apply logins_wrong|done].
    - destruct (lo_flight s !! i) as [[src current]|] eqn:E; [by apply (logins_right k s i src current)|done].
    - destruct IH as [Hf Hs Hc]. split; [done| |].
      + cbn. pose proof (filter_size (fun kv => now < kv.2.2) (lo_limits s)). lia.
      + cbn. intros x m e [Hx _]%map_lookup_filter_Some. exact (Hc _ _ _ Hx). }
  intros Hin. destruct Hok as [[Hf Hs Hc]|Hk].
  - destruct (Hc _ _ _ Hin) as [H1 Hn]. pose proof (len_nonneg (filter (fun f => f.1 = source /\ f.2 < expiry) (lo_flight s))) as Hnn. unfold under_way in Hn. unfold MAX_LOGIN_LIMITS in Hs. lia.
  - exfalso. assert (Hflight : len (lo_flight s) <= k \/ s = mkLogins ∅ []) by (destruct Hrun; [by right|by left]).
    destruct Hflight as [Hl| ->]; [pose proof (len_nonneg (lo_flight s)); lia|cbn in Hin; by rewrite lookup_empty in Hin].
Qed.

(** A full table: no window has run out, and there is no room for another. *)
Definition limits_full (a : App) (source : bytes) : Prop :=
  wb_limits (ap_web a) !! source = None /\ map_Forall (fun _ v => ap_now a < v.2) (wb_limits (ap_web a))
  /\ MAX_LOGIN_LIMITS <= Z.of_nat (size (wb_limits (ap_web a))).
(** A full table of sources lifts the limit for every other source.  Its
    wrong guesses are answered with 429, but each was compared with the
    credentials and none is counted, so that the same holds for the next one;
    and a right guess opens a session. *)
Theorem full_table_guesses_uncounted source r seed a : limits_full a source -> validate_login_request r = None ->
  if valid_login (ap_web a) r
  then exists a', does (login source r seed) a
         (if MAX_WEB_SESSIONS <=? Z.of_nat (size (filter (fun kv => ap_now a < kv.2) (wb_sessions (ap_web a)))) then text TOO_MANY_REQUESTS (b_ "too many active web sessions")
          else with_cookie (text OK (b_ "ok")) (session_cookie (base64_url seed))) a'
  else does (login source r seed) a (text TOO_MANY_REQUESTS (b_ "too many login sources")) a.
Proof.
  intros (Hnone & Hall & Hsize) Hr. unfold login. rewrite Hr.
  assert (Hopen : is_locked_out (wb_limits (ap_web a)) source (ap_now a) = false) by (unfold is_locked_out; by rewrite Hnone).
  assert (Hrec : record_failed_login (wb_limits (ap_web a)) source (ap_now a) = (false, wb_limits (ap_web a))).
  { unfold record_failed_login. rewrite (map_filter_id (fun kv => ap_now a < kv.2.2)) by (intros i x Hx; exact (Hall i x Hx)).
    rewrite bool_decide_eq_true_2 by done. cbn [andb]. by rewrite (proj2 (Z.leb_le _ _) Hsize). }
  destruct (valid_login (ap_web a) r) eqn:Hv.
  - eexists. eapply does_bind; [apply does_gets|]. eapply does_bind; [apply does_gets|]. rewrite Hopen. eapply does_bind; [apply does_pause|].
    eapply does_bind; [apply does_gets|]. rewrite Hv. unfold login_succeeded. eapply does_bind; [apply does_modify|]. eapply does_bind; [apply does_pause|].
    eapply does_bind; [apply does_gets|]. eapply does_bind; [apply does_modify|]. unfold web_session_insert.
    cbn [on_web set_ap_web ap_web set_wb_limits wb_sessions ap_now]. destruct (MAX_WEB_SESSIONS <=? _); apply does_ret.
  - eapply does_bind; [apply does_gets|]. eapply does_bind; [apply does_gets|]. rewrite Hopen. eapply does_bind; [apply does_pause|].
    eapply does_bind; [apply does_gets|]. rewrite Hv. unfold login_failed. eapply does_bind; [apply does_gets|]. eapply does_bind; [apply does_modify|].
    rewrite Hrec. cbn [fst snd]. replace (on_web a (fun w => set_wb_limits w (record_failed_login (wb_limits w) source (ap_now a)).2)) with a; [apply does_ret|].
    unfold on_web. rewrite Hrec. cbn [snd]. destruct a as [? ? ? ? ? ? ? ? ? ? ? ? ? ? w]. by destruct w.
Qed.

(** ** Revocation *)

Lemma report_ok a : keys_ok (ap_derived_keys a) -> Forall (fun p => p <> []) (active_passwords (ap_db a) (ap_now a)) -> room a 1 ->
  exists b entries, does refresh_credentials_report a true b /\ ap_db b = ap_db a /\ ap_sessions b = ap_sessions a /\ ap_credentials b = entries
  /\ credentials_of (ap_db a) (ap_now a) entries /\ sends a b [ReplaceCredentials entries].
Proof.
  intros Hk Hne Hr. destruct (refresh_runs a Hk Hne) as (entries & c & Hcr & Hcc & Hdb & Hs & Hch & Hrun).
  assert (Hrc : room c 1) by (unfold room in *; by rewrite Hch).
  destruct (post_sends c (ReplaceCredentials entries) Hrc) as [Hsend _]. exists (post c (ReplaceCredentials entries)), entries. split_and!.
  - unfold does, refresh_credentials_report, on_result. rewrite Hrun. by rewrite (does_command (ReplaceCredentials entries) c Hrc).
  - by rewrite (sa_db _ _ (same_post _ _)).
  - by rewrite post_sessions.
  - rewrite <- Hcc. unfold post, send_command. by destruct (try_send _ _).
  - done.
  - unfold sends in *. by rewrite Hsend, Hch.
Qed.
(** The writer brings the persistence to [p] while the handler waits. *)
Definition writer_reaches (p : Persistence) (a : App) : App := set_ap_persistence a p.
(** A deleted client is cut off.  When the deletion of a client is saved and
    the engine's queue has room, the answer is 200; by then GETCONF refuses the
    password to every device, no session of the table uses it, the engine has
    been told to drop its sessions and then given the credentials of exactly
    the passwords that are still good, and every other password has kept its
    entry. *)
Theorem deleted_client_is_cut_off password a p :
  keys_ok (ap_derived_keys a) -> db_passwords (ap_db a) !! [] = None -> room a 2 ->
  is_Some (db_passwords (ap_db a) !! password) -> password <> db_main_password (ap_db a) ->
  wait p (Persistence_submit (ap_persistence a) (without_password (ap_db a) password)).1 = Some None ->
  exists a' entries, client_delete password (mkTask a [id; writer_reaches p] []) = (Ok (status OK), alone a')
    /\ (forall device now, getconf_credential_access (ap_db a') now password device = inl (denied "expired"))
    /\ (forall i, i ∈ ap_sessions a' <-> i ∈ ap_sessions a /\ ~ uses_password a i password)
    /\ sends a a' [DropPassword password; ReplaceCredentials entries] /\ credentials_of (ap_db a') (ap_now a) entries /\ password ∉ cr_password <$> entries
    /\ (forall other, other <> password -> db_passwords (ap_db a') !! other = db_passwords (ap_db a) !! other).
Proof.
  intros Hk Hempty Hr Hknown Hmain Hwait. set (d := without_password (ap_db a) password) in *.
  set (a0 := set_ap_derived_keys a (delete password (ap_derived_keys a))).
  set (b0 := set_ap_persistence (set_ap_db a0 d) (Persistence_submit (ap_persistence a) d).2). set (b := writer_reaches p b0).
  assert (Hkb : keys_ok (ap_derived_keys b)) by (intros q k; cbn; rewrite lookup_delete_Some; intros [_ ?]; by apply Hk).
  set (c := drop_password_sessions b password). destruct (drop_password_frame b password) as (Hcc & Hnc & Hsc & _). fold c in Hcc, Hnc, Hsc.
  pose proof (same_drop_password b password) as [Hdc Hkc _]. fold c in Hdc, Hkc.
  destruct (post_sends b (DropPassword password)) as [Hsend _]; [destruct Hr; split; [done|cbn; lia]|].
  assert (Hbc : sends a c [DropPassword password]) by (unfold sends in *; rewrite Hcc, Hsend; done).
  assert (Hne : db_passwords d !! [] = None) by (cbn; rewrite lookup_delete_None; by right).
  destruct (report_ok c) as (a' & entries & Hrep & Hda & Hsa & Hca & Hcr & Hse).
  { by rewrite Hkc. } { apply active_nonempty. by rewrite Hdc. } { apply (sends_room _ _ _ _ Hbc). exact Hr. }
  assert (Hactive : password ∉ active_passwords d (ap_now a)).
  { unfold active_passwords. rewrite elem_of_app, list_elem_of_fmap. intros [Hin|([q e] & -> & [_ Hin]%list_elem_of_filter)].
    - destruct (bytes_eqb (db_main_password d) []); [by apply elem_of_nil in Hin|]. apply list_elem_of_singleton in Hin. done.
    - rewrite btree_iter_perm in Hin. apply elem_of_map_to_list in Hin. cbn in Hin. by rewrite lookup_delete_eq in Hin. }
  assert (Hcr' : credentials_of d (ap_now a) entries) by (rewrite Hdc, Hnc in Hcr; exact Hcr).
  exists a', entries. rewrite Hda, Hdc. change (ap_db b) with d. split_and!.
  - unfold client_delete. rewrite (effect_step _ _ _ tt (mkTask a [writer_reaches p] [])) by done.
    rewrite (effect_step _ _ _ true (mkTask a [writer_reaches p] [])) by (unfold gets; cbn [tk_app]; by rewrite bool_decide_eq_true_2). cbn [negb].
    rewrite (effect_step _ _ _ tt (mkTask a0 [writer_reaches p] [])) by done. rewrite (effect_step _ _ _ d (mkTask a0 [writer_reaches p] [])) by done.
    rewrite (effect_step _ _ _ (Persistence_submit (ap_persistence a) d).1 (mkTask b0 [writer_reaches p] [])) by done.
    unfold once_saved. rewrite (effect_step _ _ _ None (alone b)).
    + rewrite (effect_step _ _ _ tt (alone c)) by done. unfold reloaded. by rewrite (effect_step _ _ _ _ _ Hrep).
    + unfold wait_for_persistence. rewrite (effect_step _ _ _ tt (alone b)) by done. rewrite (effect_step _ _ _ (Some None) (alone b)); [done|].
      unfold gets. by rewrite <- Hwait.
  - intros device now. unfold getconf_credential_access. change (db_main_password d) with (db_main_password (ap_db a)).
    rewrite (eqb_false _ _ Hmain), andb_false_r. cbn [db_passwords d without_password set_db_passwords]. by rewrite lookup_delete_eq.
  - intros i. rewrite Hsa. exact (Hsc i).
  - exact (sends_trans _ _ _ _ _ Hbc Hse).
  - exact Hcr'.
  - by rewrite (proj1 Hcr').
  - intros other Hother. cbn. by rewrite lookup_delete_ne.
Qed.
End PanelProps.

(** ** The catalogue of DNS profiles *)

(** A profile of the catalogue is recognised, is accepted as it is, and deploys
    to itself; anything else deploys to some profile of the catalogue. *)
Lemma dns_catalogue : Forall (fun p => deploy_dns_profile_or_yandex (provider_dns p) = provider_dns p
  /\ dns_provider_id (provider_dns p) = Some (dp_id p) /\ normalize_dns (provider_dns p) = Some (provider_dns p)) DNS_PROVIDERS.
Proof. apply (bool_decide_unpack _). vm_compute. exact I. Qed.
Lemma best_provider_listed addresses p : best_provider addresses = Some p -> p ∈ DNS_PROVIDERS.
Proof.
  unfold best_provider. assert (Hgen : forall l best, (forall q, best = Some q -> q ∈ DNS_PROVIDERS) -> (forall q, q ∈ l -> q ∈ DNS_PROVIDERS) ->
    forall q, foldl (fun best p => if (dns_score addresses p).1.1 =? 0 then best else
      match best with Some b => if score_le (dns_score addresses b) (dns_score addresses p) then Some p else best | None => Some p end) best l = Some q -> q ∈ DNS_PROVIDERS).
  { induction l as [|x l IH]; intros best Hb Hl q; [apply Hb|]. cbn [foldl]. apply IH; [|intros y Hy; apply Hl; by right].
    intros y. assert (Hx : x ∈ DNS_PROVIDERS) by (apply Hl; by left). repeat case_match; intros; simplify_eq; auto. }
  by apply Hgen.
Qed.
Lemma deploy_idempotent dns : deploy_dns_profile_or_yandex (deploy_dns_profile_or_yandex dns) = deploy_dns_profile_or_yandex dns.
Proof.
  unfold deploy_dns_profile_or_yandex at 2 3. assert (Hin : default yandex (best_provider (dns_addresses dns)) ∈ DNS_PROVIDERS).
  { destruct (best_provider (dns_addresses dns)) as [p|] eqn:E; [by apply (best_provider_listed _ _ E)|]. by left. }
  pose proof dns_catalogue as Hall. rewrite Forall_forall in Hall. exact (proj1 (Hall _ Hin)).
Qed.

(** ** Concrete requests *)

Definition demo_panel : PanelTools := {| sha256_hex := fun token => token; base64_decode := fun data => Some data; base64_url := fun data => data |}.
#[local] Existing Instance demo_tools.
#[local] Existing Instance demo_panel.
Definition demo_client : CreateClientRequest := mkCreate (b_ "guest") 30 [] None None None.
Definition demo_cookies : list bytes := [b_ "theme=dark; csqtt_session=token"].
Definition demo_fresh (s : LocalProxyState) : bytes := concat (lp_id <$> lp_profiles s) ++ b_ "x".
Lemma demo_fresh_ok : draws_fresh demo_fresh.
Proof.
  intros s Hin. unfold demo_fresh in Hin. apply list_elem_of_split in Hin as (l & k & Heq).
  apply (f_equal (fun l => length (concat l))) in Heq. rewrite concat_app, length_app in Heq. cbn in Heq. rewrite !length_app in Heq. cbn in Heq. lia.
Qed.
Definition demo_session_app : App := set_ap_web demo_app (set_wb_sessions demo_web (<[b_ "token" := 5000]> ∅)).
Definition demo_server : list server_work :=
  [Asks [] (Login (b_ "192.0.2.1") (mkLogin (b_ "admin") (b_ "wrong")) []); Asks demo_cookies (Protected (ClientsCreate demo_client [replicate 8 3]));
   Asks demo_cookies (Protected (ClientToggle (b_ "secret"))); Asks demo_cookies (Protected (LocalProxyCreate (mkProfileRequest [] 0 [] []) demo_fresh true));
   Controls PasswordJanitor; Asks demo_cookies (Protected Logout); PanelJanitor].
(** The answers of that run. *)
Example demo_answers : match run_server demo_server (mkTask demo_session_app demo_others [true; false]) with
  | (Ok rs, _) => rs_status <$> rs | _ => [] end = [401; 504; 504; 504; 200].
Proof. vm_compute. reflexivity. Qed.

Definition demo_full : App :=
  let d := set_db_passwords demo_accounts (<[b_ "old" := mkEntry (b_ "phone") 1000 0 0 [] [] false [] [] 0 0 0]> (list_to_map ((fun i => (b_ "client" ++ to_string i, demo_entry "")) <$> seqZ 0 20))) in
  set_ap_persistence (set_ap_db demo_app d) (Persistence_submit (Persistence_new demo_world) d).2.
Lemma demo_full_ok : app_ok demo_full.
Proof.
  assert (Ha : accounts_ok (ap_db demo_full)) by (apply (accounts_same demo_accounts); [done..|apply demo_accounts_ok]).
  split; [exact Ha|apply map_Forall_empty|]. apply durable_submit, Ha.
Qed.
Lemma refused_creation_half_happens_witness : exists a', does (clients_create demo_client []) demo_full limit_reached a' /\ ~ durable (ap_db a') (ap_persistence a').
Proof.
  destruct (refused_creation_half_happens demo_client [] [] demo_full (b_ "old") (mkEntry (b_ "phone") 1000 0 0 [] [] false [] [] 0 0 0) demo_full_ok)
    as (a' & Hdo & _ & _ & Hnot & _); [vm_compute; reflexivity|vm_compute; reflexivity|vm_compute; reflexivity|apply Z.leb_le; vm_compute; reflexivity|].
  exists a'. exact (conj Hdo Hnot).
Defined.
Definition demo_history : list session_event := [Issue (b_ "token"); Pass 100; Sweep; Issue (b_ "other"); LogoutOf demo_cookies; Pass 86350].
Lemma panel_obeys_sessions_witness : exists r, panel_request demo_cookies (Protected (ClientDelete (b_ "secret"))) (alone (foldl session_step demo_app demo_history))
  = (Ok r, alone (foldl session_step demo_app demo_history)) /\ rs_status r = UNAUTHORIZED.
Proof.
  assert (Hev : Forall goes_forward demo_history) by (repeat (apply Forall_cons; split; [try exact I; cbn; lia|]); apply Forall_nil; exact I).
  destruct (panel_obeys_sessions demo_history demo_app eq_refl Hev) as [_ H].
  exact (H demo_cookies (ClientDelete (b_ "secret")) (alone (foldl session_step demo_app demo_history)) eq_refl).
Defined.
Lemma login_guesses_bounded_witness : 1 <= 2 <= 1 + 2 /\ Z.of_nat (size (<[b_ "s" := (2, 280)]> (∅ : gmap bytes (Z * Z)))) <= 4096.
Proof.
  pose (s4 := login_step (login_step (login_step (login_step (mkLogins ∅ []) (Begin (b_ "s") 100)) (WrongGuess 0)) (Begin (b_ "s") 110)) (WrongGuess 0)).
  assert (Hrun : login_run 1 s4).
  { repeat (apply login_next; [|apply Z.leb_le; vm_compute; reflexivity]). apply login_start. }
  exact (login_guesses_bounded 1 s4 (b_ "s") 2 280 Hrun eq_refl).
Defined.
Definition demo_limits : App := set_ap_web demo_app (set_wb_limits demo_web (list_to_map ((fun i => (to_string i, (3, 5000))) <$> seqZ 0 4096))).
Lemma demo_limits_full : limits_full demo_limits (b_ "attacker").
Proof. split; [vm_compute; reflexivity|]. split; [apply (bool_decide_unpack _); vm_compute; exact I|apply Z.leb_le; vm_compute; reflexivity]. Qed.
Lemma full_table_guesses_uncounted_witness :
  does (login (b_ "attacker") (mkLogin (b_ "admin") (b_ "wrong")) []) demo_limits (text TOO_MANY_REQUESTS (b_ "too many login sources")) demo_limits.
Proof. exact (full_table_guesses_uncounted (b_ "attacker") (mkLogin (b_ "admin") (b_ "wrong")) [] demo_limits demo_limits_full eq_refl). Defined.
Definition demo_written : Persistence := mkPersistence (mkQueue 2 2 2 [] false) None Waiting true demo_world.
Lemma deleted_client_is_cut_off_witness : exists a' (entries : list Credential), client_delete (b_ "secret") (mkTask demo_app [id; writer_reaches demo_written] []) = (Ok (status OK), alone a')
  /\ b_ "secret" ∉ cr_password <$> entries.
Proof.
  destruct (deleted_client_is_cut_off (b_ "secret") demo_app demo_written) as (a' & entries & Hrun & _ & _ & _ & _ & Hno & _);
    [apply map_Forall_empty|reflexivity|split; [reflexivity|apply Z.leb_le; vm_compute; reflexivity]|eexists; reflexivity|discriminate|vm_compute; reflexivity|].
  exists a', entries. exact (conj Hrun Hno).
Defined.
