(* ===== verification/Channel.v ===== *)
(** * Packet channels

    The queues of [rust-client/dispatcher.rs] between the tasks of the client: a
    bounded queue whose entries carry the epoch they were sent in, so that
    [resume] and [suspend] forget what was sent before.

    The operations are first functions on the shared state, for a thread that is
    alone; then the same operations in their atomic steps, for any number of
    senders beside the receiver.  The queue ([crossbeam]) and the notification
    ([tokio]) are crates the repository only calls: what is used of them is an
    interface each, with the documented facts as laws. *)

From S2P Require Import Prelude.

(** ** The crates *)

(** [ArrayQueue]; [aq_items] is what a queue holds, oldest first.  [push] gives a
    value back when there is no room, [force_push] the oldest, displaced. *)
Class ArrayQueue := {
  aq : Type -> Type;
  aq_items : forall {T : Type}, aq T -> list T;
  aq_capacity : forall {T : Type}, aq T -> Z;
  aq_new : forall {T : Type}, Z -> aq T;
  aq_push : forall {T : Type}, aq T -> T -> option T * aq T;
  aq_force_push : forall {T : Type}, aq T -> T -> option T * aq T;
  aq_pop : forall {T : Type}, aq T -> option T * aq T;
}.
Class ArrayQueueLaws (A : ArrayQueue) : Prop := {
  aq_new_law : forall (T : Type) n, 0 < n -> aq_items (aq_new (T := T) n) = [] /\ aq_capacity (aq_new (T := T) n) = n;
  aq_room_law : forall (T : Type) (q : aq T) x, len (aq_items q) < aq_capacity q ->
    (aq_push q x).1 = None /\ aq_items (aq_push q x).2 = aq_items q ++ [x] /\
    (aq_force_push q x).1 = None /\ aq_items (aq_force_push q x).2 = aq_items q ++ [x];
  aq_full_law : forall (T : Type) (q : aq T) x, aq_capacity q <= len (aq_items q) ->
    (aq_push q x).1 = Some x /\ aq_items (aq_push q x).2 = aq_items q /\
    (aq_force_push q x).1 = head (aq_items q) /\ aq_items (aq_force_push q x).2 = tail (aq_items q) ++ [x];
  aq_pop_law : forall (T : Type) (q : aq T), (aq_pop q).1 = head (aq_items q) /\ aq_items (aq_pop q).2 = tail (aq_items q);
  aq_capacity_law : forall (T : Type) (q : aq T),
    (forall x, aq_capacity (aq_push q x).2 = aq_capacity q /\ aq_capacity (aq_force_push q x).2 = aq_capacity q) /\ aq_capacity (aq_pop q).2 = aq_capacity q;
}.

(** [Notify], as one waiting task uses it.  [outstanding]: it holds the future of
    [notified()]; [ready]: polling that future, or one made next, completes. *)
Class Notify := {
  ntf : Type;
  outstanding : ntf -> bool;
  ready : ntf -> bool;
  ntf_new : ntf;
  notify_one : ntf -> ntf;
  notify_waiters : ntf -> ntf;
  notified : ntf -> ntf;
  poll : ntf -> bool * ntf;
  drop_notified : ntf -> ntf;
}.
Class NotifyLaws (N : Notify) : Prop := {
  (** [notify_one] wakes the waiter or leaves a permit. *)
  notify_one_law : forall n, ready (notify_one n) = true /\ outstanding (notify_one n) = outstanding n;
  (** [notify_waiters] wakes every future that exists, polled or not. *)
  notify_waiters_law : forall n, outstanding (notify_waiters n) = outstanding n /\
    (outstanding n = true \/ ready n = true -> ready (notify_waiters n) = true);
  notified_law : forall n, outstanding (notified n) = true /\ ready (notified n) = ready n;
  poll_law : forall n, (poll n).1 = ready n /\
    (ready n = false -> outstanding (poll n).2 = outstanding n /\ ready (poll n).2 = false);
}.

(** ** The queue *)

Definition QUEUE_ACTIVE : Z := 1.

Section Channel.
Context `{AQ : ArrayQueue} `{NT : Notify} {T : Type}.

Record QueuedPacket := mkQueued { qp_packet : T; qp_epoch : Z }.
Record PacketQueue := mkQueue {
  pq_queue : aq QueuedPacket; pq_notify : ntf; pq_state : Z; pq_senders : Z; pq_receiver_open : bool;
}.
Definition with_queue (p : PacketQueue) (q : aq QueuedPacket) : PacketQueue := mkQueue q (pq_notify p) (pq_state p) (pq_senders p) (pq_receiver_open p).
Definition with_notify (p : PacketQueue) (n : ntf) : PacketQueue := mkQueue (pq_queue p) n (pq_state p) (pq_senders p) (pq_receiver_open p).
Definition with_state (p : PacketQueue) (s : Z) : PacketQueue := mkQueue (pq_queue p) (pq_notify p) s (pq_senders p) (pq_receiver_open p).
Definition with_senders (p : PacketQueue) (n : Z) : PacketQueue := mkQueue (pq_queue p) (pq_notify p) (pq_state p) n (pq_receiver_open p).
Definition with_open (p : PacketQueue) (o : bool) : PacketQueue := mkQueue (pq_queue p) (pq_notify p) (pq_state p) (pq_senders p) o.

Definition is_active (state : Z) : bool := negb (Z.land state QUEUE_ACTIVE =? 0).
Definition epoch_of (state : Z) : Z := Z.shiftr state 1.

Definition packet_channel (capacity : Z) (active : bool) : PacketQueue :=
  mkQueue (aq_new (Z.max capacity 1)) ntf_new (Z.b2z active * QUEUE_ACTIVE) 1 true.

Definition PacketSender_clone (p : PacketQueue) : PacketQueue := with_senders p (pq_senders p + 1).
Definition PacketSender_drop (p : PacketQueue) : PacketQueue :=
  let q := with_senders p (pq_senders p - 1) in
  if pq_senders p =? 1 then with_notify q (notify_waiters (pq_notify q)) else q.

(** A packet that is not accepted comes back. *)
Definition send_inner (p : PacketQueue) (packet : T) (force : bool) : option T * PacketQueue :=
  if negb (pq_receiver_open p) then (Some packet, p) else
  let state := pq_state p in
  if negb (is_active state) then (Some packet, p) else
  let queued := mkQueued packet (epoch_of state) in
  let '(rejected, p) :=
    if force then (None, with_queue p (aq_force_push (pq_queue p) queued).2)
    else let '(r, q) := aq_push (pq_queue p) queued in (qp_packet <$> r, with_queue p q) in
  match rejected with
  | Some packet => (Some packet, p)
  | None => (None, with_notify p (notify_one (pq_notify p)))
  end.
Definition try_send (p : PacketQueue) (packet : T) : option T * PacketQueue := send_inner p packet false.
Definition force_send (p : PacketQueue) (packet : T) : option T * PacketQueue := send_inner p packet true.

(** Each round takes one entry: fuel above their number is enough. *)
Fixpoint recv_loop (fuel : nat) (p : PacketQueue) : option T * PacketQueue :=
  match fuel with
  | O => (None, p)
  | S fuel =>
      let '(entry, q) := aq_pop (pq_queue p) in
      let p := with_queue p q in
      match entry with
      | None => (None, p)
      | Some queued =>
          let state := pq_state p in
          if is_active state && (qp_epoch queued =? epoch_of state) then (Some (qp_packet queued), p) else recv_loop fuel p
      end
  end.
Definition try_recv_inner (p : PacketQueue) : option T * PacketQueue := recv_loop (S (length (aq_items (pq_queue p)))) p.
Definition try_recv := try_recv_inner.
Fixpoint purge_loop (fuel : nat) (q : aq QueuedPacket) : aq QueuedPacket :=
  match fuel with
  | O => q
  | S fuel => let '(entry, q) := aq_pop q in match entry with Some _ => purge_loop fuel q | None => q end
  end.
Definition purge (p : PacketQueue) : PacketQueue := with_queue p (purge_loop (S (length (aq_items (pq_queue p)))) (pq_queue p)).
Definition wake_all (p : PacketQueue) : PacketQueue := with_notify p (notify_waiters (pq_notify p)).
Definition resume (p : PacketQueue) : PacketQueue :=
  let previous := epoch_of (pq_state p) in
  let epoch := sat_add previous 1 in
  let p := purge (with_state p (u64_of (Z.shiftl epoch 1))) in
  wake_all (with_state p (Z.lor (u64_of (Z.shiftl epoch 1)) QUEUE_ACTIVE)).
Definition suspend (p : PacketQueue) : PacketQueue :=
  wake_all (purge (with_state p (Z.land (pq_state p) (U64_MAX - QUEUE_ACTIVE)))).
Definition PacketReceiver_drop (p : PacketQueue) : PacketQueue := wake_all (purge (with_open p false)).
Definition queue_is_empty (p : PacketQueue) : bool := match aq_items (pq_queue p) with [] => true | _ => false end.
Definition is_closed (p : PacketQueue) : bool := (pq_senders p =? 0) && queue_is_empty p.
Definition has_queued_packet (p : PacketQueue) : bool := negb (queue_is_empty p).

(** ** The operations, alone

    Between operations every entry is of the present epoch. *)

Definition packets (p : PacketQueue) : list T := qp_packet <$> aq_items (pq_queue p).
Definition settled (p : PacketQueue) : Prop :=
  Forall (fun x => is_active (pq_state p) = true /\ qp_epoch x = epoch_of (pq_state p)) (aq_items (pq_queue p)).
Definition accepting (p : PacketQueue) : bool := pq_receiver_open p && is_active (pq_state p).
Definition capacity_of (p : PacketQueue) : Z := aq_capacity (pq_queue p).
Definition bounded (p : PacketQueue) : Prop := 0 < capacity_of p /\ len (packets p) <= capacity_of p.
(** A queue with room grows; a full one refuses, or gives up its oldest packet. *)
Definition sent (p : PacketQueue) (packet : T) (force : bool) : option T * list T :=
  if negb (accepting p) then (Some packet, packets p)
  else if len (packets p) <? capacity_of p then (None, packets p ++ [packet])
  else if force then (None, tail (packets p) ++ [packet]) else (Some packet, packets p).

Context {AL : ArrayQueueLaws AQ}.

Lemma pop_cases (q : aq QueuedPacket) :
  (exists q', aq_items q = [] /\ aq_pop q = (None, q') /\ aq_items q' = [] /\ aq_capacity q' = aq_capacity q) \/
  (exists x q', aq_items q = x :: aq_items q' /\ aq_pop q = (Some x, q') /\ aq_capacity q' = aq_capacity q).
Proof.
  pose proof (aq_pop_law _ q) as [Hr Hq]. pose proof (proj2 (aq_capacity_law _ q)) as Hc. destruct (aq_pop q) as [r q'] eqn:E. cbn in *.
  destruct (aq_items q) as [|x l] eqn:Eq; cbn in *; subst r; [left|right]; eauto.
  exists x, q'. by rewrite Hq.
Qed.
Lemma purge_loop_spec fuel (q : aq QueuedPacket) : (length (aq_items q) < fuel)%nat ->
  aq_items (purge_loop fuel q) = [] /\ aq_capacity (purge_loop fuel q) = aq_capacity q.
Proof.
  revert q. induction fuel as [|fuel IH]; intros q Hf; [lia|]. cbn.
  destruct (pop_cases q) as [(q' & _ & -> & ? & ?)|(x & q' & Eq & -> & <-)]; [done|]. apply IH. rewrite Eq in Hf. cbn in Hf. lia.
Qed.
Lemma purge_spec p : aq_items (pq_queue (purge p)) = [] /\ capacity_of (purge p) = capacity_of p.
Proof. apply purge_loop_spec. lia. Qed.
Lemma recv_loop_settled fuel p : settled p -> (length (aq_items (pq_queue p)) < fuel)%nat ->
  exists q, recv_loop fuel p = (head (packets p), with_queue p q) /\ qp_packet <$> aq_items q = tail (packets p) /\
    aq_items q = tail (aq_items (pq_queue p)) /\ aq_capacity q = capacity_of p.
Proof.
  unfold settled, packets, capacity_of. intros Hs Hf. destruct fuel as [|fuel]; [lia|]. cbn.
  destruct (pop_cases (pq_queue p)) as [(q' & Eq & -> & Ei & Ec)|(x & q' & Eq & -> & Ec)]; exists q'; rewrite Eq, ?Ei in *; cbn; [done|].
  apply Forall_cons in Hs as [[-> ->] _]. by rewrite Z.eqb_refl.
Qed.

(** What each does to the packets in the queue. *)
Lemma send_inner_spec p packet force : settled p ->
  let '(r, p') := send_inner p packet force in
  (r, packets p') = sent p packet force /\ settled p' /\ capacity_of p' = capacity_of p /\ accepting p' = accepting p.
Proof.
  intros Hs. unfold send_inner, sent, accepting. destruct (pq_receiver_open p) eqn:Eo; cbn [negb andb]; [|by rewrite Eo].
  destruct (is_active (pq_state p)) eqn:Ea; cbn [negb]; [|by rewrite Eo, Ea].
  pose proof (proj1 (aq_capacity_law _ (pq_queue p)) (mkQueued packet (epoch_of (pq_state p)))) as [Hc1 Hc2].
  assert (Hl : len (packets p) = len (aq_items (pq_queue p))) by (unfold packets, len; by rewrite length_fmap).
  rewrite Hl. unfold capacity_of, settled, packets in *. rewrite Ea in Hs. destruct (_ <? _) eqn:El; bool_prop.
  - destruct (aq_room_law _ (pq_queue p) (mkQueued packet (epoch_of (pq_state p))) El) as (H1 & H2 & H3 & H4).
    destruct force; [|destruct (aq_push _ _) as [r q]; cbn in H1, H2, Hc1; subst r]; cbn in *; rewrite ?H2, ?H4, ?fmap_app, Eo, Ea;
      (split; [done|]); (split; [apply Forall_app; split; [done|by apply Forall_singleton]|done]).
  - destruct (aq_full_law _ (pq_queue p) (mkQueued packet (epoch_of (pq_state p))) El) as (H1 & H2 & H3 & H4).
    destruct force; [|destruct (aq_push _ _) as [r q]; cbn in H1, H2, Hc1; subst r]; cbn in *; rewrite ?H2, ?H4, ?fmap_app, Eo, Ea; [|done].
    split; [by destruct (aq_items (pq_queue p))|]. split; [|done]. apply Forall_app. split; [|by apply Forall_singleton].
    destruct Hs; [done|]. done.
Qed.
Lemma recv_spec p : settled p ->
  let '(r, p') := try_recv p in
  r = head (packets p) /\ packets p' = tail (packets p) /\ settled p' /\ capacity_of p' = capacity_of p /\ accepting p' = accepting p.
Proof.
  intros Hs. unfold try_recv, try_recv_inner. destruct (recv_loop_settled _ p Hs (Nat.lt_succ_diag_r _)) as (q & -> & Hp & Hi & Hc).
  cbn. split; [done|]. split; [done|]. split; [|done]. unfold settled in *. cbn. rewrite Hi. by destruct Hs.
Qed.
Definition emptied (p p' : PacketQueue) : Prop := packets p' = [] /\ settled p' /\ capacity_of p' = capacity_of p.
Lemma purged p p' : pq_queue p' = pq_queue (purge p) -> emptied p p'.
Proof. destruct (purge_spec p) as [Hi Hc]. unfold emptied, packets, settled, capacity_of in *. intros ->. by rewrite Hi. Qed.
Lemma resume_spec p : emptied p (resume p).
Proof. by apply (purged (with_state p (u64_of (Z.shiftl (sat_add (epoch_of (pq_state p)) 1) 1)))). Qed.
Lemma suspend_spec p : emptied p (suspend p).
Proof. by apply (purged (with_state p (Z.land (pq_state p) (U64_MAX - QUEUE_ACTIVE)))). Qed.
Lemma receiver_drop_spec p : emptied p (PacketReceiver_drop p).
Proof. by apply (purged (with_open p false)). Qed.
Lemma channel_spec capacity active : let p := packet_channel capacity active in
  packets p = [] /\ settled p /\ capacity_of p = Z.max capacity 1 /\ accepting p = active.
Proof.
  cbn zeta. destruct (aq_new_law QueuedPacket (Z.max capacity 1) ltac:(lia)) as [Hi Hc].
  unfold packets, settled, capacity_of. cbn. rewrite Hi. split; [done|]. split; [done|]. split; [done|by destruct active].
Qed.

(** ** The operations, interleaved

    A thread that sends is between its loads, its push and its notification; the
    thread of the receiver is in a [try_recv], a [recv], or one of the calls that
    empty the queue.  Every access to the shared state is one step. *)

Inductive Sender :=
| SIdle
| SOpen (packet : T) (force : bool)                  (** saw [receiver_open] *)
| SLoaded (packet : T) (epoch : Z) (force : bool)    (** saw an active state *)
| SPushed                                            (** has yet to notify *)
| SLast                                              (** dropped as the last one, has yet to notify *)
| SGone.
(** Where a [try_recv] was called from: alone, or the first or second of a [recv]. *)
Inductive Caller := Direct | First | Second.
(** What a call that purges does after it. *)
Inductive Purge := Resuming (epoch : Z) | Suspending | Dropping.
Inductive Receiver :=
| RIdle
| RTop                                               (** at the head of the loop of [recv] *)
| RTry (from : Caller)
| RPopped (from : Caller) (queued : QueuedPacket)
| RCheck (from : Caller)                             (** found nothing, looks at [senders] *)
| RAsleep                                            (** waits for the notification *)
| RResume (previous : Z)
| RSuspend (state : Z)
| RPurge (then_ : Purge)
| RWake
| RClosed.
(** What happened, latest first: the state made active or inactive, a packet
    admitted by a sender, a packet handed out. *)
Inductive Event := Activated | Deactivated | Accepted (packet : T) | Delivered (packet : T).

Record Config := mkConfig { c_shared : PacketQueue; c_senders : list Sender; c_receiver : Receiver; c_history : list Event }.

(** [sender_step p s p' s' h] with the events [h]. *)
Inductive sender_step (p : PacketQueue) : Sender -> PacketQueue -> Sender -> list Event -> Prop :=
| ss_open packet force : pq_receiver_open p = true -> sender_step p SIdle p (SOpen packet force) []
| ss_closed : pq_receiver_open p = false -> sender_step p SIdle p SIdle []
| ss_admit packet force : is_active (pq_state p) = true ->
    sender_step p (SOpen packet force) p (SLoaded packet (epoch_of (pq_state p)) force) [Accepted packet]
| ss_inactive packet force : is_active (pq_state p) = false -> sender_step p (SOpen packet force) p SIdle []
| ss_force packet epoch : sender_step p (SLoaded packet epoch true) (with_queue p (aq_force_push (pq_queue p) (mkQueued packet epoch)).2) SPushed []
| ss_push packet epoch q : aq_push (pq_queue p) (mkQueued packet epoch) = (None, q) ->
    sender_step p (SLoaded packet epoch false) (with_queue p q) SPushed []
| ss_refused packet epoch x q : aq_push (pq_queue p) (mkQueued packet epoch) = (Some x, q) ->
    sender_step p (SLoaded packet epoch false) (with_queue p q) SIdle []
| ss_notify : sender_step p SPushed (with_notify p (notify_one (pq_notify p))) SIdle []
| ss_drop : pq_senders p <> 1 -> sender_step p SIdle (with_senders p (pq_senders p - 1)) SGone []
| ss_drop_last : pq_senders p = 1 -> sender_step p SIdle (with_senders p (pq_senders p - 1)) SLast []
| ss_drop_notify : sender_step p SLast (wake_all p) SGone [].

Definition after_none (from : Caller) : Receiver := match from with Direct => RIdle | _ => RCheck from end.
(** Leaving a [recv] drops the future it made. *)
Definition forget (from : Caller) (p : PacketQueue) : PacketQueue :=
  match from with Second => with_notify p (drop_notified (pq_notify p)) | _ => p end.
Inductive receiver_step (p : PacketQueue) : Receiver -> PacketQueue -> Receiver -> list Event -> Prop :=
| rs_try : receiver_step p RIdle p (RTry Direct) []
| rs_recv : receiver_step p RIdle p RTop []
| rs_cancel : receiver_step p RTop p RIdle []
| rs_top : receiver_step p RTop p (RTry First) []
| rs_pop from x q : aq_pop (pq_queue p) = (Some x, q) -> receiver_step p (RTry from) (with_queue p q) (RPopped from x) []
| rs_empty from q : aq_pop (pq_queue p) = (None, q) -> receiver_step p (RTry from) (with_queue p q) (after_none from) []
| rs_deliver from x : is_active (pq_state p) = true -> qp_epoch x = epoch_of (pq_state p) ->
    receiver_step p (RPopped from x) (forget from p) RIdle [Delivered (qp_packet x)]
| rs_discard from x : is_active (pq_state p) = false \/ qp_epoch x <> epoch_of (pq_state p) -> receiver_step p (RPopped from x) p (RTry from) []
| rs_disconnected from : pq_senders p = 0 ->
    receiver_step p (RCheck from) (forget from p) RIdle []
| rs_listen : pq_senders p <> 0 -> receiver_step p (RCheck First) (with_notify p (notified (pq_notify p))) (RTry Second) []
| rs_sleep : pq_senders p <> 0 -> receiver_step p (RCheck Second) p RAsleep []
| rs_poll b n : poll (pq_notify p) = (b, n) -> receiver_step p RAsleep (with_notify p n) (if b : bool then RTop else RAsleep) []
| rs_cancelled : receiver_step p RAsleep (with_notify p (drop_notified (pq_notify p))) RIdle []
| rs_resume : receiver_step p RIdle p (RResume (epoch_of (pq_state p))) []
| rs_clear previous : let epoch := sat_add previous 1 in
    receiver_step p (RResume previous) (with_state p (u64_of (Z.shiftl epoch 1))) (RPurge (Resuming epoch)) [Deactivated]
| rs_suspend : receiver_step p RIdle p (RSuspend (pq_state p)) []
| rs_stop state : receiver_step p (RSuspend state) (with_state p (Z.land state (U64_MAX - QUEUE_ACTIVE))) (RPurge Suspending) [Deactivated]
| rs_close : receiver_step p RIdle (with_open p false) (RPurge Dropping) []
| rs_purge then_ x q : aq_pop (pq_queue p) = (Some x, q) -> receiver_step p (RPurge then_) (with_queue p q) (RPurge then_) []
| rs_resumed epoch q : aq_pop (pq_queue p) = (None, q) ->
    receiver_step p (RPurge (Resuming epoch)) (with_state (with_queue p q) (Z.lor (u64_of (Z.shiftl epoch 1)) QUEUE_ACTIVE)) RWake [Activated]
| rs_suspended q : aq_pop (pq_queue p) = (None, q) -> receiver_step p (RPurge Suspending) (with_queue p q) RWake []
| rs_dropped q : aq_pop (pq_queue p) = (None, q) -> receiver_step p (RPurge Dropping) (wake_all (with_queue p q)) RClosed []
| rs_wake : receiver_step p RWake (wake_all p) RIdle [].

Inductive step : Config -> Config -> Prop :=
| step_sender p p' ts i s s' r h h' : ts !! i = Some s -> sender_step p s p' s' h' ->
    step (mkConfig p ts r h) (mkConfig p' (<[i := s']> ts) r (h' ++ h))
| step_clone p ts i r h : ts !! i = Some SIdle -> step (mkConfig p ts r h) (mkConfig (PacketSender_clone p) (ts ++ [SIdle]) r h)
| step_receiver p p' ts r r' h h' : receiver_step p r p' r' h' ->
    step (mkConfig p ts r h) (mkConfig p' ts r' (h' ++ h)).
Definition fresh_channel (capacity : Z) (active : bool) : Config := mkConfig (packet_channel capacity active) [SIdle] RIdle [].

(** ** Nothing is handed out after its epoch *)

(** Accepted since the state last changed. *)
Fixpoint recent (packet : T) (h : list Event) : Prop :=
  match h with
  | [] | Activated :: _ | Deactivated :: _ => False
  | Accepted x :: h => x = packet \/ recent packet h
  | Delivered _ :: h => recent packet h
  end.
Fixpoint deliveries_recent (h : list Event) : Prop :=
  match h with
  | [] => True
  | Delivered x :: h => recent x h /\ deliveries_recent h
  | _ :: h => deliveries_recent h
  end.
Definition is_change (e : Event) : bool := match e with Activated | Deactivated => true | _ => false end.
Lemma recent_split packet h : recent packet h -> exists since before, h = since ++ Accepted packet :: before /\ Forall (fun e => is_change e = false) since.
Proof.
  induction h as [|e h IH]; [done|]. destruct e as [| |x|x]; cbn; try done.
  - intros [->|H]; [by exists [], h|]. destruct (IH H) as (s & b & -> & Hs). exists (Accepted x :: s), b. by rewrite Forall_cons.
  - intros H. destruct (IH H) as (s & b & -> & Hs). exists (Delivered x :: s), b. by rewrite Forall_cons.
Qed.
Lemma deliveries_recent_split later packet earlier : deliveries_recent (later ++ Delivered packet :: earlier) -> recent packet earlier.
Proof. induction later as [|e later IH]; cbn; [by intros []|]. destruct e; try exact IH. intros []; by apply IH. Qed.

(** The entries that can still be handed out: queued, about to be pushed, popped. *)
Definition s_holds (s : Sender) (x : QueuedPacket) : Prop := match s with SLoaded packet epoch _ => x = mkQueued packet epoch | _ => False end.
Definition r_holds (r : Receiver) (x : QueuedPacket) : Prop := match r with RPopped _ y => x = y | _ => False end.
Definition held (p : PacketQueue) (x : QueuedPacket) : Prop := x ∈ aq_items (pq_queue p).
Definition carries (c : Config) (x : QueuedPacket) : Prop :=
  held (c_shared c) x \/ (exists s, s ∈ c_senders c /\ s_holds s x) \/ r_holds (c_receiver c) x.

Lemma held_push p y x : held (with_queue p (aq_push (pq_queue p) y).2) x -> held p x \/ x = y.
Proof.
  unfold held. cbn. destruct (decide (len (aq_items (pq_queue p)) < aq_capacity (pq_queue p))) as [Hl|Hl].
  - destruct (aq_room_law _ _ y Hl) as (_ & -> & _). rewrite elem_of_app, list_elem_of_singleton. tauto.
  - destruct (aq_full_law _ (pq_queue p) y ltac:(lia)) as (_ & -> & _). tauto.
Qed.
Lemma held_force p y x : held (with_queue p (aq_force_push (pq_queue p) y).2) x -> held p x \/ x = y.
Proof.
  unfold held. cbn. destruct (decide (len (aq_items (pq_queue p)) < aq_capacity (pq_queue p))) as [Hl|Hl].
  - destruct (aq_room_law _ _ y Hl) as (_ & _ & _ & ->). rewrite elem_of_app, list_elem_of_singleton. tauto.
  - destruct (aq_full_law _ (pq_queue p) y ltac:(lia)) as (_ & _ & _ & ->). rewrite elem_of_app, list_elem_of_singleton.
    destruct (aq_items (pq_queue p)); cbn; [tauto|]. rewrite elem_of_cons. tauto.
Qed.
Lemma held_pop p y q x : aq_pop (pq_queue p) = (Some y, q) -> x = y \/ held (with_queue p q) x <-> held p x.
Proof. intros E. unfold held. cbn. destruct (pop_cases (pq_queue p)) as [(q' & _ & E' & _)|(y' & q' & -> & E' & _)]; rewrite E in E'; simplify_eq; by rewrite elem_of_cons. Qed.
Lemma pop_none p q : aq_pop (pq_queue p) = (None, q) -> aq_items (pq_queue p) = [] /\ aq_items q = [].
Proof. intros E. destruct (pop_cases (pq_queue p)) as [(q' & ? & E' & ? & _)|(y' & q' & ? & E' & _)]; rewrite E in E'; by simplify_eq. Qed.

(** A sender passes on what it holds, and takes hold only of what it admits. *)
Lemma sender_carries p s p' s' h : sender_step p s p' s' h ->
  pq_state p' = pq_state p /\
  forall x, held p' x \/ s_holds s' x -> held p x \/ s_holds s x \/
    (is_active (pq_state p) = true /\ qp_epoch x = epoch_of (pq_state p) /\ h = [Accepted (qp_packet x)]).
Proof.
  intros H. split; [by destruct H|]. intros x. destruct H; cbn; try tauto.
  - intros [?|Hx]; [tauto|]. subst x. right. by right.
  - intros [Hx|Hx]; [|done]. apply held_force in Hx. tauto.
  - intros [Hx|Hx]; [|done]. replace q with (aq_push (pq_queue p) (mkQueued packet epoch)).2 in Hx by (by rewrite H). apply held_push in Hx. tauto.
  - intros [Hx|Hx]; [|done]. replace q with (aq_push (pq_queue p) (mkQueued packet epoch)).2 in Hx by (by rewrite H). apply held_push in Hx. tauto.
Qed.
Lemma receiver_carries p r p' r' h : receiver_step p r p' r' h -> forall x, held p' x \/ r_holds r' x -> held p x \/ r_holds r x.
Proof.
  intros H x. destruct H; cbn; try tauto.
  - rewrite <- (held_pop p _ _ x H). tauto.
  - unfold held at 1. cbn. rewrite (proj2 (pop_none _ _ H)). rewrite elem_of_nil. destruct from; cbn; tauto.
  - destruct from; cbn; tauto.
  - destruct from; cbn; tauto.
  - destruct b; cbn; tauto.
  - rewrite <- (held_pop p _ _ x H). tauto.
  - unfold held at 1. cbn. rewrite (proj2 (pop_none _ _ H)), elem_of_nil. tauto.
  - unfold held at 1. cbn. rewrite (proj2 (pop_none _ _ H)), elem_of_nil. tauto.
  - unfold held at 1. cbn. rewrite (proj2 (pop_none _ _ H)), elem_of_nil. tauto.
Qed.

Lemma is_active_mod s : is_active s = (s mod 2 =? 1).
Proof.
  unfold is_active. change QUEUE_ACTIVE with (Z.ones 1). rewrite Z.land_ones by lia. change (2 ^ 1) with 2.
  pose proof (Z.mod_pos_bound s 2 ltac:(lia)). destruct (s mod 2 =? 0) eqn:E, (s mod 2 =? 1) eqn:E'; bool_prop; lia || done.
Qed.
Lemma epoch_of_div s : epoch_of s = s / 2.
Proof. unfold epoch_of. by rewrite Z.shiftr_div_pow2. Qed.
(** A state is an epoch and a flag. *)
Lemma state_parts e b : is_active (2 * e + Z.b2z b) = b /\ epoch_of (2 * e + Z.b2z b) = e.
Proof.
  rewrite is_active_mod, epoch_of_div. split; [|symmetry; apply (Z.div_unique _ _ _ (Z.b2z b)); destruct b; cbn [Z.b2z]; lia].
  replace (2 * e + Z.b2z b) with (Z.b2z b + e * 2) by lia. rewrite Z.mod_add by lia. by destruct b.
Qed.
Lemma state_eta s : s = 2 * epoch_of s + Z.b2z (is_active s).
Proof.
  rewrite is_active_mod, epoch_of_div. pose proof (Z.mod_pos_bound s 2 ltac:(lia)). pose proof (Z.div_mod s 2 ltac:(lia)).
  destruct (s mod 2 =? 1) eqn:E; bool_prop; cbn; lia.
Qed.
Lemma shifted e : 0 <= e < 2 ^ 63 -> u64_of (Z.shiftl e 1) = 2 * e + Z.b2z false.
Proof. intros H. unfold u64_of. rewrite Z.shiftl_mul_pow2 by lia. rewrite Z.mod_small; cbn; lia. Qed.
Lemma activated e : Z.lor (2 * e + Z.b2z false) QUEUE_ACTIVE = 2 * e + Z.b2z true.
Proof.
  pose proof (Z.add_lor_land (2 * e + Z.b2z false) QUEUE_ACTIVE) as H. change QUEUE_ACTIVE with (Z.ones 1) in H at 2. rewrite Z.land_ones in H by lia.
  change (2 ^ 1) with 2 in H. replace ((2 * e + Z.b2z false) mod 2) with 0 in H by (rewrite Z.mul_comm; cbn [Z.b2z]; by rewrite Z.add_0_r, Z.mod_mul).
  cbn [Z.b2z] in *. unfold QUEUE_ACTIVE in *. lia.
Qed.
Lemma deactivated s : 0 <= s < 2 ^ 64 -> Z.land s (U64_MAX - QUEUE_ACTIVE) = 2 * epoch_of s + Z.b2z false.
Proof.
  intros Hs. set (m := U64_MAX - QUEUE_ACTIVE). pose proof (Z.add_lor_land (Z.land s m) (Z.land s QUEUE_ACTIVE)) as H.
  rewrite <- Z.land_lor_distr_r in H. change (Z.lor m QUEUE_ACTIVE) with (Z.ones 64) in H. rewrite Z.land_ones, Z.mod_small in H by lia.
  replace (Z.land (Z.land s m) (Z.land s QUEUE_ACTIVE)) with 0 in H.
  2: { rewrite Z.land_assoc, (Z.land_comm _ s), Z.land_assoc, Z.land_diag, <- Z.land_assoc.
       change (Z.land m QUEUE_ACTIVE) with 0. by rewrite Z.land_0_r. }
  change QUEUE_ACTIVE with (Z.ones 1) in H. rewrite (Z.land_ones s 1) in H by lia. change (2 ^ 1) with 2 in H.
  rewrite epoch_of_div. pose proof (Z.div_mod s 2 ltac:(lia)). cbn. lia.
Qed.

Definition entry_ok (state : Z) (h : list Event) (x : QueuedPacket) : Prop :=
  qp_epoch x <= epoch_of state /\ (is_active state = true -> qp_epoch x = epoch_of state -> recent (qp_packet x) h).
Definition phase_ok (c : Config) : Prop :=
  let state := pq_state (c_shared c) in
  match c_receiver c with
  | RResume previous => previous = epoch_of state
  | RSuspend s => s = state
  | RPurge (Resuming epoch) => state = 2 * epoch + Z.b2z false /\ forall x, carries c x -> qp_epoch x < epoch
  | _ => True
  end.
Record epochs_ok (c : Config) : Prop := {
  eo_state : 0 <= epoch_of (pq_state (c_shared c)) <= len (c_history c);
  eo_entries : forall x, carries c x -> entry_ok (pq_state (c_shared c)) (c_history c) x;
  eo_phase : phase_ok c;
  eo_history : deliveries_recent (c_history c);
}.

Lemma entry_ok_more state h h' x : Forall (fun e => is_change e = false) h' -> entry_ok state h x -> entry_ok state (h' ++ h) x.
Proof.
  intros Hh [? Hr]. split; [done|]. intros Ha He. specialize (Hr Ha He). induction Hh as [|[] h' ? ? IH]; try done. by right.
Qed.
(** Another epoch, or no epoch in force: nothing to show. *)
Lemma entry_ok_new e b h x : qp_epoch x <= e -> b = false \/ qp_epoch x < e -> entry_ok (2 * e + Z.b2z b) h x.
Proof. intros Hx Hb. destruct (state_parts e b) as [Ea Ee]. unfold entry_ok. rewrite Ea, Ee. split; [done|]. intros -> ?. destruct Hb; [done|lia]. Qed.

Lemma carries_sender p p' ts i s s' r h h' x : ts !! i = Some s -> sender_step p s p' s' h' ->
  carries (mkConfig p' (<[i := s']> ts) r h) x -> carries (mkConfig p ts r h) x \/
    (is_active (pq_state p) = true /\ qp_epoch x = epoch_of (pq_state p) /\ h' = [Accepted (qp_packet x)]).
Proof.
  intros Hi Hs Hx. pose proof (proj2 (sender_carries _ _ _ _ _ Hs) x) as Hc. apply list_elem_of_lookup_2 in Hi as Hin.
  unfold carries in *. cbn in *. destruct Hx as [Hx|[(s0 & Hs0 & Hx)|Hx]]; [| |tauto].
  - destruct (Hc (or_introl Hx)) as [?|[?|?]]; eauto 6.
  - apply list_elem_of_lookup in Hs0 as [j Hj]. destruct (decide (i = j)) as [->|Hij].
    + rewrite list_lookup_insert_eq in Hj by (by eapply lookup_lt_Some). simplify_eq. destruct (Hc (or_intror Hx)) as [?|[?|?]]; eauto 6.
    + rewrite list_lookup_insert_ne in Hj by done. apply list_elem_of_lookup_2 in Hj. eauto 6.
Qed.
Lemma carries_receiver p p' ts r r' h h' x : receiver_step p r p' r' h' ->
  carries (mkConfig p' ts r' (h' ++ h)) x -> carries (mkConfig p ts r h) x.
Proof. intros Hr Hx. pose proof (receiver_carries _ _ _ _ _ Hr x). unfold carries in *. cbn in *. tauto. Qed.

Lemma epochs_kept p ts r h p' ts' r' h' : epochs_ok (mkConfig p ts r h) -> pq_state p' = pq_state p -> Forall (fun e => is_change e = false) h' ->
  (forall x, carries (mkConfig p' ts' r' (h' ++ h)) x -> carries (mkConfig p ts r h) x \/ entry_ok (pq_state p) (h' ++ h) x) ->
  deliveries_recent (h' ++ h) -> phase_ok (mkConfig p' ts' r' (h' ++ h)) -> epochs_ok (mkConfig p' ts' r' (h' ++ h)).
Proof.
  intros [Hs He Hp Hh] Es Hc Hx Hh' Hp'. split; cbn in *; try done.
  - rewrite Es. unfold len in *. rewrite length_app. lia.
  - intros x Hcx. rewrite Es. destruct (Hx x Hcx) as [?|?]; [|done]. by apply entry_ok_more, He.
Qed.
Lemma epochs_sender p ts r h i s s' p' h' : epochs_ok (mkConfig p ts r h) -> ts !! i = Some s -> sender_step p s p' s' h' ->
  epochs_ok (mkConfig p' (<[i := s']> ts) r (h' ++ h)).
Proof.
  intros Hok Hi Hs. pose proof (fun x => carries_sender _ _ _ _ _ _ r (h' ++ h) h' x Hi Hs) as Hc. pose proof (proj1 (sender_carries _ _ _ _ _ Hs)) as Es.
  assert (Hh : h' = [] \/ exists x, h' = [Accepted x]) by (destruct Hs; eauto).
  apply (epochs_kept p ts r h); try done.
  - destruct Hh as [->|[x ->]]; repeat constructor.
  - intros x Hx. destruct (Hc x Hx) as [?|(Ha & He & Eh)]; [by left|]. right. rewrite Eh. split; [lia|]. intros _ _. by left.
  - destruct Hok as [_ _ _ Hd]. destruct Hh as [->|[x ->]]; done.
  - destruct Hok as [_ _ Hp _]. unfold phase_ok in *. cbn [c_shared c_receiver] in *. rewrite Es. destruct r as [| | | | | | | |[e| |] | |]; try done.
    destruct Hp as [Hst Hlt]. split; [done|]. intros x Hx. destruct (Hc x Hx) as [Hx'|(Ha & _)]; [by apply Hlt|].
    rewrite Hst, (proj1 (state_parts e false)) in Ha. done.
Qed.
Lemma epochs_clone p ts r h : epochs_ok (mkConfig p ts r h) -> epochs_ok (mkConfig (PacketSender_clone p) (ts ++ [SIdle]) r h).
Proof.
  intros Hok. assert (Hc : forall x, carries (mkConfig (PacketSender_clone p) (ts ++ [SIdle]) r h) x -> carries (mkConfig p ts r h) x).
  { intros x [?|[(s & Hs & Hx)|?]]; [by left| |by right; right]. right; left. cbn in *. apply elem_of_app in Hs as [Hs|Hs]; [eauto|].
    apply list_elem_of_singleton in Hs as ->. done. }
  destruct Hok as [Hst He Hp Hh]. split; cbn; [done|by intros x Hx; apply He, Hc| |done].
  unfold phase_ok in *. cbn [c_shared c_receiver PacketSender_clone with_senders pq_state] in *. destruct r as [| | | | | | | |[e| |] | |]; try done. destruct Hp as [? Hlt]. split; [done|]. intros x Hx. by apply Hlt, Hc.
Qed.
Lemma epochs_receiver p ts r h p' r' h' : epochs_ok (mkConfig p ts r h) -> receiver_step p r p' r' h' -> len (h' ++ h) < 2 ^ 63 ->
  epochs_ok (mkConfig p' ts r' (h' ++ h)).
Proof.
  intros Hok Hr Hlen. pose proof (fun x => carries_receiver p p' ts r r' h h' x Hr) as Hc.
  pose proof Hok as [Hst He Hp Hh]. unfold phase_ok in Hp. cbn [c_shared c_receiver c_history] in Hst, He, Hp, Hh.
  unfold len in Hst, Hlen. rewrite length_app in Hlen. pose proof (state_eta (pq_state p)) as Hs.
  destruct Hr; cbn iota in Hp;
    try (apply (epochs_kept _ _ _ _ _ _ _ _ Hok); [try destruct from; done|repeat constructor|by left; apply Hc|exact Hh|try destruct from; try destruct b; done]);
    cbn [length] in Hlen.
  - apply (epochs_kept _ _ _ _ _ _ _ _ Hok); [by destruct from|repeat constructor|by left; apply Hc| |done]. split; [|done].
    destruct (He x ltac:(by right; right)) as [_ Hx]. by apply Hx.
  - assert (Ee : epoch = epoch_of (pq_state p) + 1) by (subst previous; unfold epoch, sat_add, USIZE_MAX; lia). clearbody epoch. subst epoch.
    rewrite shifted in * by lia. set (e := epoch_of (pq_state p)) in *. pose proof (proj2 (state_parts (e + 1) false)) as E1.
    assert (Hlt : forall x, carries (mkConfig p ts (RResume previous) h) x -> qp_epoch x < e + 1) by (intros x Hx; destruct (He x Hx); lia).
    split; cbn [c_shared c_history with_state pq_state]; [rewrite E1; unfold len; cbn; lia| |split; [done|auto]|done].
    intros x Hx. specialize (Hlt x (Hc x Hx)). apply entry_ok_new; lia || auto.
  - subst state. rewrite deactivated in * by (destruct (is_active (pq_state p)); cbn [Z.b2z] in Hs; lia).
    set (e := epoch_of (pq_state p)) in *. pose proof (proj2 (state_parts e false)) as E1.
    split; cbn [c_shared c_history with_state pq_state]; [rewrite E1; unfold len; cbn; lia| |done|done].
    intros x Hx. apply entry_ok_new; [|auto]. by destruct (He x (Hc x Hx)).
  - apply (epochs_kept _ _ _ _ _ _ _ _ Hok); [done|constructor|by left; apply Hc|exact Hh|]. destruct then_; [|done..].
    destruct Hp as [Hs' Hlt]. split; [done|]. intros y Hy. apply Hlt, Hc, Hy.
  - destruct Hp as [Hs' Hlt]. pose proof (proj2 (state_parts epoch true)) as E1. rewrite Hs', (proj2 (state_parts epoch false)) in Hst.
    rewrite shifted in * by lia. rewrite activated in *. split; cbn [c_shared c_history with_state pq_state]; [rewrite E1; unfold len; cbn; lia| |done|done].
    intros x Hx. specialize (Hlt x (Hc x Hx)). apply entry_ok_new; lia || auto.
Qed.

Lemma step_history c c' : step c c' -> len (c_history c) <= len (c_history c').
Proof. intros []; cbn; unfold len; rewrite ?length_app; lia. Qed.
Lemma epochs_step c c' : epochs_ok c -> step c c' -> len (c_history c') < 2 ^ 63 -> epochs_ok c'.
Proof. intros Hok Hs Hl. destruct Hs; [by eapply epochs_sender|by apply epochs_clone|by eapply epochs_receiver]. Qed.
Lemma epochs_run c c' : rtc step c c' -> epochs_ok c -> len (c_history c') < 2 ^ 63 -> epochs_ok c' .
Proof.
  intros Hs Hok. induction Hs as [|c1 c2 c3 H12 H23 IH]; [done|]. intros Hl. apply IH; [|done]. apply (epochs_step c1); [done..|].
  assert (Hm : len (c_history c2) <= len (c_history c3)) by (clear -H23; induction H23 as [|a b d Hab _ IH]; [lia|]; apply step_history in Hab; lia). lia.
Qed.
Lemma epochs_initial capacity active : epochs_ok (fresh_channel capacity active).
Proof.
  destruct (aq_new_law QueuedPacket (Z.max capacity 1) ltac:(lia)) as [Hi _]. split; [by destruct active| |done|done].
  intros x [Hx|[(s & Hs & Hx)|Hx]]; [unfold held in Hx; cbn in Hx; rewrite Hi in Hx; by apply elem_of_nil in Hx| |done].
  apply list_elem_of_singleton in Hs as ->. done.
Qed.

(** C7. However any number of senders, their clones and the receiver interleave,
    a packet handed out was admitted by a sender since the queue was last resumed
    or suspended: nothing sent to an earlier network epoch comes out of a later
    one, a send that was under way when the epoch changed included. *)
Theorem stale_packets_never_delivered capacity active c later packet earlier :
  rtc step (fresh_channel capacity active) c -> len (c_history c) < 2 ^ 63 -> c_history c = later ++ Delivered packet :: earlier ->
  exists since before, earlier = since ++ Accepted packet :: before /\ Forall (fun e => is_change e = false) since.
Proof.
  intros Hs Hl Eh. destruct (epochs_run _ _ Hs (epochs_initial capacity active) Hl) as [_ _ _ Hd]. rewrite Eh in Hd.
  by apply recent_split, (deliveries_recent_split later).
Qed.

(** ** No wake-up is lost *)

Context {NL : NotifyLaws NT}.

Definition live (s : Sender) : bool := match s with SLast | SGone => false | _ => true end.
Definition live_count (ts : list Sender) : Z := len (filter (fun s => live s = true) ts).
Definition listening (r : Receiver) : bool :=
  match r with RTry Second | RPopped Second _ | RCheck Second | RAsleep => true | _ => false end.
(** It has looked at the queue, or at the senders, for the last time before it sleeps. *)
Definition past_queue (r : Receiver) : bool := match r with RCheck Second | RAsleep => true | _ => false end.
Definition past_senders (r : Receiver) : bool := match r with RAsleep => true | _ => false end.
Record wakes_ok (c : Config) : Prop := {
  wo_count : pq_senders (c_shared c) = live_count (c_senders c);
  wo_future : listening (c_receiver c) = true -> outstanding (pq_notify (c_shared c)) = true;
  wo_queue : past_queue (c_receiver c) = true -> aq_items (pq_queue (c_shared c)) <> [] ->
    ready (pq_notify (c_shared c)) = true \/ SPushed ∈ c_senders c;
  wo_senders : past_senders (c_receiver c) = true -> pq_senders (c_shared c) = 0 ->
    ready (pq_notify (c_shared c)) = true \/ SLast ∈ c_senders c;
}.

Lemma live_count_insert ts i s s' : ts !! i = Some s -> live_count (<[i := s']> ts) = live_count ts - Z.b2z (live s) + Z.b2z (live s').
Proof.
  intros Hi. apply lookup_lt_Some in Hi as Hlt. unfold live_count, len. rewrite insert_take_drop by done.
  rewrite <- (take_drop_middle ts i s Hi) at 3. rewrite !filter_app, !filter_cons, !length_app.
  repeat destruct decide; destruct (live s), (live s'); cbn; try congruence; lia.
Qed.
Lemma live_count_app ts ts' : live_count (ts ++ ts') = live_count ts + live_count ts'.
Proof. unfold live_count, len. rewrite filter_app, length_app. lia. Qed.
Lemma live_count_pos ts i s : ts !! i = Some s -> live s = true -> 0 < live_count ts.
Proof.
  intros Hi Hs. unfold live_count, len. destruct (filter _ ts) as [|x l] eqn:E; [|cbn; lia].
  assert (Hx : s ∈ filter (fun s => live s = true) ts) by (apply list_elem_of_filter; split; [done|by eapply list_elem_of_lookup_2]).
  rewrite E in Hx. by apply elem_of_nil in Hx.
Qed.
(** Another thread keeps its place. *)
Lemma elem_of_insert_other (ts : list Sender) i s s' x : ts !! i = Some s -> x ∈ ts -> x <> s -> x ∈ <[i := s']> ts.
Proof.
  intros Hi Hx Hne. apply list_elem_of_lookup in Hx as [j Hj]. apply list_elem_of_lookup. exists j.
  destruct (decide (i = j)) as [->|Hij]; [simplify_eq|by rewrite list_lookup_insert_ne].
Qed.
Lemma elem_of_insert_self (ts : list Sender) i s s' : ts !! i = Some s -> s' ∈ <[i := s']> ts.
Proof. intros Hi. apply list_elem_of_lookup. exists i. apply list_lookup_insert_eq. by eapply lookup_lt_Some. Qed.

(** What a step of a sender does to what the receiver waits for. *)
Lemma sender_wakes p s p' s' h : sender_step p s p' s' h ->
  pq_senders p' = pq_senders p - Z.b2z (live s) + Z.b2z (live s') /\
  outstanding (pq_notify p') = outstanding (pq_notify p) /\
  (ready (pq_notify p) = true -> ready (pq_notify p') = true) /\
  (s = SPushed -> ready (pq_notify p') = true) /\
  (s = SLast -> outstanding (pq_notify p) = true -> ready (pq_notify p') = true) /\
  (aq_items (pq_queue p') <> [] -> aq_items (pq_queue p) <> [] \/ s' = SPushed) /\
  (pq_senders p' = 0 -> pq_senders p <> 0 -> s' = SLast).
Proof.
  intros H. pose proof (notify_one_law (pq_notify p)) as [H1 H2]. pose proof (notify_waiters_law (pq_notify p)) as [H3 H4].
  destruct H; cbn; try (split_and!; try done; try lia; auto; fail).
  - split_and!; try done; try lia; auto. intros Hne. left. contradict Hne.
    destruct (decide (len (aq_items (pq_queue p)) < aq_capacity (pq_queue p))) as [Hl|Hl].
    + destruct (aq_room_law _ _ (mkQueued packet epoch) Hl) as (E & _). by rewrite H in E.
    + destruct (aq_full_law _ (pq_queue p) (mkQueued packet epoch) ltac:(lia)) as (_ & E & _). rewrite H in E. cbn in E. by rewrite E.
Qed.

Lemma wakes_sender p ts r h h' i s s' p' : wakes_ok (mkConfig p ts r h) -> ts !! i = Some s -> sender_step p s p' s' h' ->
  wakes_ok (mkConfig p' (<[i := s']> ts) r (h' ++ h)).
Proof.
  intros [Hc Hf Hq Hs] Hi Hst. cbn in *. destruct (sender_wakes _ _ _ _ _ Hst) as (W1 & W2 & W3 & W4 & W5 & W6 & W7). split; cbn.
  - rewrite (live_count_insert _ _ _ _ Hi). lia.
  - intros Hl. rewrite W2. auto.
  - intros Hp Hne. destruct (W6 Hne) as [Hne'|Es]; [|rewrite Es; right; by eapply elem_of_insert_self].
    destruct (Hq Hp Hne') as [?|Hin]; [left; auto|]. destruct s; try (right; by apply (elem_of_insert_other _ _ _ _ _ Hi)). left; auto.
  - intros Hp H0. assert (Hl : listening r = true) by (by destruct r).
    destruct (decide (pq_senders p = 0)) as [Hz|Hz]; [|rewrite (W7 H0 Hz); right; by eapply elem_of_insert_self].
    destruct (Hs Hp Hz) as [?|Hin]; [left; auto|]. destruct s; try (right; by apply (elem_of_insert_other _ _ _ _ _ Hi)). left; auto.
Qed.
Lemma wakes_clone p ts i r h : wakes_ok (mkConfig p ts r h) -> ts !! i = Some SIdle -> wakes_ok (mkConfig (PacketSender_clone p) (ts ++ [SIdle]) r h).
Proof.
  intros [Hc Hf Hq Hs] Hi. cbn in *. pose proof (live_count_pos _ _ _ Hi eq_refl). split; cbn; [|done| |].
  - rewrite live_count_app. change (live_count [SIdle]) with 1. lia.
  - intros Hp Hne. rewrite elem_of_app. destruct (Hq Hp Hne); auto.
  - lia.
Qed.
(** The receiver stops listening, or keeps what it waits for. *)
Lemma wakes_kept p ts r h p' r' h' : wakes_ok (mkConfig p ts r h) -> pq_senders p' = pq_senders p ->
  (listening r' = true -> outstanding (pq_notify p') = true) -> (past_queue r' = true -> aq_items (pq_queue p') <> [] -> ready (pq_notify p') = true \/ SPushed ∈ ts) ->
  (past_senders r' = true -> pq_senders p' = 0 -> ready (pq_notify p') = true \/ SLast ∈ ts) -> wakes_ok (mkConfig p' ts r' h').
Proof. intros [Hc Hf Hq Hs] Es Hf' Hq' Hs'. split; cbn; [by rewrite Es|done..]. Qed.
Lemma wakes_receiver p ts r h p' r' h' : wakes_ok (mkConfig p ts r h) -> receiver_step p r p' r' h' -> wakes_ok (mkConfig p' ts r' (h' ++ h)).
Proof.
  intros Hok Hr. pose proof Hok as [Hc Hf Hq Hs]. cbn in Hc, Hf, Hq, Hs.
  destruct Hr; try (apply (wakes_kept _ _ _ _ _ _ _ Hok); try destruct from; done).
  - apply (wakes_kept _ _ _ _ _ _ _ Hok); [done|destruct from; try done; by apply Hf| |destruct from; done].
    cbn. by rewrite (proj2 (pop_none _ _ H)).
  - apply (wakes_kept _ _ _ _ _ _ _ Hok); [done| |done..]. intros _. apply notified_law.
  - pose proof (poll_law (pq_notify p)) as [P1 P2]. rewrite H in P1, P2. cbn in P1, P2.
    apply (wakes_kept _ _ _ _ _ _ _ Hok); [done|..]; destruct b; try done; cbn; destruct (P2 (eq_sym P1)) as [P3 P4].
    + intros _. rewrite P3. by apply Hf.
    + intros _ Hne. destruct (Hq eq_refl Hne); [congruence|auto].
    + intros _ H0. destruct (Hs eq_refl H0); [congruence|auto].
Qed.
Lemma wakes_step c c' : wakes_ok c -> step c c' -> wakes_ok c'.
Proof. intros Hok Hs. destruct Hs; [by eapply wakes_sender|by eapply wakes_clone|by eapply wakes_receiver]. Qed.
Lemma wakes_initial capacity active : wakes_ok (fresh_channel capacity active).
Proof. by split. Qed.

(** No wake-up is lost: whenever the receiver of a channel sleeps and its
    notification has not arrived, a packet in the queue means a sender has pushed
    it and is about to notify, and the loss of the last sender that this sender
    is about to notify; once every sender is at rest, the queue is empty and
    somebody can still send. *)
Theorem no_lost_wakeup capacity active c :
  rtc step (fresh_channel capacity active) c -> c_receiver c = RAsleep -> ready (pq_notify (c_shared c)) = false ->
  (aq_items (pq_queue (c_shared c)) <> [] -> SPushed ∈ c_senders c) /\
  (pq_senders (c_shared c) = 0 -> SLast ∈ c_senders c) /\
  (Forall (fun s => s = SIdle \/ s = SGone) (c_senders c) -> aq_items (pq_queue (c_shared c)) = [] /\ SIdle ∈ c_senders c).
Proof.
  intros Hs Er Ep. assert (Hok : wakes_ok c) by (clear Er Ep; eapply (rtc_ind_r wakes_ok); eauto using wakes_initial, wakes_step).
  destruct Hok as [Hc _ Hq Hn]. rewrite Er in Hq, Hn. rewrite Ep in Hq, Hn. cbn in Hq, Hn.
  assert (Hq' : aq_items (pq_queue (c_shared c)) <> [] -> SPushed ∈ c_senders c) by (intros Hne; by destruct (Hq eq_refl Hne)).
  assert (Hn' : pq_senders (c_shared c) = 0 -> SLast ∈ c_senders c) by (intros H0; by destruct (Hn eq_refl H0)).
  split; [done|]. split; [done|]. intros Hall. rewrite Forall_forall in Hall. split.
  - destruct (aq_items _) eqn:E; [done|]. destruct (Hall SPushed); [by apply Hq'|done..].
  - destruct (filter (fun s => live s = true) (c_senders c)) as [|s l] eqn:E.
    + destruct (Hall SLast); [|done..]. apply Hn'. rewrite Hc. unfold live_count. by rewrite E.
    + assert (Hin : s ∈ filter (fun s => live s = true) (c_senders c)) by (rewrite E; by left).
      apply list_elem_of_filter in Hin as [Hl Hin]. destruct (Hall s Hin); by subst s.
Qed.

(** ** The functions are runs of the steps *)

Definition reaches (p : PacketQueue) (ts : list Sender) (r : Receiver) (p' : PacketQueue) (r' : Receiver) : Prop :=
  forall h, exists h', rtc step (mkConfig p ts r h) (mkConfig p' ts r' h').
Lemma reaches_refl p ts r : reaches p ts r p r.
Proof. intros h. by exists h. Qed.
Lemma reaches_step p ts r p1 r1 h1 p2 r2 : receiver_step p r p1 r1 h1 -> reaches p1 ts r1 p2 r2 -> reaches p ts r p2 r2.
Proof. intros Hs Hr h. destruct (Hr (h1 ++ h)) as [h' Hh]. exists h'. eapply rtc_l; [by apply step_receiver|done]. Qed.

Lemma send_is_run p ts i r packet force : ts !! i = Some SIdle -> reaches p ts r (send_inner p packet force).2 r.
Proof.
  intros Hi h. pose proof (lookup_lt_Some _ _ _ Hi) as Hlt.
  assert (Hto : forall s p1 s1 h1 h0, sender_step p s p1 s1 h1 -> step (mkConfig p (<[i := s]> ts) r h0) (mkConfig p1 (<[i := s1]> ts) r (h1 ++ h0))).
  { intros s p1 s1 h1 h0 Hs. rewrite <- (list_insert_insert_eq ts i s1 s). apply step_sender with s; [by apply list_lookup_insert_eq|done]. }
  rewrite <- (list_insert_id ts i SIdle Hi). unfold send_inner.
  destruct (pq_receiver_open p) eqn:Eo; cbn [negb]; [|by exists h]. destruct (is_active (pq_state p)) eqn:Ea; cbn [negb]; [|by exists h].
  set (e := epoch_of (pq_state p)). pose proof (Hto _ _ _ _ h (ss_open p packet force Eo)) as S1.
  pose proof (Hto _ _ _ _ ([] ++ h) (ss_admit p packet force Ea)) as S2. fold e in S2.
  assert (Hend : forall q, (forall h0, step (mkConfig p (<[i := SLoaded packet e force]> ts) r h0) (mkConfig (with_queue p q) (<[i := SPushed]> ts) r h0)) ->
    exists h', rtc step (mkConfig p (<[i := SIdle]> ts) r h) (mkConfig (with_notify (with_queue p q) (notify_one (pq_notify p))) (<[i := SIdle]> ts) r h')).
  { intros q S3. eexists. eapply rtc_l; [exact S1|]. eapply rtc_l; [exact S2|]. eapply rtc_l; [exact (S3 _)|]. apply rtc_once.
    rewrite <- (list_insert_insert_eq ts i SIdle SPushed). apply step_sender with SPushed; [by apply list_lookup_insert_eq|]. apply (ss_notify (with_queue p q)). }
  destruct force; [apply Hend; intros h0; exact (Hto _ _ _ _ h0 (ss_force p packet e))|].
  destruct (aq_push (pq_queue p) (mkQueued packet e)) as [[x|] q] eqn:Eq; cbn; [|apply Hend; intros h0; exact (Hto _ _ _ _ h0 (ss_push p packet e q Eq))].
  eexists. eapply rtc_l; [exact S1|]. eapply rtc_l; [exact S2|]. apply rtc_once. exact (Hto _ _ _ _ _ (ss_refused p packet e x q Eq)).
Qed.
Lemma try_recv_is_run p ts : reaches p ts RIdle (try_recv_inner p).2 RIdle.
Proof.
  assert (H : forall fuel p, (length (aq_items (pq_queue p)) < fuel)%nat -> reaches p ts (RTry Direct) (recv_loop fuel p).2 RIdle).
  { induction fuel as [|fuel IH]; clear p; intros p Hf; [lia|]. cbn.
    destruct (pop_cases (pq_queue p)) as [(q & _ & E & _)|(x & q & Ei & E & _)]; rewrite E.
    - eapply reaches_step; [by apply rs_empty|]. apply reaches_refl.
    - eapply reaches_step; [by apply rs_pop|]. destruct (is_active _ && _) eqn:Eb; cbn in Eb.
      + apply andb_true_iff in Eb as [Ea Ee]. bool_prop. eapply reaches_step; [by apply (rs_deliver (with_queue p q) Direct x)|]. apply reaches_refl.
      + eapply reaches_step; [apply (rs_discard (with_queue p q) Direct x)|].
        { cbn. destruct (is_active (pq_state p)); cbn in Eb; bool_prop; auto. }
        apply IH. rewrite Ei in Hf. cbn in *. lia. }
  eapply reaches_step; [apply rs_try|]. apply H. lia.
Qed.
Lemma purge_is_run then_ p1 r1 ts p :
  (forall q q', aq_pop q = (None, q') -> reaches (with_queue p q) ts (RPurge then_) (p1 q') r1) ->
  forall fuel q, (length (aq_items q) < fuel)%nat -> reaches (with_queue p q) ts (RPurge then_) (p1 (purge_loop fuel q)) r1.
Proof.
  intros Hend. induction fuel as [|fuel IH]; intros q Hf; [lia|]. cbn.
  destruct (pop_cases q) as [(q' & _ & E & _)|(x & q' & Ei & E & _)]; rewrite E; [by apply Hend|].
  eapply reaches_step; [by apply (rs_purge (with_queue p q) then_ x)|]. apply (IH q'). rewrite Ei in Hf. cbn in Hf. lia.
Qed.
Lemma resume_is_run p ts : reaches p ts RIdle (resume p) RIdle.
Proof.
  eapply reaches_step; [apply rs_resume|]. eapply reaches_step; [apply rs_clear|]. unfold resume. set (epoch := sat_add _ 1).
  set (p0 := with_state p (u64_of (Z.shiftl epoch 1))).
  apply (purge_is_run (Resuming epoch) (fun q => wake_all (with_state (with_queue p0 q) (Z.lor (u64_of (Z.shiftl epoch 1)) QUEUE_ACTIVE))) RIdle ts p0
    ltac:(intros q q' E; eapply reaches_step; [by apply (rs_resumed (with_queue p0 q))|]; eapply reaches_step; [apply rs_wake|]; apply reaches_refl)
    (S (length (aq_items (pq_queue p)))) (pq_queue p)). lia.
Qed.
Lemma suspend_is_run p ts : reaches p ts RIdle (suspend p) RIdle.
Proof.
  eapply reaches_step; [apply rs_suspend|]. eapply reaches_step; [apply rs_stop|]. unfold suspend. set (p0 := with_state p _).
  apply (purge_is_run Suspending (fun q => wake_all (with_queue p0 q)) RIdle ts p0
    ltac:(intros q q' E; eapply reaches_step; [by apply (rs_suspended (with_queue p0 q))|]; eapply reaches_step; [apply rs_wake|]; apply reaches_refl)
    (S (length (aq_items (pq_queue p)))) (pq_queue p)). lia.
Qed.
End Channel.
Arguments QueuedPacket T : clear implicits.
Arguments PacketQueue {_ _} T.
Arguments Config {_ _} T.
Arguments Event T : clear implicits.

(** ** Instances *)

Record list_queue (T : Type) := mkListQueue { lq_capacity : Z; lq_items : list T }.
Arguments mkListQueue {T} _ _.
Arguments lq_capacity {T} _.
Arguments lq_items {T} _.
#[global] Instance demo_array_queue : ArrayQueue := {
  aq := list_queue;
  aq_items := fun T => lq_items;
  aq_capacity := fun T => lq_capacity;
  aq_new := fun T n => mkListQueue n [];
  aq_push := fun T q x => if len (lq_items q) <? lq_capacity q then (None, mkListQueue (lq_capacity q) (lq_items q ++ [x])) else (Some x, q);
  aq_force_push := fun T q x => if len (lq_items q) <? lq_capacity q then (None, mkListQueue (lq_capacity q) (lq_items q ++ [x]))
    else (head (lq_items q), mkListQueue (lq_capacity q) (tail (lq_items q) ++ [x]));
  aq_pop := fun T q => (head (lq_items q), mkListQueue (lq_capacity q) (tail (lq_items q)));
}.
#[global] Instance demo_array_queue_laws : ArrayQueueLaws demo_array_queue.
Proof.
  split; cbn; [done| | |done|].
  - intros T q x Hl. apply Z.ltb_lt in Hl as ->. done.
  - intros T q x Hl. apply Z.ltb_ge in Hl as ->. done.
  - intros T q. split; [|done]. intros x. by destruct (_ <? _).
Qed.

(** A permit, the future, and whether it has been woken. *)
Record demo_ntf := mkNtf { dn_permit : bool; dn_future : bool; dn_woken : bool }.
#[global] Instance demo_notify : Notify := {
  ntf := demo_ntf;
  outstanding := dn_future;
  ready := fun n => dn_permit n || dn_woken n;
  ntf_new := mkNtf false false false;
  notify_one := fun n => mkNtf true (dn_future n) (dn_woken n);
  notify_waiters := fun n => mkNtf (dn_permit n) (dn_future n) (dn_woken n || dn_future n);
  notified := fun n => mkNtf (dn_permit n) true (dn_woken n);
  poll := fun n => if dn_woken n then (true, mkNtf (dn_permit n) false false) else if dn_permit n then (true, mkNtf false false false) else (false, n);
  drop_notified := fun n => mkNtf (dn_permit n) false false;
}.
#[global] Instance demo_notify_laws : NotifyLaws demo_notify.
Proof. split; intros [[] [] []]; cbn; split_and?; auto; try done; intros [?|?]; done. Qed.

(** A packet is sent while the receiver is on its way to sleep. *)
Definition demo_start : Config Z := fresh_channel 2 true.

Lemma stale_packets_never_delivered_witness :
  exists c, rtc step demo_start c /\ len (c_history c) < 2 ^ 63 /\ c_history c = [] ++ Delivered 7 :: [Accepted 7] /\
  exists since before, [Accepted 7] = since ++ Accepted 7 :: before /\ Forall (fun e => is_change e = false) since.
Proof.
  assert (H : exists c, rtc step demo_start c /\ c_history c = [Delivered 7; Accepted 7]).
  { eexists. split.
    - eapply rtc_l; [eapply (step_sender _ _ _ 0%nat); [reflexivity|apply (ss_open _ 7 false); reflexivity]|].
      eapply rtc_l; [eapply (step_sender _ _ _ 0%nat); [reflexivity|apply ss_admit; reflexivity]|].
      eapply rtc_l; [eapply (step_sender _ _ _ 0%nat); [reflexivity|apply ss_push; reflexivity]|].
      eapply rtc_l; [eapply step_receiver, rs_try|]. eapply rtc_l; [eapply step_receiver, rs_pop; reflexivity|].
      eapply rtc_l; [eapply step_receiver, rs_deliver; reflexivity|]. apply rtc_refl.
    - reflexivity. }
  destruct H as (c & Hr & Hh). exists c. split; [exact Hr|].
  assert (Hl : len (c_history c) < 2 ^ 63) by (rewrite Hh; by apply Z.ltb_lt).
  split; [exact Hl|]. split; [exact Hh|]. exact (stale_packets_never_delivered 2 true c [] 7 [Accepted 7] Hr Hl Hh).
Defined.
Lemma no_lost_wakeup_witness : exists c, rtc step demo_start c /\ c_receiver c = RAsleep /\ ready (pq_notify (c_shared c)) = false /\
  (aq_items (pq_queue (c_shared c)) <> [] -> SPushed ∈ c_senders c) /\ (pq_senders (c_shared c) = 0 -> SLast ∈ c_senders c) /\
  (Forall (fun s => s = SIdle \/ s = SGone) (c_senders c) -> aq_items (pq_queue (c_shared c)) = [] /\ SIdle ∈ c_senders c).
Proof.
  assert (H : exists c, rtc step demo_start c /\ c_receiver c = RAsleep /\ ready (pq_notify (c_shared c)) = false).
  { eexists. split.
    - eapply rtc_l; [eapply step_receiver, rs_recv|]. eapply rtc_l; [eapply step_receiver, rs_top|].
      eapply rtc_l; [eapply step_receiver, rs_empty; reflexivity|]. eapply rtc_l; [eapply step_receiver, rs_listen; done|].
      eapply rtc_l; [eapply step_receiver, rs_empty; reflexivity|].
      eapply rtc_l; [eapply (step_sender _ _ _ 0%nat); [reflexivity|apply (ss_open _ 7 false); reflexivity]|].
      eapply rtc_l; [eapply (step_sender _ _ _ 0%nat); [reflexivity|apply ss_admit; reflexivity]|].
      eapply rtc_l; [eapply (step_sender _ _ _ 0%nat); [reflexivity|apply ss_push; reflexivity]|].
      eapply rtc_l; [eapply step_receiver, rs_sleep; done|]. apply rtc_refl.
    - split; reflexivity. }
  destruct H as (c & Hr & Er & Ep). exists c. split; [exact Hr|]. split; [exact Er|]. split; [exact Ep|]. exact (no_lost_wakeup 2 true c Hr Er Ep).
Defined.
