(* ===== verification/Dispatch.v ===== *)
(** * The client's dispatcher

    [rust-client/dispatcher.rs]: packets from the device are numbered, framed and
    spread over the workers' queues; packets from the workers go through three
    queues by class, are put back in order, and leave in batches.

    A queue ([Channel]) is shared between its senders and its receiver: the
    functions below refer to queues by name, and the queues themselves are a
    store.  The system calls are the outcomes they return; statistics are left
    out. *)

From stdpp Require Import sorting.
From S2P Require Import Prelude FlowFrame Classify Packet Channel.

Definition RETURN_CAPACITY : Z := 1024.
Definition RETURN_LATENCY_CAPACITY : Z := 128.
Definition RETURN_PRIORITY_CAPACITY : Z := 384.
Definition RETURN_BULK_CAPACITY : Z := RETURN_CAPACITY - RETURN_LATENCY_CAPACITY - RETURN_PRIORITY_CAPACITY.

(** ** Frames *)

Record ReturnReorder := mkReorder { rr_reassembler : FlowReassembler ClientBuf; rr_ready : list ClientBuf }.
Definition ReturnReorder_new : ReturnReorder := mkReorder FlowReassembler_new [].
(** [elapsed] is the age of the reassembler in milliseconds. *)
Definition ReturnReorder_push (r : ReturnReorder) (packet : ClientBuf) (elapsed : Z) : opt ReturnReorder :=
  data ← ClientBuf_as_slice packet;
  match FrameHeader_decode data with
  | Ok (header, _) =>
      match ClientBuf_trim_front packet FRAME_LEN with
      | Ok packet =>
          let '(reassembler, ready) := push (rr_reassembler r) header packet elapsed (rr_ready r) in
          Ok (mkReorder reassembler ready)
      | Err _ => Ok r
      | Panic => Panic
      end
  | Err _ => Ok (mkReorder (rr_reassembler r) (rr_ready r ++ [packet]))
  | Panic => Panic
  end.
Definition ReturnReorder_pop (r : ReturnReorder) : option ClientBuf * ReturnReorder :=
  match rr_ready r with
  | [] => (None, r)
  | packet :: ready => (Some packet, mkReorder (rr_reassembler r) ready)
  end.

(** The frame in front of a packet, where there is room for it. *)
Definition write_frame (header : FrameHeader) (packet : ClientBuf) : opt (bool * ClientBuf) :=
  match ClientBuf_prepend packet FRAME_LEN with
  | Err _ => Ok (false, packet)
  | Panic => Panic
  | Ok packet =>
      prefix ← slice (cb_storage packet) (cb_start packet) (cb_start packet + FRAME_LEN);
      written ← FrameHeader_encode header prefix;
      storage ← copy_into (cb_storage packet) (cb_start packet) (cb_start packet + FRAME_LEN) written.2;
      Ok (written.1, mkClientBuf storage (cb_start packet) (cb_end packet))
  end.
Definition frame_outbound_packet (sequences : FlowSequencer) (packet : ClientBuf) : opt (bool * ClientBuf * FlowSequencer) :=
  data ← ClientBuf_as_slice packet;
  let '(next, sequences) := FlowSequencer_next sequences data in
  match next with
  | Err _ => Ok (true, packet, sequences)
  | Panic => Panic
  | Ok header => framed ← write_frame header packet; Ok (framed.1, framed.2, sequences)
  end.

(** ** Workers *)

Record WorkerChannels := mkWorker {
  wc_id : Z; wc_incarnation_id : Z; wc_turn_path : bytes; wc_latency : Z; wc_priority : Z; wc_bulk : Z;
}.
#[global] Instance WorkerChannels_eq_dec : EqDecision WorkerChannels.
Proof. solve_decision. Defined.

(** [sort_unstable_by]: by path, then by id. *)
Definition worker_le (v w : WorkerChannels) : Prop :=
  (wc_turn_path v = wc_turn_path w /\ wc_id v <= wc_id w) \/
  (wc_turn_path v <> wc_turn_path w /\ bytes_leb (wc_turn_path v) (wc_turn_path w) = true).
#[global] Instance worker_le_dec v w : Decision (worker_le v w).
Proof. unfold worker_le. apply _. Defined.
(** The groups so far, the last one first. *)
Fixpoint group_paths (sorted : list WorkerChannels) (groups : list (list WorkerChannels)) : list (list WorkerChannels) :=
  match sorted with
  | [] => reverse groups
  | worker :: sorted =>
      match groups with
      | (first :: group) :: groups' =>
          if bytes_eqb (wc_turn_path first) (wc_turn_path worker)
          then group_paths sorted ((first :: group ++ [worker]) :: groups')
          else group_paths sorted ([worker] :: groups)
      | _ => group_paths sorted ([worker] :: groups)
      end
  end.
(** A round takes the worker at [offset] of every group that has one; the rounds
    end with one that takes none. *)
Fixpoint take_rounds (fuel : nat) (groups : list (list WorkerChannels)) (offset : nat) : list WorkerChannels :=
  match fuel with
  | O => []
  | S fuel =>
      match omap (fun group : list WorkerChannels => group !! offset) groups with
      | [] => []
      | added => added ++ take_rounds fuel groups (S offset)
      end
  end.
Definition interleave_turn_paths (workers : list WorkerChannels) : list WorkerChannels :=
  let sorted := merge_sort worker_le workers in
  take_rounds (S (length sorted)) (group_paths sorted []) 0.

Record Dispatcher := mkDispatcher {
  dp_workers : list WorkerChannels; dp_return_latency : Z; dp_return_priority : Z; dp_return : Z;
}.
Definition set_dp_workers (d : Dispatcher) (workers : list WorkerChannels) : Dispatcher :=
  mkDispatcher workers (dp_return_latency d) (dp_return_priority d) (dp_return d).
Definition register (d : Dispatcher) (channels : WorkerChannels) : Dispatcher :=
  set_dp_workers d (interleave_turn_paths (filter (fun w => wc_id w <> wc_id channels) (dp_workers d) ++ [channels])).
Definition unregister (d : Dispatcher) (id incarnation_id : Z) : Dispatcher :=
  set_dp_workers d (interleave_turn_paths (filter (fun w => wc_id w <> id \/ wc_incarnation_id w <> incarnation_id) (dp_workers d))).

(** ** The scheduler *)

Record RoundRobinCursor := mkRoundRobin { rc_current_worker : Z; rc_remaining : Z }.
Definition RoundRobinCursor_default : RoundRobinCursor := mkRoundRobin 0 0.
(** [[RoundRobinCursor; 3]], indexed by the class. *)
Record Cursors := mkCursors { cs_small : RoundRobinCursor; cs_medium : RoundRobinCursor; cs_bulk : RoundRobinCursor }.
Definition Cursors_default : Cursors := mkCursors RoundRobinCursor_default RoundRobinCursor_default RoundRobinCursor_default.
Definition cursor_at (c : Cursors) (class : PacketClass) : RoundRobinCursor :=
  match class with Small => cs_small c | Medium => cs_medium c | Bulk => cs_bulk c end.
Definition set_cursor_at (c : Cursors) (class : PacketClass) (r : RoundRobinCursor) : Cursors :=
  match class with
  | Small => mkCursors r (cs_medium c) (cs_bulk c)
  | Medium => mkCursors (cs_small c) r (cs_bulk c)
  | Bulk => mkCursors (cs_small c) (cs_medium c) r
  end.
Record DispatchTicket := mkTicket { dt_start_slot : Z; dt_class : PacketClass }.
Record FastPathScheduler := mkFastPath { fp_workers : list WorkerChannels; fp_worker_count : Z; fp_cursors : Cursors }.
Definition FastPathScheduler_new : FastPathScheduler := mkFastPath [] 0 Cursors_default.
Definition sync_worker_count (s : FastPathScheduler) (worker_count : Z) : FastPathScheduler :=
  if negb (fp_worker_count s =? worker_count) then mkFastPath (fp_workers s) worker_count Cursors_default else s.
Definition begin_for_class (s : FastPathScheduler) (worker_count : Z) (class : PacketClass) : option DispatchTicket * FastPathScheduler :=
  if worker_count =? 0 then (None, s) else
  let s := sync_worker_count s worker_count in
  let cursor := cursor_at (fp_cursors s) class in
  let remaining := if rc_remaining cursor =? 0 then stream_chunk class else rc_remaining cursor in
  let start_slot := rc_current_worker cursor in
  let remaining := remaining - 1 in
  let current := if remaining =? 0
                 then if rc_current_worker cursor + 1 =? worker_count then 0 else rc_current_worker cursor + 1
                 else rc_current_worker cursor in
  (Some (mkTicket start_slot class),
   mkFastPath (fp_workers s) (fp_worker_count s) (set_cursor_at (fp_cursors s) class (mkRoundRobin current remaining))).
(** [source] is what the registry holds at the time of the call. *)
Definition begin_in_class (s : FastPathScheduler) (source : list WorkerChannels) (class : PacketClass) : option DispatchTicket * FastPathScheduler :=
  let s := if rc_remaining (cursor_at (fp_cursors s) class) =? 0
           then sync_worker_count (mkFastPath source (fp_worker_count s) (fp_cursors s)) (len source) else s in
  begin_for_class s (fp_worker_count s) class.
Definition FastPathScheduler_begin (s : FastPathScheduler) (source : list WorkerChannels) (packet : bytes) : opt (option DispatchTicket * FastPathScheduler) :=
  class ← packet_class packet; Ok (begin_in_class s source class).

(** ** Queues *)

Section Dispatch.
Context `{AQ : ArrayQueue} `{NT : Notify}.

Abbreviation store := (gmap Z (PacketQueue ClientBuf)).

(** A sender or receiver always refers to a queue of the store. *)
Definition send_to (s : store) (q : Z) (packet : ClientBuf) (force : bool) : option ClientBuf * store :=
  match s !! q with
  | Some queue => let '(r, queue) := send_inner queue packet force in (r, <[q := queue]> s)
  | None => (Some packet, s)
  end.
Definition recv_from (s : store) (q : Z) : option ClientBuf * store :=
  match s !! q with
  | Some queue => let '(r, queue) := try_recv queue in (r, <[q := queue]> s)
  | None => (None, s)
  end.
Definition class_queue (w : WorkerChannels) (class : PacketClass) : Z :=
  match class with Small => wc_latency w | Medium => wc_priority w | Bulk => wc_bulk w end.
Definition nth_worker (workers : list WorkerChannels) (slot : Z) : option WorkerChannels :=
  if slot <? 0 then None else workers !! Z.to_nat slot.

Definition enqueue_selected_worker (s : store) (workers : list WorkerChannels) (ticket : DispatchTicket) (packet : ClientBuf) : option ClientBuf * store :=
  match nth_worker workers (dt_start_slot ticket) with
  | None => (Some packet, s)
  | Some worker => send_to s (class_queue worker (dt_class ticket)) packet false
  end.
Definition replace_oldest_in_selected_queue (s : store) (workers : list WorkerChannels) (ticket : DispatchTicket) (packet : ClientBuf) : option ClientBuf * store :=
  match nth_worker workers (dt_start_slot ticket) with
  | None => (Some packet, s)
  | Some worker => send_to s (class_queue worker (dt_class ticket)) packet true
  end.
Definition dispatch_ticket (s : store) (workers : list WorkerChannels) (ticket : option DispatchTicket) (packet : ClientBuf) : store :=
  match ticket with
  | None => s
  | Some ticket =>
      match enqueue_selected_worker s workers ticket packet with
      | (Some packet, s) => (replace_oldest_in_selected_queue s workers ticket packet).2
      | (None, s) => s
      end
  end.
Definition dispatch_now (d : Dispatcher) (s : store) (scheduler : FastPathScheduler) (packet : ClientBuf) : opt (store * FastPathScheduler) :=
  data ← ClientBuf_as_slice packet;
  begun ← FastPathScheduler_begin scheduler (dp_workers d) data;
  Ok (dispatch_ticket s (fp_workers begun.2) begun.1 packet, begun.2).
Definition return_queue (d : Dispatcher) (class : PacketClass) : Z :=
  match class with Small => dp_return_latency d | Medium => dp_return_priority d | Bulk => dp_return d end.
Definition return_packet (d : Dispatcher) (s : store) (packet : ClientBuf) : opt store :=
  data ← ClientBuf_as_slice packet;
  class ← packet_class data;
  Ok (send_to s (return_queue d class) packet true).2.

(** ** From the device to the workers *)

(** What a reader keeps; [ig_client] is the peer of the UDP mode. *)
Record Ingress := mkIngress { ig_store : store; ig_scheduler : FastPathScheduler; ig_sequences : FlowSequencer; ig_client : option bytes }.
Definition forward_packet (d : Dispatcher) (g : Ingress) (packet : ClientBuf) : opt Ingress :=
  framed ← frame_outbound_packet (ig_sequences g) packet;
  let '(ok, packet, sequences) := framed in
  if negb ok then Ok (mkIngress (ig_store g) (ig_scheduler g) sequences (ig_client g)) else
  done ← dispatch_now d (ig_store g) (ig_scheduler g) packet;
  Ok (mkIngress done.1 done.2 sequences (ig_client g)).
(** A [read] of the device into a fresh buffer. *)
Inductive TunRead := TunData (data : bytes) | TunWouldBlock | TunRetry | TunClosed | TunFailed.
Definition READ_BURST : Z := 32.
(** The reads of one readiness, each with its buffer; [false]: the reader returns. *)
Fixpoint read_tun_burst (d : Dispatcher) (g : Ingress) (burst : Z) (reads : list (ClientBuf * TunRead)) : opt (bool * Ingress) :=
  match reads with
  | [] => Ok (true, g)
  | (packet, outcome) :: reads =>
      if READ_BURST <=? burst then Ok (true, g) else
      match outcome with
      | TunWouldBlock | TunRetry => Ok (true, g)
      | TunClosed | TunFailed => Ok (false, g)
      | TunData [] => Ok (false, g)
      | TunData data =>
          packet ← ClientBuf_fill_read_area packet data;
          match ClientBuf_set_read_len packet (len data) with
          | Err _ => Ok (false, g)
          | Panic => Panic
          | Ok packet => g ← forward_packet d g packet; read_tun_burst d g (burst + 1) reads
          end
      end
  end.
(** The datagrams of one [try_recv_from], each with its source. *)
Definition read_udp_datagram (d : Dispatcher) (g : Ingress) (datagram : ClientBuf * bytes) : opt Ingress :=
  let '(packet, address) := datagram in
  let client := if bool_decide (ig_client g = Some address) then ig_client g else Some address in
  forward_packet d (mkIngress (ig_store g) (ig_scheduler g) (ig_sequences g) client) packet.
Fixpoint read_udp_batch (d : Dispatcher) (g : Ingress) (datagrams : list (ClientBuf * bytes)) : opt Ingress :=
  match datagrams with
  | [] => Ok g
  | datagram :: datagrams => g ← read_udp_datagram d g datagram; read_udp_batch d g datagrams
  end.

(** ** From the workers to the device *)

Definition next_return_packet (d : Dispatcher) (s : store) : option ClientBuf * store :=
  match recv_from s (dp_return_latency d) with
  | (Some packet, s) => (Some packet, s)
  | (None, s) =>
      match recv_from s (dp_return_priority d) with
      | (Some packet, s) => (Some packet, s)
      | (None, s) => recv_from s (dp_return d)
      end
  end.
Definition queued_at (s : store) (q : Z) : nat :=
  match s !! q with Some queue => length (aq_items (pq_queue queue)) | None => 0 end.
Definition queued_return (d : Dispatcher) (s : store) : nat :=
  queued_at s (dp_return_latency d) + queued_at s (dp_return_priority d) + queued_at s (dp_return d).
(** Each round takes a packet out of a queue; [clock] is the time at each push. *)
Fixpoint ordered_loop (fuel : nat) (clock : nat -> Z) (d : Dispatcher) (r : ReturnReorder) (s : store) : opt (option ClientBuf * ReturnReorder * store) :=
  match fuel with
  | O => Ok (None, r, s)
  | S fuel =>
      match ReturnReorder_pop r with
      | (Some packet, r) => Ok (Some packet, r, s)
      | (None, r) =>
          match next_return_packet d s with
          | (None, s) => Ok (None, r, s)
          | (Some packet, s) => r ← ReturnReorder_push r packet (clock (queued_return d s)); ordered_loop fuel clock d r s
          end
      end
  end.
Definition next_ordered_return_packet (clock : nat -> Z) (d : Dispatcher) (r : ReturnReorder) (s : store) : opt (option ClientBuf * ReturnReorder * store) :=
  ordered_loop (S (S (queued_return d s))) clock d r s.

Definition class_of (packet : ClientBuf) : opt PacketClass := data ← ClientBuf_as_slice packet; packet_class data.
Definition has_queued_at (s : store) (q : Z) : bool := match s !! q with Some queue => has_queued_packet queue | None => false end.
Definition higher_priority_waiting (d : Dispatcher) (s : store) (class : PacketClass) : bool :=
  match class with
  | Small => false
  | Medium => has_queued_at s (dp_return_latency d)
  | Bulk => has_queued_at s (dp_return_latency d) || has_queued_at s (dp_return_priority d)
  end.
(** The batch after its first packet: at most [room] more of the same class. *)
Fixpoint fill_batch (room : nat) (clock : nat -> Z) (d : Dispatcher) (class : PacketClass) (r : ReturnReorder) (s : store) : opt (list ClientBuf * ReturnReorder * store) :=
  match room with
  | O => Ok ([], r, s)
  | S room =>
      if higher_priority_waiting d s class then Ok ([], r, s) else
      next ← next_ordered_return_packet clock d r s;
      match next with
      | (None, r, s) => Ok ([], r, s)
      | (Some next, r, s) =>
          next_class ← class_of next;
          if bool_decide (next_class = class)
          then rest ← fill_batch room clock d class r s; Ok (next :: rest.1.1, rest.1.2, rest.2)
          else Ok ([], mkReorder (rr_reassembler r) (next :: rr_ready r), s)
      end
  end.
(** One round of [write_udp] when a packet is there; [None] when none is. *)
Definition write_udp_round (clock : nat -> Z) (d : Dispatcher) (r : ReturnReorder) (s : store) : opt (option (list ClientBuf) * ReturnReorder * store) :=
  first ← next_ordered_return_packet clock d r s;
  match first with
  | (None, r, s) => Ok (None, r, s)
  | (Some packet, r, s) =>
      first_class ← class_of packet;
      rest ← fill_batch (Z.to_nat (datagram_batch first_class - 1)) clock d first_class r s;
      Ok (Some (packet :: rest.1.1), rest.1.2, rest.2)
  end.
(** [write_udp_batch] over the outcomes of its system calls: how many of the
    packets were sent.  A count larger than asked for does not happen. *)
Inductive UdpSend := UdpSent (count : Z) | UdpWouldBlock | UdpFailed | UdpCancelled.
Fixpoint write_udp_batch (packets : list ClientBuf) (sent : Z) (outcomes : list UdpSend) : Z :=
  if len packets <=? sent then sent else
  match outcomes with
  | [] => sent
  | UdpSent count :: outcomes => write_udp_batch packets (sent + count) outcomes
  | UdpWouldBlock :: outcomes => write_udp_batch packets sent outcomes
  | UdpFailed :: _ | UdpCancelled :: _ => sent
  end.

Inductive TunWriteState := Complete | Continue | Wait | Backoff | Yield | Closed | Failed.
Inductive TunWrite := TunWrote (length : Z) | TunNotReady | TunInterrupted | TunNoBuffers | TunGone | TunBroken.
(** [written] of the packet's bytes are out. *)
Definition try_write_tun_packet (packet : ClientBuf) (written : Z) (outcome : TunWrite) : TunWriteState * Z :=
  match outcome with
  | TunWrote 0 => (Failed, written)
  | TunWrote length =>
      let written := written + length in
      (if written =? ClientBuf_len packet then Complete else Continue, written)
  | TunInterrupted => (Yield, written)
  | TunNoBuffers => (Backoff, written)
  | TunGone => (Closed, written)
  | TunBroken => (Failed, written)
  | TunNotReady => (Wait, written)
  end.
Definition WRITE_BURST : Z := 64.
(** The writes of one readiness, to the end of the list of outcomes at most. *)
Fixpoint write_tun_burst (clock : nat -> Z) (d : Dispatcher) (r : ReturnReorder) (s : store) (packet : ClientBuf) (written burst : Z) (outcomes : list TunWrite)
    : opt (TunWriteState * option (ClientBuf * Z) * ReturnReorder * store) :=
  match outcomes with
  | [] => Ok (Continue, Some (packet, written), r, s)
  | outcome :: outcomes =>
      match try_write_tun_packet packet written outcome with
      | (Complete, _) =>
          if burst + 1 =? WRITE_BURST then Ok (Complete, None, r, s) else
          next ← next_ordered_return_packet clock d r s;
          match next with
          | (None, r, s) => Ok (Complete, None, r, s)
          | (Some packet, r, s) => write_tun_burst clock d r s packet 0 (burst + 1) outcomes
          end
      | (Continue, written) => write_tun_burst clock d r s packet written burst outcomes
      | (state, written) => Ok (state, Some (packet, written), r, s)
      end
  end.
End Dispatch.
