(* ===== verification/DispatchProps.v ===== *)
(** * Theorems about the client's dispatcher

    The order of the workers and the registry; what striping puts in which
    queue; framing and reordering; the batches of the UDP writer. *)

From stdpp Require Import sorting.
From S2P Require Import Prelude FlowFrame Reassembly Classify Packet Channel Dispatch.

(** ** The order of the workers *)

Definition path_lt (a b : bytes) : Prop := a <> b /\ bytes_leb a b = true.
Lemma path_lt_trans a b c : path_lt a b -> path_lt b c -> path_lt a c.
Proof.
  intros [Hab Lab] [Hbc Lbc]. split; [|by eapply bytes_leb_trans]. intros ->. apply Hbc. by apply bytes_leb_antisymm.
Qed.
#[global] Instance worker_le_trans : Transitive worker_le.
Proof.
  intros u v w. unfold worker_le. intros [[E1 L1]|[N1 L1]] [[E2 L2]|[N2 L2]].
  - left. split; [congruence|lia].
  - right. by rewrite E1.
  - right. by rewrite <- E2.
  - right. apply (path_lt_trans _ (wc_turn_path v)); by split.
Qed.
#[global] Instance worker_le_total : Total worker_le.
Proof.
  intros v w. unfold worker_le. destruct (decide (wc_turn_path v = wc_turn_path w)) as [E|N]; [|destruct (bytes_leb_total (wc_turn_path v) (wc_turn_path w)); auto].
  destruct (Z.le_ge_cases (wc_id v) (wc_id w)); auto.
Qed.

(** Groups of one path each, later paths first. *)
Definition same_path (g : list WorkerChannels) : Prop := g <> [] /\ forall v w, v ∈ g -> w ∈ g -> wc_turn_path v = wc_turn_path w.
Definition group_lt (g h : list WorkerChannels) : Prop := forall v w, v ∈ g -> w ∈ h -> path_lt (wc_turn_path v) (wc_turn_path w).
Definition grouped (gs : list (list WorkerChannels)) : Prop := Forall same_path gs /\ StronglySorted (flip group_lt) gs.

Lemma grouped_new gs w : grouped gs -> (forall v, v ∈ mjoin gs -> path_lt (wc_turn_path v) (wc_turn_path w)) -> grouped ([w] :: gs).
Proof.
  intros [Hp Hs] Hv. split; constructor; try done.
  - split; [done|]. intros v v' ->%list_elem_of_singleton ->%list_elem_of_singleton. done.
  - apply Forall_forall. intros g Hg v v' Hv1 ->%list_elem_of_singleton. apply Hv, list_elem_of_join. eauto.
Qed.
Lemma grouped_more first group gs w : grouped ((first :: group) :: gs) -> wc_turn_path first = wc_turn_path w -> grouped ((first :: group ++ [w]) :: gs).
Proof.
  intros [[[_ Hp] Hps]%Forall_cons Hs] E. apply StronglySorted_inv in Hs as [Hs Hf].
  assert (Hin : forall v, v ∈ first :: group ++ [w] -> exists v', v' ∈ first :: group /\ wc_turn_path v = wc_turn_path v').
  { intros v Hv. change (v ∈ (first :: group) ++ [w]) in Hv. apply elem_of_app in Hv as [Hv| ->%list_elem_of_singleton]; [eauto|].
    exists first. split; [by left|done]. }
  split; constructor; try done.
  - split; [done|]. intros v v' Hv Hv'. destruct (Hin v Hv) as (u & Hu & ->), (Hin v' Hv') as (u' & Hu' & ->). auto.
  - apply (Forall_impl _ _ _ Hf). intros g Hg v v' Hv Hv'. destruct (Hin v' Hv') as (u & Hu & ->). by apply Hg.
Qed.
Lemma group_paths_spec sorted gs : StronglySorted worker_le sorted -> grouped gs -> (forall v w, v ∈ mjoin gs -> w ∈ sorted -> worker_le v w) ->
  mjoin (group_paths sorted gs) = mjoin (reverse gs) ++ sorted /\ grouped (reverse (group_paths sorted gs)).
Proof.
  revert gs. induction sorted as [|w sorted IH]; intros gs Hs Hg Hle; cbn [group_paths].
  { by rewrite reverse_involutive, app_nil_r. }
  apply StronglySorted_inv in Hs as [Hs Hw].
  assert (Hnew : forall gs', grouped gs' -> (forall v, v ∈ mjoin gs' -> v = w \/ v ∈ mjoin gs) -> mjoin (reverse gs') = mjoin (reverse gs) ++ [w] ->
    mjoin (group_paths sorted gs') = mjoin (reverse gs) ++ w :: sorted /\ grouped (reverse (group_paths sorted gs'))).
  { intros gs' Hg' Hin Ej. destruct (IH gs' Hs Hg') as [E ?]; [|split; [rewrite E, Ej, <- app_assoc; done|done]].
    intros v u Hv Hu. destruct (Hin v Hv) as [->|Hv']; [by apply (proj1 (Forall_forall _ _) Hw)|]. apply Hle; [done|by right]. }
  assert (Hlast : (forall v, v ∈ mjoin gs -> path_lt (wc_turn_path v) (wc_turn_path w)) ->
    mjoin (group_paths sorted ([w] :: gs)) = mjoin (reverse gs) ++ w :: sorted /\ grouped (reverse (group_paths sorted ([w] :: gs)))).
  { intros Hlt. apply Hnew; [by apply grouped_new| |by rewrite reverse_cons, join_app].
    intros v Hv. apply elem_of_app in Hv as [->%list_elem_of_singleton|?]; auto. }
  destruct gs as [|[|first group] gs]; [apply Hlast; intros v Hv; by apply elem_of_nil in Hv|destruct Hg as [[[] _]%Forall_cons _]; done|].
  unfold bytes_eqb. case_bool_decide as E.
  - apply Hnew; [by apply grouped_more| |].
    + intros v Hv. cbn in *. rewrite !elem_of_cons, !elem_of_app, list_elem_of_singleton in *. tauto.
    + rewrite !reverse_cons, !join_app. cbn. by rewrite !app_nil_r, <- !app_assoc.
  - apply Hlast. intros v Hv. pose proof (Hle v w Hv ltac:(left)) as [[Ev _]|[Nv Lv]]; [|by split]. exfalso.
    destruct Hg as [[[_ Hp] _]%Forall_cons [_ Hf]%StronglySorted_inv]. change (v ∈ (first :: group) ++ mjoin gs) in Hv. apply elem_of_app in Hv as [Hv|Hv].
    + apply E. rewrite <- Ev. apply Hp; [by left|done].
    + apply list_elem_of_join in Hv as (g & Hv & Hgin). pose proof (proj1 (Forall_forall _ _) Hf g Hgin v first Hv ltac:(left)) as Hlt.
      destruct (Hle first w) as [[Ef _]|[Nf Lf]]; [by left|by left|congruence|]. rewrite Ev in Hlt.
      destruct Hlt as [_ L]. apply Nf. by apply bytes_leb_antisymm.
Qed.

(** A round, then the rest of every group. *)
Lemma round_perm (gs : list (list WorkerChannels)) o : omap (fun g : list WorkerChannels => g !! o) gs ++ mjoin (drop (S o) <$> gs) ≡ₚ mjoin (drop o <$> gs).
Proof.
  induction gs as [|g gs IH]; cbn; [done|]. destruct (g !! o) as [w|] eqn:E; cbn.
  - rewrite (drop_S g w o E). cbn. rewrite <- IH. apply perm_skip. rewrite !app_assoc. apply Permutation_app_tail, Permutation_app_comm.
  - apply lookup_ge_None in E. rewrite !(drop_ge g) by lia. done.
Qed.
Lemma take_rounds_perm fuel (gs : list (list WorkerChannels)) o : Forall (fun g => (length g < o + fuel)%nat) gs -> take_rounds fuel gs o ≡ₚ mjoin (drop o <$> gs).
Proof.
  revert o. induction fuel as [|fuel IH]; intros o Hf; cbn.
  - replace (drop o <$> gs) with ((fun _ => []) <$> gs : list (list WorkerChannels)) by (apply Forall_fmap_ext_1; apply (Forall_impl _ _ _ Hf); intros g ?; by rewrite drop_ge by lia).
    by induction gs; [|apply IHgs; inversion Hf].
  - rewrite <- round_perm. destruct (omap _ gs) as [|w l] eqn:E.
    + rewrite app_nil_l. assert (Hall : Forall (fun g => (length g <= o)%nat) gs).
      { apply Forall_forall. intros g Hg. destruct (g !! o) as [w|] eqn:Eg; [|by apply lookup_ge_None in Eg].
        assert (Hin : w ∈ omap (fun g : list WorkerChannels => g !! o) gs) by (apply list_elem_of_omap; eauto). rewrite E in Hin. by apply elem_of_nil in Hin. }
      clear -Hall. induction Hall as [|g gs Hg _ IH]; cbn; [done|]. by rewrite drop_ge by lia.
    + rewrite IH; [done|]. apply (Forall_impl _ _ _ Hf). intros g ?. lia.
Qed.
(** What the rounds from [o] on take is at [o] or further in its group. *)
Lemma elem_of_take_rounds fuel (gs : list (list WorkerChannels)) o w : w ∈ take_rounds fuel gs o -> exists g i, g ∈ gs /\ g !! i = Some w /\ (o <= i)%nat.
Proof.
  revert o. induction fuel as [|fuel IH]; intros o Hw; cbn in Hw; [by apply elem_of_nil in Hw|].
  destruct (omap _ gs) as [|u l] eqn:E; [by apply elem_of_nil in Hw|]. change (w ∈ (u :: l) ++ take_rounds fuel gs (S o)) in Hw. rewrite <- E in Hw. apply elem_of_app in Hw as [Hw|Hw].
  - apply list_elem_of_omap in Hw as (g & Hg & Eg). eauto.
  - destruct (IH _ Hw) as (g & i & ? & ? & ?). exists g, i. split; [done|]. split; [done|lia].
Qed.

(** The position of a worker among those of its path. *)
Definition path_rank (workers : list WorkerChannels) (w : WorkerChannels) : nat :=
  length (filter (fun v => wc_turn_path v = wc_turn_path w /\ wc_id v < wc_id w) workers).
(** First the first worker of every path, in the order of the paths, then the
    second of every path, and so on. *)
Definition served_before (workers : list WorkerChannels) (v w : WorkerChannels) : Prop :=
  (path_rank workers v < path_rank workers w)%nat \/ (path_rank workers v = path_rank workers w /\ path_lt (wc_turn_path v) (wc_turn_path w)).
Lemma path_rank_perm ws ws' w : ws ≡ₚ ws' -> path_rank ws w = path_rank ws' w.
Proof. intros H. unfold path_rank. by rewrite H. Qed.
Lemma path_rank_app ws ws' w : path_rank (ws ++ ws') w = (path_rank ws w + path_rank ws' w)%nat.
Proof. unfold path_rank. by rewrite filter_app, length_app. Qed.
Definition id_lt (v w : WorkerChannels) : Prop := wc_id v < wc_id w.
Lemma path_rank_group g i w : (forall v u, v ∈ g -> u ∈ g -> wc_turn_path v = wc_turn_path u) -> StronglySorted id_lt g -> g !! i = Some w -> path_rank g w = i.
Proof.
  intros Hp Hs Hi. assert (Hw : w ∈ g) by (by eapply list_elem_of_lookup_2). assert (Hpw : Forall (fun v => wc_turn_path v = wc_turn_path w) g) by (apply Forall_forall; auto).
  clear Hp Hw. revert i Hi. induction Hs as [|v g Hs IH Hv]; intros [|i] Hi; cbn in Hi; simplify_eq; apply Forall_cons in Hpw as [Ev Hpw].
  - unfold path_rank. rewrite filter_cons, decide_False by lia. replace (filter _ g) with ([] : list WorkerChannels); [done|]. symmetry.
    clear -Hv. induction Hv as [|u g Hu _ IH]; [done|]. rewrite filter_cons, decide_False; [done|]. unfold id_lt in Hu. lia.
  - unfold path_rank. rewrite filter_cons, decide_True; [cbn; f_equal; by apply IH|]. split; [done|].
    apply (proj1 (Forall_forall _ _) Hv). by eapply list_elem_of_lookup_2.
Qed.
Lemma path_rank_other gs w : (forall v, v ∈ mjoin gs -> wc_turn_path v <> wc_turn_path w) -> path_rank (mjoin gs) w = 0%nat.
Proof.
  intros H. unfold path_rank. replace (filter _ _) with ([] : list WorkerChannels); [done|]. symmetry. induction (mjoin gs) as [|v l IH]; [done|].
  rewrite filter_cons, decide_False; [apply IH; intros u Hu; apply H; by right|]. intros [E _]. apply (H v); [by left|done].
Qed.

Lemma StronglySorted_unreverse {A : Type} (R : relation A) (l : list A) : StronglySorted (flip R) (reverse l) -> StronglySorted R l.
Proof.
  induction l as [|x l IH]; [constructor|]. rewrite reverse_cons, StronglySorted_app. intros (Hx & Hl & _). constructor; [auto|].
  apply Forall_forall. intros y Hy. apply (Hx y x); [by apply elem_of_reverse|by left].
Qed.
(** Workers grouped by path, in the order of the paths, and by id in a group. *)
Record path_groups (gs : list (list WorkerChannels)) : Prop := {
  pg_same : Forall same_path gs;
  pg_paths : StronglySorted group_lt gs;
  pg_ids : Forall (StronglySorted id_lt) gs;
}.
Lemma path_rank_grouped gs g i w : path_groups gs -> g ∈ gs -> g !! i = Some w -> path_rank (mjoin gs) w = i.
Proof.
  intros [Hs Hp Hi] Hg Hw. apply list_elem_of_split in Hg as (l1 & l2 & ->). apply StronglySorted_app in Hp as (H1 & _ & [Hp H2]%StronglySorted_inv).
  apply Forall_app in Hs as [_ [[_ Hs] _]%Forall_cons]. apply Forall_app in Hi as [_ [Hi _]%Forall_cons].
  assert (Hin : w ∈ g) by (by eapply list_elem_of_lookup_2). rewrite join_app. cbn. rewrite !path_rank_app, (path_rank_group g i w Hs Hi Hw).
  rewrite !path_rank_other; [lia| |].
  - intros v (h & Hv & Hh)%list_elem_of_join E. destruct (proj1 (Forall_forall _ _) H2 h Hh w v Hin Hv) as [N _]. by apply N.
  - intros v (h & Hv & Hh)%list_elem_of_join E. destruct (H1 h g Hh ltac:(left) v w Hv Hin) as [N _]. by apply N.
Qed.
Lemma round_sorted gs o all : path_groups gs -> path_groups all -> (forall g, g ∈ gs -> g ∈ all) ->
  StronglySorted (served_before (mjoin all)) (omap (fun g : list WorkerChannels => g !! o) gs).
Proof.
  intros [_ Hp _] Ha Hsub. induction Hp as [|g gs Hp IH Hg]; cbn; [constructor|].
  assert (Hrest : StronglySorted (served_before (mjoin all)) (omap (fun g : list WorkerChannels => g !! o) gs)) by (apply IH; intros; apply Hsub; by right).
  destruct (g !! o) as [w|] eqn:E; [|done]. constructor; [done|]. apply Forall_forall. intros v (h & Hh & Ev)%list_elem_of_omap. right.
  rewrite (path_rank_grouped all g o w Ha (Hsub g ltac:(left)) E), (path_rank_grouped all h o v Ha (Hsub h ltac:(by right)) Ev).
  split; [done|]. apply (proj1 (Forall_forall _ _) Hg h Hh); by eapply list_elem_of_lookup_2.
Qed.
Lemma take_rounds_sorted fuel gs o : path_groups gs -> StronglySorted (served_before (mjoin gs)) (take_rounds fuel gs o).
Proof.
  intros Hg. revert o. induction fuel as [|fuel IH]; intros o; cbn; [constructor|]. pose proof (round_sorted gs o gs Hg Hg ltac:(done)) as Hr.
  destruct (omap _ gs) as [|u l] eqn:E; [constructor|]. change (StronglySorted (served_before (mjoin gs)) ((u :: l) ++ take_rounds fuel gs (S o))).
  apply StronglySorted_app_2; [|done|apply IH]. rewrite <- E. intros v w (h & Hh & Ev)%list_elem_of_omap Hw.
  destruct (elem_of_take_rounds _ _ _ _ Hw) as (g & i & Hgg & Ei & Hi). left.
  rewrite (path_rank_grouped gs h o v Hg Hh Ev), (path_rank_grouped gs g i w Hg Hgg Ei). lia.
Qed.

Lemma sorted_ids (l : list WorkerChannels) : StronglySorted worker_le l -> NoDup (wc_id <$> l) ->
  StronglySorted (fun v w => worker_le v w /\ wc_id v <> wc_id w) l.
Proof.
  intros Hs. induction Hs as [|w l Hs IH Hw]; cbn; [constructor|]. intros [Hn Hd]%NoDup_cons. constructor; [auto|].
  apply Forall_forall. intros v Hv. split; [by apply (proj1 (Forall_forall _ _) Hw)|]. intros E. apply Hn. rewrite E. by apply list_elem_of_fmap_2.
Qed.
Lemma groups_of_sorted sorted : StronglySorted worker_le sorted -> NoDup (wc_id <$> sorted) ->
  mjoin (group_paths sorted []) = sorted /\ path_groups (group_paths sorted []).
Proof.
  intros Hs Hd. destruct (group_paths_spec sorted [] Hs) as [Hj [Hp Hl]]; [by split; constructor|intros v w Hv; by apply elem_of_nil in Hv|].
  cbn in Hj. split; [done|]. rewrite Forall_reverse in Hp. split; [done|by apply StronglySorted_unreverse|].
  pose proof (sorted_ids _ Hs Hd) as Hsd. rewrite <- Hj in Hsd. revert Hp Hsd. generalize (group_paths sorted []) as gs.
  induction gs as [|g gs IH]; [constructor|]. intros [[_ Hg] Hgs]%Forall_cons Hsd. cbn in Hsd. apply StronglySorted_app in Hsd as (_ & H1 & H2).
  constructor; [|auto]. clear -Hg H1. induction H1 as [|w g H1 IH Hw]; [constructor|]. constructor; [apply IH; intros; apply Hg; by right|].
  apply Forall_forall. intros v Hv. destruct (proj1 (Forall_forall _ _) Hw v Hv) as [[[_ ?]|[N _]] ?]; [unfold id_lt; lia|].
  destruct N. apply Hg; [by left|by right].
Qed.
(** The workers are all there, in the order of service. *)
Lemma interleave_spec workers : NoDup (wc_id <$> workers) ->
  interleave_turn_paths workers ≡ₚ workers /\ StronglySorted (served_before (interleave_turn_paths workers)) (interleave_turn_paths workers).
Proof.
  intros Hd. unfold interleave_turn_paths. set (sorted := merge_sort worker_le workers).
  assert (Hp : sorted ≡ₚ workers) by apply merge_sort_Permutation. assert (Hd' : NoDup (wc_id <$> sorted)) by (by rewrite Hp).
  destruct (groups_of_sorted sorted (StronglySorted_merge_sort _ _) Hd') as [Hj Hg].
  assert (Hall : take_rounds (S (length sorted)) (group_paths sorted []) 0 ≡ₚ sorted).
  { rewrite take_rounds_perm.
    - rewrite <- Hj at 2. replace (drop 0 <$> group_paths sorted []) with (group_paths sorted []); [done|]. symmetry. apply list_fmap_id.
    - apply Forall_forall. intros g (l1 & l2 & Eg)%list_elem_of_split. rewrite <- Hj, Eg, join_app, length_app. cbn. rewrite length_app. lia. }
  split; [by rewrite Hall|]. pose proof (take_rounds_sorted (S (length sorted)) _ 0 Hg) as Hs. rewrite Hj in Hs.
  rewrite <- (list_fmap_id (take_rounds _ _ 0)) at 2. eapply StronglySorted_fmap; [|exact Hs]. intros v w. unfold served_before, id.
  by rewrite !(path_rank_perm _ _ _ Hall).
Qed.

(** ** The registry *)

Inductive RegistryOp := Register (channels : WorkerChannels) | Unregister (id incarnation_id : Z).
Definition registry_op (d : Dispatcher) (o : RegistryOp) : Dispatcher :=
  match o with Register channels => register d channels | Unregister id incarnation_id => unregister d id incarnation_id end.
(** What it stands for: one worker per id; leaving needs the present incarnation. *)
Definition registry_spec (m : gmap Z WorkerChannels) (o : RegistryOp) : gmap Z WorkerChannels :=
  match o with
  | Register channels => <[wc_id channels := channels]> m
  | Unregister id incarnation_id =>
      match m !! id with Some w => if wc_incarnation_id w =? incarnation_id then delete id m else m | None => m end
  end.
Record registered (workers : list WorkerChannels) (m : gmap Z WorkerChannels) : Prop := {
  rg_ids : NoDup (wc_id <$> workers);
  rg_entries : forall id w, m !! id = Some w <-> w ∈ workers /\ wc_id w = id;
  rg_order : StronglySorted (served_before workers) workers;
}.
Lemma ids_unique (workers : list WorkerChannels) v w : NoDup (wc_id <$> workers) -> v ∈ workers -> w ∈ workers -> wc_id v = wc_id w -> v = w.
Proof.
  intros Hd [i Hi]%list_elem_of_lookup [j Hj]%list_elem_of_lookup E.
  assert (i = j) as -> by (eapply (NoDup_lookup _ _ _ _ Hd); rewrite list_lookup_fmap; [by rewrite Hi|rewrite Hj; cbn; by rewrite E]). congruence.
Qed.
Lemma registered_interleave workers m : NoDup (wc_id <$> workers) -> (forall id w, m !! id = Some w <-> w ∈ workers /\ wc_id w = id) ->
  registered (interleave_turn_paths workers) m.
Proof. intros Hd He. destruct (interleave_spec workers Hd) as [Hp Hs]. split; [by rewrite Hp| |done]. intros id w. by rewrite Hp. Qed.
Lemma registered_step d m o : registered (dp_workers d) m -> registered (dp_workers (registry_op d o)) (registry_spec m o).
Proof.
  intros [Hd He _]. destruct o as [c|id inc]; cbn; apply registered_interleave.
  - rewrite fmap_app. apply NoDup_app. split; [by eapply sublist_NoDup; [|apply fmap_sublist, sublist_filter]|]. split; [|by apply NoDup_singleton].
    intros x (w & -> & [Hw _]%list_elem_of_filter)%list_elem_of_fmap Hx. by apply list_elem_of_singleton in Hx.
  - intros id w. rewrite lookup_insert_Some, He, elem_of_app, list_elem_of_filter, list_elem_of_singleton. split; [|intros [[[? ?]|?] ?]; subst; auto].
    + intros [[? ?]|[? [? ?]]]; subst; auto.
  - by eapply sublist_NoDup; [|apply fmap_sublist, sublist_filter].
  - intros id' w. rewrite list_elem_of_filter. destruct (m !! id) as [v|] eqn:E.
    + destruct (wc_incarnation_id v =? inc) eqn:Ei; bool_prop; [rewrite lookup_delete_Some|]; rewrite He.
      * split; [intros (? & ? & ?); split; [split; [left; congruence|done]|done]|]. intros [[[N|N] Hw] ?]; [split; [congruence|done]|].
        split; [|done]. intros <-. apply He in E as [Hv Ev]. destruct N. rewrite <- Ei. f_equal. by apply (ids_unique (dp_workers d)); [..|congruence].
      * split; [|tauto]. intros [Hw Ew]. split; [split; [|done]|done]. destruct (decide (wc_id w = id)) as [Ewi|]; [right|by left].
        apply He in E as [Hv Ev]. assert (w = v) as -> by (apply (ids_unique (dp_workers d)); [done..|congruence]). done.
    + rewrite He. split; [|tauto]. intros [Hw Ew]. split; [split; [left|done]|done]. intros ?. assert (Hm : m !! id = Some w) by (by apply He). congruence.
Qed.

(** The registry of workers is a map: after any sequence of registrations and
    departures the list has one entry per id, and a worker is in it exactly when
    it was the last to register under its id and has not left since; a departure
    that names an older incarnation changes nothing.  The list is in the order of
    service: the first worker of every TURN path, in the order of the paths, then
    the second of every path, and so on. *)
Theorem registry_refines_map ops : forall latency priority bulk,
  let d := foldl registry_op (mkDispatcher [] latency priority bulk) ops in
  let m := foldl registry_spec ∅ ops in
  NoDup (wc_id <$> dp_workers d) /\ (forall id w, m !! id = Some w <-> w ∈ dp_workers d /\ wc_id w = id) /\
  StronglySorted (served_before (dp_workers d)) (dp_workers d).
Proof.
  intros latency priority bulk. cbn zeta.
  assert (H : forall d m, registered (dp_workers d) m -> registered (dp_workers (foldl registry_op d ops)) (foldl registry_spec m ops)).
  { induction ops as [|o ops IH]; intros d m Hr; cbn; [done|]. by apply IH, registered_step. }
  destruct (H (mkDispatcher [] latency priority bulk) ∅) as [H1 H2 H3]; [|done].
  split; [constructor| |constructor]. intros id w. rewrite lookup_empty. cbn. rewrite elem_of_nil. split; [done|tauto].
Qed.

(** ** Striping *)

Definition chunk_slot (n : Z) (class : PacketClass) (k : Z) : Z := (k / stream_chunk class) mod n.
Definition count_one (counts : PacketClass -> Z) (class : PacketClass) : PacketClass -> Z :=
  fun c => if decide (c = class) then counts c + 1 else counts c.
Lemma chunk_pos class : 0 < stream_chunk class.
Proof. by destruct class. Qed.

(** The cursor of a class after [k] of its packets. *)
Definition cursor_after (n : Z) (class : PacketClass) (k : Z) : RoundRobinCursor :=
  mkRoundRobin (chunk_slot n class k) ((- k) mod stream_chunk class).
Record scheduled (ws : list WorkerChannels) (counts : PacketClass -> Z) (s : FastPathScheduler) : Prop := {
  sd_counts : forall class, 0 <= counts class;
  sd_cursors : forall class, cursor_at (fp_cursors s) class = cursor_after (len ws) class (counts class);
  sd_workers : (fp_workers s = ws /\ fp_worker_count s = len ws) \/ (forall class, counts class = 0);
}.
Lemma cursor_at_set c class r class' : cursor_at (set_cursor_at c class r) class' = if decide (class' = class) then r else cursor_at c class'.
Proof. by destruct class, class'. Qed.
Lemma cursor_after_0 n class : cursor_after n class 0 = RoundRobinCursor_default.
Proof. by destruct class. Qed.
(** A packet moves its cursor on; the chunk's last one to the next slot. *)
Lemma cursor_after_next n class k : 0 < n -> 0 <= k ->
  let c := cursor_after n class k in
  let remaining := (if rc_remaining c =? 0 then stream_chunk class else rc_remaining c) - 1 in
  let current := if remaining =? 0 then if rc_current_worker c + 1 =? n then 0 else rc_current_worker c + 1 else rc_current_worker c in
  mkRoundRobin current remaining = cursor_after n class (k + 1).
Proof.
  intros Hn Hk. cbn zeta. unfold cursor_after, chunk_slot. cbn [rc_remaining rc_current_worker]. pose proof (chunk_pos class) as Hc. set (ch := stream_chunk class) in *.
  pose proof (Z.div_mod k ch ltac:(lia)) as Ek. pose proof (Z.mod_pos_bound k ch ltac:(lia)) as Bk. set (q := k / ch) in *. set (r := k mod ch) in *.
  assert (Hm : (- k) mod ch = if r =? 0 then 0 else ch - r).
  { destruct (r =? 0) eqn:E; bool_prop; symmetry; [apply (Z.mod_unique _ _ (- q))|apply (Z.mod_unique _ _ (- q - 1))]; try lia; nia. }
  assert (Hm1 : (- (k + 1)) mod ch = ch - 1 - r) by (symmetry; apply (Z.mod_unique _ _ (- q - 1)); [lia|nia]).
  assert (Hd1 : (k + 1) / ch = if r =? ch - 1 then q + 1 else q).
  { destruct (r =? ch - 1) eqn:E; bool_prop; symmetry; [apply (Z.div_unique _ _ _ 0)|apply (Z.div_unique _ _ _ (r + 1))]; try lia; nia. }
  rewrite Hm, Hm1, Hd1. pose proof (Z.mod_pos_bound q n Hn) as Bq.
  assert (Hq : (q + 1) mod n = if q mod n + 1 =? n then 0 else q mod n + 1).
  { pose proof (Z.div_mod q n ltac:(lia)). destruct (_ =? n) eqn:E; bool_prop; symmetry; [apply (Z.mod_unique _ _ (q / n + 1))|apply (Z.mod_unique _ _ (q / n))]; try lia; nia. }
  assert (Hr : (if (if r =? 0 then 0 else ch - r) =? 0 then ch else if r =? 0 then 0 else ch - r) = ch - r).
  { destruct (r =? 0) eqn:E; bool_prop; cbn; [lia|]. destruct (ch - r =? 0) eqn:E'; bool_prop; lia. }
  rewrite Hr. replace (ch - r - 1 =? 0) with (r =? ch - 1) by lia. f_equal; [|lia]. destruct (r =? ch - 1); [|done]. by rewrite Hq.
Qed.
Lemma begin_stripe ws counts s class : ws <> [] -> scheduled ws counts s ->
  let '(ticket, s') := begin_in_class s ws class in
  ticket = Some (mkTicket (chunk_slot (len ws) class (counts class)) class) /\ fp_workers s' = ws /\ scheduled ws (count_one counts class) s'.
Proof.
  intros Hne [Hc0 Hc Hw]. assert (Hn : 0 < len ws) by (destruct ws; [done|unfold len; cbn; lia]). unfold begin_in_class.
  set (s1 := if rc_remaining _ =? 0 then _ else s).
  assert (H1 : fp_workers s1 = ws /\ fp_worker_count s1 = len ws /\ forall c, cursor_at (fp_cursors s1) c = cursor_after (len ws) c (counts c)).
  { unfold s1. destruct Hw as [[Ew En]|H0].
    - destruct (rc_remaining _ =? 0); [|done]. unfold sync_worker_count. cbn. rewrite En, Z.eqb_refl. done.
    - rewrite Hc, H0, cursor_after_0. cbn [rc_remaining RoundRobinCursor_default]. rewrite Z.eqb_refl. unfold sync_worker_count. cbn [fp_worker_count].
      destruct (_ =? len ws) eqn:E; bool_prop; cbn [negb fp_workers fp_worker_count fp_cursors]; [by rewrite E|]. split; [done|]. split; [done|]. intros c. rewrite H0, cursor_after_0. by destruct c. }
  clearbody s1. destruct H1 as (Ew & En & Hcs). unfold begin_for_class. rewrite En. replace (len ws =? 0) with false by lia.
  unfold sync_worker_count. rewrite En, Z.eqb_refl. cbn [negb]. rewrite (Hcs class). split; [done|]. split; [done|]. split.
  - intros c. unfold count_one. destruct (decide _); pose proof (Hc0 c); lia.
  - intros c. cbn [fp_cursors]. rewrite cursor_at_set. unfold count_one. destruct (decide (c = class)) as [->|]; [|apply Hcs].
    apply (cursor_after_next (len ws) class (counts class) Hn (Hc0 class)).
  - left. done.
Qed.
Lemma scheduled_new ws : scheduled ws (fun _ => 0) FastPathScheduler_new.
Proof. split; [done| |by right]. intros class. rewrite cursor_after_0. by destruct class. Qed.

Section Striping.
Context `{AQ : ArrayQueue} `{NT : Notify} {AL : ArrayQueueLaws AQ}.

(** The newest [n] of a list. *)
Definition keep_last {A : Type} (n : Z) (l : list A) : list A := drop (length l - Z.to_nat n) l.
Lemma keep_last_app {A : Type} n (l m : list A) : keep_last n (keep_last n l ++ m) = keep_last n (l ++ m).
Proof.
  unfold keep_last. set (k := Z.to_nat n). set (a := (length l - k)%nat).
  assert (E : l ++ m = take a l ++ (drop a l ++ m)) by (by rewrite app_assoc, take_drop).
  rewrite E, (drop_app_ge (take a l)) by (rewrite !length_app, length_take, length_drop; lia). f_equal.
  rewrite !length_app, length_take, length_drop. lia.
Qed.
Lemma keep_last_id {A : Type} n (l : list A) : len l <= n -> keep_last n l = l.
Proof. intros H. unfold keep_last, len in *. by replace (length l - Z.to_nat n)%nat with 0%nat by lia. Qed.
Lemma keep_last_snoc {A : Type} n (l : list A) x : 0 < n -> len l = n -> keep_last n (l ++ [x]) = tail l ++ [x].
Proof.
  intros Hn Hl. unfold keep_last, len in *. rewrite length_app. cbn. replace (length l + 1 - Z.to_nat n)%nat with 1%nat by lia.
  destruct l; [cbn in Hl; lia|done].
Qed.
Lemma length_keep_last {A : Type} n (l : list A) : 0 <= n -> len (keep_last n l) <= n.
Proof. intros H. unfold keep_last, len. rewrite length_drop. lia. Qed.

(** A queue with [l] sent to it: the newest packets stay; one that accepts nothing
    loses them. *)
Definition queue_ok (q : PacketQueue ClientBuf) : Prop := settled q /\ bounded q.
Definition received (q q' : PacketQueue ClientBuf) (l : list ClientBuf) : Prop :=
  queue_ok q' /\ capacity_of q' = capacity_of q /\ accepting q' = accepting q /\
  packets q' = if accepting q then keep_last (capacity_of q) (packets q ++ l) else packets q.
Lemma received_nil q : queue_ok q -> received q q [].
Proof. intros Hq. split; [done|]. split; [done|]. split; [done|]. destruct (accepting q); [|done]. rewrite app_nil_r. symmetry. apply keep_last_id, Hq. Qed.
Lemma received_trans q q1 q2 l m : received q q1 l -> received q1 q2 m -> received q q2 (l ++ m).
Proof.
  intros (_ & Ec & Ea & Ep) (Hq2 & Ec2 & Ea2 & Ep2). rewrite Ec, Ea, Ep in *. split; [done|]. split; [done|]. split; [done|].
  rewrite Ep2. destruct (accepting q); [|done]. by rewrite app_assoc, keep_last_app.
Qed.
(** [try_send], and [force_send] where that is refused. *)
Definition send_or_replace (q : PacketQueue ClientBuf) (packet : ClientBuf) : PacketQueue ClientBuf :=
  match send_inner q packet false with (Some packet, q) => (send_inner q packet true).2 | (None, q) => q end.
Lemma send_or_replace_spec q packet : queue_ok q -> received q (send_or_replace q packet) [packet].
Proof.
  intros [Hs [Hc Hb]]. unfold send_or_replace. pose proof (send_inner_spec q packet false Hs) as H1. destruct (send_inner q packet false) as [r q1].
  destruct H1 as (E1 & S1 & C1 & A1). unfold sent in E1.
  assert (Hdone : forall q', settled q' -> capacity_of q' = capacity_of q -> accepting q' = accepting q ->
    packets q' = (if accepting q then keep_last (capacity_of q) (packets q ++ [packet]) else packets q) -> received q q' [packet]).
  { intros q' ? Ec' ? Ep. split; [|done]. split; [done|]. unfold bounded. rewrite Ec', Ep. split; [done|]. destruct (accepting q); [apply length_keep_last; lia|done]. }
  destruct (accepting q) eqn:Ea; cbn [negb] in E1; [destruct (_ <? _) eqn:El; bool_prop|]; injection E1 as -> P1.
  - apply Hdone; [done..|]. rewrite P1, keep_last_id; [done|]. unfold len in *. rewrite length_app. cbn. lia.
  - pose proof (send_inner_spec q1 packet true S1) as H2. destruct (send_inner q1 packet true) as [r2 q2]. destruct H2 as (E2 & S2 & C2 & A2).
    unfold sent in E2. rewrite A1, C1, P1 in E2. cbn [negb] in E2. replace (_ <? _) with false in E2 by lia. injection E2 as _ P2.
    cbn [snd]. apply Hdone; [done|congruence|congruence|]. rewrite P2, keep_last_snoc; [done|lia|lia].
  - pose proof (send_inner_spec q1 packet true S1) as H2. destruct (send_inner q1 packet true) as [r2 q2]. destruct H2 as (E2 & S2 & C2 & A2).
    unfold sent in E2. rewrite A1, P1 in E2. cbn [negb] in E2. injection E2 as _ P2. cbn [snd]. apply Hdone; [done|congruence|congruence|]. congruence.
Qed.

Lemma dispatch_to s ws slot class w q packet : 0 <= slot -> ws !! Z.to_nat slot = Some w -> s !! class_queue w class = Some q ->
  dispatch_ticket s ws (Some (mkTicket slot class)) packet = <[class_queue w class := send_or_replace q packet]> s.
Proof.
  intros Hs Hw Hq. unfold dispatch_ticket, enqueue_selected_worker, replace_oldest_in_selected_queue, nth_worker, send_to, send_or_replace.
  cbn [dt_start_slot dt_class]. replace (slot <? 0) with false by lia. rewrite Hw, Hq. destruct (send_inner q packet false) as [[p|] q1]; [|done].
  rewrite lookup_insert_eq. destruct (send_inner q1 p true) as [r q2]. cbn. apply insert_insert_eq.
Qed.

(** The packets in the order they come, each with its class. *)
Fixpoint dispatch_run (d : Dispatcher) (s : gmap Z (PacketQueue ClientBuf)) (scheduler : FastPathScheduler) (l : list ClientBuf)
    : opt (gmap Z (PacketQueue ClientBuf) * FastPathScheduler) :=
  match l with
  | [] => Ok (s, scheduler)
  | packet :: l => done ← dispatch_now d s scheduler packet; dispatch_run d done.1 done.2 l
  end.
(** The share of slot [i] in [class]: every [n]-th chunk of the packets of that
    class, counted from the [k]-th. *)
Fixpoint share (n i : Z) (class : PacketClass) (k : Z) (l : list (ClientBuf * PacketClass)) : list ClientBuf :=
  match l with
  | [] => []
  | (packet, c) :: l =>
      if decide (c = class)
      then (if chunk_slot n class k =? i then [packet] else []) ++ share n i class (k + 1) l
      else share n i class k l
  end.
Definition distinct_queues (ws : list WorkerChannels) : Prop := forall (i j : nat) v w c c',
  ws !! i = Some v -> ws !! j = Some w -> class_queue v c = class_queue w c' -> i = j /\ c = c'.
Definition queues_ok (ws : list WorkerChannels) (s : gmap Z (PacketQueue ClientBuf)) : Prop :=
  forall w c, w ∈ ws -> exists q, s !! class_queue w c = Some q /\ queue_ok q.

Lemma dispatch_one d s sch packet class counts : dp_workers d <> [] -> scheduled (dp_workers d) counts sch -> queues_ok (dp_workers d) s -> class_of packet = Ok class ->
  exists w q sch', dp_workers d !! Z.to_nat (chunk_slot (len (dp_workers d)) class (counts class)) = Some w /\ s !! class_queue w class = Some q /\ queue_ok q /\
    dispatch_now d s sch packet = Ok (<[class_queue w class := send_or_replace q packet]> s, sch') /\ scheduled (dp_workers d) (count_one counts class) sch'.
Proof.
  intros Hne Hs Hq Hc. pose proof (begin_stripe _ _ _ class Hne Hs) as Hb. unfold class_of in Hc. apply bind_ok in Hc as (data & Ed & Hc).
  unfold dispatch_now, FastPathScheduler_begin. rewrite Ed. cbn [mbind result_bind]. rewrite Hc. cbn [mbind result_bind].
  destruct (begin_in_class sch (dp_workers d) class) as [ticket sch']. destruct Hb as (-> & Ew & Hs'). cbn [fst snd]. rewrite Ew.
  assert (Hn : 0 < len (dp_workers d)) by (destruct (dp_workers d); [done|unfold len; cbn; lia]).
  pose proof (Z.mod_pos_bound (counts class / stream_chunk class) _ Hn) as Hslot. change (_ mod len (dp_workers d)) with (chunk_slot (len (dp_workers d)) class (counts class)) in Hslot.
  destruct (lookup_lt_is_Some_2 (dp_workers d) (Z.to_nat (chunk_slot (len (dp_workers d)) class (counts class)))) as [w Hw]; [unfold len in *; lia|].
  destruct (Hq w class ltac:(by eapply list_elem_of_lookup_2)) as (q & Eq & Hok). exists w, q, sch'. split; [done|]. split; [done|]. split; [done|].
  split; [|done]. by rewrite (dispatch_to _ _ _ _ w q) by (lia || done).
Qed.
Lemma dispatch_run_spec d l : dp_workers d <> [] -> distinct_queues (dp_workers d) -> Forall (fun pc => class_of pc.1 = Ok pc.2) l ->
  forall s sch counts, scheduled (dp_workers d) counts sch -> queues_ok (dp_workers d) s ->
  exists s' sch', dispatch_run d s sch l.*1 = Ok (s', sch') /\
    (forall (i : nat) w c q, dp_workers d !! i = Some w -> s !! class_queue w c = Some q ->
       exists q', s' !! class_queue w c = Some q' /\ received q q' (share (len (dp_workers d)) (Z.of_nat i) c (counts c) l)) /\
    (forall k, (forall w c, w ∈ dp_workers d -> class_queue w c <> k) -> s' !! k = s !! k).
Proof.
  intros Hne Hdq Hl. set (n := len (dp_workers d)). induction Hl as [|[packet class] l Hc Hl IH]; intros s sch counts Hs Hq.
  { exists s, sch. split; [done|]. split; [|done]. intros i w c q Hw Eq. exists q. split; [done|]. apply received_nil.
    destruct (Hq w c ltac:(by eapply list_elem_of_lookup_2)) as (q' & Eq' & ?). congruence. }
  destruct (dispatch_one d s sch packet class counts Hne Hs Hq Hc) as (w1 & q1 & sch1 & Hw1 & Eq1 & Hok1 & E1 & Hs1). fold n in Hw1.
  pose proof (send_or_replace_spec q1 packet Hok1) as Hr1.
  assert (Hslot : 0 <= chunk_slot n class (counts class)) by (apply Z.mod_pos_bound; unfold n; destruct (dp_workers d); [done|unfold len; cbn; lia]).
  destruct (IH (<[class_queue w1 class := send_or_replace q1 packet]> s) sch1 _ Hs1) as (s' & sch' & Erun & Hin & Hout).
  { intros w c Hw. destruct (decide (class_queue w1 class = class_queue w c)) as [->|Hne'].
    - rewrite lookup_insert_eq. eexists. split; [done|]. apply Hr1.
    - rewrite lookup_insert_ne by done. by apply Hq. }
  exists s', sch'. split; [cbn [fmap list_fmap dispatch_run fst]; rewrite E1; exact Erun|]. split.
  - intros i w c q Hw Eq. cbn [share]. destruct (decide (class_queue w1 class = class_queue w c)) as [Ecq|Hne'].
    + destruct (Hdq _ _ _ _ _ _ Hw1 Hw Ecq) as [Ei ->]. rewrite <- Ecq in *. assert (q = q1) as -> by congruence.
      destruct (Hin i w c (send_or_replace q1 packet) Hw) as (q' & Eq' & Hr'); [rewrite Ecq; by rewrite lookup_insert_eq|].
      exists q'. rewrite Ecq. split; [done|]. rewrite decide_True by done. replace (chunk_slot n c (counts c) =? Z.of_nat i) with true by lia.
      unfold count_one in Hr'. rewrite decide_True in Hr' by done. by eapply received_trans.
    + destruct (Hin i w c q Hw) as (q' & Eq' & Hr'); [by rewrite lookup_insert_ne|]. exists q'. split; [done|].
      unfold count_one in Hr'. destruct (decide (c = class)) as [->|Hcc]; [|by rewrite decide_False by done].
      rewrite decide_True by done. destruct (_ =? Z.of_nat i) eqn:E; bool_prop; [|done]. destruct Hne'. rewrite E, Nat2Z.id in Hw1. congruence.
  - intros k Hk. rewrite Hout by done. apply lookup_insert_ne. apply Hk. by eapply list_elem_of_lookup_2.
Qed.

(** C6. Dispatching a run of packets from a fresh scheduler over a fixed set of
    workers never fails: the packets of each class go to the workers in turn,
    a whole chunk each, whatever packets of other classes come between; each
    worker's queue for the class ends with the newest of what it held and its
    share, up to its capacity; a queue that accepts nothing loses its share,
    which is never sent elsewhere; and no other queue changes. *)
Theorem dispatch_stripes_chunks d s l :
  dp_workers d <> [] -> distinct_queues (dp_workers d) -> queues_ok (dp_workers d) s -> Forall (fun pc => class_of pc.1 = Ok pc.2) l ->
  exists s' sch, dispatch_run d s FastPathScheduler_new l.*1 = Ok (s', sch) /\
    (forall (i : nat) w c q, dp_workers d !! i = Some w -> s !! class_queue w c = Some q ->
       exists q', s' !! class_queue w c = Some q' /\ received q q' (share (len (dp_workers d)) (Z.of_nat i) c 0 l)) /\
    (forall k, (forall w c, w ∈ dp_workers d -> class_queue w c <> k) -> s' !! k = s !! k).
Proof. intros Hne Hdq Hq Hl. exact (dispatch_run_spec d l Hne Hdq Hl s _ _ (scheduled_new _) Hq). Qed.
End Striping.

(** ** Framing, and back *)

Lemma push_next {T : Type} q total (v : T) now out : 0 <= total ->
  push_state (mkFlowState q None []) total q v now out = (mkFlowState (u32_of (q + 1)) None [], total, out ++ [v]).
Proof.
  intros Ht. unfold push_state, release_expired. cbn [gap_started_ms expected]. rewrite Z.eqb_refl. cbn [pending]. unfold drain_contiguous. cbn [drain_loop length pending].
  unfold account, sat_sub. cbn. do 2 f_equal; lia.
Qed.
(** The reader has of every flow what the writer has numbered. *)
Definition next_frame (q : Z) : FlowState ClientBuf := mkFlowState q None [].
Record in_step (fs : FlowSequencer) (r : FlowReassembler ClientBuf) : Prop := {
  is_sender : is_u64 (fs_sender_id fs);
  is_numbers : map_Forall (fun _ q => is_u32 q) (fs_sequences fs);
  is_flows : flows r = kmap (pair (fs_sender_id fs)) (next_frame <$> fs_sequences fs);
  is_total : pending_total r = 0;
}.
Lemma is_u32_u32_of z : is_u32 (u32_of z).
Proof. apply Z.mod_pos_bound. lia. Qed.
Lemma in_step_size fs r : in_step fs r -> size (flows r) = size (fs_sequences fs).
Proof. intros [_ _ Hf _]. rewrite Hf, <- !length_map_to_list, map_to_list_kmap by apply _. by rewrite length_fmap, map_to_list_fmap, length_fmap. Qed.
Lemma in_step_new sid : is_u64 sid -> in_step (mkFlowSequencer sid ∅) FlowReassembler_new.
Proof. intros Hs. split; cbn; [done|done| |done]. by rewrite fmap_empty, kmap_empty. Qed.
(** One more frame of flow [i], with room for the flow. *)
Lemma in_step_flow fs r i : in_step fs r -> is_u64 i ->
  let q := default 0 (fs_sequences fs !! i) in
  let key := (fs_sender_id fs, i) in
  valid_header (mkFrameHeader (fs_sender_id fs) i q) /\
  (forall v now out, push_state (default (mkFlowState 0 None []) (flows r !! key)) (pending_total r) q v now out = (next_frame (u32_of (q + 1)), 0, out ++ [v])) /\
  in_step (mkFlowSequencer (fs_sender_id fs) (<[i := u32_of (q + 1)]> (fs_sequences fs))) (mkFlowReassembler (<[key := next_frame (u32_of (q + 1))]> (flows r)) 0).
Proof.
  intros [Hs Hq Hf Ht] Hi. cbn zeta. set (q := default 0 _). split; [|split].
  - split; [done|]. split; [done|]. cbn. unfold q. destruct (fs_sequences fs !! i) eqn:E; cbn; [by apply (Hq i)|done].
  - intros v now out. rewrite Hf, (lookup_kmap (pair (fs_sender_id fs))), lookup_fmap.
    replace (default (mkFlowState 0 None []) (next_frame <$> fs_sequences fs !! i)) with (next_frame q) by (unfold q; by destruct (fs_sequences fs !! i)).
    unfold next_frame. rewrite Ht, push_next by lia. done.
  - split; cbn; [done| | |done].
    + apply map_Forall_insert_2; [apply is_u32_u32_of|done].
    + rewrite fmap_insert, (kmap_insert (pair (fs_sender_id fs))). by rewrite Hf.
Qed.
(** Both ends notice a full table at the same frame. *)
Lemma in_step_push fs r packet i : in_step fs r -> tcp_flow_id packet = Ok i -> is_u64 i ->
  exists header fs' r', FlowSequencer_next fs packet = (Ok header, fs') /\ valid_header header /\
    (forall v now out, push_at r header v now out = (r', out ++ [v])) /\ in_step fs' r'.
Proof.
  intros Hin Ei Hi. pose proof (in_step_size _ _ Hin) as Hsz. unfold FlowSequencer_next. rewrite Ei.
  assert (Hkey : forall sid, fs_sequences fs !! i = None -> flows r !! (sid, i) = None).
  { intros sid Hn. rewrite (is_flows _ _ Hin). apply lookup_kmap_None; [apply _|]. intros j Ej. rewrite lookup_fmap. assert (j = i) as -> by congruence. by rewrite Hn. }
  destruct ((_ =? MAX_TRACKED_FLOWS) && _) eqn:Ef.
  - apply andb_true_iff in Ef as [En Efr]. apply negb_true_iff, bool_decide_eq_false, eq_None_not_Some in Efr. set (sid := Z.max _ 1).
    assert (Hsid : is_u64 sid).
    { pose proof (mix64_range _ (u64_of_range (fs_sender_id fs + 0x9e3779b97f4a7c15))) as Hm. unfold sid, is_u64 in *. lia. }
    destruct (in_step_flow _ _ i (in_step_new sid Hsid) Hi) as (H1 & H2 & H3). eexists _, _, _. split; [done|]. split; [exact H1|]. split; [|exact H3].
    intros v now out. unfold push_at. cbn [sender_id flow_id sequence fs_sender_id fs_sequences] in *.
    rewrite Hsz, En, (Hkey sid Efr), bool_decide_eq_false_2 by (by intros []). cbn [negb andb]. by rewrite H2.
  - destruct (in_step_flow fs r i Hin Hi) as (H1 & H2 & H3). eexists _, _, _. split; [done|]. split; [exact H1|]. split; [|exact H3].
    intros v now out. unfold push_at. cbn [sender_id flow_id sequence]. rewrite Hsz.
    replace ((_ =? MAX_TRACKED_FLOWS) && _) with false; [by rewrite H2|]. rewrite <- Ef at 1. do 2 f_equal. apply bool_decide_ext.
    rewrite (is_flows _ _ Hin), (lookup_kmap (pair (fs_sender_id fs))), lookup_fmap, fmap_is_Some. done.
Qed.

(** The frame in front of a packet. *)
Lemma write_frame_spec p header : client_buf_wf p -> FRAME_LEN <= cb_start p ->
  exists framed, write_frame header p = Ok (true, framed) /\ client_buf_wf framed /\ window framed = frame_bytes header ++ window p.
Proof.
  intros (Hl & Hs & He) Hst. unfold write_frame, ClientBuf_prepend, FRAME_LEN, CLIENT_PACKET_CAPACITY in *. pose proof (len_frame_bytes header) as Hf. unfold FRAME_LEN in Hf.
  destruct (split_at (cb_storage p) (cb_start p - 24)) as (pre & r1 & E1 & L1 & _); [lia|]. rewrite E1, len_app in Hl.
  destruct (split_at r1 24) as (mid & r2 & -> & L2 & _); [lia|]. rewrite len_app in Hl.
  destruct (split_at r2 (cb_end p - cb_start p)) as (body & post & -> & L3 & _); [lia|]. rewrite len_app in Hl.
  replace (cb_start p <? 24) with false by lia. cbn [cb_storage cb_start cb_end]. rewrite E1, slice_ok by (rewrite ?len_app; lia).
  cbn [mbind result_bind mret result_ret cb_storage cb_start cb_end]. rewrite slice_ok by (rewrite ?len_app; lia). cbn [mbind result_bind].
  rewrite sub_app_mid by lia. rewrite encode_layout by (unfold FRAME_LEN; lia). cbn [mbind result_bind fst snd].
  replace (sub mid FRAME_LEN (len mid)) with ([] : bytes).
  2: { symmetry. apply nil_length_inv. pose proof (len_sub mid 24 24 ltac:(lia) ltac:(lia) ltac:(lia)). unfold FRAME_LEN. rewrite L2. unfold len in *. lia. }
  rewrite app_nil_r, (copy_into_eq _ pre mid (body ++ post)) by (lia || done). cbn [mbind result_bind]. eexists. split; [done|].
  unfold client_buf_wf, window. cbn [cb_storage cb_start cb_end]. unfold CLIENT_PACKET_CAPACITY. split; [rewrite !len_app; lia|].
  rewrite E1. replace (pre ++ mid ++ body ++ post) with ((pre ++ mid) ++ body ++ post) by (by rewrite <- app_assoc).
  rewrite (sub_app_mid (pre ++ mid) body post) by (rewrite ?len_app; lia).
  replace (pre ++ frame_bytes header ++ body ++ post) with (pre ++ (frame_bytes header ++ body) ++ post) by (by rewrite <- !app_assoc).
  by rewrite sub_app_mid by (rewrite ?len_app; lia).
Qed.
(** What follows the frame, once it is cut off. *)
Lemma trim_frame p header body : client_buf_wf p -> window p = frame_bytes header ++ body ->
  exists p', ClientBuf_trim_front p FRAME_LEN = Ok p' /\ client_buf_wf p' /\ window p' = body.
Proof.
  intros Hwf Hw. pose proof (client_buf_window p (OpTrimFront FRAME_LEN) Hwf ltac:(done)) as H. cbn [buf_apply] in H.
  assert (Hl : len (window p) = FRAME_LEN + len body) by (by rewrite Hw, len_app, len_frame_bytes). pose proof (len_nonneg body).
  destruct (ClientBuf_trim_front p FRAME_LEN) as [p'|e|]; cbn in H; [|lia|done]. destruct H as (Hwf' & _ & Hw'). exists p'. split; [done|]. split; [done|].
  rewrite Hw', Hl, Hw, <- (app_nil_r body) at 1. rewrite sub_app_mid; rewrite ?len_frame_bytes; rewrite ?app_nil_r; done.
Qed.

(** A packet with headroom for a frame, and not a frame itself unless it is about
    to become one. *)
Definition framable (p : ClientBuf) : Prop :=
  client_buf_wf p /\ FRAME_LEN <= cb_start p /\ ((exists i, tcp_flow_id (window p) = Ok i) \/ FrameHeader_decode (window p) = none).
Lemma frame_and_push fs r p now out : in_step fs r -> framable p ->
  exists framed fs' r' p', frame_outbound_packet fs p = Ok (true, framed, fs') /\
    ReturnReorder_push (mkReorder r out) framed now = Ok (mkReorder r' (out ++ [p'])) /\ window p' = window p /\ in_step fs' r'.
Proof.
  intros Hin (Hwf & Hst & Hkind). unfold frame_outbound_packet. rewrite (client_window_slice p Hwf). cbn [mbind result_bind].
  pose proof (tcp_flow_id_cases (window p)) as Hc. destruct (tcp_flow_id (window p)) as [i|e|] eqn:Ei; [|clear Hc|done].
  - destruct (in_step_push fs r (window p) i Hin Ei ltac:(rewrite Hc; apply tuple_hash_range)) as (header & fs' & r' & -> & Hv & Hpush & Hin').
    destruct (write_frame_spec p header Hwf Hst) as (framed & -> & Hwf' & Hw'). cbn [mbind result_bind fst snd].
    destruct (trim_frame framed header (window p) Hwf' Hw') as (p' & Et & _ & Hp'). exists framed, fs', r', p'. split; [done|]. split; [|done].
    unfold ReturnReorder_push. rewrite (client_window_slice framed Hwf'). cbn [mbind result_bind]. rewrite Hw', (decode_frame_bytes header _ Hv), Et.
    unfold push. cbn [rr_reassembler rr_ready]. by rewrite Hpush.
  - destruct Hkind as [[i Hi]|Hd]; [done|]. unfold FlowSequencer_next. rewrite Ei. exists p, fs, r, p. split; [done|]. split; [|done].
    unfold ReturnReorder_push. rewrite (client_window_slice p Hwf). cbn [mbind result_bind]. by rewrite Hd.
Qed.
Fixpoint frame_run (sequences : FlowSequencer) (l : list ClientBuf) : opt (list ClientBuf * FlowSequencer) :=
  match l with
  | [] => Ok ([], sequences)
  | packet :: l =>
      framed ← frame_outbound_packet sequences packet;
      rest ← frame_run framed.2 l;
      Ok (if framed.1.1 : bool then framed.1.2 :: rest.1 else rest.1, rest.2)
  end.
Fixpoint reorder_run (r : ReturnReorder) (l : list (ClientBuf * Z)) : opt ReturnReorder :=
  match l with
  | [] => Ok r
  | (packet, now) :: l => r ← ReturnReorder_push r packet now; reorder_run r l
  end.

(** Framing loses nothing and reordering nothing that came in order: any
    sequence of packets (of any number of TCP flows, and of anything else) framed
    by one sender and given to a fresh reordering buffer in the order sent comes
    out byte for byte, in that order and at once, whatever the clock says; this
    holds across the point where the tables of flows overflow and start over, and
    where a flow's numbers wrap around. *)
Theorem framing_roundtrip sender l clock :
  is_u64 sender -> Forall framable l -> length clock = length l ->
  exists framed fs r, frame_run (FlowSequencer_with_sender_id sender) l = Ok (framed, fs) /\ length framed = length l /\
    reorder_run ReturnReorder_new (zip framed clock) = Ok r /\ window <$> rr_ready r = window <$> l.
Proof.
  intros Hs Hl Hc. assert (Hin : in_step (FlowSequencer_with_sender_id sender) FlowReassembler_new) by (apply in_step_new; unfold is_u64 in *; lia).
  assert (H : forall fs r0 out, in_step fs r0 -> exists framed fs' r, frame_run fs l = Ok (framed, fs') /\ length framed = length l /\
    reorder_run (mkReorder r0 out) (zip framed clock) = Ok r /\ window <$> rr_ready r = (window <$> out) ++ (window <$> l)).
  { clear sender Hs Hin. revert clock Hc. induction Hl as [|p l Hp Hl IH]; intros clock Hc fs r0 out Hin.
    { exists [], fs, (mkReorder r0 out). cbn. by rewrite app_nil_r. }
    destruct clock as [|now clock]; [done|]. destruct (frame_and_push fs r0 p now out Hin Hp) as (f & fs1 & r1 & p' & E1 & E2 & Ew & Hin1).
    destruct (IH clock ltac:(by injection Hc) fs1 r1 (out ++ [p']) Hin1) as (framed & fs2 & r2 & E3 & El & E4 & Er).
    exists (f :: framed), fs2, r2. cbn [frame_run zip zip_with reorder_run length]. rewrite E1. cbn [mbind result_bind fst snd]. rewrite E3, E2. cbn [mbind result_bind fst snd].
    split; [done|]. split; [by rewrite El|]. split; [done|]. rewrite Er, fmap_app, <- app_assoc. cbn. by rewrite Ew. }
  destruct (H _ _ [] Hin) as (framed & fs & r & ? & ? & ? & ?). by exists framed, fs, r.
Qed.

(** ** The return path *)

Lemma push_at_weight {T : Type} (r : FlowReassembler T) h v now out r' out' : wf_reassembler r -> is_u32 (sequence h) -> push_at r h v now out = (r', out') ->
  len out' + pending_total r' <= len out + pending_total r + 1.
Proof.
  intros Hwf Hs Hp. destruct (push_at_spec r h v now out r' out' Hwf Hs Hp) as (Hwf' & ps & -> & _ & Hperm). cbv zeta in Hperm.
  assert (Hlen : len ps + len (pending (flow_of r' (key_of h))) <= len (pending (flow_of r (key_of h))) + 1).
  { unfold len. destruct Hperm as [H|H]; apply Permutation_length in H; rewrite !length_app in H; cbn in H; lia. }
  rewrite (wr_total _ Hwf), (wr_total _ Hwf'). unfold push_at in Hp. fold (key_of h) in Hp. set (r1 := if _ && _ then _ else r) in Hp.
  assert (Hr1 : total_pending (flows r1) - len (pending (flow_of r1 (key_of h))) <= total_pending (flows r) - len (pending (flow_of r (key_of h)))).
  { unfold r1. destruct (_ && _); [|lia]. pose proof (total_pending_lookup (flows r) (key_of h)) as Hl. fold (flow_of r (key_of h)) in Hl.
    assert (E0 : total_pending (∅ : gmap ReassemblyKey (FlowState T)) = 0) by done. assert (E1 : flow_of (mkFlowReassembler (∅ : gmap _ (FlowState T)) 0) (key_of h) = mkFlowState 0 None []) by done.
    rewrite E1. cbn [flows pending]. rewrite E0. unfold len in *. cbn [length]. lia. }
  destruct (push_state _ _ _ _ _ _) as [[st' t'] o']. injection Hp as <- _. unfold flow_of in Hlen at 1. cbn [flows] in *. rewrite lookup_insert_eq in Hlen. cbn in Hlen.
  rewrite total_pending_insert. fold (flow_of r1 (key_of h)). unfold len in *. rewrite length_app, length_fmap. lia.
Qed.

Definition buf_ok (p : ClientBuf) : Prop := client_buf_wf p /\ wf_bytes (window p).
Record reorder_ok (r : ReturnReorder) : Prop := {
  ro_wf : wf_reassembler (rr_reassembler r);
  ro_held : frames_hold buf_ok (rr_reassembler r);
  ro_ready : Forall buf_ok (rr_ready r);
}.
Definition reorder_weight (r : ReturnReorder) : Z := len (rr_ready r) + pending_total (rr_reassembler r).
Lemma class_total p : buf_ok p -> exists c, class_of p = Ok c.
Proof.
  intros [Hwf Hb]. unfold class_of. rewrite (client_window_slice p Hwf). cbn. apply classification_total; [done|].
  rewrite <- (client_window_len p Hwf). destruct Hwf as (_ & ? & ?). unfold ClientBuf_len, CLIENT_PACKET_CAPACITY, ISIZE_MAX in *. destruct (_ <? _); lia.
Qed.
Lemma reorder_push_ok r p now : reorder_ok r -> buf_ok p -> exists r', ReturnReorder_push r p now = Ok r' /\ reorder_ok r' /\ reorder_weight r' <= reorder_weight r + 1.
Proof.
  intros [H1 H2 H3] [Hwf Hb]. unfold ReturnReorder_push. rewrite (client_window_slice p Hwf). cbn [mbind result_bind].
  pose proof (frame_decode_cases (window p) Hb) as Hd. destruct (FrameHeader_decode (window p)) as [[header body]|e|]; [|clear Hd|done].
  - destruct Hd as [Hv Hw]. destruct (trim_frame p header body Hwf Hw) as (p' & -> & Hwf' & Hw'). unfold push.
    destruct (push_at _ header p' _ (rr_ready r)) as [ra ready] eqn:E. exists (mkReorder ra ready). split; [done|].
    assert (Hp' : buf_ok p') by (split; [done|]; rewrite Hw'; rewrite Hw in Hb; by apply Forall_app in Hb as [_ ?]).
    destruct (push_at_holds buf_ok _ _ _ _ _ _ _ H1 (proj2 (proj2 Hv)) H2 Hp' H3 E) as (? & ? & ?). split; [done|].
    unfold reorder_weight. cbn [rr_ready rr_reassembler]. pose proof (push_at_weight _ _ _ _ _ _ _ H1 (proj2 (proj2 Hv)) E). lia.
  - eexists. split; [done|]. split; [split; cbn; [done|done|by apply Forall_app_2; [|by apply Forall_singleton]]|].
    unfold reorder_weight, len. cbn. rewrite length_app. cbn. lia.
Qed.

Section ReturnPath.
Context `{AQ : ArrayQueue} `{NT : Notify} {AL : ArrayQueueLaws AQ}.
Implicit Types (s : gmap Z (PacketQueue ClientBuf)).

Definition return_queue_ok s (q : Z) : Prop := exists queue, s !! q = Some queue /\ settled queue /\ Forall buf_ok (packets queue).
Record returns_ok (d : Dispatcher) s : Prop := {
  rt_distinct : NoDup [dp_return_latency d; dp_return_priority d; dp_return d];
  rt_queues : Forall (return_queue_ok s) [dp_return_latency d; dp_return_priority d; dp_return d];
}.
(** Taking from one queue: its oldest packet, the other queues as they were. *)
Lemma recv_from_spec s q : return_queue_ok s q ->
  exists s', (recv_from s q).2 = s' /\ return_queue_ok s' q /\ (forall k, k <> q -> s' !! k = s !! k) /\
    match (recv_from s q).1 with
    | Some p => buf_ok p /\ queued_at s q = S (queued_at s' q)
    | None => queued_at s q = 0%nat /\ queued_at s' q = 0%nat
    end.
Proof.
  intros (queue & Eq & Hs & Hb). unfold recv_from. rewrite Eq. pose proof (recv_spec queue Hs) as H. destruct (try_recv queue) as [r queue'].
  destruct H as (-> & Hp & Hs' & _). eexists. split; [done|]. cbn [fst snd].
  assert (Hl : forall x : PacketQueue ClientBuf, length (aq_items (pq_queue x)) = length (packets x)) by (intros; unfold packets; by rewrite length_fmap).
  split; [exists queue'; rewrite lookup_insert_eq; split; [done|]; split; [done|]; rewrite Hp; by destruct Hb|].
  split; [intros; by apply lookup_insert_ne|]. unfold queued_at. rewrite Eq, lookup_insert_eq, !Hl, Hp. destruct Hb as [|p l Hp' _]; cbn; [done|]. split; [done|lia].
Qed.
Lemma return_queue_ok_frame s s' k : s' !! k = s !! k -> return_queue_ok s k -> return_queue_ok s' k.
Proof. unfold return_queue_ok. by intros ->. Qed.
Lemma queued_at_frame s s' k : s' !! k = s !! k -> queued_at s' k = queued_at s k.
Proof. unfold queued_at. by intros ->. Qed.
(** One packet from the three queues, the most urgent first. *)
Lemma next_return_spec d s : returns_ok d s ->
  exists s', (next_return_packet d s).2 = s' /\ returns_ok d s' /\
    match (next_return_packet d s).1 with
    | Some p => buf_ok p /\ queued_return d s = S (queued_return d s')
    | None => queued_return d s' = 0%nat
    end.
Proof.
  intros [Hd Hq]. pose proof Hq as Hq0. rewrite !Forall_cons in Hq0. destruct Hq0 as (Q1 & Q2 & Q3 & _).
  apply NoDup_cons in Hd as Hd'. destruct Hd' as [N1 Hd']. apply NoDup_cons in Hd' as [N2 _]. rewrite !elem_of_cons in N1. rewrite !elem_of_cons in N2.
  set (a := dp_return_latency d) in *. set (b := dp_return_priority d) in *. set (c := dp_return d) in *. unfold next_return_packet, queued_return. fold a b c.
  assert (Hab : a <> b) by tauto. assert (Hac : a <> c) by tauto. assert (Hbc : b <> c) by tauto.
  destruct (recv_from_spec s a Q1) as (s1 & E1 & Q1' & F1 & W1). destruct (recv_from s a) as [r1 s1']. cbn [fst snd] in *. subst s1'.
  assert (Q2' : return_queue_ok s1 b) by (by apply (return_queue_ok_frame s); [apply F1|]). assert (Q3' : return_queue_ok s1 c) by (by apply (return_queue_ok_frame s); [apply F1|]).
  pose proof (queued_at_frame s s1 b (F1 b ltac:(done))) as B1. pose proof (queued_at_frame s s1 c (F1 c ltac:(done))) as C1.
  destruct r1 as [p|]; [exists s1; split; [done|]; split; [split; [exact Hd|by repeat constructor]|]; cbn; split; [apply W1|lia]|].
  destruct (recv_from_spec s1 b Q2') as (s2 & E2 & Q2'' & F2 & W2). destruct (recv_from s1 b) as [r2 s2']. cbn [fst snd] in *. subst s2'.
  assert (Q1'' : return_queue_ok s2 a) by (by apply (return_queue_ok_frame s1); [apply F2|]). assert (Q3'' : return_queue_ok s2 c) by (by apply (return_queue_ok_frame s1); [apply F2|]).
  pose proof (queued_at_frame s1 s2 a (F2 a ltac:(done))) as A2. pose proof (queued_at_frame s1 s2 c (F2 c ltac:(done))) as C2.
  destruct r2 as [p|]; [exists s2; split; [done|]; split; [split; [exact Hd|by repeat constructor]|]; cbn; split; [apply W2|lia]|].
  destruct (recv_from_spec s2 c Q3'') as (s3 & E3 & Q3''' & F3 & W3). exists s3. split; [done|].
  assert (Q1''' : return_queue_ok s3 a) by (by apply (return_queue_ok_frame s2); [apply F3|]). assert (Q2''' : return_queue_ok s3 b) by (by apply (return_queue_ok_frame s2); [apply F3|]).
  pose proof (queued_at_frame s2 s3 a (F3 a ltac:(done))) as A3. pose proof (queued_at_frame s2 s3 b (F3 b ltac:(done))) as B3.
  split; [split; [exact Hd|by repeat constructor]|]. destruct (recv_from s2 c) as [[p|] s3']; cbn [fst snd] in *; [split; [apply W3|lia]|lia].
Qed.

Definition path_ok (d : Dispatcher) (r : ReturnReorder) s : Prop := reorder_ok r /\ returns_ok d s.
(** An upper bound of the packets that can still come out. *)
Definition return_weight (d : Dispatcher) (r : ReturnReorder) s : Z := reorder_weight r + Z.of_nat (queued_return d s).
Definition ordered_post (d : Dispatcher) (w : Z) (o : option ClientBuf) (r : ReturnReorder) s : Prop :=
  path_ok d r s /\ match o with Some p => buf_ok p /\ return_weight d r s < w | None => rr_ready r = [] /\ queued_return d s = 0%nat /\ return_weight d r s <= w end.
Lemma reorder_weight_nonneg r : reorder_ok r -> 0 <= reorder_weight r.
Proof. intros [Hwf _ _]. unfold reorder_weight, len. rewrite (wr_total _ Hwf). pose proof (total_pending_nonneg (flows (rr_reassembler r))). lia. Qed.
Lemma ordered_loop_spec clock d fuel r s : path_ok d r s -> (queued_return d s < fuel)%nat ->
  exists o r' s', ordered_loop fuel clock d r s = Ok (o, r', s') /\ ordered_post d (return_weight d r s) o r' s'.
Proof.
  revert r s. induction fuel as [|fuel IH]; intros r s [Hr Hs] Hf; [lia|]. cbn [ordered_loop]. unfold ReturnReorder_pop. pose proof Hr as [R1 R2 R3].
  destruct (rr_ready r) as [|p ready] eqn:Er.
  - destruct (next_return_spec d s Hs) as (s1 & E1 & Hs1 & W1). destruct (next_return_packet d s) as [[p|] s1']; cbn [fst snd] in *; subst s1'.
    + destruct W1 as [Hp Hq]. destruct (reorder_push_ok r p (clock (queued_return d s1)) Hr Hp) as (r1 & E2 & Hr1 & Hw). rewrite E2. cbn [mbind result_bind].
      destruct (IH r1 s1 ltac:(by split) ltac:(lia)) as (o & r' & s' & E & Hpost & Ho). exists o, r', s'. split; [done|]. split; [done|].
      unfold return_weight in *. destruct o; [split; [apply Ho|lia]|]. destruct Ho as (? & ? & ?). split; [done|]. split; [done|lia].
    + exists None, r, s1. split; [done|]. split; [by split|]. split; [done|]. split; [done|]. unfold return_weight. lia.
  - exists (Some p), (mkReorder (rr_reassembler r) ready), s. apply Forall_cons in R3 as [Hp R3]. split; [done|].
    split; [by split|]. split; [done|]. unfold return_weight, reorder_weight. rewrite Er. unfold len. cbn. lia.
Qed.
Lemma next_ordered_spec clock d r s : path_ok d r s ->
  exists o r' s', next_ordered_return_packet clock d r s = Ok (o, r', s') /\ ordered_post d (return_weight d r s) o r' s'.
Proof. intros H. apply ordered_loop_spec; [done|lia]. Qed.

(** The packets one by one, until there is none. *)
Fixpoint return_stream (fuel : nat) (clock : nat -> Z) (d : Dispatcher) (r : ReturnReorder) s : opt (list ClientBuf * ReturnReorder * gmap Z (PacketQueue ClientBuf)) :=
  match fuel with
  | O => Ok ([], r, s)
  | S fuel =>
      next ← next_ordered_return_packet clock d r s;
      match next with
      | (None, r, s) => Ok ([], r, s)
      | (Some packet, r, s) => rest ← return_stream fuel clock d r s; Ok (packet :: rest.1.1, rest.1.2, rest.2)
      end
  end.
(** The rounds of [write_udp], until there is none. *)
Fixpoint write_udp_rounds (fuel : nat) (clock : nat -> Z) (d : Dispatcher) (r : ReturnReorder) s : opt (list (list ClientBuf) * ReturnReorder * gmap Z (PacketQueue ClientBuf)) :=
  match fuel with
  | O => Ok ([], r, s)
  | S fuel =>
      round ← write_udp_round clock d r s;
      match round with
      | (None, r, s) => Ok ([], r, s)
      | (Some batch, r, s) => rest ← write_udp_rounds fuel clock d r s; Ok (batch :: rest.1.1, rest.1.2, rest.2)
      end
  end.
Inductive streams (clock : nat -> Z) (d : Dispatcher) : ReturnReorder -> gmap Z (PacketQueue ClientBuf) -> list ClientBuf -> Prop :=
| streams_end r s r' s' : next_ordered_return_packet clock d r s = Ok (None, r', s') -> streams clock d r s []
| streams_more r s p r1 s1 l : next_ordered_return_packet clock d r s = Ok (Some p, r1, s1) -> streams clock d r1 s1 l -> streams clock d r s (p :: l).
Definition return_drained (d : Dispatcher) (r : ReturnReorder) s : Prop := path_ok d r s /\ rr_ready r = [] /\ queued_return d s = 0%nat.
Lemma streams_drained clock d r s : return_drained d r s -> streams clock d r s [].
Proof.
  intros ([Hr Hs] & Er & Eq). destruct (next_return_spec d s Hs) as (s1 & _ & _ & W1).
  destruct (next_return_packet d s) as [[p|] s1'] eqn:E; [cbn in W1; lia|]. apply (streams_end _ _ _ _ r s1').
  unfold next_ordered_return_packet. cbn [ordered_loop]. unfold ReturnReorder_pop. by rewrite Er, E.
Qed.
Lemma return_stream_total clock d fuel r s : path_ok d r s -> return_weight d r s < Z.of_nat fuel ->
  exists l r' s', return_stream fuel clock d r s = Ok (l, r', s') /\ streams clock d r s l /\ return_drained d r' s'.
Proof.
  revert r s. induction fuel as [|fuel IH]; intros r s Hp Hw.
  { destruct Hp as [Hr _]. pose proof (reorder_weight_nonneg r Hr). unfold return_weight in Hw. lia. }
  cbn [return_stream]. destruct (next_ordered_spec clock d r s Hp) as (o & r1 & s1 & E & Hp1 & Ho). rewrite E. cbn [mbind result_bind]. destruct o as [p|].
  - destruct (IH r1 s1 Hp1 ltac:(lia)) as (l & r' & s' & E' & Hst & He). rewrite E'. eexists _, r', s'. split; [done|]. split; [by eapply streams_more|done].
  - eexists [], r1, s1. split; [done|]. split; [by eapply streams_end|]. split; [done|]. split; apply Ho.
Qed.
(** A packet put back in front comes first. *)
Lemma streams_front clock d ra ready s l p : streams clock d (mkReorder ra ready) s l -> streams clock d (mkReorder ra (p :: ready)) s (p :: l).
Proof. intros H. eapply streams_more; [|exact H]. done. Qed.

Definition batch_ok (batch : list ClientBuf) : Prop :=
  exists class, batch <> [] /\ Forall (fun p => class_of p = Ok class) batch /\ len batch <= datagram_batch class.
Lemma fill_batch_spec clock d class room r s l : path_ok d r s -> streams clock d r s l ->
  exists b r1 s1 l1, fill_batch room clock d class r s = Ok (b, r1, s1) /\ l = b ++ l1 /\ streams clock d r1 s1 l1 /\
    Forall (fun p => class_of p = Ok class) b /\ (length b <= room)%nat /\ path_ok d r1 s1 /\ return_weight d r1 s1 <= return_weight d r s.
Proof.
  revert r s l. induction room as [|room IH]; intros r s l Hp Hl; cbn [fill_batch]; [by exists [], r, s, l|].
  destruct (higher_priority_waiting d s class); [by eexists [], r, s, l; split_and!; cbn; try done; lia|].
  destruct (next_ordered_spec clock d r s Hp) as (o & r1 & s1 & E & Hp1 & Ho).
  destruct Hl as [r s r' s' E'|r s p r' s' l E' Hl]; rewrite E' in E; injection E as <- <- <-; rewrite E'; cbn [mbind result_bind].
  - exists [], r', s', []. destruct Ho as (E1 & E2 & Hw). split_and!; cbn; try done; try lia. by apply streams_drained.
  - destruct Ho as [Hb Hw]. destruct (class_total p Hb) as [c Ec]. rewrite Ec. cbn [mbind result_bind]. case_bool_decide as Hc.
    + subst c. destruct (IH r' s' l Hp1 Hl) as (b & r2 & s2 & l2 & -> & -> & Hl2 & Hcl & Hlen & Hp2 & Hw2). cbn [mbind result_bind fst snd].
      eexists (p :: b), r2, s2, l2. split_and!; try done; [by constructor|cbn; lia|lia].
    + eexists [], _, s', (p :: l). split; [done|]. split; [done|]. destruct r' as [ra ready]. cbn [rr_reassembler rr_ready]. split; [by apply streams_front|].
      split; [done|]. split; [cbn; lia|]. destruct Hp1 as [[] ?]. split; [split; [split; cbn; [done|done|by constructor]|done]|].
      unfold return_weight, reorder_weight, len in *. cbn in *. lia.
Qed.
Lemma write_udp_rounds_spec clock d fuel r s l : path_ok d r s -> streams clock d r s l -> return_weight d r s < Z.of_nat fuel ->
  exists batches r' s', write_udp_rounds fuel clock d r s = Ok (batches, r', s') /\ mjoin batches = l /\ Forall batch_ok batches /\ return_drained d r' s'.
Proof.
  revert r s l. induction fuel as [|fuel IH]; intros r s l Hp Hl Hw.
  { destruct Hp as [Hr _]. pose proof (reorder_weight_nonneg r Hr). unfold return_weight in Hw. lia. }
  cbn [write_udp_rounds]. unfold write_udp_round. destruct (next_ordered_spec clock d r s Hp) as (o & r1 & s1 & E & Hp1 & Ho).
  destruct Hl as [r s r' s' E'|r s p r' s' l E' Hl]; rewrite E' in E; injection E as <- <- <-; rewrite E'; cbn [mbind result_bind].
  - eexists [], r', s'. split_and!; try done. split; [done|]. split; apply Ho.
  - destruct Ho as [Hb Hw']. destruct (class_total p Hb) as [c Ec]. rewrite Ec. cbn [mbind result_bind].
    destruct (fill_batch_spec clock d c (Z.to_nat (datagram_batch c - 1)) r' s' l Hp1 Hl) as (b & r2 & s2 & l2 & -> & -> & Hl2 & Hcl & Hlen & Hp2 & Hw2).
    cbn [mbind result_bind fst snd]. destruct (IH r2 s2 l2 Hp2 Hl2 ltac:(lia)) as (batches & r3 & s3 & -> & <- & Hok & Hd). cbn [mbind result_bind fst snd].
    eexists _, r3, s3. split; [done|]. split; [done|]. split; [|done]. constructor; [|done]. exists c. split; [done|]. split; [by constructor|].
    unfold len. cbn. assert (0 < datagram_batch c) by (by destruct c). lia.
Qed.

(** C32. The writer of the UDP mode sends exactly what the return path delivers:
    from any reachable contents of the three queues and the reordering buffer its
    rounds end, after no more of them than there are packets; the batches put
    together are the packets in the order they would come one by one, each batch
    is of one class and no longer than that class allows, a packet that does not
    belong to the batch being the first of the next; and when the rounds end the
    queues are empty and nothing waits to be written. *)
Theorem udp_batches_are_the_stream clock d r s :
  path_ok d r s -> let n := S (Z.to_nat (return_weight d r s)) in
  exists l r1 s1 batches r2 s2,
    return_stream n clock d r s = Ok (l, r1, s1) /\ write_udp_rounds n clock d r s = Ok (batches, r2, s2) /\
    mjoin batches = l /\ Forall batch_ok batches /\ rr_ready r2 = [] /\ queued_return d s2 = 0%nat.
Proof.
  intros Hp. cbn zeta. destruct (return_stream_total clock d (S (Z.to_nat (return_weight d r s))) r s Hp ltac:(lia)) as (l & r1 & s1 & E1 & Hl & _).
  destruct (write_udp_rounds_spec clock d (S (Z.to_nat (return_weight d r s))) r s l Hp Hl ltac:(lia)) as (batches & r2 & s2 & E2 & Hj & Hok & _ & Hd).
  by exists l, r1, s1, batches, r2, s2.
Qed.
End ReturnPath.

(** ** Concrete instances *)

Lemma channel_ok `{AQ : ArrayQueue} `{NT : Notify} {AL : ArrayQueueLaws AQ} capacity active : queue_ok (packet_channel capacity active).
Proof. destruct (channel_spec (T := ClientBuf) capacity active) as (Hp & Hs & Hc & _). split; [done|]. unfold bounded. rewrite Hc, Hp. unfold len. cbn. lia. Qed.
Definition demo_buffer (data : bytes) : ClientBuf :=
  mkClientBuf (zeroed PACKET_HEADROOM ++ data ++ zeroed (CLIENT_PACKET_CAPACITY - PACKET_HEADROOM - len data)) PACKET_HEADROOM (PACKET_HEADROOM + len data).
Definition demo_worker (id : Z) : WorkerChannels := mkWorker id 1 (b_ "relay") (3 * id) (3 * id + 1) (3 * id + 2).
Definition demo_dispatcher : Dispatcher := mkDispatcher [demo_worker 0; demo_worker 1] 100 101 102.
Definition demo_store : gmap Z (PacketQueue ClientBuf) := list_to_map ((fun q => (q, packet_channel 4 true)) <$> [0; 1; 2; 3; 4; 5; 100; 101; 102]).
Definition demo_buffers : list (ClientBuf * PacketClass) := (fun i => (demo_buffer [i], Small)) <$> [1; 2; 3; 4; 5].

Lemma dispatch_stripes_chunks_witness :
  dp_workers demo_dispatcher <> [] /\ distinct_queues (dp_workers demo_dispatcher) /\ queues_ok (dp_workers demo_dispatcher) demo_store /\
  Forall (fun pc => class_of pc.1 = Ok pc.2) demo_buffers /\
  exists s' sch, dispatch_run demo_dispatcher demo_store FastPathScheduler_new demo_buffers.*1 = Ok (s', sch) /\
    (forall (i : nat) w c q, dp_workers demo_dispatcher !! i = Some w -> demo_store !! class_queue w c = Some q ->
       exists q', s' !! class_queue w c = Some q' /\ received q q' (share (len (dp_workers demo_dispatcher)) (Z.of_nat i) c 0 demo_buffers)) /\
    (forall k, (forall w c, w ∈ dp_workers demo_dispatcher -> class_queue w c <> k) -> s' !! k = demo_store !! k).
Proof.
  assert (H1 : dp_workers demo_dispatcher <> []) by done.
  assert (H2 : distinct_queues (dp_workers demo_dispatcher)).
  { intros [|[|i]] [|[|j]] v w c c' Hv Hw; cbn in Hv, Hw; simplify_eq; destruct c, c'; done. }
  assert (H3 : queues_ok (dp_workers demo_dispatcher) demo_store).
  { intros w c Hw. assert (Hq : exists n, class_queue w c = n /\ n ∈ [0; 1; 2; 3; 4; 5]).
    { unfold demo_dispatcher in Hw. cbn [dp_workers] in Hw. rewrite !elem_of_cons, elem_of_nil in Hw. eexists. split; [done|]. destruct Hw as [->|[->|[]]]; destruct c; apply (bool_decide_unpack _); exact I. }
    destruct Hq as (n & -> & Hn). exists (packet_channel 4 true). split; [|apply channel_ok].
    rewrite !elem_of_cons, elem_of_nil in Hn. destruct Hn as [->|[->|[->|[->|[->|[->|[]]]]]]]; reflexivity. }
  assert (H4 : Forall (fun pc => class_of pc.1 = Ok pc.2) demo_buffers) by (repeat constructor).
  split; [exact H1|]. split; [exact H2|]. split; [exact H3|]. split; [exact H4|]. exact (dispatch_stripes_chunks demo_dispatcher demo_store demo_buffers H1 H2 H3 H4).
Defined.
Definition demo_stream : list ClientBuf := [demo_buffer (sample_ipv4_tcp [1] 0x18 1000); demo_buffer [7; 8]; demo_buffer (sample_ipv4_tcp [2] 0x18 1000)].
Lemma framing_roundtrip_witness :
  is_u64 5 /\ Forall framable demo_stream /\ length [0; 900; 3] = length demo_stream /\
  exists framed fs r, frame_run (FlowSequencer_with_sender_id 5) demo_stream = Ok (framed, fs) /\ length framed = length demo_stream /\
    reorder_run ReturnReorder_new (zip framed [0; 900; 3]) = Ok r /\ window <$> rr_ready r = window <$> demo_stream.
Proof.
  assert (H1 : is_u64 5) by (by apply (bool_decide_unpack _)).
  assert (H2 : Forall framable demo_stream).
  { assert (Hwf : Forall (fun p => client_buf_wf p /\ FRAME_LEN <= cb_start p) demo_stream)
      by (repeat constructor; try (vm_compute; reflexivity); try (apply Z.leb_le; vm_compute; reflexivity)).
    assert (Hk : Forall (fun p => (exists i, tcp_flow_id (window p) = Ok i) \/ FrameHeader_decode (window p) = none) demo_stream).
    { constructor; [left; eexists; vm_compute; reflexivity|]. constructor; [right; vm_compute; reflexivity|]. constructor; [left; eexists; vm_compute; reflexivity|constructor]. }
    rewrite Forall_forall in Hwf, Hk. apply Forall_forall. intros p Hp. destruct (Hwf p Hp). split; [done|]. split; [done|by apply Hk]. }
  assert (H3 : length [0; 900; 3] = length demo_stream) by done.
  split; [exact H1|]. split; [exact H2|]. split; [exact H3|]. exact (framing_roundtrip 5 demo_stream [0; 900; 3] H1 H2 H3).
Defined.
Definition demo_return : gmap Z (PacketQueue ClientBuf) :=
  (send_to (send_to (send_to demo_store 100 (demo_buffer [1]) true).2 100 (demo_buffer [2]) true).2 102 (demo_buffer [3]) true).2.
Lemma udp_batches_are_the_stream_witness :
  path_ok demo_dispatcher ReturnReorder_new demo_return /\
  exists l r1 s1 batches r2 s2,
    return_stream (S (Z.to_nat (return_weight demo_dispatcher ReturnReorder_new demo_return))) (fun _ => 0) demo_dispatcher ReturnReorder_new demo_return = Ok (l, r1, s1) /\
    write_udp_rounds (S (Z.to_nat (return_weight demo_dispatcher ReturnReorder_new demo_return))) (fun _ => 0) demo_dispatcher ReturnReorder_new demo_return = Ok (batches, r2, s2) /\
    mjoin batches = l /\ Forall batch_ok batches /\ rr_ready r2 = [] /\ queued_return demo_dispatcher s2 = 0%nat.
Proof.
  assert (Hb : forall i, is_u8 i -> buf_ok (demo_buffer [i])).
  { intros i Hi. assert (Hw : window (demo_buffer [i]) = [i]) by reflexivity. split; [|rewrite Hw; by constructor].
    split; [reflexivity|]. split; [split|]; apply Z.leb_le; reflexivity. }
  assert (H : path_ok demo_dispatcher ReturnReorder_new demo_return).
  { split; [split; [apply wf_new|apply frames_hold_new|constructor]|]. split; [apply (bool_decide_unpack _); exact I|].
    constructor; [|constructor; [|constructor; [|constructor]]].
    - eexists. split; [vm_compute; reflexivity|]. split; [by repeat constructor|]. constructor; [apply (Hb 1)|constructor; [apply (Hb 2)|constructor]]; done.
    - eexists. split; [vm_compute; reflexivity|]. by split; constructor.
    - eexists. split; [vm_compute; reflexivity|]. split; [by repeat constructor|]. constructor; [apply (Hb 3)|constructor]; done. }
  split; [exact H|]. exact (udp_batches_are_the_stream (fun _ => 0) demo_dispatcher ReturnReorder_new demo_return H).
Defined.
