(* ===== verification/Dataplane.v ===== *)
(** * The sharded dataplane

    [rust-server/dataplane.rs]: one thread does the input and output and routes
    packets to the shards, each a thread of its own with a
    [DataplaneLogic] (the protocol engine); the channels between them are all
    they share.  The logic is an interface, as in the code.

    A pass of the router and a turn of a shard are functions; a run of the whole
    is a sequence of their steps in any order, where the router takes the outputs
    of the shards one at a time.  A buffer the router is done with returns to the
    pool of the shard that filled it by a step of its own. *)

From S2P Require Import Prelude Classify Packet Routes Sink.

Definition MAX_CONSECUTIVE_UDP_PASSES : Z := 4.
Definition SHARD_INPUT_CAPACITY : Z := 1024.
Definition SHARD_OUTPUT_CAPACITY : Z := 1024.
Definition SHARD_OUTPUT_DRAIN_LIMIT : nat := 256.
Definition MAX_DATAPLANE_SHARDS : Z := 32.
Definition MAX_RX_PER_PASS : nat := 128.
Definition TUN_RX_DRAIN_BATCH : nat := 128.
Definition SHUTDOWN_FLUSH_SYSCALLS : Z := 16.
Definition URGENCY_FLUSH_SYSCALLS : Z := 1.

(** [configured_shard_count]; [value] is the number the variable holds, if any. *)
Definition configured_shard_count (value : option Z) : Z :=
  let configured := match value with Some n => if n =? 0 then 1 else n | None => 1 end in
  Z.max 1 (Z.min configured MAX_DATAPLANE_SHARDS).
Definition shards_started (configured : Z) : Z := Z.max 2 (Z.min configured MAX_DATAPLANE_SHARDS).

Inductive WorkerInput (C K : Type) :=
| InUdp (peer : SockAddr) (local_ip : option IpAddr) (packet : ServerBuf)
| InTun (packet : ServerBuf)
| InIoCounters (counters : K)
| InCommand (command : C)
| InShutdown.
Arguments InUdp {C K}. Arguments InTun {C K}. Arguments InIoCounters {C K}. Arguments InCommand {C K}. Arguments InShutdown {C K}.

(** [DataplaneLogic]; [S] is the sink, and [Env] what a call reads of the clocks
    and of the state the threads share. *)
Class DataplaneLogic (L S C K Env : Type) := {
  logic_begin_batch : L -> Env -> L;
  logic_on_udp : L -> S -> Env -> SockAddr -> option IpAddr -> bytes -> opt (L * S);
  logic_on_tun : L -> S -> Env -> bytes -> opt (L * S);
  logic_on_tun_batch_end : L -> S -> Env -> opt (L * S);
  logic_on_command : L -> S -> Env -> C -> opt (L * S);
  logic_on_tick : L -> S -> Env -> opt (L * S);
  logic_on_io_counters : L -> K -> L;
  logic_fanout_command : C -> Z -> list C;
}.

Section Dataplane.
Context {L C K Env : Type} `{DL : !DataplaneLogic L (RemotePacketSink C) C K Env}.

(** ** A shard *)

Record Worker := mkShard { wk_logic : L; wk_sink : RemotePacketSink C; wk_running : bool }.
Definition worker_result (r : opt (L * RemotePacketSink C)) : opt Worker := '(l, s) ← r; Ok (mkShard l s true).
(** An event of [run_dataplane_worker]. *)
Definition worker_input (w : Worker) (env : Env) (input : WorkerInput C K) : opt Worker :=
  match input with
  | InUdp peer local_ip packet =>
      data ← ServerBuf_as_slice packet;
      worker_result (logic_on_udp (logic_begin_batch (wk_logic w) env) (wk_sink w) env peer local_ip data)
  | InTun packet =>
      data ← ServerBuf_as_slice packet;
      '(l, s) ← logic_on_tun (logic_begin_batch (wk_logic w) env) (wk_sink w) env data;
      worker_result (logic_on_tun_batch_end l s env)
  | InIoCounters counters => Ok (mkShard (logic_on_io_counters (wk_logic w) counters) (wk_sink w) true)
  | InCommand command => worker_result (logic_on_command (logic_begin_batch (wk_logic w) env) (wk_sink w) env command)
  | InShutdown => Ok (mkShard (wk_logic w) (wk_sink w) false)
  end.
Definition worker_tick (w : Worker) (env : Env) : opt Worker :=
  worker_result (logic_on_tick (logic_begin_batch (wk_logic w) env) (wk_sink w) env).

(** ** The router *)

Record Router := mkRouter {
  ro_tx : TokioTx; ro_endpoints : gmap EndpointRoute Z; ro_tunnels : gmap Z Z; ro_pending : list (RouterCommand C);
  ro_inputs : list (Channel (WorkerInput C K)); ro_udp_passes : Z; ro_running : bool;
}.
Definition with_tx (r : Router) (tx : TokioTx) : Router := mkRouter tx (ro_endpoints r) (ro_tunnels r) (ro_pending r) (ro_inputs r) (ro_udp_passes r) (ro_running r).
Definition with_endpoints (r : Router) (m : gmap EndpointRoute Z) : Router := mkRouter (ro_tx r) m (ro_tunnels r) (ro_pending r) (ro_inputs r) (ro_udp_passes r) (ro_running r).
Definition with_tunnels (r : Router) (m : gmap Z Z) : Router := mkRouter (ro_tx r) (ro_endpoints r) m (ro_pending r) (ro_inputs r) (ro_udp_passes r) (ro_running r).
Definition with_pending (r : Router) (l : list (RouterCommand C)) : Router := mkRouter (ro_tx r) (ro_endpoints r) (ro_tunnels r) l (ro_inputs r) (ro_udp_passes r) (ro_running r).
Definition with_inputs (r : Router) (l : list (Channel (WorkerInput C K))) : Router := mkRouter (ro_tx r) (ro_endpoints r) (ro_tunnels r) (ro_pending r) l (ro_udp_passes r) (ro_running r).
Definition with_passes (r : Router) (n : Z) : Router := mkRouter (ro_tx r) (ro_endpoints r) (ro_tunnels r) (ro_pending r) (ro_inputs r) n (ro_running r).
Definition stopped (r : Router) : Router := mkRouter (ro_tx r) (ro_endpoints r) (ro_tunnels r) (ro_pending r) (ro_inputs r) (ro_udp_passes r) false.

(** [inputs.get(shard)] *)
Definition input_at (r : Router) (shard : Z) : option (Channel (WorkerInput C K)) := if shard <? 0 then None else ro_inputs r !! Z.to_nat shard.
Definition set_input (r : Router) (shard : Z) (ch : Channel (WorkerInput C K)) : Router := with_inputs r (<[Z.to_nat shard := ch]> (ro_inputs r)).
(** [let _ = input_txs[shard].try_send(input)]: what a full channel refuses is lost. *)
Definition feed (r : Router) (shard : Z) (input : WorkerInput C K) : opt Router :=
  match input_at r shard with
  | None => Panic
  | Some ch => Ok (set_input r shard (try_send ch input).2)
  end.
(** The same where the shard may not exist. *)
Definition offer (r : Router) (shard : Z) (input : WorkerInput C K) : Router :=
  match input_at r shard with None => r | Some ch => set_input r shard (try_send ch input).2 end.

Definition route_command (r : Router) (command : RouterCommand C) : Router :=
  match command with
  | BindEndpoint endpoint shard => with_endpoints r (<[endpoint := shard]> (ro_endpoints r))
  | BindTunnel ip shard => match route_index ip with Some k => with_tunnels r (<[k := shard]> (ro_tunnels r)) | None => r end
  | Migrate endpoint shard c =>
      match input_at r shard with
      | None => r
      | Some ch =>
          match try_send ch (InCommand c) with
          | (true, ch) => with_endpoints (set_input r shard ch) (<[endpoint := shard]> (ro_endpoints r))
          | (false, _) => with_pending r (ro_pending r ++ [command])
          end
      end
  end.
Fixpoint drain_commands (remaining : nat) (r : Router) : Router :=
  match remaining with
  | O => r
  | S remaining =>
      match ro_pending r with
      | [] => r
      | command :: pending => drain_commands remaining (route_command (with_pending r pending) command)
      end
  end.
Definition drain_router_commands (r : Router) : Router := drain_commands (length (ro_pending r)) r.

(** One value from a shard; [answers] are those of the kernel to a flush. *)
Definition route_output (r : Router) (value : WorkerOutput C) (answers : list UdpAnswer) : opt Router :=
  match value with
  | OutUdp peer source_ip class buffer => '(_, tx) ← send_prebuilt_udp (ro_tx r) peer source_ip buffer class; Ok (with_tx r tx)
  | OutTun class buffer => '(_, tx) ← write_prebuilt_tun (ro_tx r) buffer class; Ok (with_tx r tx)
  | OutFlushUdp => '(tx, _) ← flush_udp_tx (ro_tx r) answers 1; Ok (with_tx r tx)
  | OutRouter command => Ok (with_pending r (ro_pending r ++ [command]))
  end.
Definition set_output (w : Worker) (ch : Channel (WorkerOutput C)) : Worker := mkShard (wk_logic w) (mkRemote ch (rs_pool (wk_sink w))) (wk_running w).
(** The values of one shard's channel, up to a limit. *)
Fixpoint drain_output (limit : nat) (r : Router) (w : Worker) (answers : nat -> list UdpAnswer) : opt (Router * Worker) :=
  match limit with
  | O => Ok (r, w)
  | S limit =>
      match try_recv (rs_output (wk_sink w)) with
      | None => Ok (r, w)
      | Some (value, ch) => r ← route_output r value (answers limit); drain_output limit r (set_output w ch) answers
      end
  end.
Fixpoint drain_outputs (r : Router) (ws : list Worker) (answers : nat -> nat -> list UdpAnswer) : opt (Router * list Worker) :=
  match ws with
  | [] => Ok (r, [])
  | w :: ws =>
      '(r, w) ← drain_output SHARD_OUTPUT_DRAIN_LIMIT r w (answers (length ws));
      '(r, ws) ← drain_outputs r ws answers;
      Ok (r, w :: ws)
  end.
Definition drain_worker_outputs (r : Router) (ws : list Worker) (answers : nat -> nat -> list UdpAnswer) : opt (Router * list Worker) :=
  '(r, ws) ← drain_outputs r ws answers; Ok (drain_router_commands r, ws).

(** A datagram, or a packet of the device. *)
Definition route_udp (r : Router) (peer : SockAddr) (local_ip : option IpAddr) (packet : bytes) : opt Router :=
  '(copied, forwarded) ← ServerBuf_copy_from PacketBuffer_new packet;
  if negb copied then Ok r else
  feed r (default 0 (ro_endpoints r !! (peer, local_ip))) (InUdp peer local_ip forwarded).
(** The shard of a tunnel address; [0] for one nobody has. *)
Definition tunnel_shard (r : Router) (key : option Z) : Z := default 0 (match key with Some k => ro_tunnels r !! k | None => None end).
Definition route_tun (r : Router) (packet : bytes) : opt Router :=
  '(copied, forwarded) ← ServerBuf_copy_from PacketBuffer_new packet;
  if negb copied then Ok r else
  key ← packet_key packet;
  feed r (tunnel_shard r key) (InTun forwarded).
Fixpoint route_all {A : Type} (route : Router -> A -> opt Router) (r : Router) (l : list A) : opt Router :=
  match l with [] => Ok r | a :: l => r ← route r a; route_all route r l end.
Definition udp_pass (r : Router) (datagrams : list (SockAddr * option IpAddr * bytes)) : opt Router :=
  if MAX_CONSECUTIVE_UDP_PASSES <=? ro_udp_passes r then Ok r else
  route_all (fun r d => route_udp r d.1.1 d.1.2 d.2) (with_passes r (Z.min (ro_udp_passes r + 1) U32_MAX)) (take MAX_RX_PER_PASS datagrams).
Definition tun_pass (r : Router) (packets : list bytes) : opt Router := route_all route_tun (with_passes r 0) (take TUN_RX_DRAIN_BATCH packets).
Fixpoint offer_all (r : Router) (index : Z) (commands : list C) : Router :=
  match commands with
  | [] => r
  | c :: commands => offer_all (offer r (index mod len (ro_inputs r)) (InCommand c)) (index + 1) commands
  end.
Definition command_pass (r : Router) (command : C) : Router :=
  offer_all (with_passes r 0) 0 (logic_fanout_command command (len (ro_inputs r))).
Definition tick_pass (r : Router) (counters : K) : Router := offer (with_passes r 0) 0 (InIoCounters counters).
Definition shutdown_shards (r : Router) : Router := foldl (fun r i => offer r (Z.of_nat i) InShutdown) r (seq 0 (length (ro_inputs r))).
(** What follows the loop. *)
Definition router_exit (r : Router) (answers : list UdpAnswer) : opt Router :=
  let r := stopped (shutdown_shards r) in
  '(tx, _) ← flush_udp_tx (ro_tx r) answers SHUTDOWN_FLUSH_SYSCALLS;
  tx ← flush_tun_tx tx;
  Ok (with_tx r tx).
(** What follows a pass: the slots go to the kernel; an error of the device ends the loop. *)
Definition take_tun_fatal (tx : TokioTx) : bool * TokioTx :=
  (tun_fatal tx, mkTx (tx_udp tx) (tx_tun tx) (tx_pool tx) (tx_counters tx) (tx_mode tx) false (urgent_udp_flush tx) (tun_answers tx) (tun_log tx)).
Definition flush_pass (r : Router) (answers exit_answers : list UdpAnswer) : opt Router :=
  let '(fatal, tx) := take_tun_fatal (ro_tx r) in
  if (fatal : bool) then router_exit (with_tx r tx) exit_answers else
  '(tx, _) ← flush_udp_tx tx answers USIZE_MAX;
  tx ← flush_tun_tx tx;
  let '(fatal, tx) := take_tun_fatal tx in
  if (fatal : bool) then router_exit (with_tx r tx) exit_answers else Ok (with_tx r tx).

(** ** The whole *)

Record Plane := mkPlane { pl_router : Router; pl_workers : list Worker }.
Definition plane_start (logics : list L) (tx : TokioTx) (pool : ServerPool) : Plane :=
  mkPlane (mkRouter tx ∅ ∅ [] (replicate (length logics) (mkChannel [] SHARD_INPUT_CAPACITY true)) 0 true)
    ((fun l => mkShard l (mkRemote (mkChannel [] SHARD_OUTPUT_CAPACITY true) pool) true) <$> logics).
Inductive PlaneEvent :=
| PlTake (i : nat) (answers : list UdpAnswer)        (** the router takes an output of shard [i] *)
| PlDrain
| PlUdp (datagrams : list (SockAddr * option IpAddr * bytes))
| PlTun (packets : list bytes)
| PlCommand (command : C)
| PlTick (counters : K)
| PlFlush (answers exit_answers : list UdpAnswer)
| PlExit (answers : list UdpAnswer)                  (** the server stops, or the device fails to read *)
| PlWork (i : nat) (env : Env)                       (** shard [i] takes an input *)
| PlWorkTick (i : nat) (env : Env)
| PlRecycle (i : nat) (storage : bytes).             (** a buffer of shard [i] is dropped *)
Definition on_router (p : Plane) (r : opt Router) : opt Plane :=
  if ro_running (pl_router p) then r ← r; Ok (mkPlane r (pl_workers p)) else Ok p.
(** A shard that has stopped, or finds nothing, does nothing. *)
Definition on_worker (p : Plane) (i : nat) (f : Worker -> opt (Worker * Router)) : opt Plane :=
  match pl_workers p !! i with
  | Some w => if wk_running w then '(w, r) ← f w; Ok (mkPlane r (<[i := w]> (pl_workers p))) else Ok p
  | None => Ok p
  end.
(** A shard that stops closes its channel. *)
Definition work (p : Plane) (i : nat) (env : Env) (w : Worker) : opt (Worker * Router) :=
  match ro_inputs (pl_router p) !! i with
  | None => Ok (w, pl_router p)
  | Some ch =>
      match try_recv ch with
      | None => Ok (w, pl_router p)
      | Some (input, ch) =>
          w ← worker_input w env input;
          let ch := mkChannel (ch_items ch) (ch_capacity ch) (ch_open ch && wk_running w) in
          Ok (w, with_inputs (pl_router p) (<[i := ch]> (ro_inputs (pl_router p))))
      end
  end.
Definition take_output (p : Plane) (i : nat) (answers : list UdpAnswer) : opt Plane :=
  match pl_workers p !! i with
  | None => Ok p
  | Some w =>
      if negb (ro_running (pl_router p)) then Ok p else
      match try_recv (rs_output (wk_sink w)) with
      | None => Ok p
      | Some (value, ch) => r ← route_output (pl_router p) value answers; Ok (mkPlane r (<[i := set_output w ch]> (pl_workers p)))
      end
  end.
Definition recycle (p : Plane) (i : nat) (storage : bytes) : Plane :=
  mkPlane (pl_router p) (alter (fun w => mkShard (wk_logic w) (mkRemote (rs_output (wk_sink w)) (ServerPool_release (rs_pool (wk_sink w)) storage))
    (wk_running w)) i (pl_workers p)).
Definition plane_step (p : Plane) (ev : PlaneEvent) : opt Plane :=
  let r := pl_router p in
  match ev with
  | PlTake i answers => take_output p i answers
  | PlDrain => on_router p (Ok (drain_router_commands r))
  | PlUdp datagrams => on_router p (udp_pass r datagrams)
  | PlTun packets => on_router p (tun_pass r packets)
  | PlCommand command => on_router p (Ok (command_pass r command))
  | PlTick counters => on_router p (Ok (tick_pass r counters))
  | PlFlush answers exit_answers => on_router p (flush_pass r answers exit_answers)
  | PlExit answers => on_router p (router_exit r answers)
  | PlWork i env => on_worker p i (work p i env)
  | PlWorkTick i env => on_worker p i (fun w => w ← worker_tick w env; Ok (w, r))
  | PlRecycle i storage => Ok (recycle p i storage)
  end.
Fixpoint plane_run (p : Plane) (evs : list PlaneEvent) : opt Plane :=
  match evs with [] => Ok p | ev :: evs => p ← plane_step p ev; plane_run p evs end.

(** ** Routing commands *)

Definition shard_of (command : RouterCommand C) : Z := match command with Migrate _ s _ | BindEndpoint _ s | BindTunnel _ s => s end.
(** The shard exists. *)
Definition known_shard (r : Router) (command : RouterCommand C) : Prop := 0 <= shard_of command < len (ro_inputs r).
(** The commands on their way to a shard: still waiting, or in its channel. *)
Definition waiting (l : list (RouterCommand C)) : list (Z * C) := omap (fun m => match m with Migrate _ s c => Some (s, c) | _ => None end) l.
Definition commands_in (ch : Channel (WorkerInput C K)) : list C := omap (fun i => match i with InCommand c => Some c | _ => None end) (ch_items ch).
Definition in_channels (inputs : list (Channel (WorkerInput C K))) : list (Z * C) := mjoin (imap (fun i ch => pair (Z.of_nat i) <$> commands_in ch) inputs).
Definition on_the_way (r : Router) : list (Z * C) := waiting (ro_pending r) ++ in_channels (ro_inputs r).
Definition has_room (r : Router) (shard : Z) : bool := match input_at r shard with Some ch => (try_send ch InShutdown).1 | None => false end.

Lemma input_at_lookup r shard ch : input_at r shard = Some ch <-> 0 <= shard /\ ro_inputs r !! Z.to_nat shard = Some ch.
Proof. unfold input_at. destruct (shard <? 0) eqn:E; bool_prop; [split; [done|lia]|]. split; [intros; split; [lia|done]|tauto]. Qed.
Lemma known_shard_input r command : known_shard r command -> exists ch, input_at r (shard_of command) = Some ch.
Proof.
  intros [H0 Hl]. destruct (lookup_lt_is_Some_2 (ro_inputs r) (Z.to_nat (shard_of command))) as [ch Hch]; [unfold len in Hl; lia|].
  exists ch. by apply input_at_lookup.
Qed.
Lemma in_channels_app l l' : in_channels (l ++ l') = in_channels l ++ mjoin (imap (fun i ch => pair (Z.of_nat (length l + i)) <$> commands_in ch) l').
Proof. unfold in_channels. by rewrite imap_app, join_app. Qed.
(** One channel in the middle grows. *)
Lemma in_channels_insert inputs i ch ch' cs : inputs !! i = Some ch -> commands_in ch' = commands_in ch ++ cs ->
  in_channels (<[i := ch']> inputs) ≡ₚ in_channels inputs ++ (pair (Z.of_nat i) <$> cs).
Proof.
  intros Hi Hc. pose proof (lookup_lt_Some _ _ _ Hi) as Hlt. rewrite insert_take_drop by done. rewrite <- (take_drop_middle inputs i ch Hi) at 3.
  rewrite !in_channels_app. cbn. rewrite length_take_le, Nat.add_0_r by lia. rewrite Hc, fmap_app, <- !app_assoc. apply Permutation_app_head. apply Permutation_app_head.
  rewrite Permutation_app_comm. done.
Qed.

(** Channels that only took commands at their ends. *)
Definition extended (ch ch' : Channel (WorkerInput C K)) (cs : list C) : Prop :=
  ch_items ch' = ch_items ch ++ (InCommand <$> cs) /\ ch_capacity ch' = ch_capacity ch /\ ch_open ch' = ch_open ch.
Definition grows (r r' : Router) : Prop :=
  length (ro_inputs r') = length (ro_inputs r) /\
  forall s ch, input_at r s = Some ch -> exists ch' cs, input_at r' s = Some ch' /\ extended ch ch' cs.
(** The command was put in the channel of shard [s] between the two. *)
Definition put (r r' : Router) (s : Z) (c : C) : Prop :=
  exists ch ch' cs, input_at r s = Some ch /\ input_at r' s = Some ch' /\ extended ch ch' cs /\ c ∈ cs.
Lemma grows_refl r r' : ro_inputs r' = ro_inputs r -> grows r r'.
Proof. intros E. split; [by rewrite E|]. intros s ch H. exists ch, []. unfold input_at in *. rewrite E. split; [done|]. split; [by rewrite app_nil_r|done]. Qed.
Lemma extended_trans a b c cs cs' : extended a b cs -> extended b c cs' -> extended a c (cs ++ cs').
Proof. intros (E1 & C1 & O1) (E2 & C2 & O2). split; [|split; congruence]. by rewrite E2, E1, fmap_app, app_assoc. Qed.
Lemma grows_trans a b c : grows a b -> grows b c -> grows a c.
Proof.
  intros [L1 G1] [L2 G2]. split; [congruence|]. intros s ch H. destruct (G1 s ch H) as (ch1 & cs1 & H1 & E1). destruct (G2 s ch1 H1) as (ch2 & cs2 & H2 & E2).
  exists ch2, (cs1 ++ cs2). split; [done|by eapply extended_trans].
Qed.
Lemma put_later a b c s x : put a b s x -> grows b c -> put a c s x.
Proof.
  intros (ch & ch' & cs & H1 & H2 & E & Hx) [_ G]. destruct (G s ch' H2) as (ch2 & cs2 & H3 & E2). exists ch, ch2, (cs ++ cs2).
  split; [done|]. split; [done|]. split; [by eapply extended_trans|]. apply elem_of_app. by left.
Qed.
Lemma put_earlier a b c s x : grows a b -> put b c s x -> put a c s x.
Proof.
  intros [HL G] (ch & ch' & cs & H1 & H2 & E & Hx). assert (Ha : exists ch0, input_at a s = Some ch0).
  { apply input_at_lookup in H1 as [H0 H1]. destruct (lookup_lt_is_Some_2 (ro_inputs a) (Z.to_nat s)) as [ch0 ?]; [apply lookup_lt_Some in H1; lia|]. exists ch0. by apply input_at_lookup. }
  destruct Ha as [ch0 H]. destruct (G s ch0 H) as (ch1 & cs1 & H1' & E1). assert (ch1 = ch) as -> by congruence.
  exists ch0, ch', (cs1 ++ cs). split; [done|]. split; [done|]. split; [by eapply extended_trans|]. apply elem_of_app. by right.
Qed.
Lemma no_room_grows r r' s : grows r r' -> has_room r s = false -> has_room r' s = false.
Proof.
  intros [HL G] H. unfold has_room in *. destruct (input_at r s) as [ch|] eqn:E.
  - destruct (G s ch E) as (ch' & cs & -> & E1 & E2 & E3). unfold try_send in *. rewrite E2, E3, E1. destruct (ch_open ch); cbn in *; [|done].
    destruct (len (ch_items ch) <? ch_capacity ch) eqn:E4; bool_prop; cbn in *; [done|].
    replace (_ <? _) with false; [done|]. symmetry. apply Z.ltb_ge. unfold len in *. rewrite length_app. lia.
  - destruct (input_at r' s) as [ch'|] eqn:E'; [|done]. apply input_at_lookup in E' as [H0 E']. exfalso.
    destruct (lookup_lt_is_Some_2 (ro_inputs r) (Z.to_nat s)) as [ch0 ?]; [apply lookup_lt_Some in E'; lia|].
    assert (input_at r s = Some ch0) by (by apply input_at_lookup). congruence.
Qed.
(** The binding is old, or comes from one of the commands, a migration only once
    its command is in the channel of the shard. *)
Definition bound_by (r r' : Router) (l : list (RouterCommand C)) : Prop := forall e s, ro_endpoints r' !! e = Some s ->
  ro_endpoints r !! e = Some s \/ BindEndpoint e s ∈ l \/ exists c, Migrate e s c ∈ l /\ put r r' s c.
Definition is_migration (m : RouterCommand C) : bool := match m with Migrate _ _ _ => true | _ => false end.

Lemma route_command_spec r m : known_shard r m ->
  let r' := route_command r m in
  grows r r' /\ on_the_way r' ≡ₚ waiting [m] ++ on_the_way r /\ bound_by r r' [m] /\
  exists left, ro_pending r' = ro_pending r ++ left /\ left `sublist_of` [m] /\ Forall (fun x => is_migration x = true /\ has_room r' (shard_of x) = false) left.
Proof.
  intros Hr. destruct (known_shard_input r m Hr) as [ch Hch]. destruct m as [e s c|e s|ip s]; cbn [route_command shard_of] in *.
  - rewrite Hch. unfold try_send. destruct (_ && _) eqn:Eroom.
    + set (ch' := mkChannel _ _ _). cbn zeta. pose proof (proj1 (input_at_lookup _ _ _) Hch) as [H0 Hl]. pose proof (lookup_lt_Some _ _ _ Hl) as Hlt.
      assert (Hext : extended ch ch' [c]) by done.
      assert (Hat : input_at (with_endpoints (set_input r s ch') (<[e := s]> (ro_endpoints r))) s = Some ch').
      { apply input_at_lookup. split; [done|]. by apply list_lookup_insert_eq. }
      split_and!.
      * split; [cbn; by rewrite length_insert|]. intros s' ch0 H'. destruct (decide (s' = s)) as [->|Hne]; [assert (ch0 = ch) as -> by congruence; by exists ch', [c]|].
        exists ch0, []. split; [|split; [by rewrite app_nil_r|done]]. apply input_at_lookup in H' as [? H']. apply input_at_lookup. split; [done|].
        cbn. by rewrite list_lookup_insert_ne by lia.
      * unfold on_the_way. cbn [ro_pending ro_inputs with_endpoints set_input with_inputs]. rewrite (in_channels_insert (ro_inputs r) _ ch ch' [c] Hl).
        -- rewrite Z2Nat.id by done. cbn. rewrite app_assoc. symmetry. apply Permutation_cons_append.
        -- unfold commands_in, ch'. cbn [ch_items]. by rewrite omap_app.
      * intros e' s'. cbn. rewrite lookup_insert_Some. intros [[-> ->]|[_ ?]]; [|by left]. right. right. exists c. split; [by left|].
        exists ch, ch', [c]. split; [done|]. split; [done|]. split; [done|by left].
      * exists []. cbn. rewrite app_nil_r. split; [done|]. split; [apply sublist_nil_l|constructor].
    + cbn zeta. split_and!.
      * by apply grows_refl.
      * unfold on_the_way. cbn. unfold waiting at 1. rewrite omap_app. cbn. rewrite <- app_assoc. apply Permutation_app_comm_cons || (symmetry; apply Permutation_middle).
      * intros e' s' H. by left.
      * exists [Migrate e s c]. split; [done|]. split; [done|]. constructor; [|constructor]. split; [done|]. unfold has_room. cbn. unfold input_at in *. cbn. rewrite Hch. unfold try_send. by rewrite Eroom.
  - cbn zeta. split_and!; [by apply grows_refl|done| |].
    + intros e' s'. cbn. rewrite lookup_insert_Some. intros [[-> ->]|[_ ?]]; [|by left]. right. left. by left.
    + exists []. cbn. rewrite app_nil_r. split; [done|]. split; [apply sublist_nil_l|constructor].
  - cbn zeta. destruct (route_index ip); split_and!; try (by apply grows_refl); try done.
    + intros e' s' H. by left.
    + exists []. cbn. rewrite app_nil_r. split; [done|]. split; [apply sublist_nil_l|constructor].
    + intros e' s' H. by left.
    + exists []. cbn. rewrite app_nil_r. split; [done|]. split; [apply sublist_nil_l|constructor].
Qed.

Lemma grows_len r r' : grows r r' -> len (ro_inputs r') = len (ro_inputs r).
Proof. intros [H _]. unfold len. by rewrite H. Qed.
Lemma drain_commands_spec cmds extra r : ro_pending r = cmds ++ extra -> Forall (known_shard r) cmds ->
  let r' := drain_commands (length cmds) r in
  grows r r' /\ on_the_way r' ≡ₚ on_the_way r /\ bound_by r r' cmds /\
  exists left, ro_pending r' = extra ++ left /\ left `sublist_of` cmds /\ Forall (fun x => is_migration x = true /\ has_room r' (shard_of x) = false) left.
Proof.
  revert extra r. induction cmds as [|m cmds IH]; intros extra r Hp Hr; cbn zeta; cbn [length drain_commands].
  { split; [by apply grows_refl|]. split; [done|]. split; [intros e s H; by left|]. exists []. rewrite app_nil_r. by repeat constructor. }
  rewrite Hp. cbn [app]. apply Forall_cons in Hr as [Hm Hr]. set (r1 := with_pending r (cmds ++ extra)).
  destruct (route_command_spec r1 m Hm) as (G1 & W1 & B1 & left1 & P1 & S1 & F1). set (r2 := route_command r1 m) in *.
  pose proof (grows_len _ _ G1) as Hlen.
  destruct (IH (extra ++ left1) r2) as (G2 & W2 & B2 & left2 & P2 & S2 & F2).
  { rewrite P1. cbn. by rewrite app_assoc. }
  { apply (Forall_impl _ _ _ Hr). intros x. unfold known_shard. by rewrite Hlen. }
  set (r3 := drain_commands (length cmds) r2) in *. assert (G0 : grows r r1) by (by apply grows_refl).
  split; [exact (grows_trans _ _ _ G0 (grows_trans _ _ _ G1 G2))|]. split; [|split].
  - rewrite W2, W1. unfold on_the_way. cbn [ro_pending ro_inputs r1 with_pending]. rewrite Hp. change (waiting ((m :: cmds) ++ extra)) with (waiting ([m] ++ cmds ++ extra)).
    unfold waiting at 3. rewrite omap_app. fold (waiting [m]). fold (waiting (cmds ++ extra)). by rewrite app_assoc.
  - intros e s H. destruct (B2 e s H) as [H1|[H1|(c & H1 & H2)]].
    + destruct (B1 e s H1) as [?|[Hb|(c & Hc & Hput)]]; [by left|right; left; apply list_elem_of_singleton in Hb as <-; by left|].
      right. right. exists c. apply list_elem_of_singleton in Hc as <-. split; [by left|]. exact (put_earlier _ _ _ _ _ G0 (put_later _ _ _ _ _ Hput G2)).
    + right. left. by right.
    + right. right. exists c. split; [by right|]. exact (put_earlier _ _ _ _ _ (grows_trans _ _ _ G0 G1) H2).
  - exists (left1 ++ left2). split; [by rewrite P2, app_assoc|]. split; [by apply (sublist_app left1 [m] left2 cmds)|]. apply Forall_app. split; [|done].
    apply (Forall_impl _ _ _ F1). intros x [? ?]. split; [done|]. by eapply no_room_grows.
Qed.

(** C34. One drain of the router's commands, when every shard named exists: no
    command for a shard is lost or repeated, it is in the shard's channel or it
    waits still; what waits are migrations whose shard has no room, in the order
    they had; the channels only grow, at their ends; and an endpoint whose
    packets now go to another shard was bound to it, or migrated there and the
    session is ahead of those packets in the channel. *)
Theorem migration_precedes_its_packets r :
  Forall (known_shard r) (ro_pending r) ->
  let r' := drain_router_commands r in
  on_the_way r' ≡ₚ on_the_way r /\ grows r r' /\ bound_by r r' (ro_pending r) /\
  ro_pending r' `sublist_of` ro_pending r /\
  Forall (fun m => is_migration m = true /\ has_room r' (shard_of m) = false) (ro_pending r').
Proof.
  intros Hr. cbn zeta. destruct (drain_commands_spec (ro_pending r) [] r ltac:(by rewrite app_nil_r) Hr) as (G & W & B & left & P & S & F).
  unfold drain_router_commands. rewrite P. cbn. by split_and!.
Qed.
End Dataplane.
Arguments Router C K : clear implicits.
Arguments Worker L C : clear implicits.
Arguments Plane L C K : clear implicits.
Arguments PlaneEvent C K Env : clear implicits.

(** ** One shard

    [run_dataplane]: the logic writes straight to the slots of the socket and the
    device. *)
Section LocalLoop.
Context {L C K Env : Type} `{DL : !DataplaneLogic L (LocalSink C) C K Env}.

Definition COMMAND_DRAIN_LIMIT : nat := 4096.
Inductive LoopEnd := LoopStopped | LoopFailed.
Record LocalPlane := mkLocalPlane { lp_logic : L; lp_sink : LocalSink C; lp_udp_passes : Z; lp_end : option LoopEnd }.
(** A call of the logic: what it reads, the answers of the kernel to an urgent
    flush, and its argument. *)
Record LocalCall (A : Type) := mkCall { ca_env : Env; ca_answers : list UdpAnswer; ca_arg : A }.
Arguments mkCall {A}. Arguments ca_env {A}. Arguments ca_answers {A}. Arguments ca_arg {A}.
Inductive LocalArm :=
| ArmTick (tick : LocalCall unit) (counters : K)
| ArmCommands (commands : list (LocalCall C)) (shutdown : bool)
| ArmUdp (env : Env) (datagrams : list (LocalCall (SockAddr * option IpAddr * bytes)))
| ArmTun (env : Env) (packets : list (LocalCall bytes)) (batch_end : option (LocalCall unit))    (** without an end, reading failed *)
| ArmWritable.

(** [with_sink]: what the logic asks to be sent at once is sent after the call. *)
Definition set_urgent (s : LocalSink C) (v : bool) : LocalSink C :=
  let tx := lo_tx s in
  mkLocal (mkTx (tx_udp tx) (tx_tun tx) (tx_pool tx) (tx_counters tx) (tx_mode tx) (tun_fatal tx) v (tun_answers tx) (tun_log tx)) (lo_output s).
Definition with_sink (s : LocalSink C) (answers : list UdpAnswer) (process : LocalSink C -> opt (L * LocalSink C)) : opt (L * LocalSink C) :=
  '(l, s) ← process (set_urgent s false);
  if urgent_udp_flush (lo_tx s) then
    '(tx, _) ← flush_udp_tx (lo_tx s) answers URGENCY_FLUSH_SYSCALLS;
    Ok (l, mkLocal tx (lo_output s))
  else Ok (l, s).

Fixpoint call_each {A : Type} (f : L -> LocalSink C -> A -> opt (L * LocalSink C)) (l : L) (s : LocalSink C) (calls : list A) : opt (L * LocalSink C) :=
  match calls with [] => Ok (l, s) | c :: calls => '(l, s) ← f l s c; call_each f l s calls end.
Definition command_call (l : L) (s : LocalSink C) (c : LocalCall C) : opt (L * LocalSink C) :=
  with_sink s (ca_answers c) (fun s => logic_on_command (logic_begin_batch l (ca_env c)) s (ca_env c) (ca_arg c)).
(** A datagram longer than a buffer is cut off by the kernel and not used. *)
Definition udp_call (l : L) (s : LocalSink C) (d : LocalCall (SockAddr * option IpAddr * bytes)) : opt (L * LocalSink C) :=
  let '(peer, local_ip, packet) := ca_arg d in
  if PACKET_CAPACITY <? len packet then Ok (l, s) else
  with_sink s (ca_answers d) (fun s => logic_on_udp l s (ca_env d) peer local_ip packet).
Definition tun_call (l : L) (s : LocalSink C) (p : LocalCall bytes) : opt (L * LocalSink C) :=
  with_sink s (ca_answers p) (fun s => logic_on_tun l s (ca_env p) (ca_arg p)).

Definition local_arm (p : LocalPlane) (arm : LocalArm) : opt LocalPlane :=
  let l := lp_logic p in
  let s := lp_sink p in
  match arm with
  | ArmTick tick counters =>
      '(l, s) ← with_sink s (ca_answers tick) (fun s => logic_on_tick (logic_begin_batch l (ca_env tick)) s (ca_env tick));
      Ok (mkLocalPlane (logic_on_io_counters l counters) s 0 None)
  | ArmCommands commands shutdown =>
      '(l, s) ← call_each command_call l s (take (S COMMAND_DRAIN_LIMIT) commands);
      Ok (mkLocalPlane l s 0 (if (shutdown : bool) then Some LoopStopped else None))
  | ArmUdp env datagrams =>
      if MAX_CONSECUTIVE_UDP_PASSES <=? lp_udp_passes p then Ok p else
      '(l, s) ← call_each udp_call (logic_begin_batch l env) s (take MAX_RX_PER_PASS datagrams);
      Ok (mkLocalPlane l s (Z.min (lp_udp_passes p + 1) U32_MAX) None)
  | ArmTun env packets batch_end =>
      '(l, s) ← call_each tun_call (logic_begin_batch l env) s (take TUN_RX_DRAIN_BATCH packets);
      match batch_end with
      | None => Ok (mkLocalPlane l s 0 (Some LoopFailed))
      | Some c => '(l, s) ← with_sink s (ca_answers c) (fun s => logic_on_tun_batch_end l s (ca_env c)); Ok (mkLocalPlane l s 0 None)
      end
  | ArmWritable => Ok p
  end.
Definition with_local_tx (p : LocalPlane) (tx : TokioTx) (fin : option LoopEnd) : LocalPlane :=
  mkLocalPlane (lp_logic p) (mkLocal tx (lo_output (lp_sink p))) (lp_udp_passes p) fin.
(** One turn of the loop; [report] are the counters when a report is due. *)
Definition local_turn (p : LocalPlane) (arm : LocalArm) (answers : list UdpAnswer) (report : option K) : opt LocalPlane :=
  p ← local_arm p arm;
  match lp_end p with
  | Some LoopFailed => Ok p
  | Some LoopStopped =>
      '(tx, _) ← flush_udp_tx (lo_tx (lp_sink p)) answers SHUTDOWN_FLUSH_SYSCALLS;
      tx ← flush_tun_tx tx;
      Ok (with_local_tx p tx (Some LoopStopped))
  | None =>
      let '(fatal, tx) := take_tun_fatal (lo_tx (lp_sink p)) in
      if (fatal : bool) then Ok (with_local_tx p tx (Some LoopFailed)) else
      '(tx, _) ← flush_udp_tx tx answers USIZE_MAX;
      tx ← flush_tun_tx tx;
      let '(fatal, tx) := take_tun_fatal tx in
      if (fatal : bool) then Ok (with_local_tx p tx (Some LoopFailed)) else
      let p := with_local_tx p tx None in
      Ok (mkLocalPlane (match report with Some k => logic_on_io_counters (lp_logic p) k | None => lp_logic p end) (lp_sink p) (lp_udp_passes p) None)
  end.
End LocalLoop.
Arguments LocalPlane L C : clear implicits.
Arguments LocalArm C K Env : clear implicits.
Arguments LocalCall Env A : clear implicits.
Arguments mkCall {Env A}. Arguments ca_env {Env A}. Arguments ca_answers {Env A}. Arguments ca_arg {Env A}.

(** ** The supervisor

    The loop around the attempts, the same in [spawn] and [spawn_sharded].  An
    attempt ends by itself, or fails with an error or a panic; [at_shutdown] is
    the flag after it, [at_shutdown_later] the flag after the pause. *)
Definition RESTART_BACKOFF_INITIAL_MS : Z := 1000.
Definition RESTART_BACKOFF_MAX_MS : Z := 30000.
Definition HEALTHY_UPTIME_MS : Z := 60000.
Record Attempt := mkAttempt { at_failed : bool; at_uptime_ms : Z; at_shutdown : bool; at_shutdown_later : bool }.
Inductive RuntimeEnd := RuntimeOk | RuntimeErr.
(** The pauses between the attempts, and how the runtime ends; [None] while the
    last attempt runs. *)
Fixpoint supervise (first_attempt : bool) (backoff_ms : Z) (attempts : list Attempt) : list Z * option RuntimeEnd :=
  match attempts with
  | [] => ([], None)
  | a :: attempts =>
      if negb (at_failed a) then ([], Some RuntimeOk) else
      if at_shutdown a then ([], Some RuntimeOk) else
      if first_attempt then ([], Some RuntimeErr) else
      let backoff_ms := if HEALTHY_UPTIME_MS <=? at_uptime_ms a then RESTART_BACKOFF_INITIAL_MS else backoff_ms in
      if at_shutdown_later a then ([backoff_ms], Some RuntimeOk) else
      let '(pauses, fin) := supervise false (Z.min (Z.min (backoff_ms * 2) U64_MAX) RESTART_BACKOFF_MAX_MS) attempts in
      (backoff_ms :: pauses, fin)
  end.
Definition run_supervised (attempts : list Attempt) : list Z * option RuntimeEnd := supervise true RESTART_BACKOFF_INITIAL_MS attempts.

(** A runtime is never restarted: whenever the first attempt fails, at once
    or after days, its failure is the end of the runtime (a success if the
    server was stopping), without a pause and without a second attempt.  The
    pauses the loop computes, which would stay between one second and thirty,
    are those of attempts that cannot happen. *)
Theorem first_failure_is_final (a : Attempt) (attempts : list Attempt) :
  run_supervised (a :: attempts) = ([], Some (if at_failed a && negb (at_shutdown a) then RuntimeErr else RuntimeOk))
  /\ forall backoff_ms, RESTART_BACKOFF_INITIAL_MS <= backoff_ms <= RESTART_BACKOFF_MAX_MS ->
     Forall (fun pause => RESTART_BACKOFF_INITIAL_MS <= pause <= RESTART_BACKOFF_MAX_MS) (supervise false backoff_ms attempts).1.
Proof.
  split; [unfold run_supervised; cbn; by destruct (at_failed a), (at_shutdown a)|].
  unfold RESTART_BACKOFF_INITIAL_MS, RESTART_BACKOFF_MAX_MS. induction attempts as [|x attempts IH]; intros b Hb; cbn; [constructor|].
  destruct (at_failed x); [|constructor]. destruct (at_shutdown x); [constructor|]. cbn.
  set (b' := if _ <=? _ then _ else b). assert (Hb' : 1000 <= b' <= 30000) by (unfold b', RESTART_BACKOFF_INITIAL_MS; destruct (_ <=? _); lia).
  destruct (at_shutdown_later x); [apply Forall_singleton, Hb'|].
  specialize (IH (Z.min (Z.min (b' * 2) U64_MAX) 30000) ltac:(unfold U64_MAX; lia)).
  destruct (supervise false _ attempts) as [pauses fin]. cbn. by constructor.
Qed.
Lemma first_failure_is_final_witness :
  let late := mkAttempt true 86400000 false false in
  run_supervised [late; late] = ([], Some RuntimeErr) /\ (supervise false 8000 [mkAttempt true 5 false false; mkAttempt true 5 false false; late]).1 = [8000; 16000; 1000]
  /\ Forall (fun pause => RESTART_BACKOFF_INITIAL_MS <= pause <= RESTART_BACKOFF_MAX_MS) (supervise false 8000 [late]).1.
Proof.
  split; [|split; [reflexivity|]].
  - exact (proj1 (first_failure_is_final _ [mkAttempt true 86400000 false false])).
  - apply (proj2 (first_failure_is_final (mkAttempt true 86400000 false false) [mkAttempt true 86400000 false false])). unfold RESTART_BACKOFF_INITIAL_MS, RESTART_BACKOFF_MAX_MS. lia.
Defined.

(** Two shards, of which one is full. *)
Definition demo_router : Router Z unit :=
  mkRouter demo_tx ∅ ∅ [Migrate (demo_peer, None) 1 7; Migrate (demo_peer, Some (IpV4 [10; 0; 0; 1])) 0 8; BindTunnel [10; 66; 67; 9] 1]
    [mkChannel [InShutdown] 1 true; mkChannel [] 4 true] 0 true.
Lemma migration_precedes_its_packets_witness :
  ro_pending (drain_router_commands demo_router) = [Migrate (demo_peer, Some (IpV4 [10; 0; 0; 1])) 0 8]
  /\ ro_endpoints (drain_router_commands demo_router) = {[(demo_peer, None) := 1]}
  /\ on_the_way (drain_router_commands demo_router) ≡ₚ on_the_way demo_router.
Proof.
  split; [reflexivity|]. split; [vm_compute; reflexivity|].
  apply (migration_precedes_its_packets demo_router). unfold known_shard. apply (bool_decide_unpack _). vm_compute. exact I.
Defined.
