(* ===== verification/DataplaneProps.v ===== *)
(** * The sharded server: safety

    The threads of [Dataplane] against what a [DataplaneLogic] promises, and
    the protocol engine as the logic that keeps the promise. *)

From S2P Require Import Prelude Classify Packet Routes Text Getconf Obfs Slab Sink Engine EngineInv EngineProps Dataplane.

(** ** What the logic promises *)

(** After every call the logic is sound and so is the sink.  A call may need
    that the state still admits a datagram, or a certain command; [env_ok] is
    what the rest of the server may do between two calls. *)
Class LogicLaws {L S C K Env : Type} (DL : DataplaneLogic L S C K Env) (sink_ok : S -> Prop) := {
  logic_ok : L -> Prop;
  env_ok : L -> Env -> Prop;
  admits_udp : L -> Prop;
  accepts : L -> C -> Prop;
  begin_batch_law : forall l env, logic_ok l -> env_ok l env -> logic_ok (logic_begin_batch l env);
  on_udp_law : forall l s env peer ip data, logic_ok l -> sink_ok s -> admits_udp l -> wf_bytes data -> len data <= PACKET_CAPACITY ->
    yields (logic_on_udp l s env peer ip data) (fun '(l, s) => logic_ok l /\ sink_ok s);
  on_tun_law : forall l s env data, logic_ok l -> sink_ok s -> wf_bytes data -> len data <= PACKET_CAPACITY ->
    yields (logic_on_tun l s env data) (fun '(l, s) => logic_ok l /\ sink_ok s);
  on_tun_batch_end_law : forall l s env, logic_ok l -> sink_ok s ->
    yields (logic_on_tun_batch_end l s env) (fun '(l, s) => logic_ok l /\ sink_ok s);
  on_command_law : forall l s env c, logic_ok l -> sink_ok s -> accepts l c ->
    yields (logic_on_command l s env c) (fun '(l, s) => logic_ok l /\ sink_ok s);
  on_tick_law : forall l s env, logic_ok l -> sink_ok s ->
    yields (logic_on_tick l s env) (fun '(l, s) => logic_ok l /\ sink_ok s);
  on_io_counters_law : forall l k, logic_ok l -> logic_ok (logic_on_io_counters l k);
}.

(** ** The slots the router owns *)

Definition io_ok (tx : TokioTx) : Prop := exists a b, tx_wf a b tx.
Lemma prebuilt_udp_ok tx peer source buffer class : io_ok tx -> server_buf_wf buffer ->
  yields (send_prebuilt_udp tx peer source buffer class) (fun '(_, tx) => io_ok tx).
Proof.
  intros (a & b & Hw) Hb. unfold send_prebuilt_udp. destruct (free_tx (tx_udp tx)) as [|i l] eqn:Ef.
  { apply yields_ret. exists a, b. by apply tx_wf_drop, tx_wf_counted. }
  destruct (fill_slot_inv udp_ok a [] (tx_udp tx) i l (prepare_current buffer peer source) (tw_udp _ _ _ Hw) Ef Hb) as (r & -> & Hr & _).
  apply yields_ret. exists a, b. split; [by apply enqueue_inv|apply Hw|apply Hw].
Qed.
Lemma queue_prebuilt_ok tx buffer class : io_ok tx -> server_buf_wf buffer ->
  yields (match free_tx (tx_tun tx) with
    | [] => Ok (E := unit) (false, drop_buf (counted tx CTunDrop) buffer)
    | i :: free => tun ← fill_slot (set_free (tx_tun tx) free) i (Some buffer); Ok (true, with_tun tx (enqueue tun i class))
    end) (fun '(_, tx) => io_ok tx).
Proof.
  intros (a & b & Hw) Hb. destruct (free_tx (tx_tun tx)) as [|i l] eqn:Ef.
  { apply yields_ret. exists a, b. by apply tx_wf_drop, tx_wf_counted. }
  destruct (fill_slot_inv server_buf_wf b [] (tx_tun tx) i l buffer (tw_tun _ _ _ Hw) Ef Hb) as (r & -> & Hr & _).
  apply yields_ret. exists a, b. split; [apply Hw|by apply enqueue_inv|apply Hw].
Qed.
Lemma prebuilt_tun_ok tx buffer class : io_ok tx -> server_buf_wf buffer ->
  yields (write_prebuilt_tun tx buffer class) (fun '(_, tx) => io_ok tx).
Proof.
  intros Hio Hb. unfold write_prebuilt_tun. destruct (_ && _); [|by apply queue_prebuilt_ok].
  rewrite (as_slice_payload (E := unit) buffer Hb). cbn [mbind result_bind]. pose proof Hio as (a & b & Hw).
  pose proof (write_answer_wf a b tx (payload_of buffer) Hw) as Hw'. destruct (write_tun_packet tx (payload_of buffer)) as [[] tx']; cbn [snd] in Hw'.
  - apply yields_ret. exists a, b. by apply tx_wf_drop, tx_wf_counted.
  - apply queue_prebuilt_ok; [by exists a, b|done].
  - apply yields_ret. exists a, b. by apply tx_wf_drop, tx_wf_fatal, tx_wf_counted.
Qed.
Lemma flush_udp_ok tx answers limit : io_ok tx -> yields (flush_udp_tx tx answers limit) (fun '(tx, _) => io_ok tx).
Proof.
  intros (a & b & Hw). unfold flush_udp_tx. fold (pending_tx (tx_udp tx)).
  destruct (flush_udp_loop_spec a b (length (pending_tx (tx_udp tx)) + 2) tx answers 0 limit []) as (tx' & o & -> & Hw' & _); [done|unfold mode_credit; destruct (tx_mode tx); lia|].
  apply yields_ret. by exists a, b.
Qed.
Lemma flush_tun_ok tx : io_ok tx -> yields (flush_tun_tx tx) io_ok.
Proof. intros (a & b & Hw). destruct (flush_tun_order a b tx Hw) as (tx' & w & g & -> & Hw' & _). apply yields_ret. by exists a, b. Qed.
Lemma take_fatal_ok tx : io_ok tx -> io_ok (take_tun_fatal tx).2.
Proof. intros (a & b & [H1 H2 H3]). exists a, b. by split. Qed.
(** The two flushes, as every use of them. *)
Lemma flushes_ok {A : Type} tx answers limit (f : TokioTx -> opt A) (P : A -> Prop) : io_ok tx ->
  (forall tx, io_ok tx -> yields (f tx) P) -> yields ('(tx, _) ← flush_udp_tx tx answers limit; tx ← flush_tun_tx tx; f tx) P.
Proof.
  intros Hio Hf. eapply yields_bind; [by apply flush_udp_ok|]. intros [tx1 sent] H1. eapply yields_bind; [by apply flush_tun_ok|]. exact Hf.
Qed.

(** ** The threads *)

(** The router of [n] shards takes commands for those. *)
Definition names_shard {C : Type} (n : Z) (m : RouterCommand C) : Prop := 0 <= shard_of m < n.

Section PlaneSafe.
Context {L C K Env : Type} {DL : DataplaneLogic L (RemotePacketSink C) C K Env} (n : Z) (Hn : 0 < n).
Context {LL : LogicLaws DL (remote_wf (names_shard n))}.
Implicit Types (r : Router C K) (p : Plane L C K) (w : Worker L C).

Definition buffer_ok (b : ServerBuf) : Prop := server_buf_wf b /\ wf_bytes (sb_storage b).
Definition input_ok (i : WorkerInput C K) : Prop := match i with InUdp _ _ b | InTun b => buffer_ok b | _ => True end.
Definition inputs_valid (ch : Channel (WorkerInput C K)) : Prop := Forall input_ok (ch_items ch).
Record router_ok r : Prop := {
  ro_shards : len (ro_inputs r) = n;
  ro_tx_ok : io_ok (ro_tx r);
  ro_endpoints_ok : map_Forall (fun _ s => 0 <= s < n) (ro_endpoints r);
  ro_tunnels_ok : map_Forall (fun _ s => 0 <= s < n) (ro_tunnels r);
  ro_pending_ok : Forall (names_shard n) (ro_pending r);
  ro_inputs_ok : Forall inputs_valid (ro_inputs r);
}.
Definition shard_ok w : Prop := logic_ok (wk_logic w) /\ remote_wf (names_shard n) (wk_sink w).
Record plane_ok p : Prop := { po_router : router_ok (pl_router p); po_workers : Forall shard_ok (pl_workers p) }.

Lemma set_input_ok r s ch : router_ok r -> inputs_valid ch -> router_ok (set_input r s ch).
Proof.
  intros [H1 H2 H3 H4 H5 H6] Hc. split; cbn; [|exact H2|exact H3|exact H4|exact H5|].
  - unfold len in *. by rewrite length_insert.
  - by apply Forall_insert.
Qed.
Lemma with_tx_ok r tx : router_ok r -> io_ok tx -> router_ok (with_tx r tx).
Proof. by intros [] ?. Qed.
Lemma with_passes_ok r k : router_ok r -> router_ok (with_passes r k).
Proof. by intros []. Qed.
Lemma stopped_ok r : router_ok r -> router_ok (stopped r).
Proof. by intros []. Qed.
Lemma with_pending_ok r l : router_ok r -> Forall (names_shard n) l -> router_ok (with_pending r l).
Proof. by intros [] ?. Qed.
Lemma channel_at_ok r s ch : router_ok r -> input_at r s = Some ch -> inputs_valid ch.
Proof. intros Hr [_ E]%input_at_lookup. exact (Forall_lookup_1 _ _ _ _ (ro_inputs_ok _ Hr) E). Qed.

Lemma offer_ok r s i : router_ok r -> input_ok i -> router_ok (offer r s i).
Proof.
  intros Hr Hi. unfold offer. destruct (input_at r s) as [ch|] eqn:E; [|done].
  apply set_input_ok; [done|]. apply try_send_forall; [by eapply channel_at_ok|done].
Qed.
Lemma feed_ok r s i : router_ok r -> 0 <= s < n -> input_ok i -> yields (feed r s i) router_ok.
Proof.
  intros Hr Hs Hi. unfold feed. destruct (known_shard_input r (@BindTunnel C [] s)) as [ch Hch]; [unfold known_shard; cbn; by rewrite (ro_shards _ Hr)|].
  cbn [shard_of] in Hch. rewrite Hch. apply yields_ret. apply set_input_ok; [done|]. apply try_send_forall; [by eapply channel_at_ok|done].
Qed.

Lemma copied_ok data : wf_bytes data -> exists copied b, @ServerBuf_copy_from unit PacketBuffer_new data = Ok (copied, b) /\ buffer_ok b.
Proof.
  intros Hd. assert (Hnew : server_buf_wf PacketBuffer_new) by (split; [done|]; cbn; unfold PACKET_CAPACITY; lia).
  destruct (copy_from_wf (E := unit) PacketBuffer_new data Hnew) as (copied & b & E & Hb). exists copied, b.
  split; [done|]. split; [done|]. unfold ServerBuf_copy_from in E. destruct (_ <? _) eqn:El; [injection E as <- <-; apply wf_zeroed|]. bool_prop.
  apply bind_ok in E as (st & Est & E). injection E as <- <-. cbn [sb_storage]. pose proof (len_nonneg data).
  destruct (split_len (sb_storage PacketBuffer_new) (len data)) as (x & y & Hxy & Hx & Hy); [destruct Hnew as [-> _]; lia|].
  rewrite (copy_into_eq _ [] x y) in Est by (cbn; lia || done). injection Est as <-. apply wf_app. split; [done|].
  assert (Hz : wf_bytes (x ++ y)) by (rewrite <- Hxy; apply wf_zeroed). by apply wf_app in Hz as [_ ?].
Qed.
Lemma slice_bytes b : buffer_ok b -> exists data, @ServerBuf_as_slice unit b = Ok data /\ wf_bytes data /\ len data <= PACKET_CAPACITY.
Proof.
  intros [Hw Hb]. exists (payload_of b). split; [by apply as_slice_payload|]. destruct Hw as [Hs Hl]. split; [by apply wf_sub|].
  unfold payload_of. rewrite len_sub; lia.
Qed.

(** *** The router *)

Lemma endpoint_shard_ok r e : router_ok r -> 0 <= default 0 (ro_endpoints r !! e) < n.
Proof. intros Hr. destruct (ro_endpoints r !! e) as [s|] eqn:E; cbn; [exact (ro_endpoints_ok _ Hr _ _ E)|lia]. Qed.
Lemma tunnel_shard_ok r key : router_ok r -> 0 <= tunnel_shard r key < n.
Proof.
  intros Hr. unfold tunnel_shard. destruct key as [k|]; [|cbn; lia]. destruct (ro_tunnels r !! k) as [s|] eqn:E; cbn; [exact (ro_tunnels_ok _ Hr _ _ E)|lia].
Qed.
Lemma route_udp_ok r peer ip packet : router_ok r -> wf_bytes packet -> yields (route_udp r peer ip packet) router_ok.
Proof.
  intros Hr Hp. unfold route_udp. destruct (copied_ok packet Hp) as (copied & b & -> & Hb). cbn [mbind result_bind].
  destruct copied; cbn [negb]; [|by apply yields_ret]. apply feed_ok; [done|by apply endpoint_shard_ok|done].
Qed.
Lemma route_tun_ok r packet : router_ok r -> wf_bytes packet -> yields (route_tun r packet) router_ok.
Proof.
  intros Hr Hp. unfold route_tun. destruct (copied_ok packet Hp) as (copied & b & -> & Hb). cbn [mbind result_bind].
  destruct copied; cbn [negb]; [|by apply yields_ret]. destruct (packet_key_total (E := unit) packet Hp) as (key & -> & _). cbn [mbind result_bind].
  apply feed_ok; [done|by apply tunnel_shard_ok|done].
Qed.
Lemma route_all_ok {A : Type} (Q : A -> Prop) (f : Router C K -> A -> opt (Router C K)) l r :
  (forall r a, router_ok r -> Q a -> yields (f r a) router_ok) -> router_ok r -> Forall Q l -> yields (route_all f r l) router_ok.
Proof.
  intros Hf Hr Hl. revert r Hr. induction Hl as [|a l Ha _ IH]; intros r Hr; cbn; [by apply yields_ret|].
  eapply yields_bind; [by apply Hf|]. exact IH.
Qed.
Lemma udp_pass_ok r datagrams : router_ok r -> Forall (fun d => wf_bytes d.2) datagrams -> yields (udp_pass r datagrams) router_ok.
Proof.
  intros Hr Hd. unfold udp_pass. destruct (_ <=? _); [by apply yields_ret|].
  apply (route_all_ok (fun d : SockAddr * option IpAddr * bytes => wf_bytes d.2)); [|by apply with_passes_ok|by apply Forall_take].
  intros r' d Hr' Hd'. by apply route_udp_ok.
Qed.
Lemma tun_pass_ok r packets : router_ok r -> Forall wf_bytes packets -> yields (tun_pass r packets) router_ok.
Proof. intros Hr Hp. apply (route_all_ok wf_bytes); [apply route_tun_ok|by apply with_passes_ok|by apply Forall_take]. Qed.
Lemma offer_all_ok r k cs : router_ok r -> router_ok (offer_all r k cs).
Proof. revert r k. induction cs as [|c cs IH]; intros r k Hr; cbn; [done|]. by apply IH, offer_ok. Qed.
Lemma shutdown_shards_ok r : router_ok r -> router_ok (shutdown_shards r).
Proof. unfold shutdown_shards. generalize (seq 0 (length (ro_inputs r))) as l. intros l. revert r. induction l as [|i l IH]; intros r Hr; cbn; [done|]. by apply IH, offer_ok. Qed.
Lemma router_exit_ok r answers : router_ok r -> yields (router_exit r answers) router_ok.
Proof.
  intros Hr. pose proof (stopped_ok _ (shutdown_shards_ok r Hr)) as Hr'. unfold router_exit. cbv zeta. set (r1 := stopped _) in *.
  apply flushes_ok; [apply Hr'|]. intros tx Htx. apply yields_ret. by apply with_tx_ok.
Qed.
Lemma flush_pass_ok r answers exit_answers : router_ok r -> yields (flush_pass r answers exit_answers) router_ok.
Proof.
  intros Hr. unfold flush_pass. pose proof (take_fatal_ok _ (ro_tx_ok _ Hr)) as H1. destruct (take_tun_fatal (ro_tx r)) as [fatal tx]. cbn [snd] in H1.
  destruct fatal; [apply router_exit_ok; by apply with_tx_ok|]. apply flushes_ok; [done|]. intros tx2 H2.
  pose proof (take_fatal_ok _ H2) as H3. destruct (take_tun_fatal tx2) as [fatal tx3]. cbn [snd] in H3.
  destruct fatal; [apply router_exit_ok; by apply with_tx_ok|]. apply yields_ret. by apply with_tx_ok.
Qed.

Lemma insert_shard_ok `{Countable A} (m : gmap A Z) k s : map_Forall (fun _ s => 0 <= s < n) m -> 0 <= s < n -> map_Forall (fun _ s => 0 <= s < n) (<[k := s]> m).
Proof. intros Hm Hs. by apply map_Forall_insert_2. Qed.
Lemma route_command_ok r m : router_ok r -> names_shard n m -> router_ok (route_command r m).
Proof.
  intros Hr Hm. pose proof Hr as [H1 H2 H3 H4 H5 H6]. destruct m as [e s c|e s|ip s]; cbn [route_command].
  - destruct (input_at r s) as [ch|] eqn:E; [|done]. pose proof (try_send_forall input_ok ch (InCommand c) (channel_at_ok _ _ _ Hr E) I) as Hs.
    destruct (try_send ch (InCommand c)) as [[|] ch']; cbn [snd] in Hs.
    + destruct (set_input_ok r s ch' Hr Hs) as [G1 G2 G3 G4 G5 G6]. split; try done. by apply insert_shard_ok.
    + apply with_pending_ok; [done|]. apply Forall_app. by rewrite Forall_singleton.
  - split; try done. by apply insert_shard_ok.
  - destruct (route_index ip); [|done]. split; try done. by apply insert_shard_ok.
Qed.
Lemma drain_commands_ok k r : router_ok r -> router_ok (drain_commands k r).
Proof.
  revert r. induction k as [|k IH]; intros r Hr; cbn; [done|]. pose proof (ro_pending_ok _ Hr) as Hp.
  destruct (ro_pending r) as [|m l]; [done|]. apply Forall_cons in Hp as [Hm Hl]. apply IH, route_command_ok; [|done]. by apply with_pending_ok.
Qed.
Lemma route_output_ok r v answers : router_ok r -> output_ok (names_shard n) v -> yields (route_output r v answers) router_ok.
Proof.
  intros Hr Hv. destruct v as [peer ip class b|class b| |m]; cbn [route_output output_ok] in *.
  - eapply yields_bind; [apply prebuilt_udp_ok; [apply Hr|done]|]. intros [sent tx] Htx. apply yields_ret. by apply with_tx_ok.
  - eapply yields_bind; [apply prebuilt_tun_ok; [apply Hr|done]|]. intros [sent tx] Htx. apply yields_ret. by apply with_tx_ok.
  - eapply yields_bind; [apply flush_udp_ok, Hr|]. intros [tx sent] Htx. apply yields_ret. by apply with_tx_ok.
  - apply yields_ret. apply with_pending_ok; [done|]. apply Forall_app. split; [apply Hr|by apply Forall_singleton].
Qed.

(** *** The shards *)

(** What an input needs of the logic that takes it. *)
Definition takes (l : L) (i : WorkerInput C K) : Prop :=
  match i with InUdp _ _ _ => admits_udp l | InCommand c => accepts l c | _ => True end.
Lemma worker_result_ok (x : opt (L * RemotePacketSink C)) :
  yields x (fun '(l, s) => logic_ok l /\ remote_wf (names_shard n) s) -> yields (worker_result x) shard_ok.
Proof. intros Hx. unfold worker_result. eapply yields_bind; [exact Hx|]. intros [l s] H. by apply yields_ret. Qed.
Lemma worker_input_ok w env i : shard_ok w -> env_ok (wk_logic w) env -> input_ok i -> takes (logic_begin_batch (wk_logic w) env) i ->
  yields (worker_input w env i) shard_ok.
Proof.
  intros [Hl Hs] He Hi Ht. pose proof (begin_batch_law _ _ Hl He) as Hb. destruct i as [peer ip b|b|k|c|]; cbn [worker_input input_ok takes] in *.
  - destruct (slice_bytes b Hi) as (data & -> & Hd & Hlen). cbn [mbind result_bind]. by apply worker_result_ok, on_udp_law.
  - destruct (slice_bytes b Hi) as (data & -> & Hd & Hlen). cbn [mbind result_bind].
    eapply yields_bind; [by apply on_tun_law|]. intros [l s] [H1 H2]. by apply worker_result_ok, on_tun_batch_end_law.
  - apply yields_ret. split; [by apply on_io_counters_law|done].
  - by apply worker_result_ok, on_command_law.
  - by apply yields_ret.
Qed.
Lemma worker_tick_ok w env : shard_ok w -> env_ok (wk_logic w) env -> yields (worker_tick w env) shard_ok.
Proof. intros [Hl Hs] He. apply worker_result_ok, on_tick_law; [by apply begin_batch_law|done]. Qed.

(** *** A run *)

Definition event_valid p (ev : PlaneEvent C K Env) : Prop :=
  match ev with
  | PlUdp datagrams => Forall (fun d => wf_bytes d.2) datagrams
  | PlTun packets => Forall wf_bytes packets
  | PlWork i env => forall w ch input, pl_workers p !! i = Some w -> ro_inputs (pl_router p) !! i = Some ch -> head (ch_items ch) = Some input ->
      env_ok (wk_logic w) env /\ takes (logic_begin_batch (wk_logic w) env) input
  | PlWorkTick i env => forall w, pl_workers p !! i = Some w -> env_ok (wk_logic w) env
  | _ => True
  end.
Inductive plane_reach (p0 : Plane L C K) : Plane L C K -> Prop :=
| plane_reach_start : plane_reach p0 p0
| plane_reach_step p ev p' : plane_reach p0 p -> event_valid p ev -> plane_step p ev = Ok p' -> plane_reach p0 p'.

Lemma on_router_ok p (x : opt (Router C K)) : plane_ok p -> yields x router_ok -> yields (on_router p x) plane_ok.
Proof. intros Hp Hx. unfold on_router. destruct (ro_running _); [|by apply yields_ret]. eapply yields_bind; [exact Hx|]. intros r Hr. apply yields_ret. split; [done|apply Hp]. Qed.
Lemma on_worker_ok p i f : plane_ok p -> (forall w, pl_workers p !! i = Some w -> shard_ok w -> yields (f w) (fun '(w, r) => shard_ok w /\ router_ok r)) ->
  yields (on_worker p i f) plane_ok.
Proof.
  intros Hp Hf. unfold on_worker. destruct (pl_workers p !! i) as [w|] eqn:E; [|by apply yields_ret]. destruct (wk_running w); [|by apply yields_ret].
  eapply yields_bind; [apply Hf; [done|exact (Forall_lookup_1 _ _ _ _ (po_workers _ Hp) E)]|]. intros [w' r] [Hw Hr]. apply yields_ret.
  split; [done|]. apply Forall_insert; [apply Hp|done].
Qed.
Lemma shard_work_ok p i env w : plane_ok p -> shard_ok w -> event_valid p (PlWork i env) -> pl_workers p !! i = Some w ->
  yields (work p i env w) (fun '(w, r) => shard_ok w /\ router_ok r).
Proof.
  intros Hp Hw Hev Ew. unfold work. destruct (ro_inputs (pl_router p) !! i) as [ch|] eqn:Ech; [|apply yields_ret; split; [done|apply Hp]].
  unfold try_recv. pose proof (Forall_lookup_1 _ _ _ _ (ro_inputs_ok _ (po_router _ Hp)) Ech) as Hch. unfold inputs_valid in Hch.
  destruct (ch_items ch) as [|input l] eqn:El; [apply yields_ret; split; [done|apply Hp]|]. apply Forall_cons in Hch as [Hin Hl].
  destruct (Hev w ch input Ew Ech ltac:(by rewrite El)) as [Henv Ht]. eapply yields_bind; [by apply worker_input_ok|]. intros w' Hw'. apply yields_ret. split; [done|].
  destruct (po_router _ Hp) as [H1 H2 H3 H4 H5 H6]. split; cbn; try done; [unfold len in *; by rewrite length_insert|by apply Forall_insert].
Qed.
Lemma take_output_ok p i answers : plane_ok p -> yields (take_output p i answers) plane_ok.
Proof.
  intros Hp. unfold take_output. destruct (pl_workers p !! i) as [w|] eqn:E; [|by apply yields_ret]. destruct (negb _); [by apply yields_ret|].
  pose proof (Forall_lookup_1 _ _ _ _ (po_workers _ Hp) E) as [Hl [Hpool Hch]]. unfold try_recv. destruct (ch_items (rs_output (wk_sink w))) as [|v l]; [by apply yields_ret|].
  apply Forall_cons in Hch as [Hv Hch]. eapply yields_bind; [apply route_output_ok; [apply Hp|done]|]. intros r Hr. apply yields_ret.
  split; [done|]. apply Forall_insert; [apply Hp|]. by split.
Qed.
Lemma recycle_ok p i storage : plane_ok p -> plane_ok (recycle p i storage).
Proof.
  intros [Hr Hw]. split; [done|]. cbn. apply Forall_alter; [done|]. intros w Ew [Hl [Hpool Hch]]. split; [done|]. split; [by apply release_wf|done].
Qed.
Lemma plane_step_ok p ev : plane_ok p -> event_valid p ev -> yields (plane_step p ev) plane_ok.
Proof.
  intros Hp Hev. pose proof (po_router _ Hp) as Hr.
  destruct ev as [i answers| |datagrams|packets|c|k|answers exits|answers|i env|i env|i storage]; cbn [plane_step event_valid] in *.
  - by apply take_output_ok.
  - apply on_router_ok; [done|]. apply yields_ret. by apply drain_commands_ok.
  - apply on_router_ok; [done|]. by apply udp_pass_ok.
  - apply on_router_ok; [done|]. by apply tun_pass_ok.
  - apply on_router_ok; [done|]. apply yields_ret. by apply offer_all_ok, with_passes_ok.
  - apply on_router_ok; [done|]. apply yields_ret. by apply offer_ok; [apply with_passes_ok|].
  - apply on_router_ok; [done|]. by apply flush_pass_ok.
  - apply on_router_ok; [done|]. by apply router_exit_ok.
  - apply on_worker_ok; [done|]. intros w Ew Hw. by apply shard_work_ok.
  - apply on_worker_ok; [done|]. intros w Ew Hw. eapply yields_bind; [apply worker_tick_ok; [done|by apply Hev]|]. intros w' Hw'. by apply yields_ret.
  - apply yields_ret. by apply recycle_ok.
Qed.
Lemma plane_start_ok logics tx pool : len logics = n -> Forall logic_ok logics -> io_ok tx -> pool_wf pool -> plane_ok (plane_start (C := C) (K := K) logics tx pool).
Proof.
  intros Hlen Hl Htx Hpool. split.
  - split; cbn; [unfold len in *; by rewrite length_replicate|done|apply map_Forall_empty|apply map_Forall_empty|constructor|].
    apply Forall_replicate. constructor.
  - apply Forall_fmap. apply (Forall_impl _ _ _ Hl). intros l Hok. by split.
Qed.
Lemma plane_reach_ok p0 p : plane_ok p0 -> plane_reach p0 p -> plane_ok p.
Proof.
  intros H0. induction 1 as [|p ev p' _ IH Hev Hst]; [done|]. destruct (plane_step_ok p ev IH Hev) as (q & Hq & Hok). congruence.
Qed.
End PlaneSafe.

(** ** The protocol engine as the logic *)

Section EngineLogic.
Context {SA : SlabAlloc} {CR : Crypto} {EN : Entropy}.
Context {Sk : Type} {PO : PacketOutput Sk} {RO : RouterOutput Sk ProtocolCommand}.

(** The engine with its field [last_io_counters]; a call reads the clocks, and
    finds the shared state as the other threads left it. *)
Record ShardEngine := mkShardEngine { sd_engine : Engine; sd_last_io : IoCounters }.
Record EngineEnv := mkEngineEnv { en_now : Moment; en_elapsed_ms : Z; en_wall_now : Z; en_dpi : bool; en_shared : Shared }.
Definition with_engine {Sk : Type} (x : ShardEngine) (r : opt (Engine * Sk)) : opt (ShardEngine * Sk) :=
  '(e, s) ← r; Ok (mkShardEngine e (sd_last_io x), s).

#[global] Instance engine_logic : DataplaneLogic ShardEngine Sk ProtocolCommand IoCounters EngineEnv := {
  logic_begin_batch x env := mkShardEngine (set_e_shared (begin_batch (sd_engine x) (mo_now (en_now env))) (en_shared env)) (sd_last_io x);
  logic_on_udp x s env peer ip data := with_engine x (on_udp (sd_engine x) s (en_now env) peer ip data);
  logic_on_tun x s env data := with_engine x (on_tun (sd_engine x) s data);
  logic_on_tun_batch_end x s env := with_engine x (on_tun_batch_end (sd_engine x) s (en_now env));
  logic_on_command x s env c := with_engine x (on_command (sd_engine x) s (en_now env) c);
  logic_on_tick x s env := with_engine x (on_tick (sd_engine x) s (en_now env) (en_elapsed_ms env) (en_wall_now env) (en_dpi env));
  logic_on_io_counters x k := let '(e, last) := on_io_counters (sd_engine x) (sd_last_io x) k in mkShardEngine e last;
  logic_fanout_command := fanout_command;
}.

Context {SL : SlabLaws SA} {CL : CryptoLaws CR} {EL : EntropyLaws EN} {PL : PacketOutputLaws Sk} {RL : RouterOutputLaws Sk ProtocolCommand}.
Lemma ok_shared e shared : engine_ok e -> shared_ok shared -> sh_session_counter (e_shared e) <= sh_session_counter shared ->
  engine_ok (set_e_shared e shared).
Proof. intros [Hix Hse Hb _ Hshard] Hsh Hc. split; try done. intros k h Hh. destruct (Hse k h Hh) as [H1 H2]. split; [exact H1|]. cbn [e_shared set_e_shared]. lia. Qed.
Lemma small_packet (data : bytes) : wf_bytes data -> len data <= PACKET_CAPACITY -> packet_ok data /\ len data <= 65535.
Proof. intros Hd Hl. unfold packet_ok, PACKET_CAPACITY, ISIZE_MAX in *. split; [split; [done|lia]|lia]. Qed.

Abbreviation sound := (fun '(l, s) => engine_ok (sd_engine l) /\ sink_wf s).
Lemma stepped_ok x (r : opt (Engine * Sk)) : yields r (fun '(e', s') => engine_step (sd_engine x) e' /\ sink_wf s') -> yields (with_engine x r) sound.
Proof. intros Hr. eapply yields_bind; [exact Hr|]. intros [e s] [[Hok _] Hs]. by apply yields_ret. Qed.
Lemma drained_ok x (r : opt (Engine * Sk)) : yields r (fun '(e', s') => drains (sd_engine x) e' /\ sink_wf s') -> yields (with_engine x r) sound.
Proof. intros Hr. apply stepped_ok. eapply yields_impl; [exact Hr|]. intros [e s] [Hd Hs]. split; [by apply drains_step|done]. Qed.
Lemma udp_sound x s t peer ip data : engine_ok (sd_engine x) -> sink_wf s -> sh_session_counter (e_shared (sd_engine x)) < U64_MAX ->
  wf_bytes data -> len data <= PACKET_CAPACITY -> yields (with_engine x (on_udp (sd_engine x) s t peer ip data)) sound.
Proof. intros He Hs Ha Hd Hl. apply stepped_ok, on_udp_spec; [done|done|by apply small_packet|done]. Qed.
Lemma tun_sound x s data : engine_ok (sd_engine x) -> sink_wf s -> wf_bytes data -> len data <= PACKET_CAPACITY ->
  yields (with_engine x (on_tun (sd_engine x) s data)) sound.
Proof.
  intros He Hs Hd Hl. destruct (small_packet data Hd Hl). apply drained_ok. unfold on_tun. eapply yields_bind; [by apply tun_spec|].
  intros e Hdr. by apply yields_ret.
Qed.
Lemma batch_end_sound x s t : engine_ok (sd_engine x) -> sink_wf s -> yields (with_engine x (on_tun_batch_end (sd_engine x) s t)) sound.
Proof. intros He Hs. apply drained_ok. unfold on_tun_batch_end. by apply drain_spec. Qed.
Lemma command_sound x s t c : engine_ok (sd_engine x) -> sink_wf s -> command_ok (sd_engine x) c -> yields (with_engine x (on_command (sd_engine x) s t c)) sound.
Proof. intros He Hs Hc. apply stepped_ok. by apply on_command_spec. Qed.
Lemma tick_sound x s t elapsed wall dpi : engine_ok (sd_engine x) -> sink_wf s -> yields (with_engine x (on_tick (sd_engine x) s t elapsed wall dpi)) sound.
Proof. intros He Hs. apply stepped_ok. by apply on_tick_spec. Qed.
Lemma counters_sound x k : engine_ok (sd_engine x) -> engine_ok (on_io_counters (sd_engine x) (sd_last_io x) k).1.
Proof. intros He. unfold on_io_counters. cbn [fst]. case_bool_decide; [done|]. by apply ok_emit. Qed.
(** A datagram finds an unused session number, and a command is one of those
    the control plane and the router send. *)
Definition engine_laws : LogicLaws engine_logic sink_wf.
Proof.
  refine {| logic_ok x := engine_ok (sd_engine x);
            env_ok x env := event_ok (sd_engine x) (EvShared (en_shared env));
            admits_udp x := sh_session_counter (e_shared (sd_engine x)) < U64_MAX;
            accepts x c := command_ok (sd_engine x) c |}.
  - intros x env He [Hsh Hc]. exact (ok_shared _ _ (ok_misc _ _ He) Hsh Hc).
  - intros x s env peer ip data He Hs Ha Hd Hl. exact (udp_sound x s (en_now env) peer ip data He Hs Ha Hd Hl).
  - intros x s env data He Hs Hd Hl. exact (tun_sound x s data He Hs Hd Hl).
  - intros x s env He Hs. exact (batch_end_sound x s (en_now env) He Hs).
  - intros x s env c He Hs Hc. exact (command_sound x s (en_now env) c He Hs Hc).
  - intros x s env He Hs. exact (tick_sound x s (en_now env) (en_elapsed_ms env) (en_wall_now env) (en_dpi env) He Hs).
  - intros x k He. exact (counters_sound x k He).
Defined.
End EngineLogic.
Arguments EngineEnv : clear implicits.

(** ** The server *)

Section Server.
Context {SA : SlabAlloc} {CR : Crypto} {EN : Entropy} {SL : SlabLaws SA} {CL : CryptoLaws CR} {EL : EntropyLaws EN}.

(** An engine per shard, as [main] makes them. *)
Definition shard_engines (n : Z) (credentials : list Credential) (epochs : gmap bytes Z) (profile : FecProfile) (seed : nat -> Z) (wall now : Z)
    (shared : Shared) : list ShardEngine :=
  (fun i => mkShardEngine (Engine_new (Z.of_nat i) n credentials epochs profile (seed i) wall now shared) IoCounters_default) <$> seq 0 (Z.to_nat n).
Definition shard_laws (n : Z) : LogicLaws (engine_logic (Sk := RemotePacketSink ProtocolCommand)) (remote_wf (names_shard n)) :=
  engine_laws (PL := remote_laws (names_shard n)) (RL := remote_router_laws (names_shard n)).
Lemma shards_in_range n i : 0 <= i < n -> shards_ok (PacketOutputLaws0 := remote_laws (names_shard n)) (RouterOutputLaws0 := remote_router_laws (names_shard n)) i n.
Proof.
  intros Hi. split; [done|done|]. intros endpoint device h payload. unfold routable. cbn. unfold names_shard, shard_for_device. cbn [shard_of].
  replace (Z.max n 1) with n by lia. apply Z.mod_pos_bound. lia.
Qed.
Lemma shard_engines_ok n credentials epochs profile seed wall now shared : shared_ok shared ->
  Forall (logic_ok (LogicLaws := shard_laws n)) (shard_engines n credentials epochs profile seed wall now shared).
Proof.
  intros Hsh. apply Forall_fmap, Forall_forall. intros i [_ Hi]%elem_of_seq. cbn. apply (engine_new_ok (RouterOutputLaws0 := remote_router_laws (names_shard n))); [done|].
  apply shards_in_range. lia.
Qed.

(** C1. The server with [n] shards, from its start, whatever datagrams and device packets arrive, whatever the kernel answers and in
    whichever order the router and the shards take their turns: no thread panics, every entry of the router's tables names a shard
    it has, and each shard's engine keeps its tables exact, provided that the commands are those of [command_ok] (a session is handed
    only to a shard that holds neither its endpoint nor its number, which [adopt_session] does not check and
    [adoption_over_a_held_endpoint] shows to be necessary) and that the session counter has not reached its end. *)
Theorem sharded_server_never_panics n credentials epochs profile seed wall now shared tx pool p :
  0 < n -> shared_ok shared -> io_ok tx -> pool_wf pool ->
  plane_reach n (LL := shard_laws n) (plane_start (shard_engines n credentials epochs profile seed wall now shared) tx pool) p ->
  map_Forall (fun _ s => 0 <= s < n) (ro_endpoints (pl_router p)) /\ map_Forall (fun _ s => 0 <= s < n) (ro_tunnels (pl_router p))
  /\ Forall (fun w => let e := sd_engine (wk_logic w) in index_ok (sl_map (e_sessions e)) (e_by_peer e) (e_by_id e) (e_routes e)) (pl_workers p)
  /\ forall ev, event_valid n (LL := shard_laws n) p ev -> exists p', plane_step p ev = Ok p'.
Proof.
  intros Hn Hsh Htx Hpool Hreach. apply plane_reach_ok in Hreach; [|done|].
  - split_and!; [apply Hreach|apply Hreach| |].
    + apply (Forall_impl _ _ _ (po_workers _ _ Hreach)). intros w [He _]. apply He.
    + intros ev Hev. destruct (plane_step_ok n Hn p ev Hreach Hev) as (p' & Hp' & _). by exists p'.
  - apply plane_start_ok; [|by apply shard_engines_ok|done|done]. unfold len, shard_engines. rewrite length_fmap, length_seq. lia.
Qed.
End Server.

(** ** One shard: the loop *)

Section LocalSafe.
Context {L C K Env : Type} {DL : DataplaneLogic L (LocalSink C) C K Env} {LL : LogicLaws DL (fun s : LocalSink C => io_ok (lo_tx s))}.
Abbreviation running := (fun '(l, s) => logic_ok l /\ io_ok (lo_tx s)).

(** Each call of a pass finds the logic ready for it. *)
Fixpoint calls_valid {A : Type} (f : L -> LocalSink C -> A -> opt (L * LocalSink C)) (Q : L -> A -> Prop) (l : L) (s : LocalSink C) (calls : list A) : Prop :=
  match calls with [] => True | c :: calls => Q l c /\ forall l' s', f l s c = Ok (l', s') -> calls_valid f Q l' s' calls end.
Lemma call_each_ok {A : Type} f (Q : L -> A -> Prop) l s (calls : list A) :
  (forall l s a, logic_ok l -> io_ok (lo_tx s) -> Q l a -> yields (f l s a) running) ->
  logic_ok l -> io_ok (lo_tx s) -> calls_valid f Q l s calls -> yields (call_each f l s calls) running.
Proof.
  intros Hf. revert l s. induction calls as [|c calls IH]; intros l s Hl Hs Hv; cbn; [by apply yields_ret|]. destruct Hv as [Hq Hv].
  destruct (Hf l s c Hl Hs Hq) as ([l' s'] & E & Hl' & Hs'). rewrite E. cbn [mbind result_bind]. apply IH; [done|done|by apply Hv].
Qed.
Lemma calls_valid_take {A : Type} f (Q : L -> A -> Prop) k l s (calls : list A) : calls_valid f Q l s calls -> calls_valid f Q l s (take k calls).
Proof.
  revert k l s. induction calls as [|c calls IH]; intros [|k] l s Hv; cbn; try done. destruct Hv as [Hq Hv]. split; [done|].
  intros l' s' E. by apply IH, Hv.
Qed.

Definition command_ready (l : L) (c : LocalCall Env C) : Prop := env_ok l (ca_env c) /\ accepts (logic_begin_batch l (ca_env c)) (ca_arg c).
Definition datagram_ready (l : L) (d : LocalCall Env (SockAddr * option IpAddr * bytes)) : Prop := admits_udp l /\ wf_bytes (ca_arg d).2.
Definition packet_ready (l : L) (p : LocalCall Env bytes) : Prop := wf_bytes (ca_arg p) /\ len (ca_arg p) <= PACKET_CAPACITY.
Definition arm_valid (p : LocalPlane L C) (arm : LocalArm C K Env) : Prop :=
  let l := lp_logic p in
  match arm with
  | ArmTick tick _ => env_ok l (ca_env tick)
  | ArmCommands commands _ => calls_valid command_call command_ready l (lp_sink p) commands
  | ArmUdp env datagrams => env_ok l env /\ calls_valid udp_call datagram_ready (logic_begin_batch l env) (lp_sink p) datagrams
  | ArmTun env packets _ => env_ok l env /\ calls_valid tun_call packet_ready (logic_begin_batch l env) (lp_sink p) packets
  | ArmWritable => True
  end.
Definition local_ok (p : LocalPlane L C) : Prop := logic_ok (lp_logic p) /\ io_ok (lo_tx (lp_sink p)).

Lemma with_sink_ok (s : LocalSink C) answers f : io_ok (lo_tx s) -> (forall s : LocalSink C, io_ok (lo_tx s) -> yields (f s) running) -> yields (with_sink (L := L) s answers f) running.
Proof.
  intros Hs Hf. eapply yields_bind; [apply Hf; destruct Hs as (a & b & [H1 H2 H3]); by exists a, b|]. intros [l s1] [Hl Hs1].
  destruct (urgent_udp_flush (lo_tx s1)); [|by apply yields_ret]. eapply yields_bind; [by apply flush_udp_ok|]. intros [tx sent] Htx. by apply yields_ret.
Qed.
Lemma command_call_ok l s c : logic_ok l -> io_ok (lo_tx s) -> command_ready l c -> yields (command_call l s c) running.
Proof. intros Hl Hs [He Ha]. apply with_sink_ok; [done|]. intros s1 Hs1. apply on_command_law; [by apply begin_batch_law|done|done]. Qed.
Lemma udp_call_ok l s d : logic_ok l -> io_ok (lo_tx s) -> datagram_ready l d -> yields (udp_call l s d) running.
Proof.
  intros Hl Hs [Ha Hd]. unfold udp_call. destruct (ca_arg d) as [[peer ip] packet]. destruct (_ <? _) eqn:E; bool_prop; [by apply yields_ret|].
  apply with_sink_ok; [done|]. intros s1 Hs1. by apply on_udp_law.
Qed.
Lemma tun_call_ok l s p : logic_ok l -> io_ok (lo_tx s) -> packet_ready l p -> yields (tun_call l s p) running.
Proof. intros Hl Hs [Hd Hn]. apply with_sink_ok; [done|]. intros s1 Hs1. by apply on_tun_law. Qed.
Lemma local_arm_ok p arm : local_ok p -> arm_valid p arm -> yields (local_arm p arm) local_ok.
Proof.
  intros [Hl Hs] Hv. destruct arm as [tick k|commands shutdown|env datagrams|env packets fin|]; cbn [local_arm arm_valid] in *.
  - eapply yields_bind; [apply with_sink_ok; [done|]; intros s1 Hs1; apply on_tick_law; [by apply begin_batch_law|done]|].
    intros [l s] [H1 H2]. apply yields_ret. split; [by apply on_io_counters_law|done].
  - eapply yields_bind; [apply (call_each_ok _ command_ready); [apply command_call_ok|done|done|by apply calls_valid_take]|].
    intros [l s] [H1 H2]. by apply yields_ret.
  - destruct (_ <=? _); [by apply yields_ret|]. destruct Hv as [He Hv].
    eapply yields_bind; [apply (call_each_ok _ datagram_ready); [apply udp_call_ok|by apply begin_batch_law|done|by apply calls_valid_take]|].
    intros [l s] [H1 H2]. by apply yields_ret.
  - destruct Hv as [He Hv].
    eapply yields_bind; [apply (call_each_ok _ packet_ready); [apply tun_call_ok|by apply begin_batch_law|done|by apply calls_valid_take]|].
    intros [l s] [H1 H2]. destruct fin as [c|]; [|by apply yields_ret].
    eapply yields_bind; [apply with_sink_ok; [done|]; intros s1 Hs1; by apply on_tun_batch_end_law|]. intros [l2 s2] [H3 H4]. by apply yields_ret.
  - by apply yields_ret.
Qed.
Lemma local_turn_ok p arm answers report : local_ok p -> arm_valid p arm -> yields (local_turn p arm answers report) local_ok.
Proof.
  intros Hp Hv. unfold local_turn. eapply yields_bind; [by apply local_arm_ok|]. clear p Hp Hv. intros p [Hl Hs].
  destruct (lp_end p) as [[|]|]; [|by apply yields_ret|].
  - apply flushes_ok; [done|]. intros tx Htx. by apply yields_ret.
  - pose proof (take_fatal_ok _ Hs) as H1. destruct (take_tun_fatal (lo_tx (lp_sink p))) as [[|] tx]; cbn [snd] in H1; [by apply yields_ret|].
    apply flushes_ok; [done|]. intros tx2 H2. pose proof (take_fatal_ok _ H2) as H3. destruct (take_tun_fatal tx2) as [[|] tx3]; cbn [snd] in H3; [by apply yields_ret|].
    apply yields_ret. split; [|done]. destruct report; [by apply on_io_counters_law|done].
Qed.
(** Turns until the loop ends. *)
Inductive local_reach (p0 : LocalPlane L C) : LocalPlane L C -> Prop :=
| local_reach_start : local_reach p0 p0
| local_reach_turn p arm answers report p' : local_reach p0 p -> lp_end p = None -> arm_valid p arm ->
    local_turn p arm answers report = Ok p' -> local_reach p0 p'.
Lemma local_reach_ok p0 p : local_ok p0 -> local_reach p0 p -> local_ok p.
Proof.
  intros H0. induction 1 as [|p arm answers report p' _ IH _ Hv Hst]; [done|]. destruct (local_turn_ok p arm answers report IH Hv) as (q & Hq & Hok). congruence.
Qed.
End LocalSafe.

Section LocalServer.
Context {SA : SlabAlloc} {CR : Crypto} {EN : Entropy} {SL : SlabLaws SA} {CL : CryptoLaws CR} {EL : EntropyLaws EN}.
Definition local_laws : LogicLaws (engine_logic (Sk := LocalSink ProtocolCommand)) (fun s => io_ok (lo_tx s)) := engine_laws (Sk := LocalSink ProtocolCommand).
Definition local_start (e : Engine) (tx : TokioTx) : LocalPlane ShardEngine ProtocolCommand :=
  mkLocalPlane (mkShardEngine e IoCounters_default) (mkLocal tx (mkChannel [] SHARD_OUTPUT_CAPACITY true)) 0 None.

(** C2. The server with one shard, which is what it is unless it is configured
    otherwise: in every turn of its loop, whatever arrives and whatever the
    kernel answers, nothing panics, and the engine's tables stay exact. *)
Theorem unsharded_server_never_panics credentials epochs profile seed wall now shared tx p :
  shared_ok shared -> io_ok tx ->
  local_reach (LL := local_laws) (local_start (Engine_new 0 1 credentials epochs profile seed wall now shared) tx) p ->
  let e := sd_engine (lp_logic p) in
  index_ok (sl_map (e_sessions e)) (e_by_peer e) (e_by_id e) (e_routes e)
  /\ forall arm answers report, arm_valid (LL := local_laws) p arm -> exists p', local_turn p arm answers report = Ok p'.
Proof.
  intros Hsh Htx Hr. apply local_reach_ok in Hr.
  - split; [apply (proj1 Hr)|]. intros arm answers report Hv. destruct (local_turn_ok p arm answers report Hr Hv) as (p' & Hp' & _). by exists p'.
  - split; [|done]. cbn. apply engine_new_ok; [done|]. by split.
Qed.
End LocalServer.

(** ** A server of two shards, and one of one *)

Definition demo_env : EngineEnv := mkEngineEnv (mkMoment 5 2000) 5 1000 false demo_shared.
Definition demo_bytes : bytes := demo_wrapped (demo_request (b_ "device")) demo_state.
Definition demo_plane : Plane ShardEngine ProtocolCommand IoCounters :=
  plane_start (shard_engines 2 demo_credentials ∅ Safe (fun _ => 1) 1000 0 demo_shared) demo_tx (ServerPool_new 8).
Definition demo_after (evs : list (PlaneEvent ProtocolCommand IoCounters EngineEnv)) : Plane ShardEngine ProtocolCommand IoCounters :=
  match plane_run demo_plane evs with Ok p => p | _ => demo_plane end.
Definition demo_arrival : PlaneEvent ProtocolCommand IoCounters EngineEnv := PlUdp [(demo_peer, None, demo_bytes)].
Lemma demo_bytes_ok : packet_ok demo_bytes.
Proof. apply demo_packet_ok; vm_compute; reflexivity. Qed.
Lemma demo_arrival_reach : plane_reach 2 (LL := shard_laws 2) demo_plane (demo_after [demo_arrival]).
Proof.
  apply (plane_reach_step 2 _ demo_plane demo_arrival); [constructor| |vm_compute; reflexivity].
  apply Forall_singleton. apply demo_bytes_ok.
Qed.
(** The first shard opens the session; its device belongs to the second, which adopts it. *)
Lemma demo_open_valid : event_valid 2 (LL := shard_laws 2) (demo_after [demo_arrival]) (PlWork 0 demo_env).
Proof.
  intros w ch input Hw Hch Hin.
  assert (Hc : (fun w => sh_session_counter (e_shared (sd_engine (wk_logic w)))) <$> pl_workers (demo_after [demo_arrival]) = [1; 1]) by (vm_compute; reflexivity).
  assert (H1 : sh_session_counter (e_shared (sd_engine (wk_logic w))) = 1).
  { apply (f_equal (.!! 0%nat)) in Hc. rewrite list_lookup_fmap, Hw in Hc. by injection Hc. }
  split; [split; [apply demo_shared_ok|rewrite H1; cbn; lia]|].
  assert (Hi : (match ch_items <$> ro_inputs (pl_router (demo_after [demo_arrival])) !! 0%nat with Some (InUdp _ _ _ :: _) => true | _ => false end) = true)
    by (vm_compute; reflexivity).
  rewrite Hch in Hi. cbn [fmap option_fmap option_map] in Hi. destruct (ch_items ch) as [|x l]; [discriminate|]. injection Hin as <-.
  destruct x as [peer ip b| | | |]; [|discriminate..]. reflexivity.
Qed.
Definition demo_later : EngineEnv := mkEngineEnv (mkMoment 6 2001) 6 1001 false (mkShared ∅ 2 0 0 (mkChannel [] 1024 true) ∅).
Definition demo_handover : list (PlaneEvent ProtocolCommand IoCounters EngineEnv) := [demo_arrival; PlWork 0 demo_env; PlTake 0 []; PlDrain].
Lemma demo_handover_reach : plane_reach 2 (LL := shard_laws 2) demo_plane (demo_after demo_handover).
Proof.
  apply (plane_reach_step 2 _ (demo_after [demo_arrival; PlWork 0 demo_env; PlTake 0 []]) PlDrain); [|exact I|vm_compute; reflexivity].
  apply (plane_reach_step 2 _ (demo_after [demo_arrival; PlWork 0 demo_env]) (PlTake 0 [])); [|exact I|vm_compute; reflexivity].
  apply (plane_reach_step 2 _ (demo_after [demo_arrival]) (PlWork 0 demo_env)); [apply demo_arrival_reach|apply demo_open_valid|vm_compute; reflexivity].
Qed.
(** The second shard finds a session whose endpoint and number it does not hold. *)
Definition adopts (w : Dataplane.Worker ShardEngine ProtocolCommand) (input : WorkerInput ProtocolCommand IoCounters) : bool :=
  let e := sd_engine (wk_logic w) in
  match input with
  | InCommand (AdoptSession h _) =>
      bool_decide (sh_session_counter (e_shared e) <= 2) && bool_decide (is_u64 (hs_id h)) && bool_decide (is_u16 (hs_desired_stream_count h))
      && bool_decide (hs_tunnel_ip h = None) && bool_decide (hs_id h < 2) && bool_decide (e_by_peer e !! endpoint_of h = None) && bool_decide (e_by_id e !! hs_id h = None)
  | _ => false
  end.
Lemma adopts_valid w input : adopts w input = true ->
  env_ok (LogicLaws := shard_laws 2) (wk_logic w) demo_later /\ takes 2 (LL := shard_laws 2) (logic_begin_batch (wk_logic w) demo_later) input.
Proof.
  unfold adopts. destruct input as [| | |c|]; try done. destruct c as [h payload| | | | | | | | | | | |]; try done. intros H. bool_prop. split.
  - split; [|done]. split; [done|apply (so_workers _ demo_shared_ok)].
  - split; [|done]. split_and!; [done|done|]. intros ip E. congruence.
Qed.
Lemma demo_adopt_valid : event_valid 2 (LL := shard_laws 2) (demo_after demo_handover) (PlWork 1 demo_later).
Proof.
  intros w ch input Hw Hch Hin. apply adopts_valid.
  assert (Hi : match pl_workers (demo_after demo_handover) !! 1%nat, ro_inputs (pl_router (demo_after demo_handover)) !! 1%nat with
               | Some w, Some ch => match head (ch_items ch) with Some input => adopts w input | None => false end
               | _, _ => false
               end = true) by (vm_compute; reflexivity).
  by rewrite Hw, Hch, Hin in Hi.
Qed.
Lemma sharded_server_never_panics_witness :
  (exists p', plane_step (demo_after demo_handover) (PlWork 1 demo_later) = Ok p')
  /\ ro_endpoints (pl_router (demo_after demo_handover)) = {[(demo_peer, None) := 1]}
  /\ (fun w => size (sl_map (e_sessions (sd_engine (wk_logic w))))) <$> pl_workers (demo_after (demo_handover ++ [PlWork 1 demo_later])) = [0; 1]%nat.
Proof.
  split; [|split; vm_compute; reflexivity].
  destruct (sharded_server_never_panics 2 demo_credentials ∅ Safe (fun _ => 1) 1000 0 demo_shared demo_tx (ServerPool_new 8) (demo_after demo_handover)
    ltac:(lia) demo_shared_ok (ex_intro _ 4%nat (ex_intro _ 2%nat demo_tx_wf)) ltac:(constructor) demo_handover_reach) as (_ & _ & _ & Hstep).
  apply Hstep, demo_adopt_valid.
Defined.


Definition demo_local : LocalPlane ShardEngine ProtocolCommand := local_start (demo_engine 1) demo_tx.
Lemma unsharded_server_never_panics_witness :
  exists p', local_turn demo_local (ArmUdp demo_env [mkCall demo_env [UdpSent 1] (demo_peer, None, demo_bytes)]) [UdpSent 1] None = Ok p'.
Proof.
  apply (unsharded_server_never_panics demo_credentials ∅ Safe 1 1000 0 demo_shared demo_tx demo_local demo_shared_ok
    (ex_intro _ 4%nat (ex_intro _ 2%nat demo_tx_wf)) (local_reach_start _)).
  split; [split; [apply demo_shared_ok|apply Z.leb_le; vm_compute; reflexivity]|]. split; [|intros l' s' _; exact I].
  split; [apply Z.ltb_lt; vm_compute; reflexivity|]. apply demo_bytes_ok.
Defined.
