(* ===== verification/Socks.v ===== *)
(** * SOCKS5 and the packets of the transparent proxy

    The client half of SOCKS5 in [rust-server/proxy_route.rs] (handshake,
    addresses, datagrams), and in [rust-server/tproxy.rs] the destination of an
    intercepted datagram, the datagrams sent to the relay and the IPv4 packets
    written for the answers. *)

From S2P Require Import Prelude Text Sink Accounts Panel.

(** ** Addresses *)

Definition octets (a : SockAddr) : bytes := match a with SockV4 ip _ | SockV6 ip _ _ _ => ip end.
Definition port_of (a : SockAddr) : Z := match a with SockV4 _ p | SockV6 _ p _ _ => p end.
(** [SocketAddr::new(ip, port)] *)
Definition SockAddr_new (ip : IpAddr) (port : Z) : SockAddr := match ip with IpV4 o => SockV4 o port | IpV6 o => SockV6 o port 0 0 end.
Definition is_unspecified (a : SockAddr) : bool := forallb (fun b => b =? 0) (octets a).
Definition LOCALHOST : IpAddr := IpV4 [127; 0; 0; 1].

Definition append_socks_address (target : bytes) (address : SockAddr) : bytes :=
  target ++ (match address with SockV4 ip _ => 1 :: ip | SockV6 ip _ _ _ => 4 :: ip end) ++ be_bytes 2 (port_of address).

(** ** The connection to the proxy

    [cn_in] is what the proxy sends before it closes, [cn_out] what was written to
    it; a write fails where [cn_writes] says so. *)
Record Conn := mkConn { cn_in : bytes; cn_out : bytes; cn_writes : list bool }.
Inductive SocksError := ConnectionLost | MethodRejected | BadCredentials | CommandFailed (reply : Z) | BadAddressType | BadHost | Unresolved.
Abbreviation socks := (effect Conn SocksError).
Definition fails {A : Type} (e : SocksError) : socks A := fun c => (Err e, c).
Definition write_all (data : bytes) : socks unit := fun c =>
  match cn_writes c with
  | false :: l => (Err ConnectionLost, mkConn (cn_in c) (cn_out c) l)
  | l => (Ok tt, mkConn (cn_in c) (cn_out c ++ data) (tail l))
  end.
Definition read_exact (n : Z) : socks bytes := fun c =>
  if len (cn_in c) <? n then (Err ConnectionLost, c)
  else (Ok (sub (cn_in c) 0 n), mkConn (drop (Z.to_nat n) (cn_in c)) (cn_out c) (cn_writes c)).
Definition lifted {A : Type} (r : result SocksError A) : socks A := fun c => (r, c).

Section Handshake.
(** [tokio::net::lookup_host] *)
Context (lookup_host : bytes -> Z -> option (list SockAddr)).

Definition read_socks_address (atyp : Z) : socks SockAddr :=
  if atyp =? 1 then
    bs ← read_exact 6;
    ip ← lifted (slice bs 0 4); a ← lifted (at_ bs 4); b ← lifted (at_ bs 5);
    mret (SockV4 ip (be16 a b))
  else if atyp =? 4 then
    bs ← read_exact 18;
    ip ← lifted (slice bs 0 16); a ← lifted (at_ bs 16); b ← lifted (at_ bs 17);
    mret (SockV6 ip (be16 a b) 0 0)
  else if atyp =? 3 then
    l ← read_exact 1; length ← lifted (at_ l 0);
    bs ← read_exact (length + 2);
    host ← lifted (slice bs 0 length);
    if negb (utf8_valid host) then fails BadHost else
    a ← lifted (at_ bs length); b ← lifted (at_ bs (length + 1));
    match lookup_host host (be16 a b) with
    | None => fails ConnectionLost
    | Some [] => fails Unresolved
    | Some (address :: _) => mret address
    end
  else fails BadAddressType.

Definition method_of (config : LocalProxyProfile) : Z := if bool_decide (lp_username config = []) then 0 else 2.
Definition auth_message (config : LocalProxyProfile) : bytes :=
  [1; u8_of (len (lp_username config))] ++ lp_username config ++ [u8_of (len (lp_password config))] ++ lp_password config.
(** [socks_command], after the connection. *)
Definition socks_command (config : LocalProxyProfile) (command : Z) (destination : SockAddr) : socks SockAddr :=
  let method := method_of config in
  _ ← write_all [5; 1; method];
  greeting ← read_exact 2;
  if negb (bytes_eqb greeting [5; method]) then fails MethodRejected else
  _ ← (if method =? 2 then
         _ ← write_all (auth_message config);
         response ← read_exact 2;
         if negb (bytes_eqb response [1; 0]) then fails BadCredentials else mret tt
       else mret tt);
  _ ← write_all (append_socks_address [5; command; 0] destination);
  response ← read_exact 4;
  r0 ← lifted (at_ response 0); r1 ← lifted (at_ response 1); r2 ← lifted (at_ response 2); r3 ← lifted (at_ response 3);
  if negb ((r0 =? 5) && (r1 =? 0) && (r2 =? 0)) then fails (CommandFailed r1) else
  bound ← read_socks_address r3;
  mret (if is_unspecified bound then SockAddr_new LOCALHOST (port_of bound) else bound).
End Handshake.

(** ** Datagrams of an association *)

(** The header [send_frame] puts before a payload. *)
Definition send_frame (ip : bytes) (port : Z) (payload : bytes) : bytes := ([0; 0; 0; 1] ++ ip ++ be_bytes 2 port) ++ payload.

Definition socks_udp_response (packet : bytes) : opt (SockAddr * bytes) :=
  if len packet <? 4 then none else
  p0 ← at_ packet 0; p1 ← at_ packet 1; p2 ← at_ packet 2;
  if negb (p0 =? 0) || negb (p1 =? 0) || negb (p2 =? 0) then none else
  p3 ← at_ packet 3;
  address_len ← (if p3 =? 1 then Ok 4 else if p3 =? 4 then Ok 16 else none);
  let header_end := 4 + address_len + 2 in
  if len packet <? header_end then none else
  address ← slice packet 4 (4 + address_len);
  let ip := if address_len =? 4 then IpV4 address else IpV6 address in
  a ← at_ packet (4 + address_len); b ← at_ packet (5 + address_len);
  payload ← slice_from packet header_end;
  Ok (SockAddr_new ip (be16 a b), payload).

(** ** Packets for the client *)

(** [sum], in 32 bits. *)
Fixpoint word_sum (l : bytes) : opt Z :=
  match l with
  | [] => Ok 0
  | [_] => Panic
  | a :: b :: l => n ← word_sum l; Ok (u32_of (be16 a b + n))
  end.
Fixpoint fold_carries (fuel : nat) (sum : Z) : Z :=
  match fuel with
  | O => sum
  | S fuel => if Z.shiftr sum 16 =? 0 then sum else fold_carries fuel (Z.land sum 0xffff + Z.shiftr sum 16)
  end.
Definition calc_checksum (header : bytes) : opt Z :=
  sum ← word_sum header; Ok (u16_of (Z.lnot (fold_carries 3 sum))).

(** The packet of [send_reply]; without one, it is too long. *)
Definition reply_header (source_ip dest_ip : bytes) (source_port dest_port : Z) (payload : bytes) : opt bytes :=
  let total_len := 20 + 8 + len payload in
  let ip_header checksum := [0x45; 0] ++ be_bytes 2 total_len ++ [0; 0; 0; 0; 64; 17] ++ be_bytes 2 checksum ++ source_ip ++ dest_ip in
  ip_checksum ← calc_checksum (ip_header 0);
  Ok (ip_header ip_checksum ++ be_bytes 2 source_port ++ be_bytes 2 dest_port ++ be_bytes 2 (u16_of (8 + len payload)) ++ [0; 0]).
Definition send_reply (source_ip dest_ip : bytes) (source_port dest_port : Z) (payload : bytes) : opt (option bytes) :=
  if 65535 <? 20 + 8 + len payload then Ok None else
  header ← reply_header source_ip dest_ip source_port dest_port payload;
  Ok (Some (header ++ payload)).

(** ** Where an intercepted datagram was going *)

(** Little-endian, the layout of the control messages. *)
Definition le_val (l : bytes) : Z := be_val (reverse l).
Definition CMSG_HEADER : Z := 16.
Definition IPPROTO_IP : Z := 0.
Definition IP_RECVORIGDSTADDR : Z := 20.
Definition SOCKADDR_IN : Z := 16.
Definition AF_INET : Z := 2.
Definition read_sockaddr (data : bytes) : opt (option SockAddr) :=
  if len data <? SOCKADDR_IN then Ok None else
  family ← slice data 0 2; port ← slice data 2 4; ip ← slice data 4 8;
  Ok (if le_val family =? AF_INET then Some (SockV4 ip (be_val port)) else None).
Fixpoint orig_dst_loop (fuel : nat) (control : bytes) : opt SockAddr :=
  match fuel with
  | O => none
  | S fuel =>
      if len control <? CMSG_HEADER then none else
      l ← slice control 0 8; level ← slice control 8 12; type ← slice control 12 16;
      let length := le_val l in
      if (length <? CMSG_HEADER) || (len control <? length) then none else
      found ← (if (le_val level =? IPPROTO_IP) && (le_val type =? IP_RECVORIGDSTADDR)
               then data ← slice control CMSG_HEADER length; read_sockaddr data else Ok None);
      match found with
      | Some address => Ok address
      | None =>
          let advance := Z.land (length + 3) (Z.lnot 3) in
          rest ← slice_from control (Z.min advance (len control));
          orig_dst_loop fuel rest
      end
  end.
Definition parse_orig_dst (control : bytes) : opt SockAddr := orig_dst_loop (S (length control)) control.

(** [allowed_client]: the clients of [TUN_SUBNET]. *)
Definition TUN_SUBNET : bytes := b_ "10.66.67.0/24".
Definition subnet : option (Z * Z) :=
  match split_once 47 TUN_SUBNET with
  | None => None
  | Some (base, bits) =>
      match parse_ipv4 base, parse_uint U32_MAX bits with
      | Some base, Some bits => if (bits =? 0) || (32 <? bits) then None else Some (be_val base, bits)
      | _, _ => None
      end
  end.
Definition allowed_client (ip : bytes) : bool :=
  match subnet with
  | None => true
  | Some (base, bits) =>
      let mask := if bits =? 32 then U32_MAX else u32_of (Z.shiftl U32_MAX (32 - bits)) in
      Z.land (be_val ip) mask =? Z.land base mask
  end.

(** ** The other side of the handshake

    RFC 1928 and RFC 1929: the messages of a client, as a proxy reads them. *)
Definition wf_sock (a : SockAddr) : Prop :=
  match a with
  | SockV4 ip p => len ip = 4 /\ wf_bytes ip /\ is_u16 p
  | SockV6 ip p _ _ => len ip = 16 /\ wf_bytes ip /\ is_u16 p
  end.
(** What SOCKS keeps of an address. *)
Definition plain (a : SockAddr) : SockAddr := match a with SockV4 ip p => SockV4 ip p | SockV6 ip p _ _ => SockV6 ip p 0 0 end.
Definition split_n (n : Z) (l : bytes) : option (bytes * bytes) :=
  if len l <? n then None else Some (sub l 0 n, drop (Z.to_nat n) l).
Definition parse_address (l : bytes) : option (SockAddr * bytes) :=
  match l with
  | 1 :: l => '(ip, l) ← split_n 4 l; '(p, l) ← split_n 2 l; Some (SockV4 ip (be_val p), l)
  | 4 :: l => '(ip, l) ← split_n 16 l; '(p, l) ← split_n 2 l; Some (SockV6 ip (be_val p) 0 0, l)
  | _ => None
  end.
Definition parse_credentials (l : bytes) : option ((bytes * bytes) * bytes) :=
  match l with
  | 1 :: n :: l =>
      '(user, l) ← split_n n l;
      '(m, l) ← split_n 1 l;
      '(password, l) ← split_n (be_val m) l;
      Some ((user, password), l)
  | _ => None
  end.
Record Handshake := mkHandshake { hs_credentials : option (bytes * bytes); hs_command : Z; hs_destination : SockAddr }.
Definition parse_handshake (l : bytes) : option Handshake :=
  match l with
  | 5 :: 1 :: method :: l =>
      '(credentials, l) ← (if method =? 2 then '(c, l) ← parse_credentials l; Some (Some c, l) else if method =? 0 then Some (None, l) else None);
      match l with
      | 5 :: command :: 0 :: l => '(d, l) ← parse_address l; if bool_decide (l = []) then Some (mkHandshake credentials command d) else None
      | _ => None
      end
  | _ => None
  end.
(** The answers of a proxy that accepts and is bound to [bound]. *)
Definition accepting (config : LocalProxyProfile) (bound : SockAddr) : bytes :=
  [5; method_of config] ++ (if method_of config =? 2 then [1; 0] else []) ++ append_socks_address [5; 0; 0] bound.

(** ** Lemmas on the connection *)

Lemma read_exact_app a r o w n : n = len a -> read_exact n (mkConn (a ++ r) o w) = (Ok a, mkConn r o w).
Proof.
  intros ->. unfold read_exact. cbn [cn_in cn_out cn_writes]. rewrite len_app. pose proof (len_nonneg r).
  replace (_ <? _) with false by lia. rewrite sub_app_begin by done. unfold len. by rewrite Nat2Z.id, drop_app_length.
Qed.
Lemma split_n_app a r n : n = len a -> split_n n (a ++ r) = Some (a, r).
Proof.
  intros ->. unfold split_n. rewrite len_app. pose proof (len_nonneg r). replace (_ <? _) with false by lia.
  rewrite sub_app_begin by done. unfold len. by rewrite Nat2Z.id, drop_app_length.
Qed.
Lemma be16_be_bytes p : is_u16 p -> be16 ((p / 256) mod 256) (p mod 256) = p.
Proof.
  intros Hp. pose proof (be_val_be_bytes_id 2 p) as H. cbn [be_bytes] in H. change (256 ^ Z.of_nat 1) with 256 in H. change (256 ^ Z.of_nat 0) with 1 in H.
  rewrite Z.div_1_r in H. unfold be16. apply H. exact Hp.
Qed.
Lemma be_bytes_2 p : be_bytes 2 p = [(p / 256) mod 256; p mod 256].
Proof. cbn [be_bytes]. change (256 ^ Z.of_nat 1) with 256. change (256 ^ Z.of_nat 0) with 1. by rewrite Z.div_1_r. Qed.
Lemma split_port p r : is_u16 p -> split_n 2 (be_bytes 2 p ++ r) = Some (be_bytes 2 p, r).
Proof. intros. by apply split_n_app. Qed.

(** The type and the body of an encoded address. *)
Lemma append_address_eq t a :
  append_socks_address t a = t ++ (match a with SockV4 _ _ => 1 | SockV6 _ _ _ _ => 4 end) :: octets a ++ be_bytes 2 (port_of a).
Proof. by destruct a. Qed.
Lemma parse_address_append a : wf_sock a -> parse_address (append_socks_address [] a) = Some (plain a, []).
Proof.
  rewrite append_address_eq. destruct a as [ip p|ip p f s]; cbn [wf_sock octets port_of app plain parse_address]; intros (Hl & _ & Hp);
    rewrite (split_n_app ip) by done; cbn [mbind option_bind]; rewrite <- (app_nil_r (be_bytes 2 p)), split_port by done; cbn [mbind option_bind];
    by rewrite be_val_be_bytes_id.
Qed.

Lemma lifted_step {A B : Type} (r : result SocksError A) (f : A -> socks B) a c : r = Ok a -> (lifted r ≫= f) c = f a c.
Proof. intros ->. done. Qed.
Lemma read_address_encoded lookup a rest o w : wf_sock a ->
  read_socks_address lookup (match a with SockV4 _ _ => 1 | SockV6 _ _ _ _ => 4 end) (mkConn (octets a ++ be_bytes 2 (port_of a) ++ rest) o w)
  = (Ok (plain a), mkConn rest o w).
Proof.
  intros Hwf. rewrite app_assoc. destruct a as [ip p|ip p f s]; destruct Hwf as (Hl & _ & Hp); unfold read_socks_address; cbn [octets port_of Z.eqb Pos.eqb];
    (erewrite effect_step by (apply read_exact_app; rewrite len_app, len_be_bytes; lia));
    (erewrite lifted_step by (by apply (slice_eq _ [] ip (be_bytes 2 p)); rewrite ?len_nil, ?Hl));
    rewrite be_bytes_2;
    (erewrite lifted_step by (rewrite at_app_r by lia; rewrite Hl; reflexivity));
    (erewrite lifted_step by (rewrite at_app_r by lia; rewrite Hl; reflexivity));
    unfold mret, effect_ret; cbn [plain]; by rewrite be16_be_bytes.
Qed.

(** ** The handshake *)

Lemma write_all_ok d i o : write_all d (mkConn i o []) = (Ok tt, mkConn i (o ++ d) []).
Proof. done. Qed.
Definition credentials_of (config : LocalProxyProfile) : option (bytes * bytes) :=
  if method_of config =? 2 then Some (lp_username config, lp_password config) else None.
(** The messages in the order they are written. *)
Definition messages (config : LocalProxyProfile) (command : Z) (destination : SockAddr) : list bytes :=
  [[5; 1; method_of config]] ++ (if method_of config =? 2 then [auth_message config] else []) ++ [append_socks_address [5; command; 0] destination].
Definition localised (bound : SockAddr) : SockAddr := if is_unspecified bound then SockAddr_new LOCALHOST (port_of bound) else bound.

Lemma method_cases config : method_of config = 0 \/ method_of config = 2.
Proof. unfold method_of. case_bool_decide; auto. Qed.
Lemma validate_lengths config : validate_config config = None -> len (lp_username config) <= 255 /\ len (lp_password config) <= 255.
Proof. unfold validate_config. repeat (split_case; try discriminate). intros _. bool_prop. lia. Qed.
Lemma u8_of_len {A} (l : list A) : len l <= 255 -> u8_of (len l) = len l.
Proof. intros. pose proof (len_nonneg l). apply Z.mod_small. lia. Qed.
Lemma parse_credentials_auth config r : validate_config config = None ->
  parse_credentials (auth_message config ++ r) = Some ((lp_username config, lp_password config), r).
Proof.
  intros [Hu Hp]%validate_lengths. unfold auth_message, parse_credentials. cbn [app]. rewrite !u8_of_len by done. rewrite <- app_assoc.
  rewrite split_n_app by done. cbn [mbind option_bind]. rewrite <- ?app_comm_cons.
  rewrite (split_n_app [len (lp_password config)] (lp_password config ++ r)) by done. cbn [mbind option_bind].
  change (be_val [len (lp_password config)]) with (len (lp_password config)).
  by rewrite split_n_app.
Qed.
Lemma parse_handshake_messages config command d : validate_config config = None -> wf_sock d ->
  parse_handshake (concat (messages config command d)) = Some (mkHandshake (credentials_of config) command (plain d)).
Proof.
  intros Hv Hd. unfold messages, credentials_of. pose proof (parse_address_append d Hd) as Ha. rewrite append_address_eq in *.
  destruct (method_cases config) as [-> | ->]; cbn [Z.eqb Pos.eqb app concat parse_handshake mbind option_bind]; rewrite ?app_nil_r.
  - rewrite app_nil_l in Ha. rewrite Ha. cbn [mbind option_bind]. by rewrite bool_decide_eq_true_2.
  - rewrite parse_credentials_auth by done. cbn [mbind option_bind]. rewrite app_nil_l in Ha. rewrite Ha. cbn [mbind option_bind]. by rewrite bool_decide_eq_true_2.
Qed.

Lemma is_unspecified_plain a : is_unspecified (plain a) = is_unspecified a.
Proof. by destruct a. Qed.
Lemma localised_plain a : (if is_unspecified (plain a) then SockAddr_new LOCALHOST (port_of (plain a)) else plain a) = localised (plain a).
Proof. done. Qed.

(** The last exchange: the command and its answer. *)
Lemma command_answered lookup bound rest o : wf_sock bound ->
  (response ← read_exact 4;
   r0 ← lifted (at_ response 0); r1 ← lifted (at_ response 1); r2 ← lifted (at_ response 2); r3 ← lifted (at_ response 3);
   if negb ((r0 =? 5) && (r1 =? 0) && (r2 =? 0)) then fails (CommandFailed r1) else
   b ← read_socks_address lookup r3;
   mret (if is_unspecified b then SockAddr_new LOCALHOST (port_of b) else b))
    (mkConn (append_socks_address [5; 0; 0] bound ++ rest) o [])
  = (Ok (localised (plain bound)), mkConn rest o []).
Proof.
  intros Hb. rewrite append_address_eq. set (t := match bound with SockV4 _ _ => 1 | SockV6 _ _ _ _ => 4 end).
  replace (([5; 0; 0] ++ t :: octets bound ++ be_bytes 2 (port_of bound)) ++ rest) with ([5; 0; 0; t] ++ octets bound ++ be_bytes 2 (port_of bound) ++ rest)
    by (cbn [app]; by rewrite <- app_assoc).
  erewrite effect_step by (by apply read_exact_app).
  erewrite lifted_step by reflexivity. erewrite lifted_step by reflexivity. erewrite lifted_step by reflexivity. erewrite lifted_step by reflexivity.
  cbn [Z.eqb Pos.eqb andb negb]. erewrite effect_step by (by apply read_address_encoded). done.
Qed.

(** C20. With a configuration the panel accepts, a proxy that answers each message as RFC 1928
    and RFC 1929 prescribe reads exactly the configured method and credentials, the command and
    the destination from what [socks_command] writes, and the call returns the address the proxy
    is bound to, the loopback address where that one is unspecified; nothing past the answers is
    consumed. *)
Theorem socks_command_conforms lookup config command destination bound rest :
  validate_config config = None -> wf_sock destination -> wf_sock bound ->
  exists out, socks_command lookup config command destination (mkConn (accepting config bound ++ rest) [] []) = (Ok (localised (plain bound)), mkConn rest out [])
    /\ parse_handshake out = Some (mkHandshake (credentials_of config) command (plain destination)).
Proof.
  intros Hv Hd Hb. exists (concat (messages config command destination)). split; [|by apply parse_handshake_messages].
  unfold socks_command, accepting, messages. rewrite (effect_step _ _ _ _ _ (write_all_ok _ _ _)), app_nil_l, <- app_assoc.
  erewrite effect_step by (by apply read_exact_app). unfold bytes_eqb. rewrite bool_decide_eq_true_2 by done. cbn [negb].
  destruct (method_cases config) as [Hm | Hm]; rewrite Hm; cbn [Z.eqb Pos.eqb].
  - rewrite app_nil_l. erewrite effect_step by reflexivity. rewrite (effect_step _ _ _ _ _ (write_all_ok _ _ _)). rewrite command_answered by done.
    cbn [concat app]. by rewrite app_nil_r.
  - erewrite effect_step.
    2: { rewrite (effect_step _ _ _ _ _ (write_all_ok _ _ _)), <- app_assoc. erewrite effect_step by (by apply (read_exact_app [1; 0])).
         rewrite bool_decide_eq_true_2 by done. reflexivity. }
    rewrite (effect_step _ _ _ _ _ (write_all_ok _ _ _)), command_answered by done. cbn [concat app]. rewrite app_nil_r. done.
Qed.

(** ** Whatever the proxy does *)

(** The step writes nothing, does not panic, and its value satisfies [P]. *)
Definition quiet {A : Type} (m : socks A) (P : A -> Prop) : Prop :=
  forall c, wf_bytes (cn_in c) -> cn_out (m c).2 = cn_out c /\ wf_bytes (cn_in (m c).2) /\ match (m c).1 with Ok a => P a | Err _ => True | Panic => False end.
Lemma quiet_bind {A B : Type} (m : socks A) (f : A -> socks B) P Q : quiet m P -> (forall a, P a -> quiet (f a) Q) -> quiet (m ≫= f) Q.
Proof.
  intros Hm Hf c Hc. destruct (Hm c Hc) as (Ho & Hw & Hr). unfold mbind, effect_bind. destruct (m c) as [[a|e|] c']; cbn [fst snd] in *; try done.
  destruct (Hf a Hr c' Hw) as (Ho' & ? & ?). by rewrite Ho'.
Qed.
Lemma quiet_ret {A : Type} (a : A) (P : A -> Prop) : P a -> quiet (mret a) P.
Proof. done. Qed.
Lemma quiet_fails {A : Type} e (P : A -> Prop) : quiet (fails e) P.
Proof. done. Qed.
Lemma quiet_lifted {A : Type} (r : result SocksError A) (P : A -> Prop) : yields r P -> quiet (lifted r) P.
Proof. by intros (a & -> & Ha). Qed.
Lemma quiet_read n : 0 <= n -> quiet (read_exact n) (fun a => len a = n /\ wf_bytes a).
Proof.
  intros Hn c Hc. unfold read_exact. split_case; cbn [fst snd cn_in cn_out]; [done|]. bool_prop.
  repeat split; [by apply Forall_drop|rewrite len_sub; lia|by apply wf_sub].
Qed.
Lemma yields_at {A : Type} (l : list A) i : 0 <= i < len l -> yields (E := SocksError) (at_ l i) (fun _ => True).
Proof. intros H. destruct (@at_ok SocksError A l i H) as (b & -> & _). by apply yields_ret. Qed.
Lemma yields_slice {A : Type} (l : list A) i j : 0 <= i -> i <= j -> j <= len l -> yields (E := SocksError) (slice l i j) (fun _ => True).
Proof. intros. rewrite slice_ok by done. by apply yields_ret. Qed.
#[local] Hint Resolve quiet_fails quiet_ret : csqtt.

Lemma quiet_read_address lookup atyp : quiet (read_socks_address lookup atyp) (fun _ => True).
Proof.
  unfold read_socks_address. split_case; [|split_case; [|split_case; [|auto with csqtt]]].
  1, 2: eapply quiet_bind; [apply quiet_read; lia|intros bs [Hl _]]; eapply quiet_bind; [apply quiet_lifted, yields_slice; lia|intros ? _];
    eapply quiet_bind; [apply quiet_lifted, yields_at; lia|intros ? _]; eapply quiet_bind; [apply quiet_lifted, yields_at; lia|intros ? _]; by apply quiet_ret.
  eapply quiet_bind; [apply quiet_read; lia|intros l [Hl Hw]].
  eapply (quiet_bind _ _ (fun n => 0 <= n)).
  - apply quiet_lifted. destruct (@at_ok SocksError Z l 0 ltac:(lia)) as (b & Hb & _). rewrite Hb. apply yields_ret. by apply at_byte in Hb as []; [|done].
  - intros n Hn. eapply quiet_bind; [apply quiet_read; lia|intros bs [Hb _]]. eapply quiet_bind; [apply quiet_lifted, yields_slice; lia|intros host _].
    split_case; [auto with csqtt|]. eapply quiet_bind; [apply quiet_lifted, yields_at; lia|intros ? _]. eapply quiet_bind; [apply quiet_lifted, yields_at; lia|intros ? _].
    by repeat split_case.
Qed.
(** What follows the request. *)
Definition answer (lookup : bytes -> Z -> option (list SockAddr)) : socks SockAddr :=
  response ← read_exact 4;
  r0 ← lifted (at_ response 0); r1 ← lifted (at_ response 1); r2 ← lifted (at_ response 2); r3 ← lifted (at_ response 3);
  if negb ((r0 =? 5) && (r1 =? 0) && (r2 =? 0)) then fails (CommandFailed r1) else
  b ← read_socks_address lookup r3;
  mret (if is_unspecified b then SockAddr_new LOCALHOST (port_of b) else b).
Lemma quiet_answer lookup : quiet (answer lookup) (fun _ => True).
Proof.
  eapply quiet_bind; [apply quiet_read; lia|intros bs [Hl _]].
  do 4 (eapply quiet_bind; [apply quiet_lifted, yields_at; lia|intros ? _]).
  split_case; [auto with csqtt|]. eapply quiet_bind; [apply quiet_read_address|intros ? _]. by apply quiet_ret.
Qed.

Lemma write_all_cases d c : exists l, write_all d c = (Ok tt, mkConn (cn_in c) (cn_out c ++ d) l) \/ write_all d c = (Err ConnectionLost, mkConn (cn_in c) (cn_out c) l).
Proof. unfold write_all. destruct (cn_writes c) as [|[] l]; eauto. Qed.
(** The request and its answer, the [j] messages before it written. *)
Lemma request_outcome lookup config command d c o j : wf_bytes (cn_in c) -> cn_out c = o ++ concat (take j (messages config command d)) ->
  messages config command d !! j = Some (append_socks_address [5; command; 0] d) -> length (messages config command d) = S j ->
  exists k, let '(r, c') := (write_all (append_socks_address [5; command; 0] d) ≫= fun _ => answer lookup) c in
    r <> Panic /\ cn_out c' = o ++ concat (take k (messages config command d)) /\ (r <> Err ConnectionLost -> k = S j) /\ (j <= k)%nat.
Proof.
  intros Hc Ho Hj Hlen. destruct (write_all_cases (append_socks_address [5; command; 0] d) c) as (l & [Hw | Hw]).
  - exists (S j). rewrite (effect_step _ _ _ _ _ Hw). pose proof (quiet_answer lookup (mkConn (cn_in c) (cn_out c ++ append_socks_address [5; command; 0] d) l) Hc) as (Ha & _ & Hr).
    destruct (answer lookup _) as [r c']. cbn [fst snd cn_out] in *. repeat split; [by destruct r| |lia]. rewrite Ha, Ho, (take_S_r _ _ _ Hj), concat_app. cbn [concat]. by rewrite app_nil_r, app_assoc.
  - exists j. rewrite (effect_stop _ _ _ _ _ Hw). repeat split; [done|done|done|lia].
Qed.

Lemma read_exact_cases n c : 0 <= n ->
  (exists a r, cn_in c = a ++ r /\ len a = n /\ read_exact n c = (Ok a, mkConn r (cn_out c) (cn_writes c))) \/ read_exact n c = (Err ConnectionLost, c).
Proof.
  intros Hn. unfold read_exact. split_case; [by right|]. bool_prop. left. exists (sub (cn_in c) 0 n), (drop (Z.to_nat n) (cn_in c)).
  split_and!; [|rewrite len_sub; lia|done]. unfold sub. rewrite Z.sub_0_r. change (Z.to_nat 0) with 0%nat. by rewrite drop_0, take_drop.
Qed.
(** [k] messages were written, more than the first only with the consent of the proxy. *)
Definition outcome (config : LocalProxyProfile) (command : Z) (d : SockAddr) (c : Conn) (rc : result SocksError SockAddr * Conn) : Prop :=
  rc.1 <> Panic /\ exists k, cn_out rc.2 = cn_out c ++ concat (take k (messages config command d))
    /\ ((1 < k)%nat -> starts_with (cn_in c) [5; method_of config] = true)
    /\ ((exists a, rc.1 = Ok a) -> (length (messages config command d) <= k)%nat).
Lemma outcome_request lookup config command d c c' i j : wf_bytes (cn_in c') -> cn_in c = [5; method_of config] ++ i ->
  cn_out c' = cn_out c ++ concat (take j (messages config command d)) ->
  messages config command d !! j = Some (append_socks_address [5; command; 0] d) -> length (messages config command d) = S j ->
  outcome config command d c ((write_all (append_socks_address [5; command; 0] d) ≫= fun _ => answer lookup) c').
Proof.
  intros Hc Hi Ho Hj Hlen. destruct (request_outcome lookup config command d c' (cn_out c) j Hc Ho Hj Hlen) as (k & H).
  destruct (write_all _ ≫= _) as [r c'']. destruct H as (Hp & Hk & He & Hjk). split; [done|]. exists k. split; [done|]. split.
  - intros _. rewrite Hi. apply starts_with_app.
  - intros [a Ha]. cbn [fst] in Ha. rewrite Hlen, He; [done|]. by rewrite Ha.
Qed.
Lemma outcome_err config command d c c' e k : cn_out c' = cn_out c ++ concat (take k (messages config command d)) ->
  ((1 < k)%nat -> starts_with (cn_in c) [5; method_of config] = true) -> outcome config command d c (Err e, c').
Proof. intros. split; [done|]. exists k. split_and!; [done|done|]. by intros [? [=]]. Qed.

(** C26. Whatever the proxy sends, however much of it, and whichever write fails, [socks_command]
    does not panic and writes a prefix of its messages, in order; the credentials and the request
    leave only after the proxy selected the method that was offered, and a bound address is
    returned only when all of them have. *)
Theorem socks_command_outcome lookup config command d c : wf_bytes (cn_in c) -> outcome config command d c (socks_command lookup config command d c).
Proof.
  intros Hc. unfold socks_command. fold (answer lookup). destruct (write_all_cases [5; 1; method_of config] c) as (l & [Hw | Hw]).
  2: { rewrite (effect_stop _ _ _ _ _ Hw). apply (outcome_err _ _ _ _ _ _ 0); [by rewrite app_nil_r|lia]. }
  rewrite (effect_step _ _ _ _ _ Hw). set (c1 := mkConn _ _ l).
  assert (H1 : cn_out c1 = cn_out c ++ concat (take 1 (messages config command d))) by (cbn [c1 cn_out]; unfold messages; cbn [app take concat]; by rewrite ?take_0).
  destruct (read_exact_cases 2 c1 ltac:(lia)) as [(g & i & Hi & Hl & Hr) | Hr]; [|rewrite (effect_stop _ _ _ _ _ Hr); apply (outcome_err _ _ _ _ _ _ 1); [done|lia]].
  rewrite (effect_step _ _ _ _ _ Hr). destruct (bytes_eqb g _) eqn:Hg; [|apply (outcome_err _ _ _ _ _ _ 1); [done|lia]]. apply bool_decide_eq_true in Hg as ->. cbn [negb]. cbn [c1 cn_in] in Hi.
  assert (Hwi : wf_bytes i) by (rewrite Hi in Hc; by apply wf_app in Hc as []).
  destruct (method_cases config) as [Hm | Hm]; rewrite Hm in *; cbn [Z.eqb Pos.eqb].
  { erewrite effect_step by reflexivity. apply (outcome_request _ _ _ _ _ _ i 1); [done|by rewrite Hm|done|unfold messages; by rewrite Hm..]. }
  set (c2 := mkConn _ _ _). destruct (write_all_cases (auth_message config) c2) as (l2 & [Hw2 | Hw2]).
  2: { rewrite (effect_stop _ _ c2 ConnectionLost _ (effect_stop _ _ _ _ _ Hw2)). apply (outcome_err _ _ _ _ _ _ 1); [done|lia]. }
  set (c3 := mkConn _ _ l2) in Hw2.
  assert (H3 : cn_out c3 = cn_out c ++ concat (take 2 (messages config command d))).
  { cbn [c3 c2 cn_out]. rewrite H1. unfold messages. rewrite Hm. cbn [app take concat Z.eqb Pos.eqb]. by rewrite ?take_0, ?app_nil_r, <- app_assoc. }
  assert (Hs : (1 < 2)%nat -> starts_with (cn_in c) [5; method_of config] = true) by (intros _; rewrite Hi, Hm; apply starts_with_app).
  destruct (read_exact_cases 2 c3 ltac:(lia)) as [(a & i' & Hi' & _ & Hr3) | Hr3].
  2: { erewrite effect_stop by (rewrite (effect_step _ _ _ _ _ Hw2), (effect_stop _ _ _ _ _ Hr3); reflexivity). by apply (outcome_err _ _ _ _ _ _ 2). }
  destruct (bytes_eqb a [1; 0]) eqn:Ha.
  2: { erewrite effect_stop by (rewrite (effect_step _ _ _ _ _ Hw2), (effect_step _ _ _ _ _ Hr3), Ha; reflexivity). by apply (outcome_err _ _ _ _ _ _ 2). }
  erewrite effect_step by (rewrite (effect_step _ _ _ _ _ Hw2), (effect_step _ _ _ _ _ Hr3), Ha; reflexivity).
  apply (outcome_request _ _ _ _ _ _ i 2); [|by rewrite Hm|done|unfold messages; by rewrite Hm..]. cbn [c3 c2 cn_in] in Hi'. rewrite Hi' in Hwi. by apply wf_app in Hwi as [].
Qed.

(** ** Datagrams of an association *)

Lemma send_frame_eq ip port payload : send_frame ip port payload = append_socks_address [0; 0; 0] (SockV4 ip port) ++ payload.
Proof. unfold send_frame. rewrite append_address_eq. cbn [app octets port_of]. by rewrite <- !app_assoc. Qed.
Lemma be_bytes_be16 a b : is_u8 a -> is_u8 b -> be_bytes 2 (be16 a b) = [a; b].
Proof. intros. apply (be_bytes_be_val [a; b]). constructor; [done|]. by apply Forall_singleton. Qed.
Lemma be16_range a b : is_u8 a -> is_u8 b -> is_u16 (be16 a b).
Proof. unfold is_u8, is_u16, be16, be_val. cbn [foldl]. lia. Qed.

Lemma udp_fields t ip a b payload n : len ip = n ->
  let packet := [0; 0; 0; t] ++ ip ++ [a; b] ++ payload in
  @slice unit Z packet 4 (4 + n) = Ok ip /\ @at_ unit Z packet (4 + n) = Ok a /\ @at_ unit Z packet (5 + n) = Ok b /\ @slice_from unit Z packet (4 + n + 2) = Ok payload.
Proof.
  intros Hl packet. split_and!.
  - apply (slice_eq _ [0; 0; 0; t] ip ([a; b] ++ payload)); [done|done|by rewrite Hl].
  - apply (at_eq _ ([0; 0; 0; t] ++ ip) ([b] ++ payload)); [by rewrite <- app_assoc|by rewrite len_app, Hl].
  - apply (at_eq _ (([0; 0; 0; t] ++ ip) ++ [a]) payload); [by rewrite <- !app_assoc|rewrite !len_app, Hl, !len_cons, len_nil; lia].
  - apply (slice_eq _ (([0; 0; 0; t] ++ ip) ++ [a; b]) payload []); [by rewrite <- !app_assoc, app_nil_r|rewrite !len_app, Hl, !len_cons, len_nil; lia|].
    unfold packet. rewrite !len_app, !len_cons, len_nil. lia.
Qed.
Lemma udp_response_ok a payload : wf_sock a -> socks_udp_response (append_socks_address [0; 0; 0] a ++ payload) = Ok (plain a, payload).
Proof.
  intros Hwf. rewrite append_address_eq. pose proof (len_nonneg payload).
  destruct a as [ip p|ip p f s]; destruct Hwf as (Hl & _ & Hp); cbn [octets port_of app]; rewrite be_bytes_2, <- !app_assoc.
  1: destruct (udp_fields 1 ip ((p / 256) mod 256) (p mod 256) payload 4 Hl) as (H1 & H2 & H3 & H4).
  2: destruct (udp_fields 4 ip ((p / 256) mod 256) (p mod 256) payload 16 Hl) as (H1 & H2 & H3 & H4).
  all: cbn [app] in *; unfold socks_udp_response; rewrite !len_cons, !len_app, Hl, !len_cons; (replace (_ <? 4) with false by lia);
    cbn [at_ Z.leb Z.to_nat lookup list_lookup mbind result_bind Z.eqb negb orb]; (erewrite (at_eq _ [0; 0; 0] _ _ 3) by reflexivity);
    cbn [mbind result_bind Z.eqb Pos.eqb]; (replace (_ <? _) with false by lia); rewrite H1; cbn [mbind result_bind];
    rewrite H2; cbn [mbind result_bind]; rewrite H3; cbn [mbind result_bind]; rewrite H4; cbn [mbind result_bind];
    unfold SockAddr_new; cbn [plain]; by rewrite be16_be_bytes.
Qed.
Lemma udp_response_shape packet t n : wf_bytes packet -> 4 + n + 2 <= len packet -> 0 <= n -> sub packet 0 4 = [0; 0; 0; t] ->
  exists ip a b payload, packet = [0; 0; 0; t] ++ ip ++ [a; b] ++ payload /\ len ip = n /\ wf_bytes ip /\ is_u8 a /\ is_u8 b.
Proof.
  intros Hw Hl Hn H4. pose proof (sub_decompose packet 4 (4 + n) ltac:(lia) ltac:(lia) ltac:(lia)) as Hp. rewrite H4 in Hp.
  assert (Hi : len (sub packet 4 (4 + n)) = n) by (rewrite len_sub; lia).
  assert (Hr : 2 <= len (sub packet (4 + n) (len packet))) by (rewrite len_sub; lia).
  pose proof (wf_sub packet (4 + n) (len packet) Hw) as Hw'.
  destruct (sub packet (4 + n) (len packet)) as [|a [|b payload]]; [done|done|].
  exists (sub packet 4 (4 + n)), a, b, payload. apply Forall_cons in Hw' as [? [? _]%Forall_cons]. split_and!; [done|done|by apply wf_sub|done|done].
Qed.

Lemma sub_0_4 {A} (a b c d : A) l : sub (a :: b :: c :: d :: l) 0 4 = [a; b; c; d].
Proof. done. Qed.
Lemma udp_response_sound packet : wf_bytes packet ->
  match socks_udp_response packet with
  | Ok (a, payload) => packet = append_socks_address [0; 0; 0] a ++ payload /\ wf_sock a /\ plain a = a
  | Err _ => True
  | Panic => False
  end.
Proof.
  intros Hw. unfold socks_udp_response. split_case; [done|]. bool_prop.
  destruct packet as [|p0 [|p1 [|p2 [|p3 l]]]]; try (unfold len in *; cbn [length] in *; lia). set (packet := _ :: _ :: _ :: _ :: l) in *.
  change (@at_ unit Z packet 0) with (@Ok unit Z p0). change (@at_ unit Z packet 1) with (@Ok unit Z p1). change (@at_ unit Z packet 2) with (@Ok unit Z p2). cbn [mbind result_bind].
  destruct (negb _ || _ || _) eqn:E0; [done|]. bool_prop. unfold packet in *. clear packet. subst. change (@at_ unit Z (0 :: 0 :: 0 :: p3 :: l) 3) with (@Ok unit Z p3). cbn [mbind result_bind].
  assert (Hcase : forall n, 0 <= n -> 4 + n + 2 <= len (0 :: 0 :: 0 :: p3 :: l) -> exists ip a b payload, 0 :: 0 :: 0 :: p3 :: l = [0; 0; 0; p3] ++ ip ++ [a; b] ++ payload
     /\ len ip = n /\ wf_bytes ip /\ is_u16 (be16 a b) /\ be_bytes 2 (be16 a b) = [a; b]).
  { intros n Hn Hl. destruct (udp_response_shape _ p3 n Hw Hl Hn eq_refl) as (ip & a & b & pl & ? & ? & ? & ? & ?). exists ip, a, b, pl.
    split_and!; [done..|by apply be16_range|by apply be_bytes_be16]. }
  destruct (p3 =? 1) eqn:E1; [|destruct (p3 =? 4) eqn:E4; [|done]]; bool_prop; subst p3; cbn [mbind result_bind]; (destruct (len _ <? _) eqn:El; [done|]); bool_prop.
  all: match goal with H : 4 + ?n + 2 <= len (_ :: _ :: _ :: ?t :: _) |- _ => destruct (Hcase n ltac:(lia) H) as (ip & a & b & payload & Hp & Hl & Hwi & Hport & Hbe);
         destruct (udp_fields t ip a b payload n Hl) as (H1 & H2 & H3 & H4) end;
    rewrite Hp; rewrite H1; cbn [mbind result_bind]; rewrite H2; cbn [mbind result_bind]; rewrite H3; cbn [mbind result_bind]; rewrite H4;
    cbn [mbind result_bind Z.eqb Pos.eqb SockAddr_new]; rewrite append_address_eq; cbn [octets port_of]; rewrite Hbe, <- !app_assoc; split_and!; [cbn [app]; rewrite <- ?app_assoc; done|by split_and!|done].
Qed.

(** C27. A datagram from the relay is accepted, and read as coming from [a] with [payload],
    exactly when it is the unfragmented RFC 1928 header of the address [a] followed by
    [payload]; this includes what [send_frame] builds, and no datagram panics. *)
Theorem socks_udp_response_exact packet a payload : wf_bytes packet ->
  (socks_udp_response packet = Ok (a, payload) <-> packet = append_socks_address [0; 0; 0] a ++ payload /\ wf_sock a /\ plain a = a)
  /\ (forall ip port, packet = send_frame ip port payload -> len ip = 4 -> is_u16 port -> socks_udp_response packet = Ok (SockV4 ip port, payload))
  /\ safe (socks_udp_response packet).
Proof.
  intros Hw. pose proof (udp_response_sound packet Hw) as Hs. split_and!.
  - split; [intros He; by rewrite He in Hs|]. intros (-> & Ha & Hpl). rewrite (udp_response_ok a payload Ha). by rewrite Hpl.
  - intros ip port -> Hl Hp. rewrite send_frame_eq in *. apply (udp_response_ok (SockV4 ip port)). cbn [wf_sock]. split_and!; [done| |done].
    rewrite append_address_eq in Hw. apply wf_app in Hw as [Hw _]. apply wf_app in Hw as [_ [_ Hw]%Forall_cons]. by apply wf_app in Hw as [? _].
  - intros Hp. by rewrite Hp in Hs.
Qed.

(** ** Checksums *)

Fixpoint words (l : bytes) : Z := match l with a :: b :: l => be16 a b + words l | _ => 0 end.
Lemma word_sum_words n l : len l = 2 * Z.of_nat n -> Z.of_nat n <= 65536 -> wf_bytes l -> word_sum l = Ok (words l) /\ 0 <= words l <= Z.of_nat n * 65535.
Proof.
  revert l. induction n as [|n IH]; intros l Hl Hn Hw.
  - destruct l as [|x l]; [by split; [|cbn]|]. rewrite len_cons in Hl. pose proof (len_nonneg l). lia.
  - destruct l as [|a [|b l]]; [unfold len in Hl; cbn [length] in Hl; lia..|]. rewrite !len_cons in Hl. inversion Hw as [|? ? Ha Hw']; subst. inversion Hw' as [|? ? Hb Hw2]; subst.
    destruct (IH l ltac:(lia) ltac:(lia) Hw2) as [He Hr]. pose proof (be16_range a b Ha Hb) as Hab. unfold is_u16 in Hab.
    cbn [word_sum words]. rewrite He. cbn [mbind result_bind]. split; [f_equal; apply u32_of_small; unfold is_u32; lia|lia].
Qed.
(** Folding keeps the class modulo 65535, and ends in two rounds. *)
Lemma fold_once s : 0 <= s -> exists q, Z.land s 0xffff + Z.shiftr s 16 = s - 65535 * q /\ q = s / 65536 /\ Z.land s 0xffff = s mod 65536.
Proof.
  intros Hs. exists (s / 65536). assert (Z.land s 0xffff = s mod 65536) as -> by (change 0xffff with (Z.ones 16); by rewrite Z.land_ones). rewrite Z.shiftr_div_pow2 by lia. change (2 ^ 16) with 65536.
  pose proof (Z.div_mod s 65536 ltac:(lia)). split_and!; [lia|done|done].
Qed.
Lemma fold_carries_spec s : 0 <= s < 2 ^ 32 -> exists k, fold_carries 3 s = s - 65535 * k /\ 0 <= fold_carries 3 s <= 65535 /\ (0 < s -> 0 < fold_carries 3 s).
Proof.
  assert (Hstop : forall f s, 0 <= s < 65536 -> fold_carries f s = s).
  { intros f x Hx. destruct f; [done|]. cbn [fold_carries]. rewrite Z.shiftr_div_pow2, (Z.div_small x (2 ^ 16)) by lia. done. }
  assert (Hstep : forall f s, 65536 <= s -> fold_carries (S f) s = fold_carries f (s - 65535 * (s / 65536))).
  { intros f x Hx. destruct (fold_once x ltac:(lia)) as (q & Hq & -> & _). cbn [fold_carries]. rewrite Hq. rewrite Z.shiftr_div_pow2 by lia. change (2 ^ 16) with 65536.
    pose proof (Z.div_mod x 65536 ltac:(lia)). pose proof (Z.mod_pos_bound x 65536 ltac:(lia)). by replace (x / 65536 =? 0) with false by lia. }
  intros Hs. destruct (Z.lt_ge_cases s 65536) as [H0 | H0]; [exists 0; rewrite Hstop; lia|]. rewrite Hstep by done.
  set (q := s / 65536). pose proof (Z.div_mod s 65536 ltac:(lia)) as Hdm. pose proof (Z.mod_pos_bound s 65536 ltac:(lia)).
  fold q in Hdm. set (s1 := s - 65535 * q). assert (0 < s1 <= 131070) by (unfold s1; lia).
  destruct (Z.lt_ge_cases s1 65536) as [H2 | H2]; [exists q; rewrite Hstop; lia|]. rewrite Hstep by done.
  assert (s1 / 65536 = 1) as -> by (symmetry; apply (Z.div_unique _ _ 1 (s1 - 65536)); lia).
  exists (q + 1). rewrite Hstop by lia. unfold s1. lia.
Qed.
Lemma lnot_u16 r : 0 <= r <= 65535 -> u16_of (Z.lnot r) = 65535 - r.
Proof. intros Hr. unfold u16_of, Z.lnot. symmetry. apply (Z.mod_unique _ _ (-1)); lia. Qed.
(** The complement of the folded sum completes it to zero. *)
Lemma checksum_completes s r : 0 < s < 2 ^ 31 -> r = fold_carries 3 s -> fold_carries 3 (s + (65535 - r)) = 65535.
Proof.
  intros Hs ->. destruct (fold_carries_spec s ltac:(lia)) as (k & Hk & Hr & Hp). specialize (Hp ltac:(lia)).
  destruct (fold_carries_spec (s + (65535 - fold_carries 3 s)) ltac:(lia)) as (k' & Hk' & Hr' & Hp'). specialize (Hp' ltac:(lia)). lia.
Qed.

(** ** The packets for the client *)

(** A host that receives an unfragmented IPv4 packet with a UDP datagram without checksum, as RFC 791 and RFC 768
    prescribe: the lengths agree and the header sums to zero in ones' complement. *)
Record Received := mkReceived { rc_source : SockAddr; rc_dest : SockAddr; rc_payload : bytes }.
Definition receive_udp (p : bytes) : option Received :=
  if len p <? 28 then None else
  if negb (bytes_eqb (sub p 0 1) [0x45]) || negb (bytes_eqb (sub p 6 8) [0; 0]) || negb (bytes_eqb (sub p 9 10) [17]) then None else
  if negb (be_val (sub p 2 4) =? len p) || negb (words (sub p 0 20) mod 65535 =? 0) then None else
  if negb (be_val (sub p 24 26) =? len p - 20) || negb (bytes_eqb (sub p 26 28) [0; 0]) then None else
  Some (mkReceived (SockV4 (sub p 12 16) (be_val (sub p 20 22))) (SockV4 (sub p 16 20) (be_val (sub p 22 24))) (sub p 28 (len p))).

Lemma be_val_2 p : is_u16 p -> be_val [(p / 256) mod 256; p mod 256] = p.
Proof. exact (be16_be_bytes p). Qed.
Lemma octets_4 (ip : bytes) : len ip = 4 -> exists a b c d, ip = [a; b; c; d].
Proof. intros Hl. destruct ip as [|a [|b [|c [|d [|]]]]]; unfold len in Hl; cbn [length] in Hl; try lia. eauto. Qed.
(** The header, and why its sum vanishes. *)
Lemma header_checksum t (sa da : bytes) : is_u16 t -> len sa = 4 -> wf_bytes sa -> len da = 4 -> wf_bytes da ->
  let h c := [0x45; 0] ++ be_bytes 2 t ++ [0; 0; 0; 0; 64; 17] ++ be_bytes 2 c ++ sa ++ da in
  exists c, calc_checksum (h 0) = Ok c /\ is_u16 c /\ words (h c) mod 65535 = 0.
Proof.
  intros Ht Hsa Wsa Hda Wda h.
  assert (Hlen : forall c, len (h c) = 2 * Z.of_nat 10) by (intros c; unfold h; rewrite !len_app, !len_be_bytes, Hsa, Hda; done).
  assert (Hwf : forall c, wf_bytes (h c)).
  { intros c. unfold h. rewrite !wf_app. split_and!; [by apply (bool_decide_unpack _)|apply wf_be_bytes|by apply (bool_decide_unpack _)|apply wf_be_bytes|done|done]. }
  destruct (word_sum_words 10 (h 0) (Hlen 0) ltac:(lia) (Hwf 0)) as [Hs Hb].
  assert (Hw : forall c, is_u16 c -> words (h c) = words (h 0) + c).
  { intros c Hc. destruct (octets_4 sa Hsa) as (s1 & s2 & s3 & s4 & ->). destruct (octets_4 da Hda) as (d1 & d2 & d3 & d4 & ->). unfold h. rewrite !be_bytes_2.
    cbn [app words]. rewrite (be16_be_bytes c Hc), (be16_be_bytes 0) by done. lia. }
  assert (Hp : 17664 <= words (h 0)).
  { destruct (word_sum_words 9 (drop 2 (h 0))) as [_ Hd]; [unfold len; rewrite length_drop; pose proof (Hlen 0); unfold len in *; lia|lia|apply Forall_drop, Hwf|].
    change (words (h 0)) with (17664 + words (drop 2 (h 0))). lia. }
  destruct (fold_carries_spec (words (h 0)) ltac:(lia)) as (k & Hk & Hr & _).
  exists (65535 - fold_carries 3 (words (h 0))). unfold calc_checksum. rewrite Hs. cbn [mbind result_bind]. rewrite lnot_u16 by done.
  split_and!; [done|unfold is_u16; lia|]. rewrite Hw by (unfold is_u16; lia). rewrite Hk.
  replace (words (h 0) + (65535 - (words (h 0) - 65535 * k))) with ((1 + k) * 65535) by lia. apply Z.mod_mul. lia.
Qed.

(** A reply that fits an IPv4 packet is sent as a packet a receiving host accepts, header checksum and lengths
    included, as a datagram from the answering host to the client with exactly the payload; one that does not fit is not sent. *)
Theorem send_reply_received source_ip dest_ip source_port dest_port payload :
  wf_sock (SockV4 source_ip source_port) -> wf_sock (SockV4 dest_ip dest_port) ->
  (if 65507 <? len payload then send_reply source_ip dest_ip source_port dest_port payload = Ok None
   else exists p, send_reply source_ip dest_ip source_port dest_port payload = Ok (Some p)
     /\ receive_udp p = Some (mkReceived (SockV4 source_ip source_port) (SockV4 dest_ip dest_port) payload)).
Proof.
  intros (Hsl & Hsw & Hsp) (Hdl & Hdw & Hdp). pose proof (len_nonneg payload). unfold send_reply. split_case; bool_prop.
  { by replace (65535 <? _) with true by lia. }
  replace (65535 <? _) with false by lia. set (t := 20 + 8 + len payload).
  destruct (header_checksum t source_ip dest_ip ltac:(unfold is_u16, t; lia) Hsl Hsw Hdl Hdw) as (c & Hc & Hcr & Hz).
  destruct (octets_4 source_ip Hsl) as (s1 & s2 & s3 & s4 & ->). destruct (octets_4 dest_ip Hdl) as (d1 & d2 & d3 & d4 & ->).
  unfold reply_header. fold t. rewrite Hc. cbn [mbind result_bind]. eexists. split; [reflexivity|].
  rewrite u16_of_small by (unfold is_u16; lia). rewrite !be_bytes_2 in *. cbn [app] in *.
  match goal with |- receive_udp ?x = _ => set (p := x) end.
  assert (Hl : len p = t) by (unfold p; rewrite !len_cons; lia).
  assert (sub p 0 1 = [0x45] /\ sub p 6 8 = [0; 0] /\ sub p 9 10 = [17] /\ sub p 26 28 = [0; 0]) as (E1 & E2 & E3 & E4) by done.
  assert (be_val (sub p 2 4) = t) as E5 by (apply be_val_2; unfold is_u16; lia).
  assert (be_val (sub p 24 26) = t - 20) as E6 by (unfold t; replace (_ - 20) with (8 + len payload) by lia; apply be_val_2; unfold is_u16; lia).
  assert (be_val (sub p 20 22) = source_port /\ be_val (sub p 22 24) = dest_port) as [E7 E8] by (split; by apply be_val_2).
  assert (sub p 28 (len p) = payload) as E9 by (rewrite Hl; apply (sub_app_end (take 28 p) payload); [done|unfold t; done]).
  unfold receive_udp. rewrite E1, E2, E3, E4, E5, E6, E7, E8, E9, Hl. replace (t <? 28) with false by (unfold t; lia).
  change (words (sub p 0 20) mod 65535 =? 0) with (words [69; 0; (t / 256) mod 256; t mod 256; 0; 0; 0; 0; 64; 17; (c / 256) mod 256; c mod 256; s1; s2; s3; s4; d1; d2; d3; d4] mod 65535 =? 0).
  rewrite Hz, !Z.eqb_refl. done.
Qed.

(** ** The destination of an intercepted datagram *)

(** The control message the kernel puts first: [IP_ORIGDSTADDR] with a [sockaddr_in]. *)
Definition origdst_message (ip : bytes) (port : Z) : bytes :=
  [32; 0; 0; 0; 0; 0; 0; 0] ++ [0; 0; 0; 0] ++ [20; 0; 0; 0] ++ [2; 0] ++ be_bytes 2 port ++ ip ++ zeroed 8.

Lemma read_sockaddr_yields data : yields (read_sockaddr data) (fun _ => True).
Proof.
  unfold read_sockaddr, SOCKADDR_IN. split_case; [by apply yields_ret|]. bool_prop. rewrite !slice_ok by lia. cbn [mbind result_bind]. by apply yields_ret.
Qed.
Lemma advance_bounds n : 16 <= n -> 16 <= Z.land (n + 3) (Z.lnot 3).
Proof.
  intros Hn. rewrite <- Z.ldiff_land. change 3 with (Z.ones 2) at 2. rewrite Z.ldiff_ones_r by lia. rewrite Z.shiftl_mul_pow2, Z.shiftr_div_pow2 by lia.
  pose proof (Z.div_mod (n + 3) (2 ^ 2) ltac:(lia)). pose proof (Z.mod_pos_bound (n + 3) (2 ^ 2) ltac:(lia)). lia.
Qed.
Lemma orig_dst_safe fuel control : safe (orig_dst_loop fuel control).
Proof.
  revert control. induction fuel as [|fuel IH]; intros control; [done|]. cbn [orig_dst_loop]. unfold CMSG_HEADER. split_case; [done|]. bool_prop.
  rewrite !slice_ok by lia. cbn [mbind result_bind]. split_case; [done|]. bool_prop. set (n := le_val _) in *. pose proof (len_nonneg control).
  eapply (safe_bind (fun found => match found with Some _ => _ | None => _ end)).
  - split_case; [|done]. rewrite slice_ok by lia. cbn [mbind result_bind]. eapply yields_safe, read_sockaddr_yields.
  - intros [a|] _; [done|]. pose proof (advance_bounds n ltac:(lia)). rewrite slice_from_ok by lia. cbn [mbind result_bind]. apply IH.
Qed.
Lemma orig_dst_fuel f g control : (length control < f)%nat -> (length control < g)%nat -> orig_dst_loop f control = orig_dst_loop g control.
Proof.
  revert g control. induction f as [|f IH]; intros [|g] control Hf Hg; try lia. cbn [orig_dst_loop]. unfold CMSG_HEADER. split_case; [done|]. bool_prop.
  rewrite !slice_ok by lia. cbn [mbind result_bind]. split_case; [done|]. bool_prop. set (n := le_val _) in *.
  match goal with |- (?m ≫= _) = _ => destruct m as [[a|]| |]; cbn [mbind result_bind]; try done end.
  pose proof (advance_bounds n ltac:(lia)) as Ha. set (k := Z.min _ _). assert (16 <= k <= len control) by (unfold k; lia).
  rewrite slice_from_ok by lia. cbn [mbind result_bind].
  apply IH; unfold sub, len in *; rewrite length_take, length_drop; lia.
Qed.

(** The walk over the control messages ends within the fuel and never reads outside the
    buffer, whatever the buffer holds; where the kernel's message with the original destination
    comes first, that destination is the one it returns. *)
Theorem parse_orig_dst_correct :
  (forall control fuel, (length control < fuel)%nat -> orig_dst_loop fuel control = parse_orig_dst control /\ safe (parse_orig_dst control))
  /\ (forall ip port rest, wf_sock (SockV4 ip port) -> parse_orig_dst (origdst_message ip port ++ rest) = Ok (SockV4 ip port)).
Proof.
  split.
  - intros control fuel Hf. split; [apply orig_dst_fuel; lia|apply orig_dst_safe].
  - intros ip port rest (Hl & Hw & Hp). destruct (octets_4 ip Hl) as (a & b & c & d & ->). unfold origdst_message. rewrite be_bytes_2.
    change (zeroed 8) with [0; 0; 0; 0; 0; 0; 0; 0]. cbn [app]. unfold parse_orig_dst. set (control := _ :: _). assert (Hc : 32 <= len control) by (unfold control; rewrite !len_cons; pose proof (len_nonneg rest); lia).
    cbn [orig_dst_loop]. unfold CMSG_HEADER. replace (len control <? 16) with false by lia. rewrite !slice_ok by lia. cbn [mbind result_bind].
    change (le_val (sub control 0 8)) with 32. change (le_val (sub control 8 12)) with 0. change (le_val (sub control 12 16)) with 20. replace (_ || (len control <? 32)) with false by lia.
    change ((0 =? IPPROTO_IP) && _) with true. cbv iota. rewrite slice_ok by lia. cbn [mbind result_bind].
    change (sub control 16 32) with [2; 0; (port / 256) mod 256; port mod 256; a; b; c; d; 0; 0; 0; 0; 0; 0; 0; 0].
    set (data := [2; _; _; _; _; _; _; _; _; _; _; _; _; _; _; _]).
    assert (read_sockaddr data = Ok (Some (SockV4 [a; b; c; d] (be_val [(port / 256) mod 256; port mod 256])))) as -> by done.
    cbn [mbind result_bind]. by rewrite be_val_2.
Qed.

(** [allowed_client] is membership in 10.66.67.0/24. *)
Lemma allowed_client_iff a b c d : wf_bytes [a; b; c; d] -> allowed_client [a; b; c; d] = true <-> a = 10 /\ b = 66 /\ c = 67.
Proof.
  intros Hw. assert (subnet = Some (0x0a424300, 24)) as Hs by (vm_compute; reflexivity). unfold allowed_client. rewrite Hs. cbn [Z.eqb Pos.eqb].
  change (u32_of (Z.shiftl U32_MAX (32 - 24))) with (Z.shiftl (Z.ones 24) 8). change (Z.land 0x0a424300 _) with 0x0a424300.
  rewrite Z.eqb_eq. unfold wf_bytes in Hw. rewrite !Forall_cons in Hw. destruct Hw as (Ha & Hb & Hc & Hd & _). unfold is_u8 in *.
  assert (Z.land (be_val [a; b; c; d]) (Z.shiftl (Z.ones 24) 8) = (a * 65536 + b * 256 + c) * 256) as ->; [|lia].
  unfold be_val. cbn [foldl]. replace ((((0 * 256 + a) * 256 + b) * 256 + c) * 256 + d) with (d + (a * 65536 + b * 256 + c) * 2 ^ 8) by lia.
  set (k := a * 65536 + b * 256 + c). assert (Hk : 0 <= k < 2 ^ 24) by (unfold k; lia).
  apply Z.bits_inj'. intros n Hn. change (k * 256) with (k * 2 ^ 8). rewrite Z.land_spec, <- (Z.shiftl_mul_pow2 k) by lia. rewrite !Z.shiftl_spec by lia.
  destruct (Z.lt_ge_cases n 8). { rewrite !(Z.testbit_neg_r _ (n - 8)) by lia. apply andb_false_r. }
  rewrite Z.shiftl_mul_pow2 by lia. assert (Z.testbit (d + k * 2 ^ 8) n = Z.testbit k (n - 8)) as ->.
  { replace k with ((d + k * 2 ^ 8) / 2 ^ 8) at 2 by (rewrite Z.div_add, (Z.div_small d) by lia; lia). rewrite Z.div_pow2_bits by lia. f_equal. lia. }
  rewrite <- Z.land_spec, Z.land_ones, Z.mod_small by lia. done.
Qed.

(** ** Instances *)

Definition demo_proxy : LocalProxyProfile := mkProfile (b_ "1") (b_ "relay") 1080 (b_ "user") (b_ "secret").
Definition demo_client : SockAddr := SockV4 [10; 66; 67; 5] 40000.
Definition demo_server : SockAddr := SockV4 [1; 1; 1; 1] 53.
Definition no_dns : bytes -> Z -> option (list SockAddr) := fun _ _ => None.
Ltac wf_demo := split_and!; [done|by apply (bool_decide_unpack _)|done].
Lemma wf_demo_client : wf_sock demo_client.
Proof. wf_demo. Qed.
Lemma wf_demo_server : wf_sock demo_server.
Proof. wf_demo. Qed.
Lemma wf_demo_any : wf_sock (SockV4 [0; 0; 0; 0] 9000).
Proof. wf_demo. Qed.

Lemma socks_command_conforms_witness :
  exists out, socks_command no_dns demo_proxy 3 demo_server (mkConn (accepting demo_proxy (SockV4 [0; 0; 0; 0] 9000) ++ [7]) [] [])
      = (Ok (SockV4 [127; 0; 0; 1] 9000), mkConn [7] out [])
    /\ parse_handshake out = Some (mkHandshake (Some (b_ "user", b_ "secret")) 3 demo_server).
Proof. exact (socks_command_conforms no_dns demo_proxy 3 demo_server (SockV4 [0; 0; 0; 0] 9000) [7] eq_refl wf_demo_server wf_demo_any). Defined.
Lemma socks_command_outcome_witness : outcome demo_proxy 3 demo_server (mkConn [5; 255] [] []) (Err MethodRejected, mkConn [] [5; 1; 2] []).
Proof. exact (socks_command_outcome no_dns demo_proxy 3 demo_server (mkConn [5; 255] [] []) ltac:(by apply (bool_decide_unpack _))). Defined.
Lemma socks_udp_response_exact_witness :
  socks_udp_response (send_frame [1; 1; 1; 1] 53 [9; 9]) = Ok (demo_server, [9; 9]).
Proof. apply (socks_udp_response_exact (send_frame [1; 1; 1; 1] 53 [9; 9]) demo_server [9; 9]); [by apply (bool_decide_unpack _)|done..]. Defined.
Lemma send_reply_received_witness :
  exists p, send_reply [1; 1; 1; 1] [10; 66; 67; 5] 53 40000 [9; 9] = Ok (Some p) /\ receive_udp p = Some (mkReceived demo_server demo_client [9; 9]).
Proof. exact (send_reply_received [1; 1; 1; 1] [10; 66; 67; 5] 53 40000 [9; 9] wf_demo_server wf_demo_client). Defined.
Lemma parse_orig_dst_correct_witness : parse_orig_dst (origdst_message [1; 1; 1; 1] 53 ++ [3; 3]) = Ok demo_server.
Proof. apply parse_orig_dst_correct. exact wf_demo_server. Defined.

(** A message before it, padded to 8 bytes as Linux pads on 64-bit machines, hides the destination: the walk advances by multiples of 4. *)
Example orig_dst_second : parse_orig_dst (([20; 0; 0; 0; 0; 0; 0; 0] ++ [0; 0; 0; 0] ++ [2; 0; 0; 0] ++ [64; 0; 0; 0] ++ [0; 0; 0; 0]) ++ origdst_message [1; 1; 1; 1] 53) = none.
Proof. vm_compute. reflexivity. Qed.
