(* ===== verification/Admission.v ===== *)
(** * Admission to the transparent proxy

    [rust-server/tproxy.rs]: the limits and their expansion ([ProxyCapacity]), the sessions, flows and
    buffers of every tunnel address ([DeviceQuotaRegistry] and its leases), the counters shown by the
    panel ([TproxyStats]) and the buffer pools. A critical section under the [admission] mutex is one step. *)

From S2P Require Import Prelude.

(** ** Limits *)

Definition GLOBAL_TCP_SESSION_LIMIT : Z := 384.
Definition GLOBAL_UDP_FLOW_LIMIT : Z := 784.
Definition EXPANDED_TCP_SESSION_LIMIT : Z := 1512.
Definition EXPANDED_UDP_FLOW_LIMIT : Z := 2048.
Definition MEMORY_EXPANDED_TCP_SESSION_LIMIT : Z := 1784.
Definition MEMORY_EXPANDED_UDP_FLOW_LIMIT : Z := 2384.
Definition MAX_TCP_SESSION_LIMIT : Z := 2384.
Definition MAX_UDP_FLOW_LIMIT : Z := 4096.
Definition MEMORY_EXPANSION_THRESHOLD_BYTES : Z := 512 * 1024 * 1024.
Definition MAX_MEMORY_EXPANSION_THRESHOLD_BYTES : Z := 1200 * 1024 * 1024.
Definition DEVICE_TCP_SESSION_LIMIT : Z := 160.
Definition DEVICE_UDP_FLOW_LIMIT : Z := 320.
Definition DEVICE_TCP_FLOOR : Z := 20.
Definition DEVICE_UDP_FLOOR : Z := 40.
Definition DEVICE_NORMAL_BUFFER_LIMIT : Z := 4.
Definition DEVICE_JUMBO_BUFFER_LIMIT : Z := 1.
Definition GLOBAL_NORMAL_BUFFER_LIMIT : Z := 32.
Definition GLOBAL_JUMBO_BUFFER_LIMIT : Z := 16.
Definition PROXY_TCP_BUFFER_BYTES : Z := 16 * 1024.
Definition PROXY_NORMAL_BUFFER_BYTES : Z := 4 * 1024.
Definition PROXY_JUMBO_BUFFER_BYTES : Z := 65535.
Definition PROXY_OPENING_BUFFER_LIMIT : Z := 512 * 1024.

(** [ProxyCapacity]: the limits for TCP sessions and for UDP flows. *)
Definition Limits : Type := Z * Z.
Definition ProxyCapacity_new : Limits := (GLOBAL_TCP_SESSION_LIMIT, GLOBAL_UDP_FLOW_LIMIT).
Definition some_and (P : Z -> bool) (o : option Z) : bool := match o with Some n => P n | None => false end.
Definition next_limits (current : Limits) (available_memory : option Z) : Limits :=
  if (current.1 <? EXPANDED_TCP_SESSION_LIMIT) || (current.2 <? EXPANDED_UDP_FLOW_LIMIT) then (EXPANDED_TCP_SESSION_LIMIT, EXPANDED_UDP_FLOW_LIMIT)
  else if some_and (Z.leb MAX_MEMORY_EXPANSION_THRESHOLD_BYTES) available_memory
          && ((current.1 <? MAX_TCP_SESSION_LIMIT) || (current.2 <? MAX_UDP_FLOW_LIMIT)) then (MAX_TCP_SESSION_LIMIT, MAX_UDP_FLOW_LIMIT)
  else if some_and (Z.leb MEMORY_EXPANSION_THRESHOLD_BYTES) available_memory
          && ((current.1 <? MEMORY_EXPANDED_TCP_SESSION_LIMIT) || (current.2 <? MEMORY_EXPANDED_UDP_FLOW_LIMIT))
       then (MEMORY_EXPANDED_TCP_SESSION_LIMIT, MEMORY_EXPANDED_UDP_FLOW_LIMIT)
  else current.
(** [try_expand]; [available_memory] is what the system reports when it is asked. *)
Definition try_expand (current : Limits) (available_memory : option Z) : bool * Limits :=
  let next := if (current.1 <? EXPANDED_TCP_SESSION_LIMIT) || (current.2 <? EXPANDED_UDP_FLOW_LIMIT)
              then (EXPANDED_TCP_SESSION_LIMIT, EXPANDED_UDP_FLOW_LIMIT) else next_limits current available_memory in
  if bool_decide (next = current) then (false, current) else (true, next).

Definition adaptive_device_limit (global_limit device_limit device_floor active_devices : Z) : Z :=
  Z.min (Z.max (global_limit / Z.max active_devices 1) device_floor) device_limit.

(** ** The registry

    An address keeps its [DeviceQuota] for good, so a shared quota is named by its address. *)

Record DeviceQuota := mkQuota { q_tcp : Z; q_udp : Z; q_normal : Z; q_jumbo : Z; q_cancelled : bool }.
Definition DeviceQuota_new : DeviceQuota := mkQuota 0 0 0 0 false.
Record AdmissionState := mkAdmission { ad_tcp : Z; ad_udp : Z; ad_normal : Z; ad_jumbo : Z }.
Definition AdmissionState_default : AdmissionState := mkAdmission 0 0 0 0.
(** The cancellation token of a session and whether it was chosen for eviction. *)
Record TcpEvictionSlot := mkSlot { sl_cancelled : bool; sl_evicting : bool }.
(** [rg_permit]: a notification of [tcp_capacity_changed] nobody has received. *)
Record Registry := mkRegistry {
  rg_by_ip : gmap bytes DeviceQuota;
  rg_admission : AdmissionState;
  rg_capacity : Limits;
  rg_evictions : gmap Z TcpEvictionSlot;
  rg_next : Z;
  rg_permit : bool;
}.
Definition DeviceQuotaRegistry_new : Registry := mkRegistry ∅ AdmissionState_default ProxyCapacity_new ∅ 1 false.
Inductive AdmissionError := Inactive | DeviceLimit | GlobalLimit.

Definition set_quota (r : Registry) (ip : bytes) (q : DeviceQuota) : Registry :=
  mkRegistry (<[ip := q]> (rg_by_ip r)) (rg_admission r) (rg_capacity r) (rg_evictions r) (rg_next r) (rg_permit r).
Definition set_admission (r : Registry) (a : AdmissionState) : Registry :=
  mkRegistry (rg_by_ip r) a (rg_capacity r) (rg_evictions r) (rg_next r) (rg_permit r).
Definition set_capacity (r : Registry) (l : Limits) : Registry :=
  mkRegistry (rg_by_ip r) (rg_admission r) l (rg_evictions r) (rg_next r) (rg_permit r).
Definition set_evictions (r : Registry) (m : gmap Z TcpEvictionSlot) : Registry :=
  mkRegistry (rg_by_ip r) (rg_admission r) (rg_capacity r) m (rg_next r) (rg_permit r).
Definition set_next (r : Registry) (n : Z) : Registry :=
  mkRegistry (rg_by_ip r) (rg_admission r) (rg_capacity r) (rg_evictions r) n (rg_permit r).
Definition set_permit (r : Registry) (b : bool) : Registry :=
  mkRegistry (rg_by_ip r) (rg_admission r) (rg_capacity r) (rg_evictions r) (rg_next r) b.

Definition reset_capacity (r : Registry) : Registry := set_capacity r ProxyCapacity_new.
Definition release_runtime_state (r : Registry) : Registry :=
  set_evictions (set_admission (reset_capacity r) AdmissionState_default) ∅.
Definition try_expand_capacity (r : Registry) (available_memory : option Z) : bool * Registry :=
  let '(grown, l) := try_expand (rg_capacity r) available_memory in (grown, set_capacity r l).
Definition activate_tunnel_ip (r : Registry) (ip : bytes) : Registry :=
  match rg_by_ip r !! ip with Some _ => r | None => set_quota r ip DeviceQuota_new end.
Definition quota_for_ip (r : Registry) (ip : bytes) : option DeviceQuota :=
  match rg_by_ip r !! ip with Some q => if q_cancelled q then None else Some q | None => None end.
Definition active_devices (active : DeviceQuota -> Z) (r : Registry) (current : bytes) : Z :=
  Z.max 1 (len (filter (fun e => e.1 = current \/ active e.2 <> 0) (map_to_list (rg_by_ip r)))).
Definition active_tcp_devices : Registry -> bytes -> Z := active_devices q_tcp.
Definition active_udp_devices : Registry -> bytes -> Z := active_devices q_udp.

(** The counters of a quota; [fetch_sub] wraps. *)
Definition add_tcp (n : Z) (q : DeviceQuota) : DeviceQuota := mkQuota (u64_of (q_tcp q + n)) (q_udp q) (q_normal q) (q_jumbo q) (q_cancelled q).
Definition add_udp (n : Z) (q : DeviceQuota) : DeviceQuota := mkQuota (q_tcp q) (u64_of (q_udp q + n)) (q_normal q) (q_jumbo q) (q_cancelled q).
Definition add_normal (n : Z) (q : DeviceQuota) : DeviceQuota := mkQuota (q_tcp q) (q_udp q) (u64_of (q_normal q + n)) (q_jumbo q) (q_cancelled q).
Definition add_jumbo (n : Z) (q : DeviceQuota) : DeviceQuota := mkQuota (q_tcp q) (q_udp q) (q_normal q) (u64_of (q_jumbo q + n)) (q_cancelled q).
Definition update_quota (r : Registry) (ip : bytes) (f : DeviceQuota -> DeviceQuota) : Registry :=
  match rg_by_ip r !! ip with Some q => set_quota r ip (f q) | None => r end.

(** [try_acquire_tcp]: under the mutex, then the slot for evictions. *)
Definition admit_tcp (r : Registry) (ip : bytes) : result AdmissionError Registry :=
  q ← try_ Inactive (quota_for_ip r ip);
  let tcp_limit := (rg_capacity r).1 in
  let device_limit := adaptive_device_limit tcp_limit DEVICE_TCP_SESSION_LIMIT DEVICE_TCP_FLOOR (active_tcp_devices r ip) in
  if device_limit <=? q_tcp q then Err DeviceLimit else
  if tcp_limit <=? ad_tcp (rg_admission r) then Err GlobalLimit else
  let a := rg_admission r in
  Ok (set_admission (update_quota r ip (add_tcp 1)) (mkAdmission (ad_tcp a + 1) (ad_udp a) (ad_normal a) (ad_jumbo a))).
Record TcpLease := mkTcpLease { tl_ip : bytes; tl_session : Z }.
Definition register_session (r : Registry) (ip : bytes) : TcpLease * Registry :=
  (mkTcpLease ip (rg_next r), set_evictions (set_next r (u64_of (rg_next r + 1))) (<[rg_next r := mkSlot false false]> (rg_evictions r))).
Definition try_acquire_tcp (r : Registry) (ip : bytes) : result AdmissionError (TcpLease * Registry) :=
  r ← admit_tcp r ip; Ok (register_session r ip).
(** The drop of the lease: the slot, then the counters under the mutex, then the notification. *)
Definition forget_session (r : Registry) (id : Z) : Registry := set_evictions r (delete id (rg_evictions r)).
Definition release_tcp (r : Registry) (ip : bytes) : Registry :=
  let a := rg_admission r in
  set_admission (update_quota r ip (add_tcp (-1))) (mkAdmission (sat_sub (ad_tcp a) 1) (ad_udp a) (ad_normal a) (ad_jumbo a)).
Definition notify_one (r : Registry) : Registry := set_permit r true.
Definition drop_tcp (r : Registry) (l : TcpLease) : Registry := notify_one (release_tcp (forget_session r (tl_session l)) (tl_ip l)).

Definition try_acquire_udp (r : Registry) (ip : bytes) : result AdmissionError Registry :=
  q ← try_ Inactive (quota_for_ip r ip);
  let udp_limit := (rg_capacity r).2 in
  let device_limit := adaptive_device_limit udp_limit DEVICE_UDP_FLOW_LIMIT DEVICE_UDP_FLOOR (active_udp_devices r ip) in
  if device_limit <=? q_udp q then Err DeviceLimit else
  if udp_limit <=? ad_udp (rg_admission r) then Err GlobalLimit else
  let a := rg_admission r in
  Ok (set_admission (update_quota r ip (add_udp 1)) (mkAdmission (ad_tcp a) (ad_udp a + 1) (ad_normal a) (ad_jumbo a))).
Definition drop_udp (r : Registry) (ip : bytes) : Registry :=
  let a := rg_admission r in
  set_admission (update_quota r ip (add_udp (-1))) (mkAdmission (ad_tcp a) (sat_sub (ad_udp a) 1) (ad_normal a) (ad_jumbo a)).

(** The quota of a lease is in the registry; a buffer is asked for with that quota. *)
Definition try_acquire_normal_buffer (r : Registry) (ip : bytes) : option Registry :=
  q ← rg_by_ip r !! ip;
  let a := rg_admission r in
  if (DEVICE_NORMAL_BUFFER_LIMIT <=? q_normal q) || (GLOBAL_NORMAL_BUFFER_LIMIT <=? ad_normal a) then None else
  Some (set_admission (update_quota r ip (add_normal 1)) (mkAdmission (ad_tcp a) (ad_udp a) (ad_normal a + 1) (ad_jumbo a))).
Definition try_acquire_jumbo_buffer (r : Registry) (ip : bytes) : option Registry :=
  q ← rg_by_ip r !! ip;
  let a := rg_admission r in
  if (DEVICE_JUMBO_BUFFER_LIMIT <=? q_jumbo q) || (GLOBAL_JUMBO_BUFFER_LIMIT <=? ad_jumbo a) then None else
  Some (set_admission (update_quota r ip (add_jumbo 1)) (mkAdmission (ad_tcp a) (ad_udp a) (ad_normal a) (ad_jumbo a + 1))).
Record BufferLease := mkBufferLease { bl_ip : bytes; bl_jumbo : bool }.
Definition drop_buffer (r : Registry) (l : BufferLease) : Registry :=
  let a := rg_admission r in
  if bl_jumbo l
  then set_admission (update_quota r (bl_ip l) (add_jumbo (-1))) (mkAdmission (ad_tcp a) (ad_udp a) (ad_normal a) (sat_sub (ad_jumbo a) 1))
  else set_admission (update_quota r (bl_ip l) (add_normal (-1))) (mkAdmission (ad_tcp a) (ad_udp a) (sat_sub (ad_normal a) 1) (ad_jumbo a)).

(** The session that has waited longest, if one is left to evict. *)
Definition min_id (l : list Z) : option Z := match l with [] => None | i :: l => Some (foldr Z.min i l) end.
Definition cancel_oldest_tcp (r : Registry) : bool * Registry :=
  match min_id ((filter (fun e => sl_evicting e.2 = false) (map_to_list (rg_evictions r))).*1) with
  | None => (false, r)
  | Some id => (true, set_evictions r (<[id := mkSlot true true]> (rg_evictions r)))
  end.

(** ** The counters of the panel *)

Record TproxyStats := mkStats {
  st_tcp_active : Z; st_udp_active : Z; st_tcp_peak : Z; st_udp_peak : Z; st_tcp_total : Z; st_udp_total : Z;
  st_tcp_rejects : Z; st_udp_rejects : Z; st_limits : Limits;
}.
Definition TproxyStats_default : TproxyStats := mkStats 0 0 0 0 0 0 0 0 (GLOBAL_TCP_SESSION_LIMIT, GLOBAL_UDP_FLOW_LIMIT).
Definition tcp_started (s : TproxyStats) : TproxyStats :=
  let active := u64_of (st_tcp_active s + 1) in
  mkStats (u64_of (st_tcp_active s + 1)) (st_udp_active s) (Z.max (st_tcp_peak s) active) (st_udp_peak s) (u64_of (st_tcp_total s + 1)) (st_udp_total s)
    (st_tcp_rejects s) (st_udp_rejects s) (st_limits s).
Definition tcp_finished (s : TproxyStats) : TproxyStats :=
  mkStats (u64_of (st_tcp_active s - 1)) (st_udp_active s) (st_tcp_peak s) (st_udp_peak s) (st_tcp_total s) (st_udp_total s)
    (st_tcp_rejects s) (st_udp_rejects s) (st_limits s).
Definition udp_started (s : TproxyStats) : TproxyStats :=
  let active := u64_of (st_udp_active s + 1) in
  mkStats (st_tcp_active s) (u64_of (st_udp_active s + 1)) (st_tcp_peak s) (Z.max (st_udp_peak s) active) (st_tcp_total s) (u64_of (st_udp_total s + 1))
    (st_tcp_rejects s) (st_udp_rejects s) (st_limits s).
Definition udp_finished (s : TproxyStats) : TproxyStats :=
  mkStats (st_tcp_active s) (u64_of (st_udp_active s - 1)) (st_tcp_peak s) (st_udp_peak s) (st_tcp_total s) (st_udp_total s)
    (st_tcp_rejects s) (st_udp_rejects s) (st_limits s).
Definition tcp_budget_rejected (s : TproxyStats) : TproxyStats :=
  mkStats (st_tcp_active s) (st_udp_active s) (st_tcp_peak s) (st_udp_peak s) (st_tcp_total s) (st_udp_total s)
    (u64_of (st_tcp_rejects s + 1)) (st_udp_rejects s) (st_limits s).
Definition udp_budget_rejected (s : TproxyStats) : TproxyStats :=
  mkStats (st_tcp_active s) (st_udp_active s) (st_tcp_peak s) (st_udp_peak s) (st_tcp_total s) (st_udp_total s)
    (st_tcp_rejects s) (u64_of (st_udp_rejects s + 1)) (st_limits s).
Definition set_limits (s : TproxyStats) (l : Limits) : TproxyStats :=
  mkStats (st_tcp_active s) (st_udp_active s) (st_tcp_peak s) (st_udp_peak s) (st_tcp_total s) (st_udp_total s) (st_tcp_rejects s) (st_udp_rejects s) l.

(** ** Admission of a TCP session *)

(** [evict_oldest_tcp_and_wait]; [others] is what the other tasks do until the notification or the second is over.
    A notification that is already there ends the wait at once. *)
Definition evict_oldest_tcp_and_wait (others : Registry -> Registry) (r : Registry) : bool * Registry :=
  let '(found, r) := cancel_oldest_tcp r in
  if negb found then (false, r) else
  (true, set_permit (if rg_permit r then r else others r) false).
Section TcpQuota.
Context (others : Registry -> Registry) (available_memory : nat -> option Z).
Fixpoint acquire_tcp_quota (fuel : nat) (r : Registry) (ip : bytes) (s : TproxyStats) : option TcpLease * Registry * TproxyStats :=
  match fuel with
  | O => (None, r, s)
  | S fuel =>
      match try_acquire_tcp r ip with
      | Ok (l, r) => (Some l, r, set_limits s (rg_capacity r))
      | Err GlobalLimit =>
          let '(grown, r) := try_expand_capacity r (available_memory fuel) in
          if grown then acquire_tcp_quota fuel r ip (set_limits s (rg_capacity r)) else
          let '(evicted, r) := evict_oldest_tcp_and_wait others r in
          if negb evicted then (None, r, s) else
          match try_acquire_tcp r ip with
          | Ok (l, r) => (Some l, r, set_limits s (rg_capacity r))
          | _ => (None, r, s)
          end
      | _ => (None, r, s)
      end
  end.
End TcpQuota.

(** ** What every step preserves *)

(** The four counters that exist per address and over all addresses. *)
Inductive Counter := CTcp | CUdp | CNormal | CJumbo.
#[global] Instance Counter_eq_dec : EqDecision Counter.
Proof. solve_decision. Defined.
Definition q_get (c : Counter) (q : DeviceQuota) : Z := match c with CTcp => q_tcp q | CUdp => q_udp q | CNormal => q_normal q | CJumbo => q_jumbo q end.
Definition q_add (c : Counter) : Z -> DeviceQuota -> DeviceQuota := match c with CTcp => add_tcp | CUdp => add_udp | CNormal => add_normal | CJumbo => add_jumbo end.
Definition ad_get (c : Counter) (a : AdmissionState) : Z := match c with CTcp => ad_tcp a | CUdp => ad_udp a | CNormal => ad_normal a | CJumbo => ad_jumbo a end.
Definition ad_set (c : Counter) (n : Z) (a : AdmissionState) : AdmissionState :=
  match c with
  | CTcp => mkAdmission n (ad_udp a) (ad_normal a) (ad_jumbo a) | CUdp => mkAdmission (ad_tcp a) n (ad_normal a) (ad_jumbo a)
  | CNormal => mkAdmission (ad_tcp a) (ad_udp a) n (ad_jumbo a) | CJumbo => mkAdmission (ad_tcp a) (ad_udp a) (ad_normal a) n
  end.
Definition global_limit (c : Counter) (l : Limits) : Z := match c with CTcp => l.1 | CUdp => l.2 | CNormal => GLOBAL_NORMAL_BUFFER_LIMIT | CJumbo => GLOBAL_JUMBO_BUFFER_LIMIT end.
Definition device_limit (c : Counter) : Z :=
  match c with CTcp => DEVICE_TCP_SESSION_LIMIT | CUdp => DEVICE_UDP_FLOW_LIMIT | CNormal => DEVICE_NORMAL_BUFFER_LIMIT | CJumbo => DEVICE_JUMBO_BUFFER_LIMIT end.
Definition taken (c : Counter) (r : Registry) (ip : bytes) : Registry := set_admission (update_quota r ip (q_add c 1)) (ad_set c (ad_get c (rg_admission r) + 1) (rg_admission r)).
Definition given_back (c : Counter) (r : Registry) (ip : bytes) : Registry :=
  set_admission (update_quota r ip (q_add c (-1))) (ad_set c (sat_sub (ad_get c (rg_admission r)) 1) (rg_admission r)).
Definition count (ip : bytes) (l : list bytes) : Z := len (filter (fun x => x = ip) l).

(** The holders of [c] are the addresses [ips], once for each lease. *)
Record counted (c : Counter) (r : Registry) (ips : list bytes) : Prop := {
  ct_global : ad_get c (rg_admission r) = len ips;
  ct_device : forall ip q, rg_by_ip r !! ip = Some q -> q_get c q = count ip ips;
  ct_known : Forall (fun ip => is_Some (rg_by_ip r !! ip)) ips;
  ct_limit : len ips <= global_limit c (rg_capacity r);
  ct_share : forall ip, count ip ips <= device_limit c;
}.
(** The limits a registry can have. *)
Definition limit_chain : list Limits :=
  [(GLOBAL_TCP_SESSION_LIMIT, GLOBAL_UDP_FLOW_LIMIT); (EXPANDED_TCP_SESSION_LIMIT, EXPANDED_UDP_FLOW_LIMIT);
   (MEMORY_EXPANDED_TCP_SESSION_LIMIT, MEMORY_EXPANDED_UDP_FLOW_LIMIT); (MAX_TCP_SESSION_LIMIT, MAX_UDP_FLOW_LIMIT)].

Lemma count_cons ip x l : count ip (x :: l) = (if bool_decide (x = ip) then 1 else 0) + count ip l.
Proof. unfold count. rewrite filter_cons. case_decide; [rewrite bool_decide_eq_true_2 by done; by rewrite len_cons|by rewrite bool_decide_eq_false_2]. Qed.
Lemma count_perm ip l k : l ≡ₚ k -> count ip l = count ip k.
Proof. intros H. unfold count, len. by rewrite H. Qed.
Lemma count_nonneg ip l : 0 <= count ip l.
Proof. apply len_nonneg. Qed.
Lemma count_le ip l : count ip l <= len l.
Proof. unfold count, len. pose proof (length_filter (fun x => x = ip) l). lia. Qed.
Lemma counted_perm c r l k : l ≡ₚ k -> counted c r l -> counted c r k.
Proof.
  intros Hp [H1 H2 H3 H4 H5]. assert (Hl : len l = len k) by (unfold len; by rewrite Hp). split.
  - by rewrite H1.
  - intros ip q Hq. by rewrite (H2 ip q Hq), (count_perm ip l k).
  - by rewrite <- Hp.
  - by rewrite <- Hl.
  - intros ip. by rewrite <- (count_perm ip l k).
Qed.
Lemma q_get_add c c' n q : q_get c (q_add c' n q) = if decide (c = c') then u64_of (q_get c q + n) else q_get c q.
Proof. by destruct c, c'. Qed.
Lemma ad_get_set c c' n a : ad_get c (ad_set c' n a) = if decide (c = c') then n else ad_get c a.
Proof. by destruct c, c'. Qed.
Lemma lookup_update_quota r ip f ip' : rg_by_ip (update_quota r ip f) !! ip' = (if decide (ip = ip') then f <$> rg_by_ip r !! ip' else rg_by_ip r !! ip').
Proof.
  unfold update_quota. case_decide as H; [subst ip'|]; destruct (rg_by_ip r !! ip) as [q|] eqn:E; rewrite ?E; cbn [rg_by_ip set_quota fmap option_fmap option_map]; try done;
    [apply lookup_insert_eq|by apply lookup_insert_ne].
Qed.
Lemma count_absent ip l : Forall (fun x => x <> ip) l -> count ip l = 0.
Proof. induction 1 as [|x l Hx _ IH]; [done|]. by rewrite count_cons, bool_decide_eq_false_2, IH. Qed.
Lemma capacity_update_quota r ip f : rg_capacity (update_quota r ip f) = rg_capacity r.
Proof. unfold update_quota. by destruct (rg_by_ip r !! ip). Qed.
Lemma known_update r ip f x : is_Some (rg_by_ip (update_quota r ip f) !! x) <-> is_Some (rg_by_ip r !! x).
Proof. rewrite lookup_update_quota. case_decide; [|done]. apply fmap_is_Some. Qed.

(** Taking and giving back one [c] moves only the counters of [c]. *)
Lemma counted_other c c' r ip n m ips : c <> c' -> counted c r ips ->
  counted c (set_admission (update_quota r ip (q_add c' n)) (ad_set c' m (rg_admission r))) ips.
Proof.
  intros Hne [H1 H2 H3 H4 H5]. split; cbn [rg_admission rg_by_ip rg_capacity set_admission]; try done.
  - rewrite ad_get_set. by case_decide.
  - intros x q. rewrite lookup_update_quota. case_decide; [|by apply H2]. destruct (rg_by_ip r !! x) as [q0|] eqn:E; intros [= <-].
    rewrite q_get_add. case_decide; [done|]. by apply H2.
  - eapply Forall_impl; [exact H3|]. intros x Hx. by apply known_update.
  - by rewrite capacity_update_quota.
Qed.
Lemma counted_taken c r ip q ips : counted c r ips -> rg_by_ip r !! ip = Some q -> q_get c q < device_limit c -> ad_get c (rg_admission r) < global_limit c (rg_capacity r) ->
  counted c (taken c r ip) (ip :: ips).
Proof.
  intros [H1 H2 H3 H4 H5] Hq Hd Hg. pose proof (H2 ip q Hq) as Hc. pose proof (H5 ip). assert (device_limit c <= 320) by by destruct c. unfold taken.
  split; cbn [rg_admission rg_by_ip rg_capacity set_admission].
  - rewrite ad_get_set, decide_True, H1, len_cons by done. lia.
  - intros x q'. rewrite lookup_update_quota, count_cons. case_decide as He.
    + subst x. rewrite Hq. intros [= <-]. rewrite q_get_add, decide_True, bool_decide_eq_true_2 by done. rewrite Hc. unfold u64_of. rewrite Z.mod_small; [lia|]. pose proof (count_nonneg ip ips). lia.
    + rewrite bool_decide_eq_false_2 by done. intros Hx. by apply H2.
  - constructor; [apply known_update; by eexists|]. eapply Forall_impl; [exact H3|]. intros x Hx. by apply known_update.
  - rewrite capacity_update_quota, len_cons. lia.
  - intros x. rewrite count_cons. case_bool_decide as He; [subst x; rewrite Hc in Hd; lia|apply H5].
Qed.
Lemma counted_given_back c r ip ips : counted c r (ip :: ips) -> counted c (given_back c r ip) ips.
Proof.
  intros [H1 H2 H3 H4 H5]. rewrite len_cons in *. pose proof (len_nonneg ips). apply Forall_cons in H3 as [[q Hq] H3]. unfold given_back.
  split; cbn [rg_admission rg_by_ip rg_capacity set_admission].
  - rewrite ad_get_set, decide_True, H1 by done. unfold sat_sub. lia.
  - intros x q'. rewrite lookup_update_quota. pose proof (H5 x) as Hx5. assert (device_limit c <= 320) by by destruct c. case_decide as He.
    + subst x. rewrite Hq. intros [= <-]. pose proof (H2 ip q Hq) as Hc. rewrite count_cons, bool_decide_eq_true_2 in Hc, Hx5 by done.
      rewrite q_get_add, decide_True by done. rewrite Hc. unfold u64_of. pose proof (count_nonneg ip ips). rewrite Z.mod_small; lia.
    + intros Hx. pose proof (H2 x q' Hx) as Hc. by rewrite count_cons, bool_decide_eq_false_2 in Hc.
  - eapply Forall_impl; [exact H3|]. intros x Hx. by apply known_update.
  - rewrite capacity_update_quota. lia.
  - intros x. pose proof (H5 x) as Hx. rewrite count_cons in Hx. destruct (bool_decide _) in Hx; lia.
Qed.
(** Steps that move no counter. *)
Lemma counted_frame c r r' ips : rg_by_ip r' = rg_by_ip r -> rg_admission r' = rg_admission r -> global_limit c (rg_capacity r) <= global_limit c (rg_capacity r') ->
  counted c r ips -> counted c r' ips.
Proof. intros Hb Ha Hl [H1 H2 H3 H4 H5]. split; rewrite ?Hb, ?Ha; try done. lia. Qed.
Lemma counted_activate c r ip ips : counted c r ips -> counted c (activate_tunnel_ip r ip) ips.
Proof.
  intros H. unfold activate_tunnel_ip. destruct (rg_by_ip r !! ip) as [q|] eqn:E; [done|]. destruct H as [H1 H2 H3 H4 H5]. split; try done; cbn [rg_by_ip set_quota].
  - intros x q. destruct (decide (ip = x)) as [->|Hne]; [|rewrite lookup_insert_ne by done; by apply H2]. rewrite lookup_insert_eq. intros [= <-].
    rewrite count_absent; [by destruct c|]. eapply Forall_impl; [exact H3|]. intros y [z Hy] ->. congruence.
  - eapply Forall_impl; [exact H3|]. intros x Hx. apply lookup_insert_is_Some'. by right.
Qed.

(** The limits only grow along the chain. *)
Definition limits_le (l k : Limits) : Prop := l.1 <= k.1 /\ l.2 <= k.2.
Lemma try_expand_chain l mem : l ∈ limit_chain -> (try_expand l mem).2 ∈ limit_chain /\ limits_le l (try_expand l mem).2.
Proof.
  intros Hl. unfold limits_le. unfold limit_chain in Hl. rewrite !elem_of_cons in Hl. unfold try_expand, next_limits.
  destruct Hl as [-> | [-> | [-> | [-> | Hl]]]]; [..|by apply elem_of_nil in Hl];
    destruct (some_and (Z.leb MAX_MEMORY_EXPANSION_THRESHOLD_BYTES) mem), (some_and (Z.leb MEMORY_EXPANSION_THRESHOLD_BYTES) mem);
    (split; [apply (bool_decide_unpack _); vm_compute; exact I|split; vm_compute; discriminate]).
Qed.
(** How often the limits can still grow. *)
Definition rank (l : Limits) : nat :=
  if (l.1 <? EXPANDED_TCP_SESSION_LIMIT) || (l.2 <? EXPANDED_UDP_FLOW_LIMIT) then 3%nat
  else if (l.1 <? MEMORY_EXPANDED_TCP_SESSION_LIMIT) || (l.2 <? MEMORY_EXPANDED_UDP_FLOW_LIMIT) then 2%nat
  else if (l.1 <? MAX_TCP_SESSION_LIMIT) || (l.2 <? MAX_UDP_FLOW_LIMIT) then 1%nat else 0%nat.
Lemma try_expand_rank l mem k : try_expand l mem = (true, k) -> (rank k < rank l)%nat.
Proof.
  unfold try_expand, next_limits, rank. intros H.
  destruct ((l.1 <? EXPANDED_TCP_SESSION_LIMIT) || _) eqn:E1.
  { case_bool_decide; [done|]. injection H as <-. vm_compute. lia. }
  destruct ((l.1 <? MEMORY_EXPANDED_TCP_SESSION_LIMIT) || _) eqn:E2, ((l.1 <? MAX_TCP_SESSION_LIMIT) || _) eqn:E3;
    destruct (some_and (Z.leb MAX_MEMORY_EXPANSION_THRESHOLD_BYTES) mem), (some_and (Z.leb MEMORY_EXPANSION_THRESHOLD_BYTES) mem); cbn [andb] in H;
    case_bool_decide; try done; injection H as <-; try done; vm_compute; lia.
Qed.

(** ** The registry and its leases, step by step

    The leases in the hands of the tasks: sessions admitted and not yet registered, registered, and being closed; flows; buffers. *)
Record Leases := mkLeases { ls_admitted : list bytes; ls_tcp : list TcpLease; ls_closing : list bytes; ls_udp : list bytes; ls_buffers : list BufferLease }.
Definition no_leases : Leases := mkLeases [] [] [] [] [].
Definition tcp_holders (L : Leases) : list bytes := ls_admitted L ++ (tl_ip <$> ls_tcp L) ++ ls_closing L.
Definition buffer_holders (jumbo : bool) (L : Leases) : list bytes := bl_ip <$> filter (fun l => bl_jumbo l = jumbo) (ls_buffers L).

(** Any task, in any order; fewer than [2^64] sessions are served. *)
Inductive reg_step : Registry * Leases -> Registry * Leases -> Prop :=
| Step_activate r L ip : reg_step (r, L) (activate_tunnel_ip r ip, L)
| Step_expand r L mem : reg_step (r, L) ((try_expand_capacity r mem).2, L)
| Step_admit r L ip r' : admit_tcp r ip = Ok r' ->
    reg_step (r, L) (r', mkLeases (ip :: ls_admitted L) (ls_tcp L) (ls_closing L) (ls_udp L) (ls_buffers L))
| Step_register r L ip rest : ls_admitted L ≡ₚ ip :: rest -> rg_next r < U64_MAX ->
    reg_step (r, L) ((register_session r ip).2, mkLeases rest ((register_session r ip).1 :: ls_tcp L) (ls_closing L) (ls_udp L) (ls_buffers L))
| Step_evict r L : reg_step (r, L) ((cancel_oldest_tcp r).2, L)
| Step_notified r L : reg_step (r, L) (set_permit r false, L)
| Step_forget r L l rest : ls_tcp L ≡ₚ l :: rest ->
    reg_step (r, L) (forget_session r (tl_session l), mkLeases (ls_admitted L) rest (tl_ip l :: ls_closing L) (ls_udp L) (ls_buffers L))
| Step_close r L ip rest : ls_closing L ≡ₚ ip :: rest ->
    reg_step (r, L) (notify_one (release_tcp r ip), mkLeases (ls_admitted L) (ls_tcp L) rest (ls_udp L) (ls_buffers L))
| Step_udp r L ip r' : try_acquire_udp r ip = Ok r' ->
    reg_step (r, L) (r', mkLeases (ls_admitted L) (ls_tcp L) (ls_closing L) (ip :: ls_udp L) (ls_buffers L))
| Step_udp_drop r L ip rest : ls_udp L ≡ₚ ip :: rest ->
    reg_step (r, L) (drop_udp r ip, mkLeases (ls_admitted L) (ls_tcp L) (ls_closing L) rest (ls_buffers L))
| Step_buffer r L ip (jumbo : bool) r' : (if jumbo then try_acquire_jumbo_buffer r ip else try_acquire_normal_buffer r ip) = Some r' ->
    reg_step (r, L) (r', mkLeases (ls_admitted L) (ls_tcp L) (ls_closing L) (ls_udp L) (mkBufferLease ip jumbo :: ls_buffers L))
| Step_buffer_drop r L l rest : ls_buffers L ≡ₚ l :: rest ->
    reg_step (r, L) (drop_buffer r l, mkLeases (ls_admitted L) (ls_tcp L) (ls_closing L) (ls_udp L) rest)
| Step_restart r : reg_step (r, no_leases) (reset_capacity (release_runtime_state r), no_leases).

(** The sessions that can be evicted are those registered. *)
Record sessions_ok (r : Registry) (l : list TcpLease) : Prop := {
  so_slots : forall id, is_Some (rg_evictions r !! id) <-> id ∈ tl_session <$> l;
  so_distinct : NoDup (tl_session <$> l);
  so_fresh : Forall (fun id => 0 < id < rg_next r) (tl_session <$> l);
  so_next : 0 < rg_next r < 2 ^ 64;
}.
Record reg_ok (w : Registry * Leases) : Prop := {
  ro_tcp : counted CTcp w.1 (tcp_holders w.2);
  ro_udp : counted CUdp w.1 (ls_udp w.2);
  ro_normal : counted CNormal w.1 (buffer_holders false w.2);
  ro_jumbo : counted CJumbo w.1 (buffer_holders true w.2);
  ro_limits : rg_capacity w.1 ∈ limit_chain;
  ro_sessions : sessions_ok w.1 (ls_tcp w.2);
}.

Lemma quota_for_ip_Some r ip q : quota_for_ip r ip = Some q -> rg_by_ip r !! ip = Some q.
Proof. unfold quota_for_ip. repeat split_case; congruence. Qed.
Lemma adaptive_le g d f n : adaptive_device_limit g d f n <= d.
Proof. unfold adaptive_device_limit. lia. Qed.
(** What an admission is, whatever its kind. *)
Definition grants (c : Counter) (r : Registry) (ip : bytes) (r' : Registry) : Prop :=
  r' = taken c r ip /\ exists q, rg_by_ip r !! ip = Some q /\ q_get c q < device_limit c /\ ad_get c (rg_admission r) < global_limit c (rg_capacity r).
Lemma admit_tcp_grants r ip r' : admit_tcp r ip = Ok r' -> grants CTcp r ip r'.
Proof.
  unfold admit_tcp. intros (q & Hq & H)%bind_ok. unfold try_ in Hq. split_case_in Hq; [|done]. injection Hq as ->. do 2 (split_case_in H; [done|]). injection H as <-. bool_prop.
  pose proof (adaptive_le (rg_capacity r).1 DEVICE_TCP_SESSION_LIMIT DEVICE_TCP_FLOOR (active_tcp_devices r ip)).
  split; [done|]. exists q. split_and!; [by apply quota_for_ip_Some|cbn; lia|done].
Qed.
Lemma try_acquire_udp_grants r ip r' : try_acquire_udp r ip = Ok r' -> grants CUdp r ip r'.
Proof.
  unfold try_acquire_udp. intros (q & Hq & H)%bind_ok. unfold try_ in Hq. split_case_in Hq; [|done]. injection Hq as ->. do 2 (split_case_in H; [done|]). injection H as <-. bool_prop.
  pose proof (adaptive_le (rg_capacity r).2 DEVICE_UDP_FLOW_LIMIT DEVICE_UDP_FLOOR (active_udp_devices r ip)).
  split; [done|]. exists q. split_and!; [by apply quota_for_ip_Some|cbn; lia|done].
Qed.
Lemma buffer_grants r ip (jumbo : bool) r' : (if jumbo then try_acquire_jumbo_buffer r ip else try_acquire_normal_buffer r ip) = Some r' ->
  grants (if jumbo then CJumbo else CNormal) r ip r'.
Proof.
  destruct jumbo; [unfold try_acquire_jumbo_buffer|unfold try_acquire_normal_buffer]; intros (q & Hq & Hs)%bind_Some; split_case_in Hs; try done; injection Hs as <-; bool_prop;
    (split; [done|]); by exists q.
Qed.
Lemma drop_buffer_eq r l : drop_buffer r l = given_back (if bl_jumbo l then CJumbo else CNormal) r (bl_ip l).
Proof. unfold drop_buffer. by destruct (bl_jumbo l). Qed.

Lemma counted_grants c r ip r' ips : grants c r ip r' -> counted c r ips -> counted c r' (ip :: ips).
Proof. intros [-> (q & ? & ? & ?)] Hct. by apply (counted_taken c r ip q). Qed.
Lemma counted_grants_other c c' r ip r' ips : c <> c' -> grants c' r ip r' -> counted c r ips -> counted c r' ips.
Proof. intros Hne [-> _]. by apply counted_other. Qed.
Lemma counted_given_back_other c c' r ip ips : c <> c' -> counted c r ips -> counted c (given_back c' r ip) ips.
Proof. by apply counted_other. Qed.
Lemma sessions_frame r r' l : rg_evictions r' = rg_evictions r -> rg_next r' = rg_next r -> sessions_ok r l -> sessions_ok r' l.
Proof. intros He Hn [H1 H2 H3 H4]. split; rewrite ?He, ?Hn; done. Qed.
Lemma update_quota_rest r ip f : rg_capacity (update_quota r ip f) = rg_capacity r /\ rg_evictions (update_quota r ip f) = rg_evictions r /\ rg_next (update_quota r ip f) = rg_next r.
Proof. unfold update_quota. by destruct (rg_by_ip r !! ip). Qed.

Lemma reg_ok_new : reg_ok (DeviceQuotaRegistry_new, no_leases).
Proof.
  assert (Hc : forall c, counted c DeviceQuotaRegistry_new []) by (intros []; split; try done; intros; by rewrite lookup_empty in *).
  split; cbn [fst snd]; try apply Hc; [by apply (bool_decide_unpack _)|].
  split; try done; [|by constructor..]. intros id. cbn. rewrite lookup_empty. split; [by intros [? [=]]|by intros ?%elem_of_nil].
Qed.

(** A step that moves the counters of [c] alone. *)
Definition others_kept (c : Counter) (r r' : Registry) : Prop :=
  (forall c' ips, c' <> c -> counted c' r ips -> counted c' r' ips) /\ rg_capacity r' = rg_capacity r /\ rg_evictions r' = rg_evictions r /\ rg_next r' = rg_next r.
Lemma grants_kept c r ip r' : grants c r ip r' -> others_kept c r r'.
Proof.
  intros Hg. split; [intros c' ips Hne; by apply (counted_grants_other c' c r ip)|]. destruct Hg as [-> _]. unfold taken. cbn [rg_capacity rg_evictions rg_next set_admission]. apply update_quota_rest.
Qed.
Lemma given_back_kept c r ip : others_kept c r (given_back c r ip).
Proof.
  split; [intros c' ips Hne; by apply counted_given_back_other|]. unfold given_back. cbn [rg_capacity rg_evictions rg_next set_admission]. apply update_quota_rest.
Qed.
Lemma buffer_holders_cons l L b : buffer_holders b (mkLeases (ls_admitted L) (ls_tcp L) (ls_closing L) (ls_udp L) l) = bl_ip <$> filter (fun x => bl_jumbo x = b) l.
Proof. done. Qed.

(** One class of leases changes, and its counters with it. *)
Lemma reg_ok_class c r r' L L' : others_kept c r r' -> reg_ok (r, L) ->
  (counted c r (match c with CTcp => tcp_holders L | CUdp => ls_udp L | CNormal => buffer_holders false L | CJumbo => buffer_holders true L end) ->
   counted c r' (match c with CTcp => tcp_holders L' | CUdp => ls_udp L' | CNormal => buffer_holders false L' | CJumbo => buffer_holders true L' end)) ->
  (c <> CTcp -> tcp_holders L' = tcp_holders L) -> (c <> CUdp -> ls_udp L' = ls_udp L) ->
  (c <> CNormal -> buffer_holders false L' = buffer_holders false L) -> (c <> CJumbo -> buffer_holders true L' = buffer_holders true L) -> ls_tcp L' = ls_tcp L ->
  reg_ok (r', L').
Proof.
  intros (Ho & Hcap & Hev & Hnx) [H1 H2 H3 H4 H5 H6] Hc E1 E2 E3 E4 E5. cbn [fst snd] in *. split; cbn [fst snd].
  - destruct c; [by apply Hc|rewrite E1 by done; by apply Ho..].
  - destruct c; [rewrite E2 by done; by apply Ho|by apply Hc|rewrite E2 by done; by apply Ho..].
  - destruct c; [rewrite E3 by done; by apply Ho..|by apply Hc|rewrite E3 by done; by apply Ho].
  - destruct c; [rewrite E4 by done; by apply Ho..|by apply Hc].
  - by rewrite Hcap.
  - rewrite E5. by apply (sessions_frame r).
Qed.
(** No class changes. *)
Lemma reg_ok_quiet r r' L L' : (forall c ips, counted c r ips -> counted c r' ips) -> rg_capacity r' ∈ limit_chain -> reg_ok (r, L) ->
  tcp_holders L' ≡ₚ tcp_holders L -> ls_udp L' = ls_udp L -> ls_buffers L' = ls_buffers L -> (sessions_ok r (ls_tcp L) -> sessions_ok r' (ls_tcp L')) -> reg_ok (r', L').
Proof.
  intros Hq Hl [H1 H2 H3 H4 H5 H6] E1 E2 E3 E4. cbn [fst snd] in *. split; cbn [fst snd]; unfold buffer_holders in *; rewrite ?E2, ?E3; auto.
  eapply counted_perm; [symmetry; exact E1|auto].
Qed.

Lemma sessions_register r ip l : rg_next r < U64_MAX -> sessions_ok r l -> sessions_ok (register_session r ip).2 ((register_session r ip).1 :: l).
Proof.
  intros Hm [H1 H2 H3 H4]. cbn [register_session fst snd]. assert (u64_of (rg_next r + 1) = rg_next r + 1) as Hu by (apply Z.mod_small; unfold U64_MAX in *; lia).
  split; cbn [rg_evictions rg_next set_evictions set_next fmap list_fmap tl_session]; rewrite ?Hu.
  - intros id. rewrite lookup_insert_is_Some', elem_of_cons, H1. naive_solver.
  - apply NoDup_cons. split; [|done]. intros Hin. rewrite Forall_forall in H3. specialize (H3 _ Hin). lia.
  - constructor; [lia|]. eapply Forall_impl; [exact H3|]. cbv beta. lia.
  - unfold U64_MAX in *. lia.
Qed.
Lemma sessions_forget r l k rest : k ≡ₚ l :: rest -> sessions_ok r k -> sessions_ok (forget_session r (tl_session l)) rest.
Proof.
  intros Hp [H1 H2 H3 H4]. rewrite Hp in H2, H3. cbn [fmap list_fmap] in H2, H3. apply NoDup_cons in H2 as [Hn H2]. apply Forall_cons in H3 as [_ H3]. split; try done.
  intros id. cbn [rg_evictions forget_session set_evictions]. rewrite lookup_delete_is_Some, H1, Hp. cbn [fmap list_fmap]. rewrite elem_of_cons. naive_solver.
Qed.
Lemma min_id_elem l i : min_id l = Some i -> i ∈ l.
Proof.
  destruct l as [|x l]; [done|]. cbn [min_id]. intros [= <-]. induction l as [|y l IH]; cbn [foldr]; [by left|]. destruct (Z.min_spec y (foldr Z.min x l)) as [[_ ->]|[_ ->]].
  - right. by left.
  - apply elem_of_cons in IH as [-> | IH]; [by left|]. right. by right.
Qed.
Lemma min_id_le l i j : min_id l = Some i -> j ∈ l -> i <= j.
Proof.
  destruct l as [|x l]; [done|]. cbn [min_id]. intros [= <-] Hj. induction l as [|y l IH]; cbn [foldr].
  - apply list_elem_of_singleton in Hj as ->. lia.
  - rewrite !elem_of_cons in Hj. assert (j = y \/ j ∈ x :: l) as [-> | H] by (rewrite elem_of_cons; tauto); [lia|]. specialize (IH H). lia.
Qed.
Lemma sessions_evict r l : sessions_ok r l -> sessions_ok (cancel_oldest_tcp r).2 l.
Proof.
  intros [H1 H2 H3 H4]. unfold cancel_oldest_tcp. destruct (min_id _) as [id|] eqn:E; [|by split]. split; try done.
  intros j. cbn [rg_evictions set_evictions snd]. rewrite lookup_insert_is_Some', H1. split; [|by right]. intros [<-|?]; [|done]. apply H1.
  apply min_id_elem, list_elem_of_fmap in E as ([i s] & -> & [_ Hi]%list_elem_of_filter). apply elem_of_map_to_list in Hi. by exists s.
Qed.

Lemma tcp_holders_admit ip L : tcp_holders (mkLeases (ip :: ls_admitted L) (ls_tcp L) (ls_closing L) (ls_udp L) (ls_buffers L)) = ip :: tcp_holders L.
Proof. done. Qed.
Lemma counted_quiet r r' : rg_by_ip r' = rg_by_ip r -> rg_admission r' = rg_admission r -> limits_le (rg_capacity r) (rg_capacity r') ->
  forall c ips, counted c r ips -> counted c r' ips.
Proof. intros Hb Ha [Hl1 Hl2] c ips. apply counted_frame; [done|done|]. by destruct c. Qed.
Lemma limits_le_refl l : limits_le l l.
Proof. by split. Qed.
Lemma counted_restart c r : counted c r [] -> counted c (reset_capacity (release_runtime_state r)) [].
Proof. intros [H1 H2 H3 H4 H5]. split; try done; by destruct c. Qed.
Lemma buffer_holders_perm b L l rest : ls_buffers L ≡ₚ l :: rest -> buffer_holders b L ≡ₚ (if bool_decide (bl_jumbo l = b) then [bl_ip l] else []) ++ (bl_ip <$> filter (fun x => bl_jumbo x = b) rest).
Proof. intros Hp. unfold buffer_holders. rewrite Hp, filter_cons. by case_decide; case_bool_decide. Qed.

(** The drop of a buffer lease, by class. *)
Lemma reg_ok_buffer_drop r L l rest : ls_buffers L ≡ₚ l :: rest -> reg_ok (r, L) ->
  reg_ok (drop_buffer r l, mkLeases (ls_admitted L) (ls_tcp L) (ls_closing L) (ls_udp L) rest).
Proof.
  intros Hp Hok. rewrite drop_buffer_eq. pose proof (given_back_kept (if bl_jumbo l then CJumbo else CNormal) r (bl_ip l)) as (Ho & Hcap & Hev & Hnx).
  destruct Hok as [H1 H2 H3 H4 H5 H6]. cbn [fst snd] in *. pose proof (buffer_holders_perm false L l rest Hp) as Pn. pose proof (buffer_holders_perm true L l rest Hp) as Pj.
  split; cbn [fst snd]; [apply Ho; [by destruct (bl_jumbo l)|done]..| | |by rewrite Hcap|by apply (sessions_frame r)].
  - destruct (bl_jumbo l); cbn [app] in *; eapply counted_perm in H3; try exact Pn; [by apply Ho|by apply counted_given_back].
  - destruct (bl_jumbo l); cbn [app] in *; eapply counted_perm in H4; try exact Pj; [by apply counted_given_back|by apply Ho].
Qed.
Lemma reg_ok_step w w' : reg_step w w' -> reg_ok w -> reg_ok w'.
Proof.
  destruct 1 as [r L ip|r L mem|r L ip r' Ha|r L ip rest Hp Hm|r L|r L|r L l rest Hp|r L ip rest Hp|r L ip r' Ha|r L ip rest Hp|r L ip jumbo r' Ha|r L l rest Hp|r]; intros Hok.
  - apply (reg_ok_quiet r _ L L); try done; [intros; by apply counted_activate|..]; unfold activate_tunnel_ip; destruct (rg_by_ip r !! ip); try exact (ro_limits _ Hok); try done; by apply sessions_frame.
  - destruct (try_expand_chain (rg_capacity r) mem (ro_limits _ Hok)) as [Hin Hle]. unfold try_expand_capacity. destruct (try_expand _ mem) as [b l]. cbn [snd] in *.
    apply (reg_ok_quiet r _ L L); try done; [by apply counted_quiet|by apply sessions_frame].
  - apply admit_tcp_grants in Ha. apply (reg_ok_class CTcp r r' L); try done; [by apply grants_kept in Ha|]. by apply counted_grants.
  - apply (reg_ok_quiet r _ L); try done; [by apply counted_quiet|exact (ro_limits _ Hok)| |exact (sessions_register r ip _ Hm)].
    unfold tcp_holders. cbn [ls_admitted ls_tcp ls_closing fmap list_fmap register_session fst tl_ip]. rewrite Hp. cbn [app]. by rewrite <- Permutation_middle.
  - apply (reg_ok_quiet r _ L L); try done; [..|by apply sessions_evict]; unfold cancel_oldest_tcp; destruct (min_id _); try exact (ro_limits _ Hok); try done; by apply counted_quiet.
  - apply (reg_ok_quiet r _ L L); try done; [by apply counted_quiet|exact (ro_limits _ Hok)|by apply sessions_frame].
  - apply (reg_ok_quiet r _ L); try done; [by apply counted_quiet|exact (ro_limits _ Hok)| |exact (sessions_forget r l _ rest Hp)].
    unfold tcp_holders. cbn [ls_admitted ls_tcp ls_closing]. rewrite Hp. cbn [fmap list_fmap]. by rewrite <- Permutation_middle.
  - change (notify_one (release_tcp r ip)) with (set_permit (given_back CTcp r ip) true). set (L' := mkLeases _ _ _ _ _).
    assert (Hok' : reg_ok (given_back CTcp r ip, L')).
    { apply (reg_ok_class CTcp r _ L); try done; [apply given_back_kept|]. intros Hc. apply counted_given_back. eapply counted_perm; [|exact Hc].
      unfold tcp_holders. cbn [L' ls_admitted ls_tcp ls_closing]. rewrite Hp. by rewrite !Permutation_middle. }
    apply (reg_ok_quiet (given_back CTcp r ip) _ L'); try done; [by apply counted_quiet|exact (ro_limits _ Hok')|by apply sessions_frame].
  - apply try_acquire_udp_grants in Ha. apply (reg_ok_class CUdp r r' L); try done; [by apply grants_kept in Ha|]. by apply counted_grants.
  - change (drop_udp r ip) with (given_back CUdp r ip). apply (reg_ok_class CUdp r _ L); try done; [apply given_back_kept|]. intros Hc. apply counted_given_back. by eapply counted_perm.
  - apply buffer_grants in Ha. destruct jumbo; [apply (reg_ok_class CJumbo r r' L)|apply (reg_ok_class CNormal r r' L)]; try done; try (by apply grants_kept in Ha); by apply counted_grants.
  - by apply reg_ok_buffer_drop.
  - destruct Hok as [H1 H2 H3 H4 H5 [S1 S2 S3 S4]]. cbn [fst snd] in *. split; cbn [fst snd]; try (by apply counted_restart); [by apply (bool_decide_unpack _)|].
    split; try done. intros id. cbn [rg_evictions reset_capacity release_runtime_state set_capacity set_evictions]. rewrite lookup_empty. split; [by intros [? [=]]|by intros ?%elem_of_nil].
Qed.

(** C13. Whatever the order in which TCP tasks, the UDP loop and the response tasks take and drop their leases, the
    counters of the registry, for each address and over all of them, are exactly the numbers of live leases of each kind
    (so no decrement wraps), they stay within the limits for an address and the current global limits, which are always
    one of the four configured pairs, and the sessions that can be evicted are exactly the registered ones. *)
Theorem registry_invariant w : rtc reg_step (DeviceQuotaRegistry_new, no_leases) w -> reg_ok w.
Proof.
  intros H. assert (Hgen : forall a b, rtc reg_step a b -> reg_ok a -> reg_ok b) by (induction 1; eauto using reg_ok_step). eapply Hgen; [exact H|apply reg_ok_new].
Qed.

(** ** The wait for an evicted session *)

Lemma drop_tcp_permit r l : rg_permit (drop_tcp r l) = true.
Proof. done. Qed.
Lemma try_acquire_tcp_err r r' ip e : rg_by_ip r' = rg_by_ip r -> rg_admission r' = rg_admission r -> rg_capacity r' = rg_capacity r ->
  try_acquire_tcp r ip = Err e -> try_acquire_tcp r' ip = Err e.
Proof.
  intros Hb Ha Hc. unfold try_acquire_tcp, admit_tcp, quota_for_ip, active_tcp_devices, active_devices. rewrite Hb, Ha, Hc.
  destruct (rg_by_ip r !! ip) as [q|]; [|done]. destruct (q_cancelled q); [done|]. cbn [try_ mbind result_bind]. do 2 (destruct (_ <=? _); [done|]). done.
Qed.
(** The end of a session leaves a notification behind when nobody waits for one. With it, an attempt at the global
    limit cancels the oldest session and is refused at once: [evict_oldest_tcp_and_wait] returns before the session it
    cancelled has given its place back, whatever the other tasks would do in the meantime. *)
Theorem leftover_permit_refuses others mem fuel r ip s :
  try_acquire_tcp r ip = Err GlobalLimit -> (try_expand (rg_capacity r) (mem fuel)).1 = false -> rg_permit r = true -> (cancel_oldest_tcp r).1 = true ->
  acquire_tcp_quota others mem (S fuel) r ip s = (None, set_permit (cancel_oldest_tcp r).2 false, s).
Proof.
  intros Ha He Hp Hc. cbn [acquire_tcp_quota]. rewrite Ha. unfold try_expand_capacity.
  assert (Hl : (try_expand (rg_capacity r) (mem fuel)).2 = rg_capacity r) by (unfold try_expand in *; by destruct (bool_decide _)).
  destruct (try_expand _ _) as [b l]. cbn [fst snd] in He, Hl. subst b l. cbn [set_capacity].
  replace (set_capacity r (rg_capacity r)) with r by by destruct r. unfold evict_oldest_tcp_and_wait.
  assert (Hr : forall b, try_acquire_tcp (set_permit (cancel_oldest_tcp r).2 b) ip = Err GlobalLimit).
  { intros b. apply (try_acquire_tcp_err r); [..|done]; unfold cancel_oldest_tcp; by destruct (min_id _). }
  assert (Hp' : rg_permit (cancel_oldest_tcp r).2 = true) by (unfold cancel_oldest_tcp; by destruct (min_id _)).
  destruct (cancel_oldest_tcp r) as [found r']. cbn [fst snd] in *. subst found. cbn [negb]. rewrite Hp'. by rewrite Hr.
Qed.

(** ** Buffer pools *)

(** [BufferClassPool]: the free buffers, how many exist and how many are counted as retained. *)
Record ClassPool := mkPool { bp_queue : list bytes; bp_allocated : Z; bp_retained : Z; bp_retained_limit : Z; bp_limit : Z; bp_size : Z }.
Definition BufferClassPool_new (limit retained size : Z) : ClassPool := mkPool [] 0 0 (Z.min retained limit) limit size.
(** The atomic operations; without a queue ([retained_limit] is 0) it is empty for good. *)
Definition pop (p : ClassPool) : option (bytes * ClassPool) :=
  match bp_queue p with
  | b :: q => Some (b, mkPool q (bp_allocated p) (bp_retained p) (bp_retained_limit p) (bp_limit p) (bp_size p))
  | [] => None
  end.
Definition push (p : ClassPool) (b : bytes) : option ClassPool :=
  if len (bp_queue p) <? bp_retained_limit p
  then Some (mkPool (bp_queue p ++ [b]) (bp_allocated p) (bp_retained p) (bp_retained_limit p) (bp_limit p) (bp_size p)) else None.
Definition add_retained (n : Z) (p : ClassPool) : ClassPool :=
  mkPool (bp_queue p) (bp_allocated p) (u64_of (bp_retained p + n)) (bp_retained_limit p) (bp_limit p) (bp_size p).
Definition add_allocated (n : Z) (p : ClassPool) : ClassPool :=
  mkPool (bp_queue p) (u64_of (bp_allocated p + n)) (bp_retained p) (bp_retained_limit p) (bp_limit p) (bp_size p).
Definition allocate (p : ClassPool) : option (bytes * ClassPool) :=
  if bp_allocated p <? bp_limit p then Some (zeroed (bp_size p), add_allocated 1 p) else None.
Definition reserve_retained (p : ClassPool) : option ClassPool :=
  if bp_retained p <? bp_retained_limit p then Some (add_retained 1 p) else None.
(** The methods, one task alone. *)
Definition acquire (p : ClassPool) : option (bytes * ClassPool) :=
  match pop p with
  | Some (b, p) => Some (b, add_retained (-1) p)
  | None => allocate p
  end.
Definition release (p : ClassPool) (b : bytes) : ClassPool :=
  if negb (len b =? bp_size p) || (bp_retained_limit p =? 0) then add_allocated (-1) p else
  match reserve_retained p with
  | None => add_allocated (-1) p
  | Some p => match push p b with Some p => p | None => add_allocated (-1) (add_retained (-1) p) end
  end.
Fixpoint trim_loop (fuel : nat) (p : ClassPool) : ClassPool :=
  match fuel with
  | O => p
  | S fuel => match pop p with Some (_, p) => trim_loop fuel (add_allocated (-1) (add_retained (-1) p)) | None => p end
  end.
Definition trim (p : ClassPool) : ClassPool := trim_loop (S (length (bp_queue p))) p.

(** Tasks between two atomic operations of a method: a buffer taken from the queue, one whose place in the queue is
    reserved, and the two ends of a drop. *)
Inductive PoolTask := Popped (b : bytes) | Reserved (b : bytes) | Dropping | Dropped.
Definition holds_retained (t : PoolTask) : Z := match t with Popped _ | Reserved _ | Dropping => 1 | Dropped => 0 end.
Definition total (l : list Z) : Z := foldr Z.add 0 l.
Record PoolWorld := mkPoolWorld { pw_pool : ClassPool; pw_held : list bytes; pw_tasks : list PoolTask }.
Inductive pool_step : PoolWorld -> PoolWorld -> Prop :=
| Pool_pop p h t b p' : pop p = Some (b, p') -> pool_step (mkPoolWorld p h t) (mkPoolWorld p' h (Popped b :: t))
| Pool_popped p h t b rest : t ≡ₚ Popped b :: rest -> pool_step (mkPoolWorld p h t) (mkPoolWorld (add_retained (-1) p) (b :: h) rest)
| Pool_allocate p h t b p' : allocate p = Some (b, p') -> pool_step (mkPoolWorld p h t) (mkPoolWorld p' (b :: h) t)
| Pool_free p h t b rest : h ≡ₚ b :: rest -> negb (len b =? bp_size p) || (bp_retained_limit p =? 0) = true \/ reserve_retained p = None ->
    pool_step (mkPoolWorld p h t) (mkPoolWorld (add_allocated (-1) p) rest t)
| Pool_reserve p h t b rest p' : h ≡ₚ b :: rest -> negb (len b =? bp_size p) || (bp_retained_limit p =? 0) = false -> reserve_retained p = Some p' ->
    pool_step (mkPoolWorld p h t) (mkPoolWorld p' rest (Reserved b :: t))
| Pool_push p h t b rest p' : t ≡ₚ Reserved b :: rest -> push p b = Some p' -> pool_step (mkPoolWorld p h t) (mkPoolWorld p' h rest)
| Pool_push_full p h t b rest : t ≡ₚ Reserved b :: rest -> push p b = None -> pool_step (mkPoolWorld p h t) (mkPoolWorld p h (Dropping :: rest))
| Pool_trim p h t b p' : pop p = Some (b, p') -> pool_step (mkPoolWorld p h t) (mkPoolWorld p' h (Dropping :: t))
| Pool_dropping p h t rest : t ≡ₚ Dropping :: rest -> pool_step (mkPoolWorld p h t) (mkPoolWorld (add_retained (-1) p) h (Dropped :: rest))
| Pool_dropped p h t rest : t ≡ₚ Dropped :: rest -> pool_step (mkPoolWorld p h t) (mkPoolWorld (add_allocated (-1) p) h rest).

Record pool_ok (limit retained_limit size : Z) (w : PoolWorld) : Prop := {
  po_limit : bp_limit (pw_pool w) = limit;
  po_retained_limit : bp_retained_limit (pw_pool w) = retained_limit;
  po_size : bp_size (pw_pool w) = size;
  po_allocated : bp_allocated (pw_pool w) = len (bp_queue (pw_pool w)) + len (pw_held w) + len (pw_tasks w);
  po_bound : bp_allocated (pw_pool w) <= limit;
  po_retained : bp_retained (pw_pool w) = len (bp_queue (pw_pool w)) + total (holds_retained <$> pw_tasks w);
  po_retained_bound : bp_retained (pw_pool w) <= retained_limit;
}.
Lemma total_perm l k : l ≡ₚ k -> total l = total k.
Proof. unfold total. induction 1; cbn [foldr] in *; lia. Qed.
Lemma total_cons n l : total (n :: l) = n + total l.
Proof. done. Qed.
Lemma total_nonneg l : 0 <= total (holds_retained <$> l).
Proof. unfold total. induction l as [|[] l IH]; cbn [fmap list_fmap foldr holds_retained] in *; lia. Qed.
Lemma tasks_cons t k rest : t ≡ₚ k :: rest -> len t = 1 + len rest /\ total (holds_retained <$> t) = holds_retained k + total (holds_retained <$> rest).
Proof. intros Hp. split; [unfold len; rewrite Hp; cbn [length]; lia|]. rewrite (total_perm _ (holds_retained <$> k :: rest)); [done|by rewrite Hp]. Qed.
Lemma u64_mod n : 0 <= n < 2 ^ 64 -> u64_of n = n.
Proof. apply Z.mod_small. Qed.
Ltac pool_fields := split; cbn [pw_pool pw_held pw_tasks bp_limit bp_retained_limit bp_size bp_allocated bp_retained bp_queue add_retained add_allocated fmap list_fmap] in *;
    rewrite ?total_cons, ?len_app, ?len_cons, ?len_nil, ?u64_mod in * by lia; cbn [holds_retained] in *; try done; try lia.
Lemma pool_ok_step limit rl size w w' : 0 <= limit < 2 ^ 64 -> 0 <= rl <= limit -> pool_step w w' -> pool_ok limit rl size w -> pool_ok limit rl size w'.
Proof.
  intros Hlim Hrl Hs [H1 H2 H3 H4 H5 H6 H7]. 
  destruct Hs as [p h t b p' E|p h t b rest E|p h t b p' E|p h t b rest E _|p h t b rest p' E _ Er|p h t b rest p' E Ep|p h t b rest E Ep|p h t b p' E|p h t rest E|p h t rest E]; cbn [pw_pool pw_held pw_tasks] in *;
  pose proof (len_nonneg (bp_queue p)); pose proof (len_nonneg h); pose proof (len_nonneg t); pose proof (total_nonneg t).
  1, 8: unfold pop in E; destruct (bp_queue p) as [|x q] eqn:Eq; [done|]; injection E as <- <-; rewrite len_cons in *; pool_fields.
  1: destruct (tasks_cons _ _ _ E) as [Et Ex]; cbn [holds_retained] in Ex; pose proof (total_nonneg rest); pool_fields.
  1: unfold allocate in E; split_case_in E; [|done]; injection E as <- <-; bool_prop; pool_fields.
  1: assert (len h = 1 + len rest) by (unfold len; rewrite E; cbn [length]; lia); pose proof (len_nonneg rest); pool_fields.
  1: assert (len h = 1 + len rest) by (unfold len; rewrite E; cbn [length]; lia); unfold reserve_retained in Er; split_case_in Er; [|done]; injection Er as <-; bool_prop; pool_fields.
  1: destruct (tasks_cons _ _ _ E) as [Et Ex]; unfold push in Ep; split_case_in Ep; [|done]; injection Ep as <-; bool_prop; cbn [holds_retained] in Ex; pool_fields.
  1: destruct (tasks_cons _ _ _ E) as [Et Ex]; cbn [holds_retained] in Ex; pool_fields.
  1: destruct (tasks_cons _ _ _ E) as [Et Ex]; cbn [holds_retained] in Ex; pose proof (total_nonneg rest); pool_fields.
  1: destruct (tasks_cons _ _ _ E) as [Et Ex]; cbn [holds_retained] in Ex; pose proof (total_nonneg rest); pose proof (len_nonneg rest); pool_fields.
Qed.

(** The methods are runs of the atomic operations. *)
Lemma rtc_2 (w1 w2 w3 : PoolWorld) : pool_step w1 w2 -> pool_step w2 w3 -> rtc pool_step w1 w3.
Proof. intros. eapply rtc_l; [done|]. by apply rtc_once. Qed.
Lemma acquire_run p h t b p' : acquire p = Some (b, p') -> rtc pool_step (mkPoolWorld p h t) (mkPoolWorld p' (b :: h) t).
Proof.
  unfold acquire. destruct (pop p) as [[b0 p0]|] eqn:E.
  - intros [= <- <-]. eapply rtc_2; [by eapply Pool_pop|by eapply Pool_popped].
  - intros Ha. by apply rtc_once, Pool_allocate.
Qed.
Lemma release_run p h t b : rtc pool_step (mkPoolWorld p (b :: h) t) (mkPoolWorld (release p b) h t).
Proof.
  unfold release. destruct (_ || _) eqn:E; [apply rtc_once; eapply Pool_free; [done|by left]|]. destruct (reserve_retained p) as [p1|] eqn:Er; [|apply rtc_once; eapply Pool_free; [done|by right]].
  eapply rtc_l; [by eapply Pool_reserve|]. destruct (push p1 b) as [p2|] eqn:Ep; [apply rtc_once; by eapply Pool_push|].
  eapply rtc_l; [by eapply Pool_push_full|]. eapply rtc_2; [by eapply Pool_dropping|by eapply Pool_dropped].
Qed.
Lemma trim_run fuel p h t : rtc pool_step (mkPoolWorld p h t) (mkPoolWorld (trim_loop fuel p) h t).
Proof.
  revert p. induction fuel as [|fuel IH]; intros p; [done|]. cbn [trim_loop]. destruct (pop p) as [[b p1]|] eqn:E; [|done].
  eapply rtc_l; [by eapply Pool_trim|]. eapply rtc_l; [by eapply Pool_dropping|]. eapply rtc_l; [by eapply Pool_dropped|]. apply IH.
Qed.
Lemma trim_empties p : bp_queue (trim p) = [].
Proof.
  assert (H : forall n q, (length (bp_queue q) < n)%nat -> bp_queue (trim_loop n q) = []); [|apply H; lia].
  induction n as [|n IH]; intros q Hq; [lia|]. cbn [trim_loop]. unfold pop. destruct (bp_queue q) as [|b l] eqn:E; [done|]. apply IH. cbn in *. lia.
Qed.

(** C25. Whatever the interleaving of [acquire], [release] and [trim], one atomic operation at a time, the buffers in use, in
    the queue and on their way are exactly those counted as allocated and never more than the limit, and a buffer whose
    place in the queue is reserved always finds it; every method alone is such a run. *)
Theorem buffer_pool_bounded limit retained size w :
  0 <= limit < 2 ^ 64 -> 0 <= retained -> rtc pool_step (mkPoolWorld (BufferClassPool_new limit retained size) [] []) w ->
  pool_ok limit (Z.min retained limit) size w /\ (forall b rest, pw_tasks w ≡ₚ Reserved b :: rest -> push (pw_pool w) b <> None).
Proof.
  intros Hl Hr Hs. assert (pool_ok limit (Z.min retained limit) size w) as Hok.
  { assert (Hgen : forall a b, rtc pool_step a b -> pool_ok limit (Z.min retained limit) size a -> pool_ok limit (Z.min retained limit) size b).
    { induction 1; [done|]. intros. apply IHrtc. eapply pool_ok_step; [..|done|done]; lia. }
    eapply Hgen; [exact Hs|]. split; cbn; try done; lia. }
  split; [done|]. intros b rest E. destruct Hok as [_ H2 _ _ _ H6 H7]. apply tasks_cons in E as [_ Ex]. pose proof (total_nonneg rest). cbn [holds_retained] in Ex.
  unfold push. split_case; [done|]. bool_prop. lia.
Qed.

(** ** Instances *)

Definition demo_ip : bytes := [10; 66; 67; 5].
Definition demo_lease : TcpLease := mkTcpLease demo_ip 1.
Definition demo_registry : Registry := (register_session (taken CTcp (activate_tunnel_ip DeviceQuotaRegistry_new demo_ip) demo_ip) demo_ip).2.
Lemma demo_admitted : admit_tcp (activate_tunnel_ip DeviceQuotaRegistry_new demo_ip) demo_ip = Ok (taken CTcp (activate_tunnel_ip DeviceQuotaRegistry_new demo_ip) demo_ip).
Proof. vm_compute. reflexivity. Qed.
Lemma registry_invariant_witness : reg_ok (demo_registry, mkLeases [] [demo_lease] [] [] []).
Proof.
  refine (registry_invariant (demo_registry, mkLeases [] [demo_lease] [] [] []) _).
  eapply rtc_l; [exact (Step_activate DeviceQuotaRegistry_new no_leases demo_ip)|].
  eapply rtc_l; [exact (Step_admit _ no_leases demo_ip (taken CTcp (activate_tunnel_ip DeviceQuotaRegistry_new demo_ip) demo_ip) demo_admitted)|].
  apply rtc_once. refine (Step_register _ (mkLeases [demo_ip] [] [] [] []) demo_ip [] _ _); [reflexivity|vm_compute; reflexivity].
Defined.
(** Every place of the largest limits taken, and a notification from a session that ended before. *)
Definition full_registry : Registry :=
  set_permit (set_evictions (set_admission (set_capacity (activate_tunnel_ip DeviceQuotaRegistry_new demo_ip) (2384, 4096)) (mkAdmission 2384 0 0 0)) {[ 7 := mkSlot false false ]}) true.
Lemma leftover_permit_refuses_witness :
  acquire_tcp_quota (fun r => drop_tcp r (mkTcpLease demo_ip 7)) (fun _ => None) 4 full_registry demo_ip TproxyStats_default
  = (None, set_permit (cancel_oldest_tcp full_registry).2 false, TproxyStats_default).
Proof. apply (leftover_permit_refuses _ _ 3 full_registry); vm_compute; reflexivity. Defined.
Lemma buffer_pool_bounded_witness : pool_ok 2 1 4 (mkPoolWorld (add_allocated 1 (BufferClassPool_new 2 1 4)) [[0; 0; 0; 0]] []).
Proof.
  apply (buffer_pool_bounded 2 1 4 (mkPoolWorld (add_allocated 1 (BufferClassPool_new 2 1 4)) [[0; 0; 0; 0]] [])); [lia|lia|].
  apply rtc_once. by eapply Pool_allocate.
Defined.
