(* ===== verification/Proxy.v ===== *)
(** * The UDP loop of the transparent proxy

    [run_udp] of [rust-server/tproxy.rs] as a state machine: the flows, the clients whose association is being
    opened, the pool of spare associations, and the admission of new flows.  The tasks it spawns answer by events. *)

From S2P Require Import Prelude Sink Socks Admission.

Definition TPROXY_BASE_PORT : Z := 10666.
Definition tproxy_port (runtime_id : Z) : Z := TPROXY_BASE_PORT + u16_of (runtime_id mod 50000).

Definition UDP_FLOW_IDLE : Z := 60000.
Definition ASSOCIATION_BACKOFF : Z := 2000.
Definition ASSOCIATION_POOL_TARGET : Z := 4.
Definition OPENING_PENDING_LIMIT : Z := 64.
Definition OPENING_PENDING_BYTES : Z := 64 * 1024.
Definition MAX_CONCURRENT_OPENINGS : Z := 64.

(** Sockets are numbered; the control connection of an association lives as long as it. *)
Record Association := mkAssociation { as_relay : Z; as_relay_addr : SockAddr }.
Inductive AssociationResult := Associated (a : Association) | Failed (error : bytes).

Record OpeningDatagram := mkOpening { od_destination : SockAddr; od_payload : bytes }.
Record OpeningQueue := mkOpeningQueue { oq_pending : list OpeningDatagram; oq_bytes : Z }.
Definition OpeningQueue_default : OpeningQueue := mkOpeningQueue [] 0.

(** [fl_id] names the cells a flow shares with its response task: [last_seen], [finished] and the token. *)
Record UdpFlow := mkFlow { fl_id : Z; fl_relay : Z; fl_relay_addr : SockAddr; fl_last_seen : Z; fl_finished : bool; fl_ip : bytes }.

(** What the loop does to the world. *)
Inductive Action :=
| SendTo (relay : Z) (to : SockAddr) (data : bytes)
| SpawnRefill (delay : option Z)
| SpawnOpening (client : SockAddr)
| SpawnResponses (flow : Z) (client : SockAddr)
| CancelFlow (flow : Z)
| LogWarning (error : bytes).

Record Udp := mkUdp {
  u_flows : gmap SockAddr UdpFlow;
  u_opening : gmap SockAddr OpeningQueue;
  u_opening_bytes : Z;
  u_pool : list Association;
  u_refills : Z;
  u_failure : option (Z * bytes);
  u_served : Z;
  u_datagrams : Z;
  u_backoff : Z;
  u_logged : bool;
  u_next_flow : Z;
  u_registry : Registry;
  u_stats : TproxyStats;
  u_actions : list Action;
}.
Definition set_flows (u : Udp) (m : gmap SockAddr UdpFlow) : Udp :=
  mkUdp m (u_opening u) (u_opening_bytes u) (u_pool u) (u_refills u) (u_failure u) (u_served u) (u_datagrams u) (u_backoff u) (u_logged u) (u_next_flow u) (u_registry u) (u_stats u) (u_actions u).
Definition set_opening (u : Udp) (m : gmap SockAddr OpeningQueue) (n : Z) : Udp :=
  mkUdp (u_flows u) m n (u_pool u) (u_refills u) (u_failure u) (u_served u) (u_datagrams u) (u_backoff u) (u_logged u) (u_next_flow u) (u_registry u) (u_stats u) (u_actions u).
Definition set_pool (u : Udp) (l : list Association) (n : Z) : Udp :=
  mkUdp (u_flows u) (u_opening u) (u_opening_bytes u) l n (u_failure u) (u_served u) (u_datagrams u) (u_backoff u) (u_logged u) (u_next_flow u) (u_registry u) (u_stats u) (u_actions u).
Definition set_failure (u : Udp) (f : option (Z * bytes)) : Udp :=
  mkUdp (u_flows u) (u_opening u) (u_opening_bytes u) (u_pool u) (u_refills u) f (u_served u) (u_datagrams u) (u_backoff u) (u_logged u) (u_next_flow u) (u_registry u) (u_stats u) (u_actions u).
Definition set_served (u : Udp) (n id : Z) : Udp :=
  mkUdp (u_flows u) (u_opening u) (u_opening_bytes u) (u_pool u) (u_refills u) (u_failure u) n (u_datagrams u) (u_backoff u) (u_logged u) id (u_registry u) (u_stats u) (u_actions u).
Definition set_receive (u : Udp) (datagrams backoff : Z) (logged : bool) : Udp :=
  mkUdp (u_flows u) (u_opening u) (u_opening_bytes u) (u_pool u) (u_refills u) (u_failure u) (u_served u) datagrams backoff logged (u_next_flow u) (u_registry u) (u_stats u) (u_actions u).
Definition set_registry (u : Udp) (r : Registry) : Udp :=
  mkUdp (u_flows u) (u_opening u) (u_opening_bytes u) (u_pool u) (u_refills u) (u_failure u) (u_served u) (u_datagrams u) (u_backoff u) (u_logged u) (u_next_flow u) r (u_stats u) (u_actions u).
Definition set_stats (u : Udp) (s : TproxyStats) : Udp :=
  mkUdp (u_flows u) (u_opening u) (u_opening_bytes u) (u_pool u) (u_refills u) (u_failure u) (u_served u) (u_datagrams u) (u_backoff u) (u_logged u) (u_next_flow u) (u_registry u) s (u_actions u).
Definition act (u : Udp) (a : Action) : Udp :=
  mkUdp (u_flows u) (u_opening u) (u_opening_bytes u) (u_pool u) (u_refills u) (u_failure u) (u_served u) (u_datagrams u) (u_backoff u) (u_logged u) (u_next_flow u) (u_registry u) (u_stats u) (u_actions u ++ [a]).

Section UdpLoop.
(** The order in which a hash map is iterated, the capacity of a zeroed buffer, and the memory available at each question. *)
Context (iter : gmap SockAddr UdpFlow -> list (SockAddr * UdpFlow)).
Context (capacity : Z -> Z).
Context (available_memory : nat -> option Z).

(** [OpeningBufferPool]: a buffer counts with its capacity. *)
Definition opening_acquire (allocated n : Z) : option Z :=
  match checked_add allocated (capacity n) with
  | Some next => if next <=? PROXY_OPENING_BUFFER_LIMIT then Some next else None
  | None => None
  end.
Definition opening_capacity (q : OpeningQueue) : Z := total ((fun d => capacity (len (od_payload d))) <$> oq_pending q).
Definition OpeningQueue_push (q : OpeningQueue) (destination : SockAddr) (payload : bytes) (allocated : Z) : OpeningQueue * Z :=
  if (OPENING_PENDING_LIMIT <=? len (oq_pending q)) || (OPENING_PENDING_BYTES <? oq_bytes q + len payload) then (q, allocated) else
  match opening_acquire allocated (len payload) with
  | None => (q, allocated)
  | Some allocated => (mkOpeningQueue (oq_pending q ++ [mkOpening destination payload]) (oq_bytes q + len payload), allocated)
  end.

(** The end of a flow: its token, its lease and the counter. *)
Definition end_flow (u : Udp) (f : UdpFlow) : Udp :=
  let u := act u (CancelFlow (fl_id f)) in
  set_stats (set_registry u (drop_udp (u_registry u) (fl_ip f))) (udp_finished (u_stats u)).
Definition remove_flow (u : Udp) (key : SockAddr) (f : UdpFlow) : Udp := end_flow (set_flows u (delete key (u_flows u))) f.

Fixpoint oldest (l : list (SockAddr * UdpFlow)) : option (SockAddr * UdpFlow) :=
  match l with
  | [] => None
  | e :: l => match oldest l with Some e' => if fl_last_seen e'.2 <? fl_last_seen e.2 then Some e' else Some e | None => Some e end
  end.
Definition evict_oldest_udp_flow (u : Udp) : bool * Udp :=
  match oldest (iter (u_flows u)) with
  | None => (false, u)
  | Some (key, f) => (true, remove_flow u key f)
  end.
Fixpoint acquire_udp_loop (fuel : nat) (u : Udp) (ip : bytes) : bool * Udp :=
  match fuel with
  | O => (false, u)
  | S fuel =>
      match try_acquire_udp (u_registry u) ip with
      | Ok r => (true, set_stats (set_registry u r) (set_limits (u_stats u) (rg_capacity r)))
      | Err GlobalLimit =>
          let '(grown, r) := try_expand_capacity (u_registry u) (available_memory fuel) in
          if grown then acquire_udp_loop fuel (set_stats (set_registry u r) (set_limits (u_stats u) (rg_capacity r))) ip else
          let '(evicted, u) := evict_oldest_udp_flow (set_registry u r) in
          if negb evicted then (false, u) else acquire_udp_loop fuel u ip
      | _ => (false, u)
      end
  end.
(** At most three expansions, and one eviction for each flow. *)
Definition acquire_udp_quota (u : Udp) (ip : bytes) : bool * Udp := acquire_udp_loop (5 + size (u_flows u)) u ip.

Definition send_frame_to (u : Udp) (f : UdpFlow) (destination : SockAddr) (payload : bytes) : Udp :=
  match fl_relay_addr f with
  | SockV4 _ _ => act u (SendTo (fl_relay f) (fl_relay_addr f) (send_frame (octets destination) (port_of destination) payload))
  | SockV6 _ _ _ _ => u
  end.
(** [UdpFlow::start] *)
Definition start_flow (u : Udp) (client : SockAddr) (a : Association) (now : Z) : UdpFlow * Udp :=
  let f := mkFlow (u_next_flow u) (as_relay a) (as_relay_addr a) now false (octets client) in
  (f, set_stats (act u (SpawnResponses (fl_id f) client)) (udp_started (u_stats u))).
Definition touch (f : UdpFlow) (now : Z) : UdpFlow := mkFlow (fl_id f) (fl_relay f) (fl_relay_addr f) now (fl_finished f) (fl_ip f).
Definition finish (f : UdpFlow) : UdpFlow := mkFlow (fl_id f) (fl_relay f) (fl_relay_addr f) (fl_last_seen f) true (fl_ip f).
Definition idle (f : UdpFlow) (now : Z) : bool := UDP_FLOW_IDLE <? now - fl_last_seen f.
(** The token of a flow in the map is a child of its address's. *)
Definition is_cancelled (r : Registry) (f : UdpFlow) : bool := match rg_by_ip r !! fl_ip f with Some q => q_cancelled q | None => false end.
Definition dead (r : Registry) (now : Z) (f : UdpFlow) : bool := is_cancelled r f || idle f now || fl_finished f.
Definition retain_step (now : Z) (u : Udp) (e : SockAddr * UdpFlow) : Udp := if dead (u_registry u) now e.2 then remove_flow u e.1 e.2 else u.
Definition retain_flows (u : Udp) (now : Z) : Udp := foldl (retain_step now) u (iter (u_flows u)).

Fixpoint refill (fuel : nat) (u : Udp) (delay : option Z) : Udp :=
  match fuel with
  | O => u
  | S fuel => if len (u_pool u) + u_refills u <? ASSOCIATION_POOL_TARGET
              then refill fuel (set_pool (act u (SpawnRefill delay)) (u_pool u) (u_refills u + 1)) delay else u
  end.
Definition refill_pool (u : Udp) (delay : option Z) : Udp := refill (Z.to_nat ASSOCIATION_POOL_TARGET) u delay.
Definition run_udp_start (r : Registry) (s : TproxyStats) : Udp := refill_pool (mkUdp ∅ ∅ 0 [] 0 None 0 0 0 false 0 r s []) None.

Definition on_pool (u : Udp) (received : AssociationResult) : Udp :=
  let u := set_pool u (u_pool u) (sat_sub (u_refills u) 1) in
  let u := match received with
           | Associated a => if len (u_pool u) <? ASSOCIATION_POOL_TARGET then set_pool u (u_pool u ++ [a]) (u_refills u) else u
           | Failed _ => u
           end in
  refill_pool u (match received with Failed _ => Some ASSOCIATION_BACKOFF | Associated _ => None end).

(** A new flow, after its admission: the datagrams it starts with are sent. *)
Definition open_flow (u : Udp) (client : SockAddr) (a : Association) (datagrams : list OpeningDatagram) (now : Z) : Udp :=
  let '(f, u) := start_flow u client a now in
  let u := set_served u (u_served u + 1) (u_next_flow u + 1) in
  let u := foldl (fun u d => send_frame_to u f (od_destination d) (od_payload d)) u datagrams in
  let u := match u_flows u !! client with Some old => set_registry u (drop_udp (u_registry u) (fl_ip old)) | None => u end in
  set_flows u (<[client := f]> (u_flows u)).

Definition on_opened (u : Udp) (client : SockAddr) (association : AssociationResult) (now : Z) : Udp :=
  let pending := match u_opening u !! client with Some q => oq_pending q | None => [] end in
  (* the buffers go when the branch ends *)
  let u := set_opening u (delete client (u_opening u)) (u64_of (u_opening_bytes u - total ((fun d => capacity (len (od_payload d))) <$> pending))) in
  match client with
  | SockV6 _ _ _ _ => u
  | SockV4 ip _ =>
      match association with
      | Associated a =>
          let u := set_failure u None in
          let '(admitted, u) := acquire_udp_quota u ip in
          if negb admitted then set_stats u (udp_budget_rejected (u_stats u)) else open_flow u client a pending now
      | Failed error =>
          let should_log := match u_failure u with Some (_, previous) => negb (bytes_eqb previous error) | None => true end in
          let u := if should_log then act u (LogWarning error) else u in
          set_failure u (Some (now, error))
      end
  end.

(** A client with neither a flow nor an opening: a spare association, or a new one. *)
Definition open_client (u : Udp) (key : SockAddr) (destination : SockAddr) (payload : bytes) (now : Z) : Udp :=
  if MAX_CONCURRENT_OPENINGS <=? Z.of_nat (size (u_opening u)) then u else
  match u_pool u with
  | a :: pool =>
      let u := set_pool u pool (u_refills u) in
      let '(admitted, u) := acquire_udp_quota u (octets key) in
      if negb admitted then set_stats u (udp_budget_rejected (u_stats u)) else
      refill_pool (open_flow u key a [mkOpening destination payload] now) None
  | [] =>
      let u := act u (SpawnOpening key) in
      let '(q, n) := OpeningQueue_push OpeningQueue_default destination payload (u_opening_bytes u) in
      refill_pool (set_opening u (<[key := q]> (u_opening u)) n) None
  end.
(** A datagram of a client that has no flow. *)
Definition new_client (u : Udp) (key : SockAddr) (destination : SockAddr) (payload : bytes) (now : Z) : Udp :=
  match u_opening u !! key with
  | Some q => let '(q, n) := OpeningQueue_push q destination payload (u_opening_bytes u) in set_opening u (<[key := q]> (u_opening u)) n
  | None =>
      match u_failure u with
      | Some (failed, _) => if now - failed <? ASSOCIATION_BACKOFF then u else open_client (set_failure u None) key destination payload now
      | None => open_client u key destination payload now
      end
  end.
(** One datagram; [now] is when it is read. *)
Definition on_datagram (u : Udp) (ip : bytes) (port : Z) (destination : SockAddr) (payload : bytes) (now : Z) : Udp :=
  if negb (allowed_client ip) then u else
  let u := set_registry u (activate_tunnel_ip (u_registry u) ip) in
  let u := set_receive u (u_datagrams u + 1) 0 (u_logged u) in
  let key := SockV4 ip port in
  match u_flows u !! key with
  | Some f =>
      if negb (fl_finished f) then
        let f := touch f now in send_frame_to (set_flows u (<[key := f]> (u_flows u))) f destination payload
      else new_client (remove_flow u key f) key destination payload now
  | None => new_client u key destination payload now
  end.
(** The datagrams of one readiness, until the socket is empty or fails; a failure delays the loop by the backoff. *)
Inductive Received := Datagram (ip : bytes) (port : Z) (destination : SockAddr) (payload : bytes) (now : Z) | WouldBlock | ReceiveError (error : bytes).
Fixpoint on_readable (u : Udp) (l : list Received) : Udp :=
  match l with
  | [] | WouldBlock :: _ => u
  | ReceiveError error :: _ =>
      let u := if u_logged u then u else act u (LogWarning error) in
      set_receive u (u_datagrams u) (Z.min (Z.max (u_backoff u) 1 * 2) 50) true
  | Datagram ip port destination payload now :: l => on_readable (on_datagram u ip port destination payload now) l
  end.
(** The cells a response task shares with its flow. *)
Definition on_flow (u : Udp) (id : Z) (f : UdpFlow -> UdpFlow) : Udp := set_flows u ((fun e => if fl_id e =? id then f e else e) <$> u_flows u).
(** The end of the loop. *)
Definition drain (u : Udp) : Udp :=
  let u := foldl (fun u e => remove_flow u e.1 e.2) u (iter (u_flows u)) in
  set_opening u ∅ (u64_of (u_opening_bytes u - total (opening_capacity <$> (map_to_list (u_opening u)).*2))).

Inductive UdpEvent :=
| ResponsesEnded (now : Z) | Sweep (now : Z) | PoolReceived (r : AssociationResult) | Opened (client : SockAddr) (r : AssociationResult) (now : Z)
| Readable (l : list Received) | ResponseSeen (flow now : Z) | ResponseFinished (flow : Z).
Definition on_event (u : Udp) (e : UdpEvent) : Udp :=
  match e with
  | ResponsesEnded now | Sweep now => retain_flows u now
  | PoolReceived r => on_pool u r
  | Opened client r now => on_opened u client r now
  | Readable l => on_readable u l
  | ResponseSeen id now => on_flow u id (fun f => touch f now)
  | ResponseFinished id => on_flow u id finish
  end.
End UdpLoop.

(** ** Admission of a flow *)

Lemma len_filter_update {P : bytes * DeviceQuota -> Prop} `{!forall x, Decision (P x)} (m : gmap bytes DeviceQuota) ip q q' :
  m !! ip = Some q -> (P (ip, q') -> P (ip, q)) -> len (filter P (map_to_list (<[ip := q']> m))) <= len (filter P (map_to_list m)).
Proof.
  intros Hq Himp. unfold len.
  assert (E1 : map_to_list m ≡ₚ (ip, q) :: map_to_list (delete ip m)) by (symmetry; by apply map_to_list_delete).
  assert (E2 : map_to_list (<[ip := q']> m) ≡ₚ (ip, q') :: map_to_list (delete ip m)).
  { rewrite <- insert_delete_eq. apply map_to_list_insert, lookup_delete_eq. }
  rewrite E1, E2, !filter_cons. repeat case_decide; cbn [length]; try lia. tauto.
Qed.
Lemma adaptive_mono g g' d f n n' : 0 <= g <= g' -> n' <= n -> adaptive_device_limit g d f n <= adaptive_device_limit g' d f n'.
Proof.
  intros Hg Hn. unfold adaptive_device_limit.
  assert (g / Z.max n 1 <= g' / Z.max n' 1); [|lia]. transitivity (g / Z.max n' 1); [apply Z.div_le_compat_l; lia|apply Z.div_le_mono; lia].
Qed.
Lemma counted_udp_full r ip ips : counted CUdp r ips -> try_acquire_udp r ip = Err GlobalLimit ->
  exists q, rg_by_ip r !! ip = Some q /\ q_cancelled q = false /\ ad_udp (rg_admission r) = (rg_capacity r).2
    /\ q_udp q < adaptive_device_limit (rg_capacity r).2 DEVICE_UDP_FLOW_LIMIT DEVICE_UDP_FLOOR (active_udp_devices r ip).
Proof.
  intros [H1 _ _ H4 _] Ha. unfold try_acquire_udp, quota_for_ip in Ha. destruct (rg_by_ip r !! ip) as [q|]; [|done]. destruct (q_cancelled q) eqn:Eq; [done|].
  cbn [try_ mbind result_bind] in Ha. do 2 (split_case_in Ha; [try done|]); try done. bool_prop. cbn in H1, H4. exists q. split_and!; [done|done|lia|done].
Qed.
Lemma try_acquire_udp_ok r ip q : rg_by_ip r !! ip = Some q -> q_cancelled q = false -> ad_udp (rg_admission r) < (rg_capacity r).2 ->
  q_udp q < adaptive_device_limit (rg_capacity r).2 DEVICE_UDP_FLOW_LIMIT DEVICE_UDP_FLOOR (active_udp_devices r ip) -> try_acquire_udp r ip = Ok (taken CUdp r ip).
Proof.
  intros Hq Hc Hg Hd. unfold try_acquire_udp, quota_for_ip. rewrite Hq, Hc. cbn [try_ mbind result_bind].
  replace (_ <=? q_udp q) with false by lia. by replace (_ <=? ad_udp _) with false by lia.
Qed.
Lemma try_expand_grows l mem k : l ∈ limit_chain -> try_expand l mem = (true, k) -> l.1 < k.1 /\ l.2 < k.2.
Proof.
  intros Hl. unfold limit_chain in Hl. rewrite !elem_of_cons in Hl. unfold try_expand, next_limits.
  destruct Hl as [-> | [-> | [-> | [-> | Hl]]]]; [..|by apply elem_of_nil in Hl];
    destruct (some_and (Z.leb MAX_MEMORY_EXPANSION_THRESHOLD_BYTES) mem), (some_and (Z.leb MEMORY_EXPANSION_THRESHOLD_BYTES) mem);
    vm_compute; intros [= <-]; done.
Qed.
(** Whether the limits may grow: beyond the first step only with memory to spare. *)
Definition may_grow (limit : Z) (available_memory : option Z) : bool :=
  (limit <? EXPANDED_UDP_FLOW_LIMIT)
  || ((limit <? MEMORY_EXPANDED_UDP_FLOW_LIMIT) && some_and (Z.leb MEMORY_EXPANSION_THRESHOLD_BYTES) available_memory)
  || ((limit <? MAX_UDP_FLOW_LIMIT) && some_and (Z.leb MAX_MEMORY_EXPANSION_THRESHOLD_BYTES) available_memory).
Lemma try_expand_may_grow l mem : l ∈ limit_chain -> (try_expand l mem).1 = may_grow l.2 mem.
Proof.
  intros Hl. unfold limit_chain in Hl. rewrite !elem_of_cons in Hl. unfold try_expand, next_limits, may_grow.
  destruct Hl as [-> | [-> | [-> | [-> | Hl]]]]; [..|by apply elem_of_nil in Hl];
    destruct (some_and (Z.leb MAX_MEMORY_EXPANSION_THRESHOLD_BYTES) mem), (some_and (Z.leb MEMORY_EXPANSION_THRESHOLD_BYTES) mem); vm_compute; reflexivity.
Qed.
(** The share of an address. *)
Definition udp_share (r : Registry) (ip : bytes) : Z := adaptive_device_limit (rg_capacity r).2 DEVICE_UDP_FLOW_LIMIT DEVICE_UDP_FLOOR (active_udp_devices r ip).
Inductive Verdict := Refused | Room | Full.
(** What is asked of a new flow of [ip], from the addresses of the flows. *)
Definition verdict (r : Registry) (ip : bytes) (ips : list bytes) : Verdict :=
  match rg_by_ip r !! ip with
  | Some q => if q_cancelled q || (udp_share r ip <=? count ip ips) then Refused else if len ips <? (rg_capacity r).2 then Room else Full
  | None => Refused
  end.
Lemma verdict_spec r ip ips : counted CUdp r ips ->
  match try_acquire_udp r ip with Ok _ => verdict r ip ips = Room | Err GlobalLimit => verdict r ip ips = Full | _ => verdict r ip ips = Refused end.
Proof.
  intros [H1 H2 _ _ _]. unfold try_acquire_udp, quota_for_ip, verdict, udp_share. destruct (rg_by_ip r !! ip) as [q|] eqn:Eq; [|done]. specialize (H2 ip q Eq). cbn in H1, H2. rewrite <- H2, <- H1.
  destruct (q_cancelled q); [done|]. cbn [try_ mbind result_bind orb]. destruct (_ <=? q_udp q); [done|].
  destruct (Z.leb_spec (rg_capacity r).2 (ad_udp (rg_admission r))), (Z.ltb_spec (ad_udp (rg_admission r)) (rg_capacity r).2); done || lia.
Qed.
(** Room made by an expansion is enough. *)
Lemma expansion_admits r ip ips mem k : counted CUdp r ips -> rg_capacity r ∈ limit_chain -> try_acquire_udp r ip = Err GlobalLimit -> try_expand (rg_capacity r) mem = (true, k) ->
  try_acquire_udp (set_capacity r k) ip = Ok (taken CUdp (set_capacity r k) ip).
Proof.
  intros Hc Hl Ha He. destruct (counted_udp_full r ip ips Hc Ha) as (q & Hq & Hn & Hg & Hd). destruct (try_expand_grows _ _ _ Hl He) as [_ Hk].
  pose proof (ct_global _ _ _ Hc) as Hz. cbn in Hz. pose proof (len_nonneg ips).
  apply (try_acquire_udp_ok _ _ q); [done|done|cbn; lia|]. eapply Z.lt_le_trans; [exact Hd|]. apply adaptive_mono; cbn [rg_capacity set_capacity]; [lia|done].
Qed.
(** And so is that of one flow. *)
Lemma eviction_admits r ip ips old rest : counted CUdp r ips -> ips ≡ₚ old :: rest -> try_acquire_udp r ip = Err GlobalLimit ->
  try_acquire_udp (drop_udp r old) ip = Ok (taken CUdp (drop_udp r old) ip).
Proof.
  intros Hc Hp Ha. destruct (counted_udp_full r ip ips Hc Ha) as (q & Hq & Hn & Hg & Hd).
  pose proof (counted_given_back CUdp r old rest (counted_perm _ _ _ _ Hp Hc)) as Hc'. change (given_back CUdp r old) with (drop_udp r old) in Hc'.
  pose proof (ct_global _ _ _ Hc) as Hz. pose proof (ct_global _ _ _ Hc') as Hz'. cbn [ad_get] in Hz, Hz'. assert (len ips = 1 + len rest) by (unfold len; rewrite Hp; cbn [length]; lia).
  pose proof (ct_device _ _ _ Hc ip q Hq) as Hq1. pose proof (ct_known _ _ _ Hc) as Hk. rewrite Hp in Hk. apply Forall_cons in Hk as [[qo Hqo] _].
  pose proof (ct_device _ _ _ Hc old qo Hqo) as Hqo1. pose proof (ct_share _ _ _ Hc old) as Hs. rewrite (count_perm _ _ _ Hp), count_cons, bool_decide_eq_true_2 in Hqo1, Hs by done.
  cbn [q_get device_limit] in *. pose proof (count_nonneg old rest).
  assert (Hnew : exists q', rg_by_ip (drop_udp r old) !! ip = Some q' /\ q_cancelled q' = false /\ q_udp q' <= q_udp q).
  { unfold drop_udp. cbn [rg_by_ip set_admission]. rewrite lookup_update_quota, Hq. case_decide as Heq; [|by exists q]. subst ip. eexists. split; [reflexivity|]. split; [done|].
    cbn [add_udp q_udp]. unfold u64_of, DEVICE_UDP_FLOW_LIMIT in *. rewrite Hq in Hqo. injection Hqo as <-. rewrite Z.mod_small by lia. lia. }
  destruct Hnew as (q' & Hq' & Hcn & Hle). assert (Hcap : rg_capacity (drop_udp r old) = rg_capacity r) by apply (given_back_kept CUdp r old).
  apply (try_acquire_udp_ok _ _ q'); [done|done|rewrite Hcap; lia|]. rewrite Hcap. eapply Z.le_lt_trans; [exact Hle|]. eapply Z.lt_le_trans; [exact Hd|].
  apply adaptive_mono; [pose proof (len_nonneg rest); lia|]. unfold active_udp_devices, active_devices. unfold drop_udp. cbn [rg_by_ip set_admission]. unfold update_quota. rewrite Hqo. cbn [rg_by_ip set_quota].
  apply Z.max_le_compat_l, (len_filter_update _ _ qo); [done|]. cbn [fst snd]. intros [->|Hne]; [by left|]. right. rewrite Hqo1. lia.
Qed.

(** ** What the loop keeps *)

Definition with_udp (L : Leases) (ips : list bytes) : Leases := mkLeases (ls_admitted L) (ls_tcp L) (ls_closing L) ips (ls_buffers L).
Definition flow_ips (m : gmap SockAddr UdpFlow) : list bytes := (fun e => fl_ip e.2) <$> map_to_list m.
(** A client of the tunnel. *)
Definition is_client (k : SockAddr) : Prop := match k with SockV4 ip _ => allowed_client ip = true | SockV6 _ _ _ _ => False end.
(** The flows of the map, and [held] admissions not yet in it, are what the registry counts. *)
Record flows_ok (L : Leases) (held : list bytes) (m : gmap SockAddr UdpFlow) (r : Registry) (s : TproxyStats) (n : Z) : Prop := {
  fo_registry : reg_ok (r, with_udp L (held ++ flow_ips m));
  fo_stats : st_udp_active s = Z.of_nat (size m);
  fo_keys : map_Forall (fun k f => is_client k /\ fl_ip f = octets k /\ fl_id f < n) m;
  fo_ids : forall k k' f f', m !! k = Some f -> m !! k' = Some f' -> fl_id f = fl_id f' -> k = k';
}.
Definition uflows_ok (L : Leases) (held : list bytes) (u : Udp) : Prop := flows_ok L held (u_flows u) (u_registry u) (u_stats u) (u_next_flow u).

Lemma flow_ips_insert m k f : m !! k = None -> flow_ips (<[k := f]> m) ≡ₚ fl_ip f :: flow_ips m.
Proof. intros H. unfold flow_ips. by rewrite map_to_list_insert. Qed.
Lemma flow_ips_delete m k f : m !! k = Some f -> flow_ips m ≡ₚ fl_ip f :: flow_ips (delete k m).
Proof. intros H. rewrite <- (flow_ips_insert _ k f) by apply lookup_delete_eq. by rewrite insert_delete_id. Qed.
Lemma flow_ips_length m : length (flow_ips m) = size m.
Proof. unfold flow_ips. by rewrite length_fmap, length_map_to_list. Qed.
Lemma reg_ok_with_udp r L ips : reg_ok (r, with_udp L ips) -> counted CUdp r ips.
Proof. by intros []. Qed.
Lemma reg_ok_udp_perm r L ips ips' : ips ≡ₚ ips' -> reg_ok (r, with_udp L ips) -> reg_ok (r, with_udp L ips').
Proof. intros Hp [H1 H2 H3 H4 H5 H6]. split; cbn [fst snd] in *; try done. by eapply counted_perm. Qed.
Lemma reg_ok_taken r L ip r' ips : try_acquire_udp r ip = Ok r' -> reg_ok (r, with_udp L ips) -> reg_ok (r', with_udp L (ip :: ips)).
Proof. intros Ha. apply (reg_ok_step (r, with_udp L ips)). exact (Step_udp r (with_udp L ips) ip r' Ha). Qed.
Lemma reg_ok_dropped r L ip ips rest : ips ≡ₚ ip :: rest -> reg_ok (r, with_udp L ips) -> reg_ok (drop_udp r ip, with_udp L rest).
Proof. intros Hp. apply (reg_ok_step (r, with_udp L ips)). exact (Step_udp_drop r (with_udp L ips) ip rest Hp). Qed.

Lemma flows_ok_stats L held m r s s' n : st_udp_active s' = st_udp_active s -> flows_ok L held m r s n -> flows_ok L held m r s' n.
Proof. intros He [H1 H2 H3 H4]. split; try done. by rewrite He. Qed.
Lemma flows_ok_activate L held m r s n ip : flows_ok L held m r s n -> flows_ok L held m (activate_tunnel_ip r ip) s n.
Proof. intros [H1 H2 H3 H4]. split; try done. exact (reg_ok_step _ _ (Step_activate r _ ip) H1). Qed.
Lemma flows_ok_expand L held m r s n mem : flows_ok L held m r s n -> flows_ok L held m (try_expand_capacity r mem).2 s n.
Proof. intros [H1 H2 H3 H4]. split; try done. exact (reg_ok_step _ _ (Step_expand r _ mem) H1). Qed.
Lemma flows_ok_acquire L m r s n ip r' : try_acquire_udp r ip = Ok r' -> flows_ok L [] m r s n -> flows_ok L [ip] m r' s n.
Proof. intros Ha [H1 H2 H3 H4]. split; try done. by apply reg_ok_taken with (r := r). Qed.
Lemma size_delete_Some (m : gmap SockAddr UdpFlow) k f : m !! k = Some f -> Z.of_nat (size m) = Z.of_nat (size (delete k m)) + 1.
Proof. intros H. rewrite <- (insert_delete_id m k f) at 1 by done. rewrite map_size_insert_None by apply lookup_delete_eq. lia. Qed.
Lemma chain_bound l : l ∈ limit_chain -> 784 <= l.2 <= 4096.
Proof. unfold limit_chain. rewrite !elem_of_cons. intros [-> | [-> | [-> | [-> | Hin]]]]; [..|by apply elem_of_nil in Hin]; vm_compute; by split. Qed.
Lemma size_bound L held m r s n : flows_ok L held m r s n -> Z.of_nat (size m) <= 4096.
Proof.
  intros [H1 _ _ _]. pose proof (chain_bound _ (ro_limits _ H1)). apply reg_ok_with_udp in H1. pose proof (ct_limit _ _ _ H1) as Hl. cbn [fst global_limit] in *.
  rewrite len_app in Hl. pose proof (len_nonneg held). unfold len in Hl at 2. rewrite flow_ips_length in Hl. lia.
Qed.
(** A flow ends. *)
Lemma flows_ok_end L held m r s n k f : m !! k = Some f -> flows_ok L held m r s n -> flows_ok L held (delete k m) (drop_udp r (fl_ip f)) (udp_finished s) n.
Proof.
  intros Hk Hok. pose proof (size_bound _ _ _ _ _ _ Hok) as Hb. destruct Hok as [H1 H2 H3 H4]. pose proof (size_delete_Some m k f Hk). split.
  - eapply reg_ok_dropped; [|exact H1]. rewrite (flow_ips_delete m k f Hk). by rewrite Permutation_middle.
  - cbn [udp_finished st_udp_active]. rewrite H2. unfold u64_of. rewrite Z.mod_small; lia.
  - by apply map_Forall_delete.
  - intros a b f1 f2 Ha Hb1. apply lookup_delete_Some in Ha as [_ Ha]. apply lookup_delete_Some in Hb1 as [_ Hb1]. by eapply H4.
Qed.
(** A flow starts with the admission that is held. *)
Lemma flows_ok_start L m r s n k f : m !! k = None -> is_client k -> fl_ip f = octets k -> fl_id f = n ->
  flows_ok L [octets k] m r s n -> flows_ok L [] (<[k := f]> m) r (udp_started s) (n + 1).
Proof.
  intros Hk Hc Hi Hid Hok. pose proof (size_bound _ _ _ _ _ _ Hok) as Hb. destruct Hok as [H1 H2 H3 H4]. split.
  - eapply reg_ok_udp_perm; [|exact H1]. cbn [app]. by rewrite flow_ips_insert, Hi by done.
  - cbn [udp_started st_udp_active]. rewrite H2, map_size_insert_None by done. unfold u64_of. rewrite Z.mod_small; lia.
  - apply map_Forall_insert_2; [split_and!; [done|done|lia]|]. eapply map_Forall_impl; [exact H3|]. intros x g (? & ? & ?). split_and!; [done|done|lia].
  - intros a b f1 f2. rewrite !lookup_insert_Some. intros [[<- <-]|[? Ha]] [[<- <-]|[? Hb1]] He; try done; [..|by eapply H4].
    + specialize (H3 _ _ Hb1). cbv beta in H3. lia.
    + specialize (H3 _ _ Ha). cbv beta in H3. lia.
Qed.
(** The shared cells do not matter. *)
Lemma flows_ok_cells L held m m' r s n : (forall k, (fun f => (fl_id f, fl_ip f)) <$> m' !! k = (fun f => (fl_id f, fl_ip f)) <$> m !! k) ->
  flow_ips m' ≡ₚ flow_ips m -> size m' = size m -> flows_ok L held m r s n -> flows_ok L held m' r s n.
Proof.
  intros He Hp Hs [H1 H2 H3 H4]. assert (Hl : forall k f, m' !! k = Some f -> exists g, m !! k = Some g /\ fl_id f = fl_id g /\ fl_ip f = fl_ip g).
  { intros k f Hk. specialize (He k). rewrite Hk in He. destruct (m !! k) as [g|]; [|done]. injection He as ? ?. by exists g. }
  split; [eapply reg_ok_udp_perm; [|exact H1]; by rewrite Hp|by rewrite Hs|..].
  - intros k f Hk. destruct (Hl k f Hk) as (g & Hg & Hi & Hip). rewrite Hi, Hip. by apply H3.
  - intros k k' f f' Hk Hk' Heq. destruct (Hl k f Hk) as (g & Hg & Hi & _). destruct (Hl k' f' Hk') as (g' & Hg' & Hi' & _). eapply H4; [done|done|congruence].
Qed.

(** The tasks that were spawned. *)
Definition openings_of (l : list Action) : list SockAddr := omap (fun a => match a with SpawnOpening k => Some k | _ => None end) l.
Definition refills_of (l : list Action) : Z := total ((fun a => match a with SpawnRefill _ => 1 | _ => 0 end) <$> l).
Definition is_spawn (a : Action) : bool := match a with SpawnRefill _ | SpawnOpening _ => true | _ => false end.
(** Everything but the flows, the registry, the counters and the actions on flows. *)
Definition rest_of (u : Udp) := (u_opening u, u_opening_bytes u, u_pool u, u_refills u, openings_of (u_actions u), refills_of (u_actions u)).
Lemma total_app l k : total (l ++ k) = total l + total k.
Proof. unfold total. induction l as [|x l IH]; cbn [app foldr]; lia. Qed.
Lemma openings_of_app l k : openings_of (l ++ k) = openings_of l ++ openings_of k.
Proof. apply omap_app. Qed.
Lemma refills_of_app l k : refills_of (l ++ k) = refills_of l + refills_of k.
Proof. unfold refills_of. by rewrite fmap_app, total_app. Qed.
Lemma rest_of_act u a : is_spawn a = false -> rest_of (act u a) = rest_of u.
Proof.
  intros Ha. unfold rest_of. cbn [u_opening u_opening_bytes u_pool u_refills u_actions act]. rewrite openings_of_app, refills_of_app.
  destruct a; try done; cbn [openings_of omap list_omap]; rewrite app_nil_r; unfold refills_of at 2; cbn [fmap list_fmap]; rewrite total_cons; by rewrite Z.add_0_r.
Qed.
Lemma rest_of_end u f : rest_of (end_flow u f) = rest_of u.
Proof. unfold end_flow. change (rest_of (act u (CancelFlow (fl_id f))) = rest_of u). by apply rest_of_act. Qed.
Lemma rest_of_remove u k f : rest_of (remove_flow u k f) = rest_of u.
Proof. unfold remove_flow. by rewrite rest_of_end. Qed.
Lemma flows_remove u k f : u_flows (remove_flow u k f) = delete k (u_flows u).
Proof. done. Qed.
Lemma remove_ok L held u k f : u_flows u !! k = Some f -> uflows_ok L held u -> uflows_ok L held (remove_flow u k f).
Proof. intros Hk Hok. exact (flows_ok_end L held (u_flows u) (u_registry u) (u_stats u) (u_next_flow u) k f Hk Hok). Qed.

Lemma oldest_spec l e : oldest l = Some e -> e ∈ l /\ Forall (fun e' => fl_last_seen e.2 <= fl_last_seen e'.2) l.
Proof.
  revert e. induction l as [|x l IH]; intros e; [done|]. cbn [oldest]. destruct (oldest l) as [y|] eqn:E.
  - destruct (IH y eq_refl) as [Hy Hall]. split_case; intros [= <-]; bool_prop; (split; [rewrite elem_of_cons; tauto|]); constructor; try lia; try done.
    eapply Forall_impl; [exact Hall|]. cbv beta. lia.
  - intros [= <-]. split; [by left|]. destruct l as [|z l]; [by constructor|]. cbn in E. destruct (oldest l); [by split_case_in E|done].
Qed.
Lemma oldest_None l : oldest l = None -> l = [].
Proof. destruct l as [|x l]; [done|]. cbn. destruct (oldest l); [by split_case|done]. Qed.

Section UdpProofs.
Context (iter : gmap SockAddr UdpFlow -> list (SockAddr * UdpFlow)) (capacity : Z -> Z) (available_memory : nat -> option Z).
Context (Hiter : forall m, iter m ≡ₚ map_to_list m) (Hcapacity : forall n, 0 <= n -> n <= capacity n).

Lemma iter_elem m k f : (k, f) ∈ iter m <-> m !! k = Some f.
Proof. rewrite Hiter. apply elem_of_map_to_list. Qed.
(** The flow that was used least recently. *)
Definition least_recent (m : gmap SockAddr UdpFlow) (k : SockAddr) (f : UdpFlow) : Prop :=
  m !! k = Some f /\ map_Forall (fun _ g => fl_last_seen f <= fl_last_seen g) m.
Lemma oldest_least m k f : oldest (iter m) = Some (k, f) -> least_recent m k f.
Proof.
  intros (Hin & Hall)%oldest_spec. split; [by apply iter_elem|]. intros k' g Hg. rewrite Forall_forall in Hall. apply (Hall (k', g)). by apply iter_elem.
Qed.

(** How room is made: the limits grow where they may, and one flow ends where they may not. *)
Definition room_made (u u' : Udp) : Prop :=
  let l := rg_capacity (u_registry u) in let l' := rg_capacity (u_registry u') in
  if may_grow l.2 (available_memory (4 + size (u_flows u))%nat) then l.1 < l'.1 /\ l.2 < l'.2 /\ u_flows u' = u_flows u
  else l' = l /\ exists k f, least_recent (u_flows u) k f /\ u_flows u' = delete k (u_flows u).
Lemma room_made_flows u u' : room_made u u' -> u_flows u' = u_flows u \/ exists k, u_flows u' = delete k (u_flows u).
Proof. unfold room_made. cbv zeta. destruct (may_grow _ _); [intros (_ & _ & ?); by left|intros (_ & k & _ & _ & ?); right; by exists k]. Qed.
(** What an admission does to the flows. *)
Definition acquired (L : Leases) (u : Udp) (ip : bytes) (b : bool) (u' : Udp) : Prop :=
  rest_of u' = rest_of u /\
  match try_acquire_udp (u_registry u) ip with
  | Ok _ => b = true /\ (u_flows u' = u_flows u /\ rg_capacity (u_registry u') = rg_capacity (u_registry u)) /\ uflows_ok L [ip] u'
  | Err GlobalLimit => b = true /\ room_made u u' /\ uflows_ok L [ip] u'
  | _ => b = false /\ u' = u
  end.
Lemma capacity_taken r ip : rg_capacity (taken CUdp r ip) = rg_capacity r.
Proof. apply capacity_update_quota. Qed.
Lemma try_acquire_capacity r ip r' : try_acquire_udp r ip = Ok r' -> rg_capacity r' = rg_capacity r.
Proof.
  unfold try_acquire_udp. destruct (quota_for_ip r ip); [|done]. cbn [try_ mbind result_bind]. do 2 (split_case; [done|]). intros [= <-]. apply capacity_update_quota.
Qed.
Lemma acquire_once fuel u ip r : try_acquire_udp (u_registry u) ip = Ok r ->
  acquire_udp_loop iter available_memory (S fuel) u ip = (true, set_stats (set_registry u r) (set_limits (u_stats u) (rg_capacity r))).
Proof. intros H. cbn [acquire_udp_loop]. by rewrite H. Qed.
Lemma acquired_uflows L u r ip : try_acquire_udp (u_registry u) ip = Ok r -> uflows_ok L [] u -> uflows_ok L [ip] (set_stats (set_registry u r) (set_limits (u_stats u) (rg_capacity r))).
Proof. intros Hr Hok. eapply flows_ok_stats; [|exact (flows_ok_acquire L _ _ _ _ ip r Hr Hok)]. done. Qed.
Lemma acquire_udp_quota_acquired L u ip : uflows_ok L [] u ->
  acquired L u ip (acquire_udp_quota iter available_memory u ip).1 (acquire_udp_quota iter available_memory u ip).2.
Proof.
  intros Hok. unfold acquired, room_made, acquire_udp_quota. change (5 + size (u_flows u))%nat with (S (S (3 + size (u_flows u)))). change (4 + size (u_flows u))%nat with (S (3 + size (u_flows u))).
  generalize (3 + size (u_flows u))%nat. intros fuel. destruct (try_acquire_udp (u_registry u) ip) as [r|e|] eqn:Ha.
  - rewrite (acquire_once _ _ _ _ Ha). cbn [fst snd]. split_and!; [done|done|done|by apply try_acquire_capacity in Ha|by apply acquired_uflows].
  - remember (S fuel) as m eqn:Hm. destruct e; cbn [acquire_udp_loop]; rewrite Ha; cbn [fst snd]; try done.
    pose proof (fo_registry _ _ _ _ _ _ Hok) as Hreg. pose proof (reg_ok_with_udp _ _ _ Hreg) as Hc. cbn [app] in Hc. pose proof (ro_limits _ Hreg) as Hl.
    subst m. rewrite <- (try_expand_may_grow (rg_capacity (u_registry u)) (available_memory (S fuel)) Hl).
    unfold try_expand_capacity. destruct (try_expand (rg_capacity (u_registry u)) (available_memory (S fuel))) as [grown l] eqn:He. destruct grown.
    + pose proof (expansion_admits _ _ _ _ _ Hc Hl Ha He) as Hr. set (u1 := set_stats _ _). change (set_capacity (u_registry u) l) with (u_registry u1) in Hr.
      destruct (try_expand_grows _ _ _ Hl He) as [Hg1 Hg2].
      rewrite (acquire_once _ _ _ _ Hr). cbn [fst snd]. split_and!; [done|done|cbn [set_stats set_registry u_registry]; by rewrite capacity_taken..|done|].
      apply acquired_uflows; [done|]. apply (flows_ok_stats _ _ _ _ (u_stats u)); [done|]. pose proof (flows_ok_expand L [] _ _ _ _ (available_memory (S fuel)) Hok) as Hx.
      unfold try_expand_capacity in Hx. rewrite He in Hx. exact Hx.
    + assert (l = rg_capacity (u_registry u)) as -> by (unfold try_expand in He; split_case_in He; congruence).
      replace (set_capacity (u_registry u) (rg_capacity (u_registry u))) with (u_registry u) by by destruct (u_registry u).
      replace (set_registry u (u_registry u)) with u by by destruct u. unfold evict_oldest_udp_flow.
      destruct (oldest (iter (u_flows u))) as [[k f]|] eqn:Eo.
      * pose proof (oldest_least _ _ _ Eo) as Hold. pose proof Hold as [Hk _]. cbn [negb].
        pose proof (eviction_admits _ _ _ (fl_ip f) _ Hc (flow_ips_delete _ k f Hk) Ha) as Hr. change (drop_udp (u_registry u) (fl_ip f)) with (u_registry (remove_flow u k f)) in Hr.
        rewrite (acquire_once _ _ _ _ Hr). cbn [fst snd].
        split_and!; [exact (rest_of_remove u k f)|done| |by exists k, f|].
        { cbn [set_stats set_registry u_registry]. rewrite capacity_taken. apply (given_back_kept CUdp (u_registry u) (fl_ip f)). }
        apply acquired_uflows; [done|]. by apply remove_ok.
      * exfalso. apply oldest_None in Eo. assert (u_flows u = ∅) as Hm' by (apply map_to_list_empty_iff, Permutation_nil_r; by rewrite <- Hiter, Eo).
        destruct (counted_udp_full _ _ _ Hc Ha) as (q & _ & _ & Hg & _). pose proof (ct_global _ _ _ Hc) as Hz. rewrite Hm' in Hz. cbn [ad_get] in Hz. pose proof (chain_bound _ Hl). cbn [fst] in *.
        change (len (flow_ips ∅)) with 0 in Hz. lia.
  - exfalso. unfold try_acquire_udp in Ha. destruct (quota_for_ip _ _); [|done]. cbn [try_ mbind result_bind] in Ha. by repeat split_case_in Ha.
Qed.

(** ** Openings and the pool *)

Definition opening_total (o : gmap SockAddr OpeningQueue) : Z := total ((fun e => opening_capacity capacity e.2) <$> map_to_list o).
Definition payload_bytes (q : OpeningQueue) : Z := total ((fun d => len (od_payload d)) <$> oq_pending q).
Record queue_ok (k : SockAddr) (q : OpeningQueue) : Prop := {
  qo_client : is_client k;
  qo_pending : len (oq_pending q) <= OPENING_PENDING_LIMIT;
  qo_bytes : oq_bytes q = payload_bytes q;
  qo_limit : oq_bytes q <= OPENING_PENDING_BYTES;
}.
(** [R] are the openings that were answered, [N] the answers of the refills: the other tasks are the entries of [opening]
    and the refills in flight. *)
Record rest_ok (R : list SockAddr) (N : Z) (u : Udp) : Prop := {
  ko_queues : map_Forall queue_ok (u_opening u);
  ko_count : Z.of_nat (size (u_opening u)) <= MAX_CONCURRENT_OPENINGS;
  ko_bytes : u_opening_bytes u = opening_total (u_opening u);
  ko_memory : u_opening_bytes u <= PROXY_OPENING_BUFFER_LIMIT;
  ko_openings : openings_of (u_actions u) ≡ₚ R ++ (map_to_list (u_opening u)).*1;
  ko_pool : 0 <= u_refills u /\ len (u_pool u) + u_refills u <= ASSOCIATION_POOL_TARGET;
  ko_refills : refills_of (u_actions u) = N + u_refills u;
}.
Record udp_ok (L : Leases) (R : list SockAddr) (N : Z) (u : Udp) : Prop := {
  uo_flows : uflows_ok L [] u;
  uo_disjoint : forall k, is_Some (u_flows u !! k) -> u_opening u !! k = None;
  uo_rest : rest_ok R N u;
}.

Lemma rest_ok_eq R N u u' : rest_of u' = rest_of u -> rest_ok R N u -> rest_ok R N u'.
Proof. intros E. injection E as E1 E2 E3 E4 E5 E6. intros [H1 H2 H3 H4 H5 H6 H7]. split; rewrite ?E1, ?E2, ?E3, ?E4, ?E5, ?E6; done. Qed.
Lemma total_payload_nonneg l : 0 <= total ((fun d => len (od_payload d)) <$> l).
Proof. induction l as [|d l IH]; [done|]. rewrite fmap_cons, total_cons. pose proof (len_nonneg (od_payload d)). lia. Qed.
Lemma capacity_covers l : total ((fun d => len (od_payload d)) <$> l) <= total ((fun d => capacity (len (od_payload d))) <$> l).
Proof.
  induction l as [|d l IH]; [done|]. rewrite !fmap_cons, !total_cons. pose proof (Hcapacity _ (len_nonneg (od_payload d))). lia.
Qed.
Lemma opening_capacity_nonneg q : 0 <= opening_capacity capacity q.
Proof. unfold opening_capacity. pose proof (capacity_covers (oq_pending q)). pose proof (total_payload_nonneg (oq_pending q)). lia. Qed.
Lemma opening_total_nonneg o : 0 <= opening_total o.
Proof.
  unfold opening_total. induction (map_to_list o) as [|e l IH]; [done|]. rewrite fmap_cons, total_cons. pose proof (opening_capacity_nonneg e.2). lia.
Qed.
Lemma opening_total_insert o k q : o !! k = None -> opening_total (<[k := q]> o) = opening_capacity capacity q + opening_total o.
Proof. intros H. unfold opening_total. rewrite (total_perm _ ((fun e => opening_capacity capacity e.2) <$> (k, q) :: map_to_list o)); [done|]. by rewrite map_to_list_insert. Qed.
Lemma opening_total_delete o k q : o !! k = Some q -> opening_total o = opening_capacity capacity q + opening_total (delete k o).
Proof. intros H. rewrite <- (opening_total_insert _ k q) by apply lookup_delete_eq. by rewrite insert_delete_id. Qed.
Lemma opening_total_update o k q q' : o !! k = Some q -> opening_total (<[k := q']> o) = opening_total o - opening_capacity capacity q + opening_capacity capacity q'.
Proof. intros H. rewrite (opening_total_delete o k q H). rewrite <- insert_delete_eq, opening_total_insert by apply lookup_delete_eq. lia. Qed.
Lemma keys_insert (o : gmap SockAddr OpeningQueue) k q : o !! k = None -> (map_to_list (<[k := q]> o)).*1 ≡ₚ k :: (map_to_list o).*1.
Proof. intros H. by rewrite map_to_list_insert. Qed.
Lemma keys_update (o : gmap SockAddr OpeningQueue) k q q' : o !! k = Some q -> (map_to_list (<[k := q']> o)).*1 ≡ₚ (map_to_list o).*1.
Proof.
  intros H. rewrite <- insert_delete_eq, keys_insert by apply lookup_delete_eq. rewrite <- (insert_delete_id o k q H) at 2. by rewrite keys_insert by apply lookup_delete_eq.
Qed.

(** A datagram waits in the queue of its client, or is dropped. *)
Lemma push_spec k q destination payload n : queue_ok k q -> n <= PROXY_OPENING_BUFFER_LIMIT ->
  let '(q', n') := OpeningQueue_push capacity q destination payload n in
  queue_ok k q' /\ n' - n = opening_capacity capacity q' - opening_capacity capacity q /\ n' <= PROXY_OPENING_BUFFER_LIMIT.
Proof.
  intros [H1 H2 H3 H4] Hn. unfold OpeningQueue_push. destruct (_ || _) eqn:E; [split_and!; [done|lia|done]|]. bool_prop.
  unfold opening_acquire, checked_add. destruct (n + _ <=? USIZE_MAX); [|split_and!; [done|lia|done]]. destruct (_ <=? PROXY_OPENING_BUFFER_LIMIT) eqn:E2; [|split_and!; [done|lia|done]]. bool_prop.
  split_and!; [|unfold opening_capacity; cbn [oq_pending]; rewrite fmap_app, total_app, fmap_cons, total_cons; cbn [od_payload fmap list_fmap]; change (total []) with 0; lia|done].
  unfold OPENING_PENDING_LIMIT, OPENING_PENDING_BYTES in *. split; cbn [oq_pending oq_bytes]; unfold OPENING_PENDING_LIMIT, OPENING_PENDING_BYTES; [done|rewrite len_app, len_cons, len_nil; lia| |lia].
  rewrite H3. unfold payload_bytes. cbn [oq_pending]. rewrite fmap_app, total_app, fmap_cons, total_cons. cbn [od_payload fmap list_fmap]. change (total []) with 0. lia.
Qed.
Lemma queue_ok_default k : is_client k -> queue_ok k OpeningQueue_default.
Proof. intros. by split. Qed.

(** ** Every event keeps it *)

Lemma refills_of_act l d : refills_of (l ++ [SpawnRefill d]) = refills_of l + 1.
Proof. rewrite refills_of_app. done. Qed.
Lemma openings_of_refill l d : openings_of (l ++ [SpawnRefill d]) = openings_of l.
Proof. rewrite openings_of_app. apply app_nil_r. Qed.
(** The fields [refill] leaves alone. *)
Definition kept (u : Udp) := (u_flows u, u_registry u, u_stats u, u_next_flow u, u_opening u).
Lemma kept_ok L R N u u' : kept u' = kept u -> udp_ok L R N u -> rest_ok R N u' -> udp_ok L R N u'.
Proof. intros E. injection E as E1 E2 E3 E4 E5. intros [H1 H2 H3] H. split; [unfold uflows_ok in *; by rewrite E1, E2, E3, E4|by rewrite E1, E5|done]. Qed.
Lemma refill_kept fuel u d : kept (refill fuel u d) = kept u.
Proof. revert u. induction fuel as [|fuel IH]; intros u; [done|]. cbn [refill]. split_case; [by rewrite IH|done]. Qed.
Lemma refill_rest R N fuel u d : rest_ok R N u -> rest_ok R N (refill fuel u d).
Proof.
  revert u. induction fuel as [|fuel IH]; intros u Hok; [done|]. cbn [refill]. split_case; [|done]. bool_prop. apply IH. destruct Hok as [H1 H2 H3 H4 H5 [H6 H7] H8].
  split; cbn [u_opening u_opening_bytes u_pool u_refills u_actions act set_pool]; try done; [by rewrite openings_of_refill|lia|rewrite refills_of_act; lia].
Qed.
Lemma refill_pool_ok L R N u d : udp_ok L R N u -> udp_ok L R N (refill_pool u d).
Proof. intros H. apply (kept_ok L R N u); [apply refill_kept|done|]. apply refill_rest, H. Qed.
(** Afterwards the pool and the refills under way are what is wanted. *)
Lemma refill_pool_full u d : 0 <= u_refills u -> ASSOCIATION_POOL_TARGET <= len (u_pool (refill_pool u d)) + u_refills (refill_pool u d).
Proof.
  intros H0. unfold refill_pool, ASSOCIATION_POOL_TARGET in *. assert (H : forall n u, 0 <= u_refills u -> 4 - (len (u_pool u) + u_refills u) <= Z.of_nat n ->
    4 <= len (u_pool (refill n u d)) + u_refills (refill n u d)).
  { induction n as [|n IH]; intros v Hv Hn; cbn [refill]; [lia|]. unfold ASSOCIATION_POOL_TARGET. split_case; bool_prop; [|lia]. apply IH; cbn [u_pool u_refills act set_pool]; lia. }
  apply H; [done|]. pose proof (len_nonneg (u_pool u)). lia.
Qed.

Lemma on_pool_ok L R N u received : N < refills_of (u_actions u) -> udp_ok L R N u -> udp_ok L R (N + 1) (on_pool u received).
Proof.
  intros HN [H1 H2 [K1 K2 K3 K4 K5 [K6 K7] K8]]. unfold on_pool. apply refill_pool_ok. assert (sat_sub (u_refills u) 1 = u_refills u - 1) as Hs by (unfold sat_sub; lia).
  assert (Hrest : forall l, len l + (u_refills u - 1) <= ASSOCIATION_POOL_TARGET -> udp_ok L R (N + 1) (set_pool u l (u_refills u - 1))).
  { intros l Hl. split; [exact H1|exact H2|]. split; cbn [u_opening u_opening_bytes u_pool u_refills u_actions set_pool]; try done; lia. }
  rewrite Hs. destruct received as [a|e]; cbn [u_pool u_refills set_pool]; [|apply Hrest; lia].
  split_case; [|apply Hrest; lia]. apply (Hrest (u_pool u ++ [a])). rewrite len_app, len_cons, len_nil. lia.
Qed.

(** Steps on the flows alone. *)
Lemma send_frame_rest u f d p : rest_of (send_frame_to u f d p) = rest_of u.
Proof. unfold send_frame_to. destruct (fl_relay_addr f); [|done]. by apply rest_of_act. Qed.
Lemma send_frame_kept u f d p : kept (send_frame_to u f d p) = kept u.
Proof. unfold send_frame_to. by destruct (fl_relay_addr f). Qed.
Lemma send_frames_kept u f l : kept (foldl (fun u d => send_frame_to u f (od_destination d) (od_payload d)) u l) = kept u
  /\ rest_of (foldl (fun u d => send_frame_to u f (od_destination d) (od_payload d)) u l) = rest_of u.
Proof. revert u. induction l as [|d l IH]; intros u; [done|]. cbn [foldl]. destruct (IH (send_frame_to u f (od_destination d) (od_payload d))) as [-> ->]. by rewrite send_frame_kept, send_frame_rest. Qed.

(** A flow opens with an admission in hand. *)
Lemma open_flow_ok L R N u k a l now : uflows_ok L [octets k] u -> rest_ok R N u -> (forall k', is_Some (u_flows u !! k') -> u_opening u !! k' = None) ->
  is_client k -> u_flows u !! k = None -> u_opening u !! k = None -> udp_ok L R N (open_flow u k a l now).
Proof.
  intros Hf Hr Hd Hc Hk Ho. unfold open_flow, start_flow. set (f := mkFlow (u_next_flow u) _ _ _ _ _). set (u1 := set_served _ _ _).
  destruct (send_frames_kept u1 f l) as [Hkept Hrest]. set (u2 := foldl _ _ _) in *. injection Hkept as E1 E2 E3 E4 E5. rewrite E1. change (u_flows u1) with (u_flows u). rewrite Hk, E1. change (u_flows u1) with (u_flows u).
  split.
  - unfold uflows_ok. cbn [u_flows u_registry u_stats u_next_flow set_flows]. rewrite E2, E3, E4. exact (flows_ok_start L (u_flows u) (u_registry u) (u_stats u) (u_next_flow u) k f Hk Hc eq_refl eq_refl Hf).
  - intros k' [g Hg]. cbn [u_flows u_opening set_flows] in *. rewrite E5. apply lookup_insert_Some in Hg as [[<- _]|[_ Hg]]; [done|]. apply Hd. by exists g.
  - apply (rest_ok_eq R N u); [|done]. change (rest_of (set_flows u2 _)) with (rest_of u2). rewrite Hrest. exact (rest_of_act u (SpawnResponses _ k) eq_refl).
Qed.
Lemma acquired_disjoint L u ip b u' : acquired L u ip b u' -> (forall k, is_Some (u_flows u !! k) -> u_opening u !! k = None) ->
  (forall k, is_Some (u_flows u' !! k) -> u_opening u' !! k = None) /\ (forall k, u_flows u !! k = None -> u_flows u' !! k = None) /\ u_opening u' = u_opening u.
Proof.
  intros [E H] Hd. injection E as E _ _ _ _ _. rewrite E.
  assert (Hsub : forall k, u_flows u !! k = None -> u_flows u' !! k = None).
  { intros k Hk. destruct (try_acquire_udp _ _) as [|[]|]; [destruct H as (_ & [-> _] & _)|destruct H as (_ & ->)|destruct H as (_ & ->)|destruct H as (_ & [-> | (k' & ->)]%room_made_flows & _)|destruct H as (_ & ->)]; try done.
    apply lookup_delete_None. by right. }
  split_and!; [|done|done]. intros k Hs. destruct (u_flows u !! k) as [f|] eqn:Ef; [apply Hd; by exists f|]. rewrite Hsub in Hs by done. by destruct Hs.
Qed.
(** Admission, then the flow or the refusal. *)
Lemma admit_ok L R N u k a l now (after : Udp -> Udp) : is_client k -> u_flows u !! k = None -> u_opening u !! k = None -> udp_ok L R N u ->
  (forall v, udp_ok L R N v -> udp_ok L R N (after v)) ->
  udp_ok L R N (let '(admitted, u) := acquire_udp_quota iter available_memory u (octets k) in
                if negb admitted then set_stats u (udp_budget_rejected (u_stats u)) else after (open_flow u k a l now)).
Proof.
  intros Hc Hk Ho [H1 H2 H3] Hafter. pose proof (acquire_udp_quota_acquired L u (octets k) H1) as Ha. destruct (acquire_udp_quota _ _ _ _) as [b u']. cbn [fst snd] in Ha.
  destruct (acquired_disjoint L u _ b u' Ha H2) as (Hd' & Hn & Hop). destruct Ha as [Er Ha].
  assert (Hgood : uflows_ok L [octets k] u' -> udp_ok L R N (after (open_flow u' k a l now))).
  { intros Hu. apply Hafter, open_flow_ok; [done|by apply (rest_ok_eq R N u)|done|done|by apply Hn|by rewrite Hop]. }
  assert (Hbad : b = false -> u' = u -> udp_ok L R N (set_stats u' (udp_budget_rejected (u_stats u')))).
  { intros _ ->. split; [by apply (flows_ok_stats _ _ _ _ (u_stats u))|exact H2|by apply (rest_ok_eq R N u)]. }
  destruct (try_acquire_udp _ _) as [|[]|]; [destruct Ha as (-> & _ & Hu)|destruct Ha as [-> ->]|destruct Ha as [-> ->]|destruct Ha as (-> & _ & Hu)|destruct Ha as [-> ->]]; cbn [negb]; auto.
Qed.

Lemma udp_ok_failure L R N u x : udp_ok L R N u -> udp_ok L R N (set_failure u x).
Proof. intros [H1 H2 H3]. split; [exact H1|exact H2|by apply (rest_ok_eq R N u)]. Qed.
Lemma udp_ok_act L R N u a : is_spawn a = false -> udp_ok L R N u -> udp_ok L R N (act u a).
Proof. intros Ha [H1 H2 H3]. split; [exact H1|exact H2|]. apply (rest_ok_eq R N u); [by apply rest_of_act|done]. Qed.
Lemma udp_ok_receive L R N u a b c : udp_ok L R N u -> udp_ok L R N (set_receive u a b c).
Proof. intros [H1 H2 H3]. split; [exact H1|exact H2|by apply (rest_ok_eq R N u)]. Qed.
Lemma udp_ok_remove L R N u k f : u_flows u !! k = Some f -> udp_ok L R N u -> udp_ok L R N (remove_flow u k f).
Proof.
  intros Hk [H1 H2 H3]. split; [by apply remove_ok| |apply (rest_ok_eq R N u); [apply rest_of_remove|done]].
  intros k' [g Hg]. change (u_opening (remove_flow u k f)) with (u_opening u). rewrite flows_remove in Hg. apply lookup_delete_Some in Hg as [_ Hg]. apply H2. by exists g.
Qed.

(** The queue of an opening that was answered. *)
Lemma opening_answered L R N u k rest : openings_of (u_actions u) ≡ₚ R ++ k :: rest -> udp_ok L R N u ->
  exists q, u_opening u !! k = Some q /\ is_client k /\ u_flows u !! k = None
    /\ udp_ok L (k :: R) N (set_opening u (delete k (u_opening u)) (u64_of (u_opening_bytes u - opening_capacity capacity q))).
Proof.
  intros Hp [H1 H2 [K1 K2 K3 K4 K5 K6 K7]]. assert (Hkeys : (map_to_list (u_opening u)).*1 ≡ₚ k :: rest) by (apply (Permutation_app_inv_l R); by rewrite <- K5).
  assert (Hin : k ∈ (map_to_list (u_opening u)).*1) by (rewrite Hkeys; by left). apply list_elem_of_fmap in Hin as ([k' q] & -> & Hq%elem_of_map_to_list). cbn [fst] in *.
  exists q. pose proof (opening_total_delete _ _ _ Hq) as Ht. pose proof (opening_total_nonneg (delete k' (u_opening u))).
  assert (Hsub : u64_of (u_opening_bytes u - opening_capacity capacity q) = opening_total (delete k' (u_opening u))).
  { unfold u64_of, PROXY_OPENING_BUFFER_LIMIT in *. rewrite K3, Ht. replace (_ + _ - _) with (opening_total (delete k' (u_opening u))) by lia.
    pose proof (opening_capacity_nonneg q). apply Z.mod_small. lia. }
  assert (Hnf : u_flows u !! k' = None). { destruct (u_flows u !! k') as [f|] eqn:Ef; [|done]. specialize (H2 k' (ex_intro _ f Ef)). congruence. }
  split_and!; [done|exact (qo_client _ _ (K1 _ _ Hq))|done|]. split; [exact H1| |].
  - intros x Hx. cbn [u_flows u_opening set_opening] in *. apply lookup_delete_None. right. by apply H2.
  - rewrite Hsub. split; cbn [u_opening u_opening_bytes u_pool u_refills u_actions set_opening]; try done.
    + by apply map_Forall_delete.
    + rewrite map_size_delete, Hq. lia.
    + pose proof (opening_capacity_nonneg q). lia.
    + rewrite K5. rewrite <- (insert_delete_id (u_opening u) k' q Hq) at 1. rewrite keys_insert by apply lookup_delete_eq. by rewrite <- Permutation_middle.
Qed.
Lemma on_opened_ok L R N u k r now rest : openings_of (u_actions u) ≡ₚ R ++ k :: rest -> udp_ok L R N u -> udp_ok L (k :: R) N (on_opened iter capacity available_memory u k r now).
Proof.
  intros Hp Hok. destruct (opening_answered L R N u k rest Hp Hok) as (q & Hq & Hc & Hf & H). unfold on_opened. rewrite Hq. fold (opening_capacity capacity q).
  destruct k as [ip port|]; [|done]. set (u1 := set_opening _ _ _) in *. destruct r as [a|e].
  - apply (admit_ok L (SockV4 ip port :: R) N (set_failure u1 None) (SockV4 ip port) a (oq_pending q) now (fun v => v)); [done|done| |by apply udp_ok_failure|done].
    cbn [u_opening set_failure u1 set_opening]. apply lookup_delete_eq.
  - apply udp_ok_failure. destruct (u_failure u1) as [[t previous]|]; [destruct (negb _); [|done]|]; by apply udp_ok_act.
Qed.

Lemma open_client_ok L R N u k d p now : is_client k -> u_flows u !! k = None -> u_opening u !! k = None -> udp_ok L R N u ->
  udp_ok L R N (open_client iter capacity available_memory u k d p now).
Proof.
  intros Hc Hk Eq Hok. unfold open_client. split_case; [done|]. bool_prop. pose proof Hok as [H1 H2 [K1 K2 K3 K4 K5 K6 K7]]. destruct (u_pool u) as [|a pool] eqn:Ep.
  - change (u_opening_bytes (act u (SpawnOpening k))) with (u_opening_bytes u).
    pose proof (push_spec k OpeningQueue_default d p (u_opening_bytes u) (queue_ok_default k Hc) K4) as Hpush. destruct (OpeningQueue_push _ _ _ _ _) as [q' n']. destruct Hpush as (Hq' & Hn & Hb).
    change (opening_capacity capacity OpeningQueue_default) with 0 in Hn. apply refill_pool_ok. split; [exact H1| |].
    + intros x Hx. cbn [u_flows u_opening set_opening act] in *. destruct (decide (k = x)) as [<-|Hne]; [rewrite Hk in Hx; by destruct Hx|]. rewrite lookup_insert_ne by done. by apply H2.
    + split; cbn [u_opening u_opening_bytes u_pool u_refills u_actions set_opening act]; try done.
      * by apply map_Forall_insert_2.
      * rewrite map_size_insert_None by done. lia.
      * rewrite opening_total_insert by done. lia.
      * rewrite openings_of_app, keys_insert, K5 by done. cbn [openings_of omap list_omap]. rewrite <- app_assoc. by rewrite (Permutation_app_comm _ [k]).
      * by rewrite Ep.
      * rewrite refills_of_app, K7. unfold refills_of. cbn [fmap list_fmap]. rewrite total_cons. change (total []) with 0. lia.
  - assert (Hok' : udp_ok L R N (set_pool u pool (u_refills u))).
    { split; [exact H1|exact H2|]. split; cbn [u_opening u_opening_bytes u_pool u_refills u_actions set_pool]; try done. rewrite len_cons in K6. lia. }
    apply (admit_ok L R N (set_pool u pool (u_refills u)) k a [mkOpening d p] now (fun v => refill_pool v None)); [done|done|done|done|]. intros. by apply refill_pool_ok.
Qed.
Lemma new_client_ok L R N u k d p now : is_client k -> u_flows u !! k = None -> udp_ok L R N u -> udp_ok L R N (new_client iter capacity available_memory u k d p now).
Proof.
  intros Hc Hk Hok. unfold new_client. destruct (u_opening u !! k) as [q|] eqn:Eq.
  - pose proof Hok as [H1 H2 [K1 K2 K3 K4 K5 K6 K7]]. pose proof (push_spec k q d p (u_opening_bytes u) (K1 _ _ Eq) K4) as Hpush. destruct (OpeningQueue_push _ _ _ _ _) as [q' n']. destruct Hpush as (Hq' & Hn & Hb).
    split; [exact H1| |].
    + intros x Hx. cbn [u_flows u_opening set_opening] in *. destruct (decide (k = x)) as [<-|Hne]; [by apply H2 in Hx; congruence|]. rewrite lookup_insert_ne by done. by apply H2.
    + split; cbn [u_opening u_opening_bytes u_pool u_refills u_actions set_opening]; try done; [by apply map_Forall_insert_2|by rewrite map_size_insert_Some by by exists q|rewrite (opening_total_update _ _ q) by done; lia|by rewrite (keys_update _ _ q)].
  - destruct (u_failure u) as [[t e]|]; [split_case; [done|]|]; apply open_client_ok; try done. by apply udp_ok_failure.
Qed.

Lemma flow_ips_fmap m (g : UdpFlow -> UdpFlow) : (forall f, fl_ip (g f) = fl_ip f) -> flow_ips (g <$> m) ≡ₚ flow_ips m.
Proof. intros Hg. unfold flow_ips. rewrite map_to_list_fmap, <- list_fmap_compose. apply reflexive_eq, list_fmap_ext. intros i [k f] _. cbn. apply Hg. Qed.
Lemma on_flow_ok L R N u id g : (forall f, fl_ip (g f) = fl_ip f /\ fl_id (g f) = fl_id f) -> udp_ok L R N u -> udp_ok L R N (on_flow u id g).
Proof.
  intros Hg [H1 H2 H3]. unfold on_flow. set (h := fun e => if fl_id e =? id then g e else e). assert (Hh : forall f, fl_ip (h f) = fl_ip f /\ fl_id (h f) = fl_id f) by (intros f; unfold h; by destruct (_ =? _)).
  split; [|intros k Hk; cbn [u_flows u_opening set_flows] in *; apply H2; rewrite lookup_fmap in Hk; by apply fmap_is_Some in Hk|by apply (rest_ok_eq R N u)].
  apply (flows_ok_cells L [] (u_flows u)); [|apply flow_ips_fmap; intros; apply Hh|apply map_size_fmap|exact H1].
  intros k. cbn [u_flows set_flows]. rewrite lookup_fmap. destruct (u_flows u !! k) as [f|]; [|done]. cbn [fmap option_fmap option_map]. destruct (Hh f) as [-> ->]. done.
Qed.
Lemma touch_ok L R N u k f now : u_flows u !! k = Some f -> udp_ok L R N u -> udp_ok L R N (set_flows u (<[k := touch f now]> (u_flows u))).
Proof.
  intros Hk [H1 H2 H3]. split; [| |by apply (rest_ok_eq R N u)].
  - apply (flows_ok_cells L [] (u_flows u)); cbn [u_flows set_flows]; [|..|exact H1].
    + intros x. destruct (decide (k = x)) as [<-|Hne]; [by rewrite lookup_insert_eq, Hk|by rewrite lookup_insert_ne].
    + rewrite (flow_ips_delete _ k f Hk). rewrite <- insert_delete_eq. rewrite flow_ips_insert by apply lookup_delete_eq. done.
    + apply map_size_insert_Some. by exists f.
  - intros x [g Hg]. cbn [u_flows u_opening set_flows] in *. apply H2. apply lookup_insert_Some in Hg as [[<- _]|[_ Hg]]; by eexists.
Qed.
Lemma udp_ok_kept L R N u u' : kept u' = kept u -> rest_of u' = rest_of u -> udp_ok L R N u -> udp_ok L R N u'.
Proof. intros Hk Hr Hok. apply (kept_ok L R N u); [done|done|]. apply (rest_ok_eq R N u); [done|apply Hok]. Qed.
Lemma on_datagram_ok L R N u ip port d p now : udp_ok L R N u -> udp_ok L R N (on_datagram iter capacity available_memory u ip port d p now).
Proof.
  intros Hok. unfold on_datagram. destruct (allowed_client ip) eqn:Ha; [|done]. cbn [negb]. set (u1 := set_receive _ _ _ _).
  assert (H1 : udp_ok L R N u1). { apply udp_ok_receive. destruct Hok as [H1 H2 H3]. split; [by apply flows_ok_activate|exact H2|by apply (rest_ok_eq R N u)]. }
  destruct (u_flows u1 !! SockV4 ip port) as [f|] eqn:Ef; [|by apply new_client_ok].
  destruct (negb (fl_finished f)).
  - apply (udp_ok_kept L R N (set_flows u1 (<[SockV4 ip port := touch f now]> (u_flows u1)))); [apply send_frame_kept|apply send_frame_rest|by apply touch_ok].
  - apply new_client_ok; [done|rewrite flows_remove; apply lookup_delete_eq|by apply udp_ok_remove].
Qed.
Lemma on_readable_ok L R N u l : udp_ok L R N u -> udp_ok L R N (on_readable iter capacity available_memory u l).
Proof.
  revert u. induction l as [|[ip port d p now| |e] l IH]; intros u Hok; cbn [on_readable]; [done|by apply IH, on_datagram_ok|done|].
  apply udp_ok_receive. split_case; [done|by apply udp_ok_act].
Qed.

(** The flows that end, and those that stay. *)
Lemma is_cancelled_drop r ip f : is_cancelled (drop_udp r ip) f = is_cancelled r f.
Proof.
  unfold is_cancelled, drop_udp. cbn [rg_by_ip set_admission]. rewrite lookup_update_quota. case_decide; [|done]. by destruct (rg_by_ip r !! fl_ip f).
Qed.
Lemma dead_remove u k g now f : dead (u_registry (remove_flow u k g)) now f = dead (u_registry u) now f.
Proof. unfold dead. change (u_registry (remove_flow u k g)) with (drop_udp (u_registry u) (fl_ip g)). by rewrite is_cancelled_drop. Qed.
Lemma retain_ok L R N now l u : NoDup l.*1 -> Forall (fun e => u_flows u !! e.1 = Some e.2) l -> udp_ok L R N u ->
  udp_ok L R N (foldl (retain_step now) u l)
  /\ forall k f, u_flows (foldl (retain_step now) u l) !! k = Some f <-> u_flows u !! k = Some f /\ ~ ((k, f) ∈ l /\ dead (u_registry u) now f = true).
Proof.
  revert u. induction l as [|[k0 f0] l IH]; intros u Hnd Hall Hok.
  - split; [done|]. cbn [foldl]. intros k f. rewrite elem_of_nil. tauto.
  - cbn [foldl fmap list_fmap fst] in *. apply NoDup_cons in Hnd as [Hn Hnd]. apply Forall_cons in Hall as [Hk0 Hall]. cbn [fst snd] in Hk0.
    assert (Hnin : forall f, (k0, f) ∉ l) by (intros f Hin; apply Hn, list_elem_of_fmap; by exists (k0, f)).
    unfold retain_step at 2 4. cbn [fst snd]. destruct (dead (u_registry u) now f0) eqn:Ed.
    + destruct (IH (remove_flow u k0 f0)) as [H1 H2]; [done| |by apply udp_ok_remove|].
      { rewrite Forall_forall in *. intros [k f] Hin. cbn [fst snd]. rewrite flows_remove, lookup_delete_ne; [by apply (Hall (k, f))|]. intros ->. by eapply Hnin. }
      split; [done|]. intros k f. rewrite H2, flows_remove, dead_remove, lookup_delete_Some, elem_of_cons. split.
      * intros [[Hne Hf] Hnot]. split; [done|]. intros [[E|Hin] Hd]; [by injection E as -> ->|tauto].
      * intros [Hf Hnot]. destruct (decide (k0 = k)) as [<-|Hne]; [|tauto]. exfalso. apply Hnot. assert (f = f0) as -> by congruence. split; [by left|done].
    + destruct (IH u Hnd Hall Hok) as [H1 H2]. split; [done|]. intros k f. rewrite H2, elem_of_cons. split; [|tauto].
      intros [Hf Hnot]. split; [done|]. intros [[E|Hin] Hd]; [injection E as -> ->; congruence|tauto].
Qed.
Lemma iter_keys m : NoDup (iter m).*1 /\ Forall (fun e => m !! e.1 = Some e.2) (iter m).
Proof.
  split; [rewrite Hiter; apply NoDup_fst_map_to_list|]. rewrite Forall_forall. intros [k f] Hin. by apply iter_elem.
Qed.
Lemma retain_flows_ok L R N u now : udp_ok L R N u ->
  udp_ok L R N (retain_flows iter u now)
  /\ forall k f, u_flows (retain_flows iter u now) !! k = Some f <-> u_flows u !! k = Some f /\ dead (u_registry u) now f = false.
Proof.
  intros Hok. destruct (iter_keys (u_flows u)) as [Hnd Hall]. destruct (retain_ok L R N now _ u Hnd Hall Hok) as [H1 H2]. split; [exact H1|].
  intros k f. unfold retain_flows. rewrite H2, iter_elem. split; [intros [Hf Hn]; split; [done|]; destruct (dead _ _ _); [tauto|done]|intros [Hf Hd]; split; [done|]; rewrite Hd; by intros []].
Qed.
End UdpProofs.

(** ** The loop among the other tasks *)

(** The loop, the leases of the other tasks, the openings and the refills that were answered. *)
Record World := mkWorld { w_udp : Udp; w_leases : Leases; w_opened : list SockAddr; w_refilled : Z }.
Section World.
Context (iter : gmap SockAddr UdpFlow -> list (SockAddr * UdpFlow)) (capacity : Z -> Z).
Definition of_tasks (e : UdpEvent) : bool := match e with PoolReceived _ | Opened _ _ _ => true | _ => false end.
(** An event of the loop, which a spawned task raises once; or a step of any other task on the shared registry. *)
Inductive proxy_step : World -> World -> Prop :=
| Proxy_event mem u L R N e : of_tasks e = false -> proxy_step (mkWorld u L R N) (mkWorld (on_event iter capacity mem u e) L R N)
| Proxy_pool mem u L R N r : N < refills_of (u_actions u) -> proxy_step (mkWorld u L R N) (mkWorld (on_event iter capacity mem u (PoolReceived r)) L R (N + 1))
| Proxy_opened mem u L R N k r now rest : openings_of (u_actions u) ≡ₚ R ++ k :: rest ->
    proxy_step (mkWorld u L R N) (mkWorld (on_event iter capacity mem u (Opened k r now)) L (k :: R) N)
| Proxy_other u L R N r' L' : reg_step (u_registry u, with_udp L (flow_ips (u_flows u))) (r', L') -> ls_udp L' = flow_ips (u_flows u) ->
    proxy_step (mkWorld u L R N) (mkWorld (set_registry u r') L' R N).
Definition world_ok (w : World) : Prop := udp_ok capacity (w_leases w) (w_opened w) (w_refilled w) (w_udp w).

Context (Hiter : forall m, iter m ≡ₚ map_to_list m) (Hcapacity : forall n, 0 <= n -> n <= capacity n).
Lemma run_udp_start_ok L r s : reg_ok (r, with_udp L []) -> st_udp_active s = 0 -> udp_ok capacity L [] 0 (run_udp_start r s).
Proof.
  intros Hr Hs. unfold run_udp_start. apply refill_pool_ok. split; [|intros k _; apply lookup_empty|].
  - split; cbn [u_flows u_registry u_stats u_next_flow]; [exact Hr|by rewrite Hs|apply map_Forall_empty|]. intros k k' f f' Hk. by rewrite lookup_empty in Hk.
  - by split.
Qed.
Lemma world_ok_step w w' : proxy_step w w' -> world_ok w -> world_ok w'.
Proof.
  unfold world_ok. destruct 1 as [mem u L R N e He|mem u L R N r HN|mem u L R N k r now rest Hp|u L R N r' L' Hs HL]; cbn [w_udp w_leases w_opened w_refilled]; intros Hok.
  - destruct e as [now|now|?|? ? ?|l|id now|id]; try done; cbn [on_event].
    1, 2: by apply retain_flows_ok.
    + by apply on_readable_ok.
    + by apply on_flow_ok.
    + by apply on_flow_ok.
  - by apply on_pool_ok.
  - by eapply on_opened_ok.
  - destruct Hok as [[H1 H2 H3 H4] Hd Hr]. split; [|exact Hd|by apply (rest_ok_eq capacity R N u)]. split; try done. cbn [u_registry u_flows set_registry app].
    apply (reg_ok_step _ _ Hs) in H1. by destruct L'; cbn in HL; subst.
Qed.

(** C12. Whatever the order of datagrams, answers of the association tasks, ends of flows and steps of the TCP and response
    tasks on the shared registry: every flow and every opening belongs to a client of the tunnel, no client has both, the
    registry and the panel count exactly the flows of the map, each opening has one task and its datagrams stay within
    64 packets and 64 KiB, all of them within 512 KiB, at most 64 clients are being opened, and the spare associations and
    the refills under way never exceed the target. *)
Theorem udp_loop_invariant r L s w : reg_ok (r, with_udp L []) -> st_udp_active s = 0 ->
  rtc proxy_step (mkWorld (run_udp_start r s) L [] 0) w -> world_ok w.
Proof.
  intros Hr Hs H. assert (Hgen : forall a b, rtc proxy_step a b -> world_ok a -> world_ok b) by (induction 1; eauto using world_ok_step).
  eapply Hgen; [exact H|]. by apply run_udp_start_ok.
Qed.
(** C21. In every reachable state a new flow is admitted unless its address is unknown or cancelled or has its share of flows
    already, in which case nothing changes.  Below the global limit it is admitted as it is; at the limit either the limits
    grow, which beyond the first step takes memory to spare, and no flow ends, or they do not and exactly one flow ends, one
    used least recently.  Whenever it is admitted, the flows of the map leave room for it under the limit. *)
Theorem udp_admission r L s w mem ip : reg_ok (r, with_udp L []) -> st_udp_active s = 0 -> rtc proxy_step (mkWorld (run_udp_start r s) L [] 0) w ->
  let u := w_udp w in
  let '(admitted, u') := acquire_udp_quota iter mem u ip in
  let unchanged := u_flows u' = u_flows u /\ rg_capacity (u_registry u') = rg_capacity (u_registry u) in
  match verdict (u_registry u) ip (flow_ips (u_flows u)) with
  | Refused => admitted = false /\ u' = u
  | Room => admitted = true /\ unchanged
  | Full => admitted = true /\ room_made mem u u'
  end
  /\ (admitted = true -> Z.of_nat (size (u_flows u')) < (rg_capacity (u_registry u')).2).
Proof.
  intros Hr Hs H. assert (Hgen : forall a b, rtc proxy_step a b -> world_ok a -> world_ok b) by (induction 1; eauto using world_ok_step).
  assert (Hw : world_ok w) by (eapply Hgen; [exact H|]; by apply run_udp_start_ok). cbv zeta.
  pose proof (uo_flows _ _ _ _ _ Hw) as Hok. pose proof (acquire_udp_quota_acquired iter mem Hiter (w_leases w) (w_udp w) ip Hok) as Ha.
  pose proof (verdict_spec _ ip _ (reg_ok_with_udp _ _ _ (fo_registry _ _ _ _ _ _ Hok))) as Hv. cbn [app] in Hv.
  destruct (acquire_udp_quota _ _ _ _) as [b u']. cbn [fst snd] in Ha. destruct Ha as [_ Ha].
  assert (Hroom : uflows_ok (w_leases w) [ip] u' -> Z.of_nat (size (u_flows u')) < (rg_capacity (u_registry u')).2).
  { intros Hok'. pose proof (ct_limit _ _ _ (reg_ok_with_udp _ _ _ (fo_registry _ _ _ _ _ _ Hok'))) as Hl. cbn [app global_limit] in Hl. rewrite len_cons in Hl. unfold len in Hl. rewrite flow_ips_length in Hl. lia. }
  destruct (try_acquire_udp _ _) as [|[]|]; rewrite Hv; [destruct Ha as (-> & H1 & H2); auto|destruct Ha as [-> ->]; done|destruct Ha as [-> ->]; done|destruct Ha as (-> & H1 & H2); auto|destruct Ha as [-> ->]; done].
Qed.
End World.

(** ** The end of the loop *)

Section Drain.
Context (iter : gmap SockAddr UdpFlow -> list (SockAddr * UdpFlow)) (capacity : Z -> Z).
Context (Hiter : forall m, iter m ≡ₚ map_to_list m) (Hcapacity : forall n, 0 <= n -> n <= capacity n).
Lemma remove_all_ok L R N l u : NoDup l.*1 -> Forall (fun e => u_flows u !! e.1 = Some e.2) l -> udp_ok capacity L R N u ->
  udp_ok capacity L R N (foldl (fun u e => remove_flow u e.1 e.2) u l) /\ Z.of_nat (size (u_flows (foldl (fun u e => remove_flow u e.1 e.2) u l))) = Z.of_nat (size (u_flows u)) - len l.
Proof.
  revert u. induction l as [|[k f] l IH]; intros u Hnd Hall Hok; [split; [done|rewrite len_nil; cbn; lia]|]. cbn [foldl fmap list_fmap fst snd] in *.
  apply NoDup_cons in Hnd as [Hn Hnd]. apply Forall_cons in Hall as [Hk Hall]. cbn [fst snd] in Hk.
  destruct (IH (remove_flow u k f)) as [H1 H2]; [done| |by apply udp_ok_remove|].
  - rewrite Forall_forall in *. intros [k' f'] Hin. cbn [fst snd]. rewrite flows_remove, lookup_delete_ne; [by apply (Hall (k', f'))|]. intros ->. apply Hn, list_elem_of_fmap. by exists (k', f').
  - split; [done|]. rewrite H2, flows_remove, len_cons. pose proof (size_delete_Some _ _ _ Hk). lia.
Qed.
(** When the loop ends, in any reachable state, no flow and no opening is left: every admission is back in the registry,
    the panel counts no flow, and no opening buffer is held. *)
Theorem drain_returns_all r L s w : reg_ok (r, with_udp L []) -> st_udp_active s = 0 -> rtc (proxy_step iter capacity) (mkWorld (run_udp_start r s) L [] 0) w ->
  let u := drain iter capacity (w_udp w) in
  u_flows u = ∅ /\ u_opening u = ∅ /\ u_opening_bytes u = 0 /\ st_udp_active (u_stats u) = 0 /\ reg_ok (u_registry u, with_udp (w_leases w) []).
Proof.
  intros Hr Hs H. assert (Hgen : forall a b, rtc (proxy_step iter capacity) a b -> world_ok capacity a -> world_ok capacity b) by (induction 1; eauto using world_ok_step).
  assert (Hw : world_ok capacity w) by (eapply Hgen; [exact H|]; by apply run_udp_start_ok). unfold world_ok in Hw.
  destruct (iter_keys iter Hiter (u_flows (w_udp w))) as [Hnd Hall]. destruct (remove_all_ok _ _ _ _ _ Hnd Hall Hw) as [Hok Hsz].
  unfold drain. set (u1 := foldl _ _ _) in *. cbn zeta.
  assert (Hempty : u_flows u1 = ∅).
  { apply map_size_empty_inv. assert (len (iter (u_flows (w_udp w))) = Z.of_nat (size (u_flows (w_udp w)))) by (unfold len; by rewrite Hiter, length_map_to_list). lia. }
  destruct Hok as [[H1 H2 _ _] _ [_ _ K3 _ _ _ _]]. cbn [u_flows u_opening u_opening_bytes u_stats u_registry set_opening]. rewrite Hempty in *. split_and!; [done|done| |by rewrite H2|exact H1].
  rewrite K3. replace (total _) with (opening_total capacity (u_opening u1)); [by rewrite Z.sub_diag|]. unfold opening_total. by rewrite <- list_fmap_compose.
Qed.
End Drain.

Lemma tproxy_port_range id : 0 <= id -> TPROXY_BASE_PORT <= tproxy_port id < 60666.
Proof. intros. unfold tproxy_port, TPROXY_BASE_PORT, u16_of. pose proof (Z.mod_pos_bound id 50000 ltac:(lia)). rewrite Z.mod_small by lia. lia. Qed.
Lemma tproxy_port_distinct id id' : 0 <= id < id' -> id' < id + 50000 -> tproxy_port id <> tproxy_port id'.
Proof.
  intros H H'. unfold tproxy_port, u16_of. pose proof (Z.mod_pos_bound id 50000 ltac:(lia)). pose proof (Z.mod_pos_bound id' 50000 ltac:(lia)). rewrite !(Z.mod_small _ (2 ^ 16)) by lia.
  pose proof (Z.div_mod id 50000 ltac:(lia)). pose proof (Z.div_mod id' 50000 ltac:(lia)). intros E. assert (id' - id = 50000 * (id' / 50000 - id / 50000)) by lia.
  assert (id' / 50000 - id / 50000 = 0 \/ 1 <= id' / 50000 - id / 50000 \/ id' / 50000 - id / 50000 <= -1) by lia. lia.
Qed.

(** ** Instances *)

Definition demo_datagram : Received := Datagram [10; 66; 67; 5] 40000 (SockV4 [1; 1; 1; 1] 53) [1; 2; 3] 10.
Definition demo_start : World := mkWorld (run_udp_start DeviceQuotaRegistry_new TproxyStats_default) no_leases [] 0.
(** A datagram of a client while no association is spare. *)
Definition demo_opening : World :=
  mkWorld (on_event map_to_list id (fun _ => None) (run_udp_start DeviceQuotaRegistry_new TproxyStats_default) (Readable [demo_datagram])) no_leases [] 0.
Lemma demo_opening_reached : rtc (proxy_step map_to_list id) demo_start demo_opening.
Proof. apply rtc_once. exact (Proxy_event map_to_list id (fun _ => None) _ no_leases [] 0 (Readable [demo_datagram]) eq_refl). Qed.
Lemma id_capacity : forall n : Z, 0 <= n -> n <= id n.
Proof. intros n _. unfold id. lia. Qed.
Lemma udp_loop_invariant_witness : world_ok id demo_opening /\ size (u_opening (w_udp demo_opening)) = 1%nat.
Proof.
  split; [|vm_compute; reflexivity].
  exact (udp_loop_invariant map_to_list id (fun _ => reflexivity _) id_capacity DeviceQuotaRegistry_new no_leases TproxyStats_default demo_opening reg_ok_new eq_refl demo_opening_reached).
Defined.
Lemma udp_admission_witness : (acquire_udp_quota map_to_list (fun _ => None) (w_udp demo_opening) [10; 66; 67; 5]).1 = true.
Proof.
  pose proof (udp_admission map_to_list id (fun _ => reflexivity _) id_capacity DeviceQuotaRegistry_new no_leases TproxyStats_default demo_opening (fun _ => None) [10; 66; 67; 5]
    reg_ok_new eq_refl demo_opening_reached) as H.
  assert (Hv : verdict (u_registry (w_udp demo_opening)) [10; 66; 67; 5] (flow_ips (u_flows (w_udp demo_opening))) = Room) by (vm_compute; reflexivity).
  cbv zeta in H. rewrite Hv in H. destruct (acquire_udp_quota _ _ _ _) as [b u']. exact (proj1 (proj1 H)).
Defined.
Lemma drain_returns_all_witness : u_opening_bytes (drain map_to_list id (w_udp demo_opening)) = 0.
Proof.
  exact (proj1 (proj2 (proj2 (drain_returns_all map_to_list id (fun _ => reflexivity _) id_capacity DeviceQuotaRegistry_new no_leases TproxyStats_default demo_opening
    reg_ok_new eq_refl demo_opening_reached)))).
Defined.
