(* ===== verification/Worker.v ===== *)
(** * The workers of the client

    [rust-client/worker.rs]: how the groups of workers share TURN credentials ([CredentialCache], [run_groups]),
    what a worker does after its session ends ([worker_loop]) and how long it waits, the pacing of starts and of
    log lines, and the list of call hashes. *)

From Stdlib Require Import Sorted.
From S2P Require Import Prelude Text Panel.

Definition WORKERS_PER_GROUP : Z := 9.
Definition GROUPS_PER_CREDENTIAL : Z := 2.
Definition WORKERS_PER_CREDENTIAL : Z := WORKERS_PER_GROUP * GROUPS_PER_CREDENTIAL.
Definition CREDENTIAL_POST_DELAY : Z := 100.
Definition RECOVERY_LOG_INTERVAL_MS : Z := 10000.

(** ** Pacing *)

(** [RecoveryLogGate::observe], one caller at a time. *)
Record RecoveryLogGate := mkGate { rl_pending : Z; rl_next_report_ms : Z }.
Definition RecoveryLogGate_new : RecoveryLogGate := mkGate 0 0.
Definition observe (g : RecoveryLogGate) (now_ms : Z) : option Z * RecoveryLogGate :=
  let pending := u64_of (rl_pending g + 1) in
  let deadline := rl_next_report_ms g in
  if negb (deadline =? 0) && (now_ms <? deadline) then (None, mkGate pending deadline)
  else (Some pending, mkGate 0 (Z.max (sat_add now_ms RECOVERY_LOG_INTERVAL_MS) 1)).

(** [WorkerStartPacer::wait]: the lock is held until the start; [now] is when it is taken, [cancelled] whether the
    start is called off. *)
Definition pacer_wait (interval next now : Z) (cancelled : bool) : option Z * Z :=
  let scheduled := Z.max next now in
  if cancelled then (None, next) else (Some scheduled, scheduled + interval).
(** The starts of workers that take the lock in turn. *)
Fixpoint starts (interval next : Z) (l : list (Z * bool)) : list Z :=
  match l with
  | [] => []
  | (now, cancelled) :: l =>
      let '(start, next) := pacer_wait interval next now cancelled in
      match start with Some at_ => at_ :: starts interval next l | None => starts interval next l end
  end.

(** [ConfigFlightGuard::acquire] and its drop, on the shared flags [sent] and [in_flight]. *)
Definition flight_acquire (sent in_flight : bool) : bool * bool := if negb sent && negb in_flight then (true, true) else (false, in_flight).
Definition flight_drop (acquired in_flight : bool) : bool := if acquired then false else in_flight.

(** ** Credentials *)

Record TurnCredentials := mkCredentials { tc_username : bytes; tc_password : bytes; tc_server_addresses : list bytes }.
#[global] Instance TurnCredentials_eq_dec : EqDecision TurnCredentials.
Proof. solve_decision. Defined.
Definition same_turn_credentials (left right : TurnCredentials) : bool :=
  bytes_eqb (tc_username left) (tc_username right) && bytes_eqb (tc_password left) (tc_password right)
  && bool_decide (tc_server_addresses left = tc_server_addresses right).
Record CachedCredentials := mkCached { cc_value : TurnCredentials; cc_generation : Z; cc_attempts : Z; cc_mismatches : Z }.
Record CredentialLease := mkLease { cl_value : TurnCredentials; cl_generation : Z }.
Record CredentialCache := mkCache { ca_current : option CachedCredentials; ca_blocked : option TurnCredentials; ca_next_generation : Z; ca_quota_retries : Z }.
Definition CredentialCache_default : CredentialCache := mkCache None None 0 0.
Inductive QuotaRotation := QuotaRotated (delay : Z) | QuotaReplaced.
Inductive AllocationMismatch := RetryCurrent | MismatchRotated | MismatchReplaced.

Definition quota_rotation_delay (attempt : Z) : Z :=
  if attempt =? 0 then 100 else if attempt =? 1 then 300 else if attempt =? 2 then 500 else if attempt =? 3 then 800 else 1500.
Definition worker_retry_delay_with_jitter (attempt jitter_ms : Z) : Z :=
  let shift := Z.min (sat_sub attempt 1) 4 in
  let base_ms := Z.min (sat_mul 250 (Z.shiftl 1 shift)) 4000 in
  sat_add base_ms (Z.min jitter_ms 250).
(** [random] is [rand::random::<u64>()]. *)
Definition worker_retry_delay (attempt random : Z) : Z := worker_retry_delay_with_jitter attempt (random mod 251).
Definition tcp_stream_retry_delay (attempt : Z) : Z := quota_rotation_delay (sat_sub attempt 1).

Definition set_current (c : CredentialCache) (x : option CachedCredentials) : CredentialCache := mkCache x (ca_blocked c) (ca_next_generation c) (ca_quota_retries c).
Definition is_lease_of (lease : CredentialLease) (cached : CachedCredentials) : bool :=
  (cc_generation cached =? cl_generation lease) && same_turn_credentials (cc_value cached) (cl_value lease).
Definition reserve (c : CredentialCache) : option CredentialLease * CredentialCache :=
  let c := match ca_current c with
           | Some cached => if WORKERS_PER_CREDENTIAL <=? cc_attempts cached then set_current c None else c
           | None => c
           end in
  match ca_current c with
  | None => (None, c)
  | Some cached =>
      (Some (mkLease (cc_value cached) (cc_generation cached)),
       set_current c (Some (mkCached (cc_value cached) (cc_generation cached) (sat_add (cc_attempts cached) 1) (cc_mismatches cached))))
  end.
Definition store (c : CredentialCache) (credentials : TurnCredentials) : bool * CredentialCache :=
  if match ca_blocked c with Some blocked => same_turn_credentials blocked credentials | None => false end then (false, c) else
  let generation := Z.max (sat_add (ca_next_generation c) 1) 1 in
  (true, mkCache (Some (mkCached credentials generation 0 0)) None generation (ca_quota_retries c)).
Definition record_allocation (c : CredentialCache) (lease : CredentialLease) : CredentialCache :=
  match ca_current c with
  | Some cached => if is_lease_of lease cached
                   then mkCache (Some (mkCached (cc_value cached) (cc_generation cached) (cc_attempts cached) 0)) (ca_blocked c) (ca_next_generation c) 0
                   else c
  | None => c
  end.
Definition release (c : CredentialCache) (lease : CredentialLease) : CredentialCache :=
  match ca_current c with
  | Some cached => if is_lease_of lease cached
                   then set_current c (Some (mkCached (cc_value cached) (cc_generation cached) (sat_sub (cc_attempts cached) 1) (cc_mismatches cached)))
                   else c
  | None => c
  end.
Definition invalidate (c : CredentialCache) (lease : CredentialLease) : bool * CredentialCache :=
  match ca_current c with
  | Some cached => if is_lease_of lease cached then (true, set_current c None) else (false, c)
  | None => (false, c)
  end.
Definition rotate_after_quota (c : CredentialCache) (lease : CredentialLease) : QuotaRotation * CredentialCache :=
  match ca_current c with
  | None => (QuotaReplaced, c)
  | Some cached =>
      if negb (cc_generation cached =? cl_generation lease) || negb (same_turn_credentials (cc_value cached) (cl_value lease)) then (QuotaReplaced, c)
      else (QuotaRotated (quota_rotation_delay (ca_quota_retries c)),
            mkCache None (Some (cc_value cached)) (ca_next_generation c) (sat_add (ca_quota_retries c) 1))
  end.
Definition next_quota_delay (c : CredentialCache) : Z * CredentialCache :=
  (quota_rotation_delay (ca_quota_retries c), mkCache (ca_current c) (ca_blocked c) (ca_next_generation c) (sat_add (ca_quota_retries c) 1)).
Definition retry_after_mismatch (c : CredentialCache) (lease : CredentialLease) : AllocationMismatch * CredentialCache :=
  match ca_current c with
  | None => (MismatchReplaced, c)
  | Some cached =>
      if negb (cc_generation cached =? cl_generation lease) || negb (same_turn_credentials (cc_value cached) (cl_value lease)) then (MismatchReplaced, c)
      else if cc_mismatches cached =? 0
      then (RetryCurrent, set_current c (Some (mkCached (cc_value cached) (cc_generation cached) (cc_attempts cached) 1)))
      else (MismatchRotated, set_current c None)
  end.

(** [GroupCredentials]: the cache of a cohort, and whether its call is known to be gone. *)
Record GroupCredentials := mkGroupCredentials { gc_cache : CredentialCache; gc_failures : Z; gc_unavailable : bool }.
Inductive Fetched := Fetch_cancelled | Fetch_ok (credentials : TurnCredentials) | Fetch_unavailable | Fetch_failed (random : Z).
(** [get] holds the lock from the first line to the last: [fetched] is the answer of [VkAuth::get_credentials],
    [cancelled] whether the wait after it is called off. The second result is that wait. *)
Definition get (g : GroupCredentials) (fetched : Fetched) (cancelled : bool) : option CredentialLease * option Z * GroupCredentials :=
  if gc_unavailable g then (None, None, g) else
  match reserve (gc_cache g) with
  | (Some lease, cache) => (Some lease, None, mkGroupCredentials cache (gc_failures g) false)
  | (None, cache) =>
      match fetched with
      | Fetch_cancelled => (None, None, mkGroupCredentials cache (gc_failures g) false)
      | Fetch_ok credentials =>
          match store cache credentials with
          | (false, cache) => let '(delay, cache) := next_quota_delay cache in (None, Some delay, mkGroupCredentials cache (gc_failures g) false)
          | (true, cache) =>
              if cancelled then (None, Some CREDENTIAL_POST_DELAY, mkGroupCredentials cache 0 false)
              else let '(lease, cache) := reserve cache in (lease, Some CREDENTIAL_POST_DELAY, mkGroupCredentials cache 0 false)
          end
      | Fetch_unavailable => (None, None, mkGroupCredentials cache (gc_failures g) true)
      | Fetch_failed random =>
          let shift := Z.min (gc_failures g) 5 in
          let delay := Z.min (sat_mul CREDENTIAL_POST_DELAY (Z.shiftl 1 shift)) 3000 + random mod 100 in
          (None, Some delay, mkGroupCredentials cache (u64_of (gc_failures g + 1)) false)
      end
  end.

(** ** Groups *)

Definition group_worker_ids (group_id : Z) : list Z := seqZ ((group_id - 1) * WORKERS_PER_GROUP + 1) WORKERS_PER_GROUP.
Definition credential_stream_id (credential_id : Z) : Z := credential_id * 100.
Definition group_hash_index (group_index hash_count : nat) : nat := (group_index mod hash_count)%nat.
Definition credential_cohort_index (group_index_for_hash : nat) : nat := (group_index_for_hash / Z.to_nat GROUPS_PER_CREDENTIAL)%nat.
(** The loop of [run_groups]: the groups counted and the credentials made for each hash, and the next identifier. *)
Record Assignment := mkAssignment { as_groups : list nat; as_credentials : list (list Z); as_next : Z; as_result : list Z }.
Definition assign_group (a : Assignment) (group_index hash_count : nat) : opt Assignment :=
  let hash_index := group_hash_index group_index hash_count in
  n ← at_ (as_groups a) (Z.of_nat hash_index);
  let groups := <[hash_index := S n]> (as_groups a) in
  let cohort_index := credential_cohort_index n in
  creds ← at_ (as_credentials a) (Z.of_nat hash_index);
  let '(creds, next) := if (length creds <=? cohort_index)%nat then (creds ++ [as_next a], sat_add (as_next a) 1) else (creds, as_next a) in
  id ← at_ creds (Z.of_nat cohort_index);
  Ok (mkAssignment groups (<[hash_index := creds]> (as_credentials a)) next (as_result a ++ [id])).
Fixpoint assign_groups (n : nat) (group_index hash_count : nat) (a : Assignment) : opt Assignment :=
  match n with
  | O => Ok a
  | S n => a ← assign_group a group_index hash_count; assign_groups n (S group_index) hash_count a
  end.
(** The credential of each group, for [groups] groups. *)
Definition run_groups (groups hash_count : nat) : opt (list Z) :=
  if (hash_count =? 0)%nat then Ok [] else
  a ← assign_groups groups 0 hash_count (mkAssignment (replicate hash_count O) (replicate hash_count []) 1 []); Ok (as_result a).

(** ** Errors *)

Fixpoint find_bytes (needle l : bytes) : option Z :=
  if starts_with l needle then Some 0 else
  match l with [] => None | _ :: l => match find_bytes needle l with Some i => Some (i + 1) | None => None end end.
Definition contains (l : bytes) (needle : string) : bool := match find_bytes (b_ needle) l with Some _ => true | None => false end.
Definition contains_one (l : bytes) (needles : list string) : bool := existsb (contains l) needles.
Definition to_ascii_lowercase (l : bytes) : bytes := ascii_lower <$> l.

(** The causes of an [anyhow::Error] as far as they are looked at: the STUN code of a failed TURN request, that of a failed
    allocation, and the code and kind of an operating system error. *)
Inductive Cause := AllocateError (stun_code : option Z) | RequestError (stun_code : Z) | IoError (raw_os_error : option Z) (stream_reset : bool) | OtherCause.
(** [we_message] is the error alone, [we_alternate] with its causes. *)
Record WorkerError := mkError { we_message : bytes; we_alternate : bytes; we_chain : list Cause }.
Fixpoint find_map {A B : Type} (f : A -> option B) (l : list A) : option B :=
  match l with [] => None | a :: l => match f a with Some b => Some b | None => find_map f l end end.
Definition turn_allocate_stun_code (e : WorkerError) : option Z := find_map (fun c => match c with AllocateError code => code | _ => None end) (we_chain e).
Definition turn_stun_code (e : WorkerError) : option Z := find_map (fun c => match c with RequestError code => Some code | _ => None end) (we_chain e).
Definition is_turn_allocation_quota (e : WorkerError) (message : bytes) : bool :=
  bool_decide (turn_allocate_stun_code e = Some 486)
  || (contains message "turn allocate" && contains_one message ["stun error 486"; "allocation quota reached"; "quota reached"]%string).
Definition is_turn_allocation_mismatch (e : WorkerError) (message : bytes) : bool :=
  let by_text := contains message "stun error 437" || (contains message "stun error 400" && contains message "channelbind") in
  match turn_stun_code e with
  | Some code => if code =? 437 then true else if code =? 400 then contains message "channelbind" else by_text
  | None => by_text
  end.
Definition should_invalidate_turn_credentials (e : WorkerError) (message : bytes) : bool :=
  match turn_stun_code e with
  | Some code => (code =? 401) || (code =? 438) || (code =? 441)
  | None => contains message "turn "
            && contains_one message ["stun error 401"; "stun error 438"; "stun error 441"; "unauthorized"; "wrong credential"; "authentication failed"]%string
  end.
(** Each occurrence of [os error code], found from left to right without overlap, that no digit follows. *)
Fixpoint occurrences (fuel : nat) (needle l : bytes) : list bytes :=
  match fuel with
  | O => []
  | S fuel => match find_bytes needle l with
              | None => []
              | Some i => let rest := drop (Z.to_nat i + length needle) l in rest :: occurrences fuel needle rest
              end
  end.
Definition contains_os_error_code (message : bytes) (code : Z) : bool :=
  existsb (fun rest => match rest with [] => true | b :: _ => negb (is_digit b) end) (occurrences (S (length message)) (b_ "os error " ++ to_string code) message).
Definition network_codes : list Z := [100; 101; 113; 10050; 10051; 10065].
Definition is_local_network_down (e : WorkerError) : bool :=
  existsb (fun c => match c with IoError (Some code) _ => bool_decide (code ∈ network_codes) | _ => false end) (we_chain e)
  || (let message := to_ascii_lowercase (we_alternate e) in
      contains_one message ["network is unreachable"; "network is down"; "no route to host"; "no route to network"; "enetunreach"; "enetdown"; "ehostunreach"]%string
      || existsb (contains_os_error_code message) network_codes).
Definition is_remote_tcp_stream_reset (e : WorkerError) (message : bytes) : bool :=
  existsb (fun c => match c with IoError _ reset => reset | _ => false end) (we_chain e)
  || contains_one message ["connection reset by peer"; "connection aborted"; "broken pipe"]%string.
Definition is_transport_timeout (message : bytes) : bool :=
  contains_one message ["transaction timeout"; "request timeout"; "i/o timeout"; "timed out"; "deadline has elapsed"]%string.

(** ** After a session *)

Inductive TurnTransportMode := Udp | TcpTls.
(** What [worker_loop] sees when the session is over; [so_repaired] that the repair renewed the credentials meanwhile. *)
Record SessionOutcome := mkOutcome {
  so_allocation_started : bool;
  so_ready : bool;
  so_error : option WorkerError;
  so_active_connections : Z;
  so_cancelled : bool;
  so_unavailable : bool;
  so_paused : bool;
  so_repaired : bool;
}.
Inductive Next := Stop | Continue | Sleep (delay : Z).
Record Worker := mkWorker { wk_attempt : Z; wk_cache : CredentialCache; wk_config_sent : bool }.
Definition should_refresh_configuration_after_full_outage (was_ready failed : bool) (active_connections : Z) (cancelled : bool) : bool :=
  was_ready && failed && (active_connections =? 0) && negb cancelled.

(** The message of a dead hash, in UTF-8. *)
Definition DEAD_HASH : bytes := [0xd1; 0x85; 0xd0; 0xb5; 0xd1; 0x88; 32; 0xd0; 0xbc; 0xd1; 0x91; 0xd1; 0x80; 0xd1; 0x82; 0xd0; 0xb2].
Definition fatal (message : bytes) : bool :=
  contains_one message ["FATAL_AUTH"; "FATAL_PROTOCOL"; "FATAL_HANDSHAKE"]%string || match find_bytes DEAD_HASH message with Some _ => true | None => false end.

(** [tcp_stream_reset] *)
Definition tcp_stream_reset (transport : TurnTransportMode) (e : WorkerError) (lower : bytes) : bool :=
  match transport with TcpTls => is_remote_tcp_stream_reset e lower | Udp => false end.
Section Retry.
Context (transport : TurnTransportMode) (rand : nat -> Z).
(** The credentials and the delay after an error that is neither a repair nor a lost channel; [attempt] counts it. *)
Definition retry_delay (cache : CredentialCache) (lease : CredentialLease) (e : WorkerError) (attempt : Z) : Z * Z * CredentialCache :=
  let message := we_message e in
  let lower := to_ascii_lowercase message in
  let credentials_invalid := should_invalidate_turn_credentials e lower in
  let '(attempt, delay, cache) :=
    if credentials_invalid then (0, 100 + rand 1%nat mod 51, (invalidate cache lease).2) else (attempt, worker_retry_delay attempt (rand 0%nat), cache) in
  if is_turn_allocation_quota e lower then
    match rotate_after_quota cache lease with
    | (QuotaRotated quota_delay, cache) => (0, quota_delay, cache)
    | (QuotaReplaced, cache) => (0, 50 + rand 2%nat mod 151, cache)
    end
  else if is_turn_allocation_mismatch e lower then
    match retry_after_mismatch cache lease with
    | (RetryCurrent, cache) => (0, 50 + rand 2%nat mod 51, cache)
    | (MismatchRotated, cache) => (0, 100 + rand 2%nat mod 51, cache)
    | (MismatchReplaced, cache) => (0, 50 + rand 2%nat mod 51, cache)
    end
  else if credentials_invalid then (attempt, delay, cache)
  else if tcp_stream_reset transport e lower then (attempt, tcp_stream_retry_delay attempt, cache)
  else if is_local_network_down e then (attempt, 250 + rand 2%nat mod 751, cache)
  else
    let delay := if fatal message then (5 + rand 2%nat mod 6) * 1000 else delay in
    let delay := if contains lower "getconf" then Z.min (worker_retry_delay attempt (rand 3%nat)) 1000 else delay in
    let delay := if contains lower "error 29" || contains lower "cannot create socket" then (2 + rand 4%nat mod 3) * 1000 else delay in
    (attempt, delay, cache).
(** The part of [worker_loop] after the session: what the worker does next. *)
Definition after_session (w : Worker) (lease : CredentialLease) (o : SessionOutcome) : Next * Worker :=
  let cache := if so_allocation_started o then wk_cache w else release (wk_cache w) lease in
  let attempt := if so_ready o then 0 else wk_attempt w in
  let failed := match so_error o with Some _ => true | None => false end in
  let sent := if should_refresh_configuration_after_full_outage (so_ready o) failed (so_active_connections o) (so_cancelled o) then false else wk_config_sent w in
  if so_cancelled o || so_unavailable o then (Stop, mkWorker attempt cache sent) else
  if so_paused o then (Continue, mkWorker attempt cache sent) else
  match so_error o with
  | None => (Sleep (worker_retry_delay (Z.max attempt 1) (rand 5%nat)), mkWorker attempt cache sent)
  | Some e =>
      let lower := to_ascii_lowercase (we_message e) in
      if contains lower "target_repair" then
        (Sleep (50 + rand 1%nat mod 151), mkWorker 0 (if so_repaired o then (invalidate cache lease).2 else cache) sent)
      else if contains lower "turn channel rebind retry exhausted" then (Sleep (50 + rand 1%nat mod 151), mkWorker 0 cache sent)
      else let '(attempt, delay, cache) := retry_delay cache lease e (sat_add attempt 1) in (Sleep delay, mkWorker attempt cache sent)
  end.
End Retry.

(** ** Call hashes *)

Fixpoint strip_bytes_start (set : list Z) (l : bytes) : bytes := match l with b :: rest => if bool_decide (b ∈ set) then strip_bytes_start set rest else l | [] => [] end.
(** [trim_matches] with ASCII characters *)
Definition trim_matches (set : list Z) (l : bytes) : bytes := reverse (strip_bytes_start set (reverse (strip_bytes_start set l))).
Fixpoint take_until (set : list Z) (l : bytes) : bytes := match l with b :: rest => if bool_decide (b ∈ set) then [] else b :: take_until set rest | [] => [] end.
Definition QUOTES : list Z := [60; 62; 34; 39].
Definition JOIN : bytes := b_ "/call/join/".
Definition normalize_hash (input : bytes) : option bytes :=
  let value := trim_matches QUOTES (trim input) in
  if bytes_eqb value [] then None else
  let lower := to_ascii_lowercase value in
  value ← match find_bytes JOIN lower with
          | Some index => Some (drop (Z.to_nat index + length JOIN) value)
          | None => if starts_with lower (b_ "http://") || starts_with lower (b_ "https://") then None else Some value
          end;
  let value := take_until [63; 35; 47] value in
  let value := trim_matches [47] (trim value) in
  if bytes_eqb value [] then None else Some value.
(** The pieces between separators. *)
Fixpoint split_at (set : list Z) (l : bytes) : list bytes :=
  match l with
  | [] => [[]]
  | b :: rest => if bool_decide (b ∈ set) then [] :: split_at set rest
                 else match split_at set rest with piece :: pieces => (b :: piece) :: pieces | [] => [[b]] end
  end.
Fixpoint distinct (seen : list bytes) (l : list bytes) : list bytes :=
  match l with
  | [] => []
  | h :: l => if bool_decide (h ∈ seen) then distinct seen l else h :: distinct (h :: seen) l
  end.
Definition SEPARATORS : list Z := [44; 59; 10; 13; 9; 32].
Definition parse_hashes (raw : bytes) : list bytes := distinct [] (omap normalize_hash (split_at SEPARATORS raw)).

Example parse_hashes_1 : parse_hashes (b_ "https://vk.com/call/join/AbC?x=1, 'def/' ;def,http://x") = [b_ "AbC"; b_ "def"].
Proof. vm_compute. reflexivity. Qed.

(** ** Pacing: what holds *)

(** The reports of a sequence of observations at the times [l]. *)
Fixpoint observe_all (g : RecoveryLogGate) (l : list Z) : list (Z * Z) * RecoveryLogGate :=
  match l with
  | [] => ([], g)
  | now :: l => let '(r, g) := observe g now in let '(rs, g) := observe_all g l in (match r with Some n => (now, n) :: rs | None => rs end, g)
  end.
Lemma observe_all_counts l g : 0 <= rl_pending g -> rl_pending g + len l < 2 ^ 64 ->
  let '(rs, g') := observe_all g l in foldr Z.add 0 rs.*2 + rl_pending g' = rl_pending g + len l /\ 0 <= rl_pending g'.
Proof.
  revert g. induction l as [|now l IH]; intros g H0 Hb; [cbn [observe_all]; change (foldr Z.add 0 (@nil (Z * Z)).*2) with 0; change (len (@nil Z)) with 0 in *; split; lia|]. rewrite len_cons in *. pose proof (len_nonneg l). cbn [observe_all]. unfold observe.
  assert (u64_of (rl_pending g + 1) = rl_pending g + 1) as -> by (apply Z.mod_small; lia).
  destruct (_ && _).
  - specialize (IH (mkGate (rl_pending g + 1) (rl_next_report_ms g)) ltac:(cbn; lia) ltac:(cbn [rl_pending]; lia)). destruct (observe_all _ l) as [rs g']. cbn [rl_pending] in *. lia.
  - match goal with |- context [observe_all ?g0 l] => specialize (IH g0 ltac:(cbn; lia) ltac:(cbn [rl_pending]; lia)) end. destruct (observe_all _ l) as [rs g']. rewrite fmap_cons. cbn [rl_pending foldr snd] in *. lia.
Qed.
Lemma observe_all_spaced l g : 0 <= rl_next_report_ms g -> Forall (fun t => 0 <= t < 2 ^ 63) l -> StronglySorted Z.le l ->
  StronglySorted (fun a b => a.1 + RECOVERY_LOG_INTERVAL_MS <= b.1) (observe_all g l).1
  /\ Forall (fun r => rl_next_report_ms g <= r.1 \/ rl_next_report_ms g = 0) (observe_all g l).1 /\ Forall (fun r => exists t, t ∈ l /\ r.1 = t) (observe_all g l).1.
Proof.
  revert g. induction l as [|now l IH]; intros g H0 Hr Hs; [by split_and!; constructor|]. apply Forall_cons in Hr as [Hn Hr]. apply StronglySorted_inv in Hs as [Hs Hall].
  cbn [observe_all]. unfold observe. destruct (_ && _) eqn:E.
  - set (g0 := mkGate _ _). destruct (IH g0 H0 Hr Hs) as (H1 & H2 & H3). destruct (observe_all g0 l) as [rs g']. cbn [fst] in *. split_and!; [done|done|].
    eapply Forall_impl; [exact H3|]. intros r (t & Ht & ->). exists t. split; [by right|done].
  - set (g0 := mkGate _ _). assert (Hnext : rl_next_report_ms g0 = now + RECOVERY_LOG_INTERVAL_MS) by (cbn; unfold sat_add, RECOVERY_LOG_INTERVAL_MS, USIZE_MAX; lia).
    destruct (IH g0 ltac:(rewrite Hnext; unfold RECOVERY_LOG_INTERVAL_MS; lia) Hr Hs) as (H1 & H2 & H3). destruct (observe_all g0 l) as [rs g']. cbn [fst] in *. rewrite Hnext in H2. split_and!.
    + constructor; [done|]. eapply Forall_impl; [exact H2|]. cbn. unfold RECOVERY_LOG_INTERVAL_MS. lia.
    + constructor.
      * cbn [fst]. apply andb_false_iff in E as [E|E]; bool_prop; [by right|by left].
      * rewrite Forall_forall in H2, H3 |- *. intros r Hin. destruct (H2 r Hin) as [H|H]; [|unfold RECOVERY_LOG_INTERVAL_MS in H; lia].
        apply andb_false_iff in E as [E|E]; bool_prop; [by right|left; unfold RECOVERY_LOG_INTERVAL_MS in H; lia].
    + constructor; [exists now; split; [by left|done]|]. eapply Forall_impl; [exact H3|]. intros r (t & Ht & ->). exists t. split; [by right|done].
Qed.
Lemma starts_spaced interval l next : 0 <= interval ->
  Forall (fun s => next <= s) (starts interval next l) /\ StronglySorted (fun a b => a + interval <= b) (starts interval next l).
Proof.
  intros Hi. revert next. induction l as [|[now cancelled] l IH]; intros next; [by split; constructor|]. cbn [starts]. unfold pacer_wait. destruct cancelled; [apply IH|].
  destruct (IH (Z.max next now + interval)) as [H1 H2]. split.
  - constructor; [lia|]. eapply Forall_impl; [exact H1|]. cbn. lia.
  - constructor; [done|]. eapply Forall_impl; [exact H1|]. cbn. lia.
Qed.

(** Log lines about recovery are at least ten seconds apart and together count every failure that was observed, up to those
    still pending; workers start at least the interval apart, in the order they take the lock. *)
Theorem pacing_correct g l interval next w :
  0 <= rl_pending g -> rl_pending g + len l < 2 ^ 64 -> 0 <= rl_next_report_ms g -> Forall (fun t => 0 <= t < 2 ^ 63) l -> StronglySorted Z.le l -> 0 <= interval ->
  foldr Z.add 0 (observe_all g l).1.*2 + rl_pending (observe_all g l).2 = rl_pending g + len l
  /\ StronglySorted (fun a b => a.1 + RECOVERY_LOG_INTERVAL_MS <= b.1) (observe_all g l).1
  /\ StronglySorted (fun a b => a + interval <= b) (starts interval next w).
Proof.
  intros Hp Hb Hn Hl Hs Hi. split_and!.
  - pose proof (observe_all_counts l g Hp Hb) as H. destruct (observe_all g l). apply H.
  - by apply observe_all_spaced.
  - by apply starts_spaced.
Qed.

(** ** Credentials: what holds *)

(** The cache of a cohort and the leases that were given and not released. *)
Inductive cohort_step : GroupCredentials * list CredentialLease -> GroupCredentials * list CredentialLease -> Prop :=
| Cohort_lease g I fetched cancelled lease wait g' : ca_next_generation (gc_cache g) < USIZE_MAX -> get g fetched cancelled = (Some lease, wait, g') -> cohort_step (g, I) (g', lease :: I)
| Cohort_none g I fetched cancelled wait g' : ca_next_generation (gc_cache g) < USIZE_MAX -> get g fetched cancelled = (None, wait, g') -> cohort_step (g, I) (g', I)
| Cohort_release g I lease rest : I ≡ₚ lease :: rest -> cohort_step (g, I) (mkGroupCredentials (release (gc_cache g) lease) (gc_failures g) (gc_unavailable g), rest)
| Cohort_record g I lease : lease ∈ I -> cohort_step (g, I) (mkGroupCredentials (record_allocation (gc_cache g) lease) (gc_failures g) (gc_unavailable g), I)
| Cohort_invalidate g I lease : lease ∈ I -> cohort_step (g, I) (mkGroupCredentials (invalidate (gc_cache g) lease).2 (gc_failures g) (gc_unavailable g), I)
| Cohort_quota g I lease : lease ∈ I -> cohort_step (g, I) (mkGroupCredentials (rotate_after_quota (gc_cache g) lease).2 (gc_failures g) (gc_unavailable g), I)
| Cohort_mismatch g I lease : lease ∈ I -> cohort_step (g, I) (mkGroupCredentials (retry_after_mismatch (gc_cache g) lease).2 (gc_failures g) (gc_unavailable g), I).
Definition of_generation (n : Z) (I : list CredentialLease) : Z := len (filter (fun l => cl_generation l = n) I).
Record cohort_ok (w : GroupCredentials * list CredentialLease) : Prop := {
  ch_current : forall cached, ca_current (gc_cache w.1) = Some cached ->
    cc_generation cached = ca_next_generation (gc_cache w.1) /\ 0 <= cc_attempts cached <= WORKERS_PER_CREDENTIAL
    /\ cc_attempts cached = of_generation (cc_generation cached) w.2 /\ (forall l, l ∈ w.2 -> cl_generation l = cc_generation cached -> cl_value l = cc_value cached);
  ch_past : 0 <= ca_next_generation (gc_cache w.1) /\ forall l, l ∈ w.2 -> cl_generation l <= ca_next_generation (gc_cache w.1);
  ch_bound : forall n, of_generation n w.2 <= WORKERS_PER_CREDENTIAL;
  ch_value : forall l l', l ∈ w.2 -> l' ∈ w.2 -> cl_generation l = cl_generation l' -> cl_value l = cl_value l';
}.

Lemma same_credentials_eq a b : same_turn_credentials a b = true <-> a = b.
Proof.
  unfold same_turn_credentials, bytes_eqb. rewrite !andb_true_iff, !bool_decide_eq_true. destruct a, b; cbn. split; [by intros [[-> ->] ->]|by intros [= -> -> ->]].
Qed.
Lemma is_lease_of_spec lease cached : is_lease_of lease cached = true <-> cc_generation cached = cl_generation lease /\ cc_value cached = cl_value lease.
Proof. unfold is_lease_of. by rewrite andb_true_iff, Z.eqb_eq, same_credentials_eq. Qed.
Lemma of_generation_cons n l I : of_generation n (l :: I) = (if bool_decide (cl_generation l = n) then 1 else 0) + of_generation n I.
Proof. unfold of_generation. rewrite filter_cons. case_decide; [rewrite bool_decide_eq_true_2 by done; by rewrite len_cons|by rewrite bool_decide_eq_false_2]. Qed.
Lemma of_generation_perm n I J : I ≡ₚ J -> of_generation n I = of_generation n J.
Proof. intros H. unfold of_generation, len. by rewrite H. Qed.
Lemma of_generation_nonneg n I : 0 <= of_generation n I.
Proof. apply len_nonneg. Qed.
Lemma of_generation_fresh n I : (forall l, l ∈ I -> cl_generation l < n) -> of_generation n I = 0.
Proof.
  induction I as [|l I IH]; intros H; [done|]. rewrite of_generation_cons, IH by (intros; apply H; by right). rewrite bool_decide_eq_false_2; [done|]. specialize (H l ltac:(by left)). lia.
Qed.

(** The cache of a cohort alone: [cohort_ok] does not look at the rest. *)
Definition cache_ok (c : CredentialCache) (I : list CredentialLease) : Prop := cohort_ok (mkGroupCredentials c 0 false, I).
Lemma cohort_cache g I : cohort_ok (g, I) <-> cache_ok (gc_cache g) I.
Proof. split; intros [H1 H2 H3 H4]; split; done. Qed.
Lemma cache_ok_new : cache_ok CredentialCache_default [].
Proof. split; try done; [split; [done|by intros l ?%elem_of_nil]|by intros l l' ?%elem_of_nil]. Qed.
(** The current entry goes. *)
Lemma cache_ok_none c I b n : ca_next_generation c <= n -> cache_ok c I -> forall r, cache_ok (mkCache None b n r) I.
Proof. intros Hn [H1 [H2 H2'] H3 H4] r. split; cbn in *; try done. split; [lia|]. intros l Hl. specialize (H2' l Hl). lia. Qed.
(** It keeps what counts. *)
Lemma cache_ok_same c I cached cached' b r : ca_current c = Some cached -> cc_value cached' = cc_value cached -> cc_generation cached' = cc_generation cached -> cc_attempts cached' = cc_attempts cached ->
  cache_ok c I -> cache_ok (mkCache (Some cached') b (ca_next_generation c) r) I.
Proof. intros Hc E1 E2 E3 [H1 H2 H3 H4]. split; cbn in *; try done. intros x [= <-]. rewrite E1, E2, E3. by apply H1. Qed.

Lemma reserve_ok c I lease c' : cache_ok c I -> reserve c = (Some lease, c') -> cache_ok c' (lease :: I).
Proof.
  intros Hok. unfold reserve. destruct (ca_current c) as [cached|] eqn:Ec; [|by rewrite Ec]. split_case; [done|]. rewrite Ec. intros [= <- <-]. bool_prop.
  destruct Hok as [H1 [H2 H2'] H3 H4]. cbn [fst snd gc_cache] in *. destruct (H1 cached Ec) as (Hg & Ha & Hn & Hv). unfold sat_add, WORKERS_PER_CREDENTIAL, WORKERS_PER_GROUP, GROUPS_PER_CREDENTIAL, USIZE_MAX in *.
  split; cbn [fst snd gc_cache ca_current ca_next_generation set_current].
  - intros x [= <-]. cbn [cc_generation cc_attempts cc_value]. rewrite of_generation_cons. cbn [cl_generation]. rewrite bool_decide_eq_true_2 by done. unfold WORKERS_PER_CREDENTIAL, WORKERS_PER_GROUP, GROUPS_PER_CREDENTIAL.
    split_and!; [done|lia|lia|lia|]. intros l [->|Hl]%elem_of_cons; [done|by apply Hv].
  - split; [done|]. intros l [->|Hl]%elem_of_cons; [cbn; lia|by apply H2'].
  - intros n. rewrite of_generation_cons. cbn [cl_generation]. case_bool_decide as He; [subst n; unfold WORKERS_PER_CREDENTIAL, WORKERS_PER_GROUP, GROUPS_PER_CREDENTIAL; lia|apply H3].
  - intros l l' [->|Hl]%elem_of_cons [->|Hl']%elem_of_cons He; cbn [cl_generation cl_value] in *; [done|symmetry; by apply Hv|by apply Hv|by apply H4].
Qed.
Lemma reserve_none_ok c I c' : cache_ok c I -> reserve c = (None, c') -> cache_ok c' I /\ ca_current c' = None /\ ca_blocked c' = ca_blocked c /\ ca_next_generation c' = ca_next_generation c.
Proof.
  intros Hok. unfold reserve. destruct (ca_current c) as [cached|] eqn:Ec; [split_case; [|by rewrite Ec]|rewrite Ec]; cbn [set_current ca_current]; intros [= <-]; [|done].
  split_and!; try done. by apply (cache_ok_none c).
Qed.
Lemma store_ok c I credentials c' b : ca_next_generation c < USIZE_MAX -> cache_ok c I -> store c credentials = (b, c') -> cache_ok c' I.
Proof.
  intros Hm Hok. unfold store. destruct (match ca_blocked c with Some _ => _ | None => _ end); intros [= <- <-]; [done|].
  destruct Hok as [H1 [H2 H2'] H3 H4]. cbn [fst snd gc_cache] in *. unfold sat_add. split; cbn [fst snd gc_cache ca_current ca_next_generation]; try done.
  - intros x [= <-]. cbn [cc_generation cc_attempts cc_value]. assert (forall l, l ∈ I -> cl_generation l < Z.max (Z.min USIZE_MAX (ca_next_generation c + 1)) 1) as Hf by (intros l Hl; specialize (H2' l Hl); lia).
    rewrite of_generation_fresh by done. split_and!; try done. intros l Hl He. specialize (Hf l Hl). lia.
  - split; [lia|]. intros l Hl. specialize (H2' l Hl). lia.
Qed.
Lemma get_ok g I fetched cancelled lease wait g' : ca_next_generation (gc_cache g) < USIZE_MAX -> cache_ok (gc_cache g) I -> get g fetched cancelled = (lease, wait, g') ->
  cache_ok (gc_cache g') (match lease with Some l => l :: I | None => I end).
Proof.
  intros Hm Hok. unfold get. split_case; [by intros [= <- <- <-]|]. destruct (reserve (gc_cache g)) as [[l|] c1] eqn:Er; [intros [= <- <- <-]; by eapply reserve_ok|].
  destruct (reserve_none_ok _ _ _ Hok Er) as (Hok1 & Hn1 & Hb1 & Hg1). destruct fetched as [|credentials| |random]; [by intros [= <- <- <-]| |by intros [= <- <- <-]..].
  destruct (store c1 credentials) as [[] c2] eqn:Es; pose proof (store_ok c1 I credentials c2 _ ltac:(by rewrite Hg1) Hok1 Es) as Hok2.
  - destruct cancelled; [by intros [= <- <- <-]|]. destruct (reserve c2) as [[l|] c3] eqn:Er2; intros [= <- <- <-]; [by eapply reserve_ok|]. by eapply reserve_none_ok in Er2 as [? _].
  - intros [= <- <- <-]. cbn [gc_cache]. unfold store in Es. destruct (match ca_blocked c1 with Some _ => _ | None => _ end); [|done]. injection Es as <-. rewrite Hn1. by apply (cache_ok_none c1).
Qed.
Lemma release_ok c I lease rest : I ≡ₚ lease :: rest -> cache_ok c I -> cache_ok (release c lease) rest.
Proof.
  intros Hp [H1 [H2 H2'] H3 H4]. cbn [fst snd gc_cache] in *. assert (Hin : forall l, l ∈ rest -> l ∈ I) by (intros l Hl; rewrite Hp; by right).
  assert (Hgen : forall n, of_generation n I = (if bool_decide (cl_generation lease = n) then 1 else 0) + of_generation n rest) by (intros n; by rewrite (of_generation_perm n _ _ Hp), of_generation_cons).
  assert (Hle : forall n, of_generation n rest <= WORKERS_PER_CREDENTIAL) by (intros n; specialize (H3 n); rewrite Hgen in H3; destruct (bool_decide _) in H3; lia).
  unfold release. destruct (ca_current c) as [cached|] eqn:Ec; [|split; cbn [fst snd gc_cache]; [by rewrite Ec|auto|auto|auto]].
  destruct (H1 cached eq_refl) as (Hg & Ha & Hn & Hv). assert (Hl : lease ∈ I) by (rewrite Hp; by left).
  destruct (is_lease_of lease cached) eqn:El.
  - apply is_lease_of_spec in El as [E1 E2]. rewrite Hgen, bool_decide_eq_true_2 in Hn by done. pose proof (of_generation_nonneg (cc_generation cached) rest).
    split; cbn [fst snd gc_cache ca_current ca_next_generation set_current]; [|auto|auto|auto]. intros x [= <-]. cbn [cc_generation cc_attempts cc_value]. unfold sat_sub. split_and!; [done|lia|lia|lia|auto].
  - split; cbn [fst snd gc_cache]; [|auto|auto|auto]. rewrite Ec. intros x [= <-]. split_and!; [done|lia|lia| |auto].
    rewrite Hn, Hgen. case_bool_decide as He; [|done]. exfalso. assert (is_lease_of lease cached = true) as Ht; [|congruence]. apply is_lease_of_spec. split; [done|]. symmetry. by apply Hv.
Qed.
Lemma record_ok c I lease : cache_ok c I -> cache_ok (record_allocation c lease) I.
Proof.
  intros Hok. unfold record_allocation. destruct (ca_current c) as [cached|] eqn:Ec; [|done]. split_case; [|done]. by apply (cache_ok_same c I cached).
Qed.
Lemma invalidate_ok c I lease : cache_ok c I -> cache_ok (invalidate c lease).2 I.
Proof. intros Hok. unfold invalidate. destruct (ca_current c) as [cached|]; [|done]. split_case; [|done]. by apply (cache_ok_none c). Qed.
Lemma rotate_ok c I lease : cache_ok c I -> cache_ok (rotate_after_quota c lease).2 I.
Proof. intros Hok. unfold rotate_after_quota. destruct (ca_current c) as [cached|]; [|done]. split_case; [done|]. by apply (cache_ok_none c). Qed.
Lemma mismatch_ok c I lease : cache_ok c I -> cache_ok (retry_after_mismatch c lease).2 I.
Proof.
  intros Hok. unfold retry_after_mismatch. destruct (ca_current c) as [cached|] eqn:Ec; [|done]. split_case; [done|]. split_case; [by apply (cache_ok_same c I cached)|by apply (cache_ok_none c)].
Qed.
Lemma cohort_ok_step w w' : cohort_step w w' -> cohort_ok w -> cohort_ok w'.
Proof.
  destruct 1 as [g I fetched cancelled lease wait g' Hm Hg|g I fetched cancelled wait g' Hm Hg|g I lease rest Hp|g I lease Hl|g I lease Hl|g I lease Hl|g I lease Hl];
    rewrite !cohort_cache; cbn [gc_cache]; intros Hok.
  - exact (get_ok _ _ _ _ (Some lease) _ _ Hm Hok Hg).
  - exact (get_ok _ _ _ _ None _ _ Hm Hok Hg).
  - by apply (release_ok _ I).
  - by apply record_ok.
  - by apply invalidate_ok.
  - by apply rotate_ok.
  - by apply mismatch_ok.
Qed.
Definition GroupCredentials_new : GroupCredentials := mkGroupCredentials CredentialCache_default 0 false.
Lemma cohort_reachable w : rtc cohort_step (GroupCredentials_new, []) w -> cohort_ok w.
Proof.
  intros H. assert (Hgen : forall a b, rtc cohort_step a b -> cohort_ok a -> cohort_ok b) by (induction 1; eauto using cohort_ok_step).
  eapply Hgen; [exact H|]. apply cohort_cache, cache_ok_new.
Qed.
(** The leases of credentials. *)
Definition of_value (v : TurnCredentials) (I : list CredentialLease) : Z := len (filter (fun l => cl_value l = v) I).
Lemma of_value_generation v n I : (forall l, l ∈ I -> cl_value l = v -> cl_generation l = n) -> of_value v I <= of_generation n I.
Proof.
  unfold of_value, of_generation. induction I as [|l I IH]; intros H; [done|]. specialize (IH (fun x Hx => H x ltac:(by right))). rewrite !filter_cons.
  pose proof (H l ltac:(by left)) as Hl. repeat case_decide; rewrite ?len_cons; try lia. exfalso; auto.
Qed.
Lemma of_value_pos v I : 0 < of_value v I -> exists l, l ∈ I /\ cl_value l = v.
Proof.
  unfold of_value. destruct (filter _ I) as [|l k] eqn:E; [done|]. intros _. exists l. assert (l ∈ filter (fun l => cl_value l = v) I) as Hl by (rewrite E; by left).
  by apply list_elem_of_filter in Hl as [? ?].
Qed.
(** C14. Whatever the order in which the workers of a cohort take, confirm, release, reject and renew its credentials, at most
    eighteen allocation attempts that were not released come from one fetch, the counter in the cache is the number of those of
    its own fetch, and two leases of one fetch carry the same credentials.  So as long as no two fetches brought the same
    credentials, none are held by more than eighteen attempts; [store] refuses only those rejected last, and
    [same_credentials_again] shows that credentials fetched twice may be held by thirty-six. *)
Theorem cohort_bounded w : rtc cohort_step (GroupCredentials_new, []) w ->
  (forall n, of_generation n w.2 <= 18)
  /\ (forall cached, ca_current (gc_cache w.1) = Some cached -> cc_attempts cached = of_generation (cc_generation cached) w.2)
  /\ (forall l l', l ∈ w.2 -> l' ∈ w.2 -> cl_generation l = cl_generation l' -> cl_value l = cl_value l')
  /\ ((forall l l', l ∈ w.2 -> l' ∈ w.2 -> cl_value l = cl_value l' -> cl_generation l = cl_generation l') -> forall v, of_value v w.2 <= 18).
Proof.
  intros [H1 H2 H3 H4]%cohort_reachable. split_and!; [exact H3|intros c Hc; apply (H1 c Hc)|exact H4|]. intros Hfresh v.
  destruct (decide (0 < of_value v w.2)) as [(l & Hl & Hv)%of_value_pos|]; [|lia]. pose proof (H3 (cl_generation l)) as Hb. unfold WORKERS_PER_CREDENTIAL, WORKERS_PER_GROUP, GROUPS_PER_CREDENTIAL in Hb.
  etransitivity; [apply (of_value_generation v (cl_generation l))|lia]. intros l' Hl' Hv'. apply Hfresh; [done|done|congruence].
Qed.

(** Workers that take leases one after the other while every fetch brings [v]. *)
Fixpoint take_leases (count : nat) (v : TurnCredentials) (w : GroupCredentials * list CredentialLease) : option (GroupCredentials * list CredentialLease) :=
  match count with
  | O => Some w
  | S count =>
      if ca_next_generation (gc_cache w.1) <? USIZE_MAX then
        match get w.1 (Fetch_ok v) false with (Some lease, _, g) => take_leases count v (g, lease :: w.2) | _ => None end
      else None
  end.
Lemma take_leases_steps count v w w' : take_leases count v w = Some w' -> rtc cohort_step w w'.
Proof.
  revert w. induction count as [|count IH]; intros [g I]; cbn [take_leases fst snd]; [intros [= <-]; constructor|].
  destruct (_ <? _) eqn:E; [|done]. destruct (get g _ _) as [[[lease|] wait] g'] eqn:Eg; [|done]. intros H. eapply rtc_l; [|by apply IH]. by apply (Cohort_lease g I (Fetch_ok v) false lease wait g'); [lia|].
Qed.
(** Credentials that VK gives out a second time are held by thirty-six attempts. *)
Lemma same_credentials_again v : exists w, rtc cohort_step (GroupCredentials_new, []) w /\ of_value v w.2 = 36.
Proof.
  destruct (take_leases 36 v (GroupCredentials_new, [])) as [w|] eqn:E; [|by vm_compute in E]. exists w. split; [by eapply take_leases_steps|].
  vm_compute in E. injection E as <-. unfold of_value. cbn [snd]. by repeat (rewrite filter_cons_True by done).
Qed.

(** ** Quota errors *)

(** The generation [n] is over. *)
Definition past (n : Z) (w : GroupCredentials * list CredentialLease) : Prop :=
  n <= ca_next_generation (gc_cache w.1) /\ forall cached, ca_current (gc_cache w.1) = Some cached -> n < cc_generation cached.
Lemma past_cache n c c' I I' f u f' u' : ca_next_generation c <= ca_next_generation c' ->
  (forall cached, ca_current c' = Some cached -> (exists cached0, ca_current c = Some cached0 /\ cc_generation cached0 = cc_generation cached) \/ ca_next_generation c < cc_generation cached) ->
  past n (mkGroupCredentials c f u, I) -> past n (mkGroupCredentials c' f' u', I').
Proof.
  intros Hn Hc [H1 H2]. split; cbn [fst gc_cache] in *; [lia|]. intros cached E. destruct (Hc cached E) as [(c0 & E0 & <-)|H]; [by apply H2|lia].
Qed.
Lemma reserve_past c lease c' : reserve c = (lease, c') -> ca_next_generation c' = ca_next_generation c /\
  forall cached, ca_current c' = Some cached -> exists cached0, ca_current c = Some cached0 /\ cc_generation cached0 = cc_generation cached.
Proof.
  unfold reserve. destruct (ca_current c) as [cached|] eqn:Ec; [|rewrite Ec; intros [= <- <-]; split; [done|]; rewrite Ec; done]. split_case; [intros [= <- <-]; by split|]. rewrite Ec. intros [= <- <-]. split; [done|].
  intros x [= <-]. by exists cached.
Qed.
Lemma get_past n I g fetched cancelled lease wait g' I' : ca_next_generation (gc_cache g) < USIZE_MAX -> get g fetched cancelled = (lease, wait, g') -> past n (g, I) -> past n (g', I').
Proof.
  destruct g as [c f u]. cbn [gc_cache]. intros Hm. unfold get. cbn [gc_unavailable gc_cache gc_failures]. split_case; [by intros [= <- <- <-]|].
  destruct (reserve c) as [[l|] c1] eqn:Er; destruct (reserve_past _ _ _ Er) as [En Ec].
  - intros [= <- <- <-]. apply past_cache; [lia|]. intros x Hx. left. by apply Ec.
  - assert (H1 : forall f' u' J, past n (mkGroupCredentials c f u, I) -> past n (mkGroupCredentials c1 f' u', J)) by (intros f' u' J; apply past_cache; [lia|intros x Hx; left; by apply Ec]).
    destruct fetched as [|credentials| |random]; [by intros [= <- <- <-]; apply H1| |by intros [= <- <- <-]; apply H1..].
    unfold store. destruct (match ca_blocked c1 with Some _ => _ | None => _ end).
    + intros [= <- <- <-]. apply past_cache; [cbn; lia|]. intros x Hx. left. by apply Ec.
    + set (c2 := mkCache _ _ _ _). assert (Hc2 : forall x, ca_current c2 = Some x -> ca_next_generation c < cc_generation x) by (intros x [= <-]; cbn; unfold sat_add; lia).
      assert (Hn2 : ca_next_generation c <= ca_next_generation c2) by (cbn; unfold sat_add; lia). destruct cancelled.
      * intros [= <- <- <-]. apply past_cache; [done|]. intros x Hx. right. by apply Hc2.
      * destruct (reserve c2) as [l3 c3] eqn:Er3. destruct (reserve_past _ _ _ Er3) as [En3 Ec3]. intros [= <- <- <-]. apply past_cache; [lia|].
        intros x Hx. right. destruct (Ec3 x Hx) as (x0 & Hx0 & <-). by apply Hc2.
Qed.
Lemma past_step n w w' : cohort_step w w' -> past n w -> past n w'.
Proof.
  destruct 1 as [g I fetched cancelled lease wait g' Hm Hg|g I fetched cancelled wait g' Hm Hg|[c f u] I lease rest Hp|[c f u] I lease Hl|[c f u] I lease Hl|[c f u] I lease Hl|[c f u] I lease Hl]; cbn [gc_cache gc_failures gc_unavailable];
    [by eapply get_past|by eapply get_past|..]; (apply past_cache;
      [unfold release, record_allocation, invalidate, rotate_after_quota, retry_after_mismatch; destruct (ca_current c); repeat split_case; cbn; lia|]);
    intros x Hx; left; revert Hx; unfold release, record_allocation, invalidate, rotate_after_quota, retry_after_mismatch; destruct (ca_current c) as [c0|] eqn:E; repeat split_case; cbn [snd ca_current set_current];
    rewrite ?E; try done; intros [= <-]; by exists c0.
Qed.
Lemma rotate_spec c lease delay c' : rotate_after_quota c lease = (QuotaRotated delay, c') ->
  c' = mkCache None (Some (cl_value lease)) (ca_next_generation c) (sat_add (ca_quota_retries c) 1) /\ exists cached, ca_current c = Some cached /\ cc_generation cached = cl_generation lease.
Proof.
  unfold rotate_after_quota. destruct (ca_current c) as [cached|]; [|done]. split_case; [done|]. bool_prop. intros [= <- <-]. apply same_credentials_eq in H0. rewrite H0. split; [done|]. by exists cached.
Qed.
(** Of all the workers that report a quota error on one generation of credentials, one rotates it, whatever else the
    cohort does in between; and the next lease does not carry the credentials that were rejected. *)
Theorem quota_rotates_once g I lease delay c' w lease' :
  cohort_ok (g, I) -> rotate_after_quota (gc_cache g) lease = (QuotaRotated delay, c') ->
  let g' := mkGroupCredentials c' (gc_failures g) (gc_unavailable g) in
  (rtc cohort_step (g', I) w -> cl_generation lease' = cl_generation lease -> rotate_after_quota (gc_cache w.1) lease' = (QuotaReplaced, gc_cache w.1))
  /\ (forall fetched cancelled next wait g2, get g' fetched cancelled = (Some next, wait, g2) -> cl_value next <> cl_value lease).
Proof.
  intros Hok Hr g'. destruct (rotate_spec _ _ _ _ Hr) as (Hc' & cached & Hcur & Hgen). split.
  - intros Hsteps Heq. assert (Hp : past (cl_generation lease) (g', I)).
    { split; cbn [fst gc_cache g']; rewrite Hc'; cbn [ca_next_generation ca_current]; [|done]. destruct (ch_current _ Hok cached Hcur) as (E & _). cbn [fst] in E. lia. }
    assert (Hall : forall a b, rtc cohort_step a b -> past (cl_generation lease) a -> past (cl_generation lease) b) by (induction 1; eauto using past_step).
    destruct (Hall _ _ Hsteps Hp) as [_ H]. unfold rotate_after_quota. destruct (ca_current (gc_cache w.1)) as [cur|] eqn:E; [|done]. specialize (H cur eq_refl). replace (cc_generation cur =? _) with false by lia. done.
  - intros fetched cancelled next wait g2. unfold get. cbn [g' gc_unavailable gc_cache]. rewrite Hc'. split_case; [done|]. unfold reserve at 1. cbn [ca_current]. destruct fetched as [|credentials| |random]; try done.
    unfold store. cbn [ca_blocked]. destruct (same_turn_credentials (cl_value lease) credentials) eqn:Es; [done|]. destruct cancelled; [done|]. unfold reserve. cbn. intros [= <- _ _] E.
    rewrite <- E in Es. assert (same_turn_credentials credentials credentials = true) by by apply same_credentials_eq. cbn [cl_value] in *. congruence.
Qed.

(** ** Delays *)

Lemma quota_delay_bounds n : 100 <= quota_rotation_delay n <= 1500.
Proof. unfold quota_rotation_delay. repeat split_case; lia. Qed.
Lemma retry_delay_bounds attempt random : 0 <= attempt -> 0 <= random -> 250 <= worker_retry_delay attempt random <= 4250.
Proof.
  intros Ha Hr. unfold worker_retry_delay, worker_retry_delay_with_jitter, sat_sub, sat_mul, sat_add, USIZE_MAX. pose proof (Z.mod_pos_bound random 251 ltac:(lia)).
  set (s := Z.min (Z.max 0 (attempt - 1)) 4). assert (0 <= s <= 4) as Hs by (unfold s; lia). rewrite Z.shiftl_1_l.
  assert (1 <= 2 ^ s <= 16). { split; [pose proof (Z.pow_le_mono_r 2 0 s); lia|]. pose proof (Z.pow_le_mono_r 2 s 4). lia. } lia.
Qed.
Lemma rotate_delay c lease delay c' : rotate_after_quota c lease = (QuotaRotated delay, c') -> 100 <= delay <= 1500.
Proof.
  unfold rotate_after_quota. destruct (ca_current c); [|done]. split_case; [done|]. intros [= <- _]. apply quota_delay_bounds.
Qed.
Lemma random_bounds r lo n : 0 < n -> lo <= lo + r mod n <= lo + n - 1.
Proof. intros Hn. pose proof (Z.mod_pos_bound r n Hn). lia. Qed.
Lemma retry_delay_range transport rand cache lease e attempt : (forall i, 0 <= rand i) -> 1 <= attempt ->
  50 <= (retry_delay transport rand cache lease e attempt).1.2 <= 10000 /\ 0 <= (retry_delay transport rand cache lease e attempt).1.1 <= attempt.
Proof.
  intros Hr Ha. unfold retry_delay. pose proof (retry_delay_bounds attempt (rand 0%nat) ltac:(lia) (Hr 0%nat)) as Hd0. pose proof (retry_delay_bounds attempt (rand 3%nat) ltac:(lia) (Hr 3%nat)) as Hd3.
  pose proof (random_bounds (rand 1%nat) 100 51 ltac:(lia)). pose proof (random_bounds (rand 2%nat) 50 151 ltac:(lia)). pose proof (random_bounds (rand 2%nat) 50 51 ltac:(lia)).
  pose proof (random_bounds (rand 2%nat) 100 51 ltac:(lia)). pose proof (random_bounds (rand 2%nat) 250 751 ltac:(lia)). pose proof (random_bounds (rand 2%nat) 5 6 ltac:(lia)). pose proof (random_bounds (rand 4%nat) 2 3 ltac:(lia)).
  pose proof (quota_delay_bounds (sat_sub attempt 1)) as Hq. set (lower := to_ascii_lowercase (we_message e)).
  destruct (should_invalidate_turn_credentials e lower).
  - destruct (is_turn_allocation_quota e lower).
    { destruct (rotate_after_quota _ _) as [[delay|] c'] eqn:Er; [apply rotate_delay in Er|]; cbn [fst snd]; lia. }
    destruct (is_turn_allocation_mismatch e lower); [destruct (retry_after_mismatch _ _) as [[] c']|]; cbn [fst snd]; lia.
  - destruct (is_turn_allocation_quota e lower).
    { destruct (rotate_after_quota _ _) as [[delay|] c'] eqn:Er; [apply rotate_delay in Er|]; cbn [fst snd]; lia. }
    destruct (is_turn_allocation_mismatch e lower); [destruct (retry_after_mismatch _ _) as [[] c']; cbn [fst snd]; lia|].
    destruct (tcp_stream_reset transport e lower); [unfold tcp_stream_retry_delay; cbn [fst snd]; lia|]. destruct (is_local_network_down e); [cbn [fst snd]; lia|].
    cbn [fst snd]. split; [|lia]. destruct (contains lower "error 29" || _); [lia|]. destruct (contains lower "getconf"); [lia|]. destruct (fatal _); lia.
Qed.
(** After a session a worker stops exactly when it was cancelled or its call is gone, goes on at once only while paused, and
    otherwise always waits, between 50 milliseconds and 10 seconds, whatever the error; a failure in a session that was ready
    starts the ladder again, and the attempt count never grows by more than one. *)
Theorem after_session_waits transport rand w lease o : (forall i, 0 <= rand i) -> 0 <= wk_attempt w < USIZE_MAX ->
  match after_session transport rand w lease o with
  | (Stop, _) => so_cancelled o || so_unavailable o = true
  | (Continue, _) => so_cancelled o || so_unavailable o = false /\ so_paused o = true
  | (Sleep delay, w') => so_cancelled o || so_unavailable o = false /\ 50 <= delay <= 10000
      /\ 0 <= wk_attempt w' <= (if so_ready o then 0 else wk_attempt w) + 1
  end.
Proof.
  intros Hr Ha. unfold after_session. destruct (so_cancelled o || so_unavailable o); [done|]. destruct (so_paused o); [done|].
  set (attempt := if so_ready o then 0 else wk_attempt w). assert (0 <= attempt < USIZE_MAX) as Hat by (unfold attempt; destruct (so_ready o); lia).
  pose proof (random_bounds (rand 1%nat) 50 151 ltac:(lia)). destruct (so_error o) as [e|].
  - destruct (contains _ "target_repair"); [cbn [wk_attempt]; lia|]. destruct (contains _ "turn channel rebind retry exhausted"); [cbn [wk_attempt]; lia|].
    assert (sat_add attempt 1 = attempt + 1) as -> by (unfold sat_add; lia). set (cache := if so_allocation_started o then _ else _).
    destruct (retry_delay_range transport rand cache lease e (attempt + 1) Hr ltac:(lia)) as [H1 H2].
    destruct (retry_delay _ _ _ _ _ _) as [[n d] c']. cbn [fst snd wk_attempt] in *. split_and!; lia.
  - pose proof (retry_delay_bounds (Z.max attempt 1) (rand 5%nat) ltac:(lia) (Hr 5%nat)). cbn [wk_attempt]. split_and!; try done; lia.
Qed.

(** ** Hashes *)

Lemma strip_bytes_suffix set l : exists p, l = p ++ strip_bytes_start set l.
Proof. induction l as [|b l [p IH]]; [by exists []|]. cbn [strip_bytes_start]. case_bool_decide; [exists (b :: p); cbn; by rewrite <- IH|by exists []]. Qed.
Lemma trim_matches_sub set l b : b ∈ trim_matches set l -> b ∈ l.
Proof.
  unfold trim_matches. rewrite elem_of_reverse. intros H. destruct (strip_bytes_suffix set l) as [p Hp]. destruct (strip_bytes_suffix set (reverse (strip_bytes_start set l))) as [q Hq].
  assert (b ∈ reverse (strip_bytes_start set l)) as H' by (rewrite Hq, elem_of_app; by right). rewrite elem_of_reverse in H'. rewrite Hp, elem_of_app. by right.
Qed.
Lemma strip_any_suffix ps l r : strip_any ps l = Some r -> exists p, l = p ++ r.
Proof. induction ps as [|p ps IH]; [done|]. cbn [strip_any]. destruct (strip_prefix p l) as [r'|] eqn:E; [intros [= <-]; exists p; by apply strip_prefix_Some|done]. Qed.
Lemma strip_all_suffix ps fuel l : exists p, l = p ++ strip_all ps fuel l.
Proof.
  revert l. induction fuel as [|fuel IH]; intros l; [by exists []|]. cbn [strip_all]. destruct (strip_any ps l) as [r|] eqn:E; [|by exists []].
  destruct (strip_any_suffix ps l r E) as [p ->]. destruct (IH r) as [q Hq]. exists (p ++ q). rewrite <- app_assoc. by rewrite <- Hq.
Qed.
Lemma trim_sub l b : b ∈ trim l -> b ∈ l.
Proof.
  unfold trim, trim_end, trim_start. rewrite elem_of_reverse. set (k := strip_all whitespace (length l) l). intros H.
  destruct (strip_all_suffix (reverse <$> whitespace) (length k) (reverse k)) as [q Hq].
  assert (b ∈ reverse k) as H' by (rewrite Hq, elem_of_app; by right). rewrite elem_of_reverse in H'. destruct (strip_all_suffix whitespace (length l) l) as [p Hp]. rewrite Hp, elem_of_app. by right.
Qed.
Lemma take_until_lacks set l b : b ∈ take_until set l -> b ∉ set /\ b ∈ l.
Proof.
  induction l as [|x l IH]; cbn [take_until]; [by intros ?%elem_of_nil|]. case_bool_decide; [by intros ?%elem_of_nil|]. intros [->|Hin]%elem_of_cons; [split; [done|by left]|]. destruct (IH Hin). split; [done|by right].
Qed.
Lemma split_at_lacks set l piece b : piece ∈ split_at set l -> b ∈ piece -> b ∉ set.
Proof.
  revert piece. induction l as [|x l IH]; intros piece; cbn [split_at]; [intros ->%list_elem_of_singleton ?%elem_of_nil; done|]. case_bool_decide as Hx.
  - intros [->|Hin]%elem_of_cons; [by intros ?%elem_of_nil|by apply IH].
  - destruct (split_at set l) as [|p ps] eqn:E.
    + intros ->%list_elem_of_singleton ->%list_elem_of_singleton. done.
    + intros [->|Hin]%elem_of_cons; [intros [->|Hb]%elem_of_cons; [done|]; by apply (IH p ltac:(by left))|by apply IH; right].
Qed.
Lemma distinct_spec seen l : NoDup (distinct seen l) /\ (forall h, h ∈ distinct seen l <-> h ∈ l /\ h ∉ seen).
Proof.
  revert seen. induction l as [|x l IH]; intros seen; cbn [distinct]; [split; [by constructor|]; intros h; rewrite elem_of_nil; tauto|]. case_bool_decide as Hx.
  - destruct (IH seen) as [H1 H2]. split; [done|]. intros h. rewrite H2, elem_of_cons. split; [tauto|]. intros [[->|?] ?]; tauto.
  - destruct (IH (x :: seen)) as [H1 H2]. split; [constructor; [rewrite H2, elem_of_cons; tauto|done]|]. intros h. rewrite !elem_of_cons, H2, elem_of_cons.
    destruct (decide (h = x)) as [->|]; tauto.
Qed.
Lemma normalize_hash_spec input value : normalize_hash input = Some value -> value <> [] /\ Forall (fun b => b ∉ [63; 35; 47] /\ b ∈ input) value.
Proof.
  unfold normalize_hash. set (v := trim_matches QUOTES (trim input)). destruct (bytes_eqb v []); [done|]. intros (w & Hw & H)%bind_Some. split_case_in H; [done|]. injection H as <-.
  split; [by unfold bytes_eqb in Heqb; bool_prop|]. rewrite Forall_forall. intros b Hb%trim_matches_sub%trim_sub%take_until_lacks. destruct Hb as [Hn Hb]. split; [done|].
  assert (b ∈ v) as Hv; [|by apply trim_matches_sub, trim_sub in Hv]. destruct (find_bytes _ _) as [i|]; [injection Hw as <-|split_case_in Hw; [done|]; by injection Hw as <-].
  rewrite <- (take_drop (Z.to_nat i + length JOIN) v), elem_of_app. by right.
Qed.
(** C28. The hashes read from the configuration are distinct, none is empty, and no byte of one is a separator, a slash or the
    start of a query or a fragment, so each can stand as a path segment. *)
Theorem parse_hashes_clean raw : NoDup (parse_hashes raw) /\ Forall (fun h => h <> [] /\ Forall (fun b => b ∉ SEPARATORS ++ [63; 35; 47]) h) (parse_hashes raw).
Proof.
  unfold parse_hashes. destruct (distinct_spec [] (omap normalize_hash (split_at SEPARATORS raw))) as [H1 H2]. split; [done|]. rewrite Forall_forall. intros h Hh.
  apply H2 in Hh as [(piece & Hp & Hn)%list_elem_of_omap _]. apply normalize_hash_spec in Hn as [Hne Hall]. split; [done|]. eapply Forall_impl; [exact Hall|].
  intros b [Hb Hin]. rewrite elem_of_app. intros [Hs|Hs]; [exact (split_at_lacks _ _ _ _ Hp Hin Hs)|done].
Qed.

(** ** Groups and credentials *)

(** The groups of the hash [x] among the first [k]. *)
Definition groups_of (h k x : nat) : nat := ((k + h - 1 - x) / h)%nat.
Lemma groups_of_step h k x : (x < h)%nat -> groups_of h (S k) x = (if decide (x = (k mod h)%nat) then S (groups_of h k x) else groups_of h k x)
  /\ (x = (k mod h)%nat -> groups_of h k x = (k / h)%nat).
Proof.
  intros Hx. pose proof (Nat.div_mod_eq k h) as Hk. pose proof (Nat.mod_upper_bound k h ltac:(lia)) as Hr. set (q := (k / h)%nat) in *. set (r := (k mod h)%nat) in *. unfold groups_of.
  assert (H1 : forall t c, (t < h)%nat -> ((h * c + t) / h = c)%nat) by (intros t c Ht; symmetry; apply (Nat.div_unique _ _ _ t); lia).
  case_decide as He.
  - subst x. replace (k + h - 1 - r)%nat with (h * q + (h - 1))%nat by lia. replace (S k + h - 1 - r)%nat with (h * S q + 0)%nat by lia. rewrite !H1 by lia. done.
  - split; [|done]. destruct (decide (r < x)%nat) as [Hlt|Hge].
    + replace (S k + h - 1 - x)%nat with (h * q + (r + h - x))%nat by lia. replace (k + h - 1 - x)%nat with (h * q + (r + h - 1 - x))%nat by lia. by rewrite !H1 by lia.
    + replace (S k + h - 1 - x)%nat with (h * S q + (r - x))%nat by lia. replace (k + h - 1 - x)%nat with (h * S q + (r - 1 - x))%nat by lia. by rewrite !H1 by lia.
Qed.
Lemma groups_of_0 h x : (x < h)%nat -> groups_of h 0 x = 0%nat.
Proof. intros Hx. unfold groups_of. apply Nat.div_small. lia. Qed.

Record assigned (h k : nat) (a : Assignment) : Prop := {
  ag_groups : length (as_groups a) = h /\ forall x, (x < h)%nat -> as_groups a !! x = Some (groups_of h k x);
  ag_credentials : length (as_credentials a) = h /\ forall x l, as_credentials a !! x = Some l -> length l = ((groups_of h k x + 1) / 2)%nat;
  ag_ids : forall x l c id, as_credentials a !! x = Some l -> l !! c = Some id -> 0 < id < as_next a;
  ag_distinct : forall x l c x' l' c' id, as_credentials a !! x = Some l -> l !! c = Some id -> as_credentials a !! x' = Some l' -> l' !! c' = Some id -> x = x' /\ c = c';
  ag_result : length (as_result a) = k /\ forall i, (i < k)%nat -> exists l id, as_credentials a !! (i mod h)%nat = Some l /\ l !! (i / h / 2)%nat = Some id /\ as_result a !! i = Some id;
  ag_next : 0 < as_next a <= Z.of_nat k + 1;
}.
Lemma assigned_new h : (0 < h)%nat -> assigned h 0 (mkAssignment (replicate h O) (replicate h []) 1 []).
Proof.
  intros Hh. split; cbn [as_groups as_credentials as_next as_result].
  - split; [apply length_replicate|]. intros x Hx. rewrite groups_of_0 by done. by apply lookup_replicate_2.
  - split; [apply length_replicate|]. intros x l [-> Hx]%lookup_replicate. by rewrite groups_of_0.
  - intros x l c id [-> _]%lookup_replicate. by rewrite lookup_nil.
  - intros x l c x' l' c' id [-> _]%lookup_replicate. by rewrite lookup_nil.
  - split; [done|lia].
  - lia.
Qed.
Lemma at_nat {A : Type} (l : list A) i x : l !! i = Some x -> @at_ unit A l (Z.of_nat i) = Ok x.
Proof. intros H. unfold at_. destruct (Z.leb_spec 0 (Z.of_nat i)); [by rewrite Nat2Z.id, H|lia]. Qed.
Lemma half_step n : ((S n + 1) / 2 = if decide ((n + 1) / 2 <= n / 2) then S ((n + 1) / 2) else (n + 1) / 2)%nat /\ (n / 2 <= (n + 1) / 2)%nat /\ ((n + 1) / 2 <= S (n / 2))%nat.
Proof.
  pose proof (Nat.div_mod_eq n 2). pose proof (Nat.mod_upper_bound n 2 ltac:(lia)). pose proof (Nat.div_mod_eq (n + 1) 2). pose proof (Nat.mod_upper_bound (n + 1) 2 ltac:(lia)).
  pose proof (Nat.div_mod_eq (S n + 1) 2). pose proof (Nat.mod_upper_bound (S n + 1) 2 ltac:(lia)). case_decide; lia.
Qed.
(** The credentials of the hash at hand, with a new one where the cohort is new. *)
Lemma cohort_credentials h k a l (n := (k / h)%nat) (next := as_next a) : (0 < h)%nat -> assigned h k a -> as_credentials a !! (k mod h)%nat = Some l ->
  let l' := if (length l <=? n / 2)%nat then l ++ [next] else l in
  length l' = ((S n + 1) / 2)%nat /\ (exists id, l' !! (n / 2)%nat = Some id) /\ l `prefix_of` l' /\ (forall c id, l' !! c = Some id -> l !! c = Some id \/ id = next /\ c = length l /\ (length l <= n / 2)%nat).
Proof.
  intros Hh Ha Hl l'. pose proof (Nat.mod_upper_bound k h ltac:(lia)) as Hr. destruct (groups_of_step h k (k mod h) Hr) as [_ Hn]. specialize (Hn eq_refl). fold n in Hn.
  pose proof (proj2 (ag_credentials _ _ _ Ha) _ _ Hl) as Hlen. rewrite Hn in Hlen. clear Hn. clearbody n. destruct (half_step n) as (H1 & H2 & H3). unfold l'. destruct (Nat.leb_spec (length l) (n / 2)) as [Hle|Hgt].
  - rewrite decide_True in H1 by lia. split_and!.
    + rewrite length_app. cbn [length]. lia.
    + exists next. rewrite lookup_app_r by lia. replace (n / 2 - length l)%nat with 0%nat by lia. done.
    + by apply prefix_app_r.
    + intros c id Hc. apply lookup_app_Some in Hc as [Hc|[Hge Hc]]; [by left|]. right. destruct (c - length l)%nat as [|m] eqn:E; [|done]. injection Hc as <-. split_and!; [done|lia|done].
  - rewrite decide_False in H1 by lia. split_and!; [lia|apply lookup_lt_is_Some_2; lia|done|by left].
Qed.
Lemma assign_step h k a : (0 < h)%nat -> Z.of_nat k + 2 <= USIZE_MAX -> assigned h k a -> exists a', assign_group a k h = Ok a' /\ assigned h (S k) a'.
Proof.
  intros Hh Hmax Ha. pose proof (Nat.mod_upper_bound k h ltac:(lia)) as Hr. set (x := (k mod h)%nat) in *.
  pose proof (proj2 (ag_groups _ _ _ Ha) x Hr) as Hg. destruct (groups_of_step h k x Hr) as [_ Hn]. specialize (Hn eq_refl). rewrite Hn in Hg.
  assert (Hx : (x < length (as_credentials a))%nat) by (rewrite (proj1 (ag_credentials _ _ _ Ha)); done). destruct (lookup_lt_is_Some_2 _ _ Hx) as [l Hl].
  destruct (cohort_credentials h k a l Hh Ha Hl) as (Hlen & (id & Hid) & Hpre & Hold). set (l' := if (length l <=? k / h / 2)%nat then l ++ [as_next a] else l) in *.
  unfold assign_group, group_hash_index, credential_cohort_index. fold x. rewrite (at_nat _ _ _ Hg). cbn [mbind result_bind]. rewrite (at_nat _ _ _ Hl). cbn [mbind result_bind].
  change (Z.to_nat GROUPS_PER_CREDENTIAL) with 2%nat. pose proof (ag_next _ _ _ Ha) as Hnext.
  set (next' := if (length l <=? k / h / 2)%nat then sat_add (as_next a) 1 else as_next a).
  assert (Hpair : (if (length l <=? k / h / 2)%nat then (l ++ [as_next a], sat_add (as_next a) 1) else (l, as_next a)) = (l', next')) by (unfold l', next'; by destruct (_ <=? _)%nat).
  rewrite Hpair. rewrite (at_nat _ _ _ Hid). cbn [mbind result_bind]. eexists. split; [reflexivity|].
  assert (Hn' : as_next a <= next' <= as_next a + 1 /\ ((length l <= k / h / 2)%nat -> next' = as_next a + 1)).
  { unfold next', sat_add. destruct (Nat.leb_spec (length l) (k / h / 2)); lia. }
  assert (Hnew : forall y m c j, <[x := l']> (as_credentials a) !! y = Some m -> m !! c = Some j ->
    (exists m0, as_credentials a !! y = Some m0 /\ m0 !! c = Some j) \/ (j = as_next a /\ next' = as_next a + 1 /\ y = x /\ c = length l)).
  { intros y m c j Hy Hc. apply list_lookup_insert_Some in Hy as [(-> & -> & _)|[_ Hy]]; [|left; by exists m]. destruct (Hold c j Hc) as [H|(-> & -> & Hle)]; [left; by exists l|right; split_and!; [done|by apply Hn'|done|done]]. }
  split; cbn [as_groups as_credentials as_next as_result].
  - destruct (ag_groups _ _ _ Ha) as [G1 G2]. split; [by rewrite length_insert|]. intros y Hy. destruct (groups_of_step h k y Hy) as [-> _]. fold x. case_decide as He.
    + subst y. rewrite list_lookup_insert_eq by lia. by rewrite Hn.
    + rewrite list_lookup_insert_ne by done. by apply G2.
  - destruct (ag_credentials _ _ _ Ha) as [C1 C2]. split; [by rewrite length_insert|]. intros y m Hy. apply list_lookup_insert_Some in Hy as [(<- & <- & _)|[Hne Hy]].
    + destruct (groups_of_step h k x Hr) as [-> _]. rewrite decide_True by done. by rewrite Hn.
    + assert (y < h)%nat as Hyh by (rewrite <- C1; by eapply lookup_lt_Some). destruct (groups_of_step h k y Hyh) as [-> _]. rewrite decide_False by (fold x; congruence). by apply C2.
  - intros y m c j Hy Hc. destruct (Hnew y m c j Hy Hc) as [(m0 & Hm0 & Hj)|(-> & -> & _)]; [|lia]. pose proof (ag_ids _ _ _ Ha _ _ _ _ Hm0 Hj). lia.
  - intros y m c y' m' c' j Hy Hc Hy' Hc'. destruct (Hnew y m c j Hy Hc) as [(m0 & Hm0 & Hj)|(Ej & _ & -> & ->)], (Hnew y' m' c' j Hy' Hc') as [(m1 & Hm1 & Hj')|(Ej' & _ & -> & ->)]; [..|done].
    + by eapply (ag_distinct _ _ _ Ha).
    + pose proof (ag_ids _ _ _ Ha _ _ _ _ Hm0 Hj). lia.
    + pose proof (ag_ids _ _ _ Ha _ _ _ _ Hm1 Hj'). lia.
  - destruct (ag_result _ _ _ Ha) as [R1 R2]. split; [rewrite length_app; cbn; lia|]. intros i Hi. destruct (decide (i = k)) as [->|Hne].
    + exists l', id. fold x. rewrite list_lookup_insert_eq by done. split_and!; [done|done|]. rewrite lookup_app_r by lia. by replace (k - length (as_result a))%nat with 0%nat by lia.
    + destruct (R2 i ltac:(lia)) as (m & j & Hm & Hj & Hi'). rewrite lookup_app_l by lia. destruct (decide (x = (i mod h)%nat)) as [Hxe|Hxne].
      * rewrite <- Hxe in *. assert (m = l) as -> by congruence. exists l', j. rewrite list_lookup_insert_eq by done. split_and!; [done|by eapply prefix_lookup_Some|done].
      * exists m, j. by rewrite list_lookup_insert_ne.
  - lia.
Qed.
Lemma assign_groups_ok h n k a : (0 < h)%nat -> Z.of_nat (k + n) + 2 <= USIZE_MAX -> assigned h k a -> exists a', assign_groups n k h a = Ok a' /\ assigned h (k + n) a'.
Proof.
  intros Hh. revert k a. induction n as [|n IH]; intros k a Hm Ha; [exists a; by rewrite Nat.add_0_r|]. cbn [assign_groups].
  destruct (assign_step h k a Hh ltac:(lia) Ha) as (a1 & -> & H1). cbn [mbind result_bind]. destruct (IH (S k) a1 ltac:(lia) H1) as (a2 & -> & H2). exists a2. split; [done|]. by replace (k + S n)%nat with (S k + n)%nat by lia.
Qed.
(** The groups of workers are spread over the hashes in turn, and two groups share credentials exactly when they are
    the same pair of consecutive groups of one hash; so credentials serve at most two groups, eighteen workers, and no index is
    out of range. *)
Theorem run_groups_pairs groups h : (0 < h)%nat -> Z.of_nat groups + 2 <= USIZE_MAX ->
  exists ids, run_groups groups h = Ok ids /\ length ids = groups
    /\ forall i j a b, ids !! i = Some a -> ids !! j = Some b -> (a = b <-> (i mod h = j mod h)%nat /\ (i / h / 2 = j / h / 2)%nat).
Proof.
  intros Hh Hm. unfold run_groups. replace (h =? 0)%nat with false by (symmetry; apply Nat.eqb_neq; lia).
  destruct (assign_groups_ok h groups 0 _ Hh Hm (assigned_new h Hh)) as (a & -> & Ha). cbn [mbind result_bind]. exists (as_result a). destruct (ag_result _ _ _ Ha) as [R1 R2]. split_and!; [done|done|].
  intros i j x y Hi Hj. destruct (R2 i) as (l & id & Hl & Hid & Hri); [rewrite <- R1; by eapply lookup_lt_Some|]. destruct (R2 j) as (l' & id' & Hl' & Hid' & Hrj); [rewrite <- R1; by eapply lookup_lt_Some|].
  assert (x = id) as -> by congruence. assert (y = id') as -> by congruence. split.
  - intros ->. by apply (ag_distinct _ _ _ Ha _ _ _ _ _ _ _ Hl Hid Hl' Hid').
  - intros [E1 E2]. rewrite E1 in Hl. rewrite E2 in Hid. congruence.
Qed.

(** ** Instances *)

Lemma pacing_correct_witness :
  foldr Z.add 0 (observe_all RecoveryLogGate_new [5; 6; 20000]).1.*2 + 0 = 3 /\ starts 100 0 [(0, false); (10, true); (20, false)] = [0; 100].
Proof.
  pose proof (pacing_correct RecoveryLogGate_new [5; 6; 20000] 100 0 [(0, false); (10, true); (20, false)] ltac:(done) ltac:(done) ltac:(done)
    ltac:(by apply (bool_decide_unpack _)) ltac:(repeat constructor; lia) ltac:(done)) as [H _].
  split; [exact H|reflexivity].
Defined.
Definition demo_credentials (n : Z) : TurnCredentials := mkCredentials [n] [n] [].
Definition demo_group : GroupCredentials := mkGroupCredentials (mkCache (Some (mkCached (demo_credentials 1) 1 1 0)) None 1 0) 0 false.
Definition demo_lease : CredentialLease := mkLease (demo_credentials 1) 1.
Lemma demo_group_reached : rtc cohort_step (GroupCredentials_new, []) (demo_group, [demo_lease]).
Proof. apply rtc_once. by apply (Cohort_lease GroupCredentials_new [] (Fetch_ok (demo_credentials 1)) false demo_lease (Some 100)). Qed.
Lemma cohort_bounded_witness : of_generation 1 [demo_lease] <= 18 /\ of_value (demo_credentials 1) [demo_lease] <= 18.
Proof.
  destruct (cohort_bounded (demo_group, [demo_lease]) demo_group_reached) as (H1 & _ & _ & H4). split; [exact (H1 1)|].
  apply H4. by intros l l' ->%list_elem_of_singleton ->%list_elem_of_singleton.
Defined.
Lemma quota_rotates_once_witness :
  rotate_after_quota (mkCache None (Some (demo_credentials 1)) 1 1) demo_lease = (QuotaReplaced, mkCache None (Some (demo_credentials 1)) 1 1).
Proof.
  exact (proj1 (quota_rotates_once demo_group [demo_lease] demo_lease 100 (mkCache None (Some (demo_credentials 1)) 1 1)
    (mkGroupCredentials (mkCache None (Some (demo_credentials 1)) 1 1) 0 false, [demo_lease]) demo_lease (cohort_reachable _ demo_group_reached) eq_refl) (rtc_refl _ _) eq_refl).
Defined.
Definition demo_outcome : SessionOutcome := mkOutcome true false (Some (mkError (b_ "TURN Allocate: TURN Allocate failed: STUN error 486") [] [AllocateError (Some 486)])) 0 false false false false.
Lemma demo_after : after_session Udp (fun _ => 0) (mkWorker 3 (gc_cache demo_group) true) demo_lease demo_outcome
  = (Sleep 100, mkWorker 0 (mkCache None (Some (demo_credentials 1)) 1 1) true).
Proof. vm_compute. reflexivity. Qed.
Lemma after_session_waits_witness : 50 <= 100 <= 10000.
Proof.
  pose proof (after_session_waits Udp (fun _ => 0) (mkWorker 3 (gc_cache demo_group) true) demo_lease demo_outcome ltac:(done) ltac:(done)) as H.
  rewrite demo_after in H. exact (proj1 (proj2 H)).
Defined.
Lemma run_groups_pairs_witness : exists ids, run_groups 6 2 = Ok ids /\ length ids = 6%nat.
Proof. destruct (run_groups_pairs 6 2 ltac:(lia) ltac:(done)) as (ids & H1 & H2 & _). exists ids. exact (conj H1 H2). Defined.
