(* ===== verification/Endpoint.v ===== *)
(** * The TURN endpoints of the client

    [rust-client/turn_endpoint.rs], which reads the addresses of relays, and the choice of one of them by a session
    ([turn_endpoint_index], [select_turn_address] and [turn_path_key] of [rust-client/session.rs]). *)

From S2P Require Import Prelude Text Panel Worker.

Inductive TurnWireTransport := WireUdp | WireTcp | WireTls.
Record TurnEndpoint := mkEndpoint { te_host : bytes; te_port : Z; te_transport : TurnWireTransport }.
Inductive TurnScheme := Turn | Turns | Bare.
Inductive UriTransport := UriUdp | UriTcp.
#[global] Instance TurnWireTransport_eq_dec : EqDecision TurnWireTransport.
Proof. solve_decision. Defined.
#[global] Instance TurnScheme_eq_dec : EqDecision TurnScheme.
Proof. solve_decision. Defined.
#[global] Instance UriTransport_eq_dec : EqDecision UriTransport.
Proof. solve_decision. Defined.
Inductive EndpointError :=
| UnsupportedMode | NotTls | NameNeeded
| EmptyEndpoint | EmptyAuthority | UnsupportedTransport | DuplicateTransport | TurnsOverUdp
| MalformedIpv6 | UnbracketedIpv6 | EmptyHost | InvalidPort
| TlsInUdpMode | TcpInUdpMode | UdpInTcpMode | NoEndpoint.

Definition COLON : Z := 58.
Definition TurnTransportMode_parse (value : bytes) : result EndpointError TurnTransportMode :=
  let value := to_ascii_lowercase (trim value) in
  if bytes_eqb value (b_ "udp") then Ok Udp
  else if existsb (bytes_eqb value) [b_ "tcp"; b_ "tcp_tls"; b_ "tcp-tls"; b_ "tcp/tls"] then Ok TcpTls
  else Err UnsupportedMode.
Definition socket_authority (e : TurnEndpoint) : bytes :=
  if bool_decide (COLON ∈ te_host e) then [91] ++ te_host e ++ [93; COLON] ++ to_string (te_port e)
  else te_host e ++ [COLON] ++ to_string (te_port e).
(** [is_ip] is [IpAddr::from_str(..).is_ok()]. *)
Definition tls_server_name (is_ip : bytes -> bool) (e : TurnEndpoint) : result EndpointError bytes :=
  if negb (bool_decide (te_transport e = WireTls)) then Err NotTls else
  if is_ip (te_host e) then Err NameNeeded else Ok (te_host e).

(** [split_once] with a string, [rsplit_once], [strip_suffix]. *)
Fixpoint split_once_str (sep l : bytes) : option (bytes * bytes) :=
  match strip_prefix sep l with
  | Some rest => Some ([], rest)
  | None => match l with
            | [] => None
            | b :: l => match split_once_str sep l with Some (h, t) => Some (b :: h, t) | None => None end
            end
  end.
Definition rsplit_once (sep : Z) (l : bytes) : option (bytes * bytes) :=
  match split_once sep (reverse l) with Some (t, h) => Some (reverse h, reverse t) | None => None end.
Definition strip_suffix (sep l : bytes) : option bytes := reverse <$> strip_prefix (reverse sep) (reverse l).

Fixpoint parse_parameters (parameters : list bytes) (uri_transport : option UriTransport) : result EndpointError (option UriTransport) :=
  match parameters with
  | [] => Ok uri_transport
  | parameter :: parameters =>
      let '(key, value) := default (parameter, []) (split_once 61 parameter) in
      if bytes_eqb (to_ascii_lowercase key) (b_ "transport") then
        parsed ← (let value := to_ascii_lowercase value in
                  if bytes_eqb value (b_ "udp") then Ok UriUdp else if bytes_eqb value (b_ "tcp") then Ok UriTcp else Err UnsupportedTransport);
        match uri_transport with
        | Some _ => Err DuplicateTransport
        | None => parse_parameters parameters (Some parsed)
        end
      else parse_parameters parameters uri_transport
  end.
Definition parse_turn_uri (value : bytes) : result EndpointError (TurnScheme * bytes * option UriTransport) :=
  let value := trim value in
  if bytes_eqb value [] then Err EmptyEndpoint else
  let lower := to_ascii_lowercase value in
  let '(scheme, value) := if starts_with lower (b_ "turns:") then (Turns, drop 6 value)
                          else if starts_with lower (b_ "turn:") then (Turn, drop 5 value) else (Bare, value) in
  let '(authority, query) := default (value, []) (split_once 63 value) in
  if bytes_eqb authority [] then Err EmptyAuthority else
  uri_transport ← parse_parameters (filter (fun p => p <> []) (split_at [38] query)) None;
  if bool_decide (scheme = Turns) && bool_decide (uri_transport = Some UriUdp) then Err TurnsOverUdp else
  Ok (scheme, authority, uri_transport).
Definition is_supported_turn_uri (value : bytes) : bool := match parse_turn_uri value with Ok _ => true | _ => false end.

Definition default_port (scheme : TurnScheme) : Z := match scheme with Turns => 5349 | Turn | Bare => 3478 end.
Definition parse_authority (value : bytes) (scheme : TurnScheme) : result EndpointError (bytes * Z) :=
  match strip_prefix [91] value with
  | Some rest =>
      match split_once_str [93; COLON] rest with
      | None => host ← try_ MalformedIpv6 (strip_suffix [93] rest); Ok (host, default_port scheme)
      | Some (host, port) => port ← try_ InvalidPort (parse_u16 port); Ok (host, port)
      end
  | None =>
      if 1 <? len (filter (fun b => b = COLON) value) then Err UnbracketedIpv6 else
      match rsplit_once COLON value with
      | Some (host, port) => if bytes_eqb host [] then Err EmptyHost else port ← try_ InvalidPort (parse_u16 port); Ok (host, port)
      | None => Ok (value, default_port scheme)
      end
  end.
Definition wire_transport (mode : TurnTransportMode) (scheme : TurnScheme) (uri_transport : option UriTransport) : result EndpointError TurnWireTransport :=
  match mode with
  | Udp => match scheme, uri_transport with
           | Turns, _ => Err TlsInUdpMode
           | _, Some UriTcp => Err TcpInUdpMode
           | _, _ => Ok WireUdp
           end
  | TcpTls => match scheme, uri_transport with
              | _, Some UriUdp => Err UdpInTcpMode
              | Turns, _ => Ok WireTls
              | _, Some UriTcp => Ok WireTcp
              | _, None => Ok WireTcp
              end
  end.
(** [o.filter(|value| !value.trim().is_empty()).map(str::trim)] *)
Definition given (o : option bytes) : option bytes := value ← o; if bytes_eqb (trim value) [] then None else Some (trim value).
Definition resolve_turn_endpoints (value : bytes) (override_host override_port : option bytes) (mode : TurnTransportMode) : result EndpointError (list TurnEndpoint) :=
  '(scheme, authority, uri_transport) ← parse_turn_uri value;
  '(original_host, original_port) ← parse_authority authority scheme;
  let host := default original_host (given override_host) in
  port ← match given override_port with Some port => try_ InvalidPort (parse_u16 port) | None => Ok original_port end;
  if bytes_eqb host [] then Err EmptyHost else
  transport ← wire_transport mode scheme uri_transport;
  Ok [mkEndpoint host port transport].

(** ** The choice of a session *)

Section Select.
Context (override_host override_port : option bytes) (mode : TurnTransportMode).
Definition turn_endpoint_index (id cursor endpoint_count : nat) : opt nat :=
  if (endpoint_count =? 0)%nat then Panic else Ok ((id mod endpoint_count + cursor mod endpoint_count) mod endpoint_count)%nat.
Definition usable (address : bytes) : bool := match resolve_turn_endpoints address override_host override_port mode with Ok _ => true | _ => false end.
Fixpoint select_from (addresses : list bytes) (start : nat) (offsets : list nat) : result EndpointError bytes :=
  match offsets with
  | [] => Err NoEndpoint
  | offset :: offsets =>
      address ← at_ addresses (Z.of_nat ((start + offset) mod length addresses));
      if usable address then Ok address else select_from addresses start offsets
  end.
Definition select_turn_address (addresses : list bytes) (id cursor : nat) : result EndpointError bytes :=
  match turn_endpoint_index id cursor (length addresses) with
  | Ok start => select_from addresses start (seq 0 (length addresses))
  | _ => Panic
  end.
Definition turn_path_key (address : bytes) : result EndpointError bytes :=
  endpoints ← resolve_turn_endpoints address override_host override_port mode;
  endpoint ← try_ NoEndpoint (head endpoints);
  Ok (socket_authority endpoint).
End Select.

Example resolve_1 : resolve_turn_endpoints (b_ " TURN:relay.example:3478?x&transport=UDP ") None None Udp = Ok [mkEndpoint (b_ "relay.example") 3478 WireUdp].
Proof. vm_compute. reflexivity. Qed.
Example resolve_2 : resolve_turn_endpoints (b_ "turns:[2001:db8::1]") None None TcpTls = Ok [mkEndpoint (b_ "2001:db8::1") 5349 WireTls].
Proof. vm_compute. reflexivity. Qed.
Example resolve_3 : resolve_turn_endpoints (b_ "turn:relay.example:3478?transport=tcp") (Some (b_ "override.example")) (Some (b_ "19302")) TcpTls
  = Ok [mkEndpoint (b_ "override.example") 19302 WireTcp].
Proof. vm_compute. reflexivity. Qed.
Example resolve_4 : resolve_turn_endpoints (b_ "2001:db8::1") None None Udp = Err UnbracketedIpv6.
Proof. vm_compute. reflexivity. Qed.

(** ** Addresses: what holds *)

Lemma split_once_none sep l : lacks sep l -> split_once sep l = None.
Proof.
  unfold lacks. induction l as [|b l IH]; intros H; [done|]. cbn. assert (b <> sep) by set_solver.
  rewrite (proj2 (Z.eqb_neq b sep)) by done. by rewrite IH by set_solver.
Qed.
Lemma split_once_str_app a sep h t : lacks a h -> split_once_str (a :: sep) (h ++ (a :: sep) ++ t) = Some (h, t).
Proof.
  unfold lacks. induction h as [|b h IH]; intros H.
  - assert (strip_prefix (a :: sep) ((a :: sep) ++ t) = Some t) as Hs by (apply strip_prefix_app).
    cbn [app] in *. unfold split_once_str. rewrite Hs. done.
  - assert (a <> b) by set_solver. cbn [app split_once_str strip_prefix]. rewrite (proj2 (Z.eqb_neq a b)) by done.
    change (a :: sep ++ t) with ((a :: sep) ++ t). by rewrite IH by set_solver.
Qed.
Lemma rsplit_once_app sep h t : lacks sep t -> rsplit_once sep (h ++ sep :: t) = Some (h, t).
Proof.
  intros H. unfold rsplit_once. replace (reverse (h ++ sep :: t)) with (reverse t ++ sep :: reverse h) by (by rewrite reverse_app, reverse_cons, <- app_assoc).
  rewrite split_once_app by (unfold lacks; by rewrite elem_of_reverse). by rewrite !reverse_involutive.
Qed.

(** The bytes of a host name or of an address of either family. *)
Definition host_byte (b : Z) : Prop := graphic b /\ b ∉ [91; 93; 63].
Definition host_ok (host : bytes) : Prop := host <> [] /\ Forall host_byte host.
Lemma host_lacks host b : host_ok host -> b ∈ [91; 93; 63] -> lacks b host.
Proof. intros [_ H] Hb Hin. rewrite Forall_forall in H. destruct (H b Hin) as [_ Hn]. exact (Hn Hb). Qed.
Lemma port_text port : is_u16 port -> Forall (fun b => 48 <= b <= 57) (to_string port) /\ parse_u16 (to_string port) = Some port.
Proof. unfold is_u16. intros H. split; [apply to_string_digits; lia|apply parse_to_string; unfold U16_MAX; lia]. Qed.
Lemma port_lacks port b : is_u16 port -> ~ (48 <= b <= 57) -> lacks b (to_string port).
Proof. intros Hp Hb Hin. destruct (port_text _ Hp) as [H _]. rewrite Forall_forall in H. by apply H in Hin. Qed.
Lemma authority_graphic e : host_ok (te_host e) -> is_u16 (te_port e) -> Forall graphic (socket_authority e) /\ lacks 63 (socket_authority e) /\ socket_authority e <> [].
Proof.
  intros Hh Hp. pose proof (host_lacks _ 63 Hh ltac:(set_solver)) as Hq. pose proof (port_lacks _ 63 Hp ltac:(lia)) as Hq'. destruct Hh as [Hne Hh].
  assert (Forall graphic (te_host e)) as Hg by (eapply Forall_impl; [exact Hh|by intros ? []]). assert (Forall graphic (to_string (te_port e))) as Hpg by (apply to_string_graphic; unfold is_u16 in Hp; lia).
  unfold socket_authority, lacks in *. case_bool_decide; split_and!; try done.
  - repeat (apply Forall_app; split); try done; repeat constructor; unfold graphic, COLON; lia.
  - rewrite !elem_of_app. unfold COLON. set_solver.
  - repeat (apply Forall_app; split); try done. repeat constructor; unfold graphic, COLON; lia.
  - rewrite !elem_of_app. unfold COLON. set_solver.
  - by destruct (te_host e).
Qed.
Lemma authority_parsed e scheme : host_ok (te_host e) -> is_u16 (te_port e) -> parse_authority (socket_authority e) scheme = Ok (te_host e, te_port e).
Proof.
  intros Hh Hp. destruct (port_text _ Hp) as [_ Hv]. unfold parse_authority, socket_authority. case_bool_decide as Hc.
  - cbn [strip_prefix app]. rewrite Z.eqb_refl. change (te_host e ++ 93 :: COLON :: to_string (te_port e)) with (te_host e ++ (93 :: [COLON]) ++ to_string (te_port e)). rewrite (split_once_str_app 93 [COLON]) by (apply host_lacks; [done|set_solver]). by rewrite Hv.
  - assert (strip_prefix [91] (te_host e ++ [COLON] ++ to_string (te_port e)) = None) as ->.
    { pose proof (host_lacks _ 91 Hh ltac:(set_solver)) as Hl. destruct Hh as [Hne _]. destruct (te_host e) as [|b h]; [done|]. cbn [app strip_prefix].
      assert (91 <> b) by (unfold lacks in Hl; set_solver). by rewrite (proj2 (Z.eqb_neq 91 b)). }
    assert (forall l, lacks COLON l -> filter (fun b => b = COLON) l = []) as Hf.
    { intros l Hl. induction l as [|b l IH]; [done|]. rewrite filter_cons_False; [apply IH|]; unfold lacks in *; set_solver. }
    rewrite !filter_app, Hf, (Hf (to_string _)) by (done || (apply port_lacks; [done|unfold COLON; lia])).
    change (1 <? len ([] ++ filter (fun b => b = COLON) [COLON] ++ [])) with false. cbv iota.
    change ([COLON] ++ to_string (te_port e)) with (COLON :: to_string (te_port e)). rewrite rsplit_once_app by (apply port_lacks; [done|unfold COLON; lia]). unfold bytes_eqb. rewrite bool_decide_eq_false_2 by apply Hh. by rewrite Hv.
Qed.

(** The text of an address: the scheme, the endpoint and the transport it asks for. *)
Definition scheme_text (s : TurnScheme) : bytes := match s with Turn => b_ "turn:" | Turns => b_ "turns:" | Bare => [] end.
Definition transport_text (t : option UriTransport) : bytes :=
  match t with None => [] | Some UriUdp => b_ "?transport=udp" | Some UriTcp => b_ "?transport=tcp" end.
Definition turn_uri (scheme : TurnScheme) (e : TurnEndpoint) (t : option UriTransport) : bytes := scheme_text scheme ++ socket_authority e ++ transport_text t.

Lemma lowercase_app a b : to_ascii_lowercase (a ++ b) = to_ascii_lowercase a ++ to_ascii_lowercase b.
Proof. apply fmap_app. Qed.
Lemma query_parsed t authority : lacks 63 authority ->
  default (authority ++ transport_text t, []) (split_once 63 (authority ++ transport_text t)) = (authority, tail (transport_text t))
  /\ parse_parameters (filter (fun p => p <> []) (split_at [38] (tail (transport_text t)))) None = Ok t.
Proof.
  intros H. split; [|by destruct t as [[]|]; vm_compute].
  destruct t as [[]|]; cbn [transport_text].
  - change (b_ "?transport=udp") with (63 :: b_ "transport=udp"). by rewrite split_once_app.
  - change (b_ "?transport=tcp") with (63 :: b_ "transport=tcp"). by rewrite split_once_app.
  - by rewrite app_nil_r, split_once_none.
Qed.
Lemma turn_uri_parsed scheme e t : scheme <> Bare -> host_ok (te_host e) -> is_u16 (te_port e) ->
  parse_turn_uri (turn_uri scheme e t) = if bool_decide (scheme = Turns) && bool_decide (t = Some UriUdp) then Err TurnsOverUdp else Ok (scheme, socket_authority e, t).
Proof.
  intros Hs Hh Hp. destruct (authority_graphic e Hh Hp) as (Hg & Hq & Hne). unfold parse_turn_uri.
  assert (Forall graphic (turn_uri scheme e t)) as Hall.
  { unfold turn_uri. repeat (apply Forall_app; split); [destruct scheme|done|destruct t as [[]|]]; by apply (bool_decide_unpack _); vm_compute. }
  rewrite trim_trimmed by by apply graphic_trimmed. unfold bytes_eqb at 1.
  rewrite bool_decide_eq_false_2 by (unfold turn_uri; destruct (socket_authority e); [done|]; by destruct scheme).
  destruct (query_parsed t _ Hq) as [Hd Hpar]. unfold turn_uri. rewrite lowercase_app.
  assert ((if starts_with (to_ascii_lowercase (scheme_text scheme) ++ to_ascii_lowercase (socket_authority e ++ transport_text t)) (b_ "turns:")
           then (Turns, drop 6 (scheme_text scheme ++ socket_authority e ++ transport_text t))
           else if starts_with (to_ascii_lowercase (scheme_text scheme) ++ to_ascii_lowercase (socket_authority e ++ transport_text t)) (b_ "turn:")
           then (Turn, drop 5 (scheme_text scheme ++ socket_authority e ++ transport_text t))
           else (Bare, scheme_text scheme ++ socket_authority e ++ transport_text t)) = (scheme, socket_authority e ++ transport_text t)) as -> by (destruct scheme; [reflexivity|reflexivity|done]).
  rewrite Hd. unfold bytes_eqb. rewrite bool_decide_eq_false_2 by done. rewrite Hpar. reflexivity.
Qed.

(** What an endpoint is dialled with, or why it is refused: over UDP there are no TLS relays and no TCP ones, over TCP none that
    ask for UDP, and TLS never goes over UDP. *)
Definition dialled (mode : TurnTransportMode) (tls : bool) (t : option UriTransport) : TurnWireTransport + EndpointError :=
  match t, tls, mode with
  | Some UriUdp, true, _ => inr TurnsOverUdp
  | Some UriUdp, false, Udp | None, false, Udp => inl WireUdp
  | Some UriTcp, true, Udp | None, true, Udp => inr TlsInUdpMode
  | Some UriTcp, false, Udp => inr TcpInUdpMode
  | Some UriUdp, false, TcpTls => inr UdpInTcpMode
  | Some UriTcp, false, TcpTls | None, false, TcpTls => inl WireTcp
  | Some UriTcp, true, TcpTls | None, true, TcpTls => inl WireTls
  end.
(** C24. The text of an endpoint (a host name or an address of either family, a port, a scheme and a transport) is read back as
    that endpoint, with the host and the port the user gave in its place if any and the transport the mode, the scheme and the
    text ask for together, and is refused, each time with its own error, exactly when those do not go together; the path key of
    the endpoint is its authority again. *)
Theorem turn_uri_roundtrip scheme e t mode host port :
  scheme <> Bare -> host_ok (te_host e) -> is_u16 (te_port e) -> match host with Some h => host_ok h | None => True end -> match port with Some p => is_u16 p | None => True end ->
  match dialled mode (bool_decide (scheme = Turns)) t with
  | inr error => resolve_turn_endpoints (turn_uri scheme e t) host (to_string <$> port) mode = Err error
  | inl transport =>
      let e' := mkEndpoint (default (te_host e) host) (default (te_port e) port) transport in
      resolve_turn_endpoints (turn_uri scheme e t) host (to_string <$> port) mode = Ok [e']
      /\ turn_path_key host (to_string <$> port) mode (turn_uri scheme e t) = Ok (socket_authority e')
      /\ parse_authority (socket_authority e') scheme = Ok (te_host e', te_port e')
  end.
Proof.
  intros Hs Hh Hp Hhost Hport.
  assert (given host = host) as Hgh.
  { destruct host as [h|]; [|done]. unfold given. cbn [mbind option_bind]. rewrite trim_trimmed by (apply graphic_trimmed; eapply Forall_impl; [apply Hhost|by intros ? []]).
    unfold bytes_eqb. by rewrite bool_decide_eq_false_2 by apply Hhost. }
  assert (match given (to_string <$> port) with Some p => try_ InvalidPort (parse_u16 p) | None => Ok (te_port e) end = Ok (default (te_port e) port)) as Hgp.
  { destruct port as [p|]; [|done]. unfold given. cbn [mbind option_bind fmap option_fmap option_map].
    rewrite trim_trimmed by (apply graphic_trimmed, to_string_graphic; unfold is_u16 in Hport; lia). unfold bytes_eqb.
    rewrite bool_decide_eq_false_2 by (apply to_string_digits; unfold is_u16 in Hport; lia). by rewrite (proj2 (port_text p Hport)). }
  assert (host_ok (default (te_host e) host)) as Hdh by by destruct host. assert (is_u16 (default (te_port e) port)) as Hdp by by destruct port.
  assert (resolve_turn_endpoints (turn_uri scheme e t) host (to_string <$> port) mode =
          if bool_decide (scheme = Turns) && bool_decide (t = Some UriUdp) then Err TurnsOverUdp else
          w ← wire_transport mode scheme t; Ok [mkEndpoint (default (te_host e) host) (default (te_port e) port) w]) as Hr.
  { unfold resolve_turn_endpoints. rewrite turn_uri_parsed by done. destruct (_ && _); [done|]. cbn [mbind result_bind]. rewrite authority_parsed by done. cbn [mbind result_bind].
    rewrite Hgh, Hgp. cbn [mbind result_bind]. unfold bytes_eqb. by rewrite bool_decide_eq_false_2 by apply Hdh. }
  unfold turn_path_key. rewrite Hr. destruct scheme; [| |done]; destruct t as [[]|], mode; cbn; try done; (split_and!; try done; by apply authority_parsed).
Qed.
Lemma turn_uri_roundtrip_witness :
  resolve_turn_endpoints (b_ "turns:[fe80::1]:443?transport=tcp") None None TcpTls = Ok [mkEndpoint (b_ "fe80::1") 443 WireTls]
  /\ resolve_turn_endpoints (b_ "turn:[fe80::1]:443?transport=udp") None None TcpTls = Err UdpInTcpMode.
Proof.
  assert (host_ok (b_ "fe80::1")) as Hh by (split; [done|by apply (bool_decide_unpack _); vm_compute]).
  split.
  - exact (proj1 (turn_uri_roundtrip Turns (mkEndpoint (b_ "fe80::1") 443 WireTls) (Some UriTcp) TcpTls None None ltac:(done) Hh ltac:(by vm_compute) I I)).
  - exact (turn_uri_roundtrip Turn (mkEndpoint (b_ "fe80::1") 443 WireTls) (Some UriUdp) TcpTls None None ltac:(done) Hh ltac:(by vm_compute) I I).
Defined.

(** ** The choice: what holds *)

Lemma select_from_spec host port mode addresses start offsets : addresses <> [] ->
  match select_from host port mode addresses start offsets with
  | Ok a => exists before k after, offsets = before ++ k :: after /\ addresses !! ((start + k) mod length addresses)%nat = Some a /\ usable host port mode a = true
            /\ Forall (fun j => exists b, addresses !! ((start + j) mod length addresses)%nat = Some b /\ usable host port mode b = false) before
  | Err e => e = NoEndpoint /\ Forall (fun j => exists b, addresses !! ((start + j) mod length addresses)%nat = Some b /\ usable host port mode b = false) offsets
  | Panic => False
  end.
Proof.
  intros Hne. assert (length addresses <> 0)%nat as Hl by (by destruct addresses). induction offsets as [|k offsets IH]; [done|]. cbn [select_from].
  unfold at_. rewrite Nat2Z.id. rewrite (proj2 (Z.leb_le 0 _) (Nat2Z.is_nonneg _)).
  destruct (addresses !! ((start + k) mod length addresses)%nat) as [a|] eqn:E; [|apply lookup_ge_None in E; pose proof (Nat.mod_upper_bound (start + k) (length addresses) Hl); lia].
  cbn [mbind result_bind]. destruct (usable host port mode a) eqn:Eu.
  - exists [], k, offsets. split_and!; [done|done|done|constructor].
  - destruct (select_from _ _ _ _ _ _) as [b|e|].
    + destruct IH as (before & k' & after & -> & H1 & H2 & H3). exists (k :: before), k', after. split_and!; [done|done|done|]. constructor; [by exists a|done].
    + destruct IH as [-> IH]. split; [done|]. constructor; [by exists a|done].
    + done.
Qed.

(** A session takes the first address it can use, counted cyclically from the position [id + cursor], so that successive
    sessions and successive attempts start at successive addresses; it fails only when no address can be used, and the address
    it takes has a path key. *)
Theorem select_turn_address_first host port mode addresses id cursor : addresses <> [] ->
  match select_turn_address host port mode addresses id cursor with
  | Ok a => exists k, (k < length addresses)%nat /\ addresses !! ((id + cursor + k) mod length addresses)%nat = Some a /\ usable host port mode a = true
            /\ (forall j, (j < k)%nat -> exists b, addresses !! ((id + cursor + j) mod length addresses)%nat = Some b /\ usable host port mode b = false)
            /\ exists key, turn_path_key host port mode a = Ok key
  | Err e => e = NoEndpoint /\ Forall (fun b => usable host port mode b = false) addresses
  | Panic => False
  end.
Proof.
  intros Hne. set (n := length addresses). assert (n <> 0)%nat as Hn by (unfold n; by destruct addresses). unfold select_turn_address, turn_endpoint_index. fold n.
  destruct (n =? 0)%nat eqn:E; [apply Nat.eqb_eq in E; lia|].
  assert (forall k, ((id mod n + cursor mod n) mod n + k) mod n = (id + cursor + k) mod n)%nat as Hk.
  { intros k. rewrite <- Nat.Div0.add_mod. by rewrite Nat.Div0.add_mod_idemp_l. }
  pose proof (select_from_spec host port mode addresses ((id mod n + cursor mod n) mod n) (seq 0 n) Hne) as H. fold n in H. destruct (select_from _ _ _ _ _ _) as [a|e|]; [| |done].
  - destruct H as (before & k & after & Hseq & Ha & Hu & Hb).
    assert (k = length before /\ (k < n)%nat) as [Hkb Hkn].
    { assert (seq 0 n !! length before = Some k) as Hl by (rewrite Hseq; by apply list_lookup_middle). apply lookup_seq in Hl. lia. }
    exists k. rewrite Hk in Ha. split_and!; [done|done|done| |].
    + intros j Hj. rewrite Forall_forall in Hb. destruct (Hb j) as (b & H1 & H2); [|exists b; by rewrite Hk in H1].
      assert (before !! j = Some j) as Hl; [|by eapply list_elem_of_lookup_2].
      assert (seq 0 n !! j = Some j) as Hsj by (apply lookup_seq; lia). rewrite Hseq, lookup_app_l in Hsj by lia. done.
    + unfold usable in Hu. unfold turn_path_key. destruct (resolve_turn_endpoints _ _ _ _) as [l| |] eqn:Er; [|done|done]. cbn [mbind result_bind].
      assert (l <> []) as Hl; [|destruct l; [done|]; by eexists]. unfold resolve_turn_endpoints in Er. intros ->.
      repeat (apply bind_ok in Er as (? & _ & Er); repeat case_match; try done).
  - destruct H as [-> H]. split; [done|]. apply Forall_forall. intros b (i & Hi)%list_elem_of_lookup. rewrite Forall_forall in H.
    set (s := ((id mod n + cursor mod n) mod n)%nat) in *. assert (s < n)%nat by (by apply Nat.mod_upper_bound). apply lookup_lt_Some in Hi as Hin. fold n in Hin.
    destruct (H ((i + n - s) mod n)%nat) as (b' & Hb & Hu); [apply elem_of_seq; split; [lia|by apply Nat.mod_upper_bound]|].
    rewrite Nat.Div0.add_mod_idemp_r in Hb. replace (s + (i + n - s))%nat with (i + 1 * n)%nat in Hb by lia. rewrite Nat.Div0.mod_add, Nat.mod_small in Hb by done. congruence.
Qed.
Lemma select_turn_address_first_witness :
  exists k, (k < 2)%nat /\ [b_ "turn:relay.example:3478?transport=udp"; b_ "turn:relay.example:3478?transport=tcp"] !! ((0 + 0 + k) mod 2)%nat = Some (b_ "turn:relay.example:3478?transport=tcp").
Proof.
  pose proof (select_turn_address_first None None TcpTls [b_ "turn:relay.example:3478?transport=udp"; b_ "turn:relay.example:3478?transport=tcp"] 0 0 ltac:(done)) as H.
  replace (select_turn_address _ _ _ _ _ _) with (@Ok EndpointError _ (b_ "turn:relay.example:3478?transport=tcp")) in H by by vm_compute.
  destruct H as (k & Hk & Ha & _). exists k. split; [exact Hk|exact Ha].
Defined.
