(* ===== verification/Writer.v ===== *)
(** * The writer of a session

    What a session of the client does with the packets the dispatcher queued for it: [TransportWriter], [writer_loop] and
    [send_writer_batch] of [rust-client/session.rs], the sending half of [TurnAllocation] ([rust-client/turn.rs],
    [send_with_duplicate] and [send_data_batch]) and [send_connected] of [rust-client/udp_batch.rs].

    The system calls are the answers they return, in order; the driver of the allocation changes its state between any two
    calls.  Measurements are left out. *)

From S2P Require Import Prelude FlowFrame Classify Packet Obfs TurnStream Channel Dispatch.

Definition MAX_DATAGRAMS : Z := 128.
Definition WRITER_LATENCY_BATCH_LIMIT : Z := SMALL_DATAGRAM_BATCH.
Definition WRITER_PRIORITY_BATCH_LIMIT : Z := MEDIUM_DATAGRAM_BATCH.
Definition WRITER_BULK_BATCH_LIMIT : Z := BULK_DATAGRAM_BATCH.

(** ** The allocation *)

(** An answer to a call that sends: datagrams accepted, [WouldBlock], another error. *)
Inductive SendAnswer := Accepted (count : nat) | SendWouldBlock | SendFailure.
(** What [ensure_open] and the channel read at a call. *)
Record AllocationState := mkAllocation { al_open : bool; al_channel : Z }.
(** [Waiting]: the answers given end before the call does. *)
Inductive WriteError := AllocationClosed | NoChannel | BadPacket (why : string) | SendError | BatchTooLarge | BudgetExhausted | Waiting.
(** [lk_wire]: what was handed to the socket, or to the writer of the stream. *)
Record Link := mkLink { lk_calls : nat; lk_answers : list SendAnswer; lk_wire : list bytes }.
Abbreviation link := (effect Link WriteError).
Definition from_string {S A : Type} (r : result string A) : effect S WriteError A :=
  fun s => (match r with Ok a => Ok a | Err why => Err (BadPacket why) | Panic => Panic end, s).

(** The loop of [send_connected]. *)
Fixpoint send_loop (answers : list SendAnswer) (datagrams wire : list bytes) : result WriteError unit * list SendAnswer * list bytes :=
  match datagrams with
  | [] => (Ok tt, answers, wire)
  | _ =>
      match answers with
      | [] => (Err Waiting, [], wire)
      | SendWouldBlock :: answers => send_loop answers datagrams wire
      | SendFailure :: answers => (Err SendError, answers, wire)
      | Accepted count :: answers =>
          if (length datagrams <? count)%nat then (Err SendError, answers, wire)
          else send_loop answers (drop count datagrams) (wire ++ take count datagrams)
      end
  end.
Definition transmit (datagrams : list bytes) : link unit := fun k =>
  let '(r, answers, wire) := send_loop (lk_answers k) datagrams (lk_wire k) in (r, mkLink (lk_calls k) answers wire).
Definition send_connected (datagrams : list bytes) : link unit :=
  if MAX_DATAGRAMS <? len datagrams then fun k => (Err BatchTooLarge, k) else transmit datagrams.
(** [socket.try_send], whose result is not looked at. *)
Definition try_send_copy (data : bytes) : link unit := fun k =>
  (Ok tt, match lk_answers k with
          | Accepted (S _) :: answers => mkLink (lk_calls k) answers (lk_wire k ++ [data])
          | _ :: answers => mkLink (lk_calls k) answers (lk_wire k)
          | [] => k
          end).
Fixpoint traverse {E A B : Type} (f : A -> result E B) (l : list A) : result E (list B) :=
  match l with [] => Ok [] | a :: l => b ← f a; bs ← traverse f l; Ok (b :: bs) end.
Fixpoint for_each {S E A : Type} (f : A -> effect S E unit) (l : list A) : effect S E unit :=
  match l with [] => mret tt | a :: l => _ ← f a; for_each f l end.
(** [chunks]; every chunk but the last is full, so the length is enough fuel. *)
Fixpoint chunks {A : Type} (fuel : nat) (n : nat) (l : list A) : list (list A) :=
  match fuel, l with
  | O, _ | _, [] => []
  | S fuel, _ => take n l :: chunks fuel n (drop n l)
  end.

Section Allocation.
Context (streamed : bool) (states : nat -> AllocationState).
Definition ensure_channel : link Z := fun k =>
  let s := states (lk_calls k) in
  (if negb (al_open s) then Err AllocationClosed else if al_channel s =? 0 then Err NoChannel else Ok (al_channel s),
   mkLink (S (lk_calls k)) (lk_answers k) (lk_wire k)).
Definition send_with_duplicate (packet : ClientBuf) (duplicate : bool) : link unit :=
  channel ← ensure_channel;
  packet ← from_string (encode_channel_data packet channel);
  data ← from_string (ClientBuf_as_slice packet);
  _ ← transmit [data];
  if negb streamed && duplicate then try_send_copy data else mret tt.
Definition send_data_batch (packets : list ClientBuf) : link unit :=
  if bool_decide (packets = []) then mret tt else
  channel ← ensure_channel;
  _ ← from_string (traverse (fun packet => channel_data_padding packet channel) packets);
  packets ← from_string (traverse (fun packet => encode_channel_data packet channel) packets);
  datagrams ← from_string (traverse ClientBuf_as_slice packets);
  if streamed then for_each (fun data => transmit [data]) datagrams
  else for_each send_connected (chunks (length datagrams) (Z.to_nat MAX_DATAGRAMS) datagrams).

(** ** [TransportWriter] *)

Context `{Crypto} (key : bytes) (config : ObfsConfig) (allow_at wrap_at : nat -> Z) (draws : nat -> Draws).

(** [tw_prepared] numbers the packets, and so the readings of the clocks and the draws. *)
Record TransportWriter := mkWriter {
  tw_state : ObfsState; tw_budget : Budget; tw_prepared : nat; tw_pending : list ClientBuf; tw_mmsg : list ClientBuf; tw_link : Link;
}.
Abbreviation writer := (effect TransportWriter WriteError).
Definition TransportWriter_new (state : ObfsState) (now : Z) (k : Link) : TransportWriter := mkWriter state (Budget_new now) 0 [] [] k.
Definition set_pending (l : list ClientBuf) : writer unit := fun w =>
  (Ok tt, mkWriter (tw_state w) (tw_budget w) (tw_prepared w) l (tw_mmsg w) (tw_link w)).
Definition set_mmsg (l : list ClientBuf) : writer unit := fun w =>
  (Ok tt, mkWriter (tw_state w) (tw_budget w) (tw_prepared w) (tw_pending w) l (tw_link w)).
Definition on_link {A : Type} (m : link A) : writer A := fun w =>
  let '(r, k) := m (tw_link w) in (r, mkWriter (tw_state w) (tw_budget w) (tw_prepared w) (tw_pending w) (tw_mmsg w) k).
Definition prepare_packet (packet : ClientBuf) : writer (ClientBuf * bool) := fun w =>
  match (data ← ClientBuf_as_slice packet; should_duplicate data) : opt bool with
  | Ok wanted =>
      let n := tw_prepared w in
      let '(duplicate, budget) := if wanted then Budget_allow (tw_budget w) (allow_at n) else (false, tw_budget w) in
      let '(wrapped, state) := ObfsCipher_wrap key packet config (tw_state w) (wrap_at n) (draws n) in
      from_string (packet ← wrapped; Ok (packet, duplicate)) (mkWriter state budget (S n) (tw_pending w) (tw_mmsg w) (tw_link w))
  | _ => (Panic, w)
  end.
Definition send_packet (packet : ClientBuf) : writer unit :=
  prepared ← prepare_packet packet; on_link (send_with_duplicate prepared.1 prepared.2).
Definition queue_data (packet : ClientBuf) : writer unit := fun w => set_pending (tw_pending w ++ [packet]) w.
Definition flush_mmsg_data : writer unit := fun w =>
  (if bool_decide (tw_mmsg w = []) then mret tt else _ ← on_link (send_data_batch (tw_mmsg w)); set_mmsg []) w.
Definition push_mmsg (packet : ClientBuf) : writer unit := fun w => set_mmsg (tw_mmsg w ++ [packet]) w.
Definition flush_full : writer unit := fun w => (if len (tw_mmsg w) =? WRITER_BULK_BATCH_LIMIT then flush_mmsg_data else mret tt) w.
(** The loop takes one packet per turn. *)
Fixpoint flush_loop (fuel : nat) : writer unit := fun w =>
  match fuel, tw_pending w with
  | O, _ | _, [] => (Ok tt, w)
  | S fuel, packet :: rest =>
      (_ ← set_pending rest;
       prepared ← prepare_packet packet;
       _ ← (if prepared.2 : bool then _ ← flush_mmsg_data; on_link (send_with_duplicate prepared.1 true)
            else _ ← push_mmsg prepared.1; flush_full);
       flush_loop fuel) w
  end.
Definition flush_queued_data : writer unit := fun w =>
  match tw_pending w with
  | [packet] => (_ ← set_pending []; send_packet packet) w
  | pending => (_ ← flush_loop (length pending); flush_mmsg_data) w
  end.
(** [acquired]: what the pool gives. *)
Definition send_bytes (acquired : option ClientBuf) (data : bytes) : writer unit :=
  match acquired with
  | None => fun w => (Err BudgetExhausted, w)
  | Some packet =>
      if CLIENT_PACKET_CAPACITY - PACKET_HEADROOM <? len data then fun w => (Err (BadPacket "transport payload too large"), w) else
      packet ← from_string (ClientBuf_fill_read_area packet data);
      packet ← from_string (range_error (ClientBuf_set_read_len packet (len data)));
      send_packet packet
  end.

(** ** [writer_loop] *)

Section Queues.
Context `{AQ : ArrayQueue} `{NT : Notify}.
Record WriterQueues := mkWriterQueues { wq_latency : PacketQueue ClientBuf; wq_priority : PacketQueue ClientBuf; wq_bulk : PacketQueue ClientBuf }.
Definition queue_of (q : WriterQueues) (class : PacketClass) : PacketQueue ClientBuf :=
  match class with Small => wq_latency q | Medium => wq_priority q | Bulk => wq_bulk q end.
Definition set_queue (q : WriterQueues) (class : PacketClass) (p : PacketQueue ClientBuf) : WriterQueues :=
  match class with
  | Small => mkWriterQueues p (wq_priority q) (wq_bulk q)
  | Medium => mkWriterQueues (wq_latency q) p (wq_bulk q)
  | Bulk => mkWriterQueues (wq_latency q) (wq_priority q) p
  end.
Definition recv_class (q : WriterQueues) (class : PacketClass) : option ClientBuf * WriterQueues :=
  let '(r, p) := try_recv (queue_of q class) in (r, set_queue q class p).
Definition next_writer_packet (q : WriterQueues) : option (ClientBuf * PacketClass) * WriterQueues :=
  match recv_class q Small with
  | (Some packet, q) => (Some (packet, Small), q)
  | (None, q) =>
      match recv_class q Medium with
      | (Some packet, q) => (Some (packet, Medium), q)
      | (None, q) => match recv_class q Bulk with (Some packet, q) => (Some (packet, Bulk), q) | (None, q) => (None, q) end
      end
  end.
Definition writer_batch_can_extend (class : PacketClass) (latency_pending priority_pending : bool) : bool :=
  match class with Small => true | Medium => negb latency_pending | Bulk => negb latency_pending && negb priority_pending end.
Definition batch_limit (class : PacketClass) : Z :=
  match class with Small => WRITER_LATENCY_BATCH_LIMIT | Medium => WRITER_PRIORITY_BATCH_LIMIT | Bulk => WRITER_BULK_BATCH_LIMIT end.
Fixpoint extend_batch (room : nat) (class : PacketClass) (q : WriterQueues) : list ClientBuf * WriterQueues :=
  match room with
  | O => ([], q)
  | S room =>
      if negb (writer_batch_can_extend class (has_queued_packet (wq_latency q)) (has_queued_packet (wq_priority q))) then ([], q) else
      match recv_class q class with
      | (Some packet, q) => let '(packets, q) := extend_batch room class q in (packet :: packets, q)
      | (None, q) => ([], q)
      end
  end.
(** How many packets were sent, and the queues. *)
Definition send_writer_batch (first : ClientBuf) (class : PacketClass) (q : WriterQueues) : writer (Z * WriterQueues) :=
  let '(rest, q) := extend_batch (Z.to_nat (batch_limit class - 1)) class q in
  _ ← for_each queue_data (first :: rest);
  _ ← flush_queued_data;
  mret (len (first :: rest), q).
Definition queues_closed (q : WriterQueues) : bool := is_closed (wq_latency q) && is_closed (wq_priority q) && is_closed (wq_bulk q).

(** The arm of the [select!] that is taken when there is nothing to do: [CommandClosed] and [NoPacket] are a [None]. *)
Inductive Woken := WokenCancelled | WokenCommand (data : bytes) | CommandClosed | WokenPacket (class : PacketClass) (packet : ClientBuf) | NoPacket.
Inductive LoopNext := LoopContinue | LoopReturn.
(** One turn of the loop.  [command]: what [commands.try_recv] finds; [woken] and [after] how the wait ends and the queues as it
    leaves them; [cancelled] the token after it.  The second part is the answer to a command and whether packets went out. *)
Definition writer_turn (command : option bytes) (acquired : option ClientBuf) (woken : Woken) (after : WriterQueues) (cancelled : bool) (q : WriterQueues)
    : writer (LoopNext * option (result WriteError unit) * bool * WriterQueues) :=
  let handle data q := fun w => let '(reply, w) := send_bytes acquired data w in (match reply with Panic => Panic | _ => Ok (LoopContinue, Some reply, false, q) end, w) in
  let batch first class q := (sent ← send_writer_batch first class q; mret (LoopContinue, None, negb (sent.1 =? 0), sent.2)) in
  let nothing q := mret (if cancelled || queues_closed q then LoopReturn else LoopContinue, None, false, q) in
  match command with
  | Some data => handle data q
  | None =>
      match next_writer_packet q with
      | (Some (packet, class), q) => batch packet class q
      | (None, q) =>
          if queues_closed q then nothing q else
          match woken with
          | WokenCancelled => mret (LoopReturn, None, false, q)
          | WokenCommand data => handle data q
          | CommandClosed => mret (LoopContinue, None, false, q)
          | WokenPacket class packet => batch packet class after
          | NoPacket => nothing after
          end
      end
  end.
End Queues.
End Allocation.

(** ** What goes out *)

(** Frames, each with whether it is to be sent twice, and a wire on which each appears once, in order, followed at once by at
    most one copy where it is to be sent twice. *)
Inductive on_wire : list (bytes * bool) -> list bytes -> Prop :=
| wire_nil : on_wire [] []
| wire_once frame twice l wire : on_wire l wire -> on_wire ((frame, twice) :: l) (frame :: wire)
| wire_twice frame l wire : on_wire l wire -> on_wire ((frame, true) :: l) (frame :: frame :: wire).
Definition singles (frames : list bytes) : list (bytes * bool) := (fun f => (f, false)) <$> frames.
Definition transport_error (e : WriteError) : bool := match e with AllocationClosed | NoChannel | SendError | Waiting => true | _ => false end.
(** A beginning of [items] went out, and all of them unless a call failed. *)
Definition sends (items : list (bytes * bool)) (k : Link) (x : result WriteError unit * Link) : Prop :=
  exists sent rest new, items = sent ++ rest /\ on_wire sent new /\ lk_wire x.2 = lk_wire k ++ new
    /\ match x.1 with Ok _ => rest = [] | Err e => transport_error e = true | Panic => False end.

Lemma on_wire_app l l' w w' : on_wire l w -> on_wire l' w' -> on_wire (l ++ l') (w ++ w').
Proof. induction 1; intros; cbn; eauto using on_wire. Qed.
Lemma on_wire_singles l : on_wire (singles l) l.
Proof. induction l; cbn; by constructor. Qed.
Lemma singles_app l k : singles (l ++ k) = singles l ++ singles k.
Proof. apply fmap_app. Qed.
Lemma sends_nil k : sends [] k (Ok tt, k).
Proof. exists [], [], []. split_and!; [done|constructor|by rewrite app_nil_r|done]. Qed.
Lemma sends_stop items k e k' : transport_error e = true -> lk_wire k' = lk_wire k -> sends items k (Err e, k').
Proof. intros He Hk. exists [], items, []. split_and!; [done|constructor|cbn; by rewrite Hk, app_nil_r|done]. Qed.
Lemma sends_app i1 i2 k r k1 x : sends i1 k (r, k1) ->
  match r with Ok _ => sends i2 k1 x | _ => x = (r, k1) end -> sends (i1 ++ i2) k x.
Proof.
  intros (s1 & r1 & n1 & H1 & H2 & H3 & H4) Hx. cbn [fst snd] in *. destruct r as [[]|e|]; [| |done].
  - subst r1. rewrite app_nil_r in H1. subst s1. destruct Hx as (s2 & r2 & n2 & -> & K2 & K3 & K4).
    exists (i1 ++ s2), r2, (n1 ++ n2). split_and!; [by rewrite app_assoc|by apply on_wire_app|by rewrite K3, H3, app_assoc|done].
  - subst x. exists s1, (r1 ++ i2), n1. split_and!; [by rewrite H1, app_assoc|done|done|done].
Qed.
Lemma sends_bind (m m' : link unit) i1 i2 k : sends i1 k (m k) -> (forall k, sends i2 k (m' k)) -> sends (i1 ++ i2) k ((_ ← m; m') k).
Proof. intros H1 H2. unfold mbind, effect_bind. destruct (m k) as [[[]|e|] k1] eqn:E; apply (sends_app _ _ _ _ _ _ H1); [apply H2|done|done]. Qed.
Lemma from_string_ok {S A : Type} (r : result string A) a (s : S) : r = Ok a -> from_string r s = (Ok a, s).
Proof. by intros ->. Qed.

Lemma send_loop_sends answers datagrams wire : let '(r, _, wire') := send_loop answers datagrams wire in
  exists sent rest, datagrams = sent ++ rest /\ wire' = wire ++ sent /\ match r with Ok _ => rest = [] | Err e => transport_error e = true | Panic => False end.
Proof.
  revert datagrams wire. induction answers as [|a answers IH]; intros [|d datagrams] wire; cbn [send_loop].
  1, 3: exists [], []; split_and!; [done|by rewrite app_nil_r|done].
  - exists [], (d :: datagrams). split_and!; [done|by rewrite app_nil_r|done].
  - destruct a as [count| |].
    + destruct (_ <? _)%nat; [exists [], (d :: datagrams); split_and!; [done|by rewrite app_nil_r|done]|].
      specialize (IH (drop count (d :: datagrams)) (wire ++ take count (d :: datagrams))). destruct (send_loop _ _ _) as [[r ans] w'].
      destruct IH as (s & rest & Hd & -> & Hr). exists (take count (d :: datagrams) ++ s), rest.
      split_and!; [rewrite <- app_assoc, <- Hd; by rewrite take_drop|by rewrite app_assoc|done].
    + apply IH.
    + exists [], (d :: datagrams). split_and!; [done|by rewrite app_nil_r|done].
Qed.
Lemma transmit_sends datagrams k : sends (singles datagrams) k (transmit datagrams k).
Proof.
  unfold transmit. pose proof (send_loop_sends (lk_answers k) datagrams (lk_wire k)) as H. destruct (send_loop _ _ _) as [[r a] w].
  destruct H as (s & rest & -> & -> & Hr). exists (singles s), (singles rest), s. split_and!; [apply singles_app|apply on_wire_singles|done|]. by destruct r; cbn [fst]; subst.
Qed.
Lemma for_each_sends (f : list bytes -> link unit) ls k : (forall l k, l ∈ ls -> sends (singles l) k (f l k)) -> sends (singles (concat ls)) k (for_each f ls k).
Proof.
  revert k. induction ls as [|l ls IH]; intros k H; [apply sends_nil|]. cbn [concat for_each]. rewrite singles_app.
  apply sends_bind; [apply H; by left|]. intros k1. apply IH. intros. apply H. by right.
Qed.
Lemma chunks_concat {A : Type} fuel n (l : list A) : (0 < n)%nat -> (length l <= fuel)%nat -> concat (chunks fuel n l) = l /\ Forall (fun c => length c <= n)%nat (chunks fuel n l).
Proof.
  intros Hn. revert l. induction fuel as [|fuel IH]; intros [|a l] Hl; cbn [chunks]; try (split; [done|constructor]); cbn [length] in *; [lia|].
  destruct (IH (drop n (a :: l))) as [H1 H2]; [rewrite length_drop; cbn; lia|]. split.
  - cbn [concat]. rewrite H1. apply take_drop.
  - constructor; [rewrite length_take; lia|done].
Qed.
Lemma traverse_ok {E A B : Type} (f : A -> result E B) l k : Forall2 (fun a b => f a = Ok b) l k -> traverse f l = Ok k.
Proof. induction 1 as [|a b l k Hf _ IH]; [done|]. cbn. rewrite Hf. cbn. by rewrite IH. Qed.

Section Sending.
Context (streamed : bool) (states : nat -> AllocationState) (channel : Z).
(** The channel of an allocation does not change once it is bound. *)
Context (Hstates : forall i, al_channel (states i) = channel \/ al_channel (states i) = 0).

(** The frame of a packet. *)
Definition encodes (packet : ClientBuf) (frame : bytes) : Prop :=
  exists encoded, encode_channel_data packet channel = Ok encoded /\ client_buf_wf encoded /\ window encoded = frame.

Lemma ensure_channel_cases k : (exists k', ensure_channel states k = (Ok channel, k') /\ lk_wire k' = lk_wire k)
  \/ (exists e k', ensure_channel states k = (Err e, k') /\ transport_error e = true /\ lk_wire k' = lk_wire k).
Proof.
  unfold ensure_channel. destruct (negb _); [right; by eexists _, _|]. destruct (al_channel _ =? 0) eqn:E; [right; by eexists _, _|].
  bool_prop. left. destruct (Hstates (lk_calls k)) as [->|]; [by eexists|done].
Qed.
Lemma send_with_duplicate_sends packet duplicate frame k : encodes packet frame -> sends [(frame, duplicate)] k (send_with_duplicate streamed states packet duplicate k).
Proof.
  intros (q & Hq & Hw & <-). unfold send_with_duplicate. destruct (ensure_channel_cases k) as [(k1 & He & Hk)|(e & k1 & He & Ht & Hk)].
  2: { rewrite (effect_stop _ _ _ _ _ He). by apply sends_stop. }
  rewrite (effect_step _ _ _ _ _ He). rewrite (effect_step _ _ _ _ _ (from_string_ok _ _ _ Hq)).
  rewrite (effect_step _ _ _ _ _ (from_string_ok _ _ _ (client_window_slice q Hw))).
  pose proof (transmit_sends [window q] k1) as (s & rest & new & H1 & H2 & H3 & H4). unfold mbind, effect_bind. destruct (transmit _ k1) as [[[]|e|] k2]; cbn [fst snd] in *.
  - subst rest. rewrite app_nil_r in H1. subst s. assert (new = [window q]) as -> by by (inversion H2 as [|? ? ? ? Hn|]; subst; inversion Hn).
    assert (Hone : sends [(window q, duplicate)] k (Ok tt, k2)) by (exists [(window q, duplicate)], [], [window q]; split_and!; [done|repeat constructor|cbn [snd]; by rewrite H3, Hk|done]).
    destruct (negb streamed && duplicate) eqn:Ed; [|exact Hone]. apply andb_true_iff in Ed as [_ ->]. unfold try_send_copy.
    destruct (lk_answers k2) as [|[[|n]| |] a]; try (destruct Hone as (s & r & n' & ? & ? & ? & ?); by exists s, r, n'); [].
    exists [(window q, true)], [], [window q; window q]. split_and!; [done|by repeat constructor|cbn [snd lk_wire]; by rewrite H3, Hk, <- app_assoc|done].
  - destruct s as [|x s]; [|destruct s; [|done]]; cbn in H1; [apply sends_stop; [done|inversion H2; subst; rewrite H3, app_nil_r; done]|].
    injection H1 as <- <-. exists [(window q, duplicate)], [], new. split_and!; [done| |cbn [snd]; by rewrite H3, Hk|done].
    inversion H2 as [|? ? ? ? Hn|]; subst. inversion Hn; subst. repeat constructor.
  - done.
Qed.
Lemma send_data_batch_sends packets frames k : Forall2 encodes packets frames -> sends (singles frames) k (send_data_batch streamed states packets k).
Proof.
  intros H. unfold send_data_batch. case_bool_decide as Hne; [subst; inversion H; subst; apply sends_nil|].
  destruct (ensure_channel_cases k) as [(k1 & He & Hk)|(e & k1 & He & Ht & Hk)]; [|rewrite (effect_stop _ _ _ _ _ He); by apply sends_stop].
  rewrite (effect_step _ _ _ _ _ He).
  assert (exists pads, traverse (fun packet => channel_data_padding packet channel) packets = Ok pads) as [pads Hp].
  { clear Hne. induction H as [|p f ps fs (q & Hq & _) _ (pads & IH)]; [by exists []|]. apply bind_ok in Hq as (pad & Hpad & _). cbn. rewrite Hpad. cbn. rewrite IH. by eexists. }
  assert (exists qs, Forall2 (fun p q => encode_channel_data p channel = Ok q) packets qs /\ Forall2 (fun q f => ClientBuf_as_slice q = @Ok string _ f) qs frames) as (qs & H1 & H2).
  { clear Hne Hp. induction H as [|p f ps fs (q & Hq & Hw & <-) _ (qs & I1 & I2)]; [by exists []|]. exists (q :: qs). split; constructor; try done. by apply client_window_slice. }
  rewrite (effect_step _ _ _ _ _ (from_string_ok _ _ _ Hp)), (effect_step _ _ _ _ _ (from_string_ok _ _ _ (traverse_ok _ _ _ H1))), (effect_step _ _ _ _ _ (from_string_ok _ _ _ (traverse_ok _ _ _ H2))).
  assert (Hmore : forall x, sends (singles frames) k1 x -> sends (singles frames) k x) by (intros x (s & r & n & E1 & E2 & E3 & E4); exists s, r, n; rewrite <- Hk; done).
  apply Hmore. destruct streamed.
  - replace frames with (concat ((fun f => [f]) <$> frames)) at 1 by (clear; induction frames; cbn; congruence).
    generalize k1. clear. induction frames as [|f fs IH]; intros k; [apply sends_nil|]. cbn [fmap list_fmap concat for_each]. rewrite singles_app. apply sends_bind; [apply transmit_sends|exact IH].
  - destruct (chunks_concat (length frames) (Z.to_nat MAX_DATAGRAMS) frames) as [Hc Hl]; [by apply Nat.ltb_lt|done|]. rewrite <- Hc at 1.
    apply for_each_sends. intros l k' Hin. rewrite Forall_forall in Hl. specialize (Hl l Hin). unfold send_connected.
    replace (MAX_DATAGRAMS <? len l) with false by (unfold MAX_DATAGRAMS, len in *; lia). apply transmit_sends.
Qed.
End Sending.

(** A framed packet: header, payload, padding. *)
Lemma encode_fits p channel : client_buf_wf p -> 0x4000 <= channel <= 0x7fff -> 4 <= cb_start p -> cb_end p + 3 <= CLIENT_PACKET_CAPACITY ->
  exists q, encode_channel_data p channel = Ok q /\ client_buf_wf q
    /\ window q = (be_bytes 2 channel ++ be_bytes 2 (len (window p))) ++ window p ++ zeroed (padding_of (len (window p))).
Proof.
  intros Hwf Hc H4 Hroom. set (n := padding_of (len (window p))). pose proof (padding_range (len (window p))) as [Hpr _]. fold n in Hpr.
  destruct (cut_buffer p n Hwf H4 ltac:(lia) ltac:(lia)) as (A & H_ & T & B & Hp & HH & HT). destruct Hwf as (Hst & Hs & He).
  assert (len (window p) = cb_end p - cb_start p) as Hse by (unfold window; by rewrite len_sub by lia).
  assert (HU : len (window p) <= U16_MAX) by (unfold U16_MAX, CLIENT_PACKET_CAPACITY in *; lia). pose proof Hst as Hst'. rewrite Hp in Hst'. cbn [cb_storage] in Hst'.
  pose proof (encode_channel_data_ok A H_ (window p) T B channel Hc HH HT HU Hst') as Henc. rewrite <- Hp in Henc. rewrite Henc, HT.
  set (hd := be_bytes 2 channel ++ be_bytes 2 (len (window p))). assert (Hhd : len hd = 4) by (unfold hd; by rewrite len_app, !len_be_bytes).
  assert (Hz : len (zeroed n) = n) by (apply len_zeroed; lia).
  replace (A ++ hd ++ window p ++ zeroed n ++ B) with (A ++ (hd ++ window p ++ zeroed n) ++ B) by (by rewrite <- !app_assoc).
  eexists. split; [reflexivity|]. split; [|apply window_around; rewrite !len_app, Hhd, Hz; lia]. rewrite !len_app in Hst'.
  unfold client_buf_wf. cbn [cb_storage cb_start cb_end]. rewrite !len_app, Hhd, Hz. pose proof (len_nonneg A). pose proof (len_nonneg B). lia.
Qed.
Lemma anyhow_ok {A : Type} (r : result packet_error A) a : anyhow r = Ok a -> r = Ok a.
Proof. by destruct r; intros [= ->]. Qed.
Lemma prepend_place p n q : ClientBuf_prepend p n = Ok q -> cb_start q = cb_start p - n /\ cb_end q = cb_end p /\ n <= cb_start p.
Proof. unfold ClientBuf_prepend. split_case; [done|]. intros (? & _ & [= <-])%bind_ok. bool_prop. cbn. lia. Qed.
Lemma extend_tail_place p n q : ClientBuf_extend_tail p n = Ok q -> cb_start q = cb_start p /\ cb_end q = cb_end p + n.
Proof.
  unfold ClientBuf_extend_tail, checked_add. destruct (_ <=? _); [|done]. split_case; [done|]. by intros (? & _ & [= <-])%bind_ok.
Qed.
(** Where a wrapped packet lies. *)
Lemma wrap_place `{Crypto} key packet c state now d q state' : ObfsCipher_wrap key packet c state now d = (Ok q, state') -> 0 <= dr_padding d ->
  cb_start q = cb_start packet - 24 /\ cb_end packet < cb_end q <= cb_end packet + dr_padding d + 17.
Proof.
  unfold ObfsCipher_wrap. destruct (ClientBuf_is_empty packet); [done|]. destruct (ObfsState_next state) as [[count ts] st]. cbv zeta. destruct (_ || _); [done|].
  intros [= Hr _] Hd. apply bind_ok in Hr as (p1 & Hp1%anyhow_ok%prepend_place & Hr). apply bind_ok in Hr as (s1 & _ & Hr). cbn [cb_start cb_end] in Hr.
  unfold ObfsCipher_wrap_video, ObfsCipher_wrap_audio in Hr. set (pad := if oc_padding_max c =? 0 then 0 else dr_padding d) in *.
  assert (0 <= pad <= dr_padding d) as Hpad by (unfold pad; destruct (_ =? 0); lia). clearbody pad.
  destruct (decide _); apply bind_ok in Hr as (p2 & Hp2%anyhow_ok%extend_tail_place & Hr); cbn [cb_start cb_end] in Hp2;
    repeat (apply bind_ok in Hr as (? & _ & Hr)); injection Hr as <-; cbn [cb_start cb_end]; lia.
Qed.

Section Writing.
Context (streamed : bool) (states : nat -> AllocationState) (channel : Z).
Context (Hstates : forall i, al_channel (states i) = channel \/ al_channel (states i) = 0) (Hchannel : 0x4000 <= channel <= 0x7fff).
Context `{C : Crypto} `{!CryptoLaws C} (key : bytes) (mode : ObfsMode) (ssrc : Z) (allow_at wrap_at : nat -> Z) (draws : nat -> Draws).
Context (Hdraws : forall i, draws_ok (mode_padding mode) (draws i)).
Abbreviation config := (ObfsConfig_new mode ssrc).
Abbreviation w_prepare := (prepare_packet key config allow_at wrap_at draws).
Abbreviation w_flush := (flush_queued_data streamed states key config allow_at wrap_at draws).
Abbreviation w_loop := (flush_loop streamed states key config allow_at wrap_at draws).
Abbreviation w_mmsg := (flush_mmsg_data streamed states).

(** A packet with room for every header and trailer. *)
Definition sendable (p : ClientBuf) : Prop :=
  client_buf_wf p /\ wf_bytes (window p) /\ cb_start p < cb_end p /\ 28 <= cb_start p /\ cb_end p + 79 <= CLIENT_PACKET_CAPACITY.

(** The reference: packets one at a time.  Each is looked at for duplication, wrapped under the next numbers and framed. *)
Definition seal_one (n : nat) (state : ObfsState) (budget : Budget) (p : ClientBuf) : (bytes * bool) * (ObfsState * Budget) :=
  let wanted := match should_duplicate (window p) with Ok wanted => wanted | _ => false end in
  let '(duplicate, budget) := if wanted then Budget_allow budget (allow_at n) else (false, budget) in
  let '(wrapped, state) := ObfsCipher_wrap key p config state (wrap_at n) (draws n) in
  let frame := match wrapped with Ok q => match encode_channel_data q channel with Ok q => window q | _ => [] end | _ => [] end in
  ((frame, duplicate), (state, budget)).
Fixpoint seal (n : nat) (state : ObfsState) (budget : Budget) (packets : list ClientBuf) : list (bytes * bool) * (ObfsState * Budget * nat) :=
  match packets with
  | [] => ([], (state, budget, n))
  | p :: packets =>
      let '(item, (state, budget)) := seal_one n state budget p in
      let '(rest, final) := seal (S n) state budget packets in (item :: rest, final)
  end.

Lemma wrapped_frame p state now d : sendable p -> draws_ok (mode_padding mode) d ->
  exists q r, ObfsCipher_wrap key p config state now d = (Ok q, (ObfsState_next state).2) /\ encode_channel_data q channel = Ok r /\ client_buf_wf r.
Proof.
  intros ((Hl & Hse & He) & Hwf & Hne & Hs & Hend) Hd. unfold CLIENT_PACKET_CAPACITY in *.
  assert (fits_client p) as Hfit by (unfold fits_client, client_buf_wf, CLIENT_PACKET_CAPACITY; lia).
  destruct (client_wrap_wire key mode ssrc p state now d Hfit Hd) as (A & w & B & Hw & Hlen & _). destruct Hd as (Hd1 & Hd2 & Hd3).
  destruct (wrap_place _ _ _ _ _ _ _ _ Hw ltac:(lia)) as [P1 P2]. cbn [buf_around cb_start cb_end] in P1, P2.
  destruct (encode_fits (buf_around A w B) channel) as (r & Hr & Hrw & _); [|done|cbn [buf_around cb_start]; lia|cbn [buf_around cb_end]; unfold CLIENT_PACKET_CAPACITY; lia|].
  - unfold client_buf_wf, buf_around. cbn [cb_storage cb_start cb_end]. rewrite !len_app. unfold CLIENT_PACKET_CAPACITY in *. pose proof (len_nonneg A). pose proof (len_nonneg w). lia.
  - by exists (buf_around A w B), r.
Qed.
Lemma prepare_ok p w : sendable p ->
  let '(item, (state, budget)) := seal_one (tw_prepared w) (tw_state w) (tw_budget w) p in
  exists q, w_prepare p w = (Ok (q, item.2), mkWriter state budget (S (tw_prepared w)) (tw_pending w) (tw_mmsg w) (tw_link w)) /\ encodes channel q item.1.
Proof.
  intros Hp. destruct (wrapped_frame p (tw_state w) (wrap_at (tw_prepared w)) (draws (tw_prepared w)) Hp (Hdraws _)) as (q & r & Hq & Hr & Hrw).
  destruct Hp as (Hwf & Hb & _). assert (len (window p) <= ISIZE_MAX) as Hl.
  { rewrite <- client_window_len by done. destruct Hwf as (? & ? & ?). unfold ClientBuf_len, CLIENT_PACKET_CAPACITY, ISIZE_MAX in *. split_case; lia. }
  destruct (classification_total (window p) Hb Hl) as [_ [wanted Hd]].
  assert ((data ← ClientBuf_as_slice p; should_duplicate data) = Ok wanted) as Hs by (rewrite client_window_slice by done; exact Hd).
  unfold seal_one. rewrite Hd, Hq. destruct (if wanted then Budget_allow _ _ else _) as [duplicate budget] eqn:Eb. rewrite Hr. cbn [fst snd]. exists q. split; [|by exists r].
  unfold prepare_packet. rewrite Hs, Eb, Hq. reflexivity.
Qed.

(** A step of the writer that puts a beginning of [items] out, and all of them if it succeeds, leaving the rest as [keeps] says. *)
Definition puts (items : list (bytes * bool)) (w : TransportWriter) (keeps : TransportWriter -> Prop) (x : result WriteError unit * TransportWriter) : Prop :=
  sends items (tw_link w) (x.1, tw_link x.2) /\ (x.1 = Ok tt -> keeps x.2).
Lemma puts_bind (m m' : effect TransportWriter WriteError unit) i1 i2 w keeps1 keeps2 :
  puts i1 w keeps1 (m w) -> (forall w1, keeps1 w1 -> puts i2 w1 keeps2 (m' w1)) -> puts (i1 ++ i2) w keeps2 ((_ ← m; m') w).
Proof.
  intros [H1 H2] H. unfold mbind, effect_bind. destruct (m w) as [[[]|e|] w1]; cbn [fst snd] in *.
  - destruct (H w1 (H2 eq_refl)) as [K1 K2]. split; [|exact K2]. exact (sends_app _ _ _ _ _ _ H1 K1).
  - split; [|done]. exact (sends_app _ _ _ _ _ (Err e, tw_link w1) H1 eq_refl).
  - by destruct H1 as (? & ? & ? & ? & ? & ? & ?).
Qed.
Lemma puts_quiet (m m' : effect TransportWriter WriteError unit) items w w1 keeps : m w = (Ok tt, w1) -> tw_link w1 = tw_link w -> puts items w1 keeps (m' w1) -> puts items w keeps ((_ ← m; m') w).
Proof. intros Hm Hk H. rewrite (effect_step _ _ _ _ _ Hm). unfold puts in *. by rewrite Hk in H. Qed.
Lemma on_link_puts (m : link unit) items w : sends items (tw_link w) (m (tw_link w)) ->
  puts items w (fun w' => w' = mkWriter (tw_state w) (tw_budget w) (tw_prepared w) (tw_pending w) (tw_mmsg w) (tw_link w')) (on_link m w).
Proof. intros H. unfold on_link. destruct (m (tw_link w)) as [r k]. by split. Qed.
(** The packets in the batch are as they were wrapped; the batch is empty afterwards. *)
Lemma mmsg_puts w frames : Forall2 (encodes channel) (tw_mmsg w) frames ->
  puts (singles frames) w (fun w' => w' = mkWriter (tw_state w) (tw_budget w) (tw_prepared w) (tw_pending w) [] (tw_link w')) (w_mmsg w).
Proof.
  intros H. unfold flush_mmsg_data. case_bool_decide as Hne.
  - rewrite Hne in H. inversion H; subst. split; [apply sends_nil|]. intros _. cbn [snd mret effect_ret]. rewrite <- Hne. by destruct w.
  - rewrite <- (app_nil_r (singles frames)). eapply puts_bind; [apply on_link_puts, (send_data_batch_sends _ _ _ Hstates), H|].
    intros w1 ->. split; [apply sends_nil|done].
Qed.
Lemma with_duplicate_puts q f d w : encodes channel q f ->
  puts [(f, d)] w (fun w' => w' = mkWriter (tw_state w) (tw_budget w) (tw_prepared w) (tw_pending w) (tw_mmsg w) (tw_link w')) (on_link (send_with_duplicate streamed states q d) w).
Proof. intros H. apply on_link_puts. by apply (send_with_duplicate_sends _ _ _ Hstates). Qed.

Definition done_with (final : ObfsState * Budget * nat) (w : TransportWriter) : Prop :=
  (tw_state w, tw_budget w, tw_prepared w) = final /\ tw_pending w = [] /\ tw_mmsg w = [].
(** The turn of the loop after a packet was prepared. *)
Definition place (q : ClientBuf) (twice : bool) : effect TransportWriter WriteError unit :=
  if twice then _ ← w_mmsg; on_link (send_with_duplicate streamed states q true) else _ ← push_mmsg q; flush_full streamed states.
Lemma place_puts q f twice w frames : encodes channel q f -> Forall2 (encodes channel) (tw_mmsg w) frames ->
  exists now later, puts now w (fun w' => Forall2 (encodes channel) (tw_mmsg w') later /\ w' = mkWriter (tw_state w) (tw_budget w) (tw_prepared w) (tw_pending w) (tw_mmsg w') (tw_link w'))
    (place q twice w) /\ now ++ singles later = singles frames ++ [(f, twice)].
Proof.
  intros Hq Hm. unfold place. destruct twice.
  - exists (singles frames ++ [(f, true)]), []. split; [|by rewrite app_nil_r]. eapply puts_bind; [by apply mmsg_puts|]. intros w1 Hw1.
    destruct (with_duplicate_puts q f true w1 Hq) as [K1 K2]. split; [exact K1|]. intros Hok. rewrite (K2 Hok), Hw1. cbn. by split.
  - set (w1 := (push_mmsg q w).2). assert (Forall2 (encodes channel) (tw_mmsg w1) (frames ++ [f])) as Hm1 by (cbn; apply Forall2_app; [done|by constructor]).
    destruct (len (tw_mmsg w1) =? WRITER_BULK_BATCH_LIMIT) eqn:E.
    + exists (singles (frames ++ [f])), []. split; [|by rewrite app_nil_r, singles_app]. apply (puts_quiet _ _ _ _ w1); [done|done|]. unfold flush_full. rewrite E.
      destruct (mmsg_puts w1 _ Hm1) as [K1 K2]. split; [exact K1|]. intros Hok. rewrite (K2 Hok). by split.
    + exists [], (frames ++ [f]). split; [|by rewrite singles_app]. apply (puts_quiet _ _ _ _ w1); [done|done|]. unfold flush_full. rewrite E. split; [apply sends_nil|].
      intros _. by split.
Qed.
Lemma flush_loop_puts fuel w frames : (length (tw_pending w) <= fuel)%nat -> Forall2 (encodes channel) (tw_mmsg w) frames -> Forall sendable (tw_pending w) ->
  let '(items, final) := seal (tw_prepared w) (tw_state w) (tw_budget w) (tw_pending w) in
  puts (singles frames ++ items) w (done_with final) ((_ ← w_loop fuel; w_mmsg) w).
Proof.
  revert w frames. induction fuel as [|fuel IH]; intros w frames Hf Hm Hs; destruct (tw_pending w) as [|p rest] eqn:Ep; cbn [length] in Hf; try lia; cbn [seal].
  1, 2: rewrite app_nil_r; destruct (mmsg_puts w frames Hm) as [K1 K2]; apply (puts_quiet _ _ _ _ w); [cbn [flush_loop]; by rewrite ?Ep|done|];
    split; [exact K1|]; intros Hok; rewrite (K2 Hok), Ep; done.
  apply Forall_cons in Hs as [Hp Hs]. set (w1 := mkWriter (tw_state w) (tw_budget w) (tw_prepared w) rest (tw_mmsg w) (tw_link w)).
  pose proof (prepare_ok p w1 Hp) as Hprep. cbn [w1 tw_prepared tw_state tw_budget tw_pending tw_mmsg tw_link] in Hprep.
  destruct (seal_one _ _ _ p) as [[f twice] [state budget]]. destruct Hprep as (q & Hprep & Hq). cbn [fst snd] in *.
  set (w2 := mkWriter state budget (S (tw_prepared w)) rest (tw_mmsg w) (tw_link w)) in *.
  destruct (place_puts q f twice w2 frames Hq Hm) as (now & later & Hplace & Hitems).
  assert (Hnext : forall w3, Forall2 (encodes channel) (tw_mmsg w3) later /\ w3 = mkWriter state budget (S (tw_prepared w)) rest (tw_mmsg w3) (tw_link w3) ->
    let '(items, final) := seal (S (tw_prepared w)) state budget rest in puts (singles later ++ items) w3 (done_with final) ((_ ← w_loop fuel; w_mmsg) w3)).
  { intros w3 [Hm3 Hw3]. specialize (IH w3 later). rewrite Hw3 in IH at 1 3 4 5 6 7. cbn [tw_prepared tw_state tw_budget tw_pending] in IH. apply IH; [lia|done|done]. }
  destruct (seal (S (tw_prepared w)) state budget rest) as [items final]. replace (singles frames ++ (f, twice) :: items) with (now ++ (singles later ++ items)).
  2: { change ((f, twice) :: items) with ([(f, twice)] ++ items). by rewrite !app_assoc, Hitems, <- app_assoc. }
  assert (Hloop : (_ ← w_loop (S fuel); w_mmsg) w = (_ ← place q twice; _ ← w_loop fuel; w_mmsg) w2).
  { unfold mbind at 1, effect_bind at 1. cbn [flush_loop]. rewrite Ep.
    rewrite (effect_step _ _ w tt w1) by done. rewrite (effect_step _ _ _ _ _ Hprep). cbn [fst snd]. fold (place q twice). unfold mbind, effect_bind. by destruct (place q twice w2) as [[[]|e|] w3]. }
  rewrite Hloop. change (tw_link w) with (tw_link w2). unfold puts. change (tw_link w) with (tw_link w2).
  exact (puts_bind _ _ _ _ _ _ _ Hplace Hnext).
Qed.
Lemma flush_puts w : tw_mmsg w = [] -> Forall sendable (tw_pending w) ->
  let '(items, final) := seal (tw_prepared w) (tw_state w) (tw_budget w) (tw_pending w) in puts items w (done_with final) (w_flush w).
Proof.
  intros Hm Hs. pose proof (flush_loop_puts (length (tw_pending w)) w [] (le_n _) ltac:(rewrite Hm; constructor) Hs) as H.
  unfold flush_queued_data. destruct (tw_pending w) as [|p [|p' rest]] eqn:Ep; [exact H| |exact H]. clear H. apply Forall_cons in Hs as [Hs _].
  set (w1 := mkWriter (tw_state w) (tw_budget w) (tw_prepared w) [] (tw_mmsg w) (tw_link w)). pose proof (prepare_ok p w1 Hs) as Hprep. cbn [w1 tw_prepared tw_state tw_budget tw_pending tw_mmsg tw_link] in Hprep. cbn [seal].
  destruct (seal_one _ _ _ p) as [[f twice] [state budget]]. destruct Hprep as (q & Hprep & Hq). cbn [fst snd] in *.
  rewrite (effect_step _ _ w tt w1) by done. unfold send_packet. rewrite (effect_step _ _ _ _ _ Hprep). cbn [fst snd].
  set (w2 := mkWriter state budget _ _ _ _). destruct (with_duplicate_puts q f twice w2 Hq) as [K1 K2]. split; [exact K1|]. intros Hok. rewrite (K2 Hok). by split_and!.
Qed.

(** *** How far a flush comes *)

(** A beginning of [batch] was prepared, under the numbers from [n0]; the rest is still pending, as it was. *)
Definition came_to (n0 : nat) (state : ObfsState) (budget : Budget) (batch : list ClientBuf) (w : TransportWriter) : Prop :=
  exists n, (n <= length batch)%nat /\ tw_pending w = drop n batch /\ (tw_state w, tw_budget w, tw_prepared w) = (seal n0 state budget (take n batch)).2.
(** Whatever comes of it, a step that only sends prepares nothing. *)
Definition prepares_nothing (m : effect TransportWriter WriteError unit) : Prop :=
  forall w, tw_state (m w).2 = tw_state w /\ tw_budget (m w).2 = tw_budget w /\ tw_prepared (m w).2 = tw_prepared w /\ tw_pending (m w).2 = tw_pending w.
Lemma on_link_quiet (m : link unit) : prepares_nothing (on_link m).
Proof. intros w. unfold on_link. by destruct (m _). Qed.
Lemma bind_quiet m m' : prepares_nothing m -> prepares_nothing m' -> prepares_nothing (_ ← m; m').
Proof.
  intros H1 H2 w. specialize (H1 w). unfold mbind, effect_bind. destruct (m w) as [[[]|e|] w1]; cbn [snd] in *; [|done|done].
  destruct H1 as (<- & <- & <- & <-). apply H2.
Qed.
Lemma mmsg_quiet : prepares_nothing w_mmsg.
Proof.
  intros w. unfold flush_mmsg_data. case_bool_decide; [done|]. apply (bind_quiet (on_link _) (set_mmsg [])); [apply on_link_quiet|by intros []].
Qed.
Lemma place_quiet q twice : prepares_nothing (place q twice).
Proof.
  unfold place. destruct twice; apply bind_quiet; [apply mmsg_quiet|apply on_link_quiet|by intros []|].
  intros w. unfold flush_full. destruct (_ =? _); [apply mmsg_quiet|done].
Qed.
Lemma came_to_start w batch m : tw_pending w = batch -> prepares_nothing m -> came_to (tw_prepared w) (tw_state w) (tw_budget w) batch (m w).2.
Proof. intros <- H. exists O. destruct (H w) as (-> & -> & -> & ->). split_and!; [lia|done|done]. Qed.
Lemma came_to_next n state budget p rest w : let '(_, (state1, budget1)) := seal_one n state budget p in
  came_to (S n) state1 budget1 rest w -> came_to n state budget (p :: rest) w.
Proof.
  destruct (seal_one n state budget p) as [item [state1 budget1]] eqn:E. intros (k & Hk & Hp & Hs). exists (S k). split_and!; [cbn; lia|done|].
  cbn [take seal]. rewrite E. by destruct (seal (S n) state1 budget1 (take k rest)).
Qed.
Lemma loop_came fuel w : (length (tw_pending w) <= fuel)%nat -> Forall sendable (tw_pending w) ->
  came_to (tw_prepared w) (tw_state w) (tw_budget w) (tw_pending w) ((_ ← w_loop fuel; w_mmsg) w).2.
Proof.
  revert w. induction fuel as [|fuel IH]; intros w Hf Hs; destruct (tw_pending w) as [|p rest] eqn:Ep; cbn [length] in Hf; try lia.
  1, 2: rewrite (effect_step _ _ w tt w) by (cbn [flush_loop]; by rewrite ?Ep); apply came_to_start; [done|apply mmsg_quiet].
  apply Forall_cons in Hs as [Hp Hs]. set (w1 := mkWriter (tw_state w) (tw_budget w) (tw_prepared w) rest (tw_mmsg w) (tw_link w)).
  pose proof (prepare_ok p w1 Hp) as Hprep. pose proof (came_to_next (tw_prepared w) (tw_state w) (tw_budget w) p rest) as Hnext.
  cbn [w1 tw_prepared tw_state tw_budget tw_pending tw_mmsg tw_link] in Hprep. destruct (seal_one _ _ _ p) as [[f twice] [state budget]]. destruct Hprep as (q & Hprep & _).
  apply Hnext. set (w2 := mkWriter state budget (S (tw_prepared w)) rest (tw_mmsg w) (tw_link w)) in *. cbn [snd] in Hprep.
  unfold mbind at 1, effect_bind at 1. cbn [flush_loop]. rewrite Ep, (effect_step _ _ w tt w1), (effect_step _ _ _ _ _ Hprep) by done. cbn [fst snd]. fold (place q twice).
  destruct (place_quiet q twice w2) as (H1 & H2 & H3 & H4). unfold mbind at 1, effect_bind at 1. destruct (place q twice w2) as [[[]|e|] w3] eqn:Ew; cbn [snd] in *.
  2, 3: change w3 with ((mret tt : effect TransportWriter WriteError unit) w3).2; change (S (tw_prepared w)) with (tw_prepared w2); change state with (tw_state w2); change budget with (tw_budget w2);
    rewrite <- H1, <- H2, <- H3; by apply came_to_start.
  specialize (IH w3). rewrite H1, H2, H3, H4 in IH. apply IH; [cbn; lia|done].
Qed.
Lemma flush_came w : Forall sendable (tw_pending w) -> came_to (tw_prepared w) (tw_state w) (tw_budget w) (tw_pending w) (w_flush w).2.
Proof.
  intros Hs. pose proof (loop_came (length (tw_pending w)) w (le_n _) Hs) as H.
  unfold flush_queued_data. destruct (tw_pending w) as [|p [|p' rest]] eqn:Ep; [exact H| |exact H]. clear H. apply Forall_cons in Hs as [Hs _].
  set (w1 := mkWriter (tw_state w) (tw_budget w) (tw_prepared w) [] (tw_mmsg w) (tw_link w)). pose proof (prepare_ok p w1 Hs) as Hprep. cbn [w1 tw_prepared tw_state tw_budget tw_pending tw_mmsg tw_link] in Hprep.
  pose proof (came_to_next (tw_prepared w) (tw_state w) (tw_budget w) p []) as Hnext. destruct (seal_one _ _ _ p) as [[f twice] [state budget]]. destruct Hprep as (q & Hprep & _).
  apply Hnext. rewrite (effect_step _ _ w tt w1) by done. unfold send_packet. rewrite (effect_step _ _ _ _ _ Hprep).
  apply (came_to_start (mkWriter state budget (S (tw_prepared w)) [] (tw_mmsg w) (tw_link w))); [done|apply on_link_quiet].
Qed.

(** *** A turn of the loop *)

Context `{AQ : ArrayQueue} `{NT : Notify} `{!ArrayQueueLaws AQ}.
Definition waiting (q : WriterQueues) (class : PacketClass) : list ClientBuf := packets (queue_of q class).
Definition queues_settled (q : WriterQueues) : Prop := forall class, settled (queue_of q class).
(** The class served first. *)
Definition first_class (q : WriterQueues) : option PacketClass :=
  match waiting q Small, waiting q Medium, waiting q Bulk with
  | _ :: _, _, _ => Some Small
  | [], _ :: _, _ => Some Medium
  | [], [], _ :: _ => Some Bulk
  | [], [], [] => None
  end.
Lemma queue_of_set q class class' p : queue_of (set_queue q class p) class' = if bool_decide (class = class') then p else queue_of q class'.
Proof. by destruct class, class'. Qed.
Lemma recv_class_spec q class : queues_settled q ->
  let '(r, q') := recv_class q class in
  r = head (waiting q class) /\ (forall c, waiting q' c = if bool_decide (class = c) then tail (waiting q c) else waiting q c) /\ queues_settled q'.
Proof.
  intros Hs. unfold recv_class. pose proof (recv_spec (queue_of q class) (Hs class)) as H. destruct (try_recv _) as [r p]. destruct H as (-> & Hp & Hset & _).
  split; [done|]. split; intros c; [unfold waiting|]; rewrite queue_of_set; case_bool_decide as E; subst; done.
Qed.
Lemma next_writer_packet_spec q : queues_settled q ->
  let '(r, q') := next_writer_packet q in
  queues_settled q' /\ r = (fun c => (default (mkClientBuf [] 0 0) (head (waiting q c)), c)) <$> first_class q
  /\ forall c, waiting q' c = if bool_decide (first_class q = Some c) then tail (waiting q c) else waiting q c.
Proof.
  intros Hs. unfold next_writer_packet, first_class. pose proof (recv_class_spec q Small Hs) as H1. destruct (recv_class q Small) as [r1 q1]. destruct H1 as (-> & H1 & Hs1).
  destruct (waiting q Small) as [|p l] eqn:E1; cbn [head].
  2: { split_and!; [done|cbn; by rewrite E1|]. intros c. rewrite H1. destruct c; cbn; rewrite ?E1; done. }
  pose proof (recv_class_spec q1 Medium Hs1) as H2. destruct (recv_class q1 Medium) as [r2 q2]. destruct H2 as (-> & H2 & Hs2). pose proof (H1 Medium) as H1m. cbn in H1m. rewrite H1m.
  destruct (waiting q Medium) as [|p l] eqn:E2; cbn [head].
  2: { split_and!; [done|cbn; by rewrite E2|]. intros c. rewrite H2, H1. destruct c; cbn; by rewrite ?E1, ?E2. }
  pose proof (recv_class_spec q2 Bulk Hs2) as H3. destruct (recv_class q2 Bulk) as [r3 q3]. destruct H3 as (-> & H3 & Hs3). pose proof (H2 Bulk) as H2b. cbn in H2b. rewrite H1 in H2b. cbn in H2b. rewrite H2b.
  destruct (waiting q Bulk) as [|p l] eqn:E3; cbn [head]; (split_and!; [done|cbn; by rewrite ?E3|]); intros c; rewrite H3, H2, H1; destruct c; cbn; by rewrite ?E1, ?E2, ?E3.
Qed.
Lemma has_queued_waiting q class : has_queued_packet (queue_of q class) = negb (bool_decide (waiting q class = [])).
Proof. unfold has_queued_packet, queue_is_empty, waiting, packets. by destruct (aq_items _). Qed.
(** [class] has nothing of a higher class in front of it. *)
Definition served (q : WriterQueues) (class : PacketClass) : Prop :=
  match class with Small => True | Medium => waiting q Small = [] | Bulk => waiting q Small = [] /\ waiting q Medium = [] end.
Lemma extend_batch_spec room class q : queues_settled q -> served q class ->
  let '(l, q') := extend_batch room class q in
  l = take room (waiting q class) /\ queues_settled q' /\ forall c, waiting q' c = if bool_decide (class = c) then drop room (waiting q c) else waiting q c.
Proof.
  revert q. induction room as [|room IH]; intros q Hs Hserved; cbn [extend_batch].
  { split_and!; [done|done|]. intros c. by case_bool_decide; rewrite ?drop_0. }
  replace (negb _) with false.
  2: { change (wq_latency q) with (queue_of q Small). change (wq_priority q) with (queue_of q Medium). rewrite !has_queued_waiting.
       destruct class; cbn in *; [done|by rewrite Hserved|by destruct Hserved as [-> ->]]. }
  pose proof (recv_class_spec q class Hs) as H. destruct (recv_class q class) as [r q1]. destruct H as (-> & Hw & Hs1). pose proof (Hw class) as Hc. rewrite bool_decide_eq_true_2 in Hc by done.
  destruct (waiting q class) as [|p l] eqn:E; cbn [head tail] in *.
  - split_and!; [done|done|]. intros c. rewrite Hw. case_bool_decide; [subst; by rewrite E|done].
  - assert (served q1 class) as Hserved1 by (destruct class; cbn in *; [done|by rewrite Hw|by rewrite !Hw]).
    specialize (IH q1 Hs1 Hserved1). destruct (extend_batch room class q1) as [l' q']. rewrite Hc in IH. destruct IH as (-> & Hs' & Hw'). split_and!; [done|done|].
    intros c. rewrite Hw', Hw. case_bool_decide; [subst; by rewrite E|done].
Qed.
Lemma queue_all l w : for_each queue_data l w = (Ok tt, mkWriter (tw_state w) (tw_budget w) (tw_prepared w) (tw_pending w ++ l) (tw_mmsg w) (tw_link w)).
Proof.
  revert w. induction l as [|p l IH]; intros w; cbn [for_each]; [rewrite app_nil_r; by destruct w|].
  unfold mbind, effect_bind, queue_data at 1, set_pending. rewrite IH. cbn. by rewrite <- app_assoc.
Qed.
Definition limit_of (class : PacketClass) : nat := Z.to_nat (batch_limit class).
Abbreviation w_turn := (writer_turn streamed states key config allow_at wrap_at draws).

Definition outcome {A : Type} (r : result WriteError A) : result WriteError unit := match r with Ok _ => Ok tt | Err e => Err e | Panic => Panic end.
(** C11. A turn of the writer takes, from the highest class that has packets waiting, as many of the oldest as a batch may hold
    and leaves the other queues alone.  What it hands to the socket is what sending these packets one at a time would: each
    wrapped under the next numbers and framed for the channel, in order, once, with at most one copy right behind those chosen
    for duplication.  Where a call fails a beginning of that went out and the loop ends with the error: a beginning of the batch
    was wrapped, each packet under a number of its own, and what comes after it is left in the writer as it was, unsent.  There
    is no panic. *)
Theorem writer_turn_serves acquired woken after cancelled q w class :
  queues_settled q -> first_class q = Some class -> Forall sendable (waiting q class) -> tw_pending w = [] -> tw_mmsg w = [] ->
  let '(items, final) := seal (tw_prepared w) (tw_state w) (tw_budget w) (take (limit_of class) (waiting q class)) in
  let '(r, w') := w_turn None acquired woken after cancelled q w in
  sends items (tw_link w) (outcome r, tw_link w')
  /\ match r with
     | Ok (next, reply, active, q') =>
         next = LoopContinue /\ reply = None /\ active = true /\ done_with final w' /\ queues_settled q'
         /\ forall c, waiting q' c = if bool_decide (class = c) then drop (limit_of class) (waiting q c) else waiting q c
     | Err _ => came_to (tw_prepared w) (tw_state w) (tw_budget w) (take (limit_of class) (waiting q class)) w'
     | Panic => False
     end.
Proof.
  intros Hs Hc Hall Hp Hm. pose proof (next_writer_packet_spec q Hs) as Hn. unfold writer_turn. destruct (next_writer_packet q) as [r q1]. destruct Hn as (Hs1 & -> & Hw1). rewrite Hc in *. cbn [fmap option_fmap option_map].
  assert (Hserved : served q1 class).
  { unfold first_class in Hc. destruct class; cbn [served]; [done|rewrite Hw1|rewrite !Hw1]; cbn; destruct (waiting q Small); try done; destruct (waiting q Medium); done. }
  assert (exists p l, waiting q class = p :: l) as (p & l & El).
  { unfold first_class in Hc. destruct class; destruct (waiting q Small); try done; try (by eexists _, _); destruct (waiting q Medium); try done; try (by eexists _, _); destruct (waiting q Bulk); try done; by eexists _, _. }
  pose proof (extend_batch_spec (Z.to_nat (batch_limit class - 1)) class q1 Hs1 Hserved) as He. unfold send_writer_batch.
  destruct (extend_batch _ _ _) as [rest q2]. destruct He as (Hrest & Hs2 & Hw2). pose proof (Hw1 class) as Hwc. rewrite bool_decide_eq_true_2 in Hwc by done. rewrite El in Hwc. cbn [tail] in Hwc. rewrite Hwc in Hrest.
  rewrite El. cbn [head default]. replace (limit_of class) with (S (Z.to_nat (batch_limit class - 1))) by (by destruct class). cbn [take]. rewrite <- Hrest.
  set (w1 := mkWriter (tw_state w) (tw_budget w) (tw_prepared w) (p :: rest) (tw_mmsg w) (tw_link w)).
  assert (Hsend : Forall sendable (tw_pending w1)).
  { cbn. rewrite Hrest, El in *. apply Forall_cons in Hall as [? Hall]. constructor; [done|]. by apply Forall_take. }
  pose proof (flush_came w1 Hsend) as Hcame. cbn [w1 tw_prepared tw_state tw_budget tw_pending] in Hcame. fold w1 in Hcame.
  pose proof (flush_puts w1 Hm Hsend) as Hf. cbn [w1 tw_prepared tw_state tw_budget tw_pending] in Hf. fold w1 in Hf. destruct (seal _ _ _ _) as [items final].
  assert (Hq : for_each queue_data (p :: rest) w = (Ok tt, w1)) by (rewrite queue_all, Hp; done).
  destruct Hf as [Hf1 Hf2]. change (tw_link w1) with (tw_link w) in Hf1.
  unfold mbind at 1, effect_bind at 1. rewrite (effect_step _ _ _ _ _ Hq). unfold mbind at 1, effect_bind at 1. destruct (w_flush w1) as [[[]|e|] w2]; cbn [fst snd] in *.
  2: by split.
  2: by destruct Hf1 as (? & ? & ? & ? & ? & ? & ?).
  cbn [mret effect_ret outcome]. split; [exact Hf1|]. split_and!; [done|done| |by apply Hf2|done|].
  - rewrite len_cons. pose proof (len_nonneg rest). cbn [fst]. by replace (_ =? 0) with false by lia.
  - intros c. cbn [snd]. rewrite Hw2, Hw1. case_bool_decide as E1; [subst c; rewrite bool_decide_eq_true_2, El by done; done|]. by rewrite bool_decide_eq_false_2 by congruence.
Qed.
End Writing.

Definition demo_allocation : nat -> AllocationState := fun _ => mkAllocation true 0x4000.
Definition demo_writer : TransportWriter := mkWriter demo_state (Budget_new 0) 0 [] [] (mkLink 0 [SendWouldBlock; Accepted 1; Accepted 1; Accepted 1; SendWouldBlock] []).
Definition demo_queues : WriterQueues :=
  mkWriterQueues (mkQueue (mkListQueue 16 [mkQueued demo_packet 0; mkQueued demo_packet 0]) (mkNtf false false false) 1 1 true)
    (packet_channel 64 true) (packet_channel 128 true).
Lemma writer_turn_serves_witness :
  let '(items, final) := seal 0x4000 demo_key Audio 77 (fun _ => 0) (fun _ => 9) (fun _ => demo_draws) 0 demo_state (Budget_new 0) [demo_packet; demo_packet] in
  let '(r, w') := writer_turn false demo_allocation demo_key (ObfsConfig_new Audio 77) (fun _ => 0) (fun _ => 9) (fun _ => demo_draws) None None NoPacket demo_queues false demo_queues demo_writer in
  sends items (tw_link demo_writer) (outcome r, tw_link w') /\ length items = 2%nat /\ length (lk_wire (tw_link w')) = 3%nat /\ outcome r = Ok tt.
Proof.
  assert (H1 : queues_settled demo_queues) by (intros []; by repeat constructor).
  assert (H2 : Forall sendable (waiting demo_queues Small)).
  { assert (sendable demo_packet) as Hp; [|by repeat constructor].
    split; [apply demo_packet_fits|]. split; [by apply (bool_decide_unpack _); vm_compute|]. cbn [demo_packet cb_start cb_end]. unfold CLIENT_PACKET_CAPACITY. lia. }
  pose proof (writer_turn_serves false demo_allocation 0x4000 ltac:(by left) ltac:(lia) demo_key Audio 77 (fun _ => 0) (fun _ => 9) (fun _ => demo_draws)
    ltac:(intros; apply demo_draws_ok; cbn; lia) None NoPacket demo_queues false demo_queues demo_writer Small H1 eq_refl H2 eq_refl eq_refl) as H.
  change (take (limit_of Small) (waiting demo_queues Small)) with [demo_packet; demo_packet] in H. cbn [demo_writer tw_prepared tw_state tw_budget] in H. fold demo_writer in H.
  destruct (seal _ _ _ _ _ _ _ _ _ _ _) as [items final] eqn:E1. destruct (writer_turn _ _ _ _ _ _ _ _ _ _ _ _ _ _) as [r w'] eqn:E2.
  split; [apply H|]. vm_compute in E1. vm_compute in E2. injection E1 as <- _. injection E2 as <- <-. split_and!; reflexivity.
Defined.
