(* ===== verification/Session.v ===== *)
(** * Sessions of the client

    What a session does around its writer ([Writer]): [rust-client/session.rs].  [ShutdownCoordinator], which sends one request to
    disconnect when the client stops; the life of a session in [run_session] and [run_allocated_session], with what it registers
    and what its destructors take back; the reader, which sorts incoming packets; [request_configuration]; and the waits and flags
    that sessions share, [RepairState::changed] ([rust-client/repair.rs]) and [ConfigDeliveryState].

    Sessions run on many threads: everything they share is one world, and every atomic operation on it is a step.  The relay, the
    time that passes and the order of the threads are choices of the step. *)

From stdpp Require Import sorting.
From S2P Require Import Prelude Text Worker FlowFrame Classify Packet Replay Obfs StreamControl Getconf TurnStream Channel Dispatch DispatchProps Writer.

Definition DISCONNECT_CONTROL_ATTEMPTS : nat := 2.

(** ** [ShutdownCoordinator] *)

(** A stream is known by its incarnation, which also stands for its queue of commands and its activity cell; [sd_notified] counts
    the calls of [notify_waiters]. *)
Record ShutdownCoordinator := mkCoordinator {
  sd_active : bool; sd_completed : bool; sd_streams : list Z; sd_activities : gmap Z Z; sd_next_activity : Z; sd_notified : nat;
}.
Definition ShutdownCoordinator_new : ShutdownCoordinator := mkCoordinator false false [] ∅ 1 0.
Definition next_activity (c : ShutdownCoordinator) : Z * ShutdownCoordinator :=
  (Z.max (sd_next_activity c) 1,
   mkCoordinator (sd_active c) (sd_completed c) (sd_streams c) (sd_activities c) (u64_of (sd_next_activity c + 1)) (sd_notified c)).
Definition set_activity (c : ShutdownCoordinator) (incarnation_id activity : Z) : ShutdownCoordinator :=
  mkCoordinator (sd_active c) (sd_completed c) (sd_streams c) (<[incarnation_id := activity]> (sd_activities c)) (sd_next_activity c) (sd_notified c).
Definition set_streams (c : ShutdownCoordinator) (streams : list Z) : ShutdownCoordinator :=
  mkCoordinator (sd_active c) (sd_completed c) streams (sd_activities c) (sd_next_activity c) (sd_notified c).
(** [register], with the number drawn for the activity. *)
Definition shutdown_register (c : ShutdownCoordinator) (incarnation_id activity : Z) : ShutdownCoordinator :=
  let c := set_activity c incarnation_id activity in
  if sd_active c then c else set_streams c (sd_streams c ++ [incarnation_id]).
Definition shutdown_unregister (c : ShutdownCoordinator) (incarnation_id : Z) : ShutdownCoordinator :=
  set_streams c (filter (fun i => i <> incarnation_id) (sd_streams c)).
(** The election at the start of [request_disconnect]. *)
Definition elect (c : ShutdownCoordinator) : bool * ShutdownCoordinator :=
  if sd_active c then (false, c)
  else (true, mkCoordinator true false (sd_streams c) (sd_activities c) (sd_next_activity c) (sd_notified c)).
Definition complete_now (c : ShutdownCoordinator) : ShutdownCoordinator :=
  mkCoordinator (sd_active c) true (sd_streams c) (sd_activities c) (sd_next_activity c) (S (sd_notified c)).
Definition shutdown_complete (c : ShutdownCoordinator) : ShutdownCoordinator := if sd_completed c then c else complete_now c.
Definition observe_control_response (c : ShutdownCoordinator) (response : bytes) : bool * ShutdownCoordinator :=
  if negb (bytes_eqb response (b_ "OK:disconnected")) && negb (starts_with response (b_ "DENIED:")) then (false, c) else
  if negb (sd_active c) || sd_completed c then (false, c) else (true, complete_now c).
Definition activity_of (c : ShutdownCoordinator) (incarnation_id : Z) : Z := default 0 (sd_activities c !! incarnation_id).
(** The most recent activity first; between equals the latest incarnation. *)
Definition stream_le (x y : Z * Z) : Prop := y.1 < x.1 \/ (x.1 = y.1 /\ y.2 <= x.2).
#[global] Instance stream_le_dec x y : Decision (stream_le x y).
Proof. unfold stream_le. apply _. Defined.
Definition control_streams (c : ShutdownCoordinator) : list Z := snd <$> merge_sort stream_le ((fun i => (activity_of c i, i)) <$> sd_streams c).

(** A task in [wait_until_completed], between two operations; [WSleep] holds the count that [notified] took. *)
Inductive Wait := WCreate | WCheck (seen : nat) | WSleep (seen : nat) | WExpired.
(** [None]: it sleeps on.  [expired]: the time is over, which is looked at after the notification. *)
Definition wait_step (c : ShutdownCoordinator) (w : Wait) (expired : bool) : option (Wait + bool) :=
  match w with
  | WCreate => Some (inl (WCheck (sd_notified c)))
  | WCheck seen => Some (if sd_completed c then inr true else inl (WSleep seen))
  | WSleep seen => if (seen <? sd_notified c)%nat then Some (inl WCreate) else if expired then Some (inl WExpired) else None
  | WExpired => Some (inr (sd_completed c))
  end.

(** A task in [request_disconnect]; [todo]: the streams it has still to try. *)
Inductive Requester :=
| RqStart
| RqFollow (w : Wait)
| RqSnapshot
| RqNext (todo : list Z)
| RqSend (stream : Z) (todo : list Z)
| RqReply (todo : list Z)
| RqAck (w : Wait) (todo : list Z)
| RqComplete
| RqDone.
(** One operation: the coordinator, the task, and the stream a request went to.  [yes]: the queue takes the command, the writer
    confirms it in time, or the time of a wait is over. *)
Definition requester_step (c : ShutdownCoordinator) (t : Requester) (yes : bool) : option (ShutdownCoordinator * Requester * list Z) :=
  match t with
  | RqStart => let '(leader, c) := elect c in Some (c, if leader : bool then RqSnapshot else RqFollow WCreate, [])
  | RqFollow w => (fun r => (c, match r with inl w => RqFollow w | inr _ => RqDone end, [])) <$> wait_step c w yes
  | RqSnapshot => Some (c, RqNext (take DISCONNECT_CONTROL_ATTEMPTS (control_streams c)), [])
  | RqNext [] => Some (c, RqComplete, [])
  | RqNext (stream :: todo) => Some (c, if sd_completed c then RqComplete else RqSend stream todo, [])
  | RqSend stream todo => Some (c, if yes then RqReply todo else RqNext todo, if yes then [stream] else [])
  | RqReply todo => Some (c, if yes then RqAck WCreate todo else RqNext todo, [])
  | RqAck w todo =>
      (fun r => (c, match r with inl w => RqAck w todo | inr true => RqComplete | inr false => RqNext todo end, [])) <$> wait_step c w yes
  | RqComplete => Some (shutdown_complete c, RqDone, [])
  | RqDone => None
  end.

(** ** The life of a session *)

(** Where a session is, from the draw of its incarnation in [run_allocated_session], which has the allocation, to its end.  Beyond [PRunning] the locals are dropped in turn: the
    [ActiveConnection], the [WorkerRegistration], the [ShutdownRegistration], and at last the allocation. *)
Inductive Phase :=
| PConfiguring
| PRegistering (activity : Z)
| PListed
| PRegistered
| PAnnounced
| PRunning
| PDisconnecting (t : Requester)
| PEnding
| PLeaving
| PDeparting
| PReleasing
| PDone.
Record Session := mkSession { se_channels : WorkerChannels; se_phase : Phase }.
Definition se_incarnation (s : Session) : Z := wc_incarnation_id (se_channels s).
Inductive SessionEvent := Ready (worker : Z) | ActiveZero.
(** What sessions share, and what they did: requests sent, responses taken for answers to them, relays held. *)
Record World := mkWorld {
  w_shutdown : ShutdownCoordinator; w_dispatcher : Dispatcher; w_active_connections : Z; w_next_incarnation : Z; w_relays : Z;
  w_marks : list (Z * Z); w_sessions : list Session; w_events : list SessionEvent; w_sent : list Z; w_answers : nat;
}.
Definition World_new (d : Dispatcher) : World := mkWorld ShutdownCoordinator_new d 0 1 0 [] [] [] [] 0.
Definition on_shutdown (f : ShutdownCoordinator -> ShutdownCoordinator) (w : World) : World :=
  mkWorld (f (w_shutdown w)) (w_dispatcher w) (w_active_connections w) (w_next_incarnation w) (w_relays w) (w_marks w) (w_sessions w)
    (w_events w) (w_sent w) (w_answers w).
Definition on_dispatcher (f : Dispatcher -> Dispatcher) (w : World) : World :=
  mkWorld (w_shutdown w) (f (w_dispatcher w)) (w_active_connections w) (w_next_incarnation w) (w_relays w) (w_marks w) (w_sessions w)
    (w_events w) (w_sent w) (w_answers w).
Definition add_active (n : Z) (w : World) : World :=
  mkWorld (w_shutdown w) (w_dispatcher w) (w_active_connections w + n) (w_next_incarnation w) (w_relays w) (w_marks w) (w_sessions w)
    (w_events w) (w_sent w) (w_answers w).
Definition add_relays (n : Z) (w : World) : World :=
  mkWorld (w_shutdown w) (w_dispatcher w) (w_active_connections w) (w_next_incarnation w) (w_relays w + n) (w_marks w) (w_sessions w)
    (w_events w) (w_sent w) (w_answers w).
Definition emit (events : list SessionEvent) (w : World) : World :=
  mkWorld (w_shutdown w) (w_dispatcher w) (w_active_connections w) (w_next_incarnation w) (w_relays w) (w_marks w) (w_sessions w)
    (w_events w ++ events) (w_sent w) (w_answers w).
Definition add_sent (streams : list Z) (w : World) : World :=
  mkWorld (w_shutdown w) (w_dispatcher w) (w_active_connections w) (w_next_incarnation w) (w_relays w) (w_marks w) (w_sessions w)
    (w_events w) (w_sent w ++ streams) (w_answers w).
Definition add_answers (n : nat) (w : World) : World :=
  mkWorld (w_shutdown w) (w_dispatcher w) (w_active_connections w) (w_next_incarnation w) (w_relays w) (w_marks w) (w_sessions w)
    (w_events w) (w_sent w) (w_answers w + n).
Definition set_marks (marks : list (Z * Z)) (w : World) : World :=
  mkWorld (w_shutdown w) (w_dispatcher w) (w_active_connections w) (w_next_incarnation w) (w_relays w) marks (w_sessions w)
    (w_events w) (w_sent w) (w_answers w).
Definition set_sessions (sessions : list Session) (w : World) : World :=
  mkWorld (w_shutdown w) (w_dispatcher w) (w_active_connections w) (w_next_incarnation w) (w_relays w) (w_marks w) sessions
    (w_events w) (w_sent w) (w_answers w).

(** [run_allocated_session] draws an incarnation; what failed before it is not a session here. *)
Definition draw_incarnation (w : World) : Z * World :=
  (Z.max (w_next_incarnation w) 1,
   mkWorld (w_shutdown w) (w_dispatcher w) (w_active_connections w) (u64_of (w_next_incarnation w + 1)) (w_relays w) (w_marks w)
     (w_sessions w) (w_events w) (w_sent w) (w_answers w)).
Definition start_session (id : Z) (turn_path : bytes) (latency priority bulk : Z) (w : World) : World :=
  let '(incarnation_id, w) := draw_incarnation w in
  set_sessions (w_sessions w ++ [mkSession (mkWorker id incarnation_id turn_path latency priority bulk) PConfiguring]) (add_relays 1 w).

(** [Yes] and [No] are what happens next; [Cut]: the task is aborted at the pause it is in. *)
Inductive Choice := Yes | No | Cut.
Definition is_yes (x : Choice) : bool := match x with Yes => true | _ => false end.
Definition drop_active (w : World) : World := add_active (-1) (if w_active_connections w =? 1 then emit [ActiveZero] w else w).
(** One operation of a session: [None] where it cannot move. *)
Definition session_step (w : World) (s : Session) (x : Choice) : option (World * Phase) :=
  let id := wc_id (se_channels s) in
  let incarnation_id := se_incarnation s in
  match se_phase s with
  | PConfiguring =>
      if is_yes x then let '(activity, c) := next_activity (w_shutdown w) in Some (on_shutdown (fun _ => c) w, PRegistering activity)
      else Some (w, PReleasing)
  | PRegistering activity => Some (on_shutdown (fun c => shutdown_register c incarnation_id activity) w, PListed)
  | PListed => Some (on_dispatcher (fun d => register d (se_channels s)) w, PRegistered)
  | PRegistered => Some (emit [Ready id] w, PAnnounced)
  | PAnnounced => Some (add_active 1 w, PRunning)
  | PRunning => Some (w, if is_yes x then PDisconnecting RqStart else PEnding)
  | PDisconnecting t =>
      match t, x with
      | RqDone, _ | _, Cut => Some (w, PEnding)
      | _, _ => (fun r => (add_sent r.2 (on_shutdown (fun _ => r.1.1) w), PDisconnecting r.1.2)) <$> requester_step (w_shutdown w) t (is_yes x)
      end
  | PEnding => Some (drop_active w, PLeaving)
  | PLeaving => Some (on_dispatcher (fun d => unregister d id incarnation_id) w, PDeparting)
  | PDeparting => Some (on_shutdown (fun c => shutdown_unregister c incarnation_id) w, PReleasing)
  | PReleasing => Some (add_relays (-1) w, PDone)
  | PDone => None
  end.
Definition set_phase (n : nat) (s : Session) (p : Phase) (w : World) : World := set_sessions (<[n := mkSession (se_channels s) p]> (w_sessions w)) w.

(** A worker starts its next session when the last one has ended; readers see responses and writers mark activity at any time. *)
Inductive world_step : World -> World -> Prop :=
| ws_start id turn_path latency priority bulk w :
    (forall s, s ∈ w_sessions w -> wc_id (se_channels s) = id -> se_phase s = PDone) ->
    world_step w (start_session id turn_path latency priority bulk w)
| ws_session n s x w w' p :
    w_sessions w !! n = Some s -> session_step w s x = Some (w', p) -> world_step w (set_phase n s p w')
| ws_response response taken c w :
    observe_control_response (w_shutdown w) response = (taken, c) ->
    world_step w (add_answers (if taken : bool then 1 else 0) (on_shutdown (fun _ => c) w))
| ws_draw incarnation_id activity c w :
    next_activity (w_shutdown w) = (activity, c) ->
    world_step w (set_marks ((incarnation_id, activity) :: w_marks w) (on_shutdown (fun _ => c) w))
| ws_mark incarnation_id activity before after w :
    w_marks w = before ++ (incarnation_id, activity) :: after ->
    world_step w (set_marks (before ++ after) (on_shutdown (fun c => set_activity c incarnation_id activity) w)).

(** ** What sessions leave behind *)

Definition listed (p : Phase) : bool :=
  match p with PListed | PRegistered | PAnnounced | PRunning | PDisconnecting _ | PEnding | PLeaving | PDeparting => true | _ => false end.
Definition registered (p : Phase) : bool :=
  match p with PRegistered | PAnnounced | PRunning | PDisconnecting _ | PEnding | PLeaving => true | _ => false end.
Definition connected (p : Phase) : bool := match p with PRunning | PDisconnecting _ | PEnding => true | _ => false end.
Definition holding (p : Phase) : bool := match p with PDone => false | _ => true end.
Definition those (P : Phase -> bool) (l : list Session) : list Session := filter (fun s => P (se_phase s) = true) l.

Lemma those_app P l k : those P (l ++ k) = those P l ++ those P k.
Proof. apply filter_app. Qed.
Lemma those_cons P s l : those P (s :: l) = (if P (se_phase s) then [s] else []) ++ those P l.
Proof.
  unfold those. destruct (P (se_phase s)) eqn:E; [by rewrite filter_cons_True|]. rewrite filter_cons_False; [done|]. by rewrite E.
Qed.
Lemma elem_of_those P s l : s ∈ those P l <-> P (se_phase s) = true /\ s ∈ l.
Proof. unfold those. by rewrite list_elem_of_filter. Qed.

(** A session of the list and its successor. *)
Lemma session_split (l : list Session) n s : l !! n = Some s ->
  exists l1 l2, l = l1 ++ s :: l2 /\ forall s', <[n := s']> l = l1 ++ s' :: l2.
Proof.
  intros (l1 & l2 & -> & ->)%list_elem_of_split_length. exists l1, l2. split; [done|]. intros s'.
  replace (length l1) with (length l1 + 0)%nat by lia. by rewrite insert_app_r.
Qed.

Record sessions_ok (w : World) : Prop := {
  so_incarnations : forall n s, w_sessions w !! n = Some s -> se_incarnation s = Z.of_nat n + 1;
  so_next : w_next_incarnation w = len (w_sessions w) + 1;
  so_ids : NoDup ((fun s => wc_id (se_channels s)) <$> those holding (w_sessions w));
  so_relays : w_relays w = len (those holding (w_sessions w));
  so_active : w_active_connections w = len (those connected (w_sessions w));
  so_registry : dp_workers (w_dispatcher w) ≡ₚ se_channels <$> those registered (w_sessions w);
  so_streams : NoDup (sd_streams (w_shutdown w));
  so_streams_sub : sd_streams (w_shutdown w) ⊆ se_incarnation <$> those listed (w_sessions w);
  so_streams_all : sd_active (w_shutdown w) = false -> se_incarnation <$> those listed (w_sessions w) ⊆ sd_streams (w_shutdown w);
}.

Lemma incarnations_unique w s s' : sessions_ok w -> s ∈ w_sessions w -> s' ∈ w_sessions w -> se_incarnation s = se_incarnation s' -> s = s'.
Proof.
  intros Hok (n & Hn)%list_elem_of_lookup (n' & Hn')%list_elem_of_lookup E. rewrite (so_incarnations w Hok n s Hn), (so_incarnations w Hok n' s' Hn') in E.
  assert (n = n') as -> by lia. congruence.
Qed.

Lemma world_new_ok latency priority bulk : sessions_ok (World_new (mkDispatcher [] latency priority bulk)).
Proof. split; cbn; try done; try constructor. Qed.

Lemma start_ok id path latency priority bulk w :
  sessions_ok w -> len (w_sessions w) + 2 < 2 ^ 64 -> (forall s, s ∈ w_sessions w -> wc_id (se_channels s) = id -> se_phase s = PDone) ->
  sessions_ok (start_session id path latency priority bulk w).
Proof.
  intros [Hi Hn Hd Hr Ha Hw Hs Hsub Hall] Hlen Hid. pose proof (Nat2Z.is_nonneg (length (w_sessions w))) as Hpos. unfold len in *.
  split; cbn [w_sessions w_next_incarnation w_relays w_active_connections w_dispatcher w_shutdown start_session draw_incarnation set_sessions add_relays];
    rewrite ?those_app, ?those_cons; cbn [se_phase holding connected registered listed app]; try done.
  - intros n s [Hold|[Hge Hnew]]%lookup_app_Some; [by apply Hi|]. apply list_lookup_singleton_Some in Hnew as [Hz <-]. cbn. rewrite Hn. lia.
  - rewrite Hn. unfold len, u64_of. rewrite length_app. cbn [length]. rewrite Z.mod_small by lia. lia.
  - rewrite fmap_app. apply NoDup_app. split_and!; [done| |apply NoDup_singleton]. intros x (s & -> & [Hh Hin]%elem_of_those)%list_elem_of_fmap.
    intros Hx%list_elem_of_singleton. cbn in Hx. by rewrite (Hid s Hin Hx) in Hh.
  - rewrite Hr. unfold len. rewrite length_app. cbn [length those filter list_filter]. lia.
  - rewrite Ha. unfold len. rewrite length_app. cbn. lia.
  - rewrite fmap_app. cbn. by rewrite app_nil_r.
  - rewrite fmap_app. cbn. by rewrite app_nil_r.
  - rewrite fmap_app. cbn. by rewrite app_nil_r.
Qed.

Lemma those_middle P l1 s l2 : those P (l1 ++ s :: l2) = those P l1 ++ (if P (se_phase s) then [s] else []) ++ those P l2.
Proof. by rewrite those_app, those_cons. Qed.
Lemma len_middle P l1 s l2 : len (those P (l1 ++ s :: l2)) = len (those P (l1 ++ l2)) + Z.b2z (P (se_phase s)).
Proof. rewrite those_middle, those_app. unfold len. rewrite !length_app. destruct (P _); cbn [length Z.b2z]; lia. Qed.
Lemma fmap_middle {A} (f : Session -> A) P l1 s l2 :
  f <$> those P (l1 ++ s :: l2) = (f <$> those P l1) ++ (if P (se_phase s) then [f s] else []) ++ (f <$> those P l2).
Proof. rewrite those_middle, !fmap_app. by destruct (P _). Qed.
Lemma elem_of_middle {A} (f : Session -> A) P l1 s l2 x :
  x ∈ f <$> those P (l1 ++ s :: l2) <-> x ∈ f <$> those P (l1 ++ l2) \/ (P (se_phase s) = true /\ x = f s).
Proof.
  rewrite fmap_middle, those_app, fmap_app, !elem_of_app. destruct (P _); rewrite ?list_elem_of_singleton, ?elem_of_nil; naive_solver.
Qed.

Definition streams_ok (w : World) : Prop :=
  NoDup (sd_streams (w_shutdown w)) /\ sd_streams (w_shutdown w) ⊆ se_incarnation <$> those listed (w_sessions w) /\
  (sd_active (w_shutdown w) = false -> se_incarnation <$> those listed (w_sessions w) ⊆ sd_streams (w_shutdown w)).
(** A session moves to another phase. *)
Lemma move_ok w w' s p l1 l2 :
  sessions_ok w -> w_sessions w = l1 ++ s :: l2 -> w_sessions w' = l1 ++ mkSession (se_channels s) p :: l2 ->
  w_next_incarnation w' = w_next_incarnation w ->
  w_relays w' = w_relays w - Z.b2z (holding (se_phase s)) + Z.b2z (holding p) ->
  w_active_connections w' = w_active_connections w - Z.b2z (connected (se_phase s)) + Z.b2z (connected p) ->
  holding (se_phase s) = true ->
  (dp_workers (w_dispatcher w) ≡ₚ se_channels <$> those registered (w_sessions w) ->
   dp_workers (w_dispatcher w') ≡ₚ se_channels <$> those registered (w_sessions w')) ->
  streams_ok w' -> sessions_ok w'.
Proof.
  intros [Hi Hn Hd Hr Ha Hw _ _ _] El El' En Er Ea Hh Hreg (Hs & Hsub & Hall). split; try done.
  - assert (E : se_incarnation <$> w_sessions w' = se_incarnation <$> w_sessions w) by (rewrite El, El', !fmap_app; done).
    intros n t Ht. assert (H : (se_incarnation <$> w_sessions w') !! n = Some (se_incarnation t)) by (by rewrite list_lookup_fmap, Ht).
    rewrite E, list_lookup_fmap in H. destruct (w_sessions w !! n) as [u|] eqn:Eu; [|done]. cbn in H. injection H as H. rewrite <- H. by apply Hi.
  - rewrite En, Hn, El, El'. unfold len. rewrite !length_app. cbn. lia.
  - rewrite El, fmap_middle, Hh in Hd. rewrite El', fmap_middle. cbn [se_phase]. destruct (holding p); [done|]. cbn [app].
    cbn [app] in Hd. rewrite <- Permutation_middle in Hd. by apply NoDup_cons in Hd as [_ Hd].
  - rewrite Er, Hr, El, El', !len_middle. cbn [se_phase]. lia.
  - rewrite Ea, Ha, El, El', !len_middle. cbn [se_phase]. lia.
  - by apply Hreg.
Qed.
(** It changes neither the registry nor the streams. *)
Lemma quiet_registry w w' s p l1 l2 :
  w_sessions w = l1 ++ s :: l2 -> w_sessions w' = l1 ++ mkSession (se_channels s) p :: l2 ->
  dp_workers (w_dispatcher w') = dp_workers (w_dispatcher w) -> registered p = registered (se_phase s) ->
  dp_workers (w_dispatcher w) ≡ₚ se_channels <$> those registered (w_sessions w) ->
  dp_workers (w_dispatcher w') ≡ₚ se_channels <$> those registered (w_sessions w').
Proof. intros El El' Ed Ep. rewrite El, El', Ed, !fmap_middle. cbn [se_phase se_channels]. by rewrite Ep. Qed.
Lemma quiet_streams w w' s p l1 l2 :
  sessions_ok w -> w_sessions w = l1 ++ s :: l2 -> w_sessions w' = l1 ++ mkSession (se_channels s) p :: l2 ->
  sd_streams (w_shutdown w') = sd_streams (w_shutdown w) -> (sd_active (w_shutdown w') = false -> sd_active (w_shutdown w) = false) ->
  listed p = listed (se_phase s) ->
  streams_ok w'.
Proof.
  unfold streams_ok. intros [_ _ _ _ _ _ Hs Hsub Hall] El El' Es Ea Ep. rewrite Es.
  assert (E : se_incarnation <$> those listed (w_sessions w') = se_incarnation <$> those listed (w_sessions w))
    by (rewrite El, El', !fmap_middle; cbn [se_phase]; by rewrite Ep).
  rewrite E. auto.
Qed.

Lemma filter_all {A} (P : A -> Prop) `{D : !forall x, Decision (P x)} (l : list A) : (forall x, x ∈ l -> P x) -> filter P l = l.
Proof.
  induction l as [|x l IH]; intros Hall; [done|]. rewrite filter_cons_True by (apply Hall; left). f_equal. apply IH. intros y Hy. apply Hall. by right.
Qed.
Lemma register_perm d channels : NoDup (wc_id <$> channels :: dp_workers d) -> dp_workers (register d channels) ≡ₚ channels :: dp_workers d.
Proof.
  intros Hd. destruct (proj1 (NoDup_cons _ _) Hd) as [Hn Hd']. unfold register. cbn [dp_workers set_dp_workers]. rewrite filter_all.
  - rewrite (proj1 (interleave_spec (dp_workers d ++ [channels]) ltac:(by rewrite Permutation_app_comm))). by rewrite Permutation_app_comm.
  - intros x Hx E. apply Hn. rewrite <- E. by apply list_elem_of_fmap_2.
Qed.
Lemma unregister_perm d channels l : NoDup (wc_id <$> channels :: l) -> dp_workers d ≡ₚ channels :: l ->
  dp_workers (unregister d (wc_id channels) (wc_incarnation_id channels)) ≡ₚ l.
Proof.
  intros [Hn Hd]%NoDup_cons Hp. unfold unregister. cbn [dp_workers set_dp_workers].
  assert (E : filter (fun w => wc_id w <> wc_id channels \/ wc_incarnation_id w <> wc_incarnation_id channels) (dp_workers d) ≡ₚ l).
  { rewrite Hp, filter_cons_False by tauto. rewrite filter_all; [done|]. intros x Hx. left. intros E. apply Hn. rewrite <- E. by apply list_elem_of_fmap_2. }
  match goal with |- interleave_turn_paths ?k ≡ₚ _ => assert (Hk : NoDup (wc_id <$> k)) by (by rewrite E); by rewrite (proj1 (interleave_spec k Hk)) end.
Qed.

Lemma those_sub (P Q : Phase -> bool) l : (forall p, P p = true -> Q p = true) -> those P l `sublist_of` those Q l.
Proof.
  intros H. induction l as [|s l IH]; [constructor|]. rewrite !those_cons. destruct (P (se_phase s)) eqn:E; [rewrite (H _ E); by constructor|].
  destruct (Q (se_phase s)); [by constructor|done].
Qed.
Lemma registered_holding p : registered p = true -> holding p = true.
Proof. by destruct p. Qed.
Lemma registered_ids w l1 s l2 : sessions_ok w -> w_sessions w = l1 ++ s :: l2 -> holding (se_phase s) = true ->
  NoDup (wc_id <$> se_channels s :: (se_channels <$> those registered (l1 ++ l2))).
Proof.
  intros Hok El Hh. pose proof (so_ids w Hok) as Hd. rewrite El, fmap_middle, Hh in Hd. cbn [app] in Hd. rewrite <- Permutation_middle in Hd.
  rewrite fmap_cons, <- list_fmap_compose. eapply sublist_NoDup; [exact Hd|]. apply sublist_skip. rewrite <- fmap_app, <- those_app.
  apply fmap_sublist, those_sub, registered_holding.
Qed.
Lemma register_ok w s p d' l1 l2 :
  sessions_ok w -> w_sessions w = l1 ++ s :: l2 -> holding (se_phase s) = true -> registered (se_phase s) = false -> registered p = true ->
  d' = register (w_dispatcher w) (se_channels s) -> dp_workers (w_dispatcher w) ≡ₚ se_channels <$> those registered (w_sessions w) ->
  dp_workers d' ≡ₚ se_channels <$> those registered (l1 ++ mkSession (se_channels s) p :: l2).
Proof.
  intros Hok El Hh Hf Ht -> Hp. pose proof (registered_ids w l1 s l2 Hok El Hh) as Hd. rewrite El, fmap_middle, Hf in Hp. cbn [app] in Hp.
  rewrite <- fmap_app, <- those_app in Hp. rewrite register_perm; [|by rewrite Hp]. rewrite Hp, fmap_middle. cbn [se_phase se_channels]. rewrite Ht.
  cbn [app]. rewrite <- Permutation_middle, those_app, fmap_app. done.
Qed.
Lemma unregister_ok w s p d' l1 l2 :
  sessions_ok w -> w_sessions w = l1 ++ s :: l2 -> registered (se_phase s) = true -> registered p = false ->
  d' = unregister (w_dispatcher w) (wc_id (se_channels s)) (se_incarnation s) -> dp_workers (w_dispatcher w) ≡ₚ se_channels <$> those registered (w_sessions w) ->
  dp_workers d' ≡ₚ se_channels <$> those registered (l1 ++ mkSession (se_channels s) p :: l2).
Proof.
  intros Hok El Ht Hf -> Hp. pose proof (registered_ids w l1 s l2 Hok El (registered_holding _ Ht)) as Hd. rewrite El, fmap_middle, Ht in Hp.
  cbn [app] in Hp. rewrite <- Permutation_middle, <- fmap_app, <- those_app in Hp. unfold se_incarnation. rewrite (unregister_perm _ _ _ Hd Hp).
  rewrite fmap_middle. cbn [se_phase]. rewrite Hf. cbn [app]. by rewrite those_app, fmap_app.
Qed.

Lemma listing_streams w w' s p l1 l2 activity :
  sessions_ok w -> w_sessions w = l1 ++ s :: l2 -> w_sessions w' = l1 ++ mkSession (se_channels s) p :: l2 ->
  listed (se_phase s) = false -> listed p = true -> w_shutdown w' = shutdown_register (w_shutdown w) (se_incarnation s) activity -> streams_ok w'.
Proof.
  intros Hok El El' Hf Ht Es. pose proof Hok as [_ _ _ _ _ _ Hs Hsub Hall]. unfold streams_ok. rewrite Es. clear Es. unfold shutdown_register.
  assert (Hsub' : sd_streams (w_shutdown w) ⊆ se_incarnation <$> those listed (w_sessions w')).
  { intros i Hi. apply Hsub in Hi. rewrite El, elem_of_middle, Hf in Hi. rewrite El', elem_of_middle. left. by destruct Hi as [Hi|[? _]]. }
  assert (Hnew : se_incarnation s ∉ sd_streams (w_shutdown w)).
  { intros (t & Et & [Ht' Hin]%elem_of_those)%Hsub%list_elem_of_fmap. assert (Hs' : s ∈ w_sessions w) by (rewrite El; set_solver).
    rewrite (incarnations_unique w s t Hok Hs' Hin Et) in Hf. congruence. }
  cbn [set_activity sd_active]. destruct (sd_active (w_shutdown w)) eqn:Ea; cbn [set_activity set_streams sd_streams sd_active]; [by split_and!; rewrite ?Ea|].
  split_and!.
  - apply NoDup_app. split_and!; [done| |apply NoDup_singleton]. by intros x Hx ->%list_elem_of_singleton.
  - apply list_subseteq_app_iff_l. split; [done|]. intros x ->%list_elem_of_singleton. rewrite El', elem_of_middle. right. by rewrite <- Ht.
  - intros _ x. rewrite El', elem_of_middle, elem_of_app, list_elem_of_singleton. intros [Hx|[_ ->]]; [left|by right]. apply (Hall eq_refl).
    rewrite El, elem_of_middle. by left.
Qed.
Lemma leaving_streams w w' s p l1 l2 :
  sessions_ok w -> w_sessions w = l1 ++ s :: l2 -> w_sessions w' = l1 ++ mkSession (se_channels s) p :: l2 ->
  listed (se_phase s) = true -> listed p = false -> w_shutdown w' = shutdown_unregister (w_shutdown w) (se_incarnation s) -> streams_ok w'.
Proof.
  intros Hok El El' Ht Hf Es. pose proof Hok as [_ _ _ _ _ _ Hs Hsub Hall]. unfold streams_ok. rewrite Es. clear Es. unfold shutdown_unregister.
  cbn [set_streams sd_streams sd_active]. split_and!.
  - by apply NoDup_filter.
  - intros i [Hne Hi]%list_elem_of_filter. apply Hsub in Hi. rewrite El, elem_of_middle in Hi. rewrite El', elem_of_middle. left.
    by destruct Hi as [Hi|[_ ->]].
  - intros Ha i. rewrite El', elem_of_middle, list_elem_of_filter. cbn [se_phase]. rewrite Hf. intros [Hi|[? _]]; [|done]. split.
    + intros ->. rewrite those_app, fmap_app in Hi. assert (Hs' : s ∈ w_sessions w) by (rewrite El; set_solver).
      rewrite <- fmap_app, <- those_app in Hi. apply list_elem_of_fmap in Hi as (t & Et & [_ Hin]%elem_of_those).
      assert (Ht' : t ∈ w_sessions w) by (rewrite El; set_solver). pose proof (incarnations_unique w s t Hok Hs' Ht' Et) as ->.
      destruct Hok as [_ _ Hd _ _ _ _ _ _]. rewrite El, fmap_middle in Hd. assert (Hh : holding (se_phase t) = true) by (by destruct (se_phase t)).
      rewrite Hh in Hd. cbn [app] in Hd. rewrite <- Permutation_middle in Hd. apply NoDup_cons in Hd as [Hd _]. apply Hd.
      rewrite <- fmap_app, <- those_app. apply (list_elem_of_fmap_2 (fun u => wc_id (se_channels u))), elem_of_those. split; [done|].
      by apply elem_of_app in Hin as [?|?]; apply elem_of_app; [left|right].
    + apply (Hall Ha). rewrite El, elem_of_middle. by left.
Qed.
Lemma requester_keeps c t yes c' t' sent : requester_step c t yes = Some (c', t', sent) ->
  sd_streams c' = sd_streams c /\ (sd_active c' = false -> sd_active c = false).
Proof.
  unfold requester_step, elect, shutdown_complete, complete_now. destruct t as [|w| |[|s todo]|s todo|todo|w todo| |]; cbn; try (intros [= <- <- <-]; done); try done.
  - destruct (sd_active c) eqn:Ea; intros [= <- <- <-]; by rewrite ?Ea.
  - by destruct (wait_step c w yes); cbn; [intros [= <- <- <-]|].
  - by destruct (wait_step c w yes); cbn; [intros [= <- <- <-]|].
  - destruct (sd_completed c); by intros [= <- <- <-].
Qed.

(** Splits a step into the facts about the fields it changes. *)
Ltac move_case Hok El Ei Ep :=
  eapply (move_ok _ _ _ _ _ _ Hok El);
  [ cbn; apply Ei | done | rewrite Ep; cbn; lia | rewrite Ep; cbn; lia | by rewrite Ep
  | first [eapply (quiet_registry _ _ _ _ _ _ El); [cbn; apply Ei | done | by rewrite Ep] | idtac]
  | first [eapply (quiet_streams _ _ _ _ _ _ Hok El); [cbn; apply Ei | cbn; try done | cbn; try done | by rewrite Ep] | idtac] ].
Lemma session_step_ok w n s x w' p :
  sessions_ok w -> w_sessions w !! n = Some s -> session_step w s x = Some (w', p) -> sessions_ok (set_phase n s p w').
Proof.
  intros Hok Hn Hs. destruct (session_split _ _ _ Hn) as (l1 & l2 & El & Ei). unfold session_step in Hs. destruct (se_phase s) as [|a| | | | |t| | | | |] eqn:Ep.
  - destruct (is_yes x); injection Hs as <- <-; move_case Hok El Ei Ep.
  - injection Hs as <- <-. move_case Hok El Ei Ep. eapply (listing_streams _ _ _ _ _ _ a Hok El); [cbn; apply Ei|by rewrite Ep|done|done].
  - injection Hs as <- <-. move_case Hok El Ei Ep. intros Hreg. cbn [set_phase w_sessions w_dispatcher set_sessions on_dispatcher]. rewrite Ei. eapply (register_ok w s _ _ _ _ Hok El); [..|done|exact Hreg]; by rewrite ?Ep.
  - injection Hs as <- <-. move_case Hok El Ei Ep.
  - injection Hs as <- <-. move_case Hok El Ei Ep.
  - destruct (is_yes x); injection Hs as <- <-; move_case Hok El Ei Ep.
  - assert (Hstop : Some (w, PEnding) = Some (w', p) -> sessions_ok (set_phase n s p w')).
    { intros [= <- <-]. move_case Hok El Ei Ep. }
    assert (Hgo : (fun r => (add_sent r.2 (on_shutdown (fun _ => r.1.1) w), PDisconnecting r.1.2)) <$> requester_step (w_shutdown w) t (is_yes x) = Some (w', p) ->
                  sessions_ok (set_phase n s p w')).
    { destruct (requester_step _ _ _) as [[[c t'] sent]|] eqn:Er; [|done]. intros [= <- <-]. apply requester_keeps in Er as [Er1 Er2]. move_case Hok El Ei Ep. }
    destruct t, x; auto.
  - injection Hs as <- <-. unfold drop_active. destruct (_ =? _); move_case Hok El Ei Ep.
  - injection Hs as <- <-. move_case Hok El Ei Ep. intros Hreg. cbn [set_phase w_sessions w_dispatcher set_sessions on_dispatcher]. rewrite Ei. eapply (unregister_ok w s _ _ _ _ Hok El); [..|done|exact Hreg]; by rewrite ?Ep.
  - injection Hs as <- <-. move_case Hok El Ei Ep. eapply (leaving_streams _ _ _ _ _ _ Hok El); [cbn; apply Ei|by rewrite Ep|done|done].
  - injection Hs as <- <-. move_case Hok El Ei Ep.
  - done.
Qed.

Lemma same_streams_ok w w' :
  sessions_ok w -> w_sessions w' = w_sessions w -> w_next_incarnation w' = w_next_incarnation w -> w_relays w' = w_relays w ->
  w_active_connections w' = w_active_connections w -> w_dispatcher w' = w_dispatcher w -> sd_streams (w_shutdown w') = sd_streams (w_shutdown w) ->
  sd_active (w_shutdown w') = sd_active (w_shutdown w) -> sessions_ok w'.
Proof. intros [] E1 E2 E3 E4 E5 E6 E7. split; rewrite ?E1, ?E2, ?E3, ?E4, ?E5, ?E6, ?E7; auto. Qed.
Lemma observe_keeps c response taken c' : observe_control_response c response = (taken, c') ->
  sd_streams c' = sd_streams c /\ sd_active c' = sd_active c.
Proof. unfold observe_control_response. destruct (_ && _); [by intros [= <- <-]|]. destruct (_ || _); by intros [= <- <-]. Qed.
Lemma world_step_ok w w' : world_step w w' -> sessions_ok w -> len (w_sessions w') + 1 < 2 ^ 64 -> sessions_ok w'.
Proof.
  intros Hstep Hok Hlen. destruct Hstep as [id path q1 q2 q3 w Hid|n s x w w' p Hn Hs|response taken c w Hr|i a c w Ha|i a before after w Hm].
  - apply start_ok; [done| |done]. cbn in Hlen. unfold len in *. rewrite length_app in Hlen. cbn in Hlen. lia.
  - by eapply session_step_ok.
  - apply observe_keeps in Hr as [Hr1 Hr2]. eapply same_streams_ok; [exact Hok|done..|exact Hr1|exact Hr2].
  - injection Ha as <- <-. by eapply same_streams_ok.
  - by eapply same_streams_ok.
Qed.
Lemma session_step_sessions w s x w' p : session_step w s x = Some (w', p) -> w_sessions w' = w_sessions w.
Proof.
  unfold session_step. destruct (se_phase s) as [|a| | | | |t| | | | |]; try (by intros [= <- <-]); try done.
  - destruct (is_yes x); by intros [= <- <-].
  - assert (Hgo : forall r, (fun r : ShutdownCoordinator * Requester * list Z => (add_sent r.2 (on_shutdown (fun _ => r.1.1) w), PDisconnecting r.1.2)) <$> r = Some (w', p) -> w_sessions w' = w_sessions w)
      by (intros [r|]; [by intros [= <- <-]|done]).
    destruct t, x; try (by intros [= <- <-]); apply Hgo.
  - unfold drop_active. destruct (_ =? _); by intros [= <- <-].
Qed.
Lemma world_step_grows w w' : world_step w w' -> len (w_sessions w) <= len (w_sessions w').
Proof.
  intros [id path q1 q2 q3 v Hid|n s x v v' p Hn Hs|response taken c v Hr|i a c v Ha|i a before after v Hm]; cbn; try lia.
  - unfold len. rewrite length_app. cbn. lia.
  - rewrite (session_step_sessions _ _ _ _ _ Hs). unfold len. rewrite length_insert. lia.
Qed.
Lemma reachable_ok (P : World -> Prop) w0 w :
  P w0 -> sessions_ok w0 ->
  (forall v v', world_step v v' -> sessions_ok v -> sessions_ok v' -> P v -> P v') -> rtc world_step w0 w -> len (w_sessions w) + 1 < 2 ^ 64 ->
  sessions_ok w /\ P w.
Proof.
  intros HP Hok Hstep Hreach. revert HP Hok. induction Hreach as [w|w v u Hs Hreach IH]; intros HP Hok Hlen; [done|].
  assert (Hv : len (w_sessions v) <= len (w_sessions u)) by (clear -Hreach; induction Hreach as [|a b c H _ IH]; [lia|apply world_step_grows in H; lia]).
  pose proof (world_step_ok _ _ Hs Hok ltac:(lia)) as Hok'. apply IH; [|done|done]. by eapply Hstep.
Qed.

(** C9. Whatever sessions start, run, disconnect, fail or are aborted, in whatever order their operations interleave: the dispatcher
    lists exactly the workers of the sessions between their registration and their end, each id once; the gauge of connections
    and the relays held count the sessions that have them; and until a disconnect is requested its coordinator knows exactly the
    streams of the registered sessions, afterwards no others.  When every session has ended nothing is left. *)
Theorem sessions_leave_nothing latency priority bulk w :
  rtc world_step (World_new (mkDispatcher [] latency priority bulk)) w -> len (w_sessions w) + 1 < 2 ^ 64 ->
  dp_workers (w_dispatcher w) ≡ₚ se_channels <$> those registered (w_sessions w) /\ NoDup (wc_id <$> dp_workers (w_dispatcher w)) /\
  w_active_connections w = len (those connected (w_sessions w)) /\ w_relays w = len (those holding (w_sessions w)) /\
  NoDup (sd_streams (w_shutdown w)) /\ sd_streams (w_shutdown w) ⊆ se_incarnation <$> those listed (w_sessions w) /\
  (sd_active (w_shutdown w) = false -> sd_streams (w_shutdown w) ≡ₚ se_incarnation <$> those listed (w_sessions w)) /\
  ((forall s, s ∈ w_sessions w -> se_phase s = PDone) ->
   dp_workers (w_dispatcher w) = [] /\ w_active_connections w = 0 /\ w_relays w = 0 /\ sd_streams (w_shutdown w) = []).
Proof.
  intros Hreach Hlen. destruct (reachable_ok (fun _ => True) _ w I (world_new_ok latency priority bulk) ltac:(done) Hreach Hlen) as [Hok _].
  pose proof Hok as [Hi Hn Hd Hr Ha Hw Hs Hsub Hall].
  assert (Hempty : forall P, P PDone = false -> (forall s, s ∈ w_sessions w -> se_phase s = PDone) -> those P (w_sessions w) = []).
  { intros P HP Hdone. apply elem_of_nil_inv. intros s [Hps Hin]%elem_of_those. by rewrite (Hdone s Hin), HP in Hps. }
  split; [done|]. split; [|split_and!; try done].
  - rewrite Hw, <- list_fmap_compose. eapply sublist_NoDup; [exact Hd|]. apply fmap_sublist, those_sub, registered_holding.
  - intros Hact. apply NoDup_Permutation; [done| |intros i; split; [apply Hsub|by apply Hall]]. apply NoDup_fmap_2_strong.
    + intros s t [_ Hins]%elem_of_those [_ Hint]%elem_of_those. by apply (incarnations_unique w).
    + unfold those. apply NoDup_filter. apply NoDup_fmap_1 with (f := se_incarnation). apply NoDup_alt. intros i j x.
      rewrite !list_lookup_fmap. intros (s & Es & ->)%fmap_Some (t & Et & E)%fmap_Some. rewrite (Hi i s Es), (Hi j t Et) in E. lia.
  - intros Hdone. rewrite Ha, Hr, !Hempty by done. split_and!; try done.
    + apply Permutation_nil. by rewrite Hw, Hempty.
    + rewrite Hempty in Hsub by done. by apply list_nil_subseteq.
Qed.

(** ** One disconnect *)

(** The part of [request_disconnect] behind the election. *)
Definition leads (t : Requester) : bool := match t with RqSnapshot | RqNext _ | RqSend _ _ | RqReply _ | RqAck _ _ | RqComplete => true | _ => false end.
Definition leading (p : Phase) : bool := match p with PDisconnecting t => leads t | _ => false end.
Definition waiting_of (p : Phase) : option Wait :=
  match p with PDisconnecting (RqFollow v) | PDisconnecting (RqAck v _) => Some v | _ => None end.
(** A waiter that sleeps has not missed the notification. *)
Definition wait_ok (notified : nat) (v : Wait) : Prop :=
  match v with WCheck seen => (seen <= notified)%nat | WSleep seen => seen = 0%nat | _ => True end.
Definition known (w : World) (i : Z) : Prop := i ∈ se_incarnation <$> w_sessions w.
(** The streams tried so far and those still to try are different, at most two, and streams of sessions. *)
Definition attempts_ok (w : World) (l : list Z) : Prop := NoDup l /\ (length l <= DISCONNECT_CONTROL_ATTEMPTS)%nat /\ Forall (known w) l.
Definition leader_ok (w : World) (t : Requester) : Prop :=
  match t with
  | RqSnapshot => w_sent w = []
  | RqNext todo | RqReply todo | RqAck _ todo => attempts_ok w (w_sent w ++ todo)
  | RqSend stream todo => attempts_ok w (w_sent w ++ stream :: todo)
  | _ => True
  end.
Record disconnect_ok (w : World) : Prop := {
  do_completed : sd_completed (w_shutdown w) = true -> sd_active (w_shutdown w) = true;
  do_notified : sd_notified (w_shutdown w) = if sd_completed (w_shutdown w) then 1%nat else 0%nat;
  do_answers : (w_answers w <= sd_notified (w_shutdown w))%nat;
  do_sent : attempts_ok w (w_sent w);
  do_leaders : (length (those leading (w_sessions w)) <= 1)%nat;
  do_plan : forall s t, s ∈ w_sessions w -> se_phase s = PDisconnecting t -> leader_ok w t;
  do_waits : forall s v, s ∈ w_sessions w -> waiting_of (se_phase s) = Some v -> wait_ok (sd_notified (w_shutdown w)) v;
  do_idle : sd_active (w_shutdown w) = false -> those leading (w_sessions w) = [] /\ w_sent w = [];
}.

Lemma known_eq w w' i : se_incarnation <$> w_sessions w' = se_incarnation <$> w_sessions w -> known w i <-> known w' i.
Proof. unfold known. by intros ->. Qed.
Lemma attempts_mono w w' l : (forall i, known w i -> known w' i) -> attempts_ok w l -> attempts_ok w' l.
Proof. intros H (H1 & H2 & H3). split_and!; [done|done|]. eapply Forall_impl; [exact H3|done]. Qed.
Lemma leader_mono w w' t : (forall i, known w i -> known w' i) -> w_sent w' = w_sent w -> leader_ok w t -> leader_ok w' t.
Proof. intros Hk Es. unfold leader_ok. rewrite Es. destruct t; try done; by apply attempts_mono. Qed.
Lemma attempts_prefix w l k : attempts_ok w (l ++ k) -> attempts_ok w l.
Proof.
  intros (H1%NoDup_app & H2 & H3%Forall_app). rewrite length_app in H2. split_and!; [tauto|lia|tauto].
Qed.
Lemma attempts_skip w l s k : attempts_ok w (l ++ s :: k) -> attempts_ok w (l ++ k).
Proof.
  intros (H1 & H2 & H3%Forall_app). rewrite length_app in H2. cbn in H2. split_and!.
  - rewrite <- Permutation_middle in H1. by apply NoDup_cons in H1 as [_ H1].
  - rewrite length_app. lia.
  - destruct H3 as [H3 H4]. apply Forall_cons in H4 as [_ H4]. by apply Forall_app.
Qed.
(** Each stream of the coordinator once. *)
Lemma control_streams_perm c : control_streams c ≡ₚ sd_streams c.
Proof.
  unfold control_streams. rewrite merge_sort_Permutation, <- list_fmap_compose. induction (sd_streams c) as [|i l IH]; [done|]. cbn. by rewrite IH.
Qed.
Lemma snapshot_attempts w : sessions_ok w -> attempts_ok w (take DISCONNECT_CONTROL_ATTEMPTS (control_streams (w_shutdown w))).
Proof.
  intros [_ _ _ _ _ _ Hs Hsub _]. split_and!.
  - eapply sublist_NoDup; [|apply sublist_take]. by rewrite control_streams_perm.
  - rewrite length_take. lia.
  - apply Forall_forall. intros i Hi. assert (Hin : i ∈ sd_streams (w_shutdown w)).
    { rewrite <- control_streams_perm. eapply sublist_subseteq; [apply sublist_take|exact Hi]. }
    apply Hsub in Hin. apply list_elem_of_fmap in Hin as (s & -> & [_ Hs']%elem_of_those). by apply list_elem_of_fmap_2.
Qed.

(** The wait of a task that moves. *)
Lemma wait_step_ok c v yes v' : wait_ok (sd_notified c) v -> (sd_completed c = false -> sd_notified c = 0%nat) ->
  wait_step c v yes = Some (inl v') -> wait_ok (sd_notified c) v'.
Proof.
  intros Hv Hc. destruct v as [|seen|seen|]; cbn [wait_step wait_ok] in *; try (by intros [= <-]).
  - intros [= <-]. cbn. lia.
  - destruct (sd_completed c); [done|]. intros [= <-]. cbn. specialize (Hc eq_refl). lia.
  - destruct (seen <? sd_notified c)%nat; [by intros [= <-]|]. destruct yes; [by intros [= <-]|done].
Qed.

Lemma not_leading w t : leads t = false -> leader_ok w t.
Proof. by destruct t. Qed.
Lemma alone l1 s l2 u : (length (those leading (l1 ++ s :: l2)) <= 1)%nat -> leading (se_phase s) = true -> u ∈ l1 ++ l2 -> leading (se_phase u) = false.
Proof.
  intros Hl Hs Hu. destruct (leading (se_phase u)) eqn:E; [|done]. exfalso. rewrite those_middle, Hs in Hl. cbn [app] in Hl. rewrite <- Permutation_middle in Hl. cbn [length] in Hl.

  assert (H : u ∈ those leading l1 ++ those leading l2) by (rewrite <- those_app; by apply elem_of_those).
  destruct (those leading l1 ++ those leading l2); [by apply elem_of_nil in H|]. cbn in Hl. lia.
Qed.
Lemma disconnect_move w w' s p l1 l2 :
  disconnect_ok w -> w_sessions w = l1 ++ s :: l2 -> w_sessions w' = l1 ++ mkSession (se_channels s) p :: l2 ->
  (sd_completed (w_shutdown w') = true -> sd_active (w_shutdown w') = true) ->
  sd_notified (w_shutdown w') = (if sd_completed (w_shutdown w') then 1%nat else 0%nat) ->
  (sd_notified (w_shutdown w) <= sd_notified (w_shutdown w'))%nat -> w_answers w' = w_answers w ->
  (sd_active (w_shutdown w') = false -> sd_active (w_shutdown w) = false) ->
  (w_sent w' = w_sent w \/ leading (se_phase s) = true /\ attempts_ok w (w_sent w')) ->
  (leading p = true -> leading (se_phase s) = true \/ sd_active (w_shutdown w) = false /\ sd_active (w_shutdown w') = true) ->
  (forall t, p = PDisconnecting t -> leader_ok w' t) -> (forall v, waiting_of p = Some v -> wait_ok (sd_notified (w_shutdown w')) v) -> disconnect_ok w'.
Proof.
  intros [Hc Hn Ha Hsent Hl Hp Hw Hi] El El' Hc' Hn' Hmono Ha' Hact Hs Hlead Hplan Hwait.
  assert (Hk : forall i, known w i -> known w' i) by (intros i; apply known_eq; by rewrite El, El', !fmap_app).
  assert (Hidle : leading (se_phase s) = true -> sd_active (w_shutdown w) = true).
  { intros E. destruct (sd_active (w_shutdown w)); [done|]. destruct (Hi eq_refl) as [Hnil _]. assert (Hin : s ∈ those leading (w_sessions w))
      by (apply elem_of_those; split; [done|rewrite El; set_solver]). rewrite Hnil in Hin. by apply elem_of_nil in Hin. }
  split; try done.
  - lia.
  - destruct Hs as [->|[_ Hs]]; by eapply attempts_mono.
  - rewrite El, those_middle, !length_app in Hl. rewrite El', those_middle, !length_app. cbn [se_phase].
    destruct (leading p) eqn:E; [|destruct (leading (se_phase s)); cbn in *; lia]. destruct (Hlead eq_refl) as [E'|[E' _]]; [rewrite E' in Hl; cbn in *; lia|].
    destruct (Hi E') as [Hnil _]. rewrite El, those_middle in Hnil. apply app_nil in Hnil as [-> Hnil]. apply app_nil in Hnil as [_ ->]. cbn. lia.
  - intros u t. rewrite El', elem_of_app, elem_of_cons. intros [Hu|[->|Hu]] Et; [|by apply Hplan|].
    all: assert (Hu' : u ∈ l1 ++ l2) by (apply elem_of_app; tauto); assert (Hin : u ∈ w_sessions w) by (rewrite El; set_solver).
    all: destruct Hs as [Hs|[Hs _]]; [by eapply leader_mono; [..|apply (Hp u t)]|].
    all: apply not_leading; rewrite El in Hl; pose proof (alone _ _ _ _ Hl Hs Hu') as H; by rewrite Et in H.
  - intros u v. rewrite El', elem_of_app, elem_of_cons. intros [Hu|[->|Hu]] Ev; [|by apply Hwait|].
    all: assert (Hin : u ∈ w_sessions w) by (rewrite El; set_solver); pose proof (Hw u v Hin Ev) as H; destruct v; cbn in *; lia || done.
  - intros Hf. pose proof (Hact Hf) as Hf'. destruct (Hi Hf') as [Hnil Hes]. assert (E : leading (se_phase s) = false).
    { destruct (leading (se_phase s)); [|done]. by rewrite Hidle in Hf'. }
    assert (E' : leading p = false). { destruct (leading p); [|done]. destruct (Hlead eq_refl) as [?|[_ ?]]; congruence. }
    rewrite El, those_middle in Hnil. apply app_nil in Hnil as [Hn1 Hnil]. apply app_nil in Hnil as [_ Hn2].
    rewrite El', those_middle, Hn1, Hn2. cbn [se_phase]. rewrite E'. split; [done|]. destruct Hs as [->|[Hs _]]; [done|congruence].
Qed.

(** A task that only waits or decides. *)
Lemma stay_ok w n s t t' :
  disconnect_ok w -> w_sessions w !! n = Some s -> se_phase s = PDisconnecting t ->
  (leads t' = true -> leads t = true) -> leader_ok w t' -> (forall v, waiting_of (PDisconnecting t') = Some v -> wait_ok (sd_notified (w_shutdown w)) v) ->
  disconnect_ok (set_phase n s (PDisconnecting t') (add_sent [] (on_shutdown (fun _ => w_shutdown w) w))).
Proof.
  intros Hok Hn Ep Hl Hplan Hwait. destruct (session_split _ _ _ Hn) as (l1 & l2 & El & Ei). pose proof Hok as [Hc Hnot Ha Hsent _ _ _ _].
  assert (E : w_sent w ++ [] = w_sent w) by apply app_nil_r.
  eapply (disconnect_move w _ s _ l1 l2 Hok El); cbn; rewrite ?Ep; try done; try apply Ei.
  - by left.
  - intros H. left. by apply Hl.
  - intros u [= <-]. eapply leader_mono; [|exact E|exact Hplan]. intros i. apply known_eq. cbn. rewrite Ei, El, !fmap_app. done.
Qed.
Lemma known_phase w n s p i : w_sessions w !! n = Some s -> known (set_phase n s p w) i <-> known w i.
Proof. intros Hn. destruct (session_split _ _ _ Hn) as (l1 & l2 & El & Ei). unfold known. cbn. rewrite Ei, El, !fmap_app. done. Qed.
Lemma elect_ok w n s leader c :
  disconnect_ok w -> w_sessions w !! n = Some s -> se_phase s = PDisconnecting RqStart -> elect (w_shutdown w) = (leader, c) ->
  disconnect_ok (set_phase n s (PDisconnecting (if leader : bool then RqSnapshot else RqFollow WCreate)) (add_sent [] (on_shutdown (fun _ => c) w))).
Proof.
  intros Hok Hn Ep He. unfold elect in He. destruct (sd_active (w_shutdown w)) eqn:Ea; injection He as <- <-.
  { apply stay_ok with (t := RqStart); try done. by intros v [= <-]. }
  destruct (session_split _ _ _ Hn) as (l1 & l2 & El & Ei). pose proof Hok as [Hc Hnot Ha Hsent _ _ _ Hi]. destruct (Hi Ea) as [_ Hes].
  assert (Ec : sd_completed (w_shutdown w) = false) by (destruct (sd_completed _); [by rewrite Hc in Ea|done]). rewrite Ec in Hnot.
  eapply (disconnect_move w _ s _ l1 l2 Hok El); cbn; rewrite ?Ep, ?Hnot; try done; try apply Ei; try lia.
  - left. apply app_nil_r.
  - by right.
  - intros u [= <-]. cbn. by rewrite Hes.
Qed.
Lemma send_ok w n s stream todo yes :
  disconnect_ok w -> w_sessions w !! n = Some s -> se_phase s = PDisconnecting (RqSend stream todo) ->
  disconnect_ok (set_phase n s (PDisconnecting (if yes : bool then RqReply todo else RqNext todo))
                   (add_sent (if yes then [stream] else []) (on_shutdown (fun _ => w_shutdown w) w))).
Proof.
  intros Hok Hn Ep. assert (Hs : s ∈ w_sessions w) by (by eapply list_elem_of_lookup_2). pose proof (do_plan w Hok s _ Hs Ep) as Hplan. cbn in Hplan.
  destruct yes; [|apply stay_ok with (t := RqSend stream todo); try done; by apply attempts_skip in Hplan].
  destruct (session_split _ _ _ Hn) as (l1 & l2 & El & Ei). pose proof Hok as [Hc Hnot Ha Hsent _ _ _ Hi]. rewrite cons_middle, app_assoc in Hplan.
  eapply (disconnect_move w _ s _ l1 l2 Hok El); cbn; rewrite ?Ep; try done; try apply Ei.
  - right. split; [done|]. by eapply attempts_prefix.
  - by left.
  - intros u [= <-]. cbn. eapply attempts_mono; [|exact Hplan]. intros i Hi'. by apply known_phase.
Qed.
Lemma complete_ok w n s :
  disconnect_ok w -> w_sessions w !! n = Some s -> se_phase s = PDisconnecting RqComplete ->
  disconnect_ok (set_phase n s (PDisconnecting RqDone) (add_sent [] (on_shutdown (fun _ => shutdown_complete (w_shutdown w)) w))).
Proof.
  intros Hok Hn Ep. destruct (session_split _ _ _ Hn) as (l1 & l2 & El & Ei). pose proof Hok as [Hc Hnot Ha Hsent _ _ _ Hi].
  assert (Hact : sd_active (w_shutdown w) = true).
  { destruct (sd_active (w_shutdown w)); [done|]. destruct (Hi eq_refl) as [Hnil _]. assert (Hin : s ∈ those leading (w_sessions w))
      by (apply elem_of_those; rewrite Ep; split; [done|by eapply list_elem_of_lookup_2]). rewrite Hnil in Hin. by apply elem_of_nil in Hin. }
  unfold shutdown_complete, complete_now. destruct (sd_completed (w_shutdown w)) eqn:Ec.
  - apply stay_ok with (t := RqComplete); done.
  - eapply (disconnect_move w _ s _ l1 l2 Hok El); cbn; rewrite ?Ep, ?Hnot; try done; try apply Ei; try lia; [left; apply app_nil_r|].
    intros u [= <-]. done.
Qed.
Lemma requester_ok w n s t yes c t' sent :
  sessions_ok w -> disconnect_ok w -> w_sessions w !! n = Some s -> se_phase s = PDisconnecting t ->
  requester_step (w_shutdown w) t yes = Some (c, t', sent) ->
  disconnect_ok (set_phase n s (PDisconnecting t') (add_sent sent (on_shutdown (fun _ => c) w))).
Proof.
  intros Hso Hok Hn Ep. assert (Hs : s ∈ w_sessions w) by (by eapply list_elem_of_lookup_2). pose proof (do_plan w Hok s _ Hs Ep) as Hplan.
  assert (Hidle : sd_completed (w_shutdown w) = false -> sd_notified (w_shutdown w) = 0%nat) by (intros E; by rewrite (do_notified w Hok), E).
  destruct t as [|v| |[|stream todo]|stream todo|todo|v todo| |]; cbn [requester_step].
  - destruct (elect (w_shutdown w)) as [leader c0] eqn:He. intros [= <- <- <-]. by eapply elect_ok.
  - destruct (wait_step _ v yes) as [[v'|b]|] eqn:Ew; cbn [fmap option_fmap option_map]; [..|done]; intros [= <- <- <-]; apply stay_ok with (t := RqFollow v); try done.
    intros u [= <-]. eapply wait_step_ok; [..|exact Ew]; [|done]. apply (do_waits w Hok s); [done|by rewrite Ep].
  - intros [= <- <- <-]. cbn in Hplan. apply stay_ok with (t := RqSnapshot); try done. cbn [leader_ok]. rewrite Hplan. by apply snapshot_attempts.
  - intros [= <- <- <-]. apply stay_ok with (t := RqNext []); done.
  - destruct (sd_completed (w_shutdown w)); intros [= <- <- <-]; apply stay_ok with (t := RqNext (stream :: todo)); done.
  - intros H. assert (H' : (c, t', sent) = (w_shutdown w, if yes then RqReply todo else RqNext todo, if yes then [stream] else [])) by (injection H as <- <- <-; done).
    injection H' as -> -> ->. by apply send_ok with (stream := stream).
  - destruct yes; intros [= <- <- <-]; apply stay_ok with (t := RqReply todo); try done. by intros v [= <-].
  - destruct (wait_step _ v yes) as [[v'|[]]|] eqn:Ew; cbn [fmap option_fmap option_map]; [..|done]; intros [= <- <- <-]; apply stay_ok with (t := RqAck v todo); try done.
    intros u [= <-]. eapply wait_step_ok; [..|exact Ew]; [|done]. apply (do_waits w Hok s); [done|by rewrite Ep].
  - intros [= <- <- <-]. by apply complete_ok.
  - done.
Qed.
(** The steps that are not part of a disconnect. *)
Lemma other_move_ok w w' n s p :
  disconnect_ok w -> w_sessions w !! n = Some s -> leading p = false -> waiting_of p = None -> (forall t, p = PDisconnecting t -> leads t = false) ->
  w_sessions w' = w_sessions w -> sd_completed (w_shutdown w') = sd_completed (w_shutdown w) -> sd_active (w_shutdown w') = sd_active (w_shutdown w) ->
  sd_notified (w_shutdown w') = sd_notified (w_shutdown w) -> w_answers w' = w_answers w -> w_sent w' = w_sent w -> disconnect_ok (set_phase n s p w').
Proof.
  intros Hok Hn Hl Hw Hp E1 E2 E3 E4 E5 E6. destruct (session_split _ _ _ Hn) as (l1 & l2 & El & Ei). pose proof Hok as [Hc Hnot Ha Hsent _ _ _ Hi].
  eapply (disconnect_move w _ s _ l1 l2 Hok El); cbn; rewrite ?E1, ?E2, ?E3, ?E4, ?E5, ?E6; try done; try apply Ei.
  - by left.
  - by rewrite Hl.
  - intros t Ht. by apply not_leading, Hp.
  - by rewrite Hw.
Qed.
Lemma session_disconnect_ok w n s x w' p :
  sessions_ok w -> disconnect_ok w -> w_sessions w !! n = Some s -> session_step w s x = Some (w', p) -> disconnect_ok (set_phase n s p w').
Proof.
  intros Hso Hok Hn Hs. pose proof (session_step_sessions _ _ _ _ _ Hs) as E1. unfold session_step in Hs.
  destruct (se_phase s) as [|a| | | | |t| | | | |] eqn:Ep; try (injection Hs as <- <-; by apply other_move_ok with (w := w)); try done.
  - destruct (is_yes x); injection Hs as <- <-; by apply other_move_ok with (w := w).
  - injection Hs as <- <-. apply other_move_ok with (w := w); try done; cbn; unfold shutdown_register; cbn; destruct (sd_active (w_shutdown w)) eqn:Ea; cbn; congruence.
  - destruct (is_yes x); injection Hs as <- <-; apply other_move_ok with (w := w); try done. by intros t [= <-].
  - assert (Hstop : Some (w, PEnding) = Some (w', p) -> disconnect_ok (set_phase n s p w')) by (intros [= <- <-]; by apply other_move_ok with (w := w)).
    assert (Hgo : (fun r => (add_sent r.2 (on_shutdown (fun _ => r.1.1) w), PDisconnecting r.1.2)) <$> requester_step (w_shutdown w) t (is_yes x) = Some (w', p) ->
                  disconnect_ok (set_phase n s p w')).
    { destruct (requester_step _ _ _) as [[[c t'] sent]|] eqn:Er; [|done]. intros [= <- <-]. by eapply requester_ok. }
    destruct t, x; auto.
  - injection Hs as <- <-. unfold drop_active in *. destruct (_ =? _); by apply other_move_ok with (w := w).
Qed.
Lemma same_sessions_disconnect w w' :
  disconnect_ok w -> w_sessions w' = w_sessions w -> w_sent w' = w_sent w -> sd_active (w_shutdown w') = sd_active (w_shutdown w) ->
  (sd_completed (w_shutdown w') = true -> sd_active (w_shutdown w') = true) ->
  sd_notified (w_shutdown w') = (if sd_completed (w_shutdown w') then 1%nat else 0%nat) -> (sd_notified (w_shutdown w) <= sd_notified (w_shutdown w'))%nat ->
  (w_answers w' <= sd_notified (w_shutdown w'))%nat -> disconnect_ok w'.
Proof.
  intros [Hc Hn Ha Hsent Hl Hp Hw Hi] E1 E2 E3 Hc' Hn' Hm Ha'. assert (Hk : forall i, known w i -> known w' i) by (intros i; apply known_eq; by rewrite E1).
  split; rewrite ?E1, ?E2; try done; [..|by rewrite E3].
  - by eapply attempts_mono.
  - intros s t Hs Et. eapply leader_mono; [done..|]. by apply (Hp s).
  - intros s v Hs Ev. pose proof (Hw s v Hs Ev) as H. destruct v; cbn in *; lia || done.
Qed.
Lemma world_disconnect_ok w w' : world_step w w' -> sessions_ok w -> disconnect_ok w -> disconnect_ok w'.
Proof.
  intros Hstep Hso Hok. pose proof Hok as [Hc Hn Ha Hsent Hl Hp Hw Hi].
  destruct Hstep as [id path q1 q2 q3 w Hid|n s x w w' p Hn' Hs|response taken c w Hr|i a c w Hr|i a before after w Hm].
  - cbn in *. assert (Hk : forall i, known w i -> known (start_session id path q1 q2 q3 w) i) by (intros i; unfold known; cbn; rewrite fmap_app, elem_of_app; by left).
    split; cbn -[known those]; try done.
    + by eapply attempts_mono.
    + rewrite those_app, those_cons, length_app. cbn [se_phase leading app]. unfold those at 2. cbn [filter list_filter length]. lia.
    + intros s t [Hs|Hs]%elem_of_app Et; [|by apply list_elem_of_singleton in Hs as ->]. eapply leader_mono; [done..|by apply (Hp s)].
    + intros s v [Hs|Hs]%elem_of_app Ev; [by apply (Hw s)|by apply list_elem_of_singleton in Hs as ->].
    + intros E. rewrite those_app. destruct (Hi E) as [-> ->]. done.
  - by eapply session_disconnect_ok.
  - unfold observe_control_response in Hr. destruct (_ && _); [|destruct (negb (sd_active (w_shutdown w)) || sd_completed (w_shutdown w)) eqn:E]; injection Hr as <- <-.
    1, 2: apply (same_sessions_disconnect w); cbn; done || lia.
    bool_prop. apply (same_sessions_disconnect w); cbn; rewrite ?Hn; destruct (sd_completed (w_shutdown w)) eqn:Ec; try done; lia.
  - injection Hr as <- <-. by apply (same_sessions_disconnect w).
  - by apply (same_sessions_disconnect w).
Qed.
Lemma world_new_disconnect d : disconnect_ok (World_new d).
Proof.
  split; cbn; try done; try lia.
  - split_and!; [constructor|cbn; lia|constructor].
  - intros s t Hs. by apply elem_of_nil in Hs.
  - intros s v Hs. by apply elem_of_nil in Hs.
Qed.

(** C8. The client disconnects once.  However the sessions and the threads interleave, at most one of the tasks that were told to
    stop leads; its requests go to at most two streams, never twice to the same, and only to streams of sessions; at most one
    incoming response is taken for the answer; and no wake-up is lost: a task that waits is woken by the completion even if no
    time-out ever comes. *)
Theorem disconnect_requested_once latency priority bulk w :
  rtc world_step (World_new (mkDispatcher [] latency priority bulk)) w -> len (w_sessions w) + 1 < 2 ^ 64 ->
  (length (those leading (w_sessions w)) <= 1)%nat /\
  NoDup (w_sent w) /\ (length (w_sent w) <= 2)%nat /\ (forall i, i ∈ w_sent w -> exists s, s ∈ w_sessions w /\ se_incarnation s = i) /\
  (w_answers w <= 1)%nat /\ (sd_active (w_shutdown w) = false -> w_sent w = [] /\ w_answers w = 0%nat) /\
  (forall s v, s ∈ w_sessions w -> waiting_of (se_phase s) = Some v -> sd_completed (w_shutdown w) = true -> is_Some (wait_step (w_shutdown w) v false)).
Proof.
  intros Hreach Hlen. destruct (reachable_ok disconnect_ok _ w (world_new_disconnect _) (world_new_ok latency priority bulk)) as [Hso Hok]; [|done..|].
  { intros v v' Hs Hv _. by apply world_disconnect_ok. }
  destruct Hok as [Hc Hn Ha (Hs1 & Hs2 & Hs3) Hl Hp Hw Hi]. split_and!; try done.
  - intros i Hin. pose proof (proj1 (Forall_forall _ _) Hs3 i Hin) as (s & -> & Hs)%list_elem_of_fmap. by exists s.
  - destruct (sd_completed (w_shutdown w)); lia.
  - intros E. destruct (Hi E) as [_ ->]. split; [done|]. destruct (sd_completed (w_shutdown w)); [by rewrite Hc in E|lia].
  - intros s v Hs Ev E. pose proof (Hw s v Hs Ev) as Hv. rewrite E in Hn. destruct v as [|seen|seen|]; cbn in *; try (by eexists).
    rewrite Hv, Hn. by eexists.
Qed.

(** ** A session that disconnects ends *)

Definition wait_rank (notified : nat) (v : Wait) : nat :=
  match v with
  | WCreate => if (notified =? 0)%nat then 7 else 3
  | WCheck _ => if (notified =? 0)%nat then 6 else 2
  | WSleep _ => 5
  | WExpired => 1
  end.
Definition requester_rank (notified : nat) (t : Requester) : nat :=
  match t with
  | RqStart => 28 | RqFollow v => wait_rank notified v | RqSnapshot => 27
  | RqNext todo => 2 + 12 * length todo
  | RqSend _ todo => 11 + 12 * length todo
  | RqReply todo => 10 + 12 * length todo
  | RqAck v todo => 2 + 12 * length todo + wait_rank notified v
  | RqComplete => 1 | RqDone => 0
  end.
(** A bound on the operations a session has still before it. *)
Definition session_rank (w : World) (p : Phase) : nat :=
  match p with
  | PConfiguring => 39 | PRegistering _ => 38 | PListed => 37 | PRegistered => 36 | PAnnounced => 35 | PRunning => 34
  | PDisconnecting t => 5 + requester_rank (sd_notified (w_shutdown w)) t
  | PEnding => 4 | PLeaving => 3 | PDeparting => 2 | PReleasing => 1 | PDone => 0
  end.

Lemma wait_rank_bounds k v : (1 <= wait_rank k v <= 7)%nat.
Proof. destruct v; cbn; try lia; destruct (k =? 0)%nat; lia. Qed.
Lemma wait_rank_mono k k' v : (k <= k')%nat -> (wait_rank k' v <= wait_rank k v)%nat.
Proof. intros H. destruct v, k, k'; cbn; lia. Qed.
Lemma wait_rank_step c v yes v' : (sd_completed c = false -> sd_notified c = 0%nat) -> wait_step c v yes = Some (inl v') ->
  (wait_rank (sd_notified c) v' < wait_rank (sd_notified c) v)%nat.
Proof.
  intros Hc. destruct v as [|seen|seen|]; cbn [wait_step]; try done.
  - intros [= <-]. cbn [wait_rank]. destruct (_ =? _)%nat; lia.
  - destruct (sd_completed c); [done|]. intros [= <-]. rewrite (Hc eq_refl). cbn. lia.
  - destruct (Nat.ltb_spec seen (sd_notified c)) as [H|H]; [intros [= <-]; destruct (sd_notified c); cbn; lia|].
    destruct yes; [|done]. intros [= <-]. cbn. lia.
Qed.
Lemma requester_rank_step c t yes c' t' sent :
  (sd_completed c = false -> sd_notified c = 0%nat) -> requester_step c t yes = Some (c', t', sent) ->
  (requester_rank (sd_notified c') t' < requester_rank (sd_notified c) t)%nat /\ (sd_notified c <= sd_notified c')%nat.
Proof.
  intros Hc. destruct t as [|v| |[|stream todo]|stream todo|todo|v todo| |]; cbn [requester_step].
  - unfold elect. destruct (sd_active c); intros [= <- <- <-]; cbn [requester_rank wait_rank sd_notified]; [destruct (_ =? _)%nat|]; lia.
  - pose proof (wait_rank_bounds (sd_notified c) v). destruct (wait_step c v yes) as [[v'|b]|] eqn:Ew; cbn [fmap option_fmap option_map]; [..|done];
      intros [= <- <- <-]; cbn [requester_rank]; [apply wait_rank_step in Ew; [lia|done]|lia].
  - intros [= <- <- <-]. cbn [requester_rank]. rewrite length_take. unfold DISCONNECT_CONTROL_ATTEMPTS. lia.
  - intros [= <- <- <-]. cbn. lia.
  - destruct (sd_completed c); intros [= <- <- <-]; cbn [requester_rank length]; lia.
  - destruct yes; intros [= <- <- <-]; cbn [requester_rank]; lia.
  - pose proof (wait_rank_bounds (sd_notified c) WCreate). destruct yes; intros [= <- <- <-]; cbn [requester_rank]; lia.
  - pose proof (wait_rank_bounds (sd_notified c) v). destruct (wait_step c v yes) as [[v'|[]]|] eqn:Ew; cbn [fmap option_fmap option_map]; [..|done];
      intros [= <- <- <-]; cbn [requester_rank]; [apply wait_rank_step in Ew; [lia|done]|lia..].
  - intros [= <- <- <-]. unfold shutdown_complete, complete_now. destruct (sd_completed c); cbn; lia.
  - done.
Qed.
Lemma requester_rank_mono k k' t : (k <= k')%nat -> (requester_rank k' t <= requester_rank k t)%nat.
Proof. intros H. destruct t as [|v| | | | |v todo| |]; cbn; try lia; pose proof (wait_rank_mono k k' v H); lia. Qed.
Lemma session_rank_mono w w' p : (sd_notified (w_shutdown w) <= sd_notified (w_shutdown w'))%nat -> (session_rank w' p <= session_rank w p)%nat.
Proof. intros H. destruct p; cbn [session_rank]; try lia. pose proof (requester_rank_mono _ _ t H). lia. Qed.
Lemma session_rank_step w s x w' p : disconnect_ok w -> session_step w s x = Some (w', p) ->
  (session_rank w' p < session_rank w (se_phase s))%nat /\ (sd_notified (w_shutdown w) <= sd_notified (w_shutdown w'))%nat.
Proof.
  intros Hok Hs. unfold session_step in Hs. destruct (se_phase s) as [|a| | | | |t| | | | |] eqn:Ep; try (injection Hs as <- <-; cbn; lia); try done.
  - destruct (is_yes x); injection Hs as <- <-; cbn; lia.
  - injection Hs as <- <-. cbn. unfold shutdown_register. cbn. destruct (sd_active (w_shutdown w)); cbn; lia.
  - destruct (is_yes x); injection Hs as <- <-; cbn; lia.
  - assert (Hstop : Some (w, PEnding) = Some (w', p) ->
      (session_rank w' p < session_rank w (PDisconnecting t))%nat /\ (sd_notified (w_shutdown w) <= sd_notified (w_shutdown w'))%nat) by (intros [= <- <-]; cbn; lia).
    assert (Hgo : (fun r => (add_sent r.2 (on_shutdown (fun _ => r.1.1) w), PDisconnecting r.1.2)) <$> requester_step (w_shutdown w) t (is_yes x) = Some (w', p) ->
      (session_rank w' p < session_rank w (PDisconnecting t))%nat /\ (sd_notified (w_shutdown w) <= sd_notified (w_shutdown w'))%nat).
    { destruct (requester_step _ _ _) as [[[c t'] sent]|] eqn:Er; [|done]. intros [= <- <-]. cbn [session_rank w_shutdown add_sent on_shutdown fst snd].
      apply requester_rank_step in Er; [lia|]. intros E. by rewrite (do_notified w Hok), E. }
    destruct t, x; auto.
  - injection Hs as <- <-. unfold drop_active. destruct (_ =? _); cbn; lia.
Qed.
Lemma world_step_notified w w' : world_step w w' -> disconnect_ok w -> (sd_notified (w_shutdown w) <= sd_notified (w_shutdown w'))%nat.
Proof.
  intros [id path q1 q2 q3 v Hid|n s x v v' p Hn Hs|response taken c v Hr|i a c v Ha|i a before after v Hm] Hok; cbn; try lia.
  - by apply (session_rank_step v s x v' p).
  - unfold observe_control_response in Hr. destruct (_ && _); [|destruct (_ || _)]; injection Hr as <- <-; cbn; lia.
  - injection Ha as <- <-. cbn. lia.
Qed.
Lemma plan_rank w t : disconnect_ok w -> leader_ok w t -> (requester_rank (sd_notified (w_shutdown w)) t <= 34)%nat.
Proof.
  intros Hok. destruct t as [|v| |todo|stream todo|todo|v todo| |]; cbn [requester_rank leader_ok]; try lia.
  - pose proof (wait_rank_bounds (sd_notified (w_shutdown w)) v). lia.
  - intros (_ & H & _). rewrite length_app in H. unfold DISCONNECT_CONTROL_ATTEMPTS in H. lia.
  - intros (_ & H & _). rewrite length_app in H. cbn in H. unfold DISCONNECT_CONTROL_ATTEMPTS in H. lia.
  - intros (_ & H & _). rewrite length_app in H. unfold DISCONNECT_CONTROL_ATTEMPTS in H. lia.
  - intros (_ & H & _). rewrite length_app in H. unfold DISCONNECT_CONTROL_ATTEMPTS in H. pose proof (wait_rank_bounds (sd_notified (w_shutdown w)) v). lia.
Qed.

(** Told to stop, or past that. *)
Definition stopping (p : Phase) : bool :=
  match p with PDisconnecting _ | PEnding | PLeaving | PDeparting | PReleasing | PDone => true | _ => false end.
(** The session at [n] performs [k] operations while the others do what they like. *)
Inductive performs (n : nat) (w : World) : nat -> World -> Prop :=
| performs_nothing : performs n w 0 w
| performs_one k v s x v' p : performs n w k v -> w_sessions v !! n = Some s -> session_step v s x = Some (v', p) -> performs n w (S k) (set_phase n s p v')
| performs_others k v v' : performs n w k v -> world_step v v' -> w_sessions v' !! n = w_sessions v !! n -> performs n w k v'.
Lemma performs_reach n w k v : performs n w k v -> rtc world_step w v.
Proof.
  induction 1 as [|k v s x v' p _ IH Hn Hs|k v v' _ IH Hs _]; [constructor|..]; (eapply rtc_r; [exact IH|]); [by eapply ws_session|done].
Qed.
Lemma stopping_step w s x w' p : session_step w s x = Some (w', p) -> stopping (se_phase s) = true -> stopping p = true.
Proof.
  unfold session_step. destruct (se_phase s) as [|a| | | | |t| | | | |]; try done; try (by intros [= _ <-]).
  destruct t, x; try (by intros [= _ <-]); intros (r & _ & [= _ ->])%fmap_Some; done.
Qed.
Lemma stopping_rank w s : disconnect_ok w -> s ∈ w_sessions w -> stopping (se_phase s) = true -> (session_rank w (se_phase s) <= 39)%nat.
Proof.
  intros Hok Hs. pose proof (do_plan w Hok s) as Hp. destruct (se_phase s) as [| | | | | |t| | | | |]; try done; intros _; cbn [session_rank]; try lia.
  pose proof (plan_rank w t Hok (Hp t Hs eq_refl)). lia.
Qed.
Lemma stopping_moves w s : stopping (se_phase s) = true -> se_phase s <> PDone -> is_Some (session_step w s Yes).
Proof.
  intros Hp Hd. unfold session_step. destruct (se_phase s) as [| | | | | |t| | | | |]; try done.
  destruct t as [|v| |[|i todo]|i todo|todo|v todo| |]; cbn [requester_step is_yes fmap option_fmap option_map]; try (by eexists); [destruct (elect _); by eexists|..]; destruct v as [|seen|seen|]; cbn [wait_step]; try by eexists.
  all: destruct (seen <? sd_notified (w_shutdown w))%nat; cbn; by eexists.
Qed.
(** What the session at [n] has behind it and what it has before it are never more than it had before it at the start. *)
Lemma performs_rank n w k v s : (forall u, rtc world_step w u -> len (w_sessions u) <= len (w_sessions v) -> disconnect_ok u) -> performs n w k v ->
  w_sessions w !! n = Some s -> stopping (se_phase s) = true ->
  exists s', w_sessions v !! n = Some s' /\ stopping (se_phase s') = true /\ (k + session_rank v (se_phase s') <= session_rank w (se_phase s))%nat.
Proof.
  intros Hok Hperf Hs Hp. induction Hperf as [|k v t x v' p Hperf IH Hn Hstep|k v v' Hperf IH Hstep Heq].
  - by exists s.
  - assert (Hlen : w_sessions v' = w_sessions v) by by eapply session_step_sessions.
    destruct IH as (t' & Ht & Hst & Hrank).
    { intros u Hu Hl. apply Hok; [done|]. cbn. unfold len in *. rewrite length_insert, Hlen. lia. }
    rewrite Hn in Ht. injection Ht as <-. exists (mkSession (se_channels t) p).
    assert (Hd : disconnect_ok v) by (apply Hok; [by eapply performs_reach|cbn; unfold len; rewrite length_insert, Hlen; lia]).
    destruct (session_rank_step _ _ _ _ _ Hd Hstep) as [H1 _]. split_and!; [|by eapply stopping_step|].
    + cbn. rewrite Hlen. by apply list_lookup_insert_eq, (lookup_lt_Some _ _ t).
    + cbn [se_phase]. change (session_rank (set_phase n t p v') p) with (session_rank v' p). lia.
  - assert (Hgrow := world_step_grows _ _ Hstep). destruct IH as (t' & Ht & Hst & Hrank); [intros u Hu Hl; apply Hok; [done|lia]|].
    exists t'. rewrite Heq. split_and!; [done|done|]. assert (Hd : disconnect_ok v) by (apply Hok; [by eapply performs_reach|lia]).
    pose proof (session_rank_mono v v' (se_phase t') (world_step_notified _ _ Hstep Hd)). lia.
Qed.

(** C22. A session that was told to stop ends, and asking the server to disconnect it delays that by little: from then on, whatever
    the other sessions, the readers and the writers do in between, it performs at most 39 operations of its own, and until it has
    ended it can always perform the next one, once the time-out of the wait it may be in is over.  (How long a session is
    configured and run before, this says nothing about.) *)
Theorem disconnecting_ends latency priority bulk w n s k v :
  rtc world_step (World_new (mkDispatcher [] latency priority bulk)) w -> w_sessions w !! n = Some s -> stopping (se_phase s) = true ->
  performs n w k v -> len (w_sessions v) + 1 < 2 ^ 64 ->
  (k <= 39)%nat /\ exists s', w_sessions v !! n = Some s' /\ (se_phase s' = PDone \/ (k < 39)%nat /\ exists v' p, session_step v s' Yes = Some (v', p)).
Proof.
  intros Hreach Hn Hp Hperf Hlen.
  assert (Hok : forall u, rtc world_step w u -> len (w_sessions u) <= len (w_sessions v) -> disconnect_ok u).
  { intros u Hu Hl. destruct (reachable_ok disconnect_ok _ u (world_new_disconnect _) (world_new_ok latency priority bulk)) as [_ Hok]; [|by etransitivity|lia|done].
    intros a b Hab Ha _. by apply world_disconnect_ok. }
  destruct (performs_rank n w k v s Hok Hperf Hn Hp) as (s' & Hs' & Hp' & Hr).
  assert (Hw : (session_rank w (se_phase s) <= 39)%nat).
  { apply stopping_rank; [|by eapply list_elem_of_lookup_2|done]. apply Hok; [done|]. pose proof (performs_reach _ _ _ _ Hperf) as Hx. clear -Hx.
    induction Hx as [|a b c H _ IH]; [lia|apply world_step_grows in H; lia]. }
  split; [lia|]. exists s'. split; [done|]. assert (Hz : se_phase s' = PDone \/ (0 < session_rank v (se_phase s'))%nat) by (destruct (se_phase s'); cbn; auto; right; lia).
  destruct Hz as [->|Hz]; [by left|right]. split; [lia|]. destruct (stopping_moves v s' Hp') as [[v' p] Hv]; [by intros E; rewrite E in Hz; cbn in Hz; lia|]. by exists v', p.
Qed.

(** ** A run *)

(** Operations of sessions, by position, one after the other. *)
Fixpoint drive (l : list (nat * Choice)) (w : World) : option World :=
  match l with
  | [] => Some w
  | (n, x) :: l => s ← w_sessions w !! n; r ← session_step w s x; drive l (set_phase n s r.2 r.1)
  end.
Lemma drive_reach l w w' : drive l w = Some w' -> rtc world_step w w'.
Proof.
  revert w. induction l as [|[n x] l IH]; intros w; cbn; [by intros [= ->]|]. intros (s & Hs & [[v p] [Hv Hd]]%bind_Some)%bind_Some.
  eapply rtc_l; [by eapply ws_session|]. by apply IH.
Qed.
Definition demo_dispatcher : Dispatcher := mkDispatcher [] 1 2 3.
Definition demo_sessions : World := start_session 2 (b_ "b:1") 7 8 9 (start_session 1 (b_ "a:1") 4 5 6 (World_new demo_dispatcher)).
Definition to_running (n : nat) : list (nat * Choice) := replicate 5 (n, Yes).
(** Two sessions are told to stop; the second leads, its first request goes unanswered, its second is confirmed by the writer. *)
Definition demo_stop : list (nat * Choice) :=
  to_running 0 ++ to_running 1 ++ [(0%nat, Yes); (1%nat, Yes)] ++ replicate 4 (1%nat, Yes) ++ [(0%nat, Yes); (0%nat, Yes)]
  ++ [(1%nat, No); (1%nat, Yes); (1%nat, Yes); (1%nat, Yes); (1%nat, Yes); (1%nat, Yes); (0%nat, Yes)].
Definition demo_world : World := default demo_sessions (drive demo_stop demo_sessions).
Lemma demo_reach : rtc world_step (World_new (mkDispatcher [] 1 2 3)) demo_world.
Proof.
  assert (H1 : world_step (World_new demo_dispatcher) (start_session 1 (b_ "a:1") 4 5 6 (World_new demo_dispatcher))).
  { apply ws_start. intros s Hs. cbn in Hs. by apply elem_of_nil in Hs. }
  assert (H2 : world_step (start_session 1 (b_ "a:1") 4 5 6 (World_new demo_dispatcher)) demo_sessions).
  { apply ws_start. intros s Hs. cbn in Hs. apply list_elem_of_singleton in Hs as ->. cbn. discriminate. }
  refine (rtc_l _ _ _ _ H1 (rtc_l _ _ _ _ H2 (drive_reach demo_stop _ _ _))). vm_compute. reflexivity.
Qed.

Lemma sessions_leave_nothing_witness :
  dp_workers (w_dispatcher demo_world) = [mkWorker 1 1 (b_ "a:1") 4 5 6; mkWorker 2 2 (b_ "b:1") 7 8 9]
  /\ dp_workers (w_dispatcher demo_world) ≡ₚ se_channels <$> those registered (w_sessions demo_world).
Proof.
  split; [vm_compute; reflexivity|]. exact (proj1 (sessions_leave_nothing 1 2 3 demo_world demo_reach ltac:(vm_compute; reflexivity))).
Defined.
Lemma disconnect_requested_once_witness : w_sent demo_world = [2; 1] /\ NoDup (w_sent demo_world).
Proof.
  split; [vm_compute; reflexivity|]. exact (proj1 (proj2 (disconnect_requested_once 1 2 3 demo_world demo_reach ltac:(vm_compute; reflexivity)))).
Defined.
(** The first session leaves: its wait, its requester and the four drops are behind it after seven operations. *)
Definition demo_leaving : list (nat * Choice) := replicate 7 (0%nat, Yes).
Lemma drive_performs n l w v : Forall (fun e => e.1 = n) l -> drive l w = Some v -> performs n w (length l) v.
Proof.
  revert v. induction l as [|[m x] l IH] using rev_ind; intros v.
  - intros _ [= <-]. constructor.
  - intros [Hl Hm]%Forall_app Hd. assert (exists u, drive l w = Some u /\ drive [(m, x)] u = Some v) as (u & Hu & Hv).
    { clear -Hd. revert w Hd. induction l as [|[i y] l IH]; intros w Hd; [by exists w|]. cbn [drive app] in *. destruct (w_sessions w !! i) as [t|]; [|done]. cbn [mbind option_bind] in *.
      destruct (session_step w t y) as [r|]; [|done]. cbn [mbind option_bind] in *. by apply IH. }
    apply Forall_cons in Hm as [Hm _]. cbn in Hm. subst m. rewrite length_app. cbn [length]. replace (length l + 1)%nat with (S (length l)) by lia.
    cbn [drive] in Hv. destruct (w_sessions u !! n) as [t|] eqn:Et; [|done]. cbn [mbind option_bind] in Hv. destruct (session_step u t x) as [[u' p]|] eqn:Es; [|done]. cbn [mbind option_bind fst snd] in Hv. injection Hv as <-.
    eapply performs_one; [by apply IH|done|done].
Qed.
Definition demo_left : World := default demo_world (drive demo_leaving demo_world).
Lemma demo_performs : performs 0 demo_world 7 demo_left.
Proof. apply (drive_performs 0 demo_leaving); [by repeat constructor|vm_compute; reflexivity]. Qed.
Lemma disconnecting_ends_witness :
  se_phase <$> w_sessions demo_left = [PDone; PDisconnecting (RqAck (WSleep 0) [])]
  /\ exists s', w_sessions demo_left !! 0%nat = Some s' /\ (se_phase s' = PDone \/ (7 < 39)%nat /\ exists v' p, session_step demo_left s' Yes = Some (v', p)).
Proof.
  split; [vm_compute; reflexivity|].
  exact (proj2 (disconnecting_ends 1 2 3 demo_world 0 (mkSession (mkWorker 1 1 (b_ "a:1") 4 5 6) (PDisconnecting (RqFollow (WSleep 0)))) 7 demo_left
    demo_reach ltac:(vm_compute; reflexivity) ltac:(vm_compute; reflexivity) demo_performs ltac:(vm_compute; reflexivity))).
Defined.

(** ** [RepairState::changed] *)

(** A task in [changed], the tasks in [apply_repair] that have counted a restart and are about to call [notify_waiters], and the
    slot they share. *)
Inductive Watch := WatchLoad | WatchNotified | WatchSleep (seen : nat) | WatchReturned.
Record RepairWatch := mkRepairWatch { rw_generation : Z; rw_notified : nat; rw_notifying : nat; rw_watch : Watch }.
(** [None]: the task sleeps on. *)
Definition changed_step (observed_generation : Z) (r : RepairWatch) : option Watch :=
  match rw_watch r with
  | WatchLoad => Some (if rw_generation r =? observed_generation then WatchNotified else WatchReturned)
  | WatchNotified => Some (WatchSleep (rw_notified r))
  | WatchSleep seen => if (seen <? rw_notified r)%nat then Some WatchLoad else None
  | WatchReturned => None
  end.
Inductive watch_step (observed_generation : Z) : RepairWatch -> RepairWatch -> Prop :=
| wt_changed r v : changed_step observed_generation r = Some v ->
    watch_step observed_generation r (mkRepairWatch (rw_generation r) (rw_notified r) (rw_notifying r) v)
| wt_restart r : watch_step observed_generation r (mkRepairWatch (u64_of (rw_generation r + 1)) (rw_notified r) (S (rw_notifying r)) (rw_watch r))
| wt_notify r n : rw_notifying r = S n ->
    watch_step observed_generation r (mkRepairWatch (rw_generation r) (S (rw_notified r)) n (rw_watch r)).

(** The task sleeps, and no notification is pending that would wake it. *)
Definition asleep (r : RepairWatch) : Prop := changed_step 0 r = None /\ rw_notifying r = 0%nat /\ exists seen, rw_watch r = WatchSleep seen.
Definition watch_start : RepairWatch := mkRepairWatch 0 0 0 WatchLoad.
Definition seen_ok (r : RepairWatch) : Prop := forall seen, rw_watch r = WatchSleep seen -> (seen <= rw_notified r)%nat.
Lemma watch_step_seen r r' : watch_step 0 r r' -> seen_ok r -> seen_ok r'.
Proof.
  unfold seen_ok. intros [u v Hv|u|u n Hn] Hok seen; cbn [rw_watch rw_notified]; [|by apply Hok|intros Hs; specialize (Hok seen Hs); lia].
  unfold changed_step in Hv. destruct (rw_watch u) as [| |k|]; [destruct (_ =? _)| |destruct (_ <? _)%nat|]; try done; injection Hv as <-; try done. by intros [= <-].
Qed.
(** Restarts are counted, and each is announced or about to be. *)
Lemma watch_counts r r' : rtc (watch_step 0) r r' -> rw_generation r' <> rw_generation r -> (rw_notified r + rw_notifying r < rw_notified r' + rw_notifying r')%nat.
Proof.
  assert (Hmono : forall r r', watch_step 0 r r' -> (rw_notified r + rw_notifying r <= rw_notified r' + rw_notifying r')%nat /\
    (rw_generation r' <> rw_generation r -> (rw_notified r + rw_notifying r < rw_notified r' + rw_notifying r')%nat)).
  { intros x y [u v Hv|u|u n Hn]; cbn; split; intros; try done; lia. }
  intros H. assert (Hle : (rw_notified r + rw_notifying r <= rw_notified r' + rw_notifying r')%nat) by (induction H as [|x y z Hs _ IH]; [done|apply Hmono in Hs; lia]).
  revert Hle. induction H as [|x y z Hs Hr IH]; [done|]. intros Hle Hg. destruct (Hmono _ _ Hs) as [H1 H2].
  assert (Hyz : (rw_notified y + rw_notifying y <= rw_notified z + rw_notifying z)%nat) by (clear -Hr Hmono; induction Hr as [|a b c Hs _ IH]; [done|apply Hmono in Hs; lia]).
  destruct (decide (rw_generation y = rw_generation x)) as [E|E]; [|specialize (H2 E); lia]. specialize (IH Hyz). rewrite E in IH. specialize (IH Hg). lia.
Qed.

(** C40. The window in which a restart that the server asked for passes [changed] by, and that there is no other.  A restart that is
    counted and announced between the look at the counter and the making of the future that waits leaves the task in [changed]
    asleep with the counter moved on and no notification pending.  But one that comes when the task is asleep always wakes it: once
    it is counted and announced the task can move, and looking at the counter again it returns. *)
Theorem repair_wakeup_can_be_lost :
  (exists r, rtc (watch_step 0) watch_start r /\ rw_generation r <> 0 /\ asleep r)
  /\ (forall r r' seen, rtc (watch_step 0) watch_start r -> rw_watch r = WatchSleep seen -> rtc (watch_step 0) r r' -> rw_watch r' = WatchSleep seen ->
      rw_generation r' <> rw_generation r -> rw_notifying r' = 0%nat ->
      changed_step 0 r' = Some WatchLoad
      /\ (rw_generation r' <> 0 -> changed_step 0 (mkRepairWatch (rw_generation r') (rw_notified r') (rw_notifying r') WatchLoad) = Some WatchReturned)).
Proof.
  split.
  - exists (mkRepairWatch 1 1 0 (WatchSleep 1)). split_and!; [|done|split_and!; [done|done|by exists 1%nat]].
    eapply rtc_l; [apply wt_changed; reflexivity|]. eapply rtc_l; [apply wt_restart|]. eapply rtc_l; [by apply wt_notify|].
    eapply rtc_l; [by apply wt_changed|]. done.
  - intros r r' seen Hr Hw Hr' Hw' Hg Hn.
    assert (Hok : seen_ok r) by (assert (seen_ok watch_start) as Hs by done; revert Hs; clear -Hr; induction Hr; eauto using watch_step_seen).
    pose proof (Hok seen Hw) as Hseen. pose proof (watch_counts r r' Hr' Hg) as Hlt. rewrite Hn in Hlt. unfold changed_step. rewrite Hw'. cbn [rw_watch rw_generation]. split.
    + by replace (seen <? rw_notified r')%nat with true by (symmetry; apply Nat.ltb_lt; lia).
    + intros Hz. by replace (rw_generation r' =? 0) with false by lia.
Qed.
(** A restart that finds the task asleep. *)
Lemma repair_wakeup_can_be_lost_witness : changed_step 0 (mkRepairWatch 1 1 0 (WatchSleep 0)) = Some WatchLoad.
Proof.
  assert (H1 : rtc (watch_step 0) watch_start (mkRepairWatch 0 0 0 (WatchSleep 0))).
  { eapply rtc_l; [apply wt_changed; reflexivity|]. eapply rtc_l; [by apply wt_changed|]. done. }
  assert (H2 : rtc (watch_step 0) (mkRepairWatch 0 0 0 (WatchSleep 0)) (mkRepairWatch 1 1 0 (WatchSleep 0))).
  { eapply rtc_l; [apply wt_restart|]. eapply rtc_l; [by apply wt_notify|]. done. }
  exact (proj1 (proj2 repair_wakeup_can_be_lost _ _ 0%nat H1 eq_refl H2 eq_refl ltac:(discriminate) eq_refl)).
Defined.

(** ** Who asks for the configuration *)

(** A worker between two operations on the flags [sent] and [in_flight]; [acquired]: its session asks for the configuration. *)
Inductive Flight := FlightIdle | FlightLoaded (sent : bool) | FlightAsking (acquired : bool) | FlightStored (acquired : bool) | FlightRunning (acquired : bool).
Record Flights := mkFlights { fl_sent : bool; fl_in_flight : bool; fl_workers : list Flight }.
(** [ConfigFlightGuard::acquire], [ConfigDeliveryState::complete] (two stores) and the guard's [drop].  [delivered]: what
    [request_configuration] says; a session that fails before it goes on to the drop. *)
Definition flight_step (f : Flights) (v : Flight) (delivered failed : bool) : Flights * Flight :=
  match v with
  | FlightIdle => (f, FlightLoaded (fl_sent f))
  | FlightLoaded sent =>
      let '(acquired, in_flight) := flight_acquire sent (fl_in_flight f) in
      (mkFlights (fl_sent f) in_flight (fl_workers f), FlightAsking acquired)
  | FlightAsking acquired =>
      if failed || negb acquired then (f, FlightRunning acquired)
      else (mkFlights (fl_sent f || delivered) (fl_in_flight f) (fl_workers f), FlightStored acquired)
  | FlightStored acquired => (mkFlights (fl_sent f) false (fl_workers f), FlightRunning acquired)
  | FlightRunning acquired => (mkFlights (fl_sent f) (flight_drop acquired (fl_in_flight f)) (fl_workers f), FlightIdle)
  end.
Inductive flights_step : Flights -> Flights -> Prop :=
| fs_worker n v delivered failed f g v' : fl_workers f !! n = Some v -> flight_step f v delivered failed = (g, v') ->
    flights_step f (mkFlights (fl_sent g) (fl_in_flight g) (<[n := v']> (fl_workers g))).
Fixpoint fly (l : list (nat * bool * bool)) (f : Flights) : option Flights :=
  match l with
  | [] => Some f
  | (n, delivered, failed) :: l =>
      v ← fl_workers f !! n;
      let '(g, v') := flight_step f v delivered failed in fly l (mkFlights (fl_sent g) (fl_in_flight g) (<[n := v']> (fl_workers g)))
  end.
Lemma fly_reach l f g : fly l f = Some g -> rtc flights_step f g.
Proof.
  revert f. induction l as [|[[n x] y] l IH]; intros f; cbn; [by intros [= ->]|]. intros (v & Hv & H)%bind_Some.
  destruct (flight_step f v x y) as [h v'] eqn:E. eapply rtc_l; [by eapply fs_worker|]. by apply IH.
Qed.
Definition asking (v : Flight) : bool := match v with FlightAsking true => true | _ => false end.

(** Two sessions can ask for the configuration at the same time, though nothing has been delivered: a session that was told there is no
    configuration clears the flag while its worker still holds the guard, and the guard's drop then clears it for another worker's
    session. *)
Lemma two_configuration_flights :
  exists f, rtc flights_step (mkFlights false false [FlightIdle; FlightIdle; FlightIdle]) f /\ fl_sent f = false /\
    length (filter (fun v => asking v = true) (fl_workers f)) = 2%nat.
Proof.
  exists (mkFlights false true [FlightIdle; FlightAsking true; FlightAsking true]). split_and!; [|done|done].
  apply (fly_reach [(0, false, false); (0, false, false); (0, false, false); (0, false, false); (1, false, false); (1, false, false);
                    (0, false, false); (2, false, false); (2, false, false)]%nat).
  vm_compute. reflexivity.
Qed.

(** ** The reader *)

Section Reader.
Context `{AQ : ArrayQueue} `{NT : Notify}.
Abbreviation store := (gmap Z (PacketQueue ClientBuf)).

(** What [reader_loop] shares: the coordinator, the repair state, whether the restart of the panel was reported, the queue of
    configurations with its room, and the dispatcher's queues. *)
Record Reader := mkReader {
  rd_shutdown : ShutdownCoordinator; rd_repair : RepairState; rd_panel_restart : bool; rd_configs : list bytes; rd_room : Z; rd_store : store;
}.
Definition push_config (g : Reader) (text : bytes) : Reader :=
  if len (rd_configs g) <? rd_room g
  then mkReader (rd_shutdown g) (rd_repair g) (rd_panel_restart g) (rd_configs g ++ [text]) (rd_room g) (rd_store g) else g.
Definition set_repair (g : Reader) (r : RepairState) : Reader := mkReader (rd_shutdown g) r (rd_panel_restart g) (rd_configs g) (rd_room g) (rd_store g).
(** One turn of [reader_loop], with an authenticated packet. *)
Definition handle_packet (d : Dispatcher) (g : Reader) (packet : ClientBuf) : opt Reader :=
  data ← ClientBuf_as_slice packet;
  if is_panel_restart_notice data then Ok (mkReader (rd_shutdown g) (rd_repair g) true (rd_configs g) (rd_room g) (rd_store g)) else
  match parse_stream_repair data with
  | Panic => Panic
  | Ok command => Ok (set_repair g (apply_repair (rd_repair g) (cmd_sequence command) (cmd_worker_ids command) (mkApplied 0 0)).1)
  | Err _ =>
      match parse_stream_alive data with
      | Panic => Panic
      | Ok command => Ok (set_repair g (apply_alive (rd_repair g) (cmd_sequence command) (cmd_worker_ids command) 0).2)
      | Err _ =>
          let '(taken, c) := observe_control_response (rd_shutdown g) data in
          if taken then Ok (mkReader c (rd_repair g) (rd_panel_restart g) (rd_configs g) (rd_room g) (rd_store g)) else
          if starts_with data (b_ "TUNCONF:") then
            match parse_config_response data with Panic => Panic | Ok (Getconf.Config text) => Ok (push_config g text) | _ => Ok g end
          else if is_control_response data then Ok g else
          (fun s => mkReader (rd_shutdown g) (rd_repair g) (rd_panel_restart g) (rd_configs g) (rd_room g) s) <$> return_packet d (rd_store g) packet
      end
  end.

(** A packet of the tunnel: framed, or an IP packet whose length is the one its header gives. *)
Definition tunnel_packet (p : bytes) : Prop :=
  starts_with p FRAME_MAGIC = true \/
  (exists b0 b1 b2 b3 rest, p = b0 :: b1 :: b2 :: b3 :: rest /\
     (Z.shiftr b0 4 = 6 \/ Z.shiftr b0 4 = 4 /\ 5 <= Z.land b0 0x0f /\ be16 b2 b3 = len p)).

Lemma parse_command_cases payload prefix : wf_bytes payload ->
  safe (parse_stream_command payload prefix) /\ (forall c, parse_stream_command payload prefix = Ok c -> starts_with payload prefix = true).
Proof.
  intros Hwf. unfold parse_stream_command, starts_with. destruct (strip_prefix prefix payload) as [rest|]; [|done]. cbn [try_ mbind result_bind].
  destruct (len rest <? 11) eqn:E; [done|]. bool_prop. rewrite !slice_ok by lia. cbn [mbind result_bind].
  destruct (@at_ok unit _ rest 10 ltac:(lia)) as (count & -> & _). cbn [mbind result_bind]. rewrite slice_from_ok by lia. cbn [mbind result_bind].
  split; [|done]. destruct (_ || _); [done|]. destruct (parse_worker_ids _ _); [|done]. cbn [try_ mbind result_bind]. by destruct (bool_decide _).
Qed.
Lemma parse_config_safe response : safe (parse_config_response response).
Proof.
  unfold parse_config_response. destruct (negb _); [done|]. destruct (bytes_eqb _ _); [done|].
  destruct (strip_prefix _ _); [by destruct (_ || _)|by destruct (starts_with _ _)].
Qed.

Lemma starts_with_Some p l : starts_with l p = true -> exists k, l = p ++ k.
Proof. unfold starts_with. destruct (strip_prefix p l) as [k|] eqn:E; [|done]. intros _. exists k. by apply strip_prefix_Some. Qed.
Lemma control_prefix response : is_control_response response = true ->
  Exists (fun p => exists k, response = p ++ k)
    [PANEL_RESTART_NOTICE; b_ "TUNCONF:"; b_ "NOCONF"; b_ "DENIED:"; b_ "READY_OK"; b_ "OK:disconnected"; STREAM_REPAIR_PREFIX; STREAM_ALIVE_PREFIX].
Proof.
  unfold is_control_response, is_panel_restart_notice. destruct (bytes_eqb response PANEL_RESTART_NOTICE) eqn:E.
  - intros _. apply Exists_cons. left. exists []. unfold bytes_eqb in E. bool_prop. by rewrite app_nil_r.
  - intros (p & Hp & Hs)%existsb_exists. apply Exists_cons. right. apply Exists_exists. exists p. split; [by apply list_elem_of_In|by apply starts_with_Some].
Qed.
(** No text of the control dialogue is a packet of the tunnel. *)
Lemma tunnel_not_control p : tunnel_packet p -> len p <= CLIENT_PACKET_CAPACITY -> is_control_response p = false.
Proof.
  intros Ht Hlen. destruct (is_control_response p) eqn:E; [|done]. exfalso. apply control_prefix in E. unfold CLIENT_PACKET_CAPACITY in Hlen.
  destruct Ht as [[k Ht]%starts_with_Some|(b0 & b1 & b2 & b3 & rest & Ht & Hb)].
  - rewrite Ht in E. rewrite !Exists_cons, Exists_nil in E. destruct_or!; try done; destruct E as [q E]; vm_compute in E; injection E; intros; congruence.
  - generalize dependent (len p). intros n Hb Hlen. apply Exists_exists in E as (pre & Hpre & q & E). rewrite Ht in E. rewrite !elem_of_cons, elem_of_nil in Hpre.
    destruct Hpre as [->|[->|[->|[->|[->|[->|[->|[->|[]]]]]]]]]; vm_compute in E; injection E as -> -> -> -> _; vm_compute in Hb;
      first [done | destruct Hb as [Hb|(Hb1 & Hb2 & Hb3)]; first [done | lia]].
Qed.

Lemma control_cases p prefix : starts_with p prefix = true -> prefix ∈ [b_ "TUNCONF:"; b_ "NOCONF"; b_ "DENIED:"; b_ "READY_OK"; b_ "OK:disconnected"; STREAM_REPAIR_PREFIX; STREAM_ALIVE_PREFIX] ->
  is_control_response p = true.
Proof. intros Hs Hp. unfold is_control_response. destruct (is_panel_restart_notice p); [done|]. apply existsb_exists. exists prefix. split; [by apply list_elem_of_In|done]. Qed.
Lemma starts_with_refl p : starts_with p p = true.
Proof. rewrite <- (app_nil_r p) at 1. apply starts_with_app. Qed.
Lemma observe_cases c response taken c' : observe_control_response c response = (taken, c') ->
  taken = false /\ c' = c \/ taken = true /\ sd_active c = true /\ sd_completed c' = true /\ is_control_response response = true.
Proof.
  unfold observe_control_response. destruct (_ && _) eqn:E1; [intros [= <- <-]; by left|]. destruct (_ || _) eqn:E2; intros [= <- <-]; [by left|right]. bool_prop.
  split_and!; try done. destruct E1 as [E1|E1]; bool_prop.
  - unfold bytes_eqb in E1. bool_prop. subst response. apply (control_cases _ (b_ "OK:disconnected")); [apply starts_with_refl|set_solver].
  - by apply (control_cases _ (b_ "DENIED:")); [|set_solver].
Qed.
Lemma observe_ends c response c' : observe_control_response c response = (false, c') -> response = b_ "OK:disconnected" -> sd_active c = true -> sd_completed c = true.
Proof.
  intros H -> Ha. unfold observe_control_response in H. change (negb (bytes_eqb _ _) && _) with false in H. rewrite Ha in H. by destruct (sd_completed c).
Qed.
Lemma return_packet_returns d s packet : client_buf_wf packet -> wf_bytes (cb_storage packet) -> exists s', return_packet d s packet = Ok s'.
Proof.
  intros Hb Hwf. unfold return_packet. rewrite client_window_slice by done. cbn [mbind result_bind].
  assert (Hw : wf_bytes (window packet)) by (unfold window, sub; by apply Forall_take, Forall_drop).
  destruct (classification_total (window packet) Hw) as [[class ->] _]; [|by eexists].
  destruct Hb as (Hl & Hs & He). unfold window. rewrite len_sub by lia. unfold CLIENT_PACKET_CAPACITY, ISIZE_MAX in *. lia.
Qed.

(** What the reader makes of the bytes [p] of a packet. *)
Definition repairs (g g' : Reader) (p : bytes) : Prop :=
  forall seq desired l, p = stream_control_payload STREAM_REPAIR_PREFIX seq desired l ->
    0 < seq < 2 ^ 64 -> 1 <= desired <= MAX_STREAM_WORKERS -> l <> [] -> Forall (fun w => 1 <= w <= desired) l -> len l <= MAX_STREAM_WORKERS ->
    g' = set_repair g (apply_repair (rd_repair g) seq l (mkApplied 0 0)).1.
Definition sorts (d : Dispatcher) (g g' : Reader) (packet : ClientBuf) (p : bytes) : Prop :=
  (is_control_response p = false -> exists s, return_packet d (rd_store g) packet = Ok s /\
     g' = mkReader (rd_shutdown g) (rd_repair g) (rd_panel_restart g) (rd_configs g) (rd_room g) s) /\
  (is_control_response p = true -> rd_store g' = rd_store g) /\ repairs g g' p /\
  (p = b_ "OK:disconnected" -> sd_active (rd_shutdown g) = true -> sd_completed (rd_shutdown g') = true).
Lemma control_sorts d g g' packet p : is_control_response p = true -> rd_store g' = rd_store g -> repairs g g' p ->
  (p = b_ "OK:disconnected" -> sd_active (rd_shutdown g) = true -> sd_completed (rd_shutdown g') = true) -> sorts d g g' packet p.
Proof. intros Hc H1 H2 H3. unfold sorts. rewrite Hc. repeat split; done. Qed.
Lemma no_repair g g' p : parse_stream_repair p = Err tt -> repairs g g' p.
Proof. intros Er seq desired l ->. intros. unfold parse_stream_repair in Er. by rewrite command_built in Er. Qed.
Lemma panel_sorts d g packet p : is_panel_restart_notice p = true ->
  sorts d g (mkReader (rd_shutdown g) (rd_repair g) true (rd_configs g) (rd_room g) (rd_store g)) packet p.
Proof.
  intros Ep. apply control_sorts; try done.
  - unfold is_control_response. by rewrite Ep.
  - apply no_repair. unfold is_panel_restart_notice, bytes_eqb in Ep. bool_prop. by subst p.
  - unfold is_panel_restart_notice, bytes_eqb in Ep. bool_prop. by subst p.
Qed.
Lemma repair_sorts d g packet p command : wf_bytes p -> parse_stream_repair p = Ok command ->
  sorts d g (set_repair g (apply_repair (rd_repair g) (cmd_sequence command) (cmd_worker_ids command) (mkApplied 0 0)).1) packet p.
Proof.
  intros Hp Er. pose proof (proj2 (parse_command_cases p STREAM_REPAIR_PREFIX Hp) command Er) as Hs. apply control_sorts; try done.
  - apply (control_cases p STREAM_REPAIR_PREFIX Hs). set_solver.
  - intros seq desired l ->. intros. unfold parse_stream_repair in Er. rewrite command_built in Er by done. by injection Er as <-.
  - by intros ->.
Qed.
Lemma text_sorts d g packet p : parse_stream_repair p = Err tt -> starts_with p (b_ "TUNCONF:") = true ->
  exists g', match parse_config_response p with Panic => Panic | Ok (Getconf.Config text) => Ok (push_config g text) | _ => Ok g end = (Ok g' : opt Reader)
    /\ sorts d g g' packet p.
Proof.
  intros Er Et. pose proof (parse_config_safe p) as Hps. assert (Hc : is_control_response p = true) by (apply (control_cases p (b_ "TUNCONF:") Et); set_solver).
  assert (Hpush : forall text, rd_store (push_config g text) = rd_store g) by (intros; unfold push_config; by destruct (_ <? _)).
  destruct (parse_config_response p) as [[text|]|e|]; [| | |done]; eexists; (split; [reflexivity|]); apply control_sorts; try done;
    solve [by apply no_repair | by intros ->].
Qed.

(** C10. The reader of a session never panics and mixes nothing up: a packet is handed to the device, through the dispatcher, exactly when it
    is none of the texts of the control dialogue, and then it changes nothing else; a packet of the tunnel, framed or plain, never is
    one.  A repair command of the server restarts the workers it names, and the answer to a disconnect ends it. *)
Theorem reader_sorts_packets d g packet : client_buf_wf packet -> wf_bytes (cb_storage packet) ->
  (tunnel_packet (window packet) -> is_control_response (window packet) = false) /\
  exists g', handle_packet d g packet = Ok g' /\ sorts d g g' packet (window packet).
Proof.
  intros Hb Hwf. assert (Hp : wf_bytes (window packet)) by (unfold window, sub; by apply Forall_take, Forall_drop).
  destruct (return_packet_returns d (rd_store g) packet Hb Hwf) as [s Hs]. split.
  { intros Ht. apply tunnel_not_control; [done|]. destruct Hb as (Hl & ? & ?). unfold window. rewrite len_sub by lia. lia. }
  unfold handle_packet. rewrite client_window_slice by done. cbn [mbind result_bind]. generalize dependent (window packet). intros p Hp.
  destruct (is_panel_restart_notice p) eqn:Epanel; [eexists; split; [done|by apply panel_sorts]|].
  pose proof (proj1 (parse_command_cases p STREAM_REPAIR_PREFIX Hp)) as Hrs. fold (parse_stream_repair p) in Hrs.
  destruct (parse_stream_repair p) as [command|[]|] eqn:Er; [eexists; split; [done|by apply repair_sorts]| |done].
  destruct (parse_command_cases p STREAM_ALIVE_PREFIX Hp) as [Has Hac]. fold (parse_stream_alive p) in Has, Hac.
  destruct (parse_stream_alive p) as [command|[]|] eqn:Ea; [|clear Hac|done].
  { eexists. split; [done|]. specialize (Hac command eq_refl). apply control_sorts; [apply (control_cases _ _ Hac); set_solver|done|by apply no_repair|by intros ->]. }
  destruct (observe_control_response (rd_shutdown g) p) as [taken c] eqn:Eo. pose proof (observe_cases _ _ _ _ Eo) as [[-> ->]|(-> & _ & Hc & Hctl)].
  2: { eexists. split; [done|]. apply control_sorts; [exact Hctl|reflexivity|exact (no_repair _ _ p Er)|intros _ _; exact Hc]. }
  destruct (starts_with p (b_ "TUNCONF:")) eqn:Et; [exact (text_sorts d g packet p Er Et)|].
  destruct (is_control_response p) eqn:Ec.
  - exists g. split; [done|]. apply control_sorts; [exact Ec|reflexivity|exact (no_repair g g p Er)|]. intros E Hact. exact (observe_ends _ _ _ Eo E Hact).
  - rewrite Hs. eexists. split; [reflexivity|]. unfold sorts. rewrite Ec. split; [intros _; by exists s|]. split; [done|]. split; [exact (no_repair _ _ p Er)|].
    intros ->. vm_compute in Ec. discriminate.
Qed.
End Reader.

Definition demo_command : bytes := stream_control_payload STREAM_REPAIR_PREFIX 7 3 [2].
Definition packet_of (data : bytes) : ClientBuf :=
  mkClientBuf (zeroed 64 ++ data ++ zeroed (CLIENT_PACKET_CAPACITY - 64 - len data)) 64 (64 + len data).
Definition demo_reader : Reader := mkReader ShutdownCoordinator_new (RepairState_new 3) false [] 32 ∅.
Lemma reader_sorts_packets_witness :
  window (packet_of demo_command) = demo_command /\
  exists g', handle_packet demo_dispatcher demo_reader (packet_of demo_command) = Ok g' /\ sorts demo_dispatcher demo_reader g' (packet_of demo_command) (window (packet_of demo_command)).
Proof.
  split; [vm_compute; reflexivity|]. apply (reader_sorts_packets demo_dispatcher demo_reader (packet_of demo_command)).
  - split_and!; vm_compute; congruence.
  - apply (bool_decide_unpack _). vm_compute. exact I.
Defined.

(** ** [request_configuration] *)

Definition CONFIG_RESPONSE_TIMEOUT_MS : list Z := [750; 1500; 3000].

(** What the relay delivers to a session, and the moments at which a time limit runs out. *)
Inductive Inbound := InPacket (packet : ClientBuf) | InError | InDeadline.
Inductive Received := Got (packet : ClientBuf) | Broken | Late | Pending.
(** [StillWaiting]: what was delivered ends before the call does. *)
Inductive ConfigFailure := SendFailed | ReadFailed | HandshakeTimeout | HandshakeRejected (e : ConfigError) | StillWaiting.
(** [cr_errors]: the fatal errors shown; [cr_configs]: the queue of configurations with its room. *)
Record ConfigRun := mkConfigRun {
  cr_replay : ReplayWindow; cr_inbound : list Inbound; cr_requests : nat; cr_panel_restart : bool; cr_errors : list ConfigFailure;
  cr_stream_repair : bool; cr_configs : list bytes; cr_room : Z;
}.
Abbreviation configuring := (effect ConfigRun ConfigFailure).
Definition cr_received (replay : ReplayWindow) (inbound : list Inbound) (c : ConfigRun) : ConfigRun :=
  mkConfigRun replay inbound (cr_requests c) (cr_panel_restart c) (cr_errors c) (cr_stream_repair c) (cr_configs c) (cr_room c).
Definition cr_restarted (c : ConfigRun) : ConfigRun :=
  mkConfigRun (cr_replay c) (cr_inbound c) (cr_requests c) true (cr_errors c) (cr_stream_repair c) (cr_configs c) (cr_room c).
Definition cr_requested (c : ConfigRun) : ConfigRun :=
  mkConfigRun (cr_replay c) (cr_inbound c) (S (cr_requests c)) (cr_panel_restart c) (cr_errors c) (cr_stream_repair c) (cr_configs c) (cr_room c).
Definition cr_failed (e : ConfigFailure) (c : ConfigRun) : ConfigRun :=
  mkConfigRun (cr_replay c) (cr_inbound c) (cr_requests c) (cr_panel_restart c) (cr_errors c ++ [e]) (cr_stream_repair c) (cr_configs c) (cr_room c).
(** [value.ends_with(suffix)] *)
Definition ends_with (value suffix : bytes) : bool := starts_with (reverse value) (reverse suffix).
Definition cr_configured (get_config : bool) (value : bytes) (c : ConfigRun) : ConfigRun :=
  let repair := ends_with value (b_ ":stream-v1") || ends_with value (b_ ":stream-v2") in
  mkConfigRun (cr_replay c) (cr_inbound c) (cr_requests c) (cr_panel_restart c) (cr_errors c) (cr_stream_repair c || repair)
    (if get_config && (len (cr_configs c) <? cr_room c) then cr_configs c ++ [value] else cr_configs c) (cr_room c).

Section Configuration.
Context {CR : Crypto} {CL : CryptoLaws CR} (key : bytes) (mode : ObfsMode).

(** [TransportReader::recv], against a time limit. *)
Fixpoint reader_recv (replay : ReplayWindow) (inbound : list Inbound) : result string (Received * ReplayWindow * list Inbound) :=
  match inbound with
  | [] => Ok (Pending, replay, [])
  | InError :: inbound => Ok (Broken, replay, inbound)
  | InDeadline :: inbound => Ok (Late, replay, inbound)
  | InPacket packet :: inbound =>
      r ← authenticate_inbound key mode replay packet;
      let '(accepted, replay, packet) := r in
      if accepted : bool then Ok (Got packet, replay, inbound) else reader_recv replay inbound
  end.
(** The inner loop: the answer, or [None] when the time is over.  A turn takes something from what is delivered: more fuel than that is
    enough. *)
Fixpoint await_response (fuel : nat) : configuring (option bytes) := fun c =>
  match fuel with
  | O => (Err StillWaiting, c)
  | S fuel =>
      match reader_recv (cr_replay c) (cr_inbound c) with
      | Ok (Got packet, replay, inbound) =>
          let c := cr_received replay inbound c in
          match ClientBuf_as_slice packet : opt bytes with
          | Ok data =>
              if is_panel_restart_notice data then await_response fuel (cr_restarted c)
              else if negb (is_config_response data) then await_response fuel c else (Ok (Some data), c)
          | _ => (Panic, c)
          end
      | Ok (Late, replay, inbound) => (Ok None, cr_received replay inbound c)
      | Ok (Broken, replay, inbound) => (Err ReadFailed, cr_received replay inbound c)
      | Ok (Pending, replay, inbound) => (Err StillWaiting, cr_received replay inbound c)
      | _ => (Panic, c)
      end
  end.
Definition is_fatal (e : ConfigError) : bool := match e with FatalAuth _ | FatalProtocol => true | _ => false end.
(** What follows an answer. *)
Definition take_response (get_config : bool) (data : bytes) : configuring bool := fun c =>
  match parse_config_response data with
  | Ok NoConfig => (Ok false, c)
  | Ok (Getconf.Config value) => (Ok true, cr_configured get_config value c)
  | Err e => (Err (HandshakeRejected e), if get_config && is_fatal e then cr_failed (HandshakeRejected e) c else c)
  | Panic => (Panic, c)
  end.
(** The attempts with the time limits [timeouts]; [sends]: which of the calls of [send_bytes] succeed. *)
Fixpoint attempts (get_config : bool) (timeouts : list Z) (sends : list bool) : configuring bool := fun c =>
  match timeouts with
  | [] => (Err HandshakeTimeout, if get_config then cr_failed HandshakeTimeout c else c)
  | _ :: timeouts =>
      match sends with
      | true :: sends =>
          match await_response (S (length (cr_inbound c))) (cr_requested c) with
          | (Ok (Some data), c) => take_response get_config data c
          | (Ok None, c) =>
              match timeouts with
              | _ :: _ => attempts get_config timeouts sends c
              | [] => (Err HandshakeTimeout, if get_config then cr_failed HandshakeTimeout c else c)
              end
          | (Err e, c) => (Err e, c)
          | (Panic, c) => (Panic, c)
          end
      | _ => (Err SendFailed, c)
      end
  end.
Definition request_configuration (get_config : bool) (sends : list bool) : configuring bool :=
  attempts get_config CONFIG_RESPONSE_TIMEOUT_MS sends.

(** *** The same as one scan *)

(** What the session can read of all that is delivered. *)
Inductive Item := IData (data : bytes) | IBroken | ILate.
Fixpoint items (replay : ReplayWindow) (inbound : list Inbound) : list Item :=
  match inbound with
  | [] => []
  | InError :: inbound => IBroken :: items replay inbound
  | InDeadline :: inbound => ILate :: items replay inbound
  | InPacket packet :: inbound =>
      match authenticate_inbound key mode replay packet with
      | Ok (true, replay, packet) => IData (window packet) :: items replay inbound
      | Ok (false, replay, _) => items replay inbound
      | _ => []
      end
  end.
(** What comes of it, how many requests were sent and whether the panel announced a restart: the first answer, the first failure,
    or the end of the last time limit, whichever comes first; [more]: which of the requests still to come can be sent. *)
Fixpoint scan (asked : nat) (restart : bool) (more : list bool) (l : list Item) : result ConfigFailure bytes * nat * bool :=
  match l with
  | [] => (Err StillWaiting, asked, restart)
  | IData data :: l => if is_config_response data then (Ok data, asked, restart) else scan asked (restart || is_panel_restart_notice data) more l
  | IBroken :: _ => (Err ReadFailed, asked, restart)
  | ILate :: l =>
      match more with
      | [] => (Err HandshakeTimeout, asked, restart)
      | false :: _ => (Err SendFailed, asked, restart)
      | true :: more => scan (S asked) restart more l
      end
  end.
(** What an answer says, by its text. *)
Inductive Told := ToldConfig | ToldNothing | ToldDenied (e : ConfigError) (fatal : bool).
Definition told (data : bytes) : Told :=
  if negb (utf8_valid data) then ToldDenied NotUtf8 false
  else if bool_decide (data = b_ "NOCONF") then ToldNothing
  else if bool_decide (data = b_ "DENIED:protocol_mismatch" \/ data = b_ "DENIED:invalid_worker_count") then ToldDenied FatalProtocol true
  else if bool_decide (take 7 data = b_ "DENIED:") then ToldDenied (FatalAuth (drop 7 data)) true
  else if bool_decide (take 8 data = b_ "TUNCONF:") then ToldConfig else ToldDenied Unexpected false.
Definition inbound_ok (i : Inbound) : Prop := match i with InPacket packet => client_buf_wf packet /\ wf_bytes (cb_storage packet) | _ => True end.

Lemma recv_items replay inbound : Forall inbound_ok inbound ->
  exists r replay' rest, reader_recv replay inbound = Ok (r, replay', rest) /\ Forall inbound_ok rest /\
    match r with
    | Got q => client_buf_wf q /\ items replay inbound = IData (window q) :: items replay' rest /\ (length rest < length inbound)%nat
    | Broken => items replay inbound = IBroken :: items replay' rest
    | Late => items replay inbound = ILate :: items replay' rest
    | Pending => items replay inbound = []
    end.
Proof.
  revert replay. induction inbound as [|i inbound IH]; intros replay Hok; [by eexists Pending, replay, []|].
  apply Forall_cons in Hok as [Hi Hok]. destruct i as [packet| |]; [|by eexists Broken, replay, inbound|by eexists Late, replay, inbound].
  destruct Hi as [Hb Hwf]. destruct (client_inbound_safe key mode replay packet Hb Hwf) as (accepted & replay1 & q & E & Hq & _).
  cbn [reader_recv items]. rewrite E. cbn [mbind result_bind]. destruct accepted.
  - exists (Got q), replay1, inbound. split_and!; try done. cbn. lia.
  - destruct (IH replay1 Hok) as (r & replay2 & rest & H1 & H2 & H3). exists r, replay2, rest. split_and!; try done.
    destruct r; try done. destruct H3 as (H3 & H4 & H5). split_and!; try done. cbn. lia.
Qed.
(** What the inner loop leaves alone. *)
Definition same_run (c c' : ConfigRun) : Prop :=
  cr_requests c' = cr_requests c /\ cr_errors c' = cr_errors c /\ cr_stream_repair c' = cr_stream_repair c /\ cr_configs c' = cr_configs c /\ cr_room c' = cr_room c.
Lemma notice_no_answer data : is_panel_restart_notice data = true -> is_config_response data = false.
Proof. unfold is_panel_restart_notice, bytes_eqb. intros E. bool_prop. by subst data. Qed.
Lemma await_spec fuel c : (length (cr_inbound c) < fuel)%nat -> Forall inbound_ok (cr_inbound c) ->
  exists r c', await_response fuel c = (r, c') /\ same_run c c' /\ Forall inbound_ok (cr_inbound c') /\ (r <> Panic /\ r <> Err HandshakeTimeout) /\
    forall more, scan (cr_requests c) (cr_panel_restart c) more (items (cr_replay c) (cr_inbound c)) =
      match r with
      | Ok (Some data) => (Ok data, cr_requests c', cr_panel_restart c')
      | Ok None => scan (cr_requests c') (cr_panel_restart c') more (ILate :: items (cr_replay c') (cr_inbound c'))
      | Err e => (Err e, cr_requests c', cr_panel_restart c')
      | Panic => (Panic, cr_requests c', cr_panel_restart c')
      end.
Proof.
  revert c. induction fuel as [|fuel IH]; intros c Hf Hok; [lia|].
  destruct (recv_items (cr_replay c) (cr_inbound c) Hok) as (r & replay' & rest & E & Hrest & Hr). cbn [await_response]. rewrite E.
  destruct r as [q| | |].
  - destruct Hr as (Hq & Hi & Hl). rewrite client_window_slice by done. rewrite Hi. set (c1 := cr_received replay' rest c).
    destruct (is_panel_restart_notice (window q)) eqn:Ep.
    { destruct (IH (cr_restarted c1)) as (r & c' & H1 & H2 & H3 & [H4 H4'] & H5); [cbn; lia|done|]. exists r, c'. split_and!; try done.
      intros more. cbn [scan]. rewrite notice_no_answer, Ep, orb_true_r by done. apply H5. }
    destruct (is_config_response (window q)) eqn:Ec; cbn [negb].
    { exists (Ok (Some (window q))), c1. split_and!; try done. intros more. cbn [scan]. by rewrite Ec. }
    destruct (IH c1) as (r & c' & H1 & H2 & H3 & [H4 H4'] & H5); [cbn; lia|done|]. exists r, c'. split_and!; try done. intros more. cbn [scan]. rewrite Ec, Ep, orb_false_r. apply H5.
  - eexists _, _. split; [reflexivity|]. split_and!; try done. intros more. by rewrite Hr.
  - eexists _, _. split; [reflexivity|]. split_and!; try done. intros more. by rewrite Hr.
  - eexists _, _. split; [reflexivity|]. split_and!; try done. intros more. by rewrite Hr.
Qed.

(** What the session does with what came of it: the result, the errors shown, the configurations handed on, the stream repair. *)
Definition concludes (get_config : bool) (v : result ConfigFailure bytes) (c : ConfigRun) (r : result ConfigFailure bool) (c' : ConfigRun) : Prop :=
  let same_configs := cr_configs c' = cr_configs c /\ cr_stream_repair c' = cr_stream_repair c in
  let shown e := cr_errors c' = cr_errors c ++ e in
  match v with
  | Ok data =>
      match told data with
      | ToldConfig => r = Ok true /\ shown []
          /\ cr_configs c' = cr_configs c ++ (if get_config && (len (cr_configs c) <? cr_room c) then [data] else [])
          /\ cr_stream_repair c' = cr_stream_repair c || ends_with data (b_ ":stream-v1") || ends_with data (b_ ":stream-v2")
      | ToldNothing => r = Ok false /\ same_configs /\ shown []
      | ToldDenied e fatal => r = Err (HandshakeRejected e) /\ same_configs /\ shown (if get_config && fatal then [HandshakeRejected e] else [])
      end
  | Err HandshakeTimeout => r = Err HandshakeTimeout /\ same_configs /\ shown (if get_config then [HandshakeTimeout] else [])
  | Err e => r = Err e /\ same_configs /\ shown []
  | Panic => False
  end.
Lemma told_parse data :
  match told data with
  | ToldConfig => parse_config_response data = Ok (Getconf.Config data)
  | ToldNothing => parse_config_response data = Ok NoConfig
  | ToldDenied e fatal => parse_config_response data = Err e /\ is_fatal e = fatal
  end.
Proof.
  unfold told, parse_config_response. destruct (negb (utf8_valid data)); [done|]. unfold bytes_eqb. case_bool_decide as E1; [done|].
  assert (Hd : forall k, data = b_ "DENIED:" ++ k -> strip_prefix (b_ "DENIED:") data = Some k) by (intros k ->; apply strip_prefix_app).
  case_bool_decide as E2.
  { destruct E2 as [E2|E2]; rewrite (Hd _ E2); (split; [|done]); [by rewrite (bool_decide_eq_true_2 _ eq_refl)|]. by rewrite (bool_decide_eq_true_2 _ eq_refl), orb_true_r. }
  case_bool_decide as E3.
  - assert (E : data = b_ "DENIED:" ++ drop 7 data) by (rewrite <- E3; symmetry; apply take_drop). rewrite (Hd _ E).
    rewrite !bool_decide_eq_false_2; [done|..]; intros Hk; rewrite Hk in E; apply E2; [by right|by left].
  - destruct (strip_prefix (b_ "DENIED:") data) as [k|] eqn:Es; [apply strip_prefix_Some in Es as ->; by destruct E3|].
    case_bool_decide as E4.
    + by replace (starts_with data (b_ "TUNCONF:")) with true by (rewrite <- (take_drop 8 data), E4; by rewrite starts_with_app).
    + destruct (starts_with data (b_ "TUNCONF:")) eqn:Et; [|done]. apply starts_with_Some in Et as [k ->]. by destruct E4.
Qed.
Lemma take_response_spec get_config data c : exists r c', take_response get_config data c = (r, c') /\ concludes get_config (Ok data) c r c'
  /\ cr_requests c' = cr_requests c /\ cr_panel_restart c' = cr_panel_restart c.
Proof.
  unfold take_response, concludes. pose proof (told_parse data) as Ht. destruct (told data) as [| |e fatal].
  - rewrite Ht. eexists _, _. split; [reflexivity|]. cbn. rewrite app_nil_r. split_and!; [done..| |by rewrite orb_assoc|done|done]. destruct (get_config && _); by rewrite ?app_nil_r.
  - rewrite Ht. eexists _, _. split; [reflexivity|]. by rewrite app_nil_r.
  - destruct Ht as [-> ->]. eexists _, _. split; [reflexivity|]. destruct (get_config && fatal); rewrite ?app_nil_r; done.
Qed.
Lemma concludes_same get_config v c c1 r c' : same_run c c1 -> concludes get_config v c1 r c' -> concludes get_config v c r c'.
Proof. unfold concludes. intros (_ & -> & -> & -> & ->). done. Qed.
(** The requests that can be sent are the first of [sends]; what is not there fails. *)
Definition more_sends (count : nat) (sends : list bool) : list bool := take count (sends ++ replicate count false).
Lemma more_cons count b sends : more_sends (S count) (b :: sends) = b :: more_sends count sends.
Proof. unfold more_sends. cbn [app replicate take]. f_equal. replace (false :: replicate count false) with (replicate count false ++ [false]) by by rewrite <- replicate_cons_app.
  rewrite app_assoc, take_app_le; [done|]. rewrite length_app, length_replicate. lia. Qed.
Lemma settled_concludes get_config v c : v <> Panic -> v <> Err HandshakeTimeout -> (forall data, v <> Ok data) ->
  forall e, v = Err e -> concludes get_config v c (Err e) c.
Proof. intros _ Ht _ e ->. unfold concludes. rewrite app_nil_r. destruct e; done. Qed.
Lemma late_concludes (get_config : bool) c : concludes get_config (Err HandshakeTimeout) c (Err HandshakeTimeout) (if get_config then cr_failed HandshakeTimeout c else c).
Proof. unfold concludes. destruct get_config; cbn; by rewrite ?app_nil_r. Qed.
Lemma attempts_spec get_config timeout timeouts sends c : Forall inbound_ok (cr_inbound c) ->
  let '(v, asked, restart) := scan (S (cr_requests c)) (cr_panel_restart c) (more_sends (length timeouts) sends) (items (cr_replay c) (cr_inbound c)) in
  exists r c', attempts get_config (timeout :: timeouts) (true :: sends) c = (r, c') /\ concludes get_config v c r c' /\ cr_requests c' = asked /\ cr_panel_restart c' = restart.
Proof.
  revert timeout sends c. induction timeouts as [|t timeouts IH]; intros timeout sends c Hok;
    destruct (await_spec (S (length (cr_inbound c))) (cr_requested c)) as (r & c1 & E & Hs & Hok1 & (Hp & Hl) & Hv); try done; try (cbn; lia);
    match goal with |- context [scan _ _ ?more _] => specialize (Hv more) end;
    cbn [cr_requested cr_replay cr_inbound cr_requests cr_panel_restart] in Hv; rewrite Hv; cbn [attempts]; rewrite E; clear Hv E;
    assert (Hq : forall v r c', concludes get_config v c1 r c' -> concludes get_config v c r c') by (intros v x c'; exact (concludes_same get_config v (cr_requested c) c1 x c' Hs));
    (destruct r as [[data|]|e|]; [destruct (take_response_spec get_config data c1) as (r & c' & E' & Hc & Hr1 & Hr2); exists r, c'; rewrite Hr1, Hr2; auto| | |done]).
  2, 4: eexists _, _; split; [reflexivity|]; split; [|done]; apply Hq, settled_concludes; congruence.
  - eexists _, _; split; [reflexivity|]. split; [apply Hq, late_concludes|]. by destruct get_config.
  - destruct sends as [|[|] sends].
    2: { cbn [length]. rewrite more_cons. cbn [scan]. specialize (IH t sends c1 Hok1). destruct (scan _ _ _ _) as [[v asked] restart].
         destruct IH as (r & c' & E & Hc & Hr). exists r, c'. auto. }
    all: rewrite ?more_cons; cbn [length more_sends app replicate take scan]; eexists _, _; (split; [reflexivity|]); (split; [apply Hq; unfold concludes; by rewrite app_nil_r|done]).
Qed.
Lemma scan_asked asked restart more l : (asked <= (scan asked restart more l).1.2 <= asked + length more)%nat /\ (scan asked restart more l).1.1 <> Panic.
Proof.
  revert asked restart more. induction l as [|[data| |] l IH]; intros asked restart more; cbn [scan]; try (cbn; split; [lia|done]).
  - destruct (is_config_response data); [cbn; split; [lia|done]|apply IH].
  - destruct more as [|[|] more]; try (cbn; split; [lia|done]). specialize (IH (S asked) restart more). cbn [length]. split; [lia|apply IH].
Qed.

(** C23. Asking for the configuration is one scan over what arrives: the first authentic answer decides, unless a failure, the end of
    the third time limit or a request that cannot be sent comes before it.  The answer is read by its text, whoever asks.  A
    session that was to ask hands the configuration on, if there is room, and shows the errors that are fatal; another does
    neither; and either notes that streams can be repaired, and the panel's restart.  At most three requests are sent, and
    nothing panics. *)
Theorem request_configuration_verdict get_config sends c : Forall inbound_ok (cr_inbound c) ->
  let '(v, asked, restart) :=
    match sends with
    | true :: sends => scan (S (cr_requests c)) (cr_panel_restart c) (more_sends 2 sends) (items (cr_replay c) (cr_inbound c))
    | _ => (Err SendFailed, cr_requests c, cr_panel_restart c)
    end in
  exists r c', request_configuration get_config sends c = (r, c') /\ concludes get_config v c r c'
    /\ cr_requests c' = asked /\ cr_panel_restart c' = restart /\ (asked <= cr_requests c + 3)%nat /\ v <> Panic.
Proof.
  intros Hok. assert (Hno : exists r c', (Err SendFailed, c) = (r, c') /\ concludes get_config (Err SendFailed) c r c'
    /\ cr_requests c' = cr_requests c /\ cr_panel_restart c' = cr_panel_restart c /\ (cr_requests c <= cr_requests c + 3)%nat /\ @Err ConfigFailure bytes SendFailed <> Panic).
  { exists (Err SendFailed), c. unfold concludes. rewrite app_nil_r. split_and!; done || lia. }
  destruct sends as [|[|] sends]; [exact Hno| |exact Hno]. clear Hno. pose proof (attempts_spec get_config 750 [1500; 3000] sends c Hok) as H. cbn [length] in H.
  pose proof (scan_asked (S (cr_requests c)) (cr_panel_restart c) (more_sends 2 sends) (items (cr_replay c) (cr_inbound c))) as [Ha Hp].
  destruct (scan _ _ _ _) as [[v asked] restart]. cbn [fst snd] in Ha, Hp. destruct H as (r & c' & E & Hc & Hr & Hr'). exists r, c'. split_and!; try done.
  assert (length (more_sends 2 sends) <= 2)%nat by (unfold more_sends; rewrite length_take; lia). lia.
Qed.
End Configuration.

(** A packet of the server, as a client finds it in a buffer. *)
Definition demo_reply (text : bytes) : ClientBuf :=
  match (wrap_legacy_into demo_key true demo_out text PacketBuffer_new 9 demo_draws).1 with
  | Ok (out, n) => packet_of (take (Z.to_nat n) (sb_storage out))
  | _ => packet_of []
  end.
Definition demo_text : bytes := b_ "TUNCONF:10.66.67.5:1.1.1.1:9000:stream-v2".
(** Noise, the end of a time limit, and the answer to the second request. *)
Definition demo_run : ConfigRun := mkConfigRun ReplayWindow_default [InPacket (packet_of (b_ "noise")); InDeadline; InPacket (demo_reply demo_text)] 0 false [] false [] 32.
Lemma request_configuration_verdict_witness :
  exists c', request_configuration demo_key Video true [true; true; true] demo_run = (Ok true, c')
    /\ cr_configs c' = [demo_text] /\ cr_stream_repair c' = true /\ cr_requests c' = 2%nat /\ cr_errors c' = [].
Proof.
  assert (Hok : Forall inbound_ok (cr_inbound demo_run)).
  { assert (forall p, client_buf_wf p -> forallb (fun b => (0 <=? b) && (b <=? 255)) (cb_storage p) = true -> inbound_ok (InPacket p)) as Hin.
    { intros p Hp Hb. split; [done|]. apply Forall_forall. intros b Hin. rewrite forallb_forall in Hb. specialize (Hb b). rewrite <- list_elem_of_In in Hb. specialize (Hb Hin). unfold is_u8. lia. }
    constructor; [|constructor; [exact I|constructor; [|constructor]]]; (apply Hin; [split_and!; vm_compute; congruence|vm_compute; reflexivity]). }
  pose proof (request_configuration_verdict demo_key Video true [true; true; true] demo_run Hok) as H. cbv beta iota zeta in H.
  assert (Hscan : scan 1 false (more_sends 2 [true; true]) (items demo_key Video (cr_replay demo_run) (cr_inbound demo_run)) = (Ok demo_text, 2%nat, false)) by (vm_compute; reflexivity).
  change (cr_requests demo_run) with 0%nat in H. change (cr_panel_restart demo_run) with false in H. rewrite Hscan in H.
  destruct H as (r & c' & E & (Hr & He & Hcfg & Hrep) & Hreq & _). exists c'. rewrite Hr in E. split; [exact E|].
  rewrite Hcfg, Hrep, He. split_and!; [vm_compute; reflexivity..|exact Hreq|vm_compute; reflexivity].
Defined.
